(* ===== verification/_CoqProject ===== *)
-Q . S2P
Prelude.v
Errors.v
Bytes.v
JsonValue.v
Serde.v
DnsHeader.v
DnsName.v
DnsRecord.v
DnsPacket.v
NetAddr.v
Decimal.v
Str.v
SocketAddr.v
DnsConfig.v
ResolvConf.v
MergedDns.v
IpConfig.v
BaseIface.v
BridgeVlan.v
Bond.v
LinuxBridge.v
Kinds.v
Wifi.v
Wireguard.v
Iface.v
Interfaces.v
IfaceDiff.v
Eff.v
SectionSerde.v
MergedIface.v
MergedIfaceSpec.v
Controller.v
ControllerSpec.v
MergedIfaces.v
UpPriority.v
DnsAuto.v
DnsServer.v
DnsApply.v
Route.v
MergedRoute.v
RouteRule.v
MergedRouteRule.v
LinkEvent.v
NetState.v
MergedNetState.v
KernelApply.v
NoDaemonApply.v
Monitor.v
MonitorSpec.v
MonitorLive.v
MonitorSession.v
MonitorManager.v
EventWorker.v
EventSpec.v
EventApply.v
WifiConnect.v
ConfStore.v
DaemonQuery.v
DhcpManager.v
Daemon.v
DaemonApply.v
Boot.v
IfaceAction.v
WifiHints.v
WifiNetworks.v
WifiPlugin.v
DhcpLease.v
DhcpOnce.v
Netlink.v
NetlinkAddr.v
NetlinkRule.v
NetlinkRoute.v
