(* ===== verification/Prelude.v ===== *)
(** * A verification development for nipart

    nipart is a declarative network manager: a client describes the wanted state
    of a host in YAML, the library merges it with the current and the saved
    state, and the daemon applies the difference to the kernel, verifies the
    result, persists it, and reverts it on failure.  While it runs, the daemon
    watches the links of the host and acts on their events, keeps DHCP clients
    and WIFI connections going, and answers DNS queries.  This development
    models that path from the schema down to the messages for the kernel, and
    proves that what is decided on it is right.  It follows the code function by
    function: a definition has the name of the function it models, with a prefix
    where Rust distinguishes by the type.

    ** Parts

    Shared ground.
    - [Prelude.v] (this file): [Result] and the [?] operator, [Ord] as a class of
      total comparison functions ([TotalCmp]), [sort_unstable], [dedup] and
      [HashSet::insert] for types whose equality is that of a key ([Section
      Keyed]), list lemmas, tactics and the hint database [nipart].
    - [Errors.v]: src/lib/error.rs, the error kinds and which are retriable.
    - [Bytes.v]: big endian integers and slices of byte buffers, and exhaustive
      checks over a few bits.
    - [NetAddr.v], [Decimal.v], [Str.v], [SocketAddr.v]: what the code uses of the
      standard library on addresses, integers and strings.
    - [JsonValue.v]: src/lib/schema/value.rs, schema/revert/value.rs: filling,
      comparing, diffing and reverting JSON values; [Serde.v]: the derived
      serialization as an interface; [SectionSerde.v]: an instance of it for the
      examples.
    - [Eff.v]: computations that ask something of what is outside.

    DNS.
    - [DnsHeader.v], [DnsName.v], [DnsRecord.v], [DnsPacket.v]: src/lib/dns/
      (header.rs, record.rs, packet.rs): the DNS wire format, parsing and
      emission, with name compression, TTL positions and EDNS.
    - [DnsConfig.v], [MergedDns.v]: schema/dns.rs, schema/merged/dns.rs: the
      resolver configuration and its merge; [ResolvConf.v]: no_daemon/
      resolv_conf.rs: /etc/resolv.conf.
    - [DnsAuto.v], [DnsServer.v], [DnsApply.v]: src/daemon/dns_auto.rs, daemon/dns/
      and the DNS part of daemon/apply.rs: what DHCP teaches, the configuration
      of the embedded cache with its worker, applying, verifying, rolling back.

    The schema.
    - [IpConfig.v], [BaseIface.v]: schema/ip.rs, ifaces/base.rs: the IP sections
      and what all interfaces share.
    - [BridgeVlan.v], [Bond.v], [LinuxBridge.v], [Kinds.v], [Wifi.v],
      [Wireguard.v]: schema/ifaces/: the kinds of interfaces, what they check and
      complete.
    - [Iface.v], [Interfaces.v], [IfaceDiff.v]: schema/iface.rs and iface_*.rs,
      ifaces/inter_ifaces.rs, gen_diff/iface.rs, revert/iface.rs: an interface, the
      collection, merging and differences.
    - [Route.v], [RouteRule.v]: schema/route.rs, schema/route_rule.rs: routes and
      policy routing rules, their order, matching, sanitizing, validation, the
      merge of rule lists and automatic priorities.
    - [NetState.v]: schema/net_state.rs, wait_online.rs, state_options.rs.

    The merge (schema/merged/ with gen_diff/ and revert/).
    - [MergedIface.v], [MergedIfaceSpec.v]: merged/iface.rs: what an apply does to
      one interface.
    - [Controller.v], [ControllerSpec.v]: merged/controller.rs: ports follow their
      controllers.
    - [MergedIfaces.v], [UpPriority.v]: merged/inter_iface.rs: all interfaces and
      the order of their activation.
    - [MergedRoute.v], [MergedRouteRule.v]: merged/route.rs, merged/route_rule.rs.
    - [MergedNetState.v]: merged/net_state.rs: the whole state of an apply.

    The kernel.
    - [KernelApply.v], [NoDaemonApply.v]: no_daemon/: the requests of a merged
      state in their order; the apply without the daemon with its attempts.
    - [Netlink.v], [NetlinkAddr.v], [NetlinkRule.v], [NetlinkRoute.v]: src/lib/
      netlink/: addresses, rules and routes from and to the messages of the kernel.

    Link events.
    - [LinkEvent.v]: schema/link_event.rs, auto_connect.rs and the part of
      src/daemon/monitor/monitor_worker.rs that reads an event out of a message.
    - [Monitor.v]: monitor_worker.rs, the worker; [MonitorSpec.v]: the worker as
      one tracker per interface and the refinement; [MonitorLive.v]: what it does
      eventually; [MonitorSession.v]: pausing, resuming and the session;
      [MonitorManager.v]: monitor_manager.rs.
    - [EventWorker.v], [EventSpec.v], [EventApply.v]: daemon/event/event_worker.rs:
      what the daemon does on its own when links change.

    The daemon.
    - [ConfStore.v]: daemon/conf/: the saved configuration.
    - [Daemon.v], [DaemonQuery.v]: the state of the daemon, and daemon/query.rs.
    - [DaemonApply.v]: daemon/apply.rs, the transaction; [WifiConnect.v]: its wait
      for WIFI connections.
    - [Boot.v]: daemon/commander.rs, what is applied when the daemon starts.
    - [IfaceAction.v]: daemon/iface_action.rs, api.rs, wait_online.rs: the requests
      of the clients and who may make them.
    - [DhcpManager.v], [DhcpLease.v]: daemon/dhcp/: when clients are started and
      stopped, what is done with a lease, the workers; [DhcpOnce.v]: no_daemon/
      dhcp.rs.
    - [WifiHints.v], [WifiNetworks.v], [WifiPlugin.v]: src/plugin-wifi/.

    _CoqProject lists the files in the order in which they build on each other.
    A state flows through them so: [merged_net_state_new] merges a request
    with the current and the saved state, the parts of the result being those of
    MergedIfaces.v, MergedRoute.v, MergedRouteRule.v and MergedDns.v;
    [KernelApply.apply_merged_state] turns it into requests; [no_daemon_apply] and
    [daemon_apply] are the two transactions around that, the second with the
    monitor paused and the configuration saved.  The monitor reports events to
    the event worker, whose desired state goes the same way.

    ** State and operations

    Structs are records and enums inductive types; a method that mutates
    [&mut self] returns the new value, inside [result] when it can fail, inside an
    [outcome] when it can also panic.  Integers are [Z]: arithmetic that can wrap is
    written with its modulus ([as_u8], [as_u16], [wrap_i64]), and fields that are
    only stored or compared are plain [Z].  Byte vectors are [list Z], and
    [bytes_ok] says that the elements are bytes; strings are [string].  A [HashMap]
    is a [gmap], or the list of its entries when it is iterated over; a [HashSet] is
    a [gset], or, when the equality of its elements is that of a key, the list of its
    elements in insertion order.  Where the order of an iteration or of an unstable
    sort can matter it is a parameter ([Iteration], [LinkSort], [HashOrder]), any
    order the standard library allows, and the theorems hold for all.

    What is asynchronous and asks something of the outside is a computation [Eff] over
    a state [K] of which nothing is known: the kernel, the files, the plugins and the
    third-party clients are type classes of operations on [K] - [Kernel], [Host],
    [Outside], [Plugins], [DhcpWorkers], [Radio], [DhcpClient], [Dhcp6Client],
    [OnceClient], [Shuli], [Rtnetlink], [RouteBuilder] - so that a theorem holds whatever
    they answer; a step that fails leaves the state it had reached.  The only laws
    assumed of one are [RouteBuilderLaws], what the builder of route messages is
    documented to write.  /etc/resolv.conf is the value of the file; Unicode case
    mapping, /etc/hosts, the embedded DNS server, the derived serialization and YAML are
    parameters.

    The state of the daemon is the record [Daemon], the states of its workers with what is
    outside.  The monitor worker is a state machine: its state is the record [Monitor], a
    field per field of [NipartMonitorWorker] and the content of its channel; a handler is
    a computation of the monad [Mon], whose failure keeps the changes made before it; the
    main loop is the step relation given by [loop_iteration] and [run].  What a turn reads
    from outside is its [World], any value.  Time is in nanoseconds there, in milliseconds
    in the waits of the daemon.  The DHCP workers ([worker_step]), the WIFI plugin
    ([plugin_step]) and the concurrent requests of the daemonless DHCP ([once_step]) are step
    relations too: a step goes from one [.await] to the next.

    ** What is proved

    - The transaction: a failed apply is rolled back and nothing of it is saved, a
      successful one is saved ([apply_is_a_transaction]) and was verified on a state read
      back ([daemon_success_is_verified]); the monitor is resumed however it ends
      ([daemon_apply_takes_pause_back]); what an unprivileged client and what a command can
      change ([unprivileged_clients_only_read], [only_applies_are_saved]); the wait for WIFI
      ends ([wifi_wait_ends]); what is left out and what is created at boot
      ([manual_profiles_stay_down], [creatable_names_are_a_closure], [boot_always_listens]).
    - Interfaces: what is ignored or only saved is not applied, no real NIC is deleted, ports
      follow their controllers in any order of the hash map, priorities are found for four
      levels of controllers, the links are changed in that order
      ([controllers_are_linked_first]), and what waits for its link is held back with its
      routes and rules ([what_waits_is_held_back]).
    - Routes and rules: the changed routes and rules are the removals and additions
      the request means and nothing else; exactly the requests with a usable next
      hop are accepted; the persisted ones are the desired ones and those saved
      ones the apply keeps; an apply of rules that the kernel carries out verifies
      ([verify_after_apply]); automatic priorities are fresh.
    - The kernel's messages: the address changes lead from the current addresses to those
      asked for ([ip_changes_converge]); life times, rules and routes that are written are
      read back ([life_times_roundtrip], [rule_message_roundtrip],
      [route_message_roundtrip], the last but for the options that are never written); the
      routes that are shown and which of them are configuration ([shown_routes_correct]).
    - Link events: the worker is the product of independent trackers, one per
      interface, that debounce its events ([monitor_refines_trackers]); whatever
      notifications were lost, a reconciliation and a debounce later the state of
      the kernel was reported ([lost_changes_are_recovered]); what was brought down
      by hand stays silent ([explicitly_down_stays_silent]); an open session is
      always listened to ([session_invariant]); what the daemon does on its own comes
      from the saved configuration and a live event ([desired_state_is_justified],
      [saved_profiles_follow_links]) and is tried again ([failed_apply_is_retried]).
    - DHCP and WIFI: a lease replaces exactly the routes it takes the place of
      ([lease_routes_replace]); a query tells the truth about the clients
      ([dhcp_query_tells]); without the daemon every interface that asks for a lease gets
      one that is applied ([dhcp_once_serves_all]); the networks, NICs and the off state of
      the WIFI plugin, and the access points it remembers ([unforced_apply_sets_networks],
      [managed_nics_are_present], [wifi_off_stays_off], [recorded_bss_is_loaded],
      [same_saved_networks_iff]).
    - DNS: [parse] reads back what [to_bytes] writes ([packet_roundtrip]), through
      name compression ([emit_to_compressed_parses_back]); [parse_from] accepts
      exactly the names of the RFC 1035 grammar within its limits
      ([name_parse_iff_grammar]) and always ends ([name_parse_terminates]);
      /etc/resolv.conf is read back as written ([resolv_conf_roundtrip]); an applied
      configuration verifies ([applied_dns_verifies]).
    - JSON: the diff applied over the current state verifies against the desired
      state; a revert asks for the current values.
    - Sanitizing: canonical networks, IP sections, routes and rules are fixed
      points of their sanitizing, and what is accepted is canonical.

    Examples next to the theorems ([compression_merges_names],
    [delete_and_add_only_deletes], [failed_save_is_a_success],
    [reordered_addresses_stay], ...) record behaviours of the code that the theorems'
    hypotheses exclude.

    ** Fuel and bounds

    - [DnsDomainName::parse_from]: [NAME_FUEL] is 268, one more than ten pointers and
      255 octets with the two final turns can take; [name_parse_terminates] proves that it
      is never used up.
    - The waits: [WAIT_ROUNDS] (121), [SSID_WAIT_ROUNDS] (61) and [ACTION_ROUNDS] (121) are
      one more than the rounds that fit before the deadline, each round sleeping half a
      second or a second; [wifi_wait_ends] proves it of the first, for a clock that a sleep
      moves on.  [online_loop] has two rounds more than the seconds of its timeout, which
      are not proved to be enough; no property depends on it.
    - The closures at boot repeat a pass at most once per interface and once more;
      [manual_profiles_stay_down] and [creatable_names_are_a_closure] prove that the last
      pass changes nothing.
    - [decimal_loop]: a round per bit and one more, proved enough where it is used.
    - Loops that are bounded in the code have its bounds:
      [INTERFACES_SET_PRIORITY_MAX_RETRY] (4), the verifications (10 and 20 without the
      daemon, 10 and 60 with it), two attempts at an apply, thirty at a DHCPv6 client, ten
      at the SSID of a link event.
    Every other recursion is structural.  Serializing a message through the compression map
    is right for messages up to 16 KiB, the range of a compression pointer; the
    theorems carry that bound.  The priority counter is a wrapping [i64] and
    [set_auto_priority_correct] bounds its inputs.  The pause counter of the monitor stays
    within its type ([session_invariant]).  The liveness theorem assumes that the kernel and
    what the worker reads about it do not change between the two ticks and that the channel
    to the commander is open; [ticker_wakes_in_time] shows that the ticker of the loop
    provides such ticks.

    ** What is not modelled

    Error messages, logging, and [Display] but for what is parsed again or written to a file.
    The [ethernet] section of a NIC, and the properties of VXLAN, MACsec, bond and bridge
    sections that no modelled code reads.  The messages of the links (src/lib/netlink/link/ but for the
    index map): how link attributes become interfaces and link requests; the kernel that
    [KernelApply.v] and [NoDaemonApply.v] ask is an interface instead, so that
    the Netlink files are beside it and not below it.  The IPC between client, daemon and
    plugins, the task queues, the lock around the requests and the resumption after a
    suspend; the plugins other than that for WIFI, and its translation of scans (scan.rs);
    the crates mozim, shuli_wifi, rtnetlink and mudz; the command line tool.  The
    theorems about the activation order ask that no user-space interface shares its name
    with a kernel interface ([wired]).  [run_dhcp_once] is a parameter of the theorems about
    an apply, which hold for any; DhcpOnce.v has what it does.  The numbers of
    serde_json are a parameter of [JsonValue.v].

    ** Plan

    What would come next: the VLAN entries of bridges and the parsing of links
    (netlink/link/bridge.rs, parse.rs), as an instance of the kernel interface; the
    lock and the task queues of the daemon as an interleaving of its requests. *)

From stdpp Require Export prelude gmap strings sorting.
From Stdlib Require Export ZArith Lia.

#[global] Open Scope Z_scope.
#[global] Set Default Goal Selector "!".

(** ** Fallible code: Rust's [Result<A, E>] *)

Inductive result (E A : Type) : Type :=
| Ok (a : A)
| Err (e : E).
Arguments Ok {E A} a.
Arguments Err {E A} e.

Declare Scope result_scope.
Delimit Scope result_scope with result.

(** The [?] operator of Rust: bind the value, or return the error. *)
Notation "'let?' x := m 'in' k" :=
  (match m with Ok x => k | Err e => Err e end)
  (at level 10, x pattern, m at level 200, k at level 200) : result_scope.
#[global] Open Scope result_scope.

Definition is_ok {E A} (r : result E A) : bool :=
  match r with Ok _ => true | Err _ => false end.

Definition is_err {E A} (r : result E A) : bool := negb (is_ok r).

#[global] Instance result_eq_dec {E A} `{EqDecision E, EqDecision A} :
  EqDecision (result E A).
Proof. solve_decision. Defined.

(** [iter().map(f).collect::<Result<Vec<_>, _>>()] and the [for] loops that
    push the value of a fallible call: the first error is returned. *)
Fixpoint map_result {E A B} (f : A → result E B) (l : list A) :
    result E (list B) :=
  match l with
  | [] => Ok []
  | x :: l' =>
      let? y := f x in
      let? ys := map_result f l' in
      Ok (y :: ys)
  end.

(** [for x in l { b = f(b, x)?; }]. *)
Fixpoint fold_result {E A B} (f : B → A → result E B) (b : B) (l : list A) : result E B :=
  match l with
  | [] => Ok b
  | x :: l' => let? b := f b x in fold_result f b l'
  end.

Lemma map_result_Forall2 {E A B} (f : A → result E B) l ys :
  map_result f l = Ok ys ↔ Forall2 (λ x y, f x = Ok y) l ys.
Proof.
  revert ys. induction l as [|x l IH]; intros ys; simpl.
  - split; [by intros [= <-]|inversion 1; done].
  - destruct (f x) as [y|e] eqn:Hx.
    + destruct (map_result f l) as [ys'|e] eqn:Hl; split; intros H.
      * injection H as <-. constructor; [done|by apply IH].
      * inversion H as [|? y' ? ys'' Hy Hys]; simplify_eq.
        apply IH in Hys. congruence.
      * done.
      * inversion H as [|? y' ? ys'' Hy Hys]; simplify_eq.
        apply IH in Hys. congruence.
    + split; [done|]. inversion 1; congruence.
Qed.

(** ** Lists *)

Definition option_or {A} (x y : option A) : option A :=
  match x with
  | Some a => Some a
  | None => y
  end.

(** [iter().enumerate()]. *)
Definition enumerate {A} (l : list A) : list (nat * A) := zip (seq 0 (length l)) l.

Lemma omap_cons {A B} (f : A → option B) x (l : list A) :
  omap f (x :: l) = match f x with Some y => y :: omap f l | None => omap f l end.
Proof. done. Qed.

Lemma existsb_elem_of {A} (f : A → bool) (l : list A) :
  existsb f l = true ↔ ∃ x, x ∈ l ∧ f x = true.
Proof. rewrite existsb_exists. by setoid_rewrite list_elem_of_In. Qed.

Lemma existsb_false_elem_of {A} (f : A → bool) (l : list A) :
  existsb f l = false ↔ ∀ x, x ∈ l → f x = false.
Proof.
  rewrite <-not_true_iff_false, existsb_elem_of. split.
  - intros H x Hx. destruct (f x) eqn:E; [|done]. destruct H. eauto.
  - intros H (x & Hx & Hf). rewrite H in Hf; done.
Qed.

Lemma elem_of_enumerate {A} (l : list A) i x : (i, x) ∈ enumerate l ↔ l !! i = Some x.
Proof.
  unfold enumerate. rewrite list_elem_of_lookup. split.
  - intros (j & Hj). apply lookup_zip_Some in Hj as [Hi Hx].
    apply lookup_seq in Hi as [-> _]. done.
  - intros H. exists i. apply lookup_zip_Some. split; [|done].
    apply lookup_seq. apply lookup_lt_Some in H. lia.
Qed.

Lemma Forall2_elem_l {A B} (P : A → B → Prop) l k x :
  Forall2 P l k → x ∈ l → ∃ y, y ∈ k ∧ P x y.
Proof. induction 1; [set_solver|]. intros [->|]%elem_of_cons; set_solver. Qed.

Lemma Forall2_elem_r {A B} (P : A → B → Prop) l k y :
  Forall2 P l k → y ∈ k → ∃ x, x ∈ l ∧ P x y.
Proof. induction 1; [set_solver|]. intros [->|]%elem_of_cons; set_solver. Qed.

Lemma elem_of_omap_id {A} (l : list (option A)) x : x ∈ omap id l ↔ Some x ∈ l.
Proof. rewrite list_elem_of_omap. split; [by intros (o & Ho & [= ->])|by exists (Some x)]. Qed.

Lemma length_omap_id {A} (l : list (option A)) : (length (omap id l) ≤ length l)%nat.
Proof. induction l as [|[x|] l IH]; [done|..]; rewrite omap_cons; simpl; lia. Qed.

Lemma find_elem_of {A} (f : A → bool) l x :
  List.find f l = Some x → x ∈ l ∧ f x = true.
Proof. intros H%find_some. by rewrite list_elem_of_In. Qed.

Lemma find_none_elem_of {A} (f : A → bool) l x :
  List.find f l = None → x ∈ l → f x = false.
Proof. intros H Hx. eapply find_none; [done|by apply list_elem_of_In]. Qed.

(** Deleting a list of keys one after the other. *)
Lemma foldl_delete_lookup {A} (ks : list string) (m : gmap string A) n :
  foldl (λ m k, delete k m) m ks !! n = if decide (n ∈ ks) then None else m !! n.
Proof.
  revert m. induction ks as [|k ks IH]; intros m; simpl; [done|].
  rewrite IH. destruct (decide (n ∈ ks)) as [H|H], (decide (n ∈ k :: ks)) as [H'|H'];
    try done; [set_solver|..].
  - assert (n = k) as -> by set_solver. by rewrite lookup_delete_eq.
  - rewrite lookup_delete_ne; [done|set_solver].
Qed.

Lemma map_result_is_ok {E A B} (f : A → result E B) l :
  is_ok (map_result f l) = true ↔ ∀ x, x ∈ l → ∃ y, f x = Ok y.
Proof.
  induction l as [|x l IH]; simpl; [set_solver|].
  destruct (f x) as [y|] eqn:Ef.
  - destruct (map_result f l); simpl in *.
    + split; [|done]. intros _ z [->|Hz]%elem_of_cons; [eauto|]. by apply IH.
    + split; [done|]. intros H. apply IH. set_solver.
  - split; [done|]. intros H. destruct (H x) as [y Hy]; [set_solver|congruence].
Qed.

Lemma is_ok_Ok {E A} (r : result E A) : is_ok r = true ↔ ∃ x, r = Ok x.
Proof. destruct r; simpl; naive_solver. Qed.

Lemma omap_ext_in {A B} (f g : A → option B) (l : list A) :
  (∀ x, x ∈ l → f x = g x) → omap f l = omap g l.
Proof.
  induction l as [|x l IH]; intros H; [done|].
  change (omap f (x :: l)) with
    (match f x with Some y => y :: omap f l | None => omap f l end).
  rewrite (H x) by set_solver. by rewrite IH by set_solver.
Qed.

Lemma map_result_unit {E A} (f : A → result E unit) l :
  is_ok (map_result f l) = true ↔ ∀ x, x ∈ l → f x = Ok tt.
Proof.
  induction l as [|x l IH]; simpl; [set_solver|].
  destruct (f x) as [[]|] eqn:Ef; simpl.
  - destruct (map_result f l); simpl in *; set_solver.
  - split; [done|]. intros H. rewrite (H x) in Ef by set_solver. done.
Qed.

(** [if !v.contains(&x) { v.push(x) }], for one value and in a loop. *)
Definition push_unique {A} `{EqDecision A} (values : list A) (value : A) : list A :=
  if bool_decide (value ∈ values) then values else values ++ [value].

Definition push_all_unique {A} `{EqDecision A} (values new : list A) : list A :=
  foldl push_unique values new.

Lemma push_all_unique_spec {A} `{EqDecision A} (new values : list A) :
  values `prefix_of` push_all_unique values new ∧
  (∀ x, x ∈ push_all_unique values new ↔ x ∈ values ∨ x ∈ new) ∧
  (NoDup values → NoDup (push_all_unique values new)).
Proof.
  unfold push_all_unique. revert values. induction new as [|y new IH]; intros values; cbn [foldl].
  - split; [done|]. split; [set_solver|done].
  - destruct (IH (push_unique values y)) as (Hp & He & Hn). unfold push_unique in *.
    case_bool_decide as Hin.
    + split; [done|]. split; [|done]. intros x. rewrite He. set_solver.
    + split; [etransitivity; [|exact Hp]; by apply prefix_app_r|]. split.
      * intros x. rewrite He. set_solver.
      * intros Hnd. apply Hn, NoDup_app. split; [done|]. split; [set_solver|apply NoDup_singleton].
Qed.

Lemma elem_of_push_all {A} `{EqDecision A} (new values : list A) x :
  x ∈ push_all_unique values new ↔ x ∈ values ∨ x ∈ new.
Proof. apply push_all_unique_spec. Qed.

Lemma push_all_unique_new {A} `{EqDecision A} (l k : list A) :
  NoDup (l ++ k) → push_all_unique l k = l ++ k.
Proof.
  unfold push_all_unique. revert l. induction k as [|x k IH]; intros l Hnd; cbn [foldl].
  { by rewrite app_nil_r. }
  assert (x ∉ l) as Hx.
  { apply NoDup_app in Hnd as (_ & Hd & _). intros H. apply (Hd x H). by left. }
  unfold push_unique at 2. rewrite bool_decide_false by done.
  rewrite IH; rewrite <-app_assoc; done.
Qed.

(** ** Tactics and hint database *)

Create HintDb nipart.

(** Linear arithmetic with Euclidean division by constants. *)
Ltac zlia := Z.div_mod_to_equations; lia.

(** Break the boolean connectives of the hypotheses. *)
Ltac bool_hyps :=
  repeat match goal with
  | H : _ && _ = true |- _ => apply andb_true_iff in H; destruct H
  | H : _ || _ = false |- _ => apply orb_false_iff in H; destruct H
  | H : negb _ = true |- _ => apply negb_true_iff in H
  | H : negb _ = false |- _ => apply negb_false_iff in H
  | H : (_ =? _)%nat = true |- _ => apply Nat.eqb_eq in H
  | H : (_ =? _)%nat = false |- _ => apply Nat.eqb_neq in H
  | H : (_ <? _)%nat = true |- _ => apply Nat.ltb_lt in H
  | H : (_ <? _)%nat = false |- _ => apply Nat.ltb_ge in H
  | H : (_ <=? _)%nat = true |- _ => apply Nat.leb_le in H
  | H : (_ <=? _)%nat = false |- _ => apply Nat.leb_gt in H
  | H : (_ =? _) = true |- _ => apply Z.eqb_eq in H
  | H : (_ =? _) = false |- _ => apply Z.eqb_neq in H
  | H : (_ <? _) = true |- _ => apply Z.ltb_lt in H
  | H : (_ <? _) = false |- _ => apply Z.ltb_ge in H
  | H : (_ <=? _) = true |- _ => apply Z.leb_le in H
  | H : (_ <=? _) = false |- _ => apply Z.leb_gt in H
  | H : bool_decide _ = true |- _ => apply bool_decide_eq_true in H
  | H : bool_decide _ = false |- _ => apply bool_decide_eq_false in H
  end.

(** Case analysis on every test and result a hypothesis about an executable
    definition goes through, keeping the equations. *)
Ltac step_cases H :=
  repeat match type of H with
  | context [match ?x with _ => _ end] =>
      lazymatch x with
      | context [match _ with _ => _ end] => fail
      | _ => destruct x eqn:?; try discriminate H
      end
  end.

(** ** Total orders: Rust's [Ord::cmp] *)

(** What [Ord] promises: [Equal] is equality, swapping swaps, [Less] chains. *)
Class TotalCmp {A} (cmp : A → A → comparison) : Prop := {
  cmp_eq : ∀ x y, cmp x y = Eq ↔ x = y;
  cmp_sym : ∀ x y, cmp y x = CompOpp (cmp x y);
  cmp_trans : ∀ x y z, cmp x y = Lt → cmp y z = Lt → cmp x z = Lt;
}.

Lemma cmp_refl `{TotalCmp A cmp} (x : A) : cmp x x = Eq.
Proof. by apply cmp_eq. Qed.

(** Lexicographic order on [Vec] and on tuples. *)
Fixpoint list_cmp {A} (cmp : A → A → comparison) (l k : list A) : comparison :=
  match l, k with
  | [], [] => Eq
  | [], _ :: _ => Lt
  | _ :: _, [] => Gt
  | x :: l', y :: k' =>
      match cmp x y with Eq => list_cmp cmp l' k' | c => c end
  end.

Definition pair_cmp {A B} (cA : A → A → comparison) (cB : B → B → comparison)
    (x y : A * B) : comparison :=
  match cA x.1 y.1 with Eq => cB x.2 y.2 | c => c end.

(** [None < Some]. *)
Definition option_cmp {A} (cmp : A → A → comparison) (x y : option A) : comparison :=
  match x, y with
  | None, None => Eq
  | None, Some _ => Lt
  | Some _, None => Gt
  | Some a, Some b => cmp a b
  end.

(** [false < true]. *)
Definition bool_cmp (x y : bool) : comparison :=
  match x, y with
  | false, true => Lt
  | true, false => Gt
  | _, _ => Eq
  end.

(** [str] is compared bytewise. *)
Definition string_cmp : string → string → comparison := String.compare.

#[export] Instance bool_cmp_total : TotalCmp bool_cmp.
Proof.
  split; [intros [] []|intros [] []|intros [] [] []]; naive_solver.
Qed.

#[export] Instance Z_cmp_total : TotalCmp Z.compare.
Proof.
  split.
  - intros x y. apply Z.compare_eq_iff.
  - intros x y. apply Z.compare_antisym.
  - intros x y z. rewrite !Z.compare_lt_iff. lia.
Qed.

#[export] Instance list_cmp_total `{TotalCmp A cmp} : TotalCmp (list_cmp cmp).
Proof.
  split.
  - induction x as [|x l IH]; intros [|y k]; simpl; try done.
    destruct (cmp x y) eqn:E.
    + apply cmp_eq in E as ->. rewrite IH. naive_solver.
    + split; [done|]. intros [= -> ->]. by rewrite cmp_refl in E.
    + split; [done|]. intros [= -> ->]. by rewrite cmp_refl in E.
  - induction x as [|x l IH]; intros [|y k]; simpl; try done.
    rewrite (cmp_sym x y). destruct (cmp x y); simpl; auto.
  - induction x as [|x l IH]; intros [|y k] [|z m]; simpl; try done.
    destruct (cmp x y) eqn:E1; try done.
    + apply cmp_eq in E1 as ->. destruct (cmp y z); naive_solver.
    + intros _. destruct (cmp y z) eqn:E2; try done.
      * apply cmp_eq in E2 as ->. by rewrite E1.
      * by rewrite (cmp_trans _ _ _ E1 E2).
Qed.

#[export] Instance option_cmp_total `{TotalCmp A cmp} : TotalCmp (option_cmp cmp).
Proof.
  split.
  - intros [x|] [y|]; simpl; try done. rewrite cmp_eq. naive_solver.
  - intros [x|] [y|]; simpl; auto using cmp_sym.
  - intros [x|] [y|] [z|]; simpl; try done. apply cmp_trans.
Qed.

#[export] Instance pair_cmp_total `{TotalCmp A cA, TotalCmp B cB} :
  TotalCmp (pair_cmp cA cB).
Proof.
  split; unfold pair_cmp.
  - intros [x1 x2] [y1 y2]; simpl. destruct (cA x1 y1) eqn:E.
    + apply cmp_eq in E as ->. rewrite cmp_eq. naive_solver.
    + split; [done|]. intros [= -> ->]. by rewrite cmp_refl in E.
    + split; [done|]. intros [= -> ->]. by rewrite cmp_refl in E.
  - intros [x1 x2] [y1 y2]; simpl. rewrite (cmp_sym x1 y1).
    destruct (cA x1 y1); simpl; auto using cmp_sym.
  - intros [x1 x2] [y1 y2] [z1 z2]; simpl.
    destruct (cA x1 y1) eqn:E1; try done.
    + apply cmp_eq in E1 as ->. destruct (cA y1 z1); eauto using cmp_trans.
    + intros _. destruct (cA y1 z1) eqn:E2; try done.
      * apply cmp_eq in E2 as ->. by rewrite E1.
      * by rewrite (cmp_trans _ _ _ E1 E2).
Qed.

Lemma ascii_cmp_eq a b : Ascii.compare a b = Eq ↔ a = b.
Proof.
  split; [apply Ascii.compare_eq_iff|]. intros ->. apply N.compare_refl.
Qed.

#[export] Instance string_cmp_total : TotalCmp string_cmp.
Proof.
  unfold string_cmp. split.
  - intros x y. split; [apply String.compare_eq_iff|]. intros ->.
    induction y as [|a y IH]; simpl; [done|].
    by rewrite (proj2 (ascii_cmp_eq a a) eq_refl).
  - intros x y. rewrite (String.compare_antisym y x). done.
  - induction x as [|a x IH]; intros [|b y] [|c z]; simpl; try done.
    destruct (Ascii.compare a b) eqn:E1; try done.
    + apply ascii_cmp_eq in E1 as ->.
      destruct (Ascii.compare b c); naive_solver.
    + intros _. destruct (Ascii.compare b c) eqn:E2; try done.
      * apply ascii_cmp_eq in E2 as ->. by rewrite E1.
      * assert (Ascii.compare a c = Lt) as ->; [|done].
        unfold Ascii.compare in *. rewrite N.compare_lt_iff in *. lia.
Qed.

(** ** Sorting by a key: [sort()], [sort_unstable()] and [dedup()] *)

(** A type whose [Ord]/[Eq]/[Hash] are those of a key, which may forget
    fields: two different values may compare equal. *)
Section Keyed.
Context {A K : Type} (cmp : K → K → comparison) (key : A → K).
Context `{!TotalCmp cmp}.

Definition key_eqb (x y : A) : bool :=
  match cmp (key x) (key y) with Eq => true | _ => false end.

Definition key_le (x y : A) : Prop := cmp (key x) (key y) ≠ Gt.

#[export] Instance key_le_dec : RelDecision key_le.
Proof. intros x y. unfold key_le. solve_decision. Defined.

Lemma key_eqb_true x y : key_eqb x y = true ↔ key x = key y.
Proof.
  unfold key_eqb. rewrite <-(cmp_eq (cmp:=cmp)). destruct (cmp _ _); naive_solver.
Qed.

Lemma key_eqb_refl x : key_eqb x x = true.
Proof. by apply key_eqb_true. Qed.

#[export] Instance key_le_total : Total key_le.
Proof.
  intros x y. unfold key_le. rewrite (cmp_sym (key x) (key y)).
  destruct (cmp (key x) (key y)); naive_solver.
Qed.

#[export] Instance key_le_trans : Transitive key_le.
Proof.
  unfold key_le. intros x y z Hxy Hyz Hgt.
  pose proof (cmp_sym (key x) (key z)) as Hzx. rewrite Hgt in Hzx.
  destruct (cmp (key x) (key y)) eqn:E1; try done.
  - apply cmp_eq in E1. rewrite E1 in Hgt. done.
  - destruct (cmp (key y) (key z)) eqn:E2; try done.
    + apply cmp_eq in E2. rewrite E2 in E1. congruence.
    + rewrite (cmp_trans _ _ _ E1 E2) in Hgt. done.
Qed.

Lemma key_le_antisym x y : key_le x y → key_le y x → key x = key y.
Proof.
  unfold key_le. rewrite (cmp_sym (key x) (key y)).
  intros H1 H2. apply cmp_eq. destruct (cmp (key x) (key y)); done.
Qed.

(** [sort_unstable] may permute elements that compare equal; this is the
    stable one.  Where the elements have distinct keys the result is the
    only sorted one, see [sort_by_unique]. *)
Definition sort_by (l : list A) : list A := merge_sort key_le l.

Lemma sort_by_perm l : sort_by l ≡ₚ l.
Proof. apply merge_sort_Permutation. Qed.

Lemma sort_by_sorted l : StronglySorted key_le (sort_by l).
Proof. apply (StronglySorted_merge_sort _). Qed.

Lemma elem_of_sort_by x l : x ∈ sort_by l ↔ x ∈ l.
Proof. by rewrite sort_by_perm. Qed.

(** Keys are pairwise distinct. *)
Definition keys_distinct (l : list A) : Prop := NoDup (key <$> l).

Lemma keys_distinct_inj l x y :
  keys_distinct l → x ∈ l → y ∈ l → key x = key y → x = y.
Proof.
  intros Hnd [i Hi]%list_elem_of_lookup [j Hj]%list_elem_of_lookup Hk.
  assert (i = j) as ->; [|congruence].
  eapply (NoDup_lookup (key <$> l)); [done|..];
    rewrite list_lookup_fmap; [by rewrite Hi|by rewrite Hj; simpl; f_equal].
Qed.

Lemma sort_by_unique l k :
  keys_distinct l → StronglySorted key_le k → k ≡ₚ l → sort_by l = k.
Proof.
  intros Hnd Hk Hp.
  eapply (StronglySorted_unique_strong key_le); auto using sort_by_sorted.
  - intros x y Hx Hy H1 H2. rewrite elem_of_sort_by in Hx. rewrite Hp in Hy.
    eauto using keys_distinct_inj, key_le_antisym.
  - by rewrite sort_by_perm, Hp.
Qed.

(** Where equal keys mean equal elements, sorting forgets the order. *)
Lemma sort_by_perm_eq l k :
  (∀ x y, key x = key y → x = y) → l ≡ₚ k → sort_by l = sort_by k.
Proof.
  intros Hinj Hp.
  eapply (StronglySorted_unique_strong key_le); auto using sort_by_sorted.
  - intros x y _ _ H1 H2. by apply Hinj, key_le_antisym.
  - by rewrite !sort_by_perm.
Qed.

(** The order in which a hash set yields its elements does not reach the
    sorted vector. *)
Lemma sort_by_order_irrelevant l k :
  keys_distinct l → l ≡ₚ k → sort_by l = sort_by k.
Proof.
  intros Hnd Hp. apply sort_by_unique; auto using sort_by_sorted.
  by rewrite sort_by_perm.
Qed.

(** [HashSet::insert]: an element equal to one present is dropped. *)
Definition hset_insert (x : A) (l : list A) : list A :=
  if existsb (key_eqb x) l then l else l ++ [x].

Definition hset_insert_all (xs l : list A) : list A :=
  foldl (λ acc x, hset_insert x acc) l xs.

Lemma existsb_key_eqb x l :
  existsb (key_eqb x) l = true ↔ key x ∈ key <$> l.
Proof.
  rewrite existsb_exists, list_elem_of_fmap. split.
  - intros (y & Hy & He%key_eqb_true). exists y.
    split; [done|by apply list_elem_of_In].
  - intros (y & He & Hy). exists y. rewrite key_eqb_true.
    split; [by apply list_elem_of_In|done].
Qed.

Lemma hset_insert_distinct x l :
  keys_distinct l → keys_distinct (hset_insert x l).
Proof.
  unfold hset_insert, keys_distinct. intros H.
  destruct (existsb (key_eqb x) l) eqn:E; [done|].
  rewrite fmap_app. apply NoDup_app. split; [done|split].
  - intros k Hk Hx. apply list_elem_of_singleton in Hx as ->.
    apply existsb_key_eqb in Hk. congruence.
  - apply NoDup_singleton.
Qed.

Lemma hset_insert_all_distinct xs l :
  keys_distinct l → keys_distinct (hset_insert_all xs l).
Proof.
  revert l. induction xs as [|x xs IH]; intros l H; simpl; [done|].
  by apply IH, hset_insert_distinct.
Qed.

Lemma elem_of_hset_insert x y l :
  y ∈ hset_insert x l → y = x ∨ y ∈ l.
Proof.
  unfold hset_insert. destruct (existsb _ _); [by right|]. set_solver.
Qed.

Lemma hset_insert_keeps x y l : y ∈ l → y ∈ hset_insert x l.
Proof. unfold hset_insert. destruct (existsb _ _); set_solver. Qed.

(** After the insertion the set holds an element with the key of [x]. *)
Lemma hset_insert_key x l : key x ∈ key <$> hset_insert x l.
Proof.
  unfold hset_insert. destruct (existsb (key_eqb x) l) eqn:E.
  - by apply existsb_key_eqb.
  - rewrite fmap_app. set_solver.
Qed.

Lemma hset_insert_new x l : key x ∉ key <$> l → x ∈ hset_insert x l.
Proof.
  unfold hset_insert. intros H. destruct (existsb (key_eqb x) l) eqn:E.
  - by apply existsb_key_eqb in E.
  - set_solver.
Qed.

Lemma hset_insert_all_keeps xs y l : y ∈ l → y ∈ hset_insert_all xs l.
Proof.
  revert l. induction xs as [|x xs IH]; intros l H; simpl; [done|].
  by apply IH, hset_insert_keeps.
Qed.

Lemma elem_of_hset_insert_all xs y l :
  y ∈ hset_insert_all xs l → y ∈ xs ∨ y ∈ l.
Proof.
  revert l. induction xs as [|x xs IH]; intros l; simpl; [by right|].
  intros [H|H]%IH; [set_solver|].
  apply elem_of_hset_insert in H. set_solver.
Qed.

Lemma hset_insert_all_key xs x l :
  x ∈ xs ∨ x ∈ l → key x ∈ key <$> hset_insert_all xs l.
Proof.
  revert l. induction xs as [|x' xs IH]; intros l; simpl.
  - intros [H|H]; [set_solver|]. apply list_elem_of_fmap. eauto.
  - intros [[->|H]%elem_of_cons|H].
    + pose proof (hset_insert_key x' l) as Hk.
      apply list_elem_of_fmap in Hk as (y & -> & Hy).
      apply list_elem_of_fmap_2. by apply hset_insert_all_keeps.
    + auto.
    + apply IH. right. by apply hset_insert_keeps.
Qed.

Lemma hset_insert_all_app xs ys l :
  hset_insert_all (xs ++ ys) l = hset_insert_all ys (hset_insert_all xs l).
Proof. apply foldl_app. Qed.

Lemma key_notin_app k (l l' : list A) :
  k ∉ key <$> l ++ l' ↔ k ∉ key <$> l ∧ k ∉ key <$> l'.
Proof. by rewrite fmap_app, not_elem_of_app. Qed.

(** Of the elements inserted with one key the first stays. *)
Lemma elem_of_hset_insert_all_first xs y l :
  y ∈ hset_insert_all xs l ↔
  y ∈ l ∨ ∃ xs1 xs2, xs = xs1 ++ y :: xs2 ∧ key y ∉ key <$> l ++ xs1.
Proof.
  revert l. induction xs as [|x xs IH]; intros l.
  { split; [by left|]. by intros [H|([|]&?&?&_)]. }
  change (hset_insert_all (x :: xs) l) with (hset_insert_all xs (hset_insert x l)).
  rewrite IH. unfold hset_insert. destruct (existsb (key_eqb x) l) eqn:E.
  - apply existsb_key_eqb in E. split.
    + intros [H|(xs1 & xs2 & -> & H)]; [by left|right]. exists (x :: xs1), xs2.
      split; [done|]. rewrite key_notin_app in *. destruct H as [Hl H1].
      split; [done|]. rewrite fmap_cons, not_elem_of_cons. split; [congruence|done].
    + intros [H|([|x' xs1] & xs2 & Hxs & H)]; [by left| |]; injection Hxs as <- ->.
      * by rewrite app_nil_r in H.
      * right. exists xs1, xs2. split; [done|]. rewrite key_notin_app in *.
        rewrite fmap_cons, not_elem_of_cons in H. tauto.
  - assert (key x ∉ key <$> l) as Hx by (rewrite <-existsb_key_eqb, E; done).
    split.
    + intros [[H| ->%list_elem_of_singleton]%elem_of_app|(xs1 & xs2 & -> & H)]; [by left| |].
      * right. exists [], xs. by rewrite app_nil_r.
      * right. exists (x :: xs1), xs2. split; [done|]. by rewrite <-app_assoc in H.
    + intros [H|([|x' xs1] & xs2 & Hxs & H)]; [set_solver|..]; injection Hxs as <- ->;
        [set_solver|].
      right. exists xs1, xs2. split; [done|]. by rewrite <-app_assoc.
Qed.

(** A loop that inserts what [f] gives. *)
Lemma foldl_hset_insert_omap {X} (f : X → option A) (step : list A → X → list A) xs l :
  (∀ s x, step s x = match f x with Some y => hset_insert y s | None => s end) →
  foldl step l xs = hset_insert_all (omap f xs) l.
Proof.
  intros Hs. revert l. induction xs as [|x xs IH]; intros l; [done|].
  cbn [foldl]. rewrite Hs, IH.
  change (omap f (x :: xs)) with
    (match f x with Some y => y :: omap f xs | None => omap f xs end).
  by destruct (f x).
Qed.

(** [Vec::dedup]: of a run of consecutive equal elements the first stays. *)
Fixpoint dedup_from (x : A) (l : list A) : list A :=
  match l with
  | [] => [x]
  | y :: l' =>
      if key_eqb x y then dedup_from x l' else x :: dedup_from y l'
  end.

Definition dedup (l : list A) : list A :=
  match l with [] => [] | x :: l' => dedup_from x l' end.

Lemma elem_of_dedup_from x y l : y ∈ dedup_from x l → y = x ∨ y ∈ l.
Proof.
  revert x. induction l as [|z l IH]; intros x; simpl; [set_solver|].
  destruct (key_eqb x z); [intros H%IH; set_solver|].
  rewrite elem_of_cons. intros [->|H%IH]; set_solver.
Qed.

Lemma elem_of_dedup y l : y ∈ dedup l → y ∈ l.
Proof.
  destruct l as [|x l]; simpl; [done|].
  intros [->|H]%elem_of_dedup_from; set_solver.
Qed.

Lemma dedup_from_keys x y l :
  y = x ∨ y ∈ l → key y ∈ key <$> dedup_from x l.
Proof.
  revert x y. induction l as [|z l IH]; intros x y; simpl.
  - intros [->|H]; set_solver.
  - destruct (key_eqb x z) eqn:E.
    + apply key_eqb_true in E. intros [Hy|[Hy|H]%elem_of_cons].
      * subst y. apply IH. by left.
      * subst y. rewrite <-E. apply IH. by left.
      * apply IH. by right.
    + rewrite fmap_cons, elem_of_cons, elem_of_cons.
      intros [Hy|[Hy|H]].
      * left. by rewrite Hy.
      * right. apply IH. by left.
      * right. apply IH. by right.
Qed.

Lemma dedup_keys y l : y ∈ l → key y ∈ key <$> dedup l.
Proof.
  destruct l as [|x l]; [set_solver|]; simpl.
  intros [->|H]%elem_of_cons; apply dedup_from_keys; auto.
Qed.

(** On a sorted list the result has no two equal elements. *)
Definition key_lt (x y : A) : Prop := cmp (key x) (key y) = Lt.

Lemma key_lt_le_trans x y z : key_lt x y → key_le y z → key_lt x z.
Proof.
  unfold key_lt, key_le. intros Hxy Hyz.
  destruct (cmp (key y) (key z)) eqn:E; [|by eapply cmp_trans|done].
  apply cmp_eq in E. by rewrite <- E.
Qed.

Lemma dedup_from_sorted x l :
  StronglySorted key_le (x :: l) → StronglySorted key_lt (dedup_from x l).
Proof.
  revert x. induction l as [|y l IH]; intros x Hs; simpl; [repeat constructor|].
  apply StronglySorted_inv in Hs as [Hs Hx].
  apply Forall_cons in Hx as [Hxy Hx].
  pose proof Hs as [Hs' Hy]%StronglySorted_inv.
  destruct (key_eqb x y) eqn:E.
  - apply IH. constructor; [done|]. eapply Forall_impl; [exact Hy|]. intros z Hz Hgt.
    apply Hz. apply key_eqb_true in E. by rewrite <- E.
  - constructor; [by apply IH|]. rewrite Forall_forall. intros z Hz%elem_of_dedup_from.
    assert (key_lt x y) as Hlt.
    { unfold key_lt. unfold key_le in Hxy. unfold key_eqb in E.
      destruct (cmp (key x) (key y)); done. }
    destruct Hz as [->|Hz]; [done|]. apply (key_lt_le_trans x y z Hlt).
    rewrite Forall_forall in Hy. by apply Hy.
Qed.

Lemma dedup_sorted l : StronglySorted key_le l → StronglySorted key_lt (dedup l).
Proof. destruct l as [|x l]; simpl; [constructor|apply dedup_from_sorted]. Qed.

(** Being sorted only depends on the keys. *)
Lemma sorted_same_keys l k :
  key <$> l = key <$> k → StronglySorted key_le l → StronglySorted key_le k.
Proof.
  revert k. induction l as [|x l IH]; intros [|y k] Heq Hs; try done.
  rewrite !fmap_cons in Heq. injection Heq as Hxy Heq.
  apply StronglySorted_inv in Hs as [Hs Hx]. constructor; [by apply IH|].
  rewrite Forall_forall in Hx |- *. intros z Hz.
  apply (list_elem_of_fmap_2 key) in Hz. rewrite <- Heq in Hz.
  apply list_elem_of_fmap in Hz as (z' & Hz' & Hin). specialize (Hx z' Hin).
  unfold key_le in *. by rewrite <- Hxy, Hz'.
Qed.
End Keyed.

#[export] Hint Resolve hset_insert_keeps hset_insert_all_keeps : nipart.
