(* ===== verification/Errors.v ===== *)
(** * Errors: [src/lib/error.rs]

    The error kinds of the whole program and which of them an apply retries.
    The human readable message of a [NipartError] is not modelled: an error is
    its kind. *)

From S2P Require Export Prelude.

Inductive ErrorKind : Type :=
| Bug
| IpcClosed
| IpcFailure
| IpcMessageTooLarge
| InvalidLogLevel
| InvalidUuid
| InvalidSchemaVersion
| InvalidArgument
| ETimeout
| NoSupport
| AuthenticationError
| PluginFailure
| DaemonFailure
| VerificationError
| PermissionDeny
| DependencyError.

#[export] Instance ErrorKind_eq_dec : EqDecision ErrorKind.
Proof. solve_decision. Defined.

Record NipartError : Type := nipart_error { kind : ErrorKind }.

#[export] Instance NipartError_eq_dec : EqDecision NipartError.
Proof. solve_decision. Defined.

(** [ErrorKind::retriable]: [false] exactly on the deterministic failures. *)
Definition retriable (k : ErrorKind) : bool :=
  negb (match k with
        | Bug | IpcMessageTooLarge | InvalidLogLevel | InvalidUuid
        | InvalidSchemaVersion | InvalidArgument | NoSupport
        | AuthenticationError | PermissionDeny => true
        | _ => false
        end).

Notation res A := (result NipartError A) (only parsing).

(** [Err(NipartError::new(kind, ..))]. *)
Notation fail k := (Err (nipart_error k)).

Lemma fail_inj k k' : nipart_error k = nipart_error k' → k = k'.
Proof. by intros [= ->]. Qed.
