(* ===== verification/Bytes.v ===== *)
(** * Bytes: byte strings and the big-endian integers of the wire formats

    A byte is a [Z] in [0, 256), a buffer a [list Z]; offsets and lengths
    ([usize]) are [nat].  Indexing [buf[i]] is [buf !!! i]: every use in the
    development is behind the length check the code makes, as the code would
    panic otherwise. *)

From S2P Require Export Prelude.

#[global] Open Scope Z_scope.

Definition byte_ok (b : Z) : Prop := 0 ≤ b < 256.
Definition bytes_ok (l : list Z) : Prop := Forall byte_ok l.

(** [n as u8], [n as u16], [n as u32]. *)
Definition as_u8 (n : Z) : Z := n mod 256.
Definition as_u16 (n : Z) : Z := n mod 65536.
Definition as_u32 (n : Z) : Z := n mod 4294967296.

Definition is_u16 (n : Z) : Prop := 0 ≤ n < 65536.
Definition is_u32 (n : Z) : Prop := 0 ≤ n < 4294967296.

(** [u16::to_be_bytes], [u32::to_be_bytes]. *)
Definition u16_be (n : Z) : list Z := [n / 256 mod 256; n mod 256].
Definition u32_be (n : Z) : list Z :=
  [n / 16777216 mod 256; n / 65536 mod 256; n / 256 mod 256; n mod 256].

(** [u16::from_be_bytes], [u32::from_be_bytes]. *)
Definition from_be16 (a b : Z) : Z := a * 256 + b.
Definition from_be32 (a b c d : Z) : Z :=
  a * 16777216 + b * 65536 + c * 256 + d.

(** [buf[off..off + n]]. *)
Definition slice (buf : list Z) (off n : nat) : list Z := take n (drop off buf).

Lemma from_u16_be n :
  is_u16 n → from_be16 (n / 256 mod 256) (n mod 256) = n.
Proof. unfold is_u16, from_be16. zlia. Qed.

Lemma from_u32_be n :
  is_u32 n →
  from_be32 (n / 16777216 mod 256) (n / 65536 mod 256) (n / 256 mod 256)
    (n mod 256) = n.
Proof. unfold is_u32, from_be32. zlia. Qed.

Lemma u16_be_from a b : byte_ok a → byte_ok b → u16_be (from_be16 a b) = [a; b].
Proof. unfold byte_ok, u16_be, from_be16. intros. repeat f_equal; zlia. Qed.

Lemma u32_be_from a b c d :
  byte_ok a → byte_ok b → byte_ok c → byte_ok d →
  u32_be (from_be32 a b c d) = [a; b; c; d].
Proof. unfold byte_ok, u32_be, from_be32. intros. repeat f_equal; zlia. Qed.

Lemma from_be16_range a b : byte_ok a → byte_ok b → is_u16 (from_be16 a b).
Proof. unfold byte_ok, is_u16, from_be16. lia. Qed.

Lemma as_u8_small n : 0 ≤ n < 256 → as_u8 n = n.
Proof. apply Z.mod_small. Qed.

Lemma as_u16_small n : is_u16 n → as_u16 n = n.
Proof. apply Z.mod_small. Qed.

Lemma u16_be_ok n : bytes_ok (u16_be n).
Proof.
  unfold u16_be, bytes_ok, byte_ok. repeat constructor; apply Z.mod_pos_bound; lia.
Qed.

Lemma length_u16_be n : length (u16_be n) = 2%nat.
Proof. done. Qed.

Lemma length_u32_be n : length (u32_be n) = 4%nat.
Proof. done. Qed.

Lemma length_slice buf off n :
  (off + n ≤ length buf)%nat → length (slice buf off n) = n.
Proof. unfold slice. rewrite length_take, length_drop. lia. Qed.

(** Reading a buffer that is [pre ++ x ++ post] at the end of [pre]. *)
Lemma lookup_total_at (pre post : list Z) x : (pre ++ x :: post) !!! length pre = x.
Proof.
  apply list_lookup_total_correct. rewrite lookup_app_r by lia.
  by rewrite Nat.sub_diag.
Qed.

Lemma lookup_total_after (pre post : list Z) i :
  (pre ++ post) !!! (length pre + i)%nat = post !!! i.
Proof.
  rewrite !list_lookup_total_alt, lookup_app_r by lia.
  by replace (length pre + i - length pre)%nat with i by lia.
Qed.

Lemma slice_at (pre mid post : list Z) :
  slice (pre ++ mid ++ post) (length pre) (length mid) = mid.
Proof. unfold slice. by rewrite drop_app_length, take_app_length. Qed.

Lemma slice_app_l (buf post : list Z) off n :
  (off + n ≤ length buf)%nat → slice (buf ++ post) off n = slice buf off n.
Proof.
  intros H. unfold slice. rewrite drop_app_le by lia.
  apply take_app_le. rewrite length_drop. lia.
Qed.

Lemma lookup_total_app_l (buf post : list Z) i :
  (i < length buf)%nat → (buf ++ post) !!! i = buf !!! i.
Proof. intros H. by rewrite !list_lookup_total_alt, lookup_app_l by lia. Qed.

(** ** Facts about machine words by enumeration of their bits *)

(** [P] on every number whose leading bits are those of [x], with [k] more. *)
Fixpoint all_bits (k : nat) (P : Z → bool) (x : Z) : bool :=
  match k with
  | O => P x
  | S k' => all_bits k' P (2 * x) && all_bits k' P (2 * x + 1)
  end.

Lemma all_bits_spec k P x y :
  all_bits k P x = true → x * 2 ^ Z.of_nat k ≤ y < (x + 1) * 2 ^ Z.of_nat k →
  P y = true.
Proof.
  revert x. induction k as [|k IH]; intros x; cbn [all_bits].
  - intros H Hy. replace y with x by lia. done.
  - intros [H0 H1]%andb_true_iff. rewrite Nat2Z.inj_succ, Z.pow_succ_r by lia.
    intros Hy. destruct (Z.lt_ge_cases y ((2 * x + 1) * 2 ^ Z.of_nat k)).
    + apply (IH (2 * x)); [done|lia].
    + apply (IH (2 * x + 1)); [done|lia].
Qed.
