(* ===== verification/JsonValue.v ===== *)
(** * JsonValue: [src/lib/schema/value.rs] and [src/lib/schema/revert/value.rs]

    The state merging, diffing and reverting of the daemon works on
    [serde_json::Value]s.  Numbers come from serde_json, which is not part of
    the repository: their type is a parameter with decidable equality.  An
    object is the association list its iterator yields; [obj_insert] is
    [Map::insert] of the default (ordered) map. *)

From S2P Require Export Errors.
From stdpp Require Import pretty.

Section Json.
Context {Num : Type} `{!EqDecision Num}.

Inductive Value : Type :=
| Null
| Bool (b : bool)
| Number (n : Num)
| VString (s : string)
| Array (l : list Value)
| Object (m : list (string * Value)).

Abbreviation entries := (list (string * Value)).

(** Induction with a hypothesis for every array element and object entry. *)
Section Value_ind.
Context (P : Value → Prop).
Context (HNull : P Null) (HBool : ∀ b, P (Bool b)) (HNumber : ∀ n, P (Number n))
  (HString : ∀ s, P (VString s)) (HArray : ∀ l, Forall P l → P (Array l))
  (HObject : ∀ m, Forall (λ kv, P kv.2) m → P (Object m)).

Fixpoint Value_nested_ind (v : Value) : P v :=
  match v with
  | Null => HNull
  | Bool b => HBool b
  | Number n => HNumber n
  | VString s => HString s
  | Array l => HArray l
      ((fix go l : Forall P l :=
          match l with
          | [] => @List.Forall_nil _ _
          | v :: l' => @List.Forall_cons _ _ _ _ (Value_nested_ind v) (go l')
          end) l)
  | Object m => HObject m
      ((fix go m : Forall (λ kv, P kv.2) m :=
          match m with
          | [] => @List.Forall_nil _ _
          | (k, v) :: m' =>
              @List.Forall_cons _ (λ kv, P kv.2) (k, v) m' (Value_nested_ind v) (go m')
          end) m)
  end.
End Value_ind.

(** ** serde_json's [Map] as the list its iterator yields *)

Fixpoint obj_get (k : string) (m : entries) : option Value :=
  match m with
  | [] => None
  | (k', v) :: m' => if String.eqb k k' then Some v else obj_get k m'
  end.

Fixpoint obj_insert (k : string) (v : Value) (m : entries) : entries :=
  match m with
  | [] => [(k, v)]
  | (k', v') :: m' =>
      match string_cmp k k' with
      | Lt => (k, v) :: m
      | Eq => (k, v) :: m'
      | Gt => (k', v') :: obj_insert k v m'
      end
  end.

(** Assignment through the reference [get_mut] returned. *)
Fixpoint obj_set (k : string) (v : Value) (m : entries) : entries :=
  match m with
  | [] => []
  | (k', v') :: m' =>
      if String.eqb k k' then (k', v) :: m' else (k', v') :: obj_set k v m'
  end.

(** Structural equality, [PartialEq for Value]. *)
Definition list_eqb {A} (eqb : A → A → bool) := fix go (l k : list A) : bool :=
  match l, k with
  | [], [] => true
  | x :: l', y :: k' => eqb x y && go l' k'
  | _, _ => false
  end.

Fixpoint value_eqb (v w : Value) {struct v} : bool :=
  match v, w with
  | Null, Null => true
  | Bool b, Bool c => Bool.eqb b c
  | Number n, Number p => bool_decide (n = p)
  | VString s, VString t => String.eqb s t
  | Array l, Array k => list_eqb value_eqb l k
  | Object m, Object n =>
      list_eqb (λ x y : string * Value,
        match x, y with (kx, vx), (ky, vy) => String.eqb kx ky && value_eqb vx vy end)
        m n
  | _, _ => false
  end.

(** ** The code *)

Definition HIDE_SECRET_STR : string := "<_hidden_>".

Definition is_hide_secret_str (v : Value) : bool :=
  match v with VString s => String.eqb s HIDE_SECRET_STR | _ => false end.

(** The loop of [copy_undefined_value] over [src.iter()]. *)
Definition copy_entries (rec : Value → Value → Value) :=
  fix go (src dst : entries) {struct src} : entries :=
    match src with
    | [] => dst
    | (src_key, src_value) :: src' =>
        go src'
          (match obj_get src_key dst with
           | Some dst_value =>
               if is_hide_secret_str dst_value then obj_set src_key src_value dst
               else obj_set src_key (rec dst_value src_value) dst
           | None => obj_insert src_key src_value dst
           end)
    end.

Fixpoint copy_undefined_value (dst src : Value) {struct src} : Value :=
  match dst, src with
  | Object d, Object s => Object (copy_entries copy_undefined_value s d)
  | _, _ => dst
  end.

Definition difference : Type := option (string * Value * Value).

Definition should_ignore (reference : string) (desire current : Value) : bool :=
  false.

Definition unless_ignored (d : difference) : difference :=
  match d with
  | Some (reference, desire, current) =>
      if should_ignore reference desire current then None
      else Some (reference, desire, current)
  | None => None
  end.

(** The element loop, with the index used in the reference path. *)
Definition array_difference (rec : string → Value → Value → difference)
    (reference : string) :=
  fix go (index : nat) (des cur : list Value) {struct des} : difference :=
    match des, cur with
    | d :: des', c :: cur' =>
        match unless_ignored (rec (reference +:+ "[" +:+ pretty index +:+ "]") d c) with
        | Some diff => Some diff
        | None => go (S index) des' cur'
        end
    | _, _ => None
    end.

(** The key loop: the first difference found is returned. *)
Definition object_difference (rec : string → Value → Value → difference)
    (reference : string) (cur : entries) :=
  fix go (des : entries) {struct des} : difference :=
    match des with
    | [] => None
    | (key, des_value) :: des' =>
        let reference' := reference +:+ "." +:+ key in
        match obj_get key cur with
        | Some cur_value =>
            match unless_ignored (rec reference' des_value cur_value) with
            | Some diff => Some diff
            | None => go des'
            end
        | None =>
            if value_eqb des_value Null then go des'
            else Some (reference', des_value, Null)
        end
    end.

(** [_get_json_value_difference]. *)
Fixpoint raw_json_value_difference (reference : string) (desire current : Value)
    {struct desire} : difference :=
  match desire, current with
  | Bool des, Bool cur =>
      if Bool.eqb des cur then None else Some (reference, desire, current)
  | Number des, Number cur =>
      if bool_decide (des = cur) then None else Some (reference, desire, current)
  | VString des, VString cur =>
      if String.eqb des cur then None
      else if is_hide_secret_str desire then None
      else Some (reference, desire, current)
  | Array des, Array cur =>
      if negb (length des =? length cur)%nat then Some (reference, desire, current)
      else array_difference raw_json_value_difference reference 0 des cur
  | Object des, Object cur =>
      object_difference raw_json_value_difference reference cur des
  | Null, _ => None
  | _, _ => Some (reference, desire, current)
  end.

Definition get_json_value_difference (reference : string)
    (desire current : Value) : difference :=
  unless_ignored (raw_json_value_difference reference desire current).

Definition diff_entries (rec : Value → Value → option Value) (cur : entries) :=
  fix go (des diff_map : entries) {struct des} : entries :=
    match des with
    | [] => diff_map
    | (des_key, des_value) :: des' =>
        go des'
          (match obj_get des_key cur with
           | Some cur_value =>
               match rec des_value cur_value with
               | Some ret => obj_insert des_key ret diff_map
               | None => diff_map
               end
           | None => obj_insert des_key des_value diff_map
           end)
    end.

Fixpoint gen_diff_json_value (desired current : Value) {struct desired} :
    option Value :=
  match desired with
  | Object des =>
      match current with
      | Object cur =>
          match diff_entries gen_diff_json_value cur des [] with
          | [] => None
          | diff_map => Some (Object diff_map)
          end
      | _ => Some desired
      end
  | _ =>
      if negb (value_eqb desired current) && negb (is_hide_secret_str desired)
      then Some desired else None
  end.

Definition revert_entries (rec : Value → Value → Value → Value) (cur : entries) :=
  fix go (des rev : entries) {struct des} : entries :=
    match des with
    | [] => rev
    | (key, des_value) :: des' =>
        go des'
          (match obj_get key cur with
           | None => rev
           | Some cur_value =>
               match des_value with
               | Object _ => obj_insert key (rec des_value cur_value (Object [])) rev
               | _ => obj_insert key cur_value rev
               end
           end)
    end.

(** [gen_revert_state]: the final value of the [revert] argument.  Whether
    the logged copy of a value is hidden does not matter here. *)
Fixpoint gen_revert_state (desired current revert : Value) {struct desired} :
    Value :=
  match desired with
  | Object des =>
      match current, revert with
      | Object cur, Object rev => Object (revert_entries gen_revert_state cur des rev)
      | _, _ => revert
      end
  | _ => revert
  end.

(** ** Well-formed values: every object has each key once *)

Definition keys (m : entries) : list string := m.*1.

Lemma keys_cons k v m : keys ((k, v) :: m) = k :: keys m.
Proof. done. Qed.

Fixpoint wf_value (v : Value) : bool :=
  match v with
  | Array l => forallb wf_value l
  | Object m =>
      bool_decide (NoDup (keys m)) &&
      forallb (λ kv : string * Value, match kv with (_, w) => wf_value w end) m
  | _ => true
  end.

Definition wf_entries (m : entries) : Prop :=
  NoDup (keys m) ∧ Forall (λ kv, wf_value kv.2 = true) m.

Lemma wf_object m : wf_value (Object m) = true ↔ wf_entries m.
Proof.
  simpl. rewrite andb_true_iff, bool_decide_eq_true, forallb_forall.
  unfold wf_entries. f_equiv. rewrite Forall_forall. split; intros H [k v] Hin.
  - apply (H (k, v)). by apply list_elem_of_In.
  - apply (H (k, v)). by apply list_elem_of_In.
Qed.

Lemma wf_array l : wf_value (Array l) = true ↔ Forall (λ v, wf_value v = true) l.
Proof.
  simpl. rewrite forallb_forall, Forall_forall.
  by setoid_rewrite list_elem_of_In.
Qed.

Lemma wf_entries_cons k v m :
  wf_entries ((k, v) :: m) ↔ k ∉ keys m ∧ wf_value v = true ∧ wf_entries m.
Proof.
  unfold wf_entries, keys. rewrite fmap_cons, NoDup_cons, Forall_cons. simpl. tauto.
Qed.

Lemma list_eqb_spec {A} (eqb : A → A → bool) (l : list A) :
  Forall (λ x, ∀ y, eqb x y = true ↔ x = y) l →
  ∀ k, list_eqb eqb l k = true ↔ l = k.
Proof.
  induction 1 as [|x l Hx _ IH]; intros [|y k]; simpl; try naive_solver.
  rewrite andb_true_iff, Hx, IH. naive_solver.
Qed.

Lemma value_eqb_eq v w : value_eqb v w = true ↔ v = w.
Proof.
  revert w. induction v as [|b|n|s|l IH|m IH] using Value_nested_ind;
    intros [|b'|n'|s'|l'|m']; simpl; try naive_solver.
  - rewrite Bool.eqb_true_iff. naive_solver.
  - rewrite bool_decide_eq_true. naive_solver.
  - rewrite String.eqb_eq. naive_solver.
  - rewrite (list_eqb_spec _ _ IH). naive_solver.
  - rewrite list_eqb_spec; [naive_solver|].
    eapply Forall_impl; [exact IH|]. intros [k v] Hv [k' v']. simpl in Hv.
    rewrite andb_true_iff, String.eqb_eq, Hv. naive_solver.
Qed.

Lemma obj_get_insert k k' v m :
  obj_get k' (obj_insert k v m) = if String.eqb k' k then Some v else obj_get k' m.
Proof.
  induction m as [|[k1 v1] m IH]; simpl; [done|].
  destruct (string_cmp k k1) eqn:E; simpl.
  - apply cmp_eq in E as ->. by destruct (String.eqb k' k1).
  - done.
  - rewrite IH. destruct (String.eqb_spec k' k1) as [->|]; [|done].
    destruct (String.eqb_spec k1 k) as [->|]; [|done].
    by rewrite cmp_refl in E.
Qed.

Lemma obj_get_set k k' v m :
  obj_get k' (obj_set k v m) =
    if String.eqb k' k then (match obj_get k m with Some _ => Some v | None => None end)
    else obj_get k' m.
Proof.
  induction m as [|[k1 v1] m IH]; simpl; [by destruct (String.eqb k' k)|].
  destruct (String.eqb_spec k k1) as [->|Hk]; simpl.
  - by destruct (String.eqb k' k1).
  - rewrite IH. destruct (String.eqb_spec k' k1) as [->|]; [|done].
    destruct (String.eqb_spec k1 k) as [->|]; done.
Qed.

Lemma obj_set_id k v m : obj_get k m = Some v → obj_set k v m = m.
Proof.
  induction m as [|[k1 v1] m IH]; simpl; [done|].
  destruct (String.eqb_spec k k1) as [->|]; [by intros [= ->]|].
  intros H. by rewrite IH.
Qed.

Lemma obj_get_None k m : obj_get k m = None ↔ k ∉ keys m.
Proof.
  unfold keys. induction m as [|[k1 v1] m IH]; simpl; [set_solver|].
  rewrite not_elem_of_cons. destruct (String.eqb_spec k k1) as [->|];
    [naive_solver|]. rewrite IH. naive_solver.
Qed.

Lemma obj_get_Some_in k v m : obj_get k m = Some v → (k, v) ∈ m.
Proof.
  induction m as [|[k1 v1] m IH]; simpl; [done|].
  destruct (String.eqb_spec k k1) as [->|]; [intros [= ->]; set_solver|set_solver].
Qed.

Lemma obj_get_in k v m : NoDup (keys m) → (k, v) ∈ m → obj_get k m = Some v.
Proof.
  unfold keys. induction m as [|[k1 v1] m IH]; simpl; [set_solver|].
  intros [Hk Hnd]%NoDup_cons [[= -> ->]|Hin]%elem_of_cons.
  - by rewrite String.eqb_refl.
  - destruct (String.eqb_spec k k1) as [->|]; [|auto].
    destruct Hk. apply list_elem_of_fmap. by exists (k1, v).
Qed.

(** ** The difference of two values *)

Lemma unless_ignored_id d : unless_ignored d = d.
Proof. by destruct d as [[[] ]|]. Qed.

(** No difference, entry by entry. *)
Lemma object_difference_None (r : string) (des cur : entries) :
  object_difference raw_json_value_difference r cur des = None ↔
  Forall (λ kv, match obj_get kv.1 cur with
                | Some c => raw_json_value_difference (r +:+ "." +:+ kv.1) kv.2 c = None
                | None => kv.2 = Null
                end) des.
Proof.
  induction des as [|[k d] des IH]; simpl; [by split|].
  rewrite Forall_cons. simpl. destruct (obj_get k cur) as [c|].
  - rewrite unless_ignored_id. destruct (raw_json_value_difference _ d c); naive_solver.
  - destruct (value_eqb d Null) eqn:E.
    + apply value_eqb_eq in E as ->. naive_solver.
    + split; [done|]. intros [-> _]. done.
Qed.

Lemma array_difference_None (r : string) i (des : list Value) :
  Forall (λ v, ∀ r, raw_json_value_difference r v v = None) des →
  array_difference raw_json_value_difference r i des des = None.
Proof.
  intros H. revert i. induction H as [|v l Hv _ IH]; intros i; simpl; [done|].
  rewrite Hv. simpl. apply IH.
Qed.

(** A value does not differ from itself. *)
Lemma difference_refl r v :
  wf_value v = true → raw_json_value_difference r v v = None.
Proof.
  revert r. induction v as [|b|n|s|l IH|m IH] using Value_nested_ind; intros r Hwf.
  - done.
  - simpl. by rewrite Bool.eqb_reflx.
  - simpl. by rewrite bool_decide_true.
  - simpl. by rewrite String.eqb_refl.
  - simpl. rewrite Nat.eqb_refl. simpl. apply array_difference_None.
    apply wf_array in Hwf. apply Forall_forall. intros v Hv r'.
    rewrite Forall_forall in IH, Hwf. auto.
  - apply wf_object in Hwf as [Hnd Hwf]. simpl. apply object_difference_None.
    apply Forall_forall. intros [k v] Hin. rewrite Forall_forall in IH, Hwf. simpl.
    rewrite (obj_get_in _ _ _ Hnd Hin). apply (IH (k, v)); [done|].
    by apply (Hwf (k, v)).
Qed.

(** ** The loops, looked up by key *)

Lemma copy_entries_get (rec : Value → Value → Value) src dst k :
  NoDup (keys src) →
  obj_get k (copy_entries rec src dst) =
    match obj_get k src, obj_get k dst with
    | None, o => o
    | Some v, None => Some v
    | Some v, Some d => Some (if is_hide_secret_str d then v else rec d v)
    end.
Proof.
  unfold keys. revert dst. induction src as [|[k1 v1] src IH]; intros dst; [done|].
  rewrite fmap_cons, NoDup_cons. intros [Hk1 Hnd]. simpl in *. rewrite IH by done.
  destruct (String.eqb_spec k k1) as [->|Hk].
  - rewrite (proj2 (obj_get_None k1 src) Hk1).
    destruct (obj_get k1 dst) as [d|] eqn:Ed.
    + destruct (is_hide_secret_str d); by rewrite obj_get_set, String.eqb_refl, Ed.
    + by rewrite obj_get_insert, String.eqb_refl.
  - apply String.eqb_neq in Hk.
    assert (obj_get k (match obj_get k1 dst with
            | Some d => if is_hide_secret_str d then obj_set k1 v1 dst
                        else obj_set k1 (rec d v1) dst
            | None => obj_insert k1 v1 dst end) = obj_get k dst) as ->; [|done].
    destruct (obj_get k1 dst) as [d|]; [destruct (is_hide_secret_str d)|];
      by rewrite ?obj_get_set, ?obj_get_insert, Hk.
Qed.

Lemma diff_entries_get (rec : Value → Value → option Value) cur des acc k :
  NoDup (keys des) →
  obj_get k (diff_entries rec cur des acc) =
    match obj_get k des with
    | None => obj_get k acc
    | Some d =>
        match obj_get k cur with
        | None => Some d
        | Some c => match rec d c with Some x => Some x | None => obj_get k acc end
        end
    end.
Proof.
  unfold keys. revert acc. induction des as [|[k1 d1] des IH]; intros acc; [done|].
  rewrite fmap_cons, NoDup_cons. intros [Hk1 Hnd]. simpl in *. rewrite IH by done.
  destruct (String.eqb_spec k k1) as [->|Hk].
  - rewrite (proj2 (obj_get_None k1 des) Hk1).
    destruct (obj_get k1 cur) as [c|]; [destruct (rec d1 c)|];
      by rewrite ?obj_get_insert, ?String.eqb_refl.
  - apply String.eqb_neq in Hk.
    destruct (obj_get k1 cur) as [c|]; [destruct (rec d1 c)|];
      by rewrite ?obj_get_insert, ?Hk.
Qed.

Lemma revert_entries_get (rec : Value → Value → Value → Value) cur des acc k :
  NoDup (keys des) →
  obj_get k (revert_entries rec cur des acc) =
    match obj_get k des, obj_get k cur with
    | Some d, Some c =>
        Some (match d with Object _ => rec d c (Object []) | _ => c end)
    | _, _ => obj_get k acc
    end.
Proof.
  unfold keys. revert acc. induction des as [|[k1 d1] des IH]; intros acc; [done|].
  rewrite fmap_cons, NoDup_cons. intros [Hk1 Hnd]. simpl in *. rewrite IH by done.
  destruct (String.eqb_spec k k1) as [->|Hk].
  - rewrite (proj2 (obj_get_None k1 des) Hk1).
    destruct (obj_get k1 cur) as [c|]; [|done].
    destruct d1; by rewrite obj_get_insert, String.eqb_refl.
  - apply String.eqb_neq in Hk.
    assert (obj_get k (match obj_get k1 cur with
            | Some c => match d1 with
                        | Object _ => obj_insert k1 (rec d1 c (Object [])) acc
                        | _ => obj_insert k1 c acc end
            | None => acc end) = obj_get k acc) as ->; [|done].
    destruct (obj_get k1 cur) as [c|]; [destruct d1|];
      by rewrite ?obj_get_insert, ?Hk.
Qed.

Lemma elem_of_keys_insert k k' v m :
  k' ∈ keys (obj_insert k v m) ↔ k' = k ∨ k' ∈ keys m.
Proof.
  pose proof (obj_get_insert k k' v m) as H.
  pose proof (obj_get_None k' (obj_insert k v m)) as H1.
  pose proof (obj_get_None k' m) as H2.
  destruct (decide (k' ∈ keys (obj_insert k v m))), (decide (k' ∈ keys m));
    destruct (String.eqb_spec k' k); rewrite ?H in H1; naive_solver.
Qed.

Lemma obj_insert_NoDup k v m :
  k ∉ keys m → NoDup (keys m) → NoDup (keys (obj_insert k v m)).
Proof.
  induction m as [|[k1 v1] m IH]; [intros; apply NoDup_singleton|].
  rewrite keys_cons, not_elem_of_cons, NoDup_cons. intros [Hne Hk] [Hk1 Hnd]. simpl.
  destruct (string_cmp k k1) eqn:E.
  - by apply cmp_eq in E.
  - rewrite !keys_cons, !NoDup_cons. set_solver.
  - rewrite keys_cons, NoDup_cons, elem_of_keys_insert. naive_solver.
Qed.

Lemma revert_entries_NoDup (rec : Value → Value → Value → Value) cur des acc :
  NoDup (keys des) → NoDup (keys acc) →
  (∀ k, k ∈ keys des → k ∉ keys acc) →
  NoDup (keys (revert_entries rec cur des acc)).
Proof.
  revert acc. induction des as [|[k1 d1] des IH]; intros acc; [done|].
  rewrite keys_cons, NoDup_cons. simpl. intros [Hk1 Hnd] Hacc Hdis.
  assert (k1 ∉ keys acc) by (apply Hdis; set_solver).
  apply IH; [done| |].
  - destruct (obj_get k1 cur); [destruct d1; by apply obj_insert_NoDup|done].
  - intros k Hk. assert (k ∉ keys acc) by (apply Hdis; set_solver).
    assert (k ≠ k1) by set_solver.
    destruct (obj_get k1 cur); [|done].
    destruct d1; rewrite elem_of_keys_insert; naive_solver.
Qed.

(** ** Correctness of merging, diffing and reverting *)

(** A redacted secret of [v] meets a string, or nothing, in [w]: what the
    redaction of a state that serializes to the same schema gives. *)
Fixpoint secrets_meet_strings (v w : Value) {struct v} : bool :=
  match v with
  | VString _ =>
      negb (is_hide_secret_str v) || match w with VString _ => true | _ => false end
  | Object m =>
      match w with
      | Object n =>
          forallb (λ kv : string * Value,
            match kv with (k, v') =>
              match obj_get k n with
              | Some w' => secrets_meet_strings v' w'
              | None => true
              end
            end) m
      | _ => true
      end
  | _ => true
  end.

(** An object of [v] meets an object, or nothing, in [w]. *)
Fixpoint objects_meet_objects (v w : Value) {struct v} : bool :=
  match v with
  | Object m =>
      match w with
      | Object n =>
          forallb (λ kv : string * Value,
            match kv with (k, v') =>
              match obj_get k n with
              | Some w' => objects_meet_objects v' w'
              | None => true
              end
            end) m
      | _ => false
      end
  | _ => true
  end.

Lemma meet_entries (meet : Value → Value → bool) (m n : entries) k v w :
  forallb (λ kv : string * Value,
    match kv with (k, v') =>
      match obj_get k n with Some w' => meet v' w' | None => true end
    end) m = true →
  (k, v) ∈ m → obj_get k n = Some w → meet v w = true.
Proof.
  rewrite forallb_forall. intros H Hin Hw.
  specialize (H (k, v)). simpl in H. rewrite Hw in H.
  by apply H, list_elem_of_In.
Qed.

Lemma wf_entries_in m k v :
  wf_entries m → (k, v) ∈ m → obj_get k m = Some v ∧ wf_value v = true.
Proof.
  intros [Hnd Hwf] Hin. split; [by apply obj_get_in|].
  rewrite Forall_forall in Hwf. by apply (Hwf (k, v)).
Qed.

Lemma wf_entries_get m k v :
  wf_entries m → obj_get k m = Some v → wf_value v = true.
Proof. intros Hwf Hg. by eapply wf_entries_in, obj_get_Some_in. Qed.

Hint Resolve wf_entries_get : nipart.

Definition is_object (v : Value) : bool :=
  match v with Object _ => true | _ => false end.

Lemma copy_undefined_leaf v w :
  is_object v = false → copy_undefined_value v w = v.
Proof. by destruct v, w. Qed.

(** A redacted string never differs from a string. *)
Lemma hidden_no_difference r v w :
  is_hide_secret_str v = true → secrets_meet_strings v w = true →
  raw_json_value_difference r v w = None.
Proof.
  intros Hh Hm. destruct v as [| | |s| |]; try done. simpl in *.
  rewrite Hh in Hm. destruct w as [| | |t| |]; try done.
  rewrite Hh. by destruct (String.eqb s t).
Qed.

Lemma gen_diff_not_hidden d c x :
  gen_diff_json_value d c = Some x → is_hide_secret_str x = false.
Proof.
  destruct d as [| | |s| |m]; simpl; intros H; repeat case_match; simplify_eq/=;
    try done; bool_hyps; done.
Qed.

(** Where the diff is empty the verification finds nothing to complain about. *)
Lemma gen_diff_None_no_difference des cur r :
  wf_value des = true → secrets_meet_strings des cur = true →
  gen_diff_json_value des cur = None → raw_json_value_difference r des cur = None.
Proof.
  revert cur r. induction des as [|b|n|s|l _|m IH] using Value_nested_ind;
    intros cur r Hwf Hsec Hdiff.
  1-5: unfold gen_diff_json_value in Hdiff;
    match type of Hdiff with context [value_eqb ?v ?c] =>
      destruct (value_eqb v c) eqn:E; [
        apply value_eqb_eq in E as <-; by apply difference_refl|
        destruct (is_hide_secret_str v) eqn:Eh;
          [by apply hidden_no_difference|done]]
    end.
  apply wf_object in Hwf as Hm. simpl in Hsec, Hdiff.
  destruct cur as [| | | | |n]; try done.
  destruct (diff_entries gen_diff_json_value n m []) eqn:Ed; [|done].
  simpl. apply object_difference_None, Forall_forall. intros [k v] Hin. simpl.
  destruct (wf_entries_in _ _ _ Hm Hin) as [Hg Hv].
  pose proof (diff_entries_get gen_diff_json_value n m [] k (proj1 Hm)) as Hd.
  rewrite Ed, Hg in Hd. simpl in Hd.
  destruct (obj_get k n) as [c|] eqn:Hc; [|done].
  rewrite Forall_forall in IH. apply (IH (k, v)); try done.
  - by apply (meet_entries secrets_meet_strings m n k).
  - simpl. by destruct (gen_diff_json_value v c).
Qed.

(** Diffing then applying the diff over the current state gives a state that
    passes the verification of the desired one. *)
Lemma gen_diff_applied des cur diff r :
  wf_value des = true → wf_value cur = true →
  secrets_meet_strings des cur = true →
  gen_diff_json_value des cur = Some diff →
  raw_json_value_difference r des (copy_undefined_value diff cur) = None.
Proof.
  revert cur diff r. induction des as [|b|n|s|l _|m IH] using Value_nested_ind;
    intros cur diff r Hwf Hcur Hsec Hdiff.
  1-5: unfold gen_diff_json_value in Hdiff; destruct (_ && _); [|done];
    injection Hdiff as <-;
    match goal with |- raw_json_value_difference _ ?v _ = _ =>
      rewrite (copy_undefined_leaf v) by done end;
    by apply difference_refl.
  apply wf_object in Hwf as Hm. simpl in Hsec, Hdiff.
  destruct cur as [| | | | |n];
    try (injection Hdiff as <-; by apply difference_refl).
  apply wf_object in Hcur as Hn.
  destruct (diff_entries gen_diff_json_value n m []) as [|e dm] eqn:Ed; [done|].
  injection Hdiff as <-. simpl. apply object_difference_None, Forall_forall.
  intros [k v] Hin. simpl.
  destruct (wf_entries_in _ _ _ Hm Hin) as [Hg Hv].
  pose proof (diff_entries_get gen_diff_json_value n m [] k (proj1 Hm)) as Hd.
  rewrite Ed, Hg in Hd. rewrite (copy_entries_get _ n _ k (proj1 Hn)), Hd.
  destruct (obj_get k n) as [c|] eqn:Hc; [|by apply difference_refl].
  assert (secrets_meet_strings v c = true) by (by apply (meet_entries secrets_meet_strings m n k)).
  destruct (gen_diff_json_value v c) as [x|] eqn:Ex.
  - rewrite (gen_diff_not_hidden _ _ _ Ex).
    rewrite Forall_forall in IH. apply (IH (k, v)); eauto with nipart.
  - by apply gen_diff_None_no_difference.
Qed.

(** Filling in undefined values never contradicts what was defined. *)
Lemma copy_undefined_agrees dst src r :
  wf_value dst = true → wf_value src = true →
  secrets_meet_strings dst src = true →
  raw_json_value_difference r dst (copy_undefined_value dst src) = None.
Proof.
  revert src r. induction dst as [|b|n|s|l _|m IH] using Value_nested_ind;
    intros src r Hwf Hsrc Hsec.
  1-5: match goal with |- raw_json_value_difference _ ?v _ = _ =>
      rewrite (copy_undefined_leaf v) by done end;
    by apply difference_refl.
  apply wf_object in Hwf as Hm. simpl in Hsec.
  destruct src as [| | | | |n]; try (by apply difference_refl).
  apply wf_object in Hsrc as Hn. simpl.
  apply object_difference_None, Forall_forall. intros [k v] Hin. simpl.
  destruct (wf_entries_in _ _ _ Hm Hin) as [Hg Hv].
  rewrite (copy_entries_get _ n _ k (proj1 Hn)), Hg.
  destruct (obj_get k n) as [c|] eqn:Hc; [|by apply difference_refl].
  assert (secrets_meet_strings v c = true) by (by apply (meet_entries secrets_meet_strings m n k)).
  destruct (is_hide_secret_str v) eqn:Eh; [by apply hidden_no_difference|].
  rewrite Forall_forall in IH. apply (IH (k, v)); eauto with nipart.
Qed.

Lemma copy_entries_fixed (rec : Value → Value → Value) src D :
  Forall (λ kv, ∃ w, obj_get kv.1 D = Some w ∧
    (if is_hide_secret_str w then kv.2 else rec w kv.2) = w) src →
  copy_entries rec src D = D.
Proof.
  induction 1 as [|[k v] src (w & Hw & Hf) _ IH]; simpl in *; [done|].
  rewrite Hw. destruct (is_hide_secret_str w); rewrite Hf, obj_set_id; auto.
Qed.

Lemma copy_undefined_self v : wf_value v = true → copy_undefined_value v v = v.
Proof.
  induction v as [| | | | |m IH] using Value_nested_ind; try done.
  intros Hm%wf_object. simpl. f_equal. apply copy_entries_fixed, Forall_forall.
  intros [k v] Hin. destruct (wf_entries_in _ _ _ Hm Hin) as [Hg Hv].
  exists v. simpl. split; [done|]. rewrite Forall_forall in IH.
  specialize (IH (k, v) Hin Hv). simpl in IH. rewrite IH.
  by destruct (is_hide_secret_str v).
Qed.

Lemma copy_undefined_hidden d v :
  is_hide_secret_str (copy_undefined_value d v) = is_hide_secret_str d.
Proof. by destruct d, v. Qed.

Lemma copy_undefined_twice dst src :
  wf_value src = true →
  copy_undefined_value (copy_undefined_value dst src) src =
    copy_undefined_value dst src.
Proof.
  revert dst. induction src as [| | | | |n IH] using Value_nested_ind;
    intros dst Hwf; try (by destruct dst).
  apply wf_object in Hwf as Hn. destruct dst as [| | | | |d]; try done.
  simpl. f_equal. apply copy_entries_fixed, Forall_forall. intros [k v] Hin. simpl.
  destruct (wf_entries_in _ _ _ Hn Hin) as [Hg Hv].
  rewrite (copy_entries_get _ n _ k (proj1 Hn)), Hg.
  destruct (obj_get k d) as [w|] eqn:Ew.
  - eexists. split; [done|]. destruct (is_hide_secret_str w) eqn:Eh.
    + rewrite (copy_undefined_self v Hv). by destruct (is_hide_secret_str v).
    + rewrite copy_undefined_hidden, Eh. rewrite Forall_forall in IH.
      by apply (IH (k, v)).
  - exists v. split; [done|].
    rewrite (copy_undefined_self v Hv). by destruct (is_hide_secret_str v).
Qed.

(** The revert state only asks for values the current state holds. *)
Lemma gen_revert_agrees des cur r :
  wf_value des = true → wf_value cur = true →
  objects_meet_objects des cur = true → is_object des = true →
  raw_json_value_difference r (gen_revert_state des cur (Object [])) cur = None.
Proof.
  revert cur r. induction des as [| | | | |m IH] using Value_nested_ind; try done.
  intros cur r Hwf Hcur Hobj _. apply wf_object in Hwf as Hm. simpl in Hobj.
  destruct cur as [| | | | |n]; try done. apply wf_object in Hcur as Hn.
  simpl. apply object_difference_None, Forall_forall. intros [k x] Hin. simpl.
  assert (Hrev : NoDup (keys (revert_entries gen_revert_state n m [])))
    by (apply revert_entries_NoDup; [apply Hm|constructor|set_solver]).
  pose proof (obj_get_in _ _ _ Hrev Hin) as Hx.
  rewrite (revert_entries_get _ n m [] k (proj1 Hm)) in Hx. simpl in Hx.
  destruct (obj_get k m) as [v|] eqn:Hv; [|done].
  destruct (obj_get k n) as [c|] eqn:Hc; [|done].
  apply obj_get_Some_in in Hv as Hin'. rewrite Forall_forall in IH.
  destruct (is_object v) eqn:Eo.
  - destruct v as [| | | | |m']; try done. injection Hx as <-.
    apply (IH (k, Object m')); eauto with nipart.
    by apply (meet_entries objects_meet_objects m n k).
  - assert (x = c) as -> by (destruct v; by injection Hx).
    apply difference_refl. eauto with nipart.
Qed.

(** ** Properties *)

(** C26: generating the difference between the desired and the current state
    and filling it in from the current state yields a state in which the
    verification finds no difference from the desired one.  A redacted secret
    of the desired state has to meet a string (or nothing) in the current
    one, as it does for states of the same schema. *)
Theorem diff_then_fill_passes_verification
    (reference : string) (desired current diff : Value) :
  wf_value desired = true → wf_value current = true →
  secrets_meet_strings desired current = true →
  gen_diff_json_value desired current = Some diff →
  get_json_value_difference reference desired
    (copy_undefined_value diff current) = None.
Proof.
  intros. unfold get_json_value_difference. rewrite unless_ignored_id.
  by apply gen_diff_applied.
Qed.

(** [copy_undefined_value] keeps everything its destination defines (the
    verification of the old destination against the new one finds no
    difference), and filling in a second time changes nothing. *)
Theorem fill_undefined_keeps_defined (reference : string) (dst src : Value) :
  wf_value dst = true → wf_value src = true →
  secrets_meet_strings dst src = true →
  let filled := copy_undefined_value dst src in
  get_json_value_difference reference dst filled = None ∧
  copy_undefined_value filled src = filled.
Proof.
  intros. unfold get_json_value_difference. rewrite unless_ignored_id.
  split; [by apply copy_undefined_agrees|by apply copy_undefined_twice].
Qed.

(** The revert state generated for a desired state before it is applied
    holds a key exactly where both the desired and the current state have it,
    at every level below, and asks for nothing but the values the current
    state holds. *)
Theorem revert_restores_current (reference : string) (des cur : entries) :
  wf_value (Object des) = true → wf_value (Object cur) = true →
  objects_meet_objects (Object des) (Object cur) = true →
  ∃ rev, gen_revert_state (Object des) (Object cur) (Object []) = Object rev ∧
    (∀ k, k ∈ keys rev ↔ k ∈ keys des ∧ k ∈ keys cur) ∧
    get_json_value_difference reference (Object rev) (Object cur) = None.
Proof.
  intros Hd Hc Ho. exists (revert_entries gen_revert_state cur des []).
  split; [done|]. split.
  - apply wf_object in Hd as [Hnd _]. intros k.
    pose proof (revert_entries_get gen_revert_state cur des [] k Hnd) as Hg.
    assert (Hin : ∀ m, k ∈ keys m ↔ obj_get k m ≠ None).
    { intros m. rewrite obj_get_None. split; [tauto|].
      intros Hn. by destruct (decide (k ∈ keys m)). }
    rewrite !Hin, Hg. simpl.
    destruct (obj_get k des), (obj_get k cur); naive_solver.
  - unfold get_json_value_difference. rewrite unless_ignored_id.
    by apply (gen_revert_agrees (Object des) (Object cur)).
Qed.
End Json.
Arguments Value : clear implicits.

(** ** Witnesses *)

Definition ex_desired : Value Z :=
  Object [("ipv4", Object [("dhcp", Bool true)]); ("mtu", Number 1400%Z);
          ("password", VString HIDE_SECRET_STR)].
Definition ex_current : Value Z :=
  Object [("ipv4", Object [("dhcp", Bool false); ("enabled", Bool true)]);
          ("mtu", Number 1400%Z); ("password", VString "s3cret")].

Lemma diff_then_fill_passes_verification_witness :
  gen_diff_json_value ex_desired ex_current =
    Some (Object [("ipv4", Object [("dhcp", Bool true)])]) ∧
  get_json_value_difference "" ex_desired
    (copy_undefined_value (Object [("ipv4", Object [("dhcp", Bool true)])]) ex_current)
    = None.
Proof.
  split; [reflexivity|].
  apply diff_then_fill_passes_verification; reflexivity.
Defined.

Lemma fill_undefined_keeps_defined_witness :
  get_json_value_difference "" ex_desired (copy_undefined_value ex_desired ex_current) = None ∧
  copy_undefined_value (copy_undefined_value ex_desired ex_current) ex_current =
    copy_undefined_value ex_desired ex_current.
Proof. apply fill_undefined_keeps_defined; reflexivity. Defined.

Lemma revert_restores_current_witness :
  ∃ rev, gen_revert_state ex_desired ex_current (Object []) = Object rev ∧
    (∀ k, k ∈ keys rev ↔ k ∈ ["ipv4"; "mtu"; "password"] ∧
                         k ∈ ["ipv4"; "mtu"; "password"]) ∧
    get_json_value_difference "" (Object rev) ex_current = None.
Proof. apply revert_restores_current; reflexivity. Defined.
