(* ===== verification/Serde.v ===== *)
(** * Serde: values and JSON

    The derived [Serialize] and [Deserialize] of the schema types are generated
    code.  [Serde] is what the code uses of them, [serde_json::to_value] and
    [serde_json::from_value]; the numbers of [serde_json] are the type [Num].  The
    functions of this file are the JSON level operations of [value.rs] between the
    two. *)

From S2P Require Export Errors JsonValue.

Class Serde (Num A : Type) : Type := {
  to_value : A → res (Value Num);
  from_value : Value Num → res A;
}.

Section Serde.
Context {Num A : Type} `{Serde Num A}.

(** The JSON part of the [merge] functions: what [new] does not define is copied
    from [old]. *)
Definition json_merge (old new : A) : res A :=
  let? new_value := to_value new in
  let? old_value := to_value old in
  from_value (copy_undefined_value new_value old_value).

End Serde.
