(* ===== verification/DnsHeader.v ===== *)
(** * DnsHeader: [src/lib/dns/header.rs]

    The 12 byte DNS header, with its flag word packed by shifts and masks. *)

From S2P Require Export Errors Bytes.

Inductive DnsResponseCode : Type :=
| NoError
| FormErr
| ServFail
| NxDomain
| NotImp
| Refused
| RcodeOther (c : Z).

#[export] Instance DnsResponseCode_eq_dec : EqDecision DnsResponseCode.
Proof. solve_decision. Defined.

(** [impl From<DnsResponseCode> for u8]. *)
Definition rcode_to_u8 (rcode : DnsResponseCode) : Z :=
  match rcode with
  | NoError => 0
  | FormErr => 1
  | ServFail => 2
  | NxDomain => 3
  | NotImp => 4
  | Refused => 5
  | RcodeOther c => c
  end.

(** [impl From<u8> for DnsResponseCode]. *)
Definition rcode_from_u8 (value : Z) : DnsResponseCode :=
  match value with
  | 0 => NoError
  | 1 => FormErr
  | 2 => ServFail
  | 3 => NxDomain
  | 4 => NotImp
  | 5 => Refused
  | _ => RcodeOther value
  end.

Record DnsHeader : Type := dns_header {
  id : Z;
  qr : bool;
  opcode : Z;
  aa : bool;
  tc : bool;
  rd : bool;
  ra : bool;
  z : Z;
  rcode : DnsResponseCode;
  qdcount : Z;
  ancount : Z;
  nscount : Z;
  arcount : Z;
}.

#[export] Instance DnsHeader_eq_dec : EqDecision DnsHeader.
Proof. solve_decision. Defined.

Definition HEADER_LEN : nat := 12.

(** [impl Default for DnsHeader]. *)
Definition header_default : DnsHeader :=
  {| id := 0; qr := false; opcode := 0; aa := false; tc := false; rd := true;
     ra := true; z := 0; rcode := NoError; qdcount := 0; ancount := 0;
     nscount := 0; arcount := 0 |}.

Definition header_is_query (h : DnsHeader) : bool := negb (qr h).

Definition header_parse (data : list Z) : res DnsHeader :=
  if (length data <? HEADER_LEN)%nat then fail InvalidArgument
  else
    let id := from_be16 (data !!! 0%nat) (data !!! 1%nat) in
    let flags := from_be16 (data !!! 2%nat) (data !!! 3%nat) in
    let qdcount := from_be16 (data !!! 4%nat) (data !!! 5%nat) in
    let ancount := from_be16 (data !!! 6%nat) (data !!! 7%nat) in
    let nscount := from_be16 (data !!! 8%nat) (data !!! 9%nat) in
    let arcount := from_be16 (data !!! 10%nat) (data !!! 11%nat) in
    Ok {|
      id := id;
      qr := negb (Z.land flags 0x8000 =? 0);
      opcode := Z.shiftr (Z.land flags 0x7800) 11;
      aa := negb (Z.land flags 0x0400 =? 0);
      tc := negb (Z.land flags 0x0200 =? 0);
      rd := negb (Z.land flags 0x0100 =? 0);
      ra := negb (Z.land flags 0x0080 =? 0);
      z := Z.shiftr (Z.land flags 0x0070) 4;
      rcode := rcode_from_u8 (as_u8 (Z.land flags 0x000F));
      qdcount := qdcount;
      ancount := ancount;
      nscount := nscount;
      arcount := arcount
    |}.

(** The flag word [to_bytes] builds, in [u16] arithmetic: a left shift drops
    the bits it moves past bit 15. *)
Definition header_flags (h : DnsHeader) : Z :=
  let flags := 0 in
  let flags := if qr h then Z.lor flags (Z.shiftl 1 15) else flags in
  let flags := Z.lor flags (as_u16 (Z.shiftl (opcode h) 11)) in
  let flags := if aa h then Z.lor flags (Z.shiftl 1 10) else flags in
  let flags := if tc h then Z.lor flags (Z.shiftl 1 9) else flags in
  let flags := if rd h then Z.lor flags (Z.shiftl 1 8) else flags in
  let flags := if ra h then Z.lor flags (Z.shiftl 1 7) else flags in
  let flags := Z.lor flags (as_u16 (Z.shiftl (z h) 4)) in
  Z.lor flags (rcode_to_u8 (rcode h)).

Definition header_to_bytes (h : DnsHeader) : list Z :=
  u16_be (id h) ++ u16_be (header_flags h) ++ u16_be (qdcount h) ++
  u16_be (ancount h) ++ u16_be (nscount h) ++ u16_be (arcount h).

Definition header_new_response (id_ : Z) (rcode_ : DnsResponseCode) (rd_ : bool) :
    DnsHeader :=
  {| id := id_; qr := true; opcode := opcode header_default;
     aa := aa header_default; tc := tc header_default; rd := rd_;
     ra := ra header_default; z := z header_default; rcode := rcode_;
     qdcount := 1; ancount := ancount header_default;
     nscount := nscount header_default; arcount := arcount header_default |}.

Definition header_new_query (id_ : Z) : DnsHeader :=
  {| id := id_; qr := false; opcode := opcode header_default;
     aa := aa header_default; tc := tc header_default; rd := true;
     ra := ra header_default; z := z header_default;
     rcode := rcode header_default; qdcount := 1;
     ancount := ancount header_default; nscount := nscount header_default;
     arcount := arcount header_default |}.

Definition header_set_response (h : DnsHeader) (value : bool) : DnsHeader :=
  {| id := id h; qr := value; opcode := opcode h; aa := aa h; tc := tc h;
     rd := rd h; ra := ra h; z := z h; rcode := rcode h; qdcount := qdcount h;
     ancount := ancount h; nscount := nscount h; arcount := arcount h |}.

Definition header_to_response (h : DnsHeader) (ancount_ : Z) : DnsHeader :=
  {| id := id h; qr := true; opcode := opcode h; aa := aa header_default;
     tc := tc header_default; rd := rd h; ra := true; z := z header_default;
     rcode := NoError; qdcount := 1; ancount := ancount_;
     nscount := nscount header_default; arcount := arcount header_default |}.

(** [header.arcount = ..] on a copy of the header. *)
Definition header_with_arcount (h : DnsHeader) (n : Z) : DnsHeader :=
  {| id := id h; qr := qr h; opcode := opcode h; aa := aa h; tc := tc h;
     rd := rd h; ra := ra h; z := z h; rcode := rcode h; qdcount := qdcount h;
     ancount := ancount h; nscount := nscount h; arcount := n |}.

(** ** The fields fit their bits *)

Record header_ok (h : DnsHeader) : Prop := {
  ok_id : is_u16 (id h);
  ok_opcode : 0 ≤ opcode h < 16;
  ok_z : 0 ≤ z h < 8;
  ok_rcode : 0 ≤ rcode_to_u8 (rcode h) < 16;
  ok_rcode_canonical : rcode_from_u8 (rcode_to_u8 (rcode h)) = rcode h;
  ok_qdcount : is_u16 (qdcount h);
  ok_ancount : is_u16 (ancount h);
  ok_nscount : is_u16 (nscount h);
  ok_arcount : is_u16 (arcount h);
}.

(** The flag part of a header, read off a flag word. *)
Definition flags_header (flags : Z) : DnsHeader :=
  {| id := 0;
     qr := negb (Z.land flags 0x8000 =? 0);
     opcode := Z.shiftr (Z.land flags 0x7800) 11;
     aa := negb (Z.land flags 0x0400 =? 0);
     tc := negb (Z.land flags 0x0200 =? 0);
     rd := negb (Z.land flags 0x0100 =? 0);
     ra := negb (Z.land flags 0x0080 =? 0);
     z := Z.shiftr (Z.land flags 0x0070) 4;
     rcode := rcode_from_u8 (as_u8 (Z.land flags 0x000F));
     qdcount := 0; ancount := 0; nscount := 0; arcount := 0 |}.

(** All 65536 flag words, by computation. *)
Lemma flags_exhaustive :
  all_bits 16 (λ f, header_flags (flags_header f) =? f) 0 = true.
Proof. vm_compute. reflexivity. Qed.

Lemma header_flags_of_flags f :
  is_u16 f → header_flags (flags_header f) = f.
Proof.
  intros Hf. apply Z.eqb_eq.
  apply (all_bits_spec _ (λ f, header_flags (flags_header f) =? f) _ _
    flags_exhaustive).
  unfold is_u16 in Hf. lia.
Qed.

Definition all_bools : list bool := [false; true].

(** All header flag fields, by computation. *)
Lemma fields_exhaustive :
  forallb (λ o, forallb (λ zz, forallb (λ rc,
    forallb (λ b1, forallb (λ b2, forallb (λ b3, forallb (λ b4, forallb (λ b5,
      let h := dns_header 0 b1 o b2 b3 b4 b5 zz (rcode_from_u8 rc) 0 0 0 0 in
      bool_decide (flags_header (header_flags h) = h) &&
        (0 <=? header_flags h) && (header_flags h <? 65536))
    all_bools) all_bools) all_bools) all_bools) all_bools)
  (seqZ 0 16)) (seqZ 0 8)) (seqZ 0 16) = true.
Proof. vm_compute. reflexivity. Qed.

Lemma forallb_seqZ (P : Z → bool) n x :
  forallb P (seqZ 0 n) = true → 0 ≤ x < n → P x = true.
Proof.
  rewrite forallb_forall. intros H Hx.
  apply H, list_elem_of_In, elem_of_seqZ. lia.
Qed.

Lemma forallb_bools (P : bool → bool) b : forallb P all_bools = true → P b = true.
Proof. simpl. rewrite !andb_true_iff. destruct b; tauto. Qed.

Lemma header_flags_roundtrip o zz rc b1 b2 b3 b4 b5 :
  0 ≤ o < 16 → 0 ≤ zz < 8 → 0 ≤ rc < 16 →
  let h := dns_header 0 b1 o b2 b3 b4 b5 zz (rcode_from_u8 rc) 0 0 0 0 in
  flags_header (header_flags h) = h ∧ is_u16 (header_flags h).
Proof.
  intros Ho Hz Hr h.
  pose proof fields_exhaustive as H.
  apply (forallb_seqZ _ _ o) in H; [|done]. cbv beta in H.
  apply (forallb_seqZ _ _ zz) in H; [|done]. cbv beta in H.
  apply (forallb_seqZ _ _ rc) in H; [|done]. cbv beta in H.
  apply (forallb_bools _ b1) in H. apply (forallb_bools _ b2) in H.
  apply (forallb_bools _ b3) in H. apply (forallb_bools _ b4) in H.
  apply (forallb_bools _ b5) in H. fold h in H.
  apply andb_true_iff in H as [[H1 H2]%andb_true_iff H3]. bool_hyps.
  split; [exact H1|]. split; [exact H2|exact H3].
Qed.

Lemma length_header_to_bytes h : length (header_to_bytes h) = HEADER_LEN.
Proof. done. Qed.

(** The fields that are not flags, set on the header of a flag word. *)
Definition with_counts (i q a n r : Z) (h : DnsHeader) : DnsHeader :=
  {| id := i; qr := qr h; opcode := opcode h; aa := aa h; tc := tc h;
     rd := rd h; ra := ra h; z := z h; rcode := rcode h; qdcount := q;
     ancount := a; nscount := n; arcount := r |}.

Lemma header_parse_cells a0 a1 f0 f1 q0 q1 n0 n1 s0 s1 r0 r1 rest :
  header_parse ([a0; a1; f0; f1; q0; q1; n0; n1; s0; s1; r0; r1] ++ rest) =
  Ok (with_counts (from_be16 a0 a1) (from_be16 q0 q1) (from_be16 n0 n1)
        (from_be16 s0 s1) (from_be16 r0 r1) (flags_header (from_be16 f0 f1))).
Proof. done. Qed.

Lemma header_flags_counts h :
  header_flags h =
  header_flags (dns_header 0 (qr h) (opcode h) (aa h) (tc h) (rd h) (ra h) (z h)
    (rcode h) 0 0 0 0).
Proof. done. Qed.

Lemma header_flags_ok h :
  header_ok h →
  flags_header (header_flags h) =
    dns_header 0 (qr h) (opcode h) (aa h) (tc h) (rd h) (ra h) (z h) (rcode h)
      0 0 0 0 ∧
  is_u16 (header_flags h).
Proof.
  intros [_ Hop Hz Hrc Hcanon _ _ _ _].
  pose proof (header_flags_roundtrip (opcode h) (z h) (rcode_to_u8 (rcode h))
    (qr h) (aa h) (tc h) (rd h) (ra h) Hop Hz Hrc) as H.
  cbv zeta in H. rewrite Hcanon in H. by rewrite header_flags_counts.
Qed.

Lemma header_parse_to_bytes h rest :
  header_ok h → header_parse (header_to_bytes h ++ rest) = Ok h.
Proof.
  intros Hok. destruct (header_flags_ok h Hok) as [Hf Hr].
  destruct Hok as [Hid _ _ _ _ Hq Ha Hn Har].
  unfold header_to_bytes. set (f := header_flags h) in *.
  unfold u16_be. rewrite <-!(assoc_L (++)). cbn [app].
  match goal with |- header_parse (?a0 :: ?a1 :: ?f0 :: ?f1 :: ?q0 :: ?q1 ::
      ?n0 :: ?n1 :: ?s0 :: ?s1 :: ?r0 :: ?r1 :: ?tl) = _ =>
    pose proof (header_parse_cells a0 a1 f0 f1 q0 q1 n0 n1 s0 s1 r0 r1 tl) as Hc
  end.
  cbn [app] in Hc. rewrite Hc, !from_u16_be by done. rewrite Hf. by destruct h.
Qed.

(** The header codec is an exact pair of inverses.  A header whose fields
    fit their bits is parsed back from its twelve bytes whatever follows them,
    and the header parsed from any message prints as the twelve bytes it was
    parsed from: no flag bit, reserved bit or unassigned code is lost. *)
Theorem header_codec_inverse bs h rest :
  (header_ok h → header_parse (header_to_bytes h ++ rest) = Ok h) ∧
  (bytes_ok bs → header_parse bs = Ok h → header_to_bytes h = take HEADER_LEN bs).
Proof.
  split; [apply header_parse_to_bytes|].
  intros Hok.
  destruct bs as [|a0 [|a1 [|f0 [|f1 [|q0 [|q1 [|n0 [|n1 [|s0 [|s1 [|r0 [|r1 tl]]]]]]]]]]]];
    try done.
  change (a0 :: _) with ([a0; a1; f0; f1; q0; q1; n0; n1; s0; s1; r0; r1] ++ tl) in *.
  rewrite header_parse_cells. intros [= <-].
  unfold bytes_ok in Hok. rewrite !Forall_app, !Forall_cons in Hok.
  destruct Hok as [Hb _]. repeat match type of Hb with _ ∧ _ =>
    let H' := fresh "Hbyte" in destruct Hb as [H' Hb] end.
  unfold header_to_bytes. rewrite header_flags_counts; cbn [with_counts id qr opcode
    aa tc rd ra z rcode qdcount ancount nscount arcount].
  pose proof (header_flags_of_flags (from_be16 f0 f1)) as Hfl.
  rewrite header_flags_counts in Hfl. rewrite Hfl by (by apply from_be16_range).
  by rewrite !u16_be_from.
Qed.

Definition ex_header : DnsHeader :=
  {| id := 0xabcd; qr := true; opcode := 2; aa := true; tc := false; rd := true;
     ra := true; z := 5; rcode := RcodeOther 9; qdcount := 1; ancount := 2;
     nscount := 0; arcount := 300 |}.

Lemma header_codec_inverse_witness :
  header_parse (header_to_bytes ex_header ++ [7]) = Ok ex_header ∧
  header_to_bytes ex_header =
    take HEADER_LEN (header_to_bytes ex_header ++ [7]).
Proof.
  destruct (header_codec_inverse (header_to_bytes ex_header ++ [7]) ex_header [7])
    as [H1 H2].
  split.
  - apply H1. split; done.
  - apply H2; [|vm_compute; reflexivity].
    vm_compute. repeat constructor; done.
Defined.
