(* ===== verification/DnsName.v ===== *)
(** * DnsName: [DnsDomainName] and its message compression,
      [src/lib/dns/record.rs]

    Wire parsing of a domain name with compression pointers, its plain and its
    compressed emission, [DnsNameCompressionMap], and [FromStr].

    A [Vec<u8>] or a [String] is the list of its bytes.  [name_at] is the
    grammar of RFC 1035 section 4.1.4, against which the parser is proved
    sound and complete, and the compressor correct. *)

From S2P Require Export Errors Bytes.

#[local] Open Scope Z_scope.

Abbreviation label := (list Z) (only parsing).

Record DnsDomainName : Type := dns_domain_name {
  labels : list label;
  raw_offset : nat;
  compression_pointer : option nat;
}.

Definition name_default : DnsDomainName := dns_domain_name [] 0 None.

(** [u8::to_ascii_lowercase], [u8::eq_ignore_ascii_case]. *)
Definition to_ascii_lowercase (b : Z) : Z :=
  if (65 <=? b) && (b <=? 90) then b + 32 else b.

Definition eq_ignore_ascii_case (a b : Z) : bool :=
  to_ascii_lowercase a =? to_ascii_lowercase b.

(** [PartialEq for DnsDomainName]. *)
Definition label_eqb (a b : label) : bool :=
  (length a =? length b)%nat &&
  forallb (λ p, eq_ignore_ascii_case p.1 p.2) (zip a b).

Definition name_eqb (x y : DnsDomainName) : bool :=
  (length (labels x) =? length (labels y))%nat &&
  forallb (λ p, label_eqb p.1 p.2) (zip (labels x) (labels y)).

(** [Hash for DnsDomainName]: the bytes written to the hasher, a length
    standing for the eight bytes of its [usize]. *)
Definition hash_label (l : label) : list (nat + Z) :=
  inl (length l) :: (inr ∘ to_ascii_lowercase <$> l).

Definition name_hash_input (x : DnsDomainName) : list (nat + Z) :=
  labels x ≫= hash_label.

(** ** Parsing *)

Definition MAX_POINTER_CHAIN : nat := 10.

(** The variables of the loop of [parse_from]. *)
Record name_state : Type := NameState {
  ns_offset : nat;
  ns_labels : list label;
  ns_return : option nat;
  ns_pointer : option nat;
  ns_total : nat;
  ns_count : nat;
}.

Inductive name_step_result : Type :=
| NContinue (s : name_state)
| NBreak (s : name_state) (terminated : bool)
| NFail (k : ErrorKind).

(** One evaluation of [while *offset < buf.len() { .. }]. *)
Definition name_step (buf : list Z) (s : name_state) : name_step_result :=
  let offset := ns_offset s in
  if negb (offset <? length buf)%nat then NBreak s false
  else
    let len_byte := buf !!! offset in
    if len_byte =? 0 then
      NBreak (NameState (offset + 1) (ns_labels s) (ns_return s) (ns_pointer s)
                (ns_total s) (ns_count s)) true
    else if Z.land len_byte 0xC0 =? 0xC0 then
      if (length buf <=? offset + 1)%nat then NFail InvalidArgument
      else
        let pointer_count := (ns_count s + 1)%nat in
        if (MAX_POINTER_CHAIN <? pointer_count)%nat then NFail InvalidArgument
        else
          let pointer_offset := Z.to_nat
            (Z.lor (as_u16 (Z.shiftl (Z.land len_byte 0x3F) 8))
                   (buf !!! (offset + 1)%nat)) in
          if (length buf <=? pointer_offset)%nat then NFail InvalidArgument
          else
            NContinue (NameState pointer_offset (ns_labels s)
              (match ns_return s with
               | None => Some (offset + 2)%nat | Some r => Some r end)
              (match ns_pointer s with
               | None => Some pointer_offset | Some c => Some c end)
              (ns_total s) pointer_count)
    else if negb (Z.land len_byte 0xC0 =? 0) then NFail InvalidArgument
    else
      let len := Z.to_nat len_byte in
      let total_length := (ns_total s + (1 + len))%nat in
      if (255 <? total_length)%nat then NFail InvalidArgument
      else
        let offset := (offset + 1)%nat in
        if (length buf <? offset + len)%nat then NFail InvalidArgument
        else
          NContinue (NameState (offset + len)
            (ns_labels s ++ [slice buf offset len]) (ns_return s) (ns_pointer s)
            total_length (ns_count s)).

(** [None]: out of fuel, which [name_loop_total] excludes. *)
Fixpoint name_loop (fuel : nat) (buf : list Z) (s : name_state) :
    option (res (name_state * bool)) :=
  match fuel with
  | O => None
  | S fuel' =>
      match name_step buf s with
      | NContinue s' => name_loop fuel' buf s'
      | NBreak s' terminated => Some (Ok (s', terminated))
      | NFail k => Some (fail k)
      end
  end.

(** More than the turns the two limits of the loop allow: every turn adds a
    pointer (at most ten) or at least two octets (at most 255). *)
Definition NAME_FUEL : nat := 268.

(** [DnsDomainName::parse_from]: the name and the new offset. *)
Definition name_parse_from (buf : list Z) (offset : nat) :
    res (DnsDomainName * nat) :=
  match name_loop NAME_FUEL buf (NameState offset [] None None 0 0) with
  | None => fail Bug
  | Some r =>
      let? p := r in
      let s := p.1 in
      if negb p.2 then fail InvalidArgument
      else
        Ok (dns_domain_name (ns_labels s) offset (ns_pointer s),
            default (ns_offset s) (ns_return s))
  end.

(** ** Emission *)

(** [DnsDomainName::emit_to]. *)
Definition name_emit_to (d : DnsDomainName) (buf : list Z) : list Z :=
  foldl (λ buf l, buf ++ [as_u8 (Z.of_nat (length l))] ++ l) buf (labels d)
    ++ [0].

(** [String::from_utf8_lossy], as [Utf8Chunks] cuts the bytes: of an invalid
    sequence the longest prefix of a well formed one becomes U+FFFD. *)
Definition utf8_char_width (b : Z) : nat :=
  if b <? 0x80 then 1
  else if b <? 0xC2 then 0
  else if b <? 0xE0 then 2
  else if b <? 0xF0 then 3
  else if b <? 0xF5 then 4
  else 0.

Definition in_range (a b x : Z) : bool := (a <=? x) && (x <=? b).

Definition is_continuation (b : Z) : bool := Z.land b 192 =? 128.

Definition utf8_second_ok (b0 b1 : Z) : bool :=
  if b0 =? 0xE0 then in_range 0xA0 0xBF b1
  else if b0 =? 0xED then in_range 0x80 0x9F b1
  else if b0 =? 0xF0 then in_range 0x90 0xBF b1
  else if b0 =? 0xF4 then in_range 0x80 0x8F b1
  else in_range 0x80 0xBF b1.

(** The bytes the first chunk takes, and whether they are a character. *)
Definition utf8_next (b0 : Z) (rest : list Z) : nat * bool :=
  let get i := default 0 (rest !! i) in
  match utf8_char_width b0 with
  | 1%nat => (1%nat, true)
  | 2%nat =>
      if is_continuation (get 0%nat) then (2%nat, true) else (1%nat, false)
  | 3%nat =>
      if negb (utf8_second_ok b0 (get 0%nat)) then (1%nat, false)
      else if negb (is_continuation (get 1%nat)) then (2%nat, false)
      else (3%nat, true)
  | 4%nat =>
      if negb (utf8_second_ok b0 (get 0%nat)) then (1%nat, false)
      else if negb (is_continuation (get 1%nat)) then (2%nat, false)
      else if negb (is_continuation (get 2%nat)) then (3%nat, false)
      else (4%nat, true)
  | _ => (1%nat, false)
  end.

Fixpoint utf8_lossy (fuel : nat) (s : list Z) : list Z :=
  match fuel, s with
  | S fuel', b0 :: rest =>
      let '(n, ok) := utf8_next b0 rest in
      (if ok then take n s else [0xEF; 0xBF; 0xBD]) ++
      utf8_lossy fuel' (drop n s)
  | _, _ => []
  end.

Definition from_utf8_lossy (s : list Z) : list Z := utf8_lossy (length s) s.

(** [[_]::join(".")] on strings. *)
Fixpoint join_dot (l : list (list Z)) : list Z :=
  match l with
  | [] => []
  | [x] => x
  | x :: l' => x ++ [46] ++ join_dot l'
  end.

(** [DnsNameCompressionMap]. *)
Abbreviation DnsNameCompressionMap := (gmap (list Z) nat).

Definition suffix_key (ls : list label) : list Z :=
  join_dot ((λ l, to_ascii_lowercase <$> from_utf8_lossy l) <$> ls).

Definition emit_pointer (buf : list Z) (offset : nat) : list Z :=
  let offset := Z.land (Z.of_nat offset) 0x3FFF in
  buf ++ [Z.lor 0xC0 (as_u8 (Z.land (Z.shiftr offset 8) 0x3F));
          as_u8 (Z.land offset 0xFF)].

(** The loop of [DnsDomainName::emit_to_compressed] on the labels from [i] on. *)
Fixpoint emit_labels_compressed (ls : list label) (buf : list Z)
    (names : DnsNameCompressionMap) : list Z * DnsNameCompressionMap :=
  match ls with
  | [] => (buf ++ [0], names)
  | l :: ls' =>
      let suffix := suffix_key ls in
      match names !! suffix with
      | Some offset => (emit_pointer buf offset, names)
      | None =>
          emit_labels_compressed ls'
            (buf ++ [as_u8 (Z.of_nat (length l))] ++ l)
            (<[suffix := length buf]> names)
      end
  end.

Definition name_emit_to_compressed (d : DnsDomainName) (buf : list Z)
    (names : DnsNameCompressionMap) : list Z * DnsNameCompressionMap :=
  emit_labels_compressed (labels d) buf names.

(** [str::split('.')]. *)
Fixpoint split_dot (s : list Z) : list (list Z) :=
  match s with
  | [] => [[]]
  | b :: s' =>
      if b =? 46 then [] :: split_dot s'
      else match split_dot s' with
           | [] => [[b]]
           | p :: ps => (b :: p) :: ps
           end
  end.

(** The loop of [FromStr for DnsDomainName] over the parts of the name. *)
Fixpoint labels_from_parts (parts : list (list Z)) : res (list label) :=
  match parts with
  | [] => Ok []
  | p :: ps =>
      if (length p =? 0)%nat then labels_from_parts ps
      else if (63 <? length p)%nat then fail InvalidArgument
      else
        let? ls := labels_from_parts ps in
        Ok ((to_ascii_lowercase <$> p) :: ls)
  end.

(** [FromStr for DnsDomainName]. *)
Definition name_from_str (name : list Z) : res DnsDomainName :=
  if (length name =? 0)%nat then fail InvalidArgument
  else if bool_decide (name = [46]) then Ok (dns_domain_name [] 0 None)
  else
    let? ls := labels_from_parts (split_dot name) in
    if (length ls =? 0)%nat then fail InvalidArgument
    else Ok (dns_domain_name ls 0 None).

(** ** The grammar of RFC 1035 section 4.1.4 *)

(** The octets of the labels with their length octets. *)
Definition wire_len (ls : list label) : nat :=
  sum_list_with (λ l, 1 + length l)%nat ls.

Lemma wire_len_cons l ls : wire_len (l :: ls) = (1 + length l + wire_len ls)%nat.
Proof. done. Qed.

(** [name_at buf off ls p e cp]: at [off] stands a name with the labels [ls],
    spelled through [p] pointers of which the first, if any, has the target
    [cp], and the bytes after its spelling at [off] start at [e]. *)
Inductive name_at (buf : list Z) :
    nat → list label → nat → nat → option nat → Prop :=
| na_root off :
    buf !! off = Some 0 →
    name_at buf off [] 0 (off + 1) None
| na_label off len l ls p e cp :
    buf !! off = Some len → 0 < len < 64 →
    (off + 1 + Z.to_nat len ≤ length buf)%nat →
    l = slice buf (off + 1) (Z.to_nat len) →
    name_at buf (off + 1 + Z.to_nat len) ls p e cp →
    name_at buf off (l :: ls) p e cp
| na_pointer off b0 b1 target ls p e cp :
    buf !! off = Some b0 → buf !! (off + 1)%nat = Some b1 → 192 ≤ b0 →
    target = Z.to_nat ((b0 - 192) * 256 + b1) →
    name_at buf target ls p e cp →
    name_at buf off ls (S p) (off + 2) (Some target).

(** ** Bit facts *)

Lemma byte_bits b :
  byte_ok b →
  (Z.land b 0xC0 = 0xC0 ↔ 192 ≤ b) ∧ (Z.land b 0xC0 = 0 ↔ b < 64) ∧
  Z.land b 0x3F = b mod 64.
Proof.
  intros Hb.
  pose (P b := bool_decide (bool_decide (Z.land b 0xC0 = 0xC0) = (192 <=? b)) &&
     bool_decide (bool_decide (Z.land b 0xC0 = 0) = (b <? 64)) &&
     (Z.land b 0x3F =? b mod 64)).
  assert (P b = true) as H.
  { apply (all_bits_spec 8 P 0); [vm_compute; reflexivity|].
    unfold byte_ok in Hb. lia. }
  unfold P in H.
  apply andb_true_iff in H as [[H1%bool_decide_eq_true
    H2%bool_decide_eq_true]%andb_true_iff H3%Z.eqb_eq].
  split_and!; [| |done].
  - rewrite <-Z.leb_le, <-H1. by rewrite bool_decide_eq_true.
  - rewrite <-Z.ltb_lt, <-H2. by rewrite bool_decide_eq_true.
Qed.

Lemma pointer_bits b0 b1 :
  byte_ok b0 → byte_ok b1 → 192 ≤ b0 →
  Z.lor (as_u16 (Z.shiftl (Z.land b0 0x3F) 8)) b1 = (b0 - 192) * 256 + b1.
Proof.
  intros H0 H1 Hge.
  assert ((b0 * 256 + b1) / 256 = b0 ∧ (b0 * 256 + b1) mod 256 = b1) as [E0 E1].
  { unfold byte_ok in *. split; zlia. }
  pose (P w := Z.lor (as_u16 (Z.shiftl (Z.land (w / 256) 0x3F) 8)) (w mod 256)
               =? (w / 256 - 192) * 256 + w mod 256).
  assert (P (b0 * 256 + b1) = true) as H.
  { apply (all_bits_spec 14 P 3); [vm_compute; reflexivity|].
    unfold byte_ok in *. change (2 ^ Z.of_nat 14) with 16384. lia. }
  unfold P in H. apply Z.eqb_eq in H. by rewrite E0, E1 in H.
Qed.

(** What [emit_pointer] writes, for an offset that fits fourteen bits. *)
Lemma emit_pointer_bytes buf off :
  Z.of_nat off < 16384 →
  emit_pointer buf off =
  buf ++ [192 + Z.of_nat off / 256; Z.of_nat off mod 256].
Proof.
  intros Hoff. unfold emit_pointer. f_equal.
  set (o := Z.of_nat off).
  pose (P o := let o' := Z.land o 0x3FFF in
     (Z.lor 0xC0 (as_u8 (Z.land (Z.shiftr o' 8) 0x3F)) =? 192 + o / 256) &&
     (as_u8 (Z.land o' 0xFF) =? o mod 256)).
  assert (P o = true) as H.
  { apply (all_bits_spec 14 P 0); [vm_compute; reflexivity|].
    change (2 ^ Z.of_nat 14) with 16384. unfold o. lia. }
  unfold P in H. cbv zeta in H. apply andb_true_iff in H as [H1%Z.eqb_eq H2%Z.eqb_eq].
  by rewrite H1, H2.
Qed.

(** ** The parser implements the grammar *)

Section Parse.
Variable buf : list Z.
Hypothesis Hbuf : bytes_ok buf.

Lemma buf_byte i b : buf !! i = Some b → byte_ok b.
Proof. apply (Forall_lookup_1 _ _ _ _ Hbuf). Qed.

(** What the loop still has to do is bounded. *)
Definition name_measure (s : name_state) : nat :=
  (256 - ns_total s) + (11 - ns_count s).

Definition state_ok (s : name_state) : Prop :=
  (ns_total s ≤ 255)%nat ∧ (ns_count s ≤ MAX_POINTER_CHAIN)%nat.

Lemma name_step_measure s s' :
  state_ok s → name_step buf s = NContinue s' →
  state_ok s' ∧ (name_measure s' < name_measure s)%nat.
Proof.
  intros [Ht Hc]. unfold name_step, state_ok, name_measure, MAX_POINTER_CHAIN in *.
  intros H. cbv zeta in H. step_cases H; bool_hyps; injection H as <-; simpl; lia.
Qed.

Lemma name_loop_some fuel s :
  state_ok s → (name_measure s < fuel)%nat → is_Some (name_loop fuel buf s).
Proof.
  revert s. induction fuel as [|fuel IH]; intros s Hs Hf; [lia|]. simpl.
  destruct (name_step buf s) as [s'| |] eqn:E; [|by eauto..].
  apply name_step_measure in E as [Hs' Hm]; [|done]. apply IH; [done|lia].
Qed.

(** The state a loop that reads [ls] from [s] on ends in. *)
Definition name_end (s : name_state) (ls : list label) (p e : nat)
    (cp : option nat) (s' : name_state) : Prop :=
  ns_labels s' = ns_labels s ++ ls ∧
  default (ns_offset s') (ns_return s') = default e (ns_return s) ∧
  ns_pointer s' = match ns_pointer s with Some c => Some c | None => cp end ∧
  ns_total s' = (ns_total s + wire_len ls)%nat ∧
  ns_count s' = (ns_count s + p)%nat.

Lemma name_step_label s len :
  buf !! ns_offset s = Some len → 0 < len < 64 →
  (ns_offset s + 1 + Z.to_nat len ≤ length buf)%nat →
  (ns_total s + (1 + Z.to_nat len) ≤ 255)%nat →
  name_step buf s =
  NContinue (NameState (ns_offset s + 1 + Z.to_nat len)
    (ns_labels s ++ [slice buf (ns_offset s + 1) (Z.to_nat len)])
    (ns_return s) (ns_pointer s) (ns_total s + (1 + Z.to_nat len)) (ns_count s)).
Proof.
  intros Hl Hlen Hb Ht. unfold name_step. cbv zeta.
  pose proof (lookup_lt_Some _ _ _ Hl) as Hlt.
  rewrite (list_lookup_total_correct _ _ _ Hl).
  destruct (byte_bits len (buf_byte _ _ Hl)) as (B1 & B2 & _).
  rewrite (proj2 (Nat.ltb_lt _ _)) by done. simpl negb. cbn iota.
  rewrite (proj2 (Z.eqb_neq _ _)) by lia.
  rewrite (proj2 (Z.eqb_neq (Z.land len 0xC0) 0xC0)) by (rewrite B1; lia).
  rewrite (proj2 (Z.eqb_eq (Z.land len 0xC0) 0)) by (apply B2; lia).
  rewrite (proj2 (Nat.ltb_ge 255 _)) by lia.
  rewrite (proj2 (Nat.ltb_ge (length buf) _)) by lia. done.
Qed.

Lemma name_step_pointer s b0 b1 :
  buf !! ns_offset s = Some b0 → buf !! (ns_offset s + 1)%nat = Some b1 →
  192 ≤ b0 → (ns_count s < MAX_POINTER_CHAIN)%nat →
  (Z.to_nat ((b0 - 192) * 256 + b1) < length buf)%nat →
  name_step buf s =
  NContinue (NameState (Z.to_nat ((b0 - 192) * 256 + b1)) (ns_labels s)
    (match ns_return s with
     | None => Some (ns_offset s + 2)%nat | Some r => Some r end)
    (match ns_pointer s with
     | None => Some (Z.to_nat ((b0 - 192) * 256 + b1)) | Some c => Some c end)
    (ns_total s) (ns_count s + 1)).
Proof.
  intros H0 H1 Hge Hc Ht. unfold name_step. cbv zeta.
  pose proof (lookup_lt_Some _ _ _ H0) as Hlt0.
  pose proof (lookup_lt_Some _ _ _ H1) as Hlt1.
  rewrite (list_lookup_total_correct _ _ _ H0),
    (list_lookup_total_correct _ _ _ H1).
  destruct (byte_bits b0 (buf_byte _ _ H0)) as (B1 & _ & _).
  rewrite (pointer_bits b0 b1) by eauto using buf_byte.
  rewrite (proj2 (Nat.ltb_lt _ _)) by done. simpl negb. cbn iota.
  rewrite (proj2 (Z.eqb_neq b0 0)) by lia.
  rewrite (proj2 (Z.eqb_eq (Z.land b0 0xC0) 0xC0)) by (by apply B1).
  rewrite (proj2 (Nat.leb_gt (length buf) (ns_offset s + 1))) by lia.
  rewrite (proj2 (Nat.ltb_ge MAX_POINTER_CHAIN _)) by (unfold MAX_POINTER_CHAIN in *; lia).
  rewrite (proj2 (Nat.leb_gt (length buf) _)) by lia. done.
Qed.

Lemma name_step_root s :
  buf !! ns_offset s = Some 0 →
  name_step buf s =
  NBreak (NameState (ns_offset s + 1) (ns_labels s) (ns_return s)
            (ns_pointer s) (ns_total s) (ns_count s)) true.
Proof.
  intros H0. unfold name_step. cbv zeta.
  rewrite (list_lookup_total_correct _ _ _ H0).
  by rewrite (proj2 (Nat.ltb_lt _ _)) by (by eapply lookup_lt_Some).
Qed.

Lemma name_loop_complete off ls p e cp :
  name_at buf off ls p e cp →
  ∀ fuel s r, ns_offset s = off →
  (ns_total s + wire_len ls ≤ 255)%nat →
  (ns_count s + p ≤ MAX_POINTER_CHAIN)%nat →
  name_loop fuel buf s = Some r →
  ∃ s', r = Ok (s', true) ∧ name_end s ls p e cp s'.
Proof.
  induction 1 as [off H0|off len l ls p e cp Hl Hlen Hb -> Hn IH
                 |off b0 b1 target ls p e cp H0 H1 Hge -> Hn IH];
    intros [|fuel] s r <- Ht Hc Hr; try discriminate Hr; simpl in Hr.
  - rewrite name_step_root in Hr by done. injection Hr as <-.
    eexists. split; [done|]. unfold name_end; simpl.
    rewrite app_nil_r. split_and!; [done..| |lia|lia].
    by destruct (ns_pointer s).
  - assert (length (slice buf (ns_offset s + 1) (Z.to_nat len)) = Z.to_nat len)
      as Hsl by (apply length_slice; lia).
    rewrite wire_len_cons, Hsl in Ht.
    rewrite (name_step_label s len) in Hr by (done || lia).
    apply IH in Hr as (s' & -> & (E1 & E2 & E3 & E4 & E5)); simpl;
      [|done|lia|lia].
    simpl in *. eexists. split; [done|]. unfold name_end.
    rewrite E1, E2, E3, E4, E5, <-(assoc_L (++)).
    split_and!; [done..| |done].
    rewrite wire_len_cons. lia.
  - assert (Z.to_nat ((b0 - 192) * 256 + b1) < length buf)%nat as Htgt.
    { inversion Hn; eauto using lookup_lt_Some. }
    rewrite (name_step_pointer s b0 b1) in Hr by (done || lia).
    apply IH in Hr as (s' & -> & (E1 & E2 & E3 & E4 & E5)); simpl;
      [|done|done|lia].
    simpl in *. eexists. split; [done|]. unfold name_end.
    rewrite E1, E2, E3, E4, E5. split_and!; [done| |by destruct (ns_pointer s)|done|lia].
    by destruct (ns_return s).
Qed.

(** Inversion of a turn of the loop. *)
Lemma name_step_continue s s' :
  name_step buf s = NContinue s' →
  (∃ len, buf !! ns_offset s = Some len ∧ 0 < len < 64 ∧
     (ns_offset s + 1 + Z.to_nat len ≤ length buf)%nat ∧
     (ns_total s + (1 + Z.to_nat len) ≤ 255)%nat ∧
     s' = NameState (ns_offset s + 1 + Z.to_nat len)
       (ns_labels s ++ [slice buf (ns_offset s + 1) (Z.to_nat len)])
       (ns_return s) (ns_pointer s) (ns_total s + (1 + Z.to_nat len))
       (ns_count s)) ∨
  (∃ b0 b1, buf !! ns_offset s = Some b0 ∧
     buf !! (ns_offset s + 1)%nat = Some b1 ∧ 192 ≤ b0 ∧
     (ns_count s < MAX_POINTER_CHAIN)%nat ∧
     s' = NameState (Z.to_nat ((b0 - 192) * 256 + b1)) (ns_labels s)
       (match ns_return s with
        | None => Some (ns_offset s + 2)%nat | Some r => Some r end)
       (match ns_pointer s with
        | None => Some (Z.to_nat ((b0 - 192) * 256 + b1))
        | Some c => Some c end)
       (ns_total s) (ns_count s + 1)).
Proof.
  unfold name_step. cbv zeta.
  destruct (ns_offset s <? length buf)%nat eqn:Hlt; simpl; [|done].
  apply Nat.ltb_lt in Hlt.
  pose proof (list_lookup_lookup_total_lt buf (ns_offset s) Hlt) as H0.
  destruct (byte_bits _ (buf_byte _ _ H0)) as (B1 & B2 & _).
  destruct (buf !!! ns_offset s =? 0) eqn:Hz; [done|].
  pose proof (buf_byte _ _ H0) as Hb0. unfold byte_ok in Hb0.
  destruct (Z.land _ 0xC0 =? 0xC0) eqn:Hc.
  - apply Z.eqb_eq, B1 in Hc.
    destruct (length buf <=? ns_offset s + 1)%nat eqn:Hb; [done|].
    destruct (MAX_POINTER_CHAIN <? ns_count s + 1)%nat eqn:Hm; [done|].
    bool_hyps.
    pose proof (list_lookup_lookup_total_lt buf (ns_offset s + 1) Hb) as H1.
    rewrite pointer_bits by eauto using buf_byte.
    destruct (length buf <=? _)%nat; [done|]. intros [= <-]. right.
    eexists _, _. split_and!; [done..|unfold MAX_POINTER_CHAIN in *; lia|done].
  - destruct (Z.land _ 0xC0 =? 0) eqn:Hl; simpl; [|done].
    apply Z.eqb_eq, B2 in Hl.
    destruct (255 <? _)%nat eqn:Ht; [done|].
    destruct (length buf <? _)%nat eqn:Hb; [done|]. bool_hyps.
    intros [= <-]. left. eexists. split_and!; [done|lia|lia|lia|lia|done].
Qed.

Lemma name_loop_sound fuel s s' :
  state_ok s → name_loop fuel buf s = Some (Ok (s', true)) →
  ∃ ls p e cp, name_at buf (ns_offset s) ls p e cp ∧ name_end s ls p e cp s' ∧
    state_ok s'.
Proof.
  revert s. induction fuel as [|fuel IH]; intros s Hs; [done|]. simpl.
  destruct (name_step buf s) as [s1|s1 t|k] eqn:E; [| |done].
  - intros Hr. pose proof (proj1 (name_step_measure _ _ Hs E)) as Hs1.
    apply name_step_continue in E as
      [(len & Hl & Hlen & Hb & Ht & ->)|(b0 & b1 & H0 & H1 & Hge & Hc & ->)];
      apply IH in Hr as (ls & p & e & cp & Hn & (E1 & E2 & E3 & E4 & E5) & Hs');
      try done; simpl in *.
    + exists (slice buf (ns_offset s + 1) (Z.to_nat len) :: ls), p, e, cp.
      split_and!; [by eapply na_label| |done]. unfold name_end.
      rewrite E1, E2, E3, E4, E5, <-(assoc_L (++)). split_and!; [done..| |done].
      rewrite wire_len_cons, length_slice by lia. lia.
    + eexists ls, (S p), (ns_offset s + 2)%nat, _.
      split_and!; [by eapply na_pointer| |done]. unfold name_end.
      rewrite E1, E2, E3, E4, E5.
      split_and!; [done| |by destruct (ns_pointer s)|done|lia].
      by destruct (ns_return s).
  - revert E. unfold name_step. cbv zeta.
    destruct (ns_offset s <? length buf)%nat eqn:Hlt; simpl; [|by intros [= <- <-]].
    apply Nat.ltb_lt in Hlt.
    pose proof (list_lookup_lookup_total_lt buf (ns_offset s) Hlt) as H0.
    destruct (buf !!! ns_offset s =? 0) eqn:Hz.
    + intros [= <- <-] [= <-]. apply Z.eqb_eq in Hz. rewrite Hz in H0.
      exists [], 0%nat, (ns_offset s + 1)%nat, None.
      split_and!; [by apply na_root| |by destruct Hs].
      unfold name_end; simpl. rewrite app_nil_r.
      split_and!; [done|done|by destruct (ns_pointer s)|lia|lia].
    + intros H. exfalso. step_cases H.
Qed.

Lemma name_parse_complete off ls p e cp :
  name_at buf off ls p e cp → (wire_len ls ≤ 255)%nat →
  (p ≤ MAX_POINTER_CHAIN)%nat →
  name_parse_from buf off = Ok (dns_domain_name ls off cp, e).
Proof.
  intros Hn Hw Hp. unfold name_parse_from.
  destruct (name_loop_some NAME_FUEL (NameState off [] None None 0 0))
    as [r Hr].
  { unfold state_ok, MAX_POINTER_CHAIN. simpl. lia. }
  { unfold name_measure, NAME_FUEL. simpl. lia. }
  rewrite Hr. eapply name_loop_complete in Hr as (s' & -> & Hs'); simpl;
    [|done|done|simpl; lia|simpl; lia].
  destruct Hs' as (E1 & E2 & E3 & _). simpl in *. by rewrite E1, E2, E3.
Qed.

Lemma name_parse_sound off d e :
  name_parse_from buf off = Ok (d, e) →
  raw_offset d = off ∧ (wire_len (labels d) ≤ 255)%nat ∧
  ∃ p, name_at buf off (labels d) p e (compression_pointer d) ∧
    (p ≤ MAX_POINTER_CHAIN)%nat.
Proof.
  unfold name_parse_from.
  destruct (name_loop _ _ _) as [[[s' []]|err]|] eqn:Hr; try done. simpl.
  intros [= <- <-]. apply name_loop_sound in Hr as
    (ls & p & e & cp & Hn & (E1 & E2 & E3 & E4 & E5) & [Ht Hc]).
  - simpl in *. rewrite E1, E2, E3. split_and!; [done|lia|].
    exists p. split; [done|lia].
  - unfold state_ok, MAX_POINTER_CHAIN; simpl; lia.
Qed.
End Parse.

(** The loop of [parse_from] always ends: whatever the message and the
    offset, it is done within the turns its limits on the pointer chain and on
    the name length allow.  A compression pointer cycle cannot hang it. *)
Theorem name_parse_terminates buf offset :
  ∃ r, name_loop NAME_FUEL buf (NameState offset [] None None 0 0) = Some r.
Proof.
  apply name_loop_some.
  - unfold state_ok, MAX_POINTER_CHAIN. simpl. lia.
  - unfold name_measure, NAME_FUEL. simpl. lia.
Qed.

(** C28: [parse_from] accepts exactly the names of the RFC 1035 grammar with at
    most ten pointers and at most 255 octets of labels: it returns the labels
    the grammar reads, the offset it started at, the first pointer's target
    and the offset behind the spelling, and refuses everything else. *)
Theorem name_parse_iff_grammar buf off d e :
  bytes_ok buf →
  name_parse_from buf off = Ok (d, e) ↔
  raw_offset d = off ∧ (wire_len (labels d) ≤ 255)%nat ∧
  ∃ p, name_at buf off (labels d) p e (compression_pointer d) ∧
    (p ≤ MAX_POINTER_CHAIN)%nat.
Proof.
  intros Hbuf. split; [by apply name_parse_sound|].
  intros (<- & Hw & p & Hn & Hp). destruct d as [ls off cp].
  by eapply name_parse_complete.
Qed.

(** [\x01a\x00] and, at 3, [\x01b] with a pointer to it. *)
Definition ex_name_buf : list Z := [1; 97; 0; 1; 98; 0xC0; 0].

Lemma name_parse_iff_grammar_witness :
  ∃ p, name_at ex_name_buf 3 [[98]; [97]] p 7 (Some 0%nat) ∧
    (p ≤ MAX_POINTER_CHAIN)%nat.
Proof.
  apply (name_parse_iff_grammar ex_name_buf 3
           (dns_domain_name [[98]; [97]] 3 (Some 0%nat)) 7).
  - repeat constructor; done.
  - vm_compute. reflexivity.
Defined.

(** ** Emission without compression *)

Record label_ok (l : label) : Prop := {
  label_len : (1 ≤ length l ≤ 63)%nat;
  label_bytes : bytes_ok l;
}.

(** The uncompressed spelling. *)
Definition name_bytes (ls : list label) : list Z :=
  (ls ≫= λ l, Z.of_nat (length l) :: l) ++ [0].

Lemma name_bytes_cons l ls :
  name_bytes (l :: ls) = (Z.of_nat (length l) :: l) ++ name_bytes ls.
Proof. unfold name_bytes. simpl. by rewrite <-(assoc_L (++)). Qed.

Lemma length_name_bytes ls : length (name_bytes ls) = (wire_len ls + 1)%nat.
Proof.
  induction ls as [|l ls IH]; [done|].
  rewrite name_bytes_cons, length_app, IH, wire_len_cons. simpl. lia.
Qed.

Lemma name_bytes_ok ls : Forall label_ok ls → bytes_ok (name_bytes ls).
Proof.
  induction 1 as [|l ls [Hl Hb] Hls IH].
  - repeat constructor; done.
  - rewrite name_bytes_cons. apply Forall_app. split; [|done].
    constructor; [unfold byte_ok; lia|done].
Qed.

Lemma name_emit_to_bytes d buf :
  Forall label_ok (labels d) → name_emit_to d buf = buf ++ name_bytes (labels d).
Proof.
  unfold name_emit_to, name_bytes. generalize (labels d) as ls.
  intros ls Hls. rewrite (assoc_L (++)). f_equal.
  revert buf. induction Hls as [|l ls [Hl _] Hls IH]; intros buf; simpl.
  - by rewrite app_nil_r.
  - rewrite IH, as_u8_small by lia. by rewrite <-(assoc_L (++)).
Qed.

Lemma slice_mid pre l post n off :
  off = length pre → n = length l → slice (pre ++ l ++ post) off n = l.
Proof. intros -> ->. apply slice_at. Qed.

Lemma lookup_mid (pre post : list Z) x off :
  off = length pre → (pre ++ x :: post) !! off = Some x.
Proof.
  intros ->. by rewrite lookup_app_r, Nat.sub_diag by lia.
Qed.

(** A label standing between [pre] and a spelled name. *)
Lemma name_at_label pre l post ls p e cp :
  label_ok l →
  name_at (pre ++ (Z.of_nat (length l) :: l) ++ post)
    (length pre + 1 + length l) ls p e cp →
  name_at (pre ++ (Z.of_nat (length l) :: l) ++ post) (length pre) (l :: ls) p e cp.
Proof.
  intros [Hl _] Hn.
  eapply (na_label _ _ (Z.of_nat (length l))); rewrite ?Nat2Z.id.
  - simpl. by apply lookup_mid.
  - lia.
  - rewrite !length_app. simpl. lia.
  - change (pre ++ (?x :: l) ++ post) with (pre ++ [x] ++ l ++ post).
    rewrite (assoc_L (++) pre). symmetry. apply slice_mid; [|done].
    rewrite length_app. simpl. lia.
  - done.
Qed.

Lemma name_at_bytes pre ls post :
  Forall label_ok ls →
  name_at (pre ++ name_bytes ls ++ post) (length pre) ls 0
    (length pre + length (name_bytes ls)) None.
Proof.
  intros Hls. revert pre. induction Hls as [|l ls Hl Hls IH]; intros pre.
  - apply na_root. simpl. by apply lookup_mid.
  - rewrite name_bytes_cons, <-(assoc_L (++)). apply name_at_label; [done|].
    specialize (IH (pre ++ (Z.of_nat (length l) :: l))).
    rewrite <-(assoc_L (++)) in IH. rewrite !length_app in *. simpl in IH.
    simpl. replace (length pre + 1 + length l)%nat
      with (length pre + S (length l))%nat by lia.
    replace (length pre + S (length l + length (name_bytes ls)))%nat with
      (length pre + S (length l) + length (name_bytes ls))%nat by lia.
    exact IH.
Qed.

Lemma name_at_app buf post off ls p e cp :
  name_at buf off ls p e cp → name_at (buf ++ post) off ls p e cp.
Proof.
  induction 1.
  - apply na_root. by apply lookup_app_l_Some.
  - eapply na_label; [by apply lookup_app_l_Some|done| | |done].
    + rewrite length_app. lia.
    + subst. by rewrite slice_app_l.
  - eapply na_pointer; [by apply lookup_app_l_Some..|done|done|done].
Qed.

Lemma name_parse_bytes pre ls post :
  bytes_ok (pre ++ name_bytes ls ++ post) → Forall label_ok ls →
  (wire_len ls ≤ 255)%nat →
  name_parse_from (pre ++ name_bytes ls ++ post) (length pre) =
    Ok (dns_domain_name ls (length pre) None,
        (length pre + length (name_bytes ls))%nat).
Proof.
  intros Hb Hls Hw. eapply name_parse_complete; [done| |done|].
  - by apply name_at_bytes.
  - unfold MAX_POINTER_CHAIN. lia.
Qed.

(** ** Case folding *)

Definition fold_label (l : label) : label := to_ascii_lowercase <$> l.

(** The same name for RFC 4343. *)
Definition labels_eqv (ls ls' : list label) : Prop :=
  fold_label <$> ls = fold_label <$> ls'.

#[export] Instance labels_eqv_equiv : Equivalence labels_eqv.
Proof.
  unfold labels_eqv.
  split; [intros ?; done|intros ???; congruence|intros ?????; congruence].
Qed.

#[export] Instance labels_eqv_cons : Proper ((=) ==> labels_eqv ==> labels_eqv) cons.
Proof. intros l _ <- ls ls' H. unfold labels_eqv in *. simpl. by f_equal. Qed.

Lemma labels_eqv_length ls ls' : labels_eqv ls ls' → length ls = length ls'.
Proof.
  intros H. apply (f_equal length) in H. by rewrite !length_fmap in H.
Qed.

Lemma labels_eqv_wire_len ls ls' : labels_eqv ls ls' → wire_len ls = wire_len ls'.
Proof.
  unfold labels_eqv. revert ls'.
  induction ls as [|l ls IH]; intros [|l' ls']; try done.
  intros [= Hl Hls]. rewrite !wire_len_cons, (IH ls') by done.
  apply (f_equal length) in Hl. unfold fold_label in Hl.
  rewrite !length_fmap in Hl. lia.
Qed.

Lemma label_eqb_fold a b : label_eqb a b = true ↔ fold_label a = fold_label b.
Proof.
  unfold label_eqb, fold_label. revert b.
  induction a as [|x a IH]; intros [|y b]; simpl; try done.
  rewrite andb_true_iff. specialize (IH b). rewrite andb_true_iff in IH.
  change (S (length a) =? S (length b))%nat with (length a =? length b)%nat.
  unfold eq_ignore_ascii_case. rewrite andb_true_iff, Z.eqb_eq.
  split.
  - intros (? & Hxy & ?). f_equal; [done|]. by apply IH.
  - intros [= Hxy H]. apply IH in H. tauto.
Qed.

Lemma name_eqb_eqv x y : name_eqb x y = true ↔ labels_eqv (labels x) (labels y).
Proof.
  unfold name_eqb, labels_eqv. generalize (labels x) (labels y). clear x y.
  induction l as [|a l IH]; intros [|b k]; simpl; try done.
  specialize (IH k). rewrite andb_true_iff in *. rewrite andb_true_iff.
  rewrite label_eqb_fold. change (S (length l) =? S (length k))%nat with
    (length l =? length k)%nat.
  split.
  - intros (? & H & ?). f_equal; [done|]. by apply IH.
  - intros [= H1 H2]. apply IH in H2. tauto.
Qed.

(** The [PartialEq] of [DnsDomainName] is the equality of RFC 4343: names
    are equal exactly when their labels are equal after ASCII case folding;
    and it agrees with [Hash]: equal names feed the hasher the same input, as
    [HashMap] requires of a key. *)
Theorem name_eq_and_hash x y :
  (name_eqb x y = true ↔ labels_eqv (labels x) (labels y)) ∧
  (name_eqb x y = true ↔ name_hash_input x = name_hash_input y).
Proof.
  split; [apply name_eqb_eqv|]. rewrite name_eqb_eqv.
  unfold name_hash_input, labels_eqv. generalize (labels x) (labels y).
  clear x y. induction l as [|a l IH]; intros [|b k]; try done.
  assert (∀ u : label, hash_label u =
    inl (length u) :: (inr <$> fold_label u : list (nat + Z))) as Hf.
  { intros u. unfold hash_label, fold_label. by rewrite list_fmap_compose. }
  rewrite !bind_cons, !fmap_cons, !Hf. split.
  - intros [= H1 H2]. rewrite H1, (proj1 (IH k) H2). do 3 f_equal.
    apply (f_equal length) in H1. unfold fold_label in H1.
    by rewrite !length_fmap in H1.
  - intros [= Hlen H].
    apply app_inj_1 in H as [H1 H2].
    + apply (inj (fmap inr)) in H1. rewrite H1. f_equal. by apply IH.
    + unfold fold_label. by rewrite !length_fmap.
Qed.

(** ** Compression keys *)

(** A label that [suffix_key] does not confuse with another one: valid UTF-8
    without a dot inside. *)
Record label_clean (l : label) : Prop := {
  clean_ok : label_ok l;
  clean_utf8 : from_utf8_lossy l = l;
  clean_dot : 46 ∉ l;
}.

Lemma lowercase_dot b : to_ascii_lowercase b = 46 → b = 46.
Proof.
  unfold to_ascii_lowercase.
  destruct (65 <=? b) eqn:E1, (b <=? 90) eqn:E2; simpl; try done.
  apply Z.leb_le in E1. lia.
Qed.

Lemma fold_label_dot l : 46 ∉ l → 46 ∉ fold_label l.
Proof.
  intros H [b [Hb Hin]]%list_elem_of_fmap. symmetry in Hb.
  apply lowercase_dot in Hb as ->. done.
Qed.

Lemma suffix_key_clean ls :
  Forall label_clean ls → suffix_key ls = join_dot (fold_label <$> ls).
Proof.
  intros H. unfold suffix_key. f_equal. apply list_fmap_ext. intros i l Hl.
  by rewrite (clean_utf8 _ (Forall_lookup_1 _ _ _ _ H Hl)).
Qed.

Lemma app_dot_inj (a b x y : list Z) :
  46 ∉ a → 46 ∉ b → a ++ 46 :: x = b ++ 46 :: y → a = b ∧ x = y.
Proof.
  revert b. induction a as [|c a IH]; intros [|d b] Ha Hb; simpl.
  - by intros [= ->].
  - intros [= <- _]. set_solver.
  - intros [= -> _]. set_solver.
  - intros [= -> H]. apply IH in H as [-> ->]; set_solver.
Qed.

Lemma join_dot_inj ls ls' :
  Forall (λ l, l ≠ [] ∧ 46 ∉ l) ls → Forall (λ l, l ≠ [] ∧ 46 ∉ l) ls' →
  join_dot ls = join_dot ls' → ls = ls'.
Proof.
  intros H. revert ls'. induction H as [|l ls [Hne Hd] Hls IH];
    intros ls' [|l' ls2 [Hne' Hd'] Hls']; [done|..].
  - simpl. destruct ls2 as [|]; [done|]. by destruct l'.
  - simpl. destruct ls as [|]; [done|]. by destruct l.
  - simpl. destruct ls as [|l1 ls], ls2 as [|l2 ls2].
    + by intros ->.
    + intros He. exfalso. apply Hd. rewrite He. set_solver.
    + intros He. exfalso. apply Hd'. rewrite <-He. set_solver.
    + intros [-> He]%app_dot_inj; [|done..]. f_equal. by apply IH.
Qed.

Lemma suffix_key_inj ls ls' :
  Forall label_clean ls → Forall label_clean ls' →
  suffix_key ls = suffix_key ls' → labels_eqv ls ls'.
Proof.
  intros H H'. rewrite !suffix_key_clean by done. unfold labels_eqv.
  assert (∀ ks, Forall label_clean ks →
    Forall (λ l, l ≠ [] ∧ 46 ∉ l) (fold_label <$> ks)) as Hc.
  { intros ks Hks. apply Forall_fmap. eapply Forall_impl; [done|].
    intros l [[Hl _] _ Hdot]. split; [|by apply fold_label_dot].
    destruct l; [simpl in Hl; lia|done]. }
  apply join_dot_inj; auto.
Qed.

Lemma suffix_key_eqv ls ls' :
  Forall label_clean ls → Forall label_clean ls' → labels_eqv ls ls' →
  suffix_key ls = suffix_key ls'.
Proof.
  intros H H' He. rewrite !suffix_key_clean by done. unfold labels_eqv in He.
  by rewrite He.
Qed.

(** ** Correctness of the compression *)

(** The map sends the key [k] to the place of a name with this key.  A label
    stands before every pointer of its spelling, so the pointer chain is
    shorter than the name. *)
Definition cmap_good (buf : list Z) (k : list Z) (off : nat) : Prop :=
  ∃ ls p e cp, name_at buf off ls p e cp ∧ Forall label_clean ls ∧
    suffix_key ls = k ∧ (p < length ls)%nat.

Definition cmap_ok (buf : list Z) (names : DnsNameCompressionMap) : Prop :=
  ∀ k off, names !! k = Some off → cmap_good buf k off.

Lemma cmap_good_app buf post k off : cmap_good buf k off → cmap_good (buf ++ post) k off.
Proof.
  intros (ls & p & e & cp & H & ?). exists ls, p, e, cp.
  split; [by apply name_at_app|done].
Qed.

Lemma cmap_ok_app buf post names : cmap_ok buf names → cmap_ok (buf ++ post) names.
Proof. intros H k off Hk. by apply cmap_good_app, H. Qed.

Lemma cmap_ok_empty buf : cmap_ok buf ∅.
Proof. intros k off. by rewrite lookup_empty. Qed.

Lemma name_at_lt buf off ls p e cp : name_at buf off ls p e cp → (off < length buf)%nat.
Proof. inversion 1; eauto using lookup_lt_Some. Qed.

(** A pointer written at the end of [buf] to a name inside it. *)
Lemma name_at_emit_pointer buf off ls p e cp :
  name_at buf off ls p e cp → Z.of_nat (length buf) ≤ 16384 →
  name_at (emit_pointer buf off) (length buf) ls (S p) (length buf + 2) (Some off).
Proof.
  intros Hn Hlen. pose proof (name_at_lt _ _ _ _ _ _ Hn) as Hlt.
  rewrite emit_pointer_bytes by lia.
  eapply na_pointer.
  - by apply lookup_mid.
  - change (buf ++ [?a; ?b]) with (buf ++ [a] ++ [b]).
    rewrite (assoc_L (++)). apply lookup_mid. by rewrite length_app.
  - zlia.
  - replace ((192 + Z.of_nat off / 256 - 192) * 256 + Z.of_nat off mod 256)
      with (Z.of_nat off) by zlia. by rewrite Nat2Z.id.
  - by apply name_at_app.
Qed.

Definition emitted (ls : list label) (buf buf' : list Z) : Prop :=
  ∃ ls' p cp, name_at buf' (length buf) ls' p (length buf') cp ∧
    labels_eqv ls' ls ∧ Forall label_clean ls' ∧ (p ≤ length ls')%nat.

(** The emission of the suffixes of one name: [P] holds of the keys of the
    longer suffixes, whose spelling is not finished yet. *)
Lemma emit_labels_compressed_spec (P : list Z → Prop) ls buf names buf' names' :
  Forall label_clean ls →
  (∀ k, P k → ∃ pl, Forall label_clean pl ∧ suffix_key pl = k ∧
     (length ls < length pl)%nat) →
  (∀ k off, names !! k = Some off → P k ∨ cmap_good buf k off) →
  emit_labels_compressed ls buf names = (buf', names') →
  Z.of_nat (length buf') ≤ 16384 →
  (∃ out, buf' = buf ++ out) ∧ names ⊆ names' ∧ emitted ls buf buf' ∧
  (∀ k off, names' !! k = Some off → P k ∧ names !! k = Some off ∨
     cmap_good buf' k off).
Proof.
  intros Hls. revert P buf names.
  induction Hls as [|l ls Hl Hls IH]; intros P buf names HP Hnames; cbn [emit_labels_compressed].
  - intros [= <- <-] Hlen. split_and!; [by eexists|done| |].
    + exists [], 0%nat, None. rewrite length_app. split_and!; [|done..].
      apply na_root. by apply lookup_mid.
    + intros k off Hk. destruct (Hnames k off Hk) as [|Hg]; [by left|right].
      by apply cmap_good_app.
  - cbv zeta. destruct (names !! suffix_key (l :: ls)) as [off|] eqn:Hfind.
    + intros [= <- <-] Hlen.
      assert (Z.of_nat (length buf) ≤ 16384) as Hlen'.
      { unfold emit_pointer in Hlen. rewrite length_app in Hlen. lia. }
      destruct (Hnames _ _ Hfind) as [HPk|(ls0 & p & e & cp & Hn & Hc & Hk & Hp)].
      { destruct (HP _ HPk) as (pl & Hpl & Hkey & Hlt).
        apply suffix_key_inj in Hkey; [|done|by constructor].
        apply labels_eqv_length in Hkey. lia. }
      unfold emit_pointer at 1. split_and!; [by eexists|done| |].
      * exists ls0, (S p), (Some off). split_and!; [|by apply suffix_key_inj; [|constructor|]|done|lia].
        unfold emit_pointer at 2. rewrite length_app. by eapply name_at_emit_pointer.
      * intros k off' Hk'. destruct (Hnames k off' Hk') as [|Hg]; [by left|right].
        by apply cmap_good_app.
    + intros Hemit Hlen. rewrite as_u8_small in Hemit by (destruct Hl as [[? _] _ _]; lia).
      set (buf1 := buf ++ [Z.of_nat (length l)] ++ l) in *.
      apply (IH (λ k, P k ∨ k = suffix_key (l :: ls))) in Hemit
        as ((out & ->) & Hsub & (ls' & p & cp & Hn & He & Hc & Hp) & Hgood); [| | |done].
      2:{ intros k [HPk| ->].
          - destruct (HP _ HPk) as (pl & ? & ? & ?). exists pl. simpl in *. split_and!; [done..|lia].
          - exists (l :: ls). split_and!; [by constructor|done|simpl; lia]. }
      2:{ intros k off [[<- <-]|[Hne Hk]]%lookup_insert_Some; [by left; right|].
          destruct (Hnames k off Hk) as [|Hg]; [by left; left|right].
          by apply cmap_good_app. }
      assert (name_at (buf1 ++ out) (length buf) (l :: ls') p
                (length (buf1 ++ out)) cp) as Hn'.
      { unfold buf1 in Hn |- *.
        replace ((buf ++ [Z.of_nat (length l)] ++ l) ++ out)
          with (buf ++ (Z.of_nat (length l) :: l) ++ out) in *
          by (by rewrite <-(assoc_L (++))).
        apply name_at_label; [by destruct Hl|].
        replace (length buf + 1 + length l)%nat
          with (length (buf ++ [Z.of_nat (length l)] ++ l))
          by (rewrite !length_app; simpl; lia). done. }
      assert (suffix_key (l :: ls') = suffix_key (l :: ls)) as Hkey.
      { apply suffix_key_eqv; [by constructor..|]. by rewrite He. }
      split_and!.
      * unfold buf1. exists (([Z.of_nat (length l)] ++ l) ++ out).
        by rewrite <-(assoc_L (++)).
      * etrans; [by apply insert_subseteq|done].
      * exists (l :: ls'), p, cp.
        split_and!; [done|by rewrite He|by constructor|simpl; lia].
      * intros k off Hk. destruct (Hgood k off Hk) as [[[HPk| ->] Hin]|Hg]; [| |by right].
        -- rewrite lookup_insert_Some in Hin. destruct Hin as [[<- <-]|[_ Hin]]; [|by left].
           right. exists (l :: ls'), p, (length (buf1 ++ out)), cp.
           split_and!; [done|by constructor|done|simpl; lia].
        -- right. rewrite lookup_insert_eq in Hin. injection Hin as <-.
           exists (l :: ls'), p, (length (buf1 ++ out)), cp.
           split_and!; [done|by constructor|done|simpl; lia].
Qed.

Lemma emit_pointer_ok buf off : bytes_ok buf → bytes_ok (emit_pointer buf off).
Proof.
  intros H. unfold emit_pointer. apply Forall_app. split; [done|].
  set (o := Z.land (Z.of_nat off) 0x3FFF).
  assert (0 ≤ o < 16384) as Ho.
  { unfold o. change 0x3FFF with (Z.ones 14). rewrite Z.land_ones by lia.
    apply Z.mod_pos_bound. lia. }
  pose (P o := let a := Z.lor 0xC0 (as_u8 (Z.land (Z.shiftr o 8) 0x3F)) in
     (0 <=? a) && (a <? 256)).
  assert (P o = true) as HP.
  { apply (all_bits_spec 14 P 0); [vm_compute; reflexivity|].
    change (2 ^ Z.of_nat 14) with 16384. lia. }
  unfold P in HP. cbv zeta in HP. bool_hyps.
  repeat constructor; try done. all: unfold as_u8; by apply Z.mod_pos_bound.
Qed.

Lemma emit_labels_compressed_ok ls buf names :
  Forall label_ok ls → bytes_ok buf →
  bytes_ok (emit_labels_compressed ls buf names).1.
Proof.
  intros Hls. revert buf names.
  induction Hls as [|l ls [Hl Hb] Hls IH]; intros buf names Hbuf;
    cbn [emit_labels_compressed].
  - apply Forall_app. by repeat constructor.
  - destruct (names !! _); [by apply emit_pointer_ok|]. apply IH.
    rewrite as_u8_small by lia.
    unfold bytes_ok in *. rewrite !Forall_app. split_and!; [done| |done].
    repeat constructor; lia.
Qed.

Lemma label_clean_ok ls : Forall label_clean ls → Forall label_ok ls.
Proof. intros H. eapply Forall_impl; [done|]. by intros l [? _ _]. Qed.

(** A name that the compressor may emit: its chain of pointers is no longer
    than its labels are many. *)
Record name_ok (d : DnsDomainName) : Prop := {
  name_clean : Forall label_clean (labels d);
  name_wire : (wire_len (labels d) ≤ 255)%nat;
  name_chain : (length (labels d) ≤ MAX_POINTER_CHAIN)%nat;
}.

(** The same name read back at [off], with the parse going on at [e]. *)
Definition reads_name (buf : list Z) (off : nat) (d : DnsDomainName) (e : nat) : Prop :=
  ∃ d', name_parse_from buf off = Ok (d', e) ∧ labels_eqv (labels d') (labels d).

Lemma name_emit_compressed_reads d buf names buf' names' :
  name_ok d → cmap_ok buf names → bytes_ok buf →
  name_emit_to_compressed d buf names = (buf', names') →
  Z.of_nat (length buf') ≤ 16384 →
  (∃ out, buf' = buf ++ out) ∧ cmap_ok buf' names' ∧ bytes_ok buf' ∧
  ∀ post, bytes_ok post → reads_name (buf' ++ post) (length buf) d (length buf').
Proof.
  intros [Hc Hw Hch] Hmap Hbuf Hemit Hlen. unfold name_emit_to_compressed in Hemit.
  pose proof (emit_labels_compressed_ok _ buf names (label_clean_ok _ Hc) Hbuf) as Hok.
  rewrite Hemit in Hok. simpl in Hok.
  apply (emit_labels_compressed_spec (λ _, False)) in Hemit
    as (Hout & Hsub & (ls' & p & cp & Hn & He & Hc' & Hp) & Hgood);
    [|done|done|by right; apply Hmap|done].
  split_and!; [done| |done|].
  - intros k off Hk. by destruct (Hgood k off Hk) as [[[] _]|].
  - intros post Hpost. exists (dns_domain_name ls' (length buf) cp). split; [|done].
    eapply name_parse_complete.
    + by apply Forall_app.
    + by apply name_at_app.
    + by rewrite (labels_eqv_wire_len _ _ He).
    + rewrite (labels_eqv_length _ _ He) in Hp. lia.
Qed.

(** Message compression is invisible to the reader.  While a message of at
    most 16384 bytes is written, a name of at most ten labels without dots or
    invalid UTF-8 inside them, emitted through the compression map, is read
    back at the place it was emitted as the same name, the parse going on
    right behind it, whatever is written later; and the map stays one whose
    every entry leads to the name it is filed under. *)
Theorem emit_to_compressed_parses_back d buf names buf' names' post :
  name_ok d → cmap_ok buf names → bytes_ok buf → bytes_ok post →
  name_emit_to_compressed d buf names = (buf', names') →
  Z.of_nat (length buf') ≤ 16384 →
  cmap_ok buf' names' ∧
  ∃ d', name_parse_from (buf' ++ post) (length buf) = Ok (d', length buf') ∧
    name_eqb d' d = true.
Proof.
  intros Hd Hmap Hbuf Hpost Hemit Hlen.
  eapply name_emit_compressed_reads in Hemit as (_ & Hmap' & _ & Hread); [|done..].
  split; [done|]. destruct (Hread post Hpost) as (d' & Hp & He).
  exists d'. split; [done|]. by apply name_eqb_eqv.
Qed.

(** [www.a] written behind [A]. *)
Definition ex_www_a : DnsDomainName := dns_domain_name [[119; 119; 119]; [97]] 0 None.
Definition ex_upper_a : DnsDomainName := dns_domain_name [[65]] 0 None.
Definition ex_after_a : list Z * DnsNameCompressionMap :=
  name_emit_to_compressed ex_upper_a [] ∅.

Lemma ex_name_ok : name_ok ex_www_a ∧ name_ok ex_upper_a.
Proof.
  split; split; simpl; try (unfold wire_len, MAX_POINTER_CHAIN; simpl; lia);
    repeat constructor; simpl; try lia; try done; set_solver.
Qed.

Lemma emit_to_compressed_parses_back_witness :
  name_emit_to_compressed ex_www_a ex_after_a.1 ex_after_a.2 =
    ([1; 65; 0; 3; 119; 119; 119; 0xC0; 0],
     <[[119; 119; 119; 46; 97] := 3%nat]> {[ [97] := 0%nat ]}) ∧
  ∃ d', name_parse_from ([1; 65; 0; 3; 119; 119; 119; 0xC0; 0] ++ [7]) 3 =
    Ok (d', 9%nat) ∧ name_eqb d' ex_www_a = true.
Proof.
  split; [reflexivity|].
  refine (proj2 (emit_to_compressed_parses_back ex_www_a ex_after_a.1 ex_after_a.2
    [1; 65; 0; 3; 119; 119; 119; 0xC0; 0]
    (<[[119; 119; 119; 46; 97] := 3%nat]> {[ [97] := 0%nat ]}) [7]
    _ _ _ _ _ _)); [apply ex_name_ok| | | |reflexivity|done].
  - refine (proj1 (proj2 (name_emit_compressed_reads ex_upper_a [] ∅ ex_after_a.1
      ex_after_a.2 (proj2 ex_name_ok) (cmap_ok_empty _) _ _ _)));
      [constructor|reflexivity|done].
  - repeat constructor; done.
  - repeat constructor; done.
Defined.

(** ** [FromStr] *)

Lemma split_dot_app a s : 46 ∉ a → split_dot (a ++ 46 :: s) = a :: split_dot s.
Proof.
  induction a as [|b a IH]; intros Ha; simpl; [done|].
  rewrite IH by set_solver.
  destruct (b =? 46) eqn:E; [apply Z.eqb_eq in E; set_solver|done].
Qed.

Lemma split_dot_no_dot a : 46 ∉ a → split_dot a = [a].
Proof.
  induction a as [|b a IH]; intros Ha; simpl; [done|].
  rewrite IH by set_solver.
  destruct (b =? 46) eqn:E; [apply Z.eqb_eq in E; set_solver|done].
Qed.

Lemma split_dot_join ls :
  ls ≠ [] → Forall (λ l, 46 ∉ l) ls → split_dot (join_dot ls) = ls.
Proof.
  induction ls as [|l ls IH]; [done|]. intros _ [Hl Hls]%Forall_cons.
  destruct ls as [|l' ls]; [by apply split_dot_no_dot|].
  change (join_dot (l :: l' :: ls)) with (l ++ 46 :: join_dot (l' :: ls)).
  by rewrite split_dot_app, IH.
Qed.

Lemma split_dot_parts s :
  bytes_ok s → Forall (λ p, 46 ∉ p ∧ bytes_ok p) (split_dot s).
Proof.
  induction 1 as [|b s Hb Hs IH]; simpl.
  - repeat constructor. set_solver.
  - destruct (b =? 46) eqn:E.
    + constructor; [|done]. split; [set_solver|constructor].
    + apply Z.eqb_neq in E. destruct IH as [|p ps [Hp Hbp] Hps].
      * repeat constructor; [set_solver|apply Hb..].
      * constructor; [|done]. split; [set_solver|by constructor].
Qed.

Lemma to_ascii_lowercase_ok b : byte_ok b → byte_ok (to_ascii_lowercase b).
Proof.
  unfold byte_ok, to_ascii_lowercase. destruct (_ && _) eqn:E; [|done].
  apply andb_true_iff in E as [?%Z.leb_le ?%Z.leb_le]. lia.
Qed.

Lemma fold_label_ok l : label_ok l → label_ok (fold_label l).
Proof.
  intros [Hl Hb]. unfold fold_label. split; [by rewrite length_fmap|].
  apply Forall_fmap. eapply Forall_impl; [done|]. apply to_ascii_lowercase_ok.
Qed.

Lemma labels_from_parts_ok parts ls :
  Forall (λ p, 46 ∉ p ∧ bytes_ok p) parts → labels_from_parts parts = Ok ls →
  Forall (λ l, label_ok l ∧ 46 ∉ l) ls.
Proof.
  intros H. revert ls. induction H as [|p ps [Hdot Hb] _ IH]; intros ls; simpl.
  - intros [= <-]. constructor.
  - destruct (length p =? 0)%nat eqn:E0; [apply IH|].
    destruct (63 <? length p)%nat eqn:E1; [done|].
    destruct (labels_from_parts ps) as [ls'|]; [|done]. intros [= <-]. bool_hyps.
    constructor; [|by apply IH].
    split; [|by apply fold_label_dot]. apply fold_label_ok. split; [lia|done].
Qed.

Lemma labels_from_parts_labels ls :
  Forall label_ok ls → labels_from_parts ls = Ok (fold_label <$> ls).
Proof.
  induction 1 as [|l ls [Hl _] _ IH]; simpl; [done|].
  rewrite (proj2 (Nat.eqb_neq _ _)), (proj2 (Nat.ltb_ge _ _)) by lia.
  by rewrite IH.
Qed.

Lemma name_from_str_ok s d :
  bytes_ok s → name_from_str s = Ok d →
  Forall (λ l, label_ok l ∧ 46 ∉ l) (labels d).
Proof.
  intros Hs. unfold name_from_str. destruct (_ =? _)%nat; [done|].
  destruct (bool_decide _); [by intros [= <-]|].
  destruct (labels_from_parts _) as [ls|] eqn:E; [|done]. simpl.
  destruct (length ls =? 0)%nat; [done|]. intros [= <-].
  eapply labels_from_parts_ok; [|done]. by apply split_dot_parts.
Qed.

(** A name read from text survives the wire: whatever text [FromStr]
    accepts, its labels, if they have at most 255 octets together, are emitted
    so that the parser reads back the same labels in any message; and the text
    of any list of good labels joined by dots is accepted, as these labels in
    lower case. *)
Theorem name_from_str_roundtrip s d ls pre post :
  bytes_ok s → bytes_ok pre → bytes_ok post →
  (name_from_str s = Ok d → (wire_len (labels d) ≤ 255)%nat →
   name_parse_from (name_emit_to d pre ++ post) (length pre) =
     Ok (dns_domain_name (labels d) (length pre) None, length (name_emit_to d pre)))
  ∧ (ls ≠ [] → Forall (λ l, label_ok l ∧ 46 ∉ l) ls →
     name_from_str (join_dot ls) = Ok (dns_domain_name (fold_label <$> ls) 0 None)).
Proof.
  intros Hs Hpre Hpost. split.
  - intros Hd Hw. apply name_from_str_ok in Hd; [|done].
    assert (Forall label_ok (labels d)) as Hls.
    { eapply Forall_impl; [done|]. naive_solver. }
    rewrite name_emit_to_bytes, <-(assoc_L (++)) by done.
    rewrite name_parse_bytes; [by rewrite length_app| |done|done].
    unfold bytes_ok. rewrite !Forall_app. split_and!; [done| |done].
    by apply name_bytes_ok.
  - intros Hne Hls. unfold name_from_str.
    apply Forall_and in Hls as [Hok Hdot].
    rewrite split_dot_join, labels_from_parts_labels by done.
    destruct ls as [|l ls]; [done|].
    apply Forall_cons in Hok as [[Hl _] _]. apply Forall_cons in Hdot as [Hd _].
    assert (join_dot (l :: ls) ≠ [] ∧ join_dot (l :: ls) ≠ [46]) as [H1 H2].
    { destruct l as [|b l]; [simpl in Hl; lia|]. simpl.
      destruct ls; simpl; (split; [done|]); intros He; injection He as -> ?;
        apply Hd, elem_of_cons; by left. }
    rewrite (proj2 (Nat.eqb_neq _ _)) by (by destruct (join_dot _)).
    by rewrite bool_decide_eq_false_2 by done.
Qed.

Definition ex_text : list Z := [87; 46; 97; 46].

Lemma name_from_str_roundtrip_witness :
  name_parse_from (name_emit_to (dns_domain_name [[119]; [97]] 0 None) [9] ++ [8]) 1 =
    Ok (dns_domain_name [[119]; [97]] 1 None, 6%nat) ∧
  name_from_str (join_dot [[87]; [97]]) = Ok (dns_domain_name [[119]; [97]] 0 None).
Proof.
  destruct (name_from_str_roundtrip ex_text (dns_domain_name [[119]; [97]] 0 None)
    [[87]; [97]] [9] [8]) as [H1 H2].
  - repeat constructor; done.
  - repeat constructor; done.
  - repeat constructor; done.
  - split; [apply H1|apply H2].
    + reflexivity.
    + unfold wire_len; simpl; lia.
    + done.
    + repeat constructor; simpl; try lia; try done; set_solver.
Defined.

(** ** Where the code falls short *)

(** Two different names share a compression key: [a.b] as two labels and as
    one label with a dot in it.  The second name is emitted as a pointer to the
    first, and read back as the first. *)
Example compression_merges_names :
  let x := dns_domain_name [[97]; [98]] 0 None in
  let y := dns_domain_name [[97; 46; 98]] 0 None in
  let st := name_emit_to_compressed x [] ∅ in
  let buf := (name_emit_to_compressed y st.1 st.2).1 in
  name_eqb x y = false ∧
  name_parse_from buf 5 = Ok (dns_domain_name [[97]; [98]] 5 (Some 0%nat), 7%nat).
Proof. vm_compute. done. Qed.

(** So do two labels that are different invalid UTF-8. *)
Example compression_merges_binary_labels :
  suffix_key [[0xFF]] = suffix_key [[0xFE]].
Proof. reflexivity. Qed.

(** The names [l], [l.l], .. of one to twelve labels: each is emitted as one
    label and a pointer to the one before, and the pointers of the last name
    chain eleven deep, which the parser of the same file refuses. *)
Definition ex_nested (n : nat) : DnsDomainName :=
  dns_domain_name ((λ i, [97 + Z.of_nat i]) <$> reverse (seq 0 n)) 0 None.

Example compression_chain_refused :
  let st := foldl (λ st n, name_emit_to_compressed (ex_nested n) st.1 st.2)
              ([], ∅) (seq 1 11) in
  let buf := (name_emit_to_compressed (ex_nested 12) st.1 st.2).1 in
  name_parse_from (name_emit_to (ex_nested 12) []) 0 =
    Ok (dns_domain_name (labels (ex_nested 12)) 0 None, 25%nat) ∧
  name_parse_from buf (length st.1) = fail InvalidArgument.
Proof. vm_compute. done. Qed.

(** [FromStr] has no limit on the whole name: four labels of 63 characters are
    accepted, and refused when they come back from the wire. *)
Example from_str_accepts_too_long :
  let d := dns_domain_name (replicate 4 (replicate 63 97)) 0 None in
  name_from_str (join_dot (labels d)) = Ok d ∧
  name_parse_from (name_emit_to d []) 0 = fail InvalidArgument.
Proof. vm_compute. done. Qed.
