(* ===== verification/DnsRecord.v ===== *)
(** * DnsRecord: questions and resource records, [src/lib/dns/record.rs] and
      the [DnsType] of [src/lib/dns/packet.rs]

    Parsing with the expansion of the names inside the record data, and the
    emissions with and without compression.  The [&mut] arguments of the code,
    the output buffer, the optional vector of TTL positions and the
    compression map, are passed in and returned. *)

From S2P Require Export DnsName.

#[local] Open Scope Z_scope.

Inductive DnsType : Type :=
| T_A | T_AAAA | T_CNAME | T_MX | T_NS | T_SOA | T_TXT | T_PTR | T_SRV
| T_HTTPS | T_HINFO
| T_Other (t : Z).

#[export] Instance DnsType_eq_dec : EqDecision DnsType.
Proof. solve_decision. Defined.

(** [From<DnsType> for u16]. *)
Definition type_to_u16 (qtype : DnsType) : Z :=
  match qtype with
  | T_A => 1
  | T_AAAA => 28
  | T_CNAME => 5
  | T_MX => 15
  | T_NS => 2
  | T_SOA => 6
  | T_TXT => 16
  | T_PTR => 12
  | T_SRV => 33
  | T_HTTPS => 65
  | T_HINFO => 13
  | T_Other t => t
  end.

(** [From<u16> for DnsType]. *)
Definition type_from_u16 (value : Z) : DnsType :=
  match value with
  | 1 => T_A
  | 28 => T_AAAA
  | 5 => T_CNAME
  | 15 => T_MX
  | 2 => T_NS
  | 6 => T_SOA
  | 16 => T_TXT
  | 12 => T_PTR
  | 33 => T_SRV
  | 65 => T_HTTPS
  | 13 => T_HINFO
  | _ => T_Other value
  end.

Definition type_default : DnsType := T_Other 65535.

Inductive DnsClass : Type :=
| C_IN | C_CS | C_CH | C_HS
| C_Other (c : Z).

#[export] Instance DnsClass_eq_dec : EqDecision DnsClass.
Proof. solve_decision. Defined.

(** [From<DnsClass> for u16]. *)
Definition class_to_u16 (class : DnsClass) : Z :=
  match class with
  | C_IN => 1
  | C_CS => 2
  | C_CH => 3
  | C_HS => 4
  | C_Other c => c
  end.

(** [From<u16> for DnsClass]. *)
Definition class_from_u16 (value : Z) : DnsClass :=
  match value with
  | 1 => C_IN
  | 2 => C_CS
  | 3 => C_CH
  | 4 => C_HS
  | _ => C_Other value
  end.

Definition class_default : DnsClass := C_Other 65535.

Record DnsQuestion : Type := dns_question {
  q_domain : DnsDomainName;
  q_kind : DnsType;
  q_class : DnsClass;
}.

Record DnsResourceRecord : Type := dns_record {
  rr_domain : DnsDomainName;
  rr_kind : DnsType;
  rr_class : DnsClass;
  ttl : Z;
  rdlength : Z;
  rdata : list Z;
}.

Definition be16_at (buf : list Z) (off : nat) : Z :=
  from_be16 (buf !!! off) (buf !!! (off + 1)%nat).

Definition be32_at (buf : list Z) (off : nat) : Z :=
  from_be32 (buf !!! off) (buf !!! (off + 1)%nat) (buf !!! (off + 2)%nat)
    (buf !!! (off + 3)%nat).

(** [DnsQuestion::parse_from]. *)
Definition question_parse_from (buf : list Z) (offset : nat) :
    res (DnsQuestion * nat) :=
  let? r := name_parse_from buf offset in
  let '(domain, offset) := r in
  if (length buf <? offset + 4)%nat then fail InvalidArgument
  else
    Ok (dns_question domain (type_from_u16 (be16_at buf offset))
          (class_from_u16 (be16_at buf (offset + 2))), (offset + 4)%nat).

(** [DnsQuestion::emit_to], [emit_to_compressed]. *)
Definition question_emit_to (q : DnsQuestion) (buf : list Z) : list Z :=
  name_emit_to (q_domain q) buf ++ u16_be (type_to_u16 (q_kind q)) ++
  u16_be (class_to_u16 (q_class q)).

Definition question_emit_to_compressed (q : DnsQuestion) (buf : list Z)
    (names : DnsNameCompressionMap) : list Z * DnsNameCompressionMap :=
  let '(buf, names) := name_emit_to_compressed (q_domain q) buf names in
  (buf ++ u16_be (type_to_u16 (q_kind q)) ++ u16_be (class_to_u16 (q_class q)),
   names).

Definition kind_has_domain_names (kind : DnsType) : bool :=
  match kind with
  | T_CNAME | T_NS | T_PTR | T_MX | T_SOA | T_SRV => true
  | _ => false
  end.

(** [rdata.windows(2).any(|w| w[0] & 0xC0 == 0xC0)]. *)
Fixpoint has_compression (rdata : list Z) : bool :=
  match rdata with
  | b :: rest =>
      match rest with
      | [] => false
      | _ :: _ => (Z.land b 0xC0 =? 0xC0) || has_compression rest
      end
  | [] => false
  end.

(** [DnsResourceRecord::expand_rdata]. *)
Definition expand_rdata (buf : list Z) (kind : DnsType) (rdata : list Z)
    (rdata_offset : nat) : res (list Z) :=
  if negb (kind_has_domain_names kind) then Ok rdata
  else if (match kind with T_CNAME | T_NS | T_PTR => true | _ => false end) &&
          negb (has_compression rdata) then Ok rdata
  else
    match kind with
    | T_CNAME | T_NS | T_PTR =>
        let? r := name_parse_from buf rdata_offset in
        Ok (name_emit_to r.1 [])
    | T_MX =>
        if (length rdata <? 2)%nat then fail InvalidArgument
        else
          let? r := name_parse_from buf (rdata_offset + 2) in
          Ok (name_emit_to r.1 (take 2 rdata))
    | T_SOA =>
        let? r := name_parse_from buf rdata_offset in
        let out := name_emit_to r.1 [] in
        let? r' := name_parse_from buf r.2 in
        let out := name_emit_to r'.1 out in
        let consumed := (r'.2 - rdata_offset)%nat in
        if (length rdata <? consumed)%nat then fail InvalidArgument
        else Ok (out ++ drop consumed rdata)
    | T_SRV =>
        if (length rdata <? 6)%nat then fail InvalidArgument
        else
          let? r := name_parse_from buf (rdata_offset + 6) in
          Ok (name_emit_to r.1 (take 6 rdata))
    | _ => Ok rdata
    end.

Definition RR_HDR_LEN : nat := 10.

(** [DnsResourceRecord::parse_from]. *)
Definition record_parse_from (buf : list Z) (offset : nat) :
    res (DnsResourceRecord * nat) :=
  let? r := name_parse_from buf offset in
  let '(domain, offset) := r in
  if (length buf <? offset + RR_HDR_LEN)%nat then fail InvalidArgument
  else
    let kind := be16_at buf offset in
    let class := be16_at buf (offset + 2) in
    let ttl := be32_at buf (offset + 4) in
    let rdlength := Z.to_nat (be16_at buf (offset + 8)) in
    let offset := (offset + RR_HDR_LEN)%nat in
    if (length buf <? offset + rdlength)%nat then fail InvalidArgument
    else
      let rdata_offset := offset in
      let raw_rdata := slice buf offset rdlength in
      let offset := (offset + rdlength)%nat in
      let kind_enum := type_from_u16 kind in
      let? rdata := expand_rdata buf kind_enum raw_rdata rdata_offset in
      Ok (dns_record domain kind_enum (class_from_u16 class) ttl
            (as_u16 (Z.of_nat (length rdata))) rdata, offset).

(** [ttl_positions: &mut Option<&mut Vec<(usize, u32)>>]. *)
Abbreviation TtlPositions := (option (list (nat * Z))).

(** [if let Some(positions) = ttl_positions && u16::from(self.kind) != 41
    { positions.push((buf.len(), self.ttl)) }]. *)
Definition push_ttl (r : DnsResourceRecord) (len : nat)
    (ttl_positions : TtlPositions) : TtlPositions :=
  match ttl_positions with
  | Some positions =>
      if negb (type_to_u16 (rr_kind r) =? 41)
      then Some (positions ++ [(len, ttl r)]) else Some positions
  | None => None
  end.

(** [DnsResourceRecord::emit_to_with_ttl]. *)
Definition record_emit_to_with_ttl (r : DnsResourceRecord) (buf : list Z)
    (ttl_positions : TtlPositions) : list Z * TtlPositions :=
  let buf := name_emit_to (rr_domain r) buf in
  let buf := buf ++ u16_be (type_to_u16 (rr_kind r)) in
  let buf := buf ++ u16_be (class_to_u16 (rr_class r)) in
  let ttl_positions := push_ttl r (length buf) ttl_positions in
  let buf := buf ++ u32_be (ttl r) in
  let buf := buf ++ u16_be (as_u16 (Z.of_nat (length (rdata r)))) in
  (buf ++ rdata r, ttl_positions).

(** [DnsResourceRecord::emit_to]. *)
Definition record_emit_to (r : DnsResourceRecord) (buf : list Z) : list Z :=
  (record_emit_to_with_ttl r buf None).1.

(** [rdata_is_well_formed]. *)
Definition rdata_is_well_formed (r : DnsResourceRecord) : bool :=
  let one_name_from (offset : nat) :=
    match name_parse_from (rdata r) offset with
    | Ok (_, offset) => (offset =? length (rdata r))%nat
    | Err _ => false
    end in
  match rr_kind r with
  | T_CNAME | T_NS | T_PTR => one_name_from 0%nat
  | T_MX =>
      if (length (rdata r) <? 2)%nat then false else one_name_from 2%nat
  | T_SOA =>
      match name_parse_from (rdata r) 0 with
      | Err _ => false
      | Ok (_, offset) =>
          match name_parse_from (rdata r) offset with
          | Err _ => false
          | Ok (_, offset) => (offset + 20 =? length (rdata r))%nat
          end
      end
  | T_SRV =>
      if (length (rdata r) <? 6)%nat then false else one_name_from 6%nat
  | _ => true
  end.

(** [emit_rdata_to_compressed]. *)
Definition emit_rdata_to_compressed (r : DnsResourceRecord) (buf : list Z)
    (names : DnsNameCompressionMap) : list Z * DnsNameCompressionMap :=
  if negb (kind_has_domain_names (rr_kind r)) || negb (rdata_is_well_formed r)
  then (buf ++ rdata r, names)
  else
    let one_name_from (offset : nat) (buf : list Z) :=
      match name_parse_from (rdata r) offset with
      | Err _ => (buf ++ rdata r, names)
      | Ok (name, _) => name_emit_to_compressed name buf names
      end in
    match rr_kind r with
    | T_CNAME | T_NS | T_PTR => one_name_from 0%nat buf
    | T_MX => one_name_from 2%nat (buf ++ take 2 (rdata r))
    | T_SOA =>
        match name_parse_from (rdata r) 0 with
        | Err _ => (buf ++ rdata r, names)
        | Ok (mname, offset) =>
            let '(buf, names) := name_emit_to_compressed mname buf names in
            match name_parse_from (rdata r) offset with
            | Err _ => (buf ++ rdata r, names)
            | Ok (rname, offset) =>
                let '(buf, names) := name_emit_to_compressed rname buf names in
                (buf ++ drop offset (rdata r), names)
            end
        end
    | T_SRV => one_name_from 6%nat (buf ++ take 6 (rdata r))
    | _ => (buf ++ rdata r, names)
    end.

(** [buf[pos..pos + 2].copy_from_slice(&n.to_be_bytes())]. *)
Definition put_u16 (buf : list Z) (pos : nat) (n : Z) : list Z :=
  take pos buf ++ u16_be n ++ drop (pos + 2) buf.

(** [emit_to_with_ttl_compressed]: the length field is written as zero and
    patched when the data has been emitted. *)
Definition record_emit_compressed (r : DnsResourceRecord) (buf : list Z)
    (ttl_positions : TtlPositions) (names : DnsNameCompressionMap) :
    list Z * TtlPositions * DnsNameCompressionMap :=
  let '(buf, names) := name_emit_to_compressed (rr_domain r) buf names in
  let buf := buf ++ u16_be (type_to_u16 (rr_kind r)) in
  let buf := buf ++ u16_be (class_to_u16 (rr_class r)) in
  let ttl_positions := push_ttl r (length buf) ttl_positions in
  let buf := buf ++ u32_be (ttl r) in
  let rdlength_pos := length buf in
  let buf := buf ++ u16_be 0 in
  let '(buf, names) := emit_rdata_to_compressed r buf names in
  let rdlength := as_u16 (Z.of_nat (length buf - rdlength_pos - 2)) in
  (put_u16 buf rdlength_pos rdlength, ttl_positions, names).

(** ** Codes *)

Definition type_ok (k : DnsType) : Prop :=
  is_u16 (type_to_u16 k) ∧ type_from_u16 (type_to_u16 k) = k.

Definition class_ok (c : DnsClass) : Prop :=
  is_u16 (class_to_u16 c) ∧ class_from_u16 (class_to_u16 c) = c.

(** ** Reading fixed fields behind a prefix *)

Lemma be16_at_mid pre n post off :
  off = length pre → is_u16 n → be16_at (pre ++ u16_be n ++ post) off = n.
Proof.
  intros -> Hn. unfold be16_at, u16_be.
  rewrite lookup_total_after, <-(Nat.add_0_r (length pre)) at 1.
  rewrite lookup_total_after. simpl. by apply from_u16_be.
Qed.

Lemma be32_at_mid pre n post off :
  off = length pre → is_u32 n → be32_at (pre ++ u32_be n ++ post) off = n.
Proof.
  intros -> Hn. unfold be32_at, u32_be.
  rewrite !lookup_total_after. rewrite <-(Nat.add_0_r (length pre)) at 1.
  rewrite lookup_total_after. simpl. by apply from_u32_be.
Qed.

Lemma u16_be_bytes n : bytes_ok (u16_be n).
Proof. apply u16_be_ok. Qed.

Lemma u32_be_bytes n : bytes_ok (u32_be n).
Proof.
  unfold u32_be, bytes_ok, byte_ok. repeat constructor; apply Z.mod_pos_bound; lia.
Qed.

Lemma bytes_ok_app a b : bytes_ok (a ++ b) ↔ bytes_ok a ∧ bytes_ok b.
Proof. apply Forall_app. Qed.

(** ** Functions that only append *)

(** [f] appends to the buffer bytes that depend on the length of the buffer,
    not on what it holds. *)
Definition appender (f : list Z → DnsNameCompressionMap →
    list Z * DnsNameCompressionMap) : Prop :=
  ∀ n names, ∃ out names', ∀ buf, length buf = n → f buf names = (buf ++ out, names').

Lemma appender_bytes bs : appender (λ buf names, (buf ++ bs, names)).
Proof. intros n names. by exists bs, names. Qed.

Lemma appender_seq f g :
  appender f → appender g →
  appender (λ buf names, let '(buf, names) := f buf names in g buf names).
Proof.
  intros Hf Hg n names. destruct (Hf n names) as (o1 & n1 & H1).
  destruct (Hg (n + length o1)%nat n1) as (o2 & n2 & H2).
  exists (o1 ++ o2), n2. intros buf Hbuf.
  rewrite H1 by done. rewrite H2 by (rewrite length_app; lia).
  by rewrite (assoc_L (++)).
Qed.

Lemma appender_pre bs f :
  appender f → appender (λ buf names, f (buf ++ bs) names).
Proof. intros Hf. apply (appender_seq _ _ (appender_bytes bs) Hf). Qed.

Lemma appender_labels ls : appender (emit_labels_compressed ls).
Proof.
  induction ls as [|l ls IH]; intros n names; cbn [emit_labels_compressed].
  - by exists [0], names.
  - cbv zeta. destruct (names !! suffix_key (l :: ls)) as [off|] eqn:E.
    + by eexists _, names.
    + destruct (IH (n + (1 + length l))%nat (<[suffix_key (l :: ls) := n]> names))
        as (out & names' & H).
      exists (([as_u8 (Z.of_nat (length l))] ++ l) ++ out), names'.
      intros buf Hbuf. rewrite Hbuf, H by (rewrite length_app; simpl; lia).
      by rewrite <-!(assoc_L (++)).
Qed.

Lemma appender_name d : appender (name_emit_to_compressed d).
Proof. apply appender_labels. Qed.

Lemma appender_one_name rd off :
  appender (λ buf names, match name_parse_from rd off with
    | Err _ => (buf ++ rd, names)
    | Ok (name, _) => name_emit_to_compressed name buf names
    end).
Proof.
  destruct (name_parse_from rd off) as [[name e]|];
    [apply appender_name|apply appender_bytes].
Qed.

Lemma appender_soa rd off :
  appender (λ buf names, match name_parse_from rd off with
    | Err _ => (buf ++ rd, names)
    | Ok (rname, offset) =>
        let '(buf, names) := name_emit_to_compressed rname buf names in
        (buf ++ drop offset rd, names)
    end).
Proof.
  destruct (name_parse_from rd off) as [[name e]|]; [|apply appender_bytes].
  apply (appender_seq _ _ (appender_name name) (appender_bytes (drop e rd))).
Qed.

Lemma appender_rdata r : appender (emit_rdata_to_compressed r).
Proof.
  unfold emit_rdata_to_compressed. destruct (_ || _); [apply appender_bytes|].
  pose proof (appender_one_name (rdata r)) as H1.
  destruct (rr_kind r); cbv zeta; try apply appender_bytes; try apply H1.
  - apply (appender_pre (take 2 (rdata r)) _ (H1 2%nat)).
  - destruct (name_parse_from (rdata r) 0) as [[name e]|]; [|apply appender_bytes].
    apply (appender_seq _ _ (appender_name name) (appender_soa (rdata r) e)).
  - apply (appender_pre (take 6 (rdata r)) _ (H1 6%nat)).
Qed.

Lemma put_u16_mid pre n m post :
  put_u16 (pre ++ u16_be n ++ post) (length pre) m = pre ++ u16_be m ++ post.
Proof.
  unfold put_u16. rewrite take_app_length. f_equal. f_equal.
  rewrite <-drop_drop, drop_app_length. done.
Qed.

Definition rr_fixed (r : DnsResourceRecord) : list Z :=
  u16_be (type_to_u16 (rr_kind r)) ++ u16_be (class_to_u16 (rr_class r)) ++
  u32_be (ttl r).

(** The patched length is as if it had been known before the data was
    emitted. *)
Lemma record_emit_compressed_eq r buf pos names buf1 names1 :
  name_emit_to_compressed (rr_domain r) buf names = (buf1, names1) →
  ∃ out names2,
    (∀ n, emit_rdata_to_compressed r (buf1 ++ rr_fixed r ++ u16_be n) names1 =
      ((buf1 ++ rr_fixed r ++ u16_be n) ++ out, names2)) ∧
    record_emit_compressed r buf pos names =
      ((buf1 ++ rr_fixed r ++ u16_be (as_u16 (Z.of_nat (length out)))) ++ out,
       push_ttl r (length buf1 + 4)%nat pos, names2).
Proof.
  intros Hname.
  destruct (appender_rdata r (length buf1 + 10)%nat names1) as (out & names2 & H).
  exists out, names2.
  assert (∀ n, emit_rdata_to_compressed r (buf1 ++ rr_fixed r ++ u16_be n) names1 =
      ((buf1 ++ rr_fixed r ++ u16_be n) ++ out, names2)) as H'.
  { intros n. apply H. by rewrite length_app. }
  split; [done|]. unfold record_emit_compressed. rewrite Hname.
  replace ((((buf1 ++ u16_be (type_to_u16 (rr_kind r))) ++
      u16_be (class_to_u16 (rr_class r))) ++ u32_be (ttl r)) ++ u16_be 0)
    with (buf1 ++ rr_fixed r ++ u16_be 0)
    by (unfold rr_fixed; by rewrite <-!(assoc_L (++))).
  rewrite H'. f_equal; f_equal.
  - replace (length (((buf1 ++ u16_be (type_to_u16 (rr_kind r))) ++
      u16_be (class_to_u16 (rr_class r))) ++ u32_be (ttl r)))
      with (length (buf1 ++ rr_fixed r))
      by (unfold rr_fixed; by rewrite !(assoc_L (++))).
    replace ((buf1 ++ rr_fixed r ++ u16_be 0) ++ out)
      with ((buf1 ++ rr_fixed r) ++ u16_be 0 ++ out) by (by rewrite <-!(assoc_L (++))).
    rewrite put_u16_mid, <-!(assoc_L (++)). do 4 f_equal.
    rewrite !length_app. simpl. f_equal. lia.
  - f_equal. rewrite !length_app. simpl. lia.
Qed.

(** ** The bytes of a name that was read *)

Lemma slice_ok buf off n : bytes_ok buf → bytes_ok (slice buf off n).
Proof. intros H. by apply Forall_take, Forall_drop. Qed.

Lemma name_at_bounds buf off ls p e cp :
  bytes_ok buf → name_at buf off ls p e cp →
  Forall label_ok ls ∧ (off < e ≤ length buf)%nat.
Proof.
  intros Hb. induction 1 as [off H0|off len l ls p e cp Hl Hlen Hle -> Hn [IH1 IH2]
                   |off b0 b1 target ls p e cp H0 H1 Hge -> Hn [IH1 IH2]].
  - apply lookup_lt_Some in H0. split; [constructor|lia].
  - split; [|lia]. constructor; [|done]. split; [|by apply slice_ok].
    rewrite length_slice; lia.
  - apply lookup_lt_Some in H1. split; [done|lia].
Qed.

Lemma slice_split buf off n m :
  slice buf off (n + m) = slice buf off n ++ slice buf (off + n) m.
Proof.
  unfold slice. rewrite <-drop_drop.
  by rewrite <-(take_drop n (take (n + m) (drop off buf))), take_take,
    Nat.min_l, skipn_firstn_comm, Nat.add_comm, Nat.add_sub by lia.
Qed.

Lemma slice_one buf off b : buf !! off = Some b → slice buf off 1 = [b].
Proof. intros H. unfold slice. by rewrite (drop_S _ _ _ H). Qed.

(** Spelled without a pointer, a name is its uncompressed bytes. *)
Lemma name_at_plain buf off ls p e :
  bytes_ok buf → name_at buf off ls p e None →
  slice buf off (e - off) = name_bytes ls.
Proof.
  intros Hb. remember None as cp eqn:Hcp.
  induction 1 as [off H0|off len l ls p e cp Hl Hlen Hle -> Hn IH|]; [| |done].
  - replace (off + 1 - off)%nat with 1%nat by lia. by apply slice_one.
  - destruct (name_at_bounds _ _ _ _ _ _ Hb Hn) as [_ Hlt].
    replace (e - off)%nat with
      (1 + (Z.to_nat len + (e - (off + 1 + Z.to_nat len))))%nat by lia.
    rewrite slice_split, slice_split, (slice_one _ _ _ Hl), IH by done.
    rewrite name_bytes_cons, length_slice by lia. rewrite Z2Nat.id by lia. done.
Qed.

(** Otherwise it ends in the two bytes of a pointer. *)
Lemma name_at_pointer_end buf off ls p e t :
  bytes_ok buf → name_at buf off ls p e (Some t) →
  (off + 2 ≤ e ≤ length buf)%nat ∧ ∃ b, buf !! (e - 2)%nat = Some b ∧ 192 ≤ b.
Proof.
  intros Hb. remember (Some t) as cp eqn:Hcp.
  induction 1 as [|off len l ls p e cp Hl Hlen Hle -> Hn IH
                 |off b0 b1 target ls p e cp H0 H1 Hge -> Hn _]; [done| |].
  - destruct (IH Hcp) as [? Hex]. split; [lia|done].
  - apply lookup_lt_Some in H1. split; [lia|]. exists b0.
    by replace (off + 2 - 2)%nat with off by lia.
Qed.

Lemma has_compression_at l i b :
  l !! i = Some b → byte_ok b → 192 ≤ b → (i + 1 < length l)%nat →
  has_compression l = true.
Proof.
  revert i. induction l as [|c l IH]; intros i Hi Hb Hge Hlt; [done|].
  destruct l as [|c' l]; [simpl in Hlt; lia|].
  change (has_compression (c :: c' :: l)) with
    ((Z.land c 0xC0 =? 0xC0) || has_compression (c' :: l)).
  destruct i as [|i].
  - injection Hi as ->. destruct (byte_bits b Hb) as (B & _ & _).
    by rewrite (proj2 (Z.eqb_eq _ _) (proj2 B Hge)).
  - rewrite (IH i); [apply orb_true_r|done..|simpl in *; lia].
Qed.

Definition kind_one_name (k : DnsType) : bool :=
  match k with T_CNAME | T_NS | T_PTR => true | _ => false end.

Lemma expand_one_name buf k off d e :
  bytes_ok buf → kind_one_name k = true → name_parse_from buf off = Ok (d, e) →
  expand_rdata buf k (slice buf off (e - off)) off = Ok (name_bytes (labels d)).
Proof.
  intros Hb Hk Hp.
  destruct (name_parse_sound buf Hb off d e Hp) as (_ & _ & p & Hn & _).
  destruct (name_at_bounds _ _ _ _ _ _ Hb Hn) as [Hls Hlt].
  assert (has_compression (slice buf off (e - off)) = false →
    slice buf off (e - off) = name_bytes (labels d)) as Hplain.
  { intros Hhc. destruct (compression_pointer d) as [t|]; [|by eapply name_at_plain].
    destruct (name_at_pointer_end _ _ _ _ _ _ Hb Hn) as (Hle & b & Hl & Hge).
    rewrite (has_compression_at _ (e - 2 - off) b) in Hhc; [done| |by eapply buf_byte|done|].
    - unfold slice. rewrite lookup_take_lt, lookup_drop by lia.
      by replace (off + (e - 2 - off))%nat with (e - 2)%nat by lia.
    - rewrite length_slice; lia. }
  unfold expand_rdata.
  destruct k; try done; simpl; destruct (has_compression _) eqn:Hhc; simpl;
    by rewrite ?Hp, ?name_emit_to_bytes, ?Hplain.
Qed.

(** ** The shape of the record data *)

(** [rdata_is kind rdata fixed names]: the data is the fixed fields and the
    uncompressed names its type prescribes. *)
Inductive rdata_is : DnsType → list Z → list Z → list (list label) → Prop :=
| ri_plain k rd : kind_has_domain_names k = false → rdata_is k rd rd []
| ri_name k ls : kind_one_name k = true → rdata_is k (name_bytes ls) [] [ls]
| ri_mx pre ls : length pre = 2%nat → rdata_is T_MX (pre ++ name_bytes ls) pre [ls]
| ri_soa m n post : length post = 20%nat →
    rdata_is T_SOA (name_bytes m ++ name_bytes n ++ post) post [m; n]
| ri_srv pre ls : length pre = 6%nat → rdata_is T_SRV (pre ++ name_bytes ls) pre [ls].

Definition labels_good (ls : list label) : Prop := name_ok (dns_domain_name ls 0 None).

Definition rdata_ok (k : DnsType) (rd : list Z) : Prop :=
  ∃ fixed nms, rdata_is k rd fixed nms ∧ bytes_ok fixed ∧ Forall labels_good nms.

(** The same data, up to the case of the names. *)
Definition rdata_eqv (k : DnsType) (rd rd' : list Z) : Prop :=
  ∃ fixed nms nms', rdata_is k rd fixed nms ∧ rdata_is k rd' fixed nms' ∧
    Forall2 labels_eqv nms nms'.

Lemma labels_good_ok ls : labels_good ls → Forall label_ok ls.
Proof. intros [Hc _ _]. by apply label_clean_ok. Qed.

Lemma labels_eqv_name_bytes ls ls' :
  labels_eqv ls ls' → length (name_bytes ls) = length (name_bytes ls').
Proof.
  intros H. by rewrite !length_name_bytes, (labels_eqv_wire_len _ _ H).
Qed.

Lemma rdata_eqv_length k rd rd' : rdata_eqv k rd rd' → length rd = length rd'.
Proof.
  intros (fixed & nms & nms' & H & H' & Hf).
  inversion H; subst; inversion H'; subst; try done; try by inversion Hf.
  all: rewrite ?length_app;
    repeat match goal with
    | Hf : Forall2 labels_eqv (_ :: _) (_ :: _) |- _ =>
        apply Forall2_cons_1 in Hf as [?%labels_eqv_name_bytes Hf]
    end; congruence || lia.
Qed.

Lemma rdata_is_ok k rd fixed nms :
  rdata_is k rd fixed nms → bytes_ok fixed → Forall labels_good nms → bytes_ok rd.
Proof.
  intros H Hf Hn. destruct H; rewrite ?bytes_ok_app;
    repeat match goal with
    | Hn : Forall labels_good (_ :: _) |- _ =>
        apply Forall_cons in Hn as [?%labels_good_ok%name_bytes_ok Hn]
    end; done.
Qed.

Lemma name_parse_rdata pre ls post :
  bytes_ok pre → bytes_ok post → labels_good ls →
  name_parse_from (pre ++ name_bytes ls ++ post) (length pre) =
    Ok (dns_domain_name ls (length pre) None,
        (length pre + length (name_bytes ls))%nat).
Proof.
  intros H1 H2 Hg. pose proof (labels_good_ok _ Hg) as Hls.
  apply name_parse_bytes; [|done|by destruct Hg].
  rewrite !bytes_ok_app. auto using name_bytes_ok.
Qed.

Lemma name_parse_rdata_end pre ls :
  bytes_ok pre → labels_good ls →
  name_parse_from (pre ++ name_bytes ls) (length pre) =
    Ok (dns_domain_name ls (length pre) None, length (pre ++ name_bytes ls)).
Proof.
  intros H1 Hg. pose proof (name_parse_rdata pre ls [] H1 (Forall_nil_2 _) Hg) as H.
  by rewrite app_nil_r, <-length_app in H.
Qed.

(** ** The record data goes through compression and expansion *)

Definition rdata_reads (r : DnsResourceRecord) (buf out buf' : list Z) : Prop :=
  ∀ post, bytes_ok post → ∃ rd',
    expand_rdata (buf' ++ post) (rr_kind r) out (length buf) = Ok rd' ∧
    rdata_eqv (rr_kind r) rd' (rdata r) ∧ bytes_ok rd'.

Definition rdata_emit_spec (r : DnsResourceRecord) : Prop :=
  ∀ buf names buf' names',
    cmap_ok buf names → bytes_ok buf →
    emit_rdata_to_compressed r buf names = (buf', names') →
    Z.of_nat (length buf') ≤ 16384 →
    ∃ out, buf' = buf ++ out ∧ cmap_ok buf' names' ∧ bytes_ok buf' ∧
      rdata_reads r buf out buf'.

Lemma labels_good_name_ok ls off cp : labels_good ls → name_ok (dns_domain_name ls off cp).
Proof. by intros [? ? ?]. Qed.

Lemma reads_name_slice buf out post d e :
  bytes_ok ((buf ++ out) ++ post) →
  name_parse_from ((buf ++ out) ++ post) (length buf) = Ok (d, e) →
  e = length (buf ++ out) →
  slice ((buf ++ out) ++ post) (length buf) (e - length buf) = out.
Proof.
  intros Hb Hp ->. rewrite <-(assoc_L (++)), length_app.
  replace (length buf + length out - length buf)%nat with (length out) by lia.
  apply slice_at.
Qed.

Lemma rdata_emit_plain r :
  kind_has_domain_names (rr_kind r) = false → bytes_ok (rdata r) → rdata_emit_spec r.
Proof.
  intros Hk Hrd buf names buf' names' Hmap Hbuf. unfold emit_rdata_to_compressed.
  rewrite Hk. simpl. intros [= <- <-] _. exists (rdata r).
  split_and!; [done|by apply cmap_ok_app|by apply bytes_ok_app|].
  intros post Hpost. exists (rdata r). unfold expand_rdata. rewrite Hk.
  split_and!; [done| |done]. by exists (rdata r), [], []; repeat constructor.
Qed.

Lemma rdata_emit_one_name r ls :
  kind_one_name (rr_kind r) = true → rdata r = name_bytes ls → labels_good ls →
  rdata_emit_spec r.
Proof.
  intros Hk Hrd Hls buf names buf' names' Hmap Hbuf Hemit Hlen.
  pose proof (name_parse_rdata_end [] ls (Forall_nil_2 _) Hls) as Hp. simpl in Hp.
  assert (name_emit_to_compressed (dns_domain_name ls 0 None) buf names =
    (buf', names')) as Hname.
  { unfold emit_rdata_to_compressed, rdata_is_well_formed in Hemit.
    rewrite Hrd, Hp, Nat.eqb_refl in Hemit. by destruct (rr_kind r). }
  destruct (name_emit_compressed_reads _ _ _ _ _ (labels_good_name_ok ls 0 None Hls)
    Hmap Hbuf Hname Hlen) as ((out & ->) & Hmap' & Hbuf' & Hread).
  exists out. split_and!; [done..|]. intros post Hpost.
  destruct (Hread post Hpost) as (d' & Hd' & Heqv). simpl in Heqv.
  assert (bytes_ok ((buf ++ out) ++ post)) as Hall by (by apply bytes_ok_app).
  exists (name_bytes (labels d')). split_and!.
  - rewrite <-(reads_name_slice buf out post d' _ Hall Hd' eq_refl) at 2.
    by apply expand_one_name.
  - rewrite Hrd. exists [], [labels d'], [ls]. split_and!; [by constructor..|].
    by constructor.
  - destruct (name_parse_sound _ Hall _ _ _ Hd') as (_ & _ & p & Hn & _).
    apply name_bytes_ok. by apply (name_at_bounds _ _ _ _ _ _ Hall Hn).
Qed.

Definition kind_prefix (k : DnsType) : option nat :=
  match k with T_MX => Some 2%nat | T_SRV => Some 6%nat | _ => None end.

Lemma rdata_emit_prefixed r pre ls :
  kind_prefix (rr_kind r) = Some (length pre) → rdata r = pre ++ name_bytes ls →
  bytes_ok pre → labels_good ls → rdata_emit_spec r.
Proof.
  intros Hk Hrd Hpre Hls buf names buf' names' Hmap Hbuf Hemit Hlen.
  pose proof (name_parse_rdata_end pre ls Hpre Hls) as Hp.
  assert (name_emit_to_compressed (dns_domain_name ls (length pre) None)
    (buf ++ pre) names = (buf', names')) as Hname.
  { unfold emit_rdata_to_compressed, rdata_is_well_formed in Hemit.
    rewrite Hrd in Hemit.
    destruct (rr_kind r); simplify_eq/=; rewrite Hk, Hp, Nat.eqb_refl, take_app_length,
      (proj2 (Nat.ltb_ge _ _)) in Hemit by (rewrite length_app; lia); done. }
  destruct (name_emit_compressed_reads _ _ _ _ _ (labels_good_name_ok ls _ None Hls)
    (cmap_ok_app _ pre _ Hmap) (proj2 (bytes_ok_app _ _) (conj Hbuf Hpre)) Hname Hlen)
    as ((out & ->) & Hmap' & Hbuf' & Hread).
  exists (pre ++ out). split_and!; [by rewrite <-(assoc_L (++))|done..|].
  intros post Hpost. destruct (Hread post Hpost) as (d' & Hd' & Heqv). simpl in Heqv.
  assert (bytes_ok (((buf ++ pre) ++ out) ++ post)) as Hall by (by apply bytes_ok_app).
  destruct (name_parse_sound _ Hall _ _ _ Hd') as (_ & _ & p & Hn & _).
  destruct (name_at_bounds _ _ _ _ _ _ Hall Hn) as [Hok _].
  exists (pre ++ name_bytes (labels d')). rewrite length_app in Hd'. split_and!.
  - unfold expand_rdata.
    destruct (rr_kind r); simplify_eq/=; rewrite (proj2 (Nat.ltb_ge _ _))
      by (rewrite length_app; lia); rewrite Hk, Hd', take_app_length; simpl;
      by rewrite name_emit_to_bytes.
  - rewrite Hrd. exists pre, [labels d'], [ls].
    destruct (rr_kind r); simplify_eq/=; (split_and!; [by constructor..|]);
      by constructor.
  - apply bytes_ok_app. split; [done|by apply name_bytes_ok].
Qed.

Lemma rdata_emit_soa r m n tl :
  rr_kind r = T_SOA → rdata r = name_bytes m ++ name_bytes n ++ tl →
  length tl = 20%nat → bytes_ok tl → labels_good m → labels_good n →
  rdata_emit_spec r.
Proof.
  intros Hk Hrd Htl Hbt Hm Hn buf names buf' names' Hmap Hbuf Hemit Hlen.
  pose proof (labels_good_ok _ Hn) as Hnok. pose proof (labels_good_ok _ Hm) as Hmok.
  assert (bytes_ok (name_bytes n ++ tl)) as Hnt
    by (apply bytes_ok_app; auto using name_bytes_ok).
  pose proof (name_parse_rdata [] m (name_bytes n ++ tl) (Forall_nil_2 _) Hnt Hm) as Hp1.
  pose proof (name_parse_rdata (name_bytes m) n tl (name_bytes_ok _ Hmok) Hbt Hn) as Hp2.
  simpl in Hp1.
  destruct (name_emit_to_compressed (dns_domain_name m 0 None) buf names)
    as [buf1 names1] eqn:E1.
  destruct (name_emit_to_compressed
    (dns_domain_name n (length (name_bytes m)) None) buf1 names1) as [buf2 names2] eqn:E2.
  assert (buf' = buf2 ++ tl ∧ names' = names2) as [-> ->].
  { unfold emit_rdata_to_compressed, rdata_is_well_formed in Hemit.
    rewrite Hk, Hrd, Hp1, Hp2, E1, E2 in Hemit. simpl in Hemit.
    rewrite !length_app, Htl in Hemit.
    rewrite (proj2 (Nat.eqb_eq _ _)) in Hemit by lia. simpl in Hemit.
    injection Hemit as <- <-. split; [|done].
    by rewrite <-length_app, (assoc_L (++)), drop_app_length. }
  assert (Z.of_nat (length buf2) ≤ 16384) as Hlen2 by (rewrite length_app in Hlen; lia).
  pose proof (appender_name (dns_domain_name n (length (name_bytes m)) None)
    (length buf1) names1) as (o2 & n2 & Ho2).
  rewrite (Ho2 buf1 eq_refl) in E2. injection E2 as <- ->.
  assert (Z.of_nat (length buf1) ≤ 16384) as Hlen1 by (rewrite length_app in Hlen2; lia).
  destruct (name_emit_compressed_reads _ _ _ _ _ (labels_good_name_ok m _ None Hm)
    Hmap Hbuf E1 Hlen1) as ((o1 & ->) & Hmap1 & Hbuf1 & Hread1).
  destruct (name_emit_compressed_reads _ _ _ _ _ (labels_good_name_ok n _ None Hn)
    Hmap1 Hbuf1 (Ho2 _ eq_refl) Hlen2) as (_ & Hmap2 & Hbuf2 & Hread2).
  exists (o1 ++ o2 ++ tl).
  split_and!; [by rewrite !(assoc_L (++))|by apply cmap_ok_app|by apply bytes_ok_app|].
  intros post Hpost.
  apply bytes_ok_app in Hbuf2 as Hb. destruct Hb as [_ Ho2ok].
  destruct (Hread1 (o2 ++ tl ++ post)) as (d1 & Hd1 & He1).
  { rewrite !bytes_ok_app. done. }
  destruct (Hread2 (tl ++ post)) as (d2 & Hd2 & He2).
  { by apply bytes_ok_app. }
  simpl in He1, He2.
  replace ((buf ++ o1) ++ o2 ++ tl ++ post) with ((((buf ++ o1) ++ o2) ++ tl) ++ post)
    in Hd1 by (by rewrite <-!(assoc_L (++))).
  replace (((buf ++ o1) ++ o2) ++ tl ++ post) with ((((buf ++ o1) ++ o2) ++ tl) ++ post)
    in Hd2 by (by rewrite <-!(assoc_L (++))).
  set (whole := (((buf ++ o1) ++ o2) ++ tl) ++ post) in *.
  assert (bytes_ok whole) as Hall by (unfold whole; rewrite !bytes_ok_app in *; tauto).
  destruct (name_parse_sound _ Hall _ _ _ Hd1) as (_ & _ & p1 & Hn1 & _).
  destruct (name_at_bounds _ _ _ _ _ _ Hall Hn1) as [Hok1 _].
  destruct (name_parse_sound _ Hall _ _ _ Hd2) as (_ & _ & p2 & Hn2 & _).
  destruct (name_at_bounds _ _ _ _ _ _ Hall Hn2) as [Hok2 _].
  exists (name_bytes (labels d1) ++ name_bytes (labels d2) ++ tl). split_and!.
  - rewrite Hk. unfold expand_rdata. simpl. rewrite Hd1. simpl. rewrite Hd2. simpl.
    rewrite (proj2 (Nat.ltb_ge _ _)) by (rewrite !length_app; lia).
    rewrite !name_emit_to_bytes by done. simpl.
    replace (length ((buf ++ o1) ++ o2) - length buf)%nat with (length (o1 ++ o2))
      by (rewrite !length_app; lia).
    by rewrite (assoc_L (++) o1), drop_app_length, <-(assoc_L (++)).
  - rewrite Hk, Hrd. exists tl, [labels d1; labels d2], [m; n].
    split_and!; [by constructor..|]. repeat constructor; done.
  - rewrite !bytes_ok_app. auto using name_bytes_ok.
Qed.

Lemma rdata_emit_correct r : rdata_ok (rr_kind r) (rdata r) → rdata_emit_spec r.
Proof.
  intros (fixed & nms & Hr & Hf & Hn).
  pose proof (rdata_is_ok _ _ _ _ Hr Hf Hn) as Hok.
  remember (rr_kind r) as k0 eqn:Ek. remember (rdata r) as rd0 eqn:Erd.
  destruct Hr as [k rd Hk|k ls Hk|pre ls Hl|m n tl Hl|pre ls Hl];
    rewrite ?Forall_cons in Hn; subst.
  - by apply rdata_emit_plain.
  - eapply rdata_emit_one_name; [done|by rewrite <-Erd|tauto].
  - eapply (rdata_emit_prefixed _ pre); [by rewrite <-Ek, Hl|by rewrite <-Erd|done|tauto].
  - eapply (rdata_emit_soa _ m n tl); by try tauto.
  - eapply (rdata_emit_prefixed _ pre); [by rewrite <-Ek, Hl|by rewrite <-Erd|done|tauto].
Qed.

(** ** Questions and records through the message compression *)

Record question_ok (q : DnsQuestion) : Prop := {
  qo_name : name_ok (q_domain q);
  qo_type : type_ok (q_kind q);
  qo_class : class_ok (q_class q);
}.

Record record_ok (r : DnsResourceRecord) : Prop := {
  ro_name : name_ok (rr_domain r);
  ro_type : type_ok (rr_kind r);
  ro_class : class_ok (rr_class r);
  ro_ttl : is_u32 (ttl r);
  ro_rdlength : rdlength r = as_u16 (Z.of_nat (length (rdata r)));
  ro_rdata : rdata_ok (rr_kind r) (rdata r);
}.

Definition question_eqv (q q' : DnsQuestion) : Prop :=
  labels_eqv (labels (q_domain q)) (labels (q_domain q')) ∧
  q_kind q = q_kind q' ∧ q_class q = q_class q'.

Definition record_eqv (r r' : DnsResourceRecord) : Prop :=
  labels_eqv (labels (rr_domain r)) (labels (rr_domain r')) ∧
  rr_kind r = rr_kind r' ∧ rr_class r = rr_class r' ∧ ttl r = ttl r' ∧
  rdlength r = rdlength r' ∧ rdata_eqv (rr_kind r) (rdata r) (rdata r').

Lemma question_emit_reads q buf names buf' names' :
  question_ok q → cmap_ok buf names → bytes_ok buf →
  question_emit_to_compressed q buf names = (buf', names') →
  Z.of_nat (length buf') ≤ 16384 →
  (∃ out, buf' = buf ++ out) ∧ cmap_ok buf' names' ∧ bytes_ok buf' ∧
  ∀ post, bytes_ok post → ∃ q',
    question_parse_from (buf' ++ post) (length buf) = Ok (q', length buf') ∧
    question_eqv q' q.
Proof.
  intros [Hn [Hk Hk'] [Hc Hc']] Hmap Hbuf. unfold question_emit_to_compressed.
  destruct (name_emit_to_compressed _ _ _) as [buf1 names1] eqn:E.
  intros [<- <-]%pair_equal_spec Hlen.
  assert (Z.of_nat (length buf1) ≤ 16384) as Hlen1 by (rewrite length_app in Hlen; lia).
  destruct (name_emit_compressed_reads _ _ _ _ _ Hn Hmap Hbuf E Hlen1)
    as ((out & ->) & Hmap1 & Hbuf1 & Hread).
  set (fixed := u16_be (type_to_u16 (q_kind q)) ++ u16_be (class_to_u16 (q_class q))) in *.
  assert (bytes_ok fixed) as Hfix.
  { apply bytes_ok_app. auto using u16_be_bytes. }
  split_and!; [eexists; by rewrite <-(assoc_L (++))|by apply cmap_ok_app|
    by apply bytes_ok_app|].
  intros post Hpost. destruct (Hread (fixed ++ post)) as (d' & Hd' & He).
  { by apply bytes_ok_app. }
  exists (dns_question d' (q_kind q) (q_class q)). split; [|done].
  replace (((buf ++ out) ++ fixed) ++ post) with ((buf ++ out) ++ fixed ++ post)
    by (by rewrite (assoc_L (++) (buf ++ out))).
  unfold question_parse_from. rewrite Hd'. unfold fixed in *.
  rewrite (proj2 (Nat.ltb_ge _ _)) by (rewrite !length_app; simpl; lia).
  rewrite <-(assoc_L (++) (u16_be (type_to_u16 (q_kind q)))).
  rewrite be16_at_mid by done.
  rewrite (assoc_L (++) (buf ++ out)), be16_at_mid
    by (done || by rewrite !length_app).
  rewrite Hk', Hc'. do 2 f_equal. rewrite !length_app. simpl. lia.
Qed.

(** The fixed fields of a record read back behind its owner name. *)
Lemma record_fixed_reads r pre rdl tl :
  type_ok (rr_kind r) → class_ok (rr_class r) → is_u32 (ttl r) → is_u16 rdl →
  let buf := pre ++ rr_fixed r ++ u16_be rdl ++ tl in
  type_from_u16 (be16_at buf (length pre)) = rr_kind r ∧
  class_from_u16 (be16_at buf (length pre + 2)) = rr_class r ∧
  be32_at buf (length pre + 4) = ttl r ∧ be16_at buf (length pre + 8) = rdl.
Proof.
  intros [Hk Hk'] [Hc Hc'] Ht Hr buf. unfold buf, rr_fixed.
  set (a := u16_be (type_to_u16 (rr_kind r))).
  set (b := u16_be (class_to_u16 (rr_class r))).
  rewrite <-!(assoc_L (++)). split_and!.
  - unfold a. by rewrite be16_at_mid.
  - rewrite (assoc_L (++) pre). unfold b.
    by rewrite be16_at_mid by (done || by rewrite !length_app).
  - rewrite (assoc_L (++) pre), (assoc_L (++) (pre ++ a)).
    by rewrite be32_at_mid by (done || (rewrite !length_app; simpl; lia)).
  - rewrite (assoc_L (++) pre), (assoc_L (++) (pre ++ a)), (assoc_L (++) ((pre ++ a) ++ b)).
    by rewrite be16_at_mid by (done || (rewrite !length_app; simpl; lia)).
Qed.

Lemma rr_fixed_ok r : bytes_ok (rr_fixed r).
Proof. unfold rr_fixed. rewrite !bytes_ok_app. auto using u16_be_bytes, u32_be_bytes. Qed.

(** Where a record emission puts the TTL: the four bytes are those of the
    field, and the reported position points at them. *)
Definition ttl_reported (r : DnsResourceRecord) (buf' : list Z) (off : nat) : Prop :=
  slice buf' off 4 = u32_be (ttl r).

Lemma record_emit_reads r buf pos names buf' pos' names' :
  record_ok r → cmap_ok buf names → bytes_ok buf →
  record_emit_compressed r buf pos names = (buf', pos', names') →
  Z.of_nat (length buf') ≤ 16384 →
  ∃ out off, buf' = buf ++ out ∧ cmap_ok buf' names' ∧ bytes_ok buf' ∧
    pos' = push_ttl r off pos ∧ (length buf ≤ off)%nat ∧
    (∀ post, slice (buf' ++ post) off 4 = u32_be (ttl r)) ∧
    ∀ post, bytes_ok post → ∃ r',
      record_parse_from (buf' ++ post) (length buf) = Ok (r', length buf') ∧
      record_eqv r' r.
Proof.
  intros [Hn Hk Hc Ht Hrdl Hrd] Hmap Hbuf Hemit Hlen.
  destruct (name_emit_to_compressed (rr_domain r) buf names) as [buf1 names1] eqn:E.
  destruct (record_emit_compressed_eq r buf pos names buf1 names1 E)
    as (out2 & names2 & Hrdata & Heq).
  rewrite Heq in Hemit. clear Heq.
  apply pair_equal_spec in Hemit as [[<- <-]%pair_equal_spec <-].
  set (n := as_u16 (Z.of_nat (length out2))) in *.
  specialize (Hrdata n).
  assert (Z.of_nat (length buf1) ≤ 16384 ∧ Z.of_nat (length out2) ≤ 16384) as [Hl1 Hl2]
    by (rewrite !length_app in Hlen; lia).
  assert (n = Z.of_nat (length out2)) as Hn2 by (apply as_u16_small; unfold is_u16; lia).
  assert (is_u16 n) as Hn16 by (unfold is_u16; lia).
  destruct (name_emit_compressed_reads _ _ _ _ _ Hn Hmap Hbuf E Hl1)
    as ((out & ->) & Hmap1 & Hbuf1 & Hread).
  set (buf2 := (buf ++ out) ++ rr_fixed r ++ u16_be n) in *.
  assert (bytes_ok buf2) as Hbuf2.
  { unfold buf2. rewrite !bytes_ok_app in *. split_and!; try tauto.
    - apply rr_fixed_ok. - apply u16_be_bytes. }
  destruct (rdata_emit_correct r Hrd buf2 names1 (buf2 ++ out2) names2
    (cmap_ok_app _ _ _ Hmap1) Hbuf2 Hrdata Hlen)
    as (out2' & Heq & Hmap2 & Hbuf3 & Hreads).
  apply app_inv_head in Heq as <-.
  exists (out ++ (rr_fixed r ++ u16_be n) ++ out2), (length (buf ++ out) + 4)%nat.
  split_and!; [by unfold buf2; rewrite <-!(assoc_L (++))|done..| | |].
  - rewrite length_app. lia.
  - intros post. unfold buf2, rr_fixed.
    set (a := u16_be (type_to_u16 (rr_kind r))).
    set (b := u16_be (class_to_u16 (rr_class r))).
    replace ((((buf ++ out) ++ (a ++ b ++ u32_be (ttl r)) ++ u16_be n) ++ out2) ++ post)
      with (((buf ++ out) ++ a ++ b) ++ u32_be (ttl r) ++ (u16_be n ++ out2 ++ post))
      by (by rewrite <-!(assoc_L (++))).
    apply slice_mid; [|done]. rewrite !length_app. simpl. lia.
  - intros post Hpost.
    destruct (Hread ((rr_fixed r ++ u16_be n) ++ out2 ++ post)) as (d' & Hd' & He).
    { pose proof (proj2 (proj1 (bytes_ok_app _ _) Hbuf3)) as Ho2.
      rewrite !bytes_ok_app. auto using rr_fixed_ok, u16_be_bytes. }
    destruct (Hreads post Hpost) as (rd' & Hexp & Hrdeqv & _).
    exists (dns_record d' (rr_kind r) (rr_class r) (ttl r)
      (as_u16 (Z.of_nat (length rd'))) rd').
    split; [|unfold record_eqv; simpl; rewrite Hrdl, (rdata_eqv_length _ _ _ Hrdeqv);
             split_and!; done].
    assert ((buf2 ++ out2) ++ post =
      (buf ++ out) ++ rr_fixed r ++ u16_be n ++ out2 ++ post) as Hwhole
      by (unfold buf2; by rewrite <-!(assoc_L (++))).
    destruct (record_fixed_reads r (buf ++ out) n (out2 ++ post) Hk Hc Ht Hn16)
      as (F1 & F2 & F3 & F4).
    rewrite <-Hwhole in F1, F2, F3, F4.
    replace ((buf ++ out) ++ (rr_fixed r ++ u16_be n) ++ out2 ++ post)
      with ((buf2 ++ out2) ++ post) in Hd' by (by rewrite Hwhole, <-!(assoc_L (++))).
    unfold record_parse_from. rewrite Hd'. unfold RR_HDR_LEN.
    assert (length buf2 = length (buf ++ out) + 10)%nat as Hlb2
      by (unfold buf2; rewrite !length_app; simpl; lia).
    rewrite (proj2 (Nat.ltb_ge _ _)) by (rewrite !length_app in *; lia).
    rewrite F1, F2, F3, F4, Hn2, Nat2Z.id.
    rewrite (proj2 (Nat.ltb_ge _ _)) by (rewrite !length_app in *; lia).
    rewrite <-Hlb2.
    rewrite <-(assoc_L (++) buf2 out2 post), slice_at, (assoc_L (++) buf2 out2 post).
    rewrite Hexp. by rewrite <-length_app.
Qed.
