(* ===== verification/DnsPacket.v ===== *)
(** * DnsPacket: whole DNS messages, [src/lib/dns/packet.rs]

    [parse] and the serializations of a [DnsPacket], with the TTL positions
    they report, and the EDNS OPT helpers.  [Display], [domain_name] and
    [display_brief] are not modelled. *)

From S2P Require Export DnsRecord DnsHeader.

#[local] Open Scope Z_scope.

Record DnsPacket : Type := dns_packet {
  header : DnsHeader;
  questions : list DnsQuestion;
  answers : list DnsResourceRecord;
  authorities : list DnsResourceRecord;
  additionals : list DnsResourceRecord;
}.

(** [for _ in 0..count { vec.push(T::parse_from(data, &mut offset)?) }]. *)
Fixpoint parse_many {A} (parse_from : list Z → nat → res (A * nat)) (count : nat)
    (data : list Z) (offset : nat) : res (list A * nat) :=
  match count with
  | O => Ok ([], offset)
  | S count' =>
      let? r := parse_from data offset in
      let? rs := parse_many parse_from count' data r.2 in
      Ok (r.1 :: rs.1, rs.2)
  end.

(** [DnsPacket::parse].  The capacities the vectors are created with do not
    matter to the result. *)
Definition packet_parse (data : list Z) : res DnsPacket :=
  let? header := header_parse data in
  let offset := HEADER_LEN in
  let? qs := parse_many question_parse_from (Z.to_nat (qdcount header)) data offset in
  let? an := parse_many record_parse_from (Z.to_nat (ancount header)) data qs.2 in
  let? ns := parse_many record_parse_from (Z.to_nat (nscount header)) data an.2 in
  let? ar := parse_many record_parse_from (Z.to_nat (arcount header)) data ns.2 in
  Ok (dns_packet header qs.1 an.1 ns.1 ar.1).

(** The loops over the sections. *)
Definition emit_questions (qs : list DnsQuestion) (buf : list Z)
    (cmap : DnsNameCompressionMap) : list Z * DnsNameCompressionMap :=
  foldl (λ st q, question_emit_to_compressed q st.1 st.2) (buf, cmap) qs.

Abbreviation emit_state := (list Z * TtlPositions * DnsNameCompressionMap)%type.

Definition emit_record (st : emit_state) (r : DnsResourceRecord) : emit_state :=
  record_emit_compressed r st.1.1 st.1.2 st.2.

Definition emit_records (rs : list DnsResourceRecord) (st : emit_state) : emit_state :=
  foldl emit_record st rs.

(** [to_bytes_with_ttls]: the bytes and the vector of TTL positions. *)
Definition to_bytes_with_ttls (p : DnsPacket) (ttl_positions : TtlPositions) :
    list Z * TtlPositions :=
  let buf := header_to_bytes (header p) in
  let '(buf, cmap) := emit_questions (questions p) buf ∅ in
  let st := emit_records (answers p) (buf, ttl_positions, cmap) in
  let st := emit_records (authorities p) st in
  let st := emit_records (additionals p) st in
  st.1.

Definition to_bytes (p : DnsPacket) : list Z := (to_bytes_with_ttls p None).1.

Definition is_opt (r : DnsResourceRecord) : bool := type_to_u16 (rr_kind r) =? 41.

(** [saturating_sub], [saturating_add] on [u16]. *)
Definition u16_saturating_sub (a b : Z) : Z := Z.max 0 (a - b).
Definition u16_saturating_add (a b : Z) : Z := Z.min 65535 (a + b).

(** [to_bytes_without_opt]. *)
Definition to_bytes_without_opt (p : DnsPacket) (ttl_positions : TtlPositions) :
    list Z * TtlPositions :=
  let opt_count := as_u16 (Z.of_nat (length (filter is_opt (additionals p)))) in
  let header_ := header_with_arcount (header p)
    (u16_saturating_sub (arcount (header p)) opt_count) in
  let buf := header_to_bytes header_ in
  let '(buf, cmap) := emit_questions (questions p) buf ∅ in
  let st := emit_records (answers p) (buf, ttl_positions, cmap) in
  let st := emit_records (authorities p) st in
  let st := foldl (λ st r, if is_opt r then st else emit_record st r) st
              (additionals p) in
  st.1.

Definition packet_is_query (p : DnsPacket) : bool := header_is_query (header p).

Definition first_record (p : DnsPacket) : option DnsResourceRecord :=
  match head (answers p) with
  | Some r => Some r
  | None =>
      match head (authorities p) with
      | Some r => Some r
      | None => head (additionals p)
      end
  end.

Definition first_question (p : DnsPacket) : option DnsQuestion := head (questions p).

Definition opt_record (p : DnsPacket) : option DnsResourceRecord :=
  List.find is_opt (additionals p).

Definition has_edns (p : DnsPacket) : bool :=
  match opt_record p with Some _ => true | None => false end.

Definition dnssec_ok (p : DnsPacket) : bool :=
  match opt_record p with
  | Some r => negb (Z.land (ttl r) 0x8000 =? 0)
  | None => false
  end.

Definition edns_udp_payload_size (p : DnsPacket) : option Z :=
  (λ r, class_to_u16 (rr_class r)) <$> opt_record p.

Definition extended_rcode (p : DnsPacket) : Z :=
  match opt_record p with
  | Some r => as_u8 (Z.shiftr (ttl r) 24)
  | None => 0
  end.

(** [append_opt_ack], on a serialized message. *)
Definition append_opt_ack (buf : list Z) (udp_payload_size : Z) (dnssec_ok : bool) :
    list Z :=
  let buf := buf ++ [0] in
  let buf := buf ++ u16_be (type_to_u16 (T_Other 41)) in
  let buf := buf ++ u16_be udp_payload_size in
  let flags := if dnssec_ok then 0x8000 else 0 in
  let buf := buf ++ u32_be flags in
  let buf := buf ++ u16_be 0 in
  if (HEADER_LEN <=? length buf)%nat then
    let arcount := u16_saturating_add (be16_at buf 10) 1 in
    put_u16 buf 10 arcount
  else buf.

(** [add_opt_record]. *)
Definition add_opt_record (p : DnsPacket) (udp_payload_size : Z) (dnssec_ok : bool) :
    DnsPacket :=
  let ttl := if dnssec_ok then 0x8000 else 0 in
  dns_packet
    (header_with_arcount (header p) (u16_saturating_add (arcount (header p)) 1))
    (questions p) (answers p) (authorities p)
    (additionals p ++
       [dns_record name_default (T_Other 41) (C_Other udp_payload_size) ttl 0 []]).

(** [DnsPacket::new_query], the random transaction id being an argument. *)
Definition new_query (transaction_id : Z) (domain : list Z) (kind : DnsType) :
    res DnsPacket :=
  let? domain_obj := name_from_str domain in
  Ok (dns_packet (header_new_query transaction_id)
        [dns_question domain_obj kind C_IN] [] [] []).

(** [DnsPacket::new_reply]. *)
Definition new_reply (id : Z) (code : DnsResponseCode) (domain : DnsDomainName)
    (kind : DnsType) (class : DnsClass) (rd : bool) : DnsPacket :=
  dns_packet (header_new_response id code rd) [dns_question domain kind class] [] [] [].

(** ** Well-formed packets *)

Record packet_ok (p : DnsPacket) : Prop := {
  po_header : header_ok (header p);
  po_qd : qdcount (header p) = Z.of_nat (length (questions p));
  po_an : ancount (header p) = Z.of_nat (length (answers p));
  po_ns : nscount (header p) = Z.of_nat (length (authorities p));
  po_ar : arcount (header p) = Z.of_nat (length (additionals p));
  po_questions : Forall question_ok (questions p);
  po_answers : Forall record_ok (answers p);
  po_authorities : Forall record_ok (authorities p);
  po_additionals : Forall record_ok (additionals p);
}.

(** Equal up to the case of names and to where they were read. *)
Record packet_eqv (p p' : DnsPacket) : Prop := {
  pe_header : header p = header p';
  pe_questions : Forall2 question_eqv (questions p) (questions p');
  pe_answers : Forall2 record_eqv (answers p) (answers p');
  pe_authorities : Forall2 record_eqv (authorities p) (authorities p');
  pe_additionals : Forall2 record_eqv (additionals p) (additionals p');
}.

(** ** Emission only appends *)

Lemma appender_question q : appender (question_emit_to_compressed q).
Proof.
  apply (appender_seq _ (λ buf names, (buf ++ u16_be (type_to_u16 (q_kind q)) ++
    u16_be (class_to_u16 (q_class q)), names)));
    [apply appender_name|apply appender_bytes].
Qed.

Lemma emit_questions_cons q qs buf names :
  emit_questions (q :: qs) buf names =
  let '(buf, names) := question_emit_to_compressed q buf names in
  emit_questions qs buf names.
Proof.
  unfold emit_questions. simpl. by destruct (question_emit_to_compressed q buf names).
Qed.

Lemma appender_questions qs : appender (emit_questions qs).
Proof.
  induction qs as [|q qs IH]; intros n names.
  - exists [], names. intros buf _. by rewrite app_nil_r.
  - destruct (appender_seq _ _ (appender_question q) IH n names) as (o & n' & H).
    exists o, n'. intros buf Hbuf. by rewrite emit_questions_cons, H.
Qed.

Lemma appender_extends f buf names :
  appender f → ∃ out, (f buf names).1 = buf ++ out.
Proof.
  intros Hf. destruct (Hf (length buf) names) as (o & n' & H). exists o.
  by rewrite H.
Qed.

(** A record's emission appends bytes and positions that depend only on the
    length of the buffer. *)
Definition state_appender (f : emit_state → emit_state) : Prop :=
  ∀ n names, ∃ out push names', ∀ buf pos, length buf = n →
    f (buf, pos, names) = (buf ++ out, (λ l, l ++ push) <$> pos, names').

Lemma state_appender_id : state_appender (λ st, st).
Proof.
  intros n names. exists [], [], names. intros buf pos _.
  rewrite app_nil_r. do 2 f_equal. destruct pos; simpl; by rewrite ?app_nil_r.
Qed.

Lemma state_appender_seq f g :
  state_appender f → state_appender g → state_appender (λ st, g (f st)).
Proof.
  intros Hf Hg n names. destruct (Hf n names) as (o1 & p1 & n1 & H1).
  destruct (Hg (n + length o1)%nat n1) as (o2 & p2 & n2 & H2).
  exists (o1 ++ o2), (p1 ++ p2), n2. intros buf pos Hbuf.
  rewrite H1, H2 by (rewrite ?length_app; lia).
  rewrite (assoc_L (++)). do 2 f_equal.
  destruct pos; simpl; by rewrite ?(assoc_L (++)).
Qed.

Lemma state_appender_record r : state_appender (λ st, emit_record st r).
Proof.
  intros n names. unfold emit_record. simpl.
  destruct (appender_name (rr_domain r) n names) as (o1 & n1 & H1).
  destruct (appender_rdata r (n + length o1 + 10)%nat n1) as (o2 & n2 & H2).
  exists (o1 ++ (rr_fixed r ++ u16_be (as_u16 (Z.of_nat (length o2)))) ++ o2),
    (if is_opt r then [] else [((n + length o1 + 4)%nat, ttl r)]), n2.
  intros buf pos Hbuf.
  destruct (record_emit_compressed_eq r buf pos names _ _ (H1 buf Hbuf))
    as (out & n2' & Hr & ->).
  specialize (Hr (as_u16 (Z.of_nat (length o2)))).
  rewrite H2 in Hr by (rewrite !length_app; simpl; lia).
  apply pair_equal_spec in Hr as [<-%app_inv_head <-].
  rewrite <-!(assoc_L (++)). do 2 f_equal.
  unfold push_ttl, is_opt. rewrite length_app, Hbuf.
  destruct pos; [|done]. simpl. destruct (_ =? 41); simpl; [by rewrite app_nil_r|done].
Qed.

Lemma state_appender_records rs : state_appender (emit_records rs).
Proof.
  induction rs as [|r rs IH]; [apply state_appender_id|].
  apply (state_appender_seq _ _ (state_appender_record r) IH).
Qed.

Lemma state_appender_extends f st :
  state_appender f → ∃ out, (f st).1.1 = st.1.1 ++ out.
Proof.
  destruct st as [[buf pos] names]. intros Hf.
  destruct (Hf (length buf) names) as (o & p & n' & H). exists o. by rewrite H.
Qed.

(** ** A section written is a section read *)

(** [buf'] extends [buf] by things [parse_from] reads as [xs], whatever
    follows. *)
Definition reads_section {A} (parse_from : list Z → nat → res (A * nat))
    (eqv : A → A → Prop) (xs : list A) (buf buf' : list Z) : Prop :=
  ∀ post, bytes_ok post → ∃ ys,
    parse_many parse_from (length xs) (buf' ++ post) (length buf) =
      Ok (ys, length buf') ∧ Forall2 eqv ys xs.

Lemma reads_section_nil {A} (f : list Z → nat → res (A * nat)) eqv buf :
  reads_section f eqv [] buf buf.
Proof. intros post _. by exists []. Qed.

Lemma reads_section_cons {A} (f : list Z → nat → res (A * nat)) (eqv : A → A → Prop)
    x xs buf buf1 out :
  bytes_ok (buf1 ++ out) →
  (∀ post, bytes_ok post → ∃ y, f (buf1 ++ post) (length buf) = Ok (y, length buf1)
     ∧ eqv y x) →
  reads_section f eqv xs buf1 (buf1 ++ out) →
  reads_section f eqv (x :: xs) buf (buf1 ++ out).
Proof.
  intros [_ Hout]%bytes_ok_app Hx Hxs post Hpost.
  destruct (Hx (out ++ post)) as (y & Hy & Hyx); [by apply bytes_ok_app|].
  destruct (Hxs post Hpost) as (ys & Hys & Hf).
  exists (y :: ys). split; [|by constructor]. simpl.
  rewrite <-(assoc_L (++)), Hy. simpl.
  rewrite (assoc_L (++)), Hys. done.
Qed.

Lemma emit_questions_reads qs buf names buf' names' :
  Forall question_ok qs → cmap_ok buf names → bytes_ok buf →
  emit_questions qs buf names = (buf', names') → Z.of_nat (length buf') ≤ 16384 →
  cmap_ok buf' names' ∧ bytes_ok buf' ∧
  reads_section question_parse_from question_eqv qs buf buf'.
Proof.
  intros Hqs. revert buf names. induction Hqs as [|q qs Hq Hqs IH];
    intros buf names Hmap Hbuf Hemit Hlen.
  - apply pair_equal_spec in Hemit as [<- <-].
    split_and!; [done..|apply reads_section_nil].
  - rewrite emit_questions_cons in Hemit.
    destruct (question_emit_to_compressed q buf names) as [buf1 names1] eqn:E.
    destruct (appender_extends _ buf1 names1 (appender_questions qs)) as [out Hout].
    rewrite Hemit in Hout. simpl in Hout. subst buf'.
    destruct (question_emit_reads _ _ _ _ _ Hq Hmap Hbuf E) as (_ & Hmap1 & Hbuf1 & Hread).
    { rewrite length_app in Hlen. lia. }
    destruct (IH buf1 names1 Hmap1 Hbuf1 Hemit Hlen) as (Hmap2 & Hbuf2 & Hreads).
    split_and!; [done..|]. by apply (reads_section_cons _ _ _ _ _ buf1 out).
Qed.

(** The positions a section of records reports: one for each record that is
    not an OPT record, in order, where the record's TTL stands. *)
Definition ttls_reported (rs : list DnsResourceRecord) (buf' : list Z)
    (push : list (nat * Z)) : Prop :=
  Forall2 (λ r p, p.2 = ttl r ∧ slice buf' p.1 4 = u32_be (ttl r))
    (filter (λ r, is_opt r = false) rs) push.

Lemma emit_records_reads rs buf pos names buf' pos' names' :
  Forall record_ok rs → cmap_ok buf names → bytes_ok buf →
  emit_records rs (buf, pos, names) = (buf', pos', names') →
  Z.of_nat (length buf') ≤ 16384 →
  cmap_ok buf' names' ∧ bytes_ok buf' ∧
  reads_section record_parse_from record_eqv rs buf buf' ∧
  ∃ push, pos' = (λ l, l ++ push) <$> pos ∧
    ∀ post, ttls_reported rs (buf' ++ post) push.
Proof.
  intros Hrs. revert buf pos names. induction Hrs as [|r rs Hr Hrs IH];
    intros buf pos names Hmap Hbuf Hemit Hlen.
  - apply pair_equal_spec in Hemit as [[<- <-]%pair_equal_spec <-].
    split_and!; [done..|apply reads_section_nil|]. exists []. split; [|constructor].
    destruct pos; simpl; by rewrite ?app_nil_r.
  - change (emit_records rs (emit_record (buf, pos, names) r) = (buf', pos', names'))
      in Hemit.
    destruct (emit_record (buf, pos, names) r) as [[buf1 pos1] names1] eqn:E.
    destruct (state_appender_extends _ (buf1, pos1, names1) (state_appender_records rs))
      as [out Hout].
    rewrite Hemit in Hout. simpl in Hout. subst buf'.
    destruct (record_emit_reads _ _ _ _ _ _ _ Hr Hmap Hbuf E)
      as (o & off & _ & Hmap1 & Hbuf1 & -> & _ & Httl & Hread).
    { rewrite length_app in Hlen. lia. }
    destruct (IH buf1 _ names1 Hmap1 Hbuf1 Hemit Hlen)
      as (Hmap2 & Hbuf2 & Hreads & push & -> & Hpush).
    split_and!; [done..|by apply (reads_section_cons _ _ _ _ _ buf1 out)|].
    exists ((if is_opt r then [] else [(off, ttl r)]) ++ push). split.
    + unfold push_ttl, is_opt. destruct pos as [l|]; [|done].
      simpl. destruct (_ =? 41); simpl; by rewrite <-?(assoc_L (++)).
    + intros post. unfold ttls_reported. rewrite filter_cons.
      destruct (is_opt r) eqn:Ho; simpl; rewrite ?decide_False, ?decide_True by done.
      * apply Hpush.
      * constructor; [|apply Hpush]. simpl. split; [done|].
        rewrite <-(assoc_L (++)). apply Httl.
Qed.

Lemma header_to_bytes_ok h : bytes_ok (header_to_bytes h).
Proof. unfold header_to_bytes. rewrite !bytes_ok_app. auto 10 using u16_be_bytes. Qed.

(** The whole message: what every section reads as, and the positions. *)
Lemma to_bytes_reads p pos buf' pos' :
  packet_ok p → to_bytes_with_ttls p pos = (buf', pos') →
  Z.of_nat (length buf') ≤ 16384 →
  (∃ p', packet_parse buf' = Ok p' ∧ packet_eqv p' p) ∧
  ∃ push, pos' = (λ l, l ++ push) <$> pos ∧
    ttls_reported (answers p ++ authorities p ++ additionals p) buf' push.
Proof.
  intros [Hh Hqd Han Hns Har Hq Ha Hn Hr]. unfold to_bytes_with_ttls.
  set (b0 := header_to_bytes (header p)).
  destruct (emit_questions (questions p) b0 ∅) as [b1 m1] eqn:E1.
  destruct (emit_records (answers p) (b1, pos, m1)) as [[b2 p2] m2] eqn:E2.
  destruct (emit_records (authorities p) (b2, p2, m2)) as [[b3 p3] m3] eqn:E3.
  destruct (emit_records (additionals p) (b3, p3, m3)) as [[b4 p4] m4] eqn:E4.
  intros [= <- <-] Hlen.
  pose proof (appender_extends _ b0 ∅ (appender_questions (questions p))) as [o1 X1].
  pose proof (state_appender_extends _ (b1, pos, m1) (state_appender_records (answers p)))
    as [o2 X2].
  pose proof (state_appender_extends _ (b2, p2, m2) (state_appender_records (authorities p)))
    as [o3 X3].
  pose proof (state_appender_extends _ (b3, p3, m3) (state_appender_records (additionals p)))
    as [o4 X4].
  rewrite E1 in X1. rewrite E2 in X2. rewrite E3 in X3. rewrite E4 in X4. simpl in *.
  assert (Z.of_nat (length b3) ≤ 16384 ∧ Z.of_nat (length b2) ≤ 16384 ∧
    Z.of_nat (length b1) ≤ 16384) as (L3 & L2 & L1).
  { subst b4 b3 b2. rewrite !length_app in *. lia. }
  destruct (emit_questions_reads _ _ _ _ _ Hq (cmap_ok_empty _) (header_to_bytes_ok _)
    E1 L1) as (M1 & B1 & R1).
  destruct (emit_records_reads _ _ _ _ _ _ _ Ha M1 B1 E2 L2) as (M2 & B2 & R2 & u2 & -> & T2).
  destruct (emit_records_reads _ _ _ _ _ _ _ Hn M2 B2 E3 L3) as (M3 & B3 & R3 & u3 & -> & T3).
  destruct (emit_records_reads _ _ _ _ _ _ _ Hr M3 B3 E4 Hlen) as (M4 & B4 & R4 & u4 & -> & T4).
  assert (bytes_ok o4 ∧ bytes_ok (o3 ++ o4) ∧ bytes_ok (o2 ++ o3 ++ o4)) as (O4 & O3 & O2).
  { subst b4 b3 b2. rewrite !bytes_ok_app in *. tauto. }
  assert (b4 = b3 ++ o4 ∧ b4 = b2 ++ o3 ++ o4 ∧ b4 = b1 ++ o2 ++ o3 ++ o4 ∧
    b4 = b0 ++ o1 ++ o2 ++ o3 ++ o4) as (W3 & W2 & W1 & W0).
  { subst. by rewrite <-!(assoc_L (++)). }
  split.
  - destruct (R1 _ O2) as (q' & P1 & F1). destruct (R2 _ O3) as (a' & P2 & F2).
    destruct (R3 _ O4) as (n' & P3 & F3). destruct (R4 [] (Forall_nil_2 _)) as (r' & P4 & F4).
    rewrite app_nil_r in P4. rewrite <-W1 in P1. rewrite <-W2 in P2. rewrite <-W3 in P3.
    exists (dns_packet (header p) q' a' n' r'). split; [|by split].
    assert (header_parse b4 = Ok (header p)) as Hhd
      by (rewrite W0; by apply header_parse_to_bytes).
    unfold packet_parse. rewrite Hhd, Hqd, Han, Hns, Har, !Nat2Z.id.
    rewrite length_header_to_bytes in P1. cbv zeta. rewrite P1. cbn [fst snd]. rewrite P2.
    cbn [fst snd]. rewrite P3. cbn [fst snd]. by rewrite P4.
  - exists (u2 ++ u3 ++ u4). split; [destruct pos; simpl; by rewrite <-?(assoc_L (++))|].
    unfold ttls_reported. rewrite !filter_app.
    specialize (T2 (o3 ++ o4)). specialize (T3 o4). specialize (T4 []).
    rewrite app_nil_r in T4. rewrite <-W2 in T2. rewrite <-W3 in T3.
    apply Forall2_app; [done|]. by apply Forall2_app.
Qed.

Lemma to_bytes_with_ttls_fst p pos : (to_bytes_with_ttls p pos).1 = to_bytes p.
Proof.
  unfold to_bytes, to_bytes_with_ttls.
  destruct (emit_questions _ _ _) as [b m].
  destruct (state_appender_seq _ _ (state_appender_seq _ _
    (state_appender_records (answers p)) (state_appender_records (authorities p)))
    (state_appender_records (additionals p)) (length b) m) as (o & u & m' & H).
  by rewrite (H b pos), (H b None).
Qed.

(** C22: serializing a packet and parsing it gives the packet back: for every
    well-formed packet whose message is at most 16384 bytes, with names of at
    most ten labels, [parse] accepts what [to_bytes] writes, through name
    compression, the expansion of the names inside CNAME, NS, PTR, MX, SOA and
    SRV data and the patched data lengths, and returns the same header and the
    same records in every section, up to the case of names. *)
Theorem packet_roundtrip p :
  packet_ok p → Z.of_nat (length (to_bytes p)) ≤ 16384 →
  ∃ p', packet_parse (to_bytes p) = Ok p' ∧ packet_eqv p' p.
Proof.
  intros Hp Hlen. destruct (to_bytes_with_ttls p None) as [b u] eqn:E.
  unfold to_bytes in *. rewrite E in *.
  by destruct (to_bytes_reads _ _ _ _ Hp E Hlen).
Qed.

(** The TTL positions are exact: asking for them does not change the
    bytes, they are one for each record that is not an OPT record, in the
    order of the message, and at each position stand the four bytes of that
    record's TTL, so decrementing them in place touches nothing else. *)
Theorem ttl_positions_exact p :
  packet_ok p → Z.of_nat (length (to_bytes p)) ≤ 16384 →
  ∃ positions, to_bytes_with_ttls p (Some []) = (to_bytes p, Some positions) ∧
    Forall2 (λ r pos, pos.2 = ttl r ∧ slice (to_bytes p) pos.1 4 = u32_be (ttl r))
      (filter (λ r, is_opt r = false) (answers p ++ authorities p ++ additionals p))
      positions.
Proof.
  intros Hp Hlen. pose proof (to_bytes_with_ttls_fst p (Some [])) as Hfst.
  destruct (to_bytes_with_ttls p (Some [])) as [b u] eqn:E. simpl in Hfst. subst b.
  destruct (to_bytes_reads _ _ _ _ Hp E Hlen) as (_ & push & -> & Ht).
  exists push. split; [done|]. apply Ht.
Qed.

(** ** A packet with an OPT record *)

Definition ex_record (owner : list (list Z)) (k : DnsType) (data : list Z) : DnsResourceRecord :=
  dns_record (dns_domain_name owner 0 None) k C_IN 300 (Z.of_nat (length data)) data.

(** [www.a] is an alias of [a], which has a mail exchange [m.a]. *)
Definition ex_packet : DnsPacket :=
  dns_packet
    {| id := 7; qr := true; opcode := 0; aa := false; tc := false; rd := true;
       ra := true; z := 0; rcode := NoError; qdcount := 1; ancount := 2;
       nscount := 0; arcount := 1 |}
    [dns_question ex_www_a T_MX C_IN]
    [ex_record [[119; 119; 119]; [97]] T_CNAME (name_bytes [[97]]);
     ex_record [[97]] T_MX ([0; 5] ++ name_bytes [[109]; [97]])]
    []
    [dns_record name_default (T_Other 41) (C_Other 1232) 0x8000 0 []].

Ltac solve_name_ok :=
  split; simpl; try (unfold wire_len, MAX_POINTER_CHAIN; simpl; lia);
  repeat constructor; simpl; try lia; try done; set_solver.

Lemma ex_packet_ok : packet_ok ex_packet.
Proof.
  split; try done.
  - constructor; [|constructor]. split; [apply ex_name_ok|by split..].
  - repeat apply Forall_cons_2; [| |constructor].
    + split; try done; [solve_name_ok|].
      exists [], [[[97]]]. split_and!; [by constructor|constructor|].
      constructor; [solve_name_ok|constructor].
    + split; try done; [solve_name_ok|].
      exists [0; 5], [[[109]; [97]]]. split_and!; [by constructor|by repeat constructor|].
      constructor; [solve_name_ok|constructor].
  - constructor; [|constructor]. split; try done; [solve_name_ok|].
    exists [], []. split_and!; [by constructor|constructor..].
Qed.

(** The message is shorter than its names: the alias target and the exchange
    are pointers. *)
Lemma packet_roundtrip_witness :
  length (to_bytes ex_packet) = 66%nat ∧
  ∃ p', packet_parse (to_bytes ex_packet) = Ok p' ∧ packet_eqv p' ex_packet.
Proof.
  split; [reflexivity|].
  apply (packet_roundtrip ex_packet ex_packet_ok). vm_compute. done.
Defined.

Lemma ttl_positions_exact_witness :
  ∃ positions, to_bytes_with_ttls ex_packet (Some []) = (to_bytes ex_packet, Some positions) ∧
    Forall2 (λ r pos, pos.2 = ttl r ∧
        slice (to_bytes ex_packet) pos.1 4 = u32_be (ttl r))
      (filter (λ r, is_opt r = false)
        (answers ex_packet ++ authorities ex_packet ++ additionals ex_packet))
      positions.
Proof. apply (ttl_positions_exact ex_packet ex_packet_ok). vm_compute. done. Defined.

(** ** EDNS *)

(** The packet without its OPT records. *)
Definition strip_opt (p : DnsPacket) : DnsPacket :=
  dns_packet
    (header_with_arcount (header p) (u16_saturating_sub (arcount (header p))
      (as_u16 (Z.of_nat (length (filter is_opt (additionals p)))))))
    (questions p) (answers p) (authorities p)
    (filter (λ r, is_opt r = false) (additionals p)).

Lemma foldl_skip_opt rs st :
  foldl (λ st r, if is_opt r then st else emit_record st r) st rs =
  emit_records (filter (λ r, is_opt r = false) rs) st.
Proof.
  revert st. induction rs as [|r rs IH]; intros st; [done|]. simpl.
  rewrite IH, filter_cons. by destruct (is_opt r) eqn:E;
    [rewrite decide_False by done|rewrite decide_True by done].
Qed.

Lemma to_bytes_without_opt_strip p pos :
  to_bytes_without_opt p pos = to_bytes_with_ttls (strip_opt p) pos.
Proof.
  unfold to_bytes_without_opt, to_bytes_with_ttls, strip_opt. simpl.
  destruct (emit_questions _ _ _) as [b m]. by rewrite foldl_skip_opt.
Qed.

Lemma filter_opt_length rs :
  length rs = (length (filter is_opt rs) + length (filter (λ r, is_opt r = false) rs))%nat.
Proof.
  induction rs as [|r rs IH]; [done|]. rewrite !filter_cons.
  destruct (is_opt r) eqn:E; simpl; lia.
Qed.

Lemma header_with_arcount_ok h n :
  header_ok h → is_u16 n → header_ok (header_with_arcount h n).
Proof. intros [] Hn. by split. Qed.

Lemma strip_opt_ok p : packet_ok p → packet_ok (strip_opt p).
Proof.
  intros [Hh Hqd Han Hns Har Hq Ha Hn Hr].
  pose proof (filter_opt_length (additionals p)) as Hlen.
  assert (is_u16 (arcount (header p))) as Hu by apply Hh.
  assert (u16_saturating_sub (arcount (header p))
      (as_u16 (Z.of_nat (length (filter is_opt (additionals p))))) =
    Z.of_nat (length (filter (λ r, is_opt r = false) (additionals p)))) as Hc.
  { unfold is_u16 in Hu. rewrite as_u16_small by (unfold is_u16; lia).
    unfold u16_saturating_sub. lia. }
  split; try done; simpl.
  - apply header_with_arcount_ok; [done|]. rewrite Hc. unfold is_u16 in *. lia.
  - rewrite Forall_forall in Hr |- *. intros r [_ Hin]%list_elem_of_filter. by apply Hr.
Qed.

Lemma record_eqv_is_opt r r' : record_eqv r r' → is_opt r = is_opt r'.
Proof. intros (_ & Hk & _). unfold is_opt. by rewrite Hk. Qed.

Lemma find_opt_eqv rs rs' :
  Forall2 record_eqv rs rs' → option_Forall2 record_eqv (List.find is_opt rs) (List.find is_opt rs').
Proof.
  induction 1 as [|r r' rs rs' Hr _ IH]; simpl; [constructor|].
  rewrite (record_eqv_is_opt _ _ Hr). destruct (is_opt r'); [by constructor|done].
Qed.

Lemma find_app_none (rs rs' : list DnsResourceRecord) :
  List.find is_opt rs = None →
  List.find is_opt (rs ++ rs') = List.find is_opt rs'.
Proof.
  induction rs as [|r rs IH]; [done|]. simpl. by destruct (is_opt r).
Qed.

Lemma find_opt_none rs : List.find is_opt (filter (λ r, is_opt r = false) rs) = None.
Proof.
  induction rs as [|r rs IH]; [done|]. rewrite filter_cons.
  destruct (is_opt r) eqn:E; rewrite ?decide_False, ?decide_True by done; simpl;
    by rewrite ?E.
Qed.

(** The OPT free serialization drops exactly the OPT records: it is the
    serialization of the packet without them, whose record count agrees with
    what follows, and what [parse] reads from it is that packet, which has no
    EDNS. *)
Theorem to_bytes_without_opt_correct p pos :
  packet_ok p → Z.of_nat (length (to_bytes_without_opt p pos).1) ≤ 16384 →
  to_bytes_without_opt p pos = to_bytes_with_ttls (strip_opt p) pos ∧
  ∃ p', packet_parse (to_bytes_without_opt p pos).1 = Ok p' ∧
    packet_eqv p' (strip_opt p) ∧ has_edns p' = false.
Proof.
  intros Hp. rewrite to_bytes_without_opt_strip. intros Hlen. split; [done|].
  destruct (to_bytes_with_ttls (strip_opt p) pos) as [b u] eqn:E.
  destruct (to_bytes_reads _ _ _ _ (strip_opt_ok p Hp) E Hlen) as ((p' & Hparse & He) & _).
  exists p'. split_and!; [done|done|].
  pose proof (find_opt_eqv _ _ (pe_additionals _ _ He)) as Hf. simpl in Hf.
  rewrite find_opt_none in Hf. unfold has_edns, opt_record. by inversion Hf.
Qed.

Lemma to_bytes_without_opt_correct_witness :
  ∃ p', packet_parse (to_bytes_without_opt ex_packet None).1 = Ok p' ∧
    packet_eqv p' (strip_opt ex_packet) ∧ has_edns p' = false.
Proof.
  apply (to_bytes_without_opt_correct ex_packet None ex_packet_ok). vm_compute. done.
Defined.

Definition opt_ack (size : Z) (d : bool) : DnsResourceRecord :=
  dns_record name_default (T_Other 41) (C_Other size) (if d then 0x8000 else 0) 0 [].

Definition opt_ack_bytes (size : Z) (d : bool) : list Z :=
  [0] ++ u16_be 41 ++ u16_be size ++ u32_be (if d then 0x8000 else 0) ++ u16_be 0.

Lemma append_opt_ack_eq h body size d :
  is_u16 (arcount h) →
  append_opt_ack (header_to_bytes h ++ body) size d =
  header_to_bytes (header_with_arcount h (u16_saturating_add (arcount h) 1)) ++
    body ++ opt_ack_bytes size d.
Proof.
  intros Hu. unfold append_opt_ack.
  set (pre := u16_be (id h) ++ u16_be (header_flags h) ++ u16_be (qdcount h) ++
    u16_be (ancount h) ++ u16_be (nscount h)).
  set (tl := body ++ opt_ack_bytes size d).
  assert (((((header_to_bytes h ++ body) ++ [0]) ++ u16_be (type_to_u16 (T_Other 41))) ++
     u16_be size) ++ u32_be (if d then 32768 else 0) = 
     header_to_bytes h ++ body ++ [0] ++ u16_be 41 ++ u16_be size ++
     u32_be (if d then 32768 else 0)) as -> by (by rewrite <-!(assoc_L (++))).
  assert ((header_to_bytes h ++ body ++ [0] ++ u16_be 41 ++ u16_be size ++
     u32_be (if d then 32768 else 0)) ++ u16_be 0 = pre ++ u16_be (arcount h) ++ tl) as ->.
  { unfold header_to_bytes, pre, tl, opt_ack_bytes. by rewrite <-!(assoc_L (++)). }
  rewrite (proj2 (Nat.leb_le _ _))
    by (rewrite !length_app; simpl; unfold HEADER_LEN; lia).
  rewrite be16_at_mid by done.
  change 10%nat with (length pre). rewrite put_u16_mid.
  unfold pre, tl, header_to_bytes. by rewrite <-!(assoc_L (++)).
Qed.

Lemma emit_opt_ack size d buf pos names :
  emit_record (buf, pos, names) (opt_ack size d) = (buf ++ opt_ack_bytes size d, pos, names).
Proof.
  unfold emit_record.
  destruct (record_emit_compressed_eq (opt_ack size d) buf pos names (buf ++ [0]) names)
    as (out & n2 & Hr & Heq); [done|]. cbn [fst snd]. rewrite Heq. clear Heq.
  specialize (Hr 0). unfold emit_rdata_to_compressed in Hr. simpl in Hr.
  apply pair_equal_spec in Hr as [Hout <-]. apply app_inv_head in Hout as <-.
  f_equal; f_equal; [|by destruct pos].
  rewrite app_nil_r. unfold opt_ack_bytes. by rewrite <-!(assoc_L (++)).
Qed.

Lemma emit_records_snoc rs r st :
  emit_records (rs ++ [r]) st = emit_record (emit_records rs st) r.
Proof. unfold emit_records. by rewrite foldl_snoc. Qed.

(** Everything behind the header. *)
Lemma to_bytes_body p :
  ∃ body, ∀ h ar, to_bytes (dns_packet h (questions p) (answers p) (authorities p)
      (additionals p ++ ar)) =
    (emit_records ar (header_to_bytes h ++ body.1, None, body.2)).1.1.
Proof.
  destruct (appender_questions (questions p) HEADER_LEN ∅) as (o1 & m1 & H1).
  destruct (state_appender_seq _ _ (state_appender_seq _ _
    (state_appender_records (answers p)) (state_appender_records (authorities p)))
    (state_appender_records (additionals p)) (HEADER_LEN + length o1)%nat m1)
    as (o2 & u & m2 & H2).
  exists (o1 ++ o2, m2). intros h ar. unfold to_bytes, to_bytes_with_ttls.
  cbn [header questions answers authorities additionals].
  rewrite H1 by apply length_header_to_bytes.
  unfold emit_records at 1. rewrite foldl_app. fold (emit_records (additionals p)).
  change (foldl emit_record ?s ar) with (emit_records ar s).
  change (foldl emit_record ?s (additionals p)) with (emit_records (additionals p) s).
  rewrite H2 by (by rewrite length_app). cbn [fst snd]. by rewrite <-(assoc_L (++)).
Qed.

Lemma append_opt_ack_add p size d :
  is_u16 (arcount (header p)) →
  append_opt_ack (to_bytes p) size d = to_bytes (add_opt_record p size d).
Proof.
  intros Hu. destruct (to_bytes_body p) as [[body m] Hb]. cbn [fst snd] in Hb.
  pose proof (Hb (header p) []) as H0. rewrite app_nil_r in H0.
  replace (dns_packet (header p) (questions p) (answers p) (authorities p) (additionals p))
    with p in H0 by (by destruct p). rewrite H0.
  change (emit_records [] ?s) with s. cbn [fst snd].
  rewrite append_opt_ack_eq by done. unfold add_opt_record. rewrite Hb.
  change (emit_records [_] ?s) with (emit_record s (opt_ack size d)).
  rewrite emit_opt_ack. cbn [fst snd]. by rewrite <-(assoc_L (++)).
Qed.

Lemma class_from_u16_other v : 5 ≤ v → class_from_u16 v = C_Other v.
Proof.
  intros H. unfold class_from_u16. destruct v as [|q|q]; [lia| |lia].
  do 3 (destruct q as [q|q|]; try done; try lia).
Qed.

Lemma add_opt_record_ok p size d :
  packet_ok p → 512 ≤ size < 65536 → arcount (header p) < 65535 →
  packet_ok (add_opt_record p size d).
Proof.
  intros [Hh Hqd Han Hns Har Hq Ha Hn Hr] Hs Hlt.
  assert (u16_saturating_add (arcount (header p)) 1 = arcount (header p) + 1) as Hc
    by (unfold u16_saturating_add; lia).
  split; try done; simpl; rewrite ?Hc.
  - apply header_with_arcount_ok; [done|]. pose proof (ok_arcount _ Hh). unfold is_u16 in *. lia.
  - simpl. rewrite length_app. simpl. lia.
  - apply Forall_app. split; [done|]. constructor; [|constructor].
    split; try done; [solve_name_ok| | |].
    + split; [unfold is_u16; simpl; lia|]. apply (class_from_u16_other size). lia.
    + by destruct d.
    + exists [], []. split_and!; [by constructor|constructor..].
Qed.

(** Acknowledging EDNS on a cached response is what adding the OPT record
    to the packet is.  On the bytes of any packet [append_opt_ack] gives the
    bytes of [add_opt_record]; and replaying a response stored without its OPT
    record, with the acknowledgement appended, parses as the stored response
    with exactly one OPT record, which carries the DO bit and the payload size
    asked for and no extended code. *)
Theorem opt_ack_replay p size d :
  packet_ok p → 512 ≤ size < 65536 → arcount (header p) < 65535 →
  let bytes := append_opt_ack (to_bytes_without_opt p None).1 size d in
  Z.of_nat (length bytes) ≤ 16384 →
  append_opt_ack (to_bytes p) size d = to_bytes (add_opt_record p size d) ∧
  ∃ p', packet_parse bytes = Ok p' ∧
    packet_eqv p' (add_opt_record (strip_opt p) size d) ∧
    dnssec_ok p' = d ∧ edns_udp_payload_size p' = Some size ∧ extended_rcode p' = 0.
Proof.
  intros Hp Hsize Hlt bytes. pose proof (strip_opt_ok p Hp) as Hs.
  assert (is_u16 (arcount (header p))) as Hu by (apply ok_arcount, Hp).
  assert (is_u16 (arcount (header (strip_opt p)))) as Hus by (apply ok_arcount, Hs).
  unfold bytes. rewrite to_bytes_without_opt_strip.
  change (to_bytes_with_ttls (strip_opt p) None).1 with (to_bytes (strip_opt p)).
  rewrite !append_opt_ack_add by done. intros Hlen. split; [done|].
  assert (arcount (header (strip_opt p)) < 65535) as Hlts.
  { simpl. unfold u16_saturating_sub. pose proof (Z.mod_pos_bound
      (Z.of_nat (length (filter is_opt (additionals p)))) 65536). unfold as_u16, is_u16 in *. lia. }
  destruct (to_bytes_with_ttls (add_opt_record (strip_opt p) size d) None) as [b u] eqn:E.
  unfold to_bytes in Hlen |- *. rewrite E in Hlen |- *.
  destruct (to_bytes_reads _ _ _ _ (add_opt_record_ok _ _ d Hs Hsize Hlts) E Hlen)
    as ((p' & Hparse & He) & _).
  exists p'. split_and!; [done|done| ..];
    pose proof (find_opt_eqv _ _ (pe_additionals _ _ He)) as Hf; simpl in Hf;
    unfold dnssec_ok, edns_udp_payload_size, extended_rcode, opt_record;
    rewrite find_app_none in Hf by apply find_opt_none; simpl in Hf;
    inversion Hf as [r r' (_ & _ & Hclass & Httl & _)| ]; simpl in *;
    rewrite ?Httl, ?Hclass; by destruct d.
Qed.

Lemma opt_ack_replay_witness :
  ∃ p', packet_parse (append_opt_ack (to_bytes_without_opt ex_packet None).1 4096 true) = Ok p' ∧
    packet_eqv p' (add_opt_record (strip_opt ex_packet) 4096 true) ∧
    dnssec_ok p' = true ∧ edns_udp_payload_size p' = Some 4096 ∧ extended_rcode p' = 0.
Proof.
  apply (opt_ack_replay ex_packet 4096 true ex_packet_ok).
  - lia.
  - done.
  - vm_compute. done.
Defined.
