(* ===== verification/NetAddr.v ===== *)
(** * NetAddr: the IP addresses of [std::net] as the schema uses them

    [IpAddr::from_str], [Ipv4Addr::from_str], [Display for IpAddr] and the
    integer [FromStr] of the Rust standard library, on strings.  An address is
    its bits.  The theorem other files rest on is [ip_parse_display]: what is
    displayed is parsed back. *)

From Stdlib Require Export Ascii.
From S2P Require Export Prelude Bytes.

#[local] Open Scope Z_scope.

Inductive IpAddr : Type :=
| V4 (bits : Z)
| V6 (bits : Z).

#[export] Instance IpAddr_eq_dec : EqDecision IpAddr.
Proof. solve_decision. Defined.

Definition is_ipv6 (ip : IpAddr) : bool := match ip with V6 _ => true | V4 _ => false end.
Definition is_ipv4 (ip : IpAddr) : bool := negb (is_ipv6 ip).

Definition ip_ok (ip : IpAddr) : Prop :=
  match ip with
  | V4 n => 0 ≤ n < 2 ^ 32
  | V6 n => 0 ≤ n < 2 ^ 128
  end.

(** The [k] digits of [n] in base [b], most significant first. *)
Fixpoint digits (b : Z) (k : nat) (n : Z) : list Z :=
  match k with
  | O => []
  | S k' => digits b k' (n / b) ++ [n mod b]
  end.

Definition undigits (b : Z) (l : list Z) : Z := foldl (λ acc d, acc * b + d) 0 l.

Definition octets (n : Z) : list Z := digits 256 4 n.
Definition segments (n : Z) : list Z := digits 65536 8 n.

(** ** Characters *)

Definition digit_char (d : Z) : ascii :=
  ascii_of_N (Z.to_N (if d <? 10 then 48 + d else 87 + d)).

(** [char::to_digit]. *)
Definition to_digit (radix : Z) (c : ascii) : option Z :=
  let n := Z.of_N (N_of_ascii c) in
  let d := if (48 <=? n) && (n <=? 57) then n - 48
           else if (97 <=? n) && (n <=? 122) then n - 87
           else if (65 <=? n) && (n <=? 90) then n - 55
           else radix in
  if d <? radix then Some d else None.

(** [Display] of a [u8], and [{:x}] of a [u16]. *)
Definition dec_digits (n : Z) : list Z :=
  if n <? 10 then [n]
  else if n <? 100 then [n / 10; n mod 10]
  else [n / 100; n / 10 mod 10; n mod 10].

Definition hex_digits (n : Z) : list Z :=
  if n <? 16 then [n]
  else if n <? 256 then [n / 16; n mod 16]
  else if n <? 4096 then [n / 256; n / 16 mod 16; n mod 16]
  else [n / 4096; n / 256 mod 16; n / 16 mod 16; n mod 16].

Definition digits_string (ds : list Z) : string :=
  foldr (λ d s, String (digit_char d) s) "" ds.

Definition dec_string (n : Z) : string := digits_string (dec_digits n).
Definition hex_string (n : Z) : string := digits_string (hex_digits n).

(** [str::contains(char)], [str::split(char)]. *)
Fixpoint str_contains (c : ascii) (s : string) : bool :=
  match s with
  | "" => false
  | String a s' => Ascii.eqb a c || str_contains c s'
  end.

Fixpoint str_split (c : ascii) (s : string) : list string :=
  match s with
  | "" => [""]
  | String a s' =>
      if Ascii.eqb a c then "" :: str_split c s'
      else match str_split c s' with
           | [] => [String a ""]
           | p :: ps => String a p :: ps
           end
  end.

(** ** The parser of [std::net] *)

Fixpoint read_digits (radix : Z) (s : string) : list Z * string :=
  match s with
  | "" => ([], "")
  | String c s' =>
      match to_digit radix c with
      | Some d => let '(ds, rest) := read_digits radix s' in (d :: ds, rest)
      | None => ([], s)
      end
  end.

Definition read_number (radix : Z) (max_digits : nat) (max : Z)
    (allow_zero_prefix : bool) (s : string) : option (Z * string) :=
  let '(ds, rest) := read_digits radix s in
  let result := undigits radix ds in
  if (max_digits <? length ds)%nat then None
  else if (length ds =? 0)%nat then None
  else if negb allow_zero_prefix &&
          bool_decide (head ds = Some 0) && (1 <? length ds)%nat then None
  else if max <? result then None
  else Some (result, rest).

Definition read_given_char (c : ascii) (s : string) : option string :=
  match s with
  | String a s' => if Ascii.eqb a c then Some s' else None
  | "" => None
  end.

Definition read_separator {A} (sep : ascii) (index : nat)
    (inner : string → option (A * string)) (s : string) : option (A * string) :=
  if (0 <? index)%nat then
    match read_given_char sep s with Some s' => inner s' | None => None end
  else inner s.

Definition dot : ascii := "."%char.
Definition colon : ascii := ":"%char.

Fixpoint read_octets (n i : nat) (s : string) : option (list Z * string) :=
  match n with
  | O => Some ([], s)
  | S n' =>
      match read_separator dot i (read_number 10 3 255 false) s with
      | Some (g, s') =>
          match read_octets n' (i + 1) s' with
          | Some (gs, s'') => Some (g :: gs, s'')
          | None => None
          end
      | None => None
      end
  end.

(** The four octets. *)
Definition read_ipv4_addr (s : string) : option (list Z * string) := read_octets 4 0 s.

(** [read_groups]: [n] groups are still allowed, [i] have been read. *)
Fixpoint read_groups (n i : nat) (s : string) : list Z * bool * string :=
  match n with
  | O => ([], false, s)
  | S n' =>
      let ipv4 := if (n' =? 0)%nat then None
                  else read_separator colon i read_ipv4_addr s in
      match ipv4 with
      | Some (o, s') =>
          ([from_be16 (nth 0 o 0) (nth 1 o 0); from_be16 (nth 2 o 0) (nth 3 o 0)],
           true, s')
      | None =>
          match read_separator colon i (read_number 16 4 65535 true) s with
          | Some (g, s') =>
              let '(gs, v4, s'') := read_groups n' (i + 1) s' in (g :: gs, v4, s'')
          | None => ([], false, s)
          end
      end
  end.

Definition read_ipv6_addr (s : string) : option (list Z * string) :=
  let '(head, head_ipv4, s) := read_groups 8 0 s in
  if (length head =? 8)%nat then Some (head, s)
  else if head_ipv4 then None
  else
    match read_given_char colon s with
    | None => None
    | Some s =>
        match read_given_char colon s with
        | None => None
        | Some s =>
            let limit := (8 - (length head + 1))%nat in
            let '(tail, _, s) := read_groups limit 0 s in
            Some (head ++ replicate (8 - length head - length tail) 0 ++ tail, s)
        end
    end.

(** [IpAddr::from_str]. *)
Definition ip_from_str (s : string) : option IpAddr :=
  match read_ipv4_addr s with
  | Some (o, rest) =>
      match rest with "" => Some (V4 (undigits 256 o)) | _ => None end
  | None =>
      match read_ipv6_addr s with
      | Some (g, rest) =>
          match rest with "" => Some (V6 (undigits 65536 g)) | _ => None end
      | None => None
      end
  end.

(** [Ipv4Addr::from_str]: longer than any IPv4 address is refused at once. *)
Definition ipv4_from_str (s : string) : option Z :=
  if (15 <? String.length s)%nat then None
  else
    match read_ipv4_addr s with
    | Some (o, "") => Some (undigits 256 o)
    | _ => None
    end.

(** [usize::from_str], [u8::from_str] and [i32::from_str]: an optional sign,
    digits only, no overflow. *)
Definition parse_digits (max : Z) (s : string) : option Z :=
  let '(ds, rest) := read_digits 10 s in
  match rest with
  | "" => if (length ds =? 0)%nat then None
          else if max <? undigits 10 ds then None else Some (undigits 10 ds)
  | _ => None
  end.

Definition parse_unsigned (max : Z) (s : string) : option Z :=
  match s with
  | String "+" s' => parse_digits max s'
  | _ => parse_digits max s
  end.

Definition USIZE_MAX : Z := 2 ^ 64 - 1.

Definition parse_i32 (s : string) : option Z :=
  match s with
  | String "-" s' => Z.opp <$> parse_digits (2 ^ 31) s'
  | _ => parse_unsigned (2 ^ 31 - 1) s
  end.

(** ** [Display] *)

Fixpoint join_string (sep : string) (l : list string) : string :=
  match l with
  | [] => ""
  | [x] => x
  | x :: l' => (x ++ sep ++ join_string sep l')%string
  end.

Definition ipv4_display (o : list Z) : string := join_string "." (dec_string <$> o).

(** [fmt_subslice]. *)
Definition fmt_subslice (g : list Z) : string := join_string ":" (hex_string <$> g).

(** The loop that finds the longest run of zero segments: the first of the
    longest ones, as (start, length). *)
Fixpoint zero_span (l : list Z) (i : nat) (current longest : nat * nat) : nat * nat :=
  match l with
  | [] => longest
  | g :: l' =>
      if g =? 0 then
        let current := ((if (current.2 =? 0)%nat then i else current.1), (current.2 + 1)%nat) in
        zero_span l' (i + 1) current
          (if (longest.2 <? current.2)%nat then current else longest)
      else zero_span l' (i + 1) (0, 0)%nat longest
  end.

(** [to_ipv4_mapped]. *)
Definition to_ipv4_mapped (g : list Z) : option (list Z) :=
  match g with
  | [0; 0; 0; 0; 0; 0xffff; ab; cd] => Some (digits 256 2 ab ++ digits 256 2 cd)
  | _ => None
  end.

Definition ipv6_display (g : list Z) : string :=
  match to_ipv4_mapped g with
  | Some o => ("::ffff:" ++ ipv4_display o)%string
  | None =>
      let zeroes := zero_span g 0 (0, 0)%nat (0, 0)%nat in
      if (1 <? zeroes.2)%nat then
        (fmt_subslice (take zeroes.1 g) ++ "::" ++
         fmt_subslice (drop (zeroes.1 + zeroes.2) g))%string
      else fmt_subslice g
  end.

Definition ip_display (ip : IpAddr) : string :=
  match ip with
  | V4 n => ipv4_display (octets n)
  | V6 n => ipv6_display (segments n)
  end.

Example ip_ex1 : ip_from_str "2001:DB8::0:1" = Some (V6 (0x20010db8 * 2 ^ 96 + 1)).
Proof. reflexivity. Qed.
Example ip_ex2 : ip_display (V6 (0x20010db8 * 2 ^ 96 + 1)) = "2001:db8::1".
Proof. reflexivity. Qed.
Example ip_ex3 : ip_from_str "192.168.01.1" = None.
Proof. reflexivity. Qed.
Example ip_ex4 : ip_from_str "::ffff:10.0.0.1" = Some (V6 (0xffff0a000001)).
Proof. reflexivity. Qed.
Example ip_ex5 : ip_display (V6 0xffff0a000001) = "::ffff:10.0.0.1".
Proof. reflexivity. Qed.

(** ** Digits *)

Lemma undigits_snoc b l d : undigits b (l ++ [d]) = undigits b l * b + d.
Proof. unfold undigits. by rewrite foldl_app. Qed.

Lemma length_digits b k n : length (digits b k n) = k.
Proof.
  revert n. induction k as [|k IH]; intros n; [done|]. simpl.
  rewrite length_app, IH. simpl. lia.
Qed.

Lemma undigits_digits b k n :
  0 < b → 0 ≤ n < b ^ Z.of_nat k → undigits b (digits b k n) = n.
Proof.
  intros Hb. revert n. induction k as [|k IH]; intros n Hn.
  - simpl. change (b ^ Z.of_nat 0) with 1 in Hn. unfold undigits. simpl. lia.
  - cbn [digits]. rewrite Nat2Z.inj_succ, Z.pow_succ_r in Hn by lia.
    rewrite undigits_snoc, IH.
    + pose proof (Z.div_mod n b). lia.
    + split; [apply Z.div_pos; lia|]. apply Z.div_lt_upper_bound; lia.
Qed.

Lemma digits_range b k n : 0 < b → Forall (λ d, 0 ≤ d < b) (digits b k n).
Proof.
  intros Hb. revert n. induction k as [|k IH]; intros n; simpl; [constructor|].
  apply Forall_app. split; [done|]. constructor; [|constructor].
  by apply Z.mod_pos_bound.
Qed.

(** ** Reading what was written *)

Lemma string_app_nil (s : string) : (s ++ "")%string = s.
Proof. induction s as [|c s IH]; [done|]. exact (f_equal (String c) IH). Qed.

Lemma string_app_assoc (a b c : string) : (a ++ b ++ c)%string = ((a ++ b) ++ c)%string.
Proof. induction a as [|x a IH]; [done|]. exact (f_equal (String x) IH). Qed.

(** No digit in base [radix] comes first. *)
Definition no_digit (radix : Z) (s : string) : Prop :=
  match s with String c _ => to_digit radix c = None | "" => True end.

Lemma read_digits_string radix ds rest :
  Forall (λ d, to_digit radix (digit_char d) = Some d) ds → no_digit radix rest →
  read_digits radix (digits_string ds ++ rest) = (ds, rest).
Proof.
  intros H Hr. induction H as [|d ds Hd _ IH]; simpl.
  - destruct rest as [|c rest]; [done|]. simpl in *. by rewrite Hr.
  - by rewrite Hd, IH.
Qed.

Lemma digit_chars_ok radix :
  radix = 10 ∨ radix = 16 → ∀ d, 0 ≤ d < radix → to_digit radix (digit_char d) = Some d.
Proof.
  intros Hr d Hd.
  assert (bool_decide (to_digit radix (digit_char d) = Some d) = true) as H.
  { destruct Hr as [-> | ->].
    - pose (P d := (10 <=? d) || bool_decide (to_digit 10 (digit_char d) = Some d)).
      assert (P d = true) as HP by (apply (all_bits_spec 4 P 0); [vm_compute; reflexivity|lia]).
      unfold P in HP. apply orb_true_iff in HP as [?%Z.leb_le|?]; [lia|done].
    - pose (P d := bool_decide (to_digit 16 (digit_char d) = Some d)).
      by assert (P d = true) as HP
        by (apply (all_bits_spec 4 P 0); [vm_compute; reflexivity|lia]). }
  by apply bool_decide_eq_true in H.
Qed.

(** The checks of [read_number] on the digits of one number. *)
Definition number_digits_ok (radix : Z) (max_digits : nat) (max : Z) (zero : bool)
    (n : Z) (ds : list Z) : bool :=
  forallb (λ d, (0 <=? d) && (d <? radix)) ds && (length ds <=? max_digits)%nat &&
  negb (length ds =? 0)%nat &&
  negb (negb zero && bool_decide (head ds = Some 0) && (1 <? length ds)%nat) &&
  (n <=? max) && (undigits radix ds =? n).

Lemma read_number_digits radix max_digits max zero n ds rest :
  radix = 10 ∨ radix = 16 →
  number_digits_ok radix max_digits max zero n ds = true → no_digit radix rest →
  read_number radix max_digits max zero (digits_string ds ++ rest) = Some (n, rest).
Proof.
  unfold number_digits_ok. intros Hr H Hrest.
  apply andb_true_iff in H as [[[[[Hds Hlen]%andb_true_iff Hne]%andb_true_iff
    Hz]%andb_true_iff Hmax]%andb_true_iff Hn%Z.eqb_eq].
  unfold read_number. rewrite read_digits_string; [| |done].
  - apply negb_true_iff in Hne, Hz. apply Nat.leb_le in Hlen. apply Z.leb_le in Hmax.
    rewrite (proj2 (Nat.ltb_ge _ _)), Hne, Hz, Hn by done.
    by rewrite (proj2 (Z.ltb_ge _ _)).
  - rewrite forallb_forall in Hds. apply Forall_forall. intros d Hin.
    apply digit_chars_ok; [done|]. apply list_elem_of_In, Hds in Hin. bool_hyps. lia.
Qed.

Lemma read_dec n rest :
  0 ≤ n < 256 → no_digit 10 rest →
  read_number 10 3 255 false (dec_string n ++ rest) = Some (n, rest).
Proof.
  intros Hn. apply read_number_digits; [by left|].
  apply (all_bits_spec 8 (λ n, number_digits_ok 10 3 255 false n (dec_digits n)) 0);
    [vm_compute; reflexivity|lia].
Qed.

Lemma read_hex n rest :
  0 ≤ n < 65536 → no_digit 16 rest →
  read_number 16 4 65535 true (hex_string n ++ rest) = Some (n, rest).
Proof.
  intros Hn. apply read_number_digits; [by right|].
  apply (all_bits_spec 16 (λ n, number_digits_ok 16 4 65535 true n (hex_digits n)) 0);
    [vm_compute; reflexivity|lia].
Qed.

Lemma parse_dec max n :
  0 ≤ n < 256 → n ≤ max → parse_unsigned max (dec_string n) = Some n.
Proof.
  intros Hn Hmax. assert (parse_digits max (dec_string n) = Some n) as Hp.
  { unfold parse_digits.
    pose (P n := number_digits_ok 10 3 255 false n (dec_digits n)).
    assert (P n = true) as H by (apply (all_bits_spec 8 P 0); [vm_compute; reflexivity|lia]).
    unfold P, number_digits_ok in H.
    apply andb_true_iff in H as [[[[[Hds Hlen]%andb_true_iff Hne]%andb_true_iff
      Hz]%andb_true_iff _]%andb_true_iff Hv%Z.eqb_eq].
    unfold dec_string. rewrite <-(string_app_nil (digits_string _)).
    rewrite read_digits_string; [|rewrite forallb_forall in Hds; apply Forall_forall;
      intros d Hin; apply digit_chars_ok; [by left|]; apply list_elem_of_In, Hds in Hin;
      bool_hyps; lia|done].
    apply negb_true_iff in Hne. rewrite Hne, Hv. by rewrite (proj2 (Z.ltb_ge _ _)). }
  unfold parse_unsigned.
  pose (Q n := match dec_string n with String "+" _ => false | _ => true end).
  assert (Q n = true) as H by (apply (all_bits_spec 8 Q 0); [vm_compute; reflexivity|lia]).
  unfold Q in H. destruct (dec_string n) as [|[[] [] [] [] [] [] [] []] s]; done.
Qed.

(** ** IPv4 *)

Lemma dec_string_no_char c n :
  to_digit 10 c = None → 0 ≤ n < 256 → str_contains c (dec_string n) = false.
Proof.
  intros Hc Hn.
  assert (Forall (λ d, 0 ≤ d < 10) (dec_digits n)) as Hd.
  { unfold dec_digits. repeat case_match; bool_hyps; repeat constructor; zlia. }
  unfold dec_string. induction Hd as [|d ds Hd _ IH]; [done|]. simpl. rewrite IH.
  destruct (Ascii.eqb_spec (digit_char d) c) as [<-|]; [|done].
  by rewrite (digit_chars_ok 10) in Hc by auto.
Qed.

Lemma read_octets_display i o rest :
  Forall (λ d, 0 ≤ d < 256) o → no_digit 10 rest →
  read_octets (length o) i
    ((if (0 <? i)%nat && negb (length o =? 0)%nat then "." else "") ++
     ipv4_display o ++ rest)%string = Some (o, rest).
Proof.
  intros Ho Hrest. revert i. induction Ho as [|d o Hd Ho IH]; intros i.
  - simpl. by rewrite andb_false_r.
  - specialize (IH (i + 1)%nat).
    rewrite (proj2 (Nat.ltb_lt 0 (i + 1))) in IH by lia.
    simpl negb. rewrite andb_true_r. cbn [length read_octets].
    assert (∀ tl, no_digit 10 tl →
      read_separator dot i (read_number 10 3 255 false)
        ((if (0 <? i)%nat then "." else "") ++ dec_string d ++ tl)%string =
      Some (d, tl)) as Hread.
    { intros tl Htl. unfold read_separator. destruct (0 <? i)%nat; simpl;
        by apply read_dec. }
    destruct o as [|d' o].
    + change (ipv4_display [d]) with (dec_string d). by rewrite (Hread rest Hrest).
    + assert (ipv4_display (d :: d' :: o) =
        (dec_string d ++ "." ++ ipv4_display (d' :: o))%string) as -> by done.
      rewrite <-!string_app_assoc, Hread by done.
      assert (read_octets (length (d' :: o)) (i + 1)
        ("." ++ ipv4_display (d' :: o) ++ rest)%string = Some (d' :: o, rest)) as ->
        by exact IH.
      done.
Qed.

Lemma read_ipv4_display o rest :
  length o = 4%nat → Forall (λ d, 0 ≤ d < 256) o → no_digit 10 rest →
  read_ipv4_addr (ipv4_display o ++ rest) = Some (o, rest).
Proof.
  intros Hl Ho Hr. pose proof (read_octets_display 0 o rest Ho Hr) as H.
  by rewrite Hl in H.
Qed.

(** ** IPv6 *)

Lemma read_digits_contains radix c s ds rest :
  read_digits radix s = (ds, rest) → str_contains c s = false →
  str_contains c rest = false.
Proof.
  revert ds rest. induction s as [|a s IH]; intros ds rest; simpl.
  - by intros [= <- <-].
  - intros H Hc. apply orb_false_iff in Hc as [Ha Hc].
    destruct (to_digit radix a).
    + destruct (read_digits radix s) as [ds' rest'] eqn:E. injection H as <- <-.
      by eapply IH.
    + injection H as <- <-. simpl. by rewrite Ha, Hc.
Qed.

(** Without a dot there is no IPv4 address. *)
Lemma read_ipv4_no_dot s : str_contains dot s = false → read_ipv4_addr s = None.
Proof.
  intros Hs. unfold read_ipv4_addr. cbn [read_octets]. unfold read_separator at 1. simpl.
  unfold read_number at 1. destruct (read_digits 10 s) as [ds rest] eqn:E.
  eapply read_digits_contains in E; [|done].
  destruct (3 <? length ds)%nat; [done|]. destruct (length ds =? 0)%nat; [done|].
  destruct (_ && _ && _); [done|]. destruct (255 <? _); [done|].
  assert (∀ A (inner : string → option (A * string)), read_separator dot 1 inner rest = None)
    as ->; [|done].
  intros A inner. unfold read_separator. simpl. destruct rest as [|a rest]; [done|].
  simpl in *. apply orb_false_iff in E as [-> _]. done.
Qed.

(** The groups [gs], the [i]-th to be read being the first. *)
Fixpoint groups_string (i : nat) (gs : list Z) : string :=
  match gs with
  | [] => ""
  | g :: gs' =>
      ((if (0 <? i)%nat then ":" else "") ++ hex_string g ++ groups_string (i + 1) gs')%string
  end.

Lemma groups_string_fmt gs : groups_string 0 gs = fmt_subslice gs.
Proof.
  assert (∀ i g gs, groups_string (S i) (g :: gs) = (":" ++ fmt_subslice (g :: gs))%string)
    as H.
  { intros i g gs'. revert i g. induction gs' as [|g' gs' IH]; intros i g.
    - cbn [groups_string]. simpl. by rewrite string_app_nil.
    - change (groups_string (S i) (g :: g' :: gs')) with
        (":" ++ hex_string g ++ groups_string (S (i + 1)) (g' :: gs'))%string.
      by rewrite IH. }
  destruct gs as [|g gs]; [done|]. destruct gs as [|g' gs].
  - simpl. by rewrite string_app_nil.
  - change (groups_string 0 (g :: g' :: gs)) with
      (hex_string g ++ groups_string 1 (g' :: gs))%string.
    by rewrite H.
Qed.

Lemma str_contains_app c (s t : string) :
  str_contains c (s ++ t) = str_contains c s || str_contains c t.
Proof.
  induction s as [|a s IH]; [done|]. change ((String a s ++ t)%string) with
    (String a (s ++ t)). simpl. by rewrite IH, orb_assoc.
Qed.

Lemma hex_no_dot g : 0 ≤ g < 65536 → str_contains dot (hex_string g) = false.
Proof.
  intros Hg. apply negb_true_iff.
  apply (all_bits_spec 16 (λ g, negb (str_contains dot (hex_string g))) 0);
    [vm_compute; reflexivity|lia].
Qed.

Lemma groups_no_dot i gs :
  Forall (λ g, 0 ≤ g < 65536) gs → str_contains dot (groups_string i gs) = false.
Proof.
  intros H. revert i. induction H as [|g gs Hg _ IH]; intros i; simpl; [done|].
  rewrite !str_contains_app, hex_no_dot, IH by done. by destruct (0 <? i)%nat.
Qed.

(** Nothing [read_groups] would take as another group. *)
Definition ipv6_end (s : string) : Prop :=
  match s with
  | "" => True
  | String c _ => c = "]"%char ∨ c = "%"%char
  end.

Definition groups_stop (s : string) : Prop := ipv6_end s ∨ ∃ t, s = (":" ++ ":" ++ t)%string.

Lemma ipv6_end_no_digit radix s : radix = 10 ∨ radix = 16 → ipv6_end s → no_digit radix s.
Proof. destruct s as [|c s]; [done|]. by intros [-> | ->] [-> | ->]. Qed.

Lemma groups_stop_no_digit s : groups_stop s → no_digit 16 s.
Proof. intros [H|[t ->]]; [|done]. apply ipv6_end_no_digit; [by right|done]. Qed.

Lemma groups_stop_none i s :
  groups_stop s → read_separator colon i (read_number 16 4 65535 true) s = None.
Proof.
  intros [H|[t ->]]; unfold read_separator; [|by destruct (0 <? i)%nat].
  destruct s as [|c s]; [by destruct (0 <? i)%nat|].
  destruct H as [-> | ->]; by destruct (0 <? i)%nat.
Qed.

Lemma groups_no_digit i gs rest :
  groups_stop rest → no_digit 16 (groups_string (S i) gs ++ rest).
Proof. intros H. destruct gs; [by apply groups_stop_no_digit|done]. Qed.

Lemma read_separator_no_dot i s :
  str_contains dot s = false → read_separator colon i read_ipv4_addr s = None.
Proof.
  intros H. unfold read_separator. destruct (0 <? i)%nat; [|by apply read_ipv4_no_dot].
  destruct s as [|a s]; [done|]. simpl in *. apply orb_false_iff in H as [_ H].
  destruct (Ascii.eqb a colon); [by apply read_ipv4_no_dot|done].
Qed.

Lemma read_groups_string n i gs rest :
  Forall (λ g, 0 ≤ g < 65536) gs → (length gs ≤ n)%nat → groups_stop rest →
  str_contains dot rest = false →
  read_groups n i (groups_string i gs ++ rest) = (gs, false, rest).
Proof.
  intros Hgs. revert n i. induction Hgs as [|g gs Hg Hgs IH]; intros n i Hn Hstop Hdot.
  - simpl. destruct n as [|n]; [done|]. cbn [read_groups].
    rewrite read_separator_no_dot, groups_stop_none by done. by destruct (n =? 0)%nat.
  - destruct n as [|n]; [simpl in Hn; lia|]. cbn [read_groups].
    rewrite read_separator_no_dot.
    2:{ rewrite str_contains_app, Hdot, groups_no_dot by (by constructor). done. }
    assert (read_separator colon i (read_number 16 4 65535 true)
      (groups_string i (g :: gs) ++ rest) = Some (g, (groups_string (i + 1) gs ++ rest)%string))
      as ->.
    { cbn [groups_string]. rewrite <-!string_app_assoc. unfold read_separator.
      assert (no_digit 16 (groups_string (i + 1) gs ++ rest)) as Hnd.
      { replace (i + 1)%nat with (S i) by lia. by apply groups_no_digit. }
      destruct (0 <? i)%nat; simpl; by apply read_hex. }
    destruct (n =? 0)%nat; rewrite IH; (done || simpl in Hn; lia).
Qed.

(** ** The run of zeros *)

Definition zeros_at (l : list Z) (span : nat * nat) : Prop :=
  ∀ j, (span.1 ≤ j < span.1 + span.2)%nat → l !! j = Some 0.

Lemma zero_span_zeros pre l cur longest :
  zeros_at (pre ++ l) cur → zeros_at (pre ++ l) longest →
  (cur.2 = 0 ∨ cur.1 + cur.2 = length pre)%nat →
  zeros_at (pre ++ l) (zero_span l (length pre) cur longest).
Proof.
  revert pre cur longest. induction l as [|g l IH]; intros pre cur longest Hc Hl Hend;
    [done|].
  cbn [zero_span]. cbv zeta.
  replace (pre ++ g :: l) with ((pre ++ [g]) ++ l) in * by (by rewrite <-(assoc_L (++))).
  replace (length pre + 1)%nat with (length (pre ++ [g])) by (by rewrite length_app).
  destruct (g =? 0) eqn:Eg.
  - apply Z.eqb_eq in Eg as ->.
    set (cur' := ((if (cur.2 =? 0)%nat then length pre else cur.1), (cur.2 + 1)%nat)).
    assert (zeros_at ((pre ++ [0]) ++ l) cur' ∧
      (cur'.1 + cur'.2 = length (pre ++ [0%Z]))%nat) as [Hc' Hend'].
    { rewrite length_app. unfold cur'. destruct cur as [cs cl]. simpl in *.
      destruct (cl =? 0)%nat eqn:E; bool_hyps.
      - subst. split; [|simpl; lia]. intros j Hj. simpl in Hj.
        rewrite lookup_app_l, lookup_app_r by (rewrite ?length_app; simpl; lia).
        by replace (j - length pre)%nat with 0%nat by lia.
      - destruct Hend as [?|Hend]; [lia|]. split; [|simpl; lia]. intros j Hj. simpl in Hj.
        destruct (decide (j = length pre)) as [->|].
        + rewrite lookup_app_l, lookup_app_r by (rewrite ?length_app; simpl; lia).
          by rewrite Nat.sub_diag.
        + apply Hc. simpl. lia. }
    apply IH; [done| |by right]. by destruct (_ <? _)%nat.
  - apply IH; [|done|by left]. intros j Hj. simpl in Hj. lia.
Qed.

Lemma zeros_at_split l st n :
  zeros_at l (st, n) → (0 < n)%nat →
  l = take st l ++ replicate n 0 ++ drop (st + n) l ∧ (st + n ≤ length l)%nat.
Proof.
  intros Hz Hn.
  assert (st + n ≤ length l)%nat as Hle.
  { assert (l !! (st + n - 1)%nat = Some 0) as H by (apply Hz; simpl; lia).
    apply lookup_lt_Some in H. lia. }
  split; [|done]. rewrite <-(take_drop st l) at 1. f_equal.
  rewrite <-(take_drop n (drop st l)) at 1. rewrite drop_drop. f_equal.
  apply list_eq. intros i. destruct (decide (i < n)%nat).
  - rewrite lookup_take_lt, lookup_drop, lookup_replicate_2 by lia.
    apply Hz. simpl. lia.
  - rewrite lookup_take_ge by lia. symmetry. apply lookup_replicate_None. lia.
Qed.

(** ** What is displayed is parsed back *)

Lemma fmt_no_dot gs :
  Forall (λ g, 0 ≤ g < 65536) gs → str_contains dot (fmt_subslice gs) = false.
Proof. intros H. rewrite <-groups_string_fmt. by apply groups_no_dot. Qed.

Section Ipv6Rest.
Context (rest : string) (Hend : ipv6_end rest) (Hdot : str_contains dot rest = false).

Lemma read_ipv6_full gs :
  length gs = 8%nat → Forall (λ g, 0 ≤ g < 65536) gs →
  read_ipv6_addr (fmt_subslice gs ++ rest) = Some (gs, rest).
Proof.
  intros Hl Hgs. unfold read_ipv6_addr.
  pose proof (read_groups_string 8 0 gs rest Hgs) as H.
  rewrite groups_string_fmt in H.
  rewrite H; [by rewrite Hl|lia|by left|done].
Qed.

Lemma read_ipv6_compressed pre post n :
  Forall (λ g, 0 ≤ g < 65536) pre → Forall (λ g, 0 ≤ g < 65536) post →
  (length pre + n + length post = 8)%nat → (1 < n)%nat →
  read_ipv6_addr (fmt_subslice pre ++ "::" ++ fmt_subslice post ++ rest) =
    Some (pre ++ replicate n 0 ++ post, rest).
Proof.
  intros Hpre Hpost Hl Hn. unfold read_ipv6_addr.
  pose proof (read_groups_string 8 0 pre ("::" ++ fmt_subslice post ++ rest)%string Hpre) as H1.
  rewrite groups_string_fmt in H1.
  rewrite H1; [|lia|by right; eexists|by rewrite !str_contains_app, fmt_no_dot, Hdot].
  rewrite (proj2 (Nat.eqb_neq _ _)) by lia.
  change (read_given_char colon ("::" ++ fmt_subslice post ++ rest)%string) with
    (Some (":" ++ fmt_subslice post ++ rest)%string). cbv iota.
  change (read_given_char colon (":" ++ fmt_subslice post ++ rest)%string) with
    (Some (fmt_subslice post ++ rest)%string). cbv iota zeta.
  pose proof (read_groups_string (8 - (length pre + 1)) 0 post rest Hpost) as H2.
  rewrite groups_string_fmt in H2.
  rewrite H2; [|lia|by left|done].
  by replace (8 - length pre - length post)%nat with n by lia.
Qed.

Lemma to_ipv4_mapped_Some g o :
  to_ipv4_mapped g = Some o →
  ∃ ab cd, g = [0; 0; 0; 0; 0; 0xffff; ab; cd] ∧ o = digits 256 2 ab ++ digits 256 2 cd.
Proof.
  unfold to_ipv4_mapped. intros H. repeat case_match; simplify_eq. by eauto.
Qed.

Lemma from_be16_digits n : 0 ≤ n < 65536 →
  from_be16 (nth 0 (digits 256 2 n) 0) (nth 1 (digits 256 2 n) 0) = n.
Proof. intros Hn. cbn. unfold from_be16. zlia. Qed.

Lemma mapped_groups ab cd :
  0 ≤ ab < 65536 → 0 ≤ cd < 65536 →
  let o := digits 256 2 ab ++ digits 256 2 cd in
  from_be16 (nth 0 o 0) (nth 1 o 0) = ab ∧ from_be16 (nth 2 o 0) (nth 3 o 0) = cd.
Proof. intros H1 H2. split; by apply from_be16_digits. Qed.

Lemma read_ipv6_mapped o :
  length o = 4%nat → Forall (λ d, 0 ≤ d < 256) o →
  read_ipv6_addr ("::ffff:" ++ ipv4_display o ++ rest) =
    Some ([0; 0; 0; 0; 0; 0xffff;
           from_be16 (nth 0 o 0) (nth 1 o 0); from_be16 (nth 2 o 0) (nth 3 o 0)], rest).
Proof.
  intros Hl Ho. pose proof (read_ipv4_display o rest Hl Ho
    (ipv6_end_no_digit 10 rest (or_introl eq_refl) Hend)) as H.
  assert (read_groups 7 0 ("ffff:" ++ ipv4_display o ++ rest)%string =
    ([0xffff; from_be16 (nth 0 o 0) (nth 1 o 0); from_be16 (nth 2 o 0) (nth 3 o 0)],
     true, rest)) as Hg.
  { change (read_groups 7 0 ("ffff:" ++ ipv4_display o ++ rest)%string) with
      (let '(gs, v4, s'') := read_groups 6 1 (":" ++ ipv4_display o ++ rest)%string in
       (0xffff :: gs, v4, s'')).
    cbn [read_groups]. simpl (5 =? 0)%nat. cbv iota.
    change (read_separator colon 1 read_ipv4_addr (":" ++ ipv4_display o ++ rest)%string)
      with (read_ipv4_addr (ipv4_display o ++ rest)).
    by rewrite H. }
  change (read_ipv6_addr ("::ffff:" ++ ipv4_display o ++ rest)%string) with
    (let '(tail, _, s) := read_groups 7 0 ("ffff:" ++ ipv4_display o ++ rest)%string in
     Some (replicate (8 - 0 - length tail) 0 ++ tail, s)).
  by rewrite Hg.
Qed.

Lemma segments_ok n : Forall (λ g, 0 ≤ g < 65536) (segments n).
Proof. by apply digits_range. Qed.

Lemma read_ipv6_display_rest n :
  read_ipv6_addr (ipv6_display (segments n) ++ rest) = Some (segments n, rest).
Proof.
  pose proof (segments_ok n) as Hok.
  assert (length (segments n) = 8%nat) as Hlen by apply length_digits.
  revert Hok Hlen. generalize (segments n) as g. intros g Hok Hlen.
  unfold ipv6_display. destruct (to_ipv4_mapped g) as [o|] eqn:Em.
  - apply to_ipv4_mapped_Some in Em as (ab & cd & -> & ->).
    rewrite !Forall_cons in Hok.
    rewrite <-string_app_assoc, read_ipv6_mapped; [|done|apply Forall_app; split; by apply digits_range].
    destruct (mapped_groups ab cd) as [-> ->]; tauto.
  - cbv zeta. destruct (zero_span g 0 (0, 0)%nat (0, 0)%nat) as [st k] eqn:Ez. simpl.
    destruct (1 <? k)%nat eqn:Ek; [|by apply read_ipv6_full].
    apply Nat.ltb_lt in Ek.
    assert (zeros_at g (st, k)) as Hz.
    { rewrite <-Ez. apply (zero_span_zeros [] g); [|..|by left];
        intros j Hj; simpl in Hj; lia. }
    apply zeros_at_split in Hz as [Hsplit Hle]; [|lia].
    rewrite <-!string_app_assoc, (read_ipv6_compressed _ _ k).
    + by rewrite <-Hsplit.
    + by apply Forall_take.
    + by apply Forall_drop.
    + rewrite length_take, length_drop. lia.
    + done.
Qed.
End Ipv6Rest.

Lemma read_ipv6_display n :
  read_ipv6_addr (ipv6_display (segments n)) = Some (segments n, "").
Proof. rewrite <-(string_app_nil (ipv6_display _)) at 1. by apply read_ipv6_display_rest. Qed.

Lemma ipv6_display_not_ipv4 n : read_ipv4_addr (ipv6_display (segments n)) = None.
Proof.
  unfold ipv6_display. destruct (to_ipv4_mapped _) as [o|]; [done|].
  apply read_ipv4_no_dot. pose proof (segments_ok n) as Hok. cbv zeta.
  destruct (1 <? _)%nat; [|by apply fmt_no_dot].
  rewrite !str_contains_app, !fmt_no_dot; [done|by apply Forall_drop|by apply Forall_take].
Qed.

Lemma ip_parse_display ip : ip_ok ip → ip_from_str (ip_display ip) = Some ip.
Proof.
  destruct ip as [n|n]; intros Hn; unfold ip_from_str, ip_display.
  - pose proof (read_ipv4_display (octets n) "" (length_digits _ _ _)
      (digits_range 256 4 n ltac:(lia)) I) as H.
    rewrite string_app_nil in H. rewrite H. do 2 f_equal. by apply undigits_digits.
  - rewrite ipv6_display_not_ipv4, read_ipv6_display. do 2 f_equal.
    by apply undigits_digits.
Qed.

Lemma ip_display_inj ip ip' :
  ip_ok ip → ip_ok ip' → ip_display ip = ip_display ip' → ip = ip'.
Proof.
  intros H H' He. apply (f_equal ip_from_str) in He. rewrite !ip_parse_display in He by done.
  by injection He.
Qed.

(** ** What is parsed is an address *)

Lemma undigits_range b l :
  0 < b → Forall (λ d, 0 ≤ d < b) l → 0 ≤ undigits b l < b ^ Z.of_nat (length l).
Proof.
  intros Hb. induction l as [|d l IH] using rev_ind; intros H; [done|].
  apply Forall_app in H as [Hl Hd]. apply Forall_cons in Hd as [Hd _].
  rewrite undigits_snoc, length_app, Nat2Z.inj_add, Z.pow_add_r by lia.
  change (Z.of_nat (length [d])) with 1. rewrite Z.pow_1_r. specialize (IH Hl). nia.
Qed.

Lemma to_digit_range radix c d : to_digit radix c = Some d → 0 ≤ d < radix.
Proof.
  unfold to_digit. cbv zeta. destruct (_ <? radix) eqn:E; [|done]. intros [= <-].
  apply Z.ltb_lt in E. split; [|done].
  repeat case_match; bool_hyps; lia.
Qed.

Lemma read_digits_range radix s ds rest :
  read_digits radix s = (ds, rest) → Forall (λ d, 0 ≤ d < radix) ds.
Proof.
  revert ds rest. induction s as [|c s IH]; intros ds rest; simpl.
  - intros [= <- <-]. constructor.
  - destruct (to_digit radix c) as [d|] eqn:Ed.
    + destruct (read_digits radix s) as [ds' rest'] eqn:E. intros [= <- <-].
      constructor; [by eapply to_digit_range|by eapply IH].
    + intros [= <- <-]. constructor.
Qed.

Lemma read_number_range radix k max z s n rest :
  0 < radix → read_number radix k max z s = Some (n, rest) → 0 ≤ n ≤ max.
Proof.
  intros Hr. unfold read_number. destruct (read_digits radix s) as [ds rest'] eqn:E.
  apply read_digits_range in E. pose proof (undigits_range radix ds Hr E).
  repeat case_match; try done. intros [= <- <-]. bool_hyps. lia.
Qed.

Lemma read_separator_Some {A} sep i (inner : string → option (A * string)) s r :
  read_separator sep i inner s = Some r → ∃ s', inner s' = Some r.
Proof.
  unfold read_separator. destruct (0 <? i)%nat; [|by eauto].
  destruct (read_given_char sep s); [by eauto|done].
Qed.

Lemma read_octets_range n i s o rest :
  read_octets n i s = Some (o, rest) → length o = n ∧ Forall (λ d, 0 ≤ d < 256) o.
Proof.
  revert i s o. induction n as [|n IH]; intros i s o; simpl.
  - intros [= <- <-]. split; [done|constructor].
  - destruct (read_separator _ _ _ _) as [[g s']|] eqn:E; [|done].
    destruct (read_octets n (i + 1) s') as [[gs s'']|] eqn:Er; [|done].
    intros [= <- ->]. apply IH in Er as [Hl Hf].
    apply read_separator_Some in E as [s1 Hs1%read_number_range]; [|lia].
    split; [simpl; by rewrite Hl|]. constructor; [lia|done].
Qed.

Lemma read_groups_range n i s gs v4 rest :
  read_groups n i s = (gs, v4, rest) →
  (length gs ≤ n)%nat ∧ Forall (λ g, 0 ≤ g < 65536) gs.
Proof.
  revert i s gs v4 rest. induction n as [|n IH]; intros i s gs v4 rest; cbn [read_groups].
  - intros [= <- <- <-]. split; [done|constructor].
  - cbv zeta.
    destruct (if (n =? 0)%nat then None else read_separator colon i read_ipv4_addr s)
      as [[o s']|] eqn:E4.
    + destruct (n =? 0)%nat eqn:En; [done|]. apply Nat.eqb_neq in En.
      apply read_separator_Some in E4 as [s1 [Ho Hf]%read_octets_range].
      destruct o as [|a [|b [|c [|d [|]]]]]; try done. rewrite !Forall_cons in Hf.
      destruct Hf as (? & ? & ? & ? & _).
      intros [= <- <- <-]. split; [simpl; lia|].
      repeat constructor; simpl; unfold from_be16; lia.
    + clear E4. destruct (read_separator colon i (read_number 16 4 65535 true) s)
        as [[g s']|] eqn:E; [|].
      * destruct (read_groups n (i + 1) s') as [[gs' v4'] s''] eqn:Er.
        intros Heq. apply IH in Er as [Hl Hf]. simplify_eq.
        apply read_separator_Some in E as [s1 Hs1%read_number_range]; [|lia].
        split; [simpl; lia|]. constructor; [lia|done].
      * intros [= <- <- <-]. split; [simpl; lia|constructor].
Qed.

Lemma read_ipv6_range s g rest :
  read_ipv6_addr s = Some (g, rest) → length g = 8%nat ∧ Forall (λ g, 0 ≤ g < 65536) g.
Proof.
  unfold read_ipv6_addr.
  destruct (read_groups 8 0 s) as [[hd v4] s1] eqn:E1.
  apply read_groups_range in E1 as [Hl1 Hf1].
  destruct (length hd =? 8)%nat eqn:E8.
  - intros [= <- <-]. by apply Nat.eqb_eq in E8.
  - apply Nat.eqb_neq in E8. destruct v4; [done|].
    destruct (read_given_char colon s1) as [s2|]; [|done].
    destruct (read_given_char colon s2) as [s3|]; [|done]. cbv zeta.
    destruct (read_groups _ 0 s3) as [[tl v4] s4] eqn:E2.
    apply read_groups_range in E2 as [Hl2 Hf2]. intros [= <- <-]. split.
    + rewrite !length_app, length_replicate. lia.
    + rewrite !Forall_app. split_and!; [done| |done].
      apply Forall_replicate. lia.
Qed.

Lemma ip_from_str_ok s i : ip_from_str s = Some i → ip_ok i.
Proof.
  unfold ip_from_str.
  destruct (read_ipv4_addr s) as [[o rest]|] eqn:E4.
  - apply read_octets_range in E4 as [Hl Hf].
    pose proof (undigits_range 256 o ltac:(lia) Hf) as Hr. rewrite Hl in Hr.
    destruct rest; [|done]. intros [= <-]. exact Hr.
  - destruct (read_ipv6_addr s) as [[g rest]|] eqn:E6; [|done].
    apply read_ipv6_range in E6 as [Hl Hf].
    pose proof (undigits_range 65536 g ltac:(lia) Hf) as Hr. rewrite Hl in Hr.
    destruct rest; [|done]. intros [= <-]. exact Hr.
Qed.

(** ** No other characters in an address *)

Lemma digits_string_no_char c ds :
  to_digit 16 c = None → Forall (λ d, 0 ≤ d < 16) ds →
  str_contains c (digits_string ds) = false.
Proof.
  intros Hc. induction 1 as [|d ds Hd _ IH]; [done|]. simpl. rewrite IH.
  destruct (Ascii.eqb_spec (digit_char d) c) as [<-|]; [|done].
  by rewrite (digit_chars_ok 16) in Hc by auto.
Qed.

Lemma join_string_no_char c sep l :
  str_contains c sep = false → Forall (λ s, str_contains c s = false) l →
  str_contains c (join_string sep l) = false.
Proof.
  intros Hsep. induction 1 as [|s l Hs Hl IH]; [done|].
  destruct l as [|s' l]; [done|].
  change (join_string sep (s :: s' :: l)) with (s ++ sep ++ join_string sep (s' :: l))%string.
  by rewrite !str_contains_app, Hs, Hsep, IH.
Qed.

Lemma hex_digits_range n : 0 ≤ n < 65536 → Forall (λ d, 0 ≤ d < 16) (hex_digits n).
Proof.
  intros Hn. unfold hex_digits. repeat case_match; bool_hyps; repeat constructor; zlia.
Qed.

Lemma dec_digits_range n : 0 ≤ n < 256 → Forall (λ d, 0 ≤ d < 16) (dec_digits n).
Proof.
  intros Hn. unfold dec_digits. repeat case_match; bool_hyps; repeat constructor; zlia.
Qed.

(** A character that is neither a hexadecimal digit, a dot nor a colon. *)
Lemma ip_display_no_char c i :
  to_digit 16 c = None → Ascii.eqb dot c = false → Ascii.eqb colon c = false →
  str_contains c (ip_display i) = false.
Proof.
  intros Hc Hdot Hcolon.
  assert (∀ o, Forall (λ d, 0 ≤ d < 256) o → str_contains c (ipv4_display o) = false) as H4.
  { intros o Ho. apply join_string_no_char; [exact (eq_trans (orb_false_r _) Hdot)|].
    apply Forall_fmap. eapply Forall_impl; [done|]. intros d Hd.
    by apply digits_string_no_char, dec_digits_range. }
  assert (∀ g, Forall (λ d, 0 ≤ d < 65536) g → str_contains c (fmt_subslice g) = false) as H6.
  { intros g Hg. apply join_string_no_char; [exact (eq_trans (orb_false_r _) Hcolon)|].
    apply Forall_fmap. eapply Forall_impl; [done|]. intros d Hd.
    by apply digits_string_no_char, hex_digits_range. }
  destruct i as [n|n]; simpl; [apply H4; by apply digits_range|].
  pose proof (segments_ok n) as Hok. unfold ipv6_display.
  destruct (to_ipv4_mapped _) as [o|] eqn:Em.
  - apply to_ipv4_mapped_Some in Em as (ab & cd & _ & ->).
    rewrite str_contains_app, H4 by (apply Forall_app; split; by apply digits_range).
    assert (Ascii.eqb "f" c = false) as Hf.
    { destruct (Ascii.eqb_spec "f" c) as [<-|]; [done|done]. }
    change (str_contains c "::ffff:") with
      (Ascii.eqb colon c || (Ascii.eqb colon c || (Ascii.eqb "f" c || (Ascii.eqb "f" c ||
        (Ascii.eqb "f" c || (Ascii.eqb "f" c || (Ascii.eqb colon c || false))))))).
    by rewrite Hcolon, Hf.
  - cbv zeta. destruct (1 <? _)%nat; [|by apply H6].
    rewrite !str_contains_app, !H6; [|by apply Forall_drop|by apply Forall_take].
    change (str_contains c "::") with (Ascii.eqb colon c || (Ascii.eqb colon c || false)).
    by rewrite Hcolon.
Qed.

Lemma dec_string_no_char16 c n :
  to_digit 16 c = None → 0 ≤ n < 256 → str_contains c (dec_string n) = false.
Proof. intros Hc Hn. by apply digits_string_no_char, dec_digits_range. Qed.

Lemma str_split_no_char c s : str_contains c s = false → str_split c s = [s].
Proof.
  induction s as [|a s IH]; simpl; [done|]. intros [-> H]%orb_false_iff.
  by rewrite IH.
Qed.

Lemma str_split_app c s t :
  str_contains c s = false → str_split c (s ++ String c t) = s :: str_split c t.
Proof.
  induction s as [|a s IH]; simpl.
  - by rewrite Ascii.eqb_refl.
  - intros [Ha H]%orb_false_iff. change ((s +:+ String c t)%string) with (s ++ String c t)%string.
    rewrite Ha. by rewrite IH.
Qed.

(** ** The family is visible in the string *)

Lemma ipv4_display_no_char c o :
  to_digit 10 c = None → Ascii.eqb dot c = false → Forall (λ d, 0 ≤ d < 256) o →
  str_contains c (ipv4_display o) = false.
Proof.
  intros Hc Hdot Ho. apply join_string_no_char; [exact (eq_trans (orb_false_r _) Hdot)|].
  apply Forall_fmap. eapply Forall_impl; [done|]. intros d Hd. by apply dec_string_no_char.
Qed.

Lemma fmt_subslice_colon g :
  (2 ≤ length g)%nat → str_contains colon (fmt_subslice g) = true.
Proof.
  destruct g as [|a [|b g]]; simpl; [lia..|]. intros _.
  change (fmt_subslice (a :: b :: g)) with
    (hex_string a ++ ":" ++ fmt_subslice (b :: g))%string.
  rewrite !str_contains_app. simpl. by rewrite orb_true_r.
Qed.

(** A colon in the string tells the families apart. *)
Lemma ip_display_colon i : str_contains colon (ip_display i) = is_ipv6 i.
Proof.
  destruct i as [n|n]; simpl.
  - apply ipv4_display_no_char; [done..|]. by apply digits_range.
  - unfold ipv6_display. destruct (to_ipv4_mapped _); [done|]. cbv zeta.
    destruct (1 <? _)%nat; [rewrite !str_contains_app; simpl; apply orb_true_r|].
    apply fmt_subslice_colon. unfold segments. rewrite length_digits. lia.
Qed.

Lemma string_length_app (s t : string) :
  String.length (s ++ t) = (String.length s + String.length t)%nat.
Proof. induction s as [|a s IH]; [done|]. simpl. by rewrite IH. Qed.

Lemma ipv4_from_display n : 0 ≤ n < 2 ^ 32 → ipv4_from_str (ip_display (V4 n)) = Some n.
Proof.
  intros Hn. simpl. unfold ipv4_from_str.
  assert (∀ d, 0 ≤ d < 256 → (String.length (dec_string d) ≤ 3)%nat) as Hl.
  { intros d Hd. apply Nat.leb_le.
    apply (all_bits_spec 8 (λ d, String.length (dec_string d) <=? 3)%nat 0);
      [vm_compute; reflexivity|lia]. }
  pose proof (digits_range 256 4 n ltac:(lia)) as Hr.
  assert (String.length (ipv4_display (octets n)) ≤ 15)%nat as Hlen.
  { unfold octets in *. pose proof (length_digits 256 4 n) as Hd.
    destruct (digits 256 4 n) as [|a [|b [|c [|d [|]]]]]; try done.
    rewrite !Forall_cons in Hr. destruct Hr as (Ha & Hb & Hc & Hd' & _).
    unfold ipv4_display. cbn [fmap list_fmap join_string].
    rewrite !string_length_app. cbn [String.length].
    pose proof (Hl a Ha). pose proof (Hl b Hb). pose proof (Hl c Hc).
    pose proof (Hl d Hd'). lia. }
  rewrite (proj2 (Nat.ltb_ge _ _) Hlen).
  pose proof (read_ipv4_display (octets n) "" (length_digits _ _ _) Hr I) as H.
  rewrite string_app_nil in H. rewrite H. f_equal. by apply undigits_digits.
Qed.

Lemma parse_i32_dec n : 0 ≤ n < 256 → parse_i32 (dec_string n) = Some n.
Proof.
  intros Hn. pose proof (parse_dec (2 ^ 31 - 1) n Hn ltac:(lia)) as H.
  unfold parse_i32. pose (Q n := match dec_string n with String "-" _ => false | _ => true end).
  assert (Q n = true) as HQ by (apply (all_bits_spec 8 Q 0); [vm_compute; reflexivity|lia]).
  unfold Q in HQ. destruct (dec_string n) as [|[[] [] [] [] [] [] [] []] s]; done.
Qed.
