(* ===== verification/Decimal.v ===== *)
(** * Decimal: [Display] and [FromStr] of integers

    [format!] of an integer of any width, and that [str::parse] reads it back. *)

From S2P Require Export NetAddr.

#[local] Open Scope Z_scope.

(** The digits of a number, the last one first found; as many rounds as it has bits are
    enough. *)
Fixpoint decimal_loop (fuel : nat) (n : Z) (acc : list Z) : list Z :=
  match fuel with
  | O => acc
  | S fuel => if n <? 10 then n :: acc else decimal_loop fuel (n / 10) (n mod 10 :: acc)
  end.

Definition decimal_digits (n : Z) : list Z := decimal_loop (S (Z.to_nat (Z.log2 n))) n [].

Definition unsigned_string (n : Z) : string := digits_string (decimal_digits n).

Definition int_string (z : Z) : string :=
  if z <? 0 then String.append "-" (unsigned_string (- z)) else unsigned_string z.

Lemma undigits_from b a l :
  foldl (λ acc d, acc * b + d) a l = a * b ^ Z.of_nat (length l) + undigits b l.
Proof.
  unfold undigits. revert a. induction l as [|d l IH]; intros a; [simpl; lia|]. simpl length.
  cbn [foldl]. rewrite IH, (IH (0 * b + d)), Nat2Z.inj_succ, Z.pow_succ_r by lia. ring.
Qed.

Lemma decimal_loop_spec fuel : ∀ n acc, 0 ≤ n < 2 ^ Z.of_nat fuel → (0 < fuel)%nat →
  Forall (λ d, 0 ≤ d < 10) acc →
  undigits 10 (decimal_loop fuel n acc) = n * 10 ^ Z.of_nat (length acc) + undigits 10 acc ∧
  Forall (λ d, 0 ≤ d < 10) (decimal_loop fuel n acc) ∧ decimal_loop fuel n acc ≠ [].
Proof.
  induction fuel as [|fuel IH]; intros n acc Hn Hf Ha; [lia|]. cbn [decimal_loop].
  destruct (n <? 10) eqn:E; bool_hyps.
  - split_and!; [|constructor; [lia|done]|done].
    unfold undigits at 1. cbn [foldl]. rewrite undigits_from. lia.
  - rewrite Nat2Z.inj_succ, Z.pow_succ_r in Hn by lia.
    assert (0 < fuel)%nat by (destruct fuel; [simpl in Hn; lia|lia]).
    destruct (IH (n / 10) (n mod 10 :: acc)) as (H1 & H2 & H3); [zlia|done|constructor; [zlia|done]|].
    split_and!; [|done|done]. rewrite H1. simpl length.
    unfold undigits at 1. cbn [foldl]. rewrite undigits_from, Nat2Z.inj_succ, Z.pow_succ_r by lia.
    rewrite (Z.div_mod n 10) at 3 by lia. ring.
Qed.

Lemma decimal_digits_spec n : 0 ≤ n →
  undigits 10 (decimal_digits n) = n ∧ Forall (λ d, 0 ≤ d < 10) (decimal_digits n) ∧
  decimal_digits n ≠ [].
Proof.
  intros Hn. unfold decimal_digits.
  destruct (decimal_loop_spec (S (Z.to_nat (Z.log2 n))) n []) as (H1 & H2 & H3); [|lia|done|].
  - rewrite Nat2Z.inj_succ, Z2Nat.id by apply Z.log2_nonneg. split; [done|].
    destruct (Z.eq_dec n 0) as [->|]; [done|]. apply Z.log2_spec. lia.
  - split_and!; [|done|done]. rewrite H1. simpl. unfold undigits. simpl. lia.
Qed.

Lemma no_sign ds : Forall (λ d, 0 ≤ d < 10) ds →
  match digits_string ds with String "+" _ => False | _ => True end.
Proof.
  destruct ds as [|d ds]; [done|]. intros [Hd _]%Forall_cons. simpl.
  assert (to_digit 10 (digit_char d) = Some d) as H by (apply digit_chars_ok; [by left|done]).
  by destruct (digit_char d) as [[] [] [] [] [] [] [] []].
Qed.

(** What is printed is read back. *)
Lemma parse_unsigned_string max n :
  0 ≤ n ≤ max → parse_unsigned max (unsigned_string n) = Some n.
Proof.
  intros Hn. destruct (decimal_digits_spec n) as (Hu & Hd & Hne); [lia|].
  assert (parse_digits max (unsigned_string n) = Some n) as Hp.
  { unfold parse_digits, unsigned_string. rewrite <-(string_app_nil (digits_string _)).
    rewrite read_digits_string; [|eapply Forall_impl; [exact Hd|]; intros d Hr; apply digit_chars_ok; [by left|done]|done].
    destruct (decimal_digits n) as [|d ds]; [done|]. simpl length. cbn [Nat.eqb].
    rewrite Hu. by rewrite (proj2 (Z.ltb_ge _ _)) by lia. }
  unfold parse_unsigned. pose proof (no_sign _ Hd) as Hs. unfold unsigned_string in *.
  by destruct (digits_string (decimal_digits n)) as [|[[] [] [] [] [] [] [] []] s].
Qed.

Lemma unsigned_string_inj n m : 0 ≤ n → 0 ≤ m → unsigned_string n = unsigned_string m → n = m.
Proof.
  intros Hn Hm E. pose proof (parse_unsigned_string (Z.max n m) n ltac:(lia)) as H.
  rewrite E, parse_unsigned_string in H by lia. congruence.
Qed.

Example decimal_examples :
  unsigned_string 0 = "0" ∧ unsigned_string 86400 = "86400" ∧ int_string (-1) = "-1" ∧
  unsigned_string 4294967295 = "4294967295".
Proof. vm_compute. split_and!; reflexivity. Qed.
