(* ===== verification/Str.v ===== *)
(** * Str: what the DNS configuration uses of [str]

    White space, words, lines and splits of the Rust standard library, on the
    bytes of a UTF-8 string: [char::is_whitespace] is decided on the encoding of
    the characters that have the property, so the definitions are exact on every
    valid string, and all of them respect character boundaries. *)

From S2P Require Export Prelude NetAddr.

#[local] Open Scope Z_scope.

Definition byte_of (c : ascii) : Z := Z.of_N (N_of_ascii c).

(** ** White space *)

(** The number of bytes of the white space character [s] begins with, 0 when it
    begins with another one: U+0009 to U+000D, U+0020, U+0085, U+00A0, U+1680,
    U+2000 to U+200A, U+2028, U+2029, U+202F, U+205F and U+3000. *)
Definition ws_len (s : string) : nat :=
  match s with
  | "" => 0%nat
  | String c1 s1 =>
      let b1 := byte_of c1 in
      if ((9 <=? b1) && (b1 <=? 13)) || (b1 =? 32) then 1%nat
      else
        match s1 with
        | "" => 0%nat
        | String c2 s2 =>
            let b2 := byte_of c2 in
            if (b1 =? 0xC2) && ((b2 =? 0x85) || (b2 =? 0xA0)) then 2%nat
            else
              match s2 with
              | "" => 0%nat
              | String c3 _ =>
                  let b3 := byte_of c3 in
                  if ((b1 =? 0xE1) && (b2 =? 0x9A) && (b3 =? 0x80)) ||
                     ((b1 =? 0xE2) && (b2 =? 0x80) &&
                      (((0x80 <=? b3) && (b3 <=? 0x8A)) || (b3 =? 0xA8) ||
                       (b3 =? 0xA9) || (b3 =? 0xAF))) ||
                     ((b1 =? 0xE2) && (b2 =? 0x81) && (b3 =? 0x9F)) ||
                     ((b1 =? 0xE3) && (b2 =? 0x80) && (b3 =? 0x80))
                  then 3%nat else 0%nat
              end
        end
  end.

(** Every byte with whether it belongs to a white space character; [skip] bytes
    of such a character are still to come. *)
Fixpoint flagged (skip : nat) (s : string) : list (bool * ascii) :=
  match s with
  | "" => []
  | String c s' =>
      match skip with
      | S k => (true, c) :: flagged k s'
      | O =>
          match ws_len s with
          | O => (false, c) :: flagged 0 s'
          | S k => (true, c) :: flagged k s'
          end
      end
  end.

(** [str.contains(char::is_whitespace)]. *)
Definition contains_whitespace (s : string) : bool := existsb fst (flagged 0 s).

Definition text (l : list (bool * ascii)) : string := foldr (λ p s, String p.2 s) "" l.

Fixpoint pieces (l : list (bool * ascii)) : list string :=
  match l with
  | [] => [""]
  | (true, _) :: l' => "" :: pieces l'
  | (false, c) :: l' =>
      match pieces l' with
      | [] => [String c ""]
      | p :: ps => String c p :: ps
      end
  end.

Definition nonempty (s : string) : bool := match s with "" => false | _ => true end.

(** [str::split_whitespace], [str::trim]. *)
Definition split_whitespace (s : string) : list string :=
  List.filter nonempty (pieces (flagged 0 s)).

Fixpoint drop_ws (l : list (bool * ascii)) : list (bool * ascii) :=
  match l with
  | (true, _) :: l' => drop_ws l'
  | _ => l
  end.

Definition trim (s : string) : string :=
  text (reverse (drop_ws (reverse (drop_ws (flagged 0 s))))).

(** ** Lines *)

Definition newline : ascii := "010"%char.
Definition carriage_return : ascii := "013"%char.

Fixpoint strip_cr (s : string) : string :=
  match s with
  | "" => ""
  | String c "" => if Ascii.eqb c carriage_return then "" else s
  | String c s' => String c (strip_cr s')
  end.

Fixpoint lines_of (ps : list string) : list string :=
  match ps with
  | [] => []
  | [p] => if nonempty p then [p] else []
  | p :: ps' => strip_cr p :: lines_of ps'
  end.

(** [str::lines]. *)
Definition lines (s : string) : list string := lines_of (str_split newline s).

(** ** Splits *)

(** [str::split_once], [str::rsplit_once], [str::strip_prefix] (whose result is
    [Some] exactly when [str::starts_with] holds). *)
Fixpoint split_once (c : ascii) (s : string) : option (string * string) :=
  match s with
  | "" => None
  | String a s' =>
      if Ascii.eqb a c then Some ("", s')
      else match split_once c s' with
           | Some (x, y) => Some (String a x, y)
           | None => None
           end
  end.

Fixpoint rsplit_once (c : ascii) (s : string) : option (string * string) :=
  match s with
  | "" => None
  | String a s' =>
      match rsplit_once c s' with
      | Some (x, y) => Some (String a x, y)
      | None => if Ascii.eqb a c then Some ("", s') else None
      end
  end.

Fixpoint strip_prefix (p s : string) : option string :=
  match p, s with
  | "", _ => Some s
  | String a p', String b s' => if Ascii.eqb a b then strip_prefix p' s' else None
  | String _ _, "" => None
  end.

(** [u8::to_ascii_lowercase] and [str::eq_ignore_ascii_case]. *)
Definition ascii_lowercase (c : ascii) : ascii :=
  if (65 <=? byte_of c) && (byte_of c <=? 90)
  then ascii_of_N (Z.to_N (byte_of c + 32)) else c.

Fixpoint eq_ignore_ascii_case (s t : string) : bool :=
  match s, t with
  | "", "" => true
  | String a s', String b t' =>
      Ascii.eqb (ascii_lowercase a) (ascii_lowercase b) && eq_ignore_ascii_case s' t'
  | _, _ => false
  end.

Example split_ex : split_whitespace "  a b  cd " = ["a"; "b"; "cd"].
Proof. reflexivity. Qed.
Example trim_ex : trim "  a b   " = "a b".
Proof. reflexivity. Qed.
Example nbsp_ex :
  split_whitespace ("a" ++ String "194" (String "160" "b")) = ["a"; "b"].
Proof. reflexivity. Qed.

(** ** Tokens: what is written between white space *)

Definition ascii_head (s : string) : Prop :=
  match s with String c _ => byte_of c < 128 | "" => True end.

Definition token (s : string) : Prop := s ≠ "" ∧ contains_whitespace s = false.

#[export] Instance token_dec s : Decision (token s).
Proof. apply _. Defined.

Lemma string_app_cons c (s t : string) : (String c s ++ t)%string = String c (s ++ t).
Proof. done. Qed.

Lemma ws_len_app (s t : string) :
  s ≠ "" → ascii_head t → ws_len (s ++ t) = ws_len s.
Proof.
  intros Hs Ht. destruct s as [|c1 s]; [done|]. rewrite string_app_cons. cbn [ws_len].
  destruct (_ || (byte_of c1 =? 32)); [done|].
  destruct s as [|c2 s].
  - destruct t as [|c t]; [done|]. cbn in Ht. change ("" ++ String c t)%string with (String c t).
    cbv iota. replace (byte_of c =? 133) with false by lia. replace (byte_of c =? 160) with false by lia.
    rewrite andb_false_r. destruct t as [|c3 t]; [done|]. replace (byte_of c =? 154) with false by lia.
    replace (byte_of c =? 128) with false by lia. replace (byte_of c =? 129) with false by lia.
    by rewrite !andb_false_r.
  - rewrite string_app_cons. cbv iota. destruct (_ && (_ || _)); [done|].
    destruct s as [|c3 s]; [|done].
    destruct t as [|c t]; [done|]. cbn in Ht. change ("" ++ String c t)%string with (String c t).
    cbv iota. replace (byte_of c =? 128) with false by lia.
    replace (128 <=? byte_of c) with false by lia. replace (byte_of c =? 168) with false by lia.
    replace (byte_of c =? 169) with false by lia. replace (byte_of c =? 175) with false by lia.
    replace (byte_of c =? 159) with false by lia.
    by rewrite !andb_false_r.
Qed.

Lemma ws_len_le s : (ws_len s ≤ String.length s)%nat.
Proof. destruct s as [|? [|? [|? ?]]]; simpl; repeat case_match; lia. Qed.

Lemma flagged_app skip (s t : string) :
  (skip ≤ String.length s)%nat → ascii_head t →
  flagged skip (s ++ t) = flagged skip s ++ flagged 0 t.
Proof.
  intros Hk Ht. revert skip Hk.
  induction s as [|c s IH]; intros skip Hk; [by destruct skip; [|simpl in Hk; lia]|].
  rewrite string_app_cons. cbn [flagged]. destruct skip as [|k].
  - rewrite <-string_app_cons, ws_len_app by done.
    pose proof (ws_len_le (String c s)) as Hl. cbn [String.length] in Hl.
    destruct (ws_len (String c s)) as [|k]; simpl; (rewrite IH by lia); done.
  - simpl in *. rewrite IH by lia. done.
Qed.

Lemma contains_whitespace_cons c s :
  contains_whitespace (String c s) = false →
  ws_len (String c s) = 0%nat ∧ contains_whitespace s = false.
Proof.
  unfold contains_whitespace. cbn [flagged]. by destruct (ws_len (String c s)); simpl.
Qed.

(** The bytes of a string none of which is white space. *)
Fixpoint plain (s : string) : list (bool * ascii) :=
  match s with
  | "" => []
  | String c s' => (false, c) :: plain s'
  end.

Lemma flagged_plain s : contains_whitespace s = false → flagged 0 s = plain s.
Proof.
  induction s as [|c s IH]; [done|]. intros [Hl Hs]%contains_whitespace_cons.
  cbn [flagged]. rewrite Hl, IH by done. done.
Qed.

Lemma text_plain s : text (plain s) = s.
Proof. induction s as [|c s IH]; [done|]. simpl. by f_equal. Qed.

Lemma text_flagged k s : text (flagged k s) = s.
Proof.
  revert k. induction s as [|c s IH]; intros k; [done|]. cbn [flagged].
  destruct k; [destruct (ws_len _)|]; simpl; by rewrite IH.
Qed.

Lemma pieces_plain s c l : pieces (plain s ++ (true, c) :: l) = s :: pieces l.
Proof. induction s as [|a s IH]; [done|]. simpl. by rewrite IH. Qed.

Lemma pieces_plain_end s : pieces (plain s) = [s].
Proof. induction s as [|c s IH]; [done|]. simpl. by rewrite IH. Qed.

Lemma token_nonempty s : token s → nonempty s = true.
Proof. intros [H _]. by destruct s. Qed.

Lemma split_whitespace_token s : token s → split_whitespace s = [s].
Proof.
  intros H. unfold split_whitespace. rewrite flagged_plain by apply H.
  rewrite pieces_plain_end. simpl. by rewrite (token_nonempty s).
Qed.

Lemma split_whitespace_app s t :
  token s → split_whitespace (s ++ String " " t) = s :: split_whitespace t.
Proof.
  intros H. unfold split_whitespace. rewrite flagged_app by (done || lia).
  rewrite flagged_plain by apply H.
  change (flagged 0 (String " " t)) with ((true, " "%char) :: flagged 0 t).
  rewrite pieces_plain. simpl. by rewrite (token_nonempty s).
Qed.

Lemma split_whitespace_join ts :
  Forall token ts → split_whitespace (join_string " " ts) = ts.
Proof.
  induction 1 as [|s ts Hs Hts IH]; [done|]. destruct ts as [|t ts].
  - by apply split_whitespace_token.
  - change (join_string " " (s :: t :: ts)) with
      (s ++ String " " (join_string " " (t :: ts)))%string.
    by rewrite split_whitespace_app, IH.
Qed.

(** Neither the first nor the last character is white space. *)
Definition no_ws_ends (s : string) : Prop :=
  (∃ c l, flagged 0 s = (false, c) :: l) ∧ (∃ c l, flagged 0 s = l ++ [(false, c)]).

Lemma trim_id s : no_ws_ends s → trim s = s.
Proof.
  intros [(c & l & H1) (c' & l' & H2)]. unfold trim. rewrite H1. cbn [drop_ws].
  rewrite <-H1, H2, reverse_snoc. cbn [drop_ws].
  rewrite <-reverse_snoc, reverse_involutive, <-H2. apply text_flagged.
Qed.

Lemma plain_last s : s ≠ "" → ∃ c l, plain s = l ++ [(false, c)].
Proof.
  induction s as [|a s IH]; [done|]. intros _. destruct s as [|b s].
  - by exists a, [].
  - destruct IH as (c & l & IH); [done|]. exists c, ((false, a) :: l).
    change (plain (String a (String b s))) with ((false, a) :: plain (String b s)).
    by rewrite IH.
Qed.

Lemma flagged_join_last ts :
  Forall token ts → ts ≠ [] → ∃ c l, flagged 0 (join_string " " ts) = l ++ [(false, c)].
Proof.
  induction 1 as [|s ts Hs Hts IH]; [done|]. intros _. destruct ts as [|t ts].
  - simpl. rewrite flagged_plain by apply Hs. apply plain_last, Hs.
  - destruct IH as (c & l & IH); [done|].
    change (join_string " " (s :: t :: ts)) with
      (s ++ String " " (join_string " " (t :: ts)))%string.
    rewrite flagged_app by (done || lia).
    change (flagged 0 (String " " (join_string " " (t :: ts)))) with
      ((true, " "%char) :: flagged 0 (join_string " " (t :: ts))). rewrite IH.
    exists c, (flagged 0 s ++ (true, " "%char) :: l). by rewrite <-app_assoc.
Qed.

(** An ASCII white space character is in no token. *)
Lemma token_no_char c s :
  ws_len (String c "") = 1%nat → contains_whitespace s = false → str_contains c s = false.
Proof.
  intros Hc. induction s as [|a s IH]; [done|]. intros [Ha Hs]%contains_whitespace_cons.
  simpl. rewrite (IH Hs), orb_false_r. apply Ascii.eqb_neq. intros ->.
  revert Hc Ha. cbn [ws_len]. by destruct (_ || _).
Qed.

Lemma join_no_char c ts :
  ws_len (String c "") = 1%nat → c ≠ " "%char → Forall token ts →
  str_contains c (join_string " " ts) = false.
Proof.
  intros Hc Hn H. apply join_string_no_char.
  - cbn [str_contains]. rewrite orb_false_r. apply Ascii.eqb_neq. by intros <-.
  - eapply Forall_impl; [done|]. intros s [_ Hs]. by apply token_no_char.
Qed.

Lemma strip_cr_id s : str_contains carriage_return s = false → strip_cr s = s.
Proof.
  induction s as [|c s IH]; [done|]. simpl. intros [Hc Hs]%orb_false_iff.
  destruct s as [|d s]; [by rewrite Hc|]. by rewrite IH.
Qed.

(** A text of whole lines. *)
Definition unlines (ls : list string) : string :=
  foldr (λ l s, (l ++ String newline s)%string) "" ls.

Definition line_ok (l : string) : Prop :=
  str_contains newline l = false ∧ str_contains carriage_return l = false.

Lemma str_split_cons c s : ∃ p ps, str_split c s = p :: ps.
Proof.
  induction s as [|a s IH]; simpl; [eauto|]. destruct (Ascii.eqb a c); [eauto|].
  destruct IH as (p & ps & ->). eauto.
Qed.

Lemma lines_unlines ls : Forall line_ok ls → lines (unlines ls) = ls.
Proof.
  unfold lines. induction 1 as [|l ls [Hn Hc] _ IH]; [done|]. cbn [unlines foldr].
  rewrite str_split_app by done. fold (unlines ls).
  destruct (str_split_cons newline (unlines ls)) as (p & ps & E).
  rewrite <-IH at 2. rewrite E. cbn [lines_of]. by rewrite strip_cr_id.
Qed.

(** ** Splits at a character *)

Lemma split_once_None c s : str_contains c s = false → split_once c s = None.
Proof. induction s as [|a s IH]; [done|]. simpl. by intros [-> ->%IH]%orb_false_iff. Qed.

Lemma split_once_app c s t :
  str_contains c s = false → split_once c (s ++ String c t) = Some (s, t).
Proof.
  induction s as [|a s IH].
  { change ("" ++ String c t)%string with (String c t). cbn [split_once].
    by rewrite Ascii.eqb_refl. }
  rewrite string_app_cons. cbn [str_contains split_once]. intros [-> ->%IH]%orb_false_iff. done.
Qed.

Lemma split_once_Some c s x y :
  split_once c s = Some (x, y) → s = (x ++ String c y)%string ∧ str_contains c x = false.
Proof.
  revert x. induction s as [|a s IH]; intros x; simpl; [done|].
  destruct (Ascii.eqb a c) eqn:E.
  - intros [= <- <-]. by apply Ascii.eqb_eq in E as ->.
  - destruct (split_once c s) as [[x' y']|]; [|done]. intros [= <- <-].
    destruct (IH x' eq_refl) as [-> H]. split; [done|]. simpl. by rewrite E.
Qed.

(** Text after a [c] without [d] cannot be text after a [d] without [c]. *)
Lemma two_ends c d x y z w :
  c ≠ d → (x ++ String c y)%string = (z ++ String d w)%string →
  str_contains d y = false → str_contains c w = false → False.
Proof.
  intros Hcd. revert z. induction x as [|a x IH]; intros z H Hy Hw.
  - destruct z as [|b z]; injection H as -> ->; [done|].
    rewrite str_contains_app in Hy. apply orb_false_iff in Hy as [_ Hy].
    cbn [str_contains] in Hy. by rewrite Ascii.eqb_refl in Hy.
  - destruct z as [|b z]; injection H as -> H.
    + rewrite <-H, str_contains_app in Hw. apply orb_false_iff in Hw as [_ Hw].
      cbn [str_contains] in Hw. by rewrite Ascii.eqb_refl in Hw.
    + by eapply IH.
Qed.

Lemma flagged_join_head ts :
  Forall token ts → ts ≠ [] → ∃ c l, flagged 0 (join_string " " ts) = (false, c) :: l.
Proof.
  destruct ts as [|t ts]; [done|]. intros [[Hne Hws] _]%Forall_cons _.
  destruct t as [|c t]; [done|]. apply contains_whitespace_cons in Hws as [Hl _].
  assert (∀ s, ascii_head s → ws_len (String c t ++ s) = 0%nat) as Hw.
  { intros s Hs. by rewrite ws_len_app. }
  destruct ts as [|t' ts].
  - simpl join_string. cbn [flagged]. rewrite Hl. by eexists _, _.
  - change (join_string " " (String c t :: t' :: ts)) with
      (String c t ++ String " " (join_string " " (t' :: ts)))%string.
    rewrite string_app_cons. cbn [flagged]. rewrite <-string_app_cons, Hw by done.
    by eexists _, _.
Qed.

Lemma trim_join ts : Forall token ts → trim (join_string " " ts) = join_string " " ts.
Proof.
  intros H. destruct ts as [|t ts]; [done|]. apply trim_id. split.
  - by apply flagged_join_head.
  - by apply flagged_join_last.
Qed.

Lemma line_ok_join ts : Forall token ts → line_ok (join_string " " ts).
Proof. intros H. by split; apply join_no_char. Qed.

Lemma unlines_app ls ks : unlines (ls ++ ks) = (unlines ls ++ unlines ks)%string.
Proof.
  induction ls as [|l ls IH]; [done|]. cbn [unlines foldr app]. fold (unlines (ls ++ ks)).
  fold (unlines ls). rewrite IH, <-!string_app_assoc. done.
Qed.

(** ** Words are tokens *)

Lemma ws_len_prefix s t : s ≠ "" → ws_len (s ++ t) = 0%nat → ws_len s = 0%nat.
Proof.
  intros Hs. destruct s as [|c1 s]; [done|]. rewrite string_app_cons. cbn [ws_len].
  destruct (_ || (byte_of c1 =? 32)); [done|].
  destruct s as [|c2 s]; [done|]. rewrite string_app_cons. cbv iota.
  destruct (_ && (_ || _)); [done|]. by destruct s as [|c3 s].
Qed.

(** The rest of a word: [s] begins with it and nothing in it is white space. *)
Lemma first_piece_token s p ps :
  pieces (flagged 0 s) = p :: ps → (∃ t, s = (p ++ t)%string) ∧ contains_whitespace p = false.
Proof.
  revert p ps. induction s as [|c s IH]; intros p ps; cbn [flagged pieces].
  - intros [= <- <-]. split; [by exists ""|done].
  - destruct (ws_len (String c s)) as [|k] eqn:E.
    + cbn [pieces]. destruct (pieces (flagged 0 s)) as [|p' ps'] eqn:Ep.
      * intros [= <- <-]. destruct s; [|by destruct (flagged 0 _) as [|[[] ?] ?]; simpl in Ep; repeat case_match].
        simpl in Ep. done.
      * intros [= <- <-]. destruct (IH p' ps' eq_refl) as [[t ->] Hw].
        split; [by exists t|]. unfold contains_whitespace. cbn [flagged].
        rewrite (ws_len_prefix (String c p') t) by done. exact Hw.
    + cbn [pieces]. intros [= <- _]. split; [by eexists|done].
Qed.

Lemma pieces_tokens k s p : p ∈ pieces (flagged k s) → contains_whitespace p = false.
Proof.
  revert k p. induction s as [|c s IH]; intros k p.
  - cbn. intros ->%list_elem_of_singleton. done.
  - destruct k as [|k].
    + destruct (ws_len (String c s)) as [|k] eqn:E.
      * destruct (pieces (flagged 0 (String c s))) as [|p0 ps] eqn:Ep; [by intros ?%elem_of_nil|].
        intros [->|Hp]%elem_of_cons; [by apply first_piece_token in Ep as [_ ?]|].
        apply (IH 0%nat). cbn [flagged] in Ep. rewrite E in Ep. cbn [pieces] in Ep.
        destruct (pieces (flagged 0 s)); injection Ep as _ <-; [by apply elem_of_nil in Hp|by right].
      * cbn [flagged]. rewrite E. cbn [pieces]. intros [->|Hp]%elem_of_cons; [done|by eapply IH].
    + cbn [flagged pieces]. intros [->|Hp]%elem_of_cons; [done|by eapply IH].
Qed.

Lemma split_whitespace_tokens s : Forall token (split_whitespace s).
Proof.
  apply Forall_forall. intros p Hp. unfold split_whitespace in Hp.
  apply list_elem_of_In, filter_In in Hp as [Hp Hn]. apply list_elem_of_In, pieces_tokens in Hp.
  split; [by intros ->|done].
Qed.
