(* ===== verification/SocketAddr.v ===== *)
(** * SocketAddr: socket addresses of [std::net]

    [SocketAddr::from_str] and [Display for SocketAddr] of the Rust standard
    library, on top of the addresses of NetAddr.v.  What is displayed is parsed
    back ([socket_addr_parse_display]), what is parsed can be displayed
    ([socket_addr_from_str_ok]), and what the parsers accept is made of the
    characters of addresses. *)

From S2P Require Export Str.

#[local] Open Scope Z_scope.

(** A port is a [u16], the flow information and the scope of an IPv6 socket
    address are [u32]. *)
Inductive SocketAddr : Type :=
| SockV4 (bits port : Z)
| SockV6 (bits port flowinfo scope_id : Z).

#[export] Instance SocketAddr_eq_dec : EqDecision SocketAddr.
Proof. solve_decision. Defined.

(** [SocketAddr::new] and [SocketAddr::ip]. *)
Definition socket_addr_new (ip : IpAddr) (port : Z) : SocketAddr :=
  match ip with
  | V4 n => SockV4 n port
  | V6 n => SockV6 n port 0 0
  end.

Definition socket_ip (a : SocketAddr) : IpAddr :=
  match a with
  | SockV4 n _ => V4 n
  | SockV6 n _ _ _ => V6 n
  end.

Definition scope_of (a : SocketAddr) : Z :=
  match a with
  | SockV4 _ _ => 0
  | SockV6 _ _ _ scope => scope
  end.

(** What the parser returns: the flow information is never written. *)
Definition socket_addr_ok (a : SocketAddr) : Prop :=
  match a with
  | SockV4 n port => 0 ≤ n < 2 ^ 32 ∧ 0 ≤ port ≤ 65535
  | SockV6 n port flow scope =>
      0 ≤ n < 2 ^ 128 ∧ 0 ≤ port ≤ 65535 ∧ flow = 0 ∧ 0 ≤ scope ≤ 2 ^ 32 - 1
  end.

(** ** Parsing *)

(** [read_number] without a limit on the digits: overflow is refused. *)
Definition read_unlimited (max : Z) (s : string) : option (Z * string) :=
  let '(ds, rest) := read_digits 10 s in
  if (length ds =? 0)%nat then None
  else if max <? undigits 10 ds then None
  else Some (undigits 10 ds, rest).

Definition read_port (s : string) : option (Z * string) :=
  match read_given_char colon s with
  | Some s' => read_unlimited 65535 s'
  | None => None
  end.

Definition read_scope_id (s : string) : option (Z * string) :=
  match read_given_char "%" s with
  | Some s' => read_unlimited (2 ^ 32 - 1) s'
  | None => None
  end.

Definition read_socket_addr_v4 (s : string) : option (SocketAddr * string) :=
  match read_ipv4_addr s with
  | Some (o, s1) =>
      match read_port s1 with
      | Some (port, rest) => Some (SockV4 (undigits 256 o) port, rest)
      | None => None
      end
  | None => None
  end.

Definition read_socket_addr_v6 (s : string) : option (SocketAddr * string) :=
  match read_given_char "[" s with
  | None => None
  | Some s1 =>
      match read_ipv6_addr s1 with
      | None => None
      | Some (g, s2) =>
          let '(scope, s3) :=
            match read_scope_id s2 with
            | Some r => r
            | None => (0, s2)
            end in
          match read_given_char "]" s3 with
          | None => None
          | Some s4 =>
              match read_port s4 with
              | Some (port, rest) => Some (SockV6 (undigits 65536 g) port 0 scope, rest)
              | None => None
              end
          end
      end
  end.

(** [SocketAddr::from_str]: the whole string is read. *)
Definition socket_addr_from_str (s : string) : option SocketAddr :=
  let r := match read_socket_addr_v4 s with
           | Some r => Some r
           | None => read_socket_addr_v6 s
           end in
  match r with
  | Some (a, "") => Some a
  | _ => None
  end.

(** ** [Display] *)

Fixpoint strip_zeros (l : list Z) : list Z :=
  match l with
  | d :: (_ :: _) as l' => if d =? 0 then strip_zeros l' else d :: l'
  | _ => l
  end.

(** [Display] of a [u16] or [u32]: at most ten digits. *)
Definition dec_number (n : Z) : string := digits_string (strip_zeros (digits 10 10 n)).

Definition socket_addr_display (a : SocketAddr) : string :=
  match a with
  | SockV4 n port => (ip_display (V4 n) ++ ":" ++ dec_number port)%string
  | SockV6 n port _ scope =>
      if scope =? 0 then ("[" ++ ip_display (V6 n) ++ "]:" ++ dec_number port)%string
      else ("[" ++ ip_display (V6 n) ++ "%" ++ dec_number scope ++ "]:" ++
            dec_number port)%string
  end.

Example socket_ex1 : socket_addr_from_str "192.0.2.53:05353" = Some (SockV4 0xC0000235 5353).
Proof. reflexivity. Qed.
Example socket_ex2 : socket_addr_from_str "[fe80::1%2]:53" = Some (SockV6 (0xfe80 * 2 ^ 112 + 1) 53 0 2).
Proof. reflexivity. Qed.
Example socket_ex3 : socket_addr_display (SockV6 (0xfe80 * 2 ^ 112 + 1) 53 0 2) = "[fe80::1%2]:53".
Proof. reflexivity. Qed.
Example socket_ex4 : socket_addr_from_str "192.0.2.53:65536" = None.
Proof. reflexivity. Qed.

(** ** Numbers *)

Lemma strip_zeros_spec l :
  l ≠ [] → Forall (λ d, 0 ≤ d < 10) l →
  strip_zeros l ≠ [] ∧ Forall (λ d, 0 ≤ d < 10) (strip_zeros l) ∧
  undigits 10 (strip_zeros l) = undigits 10 l.
Proof.
  intros Hl H. induction H as [|d l Hd H IH]; [done|]. destruct l as [|d' l].
  - simpl. split_and!; [done|by constructor|done].
  - change (strip_zeros (d :: d' :: l)) with
      (if d =? 0 then strip_zeros (d' :: l) else d :: d' :: l).
    destruct (d =? 0) eqn:E.
    + apply Z.eqb_eq in E as ->. destruct IH as (H1 & H2 & H3); [done|].
      split_and!; [done|done|]. by rewrite H3.
    + split_and!; [done|by constructor|done].
Qed.

Lemma read_unlimited_dec max n rest :
  0 ≤ n ≤ max → max < 10 ^ 10 → no_digit 10 rest →
  read_unlimited max (dec_number n ++ rest) = Some (n, rest).
Proof.
  intros Hn Hmax Hrest. unfold read_unlimited, dec_number.
  destruct (strip_zeros_spec (digits 10 10 n)) as (Hne & Hd & Hu); [| |].
  { intros E. by apply (f_equal length) in E; rewrite length_digits in E. }
  { by apply digits_range. }
  rewrite read_digits_string; [|eapply Forall_impl; [done|];
    intros d Hdr; by apply digit_chars_ok; [left|]|done].
  rewrite Hu, undigits_digits by (simpl; lia).
  destruct (strip_zeros _); [done|]. simpl.
  by replace (max <? n) with false by lia.
Qed.

Lemma dec_number_no_char c n : to_digit 16 c = None → str_contains c (dec_number n) = false.
Proof.
  intros Hc. unfold dec_number. apply digits_string_no_char; [done|].
  destruct (strip_zeros_spec (digits 10 10 n)) as (_ & Hd & _).
  { intros E. by apply (f_equal length) in E; rewrite length_digits in E. }
  { by apply digits_range. }
  eapply Forall_impl; [done|]. simpl. lia.
Qed.

Lemma read_port_dec n rest :
  0 ≤ n ≤ 65535 → no_digit 10 rest →
  read_port (":" ++ dec_number n ++ rest) = Some (n, rest).
Proof.
  intros Hn Hr. unfold read_port.
  change (read_given_char colon (":" ++ dec_number n ++ rest)%string) with
    (Some (dec_number n ++ rest)%string).
  by apply read_unlimited_dec.
Qed.

(** ** What is displayed is parsed back *)

(** The text of a socket address is read back whatever comes after it: nothing,
    or an interface. *)
Definition display_end (s : string) : Prop :=
  match s with
  | "" => True
  | String c _ => c = "%"%char
  end.

Lemma display_end_no_digit s : display_end s → no_digit 10 s.
Proof. destruct s as [|c s]; [done|]. by intros ->. Qed.

Lemma read_scope_none rest : read_scope_id ("]" ++ rest) = None.
Proof. done. Qed.

Lemma read_scope_dec n rest :
  0 ≤ n ≤ 2 ^ 32 - 1 → read_scope_id ("%" ++ dec_number n ++ "]" ++ rest) =
    Some (n, ("]" ++ rest)%string).
Proof.
  intros Hn. unfold read_scope_id.
  change (read_given_char "%" ("%" ++ dec_number n ++ "]" ++ rest)%string) with
    (Some (dec_number n ++ "]" ++ rest)%string).
  by apply read_unlimited_dec.
Qed.

Lemma read_socket_addr_v6_display n port scope rest :
  socket_addr_ok (SockV6 n port 0 scope) → display_end rest → str_contains dot rest = false →
  read_socket_addr_v6 (socket_addr_display (SockV6 n port 0 scope) ++ rest) =
    Some (SockV6 n port 0 scope, rest).
Proof.
  intros (Hn & Hp & _ & Hs) Hend%display_end_no_digit Hdot. unfold socket_addr_display.
  assert (str_contains dot (dec_number port) = false) as Hpd by by apply dec_number_no_char.
  assert (str_contains dot (dec_number scope) = false) as Hsd by by apply dec_number_no_char.
  destruct (scope =? 0) eqn:Es; rewrite <-!string_app_assoc; unfold read_socket_addr_v6, ip_display;
    change (read_given_char "[" ("[" ++ ?t)%string) with (Some t); cbv iota.
  - apply Z.eqb_eq in Es as ->.
    rewrite read_ipv6_display_rest;
      [|by left|by rewrite !str_contains_app, Hpd, Hdot].
    change ("]:" ++ ?t)%string with ("]" ++ ":" ++ t)%string.
    rewrite read_scope_none.
    change (read_given_char "]" ("]" ++ ?t)%string) with (Some t). cbv iota.
    rewrite read_port_dec by done. unfold segments. by rewrite undigits_digits.
  - rewrite read_ipv6_display_rest;
      [|by right|by rewrite !str_contains_app, Hpd, Hsd, Hdot].
    change ("]:" ++ ?t)%string with ("]" ++ ":" ++ t)%string.
    rewrite read_scope_dec by done.
    change (read_given_char "]" ("]" ++ ?t)%string) with (Some t). cbv iota.
    rewrite read_port_dec by done. unfold segments. by rewrite undigits_digits.
Qed.

Lemma read_socket_addr_v4_display n port rest :
  socket_addr_ok (SockV4 n port) → display_end rest →
  read_socket_addr_v4 (socket_addr_display (SockV4 n port) ++ rest) =
    Some (SockV4 n port, rest).
Proof.
  intros [Hn Hp] Hend%display_end_no_digit.
  unfold read_socket_addr_v4, socket_addr_display, ip_display. rewrite <-!string_app_assoc.
  rewrite read_ipv4_display; [|apply length_digits|by apply digits_range|done].
  rewrite read_port_dec by done. unfold octets. by rewrite undigits_digits.
Qed.

Lemma socket_addr_parse_display a :
  socket_addr_ok a → socket_addr_from_str (socket_addr_display a) = Some a.
Proof.
  intros Ha. unfold socket_addr_from_str. destruct a as [n port|n port flow scope].
  - pose proof (read_socket_addr_v4_display n port "" Ha I) as H.
    rewrite string_app_nil in H. by rewrite H.
  - destruct Ha as (Hn & Hp & -> & Hs).
    pose proof (read_socket_addr_v6_display n port scope "" ltac:(done) I eq_refl) as H.
    rewrite string_app_nil in H. rewrite H.
    assert (∀ t, read_socket_addr_v4 ("[" ++ t)%string = None) as H4 by done.
    unfold socket_addr_display. by destruct (scope =? 0); rewrite H4.
Qed.

(** ** What is parsed *)

(** Every character of [s] satisfies [f]. *)
Fixpoint chars_in (f : ascii → bool) (s : string) : bool :=
  match s with
  | "" => true
  | String c s' => f c && chars_in f s'
  end.

(** The characters of an IP address. *)
Definition net_char (c : ascii) : bool :=
  bool_decide (is_Some (to_digit 16 c)) || Ascii.eqb c dot || Ascii.eqb c colon.

Definition dec_char (c : ascii) : bool := bool_decide (is_Some (to_digit 10 c)).

(** A reader has taken characters of [f] from [s] and left [rest]. *)
Definition consumes (f : ascii → bool) (s rest : string) : Prop :=
  ∃ p, s = (p ++ rest)%string ∧ chars_in f p = true.

Lemma chars_in_app f s t : chars_in f (s ++ t) = chars_in f s && chars_in f t.
Proof. induction s as [|c s IH]; [done|]. rewrite string_app_cons. simpl. by rewrite IH, andb_assoc. Qed.

#[export] Instance consumes_preorder f : PreOrder (consumes f).
Proof.
  split; [by exists ""|]. intros a b c (p & -> & Hp) (q & -> & Hq).
  exists (p ++ q)%string. by rewrite string_app_assoc, chars_in_app, Hp, Hq.
Qed.

Lemma consumes_char (f : ascii → bool) c s : f c = true → consumes f (String c s) s.
Proof. intros Hc. exists (String c ""). simpl. by rewrite Hc. Qed.

Lemma consumes_given f c s s' :
  f c = true → read_given_char c s = Some s' → consumes f s s'.
Proof.
  intros Hf. destruct s as [|a s]; simpl; [done|]. destruct (Ascii.eqb a c) eqn:E; [|done].
  apply Ascii.eqb_eq in E as ->. intros [= ->]. by apply consumes_char.
Qed.

Lemma consumes_digits (f : ascii → bool) radix s ds rest :
  (∀ c d, to_digit radix c = Some d → f c = true) →
  read_digits radix s = (ds, rest) → consumes f s rest.
Proof.
  intros Hf. revert ds. induction s as [|c s IH]; intros ds; simpl; [by intros [= _ <-]|].
  destruct (to_digit radix c) as [d|] eqn:Ed; [|by intros [= _ <-]].
  destruct (read_digits radix s) as [ds' rest']. intros [= _ <-].
  etransitivity; [apply consumes_char; by eapply Hf|by eapply IH].
Qed.

Lemma to_digit_dec_hex c d : to_digit 10 c = Some d → to_digit 16 c = Some d.
Proof.
  unfold to_digit. cbv zeta. set (n := Z.of_N (N_of_ascii c)).
  destruct ((48 <=? n) && (n <=? 57)) eqn:E1.
  - destruct (n - 48 <? 10) eqn:E; [|done]. replace (n - 48 <? 16) with true by lia. done.
  - destruct ((97 <=? n) && (n <=? 122)) eqn:E2.
    + apply andb_true_iff in E2 as [E2 _]. by replace (n - 87 <? 10) with false by lia.
    + destruct ((65 <=? n) && (n <=? 90)) eqn:E3; [|done].
      apply andb_true_iff in E3 as [E3 _]. by replace (n - 55 <? 10) with false by lia.
Qed.

Lemma hex_digit_net c d : to_digit 16 c = Some d → net_char c = true.
Proof. intros H. unfold net_char. by rewrite bool_decide_true by eauto. Qed.

Lemma dec_digit_net c d : to_digit 10 c = Some d → net_char c = true.
Proof. intros H%to_digit_dec_hex. by eapply hex_digit_net. Qed.

Lemma consumes_number radix k max z s n rest :
  (∀ c d, to_digit radix c = Some d → net_char c = true) →
  read_number radix k max z s = Some (n, rest) → consumes net_char s rest.
Proof.
  intros Hr. unfold read_number. destruct (read_digits radix s) as [ds r] eqn:E.
  repeat case_match; try done. intros [= _ <-]. by eapply consumes_digits.
Qed.

Lemma consumes_separator {A} sep i (inner : string → option (A * string)) s x rest :
  net_char sep = true →
  (∀ s x rest, inner s = Some (x, rest) → consumes net_char s rest) →
  read_separator sep i inner s = Some (x, rest) → consumes net_char s rest.
Proof.
  intros Hsep Hin. unfold read_separator. destruct (0 <? i)%nat; [|by apply Hin].
  destruct (read_given_char sep s) as [s'|] eqn:E; [|done]. intros H.
  etransitivity; [by eapply consumes_given|by eapply Hin].
Qed.

Lemma consumes_octets n i s o rest :
  read_octets n i s = Some (o, rest) → consumes net_char s rest.
Proof.
  revert i s o. induction n as [|n IH]; intros i s o; simpl; [by intros [= _ <-]|].
  destruct (read_separator dot i _ s) as [[g s']|] eqn:E; [|done].
  destruct (read_octets n (i + 1) s') as [[gs s'']|] eqn:E2; [|done]. intros [= _ <-].
  etransitivity; [|by eapply IH]. eapply consumes_separator; [..|exact E]; [done|].
  intros s0 x r. apply consumes_number, dec_digit_net.
Qed.

Lemma consumes_groups n i s gs v4 rest :
  read_groups n i s = (gs, v4, rest) → consumes net_char s rest.
Proof.
  revert i s gs v4. induction n as [|n IH]; intros i s gs v4; cbn [read_groups]; [by intros [= _ _ <-]|].
  destruct (if (n =? 0)%nat then None else _) as [[o s']|] eqn:E4.
  - destruct (n =? 0)%nat; [done|]. intros [= _ _ <-].
    eapply consumes_separator; [..|exact E4]; [done|]. apply consumes_octets.
  - destruct (read_separator colon i (read_number 16 4 65535 true) s) as [[g s']|] eqn:E;
      [|by intros [= _ _ <-]].
    destruct (read_groups n (i + 1) s') as [[gs' v4'] s''] eqn:E2. intros [= _ _ <-].
    etransitivity; [|by eapply IH]. eapply consumes_separator; [..|exact E]; [done|].
    intros s0 x r. apply consumes_number, hex_digit_net.
Qed.

Lemma consumes_ipv6 s g rest : read_ipv6_addr s = Some (g, rest) → consumes net_char s rest.
Proof.
  unfold read_ipv6_addr. destruct (read_groups 8 0 s) as [[h v4] s1] eqn:E1.
  apply consumes_groups in E1. destruct (_ =? 8)%nat; [by intros [= _ <-]|].
  destruct v4; [done|]. destruct (read_given_char colon s1) as [s2|] eqn:E2; [|done].
  destruct (read_given_char colon s2) as [s3|] eqn:E3; [|done]. cbv zeta.
  destruct (read_groups _ 0 s3) as [[t v4] s4] eqn:E4. intros [= _ <-].
  apply consumes_given with (f := net_char) in E2; [|done].
  apply consumes_given with (f := net_char) in E3; [|done]. apply consumes_groups in E4.
  by rewrite E1, E2, E3.
Qed.

Lemma consumes_all f s : consumes f s "" → chars_in f s = true.
Proof. intros (p & -> & H). by rewrite string_app_nil. Qed.

(** The text of an address has no other characters. *)
Lemma ip_from_str_chars s ip : ip_from_str s = Some ip → chars_in net_char s = true.
Proof.
  unfold ip_from_str. intros H. apply consumes_all.
  destruct (read_ipv4_addr s) as [[o [|c r]]|] eqn:E4; [by eapply consumes_octets|done|].
  destruct (read_ipv6_addr s) as [[g [|c r]]|] eqn:E6; [by eapply consumes_ipv6|done..].
Qed.

Lemma net_char_ascii c : net_char c = true → 33 ≤ byte_of c < 128.
Proof.
  assert (negb (net_char c) || ((33 <=? byte_of c) && (byte_of c <? 128)) = true) as H.
  { by destruct c as [[] [] [] [] [] [] [] []]; vm_compute. }
  intros Hc. rewrite Hc in H. simpl in H. lia.
Qed.

Lemma ws_len_ascii c s : 33 ≤ byte_of c < 128 → ws_len (String c s) = 0%nat.
Proof.
  intros H. cbn [ws_len]. replace (byte_of c <=? 13) with false by lia.
  replace (byte_of c =? 32) with false by lia. rewrite andb_false_r.
  replace (byte_of c =? 0xC2) with false by lia. replace (byte_of c =? 0xE1) with false by lia.
  replace (byte_of c =? 0xE2) with false by lia. replace (byte_of c =? 0xE3) with false by lia.
  by destruct s as [|? [|? ?]].
Qed.

Lemma chars_in_no_ws s : chars_in net_char s = true → contains_whitespace s = false.
Proof.
  induction s as [|c s IH]; [done|]. cbn [chars_in]. intros [Hc Hs]%andb_true_iff.
  unfold contains_whitespace. cbn [flagged]. rewrite ws_len_ascii by by apply net_char_ascii.
  by apply IH.
Qed.

Lemma ip_from_str_token s ip : ip_from_str s = Some ip → token s.
Proof.
  intros H. split; [by intros ->|]. by eapply chars_in_no_ws, ip_from_str_chars.
Qed.

Lemma read_unlimited_range max s n rest :
  read_unlimited max s = Some (n, rest) → 0 ≤ n ≤ max.
Proof.
  unfold read_unlimited. destruct (read_digits 10 s) as [ds r] eqn:E.
  apply read_digits_range in E. apply undigits_range in E; [|lia].
  destruct (_ =? 0)%nat; [done|]. destruct (max <? _) eqn:Em; [done|]. intros [= <- <-]. lia.
Qed.

Lemma read_port_Some s n rest : read_port s = Some (n, rest) →
  0 ≤ n ≤ 65535 ∧ ∃ y, s = (":" ++ y ++ rest)%string ∧ chars_in dec_char y = true.
Proof.
  unfold read_port. destruct s as [|c s]; [done|]. cbn [read_given_char].
  destruct (Ascii.eqb c colon) eqn:Ec; [|done]. apply Ascii.eqb_eq in Ec as ->. intros H.
  split; [by eapply read_unlimited_range|]. revert H. unfold read_unlimited.
  destruct (read_digits 10 s) as [ds r] eqn:E. repeat case_match; try done. intros [= _ <-].
  apply consumes_digits with (f := dec_char) in E as (y & -> & Hy).
  - by exists y.
  - intros c d Hd. unfold dec_char. by rewrite bool_decide_true by eauto.
Qed.

Lemma read_scope_range s scope rest :
  (match read_scope_id s with Some r => r | None => (0, s) end) = (scope, rest) →
  0 ≤ scope ≤ 2 ^ 32 - 1.
Proof.
  unfold read_scope_id. destruct (read_given_char "%" s) as [s'|]; [|intros [= <- _]; lia].
  destruct (read_unlimited _ s') as [[n r]|] eqn:E; [|intros [= <- _]; lia].
  intros [= <- _]. by apply read_unlimited_range in E.
Qed.

Lemma socket_addr_from_str_ok s a : socket_addr_from_str s = Some a → socket_addr_ok a.
Proof.
  unfold socket_addr_from_str. intros H.
  destruct (read_socket_addr_v4 s) as [[a4 r]|] eqn:E4.
  - destruct r; [|done]. injection H as <-. unfold read_socket_addr_v4 in E4.
    destruct (read_ipv4_addr s) as [[o s1]|] eqn:Eo; [|done].
    destruct (read_port s1) as [[port rest]|] eqn:Ep; [|done]. injection E4 as <- _.
    apply read_port_Some in Ep as [Hp _]. split; [|done].
    apply read_octets_range in Eo as [Hl Ho]. apply (undigits_range 256) in Ho; [|lia].
    by rewrite Hl in Ho.
  - destruct (read_socket_addr_v6 s) as [[a6 r]|] eqn:E6; [|done].
    destruct r; [|done]. injection H as <-. unfold read_socket_addr_v6 in E6.
    destruct (read_given_char "[" s) as [s1|]; [|done].
    destruct (read_ipv6_addr s1) as [[g s2]|] eqn:Eg; [|done].
    destruct (match read_scope_id s2 with Some r => r | None => (0, s2) end)
      as [scope s3] eqn:Es.
    destruct (read_given_char "]" s3) as [s4|]; [|done].
    destruct (read_port s4) as [[port rest]|] eqn:Ep; [|done]. injection E6 as <- _.
    apply read_port_Some in Ep as [Hp _]. apply read_scope_range in Es.
    apply read_ipv6_range in Eg as [Hl Hg]. apply (undigits_range 65536) in Hg; [|lia].
    rewrite Hl in Hg. done.
Qed.

Definition any_char (c : ascii) : bool := true.

Lemma consumes_any f s rest : consumes f s rest → consumes any_char s rest.
Proof.
  intros (p & -> & _). exists p. split; [done|]. by induction p.
Qed.

Lemma consumes_unlimited max s n rest :
  read_unlimited max s = Some (n, rest) → consumes any_char s rest.
Proof.
  unfold read_unlimited. destruct (read_digits 10 s) as [ds r] eqn:E.
  repeat case_match; try done. intros [= _ <-]. by eapply consumes_digits.
Qed.

Lemma consumes_scope s scope rest :
  (match read_scope_id s with Some r => r | None => (0, s) end) = (scope, rest) →
  consumes any_char s rest.
Proof.
  unfold read_scope_id. destruct (read_given_char "%" s) as [s'|] eqn:E; [|by intros [= _ <-]].
  destruct (read_unlimited _ s') as [[n r]|] eqn:E2; [|by intros [= _ <-]]. intros [= _ <-].
  etransitivity; [by eapply consumes_given|by eapply consumes_unlimited].
Qed.

(** A socket address ends in a colon and the digits of its port. *)
Lemma socket_addr_from_str_port s a :
  socket_addr_from_str s = Some a →
  ∃ x y, s = (x ++ String colon y)%string ∧ chars_in dec_char y = true.
Proof.
  intros H. assert (∃ s1 port, consumes any_char s s1 ∧ read_port s1 = Some (port, ""))
    as (s1 & port & (p & -> & _) & Hp).
  2:{ apply read_port_Some in Hp as (_ & y & -> & Hy). exists p, y. by rewrite string_app_nil. }
  revert H. unfold socket_addr_from_str.
  destruct (read_socket_addr_v4 s) as [[a4 r]|] eqn:E4.
  - destruct r; [|done]. intros _. unfold read_socket_addr_v4 in E4.
    destruct (read_ipv4_addr s) as [[o s1]|] eqn:Eo; [|done].
    destruct (read_port s1) as [[port rest]|] eqn:Ep; [|done]. injection E4 as _ ->.
    exists s1, port. split; [|done]. by eapply consumes_any, consumes_octets.
  - destruct (read_socket_addr_v6 s) as [[a6 r]|] eqn:E6; [|done].
    destruct r; [|done]. intros _. unfold read_socket_addr_v6 in E6.
    destruct (read_given_char "[" s) as [s1|] eqn:E1; [|done].
    destruct (read_ipv6_addr s1) as [[g s2]|] eqn:Eg; [|done].
    destruct (match read_scope_id s2 with Some r => r | None => (0, s2) end)
      as [scope s3] eqn:Es.
    destruct (read_given_char "]" s3) as [s4|] eqn:E3; [|done].
    destruct (read_port s4) as [[port rest]|] eqn:Ep; [|done]. injection E6 as _ ->.
    exists s4, port. split; [|done]. apply consumes_ipv6, consumes_any in Eg.
    apply consumes_scope in Es. apply consumes_given with (f := any_char) in E1; [|done].
    apply consumes_given with (f := any_char) in E3; [|done]. by rewrite E1, Eg, Es, E3.
Qed.
