(* ===== verification/DnsConfig.v ===== *)
(** * DnsConfig: the schema of the DNS configuration

    [src/lib/schema/dns.rs]: the resolver state, the cache configuration and its
    upstream groups, the parsing of nameservers and the validation.  Two things
    are read from outside: the Unicode lowercasing of the standard library
    ([to_lowercase]) and the content of /etc/hosts ([etc_hosts], [None] when it
    cannot be read). *)

From S2P Require Export Errors SocketAddr.

#[local] Open Scope Z_scope.

Definition DNS_OPTS_NO_VALUE : list string :=
  ["debug"; "edns0"; "inet6"; "ip6-bytestring"; "ip6-dotint"; "no-aaaa";
   "no-check-names"; "no-ip6-dotint"; "no-reload"; "no-tld-query"; "rotate";
   "single-request"; "single-request-reopen"; "trust-ad"; "use-vc"].

Definition DNS_OPTS_WITH_VALUE : list string := ["ndots"; "timeout"; "attempts"].

Record DnsResolverClient : Type := dns_client {
  dc_server : option (list string);
  dc_search : option (list string);
  dc_options : option (list string);
}.

Record NipartDnsFallback : Type := dns_fallback {
  fb_nameservers : list string;
  fb_disable_ipv6 : bool;
}.

Record NipartDnsDoh : Type := dns_doh {
  doh_nameservers : list IpAddr;
  doh_disable_ipv6 : bool;
}.

Record NipartDnsUpstreamGroup : Type := dns_group {
  g_name : string;
  g_domains : list string;
  g_nameservers : list string;
  g_disable_ipv6 : bool;
  g_from_dhcp : bool;
}.

Record DnsCacheConfig : Type := dns_cache {
  cc_enabled : bool;
  cc_bind : string;
  cc_max_cache_size : Z;
  cc_load_etc_hosts : bool;
  cc_auto_dns : bool;
  cc_fallback : NipartDnsFallback;
  cc_doh : option NipartDnsDoh;
  cc_groups : list NipartDnsUpstreamGroup;
}.

Record DnsResolver : Type := dns_resolver {
  dr_running : option DnsResolverClient;
  dr_config : option DnsResolverClient;
  dr_cache : option DnsCacheConfig;
}.

#[export] Instance DnsResolverClient_eq_dec : EqDecision DnsResolverClient.
Proof. solve_decision. Defined.
#[export] Instance NipartDnsFallback_eq_dec : EqDecision NipartDnsFallback.
Proof. solve_decision. Defined.
#[export] Instance NipartDnsDoh_eq_dec : EqDecision NipartDnsDoh.
Proof. solve_decision. Defined.
#[export] Instance NipartDnsUpstreamGroup_eq_dec : EqDecision NipartDnsUpstreamGroup.
Proof. solve_decision. Defined.
#[export] Instance DnsCacheConfig_eq_dec : EqDecision DnsCacheConfig.
Proof. solve_decision. Defined.

(** The [Default]s. *)
Definition dns_client_default : DnsResolverClient := dns_client None None None.
Definition dns_resolver_default : DnsResolver := dns_resolver None None None.
Definition dns_fallback_default : NipartDnsFallback := dns_fallback [] false.

Definition DEFAULT_BIND : string := "127.0.0.1:53".
Definition DEFAULT_MAX_CACHE_SIZE : Z := 4096.

Definition dns_cache_default : DnsCacheConfig :=
  dns_cache false DEFAULT_BIND DEFAULT_MAX_CACHE_SIZE true true dns_fallback_default None [].

(** [is_empty], [merge] and [gen_diff]. *)
Definition client_is_empty (c : DnsResolverClient) : bool :=
  bool_decide (dc_server c = None) && bool_decide (dc_search c = None) &&
  bool_decide (dc_options c = None).

Definition resolver_is_empty (d : DnsResolver) : bool :=
  bool_decide (dr_running d = None) && bool_decide (dr_config d = None) &&
  bool_decide (dr_cache d = None).

Definition resolver_merge (self new_state : DnsResolver) : res DnsResolver :=
  if resolver_is_empty new_state then Ok self
  else Ok (dns_resolver
    (if bool_decide (is_Some (dr_running new_state)) then dr_running new_state else dr_running self)
    (if bool_decide (is_Some (dr_config new_state)) then dr_config new_state else dr_config self)
    (if bool_decide (is_Some (dr_cache new_state)) then dr_cache new_state else dr_cache self)).

Definition resolver_gen_diff (self old : DnsResolver) : DnsResolver :=
  dns_resolver None (option_or (dr_config self) (dr_config old))
    (option_or (dr_cache self) (dr_cache old)).

(** ** Nameservers *)

Definition is_ipv6_link_local (n : Z) : bool :=
  Z.land (nth 0 (segments n) 0) 0xffc0 =? 0xfe80.

(** An interface name without white space and without '/'. *)
Definition zone_ok (iface_name : string) : bool :=
  nonempty iface_name && negb (contains_whitespace iface_name) &&
  negb (str_contains "/" iface_name).

Definition parse_dns_server (srv : string) : res IpAddr :=
  match ip_from_str srv with
  | Some ip => Ok ip
  | None =>
      match split_once "%" srv with
      | Some (addr, iface_name) =>
          if zone_ok iface_name then
            match ip_from_str addr with
            | Some (V6 n) => if is_ipv6_link_local n then Ok (V6 n) else fail InvalidArgument
            | _ => fail InvalidArgument
            end
          else fail InvalidArgument
      | None => fail InvalidArgument
      end
  end.

(** The URL of a DNS over HTTPS server. *)
Definition doh_url (srv : string) : option string :=
  match strip_prefix "https://" srv with
  | Some rest => if nonempty rest then Some srv else None
  | None => None
  end.

Definition validate_interface_name (interface : string) : res unit :=
  if negb (nonempty interface) || str_contains "%" interface || str_contains ":" interface ||
     str_contains "/" interface || contains_whitespace interface
  then fail InvalidArgument
  else Ok tt.

Inductive DnsUpstreamServer : Type :=
| UpIp (addr : SocketAddr) (port_explicit : bool) (interface : option string)
| UpDoh (url : string).

#[export] Instance DnsUpstreamServer_eq_dec : EqDecision DnsUpstreamServer.
Proof. solve_decision. Defined.

Definition upstream_from_ip (ip : IpAddr) : DnsUpstreamServer :=
  UpIp (socket_addr_new ip 53) false None.

Definition upstream_parse (srv : string) : res DnsUpstreamServer :=
  match doh_url srv with
  | Some url => Ok (UpDoh url)
  | None =>
      match socket_addr_from_str srv with
      | Some addr => Ok (UpIp addr true None)
      | None =>
          match split_once "%" srv with
          | Some (addr_text, interface) =>
              let? _ := validate_interface_name interface in
              match socket_addr_from_str addr_text with
              | Some addr => Ok (UpIp addr true (Some interface))
              | None => fail InvalidArgument
              end
          | None =>
              let? ip := parse_dns_server srv in
              Ok (upstream_from_ip ip)
          end
      end
  end.

Definition is_doh (u : DnsUpstreamServer) : bool :=
  match u with UpDoh _ => true | _ => false end.

(** [Display for DnsUpstreamServer]. *)
Definition upstream_display (u : DnsUpstreamServer) : string :=
  match u with
  | UpIp addr true (Some interface) => (socket_addr_display addr ++ "%" ++ interface)%string
  | UpIp addr true None => socket_addr_display addr
  | UpIp addr false None => ip_display (socket_ip addr)
  | UpIp addr false (Some interface) => (ip_display (socket_ip addr) ++ "%" ++ interface)%string
  | UpDoh url => url
  end.

Definition validate_nameservers (nameservers : list string) : res unit :=
  let? _ := map_result upstream_parse nameservers in Ok tt.

Definition validate_domain_pattern (domain : string) : res unit :=
  if negb (nonempty domain) then fail InvalidArgument
  else if contains_whitespace domain then fail InvalidArgument
  else Ok tt.

(** ** The validation of the parts *)

Definition validate_option (opt : string) : res unit :=
  match split_once ":" opt with
  | Some (name, _) =>
      if bool_decide (name ∈ DNS_OPTS_WITH_VALUE) then Ok tt else fail InvalidArgument
  | None => if bool_decide (opt ∈ DNS_OPTS_NO_VALUE) then Ok tt else fail InvalidArgument
  end.

Definition client_validate (c : DnsResolverClient) : res unit :=
  let? _ := match dc_server c with
            | Some servers => let? _ := map_result parse_dns_server servers in Ok tt
            | None => Ok tt
            end in
  match dc_options c with
  | Some options => let? _ := map_result validate_option options in Ok tt
  | None => Ok tt
  end.

Definition fallback_validate (f : NipartDnsFallback) : res unit :=
  validate_nameservers (fb_nameservers f).

Definition doh_validate (d : NipartDnsDoh) : res unit :=
  if bool_decide (doh_nameservers d = []) then fail InvalidArgument else Ok tt.

Definition group_validate (g : NipartDnsUpstreamGroup) : res unit :=
  let? _ := map_result validate_domain_pattern (g_domains g) in
  validate_nameservers (g_nameservers g).

(** Parsed listen address. *)
Definition bind_addr (c : DnsCacheConfig) : option SocketAddr :=
  socket_addr_from_str (cc_bind c).

(** The loop over the groups with the names seen so far. *)
Fixpoint check_groups (group_names : gset string) (groups : list NipartDnsUpstreamGroup)
    : res unit :=
  match groups with
  | [] => Ok tt
  | group :: groups' =>
      if g_from_dhcp group then
        let? _ := group_validate group in check_groups group_names groups'
      else if negb (nonempty (g_name group)) then fail InvalidArgument
      else if bool_decide (g_name group ∈ group_names) then fail InvalidArgument
      else
        let? _ := group_validate group in
        check_groups ({[g_name group]} ∪ group_names) groups'
  end.

(** Two groups, none of DHCP, with a domain in common. *)
Definition domains_overlap (group_a group_b : NipartDnsUpstreamGroup) : bool :=
  existsb (λ domain_a, existsb (eq_ignore_ascii_case domain_a) (g_domains group_b))
    (g_domains group_a).

Fixpoint check_overlaps (groups : list NipartDnsUpstreamGroup) : res unit :=
  match groups with
  | [] => Ok tt
  | group_a :: groups' =>
      if g_from_dhcp group_a then check_overlaps groups'
      else if existsb (λ group_b, negb (g_from_dhcp group_b) && domains_overlap group_a group_b)
                groups'
      then fail InvalidArgument
      else check_overlaps groups'
  end.

(** One line of a hosts file names the host. *)
Definition hosts_line_has (hostname line : string) : bool :=
  let line := hd "" (str_split "#" line) in
  match split_whitespace line with
  | [] => false
  | _ :: names => existsb (λ name, eq_ignore_ascii_case name hostname) names
  end.

Definition host_in_hosts_file (hostname : string) (content : option string) : bool :=
  match content with
  | None => false
  | Some content => existsb (hosts_line_has hostname) (lines content)
  end.

Section Outside.
Context (to_lowercase : string → string) (etc_hosts : option string).

(** The lowercase hostname of a DNS over HTTPS URL. *)
Definition doh_url_hostname (url : string) : option string :=
  match strip_prefix "https://" url with
  | None => None
  | Some without_scheme =>
      let authority := hd "" (str_split "/" without_scheme) in
      let hostname := match rsplit_once "@" authority with
                      | Some (_, h) => h
                      | None => authority
                      end in
      let bracketed := match strip_prefix "[" hostname with
                       | Some h => fst <$> split_once "]" h
                       | None => None
                       end in
      let hostname := match bracketed with
                      | Some h => h
                      | None => hd hostname (str_split ":" hostname)
                      end in
      if nonempty hostname then Some (to_lowercase hostname) else None
  end.

(** Hostnames of all configured DNS over HTTPS nameservers, without duplicates. *)
Definition doh_hostnames (c : DnsCacheConfig) : list string :=
  foldl (λ ret srv, match doh_url_hostname srv with
                    | Some hostname =>
                        if bool_decide (hostname ∈ ret) then ret else ret ++ [hostname]
                    | None => ret
                    end)
    [] (fb_nameservers (cc_fallback c) ++ mjoin (g_nameservers <$> cc_groups c)).

Definition use_doh_validation (c : DnsCacheConfig) : res unit :=
  if bool_decide (doh_hostnames c = []) then Ok tt
  else
    match cc_doh c with
    | Some doh =>
        if bool_decide (doh_nameservers doh = []) then fail InvalidArgument else Ok tt
    | None =>
        let unresolved :=
          List.filter (λ host, negb (host_in_hosts_file host etc_hosts)) (doh_hostnames c) in
        if bool_decide (unresolved = []) then Ok tt else fail InvalidArgument
    end.

(** [DnsCacheConfig::validate]; the warning about a bind address that is no
    loopback address is a log message. *)
Definition cache_validate (c : DnsCacheConfig) : res unit :=
  match bind_addr c with
  | None => fail InvalidArgument
  | Some _ =>
      let? _ := fallback_validate (cc_fallback c) in
      let? _ := match cc_doh c with
                | Some doh => doh_validate doh
                | None => Ok tt
                end in
      let? _ := check_groups ∅ (cc_groups c) in
      let? _ := check_overlaps (cc_groups c) in
      use_doh_validation c
  end.

(** The first entry of [config.server]. *)
Definition first_server (d : DnsResolver) : option string :=
  match dr_config d with
  | Some c => match dc_server c with Some servers => head servers | None => None end
  | None => None
  end.

(** [DnsResolver::validate]. *)
Definition resolver_validate (d : DnsResolver) : res unit :=
  let? _ := match dr_config d with
            | Some config => client_validate config
            | None => Ok tt
            end in
  match dr_cache d with
  | None => Ok tt
  | Some cache =>
      let? _ := cache_validate cache in
      match (if cc_enabled cache then bind_addr cache else None) with
      | None => Ok tt
      | Some cache_addr =>
          match first_server d with
          | Some srv =>
              let? first_addr := parse_dns_server srv in
              if bool_decide (first_addr = socket_ip cache_addr) ||
                 bool_decide (socket_addr_new first_addr 53 = cache_addr)
              then Ok tt
              else fail InvalidArgument
          | None => fail InvalidArgument
          end
      end
  end.
End Outside.

(** ** Nameservers that were parsed *)

(** The values [upstream_parse] returns. *)
Definition upstream_ok (u : DnsUpstreamServer) : Prop :=
  match u with
  | UpDoh url => doh_url url = Some url
  | UpIp addr true None => socket_addr_ok addr
  | UpIp addr true (Some interface) =>
      socket_addr_ok addr ∧ scope_of addr = 0 ∧ validate_interface_name interface = Ok tt
  | UpIp addr false interface =>
      interface = None ∧ ∃ ip, ip_ok ip ∧ addr = socket_addr_new ip 53
  end.

Lemma socket_addr_no_scope s a :
  socket_addr_from_str s = Some a → str_contains "%" s = false → scope_of a = 0.
Proof.
  assert (∀ f s r, consumes f s r → str_contains "%" s = false → str_contains "%" r = false) as Hc.
  { intros f s0 r (p & -> & _). rewrite str_contains_app. by intros [_ ?]%orb_false_iff. }
  unfold socket_addr_from_str. intros H Hn.
  destruct (read_socket_addr_v4 s) as [[a4 r]|] eqn:E4.
  - destruct r; [|done]. injection H as <-. unfold read_socket_addr_v4 in E4.
    repeat case_match; simplify_eq. done.
  - destruct (read_socket_addr_v6 s) as [[a6 r]|] eqn:E6; [|done].
    destruct r; [|done]. injection H as <-. unfold read_socket_addr_v6 in E6.
    destruct (read_given_char "[" s) as [s1|] eqn:E1; [|done].
    destruct (read_ipv6_addr s1) as [[g s2]|] eqn:Eg; [|done].
    apply consumes_given with (f := any_char) in E1; [|done]. apply consumes_ipv6 in Eg.
    assert (str_contains "%" s2 = false) as Hs2 by by eapply Hc, Hc.
    assert (read_scope_id s2 = None) as Hsc.
    { unfold read_scope_id. destruct s2 as [|c s2]; [done|]. cbn in *.
      apply orb_false_iff in Hs2 as [Hs2 _]. cbn in Hs2. by rewrite Hs2. }
    rewrite Hsc in E6. repeat case_match; simplify_eq. done.
Qed.

Lemma parse_dns_server_ok srv ip : parse_dns_server srv = Ok ip → ip_ok ip.
Proof.
  unfold parse_dns_server. destruct (ip_from_str srv) as [i|] eqn:E.
  - intros [= <-]. by eapply ip_from_str_ok.
  - destruct (split_once "%" srv) as [[a z]|]; [|done]. destruct (zone_ok z); [|done].
    destruct (ip_from_str a) as [[n|n]|] eqn:Ea; [done| |done].
    destruct (is_ipv6_link_local n); [|done]. intros [= <-]. by eapply ip_from_str_ok.
Qed.

Lemma upstream_parse_ok srv u : upstream_parse srv = Ok u → upstream_ok u.
Proof.
  unfold upstream_parse. destruct (doh_url srv) as [url|] eqn:Ed.
  { intros [= <-]. unfold doh_url in Ed. repeat case_match; simplify_eq.
    unfold upstream_ok, doh_url. by repeat (case_match; simplify_eq). }
  destruct (socket_addr_from_str srv) as [a|] eqn:Es.
  { intros [= <-]. by eapply socket_addr_from_str_ok. }
  destruct (split_once "%" srv) as [[t i]|] eqn:Ep.
  - destruct (validate_interface_name i) as [[]|] eqn:Ei; [|done].
    destruct (socket_addr_from_str t) as [a|] eqn:Et; [|done]. intros [= <-].
    apply split_once_Some in Ep as [_ Ht]. split_and!; [|by eapply socket_addr_no_scope|done].
    by eapply socket_addr_from_str_ok.
  - destruct (parse_dns_server srv) as [ip|] eqn:Eip; [|done]. intros [= <-].
    split; [done|]. exists ip. split; [by eapply parse_dns_server_ok|done].
Qed.

(** A text that begins like an address. *)
Definition address_head (s : string) : Prop :=
  match s with
  | String c _ => net_char c = true
  | "" => False
  end.

Lemma ip_display_head ip t : ip_ok ip → address_head (ip_display ip ++ t).
Proof.
  intros H%ip_parse_display. pose proof (ip_from_str_chars _ _ H) as Hc.
  destruct (ip_display ip) as [|c s]; [done|]. simpl in *. by apply andb_true_iff in Hc as [? _].
Qed.

Lemma address_not_doh s : address_head s → doh_url s = None.
Proof.
  destruct s as [|c s]; [done|]. intros H. unfold doh_url. cbn [strip_prefix].
  destruct (Ascii.eqb "h" c) eqn:E; [|done]. apply Ascii.eqb_eq in E as <-. by vm_compute in H.
Qed.

Lemma address_not_bracket s : address_head s → read_given_char "[" s = None.
Proof.
  destruct s as [|c s]; [done|]. intros H. cbn [read_given_char].
  destruct (Ascii.eqb c "[") eqn:E; [|done]. apply Ascii.eqb_eq in E as ->. by vm_compute in H.
Qed.

Lemma socket_display_not_doh a t :
  socket_addr_ok a → doh_url (socket_addr_display a ++ t) = None.
Proof.
  destruct a as [n port|n port flow scope]; intros Ha; unfold socket_addr_display.
  - rewrite <-string_app_assoc. by apply address_not_doh, ip_display_head, Ha.
  - by destruct (scope =? 0).
Qed.

Lemma socket_display_no_percent a :
  socket_addr_ok a → scope_of a = 0 → str_contains "%" (socket_addr_display a) = false.
Proof.
  destruct a as [n port|n port flow scope]; intros Ha Hs; unfold socket_addr_display.
  - by rewrite !str_contains_app, ip_display_no_char, dec_number_no_char.
  - simpl in Hs. rewrite Hs. cbn [Z.eqb].
    by rewrite !str_contains_app, ip_display_no_char, dec_number_no_char.
Qed.

Lemma ip_display_not_socket ip : ip_ok ip → socket_addr_from_str (ip_display ip) = None.
Proof.
  intros Hip. unfold socket_addr_from_str.
  assert (read_socket_addr_v6 (ip_display ip) = None) as ->.
  { unfold read_socket_addr_v6. pose proof (ip_display_head ip "" Hip) as H.
    rewrite string_app_nil in H. by rewrite address_not_bracket. }
  assert (read_socket_addr_v4 (ip_display ip) = None) as ->; [|done].
  unfold read_socket_addr_v4. destruct ip as [n|n]; unfold ip_display.
  - pose proof (read_ipv4_display (octets n) "" (length_digits _ _ _)
      (digits_range 256 4 n ltac:(lia)) I) as H.
    rewrite string_app_nil in H. by rewrite H.
  - by rewrite ipv6_display_not_ipv4.
Qed.

Lemma interface_name_chars i :
  validate_interface_name i = Ok tt →
  str_contains "%" i = false ∧ str_contains ":" i = false ∧ contains_whitespace i = false.
Proof.
  unfold validate_interface_name. destruct (_ || _) eqn:E; [done|].
  intros _. rewrite !orb_false_iff in E. tauto.
Qed.

Lemma dec_chars_no_percent y : chars_in dec_char y = true → str_contains "%" y = false.
Proof.
  induction y as [|c y IH]; [done|]. cbn [chars_in str_contains]. intros [Hc Hy]%andb_true_iff.
  rewrite (IH Hy), orb_false_r. apply Ascii.eqb_neq. intros ->. by vm_compute in Hc.
Qed.

Lemma bound_not_socket s i :
  validate_interface_name i = Ok tt → socket_addr_from_str (s ++ "%" ++ i) = None.
Proof.
  intros (_ & Hi & _)%interface_name_chars.
  destruct (socket_addr_from_str _) as [a|] eqn:E; [|done]. exfalso.
  apply socket_addr_from_str_port in E as (x & y & E & Hy).
  by eapply (two_ends "%" colon s i x y); [|exact E| |apply dec_chars_no_percent].
Qed.

Lemma upstream_parse_display_ok u : upstream_ok u → upstream_parse (upstream_display u) = Ok u.
Proof.
  destruct u as [a [|] [i|]|url]; cbn [upstream_ok upstream_display]; unfold upstream_parse.
  - intros (Ha & Hs & Hi). rewrite socket_display_not_doh by done.
    rewrite bound_not_socket by done.
    change ("%" ++ i)%string with (String "%" i). rewrite split_once_app
      by by apply socket_display_no_percent.
    by rewrite Hi, socket_addr_parse_display.
  - intros Ha. pose proof (socket_display_not_doh a "" Ha) as H. rewrite string_app_nil in H.
    by rewrite H, socket_addr_parse_display.
  - by intros [? _].
  - intros (_ & ip & Hip & ->).
    assert (socket_ip (socket_addr_new ip 53) = ip) as -> by by destruct ip.
    pose proof (ip_display_head ip "" Hip) as Hh. rewrite string_app_nil in Hh.
    rewrite address_not_doh, ip_display_not_socket by done.
    rewrite split_once_None by by apply ip_display_no_char.
    unfold parse_dns_server. by rewrite ip_parse_display.
  - by intros ->.
Qed.

(** Round trip of the upstream nameservers.  Whatever accepted text a nameserver was
    written with, the text the daemon shows for it, and hands to the embedded server, is
    parsed to the same nameserver: the address, the port, whether the port was explicit,
    the scope and the interface it is bound to, or the URL. *)
Theorem upstream_parse_display srv u :
  upstream_parse srv = Ok u → upstream_parse (upstream_display u) = Ok u.
Proof. intros H. by apply upstream_parse_display_ok, (upstream_parse_ok srv). Qed.

Lemma upstream_parse_display_witness :
  upstream_parse "[2001:DB8:0::53]:0053%eth1" =
    Ok (UpIp (SockV6 (0x20010db8 * 2 ^ 96 + 0x53) 53 0 0) true (Some "eth1")) ∧
  upstream_parse "[2001:db8::53]:53%eth1" =
    Ok (UpIp (SockV6 (0x20010db8 * 2 ^ 96 + 0x53) 53 0 0) true (Some "eth1")).
Proof.
  assert (upstream_parse "[2001:DB8:0::53]:0053%eth1" =
    Ok (UpIp (SockV6 (0x20010db8 * 2 ^ 96 + 0x53) 53 0 0) true (Some "eth1"))) as H
    by (vm_compute; reflexivity).
  split; [exact H|]. exact (upstream_parse_display _ _ H).
Defined.

(** ** What the validation accepts *)

(** A nameserver of the host resolver with its address: an address, or an IPv6 link-local
    address with the name of an interface. *)
Definition names_address (srv : string) (ip : IpAddr) : Prop :=
  ip_from_str srv = Some ip ∨
  ip_from_str srv = None ∧
  ∃ addr zone n, srv = (addr ++ "%" ++ zone)%string ∧ str_contains "%" addr = false ∧
    zone_ok zone = true ∧ ip_from_str addr = Some (V6 n) ∧ is_ipv6_link_local n = true ∧
    ip = V6 n.

Definition option_accepted (opt : string) : Prop :=
  opt ∈ DNS_OPTS_NO_VALUE ∨
  ∃ name value, name ∈ DNS_OPTS_WITH_VALUE ∧ opt = (name ++ ":" ++ value)%string.

Definition client_accepted (c : DnsResolverClient) : Prop :=
  (∀ srv, srv ∈ default [] (dc_server c) → ∃ ip, names_address srv ip) ∧
  (∀ opt, opt ∈ default [] (dc_options c) → option_accepted opt).

Definition nameservers_accepted (l : list string) : Prop :=
  ∀ srv, srv ∈ l → ∃ u, upstream_parse srv = Ok u.

Definition group_accepted (g : NipartDnsUpstreamGroup) : Prop :=
  (∀ domain, domain ∈ g_domains g → token domain) ∧ nameservers_accepted (g_nameservers g).

(** The groups of the user, not generated from DHCP. *)
Definition user_groups (l : list NipartDnsUpstreamGroup) : list NipartDnsUpstreamGroup :=
  List.filter (λ g, negb (g_from_dhcp g)) l.

Definition share_domain (a b : NipartDnsUpstreamGroup) : Prop :=
  ∃ da db, da ∈ g_domains a ∧ db ∈ g_domains b ∧ eq_ignore_ascii_case da db = true.

Definition cache_nameservers (c : DnsCacheConfig) : list string :=
  fb_nameservers (cc_fallback c) ++ mjoin (g_nameservers <$> cc_groups c).

Lemma each_ok {A B} (f : A → res B) l :
  (let? _ := map_result f l in Ok tt) = Ok tt ↔ ∀ x, x ∈ l → ∃ y, f x = Ok y.
Proof.
  rewrite <-map_result_is_ok. by destruct (map_result f l).
Qed.

Lemma then_ok {A} (x : res A) (y : res unit) :
  (let? _ := x in y) = Ok tt ↔ (∃ a, x = Ok a) ∧ y = Ok tt.
Proof. destruct x; [|by split; [|intros [[? ?] _]]]. naive_solver. Qed.

Lemma ok_unit (x : res unit) : (∃ a, x = Ok a) ↔ x = Ok tt.
Proof. split; [by intros [[] ?]|by eexists]. Qed.

Lemma parse_dns_server_iff srv ip : parse_dns_server srv = Ok ip ↔ names_address srv ip.
Proof.
  unfold parse_dns_server, names_address. destruct (ip_from_str srv) as [i|] eqn:E.
  { split; [intros [= <-]; by left|]. intros [[= ->]|[? _]]; done. }
  split.
  - destruct (split_once "%" srv) as [[a z]|] eqn:Es; [|done].
    apply split_once_Some in Es as [-> Ha]. destruct (zone_ok z) eqn:Ez; [|done].
    destruct (ip_from_str a) as [[n|n]|] eqn:Ea; [done| |done].
    destruct (is_ipv6_link_local n) eqn:El; [|done]. intros [= <-]. right. split; [done|].
    by exists a, z, n.
  - intros [?|(_ & a & z & n & -> & Ha & Hz & Hi & Hl & ->)]; [done|].
    change ("%" ++ z)%string with (String "%" z). rewrite split_once_app by done.
    by rewrite Hz, Hi, Hl.
Qed.

Lemma validate_option_ok opt : validate_option opt = Ok tt ↔ option_accepted opt.
Proof.
  unfold validate_option, option_accepted.
  assert (∀ o, o ∈ DNS_OPTS_NO_VALUE → split_once ":" o = None) as Hno.
  { intros o Ho. unfold DNS_OPTS_NO_VALUE in Ho.
    repeat (apply elem_of_cons in Ho as [->|Ho]; [done|]). by apply elem_of_nil in Ho. }
  assert (∀ o, o ∈ DNS_OPTS_WITH_VALUE → str_contains ":" o = false) as Hwith.
  { intros o Ho. unfold DNS_OPTS_WITH_VALUE in Ho.
    repeat (apply elem_of_cons in Ho as [->|Ho]; [done|]). by apply elem_of_nil in Ho. }
  destruct (split_once ":" opt) as [[name value]|] eqn:Es.
  - pose proof Es as [-> Hn]%split_once_Some. case_bool_decide as Hin; split; try done.
    + intros _. right. by exists name, value.
    + intros [H|(n & v & H & E)]; [by rewrite Hno in Es|].
      change (":" ++ v)%string with (String ":" v) in E. rewrite E in Es.
      rewrite split_once_app in Es by by apply Hwith. by injection Es as ->.
  - case_bool_decide as Hin; split; try done; [by left|].
    intros [H|(n & v & H & ->)]; [done|].
    change (":" ++ v)%string with (String ":" v) in Es.
    by rewrite split_once_app in Es by by apply Hwith.
Qed.

Lemma client_validate_ok c : client_validate c = Ok tt ↔ client_accepted c.
Proof.
  unfold client_validate, client_accepted. rewrite then_ok, ok_unit.
  assert (∀ (l : option (list string)) {B} (f : string → res B),
    match l with Some l => let? _ := map_result f l in Ok tt | None => Ok tt end = Ok tt ↔
    ∀ x, x ∈ default [] l → ∃ y, f x = Ok y) as Ho.
  { intros [l|] B f; [apply each_ok|]. simpl. set_solver. }
  rewrite (Ho (dc_server c)), (Ho (dc_options c)).
  setoid_rewrite parse_dns_server_iff. setoid_rewrite ok_unit.
  by setoid_rewrite validate_option_ok.
Qed.

Lemma validate_nameservers_ok l : validate_nameservers l = Ok tt ↔ nameservers_accepted l.
Proof. apply each_ok. Qed.

Lemma group_validate_ok g : group_validate g = Ok tt ↔ group_accepted g.
Proof.
  unfold group_validate, group_accepted. rewrite then_ok, validate_nameservers_ok.
  assert ((∃ a, map_result validate_domain_pattern (g_domains g) = Ok a) ↔
    ∀ d, d ∈ g_domains g → token d) as ->; [|done].
  assert (∀ d, validate_domain_pattern d = Ok tt ↔ token d) as Hd.
  { intros d. unfold validate_domain_pattern, token.
    destruct d; simpl; [naive_solver|]. destruct (contains_whitespace _); naive_solver. }
  setoid_rewrite <-Hd. rewrite <-map_result_unit.
  by destruct (map_result _ _); simpl; naive_solver.
Qed.

Lemma check_groups_ok names gs :
  check_groups names gs = Ok tt ↔
  (∀ g, g ∈ gs → group_accepted g) ∧
  (∀ g, g ∈ user_groups gs → g_name g ≠ "" ∧ g_name g ∉ names) ∧
  NoDup (g_name <$> user_groups gs).
Proof.
  revert names. induction gs as [|g gs IH]; intros names; cbn [check_groups].
  { split; [|done]. intros _. split_and!; [set_solver..|constructor]. }
  unfold user_groups. cbn [List.filter]. fold (user_groups gs).
  destruct (g_from_dhcp g) eqn:Ef; cbn [negb].
  { rewrite then_ok, ok_unit, group_validate_ok, IH. set_solver. }
  destruct (nonempty (g_name g)) eqn:En; cbn [negb].
  2:{ split; [done|]. intros (_ & H & _). destruct (H g) as [H1 _]; [by left|].
      by destruct (g_name g). }
  assert (g_name g ≠ "") as Hne by by destruct (g_name g).
  case_bool_decide as Hin.
  { split; [done|]. intros (_ & H & _). by destruct (H g) as [_ ?]; [left|]. }
  rewrite then_ok, ok_unit, group_validate_ok, IH. rewrite fmap_cons, NoDup_cons.
  setoid_rewrite elem_of_cons. setoid_rewrite not_elem_of_union.
  setoid_rewrite not_elem_of_singleton. split.
  - intros (Hg & Hgs & Hu & Hnd). split; [by intros g' [->|]; auto|]. split; [|split; [|done]].
    + intros g' [->|Hg']; [done|]. by destruct (Hu g' Hg') as (? & _ & ?).
    + intros (g' & E & Hg')%list_elem_of_fmap. by destruct (Hu g' Hg') as (_ & Hn & _).
  - intros (Hg & Hu & Hn & Hnd). split; [auto|]. split; [auto|]. split; [|done].
    intros g' Hg'. destruct (Hu g') as [H1 H2]; [by right|]. split; [done|]. split; [|done].
    intros E. apply Hn. rewrite <-E. by apply list_elem_of_fmap_2.
Qed.

Lemma domains_overlap_true a b : domains_overlap a b = true ↔ share_domain a b.
Proof.
  unfold domains_overlap, share_domain. rewrite existsb_elem_of.
  setoid_rewrite existsb_elem_of. naive_solver.
Qed.

Lemma check_overlaps_ok gs :
  check_overlaps gs = Ok tt ↔
  ∀ i j a b, (i < j)%nat → user_groups gs !! i = Some a → user_groups gs !! j = Some b →
    ¬ share_domain a b.
Proof.
  induction gs as [|g gs IH]; cbn [check_overlaps]; [done|].
  unfold user_groups. cbn [List.filter]. fold (user_groups gs).
  destruct (g_from_dhcp g); cbn [negb]; [done|].
  assert (existsb (λ b, negb (g_from_dhcp b) && domains_overlap g b) gs = true ↔
    ∃ b, b ∈ user_groups gs ∧ share_domain g b) as Hex.
  { rewrite existsb_elem_of. unfold user_groups. setoid_rewrite list_elem_of_In.
    setoid_rewrite filter_In. setoid_rewrite andb_true_iff.
    setoid_rewrite domains_overlap_true. naive_solver. }
  destruct (existsb _ gs).
  - split; [done|]. intros H. destruct (proj1 Hex eq_refl) as (b & Hb & Hs).
    apply list_elem_of_lookup in Hb as [j Hj].
    by destruct (H 0%nat (S j) g b ltac:(lia) eq_refl Hj).
  - rewrite IH. split.
    + intros H i j a b Hij Ha Hb Hs. destruct j as [|j]; [lia|]. simpl in Hb.
      destruct i as [|i]; simpl in Ha.
      * injection Ha as <-. assert (false = true) as [=]; apply Hex. exists b.
        split; [by eapply list_elem_of_lookup_2|done].
      * by apply (H i j a b); [lia|..].
    + intros H i j a b Hij Ha Hb. apply (H (S i) (S j)); [lia|done..].
Qed.

Section Accepted.
Context (to_lowercase : string → string) (etc_hosts : option string).

(** Every host of a DNS over HTTPS server can be resolved without DNS. *)
Definition doh_resolvable (c : DnsCacheConfig) : Prop :=
  ∀ srv host, srv ∈ cache_nameservers c → doh_url_hostname to_lowercase srv = Some host →
    cc_doh c ≠ None ∨ host_in_hosts_file host etc_hosts = true.

Record cache_accepted (c : DnsCacheConfig) : Prop := {
  ca_bind : ∃ a, bind_addr c = Some a;
  ca_fallback : nameservers_accepted (fb_nameservers (cc_fallback c));
  ca_doh : ∀ doh, cc_doh c = Some doh → doh_nameservers doh ≠ [];
  ca_groups : ∀ g, g ∈ cc_groups c → group_accepted g;
  ca_named : ∀ g, g ∈ user_groups (cc_groups c) → g_name g ≠ "";
  ca_names : NoDup (g_name <$> user_groups (cc_groups c));
  ca_domains : ∀ i j a b, (i < j)%nat →
    user_groups (cc_groups c) !! i = Some a → user_groups (cc_groups c) !! j = Some b →
    ¬ share_domain a b;
  ca_resolvable : doh_resolvable c;
}.

(** The cache is reached: the first nameserver of the host is the address it listens on. *)
Definition cache_is_first (d : DnsResolver) : Prop :=
  ∀ c a, dr_cache d = Some c → cc_enabled c = true → bind_addr c = Some a →
    ∃ srv, first_server d = Some srv ∧ names_address srv (socket_ip a).

Definition resolver_accepted (d : DnsResolver) : Prop :=
  (∀ c, dr_config d = Some c → client_accepted c) ∧
  (∀ c, dr_cache d = Some c → cache_accepted c) ∧ cache_is_first d.

Lemma elem_of_doh_hostnames c host :
  host ∈ doh_hostnames to_lowercase c ↔
  ∃ srv, srv ∈ cache_nameservers c ∧ doh_url_hostname to_lowercase srv = Some host.
Proof.
  unfold doh_hostnames. fold (cache_nameservers c).
  assert (∀ l ret, host ∈ foldl (λ ret srv, match doh_url_hostname to_lowercase srv with
      | Some hostname => if bool_decide (hostname ∈ ret) then ret else ret ++ [hostname]
      | None => ret end) ret l ↔
    host ∈ ret ∨ ∃ srv, srv ∈ l ∧ doh_url_hostname to_lowercase srv = Some host) as H.
  2:{ rewrite H. set_solver. }
  induction l as [|srv l IH]; intros ret; simpl; [set_solver|].
  rewrite IH. setoid_rewrite elem_of_cons.
  destruct (doh_url_hostname to_lowercase srv) as [h|] eqn:E; [|naive_solver].
  case_bool_decide; [naive_solver|]. rewrite elem_of_app, list_elem_of_singleton. naive_solver.
Qed.

Lemma use_doh_validation_ok c :
  (∀ doh, cc_doh c = Some doh → doh_nameservers doh ≠ []) →
  use_doh_validation to_lowercase etc_hosts c = Ok tt ↔ doh_resolvable c.
Proof.
  intros Hd. unfold use_doh_validation, doh_resolvable.
  assert ((∀ srv host, srv ∈ cache_nameservers c →
      doh_url_hostname to_lowercase srv = Some host →
      cc_doh c ≠ None ∨ host_in_hosts_file host etc_hosts = true) ↔
    ∀ host, host ∈ doh_hostnames to_lowercase c →
      cc_doh c ≠ None ∨ host_in_hosts_file host etc_hosts = true) as ->.
  { setoid_rewrite elem_of_doh_hostnames. naive_solver. }
  case_bool_decide as Hn; [rewrite Hn; set_solver|].
  destruct (cc_doh c) as [doh|].
  - rewrite bool_decide_false by auto. split; [by left|done].
  - case_bool_decide as Hu.
    + split; [|done]. intros _ host Hh. right.
      destruct (host_in_hosts_file host etc_hosts) eqn:E; [done|].
      assert (host ∈ List.filter (λ h, negb (host_in_hosts_file h etc_hosts))
        (doh_hostnames to_lowercase c)) as Hf.
      { rewrite list_elem_of_In, filter_In, <-list_elem_of_In, E. done. }
      rewrite Hu in Hf. by apply elem_of_nil in Hf.
    + split; [done|]. intros H. destruct Hu.
      apply elem_of_nil_inv. intros host. rewrite list_elem_of_In, filter_In, <-list_elem_of_In.
      intros [Hh He]. destruct (H host Hh) as [?|Ht]; [done|]. by rewrite Ht in He.
Qed.

Lemma cache_validate_ok c : cache_validate to_lowercase etc_hosts c = Ok tt ↔ cache_accepted c.
Proof.
  unfold cache_validate. destruct (bind_addr c) as [a|] eqn:Eb.
  2:{ split; [done|]. intros [[a Ha] _ _ _ _ _ _ _]. congruence. }
  rewrite !then_ok, !ok_unit. unfold fallback_validate. rewrite validate_nameservers_ok.
  assert (match cc_doh c with Some doh => doh_validate doh | None => Ok tt end = Ok tt ↔
    ∀ doh, cc_doh c = Some doh → doh_nameservers doh ≠ []) as ->.
  { destruct (cc_doh c) as [doh|]; [|done]. unfold doh_validate.
    case_bool_decide; split; naive_solver. }
  rewrite check_groups_ok, check_overlaps_ok. split.
  - intros (Hf & Hd & (Hg & Hn & Hnd) & Ho & Hu). split; try done; [by exists a| |].
    + intros g H. by apply Hn.
    + by apply use_doh_validation_ok.
  - intros [Hb Hf Hd Hg Hn Hnd Ho Hu]. split; [done|]. split; [done|]. split.
    + split; [done|]. split; [|done]. intros g H. split; [by apply Hn|apply not_elem_of_empty].
    + split; [done|]. by apply use_doh_validation_ok.
Qed.

Lemma socket_new_ip ip : socket_ip (socket_addr_new ip 53) = ip.
Proof. by destruct ip. Qed.

Lemma resolver_validate_ok d :
  resolver_validate to_lowercase etc_hosts d = Ok tt ↔ resolver_accepted d.
Proof.
  unfold resolver_validate, resolver_accepted, cache_is_first. rewrite then_ok, ok_unit.
  assert (match dr_config d with Some c => client_validate c | None => Ok tt end = Ok tt ↔
    ∀ c, dr_config d = Some c → client_accepted c) as ->.
  { setoid_rewrite <-client_validate_ok. destruct (dr_config d); naive_solver. }
  destruct (dr_cache d) as [c|]; [|naive_solver]. rewrite then_ok, ok_unit, cache_validate_ok.
  destruct (cc_enabled c) eqn:Ee; [|naive_solver congruence].
  destruct (bind_addr c) as [a|] eqn:Eb; [|naive_solver congruence].
  destruct (first_server d) as [srv|]; [|naive_solver congruence].
  assert ((let? first_addr := parse_dns_server srv in
      if bool_decide (first_addr = socket_ip a) ||
         bool_decide (socket_addr_new first_addr 53 = a) then Ok tt
      else fail InvalidArgument) = Ok tt ↔ names_address srv (socket_ip a)) as ->.
  { rewrite <-parse_dns_server_iff. destruct (parse_dns_server srv) as [ip|]; [|done].
    destruct (_ || _) eqn:E.
    - split; [|done]. intros _. f_equal. apply orb_true_iff in E as [E|E].
      + by apply bool_decide_eq_true in E.
      + apply bool_decide_eq_true in E as <-. by rewrite socket_new_ip.
    - split; [done|]. intros [= ->]. by rewrite bool_decide_true in E. }
  naive_solver.
Qed.

(** Every refusal is an invalid argument. *)
Definition only_invalid {A} (x : res A) : Prop :=
  match x with
  | Ok _ => True
  | Err e => e = nipart_error InvalidArgument
  end.

Lemma only_invalid_bind {A B} (x : res A) (k : A → res B) :
  only_invalid x → (∀ a, only_invalid (k a)) → only_invalid (let? a := x in k a).
Proof. destruct x; simpl; [|done]. auto. Qed.

Lemma only_invalid_all {A B} (f : A → res B) l :
  (∀ x, only_invalid (f x)) → only_invalid (map_result f l).
Proof.
  intros Hf. induction l as [|x l IH]; [done|]. cbn [map_result].
  apply only_invalid_bind; [done|]. intros y. by apply only_invalid_bind.
Qed.

Lemma only_invalid_parse_server srv : only_invalid (parse_dns_server srv).
Proof. unfold parse_dns_server. by repeat case_match. Qed.

Lemma only_invalid_parse srv : only_invalid (upstream_parse srv).
Proof.
  unfold upstream_parse. repeat (case_match; [done|]). case_match.
  - case_match. apply only_invalid_bind; [|by intros []; case_match].
    unfold validate_interface_name. by case_match.
  - apply only_invalid_bind; [apply only_invalid_parse_server|done].
Qed.

Lemma only_invalid_nameservers l : only_invalid (validate_nameservers l).
Proof. apply only_invalid_bind; [|done]. apply only_invalid_all, only_invalid_parse. Qed.

Lemma only_invalid_group g : only_invalid (group_validate g).
Proof.
  apply only_invalid_bind; [|intros _; apply only_invalid_nameservers].
  apply only_invalid_all. intros d. unfold validate_domain_pattern. by repeat case_match.
Qed.

Lemma only_invalid_groups names gs : only_invalid (check_groups names gs).
Proof.
  revert names. induction gs as [|g gs IH]; intros names; [done|]. cbn [check_groups].
  destruct (g_from_dhcp g); [apply only_invalid_bind; [apply only_invalid_group|done]|].
  destruct (negb _); [done|]. case_bool_decide; [done|].
  apply only_invalid_bind; [apply only_invalid_group|done].
Qed.

Lemma only_invalid_overlaps gs : only_invalid (check_overlaps gs).
Proof.
  induction gs as [|g gs IH]; [done|]. cbn [check_overlaps].
  destruct (g_from_dhcp g); [done|]. by destruct (existsb _ gs).
Qed.

Lemma only_invalid_client c : only_invalid (client_validate c).
Proof.
  unfold client_validate. apply only_invalid_bind.
  - destruct (dc_server c); [|done]. apply only_invalid_bind; [|done].
    apply only_invalid_all, only_invalid_parse_server.
  - intros _. destruct (dc_options c); [|done]. apply only_invalid_bind; [|done].
    apply only_invalid_all. intros o. unfold validate_option. by repeat case_match.
Qed.

Lemma only_invalid_cache c : only_invalid (cache_validate to_lowercase etc_hosts c).
Proof.
  unfold cache_validate. destruct (bind_addr c); [|done].
  apply only_invalid_bind; [apply only_invalid_nameservers|intros _].
  apply only_invalid_bind; [destruct (cc_doh c) as [d|]; [|done];
    unfold doh_validate; by case_match|intros _].
  apply only_invalid_bind; [apply only_invalid_groups|intros _].
  apply only_invalid_bind; [apply only_invalid_overlaps|intros _].
  unfold use_doh_validation. by repeat case_match.
Qed.

Lemma only_invalid_resolver d : only_invalid (resolver_validate to_lowercase etc_hosts d).
Proof.
  unfold resolver_validate. apply only_invalid_bind.
  { destruct (dr_config d); [apply only_invalid_client|done]. }
  intros _. destruct (dr_cache d) as [c|]; [|done].
  apply only_invalid_bind; [apply only_invalid_cache|intros _].
  destruct (if cc_enabled c then _ else _); [|done]. destruct (first_server d); [|done].
  apply only_invalid_bind; [apply only_invalid_parse_server|intros ip]. by case_match.
Qed.
End Accepted.

(** [DnsResolver::validate] accepts exactly the DNS configurations in which every host
    nameserver is an address (or a link-local one with its interface) and every option is
    known; every nameserver of the cache can be parsed; the groups of the user have
    distinct nonempty names and no domain, in whatever case, in common; the host of every
    DNS over HTTPS server can be resolved; and an enabled cache listens on the address
    that is the first nameserver of the host, so that queries reach it.  Everything else
    is refused as an invalid argument. *)
Theorem dns_validate_accepts to_lowercase etc_hosts d :
  (resolver_validate to_lowercase etc_hosts d = Ok tt ↔
    resolver_accepted to_lowercase etc_hosts d) ∧
  (¬ resolver_accepted to_lowercase etc_hosts d →
    resolver_validate to_lowercase etc_hosts d = fail InvalidArgument).
Proof.
  pose proof (resolver_validate_ok to_lowercase etc_hosts d) as H.
  pose proof (only_invalid_resolver to_lowercase etc_hosts d) as He.
  split; [exact H|]. intros Hn. destruct (resolver_validate _ _ d) as [[]|e].
  - by destruct Hn; apply H.
  - simpl in He. by rewrite He.
Qed.

(** A configuration with a cache, and one whose cache no query reaches. *)
Definition ex_lower (s : string) : string := s.

Definition ex_group (name : string) (domains nameservers : list string) :
    NipartDnsUpstreamGroup :=
  dns_group name domains nameservers false false.

Definition ex_cache : DnsCacheConfig :=
  dns_cache true DEFAULT_BIND 4096 true true
    (dns_fallback ["https://dns.example.org/dns-query"] false)
    (Some (dns_doh [V4 0xC0000235] false))
    [ex_group "home" ["example.org"] ["192.0.2.53"]; ex_group "blocked" ["ads.example"] []].

Definition ex_resolver (servers : list string) : DnsResolver :=
  dns_resolver None (Some (dns_client (Some servers) None (Some ["ndots:2"]))) (Some ex_cache).

Lemma dns_validate_accepts_witness :
  resolver_accepted ex_lower None (ex_resolver ["127.0.0.1"]) ∧
  ¬ resolver_accepted ex_lower None (ex_resolver ["192.0.2.53"; "127.0.0.1"]).
Proof.
  split.
  - apply (proj1 (dns_validate_accepts ex_lower None (ex_resolver ["127.0.0.1"]))).
    vm_compute. reflexivity.
  - intros H. apply (proj1 (dns_validate_accepts ex_lower None _)) in H.
    vm_compute in H. discriminate H.
Defined.
