(* ===== verification/ResolvConf.v ===== *)
(** * ResolvConf: /etc/resolv.conf

    [src/lib/no_daemon/resolv_conf.rs]: the entries of the file with their
    origin, reading, and writing of the DNS configuration.  The file is the value
    [file]; whether it could be written is an argument of the writers, whose
    result is the file afterwards. *)

From S2P Require Export DnsConfig.

#[local] Open Scope Z_scope.

Definition STATIC_MARKER : string := "# nipart: static".
Definition DYNAMIC_MARKER : string := "# nipart: dynamic".
Definition FOREIGN_MARKER : string := "# nipart: foreign".

Inductive EntryOrigin : Type := OStatic | ODynamic | OForeign.

#[export] Instance EntryOrigin_eq_dec : EqDecision EntryOrigin.
Proof. solve_decision. Defined.

Record ResolvConf : Type := resolv_conf {
  rc_servers : list (EntryOrigin * string);
  rc_searches : list (EntryOrigin * string);
  rc_options : list (EntryOrigin * string);
}.

Definition resolv_conf_default : ResolvConf := resolv_conf [] [] [].

(** What [std::fs::read_to_string] finds. *)
Inductive file : Type :=
| FileContent (content : string)
| FileNotFound
| FileUnreadable.

(** ** Reading *)

Definition marker_origin (trimmed : string) (origin : EntryOrigin) : EntryOrigin :=
  if String.eqb trimmed STATIC_MARKER then OStatic
  else if String.eqb trimmed DYNAMIC_MARKER then ODynamic
  else if String.eqb trimmed FOREIGN_MARKER then OForeign
  else origin.

(** The body of the loop over the lines. *)
Definition parse_line (st : EntryOrigin * ResolvConf) (line : string) : EntryOrigin * ResolvConf :=
  let '(origin, conf) := st in
  let trimmed := trim line in
  match trimmed with
  | "" => st
  | String "#" _ => (marker_origin trimmed origin, conf)
  | _ =>
      match split_whitespace trimmed with
      | [] => st
      | kind :: parts =>
          if String.eqb kind "nameserver" then
            match parts with
            | srv :: _ =>
                if bool_decide (is_Some (ip_from_str srv)) then
                  (origin, resolv_conf (rc_servers conf ++ [(origin, srv)])
                             (rc_searches conf) (rc_options conf))
                else st
            | [] => st
            end
          else if String.eqb kind "search" || String.eqb kind "domain" then
            (origin, resolv_conf (rc_servers conf)
                       (rc_searches conf ++ ((λ d, (origin, d)) <$> parts)) (rc_options conf))
          else if String.eqb kind "options" then
            (origin, resolv_conf (rc_servers conf) (rc_searches conf)
                       (rc_options conf ++ ((λ o, (origin, o)) <$> parts)))
          else st
      end
  end.

Definition rc_parse (content : string) : ResolvConf :=
  (foldl parse_line (OForeign, resolv_conf_default) (lines content)).2.

Definition rc_read (f : file) : res ResolvConf :=
  match f with
  | FileContent content => Ok (rc_parse content)
  | FileNotFound => Ok resolv_conf_default
  | FileUnreadable => fail InvalidArgument
  end.

Definition entries_of (entries : list (EntryOrigin * string)) (origin : EntryOrigin) : list string :=
  snd <$> List.filter (λ e, bool_decide (e.1 = origin)) entries.

Definition foreign_servers (c : ResolvConf) : list string := entries_of (rc_servers c) OForeign.
Definition foreign_searches (c : ResolvConf) : list string := entries_of (rc_searches c) OForeign.
Definition foreign_options (c : ResolvConf) : list string := entries_of (rc_options c) OForeign.

(** [query_running_dns]: all entries, whatever their origin. *)
Definition query_running_dns (f : file) : res DnsResolver :=
  let? conf := rc_read f in
  Ok (dns_resolver (Some (dns_client (Some (snd <$> rc_servers conf))
    (Some (snd <$> rc_searches conf)) (Some (snd <$> rc_options conf)))) None None).

(** ** Writing *)

(** [dedup]: [retain] with the values seen so far. *)
Fixpoint dedup_values (seen values : list string) : list string :=
  match values with
  | [] => []
  | value :: values' =>
      if bool_decide (value ∈ seen) then dedup_values seen values'
      else value :: dedup_values (seen ++ [value]) values'
  end.

Definition str_len (s : string) : Z := Z.of_nat (String.length s).

Definition SEARCH_LIMIT : Z := 254.

(** [truncate_search_list]: [retain] with the length used so far. *)
Fixpoint truncate_from (used : Z) (searches : list string) : list string :=
  match searches with
  | [] => []
  | domain :: searches' =>
      if negb (nonempty domain) || contains_whitespace domain then truncate_from used searches'
      else
        let extra := if used =? 0 then str_len domain else str_len domain + 1 in
        if SEARCH_LIMIT <? used + extra then truncate_from used searches'
        else domain :: truncate_from (used + extra) searches'
  end.

Definition truncate_search_list (searches : list string) : list string := truncate_from 0 searches.

Definition nl : string := String newline "".

Definition write_section (content marker : string) (servers searches options : list string) : string :=
  if bool_decide (servers = []) && bool_decide (searches = []) && bool_decide (options = [])
  then content
  else
    let content := (content ++ marker ++ nl)%string in
    let content :=
      foldl (λ content srv, (content ++ "nameserver " ++ srv ++ nl)%string) content servers in
    let content :=
      if bool_decide (searches = []) then content
      else (content ++ "search " ++ join_string " " searches ++ nl)%string in
    if bool_decide (options = []) then content
    else (content ++ "options " ++ join_string " " options ++ nl)%string.

(** The content [write_resolv_conf] writes. *)
Definition resolv_conf_text (static_servers static_searches static_options auto_servers
    auto_searches foreign_servers foreign_searches foreign_options : list string) : string :=
  let content := write_section "" STATIC_MARKER static_servers static_searches static_options in
  let content := write_section content DYNAMIC_MARKER auto_servers auto_searches [] in
  write_section content FOREIGN_MARKER foreign_servers foreign_searches foreign_options.

(** [write_resolv_conf]: through a temporary file, so that a failure leaves the file. *)
Definition write_resolv_conf (can_write : bool) (content : string) : res file :=
  if can_write then Ok (FileContent content) else fail InvalidArgument.

Definition write_static_dns (can_write : bool) (f : file) (cache_bind_ip : option IpAddr)
    (static_servers static_searches static_options dynamic_servers dynamic_searches : list string)
    : res file :=
  let? existing := rc_read f in
  let cache_enabled := bool_decide (is_Some cache_bind_ip) in
  let static_srvs :=
    match cache_bind_ip with
    | Some bind_ip => push_unique [] (ip_display bind_ip)
    | None => []
    end in
  let static_srvs := push_all_unique static_srvs static_servers in
  let static_search_list := dedup_values [] static_searches in
  let static_option_list := dedup_values [] static_options in
  let auto_servers := if cache_enabled then [] else push_all_unique [] dynamic_servers in
  let static_search_list := push_all_unique static_search_list dynamic_searches in
  let static_search_list := push_all_unique static_search_list (foreign_searches existing) in
  let static_search_list := truncate_search_list static_search_list in
  let foreign_srvs :=
    if cache_enabled then []
    else push_all_unique []
           (List.filter (λ srv, negb (bool_decide (srv ∈ static_srvs))) (foreign_servers existing)) in
  let foreign_opts :=
    push_all_unique []
      (List.filter (λ o, negb (bool_decide (o ∈ static_option_list))) (foreign_options existing)) in
  write_resolv_conf can_write
    (resolv_conf_text static_srvs static_search_list static_option_list auto_servers []
       foreign_srvs [] foreign_opts).

Definition purge_dns_resolver (can_write : bool) (f : file) : res file :=
  let? existing := rc_read f in
  write_resolv_conf can_write
    (resolv_conf_text [] [] [] [] [] (foreign_servers existing) (foreign_searches existing)
       (foreign_options existing)).

(** ** What is written is read back *)

Definition section_lines (marker : string) (servers searches options : list string) : list string :=
  if bool_decide (servers = []) && bool_decide (searches = []) && bool_decide (options = [])
  then []
  else marker :: ((λ srv, join_string " " ["nameserver"; srv]) <$> servers) ++
         (if bool_decide (searches = []) then [] else [join_string " " ("search" :: searches)]) ++
         (if bool_decide (options = []) then [] else [join_string " " ("options" :: options)]).

Lemma unlines_one l : unlines [l] = (l ++ nl)%string.
Proof. done. Qed.

Lemma write_section_lines content marker servers searches options :
  write_section content marker servers searches options =
    (content ++ unlines (section_lines marker servers searches options))%string.
Proof.
  unfold write_section, section_lines. destruct (_ && _ && _); [by rewrite string_app_nil|].
  assert (∀ c, foldl (λ content srv, (content ++ "nameserver " ++ srv ++ nl)%string) c servers =
    (c ++ unlines ((λ srv, join_string " " ["nameserver"; srv]) <$> servers))%string) as Hs.
  { induction servers as [|s servers IH]; intros c; simpl foldl; [by rewrite string_app_nil|].
    rewrite IH, fmap_cons. change (unlines (?l :: ?ls)) with (l ++ String newline (unlines ls))%string.
    change (join_string " " ["nameserver"; s]) with ("nameserver " ++ s)%string.
    unfold nl. rewrite <-!string_app_assoc. done. }
  rewrite Hs. clear Hs.
  change (unlines (marker :: ?ls)) with (marker ++ String newline (unlines ls))%string.
  rewrite !unlines_app.
  assert (∀ c kw (l : list string),
    (if bool_decide (l = []) then c else (c ++ kw ++ " " ++ join_string " " l ++ nl)%string) =
    (c ++ unlines (if bool_decide (l = []) then [] else [join_string " " (kw :: l)]))%string) as Hl.
  { intros c kw l. case_bool_decide; [by rewrite string_app_nil|].
    destruct l as [|x l]; [done|]. rewrite unlines_one.
    change (join_string " " (kw :: x :: l)) with (kw ++ " " ++ join_string " " (x :: l))%string.
    by rewrite <-!string_app_assoc. }
  rewrite (Hl _ "options"), (Hl _ "search"). unfold nl. rewrite <-!string_app_assoc. done.
Qed.

Lemma resolv_conf_text_lines ss se so as_ ae fs fe fo :
  resolv_conf_text ss se so as_ ae fs fe fo =
    unlines (section_lines STATIC_MARKER ss se so ++ section_lines DYNAMIC_MARKER as_ ae [] ++
             section_lines FOREIGN_MARKER fs fe fo).
Proof.
  unfold resolv_conf_text. rewrite !write_section_lines, !unlines_app.
  by rewrite <-string_app_assoc.
Qed.

Definition tag (o : EntryOrigin) (l : list string) : list (EntryOrigin * string) := (o,.) <$> l.

Definition is_ip (srv : string) : bool := bool_decide (is_Some (ip_from_str srv)).

Definition section_conf (o : EntryOrigin) (servers searches options : list string) : ResolvConf :=
  resolv_conf (tag o (List.filter is_ip servers)) (tag o searches) (tag o options).

Definition conf_app (a b : ResolvConf) : ResolvConf :=
  resolv_conf (rc_servers a ++ rc_servers b) (rc_searches a ++ rc_searches b)
    (rc_options a ++ rc_options b).

Lemma conf_app_nil c : conf_app c (resolv_conf [] [] []) = c.
Proof. destruct c. unfold conf_app. simpl. by rewrite !app_nil_r. Qed.

Lemma conf_app_assoc a b c : conf_app a (conf_app b c) = conf_app (conf_app a b) c.
Proof. unfold conf_app. simpl. by rewrite !app_assoc. Qed.

(** A line of a keyword and words. *)
Lemma parse_line_words o c kw ws :
  kw ∈ ["nameserver"; "search"; "options"] → Forall token ws →
  parse_line (o, c) (join_string " " (kw :: ws)) =
    (o, conf_app c
      (if String.eqb kw "nameserver" then
         match ws with
         | srv :: _ => section_conf o [srv] [] []
         | [] => resolv_conf_default
         end
       else if String.eqb kw "search" then section_conf o [] ws []
       else section_conf o [] [] ws)).
Proof.
  intros Hkw Hws. assert (token kw) as Hk.
  { repeat (apply elem_of_cons in Hkw as [->|Hkw]; [by split|]). by apply elem_of_nil in Hkw. }
  unfold parse_line. rewrite trim_join by by constructor.
  rewrite split_whitespace_join by by constructor.
  assert (∀ A (a b : A) (f : A),
    match join_string " " (kw :: ws) with "" => a | String "#" _ => b | _ => f end = f) as Hhd.
  { intros A a b f.
    repeat (apply elem_of_cons in Hkw as [->|Hkw]; [by destruct ws|]). by apply elem_of_nil in Hkw. }
  rewrite Hhd. destruct c as [cs ce co].
  repeat (apply elem_of_cons in Hkw as [->|Hkw]); [..|by apply elem_of_nil in Hkw];
    unfold conf_app, section_conf; simpl; rewrite ?app_nil_r; [|done..].
  destruct ws as [|srv ws]; simpl; [by rewrite !app_nil_r|]. unfold is_ip.
  destruct (bool_decide (is_Some (ip_from_str srv))); simpl; by rewrite !app_nil_r.
Qed.

Lemma parse_nameservers o c servers :
  Forall token servers →
  foldl parse_line (o, c) ((λ srv, join_string " " ["nameserver"; srv]) <$> servers) =
    (o, conf_app c (section_conf o servers [] [])).
Proof.
  revert c. induction servers as [|s l IH]; intros c H; [by rewrite conf_app_nil|].
  rewrite fmap_cons. cbn [foldl].
  apply Forall_cons in H as [Hs Hl].
  rewrite (parse_line_words o c "nameserver" [s]); [|by left|by apply Forall_singleton].
  cbn [String.eqb Ascii.eqb Bool.eqb]. rewrite IH by done. rewrite <-conf_app_assoc. do 2 f_equal.
  unfold section_conf, conf_app. simpl. by destruct (is_ip s).
Qed.

Definition marker_of (o : EntryOrigin) : string :=
  match o with
  | OStatic => STATIC_MARKER
  | ODynamic => DYNAMIC_MARKER
  | OForeign => FOREIGN_MARKER
  end.

Lemma parse_marker o o' c : parse_line (o', c) (marker_of o) = (o, c).
Proof. by destruct o. Qed.

Lemma parse_section o o' c servers searches options :
  Forall token servers → Forall token searches → Forall token options →
  ∃ o2, foldl parse_line (o', c) (section_lines (marker_of o) servers searches options) =
    (o2, conf_app c (section_conf o servers searches options)).
Proof.
  intros Hs He Ho. unfold section_lines. destruct (_ && _ && _) eqn:E.
  - rewrite !andb_true_iff, !bool_decide_eq_true in E. destruct E as [[-> ->] ->].
    exists o'. unfold section_conf. simpl. by rewrite conf_app_nil.
  - clear E. exists o. cbn [foldl]. rewrite parse_marker, !foldl_app, parse_nameservers by done.
    assert (∀ c kw ws, kw ∈ ["search"; "options"] → Forall token ws →
      foldl parse_line (o, c) (if bool_decide (ws = []) then [] else [join_string " " (kw :: ws)]) =
      (o, conf_app c (if String.eqb kw "search" then section_conf o [] ws []
                      else section_conf o [] [] ws))) as Hw.
    { intros c0 kw ws Hkw Hws. case_bool_decide as Hn.
      - rewrite Hn. simpl. by destruct (String.eqb kw "search"); rewrite conf_app_nil.
      - cbn [foldl]. rewrite parse_line_words by (done || by right).
        apply elem_of_cons in Hkw as [->|Hkw]; [done|]. by apply list_elem_of_singleton in Hkw as ->. }
    rewrite (Hw _ "search"), (Hw _ "options") by (done || set_solver).
    rewrite <-!conf_app_assoc. done || (do 2 f_equal).
    all: unfold section_conf, conf_app; simpl; by rewrite !app_nil_r.
Qed.

Lemma section_lines_ok marker servers searches options :
  line_ok marker → Forall token servers → Forall token searches → Forall token options →
  Forall line_ok (section_lines marker servers searches options).
Proof.
  intros Hm Hs He Ho. unfold section_lines. destruct (_ && _ && _); [constructor|].
  constructor; [done|]. apply Forall_app_2; [|apply Forall_app_2].
  - apply Forall_fmap. eapply Forall_impl; [done|]. intros s Htok.
    apply (line_ok_join ["nameserver"; s]). constructor; [done|by apply Forall_singleton].
  - case_bool_decide; [constructor|]. constructor; [|constructor].
    apply line_ok_join. by constructor.
  - case_bool_decide; [constructor|]. constructor; [|constructor].
    apply line_ok_join. by constructor.
Qed.

(** The text of the three sections with entries that are words is read back as these
    entries, in order and with their origins; of the nameservers only the addresses. *)
Lemma resolv_conf_text_parse ss se so as_ ae fs fe fo :
  Forall (Forall token) [ss; se; so; as_; ae; fs; fe; fo] →
  rc_parse (resolv_conf_text ss se so as_ ae fs fe fo) =
    conf_app (section_conf OStatic ss se so)
      (conf_app (section_conf ODynamic as_ ae []) (section_conf OForeign fs fe fo)).
Proof.
  intros H. rewrite !Forall_cons in H. destruct H as (Hss & Hse & Hso & Has & Hae & Hfs & Hfe & Hfo & _).
  unfold rc_parse. rewrite resolv_conf_text_lines, lines_unlines.
  2:{ repeat apply Forall_app_2; by apply section_lines_ok. }
  rewrite !foldl_app.
  destruct (parse_section OStatic OForeign resolv_conf_default ss se so) as [o1 E1]; try done.
  cbn [marker_of] in E1. rewrite E1.
  destruct (parse_section ODynamic o1 (conf_app resolv_conf_default (section_conf OStatic ss se so))
    as_ ae []) as [o2 E2]; try done.
  cbn [marker_of] in E2. rewrite E2.
  match goal with |- (foldl _ (?o, ?c) _).2 = _ =>
    destruct (parse_section OForeign o c fs fe fo) as [o3 E3]; try done end.
  cbn [marker_of] in E3. rewrite E3. cbn [snd]. by rewrite <-!conf_app_assoc.
Qed.

(** ** Entries that were read *)

(** Nameservers are addresses, the other entries words. *)
Record conf_ok (c : ResolvConf) : Prop := {
  co_servers : ∀ e, e ∈ rc_servers c → is_ip e.2 = true;
  co_searches : ∀ e, e ∈ rc_searches c → token e.2;
  co_options : ∀ e, e ∈ rc_options c → token e.2;
}.

Lemma tag_token o (l : list string) e : Forall token l → e ∈ tag o l → token e.2.
Proof. rewrite Forall_forall. intros H (x & -> & Hx)%list_elem_of_fmap. by apply H. Qed.

Lemma parse_line_ok st line : conf_ok st.2 → conf_ok (parse_line st line).2.
Proof.
  destruct st as [o c]. intros [Hs He Ho]. unfold parse_line. cbn [snd] in *.
  assert (∀ A (Q : A → Prop) (a b d : A), Q a → Q b → Q d →
    Q (match trim line with "" => a | String "#" _ => b | _ => d end)) as Hm.
  { intros A Q a b d Ha Hb Hd. repeat (case_match; try done). }
  apply (Hm _ (λ x, conf_ok x.2)); [by split..|].
  pose proof (split_whitespace_tokens (trim line)) as Ht.
  destruct (split_whitespace (trim line)) as [|kw parts]; [by split|].
  apply Forall_cons in Ht as [_ Ht].
  destruct (String.eqb kw "nameserver").
  { destruct parts as [|srv parts]; [by split|]. case_bool_decide as Hip; [|by split].
    split; [|done..]. simpl. intros e [H|H]%elem_of_app; [by apply Hs|].
    apply list_elem_of_singleton in H as ->. by apply bool_decide_eq_true. }
  destruct (String.eqb kw "search" || String.eqb kw "domain").
  { split; [done| |done]. simpl. intros e [H|H]%elem_of_app; [by apply He|].
    by eapply tag_token. }
  destruct (String.eqb kw "options"); [|by split].
  split; [done|done|]. simpl. intros e [H|H]%elem_of_app; [by apply Ho|]. by eapply tag_token.
Qed.

Lemma rc_parse_ok content : conf_ok (rc_parse content).
Proof.
  unfold rc_parse. assert (∀ ls st, conf_ok st.2 → conf_ok (foldl parse_line st ls).2) as H.
  { induction ls as [|l ls IH]; intros st Hst; [done|]. by apply IH, parse_line_ok. }
  apply H. split; intros e He; by apply elem_of_nil in He.
Qed.

Lemma rc_read_ok f c : rc_read f = Ok c → conf_ok c.
Proof.
  destruct f as [s| |]; simpl; [intros [= <-]; apply rc_parse_ok|intros [= <-]|done].
  split; intros e He; by apply elem_of_nil in He.
Qed.

Lemma elem_of_entries l o x : x ∈ entries_of l o ↔ (o, x) ∈ l.
Proof.
  unfold entries_of. rewrite list_elem_of_fmap. split.
  - intros ([o' y] & -> & H). apply list_elem_of_In, filter_In in H as [H Ho].
    apply bool_decide_eq_true in Ho. simpl in *. subst. by apply list_elem_of_In.
  - intros H. exists (o, x). split; [done|]. apply list_elem_of_In, filter_In.
    split; [by apply list_elem_of_In|]. by apply bool_decide_eq_true.
Qed.

Lemma entries_of_app l k o : entries_of (l ++ k) o = entries_of l o ++ entries_of k o.
Proof. unfold entries_of. by rewrite List.filter_app, fmap_app. Qed.

Lemma entries_of_tag o o' l :
  entries_of (tag o' l) o = if bool_decide (o' = o) then l else [].
Proof.
  unfold entries_of, tag. induction l as [|x l IH]; [by destruct (bool_decide _)|].
  rewrite fmap_cons. cbn [List.filter fst].
  destruct (bool_decide (o' = o)); [|done]. rewrite fmap_cons. by f_equal.
Qed.

(** ** Lists that are written *)

Lemma elem_of_dedup_values seen l x :
  x ∈ dedup_values seen l ↔ x ∈ l ∧ x ∉ seen.
Proof.
  revert seen. induction l as [|y l IH]; intros seen; cbn [dedup_values]; [set_solver|].
  case_bool_decide as Hy; [rewrite IH; set_solver|].
  rewrite elem_of_cons, IH, elem_of_app, list_elem_of_singleton, elem_of_cons.
  destruct (decide (x = y)) as [->|]; naive_solver.
Qed.

Lemma elem_of_truncate used l x : x ∈ truncate_from used l → x ∈ l ∧ token x.
Proof.
  revert used. induction l as [|y l IH]; intros used; cbn [truncate_from]; [set_solver|].
  destruct (_ || _) eqn:E; [intros [? ?]%IH; split; [by right|done]|].
  apply orb_false_iff in E as [E1 E2]. destruct (_ <? _); [intros [? ?]%IH; split; [by right|done]|].
  intros [->|[? ?]%IH]%elem_of_cons; [|split; [by right|done]].
  split; [by left|]. split; [by intros ->|done].
Qed.

(** The length a list takes on the search line. *)
Fixpoint search_cost (used : Z) (l : list string) : Z :=
  match l with
  | [] => used
  | d :: l' => search_cost (used + (if used =? 0 then str_len d else str_len d + 1)) l'
  end.

Lemma search_cost_ge l used : used ≤ search_cost used l.
Proof.
  revert used. induction l as [|d l IH]; intros used; cbn [search_cost]; [lia|].
  etransitivity; [|apply IH]. unfold str_len. destruct (used =? 0); lia.
Qed.

Lemma str_len_pos d : d ≠ "" → 0 < str_len d.
Proof. destruct d; [done|]. unfold str_len. simpl. lia. Qed.


Lemma search_cost_join l used :
  Forall token l → l ≠ [] → 0 ≤ used →
  search_cost used l =
    used + (if used =? 0 then 0 else 1) + str_len (join_string " " l).
Proof.
  intros H. revert used. induction H as [|d l [Hd _] Hl IH]; intros used; [done|]. intros _ Hu.
  cbn [search_cost]. pose proof (str_len_pos d Hd). destruct l as [|e l].
  - simpl. destruct (used =? 0); lia.
  - rewrite IH; [|done|destruct (used =? 0); lia].
    change (join_string " " (d :: e :: l)) with (d ++ " " ++ join_string " " (e :: l))%string.
    unfold str_len in *. rewrite !string_length_app. simpl String.length.
    destruct (used =? 0) eqn:E.
    + replace (used + Z.of_nat (String.length d) =? 0) with false by lia. lia.
    + replace (used + (Z.of_nat (String.length d) + 1) =? 0) with false by lia. lia.
Qed.

(** A list that fits is kept, before anything else. *)
Lemma truncate_keeps l k used :
  Forall token l → search_cost used l ≤ SEARCH_LIMIT →
  truncate_from used (l ++ k) = l ++ truncate_from (search_cost used l) k.
Proof.
  intros H. revert used. induction H as [|d l [Hd Hw] Hl IH]; intros used Hc; [done|].
  cbn [app truncate_from search_cost] in *.
  assert (negb (nonempty d) || contains_whitespace d = false) as ->.
  { rewrite Hw. by destruct d. }
  pose proof (search_cost_ge l (used + (if used =? 0 then str_len d else str_len d + 1))).
  replace (SEARCH_LIMIT <? used + (if used =? 0 then str_len d else str_len d + 1)) with false by lia.
  by rewrite IH.
Qed.

(** The search line stays within the limit of the resolver. *)
Lemma truncate_limit l used :
  0 ≤ used ≤ SEARCH_LIMIT → search_cost used (truncate_from used l) ≤ SEARCH_LIMIT.
Proof.
  revert used. induction l as [|d l IH]; intros used Hu; cbn [truncate_from]; [simpl; lia|].
  destruct (_ || _); [by apply IH|].
  destruct (SEARCH_LIMIT <? _) eqn:E; [by apply IH|]. cbn [search_cost]. apply IH.
  unfold str_len in *. destruct (used =? 0); lia.
Qed.

Lemma search_line_limit l :
  str_len (join_string " " (truncate_search_list l)) ≤ SEARCH_LIMIT.
Proof.
  unfold truncate_search_list. pose proof (truncate_limit l 0 ltac:(unfold SEARCH_LIMIT; lia)) as H.
  assert (Forall token (truncate_from 0 l)) as Ht.
  { apply Forall_forall. intros x Hx. by apply elem_of_truncate in Hx as [_ ?]. }
  destruct (truncate_from 0 l) as [|d k] eqn:E; [by vm_compute|].
  rewrite search_cost_join in H by done. exact H.
Qed.

Lemma filter_is_ip_id l : (∀ x, x ∈ l → is_ip x = true) → List.filter is_ip l = l.
Proof.
  induction l as [|x l IH]; intros H; [done|]. cbn [List.filter]. rewrite H by by left.
  rewrite IH; [done|]. intros y Hy. apply H. by right.
Qed.

Lemma is_ip_token x : is_ip x = true → token x.
Proof. unfold is_ip. intros [ip Hip]%bool_decide_eq_true. by eapply ip_from_str_token. Qed.

(** ** The file after a write *)

Definition not_in (l : list string) (x : string) : bool := negb (bool_decide (x ∈ l)).

(** The nameservers written as static ones: the cache first. *)
Definition static_nameservers (bind : option IpAddr) (servers : list string) : list string :=
  push_all_unique (ip_display <$> option_list bind) servers.

Definition written_searches (searches dynamic_searches : list string) (c : ResolvConf) : list string :=
  truncate_search_list
    (push_all_unique (push_all_unique (dedup_values [] searches) dynamic_searches) (foreign_searches c)).

(** [c'] is what is read after the configuration was written over [c]. *)
Record written (bind : option IpAddr) (servers searches options dynamic_servers
    dynamic_searches : list string) (c c' : ResolvConf) : Prop := {
  wr_servers : rc_servers c' =
    tag OStatic (List.filter is_ip (static_nameservers bind servers)) ++
    tag ODynamic (if bool_decide (is_Some bind) then []
                  else List.filter is_ip (push_all_unique [] dynamic_servers)) ++
    tag OForeign (if bool_decide (is_Some bind) then []
                  else push_all_unique []
                    (List.filter (not_in (static_nameservers bind servers)) (foreign_servers c)));
  wr_searches : rc_searches c' = tag OStatic (written_searches searches dynamic_searches c);
  wr_options : rc_options c' =
    tag OStatic (dedup_values [] options) ++
    tag OForeign (push_all_unique []
      (List.filter (not_in (dedup_values [] options)) (foreign_options c)));
}.

Lemma Forall_push_all (P : string → Prop) l k :
  Forall P l → Forall P k → Forall P (push_all_unique l k).
Proof.
  rewrite !Forall_forall. intros Hl Hk x. rewrite elem_of_push_all. naive_solver.
Qed.

Lemma Forall_filter_impl (P : string → Prop) f l : Forall P l → Forall P (List.filter f l).
Proof.
  rewrite !Forall_forall. intros H x. rewrite list_elem_of_In, filter_In, <-list_elem_of_In.
  intros [? _]. auto.
Qed.

Lemma foreign_servers_ip c x : conf_ok c → x ∈ foreign_servers c → is_ip x = true.
Proof. intros [Hs _ _] H%elem_of_entries. exact (Hs _ H). Qed.

Lemma foreign_options_token c : conf_ok c → Forall token (foreign_options c).
Proof. intros [_ _ Ho]. apply Forall_forall. intros x H%elem_of_entries. exact (Ho _ H). Qed.

Lemma static_nameservers_token bind servers :
  (∀ ip, bind = Some ip → ip_ok ip) → Forall token servers →
  Forall token (static_nameservers bind servers).
Proof.
  intros Hb Hs. apply Forall_push_all; [|done]. destruct bind as [ip|]; [|constructor].
  apply Forall_singleton. eapply ip_from_str_token, ip_parse_display. by apply Hb.
Qed.

Lemma write_static_dns_reads can_write f bind ss se so ds de f' :
  (∀ ip, bind = Some ip → ip_ok ip) →
  Forall token ss → Forall token so → Forall token ds →
  write_static_dns can_write f bind ss se so ds de = Ok f' →
  ∃ c c', rc_read f = Ok c ∧ rc_read f' = Ok c' ∧ conf_ok c ∧ written bind ss se so ds de c c'.
Proof.
  intros Hb Hss Hso Hds. unfold write_static_dns.
  destruct (rc_read f) as [c|] eqn:Ec; [|done]. pose proof (rc_read_ok _ _ Ec) as Hc.
  assert (match bind with Some ip => push_unique [] (ip_display ip) | None => [] end =
    ip_display <$> option_list bind) as -> by by destruct bind.
  fold (static_nameservers bind ss). fold (written_searches se de c).
  fold (not_in (static_nameservers bind ss)) (not_in (dedup_values [] so)).
  unfold write_resolv_conf. destruct can_write; [|done]. intros [= <-].
  exists c. eexists. split; [done|]. split; [done|]. split; [done|]. simpl rc_read.
  set (statics := static_nameservers bind ss).
  assert (∀ x, x ∈ (if bool_decide (is_Some bind) then [] else push_all_unique []
    (List.filter (not_in statics) (foreign_servers c))) → is_ip x = true) as Hfip.
  { intros x. case_bool_decide; [by intros ?%elem_of_nil|].
    intros [Hx|Hx]%elem_of_push_all; [by apply elem_of_nil in Hx|].
    apply list_elem_of_In, filter_In in Hx as [Hx _]. apply list_elem_of_In in Hx.
    by apply (foreign_servers_ip c). }
  rewrite resolv_conf_text_parse.
  - unfold conf_app, section_conf. split; simpl.
    + rewrite (filter_is_ip_id (if bool_decide _ then [] else push_all_unique [] (List.filter _ _)))
        by exact Hfip. by destruct (bool_decide (is_Some bind)).
    + by rewrite app_nil_r.
    + done.
  - repeat (apply Forall_cons; split); [..|done].
    + by apply static_nameservers_token.
    + apply Forall_forall. intros x Hx. by apply elem_of_truncate in Hx as [_ ?].
    + apply Forall_forall. intros x Hx. apply elem_of_dedup_values in Hx as [Hx _].
      by eapply Forall_forall in Hso.
    + case_bool_decide; [constructor|]. apply Forall_push_all; [constructor|done].
    + constructor.
    + apply Forall_forall. intros x Hx. by apply is_ip_token, Hfip.
    + constructor.
    + apply Forall_push_all; [constructor|]. by apply Forall_filter_impl, foreign_options_token.
Qed.


Definition ex_file : file :=
  FileContent "# Generated by a tool
nameserver 203.0.113.53
options rotate
".


(** ** Writing again *)

Lemma push_all_unique_self (l : list string) : NoDup l → push_all_unique [] l = l.
Proof. intros H. by apply (push_all_unique_new [] l). Qed.

Lemma filter_not_in_id l k : (∀ x, x ∈ k → x ∉ l) → List.filter (not_in l) k = k.
Proof.
  induction k as [|x k IH]; intros H; [done|]. cbn [List.filter]. unfold not_in at 1.
  rewrite bool_decide_false by (apply H; by left). cbn [negb]. rewrite IH; [done|].
  intros y Hy. apply H. by right.
Qed.

(** What another tool has, less what is ours: taking it again changes nothing. *)
Definition kept_foreign (ours foreign : list string) : list string :=
  push_all_unique [] (List.filter (not_in ours) foreign).

Lemma elem_of_kept_foreign ours l x : x ∈ kept_foreign ours l ↔ x ∈ l ∧ x ∉ ours.
Proof.
  unfold kept_foreign. rewrite elem_of_push_all, list_elem_of_In, (list_elem_of_In l).
  split.
  - intros [[]|H]. apply list_elem_of_In, filter_In in H as [? H]. split; [done|].
    unfold not_in in H. by apply negb_true_iff, bool_decide_eq_false in H.
  - intros [H Hn]. right. apply list_elem_of_In, filter_In. split; [done|].
    unfold not_in. by rewrite bool_decide_false.
Qed.

Lemma kept_foreign_again ours l : kept_foreign ours (kept_foreign ours l) = kept_foreign ours l.
Proof.
  unfold kept_foreign at 1. rewrite filter_not_in_id.
  - apply push_all_unique_self. by apply push_all_unique_spec, NoDup_nil_2.
  - intros x. by intros [_ ?]%elem_of_kept_foreign.
Qed.

Lemma written_foreign bind ss se so ds de c c' :
  written bind ss se so ds de c c' →
  foreign_servers c' = (if bool_decide (is_Some bind) then []
                        else kept_foreign (static_nameservers bind ss) (foreign_servers c)) ∧
  foreign_searches c' = [] ∧
  foreign_options c' = kept_foreign (dedup_values [] so) (foreign_options c).
Proof.
  intros [Hs He Ho]. unfold foreign_servers, foreign_searches, foreign_options at 1.
  rewrite Hs, He, Ho, !entries_of_app, !entries_of_tag. done.
Qed.

Lemma write_static_dns_eq can_write f bind ss se so ds de :
  write_static_dns can_write f bind ss se so ds de =
    let? c := rc_read f in
    write_resolv_conf can_write
      (resolv_conf_text (static_nameservers bind ss) (written_searches se de c) (dedup_values [] so)
         (if bool_decide (is_Some bind) then [] else push_all_unique [] ds) []
         (if bool_decide (is_Some bind) then []
          else kept_foreign (static_nameservers bind ss) (foreign_servers c)) []
         (kept_foreign (dedup_values [] so) (foreign_options c))).
Proof. unfold write_static_dns. destruct (rc_read f); [|done]. by destruct bind. Qed.

Lemma write_again can_write f bind ss se so ds de f' c :
  (∀ ip, bind = Some ip → ip_ok ip) →
  Forall token ss → Forall token so → Forall token ds →
  write_static_dns can_write f bind ss se so ds de = Ok f' → rc_read f = Ok c →
  foreign_searches c = [] → write_static_dns can_write f' bind ss se so ds de = Ok f'.
Proof.
  intros Hb Hs Ho Hd H Hc He.
  destruct (write_static_dns_reads _ _ _ _ _ _ _ _ _ Hb Hs Ho Hd H) as (c0 & c' & Hc0 & Hc' & _ & Hw).
  assert (c0 = c) as -> by congruence.
  destruct (written_foreign _ _ _ _ _ _ _ _ Hw) as (Fs & Fe & Fo).
  rewrite <-H, !write_static_dns_eq, Hc, Hc'. unfold written_searches.
  rewrite Fs, Fe, Fo, He, kept_foreign_again.
  destruct (bool_decide (is_Some bind)); [done|]. by rewrite kept_foreign_again.
Qed.

(** A refresh is stable.  Writing the same configuration again leaves /etc/resolv.conf as it
    is (unless another tool had search domains in it); and as long as no cache is running the
    nameservers and the options of other tools stay in the file, whatever is written and
    however often, unless they are configured as static ones. *)
Theorem rewrite_is_stable can_write f bind ss se so ds de f' c :
  (∀ ip, bind = Some ip → ip_ok ip) →
  Forall token ss → Forall token so → Forall token ds →
  write_static_dns can_write f bind ss se so ds de = Ok f' → rc_read f = Ok c →
  (foreign_searches c = [] → write_static_dns can_write f' bind ss se so ds de = Ok f') ∧
  ∃ c', rc_read f' = Ok c' ∧
    (bind = None → ∀ x, x ∈ foreign_servers c' ↔ x ∈ foreign_servers c ∧ x ∉ ss) ∧
    ∀ x, x ∈ foreign_options c' ↔ x ∈ foreign_options c ∧ x ∉ so.
Proof.
  intros Hb Hs Ho Hd H Hc. split; [intros He; by eapply write_again|].
  destruct (write_static_dns_reads _ _ _ _ _ _ _ _ _ Hb Hs Ho Hd H) as (c0 & c' & Hc0 & Hc' & _ & Hw).
  assert (c0 = c) as -> by congruence.
  destruct (written_foreign _ _ _ _ _ _ _ _ Hw) as (Fs & Fe & Fo).
  exists c'. split; [done|]. split.
  - intros -> x. rewrite Fs. rewrite bool_decide_false by by intros [].
      rewrite elem_of_kept_foreign. unfold static_nameservers. rewrite elem_of_push_all.
      cbn [option_list fmap list_fmap]. set_solver.
  - intros x. rewrite Fo, elem_of_kept_foreign, elem_of_dedup_values. set_solver.
Qed.

Lemma rewrite_is_stable_witness :
  ∃ f', write_static_dns true ex_file None ["192.0.2.53"] [] ["ndots:2"] [] ["corp.example"] = Ok f' ∧
    write_static_dns true f' None ["192.0.2.53"] [] ["ndots:2"] [] ["corp.example"] = Ok f'.
Proof.
  eexists. split; [vm_compute; reflexivity|].
  eapply (rewrite_is_stable true ex_file None ["192.0.2.53"] [] ["ndots:2"] [] ["corp.example"]).
  - intros ip H. discriminate H.
  - apply (bool_decide_unpack _). vm_compute. reflexivity.
  - apply (bool_decide_unpack _). vm_compute. reflexivity.
  - constructor.
  - vm_compute. reflexivity.
  - vm_compute. reflexivity.
  - vm_compute. reflexivity.
Defined.

(** What the theorem excludes: the search domains of another tool are written among the static
    entries, so that the next write takes them for its own and drops them. *)
Example foreign_search_is_lost :
  let f := FileContent "search corp.example
" in
  let write f := write_static_dns true f None ["192.0.2.53"] [] [] [] [] in
  let domains f := let? c := rc_read f in Ok (snd <$> rc_searches c) in
  (let? f1 := write f in domains f1) = Ok ["corp.example"] ∧
  (let? f1 := write f in let? f2 := write f1 in domains f2) = Ok [].
Proof. split; vm_compute; reflexivity. Qed.
