(* ===== verification/MergedDns.v ===== *)
(** * MergedDns: the merge of the DNS configuration

    [src/lib/schema/merged/dns.rs] and [gen_diff/dns.rs]: the desired resolver
    state merged with the running and the saved one, what is applied, what is
    persisted and what is reported; [auto_search_allowed] of
    [src/daemon/dns_auto.rs], which reads the persisted state. *)

From S2P Require Export DnsConfig.

#[local] Open Scope Z_scope.

Record MergedDnsResolver : Type := merged_dns {
  md_desired : option DnsResolver;
  md_current : DnsResolver;
  md_running : option DnsResolverClient;
  md_servers : list string;
  md_searches : list string;
  md_search_defined : bool;
  md_options : list string;
  md_dynamic_servers : list string;
  md_previous_static_servers : list string;
  md_cache_for_save : option DnsCacheConfig;
}.

Definition with_groups (f : list NipartDnsUpstreamGroup → list NipartDnsUpstreamGroup)
    (c : DnsCacheConfig) : DnsCacheConfig :=
  dns_cache (cc_enabled c) (cc_bind c) (cc_max_cache_size c) (cc_load_etc_hosts c)
    (cc_auto_dns c) (cc_fallback c) (cc_doh c) (f (cc_groups c)).

(** Drop DHCP-derived groups from a desired cache configuration. *)
Definition strip_from_dhcp_groups (desired : DnsResolver) : DnsResolver :=
  dns_resolver (dr_running desired) (dr_config desired) (with_groups user_groups <$> dr_cache desired).

(** [config.as_ref().and_then(|c| c.field.clone()).unwrap_or_default()]. *)
Definition field_or_empty (f : DnsResolverClient → option (list string))
    (config : option DnsResolverClient) : list string :=
  default [] (config ≫= f).

Definition merged_dns_new (desired current : DnsResolver) (saved : option DnsResolver)
    : res MergedDnsResolver :=
  let desired := strip_from_dhcp_groups desired in
  let current :=
    match saved ≫= dr_config with
    | Some saved_config => dns_resolver (dr_running current) (Some saved_config) (dr_cache current)
    | None => current
    end in
  let running := dr_running current in
  let servers := field_or_empty dc_server (dr_config current) in
  let searches := field_or_empty dc_search (dr_config current) in
  let search_defined := bool_decide (is_Some (dr_config current ≫= dc_search)) in
  let options := field_or_empty dc_options (dr_config current) in
  let dynamic_servers := field_or_empty dc_server running in
  let previous_static_servers := field_or_empty dc_server (dr_config current) in
  let cache_for_save := option_or (dr_cache desired) (saved ≫= dr_cache) in
  let '(servers, searches, search_defined, options) :=
    match dr_config desired with
    | Some conf =>
        if negb (client_is_empty conf) then
          (default servers (dc_server conf), default searches (dc_search conf),
           search_defined || bool_decide (is_Some (dc_search conf)),
           default options (dc_options conf))
        else ([], [], false, [])
    | None => (servers, searches, search_defined, options)
    end in
  Ok (merged_dns (if resolver_is_empty desired then None else Some desired) current running
        servers searches search_defined options dynamic_servers previous_static_servers
        cache_for_save).

(** Dynamic nameservers to keep after this apply. *)
Definition apply_dynamic_servers (self : MergedDnsResolver) : list string :=
  List.filter (λ srv, negb (bool_decide (srv ∈ md_servers self)) &&
                      negb (bool_decide (srv ∈ md_previous_static_servers self)))
    (md_dynamic_servers self).

Definition is_unchanged (self : MergedDnsResolver) : bool := bool_decide (md_desired self = None).

Definition merged_auto_search_allowed (self : MergedDnsResolver) : bool :=
  negb (md_search_defined self && bool_decide (md_searches self = [])).

(** The static client configuration to persist. *)
Definition config_for_save (self : MergedDnsResolver) : DnsResolverClient :=
  dns_client (Some (md_servers self))
    (if md_search_defined self then Some (md_searches self) else None)
    (Some (md_options self)).

(** The cache configuration to apply. *)
Definition md_cache (self : MergedDnsResolver) : option DnsCacheConfig :=
  md_desired self ≫= dr_cache.

Definition dns_state_for_save (self : MergedDnsResolver) : DnsResolver :=
  dns_resolver None (Some (config_for_save self)) (md_cache_for_save self).

Definition dns_state_for_apply (self : MergedDnsResolver) : DnsResolver :=
  let ret := default dns_resolver_default (md_desired self) in
  let servers :=
    push_all_unique [] (md_servers self ++ md_dynamic_servers self) in
  dns_resolver
    (Some (dns_client (Some servers) (Some (md_searches self)) (Some (md_options self))))
    (dr_config ret) (dr_cache ret).

Definition merged_gen_diff (self : MergedDnsResolver) : DnsResolver :=
  default dns_resolver_default (md_desired self).

(** [auto_search_allowed] of the daemon, on the persisted configuration. *)
Definition auto_search_allowed (config : option DnsResolverClient) : bool :=
  negb (match config ≫= dc_search with
        | Some search => bool_decide (search = [])
        | None => false
        end).

(** ** What is persisted *)

(** The static configuration before the apply: the saved one, or else the current one. *)
Definition previous_config (current : DnsResolver) (saved : option DnsResolver)
    : option DnsResolverClient :=
  option_or (saved ≫= dr_config) (dr_config current).

(** A property [f] of the configuration after an edit of [prev] that says [edit] of it. *)
Definition keeps_or_sets {A} (edit prev result : option A) : Prop :=
  match edit with
  | Some l => result = Some l
  | None => result = prev
  end.

(** The meaning of a partial edit of the static configuration. *)
Record edited (edit : option DnsResolverClient) (prev : option DnsResolverClient)
    (result : DnsResolverClient) : Prop := {
  ed_keep : edit = None →
    dc_server result = Some (field_or_empty dc_server prev) ∧
    dc_search result = prev ≫= dc_search ∧
    dc_options result = Some (field_or_empty dc_options prev);
  ed_purge : edit = Some dns_client_default → result = dns_client (Some []) None (Some []);
  ed_set : ∀ conf, edit = Some conf → conf ≠ dns_client_default →
    keeps_or_sets (dc_server conf) (Some (field_or_empty dc_server prev)) (dc_server result) ∧
    keeps_or_sets (dc_search conf) (prev ≫= dc_search) (dc_search result) ∧
    keeps_or_sets (dc_options conf) (Some (field_or_empty dc_options prev)) (dc_options result);
}.

Lemma client_is_empty_true c : client_is_empty c = true ↔ c = dns_client_default.
Proof.
  unfold client_is_empty. rewrite !andb_true_iff, !bool_decide_eq_true.
  destruct c as [a b o]. simpl. split; [by intros [[-> ->] ->]|by intros [= -> -> ->]].
Qed.

Lemma defined_search (prev : option DnsResolverClient) :
  (if bool_decide (is_Some (prev ≫= dc_search)) then Some (field_or_empty dc_search prev) else None) =
  prev ≫= dc_search.
Proof. unfold field_or_empty. destruct (prev ≫= dc_search); [done|]. by rewrite bool_decide_false by by intros []. Qed.

Lemma current_config current saved :
  dr_config (match saved ≫= dr_config with
             | Some c => dns_resolver (dr_running current) (Some c) (dr_cache current)
             | None => current
             end) = previous_config current saved.
Proof. unfold previous_config. by destruct (saved ≫= dr_config). Qed.

Lemma merged_dns_edited desired current saved m :
  merged_dns_new desired current saved = Ok m →
  edited (dr_config desired) (previous_config current saved) (config_for_save m).
Proof.
  unfold merged_dns_new. rewrite !current_config.
  set (prev := previous_config current saved). simpl. intros H.
  destruct (dr_config desired) as [conf|].
  2:{ injection H as <-. split; [|done..]. intros _. unfold config_for_save. simpl.
      by rewrite defined_search. }
  destruct (client_is_empty conf) eqn:E; cbn [negb] in H; injection H as <-.
  - apply client_is_empty_true in E as ->. split; [done..|]. by intros c [= <-].
  - assert (conf ≠ dns_client_default) as Hc.
    { intros Hx%client_is_empty_true. congruence. }
    split; [done|intros [= ->]; done|]. intros c [= <-] _. unfold config_for_save. simpl.
    split; [by destruct (dc_server conf)|]. split; [|by destruct (dc_options conf)].
    destruct (dc_search conf) as [l|]; simpl.
    + by rewrite orb_true_r.
    + by rewrite orb_false_r, defined_search.
Qed.

Lemma merged_dns_ok desired current saved : ∃ m, merged_dns_new desired current saved = Ok m.
Proof.
  unfold merged_dns_new. simpl.
  destruct (dr_config desired) as [c|]; [destruct (negb (client_is_empty c))|]; by eexists.
Qed.

Lemma merged_dns_cache desired current saved m :
  merged_dns_new desired current saved = Ok m →
  md_cache_for_save m = option_or (with_groups user_groups <$> dr_cache desired) (saved ≫= dr_cache).
Proof.
  unfold merged_dns_new. simpl. intros H.
  destruct (dr_config desired) as [c|]; [destruct (negb (client_is_empty c))|]; by injection H as <-.
Qed.

Lemma user_groups_twice gs : user_groups (user_groups gs) = user_groups gs.
Proof.
  unfold user_groups. induction gs as [|g gs IH]; [done|]. cbn [List.filter].
  destruct (negb (g_from_dhcp g)) eqn:E; [|done]. cbn [List.filter]. by rewrite E, IH.
Qed.

(** An editing step of the static configuration has one result. *)
Lemma edited_unique edit prev r1 r2 : edited edit prev r1 → edited edit prev r2 → r1 = r2.
Proof.
  intros [K1 P1 S1] [K2 P2 S2]. destruct edit as [conf|].
  - destruct (decide (conf = dns_client_default)) as [->|Hn].
    + by rewrite P1, P2.
    + destruct (S1 conf eq_refl Hn) as (A1 & B1 & C1), (S2 conf eq_refl Hn) as (A2 & B2 & C2).
      destruct r1 as [a1 b1 c1], r2 as [a2 b2 c2]. unfold keeps_or_sets in *. simpl in *.
      destruct (dc_server conf), (dc_search conf), (dc_options conf); congruence.
  - destruct (K1 eq_refl) as (A1 & B1 & C1), (K2 eq_refl) as (A2 & B2 & C2).
    destruct r1 as [a1 b1 c1], r2 as [a2 b2 c2]. simpl in *. congruence.
Qed.

(** What is persisted is complete: editing it by itself or by nothing keeps it. *)
Lemma edited_fixed edit prev r :
  edited edit prev r → edited None (Some r) r ∧ (r ≠ dns_client_default → edited (Some r) (Some r) r).
Proof.
  intros He. assert (∃ s o, dc_server r = Some s ∧ dc_options r = Some o) as (s & o & Hs & Ho).
  { destruct He as [K P S]. destruct edit as [conf|].
    - destruct (decide (conf = dns_client_default)) as [->|Hn].
      + rewrite P by done. by eexists _, _.
      + destruct (S conf eq_refl Hn) as (A & _ & C). unfold keeps_or_sets in *.
        destruct (dc_server conf), (dc_options conf); by eexists _, _.
    - destruct (K eq_refl) as (A & _ & C). by eexists _, _. }
  unfold field_or_empty. destruct r as [a b c]. simpl in *. subst. split.
  - split; [|done|done]. done.
  - intros _. split; [done|done|]. intros conf [= <-] _. unfold keeps_or_sets. simpl.
    split; [done|]. split; [|done]. by destruct b.
Qed.

Lemma dns_saved_allowed m :
  auto_search_allowed (dr_config (dns_state_for_save m)) = merged_auto_search_allowed m.
Proof. unfold auto_search_allowed, merged_auto_search_allowed. simpl. by destruct (md_search_defined m). Qed.

(** What a DNS apply persists.  A configuration that is not mentioned is kept, an empty one
    purges everything static, and otherwise every mentioned property is replaced and every
    other one kept; a cache that is not mentioned is kept, and of a mentioned one the groups
    generated from DHCP are dropped; an apply that does not mention DNS, and one that
    applies what is persisted, change nothing of it whatever the current state of the host;
    and the refresh between applies, which reads what is persisted, allows DHCP search
    domains exactly when the apply did. *)
Theorem dns_saved_correct desired current saved m :
  merged_dns_new desired current saved = Ok m →
  let s := dns_state_for_save m in
  edited (dr_config desired) (previous_config current saved) (config_for_save m) ∧
  dr_cache s = option_or (with_groups user_groups <$> dr_cache desired) (saved ≫= dr_cache) ∧
  (∀ current' m', merged_dns_new dns_resolver_default current' (Some s) = Ok m' →
    dns_state_for_save m' = s) ∧
  (∀ current' m', (∀ c, dr_cache s = Some c → user_groups (cc_groups c) = cc_groups c) →
    merged_dns_new s current' (Some s) = Ok m' → dns_state_for_save m' = s) ∧
  auto_search_allowed (dr_config s) = merged_auto_search_allowed m.
Proof.
  intros H s. pose proof (merged_dns_edited _ _ _ _ H) as He.
  pose proof (edited_fixed _ _ _ He) as [Hk Hs].
  split; [done|]. split; [by apply merged_dns_cache in H|]. split; [|split].
  - intros c' m' H'. pose proof (merged_dns_edited _ _ _ _ H') as He'.
    apply merged_dns_cache in H'. unfold s, dns_state_for_save in *. f_equal; [|by rewrite H'].
    f_equal. by eapply edited_unique; [exact He'|].
  - intros c' m' Hu H'. pose proof (merged_dns_edited _ _ _ _ H') as He'.
    apply merged_dns_cache in H'. unfold s, dns_state_for_save in *. simpl in *. f_equal.
    + f_equal. eapply edited_unique; [exact He'|]. by apply Hs.
    + rewrite H'. destruct (md_cache_for_save m) as [c|]; [|done]. simpl. f_equal.
      unfold with_groups. rewrite (Hu c) by done. by destruct c.
  - apply dns_saved_allowed.
Qed.

Lemma dns_saved_correct_witness :
  let edit := dns_resolver None (Some (dns_client None (Some []) None)) None in
  let saved := ex_resolver ["127.0.0.1"] in
  ∃ m, merged_dns_new edit dns_resolver_default (Some saved) = Ok m ∧
    config_for_save m = dns_client (Some ["127.0.0.1"]) (Some []) (Some ["ndots:2"]) ∧
    auto_search_allowed (dr_config (dns_state_for_save m)) = false.
Proof.
  eexists. split; [vm_compute; reflexivity|]. split; [vm_compute; reflexivity|].
  match goal with |- auto_search_allowed (dr_config (dns_state_for_save ?m)) = _ =>
    rewrite (proj2 (proj2 (proj2 (proj2 (dns_saved_correct
      (dns_resolver None (Some (dns_client None (Some []) None)) None) dns_resolver_default
      (Some (ex_resolver ["127.0.0.1"])) m ltac:(vm_compute; reflexivity))))))
  end. vm_compute. reflexivity.
Defined.
