(* ===== verification/IpConfig.v ===== *)
(** * IpConfig: [src/lib/schema/ip.rs]

    The IP section of an interface: its sanitizing before an apply and before
    the verification, IP network strings, and the DHCP state strings. *)

From S2P Require Export Errors NetAddr.

#[local] Open Scope Z_scope.

Definition IPV4_ADDR_LEN : Z := 32.
Definition IPV6_ADDR_LEN : Z := 128.
Definition FOREVER : string := "forever".

(** [RouteEntry::USE_DEFAULT_METRIC]. *)
Definition USE_DEFAULT_METRIC : Z := -1.

Inductive DhcpState : Type :=
| WaitLinkCarrier
| Running
| Done
| DhcpError (msg : string).

#[export] Instance DhcpState_eq_dec : EqDecision DhcpState.
Proof. solve_decision. Defined.

(** [From<DhcpState> for String]. *)
Definition dhcp_state_to_string (s : DhcpState) : string :=
  match s with
  | WaitLinkCarrier => "wait-link-carrier"
  | Running => "running"
  | Done => "done"
  | DhcpError v => "error:" ++ v
  end.

(** [str::strip_prefix]. *)
Fixpoint strip_prefix (p s : string) : option string :=
  match p, s with
  | "", _ => Some s
  | String a p', String b s' => if Ascii.eqb a b then strip_prefix p' s' else None
  | String _ _, "" => None
  end.

(** [TryFrom<String> for DhcpState]. *)
Definition dhcp_state_try_from (value : string) : res DhcpState :=
  if String.eqb value "wait-link-carrier" then Ok WaitLinkCarrier
  else if String.eqb value "running" then Ok Running
  else if String.eqb value "done" then Ok Done
  else match strip_prefix "error:" value with
       | Some err_msg => Ok (DhcpError err_msg)
       | None => fail InvalidArgument
       end.

Record InterfaceIpAddr : Type := iface_ip_addr {
  ip : IpAddr;
  prefix_length : Z;
  valid_life_time : option string;
  preferred_life_time : option string;
}.

#[export] Instance InterfaceIpAddr_eq_dec : EqDecision InterfaceIpAddr.
Proof. solve_decision. Defined.

Record InterfaceIpv4 : Type := iface_ipv4 {
  v4_enabled : option bool;
  v4_dhcp : option bool;
  v4_dhcp_state : option DhcpState;
  v4_addresses : option (list InterfaceIpAddr);
  auto_gateway : option bool;
  auto_dns : option bool;
  auto_dns_priority : option Z;
  auto_route_metric : option Z;
}.

#[export] Instance InterfaceIpv4_eq_dec : EqDecision InterfaceIpv4.
Proof. solve_decision. Defined.

Record InterfaceIpv6 : Type := iface_ipv6 {
  v6_enabled : option bool;
  v6_dhcp : option bool;
  v6_dhcp_state : option DhcpState;
  v6_autoconf : option bool;
  v6_addresses : option (list InterfaceIpAddr);
}.

#[export] Instance InterfaceIpv6_eq_dec : EqDecision InterfaceIpv6.
Proof. solve_decision. Defined.

(** [addr.is_auto()] of an address. *)
Definition addr_is_auto (a : InterfaceIpAddr) : bool :=
  match valid_life_time a with
  | Some t => negb (String.eqb t FOREVER)
  | None => false
  end.

(** The derived [Ord for InterfaceIpAddr]: the fields in order. *)
Definition ip_key (i : IpAddr) : bool * Z :=
  match i with V4 n => (false, n) | V6 n => (true, n) end.

Definition addr_key (a : InterfaceIpAddr) :
    bool * Z * (Z * (option string * option string)) :=
  (ip_key (ip a), (prefix_length a, (valid_life_time a, preferred_life_time a))).

Definition addr_key_cmp : bool * Z * (Z * (option string * option string)) →
    bool * Z * (Z * (option string * option string)) → comparison :=
  pair_cmp (pair_cmp bool_cmp Z.compare)
    (pair_cmp Z.compare (pair_cmp (option_cmp string_cmp) (option_cmp string_cmp))).

(** [addrs.sort()]. *)
Definition sort_addrs : list InterfaceIpAddr → list InterfaceIpAddr :=
  sort_by addr_key_cmp addr_key.

(** [ipv6.is_unicast_link_local()]: [(segments()[0] & 0xffc0) == 0xfe80]. *)
Definition is_unicast_link_local (n : Z) : bool :=
  Z.land (nth 0 (segments n) 0) 0xffc0 =? 0xfe80.

Definition addr_no_life_time (a : InterfaceIpAddr) : InterfaceIpAddr :=
  iface_ip_addr (ip a) (prefix_length a) None None.

(** ** [InterfaceIpv4] *)

Definition ipv4_new_disabled : InterfaceIpv4 :=
  iface_ipv4 (Some false) None None None None None None None.

Definition ipv4_is_enabled (i : InterfaceIpv4) : bool :=
  negb (bool_decide (v4_enabled i = Some false)).

Definition ipv4_is_auto (i : InterfaceIpv4) : bool :=
  ipv4_is_enabled i && bool_decide (v4_dhcp i = Some true).

Definition addresses_empty (l : option (list InterfaceIpAddr)) : bool :=
  match l with Some (_ :: _) => false | _ => true end.

Definition ipv4_is_static (i : InterfaceIpv4) : bool :=
  ipv4_is_enabled i && negb (ipv4_is_auto i) && negb (addresses_empty (v4_addresses i)).

Definition auto_dns_enabled (i : InterfaceIpv4) : bool := default true (auto_dns i).

Definition auto_dns_priority_value (i : InterfaceIpv4) : Z := default 0 (auto_dns_priority i).

Definition dhcp_route_metric (i : InterfaceIpv4) (iface_index : option Z)
    (route_index : Z) : option Z :=
  match auto_route_metric i with
  | Some metric =>
      if negb (metric =? USE_DEFAULT_METRIC) then Some metric
      else (λ idx, 100 * idx + route_index) <$> iface_index
  | None => (λ idx, 100 * idx + route_index) <$> iface_index
  end.

(** The address checks of [InterfaceIpv4::sanitize]. *)
Definition ipv4_sanitize_addrs (addrs : list InterfaceIpAddr) :
    res (list InterfaceIpAddr) :=
  if existsb (λ a, is_ipv6 (ip a)) addrs then fail InvalidArgument
  else if existsb (λ a, IPV4_ADDR_LEN <? prefix_length a) addrs
  then fail InvalidArgument
  else Ok ((λ a, if negb (addr_is_auto a) then addr_no_life_time a else a) <$> addrs).

Definition ipv4_set_addresses (i : InterfaceIpv4) (l : option (list InterfaceIpAddr)) :
    InterfaceIpv4 :=
  iface_ipv4 (v4_enabled i) (v4_dhcp i) (v4_dhcp_state i) l (auto_gateway i)
    (auto_dns i) (auto_dns_priority i) (auto_route_metric i).

Definition ipv4_clear_auto (i : InterfaceIpv4) : InterfaceIpv4 :=
  iface_ipv4 (v4_enabled i) (v4_dhcp i) (v4_dhcp_state i) (v4_addresses i)
    None None None None.

(** [InterfaceIpv4::sanitize]. *)
Definition ipv4_sanitize (self : InterfaceIpv4) : res InterfaceIpv4 :=
  let self := iface_ipv4 (v4_enabled self) (v4_dhcp self) None (v4_addresses self)
    (auto_gateway self) (auto_dns self) (auto_dns_priority self)
    (auto_route_metric self) in
  let? self :=
    match v4_addresses self with
    | Some addrs =>
        let? addrs := ipv4_sanitize_addrs addrs in
        Ok (ipv4_set_addresses self (Some addrs))
    | None => Ok self
    end in
  let self :=
    if negb (ipv4_is_enabled self) then
      ipv4_clear_auto (iface_ipv4 (v4_enabled self) None (v4_dhcp_state self) None
        None None None None)
    else self in
  if negb (bool_decide (v4_dhcp self = Some true)) then Ok (ipv4_clear_auto self)
  else
    match auto_route_metric self with
    | Some metric =>
        if negb ((USE_DEFAULT_METRIC <=? metric) && (metric <=? 4294967295))
        then fail InvalidArgument
        else if metric =? USE_DEFAULT_METRIC then
          Ok (iface_ipv4 (v4_enabled self) (v4_dhcp self) (v4_dhcp_state self)
                (v4_addresses self) (auto_gateway self) (auto_dns self)
                (auto_dns_priority self) None)
        else Ok self
    | None => Ok self
    end.

(** The life times of the matching current address. *)
Definition sync_life_time (cur_addrs : list InterfaceIpAddr) (a : InterfaceIpAddr) :
    InterfaceIpAddr :=
  match List.find (λ c, bool_decide (ip c = ip a) && (prefix_length c =? prefix_length a))
          cur_addrs with
  | Some c => iface_ip_addr (ip a) (prefix_length a) (valid_life_time c)
                (preferred_life_time c)
  | None => a
  end.

Definition sync_addresses (cur : option (list InterfaceIpAddr))
    (addrs : list InterfaceIpAddr) : list InterfaceIpAddr :=
  match cur with
  | Some cur_addrs => sync_life_time cur_addrs <$> addrs
  | None => addrs
  end.

(** [InterfaceIpv4::sanitize_before_verify]. *)
Definition ipv4_sanitize_before_verify (self current : InterfaceIpv4) :
    InterfaceIpv4 * InterfaceIpv4 :=
  let self := ipv4_clear_auto self in
  let self := ipv4_set_addresses self
    (sync_addresses (v4_addresses current) <$> v4_addresses self) in
  let current := ipv4_set_addresses current (sort_addrs <$> v4_addresses current) in
  let self := ipv4_set_addresses self (sort_addrs <$> v4_addresses self) in
  let current := iface_ipv4 (v4_enabled current)
    (match v4_dhcp current with None => Some false | d => d end)
    (v4_dhcp_state current)
    (match v4_addresses current with None => Some [] | a => a end)
    (auto_gateway current) (auto_dns current) (auto_dns_priority current)
    (auto_route_metric current) in
  (self, current).

(** ** [InterfaceIpv6] *)

Definition ipv6_new_disabled : InterfaceIpv6 := iface_ipv6 (Some false) None None None None.

Definition ipv6_new_purge_keep_link_local : InterfaceIpv6 :=
  iface_ipv6 (Some true) (Some false) None (Some false) (Some []).

Definition ipv6_is_enabled (i : InterfaceIpv6) : bool :=
  negb (bool_decide (v6_enabled i = Some false)).

Definition ipv6_is_auto (i : InterfaceIpv6) : bool :=
  ipv6_is_enabled i &&
  (bool_decide (v6_dhcp i = Some true) || bool_decide (v6_autoconf i = Some true)).

Definition ipv6_is_static (i : InterfaceIpv6) : bool :=
  ipv6_is_enabled i && negb (ipv6_is_auto i) && negb (addresses_empty (v6_addresses i)).

Definition is_link_local_addr (a : InterfaceIpAddr) : bool :=
  match ip a with V6 n => is_unicast_link_local n | V4 _ => false end.

(** The address part of [InterfaceIpv6::sanitize]. *)
Definition ipv6_sanitize_addrs (addrs : list InterfaceIpAddr) :
    res (list InterfaceIpAddr) :=
  if existsb (λ a, is_ipv4 (ip a)) addrs then fail InvalidArgument
  else if existsb (λ a, IPV6_ADDR_LEN <? prefix_length a) addrs
  then fail InvalidArgument
  else
    let addrs := List.filter (λ a, negb (addr_is_auto a)) addrs in
    let addrs := addr_no_life_time <$> addrs in
    Ok (List.filter (λ a, match ip a with
                          | V6 n => negb (is_unicast_link_local n)
                          | V4 _ => false
                          end) addrs).

(** [InterfaceIpv6::sanitize]. *)
Definition ipv6_sanitize (self : InterfaceIpv6) : res InterfaceIpv6 :=
  let self := iface_ipv6 (v6_enabled self) (v6_dhcp self) None (v6_autoconf self)
    (v6_addresses self) in
  let? self :=
    match v6_addresses self with
    | Some addrs =>
        let? addrs := ipv6_sanitize_addrs addrs in
        Ok (iface_ipv6 (v6_enabled self) (v6_dhcp self) (v6_dhcp_state self)
              (v6_autoconf self) (Some addrs))
    | None => Ok self
    end in
  if negb (ipv6_is_enabled self) then
    Ok (iface_ipv6 (v6_enabled self) None (v6_dhcp_state self) None None)
  else Ok self.

Definition drop_link_local (addrs : list InterfaceIpAddr) : list InterfaceIpAddr :=
  List.filter (λ a, match ip a with
                    | V6 n => negb (is_unicast_link_local n)
                    | V4 _ => true
                    end) addrs.

Definition ipv6_set_addresses (i : InterfaceIpv6) (l : option (list InterfaceIpAddr)) :
    InterfaceIpv6 :=
  iface_ipv6 (v6_enabled i) (v6_dhcp i) (v6_dhcp_state i) (v6_autoconf i) l.

(** [InterfaceIpv6::sanitize_before_verify]. *)
Definition ipv6_sanitize_before_verify (self current : InterfaceIpv6) :
    InterfaceIpv6 * InterfaceIpv6 :=
  let self := ipv6_set_addresses self
    ((λ addrs, sort_addrs (drop_link_local (sync_addresses (v6_addresses current) addrs)))
       <$> v6_addresses self) in
  let current := ipv6_set_addresses current
    ((λ addrs, sort_addrs (drop_link_local addrs)) <$> v6_addresses current) in
  let self := ipv6_set_addresses self (sort_addrs <$> v6_addresses self) in
  let current := iface_ipv6 (v6_enabled current)
    (match v6_dhcp current with None => Some false | d => d end)
    (v6_dhcp_state current) (v6_autoconf current)
    (match v6_addresses current with None => Some [] | a => a end) in
  (self, current).

(** ** Address and network strings *)

Definition slash : ascii := "/"%char.

(** [FromStr for InterfaceIpAddr]. *)
Definition iface_addr_from_str (value : string) : res InterfaceIpAddr :=
  let addr := str_split slash value in
  let a0 := nth 0 addr "" in
  let a1 := nth 1 addr "" in
  match ip_from_str a0 with
  | None => fail InvalidArgument
  | Some i =>
      if String.eqb a1 "" then
        Ok (iface_ip_addr i (if is_ipv6 i then 128 else 32) None None)
      else
        match parse_unsigned 255 a1 with
        | None => fail InvalidArgument
        | Some p => Ok (iface_ip_addr i p None None)
        end
  end.

(** [uN::MAX << k]. *)
Definition max_shl (width k : Z) : Z := Z.shiftl (2 ^ width - 1) k mod 2 ^ width.

(** [apply_ip_prefix_len]. *)
Definition apply_ip_prefix_len (i : IpAddr) (prefix_length : Z) : IpAddr :=
  if prefix_length =? 0 then (if is_ipv6 i then V6 0 else V4 0)
  else if (is_ipv6 i && (IPV6_ADDR_LEN <=? prefix_length)) ||
          (is_ipv4 i && (IPV4_ADDR_LEN <=? prefix_length)) then i
  else
    match i with
    | V6 n => V6 (Z.land n (max_shl 128 (IPV6_ADDR_LEN - prefix_length)))
    | V4 n => V4 (Z.land n (max_shl 32 (IPV4_ADDR_LEN - prefix_length)))
    end.

(** [format!("{ip}/{prefix_len}")], for the lengths up to 128 it is used at. *)
Definition network_string (i : IpAddr) (prefix_len : Z) : string :=
  ip_display i ++ "/" ++ dec_string prefix_len.

(** [sanitize_ip_network]. *)
Definition sanitize_ip_network (ip_net : string) : res string :=
  match str_split slash ip_net with
  | [] => fail InvalidArgument
  | [s0] =>
      match ip_from_str s0 with
      | None => fail InvalidArgument
      | Some i =>
          Ok (network_string i (if is_ipv6 i then IPV6_ADDR_LEN else IPV4_ADDR_LEN))
      end
  | [s0; s1] =>
      match parse_unsigned USIZE_MAX s1 with
      | None => fail InvalidArgument
      | Some prefix_len =>
          match ip_from_str s0 with
          | None => fail InvalidArgument
          | Some i0 =>
              let i := apply_ip_prefix_len i0 prefix_len in
              if is_ipv6 i then
                if IPV6_ADDR_LEN <? prefix_len then fail InvalidArgument
                else Ok (network_string i prefix_len)
              else if IPV4_ADDR_LEN <? prefix_len then fail InvalidArgument
              else Ok (network_string i prefix_len)
          end
      end
  | _ => fail InvalidArgument
  end.

Definition is_ipv6_addr (addr : string) : bool := str_contains colon addr.

(** ** Network strings *)

Definition ip_width (i : IpAddr) : Z := if is_ipv6 i then 128 else 32.
Definition ip_bits (i : IpAddr) : Z := match i with V4 n | V6 n => n end.

(** The mask keeps the bits above [k]. *)
Lemma land_max_shl w k n :
  0 ≤ k ≤ w → 0 ≤ n < 2 ^ w → Z.land n (max_shl w k) = n / 2 ^ k * 2 ^ k.
Proof.
  intros Hk Hn.
  assert (max_shl w k = Z.shiftl (Z.ones (w - k)) k) as ->.
  { unfold max_shl. rewrite !Z.shiftl_mul_pow2, Z.ones_equiv by lia.
    assert (2 ^ w = 2 ^ (w - k) * 2 ^ k) as Hw
      by (rewrite <-Z.pow_add_r by lia; f_equal; lia).
    pose proof (Z.pow_pos_nonneg 2 k ltac:(lia) ltac:(lia)).
    pose proof (Z.pow_pos_nonneg 2 (w - k) ltac:(lia) ltac:(lia)).
    symmetry. apply (Z.mod_unique_pos _ _ (2 ^ k - 1)); nia. }
  rewrite <-Z.shiftl_mul_pow2, <-Z.shiftr_div_pow2 by lia.
  apply Z.bits_inj'. intros j Hj. rewrite Z.land_spec.
  destruct (Z.lt_ge_cases j k).
  - by rewrite !(Z.shiftl_spec_low _ k) by lia; rewrite andb_false_r.
  - rewrite !Z.shiftl_spec, Z.shiftr_spec by lia.
    replace (j - k + k) with j by lia. destruct (Z.lt_ge_cases j w).
    + rewrite Z.ones_spec_low by lia. apply andb_true_r.
    + rewrite Z.ones_spec_high by lia. rewrite andb_false_r. symmetry.
      destruct (decide (n = 0)) as [->|]; [apply Z.bits_0|].
      apply (Z.bits_above_log2 n j); [lia|].
      apply Z.log2_lt_pow2; [lia|]. pose proof (Z.pow_le_mono_r 2 w j). lia.
Qed.

(** The prefix keeps its bits, the host bits are zero. *)
Lemma apply_ip_prefix_len_bits i p :
  ip_ok i → 0 ≤ p ≤ ip_width i →
  let i' := apply_ip_prefix_len i p in
  is_ipv6 i' = is_ipv6 i ∧
  ip_bits i' = ip_bits i / 2 ^ (ip_width i - p) * 2 ^ (ip_width i - p).
Proof.
  intros Hi Hp. cbv zeta. unfold apply_ip_prefix_len, ip_width, IPV6_ADDR_LEN,
    IPV4_ADDR_LEN, is_ipv4 in *.
  destruct (p =? 0) eqn:E0.
  - apply Z.eqb_eq in E0 as ->. rewrite Z.sub_0_r.
    destruct i as [n|n]; simpl in *; (split; [done|]); by rewrite Z.div_small.
  - apply Z.eqb_neq in E0. destruct i as [n|n]; simpl in *.
    + destruct (32 <=? p) eqn:E; bool_hyps; simpl; (split; [done|]).
      * replace p with 32 by lia. simpl. rewrite Z.div_1_r. lia.
      * apply land_max_shl; lia.
    + destruct (128 <=? p) eqn:E; bool_hyps; simpl; (split; [done|]).
      * replace p with 128 by lia. simpl. rewrite Z.div_1_r. lia.
      * apply land_max_shl; lia.
Qed.

Definition host_bits_zero (i : IpAddr) (p : Z) : Prop :=
  ip_bits i mod 2 ^ (ip_width i - p) = 0.

Lemma ip_ext i j : is_ipv6 i = is_ipv6 j → ip_bits i = ip_bits j → i = j.
Proof. destruct i, j; simpl; congruence. Qed.

Lemma pow_width_pos i p : 0 ≤ p ≤ ip_width i → 0 < 2 ^ (ip_width i - p).
Proof. intros Hp. apply Z.pow_pos_nonneg; lia. Qed.

Lemma apply_prefix_host_bits i p :
  ip_ok i → 0 ≤ p ≤ ip_width i → host_bits_zero (apply_ip_prefix_len i p) p.
Proof.
  intros Hi Hp. destruct (apply_ip_prefix_len_bits i p Hi Hp) as [H6 Hb].
  unfold host_bits_zero. rewrite Hb. unfold ip_width in *. rewrite H6.
  apply Z.mod_mul. pose proof (pow_width_pos i p Hp). unfold ip_width in *. lia.
Qed.

Lemma apply_prefix_fixed i p :
  ip_ok i → 0 ≤ p ≤ ip_width i → host_bits_zero i p → apply_ip_prefix_len i p = i.
Proof.
  intros Hi Hp Hz. destruct (apply_ip_prefix_len_bits i p Hi Hp) as [H6 Hb].
  apply ip_ext; [done|]. rewrite Hb. unfold host_bits_zero in Hz.
  pose proof (pow_width_pos i p Hp).
  pose proof (Z.div_mod (ip_bits i) (2 ^ (ip_width i - p)) ltac:(lia)). lia.
Qed.

Lemma apply_prefix_ok i p : ip_ok i → 0 ≤ p ≤ ip_width i → ip_ok (apply_ip_prefix_len i p).
Proof.
  intros Hi Hp. destruct (apply_ip_prefix_len_bits i p Hi Hp) as [H6 Hb].
  pose proof (pow_width_pos i p Hp) as Hpos.
  assert (0 ≤ ip_bits i) as Hge by (destruct i; simpl in *; lia).
  pose proof (Z.mul_div_le (ip_bits i) _ Hpos).
  pose proof (Z.div_pos (ip_bits i) _ Hge Hpos).
  destruct (apply_ip_prefix_len i p), i; simpl in *; try done; nia.
Qed.

Lemma split_network i p :
  0 ≤ p < 256 → str_split slash (network_string i p) = [ip_display i; dec_string p].
Proof.
  intros Hp. unfold network_string. change ("/" ++ dec_string p)%string with
    (String slash (dec_string p)).
  rewrite str_split_app by (by apply ip_display_no_char).
  by rewrite str_split_no_char by (by apply dec_string_no_char16).
Qed.

Lemma ip_width_range i : ip_width i = 32 ∨ ip_width i = 128.
Proof. unfold ip_width. destruct (is_ipv6 i); auto. Qed.

(** The canonical network string is a fixed point. *)
Lemma sanitize_network_string i p :
  ip_ok i → 0 ≤ p ≤ ip_width i → host_bits_zero i p →
  sanitize_ip_network (network_string i p) = Ok (network_string i p).
Proof.
  intros Hi Hp Hz. pose proof (ip_width_range i).
  unfold sanitize_ip_network. rewrite split_network by lia.
  rewrite parse_dec by (unfold USIZE_MAX; lia). rewrite ip_parse_display by done.
  rewrite apply_prefix_fixed by done. unfold ip_width, IPV6_ADDR_LEN, IPV4_ADDR_LEN in *.
  destruct (is_ipv6 i); by rewrite (proj2 (Z.ltb_ge _ _)) by lia.
Qed.

Lemma parse_unsigned_range max s n : parse_unsigned max s = Some n → 0 ≤ n ≤ max.
Proof.
  assert (∀ s, parse_digits max s = Some n → 0 ≤ n ≤ max) as H.
  { intros s'. unfold parse_digits. destruct (read_digits 10 s') as [ds rest] eqn:E.
    apply read_digits_range in E.
    pose proof (undigits_range 10 ds ltac:(lia) E).
    repeat case_match; try done. intros [= <-]. bool_hyps. lia. }
  unfold parse_unsigned. repeat case_match; apply H.
Qed.

(** A network string in canonical form: no host bits, a prefix length that fits
    the family. *)
Definition canonical_network (t : string) : Prop :=
  ∃ i p, t = network_string i p ∧ ip_ok i ∧ 0 ≤ p ≤ ip_width i ∧ host_bits_zero i p.

Lemma sanitize_ip_network_network s t :
  sanitize_ip_network s = Ok t → canonical_network t.
Proof.
  intros H.
  unfold sanitize_ip_network in H.
  destruct (str_split slash s) as [|s0 [|s1 [|]]]; try done.
  - destruct (ip_from_str s0) as [i|] eqn:Ei; [|done]. injection H as <-.
    exists i, (ip_width i). split_and!; [done|by eapply ip_from_str_ok| |done|].
    + destruct (ip_width_range i); lia.
    + unfold host_bits_zero. by rewrite Z.sub_diag, Z.mod_1_r.
  - destruct (parse_unsigned USIZE_MAX s1) as [p|] eqn:Ep; [|done].
    apply parse_unsigned_range in Ep.
    destruct (ip_from_str s0) as [i|] eqn:Ei; [|done]. apply ip_from_str_ok in Ei.
    cbv zeta in H.
    assert (is_ipv6 (apply_ip_prefix_len i p) = is_ipv6 i) as H6.
    { unfold apply_ip_prefix_len. repeat case_match; done. }
    rewrite H6 in H.
    assert (0 ≤ p ≤ ip_width i) as Hp.
    { unfold ip_width, IPV6_ADDR_LEN, IPV4_ADDR_LEN in *.
      destruct (is_ipv6 i); destruct (_ <? p) eqn:E; try done; bool_hyps; lia. }
    exists (apply_ip_prefix_len i p), p.
    split_and!; [|by apply apply_prefix_ok|lia|..|by apply apply_prefix_host_bits].
    + destruct (is_ipv6 i), (_ <? p) in H; try done; by injection H.
    + unfold ip_width in *. rewrite H6. lia.
Qed.

Lemma canonical_network_fixed t : canonical_network t → sanitize_ip_network t = Ok t.
Proof. intros (i & p & -> & Hi & Hp & Hz). by apply sanitize_network_string. Qed.

(** [sanitize_ip_network] canonicalizes.  Whatever it accepts it returns as
    the address without host bits, a slash and a prefix length that fits the
    address family; and that string is a fixed point: sanitizing again changes
    nothing. *)
Theorem sanitize_ip_network_canonical s t :
  sanitize_ip_network s = Ok t →
  canonical_network t ∧ sanitize_ip_network t = Ok t.
Proof.
  intros H%sanitize_ip_network_network. eauto using canonical_network_fixed.
Qed.

Lemma sanitize_ip_network_canonical_witness :
  sanitize_ip_network "192.0.2.77/24" = Ok "192.0.2.0/24" ∧
  sanitize_ip_network "192.0.2.0/24" = Ok "192.0.2.0/24".
Proof.
  split; [reflexivity|].
  apply (proj2 (sanitize_ip_network_canonical "192.0.2.77/24" "192.0.2.0/24" eq_refl)).
Defined.

(** ** Sanitized IP sections *)

(** What an apply may rely on. *)
Record ipv4_sane (i : InterfaceIpv4) : Prop := {
  s4_state : v4_dhcp_state i = None;
  s4_addrs : ∀ l, v4_addresses i = Some l → Forall (λ a, is_ipv6 (ip a) = false ∧
    prefix_length a ≤ 32 ∧
    (addr_is_auto a = false → valid_life_time a = None ∧ preferred_life_time a = None)) l;
  s4_disabled : v4_enabled i = Some false → v4_dhcp i = None ∧ v4_addresses i = None;
  s4_auto : v4_dhcp i ≠ Some true → auto_gateway i = None ∧ auto_dns i = None ∧
    auto_dns_priority i = None ∧ auto_route_metric i = None;
  s4_metric : ∀ m, auto_route_metric i = Some m → 0 ≤ m ≤ 4294967295;
}.

Record ipv6_sane (i : InterfaceIpv6) : Prop := {
  s6_state : v6_dhcp_state i = None;
  s6_addrs : ∀ l, v6_addresses i = Some l → Forall (λ a, is_ipv6 (ip a) = true ∧
    prefix_length a ≤ 128 ∧ is_link_local_addr a = false ∧
    valid_life_time a = None ∧ preferred_life_time a = None) l;
  s6_disabled : v6_enabled i = Some false →
    v6_dhcp i = None ∧ v6_autoconf i = None ∧ v6_addresses i = None;
}.

Lemma existsb_false {A} (f : A → bool) l :
  existsb f l = false ↔ Forall (λ x, f x = false) l.
Proof.
  induction l as [|x l IH]; simpl; [split; [constructor|done]|].
  rewrite orb_false_iff, Forall_cons. by rewrite IH.
Qed.

Lemma fmap_fixed {A} (f : A → A) l : Forall (λ x, f x = x) l → f <$> l = l.
Proof. induction 1 as [|x l Hx _ IH]; [done|]. by rewrite fmap_cons, Hx, IH. Qed.

Lemma list_filter_fixed {A} (f : A → bool) l :
  Forall (λ x, f x = true) l → List.filter f l = l.
Proof. induction 1 as [|x l Hx _ IH]; simpl; [done|by rewrite Hx, IH]. Qed.

Lemma ipv4_sanitize_addrs_spec l l' :
  ipv4_sanitize_addrs l = Ok l' →
  Forall (λ a, is_ipv6 (ip a) = false ∧ prefix_length a ≤ 32 ∧
    (addr_is_auto a = false → valid_life_time a = None ∧ preferred_life_time a = None)) l'.
Proof.
  unfold ipv4_sanitize_addrs, IPV4_ADDR_LEN.
  destruct (existsb _ l) eqn:E1; [done|].
  destruct (existsb (λ a, 32 <? _) l) eqn:E2; [done|]. intros [= <-].
  apply existsb_false in E1, E2. apply Forall_fmap.
  pose proof (proj2 (Forall_and _ _) (conj E1 E2)) as H.
  eapply Forall_impl; [exact H|]. intros a [H1 H2%Z.ltb_ge]. simpl in *.
  destruct (addr_is_auto a) eqn:Ea; simpl; [|done]. rewrite Ea. done.
Qed.

Lemma ipv4_sanitize_addrs_fixed l :
  Forall (λ a, is_ipv6 (ip a) = false ∧ prefix_length a ≤ 32 ∧
    (addr_is_auto a = false → valid_life_time a = None ∧ preferred_life_time a = None)) l →
  ipv4_sanitize_addrs l = Ok l.
Proof.
  intros H. unfold ipv4_sanitize_addrs, IPV4_ADDR_LEN.
  rewrite (proj2 (existsb_false _ _)).
  2:{ eapply Forall_impl; [done|]. by intros a (? & _). }
  rewrite (proj2 (existsb_false _ _)).
  2:{ eapply Forall_impl; [done|]. intros a (_ & ? & _). by apply Z.ltb_ge. }
  f_equal. apply fmap_fixed. eapply Forall_impl; [done|]. intros a (_ & _ & Ha). simpl.
  destruct (addr_is_auto a); simpl; [done|]. destruct a; simpl in *.
  by destruct Ha as [-> ->].
Qed.

Lemma ipv4_sanitize_fixed i : ipv4_sane i → ipv4_sanitize i = Ok i.
Proof.
  intros [Hs Ha Hd Hau Hm]. unfold ipv4_sanitize.
  destruct i as [en dh ds ad ag adn adp arm]; simpl in *. subst ds.
  assert (match ad with
    | Some addrs =>
        let? addrs := ipv4_sanitize_addrs addrs in
        Ok (ipv4_set_addresses (iface_ipv4 en dh None ad ag adn adp arm) (Some addrs))
    | None => Ok (iface_ipv4 en dh None ad ag adn adp arm)
    end = Ok (iface_ipv4 en dh None ad ag adn adp arm) :> res InterfaceIpv4) as ->.
  { destruct ad as [l|]; [|done]. by rewrite (ipv4_sanitize_addrs_fixed l) by auto. }
  cbv zeta. cbn iota.
  unfold ipv4_is_enabled. cbn [v4_enabled].
  destruct (bool_decide (en = Some false)) eqn:Een.
  - apply bool_decide_eq_true in Een as ->. destruct (Hd eq_refl) as [-> ->].
    destruct Hau as (-> & -> & -> & ->); [done|]. done.
  - simpl. destruct (bool_decide (dh = Some true)) eqn:Edh; simpl.
    + destruct arm as [metric|]; [|done]. specialize (Hm _ eq_refl).
      unfold USE_DEFAULT_METRIC.
      rewrite !(proj2 (Z.leb_le _ _)) by lia. simpl.
      by rewrite (proj2 (Z.eqb_neq _ _)) by lia.
    + apply bool_decide_eq_false in Edh. by destruct Hau as (-> & -> & -> & ->).
Qed.

Lemma ipv4_sanitize_sane i i' : ipv4_sanitize i = Ok i' → ipv4_sane i'.
Proof.
  unfold ipv4_sanitize.
  destruct i as [en dh ds ad ag adn adp arm]; cbn [v4_enabled v4_dhcp v4_dhcp_state
    v4_addresses auto_gateway auto_dns auto_dns_priority auto_route_metric].
  cbv zeta.
  assert (∃ r, (match ad with
    | Some addrs =>
        let? addrs := ipv4_sanitize_addrs addrs in
        Ok (ipv4_set_addresses (iface_ipv4 en dh None ad ag adn adp arm) (Some addrs))
    | None => Ok (iface_ipv4 en dh None ad ag adn adp arm)
    end) = r ∧ ∀ j, r = Ok j → ∃ ad', j = iface_ipv4 en dh None ad' ag adn adp arm ∧
      ∀ l, ad' = Some l → Forall (λ a, is_ipv6 (ip a) = false ∧ prefix_length a ≤ 32 ∧
        (addr_is_auto a = false → valid_life_time a = None ∧
           preferred_life_time a = None)) l) as (r & -> & Hr).
  { eexists. split; [done|]. intros j Hj. destruct ad as [l|].
    - destruct (ipv4_sanitize_addrs l) as [l'|] eqn:E; [|done]. injection Hj as <-.
      exists (Some l'). split; [done|]. intros ? [= <-]. by eapply ipv4_sanitize_addrs_spec.
    - injection Hj as <-. by exists None. }
  destruct r as [j|]; [|done]. destruct (Hr j eq_refl) as (ad' & -> & Had). clear Hr.
  unfold ipv4_is_enabled. cbn [v4_enabled].
  destruct (bool_decide (en = Some false)) eqn:Een; simpl.
  - intros [= <-]. by split.
  - apply bool_decide_eq_false in Een.
    destruct (bool_decide (dh = Some true)) eqn:Edh; simpl.
    + apply bool_decide_eq_true in Edh as ->.
      destruct arm as [metric|]; unfold USE_DEFAULT_METRIC.
      * destruct (negb _) eqn:Em; [done|].
        destruct (metric =? -1) eqn:E1; intros [= <-]; split; try done.
        intros m [= <-]. bool_hyps. lia.
      * intros [= <-]. by split.
    + intros [= <-]. by split.
Qed.

(** What [InterfaceIpv4::sanitize] lets through is safe to apply: only IPv4
    addresses with prefixes of at most 32, static ones without life times,
    nothing left configured on a disabled stack, DHCP options only with DHCP
    on, a metric in the range the kernel takes; and sanitizing again changes
    nothing. *)
Theorem ipv4_sanitize_correct i i' :
  ipv4_sanitize i = Ok i' → ipv4_sane i' ∧ ipv4_sanitize i' = Ok i'.
Proof. intros H%ipv4_sanitize_sane. auto using ipv4_sanitize_fixed. Qed.

Definition ex_ipv4 : InterfaceIpv4 :=
  iface_ipv4 (Some true) (Some true) (Some Done)
    (Some [iface_ip_addr (V4 3221225985) 24 (Some "forever") None]) None (Some false) None
    (Some (-1)).

Lemma ipv4_sanitize_correct_witness :
  ∃ i', ipv4_sanitize ex_ipv4 = Ok i' ∧ ipv4_sane i' ∧ ipv4_sanitize i' = Ok i'.
Proof.
  eexists. split; [reflexivity|]. apply (ipv4_sanitize_correct ex_ipv4). reflexivity.
Defined.

Lemma list_filter_Forall {A} (f : A → bool) (P : A → Prop) l :
  Forall P l → Forall (λ x, f x = true ∧ P x) (List.filter f l).
Proof.
  induction 1 as [|x l Hx _ IH]; simpl; [constructor|].
  destruct (f x) eqn:E; [by constructor|done].
Qed.

Lemma ipv6_sanitize_addrs_spec l l' :
  ipv6_sanitize_addrs l = Ok l' →
  Forall (λ a, is_ipv6 (ip a) = true ∧ prefix_length a ≤ 128 ∧
    is_link_local_addr a = false ∧ valid_life_time a = None ∧
    preferred_life_time a = None) l'.
Proof.
  unfold ipv6_sanitize_addrs, IPV6_ADDR_LEN.
  destruct (existsb _ l) eqn:E1; [done|].
  destruct (existsb (λ a, 128 <? _) l) eqn:E2; [done|]. cbv zeta. intros [= <-].
  apply existsb_false in E1, E2.
  pose proof (proj2 (Forall_and _ _) (conj E1 E2)) as H.
  pose proof (list_filter_Forall (λ a, negb (addr_is_auto a)) _ _ H) as H1.
  set (k := List.filter (λ a, negb (addr_is_auto a)) l) in *.
  assert (Forall (λ a, is_ipv6 (ip a) = true ∧ prefix_length a ≤ 128 ∧
    valid_life_time a = None ∧ preferred_life_time a = None) (addr_no_life_time <$> k))
    as H2.
  { apply Forall_fmap. eapply Forall_impl; [exact H1|].
    intros a (_ & H6%negb_false_iff & Hp%Z.ltb_ge). by simpl. }
  pose proof (list_filter_Forall (λ a, match ip a with
    | V6 n => negb (is_unicast_link_local n) | V4 _ => false end) _ _ H2) as H3.
  eapply Forall_impl; [exact H3|]. intros a (Hf & H6 & Hp & Hv & Hpr).
  split_and!; try done. unfold is_link_local_addr. destruct (ip a); [done|].
  by apply negb_true_iff.
Qed.

Lemma ipv6_sanitize_addrs_fixed l :
  Forall (λ a, is_ipv6 (ip a) = true ∧ prefix_length a ≤ 128 ∧
    is_link_local_addr a = false ∧ valid_life_time a = None ∧
    preferred_life_time a = None) l →
  ipv6_sanitize_addrs l = Ok l.
Proof.
  intros H. unfold ipv6_sanitize_addrs, IPV6_ADDR_LEN. cbv zeta.
  rewrite (proj2 (existsb_false _ _)).
  2:{ eapply Forall_impl; [done|]. intros a (H6 & _). unfold is_ipv4. by rewrite H6. }
  rewrite (proj2 (existsb_false _ _)).
  2:{ eapply Forall_impl; [done|]. intros a (_ & ? & _). by apply Z.ltb_ge. }
  rewrite (list_filter_fixed (λ a, negb (addr_is_auto a))).
  2:{ eapply Forall_impl; [done|]. intros a (_ & _ & _ & Hv & _).
      unfold addr_is_auto. by rewrite Hv. }
  rewrite fmap_fixed.
  2:{ eapply Forall_impl; [done|]. intros [] (_ & _ & _ & Hv & Hp). simpl in *. by subst. }
  f_equal. apply list_filter_fixed. eapply Forall_impl; [done|].
  intros a (H6 & _ & Hl & _). unfold is_link_local_addr in Hl.
  destruct (ip a); [done|]. by rewrite Hl.
Qed.

(** What [InterfaceIpv6::sanitize] lets through is safe to apply: only IPv6
    addresses with prefixes of at most 128, none of them link-local, dynamic
    or carrying life times, nothing left configured on a disabled stack; and
    sanitizing again changes nothing. *)
Theorem ipv6_sanitize_correct i i' :
  ipv6_sanitize i = Ok i' → ipv6_sane i' ∧ ipv6_sanitize i' = Ok i'.
Proof.
  destruct i as [en dh ds au ad]. unfold ipv6_sanitize, ipv6_is_enabled. cbv zeta.
  cbn [v6_enabled v6_dhcp v6_dhcp_state v6_autoconf v6_addresses].
  intros H. assert (ipv6_sane i') as Hsane.
  { destruct ad as [l|].
    - destruct (ipv6_sanitize_addrs l) as [l'|] eqn:E; [|done].
      apply ipv6_sanitize_addrs_spec in E. simpl in H.
      destruct (bool_decide (en = Some false)) eqn:Een; injection H as <-; split; try done.
      + by intros k [= <-].
      + intros Hen. by apply bool_decide_eq_false in Een.
    - simpl in H. destruct (bool_decide (en = Some false)) eqn:Een; injection H as <-;
        split; try done. intros Hen. by apply bool_decide_eq_false in Een. }
  split; [done|]. destruct Hsane as [Hs Ha Hd]. destruct i' as [en' dh' ds' au' ad'].
  simpl in *. subst ds'.
  assert (match ad' with
    | Some addrs => let? addrs := ipv6_sanitize_addrs addrs in
                    Ok (iface_ipv6 en' dh' None au' (Some addrs))
    | None => Ok (iface_ipv6 en' dh' None au' ad')
    end = Ok (iface_ipv6 en' dh' None au' ad') :> res InterfaceIpv6) as ->.
  { destruct ad' as [l|]; [|done]. rewrite (ipv6_sanitize_addrs_fixed l (Ha l eq_refl)). done. }
  simpl. destruct (bool_decide (en' = Some false)) eqn:Een; simpl; [|done].
  apply bool_decide_eq_true in Een. destruct (Hd Een) as (-> & -> & ->). done.
Qed.

Definition ex_ipv6 : InterfaceIpv6 :=
  iface_ipv6 None (Some false) None None
    (Some [iface_ip_addr (V6 (0xfe80 * 2 ^ 112 + 1)) 64 None None;
           iface_ip_addr (V6 (0x20010db8 * 2 ^ 96 + 1)) 64 (Some "forever") None]).

Lemma ipv6_sanitize_correct_witness :
  ∃ i', ipv6_sanitize ex_ipv6 = Ok i' ∧ ipv6_sane i' ∧ ipv6_sanitize i' = Ok i'.
Proof.
  eexists. split; [reflexivity|]. apply (ipv6_sanitize_correct ex_ipv6). reflexivity.
Defined.

(** ** Verification *)

#[export] Instance addr_key_cmp_total : TotalCmp addr_key_cmp.
Proof. unfold addr_key_cmp. apply _. Qed.

Lemma addr_key_inj a b : addr_key a = addr_key b → a = b.
Proof.
  destruct a as [[n|n] p v w], b as [[m|m] q x y]; unfold addr_key; simpl;
    intros; simplify_eq; done.
Qed.

Lemma sort_addrs_perm l k : l ≡ₚ k → sort_addrs l = sort_addrs k.
Proof.
  apply (sort_by_perm_eq addr_key_cmp addr_key). intros a b. apply addr_key_inj.
Qed.

(** What identifies an address: the life times do not. *)
Definition addr_id (a : InterfaceIpAddr) : IpAddr * Z := (ip a, prefix_length a).

Definition sync_id (cur : list InterfaceIpAddr) (k : IpAddr * Z) : InterfaceIpAddr :=
  sync_life_time cur (iface_ip_addr k.1 k.2 None None).

Lemma find_addr_id cur c :
  NoDup (addr_id <$> cur) → c ∈ cur →
  List.find (λ x, bool_decide (ip x = ip c) && (prefix_length x =? prefix_length c)) cur
    = Some c.
Proof.
  induction cur as [|x cur IH]; [set_solver|]. rewrite fmap_cons, NoDup_cons. simpl.
  intros [Hx Hnd] Hc. destruct (bool_decide (ip x = ip c) && _) eqn:E.
  - apply andb_true_iff in E as [E1%bool_decide_eq_true E2%Z.eqb_eq].
    apply elem_of_cons in Hc as [->|Hc]; [done|]. exfalso. apply Hx.
    apply list_elem_of_fmap. exists c. split; [|done]. unfold addr_id. congruence.
  - apply elem_of_cons in Hc as [->|Hc]; [|auto].
    by rewrite bool_decide_eq_true_2, Z.eqb_refl in E.
Qed.

Lemma sync_id_cur cur c :
  NoDup (addr_id <$> cur) → c ∈ cur → sync_id cur (addr_id c) = c.
Proof.
  intros Hnd Hc. unfold sync_id, sync_life_time. simpl.
  rewrite (find_addr_id cur c Hnd Hc). by destruct c.
Qed.

Lemma sync_life_time_id cur a :
  NoDup (addr_id <$> cur) → addr_id a ∈ addr_id <$> cur →
  sync_life_time cur a = sync_id cur (addr_id a).
Proof.
  intros Hnd (c & Hac & Hc)%list_elem_of_fmap. rewrite Hac, sync_id_cur by done.
  unfold addr_id in Hac. injection Hac as Hi Hp. unfold sync_life_time.
  rewrite Hi, Hp, (find_addr_id cur c Hnd Hc). by destruct c.
Qed.

(** The desired addresses with the life times of the current ones are the
    current ones. *)
Lemma sync_addresses_perm des cur :
  NoDup (addr_id <$> cur) → addr_id <$> des ≡ₚ addr_id <$> cur →
  sync_life_time cur <$> des ≡ₚ cur.
Proof.
  intros Hnd Hp.
  assert (sync_life_time cur <$> des = sync_id cur <$> (addr_id <$> des)) as ->.
  { rewrite <-list_fmap_compose. apply list_fmap_ext. intros i a Ha.
    apply sync_life_time_id; [done|]. rewrite <-Hp.
    by eapply list_elem_of_fmap_2, list_elem_of_lookup_2. }
  rewrite Hp, <-list_fmap_compose.
  assert (sync_id cur ∘ addr_id <$> cur = cur) as ->; [|done].
  trans (id <$> cur); [|apply list_fmap_id]. apply list_fmap_ext.
  intros i c Hc. simpl. by apply sync_id_cur, (list_elem_of_lookup_2 _ i).
Qed.

Lemma drop_link_local_perm l k : l ≡ₚ k → drop_link_local l ≡ₚ drop_link_local k.
Proof.
  unfold drop_link_local. induction 1 as [|x l k _ IH|x y l|l k m _ IH1 _ IH2]; simpl.
  - done.
  - destruct (match ip x with V6 _ => _ | V4 _ => _ end); [by constructor|done].
  - repeat case_match; try done; by constructor.
  - by etrans.
Qed.

(** Verifying addresses ignores their order and their life times: when the
    current state has exactly the desired addresses (the same address and
    prefix length pairs, each once, in whatever order, with whatever life
    times), [sanitize_before_verify] makes the desired and the current address
    lists equal, for IPv4 and for IPv6. *)
Theorem sanitize_before_verify_same_addresses d4 c4 d6 c6 des cur :
  NoDup (addr_id <$> cur) → addr_id <$> des ≡ₚ addr_id <$> cur →
  v4_addresses d4 = Some des → v4_addresses c4 = Some cur →
  v6_addresses d6 = Some des → v6_addresses c6 = Some cur →
  let r4 := ipv4_sanitize_before_verify d4 c4 in
  let r6 := ipv6_sanitize_before_verify d6 c6 in
  v4_addresses r4.1 = v4_addresses r4.2 ∧ v6_addresses r6.1 = v6_addresses r6.2.
Proof.
  intros Hnd Hp H1 H2 H3 H4. pose proof (sync_addresses_perm des cur Hnd Hp) as Hs.
  unfold ipv4_sanitize_before_verify, ipv6_sanitize_before_verify. cbv zeta. simpl.
  rewrite H1, H2, H3, H4. simpl. split; f_equal.
  - by apply sort_addrs_perm.
  - rewrite <-(sort_addrs_perm (sort_addrs (drop_link_local cur)) (drop_link_local cur))
      by apply sort_by_perm.
    apply sort_addrs_perm, Permutation_refl'. by apply sort_addrs_perm, drop_link_local_perm.
Qed.

Definition ex_addr1 : InterfaceIpAddr := iface_ip_addr (V4 3221225985) 24 None None.
Definition ex_addr2 : InterfaceIpAddr := iface_ip_addr (V4 3221225986) 24 None None.
Definition ex_addr2_live : InterfaceIpAddr :=
  iface_ip_addr (V4 3221225986) 24 (Some "32sec") (Some "32sec").
Definition with_addrs4 (l : list InterfaceIpAddr) : InterfaceIpv4 :=
  ipv4_set_addresses ipv4_new_disabled (Some l).
Definition with_addrs6 (l : list InterfaceIpAddr) : InterfaceIpv6 :=
  ipv6_set_addresses ipv6_new_disabled (Some l).

Lemma sanitize_before_verify_same_addresses_witness :
  let d := [ex_addr1; ex_addr2] in
  let c := [ex_addr2_live; ex_addr1] in
  let r4 := ipv4_sanitize_before_verify (with_addrs4 d) (with_addrs4 c) in
  let r6 := ipv6_sanitize_before_verify (with_addrs6 d) (with_addrs6 c) in
  v4_addresses r4.1 = v4_addresses r4.2 ∧ v6_addresses r6.1 = v6_addresses r6.2.
Proof.
  cbv zeta.
  apply (sanitize_before_verify_same_addresses _ _ _ _ [ex_addr1; ex_addr2]
    [ex_addr2_live; ex_addr1]); try reflexivity.
  - apply NoDup_cons. split; [|apply NoDup_singleton].
    intros H%list_elem_of_singleton. discriminate H.
  - apply perm_swap.
Defined.

(** The family of a canonical network is visible in its string. *)
Lemma is_ipv6_network i p : 0 ≤ p < 256 → is_ipv6_addr (network_string i p) = is_ipv6 i.
Proof.
  intros Hp. unfold is_ipv6_addr, network_string.
  rewrite !str_contains_app, ip_display_colon, dec_string_no_char by done.
  simpl. by rewrite orb_false_r.
Qed.
