(* ===== verification/BaseIface.v ===== *)
(** * BaseIface: what all interfaces have in common

    [src/lib/schema/iface_state.rs], [iface_type.rs], [link_state.rs],
    [iface_identifier.rs], [ifaces/alt_name.rs], [ifaces/base.rs] and
    [merged/base_iface.rs], [revert/base_iface.rs]: states and types, the
    record of the shared properties, its sanitizing for an apply, what it is
    compared with when the apply is verified, and its merging. *)

From S2P Require Export Errors IpConfig.

#[local] Open Scope Z_scope.

(** ** States and types *)

Inductive InterfaceState : Type :=
| SUp | SDown | SAbsent | SIgnore | SUpIgnore | SDownIgnore | SUnknown | SSaved.

#[export] Instance InterfaceState_eq_dec : EqDecision InterfaceState.
Proof. solve_decision. Defined.

(** [From<&str> for InterfaceState]. *)
Definition state_from_str (s : string) : InterfaceState :=
  if String.eqb s "up" then SUp
  else if String.eqb s "down" then SDown
  else if String.eqb s "absent" then SAbsent
  else if String.eqb s "ignore" then SIgnore
  else if String.eqb s "up-ignore" then SUpIgnore
  else if String.eqb s "down-ignore" then SDownIgnore
  else if String.eqb s "unknown" then SUnknown
  else if String.eqb s "saved" then SSaved
  else SIgnore.

Definition state_is_ignore (s : InterfaceState) : bool :=
  match s with SIgnore | SUpIgnore | SDownIgnore | SUnknown => true | _ => false end.
Definition state_is_up (s : InterfaceState) : bool := bool_decide (s = SUp).
Definition state_is_down (s : InterfaceState) : bool := bool_decide (s = SDown).
Definition state_is_absent (s : InterfaceState) : bool := bool_decide (s = SAbsent).
Definition state_is_saved (s : InterfaceState) : bool := bool_decide (s = SSaved).

Inductive InterfaceType : Type :=
| TBond | TLinuxBridge | TDummy | TEthernet | THsr | TLoopback | TMacVlan
| TMacVtap | TOvsBridge | TOvsInterface | TVeth | TVlan | TVrf | TVxlan
| TInfiniBand | TTun | TMacSec | TIpsec | TXfrm | TIpVlan | TWifiPhy | TWifiCfg
| TWireguard
| TUnknown (s : string).

#[export] Instance InterfaceType_eq_dec : EqDecision InterfaceType.
Proof. solve_decision. Defined.

Definition type_is_unknown (t : InterfaceType) : bool :=
  match t with TUnknown _ => true | _ => false end.

Definition type_is_userspace (t : InterfaceType) : bool :=
  match t with TUnknown _ | TOvsBridge | TWifiCfg => true | _ => false end.

Definition type_is_controller (t : InterfaceType) : bool :=
  match t with TOvsBridge | TBond | THsr | TVrf => true | _ => false end.

Definition type_is_supported (t : InterfaceType) : bool :=
  match t with
  | TEthernet | TLinuxBridge | TOvsBridge | TOvsInterface | TVeth | TLoopback
  | TDummy | TVlan | TVrf | TVxlan | TWifiPhy | TBond | TWireguard | TMacSec => true
  | _ => false
  end.

Definition need_controller (t : InterfaceType) : bool := bool_decide (t = TOvsInterface).

Inductive InterfaceLinkState : Type :=
| LUp | LDormant | LDown | LLowerLayerDown | LTesting | LUnknown.

#[export] Instance InterfaceLinkState_eq_dec : EqDecision InterfaceLinkState.
Proof. solve_decision. Defined.

Inductive InterfaceIdentifier : Type := IdName | IdMacAddress.

#[export] Instance InterfaceIdentifier_eq_dec : EqDecision InterfaceIdentifier.
Proof. solve_decision. Defined.

(** [InterfaceAutoConnect]. *)
Inductive InterfaceAutoConnect : Type :=
| AutoConnect | Manual | AcWifi (ssid : string) | AcWifiNot (ssid : string).

#[export] Instance InterfaceAutoConnect_eq_dec : EqDecision InterfaceAutoConnect.
Proof. solve_decision. Defined.

(** ** Interfaces *)

(** [AltNameEntry]: [AltNameState] has the one value [Absent]. *)
Record AltNameEntry : Type := alt_name_entry {
  an_name : string;
  an_absent : bool;
}.

#[export] Instance AltNameEntry_eq_dec : EqDecision AltNameEntry.
Proof. solve_decision. Defined.

(** The derived [Ord]: the name, then [None] before [Some(Absent)]. *)
Definition alt_name_key (a : AltNameEntry) : string * bool := (an_name a, an_absent a).
Definition sort_alt_names : list AltNameEntry → list AltNameEntry :=
  sort_by (pair_cmp string_cmp bool_cmp) alt_name_key.

Record BaseInterface : Type := base_interface {
  bi_name : string;
  bi_kernel_iface_name : string;
  bi_profile_name : option string;
  bi_description : option string;
  bi_iface_type : InterfaceType;
  bi_identifier : option InterfaceIdentifier;
  bi_iface_index : option Z;
  bi_state : InterfaceState;
  bi_auto_connect : option InterfaceAutoConnect;
  bi_link_state : option InterfaceLinkState;
  bi_controller : option string;
  bi_controller_type : option InterfaceType;
  bi_mac_address : option string;
  bi_permanent_mac_address : option string;
  bi_driver : option string;
  bi_pci_address : option string;
  bi_mtu : option Z;
  bi_min_mtu : option Z;
  bi_max_mtu : option Z;
  bi_alt_names : option (list AltNameEntry);
  bi_ipv4 : option InterfaceIpv4;
  bi_ipv6 : option InterfaceIpv6;
}.

#[export] Instance BaseInterface_eq_dec : EqDecision BaseInterface.
Proof. solve_decision. Defined.

(** [BaseInterface { iface_type, ..Default::default() }]. *)
Definition base_default (t : InterfaceType) : BaseInterface :=
  base_interface "" "" None None t None None SUp None None None None None None None None None None None None None None.

(** *** Assignment to a field *)

Definition set_bi_name (v : string) (b : BaseInterface) : BaseInterface :=
  base_interface v (bi_kernel_iface_name b) (bi_profile_name b) (bi_description b)
    (bi_iface_type b) (bi_identifier b) (bi_iface_index b) (bi_state b) (bi_auto_connect b)
    (bi_link_state b) (bi_controller b) (bi_controller_type b) (bi_mac_address b)
    (bi_permanent_mac_address b) (bi_driver b) (bi_pci_address b) (bi_mtu b) (bi_min_mtu b)
    (bi_max_mtu b) (bi_alt_names b) (bi_ipv4 b) (bi_ipv6 b).

Definition set_bi_kernel_iface_name (v : string) (b : BaseInterface) : BaseInterface :=
  base_interface (bi_name b) v (bi_profile_name b) (bi_description b) (bi_iface_type b)
    (bi_identifier b) (bi_iface_index b) (bi_state b) (bi_auto_connect b) (bi_link_state b)
    (bi_controller b) (bi_controller_type b) (bi_mac_address b) (bi_permanent_mac_address b)
    (bi_driver b) (bi_pci_address b) (bi_mtu b) (bi_min_mtu b) (bi_max_mtu b)
    (bi_alt_names b) (bi_ipv4 b) (bi_ipv6 b).

Definition set_bi_profile_name (v : option string) (b : BaseInterface) : BaseInterface :=
  base_interface (bi_name b) (bi_kernel_iface_name b) v (bi_description b) (bi_iface_type b)
    (bi_identifier b) (bi_iface_index b) (bi_state b) (bi_auto_connect b) (bi_link_state b)
    (bi_controller b) (bi_controller_type b) (bi_mac_address b) (bi_permanent_mac_address b)
    (bi_driver b) (bi_pci_address b) (bi_mtu b) (bi_min_mtu b) (bi_max_mtu b)
    (bi_alt_names b) (bi_ipv4 b) (bi_ipv6 b).

Definition set_bi_description (v : option string) (b : BaseInterface) : BaseInterface :=
  base_interface (bi_name b) (bi_kernel_iface_name b) (bi_profile_name b) v
    (bi_iface_type b) (bi_identifier b) (bi_iface_index b) (bi_state b) (bi_auto_connect b)
    (bi_link_state b) (bi_controller b) (bi_controller_type b) (bi_mac_address b)
    (bi_permanent_mac_address b) (bi_driver b) (bi_pci_address b) (bi_mtu b) (bi_min_mtu b)
    (bi_max_mtu b) (bi_alt_names b) (bi_ipv4 b) (bi_ipv6 b).

Definition set_bi_iface_type (v : InterfaceType) (b : BaseInterface) : BaseInterface :=
  base_interface (bi_name b) (bi_kernel_iface_name b) (bi_profile_name b) (bi_description b)
    v (bi_identifier b) (bi_iface_index b) (bi_state b) (bi_auto_connect b)
    (bi_link_state b) (bi_controller b) (bi_controller_type b) (bi_mac_address b)
    (bi_permanent_mac_address b) (bi_driver b) (bi_pci_address b) (bi_mtu b) (bi_min_mtu b)
    (bi_max_mtu b) (bi_alt_names b) (bi_ipv4 b) (bi_ipv6 b).

Definition set_bi_identifier (v : option InterfaceIdentifier) (b : BaseInterface) : BaseInterface :=
  base_interface (bi_name b) (bi_kernel_iface_name b) (bi_profile_name b) (bi_description b)
    (bi_iface_type b) v (bi_iface_index b) (bi_state b) (bi_auto_connect b)
    (bi_link_state b) (bi_controller b) (bi_controller_type b) (bi_mac_address b)
    (bi_permanent_mac_address b) (bi_driver b) (bi_pci_address b) (bi_mtu b) (bi_min_mtu b)
    (bi_max_mtu b) (bi_alt_names b) (bi_ipv4 b) (bi_ipv6 b).

Definition set_bi_iface_index (v : option Z) (b : BaseInterface) : BaseInterface :=
  base_interface (bi_name b) (bi_kernel_iface_name b) (bi_profile_name b) (bi_description b)
    (bi_iface_type b) (bi_identifier b) v (bi_state b) (bi_auto_connect b) (bi_link_state b)
    (bi_controller b) (bi_controller_type b) (bi_mac_address b) (bi_permanent_mac_address b)
    (bi_driver b) (bi_pci_address b) (bi_mtu b) (bi_min_mtu b) (bi_max_mtu b)
    (bi_alt_names b) (bi_ipv4 b) (bi_ipv6 b).

Definition set_bi_state (v : InterfaceState) (b : BaseInterface) : BaseInterface :=
  base_interface (bi_name b) (bi_kernel_iface_name b) (bi_profile_name b) (bi_description b)
    (bi_iface_type b) (bi_identifier b) (bi_iface_index b) v (bi_auto_connect b)
    (bi_link_state b) (bi_controller b) (bi_controller_type b) (bi_mac_address b)
    (bi_permanent_mac_address b) (bi_driver b) (bi_pci_address b) (bi_mtu b) (bi_min_mtu b)
    (bi_max_mtu b) (bi_alt_names b) (bi_ipv4 b) (bi_ipv6 b).

Definition set_bi_auto_connect (v : option InterfaceAutoConnect) (b : BaseInterface) : BaseInterface :=
  base_interface (bi_name b) (bi_kernel_iface_name b) (bi_profile_name b) (bi_description b)
    (bi_iface_type b) (bi_identifier b) (bi_iface_index b) (bi_state b) v (bi_link_state b)
    (bi_controller b) (bi_controller_type b) (bi_mac_address b) (bi_permanent_mac_address b)
    (bi_driver b) (bi_pci_address b) (bi_mtu b) (bi_min_mtu b) (bi_max_mtu b)
    (bi_alt_names b) (bi_ipv4 b) (bi_ipv6 b).

Definition set_bi_link_state (v : option InterfaceLinkState) (b : BaseInterface) : BaseInterface :=
  base_interface (bi_name b) (bi_kernel_iface_name b) (bi_profile_name b) (bi_description b)
    (bi_iface_type b) (bi_identifier b) (bi_iface_index b) (bi_state b) (bi_auto_connect b)
    v (bi_controller b) (bi_controller_type b) (bi_mac_address b)
    (bi_permanent_mac_address b) (bi_driver b) (bi_pci_address b) (bi_mtu b) (bi_min_mtu b)
    (bi_max_mtu b) (bi_alt_names b) (bi_ipv4 b) (bi_ipv6 b).

Definition set_bi_controller (v : option string) (b : BaseInterface) : BaseInterface :=
  base_interface (bi_name b) (bi_kernel_iface_name b) (bi_profile_name b) (bi_description b)
    (bi_iface_type b) (bi_identifier b) (bi_iface_index b) (bi_state b) (bi_auto_connect b)
    (bi_link_state b) v (bi_controller_type b) (bi_mac_address b)
    (bi_permanent_mac_address b) (bi_driver b) (bi_pci_address b) (bi_mtu b) (bi_min_mtu b)
    (bi_max_mtu b) (bi_alt_names b) (bi_ipv4 b) (bi_ipv6 b).

Definition set_bi_controller_type (v : option InterfaceType) (b : BaseInterface) : BaseInterface :=
  base_interface (bi_name b) (bi_kernel_iface_name b) (bi_profile_name b) (bi_description b)
    (bi_iface_type b) (bi_identifier b) (bi_iface_index b) (bi_state b) (bi_auto_connect b)
    (bi_link_state b) (bi_controller b) v (bi_mac_address b) (bi_permanent_mac_address b)
    (bi_driver b) (bi_pci_address b) (bi_mtu b) (bi_min_mtu b) (bi_max_mtu b)
    (bi_alt_names b) (bi_ipv4 b) (bi_ipv6 b).

Definition set_bi_mac_address (v : option string) (b : BaseInterface) : BaseInterface :=
  base_interface (bi_name b) (bi_kernel_iface_name b) (bi_profile_name b) (bi_description b)
    (bi_iface_type b) (bi_identifier b) (bi_iface_index b) (bi_state b) (bi_auto_connect b)
    (bi_link_state b) (bi_controller b) (bi_controller_type b) v
    (bi_permanent_mac_address b) (bi_driver b) (bi_pci_address b) (bi_mtu b) (bi_min_mtu b)
    (bi_max_mtu b) (bi_alt_names b) (bi_ipv4 b) (bi_ipv6 b).

Definition set_bi_permanent_mac_address (v : option string) (b : BaseInterface) : BaseInterface :=
  base_interface (bi_name b) (bi_kernel_iface_name b) (bi_profile_name b) (bi_description b)
    (bi_iface_type b) (bi_identifier b) (bi_iface_index b) (bi_state b) (bi_auto_connect b)
    (bi_link_state b) (bi_controller b) (bi_controller_type b) (bi_mac_address b) v
    (bi_driver b) (bi_pci_address b) (bi_mtu b) (bi_min_mtu b) (bi_max_mtu b)
    (bi_alt_names b) (bi_ipv4 b) (bi_ipv6 b).

Definition set_bi_driver (v : option string) (b : BaseInterface) : BaseInterface :=
  base_interface (bi_name b) (bi_kernel_iface_name b) (bi_profile_name b) (bi_description b)
    (bi_iface_type b) (bi_identifier b) (bi_iface_index b) (bi_state b) (bi_auto_connect b)
    (bi_link_state b) (bi_controller b) (bi_controller_type b) (bi_mac_address b)
    (bi_permanent_mac_address b) v (bi_pci_address b) (bi_mtu b) (bi_min_mtu b)
    (bi_max_mtu b) (bi_alt_names b) (bi_ipv4 b) (bi_ipv6 b).

Definition set_bi_pci_address (v : option string) (b : BaseInterface) : BaseInterface :=
  base_interface (bi_name b) (bi_kernel_iface_name b) (bi_profile_name b) (bi_description b)
    (bi_iface_type b) (bi_identifier b) (bi_iface_index b) (bi_state b) (bi_auto_connect b)
    (bi_link_state b) (bi_controller b) (bi_controller_type b) (bi_mac_address b)
    (bi_permanent_mac_address b) (bi_driver b) v (bi_mtu b) (bi_min_mtu b) (bi_max_mtu b)
    (bi_alt_names b) (bi_ipv4 b) (bi_ipv6 b).

Definition set_bi_mtu (v : option Z) (b : BaseInterface) : BaseInterface :=
  base_interface (bi_name b) (bi_kernel_iface_name b) (bi_profile_name b) (bi_description b)
    (bi_iface_type b) (bi_identifier b) (bi_iface_index b) (bi_state b) (bi_auto_connect b)
    (bi_link_state b) (bi_controller b) (bi_controller_type b) (bi_mac_address b)
    (bi_permanent_mac_address b) (bi_driver b) (bi_pci_address b) v (bi_min_mtu b)
    (bi_max_mtu b) (bi_alt_names b) (bi_ipv4 b) (bi_ipv6 b).

Definition set_bi_alt_names (v : option (list AltNameEntry)) (b : BaseInterface) : BaseInterface :=
  base_interface (bi_name b) (bi_kernel_iface_name b) (bi_profile_name b) (bi_description b)
    (bi_iface_type b) (bi_identifier b) (bi_iface_index b) (bi_state b) (bi_auto_connect b)
    (bi_link_state b) (bi_controller b) (bi_controller_type b) (bi_mac_address b)
    (bi_permanent_mac_address b) (bi_driver b) (bi_pci_address b) (bi_mtu b) (bi_min_mtu b)
    (bi_max_mtu b) v (bi_ipv4 b) (bi_ipv6 b).

Definition set_bi_ipv4 (v : option InterfaceIpv4) (b : BaseInterface) : BaseInterface :=
  base_interface (bi_name b) (bi_kernel_iface_name b) (bi_profile_name b) (bi_description b)
    (bi_iface_type b) (bi_identifier b) (bi_iface_index b) (bi_state b) (bi_auto_connect b)
    (bi_link_state b) (bi_controller b) (bi_controller_type b) (bi_mac_address b)
    (bi_permanent_mac_address b) (bi_driver b) (bi_pci_address b) (bi_mtu b) (bi_min_mtu b)
    (bi_max_mtu b) (bi_alt_names b) v (bi_ipv6 b).

Definition set_bi_ipv6 (v : option InterfaceIpv6) (b : BaseInterface) : BaseInterface :=
  base_interface (bi_name b) (bi_kernel_iface_name b) (bi_profile_name b) (bi_description b)
    (bi_iface_type b) (bi_identifier b) (bi_iface_index b) (bi_state b) (bi_auto_connect b)
    (bi_link_state b) (bi_controller b) (bi_controller_type b) (bi_mac_address b)
    (bi_permanent_mac_address b) (bi_driver b) (bi_pci_address b) (bi_mtu b) (bi_min_mtu b)
    (bi_max_mtu b) (bi_alt_names b) (bi_ipv4 b) v.

(** *** The methods of [BaseInterface] *)

(** [BaseInterface::is_name_matching]. *)
Definition base_is_name_matching (b : BaseInterface) : bool :=
  match bi_identifier b with None | Some IdName => true | Some IdMacAddress => false end.

Definition base_has_controller (b : BaseInterface) : bool :=
  match bi_controller b with Some c => negb (String.eqb c "") | None => false end.

Definition base_is_ipv4_enabled (b : BaseInterface) : bool :=
  bool_decide (ipv4_is_enabled <$> bi_ipv4 b = Some true).

Definition base_is_ipv6_enabled (b : BaseInterface) : bool :=
  bool_decide (ipv6_is_enabled <$> bi_ipv6 b = Some true).

Definition base_can_have_ip (b : BaseInterface) : bool :=
  negb (base_has_controller b) || bool_decide (bi_iface_type b = TOvsInterface) ||
  bool_decide (bi_controller_type b = Some TVrf).

(** [str::to_ascii_uppercase]. *)
Definition ascii_upper (c : ascii) : ascii :=
  let n := N_of_ascii c in
  if ((97 <=? n) && (n <=? 122))%N then ascii_of_N (n - 32) else c.

Fixpoint to_ascii_uppercase (s : string) : string :=
  match s with
  | "" => ""
  | String c s' => String (ascii_upper c) (to_ascii_uppercase s')
  end.

(** [BaseInterface::new]. *)
Definition base_new (name : string) (t : InterfaceType) : BaseInterface :=
  set_bi_name name (base_default t).

(** [BaseInterface::clone_name_type_only]. *)
Definition base_clone_name_type_only (b : BaseInterface) : BaseInterface :=
  set_bi_kernel_iface_name (bi_kernel_iface_name b) (base_new (bi_name b) (bi_iface_type b)).

(** [BaseInterface::sanitize_alt_names]. *)
Definition sanitize_alt_names (b : BaseInterface) : BaseInterface :=
  set_bi_alt_names (sort_alt_names <$> bi_alt_names b) b.

(** [BaseInterface::validate_mtu]: [self] is the desired state. *)
Definition validate_mtu (self : BaseInterface) (current : option BaseInterface) : res unit :=
  match current with
  | Some cur =>
      match bi_mtu self, bi_min_mtu cur, bi_max_mtu cur with
      | Some desire_mtu, Some min_mtu, Some max_mtu =>
          if max_mtu <? desire_mtu then fail InvalidArgument
          else if desire_mtu <? min_mtu then fail InvalidArgument
          else Ok tt
      | _, _, _ => Ok tt
      end
  | None => Ok tt
  end.

(** ** Sanitizing for an apply *)

(** What [sanitize] of an interface changes in place. *)
Record Targets (I : Type) : Type := targets {
  t_save : I;
  t_apply : I;
  t_verify : I;
  t_merged : I;
}.

Arguments targets {I}.
Arguments t_save {I}.
Arguments t_apply {I}.
Arguments t_verify {I}.
Arguments t_merged {I}.

Definition map_targets {I J} (f : I → J) (t : Targets I) : Targets J :=
  targets (f (t_save t)) (f (t_apply t)) (f (t_verify t)) (f (t_merged t)).

(** The full merged IPv4 configuration of [fill_for_apply_ip_config]. *)
Definition full_ipv4 (current saved : option BaseInterface) (save : BaseInterface) :
    option InterfaceIpv4 :=
  match saved, bi_ipv4 save, current ≫= bi_ipv4 with
  | None, Some v4, Some cur_ipv4 =>
      match v4_addresses v4 with
      | None => Some (ipv4_set_addresses v4 (v4_addresses cur_ipv4))
      | Some _ => Some v4
      end
  | _, v4, _ => v4
  end.

Definition full_ipv6 (current saved : option BaseInterface) (save : BaseInterface) :
    option InterfaceIpv6 :=
  match saved, bi_ipv6 save, current ≫= bi_ipv6 with
  | None, Some v6, Some cur_ipv6 =>
      match v6_addresses v6 with
      | None => Some (ipv6_set_addresses v6 (v6_addresses cur_ipv6))
      | Some _ => Some v6
      end
  | _, v6, _ => v6
  end.

(** Whether the switch between static and automatic addresses discards the
    previous ones. *)
Definition ipv4_transition (des prev : InterfaceIpv4) : bool :=
  bool_decide (v4_dhcp des = Some true) && ipv4_is_static prev ||
  ipv4_is_auto prev && bool_decide (v4_dhcp des = Some false) &&
    bool_decide (v4_addresses des = None).

Definition ipv6_transition (des prev : InterfaceIpv6) : bool :=
  (bool_decide (v6_dhcp des = Some true) || bool_decide (v6_autoconf des = Some true)) &&
    ipv6_is_static prev ||
  ipv6_is_auto prev && bool_decide (v6_dhcp des = Some false) &&
    bool_decide (v6_autoconf des = Some false) && bool_decide (v6_addresses des = None).

Definition new_ipv4 (self : BaseInterface) (current saved : option BaseInterface)
    (save : BaseInterface) (ipv4_changed : bool) : option InterfaceIpv4 :=
  match bi_ipv4 self with
  | Some des_ipv4 =>
      let transition :=
        match option_or saved current ≫= bi_ipv4 with
        | Some prev_ipv4 => ipv4_transition des_ipv4 prev_ipv4
        | None => false
        end in
      let full := full_ipv4 current saved save in
      let full := if transition then (λ v4, ipv4_set_addresses v4 None) <$> full else full in
      if ipv4_changed || transition then full else None
  | None => None
  end.

Definition new_ipv6 (self : BaseInterface) (current saved : option BaseInterface)
    (save : BaseInterface) (ipv6_changed : bool) : option InterfaceIpv6 :=
  match bi_ipv6 self with
  | Some des_ipv6 =>
      let transition :=
        match option_or saved current ≫= bi_ipv6 with
        | Some prev_ipv6 => ipv6_transition des_ipv6 prev_ipv6
        | None => false
        end in
      let full := full_ipv6 current saved save in
      let full := if transition then (λ v6, ipv6_set_addresses v6 None) <$> full else full in
      if ipv6_changed || transition then full else None
  | None => None
  end.

(** [BaseInterface::fill_for_apply_ip_config]: the new [for_save] and [for_apply]. *)
Definition fill_for_apply_ip_config (self : BaseInterface) (current saved : option BaseInterface)
    (save apply : BaseInterface) : BaseInterface * BaseInterface :=
  let v4 := new_ipv4 self current saved save (bool_decide (bi_ipv4 apply ≠ None)) in
  let v6 := new_ipv6 self current saved save (bool_decide (bi_ipv6 apply ≠ None)) in
  let fill b := match v4 with Some v => set_bi_ipv4 (Some v) b | None => b end in
  let fill6 b := match v6 with Some v => set_bi_ipv6 (Some v) b | None => b end in
  (match saved with Some _ => fill6 (fill save) | None => save end, fill6 (fill apply)).

(** [ipv4.sanitize(..)?; ipv6.sanitize(..)?] on the sections that are defined. *)
Definition sanitize_ip_sections (b : BaseInterface) : res BaseInterface :=
  let? b :=
    match bi_ipv4 b with
    | Some v4 => let? v4 := ipv4_sanitize v4 in Ok (set_bi_ipv4 (Some v4) b)
    | None => Ok b
    end in
  match bi_ipv6 b with
  | Some v6 => let? v6 := ipv6_sanitize v6 in Ok (set_bi_ipv6 (Some v6) b)
  | None => Ok b
  end.

(** The properties that can only be queried. *)
Definition drop_query_only (b : BaseInterface) : BaseInterface :=
  set_bi_pci_address None (set_bi_driver None (set_bi_permanent_mac_address None b)).

(** The MAC address survives on a MAC-identified or downed interface only. *)
Definition ignores_mac (apply : BaseInterface) : bool :=
  negb (bool_decide (bi_identifier apply = Some IdMacAddress)) &&
  bool_decide (bi_mac_address apply ≠ None) && state_is_up (bi_state apply).

(** The saved name of a MAC-identified configuration. *)
Definition save_profile_name (self : BaseInterface) (current : option BaseInterface)
    (apply save : BaseInterface) : BaseInterface :=
  if base_is_name_matching apply then save
  else
    let save :=
      if bool_decide (current = None) ||
         bool_decide (bi_kernel_iface_name <$> current = Some (bi_kernel_iface_name self))
      then set_bi_kernel_iface_name "" save else save in
    match bi_profile_name save with
    | Some p => if String.eqb p "" then save else set_bi_name p save
    | None => save
    end.

Definition mac_identifier_allowed (t : InterfaceType) : bool :=
  match t with TEthernet | TWifiPhy => true | _ => false end.

Section Sanitize.
(** [str::to_uppercase], which follows the Unicode tables. *)
Context (to_uppercase : string → string).

(** The first part of [sanitize], up to the IP sections. *)
Definition sanitize_mac (t : Targets BaseInterface) : Targets BaseInterface :=
  let ignored := ignores_mac (t_apply t) in
  let apply := set_bi_description None (t_apply t) in
  let verify := set_bi_description None (t_verify t) in
  let apply := if ignored then set_bi_mac_address None apply else apply in
  let verify := if ignored then set_bi_mac_address None verify else verify in
  let apply := set_bi_mac_address (to_uppercase <$> bi_mac_address apply) apply in
  targets (drop_query_only (t_save t)) (drop_query_only apply) (drop_query_only verify)
    (t_merged t).

(** The last part of [sanitize]: the MAC address of [for_apply] is copied,
    names are resolved and the alternative names sorted. *)
Definition copy_mac (mac : option string) (b : BaseInterface) : BaseInterface :=
  match mac with Some mac => set_bi_mac_address (Some mac) b | None => b end.

Definition sanitize_names (self : BaseInterface) (current : option BaseInterface)
    (t : Targets BaseInterface) : Targets BaseInterface :=
  let apply := t_apply t in
  let mac := bi_mac_address apply in
  let save := copy_mac mac (t_save t) in
  let verify := copy_mac mac (t_verify t) in
  let merged := copy_mac mac (t_merged t) in
  let merged := set_bi_permanent_mac_address
                  (to_uppercase <$> bi_permanent_mac_address merged) merged in
  let apply :=
    match current with
    | Some cur =>
        if negb (String.eqb (bi_kernel_iface_name cur) "") &&
           String.eqb (bi_kernel_iface_name apply) ""
        then set_bi_kernel_iface_name (bi_kernel_iface_name cur) apply else apply
    | None => apply
    end in
  let save := save_profile_name self current apply save in
  map_targets sanitize_alt_names
    (targets (set_bi_iface_index None save) (set_bi_iface_index None apply) verify merged).

(** [BaseInterface::sanitize]: [self] is the desired state. *)
Definition base_sanitize (self : BaseInterface) (current saved : option BaseInterface)
    (t : Targets BaseInterface) : res (Targets BaseInterface) :=
  let '(save, apply) := fill_for_apply_ip_config self current saved (t_save t) (t_apply t) in
  let t := sanitize_mac (targets save apply (t_verify t) (t_merged t)) in
  let? apply := sanitize_ip_sections (t_apply t) in
  let? verify := sanitize_ip_sections (t_verify t) in
  let? save := sanitize_ip_sections (t_save t) in
  let t := sanitize_names self current (targets save apply verify (t_merged t)) in
  let? _ := validate_mtu self current in
  if bool_decide (bi_identifier self = Some IdMacAddress) &&
     negb (mac_identifier_allowed (bi_iface_type self))
  then fail InvalidArgument
  else Ok t.

End Sanitize.

(** ** Verification and merging *)

(** [BaseInterface::alt_name_pre_verify]: the new current list. *)
Definition alt_name_pre_verify (des : option (list AltNameEntry))
    (cur : option (list AltNameEntry)) : option (list AltNameEntry) :=
  match des with
  | None => cur
  | Some des_alt_names =>
      let add acc des_alt_name :=
        if an_absent des_alt_name &&
           negb (existsb (λ c, String.eqb (an_name c) (an_name des_alt_name)) acc)
        then acc ++ [des_alt_name] else acc in
      let l := foldl add (default [] cur) des_alt_names in
      Some (sort_alt_names (List.filter (λ c, bool_decide (c ∈ des_alt_names)) l))
  end.

(** [BaseInterface::sanitize_before_verify]: the new desired and current. *)
Definition base_sanitize_before_verify (self current : BaseInterface) :
    BaseInterface * BaseInterface :=
  let self := set_bi_controller_type None (set_bi_kernel_iface_name "" (set_bi_description None
                (set_bi_profile_name None (set_bi_identifier None self)))) in
  let current := set_bi_description None current in
  let '(self, current) :=
    match bi_ipv4 self, bi_ipv4 current with
    | Some des, Some cur =>
        let '(des, cur) := ipv4_sanitize_before_verify des cur in
        (set_bi_ipv4 (Some des) self, set_bi_ipv4 (Some cur) current)
    | _, _ => (self, current)
    end in
  let '(self, current) :=
    match bi_ipv6 self, bi_ipv6 current with
    | Some des, Some cur =>
        let '(des, cur) := ipv6_sanitize_before_verify des cur in
        (set_bi_ipv6 (Some des) self, set_bi_ipv6 (Some cur) current)
    | _, _ => (self, current)
    end in
  (self, set_bi_alt_names (alt_name_pre_verify (bi_alt_names self) (bi_alt_names current)) current).

(** [is_ip_addrs_none_or_all_auto]. *)
Definition is_ip_addrs_none_or_all_auto (addrs : option (list InterfaceIpAddr)) : bool :=
  match addrs with
  | None => true
  | Some addrs =>
      forallb (λ a, match ip a with V6 n => is_unicast_link_local n | V4 _ => false end ||
                    addr_is_auto a) addrs
  end.

(** [InterfaceIpv4::post_merge], [InterfaceIpv6::post_merge]: dynamic addresses
    become static when the merge turned the automatic configuration off. *)
Definition ipv4_post_merge (self old : InterfaceIpv4) : InterfaceIpv4 :=
  let self :=
    if ipv4_is_auto old && bool_decide (v4_addresses old ≠ None) && ipv4_is_enabled self &&
       negb (ipv4_is_auto self) && is_ip_addrs_none_or_all_auto (v4_addresses old)
    then ipv4_set_addresses self (map addr_no_life_time <$> v4_addresses self)
    else self in
  if negb (ipv4_is_auto self) then ipv4_clear_auto self else self.

Definition ipv6_post_merge (self old : InterfaceIpv6) : InterfaceIpv6 :=
  if ipv6_is_auto old && bool_decide (v6_addresses old ≠ None) && ipv6_is_enabled self &&
     negb (ipv6_is_auto self) && is_ip_addrs_none_or_all_auto (v6_addresses old)
  then ipv6_set_addresses self (map addr_no_life_time <$> v6_addresses self)
  else self.

(** [BaseInterface::post_merge]: [self] is the result of the JSON merge. *)
Definition base_post_merge (self old : BaseInterface) : BaseInterface :=
  let self :=
    if negb (type_is_unknown (bi_iface_type self) ||
             bool_decide (bi_iface_type old = TEthernet) &&
             bool_decide (bi_iface_type self = TVeth))
    then set_bi_iface_type (bi_iface_type old) self else self in
  let self :=
    if bool_decide (bi_state self = SUnknown) then set_bi_state (bi_state old) self else self in
  let self :=
    match bi_ipv4 self, bi_ipv4 old with
    | None, Some old_ipv4 => set_bi_ipv4 (Some old_ipv4) self
    | Some self_ipv4, Some old_ipv4 => set_bi_ipv4 (Some (ipv4_post_merge self_ipv4 old_ipv4)) self
    | _, _ => self
    end in
  match bi_ipv6 self, bi_ipv6 old with
  | None, Some old_ipv6 => set_bi_ipv6 (Some old_ipv6) self
  | Some self_ipv6, Some old_ipv6 => set_bi_ipv6 (Some (ipv6_post_merge self_ipv6 old_ipv6)) self
  | _, _ => self
  end.

(** [BaseInterface::include_revert_context]. *)
Definition base_include_revert_context (self pre_apply : BaseInterface) : BaseInterface :=
  let self := match bi_ipv4 self with
              | Some _ => set_bi_ipv4 (bi_ipv4 pre_apply) self | None => self end in
  match bi_ipv6 self with
  | Some _ => set_bi_ipv6 (bi_ipv6 pre_apply) self
  | None => self
  end.
