(* ===== verification/BridgeVlan.v ===== *)
(** * BridgeVlan: [src/lib/schema/ifaces/bridge_vlan.rs]

    The VLAN filtering section of a Linux bridge and of its ports: which trunk
    tags overlap, and the canonical form of a list of tags.  VLAN IDs are [u16];
    the end of a range is computed in [u16] too, so it wraps at 65535. *)

From S2P Require Export Errors Bytes.

#[local] Open Scope Z_scope.

(** ** Data *)

Inductive BridgeVlanMode : Type := Trunk | Access.

#[export] Instance BridgeVlanMode_eq_dec : EqDecision BridgeVlanMode.
Proof. solve_decision. Defined.

Record BridgeVlanRange : Type := bridge_vlan_range {
  bvr_min : Z;
  bvr_max : Z;
}.

#[export] Instance BridgeVlanRange_eq_dec : EqDecision BridgeVlanRange.
Proof. solve_decision. Defined.

Inductive BridgeVlanTrunkTag : Type :=
| TagId (d : Z)
| TagIdRange (range : BridgeVlanRange).

#[export] Instance BridgeVlanTrunkTag_eq_dec : EqDecision BridgeVlanTrunkTag.
Proof. solve_decision. Defined.

Record BridgeVlanConfig : Type := bridge_vlan_config {
  bvc_enable_native : option bool;
  bvc_mode : option BridgeVlanMode;
  bvc_tag : option Z;
  bvc_trunk_tags : option (list BridgeVlanTrunkTag);
}.

#[export] Instance BridgeVlanConfig_eq_dec : EqDecision BridgeVlanConfig.
Proof. solve_decision. Defined.

(** [BridgeVlanConfig::is_empty]. *)
Definition bridge_vlan_is_empty (self : BridgeVlanConfig) : bool :=
  bool_decide (self = bridge_vlan_config None None None None).

Definition set_trunk_tags (tags : option (list BridgeVlanTrunkTag)) (c : BridgeVlanConfig) :
    BridgeVlanConfig :=
  bridge_vlan_config (bvc_enable_native c) (bvc_mode c) (bvc_tag c) tags.

(** ** Operations *)

(** [range.min..range.max + 1] over [u16]. *)
Definition range_ids (r : BridgeVlanRange) : list Z :=
  seqZ (bvr_min r) (as_u16 (bvr_max r + 1) - bvr_min r).

Definition tag_ids (t : BridgeVlanTrunkTag) : list Z :=
  match t with TagId d => [d] | TagIdRange r => range_ids r end.

(** The VLAN IDs [compress_port_vlan_ranges] collects. *)
Definition tags_ids (tags : list BridgeVlanTrunkTag) : list Z := concat (map tag_ids tags).

(** [vids.sort_unstable(); vids.dedup()]. *)
Definition sorted_vids (vids : list Z) : list Z := dedup Z.compare id (sort_by Z.compare id vids).

(** One turn of the loop of [compress_vlan_ids]: the closed ranges and [cur_range]. *)
Definition compress_step (acc : list BridgeVlanRange * option BridgeVlanRange) (vid : Z) :
    list BridgeVlanRange * option BridgeVlanRange :=
  match acc with
  | (ranges, Some cur) =>
      if as_u16 (bvr_max cur + 1) =? vid
      then (ranges, Some (bridge_vlan_range (bvr_min cur) vid))
      else (ranges ++ [cur], Some (bridge_vlan_range vid vid))
  | (ranges, None) => (ranges, Some (bridge_vlan_range vid vid))
  end.

Definition range_tag (range : BridgeVlanRange) : BridgeVlanTrunkTag :=
  if bvr_min range =? bvr_max range then TagId (bvr_min range) else TagIdRange range.

(** [compress_vlan_ids]. *)
Definition compress_vlan_ids (vids : list Z) : list BridgeVlanTrunkTag :=
  let '(ranges, cur_range) := foldl compress_step ([], None) (sorted_vids vids) in
  map range_tag (ranges ++ option_list cur_range).

(** [BridgeVlanConfig::compress_port_vlan_ranges]. *)
Definition compress_port_vlan_ranges (self : BridgeVlanConfig) : BridgeVlanConfig :=
  match bvc_trunk_tags self with
  | Some trunk_tags => set_trunk_tags (Some (compress_vlan_ids (tags_ids trunk_tags))) self
  | None => self
  end.

(** [validate_overlap_trunk_tags]: [found] holds the IDs of the earlier tags. *)
Fixpoint insert_vacant (found : gset Z) (ids : list Z) : res (gset Z) :=
  match ids with
  | [] => Ok found
  | i :: ids' =>
      if bool_decide (i ∈ found) then fail InvalidArgument
      else insert_vacant ({[i]} ∪ found) ids'
  end.

Fixpoint validate_overlap_from (found : gset Z) (tags : list BridgeVlanTrunkTag) : res unit :=
  match tags with
  | [] => Ok tt
  | tag :: tags' =>
      let? found := insert_vacant found (tag_ids tag) in
      validate_overlap_from found tags'
  end.

Definition validate_overlap_trunk_tags (tags : list BridgeVlanTrunkTag) : res unit :=
  validate_overlap_from ∅ tags.

(** [BridgeVlanConfig::sanitize]. *)
Definition bridge_vlan_sanitize (self : BridgeVlanConfig) : res BridgeVlanConfig :=
  if bool_decide (bvc_mode self = Some Trunk) && bool_decide (bvc_tag self ≠ None) &&
     negb (bool_decide (bvc_tag self = Some 0)) &&
     negb (bool_decide (bvc_enable_native self = Some true))
  then fail InvalidArgument
  else if bool_decide (bvc_mode self = Some Access) &&
          bool_decide (bvc_enable_native self = Some true)
  then fail InvalidArgument
  else if bool_decide (bvc_mode self = Some Access) &&
          match bvc_trunk_tags self with Some (_ :: _) => true | _ => false end
  then fail InvalidArgument
  else if bool_decide (bvc_mode self = Some Trunk) && bool_decide (bvc_trunk_tags self = None)
  then fail InvalidArgument
  else
    match bvc_trunk_tags self with
    | Some tags =>
        let self :=
          match bvc_mode self with
          | None => bridge_vlan_config (bvc_enable_native self) (Some Trunk) (bvc_tag self)
                      (bvc_trunk_tags self)
          | Some _ => self
          end in
        let? _ := validate_overlap_trunk_tags tags in
        Ok self
    | None => Ok self
    end.

(** ** Overlap *)

Lemma insert_vacant_spec found ids :
  (is_ok (insert_vacant found ids) = true ↔ NoDup ids ∧ ∀ i, i ∈ ids → i ∉ found) ∧
  ∀ f, insert_vacant found ids = Ok f → ∀ i, i ∈ f ↔ i ∈ found ∨ i ∈ ids.
Proof.
  revert found. induction ids as [|i ids IH]; intros found; simpl.
  { split; [split; [intros _; split; [constructor|set_solver]|done]|]. intros f [= <-]. set_solver. }
  case_bool_decide as Hi; simpl.
  { split; [|done]. split; [done|]. intros [_ H]. destruct (H i); [set_solver|done]. }
  destruct (IH ({[i]} ∪ found)) as [H1 H2]. split.
  - rewrite H1, NoDup_cons. split.
    + intros [Hnd Hf]. repeat split; [|done|].
      * intros Hin. apply (Hf i Hin). set_solver.
      * intros j [->|Hj]%elem_of_cons; [done|]. specialize (Hf j Hj). set_solver.
    + intros [[Hni Hnd] Hf]. split; [done|]. intros j Hj. specialize (Hf j). set_solver.
  - intros f Hf j. rewrite (H2 f Hf j). set_solver.
Qed.

Lemma validate_overlap_from_spec found tags :
  is_ok (validate_overlap_from found tags) = true ↔
  NoDup (tags_ids tags) ∧ ∀ i, i ∈ tags_ids tags → i ∉ found.
Proof.
  revert found. induction tags as [|t tags IH]; intros found; simpl.
  { split; [intros _; split; [constructor|set_solver]|done]. }
  destruct (insert_vacant_spec found (tag_ids t)) as [H1 H2].
  unfold tags_ids in *. simpl. rewrite NoDup_app.
  destruct (insert_vacant found (tag_ids t)) as [f|e] eqn:E; simpl in *.
  - rewrite IH. destruct H1 as [[Hnd Hf] _]; [done|]. specialize (H2 f eq_refl).
    setoid_rewrite H2. setoid_rewrite elem_of_app. split.
    + intros [Hnd' Hf']. repeat split; [done| |done|].
      * intros i Hi Hi'. destruct (Hf' i Hi'). by right.
      * intros i [Hi|Hi]; [by apply Hf|]. intros Hin. destruct (Hf' i Hi). by left.
    + intros [(_ & Hd & Hnd') Hf']. split; [done|]. intros i Hi [Hin|Hin].
      * by apply (Hf' i); [right|].
      * by apply (Hd i).
  - split; [done|]. intros [(Hnd & _ & _) Hf]. apply H1. split; [done|].
    intros i Hi. apply Hf. set_solver.
Qed.

(** The overlap check accepts exactly the tags no VLAN ID is in twice. *)
Lemma validate_overlap_iff tags :
  is_ok (validate_overlap_trunk_tags tags) = true ↔ NoDup (tags_ids tags).
Proof.
  unfold validate_overlap_trunk_tags. rewrite validate_overlap_from_spec. set_solver.
Qed.

(** ** The canonical form *)

(** Tags in increasing order, ranges of at least two IDs, a gap of at least one
    ID between two tags, every ID at least [m] and within [u16]. *)
Fixpoint canonical_from (m : Z) (tags : list BridgeVlanTrunkTag) : Prop :=
  match tags with
  | [] => True
  | TagId d :: tags' => m ≤ d < 65535 ∧ canonical_from (d + 2) tags'
  | TagIdRange r :: tags' =>
      m ≤ bvr_min r ∧ bvr_min r < bvr_max r < 65535 ∧ canonical_from (bvr_max r + 2) tags'
  end.

Definition canonical (tags : list BridgeVlanTrunkTag) : Prop := canonical_from 0 tags.

(** The loop of [compress_vlan_ids] as a recursion: [a..b] is [cur_range]. *)
Fixpoint grow (a b : Z) (vids : list Z) : list BridgeVlanTrunkTag :=
  match vids with
  | [] => [range_tag (bridge_vlan_range a b)]
  | v :: vids' =>
      if b + 1 =? v then grow a v vids'
      else range_tag (bridge_vlan_range a b) :: grow v v vids'
  end.

Definition ranges_of (vids : list Z) : list BridgeVlanTrunkTag :=
  match vids with [] => [] | v :: vids' => grow v v vids' end.

Definition is_vid (v : Z) : Prop := 0 ≤ v < 65535.

Lemma foldl_compress a b vids ranges :
  is_vid b → Forall is_vid vids →
  ∃ rs r, foldl compress_step (ranges, Some (bridge_vlan_range a b)) vids =
            (ranges ++ rs, Some r) ∧
          map range_tag (rs ++ [r]) = grow a b vids.
Proof.
  revert a b ranges. induction vids as [|v vids IH]; intros a b ranges Hb Hv; simpl.
  - exists [], (bridge_vlan_range a b). by rewrite app_nil_r.
  - apply Forall_cons in Hv as [Hv0 Hv]. rewrite as_u16_small by (unfold is_u16, is_vid in *; lia).
    destruct (b + 1 =? v).
    + by apply IH.
    + destruct (IH v v (ranges ++ [bridge_vlan_range a b]) Hv0 Hv) as (rs & r & Hf & Hg).
      exists (bridge_vlan_range a b :: rs), r. rewrite Hf, <- app_assoc. simpl. by rewrite <- Hg.
Qed.

Lemma sorted_vids_sorted vids : StronglySorted Z.lt (sorted_vids vids).
Proof. exact (dedup_sorted Z.compare id _ (sort_by_sorted Z.compare id vids)). Qed.

Lemma elem_of_sorted_vids v vids : v ∈ sorted_vids vids ↔ v ∈ vids.
Proof.
  unfold sorted_vids. split.
  - intros H%(elem_of_dedup Z.compare id). by apply elem_of_sort_by in H.
  - intros H. apply (elem_of_sort_by Z.compare id) in H.
    apply (dedup_keys Z.compare id) in H. by rewrite list_fmap_id in H.
Qed.

Lemma compress_vlan_ids_grow vids :
  Forall is_vid vids → compress_vlan_ids vids = ranges_of (sorted_vids vids).
Proof.
  intros Hv. unfold compress_vlan_ids.
  assert (Forall is_vid (sorted_vids vids)) as Hs.
  { rewrite Forall_forall in Hv |- *. intros v Hin. apply Hv.
    by apply elem_of_sorted_vids. }
  destruct (sorted_vids vids) as [|v l]; [done|]. apply Forall_cons in Hs as [Hv0 Hs]. simpl.
  destruct (foldl_compress v v l [] Hv0 Hs) as (rs & r & -> & <-). done.
Qed.

Lemma tags_ids_cons t tags : tags_ids (t :: tags) = tag_ids t ++ tags_ids tags.
Proof. done. Qed.

Lemma tag_ids_range_tag a b :
  0 ≤ a ≤ b → b < 65535 → tag_ids (range_tag (bridge_vlan_range a b)) = seqZ a (b + 1 - a).
Proof.
  intros Ha Hb. unfold range_tag. simpl. destruct (Z.eqb_spec a b) as [<-|Hne]; simpl.
  - replace (a + 1 - a) with 1 by lia. by rewrite seqZ_cons, seqZ_nil by lia.
  - unfold range_ids. simpl. by rewrite as_u16_small by (unfold is_u16; lia).
Qed.

Lemma canonical_from_range m a b tags :
  m ≤ a ≤ b → b < 65535 → canonical_from (b + 2) tags →
  canonical_from m (range_tag (bridge_vlan_range a b) :: tags).
Proof.
  intros Ha Hb Hc. unfold range_tag. simpl. destruct (Z.eqb_spec a b) as [<-|Hne]; simpl.
  - split; [lia|done].
  - repeat split; try lia. done.
Qed.

(** The tags of strictly increasing IDs are canonical and list those IDs. *)
Lemma grow_spec vids : ∀ m a b,
  0 ≤ m ≤ a → a ≤ b < 65535 → StronglySorted Z.lt (b :: vids) → Forall is_vid vids →
  canonical_from m (grow a b vids) ∧ tags_ids (grow a b vids) = seqZ a (b + 1 - a) ++ vids.
Proof.
  induction vids as [|v vids IH]; intros m a b Hm Hb Hs Hv; cbn [grow].
  - split; [apply canonical_from_range; [lia|lia|done]|].
    rewrite tags_ids_cons, tag_ids_range_tag by lia. done.
  - apply Forall_cons in Hv as [Hv0 Hv]. unfold is_vid in Hv0.
    apply StronglySorted_inv in Hs as [Hs Hbv]. apply Forall_cons in Hbv as [Hbv _].
    destruct (Z.eqb_spec (b + 1) v) as [<-|Hne].
    + destruct (IH m a (b + 1)) as [Hc Hi]; try lia; [done|done|]. split; [done|].
      rewrite Hi. replace (b + 1 + 1 - a) with ((b + 1 - a) + 1) by lia.
      rewrite seqZ_app, <- app_assoc by lia. f_equal.
      replace (a + (b + 1 - a)) with (b + 1) by lia. by rewrite seqZ_cons, seqZ_nil by lia.
    + destruct (IH (b + 2) v v) as [Hc Hi]; try lia; [done|done|]. split.
      * apply canonical_from_range; [lia|lia|done].
      * rewrite tags_ids_cons, tag_ids_range_tag, Hi by lia. do 2 f_equal.
        replace (v + 1 - v) with 1 by lia. by rewrite seqZ_cons, seqZ_nil by lia.
Qed.

Lemma canonical_from_ids m tags :
  0 ≤ m → canonical_from m tags → Forall (λ v, m ≤ v < 65535) (tags_ids tags).
Proof.
  revert m. induction tags as [|[d|[a b]] tags IH]; intros m Hm Hc; simpl in Hc;
    [constructor| |]; rewrite tags_ids_cons; apply Forall_app; cbn [tag_ids].
  - destruct Hc as [Hd Hc]. split; [by apply Forall_singleton|].
    eapply Forall_impl; [apply (IH (d + 2)); [lia|done]|]. simpl. lia.
  - destruct Hc as (Ha & Hb & Hc). split.
    + unfold range_ids. simpl. rewrite as_u16_small by (unfold is_u16; lia).
      apply Forall_seqZ. lia.
    + eapply Forall_impl; [apply (IH (b + 2)); [lia|done]|]. simpl. lia.
Qed.

Lemma canonical_from_above m tags :
  0 ≤ m → canonical_from m tags → Forall (λ v, m ≤ v) (tags_ids tags).
Proof.
  intros Hm Hc. eapply Forall_impl; [by apply canonical_from_ids|]. simpl. lia.
Qed.

Lemma grow_run vids a n : ∀ b, 0 ≤ n →
  grow a b (seqZ (b + 1) n ++ vids) = grow a (b + n) vids.
Proof.
  intros b Hn. revert b. apply (natlike_ind (λ n, ∀ b, grow a b (seqZ (b + 1) n ++ vids) =
    grow a (b + n) vids)); [|clear n Hn|done].
  - intros b. by rewrite seqZ_nil, Z.add_0_r by lia.
  - intros n Hn IH b. rewrite seqZ_cons by lia. simpl. rewrite Z.eqb_refl.
    replace (Z.succ (b + 1)) with (b + 1 + 1) by lia.
    replace (Z.pred (Z.succ n)) with n by lia. rewrite IH. f_equal. lia.
Qed.

Lemma grow_gap a b vids :
  Forall (λ v, b + 2 ≤ v) vids →
  grow a b vids = range_tag (bridge_vlan_range a b) :: ranges_of vids.
Proof.
  destruct vids as [|v vids]; [done|]. intros [Hv _]%Forall_cons. simpl.
  destruct (Z.eqb_spec (b + 1) v); [lia|done].
Qed.

(** Canonical tags are rebuilt from their IDs. *)
Lemma ranges_of_canonical tags m :
  0 ≤ m → canonical_from m tags → ranges_of (tags_ids tags) = tags.
Proof.
  revert m. induction tags as [|[d|[a b]] tags IH]; intros m Hm Hc; simpl in Hc; [done| |];
    rewrite tags_ids_cons; cbn [tag_ids].
  - destruct Hc as [Hd Hc]. simpl. rewrite grow_gap.
    + rewrite (IH (d + 2)) by (lia || done). unfold range_tag. simpl. by rewrite Z.eqb_refl.
    + apply canonical_from_above; [lia|done].
  - destruct Hc as (Ha & Hb & Hc). unfold range_ids. simpl.
    rewrite as_u16_small by (unfold is_u16; lia). rewrite seqZ_cons by lia. simpl.
    replace (Z.succ a) with (a + 1) by lia. rewrite grow_run by lia.
    replace (a + Z.pred (b + 1 - a)) with b by lia. rewrite grow_gap.
    + rewrite (IH (b + 2)) by (lia || done). unfold range_tag. simpl.
      destruct (Z.eqb_spec a b); [lia|done].
    + apply canonical_from_above; [lia|done].
Qed.

(** Two strictly increasing lists of the same IDs are equal. *)
Lemma sorted_lt_unique (l k : list Z) :
  StronglySorted Z.lt l → StronglySorted Z.lt k → (∀ v, v ∈ l ↔ v ∈ k) → l = k.
Proof.
  intros Hl Hk Heq. apply (StronglySorted_unique_strong Z.lt); [|done|done|].
  - intros x y _ _. lia.
  - assert (∀ l, StronglySorted Z.lt l → NoDup l) as Hnd.
    { clear. induction 1 as [|x l Hs IH Hx]; constructor; [|done].
      intros Hin. rewrite Forall_forall in Hx. specialize (Hx x Hin). lia. }
    apply NoDup_Permutation; eauto.
Qed.

Lemma sorted_vids_vid vids : Forall is_vid vids → Forall is_vid (sorted_vids vids).
Proof. rewrite !Forall_forall. intros H v Hv. apply H. by apply elem_of_sorted_vids. Qed.

Lemma compress_vlan_ids_spec vids :
  Forall is_vid vids →
  canonical (compress_vlan_ids vids) ∧ tags_ids (compress_vlan_ids vids) = sorted_vids vids.
Proof.
  intros Hv. rewrite compress_vlan_ids_grow by done.
  pose proof (sorted_vids_sorted vids) as Hs. apply sorted_vids_vid in Hv.
  destruct (sorted_vids vids) as [|v l]; [done|]. apply Forall_cons in Hv as [Hv0 Hv].
  unfold is_vid in Hv0. destruct (grow_spec l 0 v v) as [Hc Hi]; [lia|lia|done|done|].
  split; [done|]. cbn [ranges_of]. rewrite Hi.
  replace (v + 1 - v) with 1 by lia. by rewrite seqZ_cons, seqZ_nil by lia.
Qed.

Lemma canonical_ids_sorted tags : canonical tags → StronglySorted Z.lt (tags_ids tags).
Proof.
  intros Hc. assert (0 ≤ 0) as Hm by lia. unfold canonical in Hc. revert Hm Hc.
  generalize 0 at 2 3 as m. induction tags as [|t tags IH]; intros m Hm Hc; [constructor|].
  assert (∃ a b, m ≤ a ≤ b ∧ b < 65535 ∧ tag_ids t = seqZ a (b + 1 - a) ∧
            canonical_from (b + 2) tags) as (a & b & Ha & Hb & Hids & Hc').
  { destruct t as [d|[a b]]; simpl in Hc.
    - exists d, d. destruct Hc as [Hd Hc]. repeat split; try lia; [|done]. simpl.
      replace (d + 1 - d) with 1 by lia. by rewrite seqZ_cons, seqZ_nil by lia.
    - exists a, b. destruct Hc as (H1 & H2 & Hc). repeat split; try lia; [|done]. simpl.
      unfold range_ids. simpl. by rewrite as_u16_small by (unfold is_u16; lia). }
  rewrite tags_ids_cons, Hids. apply StronglySorted_app_2.
  - intros x y Hx%elem_of_seqZ Hy. pose proof (canonical_from_above (b + 2) tags) as Habove.
    rewrite Forall_forall in Habove. specialize (Habove ltac:(lia) Hc' y Hy). lia.
  - clear -Ha. remember (Z.to_nat (b + 1 - a)) as n eqn:En. revert a Ha En.
    induction n as [|n IHn]; intros a Ha En; [lia|]. rewrite seqZ_cons by lia. constructor.
    + destruct (decide (a = b)) as [->|Hne]; [by rewrite seqZ_nil by lia; constructor|].
      replace (Z.pred (b + 1 - a)) with (b + 1 - Z.succ a) by lia. apply IHn; lia.
    + apply Forall_seqZ. lia.
  - apply (IH (b + 2)); [lia|done].
Qed.

(** Compressing VLAN IDs gives the one canonical list of tags of exactly these IDs:
    in increasing order, consecutive IDs in ranges, no two tags adjacent or
    overlapping.  Every canonical list with these IDs is that list, and compressing
    the tags once more changes nothing. *)
Theorem compress_vlan_ids_correct vids :
  Forall is_vid vids →
  canonical (compress_vlan_ids vids) ∧
  (∀ v, v ∈ tags_ids (compress_vlan_ids vids) ↔ v ∈ vids) ∧
  (∀ tags, canonical tags → (∀ v, v ∈ tags_ids tags ↔ v ∈ vids) →
     tags = compress_vlan_ids vids) ∧
  compress_vlan_ids (tags_ids (compress_vlan_ids vids)) = compress_vlan_ids vids.
Proof.
  intros Hv. destruct (compress_vlan_ids_spec vids Hv) as [Hc Hi].
  assert (∀ tags, canonical tags → (∀ v, v ∈ tags_ids tags ↔ v ∈ vids) →
            tags = compress_vlan_ids vids) as Huniq.
  { intros tags Ht Heq. rewrite <- (ranges_of_canonical tags 0), <- (ranges_of_canonical
      (compress_vlan_ids vids) 0) by (lia || done). f_equal.
    apply sorted_lt_unique; [by apply canonical_ids_sorted|by apply canonical_ids_sorted|].
    intros v. by rewrite Heq, Hi, elem_of_sorted_vids. }
  split; [done|]. split; [intros v; by rewrite Hi, elem_of_sorted_vids|]. split; [done|].
  pose proof (sorted_vids_vid vids Hv) as Hv'. rewrite Hi. apply Huniq.
  - by apply compress_vlan_ids_spec.
  - intros v. destruct (compress_vlan_ids_spec (sorted_vids vids) Hv') as [_ ->].
    by rewrite !elem_of_sorted_vids.
Qed.

Lemma compress_vlan_ids_correct_witness :
  is_vid 7 ∧ compress_vlan_ids [12; 7; 11; 10; 7] =
    [TagId 7; TagIdRange (bridge_vlan_range 10 12)] ∧
  canonical (compress_vlan_ids [12; 7; 11; 10; 7]).
Proof.
  split; [unfold is_vid; lia|]. split; [by vm_compute|].
  apply compress_vlan_ids_correct. repeat (constructor; [unfold is_vid; lia|]). constructor.
Defined.

(** What a bridge does before it sanitizes the section hides every overlap:
    compressed tags never overlap, whatever the desired ones did. *)
Lemma compressed_tags_never_overlap c tags :
  bvc_trunk_tags c = Some tags → Forall is_vid (tags_ids tags) →
  ∃ tags', bvc_trunk_tags (compress_port_vlan_ranges c) = Some tags' ∧
    is_ok (validate_overlap_trunk_tags tags') = true.
Proof.
  intros Ht Hv. unfold compress_port_vlan_ranges. rewrite Ht. eexists. split; [done|].
  apply validate_overlap_iff. destruct (compress_vlan_ids_spec _ Hv) as [Hc _].
  apply canonical_ids_sorted in Hc. clear -Hc. induction Hc as [|x l Hs IH Hx]; constructor; [|done].
  intros Hin. rewrite Forall_forall in Hx. specialize (Hx x Hin). lia.
Qed.

(** A range up to 65535 is empty in a release build: its end wraps to 0. *)
Example range_to_65535_vanishes :
  compress_vlan_ids (tags_ids [TagIdRange (bridge_vlan_range 4000 65535)]) = [].
Proof. vm_compute. reflexivity. Qed.

(** ** Sanitizing a section *)

(** The combinations of mode, tag and trunk tags that are accepted. *)
Record vlan_acceptable (v : BridgeVlanConfig) : Prop := {
  va_access : bvc_mode v = Some Access →
    bvc_enable_native v ≠ Some true ∧ default [] (bvc_trunk_tags v) = [];
  va_trunk : bvc_mode v = Some Trunk → bvc_trunk_tags v ≠ None ∧
    (bvc_enable_native v = Some true ∨ default 0 (bvc_tag v) = 0);
  va_tags : NoDup (tags_ids (default [] (bvc_trunk_tags v)));
}.

(** Trunk tags without a mode mean trunk mode. *)
Definition with_default_mode (v : BridgeVlanConfig) : BridgeVlanConfig :=
  match bvc_trunk_tags v, bvc_mode v with
  | Some _, None => bridge_vlan_config (bvc_enable_native v) (Some Trunk) (bvc_tag v)
                      (bvc_trunk_tags v)
  | _, _ => v
  end.

Lemma bridge_vlan_sanitize_spec v :
  (is_ok (bridge_vlan_sanitize v) = true ↔ vlan_acceptable v) ∧
  ∀ v', bridge_vlan_sanitize v = Ok v' → v' = with_default_mode v.
Proof.
  destruct v as [native mode tag tags].
  pose proof (validate_overlap_iff (default [] tags)) as Ho.
  unfold bridge_vlan_sanitize, with_default_mode. cbn.
  assert (vlan_acceptable (bridge_vlan_config native mode tag tags) ↔
    (mode = Some Access → native ≠ Some true ∧ default [] tags = []) ∧
    (mode = Some Trunk → tags ≠ None ∧ (native = Some true ∨ default 0 tag = 0)) ∧
    NoDup (tags_ids (default [] tags))) as ->.
  { split; [intros [? ? ?]; done|intros (? & ? & ?); by constructor]. }
  rewrite <- Ho. clear Ho.
  destruct tags as [tags|]; simpl; [destruct (validate_overlap_trunk_tags tags) as [[]|e]|];
    destruct mode as [[]|], native as [[]|], tag as [z|]; try destruct tags; simpl;
    repeat case_bool_decide; simpl; try done;
    (split; [|by intros ? [= <-]]); split; intros; try discriminate; intuition congruence.
Qed.

(** The accepted sections; only trunk tags without a mode change, and the result
    is accepted again unless that mode now forbids the tag. *)
Lemma bridge_vlan_sanitize_again v v' :
  bridge_vlan_sanitize v = Ok v' →
  v' = with_default_mode v ∧
  (is_ok (bridge_vlan_sanitize v') = true ↔
   bvc_mode v ≠ None ∨ bvc_trunk_tags v = None ∨ bvc_enable_native v = Some true ∨
   default 0 (bvc_tag v) = 0).
Proof.
  intros Hok. destruct (bridge_vlan_sanitize_spec v) as [Hacc Heq]. pose proof (Heq v' Hok) as ->.
  split; [done|]. assert (vlan_acceptable v) as [H1 H2 H3] by (apply Hacc; by rewrite Hok).
  rewrite (proj1 (bridge_vlan_sanitize_spec (with_default_mode v))).
  destruct v as [native [m|] tag [tags|]]; unfold with_default_mode in *; cbn in *.
  all: split; [intros [V1 V2 V3]; cbn in *|intros Hc; constructor; cbn; try done].
  all: try (left; done); try (right; left; done).
  - destruct (V2 eq_refl) as [_ [?|?]]; auto.
  - intros _. split; [done|]. destruct Hc as [?|[?|[?|?]]]; auto; done.
Qed.

(** Trunk tags and a tag without [enable-native]: accepted while the mode is
    inferred, and rejected when what was saved is applied again. *)
Example inferred_trunk_mode_is_rejected_later :
  let v := bridge_vlan_config None None (Some 5) (Some [TagId 7]) in
  match bridge_vlan_sanitize v with
  | Ok v' => bridge_vlan_sanitize v' = fail InvalidArgument
  | Err _ => False
  end.
Proof. vm_compute. reflexivity. Qed.
