(* ===== verification/Bond.v ===== *)
(** * Bond: [src/lib/schema/ifaces/bond.rs]

    Bond interfaces: what a desired bond must satisfy, its canonical form, the
    merge over a changed mode, and the renaming of ports.  [BondOptions] keeps
    the options the checks read.  Sorting by a key is stable here; the code sorts
    port lists unstably, which only matters when a port is listed twice. *)

From S2P Require Export BaseIface.

#[local] Open Scope Z_scope.

(** ** Data *)

Inductive BondMode : Type :=
| RoundRobin | ActiveBackup | XOR | Broadcast | LACP | TLB | ALB | BondModeUnknown.

#[export] Instance BondMode_eq_dec : EqDecision BondMode.
Proof. solve_decision. Defined.

Inductive BondFailOverMac : Type := FomNone | FomActive | FomFollow.

#[export] Instance BondFailOverMac_eq_dec : EqDecision BondFailOverMac.
Proof. solve_decision. Defined.

Inductive BondLacpRate : Type := LacpSlow | LacpFast.

#[export] Instance BondLacpRate_eq_dec : EqDecision BondLacpRate.
Proof. solve_decision. Defined.

Record BondOptions : Type := bond_options {
  bo_ad_actor_system : option string;
  bo_arp_interval : option Z;
  bo_arp_ip_target : option string;
  bo_fail_over_mac : option BondFailOverMac;
  bo_lacp_rate : option BondLacpRate;
  bo_miimon : option Z;
  bo_num_grat_arp : option Z;
  bo_num_unsol_na : option Z;
  bo_lacp_active : option bool;
  bo_ns_ip6_target : option (list Z);
}.

#[export] Instance BondOptions_eq_dec : EqDecision BondOptions.
Proof. solve_decision. Defined.

Record BondPortConfig : Type := bond_port_config {
  bpc_name : string;
  bpc_priority : option Z;
  bpc_queue_id : option Z;
}.

#[export] Instance BondPortConfig_eq_dec : EqDecision BondPortConfig.
Proof. solve_decision. Defined.

Record BondConfig : Type := bond_config {
  bc_mode : option BondMode;
  bc_options : option BondOptions;
  bc_ports : option (list BondPortConfig);
}.

#[export] Instance BondConfig_eq_dec : EqDecision BondConfig.
Proof. solve_decision. Defined.

Record BondInterface : Type := bond_interface {
  bond_base : BaseInterface;
  bond : option BondConfig;
}.

#[export] Instance BondInterface_eq_dec : EqDecision BondInterface.
Proof. solve_decision. Defined.

Definition set_bond (b : option BondConfig) (i : BondInterface) : BondInterface :=
  bond_interface (bond_base i) b.
Definition set_bond_base (b : BaseInterface) (i : BondInterface) : BondInterface :=
  bond_interface b (bond i).

(** ** Reading *)

(** [BondInterface::mode], [BondInterface::ports]. *)
Definition bond_mode (self : BondInterface) : option BondMode := bond self ≫= bc_mode.

Definition bond_ports (self : BondInterface) : option (list string) :=
  bond self ≫= λ bond_conf, map bpc_name <$> bc_ports bond_conf.

Definition is_mac_restricted_mode (self : BondInterface) : bool :=
  bool_decide ((bond self ≫= λ bond_conf,
                  if bool_decide (bond_mode self = Some ActiveBackup)
                  then bc_options bond_conf else None) ≫= bo_fail_over_mac = Some FomActive).

Definition is_not_mac_restricted_mode_explicitly (self : BondInterface) : bool :=
  bool_decide (bond_mode self ≠ None) && negb (bool_decide (bond_mode self = Some ActiveBackup)) ||
  match (bond self ≫= bc_options) ≫= bo_fail_over_mac with
  | None | Some FomActive => false
  | Some _ => true
  end.

(** ** Checks *)

(** [check_overlap_queue_id]. *)
Fixpoint queue_ids_overlap (existing_qids : gset Z) (ports_conf : list BondPortConfig) : bool :=
  match ports_conf with
  | [] => false
  | port_conf :: ports_conf' =>
      match bpc_queue_id port_conf with
      | Some queue_id =>
          if queue_id =? 0 then queue_ids_overlap existing_qids ports_conf'
          else if bool_decide (queue_id ∈ existing_qids) then true
          else queue_ids_overlap ({[queue_id]} ∪ existing_qids) ports_conf'
      | None => queue_ids_overlap existing_qids ports_conf'
      end
  end.

Definition check_overlap_queue_id (self : BondInterface) : res unit :=
  if queue_ids_overlap ∅ (default [] (bond self ≫= bc_ports)) then fail InvalidArgument
  else Ok tt.

(** [u8::from_str_radix(byte, 16)]: a leading [+] is accepted. *)
Definition parse_hex_digits (s : string) : option Z :=
  let '(ds, rest) := read_digits 16 s in
  match rest with
  | "" => if (length ds =? 0)%nat then None
          else if 255 <? undigits 16 ds then None else Some (undigits 16 ds)
  | _ => None
  end.

Definition u8_from_hex (s : string) : option Z :=
  match s with
  | String "+" s' => parse_hex_digits s'
  | _ => parse_hex_digits s
  end.

(** [parse_eth_mac]. *)
Definition parse_mac_byte (byte : string) : res Z :=
  if negb (String.length byte =? 2)%nat then fail InvalidArgument
  else match u8_from_hex byte with Some b => Ok b | None => fail InvalidArgument end.

Definition parse_eth_mac (mac_str : string) : res (list Z) :=
  let? mac_vec := map_result parse_mac_byte (str_split colon mac_str) in
  if (length mac_vec =? 6)%nat then Ok mac_vec else fail InvalidArgument.

Definition validate_ad_actor_system_mac_address (self : BondOptions) : res unit :=
  match bo_ad_actor_system self with
  | Some ad_actor_system =>
      let? mac := parse_eth_mac ad_actor_system in
      if negb (Z.land (nth 0 mac 0) 1 =? 0) then fail InvalidArgument else Ok tt
  | None => Ok tt
  end.

Definition validate_miimon_and_arp_interval (self : BondOptions) : res unit :=
  match bo_miimon self, bo_arp_interval self with
  | Some miimon, Some arp_interval =>
      if (0 <? miimon) && (0 <? arp_interval) then fail InvalidArgument else Ok tt
  | _, _ => Ok tt
  end.

Definition validate_lacp_opts (self : BondOptions) (mode : BondMode) : res unit :=
  if negb (bool_decide (mode = LACP)) then
    if bool_decide (bo_lacp_rate self ≠ None) then fail InvalidArgument
    else if bool_decide (bo_lacp_active self ≠ None) then fail InvalidArgument
    else Ok tt
  else Ok tt.

Definition validate_arp_interval (self : BondOptions) (current : option BondOptions)
    (mode : BondMode) : res unit :=
  match option_or (bo_arp_interval self) (current ≫= bo_arp_interval) with
  | Some arp_interval =>
      if 0 <? arp_interval then
        if bool_decide (mode = LACP) || bool_decide (mode = TLB) || bool_decide (mode = ALB)
        then fail InvalidArgument else Ok tt
      else if match bo_arp_ip_target self with Some t => negb (String.eqb t "") | None => false end
      then fail InvalidArgument
      else if match bo_ns_ip6_target self with Some (_ :: _) => true | _ => false end
      then fail InvalidArgument
      else Ok tt
  | None => Ok tt
  end.

Definition num_grat_arp_differs (self : BondOptions) : bool :=
  match bo_num_grat_arp self, bo_num_unsol_na self with
  | Some num_grat_arp, Some num_unsol_na => negb (num_grat_arp =? num_unsol_na)
  | _, _ => false
  end.

(** ** [sanitize] *)

Definition sort_bond_ports : list BondPortConfig → list BondPortConfig :=
  sort_by string_cmp bpc_name.

Definition set_ad_actor_system (v : option string) (o : BondOptions) : BondOptions :=
  bond_options v (bo_arp_interval o) (bo_arp_ip_target o) (bo_fail_over_mac o) (bo_lacp_rate o)
    (bo_miimon o) (bo_num_grat_arp o) (bo_num_unsol_na o) (bo_lacp_active o) (bo_ns_ip6_target o).

(** [sanitize_mac_restricted_mode] of [for_apply]. *)
Definition sanitize_mac_restricted_mode (self : BondInterface) (current : option BondInterface) :
    BondInterface :=
  let drop := set_bond_base (set_bi_mac_address None (bond_base self)) self in
  match current with
  | Some current =>
      if is_mac_restricted_mode current && bool_decide (bi_mac_address (bond_base self) ≠ None) &&
         negb (is_not_mac_restricted_mode_explicitly self)
      then drop else self
  | None =>
      if is_mac_restricted_mode self && bool_decide (bi_mac_address (bond_base self) ≠ None)
      then drop else self
  end.

Section Sanitize.
(** [str::to_uppercase]. *)
Context (to_uppercase : string → string).

(** The checks of the options of [for_apply]. *)
Definition bond_opts_sanitize (bond_opts : BondOptions) (cur_bond_opts : option BondOptions)
    (mode : BondMode) : res BondOptions :=
  let? _ := validate_ad_actor_system_mac_address bond_opts in
  let? _ := validate_lacp_opts bond_opts mode in
  let? _ := validate_arp_interval bond_opts cur_bond_opts mode in
  let? _ := validate_miimon_and_arp_interval bond_opts in
  if num_grat_arp_differs bond_opts then fail InvalidArgument
  else Ok (set_ad_actor_system (to_uppercase <$> bo_ad_actor_system bond_opts) bond_opts).

(** The [bond] section of [for_apply]. *)
Definition bond_conf_sanitize (bond_conf : BondConfig) (current : option BondInterface)
    (mode : BondMode) : res BondConfig :=
  let ports := sort_bond_ports <$> bc_ports bond_conf in
  match bc_options bond_conf with
  | Some bond_opts =>
      let? bond_opts := bond_opts_sanitize bond_opts ((current ≫= bond) ≫= bc_options) mode in
      Ok (bond_config (Some mode) (Some bond_opts) ports)
  | None => Ok (bond_config (Some mode) None ports)
  end.

(** [NipartInterface::sanitize for BondInterface]: [self] is the desired state. *)
Definition bond_sanitize (self : BondInterface) (current : option BondInterface)
    (t : Targets BondInterface) : res (Targets BondInterface) :=
  if state_is_absent (bi_state (bond_base self)) then Ok t
  else
    match option_or (bond_mode self) (current ≫= bond_mode) with
    | None => fail InvalidArgument
    | Some mode =>
        let? apply :=
          match bond (t_apply t) with
          | Some bond_conf =>
              let? bond_conf := bond_conf_sanitize bond_conf current mode in
              Ok (set_bond (Some bond_conf) (t_apply t))
          | None => Ok (t_apply t)
          end in
        let? _ := check_overlap_queue_id self in
        let apply := sanitize_mac_restricted_mode apply current in
        Ok (targets (set_bond (bond apply) (t_save t)) apply
              (set_bond (bond apply) (t_verify t)) (set_bond (bond apply) (t_merged t)))
    end.

End Sanitize.

(** ** Merging, verification and renaming *)

(** [NipartInterface::post_merge for BondInterface]. *)
Definition bond_post_merge (self new_state old_state : BondInterface) : BondInterface :=
  if bool_decide (bond_mode new_state ≠ None) &&
     negb (bool_decide (bond_mode new_state = bond_mode old_state)) then
    match bond self, bond new_state with
    | Some bond_conf, Some new_bond_conf =>
        let ports :=
          match bc_ports new_bond_conf with
          | Some ports => Some ports
          | None =>
              map (λ c, bond_port_config (bpc_name c) None None) <$> (bond old_state ≫= bc_ports)
          end in
        set_bond (Some (bond_config (bc_mode bond_conf) (bc_options new_bond_conf) ports)) self
    | _, _ => self
    end
  else self.

Definition sort_ports_of (i : BondInterface) : BondInterface :=
  set_bond ((λ b, bond_config (bc_mode b) (bc_options b) (sort_bond_ports <$> bc_ports b))
              <$> bond i) i.

(** [NipartInterface::sanitize_before_verify for BondInterface]. *)
Definition bond_sanitize_before_verify (self current : BondInterface) :
    BondInterface * BondInterface := (sort_ports_of self, sort_ports_of current).

(** The first port of that name is renamed. *)
Definition bond_port_rename (org_port_name new_port_name : string) :
    list BondPortConfig → option (list BondPortConfig) :=
  fix go ports :=
    match ports with
    | [] => None
    | port :: ports' =>
        if String.eqb (bpc_name port) org_port_name
        then Some (bond_port_config new_port_name (bpc_priority port) (bpc_queue_id port) :: ports')
        else cons port <$> go ports'
    end.

(** [BondInterface::change_port_name]. *)
Definition bond_change_port_name (self : BondInterface) (org_port_name new_port_name : string) :
    res BondInterface :=
  match bond self ≫= λ b, pair b <$> (bc_ports b ≫= bond_port_rename org_port_name new_port_name)
  with
  | Some (b, ports) =>
      Ok (set_bond (Some (bond_config (bc_mode b) (bc_options b) (Some ports))) self)
  | None => fail InvalidArgument
  end.

(** ** What is accepted *)

Definition nonzero_queue_ids (ports : list BondPortConfig) : list Z :=
  List.filter (λ q, negb (q =? 0)) (omap bpc_queue_id ports).

Lemma queue_ids_overlap_spec existing ports :
  queue_ids_overlap existing ports = false ↔
  NoDup (nonzero_queue_ids ports) ∧ ∀ q, q ∈ nonzero_queue_ids ports → q ∉ existing.
Proof.
  revert existing. induction ports as [|p ports IH]; intros existing; cbn [queue_ids_overlap].
  { split; [|done]. split; [constructor|]. intros q Hq. by apply elem_of_nil in Hq. }
  unfold nonzero_queue_ids in *. cbn [omap list_omap]. destruct (bpc_queue_id p) as [q|]; [|apply IH].
  simpl. destruct (q =? 0); simpl; [apply IH|]. rewrite NoDup_cons. case_bool_decide as Hq.
  - split; [done|]. intros [_ Hf]. destruct (Hf q); [by left|done].
  - rewrite IH. split.
    + intros [Hnd Hf]. repeat split; [|done|].
      * intros Hin. apply (Hf q Hin). set_solver.
      * intros x [->|Hx]%elem_of_cons; [done|]. specialize (Hf x Hx). set_solver.
    + intros [[Hni Hnd] Hf]. split; [done|]. intros x Hx.
      apply not_elem_of_union. split; [|by apply Hf; right]. rewrite elem_of_singleton. by intros ->.
Qed.

(** The options the kernel takes in the given mode. *)
Record valid_bond_options (o : BondOptions) (cur : option BondOptions) (mode : BondMode) : Prop := {
  vbo_actor : ∀ mac, bo_ad_actor_system o = Some mac →
    ∃ bytes, parse_eth_mac mac = Ok bytes ∧ Z.land (nth 0 bytes 0) 1 = 0;
  vbo_lacp : mode ≠ LACP → bo_lacp_rate o = None ∧ bo_lacp_active o = None;
  vbo_arp_mode : ∀ i, option_or (bo_arp_interval o) (cur ≫= bo_arp_interval) = Some i → 0 < i →
    mode ≠ LACP ∧ mode ≠ TLB ∧ mode ≠ ALB;
  vbo_arp_targets : ∀ i, option_or (bo_arp_interval o) (cur ≫= bo_arp_interval) = Some i → i ≤ 0 →
    default "" (bo_arp_ip_target o) = "" ∧ default [] (bo_ns_ip6_target o) = [];
  vbo_monitors : ∀ m i, bo_miimon o = Some m → bo_arp_interval o = Some i → m ≤ 0 ∨ i ≤ 0;
  vbo_peer_notif : ∀ g n, bo_num_grat_arp o = Some g → bo_num_unsol_na o = Some n → g = n;
}.

Lemma validate_actor_iff o :
  is_ok (validate_ad_actor_system_mac_address o) = true ↔
  ∀ mac, bo_ad_actor_system o = Some mac →
    ∃ bytes, parse_eth_mac mac = Ok bytes ∧ Z.land (nth 0 bytes 0) 1 = 0.
Proof.
  unfold validate_ad_actor_system_mac_address. destruct (bo_ad_actor_system o) as [mac|]; [|done].
  destruct (parse_eth_mac mac) as [bytes|e] eqn:E; simpl.
  - destruct (Z.eqb_spec (Z.land (nth 0 bytes 0) 1) 0) as [H0|H0]; simpl; split; try done.
    + intros _ mac' [= <-]. eauto.
    + intros H. destruct (H mac eq_refl) as (b & Hb & H1). rewrite E in Hb. injection Hb as <-. done.
  - split; [done|]. intros H. destruct (H mac eq_refl) as (b & Hb & _). by rewrite E in Hb.
Qed.

Lemma validate_arp_iff o cur mode :
  is_ok (validate_arp_interval o cur mode) = true ↔
  ∀ i, option_or (bo_arp_interval o) (cur ≫= bo_arp_interval) = Some i →
    (0 < i → mode ≠ LACP ∧ mode ≠ TLB ∧ mode ≠ ALB) ∧
    (i ≤ 0 → default "" (bo_arp_ip_target o) = "" ∧ default [] (bo_ns_ip6_target o) = []).
Proof.
  unfold validate_arp_interval.
  destruct (option_or (bo_arp_interval o) (cur ≫= bo_arp_interval)) as [i|]; [|done].
  destruct (Z.ltb_spec 0 i) as [Hi|Hi].
  - split.
    + intros H j [= <-]. split; [|lia]. intros _. by destruct mode.
    + intros H. destruct (H i eq_refl) as [Hm _]. specialize (Hm Hi). by destruct mode; naive_solver.
  - split.
    + intros H j [= <-]. split; [lia|]. intros _.
      destruct (bo_arp_ip_target o) as [s|], (bo_ns_ip6_target o) as [[|z l]|]; simpl in *;
        try (destruct (String.eqb_spec s ""); simpl in H; [subst|]); done.
    + intros H. destruct (H i eq_refl) as [_ Ht]. specialize (Ht Hi) as [H1 H2].
      destruct (bo_arp_ip_target o) as [s|], (bo_ns_ip6_target o) as [[|z l]|]; simpl in *; subst;
        done.
Qed.

Lemma is_ok_bind {E A B} (r : result E A) (f : A → result E B) :
  is_ok (let? x := r in f x) = true ↔ ∃ x, r = Ok x ∧ is_ok (f x) = true.
Proof. destruct r; simpl; split; naive_solver. Qed.

Lemma is_ok_unit {E} (r : result E unit) : is_ok r = true ↔ r = Ok tt.
Proof. destruct r as [[]|]; simpl; split; naive_solver. Qed.

Lemma bond_opts_accepts up o cur mode :
  is_ok (bond_opts_sanitize up o cur mode) = true ↔ valid_bond_options o cur mode.
Proof.
  unfold bond_opts_sanitize. rewrite !is_ok_bind.
  pose proof (validate_actor_iff o) as Ha. pose proof (validate_arp_iff o cur mode) as Hr.
  assert (is_ok (validate_lacp_opts o mode) = true ↔
    (mode ≠ LACP → bo_lacp_rate o = None ∧ bo_lacp_active o = None)) as Hl.
  { unfold validate_lacp_opts. repeat case_bool_decide; simpl; naive_solver. }
  assert (is_ok (validate_miimon_and_arp_interval o) = true ↔
    ∀ m i, bo_miimon o = Some m → bo_arp_interval o = Some i → m ≤ 0 ∨ i ≤ 0) as Hm.
  { unfold validate_miimon_and_arp_interval.
    destruct (bo_miimon o) as [m|], (bo_arp_interval o) as [i|]; simpl; try (by split; intros).
    destruct (Z.ltb_spec 0 m), (Z.ltb_spec 0 i); simpl; split; try done;
      try (intros _ ?? [= <-] [= <-]; lia).
    intros H'. specialize (H' m i eq_refl eq_refl). lia. }
  assert (num_grat_arp_differs o = false ↔
    ∀ g n, bo_num_grat_arp o = Some g → bo_num_unsol_na o = Some n → g = n) as Hn.
  { unfold num_grat_arp_differs. destruct (bo_num_grat_arp o) as [g|], (bo_num_unsol_na o) as [n|];
      try (by split; intros).
    rewrite negb_false_iff, Z.eqb_eq. split; [by intros -> ?? [= <-] [= <-]|eauto]. }
  split.
  - intros ([] & E1 & H1). apply is_ok_bind in H1 as ([] & E2 & H2).
    apply is_ok_bind in H2 as ([] & E3 & H3). apply is_ok_bind in H3 as ([] & E4 & H4).
    rewrite E1 in Ha. rewrite E2 in Hl. rewrite E3 in Hr. rewrite E4 in Hm.
    pose proof (proj1 Hr eq_refl) as Hr1. constructor.
    + by apply Ha.
    + by apply Hl.
    + intros i Hi. apply (Hr1 i Hi).
    + intros i Hi. apply (Hr1 i Hi).
    + by apply Hm.
    + apply Hn. by destruct (num_grat_arp_differs o).
  - intros [V1 V2 V3 V4 V5 V6]. apply Ha, is_ok_unit in V1. apply Hl, is_ok_unit in V2.
    apply Hm, is_ok_unit in V5. apply Hn in V6.
    assert (validate_arp_interval o cur mode = Ok tt) as Vr.
    { apply is_ok_unit, Hr. intros i Hi. split; eauto. }
    exists tt. split; [done|]. rewrite V2. simpl. rewrite Vr. simpl. rewrite V5. simpl.
    by rewrite V6.
Qed.

(** A desired bond is accepted exactly when its mode is given or known, the
    options of what is applied are valid for that mode and its non-zero queue
    IDs are distinct; a bond to be removed is always accepted. *)
Theorem bond_sanitize_accepts up desired current t :
  is_ok (bond_sanitize up desired current t) = true ↔
  bi_state (bond_base desired) = SAbsent ∨
  ∃ mode, option_or (bond_mode desired) (current ≫= bond_mode) = Some mode ∧
    (∀ o, bond (t_apply t) ≫= bc_options = Some o →
       valid_bond_options o ((current ≫= bond) ≫= bc_options) mode) ∧
    NoDup (nonzero_queue_ids (default [] (bond desired ≫= bc_ports))).
Proof.
  unfold bond_sanitize, state_is_absent. case_bool_decide as Ha; [naive_solver|].
  destruct (option_or (bond_mode desired) (current ≫= bond_mode)) as [mode|]; [|naive_solver].
  rewrite is_ok_bind. unfold check_overlap_queue_id.
  pose proof (queue_ids_overlap_spec ∅ (default [] (bond desired ≫= bc_ports))) as Hq.
  assert (is_ok (match bond (t_apply t) with
                 | Some bond_conf =>
                     let? bond_conf := bond_conf_sanitize up bond_conf current mode in
                     Ok (set_bond (Some bond_conf) (t_apply t))
                 | None => Ok (t_apply t) end) = true ↔
    ∀ o, bond (t_apply t) ≫= bc_options = Some o →
       valid_bond_options o ((current ≫= bond) ≫= bc_options) mode) as Ho.
  { destruct (bond (t_apply t)) as [c|]; simpl; [|naive_solver]. unfold bond_conf_sanitize.
    destruct (bc_options c) as [o|]; simpl; [|naive_solver].
    pose proof (bond_opts_accepts up o ((current ≫= bond) ≫= bc_options) mode) as Hacc.
    destruct (bond_opts_sanitize _ _ _ _); simpl in *; naive_solver. }
  destruct (queue_ids_overlap ∅ _) eqn:E.
  - split; [naive_solver|]. intros [?|(m & [= <-] & _ & Hnd)]; [done|].
    assert (true = false) by (apply Hq; split; [done|set_solver]). done.
  - destruct Hq as [[Hnd _] _]; [done|]. split.
    + intros (a & Hr & _). right. exists mode. split; [done|]. split; [|done]. apply Ho. by rewrite Hr.
    + intros [?|(m & [= <-] & Hv & _)]; [done|]. apply Ho in Hv.
      apply is_ok_Ok in Hv as [a Hr]. exists a. split; [exact Hr|done].
Qed.

(** What is saved, verified and merged of the bond section is what is applied:
    the difference to the current state. *)
Lemma bond_sanitize_sections up desired current t t' :
  bond_sanitize up desired current t = Ok t' → bi_state (bond_base desired) ≠ SAbsent →
  bond (t_save t') = bond (t_apply t') ∧ bond (t_verify t') = bond (t_apply t') ∧
  bond (t_merged t') = bond (t_apply t').
Proof.
  unfold bond_sanitize, state_is_absent. intros H Ha. case_bool_decide as Hs; [done|].
  destruct (option_or _ _) as [mode|]; [|done].
  destruct (match bond (t_apply t) with Some _ => _ | None => _ end) as [a|]; [|done].
  simpl in H. destruct (check_overlap_queue_id desired); [|done]. by injection H as <-.
Qed.

Definition ex_bond (conf : option BondConfig) : BondInterface :=
  bond_interface (base_new "bond0" TBond) conf.

Definition ex_bond_conf : BondConfig :=
  bond_config (Some ActiveBackup) None (Some [bond_port_config "eth1" None None]).

(** Only the MTU of the saved bond changes: the difference has no bond section,
    and the saved configuration loses its mode and its ports. *)
Example unchanged_bond_is_not_saved up :
  let desired := set_bond_base (set_bi_mtu (Some 9000) (base_new "bond0" TBond)) (ex_bond None) in
  match bond_sanitize up desired (Some (ex_bond (Some ex_bond_conf)))
          (targets (set_bond (Some ex_bond_conf) desired) desired desired
             (set_bond (Some ex_bond_conf) desired)) with
  | Ok t' => bond (t_save t') = None ∧ bond (t_merged t') = None
  | Err _ => False
  end.
Proof. split; reflexivity. Qed.

(** The kernel wants two hexadecimal digits per byte; a sign passes as one. *)
Example signed_mac_bytes_are_accepted :
  parse_eth_mac "+2:+0:+0:+0:+0:+1" = Ok [2; 0; 0; 0; 0; 1].
Proof. vm_compute. reflexivity. Qed.
