(* ===== verification/LinuxBridge.v ===== *)
(** * LinuxBridge: [src/lib/schema/ifaces/linux_bridge.rs]

    Linux bridges: the sanitizing of the bridge section, VLAN filtering, the
    context of a difference, and what is adjusted before a verification.
    [LinuxBridgeOptions] keeps the options the code reads or changes. *)

From S2P Require Export BaseIface BridgeVlan.

#[local] Open Scope Z_scope.

(** ** Data *)

Record LinuxBridgeStpOptions : Type := stp_options {
  stp_enabled : option bool;
  stp_forward_delay : option Z;
  stp_hello_time : option Z;
  stp_max_age : option Z;
  stp_option_priority : option Z;
}.

#[export] Instance LinuxBridgeStpOptions_eq_dec : EqDecision LinuxBridgeStpOptions.
Proof. solve_decision. Defined.

Record LinuxBridgePortConfig : Type := bridge_port_config {
  lbp_name : string;
  lbp_stp_hairpin_mode : option bool;
  lbp_stp_path_cost : option Z;
  lbp_stp_priority : option Z;
  lbp_vlan : option BridgeVlanConfig;
}.

#[export] Instance LinuxBridgePortConfig_eq_dec : EqDecision LinuxBridgePortConfig.
Proof. solve_decision. Defined.

(** The six options the kernel rounds. *)
Record MulticastIntervals : Type := multicast_intervals {
  last_member_interval : option Z;
  membership_interval : option Z;
  querier_interval : option Z;
  query_interval : option Z;
  query_response_interval : option Z;
  startup_query_interval : option Z;
}.

#[export] Instance MulticastIntervals_eq_dec : EqDecision MulticastIntervals.
Proof. solve_decision. Defined.

Record LinuxBridgeOptions : Type := bridge_options {
  lbo_gc_timer : option Z;
  lbo_group_addr : option string;
  lbo_group_forward_mask : option Z;
  lbo_group_fwd_mask : option Z;
  lbo_hello_timer : option Z;
  lbo_multicast : MulticastIntervals;
  lbo_stp : option LinuxBridgeStpOptions;
  lbo_vlan_default_pvid : option Z;
}.

#[export] Instance LinuxBridgeOptions_eq_dec : EqDecision LinuxBridgeOptions.
Proof. solve_decision. Defined.

Record LinuxBridgeConfig : Type := bridge_config {
  lbc_options : option LinuxBridgeOptions;
  lbc_ports : option (list LinuxBridgePortConfig);
  lbc_vlan : option BridgeVlanConfig;
}.

#[export] Instance LinuxBridgeConfig_eq_dec : EqDecision LinuxBridgeConfig.
Proof. solve_decision. Defined.

Record LinuxBridgeInterface : Type := linux_bridge_interface {
  bridge_base : BaseInterface;
  bridge : option LinuxBridgeConfig;
}.

#[export] Instance LinuxBridgeInterface_eq_dec : EqDecision LinuxBridgeInterface.
Proof. solve_decision. Defined.

Definition set_bridge (b : option LinuxBridgeConfig) (i : LinuxBridgeInterface) :
    LinuxBridgeInterface := linux_bridge_interface (bridge_base i) b.

Definition map_options (f : LinuxBridgeOptions → LinuxBridgeOptions) (c : LinuxBridgeConfig) :
    LinuxBridgeConfig := bridge_config (f <$> lbc_options c) (lbc_ports c) (lbc_vlan c).

Definition set_port_vlan (v : option BridgeVlanConfig) (p : LinuxBridgePortConfig) :
    LinuxBridgePortConfig :=
  bridge_port_config (lbp_name p) (lbp_stp_hairpin_mode p) (lbp_stp_path_cost p)
    (lbp_stp_priority p) v.

(** ** Reading *)

(** [LinuxBridgeInterface::ports], [get_port_conf]. *)
Definition linux_bridge_ports (self : LinuxBridgeInterface) : option (list string) :=
  bridge self ≫= λ br_conf, map lbp_name <$> lbc_ports br_conf.

Definition get_port_conf (self : LinuxBridgeInterface) (port_name : string) :
    option LinuxBridgePortConfig :=
  (bridge self ≫= lbc_ports) ≫=
    List.find (λ port_conf, String.eqb (lbp_name port_conf) port_name).

Definition vlan_conf_set (v : option BridgeVlanConfig) : bool :=
  match v with Some vlan_conf => negb (bridge_vlan_is_empty vlan_conf) | None => false end.

(** [_vlan_filtering_is_enabled], [vlan_filtering_is_enabled]. *)
Definition filters_vlan (self : LinuxBridgeInterface) : bool :=
  match bridge self with
  | Some br_conf =>
      vlan_conf_set (lbc_vlan br_conf) ||
      existsb (λ port_conf, vlan_conf_set (lbp_vlan port_conf)) (default [] (lbc_ports br_conf))
  | None => false
  end.

Definition vlan_filtering_is_enabled (self : LinuxBridgeInterface)
    (current : option LinuxBridgeInterface) : bool :=
  let of_current := match current with Some c => filters_vlan c | None => false end in
  match bridge self with
  | Some br_conf =>
      if bool_decide (lbc_vlan br_conf ≠ None) || bool_decide (lbc_ports br_conf ≠ None)
      then filters_vlan self else of_current
  | None => of_current
  end.

(** ** [sanitize] *)

(** [LinuxBridgeStpOptions::sanitize]. *)
Definition in_range (lo hi : Z) (v : option Z) : bool :=
  match v with Some x => (lo <=? x) && (x <=? hi) | None => true end.

Definition HELLO_TIME_MAX : Z := 10.
Definition HELLO_TIME_MIN : Z := 1.
Definition MAX_AGE_MAX : Z := 40.
Definition MAX_AGE_MIN : Z := 6.
Definition FORWARD_DELAY_MAX : Z := 30.
Definition FORWARD_DELAY_MIN : Z := 2.

Definition stp_sanitize (self : LinuxBridgeStpOptions) : res unit :=
  if negb (in_range HELLO_TIME_MIN HELLO_TIME_MAX (stp_hello_time self)) then fail InvalidArgument
  else if negb (in_range MAX_AGE_MIN MAX_AGE_MAX (stp_max_age self)) then fail InvalidArgument
  else if negb (in_range FORWARD_DELAY_MIN FORWARD_DELAY_MAX (stp_forward_delay self))
  then fail InvalidArgument
  else Ok tt.

Definition set_masks (forward fwd : option Z) (o : LinuxBridgeOptions) : LinuxBridgeOptions :=
  bridge_options (lbo_gc_timer o) (lbo_group_addr o) forward fwd (lbo_hello_timer o)
    (lbo_multicast o) (lbo_stp o) (lbo_vlan_default_pvid o).

(** [LinuxBridgeOptions::sanitize_group_fwd_mask]. *)
Definition sanitize_group_fwd_mask (self : LinuxBridgeOptions) : res LinuxBridgeOptions :=
  match lbo_group_forward_mask self, lbo_group_fwd_mask self with
  | Some v1, Some v2 =>
      if negb (v1 =? v2) then fail InvalidArgument else Ok (set_masks None (Some v1) self)
  | Some v, None | None, Some v => Ok (set_masks None (Some v) self)
  | None, None => Ok self
  end.

(** [LinuxBridgeOptions::validate_vlan_default_pvid] of the desired bridge. *)
Definition validate_vlan_default_pvid (linux_bridge : LinuxBridgeInterface)
    (current : option LinuxBridgeInterface) : res unit :=
  match (bridge linux_bridge ≫= lbc_options) ≫= lbo_vlan_default_pvid with
  | Some pvid =>
      if negb (pvid =? 1) && negb (vlan_filtering_is_enabled linux_bridge current)
      then fail InvalidArgument else Ok tt
  | None => Ok tt
  end.

Definition sort_bridge_ports : list LinuxBridgePortConfig → list LinuxBridgePortConfig :=
  sort_by string_cmp lbp_name.

(** [sort_ports], [use_upper_case_of_mac_address], [compress_port_vlan_ranges],
    [remove_runtime_only_timers] on the bridge section. *)
Definition sort_ports (c : LinuxBridgeConfig) : LinuxBridgeConfig :=
  bridge_config (lbc_options c) (sort_bridge_ports <$> lbc_ports c) (lbc_vlan c).

Definition use_upper_case_of_mac_address (c : LinuxBridgeConfig) : LinuxBridgeConfig :=
  map_options (λ o, bridge_options (lbo_gc_timer o) (to_ascii_uppercase <$> lbo_group_addr o)
    (lbo_group_forward_mask o) (lbo_group_fwd_mask o) (lbo_hello_timer o) (lbo_multicast o)
    (lbo_stp o) (lbo_vlan_default_pvid o)) c.

Definition compress_vlan_ranges (c : LinuxBridgeConfig) : LinuxBridgeConfig :=
  bridge_config (lbc_options c)
    (map (λ p, set_port_vlan (compress_port_vlan_ranges <$> lbp_vlan p) p) <$> lbc_ports c)
    (compress_port_vlan_ranges <$> lbc_vlan c).

Definition remove_runtime_only_timers (c : LinuxBridgeConfig) : LinuxBridgeConfig :=
  map_options (λ o, bridge_options None (lbo_group_addr o) (lbo_group_forward_mask o)
    (lbo_group_fwd_mask o) None (lbo_multicast o) (lbo_stp o) (lbo_vlan_default_pvid o)) c.

Definition port_vlan_sanitize (p : LinuxBridgePortConfig) : res LinuxBridgePortConfig :=
  match lbp_vlan p with
  | Some vlan_conf =>
      let? vlan_conf := bridge_vlan_sanitize vlan_conf in
      Ok (set_port_vlan (Some vlan_conf) p)
  | None => Ok p
  end.

(** The [bridge] section of [for_apply]. *)
Definition bridge_conf_sanitize (c : LinuxBridgeConfig) : res LinuxBridgeConfig :=
  let? options :=
    match lbc_options c with
    | Some o => let? o := sanitize_group_fwd_mask o in Ok (Some o)
    | None => Ok None
    end in
  let c := sort_ports (bridge_config options (lbc_ports c) (lbc_vlan c)) in
  let? _ := match lbc_options c ≫= lbo_stp with Some stp => stp_sanitize stp | None => Ok tt end in
  let c := remove_runtime_only_timers (compress_vlan_ranges (use_upper_case_of_mac_address c)) in
  let? ports :=
    match lbc_ports c with
    | Some ports => let? ports := map_result port_vlan_sanitize ports in Ok (Some ports)
    | None => Ok None
    end in
  Ok (bridge_config (lbc_options c) ports (lbc_vlan c)).

(** [NipartInterface::sanitize for LinuxBridgeInterface]. *)
Definition linux_bridge_sanitize (self : LinuxBridgeInterface)
    (current : option LinuxBridgeInterface) (t : Targets LinuxBridgeInterface) :
    res (Targets LinuxBridgeInterface) :=
  let? _ := validate_vlan_default_pvid self current in
  let? conf :=
    match bridge (t_apply t) with
    | Some c => let? c := bridge_conf_sanitize c in Ok (Some c)
    | None => Ok None
    end in
  Ok (map_targets (set_bridge conf) t).

(** ** Differences, verification and renaming *)

(** [NipartInterface::include_diff_context for LinuxBridgeInterface]. *)
Definition diff_port (desired current : LinuxBridgeInterface) (p : LinuxBridgePortConfig) :
    LinuxBridgePortConfig :=
  match get_port_conf current (lbp_name p), get_port_conf desired (lbp_name p) with
  | Some cur_port, Some des_port =>
      if bool_decide (lbp_vlan des_port ≠ lbp_vlan cur_port)
      then set_port_vlan (lbp_vlan des_port) p else p
  | _, _ => p
  end.

Definition bridge_or_default (i : LinuxBridgeInterface) : LinuxBridgeConfig :=
  default (bridge_config None None None) (bridge i).

Definition linux_bridge_include_diff_context (self desired current : LinuxBridgeInterface) :
    LinuxBridgeInterface :=
  let diff :=
    match bridge desired ≫= lbc_ports, bridge current ≫= lbc_ports with
    | Some des_ports, Some cur_ports =>
        if bool_decide (des_ports ≠ cur_ports) then
          let c := bridge_or_default self in
          set_bridge (Some (bridge_config (lbc_options c)
            (Some (map (diff_port desired current) des_ports)) (lbc_vlan c))) self
        else self
    | _, _ => self
    end in
  match bridge desired ≫= lbc_vlan, bridge current ≫= lbc_vlan with
  | Some des_vlan, Some cur_vlan =>
      if bool_decide (des_vlan ≠ cur_vlan) then
        let c := bridge_or_default diff in
        set_bridge (Some (bridge_config (lbc_options c) (lbc_ports c) (Some des_vlan))) diff
      else diff
  | _, _ => diff
  end.

(** [fix_round_up]: the kernel may report one less than it was told. *)
Definition round_up (des cur : option Z) : option Z :=
  match des, cur with
  | Some des_value, Some cur_value =>
      if (cur_value <? des_value) && (des_value - cur_value =? 1) then Some (cur_value + 1)
      else Some cur_value
  | _, _ => cur
  end.

Definition fix_intervals (d c : MulticastIntervals) : MulticastIntervals :=
  multicast_intervals
    (round_up (last_member_interval d) (last_member_interval c))
    (round_up (membership_interval d) (membership_interval c))
    (round_up (querier_interval d) (querier_interval c))
    (round_up (query_interval d) (query_interval c))
    (round_up (query_response_interval d) (query_response_interval c))
    (round_up (startup_query_interval d) (startup_query_interval c)).

Definition fix_round_up (desired current : LinuxBridgeInterface) : LinuxBridgeInterface :=
  match bridge desired ≫= lbc_options with
  | Some des_opts =>
      set_bridge (map_options (λ o, bridge_options (lbo_gc_timer o) (lbo_group_addr o)
        (lbo_group_forward_mask o) (lbo_group_fwd_mask o) (lbo_hello_timer o)
        (fix_intervals (lbo_multicast des_opts) (lbo_multicast o)) (lbo_stp o)
        (lbo_vlan_default_pvid o)) <$> bridge current) current
  | None => current
  end.

(** [NipartInterface::sanitize_before_verify]: the current state changes. *)
Definition linux_bridge_sanitize_before_verify (self current : LinuxBridgeInterface) :
    LinuxBridgeInterface :=
  fix_round_up self (set_bridge (sort_ports <$> bridge current) current).

Definition bridge_port_rename (org_port_name new_port_name : string) :
    list LinuxBridgePortConfig → option (list LinuxBridgePortConfig) :=
  fix go ports :=
    match ports with
    | [] => None
    | p :: ports' =>
        if String.eqb (lbp_name p) org_port_name
        then Some (bridge_port_config new_port_name (lbp_stp_hairpin_mode p) (lbp_stp_path_cost p)
                     (lbp_stp_priority p) (lbp_vlan p) :: ports')
        else cons p <$> go ports'
    end.

(** [LinuxBridgeInterface::change_port_name]. *)
Definition linux_bridge_change_port_name (self : LinuxBridgeInterface)
    (org_port_name new_port_name : string) : res LinuxBridgeInterface :=
  match bridge self ≫= λ c, pair c <$> (lbc_ports c ≫= bridge_port_rename org_port_name new_port_name)
  with
  | Some (c, ports) => Ok (set_bridge (Some (bridge_config (lbc_options c) (Some ports) (lbc_vlan c))) self)
  | None => fail InvalidArgument
  end.

(** ** The sanitized section *)


(** ** The sanitized section *)

Definition port_tags (p : LinuxBridgePortConfig) : option (list BridgeVlanTrunkTag) :=
  lbp_vlan p ≫= bvc_trunk_tags.

(** The VLAN IDs of a section stay below the last one, whose ranges wrap. *)
Definition vlan_ids_ok (c : LinuxBridgeConfig) : Prop :=
  (∀ p tags, p ∈ default [] (lbc_ports c) → port_tags p = Some tags → Forall is_vid (tags_ids tags)) ∧
  (∀ tags, lbc_vlan c ≫= bvc_trunk_tags = Some tags → Forall is_vid (tags_ids tags)).

(** The form every sanitized section has. *)
Record bridge_canonical (c : LinuxBridgeConfig) : Prop := {
  bcan_sorted : ∀ ports, lbc_ports c = Some ports →
    StronglySorted (key_le string_cmp lbp_name) ports;
  bcan_port_tags : ∀ p tags, p ∈ default [] (lbc_ports c) → port_tags p = Some tags → canonical tags;
  bcan_tags : ∀ tags, lbc_vlan c ≫= bvc_trunk_tags = Some tags → canonical tags;
  bcan_timers : ∀ o, lbc_options c = Some o → lbo_gc_timer o = None ∧ lbo_hello_timer o = None;
  bcan_mask : ∀ o, lbc_options c = Some o → lbo_group_forward_mask o = None;
  bcan_stp : ∀ s, lbc_options c ≫= lbo_stp = Some s →
    in_range 1 10 (stp_hello_time s) = true ∧ in_range 6 40 (stp_max_age s) = true ∧
    in_range 2 30 (stp_forward_delay s) = true;
}.

Lemma stp_sanitize_iff s :
  stp_sanitize s = Ok tt ↔
  in_range 1 10 (stp_hello_time s) = true ∧ in_range 6 40 (stp_max_age s) = true ∧
  in_range 2 30 (stp_forward_delay s) = true.
Proof.
  unfold stp_sanitize, HELLO_TIME_MIN, HELLO_TIME_MAX, MAX_AGE_MIN, MAX_AGE_MAX,
    FORWARD_DELAY_MIN, FORWARD_DELAY_MAX.
  destruct (in_range 1 10 _), (in_range 6 40 _), (in_range 2 30 _); simpl; naive_solver.
Qed.

Lemma port_vlan_sanitize_ok p p' :
  port_vlan_sanitize p = Ok p' →
  lbp_name p' = lbp_name p ∧ port_tags p' = port_tags p ∧
  (∀ v, lbp_vlan p = Some v → vlan_acceptable v).
Proof.
  unfold port_vlan_sanitize, port_tags. destruct (lbp_vlan p) as [v|] eqn:Ev; simpl.
  - destruct (bridge_vlan_sanitize v) as [v'|] eqn:E; [|done]. intros [= <-]. simpl.
    destruct (bridge_vlan_sanitize_spec v) as [Hacc Heq]. rewrite (Heq v' E).
    split; [done|]. split; [by destruct v as [? [] ? []]|].
    intros ? [= <-]. apply Hacc. by rewrite E.
  - intros [= <-]. by rewrite Ev.
Qed.

Lemma compressed_canonical v tags :
  (∀ t, bvc_trunk_tags v = Some t → Forall is_vid (tags_ids t)) →
  bvc_trunk_tags (compress_port_vlan_ranges v) = Some tags → canonical tags.
Proof.
  unfold compress_port_vlan_ranges. intros Hv. destruct (bvc_trunk_tags v) as [t|] eqn:E.
  - intros [= <-]. by apply compress_vlan_ids_spec, Hv.
  - by rewrite E.
Qed.

(** The ports of the sanitized section, one by one. *)
Definition port_result (p p' : LinuxBridgePortConfig) : Prop :=
  lbp_name p' = lbp_name p ∧
  port_tags p' = (compress_port_vlan_ranges <$> lbp_vlan p) ≫= bvc_trunk_tags.

Lemma ports_sanitized (l ps : list LinuxBridgePortConfig) :
  map_result port_vlan_sanitize
    (map (λ p, set_port_vlan (compress_port_vlan_ranges <$> lbp_vlan p) p) l) = Ok ps →
  Forall2 port_result l ps.
Proof.
  intros Hm. apply map_result_Forall2, Forall2_fmap_l in Hm.
  eapply Forall2_impl; [exact Hm|]. intros p p' Hpp'. apply port_vlan_sanitize_ok in Hpp'.
  unfold port_result. naive_solver.
Qed.

Lemma port_result_names l ps : Forall2 port_result l ps → lbp_name <$> l = lbp_name <$> ps.
Proof. induction 1 as [|??? ? [Hn _] _ IH]; [done|]. rewrite !fmap_cons. by f_equal. Qed.

Lemma ports_canonical l ps :
  (∀ p tags, p ∈ l → port_tags p = Some tags → Forall is_vid (tags_ids tags)) →
  Forall2 port_result l ps →
  ∀ p tags, p ∈ ps → port_tags p = Some tags → canonical tags.
Proof.
  intros Hp Hf p tags Hin Ht. destruct (Forall2_elem_r _ _ _ _ Hf Hin) as (q & Hq & _ & Hqt).
  rewrite Hqt in Ht. unfold port_tags in Hp. destruct (lbp_vlan q) as [v|] eqn:Evq; [|done].
  apply (compressed_canonical v); [|done]. intros t Hvt. apply (Hp q t Hq). by rewrite Evq.
Qed.

Lemma masks_unified o o' : sanitize_group_fwd_mask o = Ok o' → lbo_group_forward_mask o' = None.
Proof.
  unfold sanitize_group_fwd_mask.
  destruct (lbo_group_forward_mask o) eqn:E1, (lbo_group_fwd_mask o); try destruct (negb _);
    try done; by intros [= <-].
Qed.

(** The section an apply sends has its ports sorted by name, its trunk tags in the
    one canonical form, one name for the forward mask, no run-time timers and the
    spanning tree options in the ranges of the kernel; no port is lost or added. *)
Theorem bridge_conf_sanitize_canonical c c' :
  bridge_conf_sanitize c = Ok c' → vlan_ids_ok c →
  bridge_canonical c' ∧
  ∀ ports, lbc_ports c = Some ports →
    ∃ ports', lbc_ports c' = Some ports' ∧ (lbp_name <$> ports') ≡ₚ (lbp_name <$> ports).
Proof.
  unfold bridge_conf_sanitize. intros H [Hp Hv].
  destruct (match lbc_options c with Some _ => _ | None => _ end) as [opts|] eqn:Eo; [|done].
  cbn in H. destruct (match opts ≫= lbo_stp with Some _ => _ | None => _ end) as [[]|] eqn:Es;
    [|done].
  cbn in H. destruct (match map _ <$> _ with Some _ => _ | None => _ end) as [ports|] eqn:Ep;
    [|done].
  cbn in H. injection H as <-.
  assert (∀ ps, ports = Some ps → ∃ l, lbc_ports c = Some l ∧
            Forall2 port_result (sort_bridge_ports l) ps) as Hps.
  { intros ps ->. destruct (lbc_ports c) as [l|]; [|done]. exists l. split; [done|]. cbn in Ep.
    destruct (map_result _ _) as [ps'|] eqn:Em; [|done]. injection Ep as ->.
    by apply ports_sanitized. }
  split; [constructor; cbn|].
  - intros ps Hps'. destruct (Hps ps Hps') as (l & _ & Hf).
    apply (sorted_same_keys string_cmp lbp_name (sort_bridge_ports l));
      [by apply port_result_names|apply (sort_by_sorted string_cmp lbp_name)].
  - intros p tags Hin. destruct ports as [ps|]; [|by apply elem_of_nil in Hin].
    destruct (Hps ps eq_refl) as (l & Hl & Hf).
    apply (ports_canonical (sort_bridge_ports l) ps); [|done|done]. intros q t Hq. apply Hp.
    rewrite Hl. by apply (elem_of_sort_by string_cmp lbp_name q l).
  - intros tags Ht. destruct (lbc_vlan c) as [v|]; [|done]. by apply (compressed_canonical v).
  - intros o Ho. destruct opts; [|done]. by injection Ho as <-.
  - intros o Ho. destruct opts; [|done]. injection Ho as <-. cbn.
    destruct (lbc_options c) as [o0|]; [|done]. destruct (sanitize_group_fwd_mask o0) eqn:E;
      [|done]. injection Eo as <-. by apply masks_unified in E.
  - intros s Hs. apply stp_sanitize_iff. destruct opts; [|done]. cbn in *. by rewrite Hs in Es.
  - intros l Hl. rewrite Hl in Ep. cbn in Ep. destruct (map_result _ _) as [ps|] eqn:Em; [|done].
    injection Ep as <-. exists ps. split; [done|]. apply ports_sanitized, port_result_names in Em.
    rewrite <- Em. apply fmap_Permutation, sort_by_perm.
Qed.

Definition ex_bridge_conf : LinuxBridgeConfig :=
  bridge_config
    (Some (bridge_options (Some 5) (Some "01:80:c2:00:00:0e") (Some 8) None None
       (multicast_intervals None None None None None None)
       (Some (stp_options (Some true) (Some 16) None None None)) None))
    (Some [bridge_port_config "eth2" None None None None;
           bridge_port_config "eth1" None None None
             (Some (bridge_vlan_config None None None
                (Some [TagId 12; TagIdRange (bridge_vlan_range 10 12)])))]) None.

Lemma bridge_conf_sanitize_canonical_witness :
  ∃ c', bridge_conf_sanitize ex_bridge_conf = Ok c' ∧ bridge_canonical c'.
Proof.
  destruct (bridge_conf_sanitize ex_bridge_conf) as [c'|] eqn:E; [|by vm_compute in E].
  exists c'. split; [done|]. apply (bridge_conf_sanitize_canonical ex_bridge_conf c' E).
  split; [|done]. intros p tags Hp Ht. cbn in Hp.
  apply elem_of_cons in Hp as [->|Hp]; [done|]. apply list_elem_of_singleton in Hp as ->.
  injection Ht as <-. vm_compute tags_ids.
  repeat (apply Forall_cons; split; [unfold is_vid; lia|]). constructor.
Defined.

(** The same trunk ID twice: the bridge compresses the tags before the overlap
    check looks at them. *)
Example overlapping_tags_are_accepted : is_ok (bridge_conf_sanitize ex_bridge_conf) = true.
Proof. vm_compute. reflexivity. Qed.

(** The section of the bridge itself is compressed but never checked. *)
Example bridge_vlan_is_not_checked :
  let v := bridge_vlan_config (Some true) (Some Access) None (Some [TagId 7]) in
  is_ok (bridge_vlan_sanitize v) = false ∧
  is_ok (bridge_conf_sanitize (bridge_config None None (Some v))) = true.
Proof. vm_compute. split; reflexivity. Qed.

(** ** Verification *)

Lemma round_up_spec des cur :
  (∀ d c, des = Some d → cur = Some c → c = d ∨ c = d - 1) → des ≠ None → cur ≠ None →
  round_up des cur = des.
Proof.
  destruct des as [d|], cur as [c|]; try done. intros H _ _. simpl.
  destruct (H d c eq_refl eq_refl) as [-> | ->].
  - by rewrite Z.ltb_irrefl.
  - destruct (Z.ltb_spec (d - 1) d); [|lia]. replace (d - (d - 1)) with 1 by lia. simpl.
    f_equal. lia.
Qed.

(** Renaming a port keeps the other ports and the order. *)
Lemma bridge_port_rename_spec org new ports ports' :
  bridge_port_rename org new ports = Some ports' →
  ∃ l p k, ports = l ++ p :: k ∧ lbp_name p = org ∧ org ∉ (lbp_name <$> l) ∧
    lbp_name <$> ports' = (lbp_name <$> l) ++ new :: (lbp_name <$> k).
Proof.
  revert ports'. induction ports as [|p ports IH]; intros ports' H; [done|]. simpl in H.
  destruct (String.eqb_spec (lbp_name p) org) as [Hp|Hp].
  - injection H as <-. exists [], p, ports. repeat split; [done|set_solver].
  - destruct (bridge_port_rename org new ports) as [ps|] eqn:E; [|done]. injection H as <-.
    destruct (IH ps eq_refl) as (l & q & k & -> & Hq & Hni & Hn).
    exists (p :: l), q, k. repeat split; [done|set_solver|]. rewrite !fmap_cons, Hn. done.
Qed.
