(* ===== verification/Kinds.v ===== *)
(** * Kinds: the interface kinds with a section of their own

    [src/lib/schema/ifaces/vlan.rs], [vxlan.rs], [macsec.rs], [vrf.rs],
    [ovs_bridge.rs], [ovs_iface.rs], [ethernet.rs], [loopback.rs]: what a desired
    interface must define, what is copied from the current one, and which changes
    need the interface to be deleted and created again.  A kind is the record of
    its base and its optional section ([Kind]); the sections of VXLAN and MACsec
    keep the properties that the checks read. *)

From S2P Require Export BaseIface JsonValue.

#[local] Open Scope Z_scope.

(** ** Data *)

(** [struct XInterface { base: BaseInterface, x: Option<XConfig> }]. *)
Record Kind (C : Type) : Type := kind_iface {
  k_base : BaseInterface;
  k_conf : option C;
}.

Arguments kind_iface {C}.
Arguments k_base {C}.
Arguments k_conf {C}.

#[export] Instance Kind_eq_dec `{EqDecision C} : EqDecision (Kind C).
Proof. solve_decision. Defined.

Definition set_conf {C} (c : option C) (i : Kind C) : Kind C := kind_iface (k_base i) c.
Definition set_k_base {C} (b : BaseInterface) (i : Kind C) : Kind C := kind_iface b (k_conf i).
Definition map_conf {C} (f : C → C) (i : Kind C) : Kind C := set_conf (f <$> k_conf i) i.
Definition k_is_absent {C} (i : Kind C) : bool := state_is_absent (bi_state (k_base i)).
Definition k_is_up {C} (i : Kind C) : bool := state_is_up (bi_state (k_base i)).

(** [VethConfig::peer]. *)
Definition VethConfig : Type := string.

Record VrfConfig : Type := vrf_config {
  vrf_ports : option (list string);
  vrf_table_id : option Z;
}.

#[export] Instance VrfConfig_eq_dec : EqDecision VrfConfig.
Proof. solve_decision. Defined.

(** [OvsBridgeConfig::ports], a list of [OvsBridgePortConfig { name }]. *)
Definition OvsBridgeConfig : Type := option (list string).

Inductive VlanProtocol : Type := Ieee8021Q | Ieee8021Ad | VlanProtocolUnknown.

#[export] Instance VlanProtocol_eq_dec : EqDecision VlanProtocol.
Proof. solve_decision. Defined.

Inductive VlanRegistrationProtocol : Type := Gvrp | Mvrp | NoRegistration.

#[export] Instance VlanRegistrationProtocol_eq_dec : EqDecision VlanRegistrationProtocol.
Proof. solve_decision. Defined.

Record VlanQosMapping : Type := vlan_qos_mapping {
  qos_from : Z;
  qos_to : Z;
}.

#[export] Instance VlanQosMapping_eq_dec : EqDecision VlanQosMapping.
Proof. solve_decision. Defined.

Record VlanConfig : Type := vlan_config {
  vlan_base_iface : option string;
  vlan_id : option Z;
  vlan_protocol : option VlanProtocol;
  vlan_registration_protocol : option VlanRegistrationProtocol;
  vlan_reorder_headers : option bool;
  vlan_loose_binding : option bool;
  vlan_bridge_binding : option bool;
  vlan_ingress_qos_map : option (list VlanQosMapping);
  vlan_egress_qos_map : option (list VlanQosMapping);
}.

#[export] Instance VlanConfig_eq_dec : EqDecision VlanConfig.
Proof. solve_decision. Defined.

Record VxlanConfig : Type := vxlan_config {
  vx_id : option Z;
  vx_base_iface : option string;
  vx_remote : option string;
  vx_local : option string;
  vx_destination_port : option Z;
  vx_max_address : option Z;
  vx_src_port_min : option Z;
  vx_src_port_max : option Z;
  vx_proxy : option bool;
  vx_rsc : option bool;
  vx_l2miss : option bool;
  vx_l3miss : option bool;
  vx_udp_check_sum : option bool;
  vx_udp6_zero_check_sum_tx : option bool;
  vx_udp6_zero_check_sum_rx : option bool;
  vx_remote_check_sum_tx : option bool;
  vx_remote_check_sum_rx : option bool;
  vx_gbp : option bool;
  vx_remote_check_sum_no_partial : option bool;
  vx_collect_metadata : option bool;
  vx_gpe : option bool;
  vx_ttl_inherit : option bool;
}.

Record MacSecConfig : Type := macsec_config {
  ms_base_iface : string;
  ms_mka_cak : option string;
  ms_mka_ckn : option string;
  ms_sci : option Z;
  ms_port : option Z;
  ms_send_sci : option bool;
}.

#[export] Instance MacSecConfig_eq_dec : EqDecision MacSecConfig.
Proof. solve_decision. Defined.

Definition VrfInterface : Type := Kind VrfConfig.
Definition OvsBridgeInterface : Type := Kind OvsBridgeConfig.
Definition EthernetInterface : Type := Kind VethConfig.
Definition VlanInterface : Type := Kind VlanConfig.
Definition VxlanInterface : Type := Kind VxlanConfig.
Definition MacSecInterface : Type := Kind MacSecConfig.

(** A property is defined and differs from the current one. *)
Definition changed {A} `{EqDecision A} (des cur : option A) : bool :=
  bool_decide (des ≠ None) && negb (bool_decide (des = cur)).

(** ** Ethernet and veth *)

Definition ethernet_sanitize (self : EthernetInterface) (current : option EthernetInterface) :
    res unit :=
  match current, k_conf self with
  | None, None => if k_is_up self then fail InvalidArgument else Ok tt
  | _, _ => Ok tt
  end.

Definition ethernet_need_delete (self current : EthernetInterface) : bool :=
  match k_conf self, k_conf current with
  | Some des_peer, Some cur_peer => negb (String.eqb des_peer cur_peer)
  | _, _ => false
  end.

(** ** VLAN *)

Definition qos_key (q : VlanQosMapping) : Z * Z := (qos_from q, qos_to q).
Definition qos_cmp : Z * Z → Z * Z → comparison := pair_cmp Z.compare Z.compare.
Definition sanitize_qos_map (l : list VlanQosMapping) : list VlanQosMapping :=
  dedup qos_cmp qos_key (sort_by qos_cmp qos_key l).

(** [VlanConfig::sanitize]. *)
Definition vlan_config_sanitize (c : VlanConfig) : VlanConfig :=
  vlan_config (vlan_base_iface c) (vlan_id c) (vlan_protocol c) (vlan_registration_protocol c)
    (vlan_reorder_headers c) (vlan_loose_binding c) (vlan_bridge_binding c)
    (sanitize_qos_map <$> vlan_ingress_qos_map c) (sanitize_qos_map <$> vlan_egress_qos_map c).

Definition set_vlan_parent (base_iface : option string) (id : option Z) (c : VlanConfig) :
    VlanConfig :=
  vlan_config base_iface id (vlan_protocol c) (vlan_registration_protocol c)
    (vlan_reorder_headers c) (vlan_loose_binding c) (vlan_bridge_binding c)
    (vlan_ingress_qos_map c) (vlan_egress_qos_map c).

Definition fill_vlan_parent (cur c : VlanConfig) : VlanConfig :=
  set_vlan_parent (option_or (vlan_base_iface c) (vlan_base_iface cur))
    (option_or (vlan_id c) (vlan_id cur)) c.

(** [NipartInterface::sanitize for VlanInterface]. *)
Definition vlan_sanitize (self : VlanInterface) (current : option VlanInterface)
    (t : Targets VlanInterface) : res (Targets VlanInterface) :=
  if k_is_absent self then Ok t
  else
    let? _ :=
      match current, k_conf self with
      | None, None => fail InvalidArgument
      | None, Some des_vlan_conf =>
          if bool_decide (vlan_base_iface des_vlan_conf = None) then fail InvalidArgument
          else if bool_decide (vlan_id des_vlan_conf = None) then fail InvalidArgument
          else Ok tt
      | Some _, _ => Ok tt
      end in
    let t :=
      match k_conf (t_apply t), current ≫= k_conf with
      | Some vlan_conf, Some cur_vlan_conf =>
          let vlan_conf := fill_vlan_parent cur_vlan_conf vlan_conf in
          targets
            (map_conf (set_vlan_parent (vlan_base_iface vlan_conf) (vlan_id vlan_conf)) (t_save t))
            (set_conf (Some vlan_conf) (t_apply t)) (t_verify t) (t_merged t)
      | _, _ => t
      end in
    Ok (map_targets (map_conf vlan_config_sanitize) t).

(** [include_diff_context], [sanitize_before_verify], [need_delete_before_change]. *)
Definition vlan_include_diff_context (self desired current : VlanInterface) : VlanInterface :=
  match k_conf desired, k_conf current with
  | Some des_vlan_conf, Some cur_vlan_conf =>
      if bool_decide (des_vlan_conf ≠ cur_vlan_conf)
      then set_conf (Some (fill_vlan_parent cur_vlan_conf des_vlan_conf)) self else self
  | _, _ => self
  end.

Definition vlan_sanitize_before_verify (current : VlanInterface) : VlanInterface :=
  map_conf (λ c, vlan_config (vlan_base_iface c) (vlan_id c) (vlan_protocol c)
    (vlan_registration_protocol c) (vlan_reorder_headers c) (vlan_loose_binding c)
    (vlan_bridge_binding c) (Some (default [] (vlan_ingress_qos_map c)))
    (Some (default [] (vlan_egress_qos_map c)))) current.

(** The kernel only adds QoS mappings: clearing them needs a new interface. *)
Definition qos_map_cleared (des cur : option (list VlanQosMapping)) : bool :=
  match des, cur with Some [], Some (_ :: _) => true | _, _ => false end.

Definition vlan_need_delete (self current : VlanInterface) : bool :=
  match k_conf self, k_conf current with
  | Some des, Some cur =>
      changed (vlan_id des) (vlan_id cur) || changed (vlan_base_iface des) (vlan_base_iface cur) ||
      changed (vlan_protocol des) (vlan_protocol cur) ||
      qos_map_cleared (vlan_ingress_qos_map des) (vlan_ingress_qos_map cur) ||
      qos_map_cleared (vlan_egress_qos_map des) (vlan_egress_qos_map cur)
  | _, _ => false
  end.

(** ** VXLAN *)

Definition invalid_ip (s : option string) : bool :=
  match s with
  | Some s => negb (String.eqb s "") && bool_decide (ip_from_str s = None)
  | None => false
  end.

(** [VxlanConfig::sanitize]. *)
Definition vxlan_config_sanitize (c : VxlanConfig) : res unit :=
  if match vx_id c with Some id => 16777215 <? id | None => false end then fail InvalidArgument
  else if invalid_ip (vx_remote c) then fail InvalidArgument
  else if invalid_ip (vx_local c) then fail InvalidArgument
  else if negb (bool_decide (vx_src_port_min c = None) && bool_decide (vx_src_port_max c = None)) &&
          (bool_decide (vx_src_port_min c = None) || bool_decide (vx_src_port_max c = None))
  then fail InvalidArgument
  else Ok tt.

Definition set_vx_base_iface (b : option string) (c : VxlanConfig) : VxlanConfig :=
  vxlan_config (vx_id c) b (vx_remote c) (vx_local c) (vx_destination_port c) (vx_max_address c)
    (vx_src_port_min c) (vx_src_port_max c) (vx_proxy c) (vx_rsc c) (vx_l2miss c) (vx_l3miss c)
    (vx_udp_check_sum c) (vx_udp6_zero_check_sum_tx c) (vx_udp6_zero_check_sum_rx c)
    (vx_remote_check_sum_tx c) (vx_remote_check_sum_rx c) (vx_gbp c)
    (vx_remote_check_sum_no_partial c) (vx_collect_metadata c) (vx_gpe c) (vx_ttl_inherit c).

(** [base_iface] is filled from the current interface. *)
Definition fill_vx_base_iface (current : option VxlanInterface) (c : VxlanConfig) : VxlanConfig :=
  match vx_base_iface c, current with
  | None, Some cur_iface => set_vx_base_iface (k_conf cur_iface ≫= vx_base_iface) c
  | _, _ => c
  end.

(** [NipartInterface::sanitize for VxlanInterface]. *)
Definition vxlan_sanitize (self : VxlanInterface) (current : option VxlanInterface)
    (t : Targets VxlanInterface) : res (Targets VxlanInterface) :=
  if k_is_absent self then Ok t
  else
    let? _ := match k_conf (t_apply t) with
              | Some vxlan_conf => vxlan_config_sanitize vxlan_conf | None => Ok tt end in
    let? _ :=
      match current with
      | None =>
          if bool_decide (k_conf self ≫= vx_id = None) then fail InvalidArgument else Ok tt
      | Some _ => Ok tt
      end in
    Ok (targets (t_save t) (map_conf (fill_vx_base_iface current) (t_apply t))
          (map_conf (fill_vx_base_iface current) (t_verify t)) (t_merged t)).

Definition vxlan_need_delete (self current : VxlanInterface) : bool :=
  match k_conf self, k_conf current with
  | Some des, Some cur =>
      changed (vx_id des) (vx_id cur) || changed (vx_base_iface des) (vx_base_iface cur) ||
      changed (vx_destination_port des) (vx_destination_port cur) ||
      changed (vx_max_address des) (vx_max_address cur) ||
      changed (vx_src_port_min des) (vx_src_port_min cur) ||
      changed (vx_src_port_max des) (vx_src_port_max cur) ||
      changed (vx_proxy des) (vx_proxy cur) || changed (vx_rsc des) (vx_rsc cur) ||
      changed (vx_l2miss des) (vx_l2miss cur) || changed (vx_l3miss des) (vx_l3miss cur) ||
      changed (vx_udp_check_sum des) (vx_udp_check_sum cur) ||
      changed (vx_udp6_zero_check_sum_tx des) (vx_udp6_zero_check_sum_tx cur) ||
      changed (vx_udp6_zero_check_sum_rx des) (vx_udp6_zero_check_sum_rx cur) ||
      changed (vx_remote_check_sum_tx des) (vx_remote_check_sum_tx cur) ||
      changed (vx_remote_check_sum_rx des) (vx_remote_check_sum_rx cur) ||
      changed (vx_gbp des) (vx_gbp cur) ||
      changed (vx_remote_check_sum_no_partial des) (vx_remote_check_sum_no_partial cur) ||
      changed (vx_collect_metadata des) (vx_collect_metadata cur) ||
      changed (vx_gpe des) (vx_gpe cur) || changed (vx_ttl_inherit des) (vx_ttl_inherit cur)
  | _, _ => false
  end.

(** ** MACsec *)

Definition is_ascii_hexdigit (c : ascii) : bool := bool_decide (to_digit 16 c ≠ None).

Fixpoint all_hex (s : string) : bool :=
  match s with "" => true | String c s' => is_ascii_hexdigit c && all_hex s' end.

Definition bad_cak (s : option string) : bool :=
  match s with Some k => negb (String.length k =? 32)%nat || negb (all_hex k) | None => false end.

Definition bad_ckn (s : option string) : bool :=
  match s with
  | Some k => (64 <? String.length k)%nat || (String.length k <? 2)%nat ||
              Nat.odd (String.length k) || negb (all_hex k)
  | None => false
  end.

Definition port_exceeds (bound : Z) (p : option Z) : bool :=
  match p with Some p => bound <? p | None => false end.

(** [MacSecConfig::sanitize]. *)
Definition macsec_config_sanitize (c : MacSecConfig) : res unit :=
  if xorb (bool_decide (ms_mka_cak c = None)) (bool_decide (ms_mka_ckn c = None))
  then fail InvalidArgument
  else if bad_cak (ms_mka_cak c) then fail InvalidArgument
  else if bad_ckn (ms_mka_ckn c) then fail InvalidArgument
  else if bool_decide (ms_mka_cak c ≠ None) &&
          (bool_decide (ms_sci c ≠ None) ||
           match ms_port c with Some port => negb (port =? 1) | None => false end)
  then fail InvalidArgument
  else if bool_decide (ms_sci c ≠ None) && bool_decide (ms_send_sci c = Some false)
  then fail InvalidArgument
  else if port_exceeds 65535 (ms_port c) then fail InvalidArgument
  else Ok tt.

Definition sci_port (sci : Z) : Z := Z.land sci 0xffff.

(** An explicit SCI takes precedence over [port], an explicit [port] over an SCI. *)
Definition set_sci (des_conf c : MacSecConfig) : MacSecConfig :=
  let set sci port := macsec_config (ms_base_iface c) (ms_mka_cak c) (ms_mka_ckn c) sci port
                        (ms_send_sci c) in
  match ms_sci des_conf, ms_port des_conf with
  | Some sci, _ => set (Some sci) (Some (sci_port sci))
  | None, Some port => set None (Some port)
  | None, None => c
  end.

Definition drop_keys (c : MacSecConfig) : MacSecConfig :=
  macsec_config (ms_base_iface c) None None (ms_sci c) (ms_port c) (ms_send_sci c).

(** [NipartInterface::sanitize for MacSecInterface]. *)
Definition macsec_sanitize (self : MacSecInterface) (current : option MacSecInterface)
    (t : Targets MacSecInterface) : res (Targets MacSecInterface) :=
  if k_is_absent self then Ok t
  else
    let? _ :=
      match current, k_conf self with
      | None, None => fail InvalidArgument
      | None, Some c => if String.eqb (ms_base_iface c) "" then fail InvalidArgument else Ok tt
      | Some _, _ => Ok tt
      end in
    let? t :=
      match k_conf self with
      | Some des_conf =>
          match ms_sci des_conf, ms_port des_conf with
          | Some sci, Some port =>
              if negb (sci_port sci =? port) then fail InvalidArgument
              else Ok (map_targets (map_conf (set_sci des_conf)) t)
          | _, _ => Ok (map_targets (map_conf (set_sci des_conf)) t)
          end
      | None => Ok t
      end in
    let? _ := match k_conf (t_apply t) with
              | Some conf => macsec_config_sanitize conf | None => Ok tt end in
    Ok (targets (t_save t) (t_apply t) (map_conf drop_keys (t_verify t)) (t_merged t)).

(** [hide_secrets], [sanitize_before_verify]. *)
Definition macsec_hide_secrets (c : MacSecConfig) : MacSecConfig :=
  match ms_mka_cak c with
  | Some _ => macsec_config (ms_base_iface c) (Some HIDE_SECRET_STR) (ms_mka_ckn c) (ms_sci c)
                (ms_port c) (ms_send_sci c)
  | None => c
  end.

Definition macsec_sanitize_before_verify (self : MacSecInterface) : MacSecInterface :=
  map_conf drop_keys self.

(** [include_diff_context], [need_delete_before_change], [parent]. *)
Definition macsec_include_diff_context (self desired current : MacSecInterface) : MacSecInterface :=
  match k_conf desired, k_conf current with
  | Some des, Some cur =>
      if bool_decide (des ≠ cur) then
        set_conf (Some (macsec_config
          (if String.eqb (ms_base_iface des) "" then ms_base_iface cur else ms_base_iface des)
          (ms_mka_cak des) (ms_mka_ckn des) (ms_sci des) (ms_port des) (ms_send_sci des))) self
      else self
  | _, _ => self
  end.

Definition both_differ {A} `{EqDecision A} (des cur : option A) : bool :=
  match des, cur with Some d, Some c => negb (bool_decide (d = c)) | _, _ => false end.

Definition macsec_need_delete (self current : MacSecInterface) : bool :=
  match k_conf self, k_conf current with
  | Some des, Some cur =>
      negb (String.eqb (ms_base_iface des) "") && negb (String.eqb (ms_base_iface cur) "") &&
        negb (String.eqb (ms_base_iface des) (ms_base_iface cur)) ||
      both_differ (ms_port des) (ms_port cur) || both_differ (ms_sci des) (ms_sci cur)
  | _, _ => false
  end.

Definition macsec_parent (self : MacSecInterface) : option string :=
  match k_conf self with
  | Some c => if String.eqb (ms_base_iface c) "" then None else Some (ms_base_iface c)
  | None => None
  end.

(** ** VRF *)

Definition sort_strings : list string → list string := sort_by string_cmp id.

Definition vrf_id_unset (id : option Z) : bool :=
  match id with None => true | Some id => id =? 0 end.

Definition fill_table_id (cur_table_id : option Z) (c : VrfConfig) : VrfConfig :=
  match cur_table_id with
  | Some id => if vrf_id_unset (vrf_table_id c) then vrf_config (vrf_ports c) (Some id) else c
  | None => c
  end.

Definition sort_vrf_ports (c : VrfConfig) : VrfConfig :=
  vrf_config (sort_strings <$> vrf_ports c) (vrf_table_id c).

(** The saved section is completed from the current one. *)
Definition complete_vrf_save (cur : option VrfConfig) (save : VrfInterface) : VrfInterface :=
  match cur, k_conf save with
  | Some cur_vrf_conf, None => set_conf (Some cur_vrf_conf) save
  | Some cur_vrf_conf, Some c =>
      match vrf_ports c with
      | None => set_conf (Some (vrf_config (vrf_ports cur_vrf_conf) (vrf_table_id c))) save
      | Some _ => save
      end
  | None, _ => save
  end.

(** [NipartInterface::sanitize for VrfInterface]. *)
Definition vrf_sanitize (self : VrfInterface) (current : option VrfInterface)
    (t : Targets VrfInterface) : res (Targets VrfInterface) :=
  if k_is_absent self then Ok t
  else
    let t := map_targets (λ i, set_k_base (set_bi_mac_address None (k_base i)) i) t in
    if bool_decide (current = None) && vrf_id_unset (k_conf self ≫= vrf_table_id)
    then fail InvalidArgument
    else
      let cur := current ≫= k_conf in
      let t := map_targets (map_conf (fill_table_id (cur ≫= vrf_table_id))) t in
      let t := targets (complete_vrf_save cur (t_save t)) (t_apply t) (t_verify t) (t_merged t) in
      Ok (map_targets (map_conf sort_vrf_ports) t).

Definition vrf_need_delete (self current : VrfInterface) : bool :=
  match k_conf self ≫= vrf_table_id with
  | Some des_table_id =>
      negb (des_table_id =? 0) &&
      negb (bool_decide (k_conf current ≫= vrf_table_id = Some des_table_id))
  | None => false
  end.

(** [VrfInterface::change_port_name]. *)
Fixpoint rename_first (origin_name new_name : string) (ports : list string) : list string :=
  match ports with
  | [] => []
  | p :: ports' =>
      if String.eqb p origin_name then new_name :: ports'
      else p :: rename_first origin_name new_name ports'
  end.

Definition vrf_change_port_name (self : VrfInterface) (origin_name new_name : string) :
    VrfInterface :=
  map_conf (λ c, vrf_config (rename_first origin_name new_name <$> vrf_ports c) (vrf_table_id c)) self.

(** ** OVS *)

(** [OvsBridgeInterface::change_port_name], [OvsInterface::new_with_name_and_ctrl]. *)
Definition ovs_change_port_name (self : OvsBridgeInterface) (org_port_name new_port_name : string) :
    res OvsBridgeInterface :=
  match k_conf self with
  | Some (Some ports) =>
      if bool_decide (org_port_name ∈ ports)
      then Ok (set_conf (Some (Some (rename_first org_port_name new_port_name ports))) self)
      else fail InvalidArgument
  | _ => fail InvalidArgument
  end.

Definition ovs_iface_new_with_name_and_ctrl (name ctrl_name : string) : BaseInterface :=
  set_bi_controller_type (Some TOvsBridge) (set_bi_controller (Some ctrl_name)
    (base_new name TOvsInterface)).

(** ** Loopback *)

Definition lo_addr4 : InterfaceIpAddr := iface_ip_addr (V4 2130706433) 8 None None.
Definition lo_addr6 : InterfaceIpAddr := iface_ip_addr (V6 1) 128 None None.

Definition push_missing (a : InterfaceIpAddr) (l : list InterfaceIpAddr) : list InterfaceIpAddr :=
  if bool_decide (a ∈ l) then l else l ++ [a].

(** [LoopbackInterface::default]. *)
Definition loopback_default : BaseInterface :=
  set_bi_ipv6 (Some (iface_ipv6 (Some true) (Some false) None (Some false) (Some [lo_addr6])))
    (set_bi_ipv4 (Some (iface_ipv4 (Some true) (Some false) None (Some [lo_addr4]) None None None None))
       (set_bi_mtu (Some 65536) (set_bi_kernel_iface_name "lo" (base_new "lo" TLoopback)))).

(** [NipartInterface::sanitize for LoopbackInterface]. *)
Definition loopback_sanitize (self : BaseInterface) (t : Targets BaseInterface) :
    res (Targets BaseInterface) :=
  if state_is_absent (bi_state self) then
    Ok (targets self loopback_default (t_verify t) loopback_default)
  else
    let? t :=
      match bi_ipv4 (t_apply t) with
      | Some ipv4 =>
          if negb (ipv4_is_enabled ipv4) then fail InvalidArgument
          else
            let ipv4 := ipv4_set_addresses ipv4 (push_missing lo_addr4 <$> v4_addresses ipv4) in
            Ok (map_targets (set_bi_ipv4 (Some ipv4)) t)
      | None => Ok t
      end in
    match bi_ipv6 (t_apply t) with
    | Some ipv6 =>
        if negb (ipv6_is_enabled ipv6) then fail InvalidArgument
        else
          let ipv6 := ipv6_set_addresses ipv6 (push_missing lo_addr6 <$> v6_addresses ipv6) in
          Ok (map_targets (set_bi_ipv6 (Some ipv6)) t)
    | None => Ok t
    end.

(** ** Recreation

    An interface whose change needs a deletion is created again from its saved
    configuration, so that must name what the kernel asks of a new interface. *)

Lemma vlan_sanitize_save self cur t t' s c a :
  vlan_sanitize self (Some cur) t = Ok t' → k_is_absent self = false →
  k_conf cur = Some c → k_conf (t_save t) = Some s → k_conf (t_apply t) = Some a →
  ∃ s', k_conf (t_save t') = Some s' ∧
    vlan_id s' = option_or (vlan_id a) (vlan_id c) ∧
    vlan_base_iface s' = option_or (vlan_base_iface a) (vlan_base_iface c).
Proof.
  unfold vlan_sanitize. intros H Ha Hc Hs Hap. rewrite Ha in H. cbn in H. rewrite Hap, Hc in H.
  injection H as <-. cbn. rewrite Hs. cbn. eauto.
Qed.

#[local] Arguments vrf_id_unset : simpl never.

Lemma vrf_sanitize_save self cur t t' c :
  vrf_sanitize self (Some cur) t = Ok t' → k_is_absent self = false → k_conf cur = Some c →
  vrf_id_unset (vrf_table_id c) = false →
  ∃ s', k_conf (t_save t') = Some s' ∧ vrf_id_unset (vrf_table_id s') = false ∧
    (vrf_ports c ≠ None → vrf_ports s' ≠ None).
Proof.
  unfold vrf_sanitize. intros H Ha Hc Hid. rewrite Ha in H. cbn in H. rewrite Hc in H.
  injection H as <-. cbn. unfold fill_table_id. destruct (vrf_table_id c) as [id|] eqn:Eid; [|done].
  destruct t as [[sb [s|]] ta tv tm]; cbn.
  - destruct (vrf_id_unset (vrf_table_id s)) eqn:Es; cbn; destruct (vrf_ports s) eqn:Ep; cbn;
      eexists; (split; [done|]); cbn; rewrite ?Es, ?Ep; cbn; rewrite ?Ep;
      (split; [done|]); try done; by destruct (vrf_ports c).
  - eexists. split; [done|]. cbn. rewrite Eid. split; [done|]. by destruct (vrf_ports c).
Qed.

(** When a VLAN or a VRF must be deleted and created again, its saved configuration is
    complete: a VLAN has an ID and a parent, those of the difference where it has any
    and the current ones otherwise; a VRF has a table ID and its ports. *)
Theorem recreated_interfaces_are_complete :
  (∀ self cur t t' c s,
     vlan_sanitize self (Some cur) t = Ok t' → k_is_absent self = false →
     k_conf cur = Some c → vlan_id c ≠ None → vlan_base_iface c ≠ None →
     k_conf (t_save t) = Some s → vlan_need_delete (t_apply t') cur = true →
     ∃ s', k_conf (t_save t') = Some s' ∧ vlan_id s' ≠ None ∧ vlan_base_iface s' ≠ None ∧
       ∀ a, k_conf (t_apply t) = Some a →
         (vlan_id a ≠ None → vlan_id s' = vlan_id a) ∧
         (vlan_base_iface a ≠ None → vlan_base_iface s' = vlan_base_iface a)) ∧
  (∀ self cur t t' c,
     vrf_sanitize self (Some cur) t = Ok t' → k_is_absent self = false →
     k_conf cur = Some c → vrf_id_unset (vrf_table_id c) = false →
     vrf_need_delete (t_apply t') cur = true →
     ∃ s', k_conf (t_save t') = Some s' ∧ vrf_id_unset (vrf_table_id s') = false ∧
       (vrf_ports c ≠ None → vrf_ports s' ≠ None)).
Proof.
  split.
  - intros self cur t t' c s H Ha Hc Hid Hb Hs Hd.
    destruct (k_conf (t_apply t)) as [a|] eqn:Eap.
    + destruct (vlan_sanitize_save _ _ _ _ _ _ _ H Ha Hc Hs Eap) as (s' & Hs' & H1 & H2).
      exists s'. split; [done|]. rewrite H1, H2. split; [by destruct (vlan_id a)|].
      split; [by destruct (vlan_base_iface a)|]. intros a' [= <-].
      split; [by destruct (vlan_id a)|by destruct (vlan_base_iface a)].
    + unfold vlan_sanitize in H. rewrite Ha in H. cbn in H. rewrite Eap in H. injection H as <-.
      unfold vlan_need_delete in Hd. destruct t as [ts [ab [a|]] tv tm]; [done|]. done.
  - intros self cur t t' c H Ha Hc Hid _. by eapply vrf_sanitize_save.
Qed.

Definition ex_vrf_red (conf : option VrfConfig) : VrfInterface :=
  kind_iface (base_new "red" TVrf) conf.

Definition ex_red_current : VrfInterface :=
  ex_vrf_red (Some (vrf_config (Some ["eth1"]) (Some 100))).

Definition ex_red_desired : VrfInterface := ex_vrf_red (Some (vrf_config None (Some 200))).

(** Only the table ID of the VRF [red] is desired; its port is saved as well. *)
Lemma recreated_interfaces_are_complete_witness :
  ∃ t', vrf_sanitize ex_red_desired (Some ex_red_current)
          (targets ex_red_desired ex_red_desired ex_red_desired ex_red_desired) = Ok t' ∧
    ∃ s', k_conf (t_save t') = Some s' ∧ vrf_ports s' ≠ None.
Proof.
  eexists. split; [reflexivity|].
  destruct recreated_interfaces_are_complete as [_ H].
  edestruct (H ex_red_desired ex_red_current
    (targets ex_red_desired ex_red_desired ex_red_desired ex_red_desired)) as (s' & Hs & _ & Hp);
    [reflexivity..|]. exists s'. split; [exact Hs|]. by apply Hp.
Defined.

(** Not so for a VXLAN: its saved configuration takes neither the ID nor the
    parent from the current one, and without an ID no VXLAN can be created. *)
Example recreated_vxlan_has_no_id :
  let conf id port := vxlan_config id None None None port None None None None None None None None
                        None None None None None None None None None in
  let cur := kind_iface (base_new "vxlan0" TVxlan) (Some (conf (Some 42) (Some 4789))) in
  let des := kind_iface (base_new "vxlan0" TVxlan) (Some (conf None (Some 8472))) in
  match vxlan_sanitize des (Some cur) (targets des des des des) with
  | Ok t' => vxlan_need_delete (t_apply t') cur = true ∧ k_conf (t_save t') ≫= vx_id = None ∧
             is_ok (vxlan_sanitize (t_save t') None (targets des des des des)) = false
  | Err _ => False
  end.
Proof. vm_compute. repeat split; reflexivity. Qed.

(** The loopback interface keeps its two addresses, or the desire is refused. *)
Lemma loopback_keeps_addresses self t t' ipv4 l :
  loopback_sanitize self t = Ok t' → state_is_absent (bi_state self) = false →
  bi_ipv4 (t_apply t') = Some ipv4 → v4_addresses ipv4 = Some l →
  ipv4_is_enabled ipv4 = true ∧ lo_addr4 ∈ l.
Proof.
  unfold loopback_sanitize. intros H Ha H4 Hl. rewrite Ha in H. cbn in H.
  destruct (bi_ipv4 (t_apply t)) as [v4|] eqn:E4.
  - destruct (negb (ipv4_is_enabled v4)) eqn:Een; [done|]. cbn in H.
    assert (Some ipv4 = Some (ipv4_set_addresses v4 (push_missing lo_addr4 <$> v4_addresses v4)))
      as [= ->].
    { rewrite <- H4. destruct (bi_ipv6 (t_apply t)) as [v6|].
      - destruct (negb (ipv6_is_enabled v6)); [done|]. by injection H as <-.
      - by injection H as <-. }
    apply negb_false_iff in Een. split; [done|]. cbn in Hl.
    destruct (v4_addresses v4) as [l0|]; [|done]. injection Hl as <-. unfold push_missing.
    case_bool_decide; [done|]. apply elem_of_app. right. by apply list_elem_of_singleton.
  - cbn in H. destruct (bi_ipv6 (t_apply t)) as [v6|].
    + destruct (negb (ipv6_is_enabled v6)); [done|]. injection H as <-. cbn in H4. congruence.
    + injection H as <-. congruence.
Qed.
