(* ===== verification/Wifi.v ===== *)
(** * Wifi: WIFI interfaces and profiles

    [src/lib/schema/ifaces/wifi.rs]: the WIFI section of a [wifi-phy], the NIC, and
    of a [wifi-cfg], the profile; sanitizing, merging, secrets and what is compared
    by the verification. *)

From S2P Require Export Kinds Serde.

#[local] Open Scope Z_scope.

(** ** Data *)

Inductive WifiState : Type :=
| WifiDisconnected | WifiScanning | WifiConnecting | WifiCompleted | WifiStateUnknown.

Inductive WifiAuthType : Type :=
| AuthOpen | AuthWpa2Personal | AuthWpa3Personal | AuthUnknown.

Record WifiConfig : Type := wifi_config {
  wifi_ssid : string;
  wifi_state : option WifiState;
  wifi_auth_type : option WifiAuthType;
  wifi_generation : option Z;
  wifi_bssid : option string;
  wifi_password : option string;
  wifi_hidden : bool;
  wifi_base_iface : option string;
  wifi_frequency_mhz : option Z;
  wifi_rx_bitrate_mb : option Z;
  wifi_tx_bitrate_mb : option Z;
  wifi_signal_dbm : option Z;
  wifi_signal_percent : option Z;
}.

#[export] Instance WifiState_eq_dec : EqDecision WifiState.
Proof. solve_decision. Defined.

#[export] Instance WifiAuthType_eq_dec : EqDecision WifiAuthType.
Proof. solve_decision. Defined.

#[export] Instance WifiConfig_eq_dec : EqDecision WifiConfig.
Proof. solve_decision. Defined.

(** [WifiPhyInterface], [WifiCfgInterface]. *)
Definition WifiInterface : Type := Kind WifiConfig.

Definition wifi_default : WifiConfig :=
  wifi_config "" None None None None None false None None None None None None.

(** The properties a user sets; the others are answers to queries. *)
Definition wifi_of (ssid : string) (bssid password : option string) (hidden : bool)
    (base_iface : option string) : WifiConfig :=
  wifi_config ssid None None None bssid password hidden base_iface None None None None None.

(** The fields that the code assigns to. *)
Definition set_wifi_ssid (v : string) (w : WifiConfig) : WifiConfig :=
  wifi_config v (wifi_state w) (wifi_auth_type w) (wifi_generation w) (wifi_bssid w)
    (wifi_password w) (wifi_hidden w) (wifi_base_iface w) (wifi_frequency_mhz w)
    (wifi_rx_bitrate_mb w) (wifi_tx_bitrate_mb w) (wifi_signal_dbm w) (wifi_signal_percent w).

Definition set_wifi_bssid (v : option string) (w : WifiConfig) : WifiConfig :=
  wifi_config (wifi_ssid w) (wifi_state w) (wifi_auth_type w) (wifi_generation w) v
    (wifi_password w) (wifi_hidden w) (wifi_base_iface w) (wifi_frequency_mhz w)
    (wifi_rx_bitrate_mb w) (wifi_tx_bitrate_mb w) (wifi_signal_dbm w) (wifi_signal_percent w).

Definition set_wifi_password (v : option string) (w : WifiConfig) : WifiConfig :=
  wifi_config (wifi_ssid w) (wifi_state w) (wifi_auth_type w) (wifi_generation w) (wifi_bssid w)
    v (wifi_hidden w) (wifi_base_iface w) (wifi_frequency_mhz w)
    (wifi_rx_bitrate_mb w) (wifi_tx_bitrate_mb w) (wifi_signal_dbm w) (wifi_signal_percent w).

Definition set_wifi_hidden (v : bool) (w : WifiConfig) : WifiConfig :=
  wifi_config (wifi_ssid w) (wifi_state w) (wifi_auth_type w) (wifi_generation w) (wifi_bssid w)
    (wifi_password w) v (wifi_base_iface w) (wifi_frequency_mhz w)
    (wifi_rx_bitrate_mb w) (wifi_tx_bitrate_mb w) (wifi_signal_dbm w) (wifi_signal_percent w).

Definition set_wifi_base_iface (v : option string) (w : WifiConfig) : WifiConfig :=
  wifi_config (wifi_ssid w) (wifi_state w) (wifi_auth_type w) (wifi_generation w) (wifi_bssid w)
    (wifi_password w) (wifi_hidden w) v (wifi_frequency_mhz w)
    (wifi_rx_bitrate_mb w) (wifi_tx_bitrate_mb w) (wifi_signal_dbm w) (wifi_signal_percent w).

Definition set_wifi_signal_percent (v : option Z) (w : WifiConfig) : WifiConfig :=
  wifi_config (wifi_ssid w) (wifi_state w) (wifi_auth_type w) (wifi_generation w) (wifi_bssid w)
    (wifi_password w) (wifi_hidden w) (wifi_base_iface w) (wifi_frequency_mhz w)
    (wifi_rx_bitrate_mb w) (wifi_tx_bitrate_mb w) (wifi_signal_dbm w) v.

(** [WifiPhyInterface::ssid]. *)
Definition wifi_phy_ssid (wifi : option WifiConfig) : option string := wifi_ssid <$> wifi.

(** ** The signal *)

Definition NOISE_FLOOR_DBM : Z := -100.
Definition SIGNAL_MAX_DBM : Z := -50.

(** [WifiConfig::signal_dbm_to_percent].  The quotient is an integer of at most two
    digits, so the [f64] arithmetic of the code is exact. *)
Definition signal_dbm_to_percent (dbm : Z) : Z :=
  let dbm := Z.max NOISE_FLOOR_DBM (Z.min SIGNAL_MAX_DBM dbm) in
  Z.quot (100 * (NOISE_FLOOR_DBM - dbm)) (NOISE_FLOOR_DBM - SIGNAL_MAX_DBM).

Definition sanitize_signal (w : WifiConfig) : WifiConfig :=
  match wifi_signal_dbm w with
  | Some s => set_wifi_signal_percent (Some (signal_dbm_to_percent s)) w
  | None => w
  end.

(** The percentage is one, no quotient is rounded, and it grows with the signal. *)
Lemma signal_dbm_to_percent_spec dbm :
  0 ≤ signal_dbm_to_percent dbm ≤ 100 ∧
  100 * (NOISE_FLOOR_DBM - Z.max NOISE_FLOOR_DBM (Z.min SIGNAL_MAX_DBM dbm)) =
    signal_dbm_to_percent dbm * (NOISE_FLOOR_DBM - SIGNAL_MAX_DBM) ∧
  ∀ dbm', dbm ≤ dbm' → signal_dbm_to_percent dbm ≤ signal_dbm_to_percent dbm'.
Proof.
  assert (∀ d, signal_dbm_to_percent d = 2 * (Z.max (-100) (Z.min (-50) d) + 100)) as H.
  { intros d. unfold signal_dbm_to_percent, NOISE_FLOOR_DBM, SIGNAL_MAX_DBM.
    set (c := Z.max _ _). replace (100 * (-100 - c)) with (2 * (c + 100) * (-100 - -50)) by lia.
    by rewrite Z.quot_mul by lia. }
  unfold NOISE_FLOOR_DBM, SIGNAL_MAX_DBM. rewrite !H. split; [lia|]. split; [lia|].
  intros dbm' Hle. rewrite H. lia.
Qed.

(** ** Sanitizing *)

Definition hide_wifi_secrets (w : WifiConfig) : WifiConfig :=
  match wifi_password w with
  | Some _ => set_wifi_password (Some HIDE_SECRET_STR) w
  | None => w
  end.

Definition remove_wifi_secrets (w : WifiConfig) : WifiConfig := set_wifi_password None w.

Section Sanitize.
(** [str::to_uppercase]. *)
Context (to_uppercase : string → string).

(** [WifiConfig::sanitize]. *)
Definition wifi_sanitize (w : WifiConfig) : WifiConfig :=
  wifi_of (wifi_ssid w) (to_uppercase <$> wifi_bssid w) (wifi_password w) (wifi_hidden w)
    (if bool_decide (wifi_base_iface w = Some "") then None else wifi_base_iface w).

(** The section of [for_apply] is saved, verified and merged. *)
Definition spread_wifi (t : Targets WifiInterface) : Targets WifiInterface :=
  match k_conf (t_apply t) with
  | None => t
  | Some apply_wifi =>
      let wifi := match k_conf (t_save t) with
                  | Some for_save_wifi => wifi_sanitize for_save_wifi
                  | None => apply_wifi
                  end in
      targets (set_conf (Some wifi) (t_save t)) (t_apply t) (set_conf (Some wifi) (t_verify t))
        (set_conf (Some wifi) (t_merged t))
  end.

(** [NipartInterface::sanitize for WifiPhyInterface]. *)
Definition wifi_phy_sanitize (self : WifiInterface) (t : Targets WifiInterface) :
    res (Targets WifiInterface) :=
  let iface_name := bi_name (k_base self) in
  let? apply :=
    match k_conf (t_apply t) with
    | Some wifi_cfg =>
        let wifi_cfg := wifi_sanitize wifi_cfg in
        let other := match wifi_base_iface wifi_cfg with
                     | Some base_iface_name => negb (String.eqb base_iface_name iface_name)
                     | None => false
                     end in
        if other then fail InvalidArgument
        else Ok (set_conf (Some (set_wifi_base_iface (Some iface_name) wifi_cfg)) (t_apply t))
    | None => Ok (t_apply t)
    end in
  Ok (spread_wifi (targets (t_save t) apply (t_verify t) (t_merged t))).

(** [NipartInterface::sanitize for WifiCfgInterface]. *)
Definition wifi_cfg_sanitize (t : Targets WifiInterface) : Targets WifiInterface :=
  spread_wifi (targets (t_save t) (map_conf wifi_sanitize (t_apply t)) (t_verify t) (t_merged t)).

End Sanitize.

(** ** Verification and differences *)

(** What cannot be queried is not compared. *)
Definition wifi_phy_sanitize_before_verify (self current : WifiInterface) :
    WifiInterface * WifiInterface :=
  (map_conf (λ w, set_wifi_hidden false (remove_wifi_secrets (set_wifi_base_iface None w))) self,
   map_conf hide_wifi_secrets current).

Definition wifi_cfg_sanitize_before_verify (self current : WifiInterface) :
    WifiInterface * WifiInterface :=
  (map_conf (λ w, set_wifi_hidden false (remove_wifi_secrets w))
     (set_k_base (set_bi_ipv6 None (set_bi_ipv4 None (k_base self))) self),
   map_conf hide_wifi_secrets current).

(** [include_diff_context] of both: the SSID is part of every difference. *)
Definition wifi_include_diff_context (self desired current : WifiInterface) : WifiInterface :=
  match k_conf desired, k_conf current with
  | Some desired_wifi, Some current_wifi =>
      if negb (String.eqb (wifi_ssid desired_wifi) "") &&
         negb (bool_decide (desired_wifi = current_wifi)) then
        match k_conf self with
        | Some diff_wifi => set_conf (Some (set_wifi_ssid (wifi_ssid desired_wifi) diff_wifi)) self
        | None => set_conf (Some desired_wifi) self
        end
      else self
  | _, _ => self
  end.

(** ** Merging *)

(** [WifiConfig::post_merge]: [self] is the result of the JSON merge. *)
Definition ssid_changed (new : option WifiConfig) (old : WifiConfig) : bool :=
  match new with
  | Some new => negb (String.eqb (wifi_ssid new) "") &&
                negb (String.eqb (wifi_ssid new) (wifi_ssid old))
  | None => false
  end.

Definition wifi_post_merge (self : WifiConfig) (new : option WifiConfig) (old : WifiConfig) :
    WifiConfig :=
  let self := if String.eqb (wifi_ssid self) "" then set_wifi_ssid (wifi_ssid old) self else self in
  if ssid_changed new old then
    let new_password := new ≫= wifi_password in
    let self := if bool_decide (new_password = None) ||
                   bool_decide (new_password = Some HIDE_SECRET_STR)
                then set_wifi_password None self else self in
    let self := if bool_decide (new ≫= wifi_bssid = None) then set_wifi_bssid None self else self in
    set_wifi_hidden (match new with Some new => wifi_hidden new | None => false end) self
  else self.

(** [NipartInterface::post_merge] of both. *)
Definition wifi_iface_post_merge (self new old : WifiInterface) : WifiInterface :=
  match k_conf self, k_conf old with
  | Some wifi, Some old_wifi => set_conf (Some (wifi_post_merge wifi (k_conf new) old_wifi)) self
  | _, _ => self
  end.

(** [WifiConfig::merge]. *)
Definition wifi_merge {Num} `{Serde Num WifiConfig} (self new : WifiConfig) : res WifiConfig :=
  let? merged := json_merge self new in
  Ok (wifi_post_merge merged (Some new) self).
