(* ===== verification/Wireguard.v ===== *)
(** * Wireguard: WireGuard interfaces

    [src/lib/schema/ifaces/wireguard.rs]: keys that are hidden or not mentioned are
    those of the current interface, and a new interface needs all of them. *)

From S2P Require Export Kinds JsonValue SocketAddr.

#[local] Open Scope Z_scope.

(** ** Data *)

Record WireguardIpAddress : Type := wireguard_ip_address {
  wip_ip : IpAddr;
  wip_prefix_length : Z;
}.

Record WireguardPeerConfig : Type := wireguard_peer_config {
  wp_endpoint : option SocketAddr;
  wp_public_key : option string;
  wp_preshared_key : option string;
  wp_last_handshake : option string;
  wp_rx_bytes : option Z;
  wp_tx_bytes : option Z;
  wp_persistent_keepalive : option Z;
  wp_allowed_ips : option (list WireguardIpAddress);
  wp_protocol_version : option Z;
}.

Record WireguardConfig : Type := wireguard_config {
  wg_public_key : option string;
  wg_private_key : option string;
  wg_listen_port : option Z;
  wg_fwmark : option Z;
  wg_peers : option (list WireguardPeerConfig);
}.

#[export] Instance WireguardIpAddress_eq_dec : EqDecision WireguardIpAddress.
Proof. solve_decision. Defined.

#[export] Instance WireguardPeerConfig_eq_dec : EqDecision WireguardPeerConfig.
Proof. solve_decision. Defined.

#[export] Instance WireguardConfig_eq_dec : EqDecision WireguardConfig.
Proof. solve_decision. Defined.

Definition WireguardInterface : Type := Kind WireguardConfig.

(** ** Secrets *)

Definition hide_key (key : option string) : option string :=
  match key with Some _ => Some HIDE_SECRET_STR | None => None end.

(** [WireguardPeerConfig::hide_secrets], [WireguardConfig::hide_secrets]. *)
Definition peer_hide_secrets (p : WireguardPeerConfig) : WireguardPeerConfig :=
  wireguard_peer_config (wp_endpoint p) (wp_public_key p) (hide_key (wp_preshared_key p))
    (wp_last_handshake p) (wp_rx_bytes p) (wp_tx_bytes p) (wp_persistent_keepalive p)
    (wp_allowed_ips p) (wp_protocol_version p).

Definition wireguard_hide_secrets (c : WireguardConfig) : WireguardConfig :=
  wireguard_config (wg_public_key c) (hide_key (wg_private_key c)) (wg_listen_port c)
    (wg_fwmark c) (map peer_hide_secrets <$> wg_peers c).

(** ** Sanitizing *)

Definition is_hidden (key : option string) : bool := bool_decide (key = Some HIDE_SECRET_STR).

(** [WireguardPeerConfig::sanitize]; [existing]: there is a current interface. *)
Definition peer_sanitize (existing : bool) (p : WireguardPeerConfig) : res WireguardPeerConfig :=
  match wp_endpoint p with
  | None => fail InvalidArgument
  | Some endpoint =>
      let cleared key := wireguard_peer_config (Some endpoint) (wp_public_key p) key None None None
                           (wp_persistent_keepalive p) (wp_allowed_ips p) (wp_protocol_version p) in
      if is_hidden (wp_preshared_key p) then
        if negb existing then fail InvalidArgument else Ok (cleared None)
      else Ok (cleared (wp_preshared_key p))
  end.

(** [WireguardConfig::sanitize]. *)
Definition wireguard_config_sanitize (existing : bool) (c : WireguardConfig) : res WireguardConfig :=
  let? private_key :=
    if negb existing then
      if bool_decide (wg_private_key c = None) then fail InvalidArgument
      else if is_hidden (wg_private_key c) then fail InvalidArgument
      else Ok (wg_private_key c)
    else Ok (if is_hidden (wg_private_key c) then None else wg_private_key c) in
  let? peers :=
    match wg_peers c with
    | Some peers => let? peers := map_result (peer_sanitize existing) peers in Ok (Some peers)
    | None => Ok None
    end in
  Ok (wireguard_config None private_key (wg_listen_port c) (wg_fwmark c) peers).

(** [NipartInterface::sanitize for WireguardInterface]. *)
Definition wireguard_sanitize (self : WireguardInterface) (current : option WireguardInterface)
    (t : Targets WireguardInterface) : res (Targets WireguardInterface) :=
  if k_is_absent self then Ok t
  else
    let existing := bool_decide (is_Some (current ≫= k_conf)) in
    match k_conf (t_apply t) with
    | None => if bool_decide (current = None) then fail InvalidArgument else Ok t
    | Some wg_conf =>
        let? apply_wg := wireguard_config_sanitize existing wg_conf in
        let? wg :=
          match k_conf (t_save t) with
          | Some for_save_wg => wireguard_config_sanitize existing for_save_wg
          | None => Ok apply_wg
          end in
        Ok (targets (set_conf (Some wg) (t_save t)) (set_conf (Some apply_wg) (t_apply t))
              (set_conf (Some wg) (t_verify t)) (set_conf (Some wg) (t_merged t)))
    end.

(** ** What sanitizing guarantees *)

(** No secret of the configuration is the placeholder. *)
Definition no_placeholder (c : WireguardConfig) : Prop :=
  wg_private_key c ≠ Some HIDE_SECRET_STR ∧
  ∀ peers p, wg_peers c = Some peers → p ∈ peers → wp_preshared_key p ≠ Some HIDE_SECRET_STR.

Lemma is_hidden_false key : is_hidden key = false → key ≠ Some HIDE_SECRET_STR.
Proof. unfold is_hidden. by case_bool_decide. Qed.

Lemma peer_sanitize_ok existing p p' :
  peer_sanitize existing p = Ok p' →
  wp_endpoint p' ≠ None ∧ wp_preshared_key p' ≠ Some HIDE_SECRET_STR.
Proof.
  unfold peer_sanitize. destruct (wp_endpoint p); [|done].
  destruct (is_hidden (wp_preshared_key p)) eqn:Eh.
  - destruct (negb existing); [done|]. by intros [= <-].
  - intros [= <-]. simpl. split; [done|]. by apply is_hidden_false.
Qed.

(** An accepted configuration never stores the placeholder of a hidden secret: a
    new interface has a private key, and all peers have an endpoint. *)
Theorem wireguard_secrets_are_real existing c c' :
  wireguard_config_sanitize existing c = Ok c' →
  no_placeholder c' ∧ (existing = false → wg_private_key c' ≠ None) ∧
  ∀ peers p, wg_peers c' = Some peers → p ∈ peers → wp_endpoint p ≠ None.
Proof.
  unfold wireguard_config_sanitize. intros E.
  destruct (if negb existing then _ else _) as [key|] eqn:Ek; [|done].
  destruct (match wg_peers c with Some _ => _ | None => _ end) as [ps|] eqn:Ep; [|done].
  injection E as <-.
  assert (key ≠ Some HIDE_SECRET_STR ∧ (existing = false → key ≠ None)) as [Hk Hnew].
  { destruct existing; simpl in Ek.
    - injection Ek as <-. split; [|done]. destruct (is_hidden _) eqn:Eh; [done|].
      by apply is_hidden_false.
    - case_bool_decide as Hn; [done|]. destruct (is_hidden _) eqn:Eh; [done|]. injection Ek as <-.
      split; [by apply is_hidden_false|done]. }
  assert (∀ peers p, ps = Some peers → p ∈ peers →
            wp_endpoint p ≠ None ∧ wp_preshared_key p ≠ Some HIDE_SECRET_STR) as Hps.
  { intros peers p -> Hp. destruct (wg_peers c) as [l|]; [|done].
    destruct (map_result _ l) as [l'|] eqn:El; [|done]. injection Ep as ->.
    apply map_result_Forall2 in El. destruct (Forall2_elem_r _ _ _ _ El Hp) as (q & _ & Hq).
    by apply peer_sanitize_ok in Hq. }
  split; [split; [done|]|split; [done|]]; simpl; intros peers p Hpe Hp;
    by destruct (Hps peers p Hpe Hp).
Qed.
