(* ===== verification/Iface.v ===== *)
(** * Iface: interfaces

    [src/lib/schema/iface_trait.rs], [iface_search.rs], and of [iface.rs],
    [ifaces/wifi.rs], [merged/iface.rs], [merged/wifi.rs] and
    [merged/inter_iface.rs] the data and the operations that resolve the next hop
    interface of a route.  The [ethernet] section of a NIC (speed and duplex) is left
    out.

    A [HashMap] that is iterated over is the list of its entries in the order
    its iterator yields. *)

From S2P Require Export BaseIface Bond LinuxBridge Kinds Wifi Wireguard.

#[local] Open Scope Z_scope.

(** ** Interfaces *)

(** [Interface]: the variants whose own section is read carry it. *)
Inductive Interface : Type :=
| IfEthernet (base : BaseInterface) (veth : option VethConfig)
| IfOvsBridge (base : BaseInterface) (bridge : option OvsBridgeConfig)
| IfOvsInterface (base : BaseInterface)
| IfLoopback (base : BaseInterface)
| IfWifiPhy (base : BaseInterface) (wifi : option WifiConfig)
| IfWifiCfg (base : BaseInterface) (wifi : option WifiConfig)
| IfDummy (base : BaseInterface)
| IfVlan (base : BaseInterface) (vlan : option VlanConfig)
| IfVrf (base : BaseInterface) (vrf : option VrfConfig)
| IfVxlan (base : BaseInterface) (vxlan : option VxlanConfig)
| IfBond (i : BondInterface)
| IfLinuxBridge (i : LinuxBridgeInterface)
| IfMacSec (base : BaseInterface) (macsec : option MacSecConfig)
| IfWireguard (base : BaseInterface) (wireguard : option WireguardConfig)
| IfUnknown (base : BaseInterface).

Definition base_iface (i : Interface) : BaseInterface :=
  match i with
  | IfEthernet b _ | IfOvsBridge b _ | IfOvsInterface b | IfLoopback b
  | IfWifiPhy b _ | IfWifiCfg b _ | IfDummy b | IfVlan b _ | IfVrf b _ | IfVxlan b _
  | IfMacSec b _ | IfWireguard b _ | IfUnknown b => b
  | IfBond i => bond_base i
  | IfLinuxBridge i => bridge_base i
  end.

(** [base_iface_mut()]: the interface with another base section. *)
Definition set_base (i : Interface) (b : BaseInterface) : Interface :=
  match i with
  | IfEthernet _ v => IfEthernet b v | IfOvsBridge _ c => IfOvsBridge b c
  | IfOvsInterface _ => IfOvsInterface b | IfLoopback _ => IfLoopback b
  | IfWifiPhy _ w => IfWifiPhy b w | IfWifiCfg _ w => IfWifiCfg b w
  | IfDummy _ => IfDummy b | IfVlan _ c => IfVlan b c | IfVrf _ v => IfVrf b v
  | IfVxlan _ c => IfVxlan b c | IfBond i => IfBond (set_bond_base b i)
  | IfLinuxBridge i => IfLinuxBridge (linux_bridge_interface b (bridge i))
  | IfMacSec _ c => IfMacSec b c | IfWireguard _ c => IfWireguard b c | IfUnknown _ => IfUnknown b
  end.

Definition upd_base (f : BaseInterface → BaseInterface) (i : Interface) : Interface :=
  set_base i (f (base_iface i)).

Lemma base_iface_set_base i b : base_iface (set_base i b) = b.
Proof. by destruct i. Qed.

Lemma set_base_set_base i b c : set_base (set_base i b) c = set_base i c.
Proof. by destruct i. Qed.

Lemma set_base_base_iface i : set_base i (base_iface i) = i.
Proof. by destruct i as [| | | | | | | | | |[]|[]| | |]. Qed.

#[export] Hint Rewrite base_iface_set_base set_base_set_base set_base_base_iface : iface.

(** The provided methods of the trait [NipartInterface]. *)
Definition iface_name (i : Interface) : string := bi_name (base_iface i).
Definition iface_type (i : Interface) : InterfaceType := bi_iface_type (base_iface i).
Definition iface_is_userspace (i : Interface) : bool := type_is_userspace (iface_type i).
Definition iface_is_controller (i : Interface) : bool :=
  match i with IfLinuxBridge _ => true | _ => type_is_controller (iface_type i) end.
Definition iface_has_controller (i : Interface) : bool := base_has_controller (base_iface i).
Definition is_name_matching (i : Interface) : bool := base_is_name_matching (base_iface i).
Definition iface_is_ignore (i : Interface) : bool := state_is_ignore (bi_state (base_iface i)).
Definition iface_is_up (i : Interface) : bool := state_is_up (bi_state (base_iface i)).
Definition iface_is_down (i : Interface) : bool := state_is_down (bi_state (base_iface i)).
Definition iface_is_absent (i : Interface) : bool := state_is_absent (bi_state (base_iface i)).

(** The methods of the trait the kinds implement: [is_virtual], [ports],
    [parent]. *)
Definition iface_is_virtual (i : Interface) : bool :=
  match i with
  | IfEthernet _ veth => bool_decide (veth ≠ None)
  | IfLoopback _ | IfWifiPhy _ _ => false
  | _ => true
  end.

Definition iface_ports (i : Interface) : option (list string) :=
  match i with
  | IfOvsBridge _ conf => mjoin conf
  | IfVrf _ vrf => vrf ≫= vrf_ports
  | IfBond i => bond_ports i
  | IfLinuxBridge i => linux_bridge_ports i
  | _ => None
  end.

Definition iface_parent (i : Interface) : option string :=
  match i with
  | IfVlan _ vlan => vlan ≫= vlan_base_iface
  | IfVxlan _ vxlan => vxlan ≫= vx_base_iface
  | IfMacSec b macsec => macsec_parent (kind_iface b macsec)
  | IfWifiCfg _ wifi => wifi ≫= wifi_base_iface
  | _ => None
  end.

Definition iface_has_parent (i : Interface) : bool :=
  match iface_parent i with Some p => negb (String.eqb p "") | None => false end.

(** [NipartInterface::kernel_iface_name]. *)
Definition kernel_iface_name (i : Interface) : string :=
  if String.eqb (bi_kernel_iface_name (base_iface i)) "" && is_name_matching i
  then bi_name (base_iface i) else bi_kernel_iface_name (base_iface i).

(** ** [src/lib/schema/iface.rs] *)

(** Whether a NIC of the current state carries the MAC address. *)
Definition mac_of_iface_is (saved_mac : string) (cur : BaseInterface) : bool :=
  match bi_permanent_mac_address cur with
  | Some m => String.eqb (to_ascii_uppercase m) saved_mac
  | None => false
  end ||
  match bi_mac_address cur with
  | Some m => String.eqb (to_ascii_uppercase m) saved_mac
  | None => false
  end.

(** [is_same_type]. *)
Definition is_veth_or_ethernet (t : InterfaceType) : bool :=
  match t with TVeth | TEthernet => true | _ => false end.

Definition is_same_type (a b : InterfaceType) : bool :=
  bool_decide (a = b) || is_veth_or_ethernet a && is_veth_or_ethernet b.

(** [Interface::is_match]. *)
Definition iface_is_match (self cur_iface : Interface) : bool :=
  if negb (is_same_type (iface_type self) (iface_type cur_iface)) then false
  else
    match bi_identifier (base_iface self) with
    | None | Some IdName =>
        String.eqb (kernel_iface_name self) (kernel_iface_name cur_iface) ||
        String.eqb (iface_name self) (kernel_iface_name cur_iface)
    | Some IdMacAddress =>
        match bi_mac_address (base_iface self) with
        | Some saved_mac => mac_of_iface_is (to_ascii_uppercase saved_mac) (base_iface cur_iface)
        | None => false
        end
    end.

(** [From<BaseInterface> for Interface]; [None] is a [todo!()], which panics. *)
Definition interface_from_base (base : BaseInterface) : option Interface :=
  let base := if bool_decide (bi_iface_type base = TVeth)
              then set_bi_iface_type TEthernet base else base in
  match bi_iface_type base with
  | TEthernet => Some (IfEthernet base None)
  | TBond => Some (IfBond (bond_interface base None))
  | TLinuxBridge => Some (IfLinuxBridge (linux_bridge_interface base None))
  | TDummy => Some (IfDummy base)
  | TLoopback => Some (IfLoopback base)
  | TOvsBridge => Some (IfOvsBridge base None)
  | TOvsInterface => Some (IfOvsInterface base)
  | TVlan => Some (IfVlan base None)
  | TVrf => Some (IfVrf base None)
  | TVxlan => Some (IfVxlan base None)
  | TMacSec => Some (IfMacSec base None)
  | TWifiPhy => Some (IfWifiPhy base None)
  | TWifiCfg => Some (IfWifiCfg base None)
  | TWireguard => Some (IfWireguard base None)
  | TUnknown _ => Some (IfUnknown base)
  | THsr | TMacVlan | TMacVtap | TVeth | TInfiniBand | TTun | TIpsec | TXfrm | TIpVlan => None
  end.

(** [Interface::clone_name_type_only]. *)
Definition iface_clone_name_type_only (i : Interface) : option Interface :=
  interface_from_base (base_clone_name_type_only (base_iface i)).

(** [Interface::change_port_name]. *)
Definition iface_change_port_name (self : Interface) (org_port_name new_port_name : string) :
    res Interface :=
  match self with
  | IfLinuxBridge i =>
      let? i := linux_bridge_change_port_name i org_port_name new_port_name in
      Ok (IfLinuxBridge i)
  | IfOvsBridge b c =>
      let? i := ovs_change_port_name (kind_iface b c) org_port_name new_port_name in
      Ok (IfOvsBridge (k_base i) (k_conf i))
  | IfBond i =>
      let? i := bond_change_port_name i org_port_name new_port_name in Ok (IfBond i)
  | IfVrf b c =>
      let i := vrf_change_port_name (kind_iface b c) org_port_name new_port_name in
      Ok (IfVrf (k_base i) (k_conf i))
  | _ => fail Bug
  end.

(** [NipartInterface::need_delete_before_change]; variants that differ are logged as a bug. *)
Definition iface_need_delete (self current : Interface) : bool :=
  match self, current with
  | IfEthernet b c, IfEthernet b' c' => ethernet_need_delete (kind_iface b c) (kind_iface b' c')
  | IfVlan b c, IfVlan b' c' => vlan_need_delete (kind_iface b c) (kind_iface b' c')
  | IfVrf b c, IfVrf b' c' => vrf_need_delete (kind_iface b c) (kind_iface b' c')
  | IfVxlan b c, IfVxlan b' c' => vxlan_need_delete (kind_iface b c) (kind_iface b' c')
  | IfMacSec b c, IfMacSec b' c' => macsec_need_delete (kind_iface b c) (kind_iface b' c')
  | _, _ => false
  end.

(** ** [IfaceSearch] *)

Record IfaceSearch : Type := iface_search {
  profiles : gmap string string;
  kernel_names : gset string;
  permanent_mac_addresses : gmap string (list string);
  mac_addresses : gmap string (list string);
}.

Definition search_default : IfaceSearch := iface_search ∅ ∅ ∅ ∅.

(** [map.entry(mac).or_default().push(name)]. *)
Definition push_entry (mac name : string) (m : gmap string (list string)) :
    gmap string (list string) :=
  <[mac := default [] (m !! mac) ++ [name]]> m.

Definition push_mac (mac : option string) (name : string)
    (m : gmap string (list string)) : gmap string (list string) :=
  match mac with
  | Some mac => if negb (String.eqb mac "") then push_entry (to_ascii_uppercase mac) name m
                else m
  | None => m
  end.

(** [IfaceSearch::push]. *)
Definition search_push (self : IfaceSearch) (iface : Interface) : IfaceSearch :=
  if iface_is_userspace iface then self
  else
    let name := kernel_iface_name iface in
    if String.eqb name "" then self
    else
      iface_search
        (match bi_profile_name (base_iface iface) with
         | Some p => if negb (String.eqb p "") then <[p := name]> (profiles self)
                     else profiles self
         | None => profiles self
         end)
        ({[ name ]} ∪ kernel_names self)
        (push_mac (bi_permanent_mac_address (base_iface iface)) name
           (permanent_mac_addresses self))
        (push_mac (bi_mac_address (base_iface iface)) name (mac_addresses self)).

(** [IfaceSearch::new]. *)
Definition search_new (ifaces : list Interface) : IfaceSearch :=
  foldl search_push search_default ifaces.

(** [search_name], [search_mac]. *)
Definition search_name (self : IfaceSearch) (name : string) : option string :=
  if bool_decide (name ∈ kernel_names self) then Some name else profiles self !! name.

Definition search_mac (self : IfaceSearch) (mac : string) : list string :=
  let mac := to_ascii_uppercase mac in
  match permanent_mac_addresses self !! mac with
  | Some l => l
  | None => default [] (mac_addresses self !! mac)
  end.

(** ** Merged interfaces *)

Record MergedInterface : Type := merged_interface {
  mi_desired : option Interface;
  mi_current : option Interface;
  mi_merged : Interface;
  mi_for_apply : option Interface;
  mi_for_verify : option Interface;
  mi_for_save : option Interface;
  mi_for_revert : option Interface;
  mi_up_priority : option Z;
  mi_will_delete : bool;
}.

Record MergedInterfaces : Type := merged_interfaces {
  kernel_ifaces : list (string * MergedInterface);
  user_ifaces : list (string * InterfaceType * MergedInterface);
  mis_insert_order : list (string * InterfaceType);
  current_kernel_ifaces : list (string * Interface);
  mis_search : IfaceSearch;
}.

(** [HashMap::get] on the entries. *)
Fixpoint assoc_get {A} (k : string) (l : list (string * A)) : option A :=
  match l with
  | [] => None
  | (k', v) :: l' => if String.eqb k' k then Some v else assoc_get k l'
  end.

(** [wifi_cfg_matches_phy]. *)
Definition wifi_cfg_matches_phy (cfg_wifi : option WifiConfig) (cur_iface : Interface) : bool :=
  match cfg_wifi with
  | None => false
  | Some wifi =>
      if negb (bool_decide (iface_type cur_iface = TWifiPhy)) then false
      else
        let ssid_match :=
          match cur_iface with
          | IfWifiPhy _ w => bool_decide (wifi_phy_ssid w = Some (wifi_ssid wifi))
          | _ => false
          end in
        let base_match :=
          match wifi_base_iface wifi with
          | Some b => String.eqb b (kernel_iface_name cur_iface) ||
                      String.eqb b (iface_name cur_iface)
          | None => false
          end in
        (base_match || bool_decide (wifi_base_iface wifi = None)) && ssid_match
  end.

(** [find_connected_wifi_phy_for_cfg]. *)
Definition find_connected_wifi_phy_for_cfg (current : list (string * Interface))
    (cfg_wifi : option WifiConfig) : option Interface :=
  List.find (λ cur_iface, wifi_cfg_matches_phy cfg_wifi cur_iface &&
      bool_decide (bi_link_state (base_iface cur_iface) = Some LUp))
    current.*2.

(** Whether [name] names the up [wifi-cfg]: by its name or its SSID. *)
Definition wifi_cfg_named (i : Interface) (name : string) : option (option WifiConfig) :=
  match i with
  | IfWifiCfg b (Some wifi) =>
      if negb (state_is_up (bi_state b)) then None
      else if negb (String.eqb (bi_name b) name) && negb (String.eqb (wifi_ssid wifi) name)
      then None
      else Some (Some wifi)
  | _ => None
  end.

Fixpoint resolve_wifi_cfg (current : list (string * Interface)) (name : string)
    (l : list (string * InterfaceType * MergedInterface)) : option string :=
  match l with
  | [] => None
  | (_, mi) :: l' =>
      match wifi_cfg_named (mi_merged mi) name with
      | None => resolve_wifi_cfg current name l'
      | Some wifi =>
          match find_connected_wifi_phy_for_cfg current wifi with
          | Some cur_iface => Some (kernel_iface_name cur_iface)
          | None => resolve_wifi_cfg current name l'
          end
      end
  end.

(** [MergedInterfaces::resolve_route_next_hop_iface]. *)
Definition resolve_route_next_hop_iface (self : MergedInterfaces) (name : string) :
    option string :=
  match search_name (mis_search self) name with
  | Some kernel_iface_name => Some kernel_iface_name
  | None => resolve_wifi_cfg (current_kernel_ifaces self) name (user_ifaces self)
  end.

(** [MergedInterfaces::is_pending_wifi_cfg_route_target]. *)
Definition is_pending_wifi_cfg_route_target (self : MergedInterfaces) (name : string) :
    bool :=
  existsb (λ e : string * InterfaceType * MergedInterface,
    match mi_merged e.2 with
    | IfWifiCfg b wifi =>
        state_is_up (bi_state b) &&
        (String.eqb (bi_name b) name ||
         match wifi with Some w => String.eqb (wifi_ssid w) name | None => false end) &&
        match find_connected_wifi_phy_for_cfg (current_kernel_ifaces self) wifi with
        | None => true | Some _ => false
        end
    | _ => false
    end) (user_ifaces self).
