(* ===== verification/Interfaces.v ===== *)
(** * Interfaces: the collection of interfaces of a state

    [src/lib/schema/ifaces/inter_ifaces.rs]: [Interfaces] with its two maps,
    the insertion order its iterator follows, and the searches that find the
    current or the saved interface a desired one is about.  [drain],
    [iter_mut] and the serialization, which only call these, are not
    modelled. *)

From S2P Require Export Iface.

#[local] Open Scope Z_scope.

(** [InterfaceType] is a key of a [HashMap]. *)
Definition type_code (t : InterfaceType) : nat + string :=
  match t with
  | TBond => inl 0 | TLinuxBridge => inl 1 | TDummy => inl 2 | TEthernet => inl 3
  | THsr => inl 4 | TLoopback => inl 5 | TMacVlan => inl 6 | TMacVtap => inl 7
  | TOvsBridge => inl 8 | TOvsInterface => inl 9 | TVeth => inl 10 | TVlan => inl 11
  | TVrf => inl 12 | TVxlan => inl 13 | TInfiniBand => inl 14 | TTun => inl 15
  | TMacSec => inl 16 | TIpsec => inl 17 | TXfrm => inl 18 | TIpVlan => inl 19
  | TWifiPhy => inl 20 | TWifiCfg => inl 21 | TWireguard => inl 22
  | TUnknown s => inr s
  end%nat.

Definition type_decode (c : nat + string) : option InterfaceType :=
  match c with
  | inl n => [TBond; TLinuxBridge; TDummy; TEthernet; THsr; TLoopback; TMacVlan;
              TMacVtap; TOvsBridge; TOvsInterface; TVeth; TVlan; TVrf; TVxlan;
              TInfiniBand; TTun; TMacSec; TIpsec; TXfrm; TIpVlan; TWifiPhy;
              TWifiCfg; TWireguard] !! n
  | inr s => Some (TUnknown s)
  end.

#[export] Instance InterfaceType_countable : Countable InterfaceType.
Proof. apply (inj_countable type_code type_decode). by intros []. Defined.

Abbreviation IfaceKey := (string * InterfaceType)%type.

Record Interfaces : Type := interfaces {
  ifs_kernel : gmap string Interface;
  ifs_user : gmap IfaceKey Interface;
  insert_order : list IfaceKey;
  ifs_search : IfaceSearch;
}.

Definition interfaces_default : Interfaces := interfaces ∅ ∅ [] search_default.

Definition interfaces_is_empty (self : Interfaces) : bool :=
  bool_decide (ifs_kernel self = ∅) && bool_decide (ifs_user self = ∅).

Definition set_kernel_iface_name (i : Interface) (name : string) : Interface :=
  set_base i (set_bi_kernel_iface_name name (base_iface i)).

(** The interface [push] stores. *)
Definition pushed_iface (iface : Interface) : Interface :=
  if String.eqb (bi_kernel_iface_name (base_iface iface)) "" &&
     is_name_matching iface && negb (iface_is_userspace iface)
  then set_kernel_iface_name iface (iface_name iface) else iface.

(** The name [push] stores it under. *)
Definition pushed_name (iface : Interface) : string :=
  if String.eqb (kernel_iface_name iface) "" then iface_name iface
  else kernel_iface_name iface.

(** [Interfaces::push]. *)
Definition interfaces_push (self : Interfaces) (iface : Interface) : Interfaces :=
  let search := search_push (ifs_search self) iface in
  let iface := pushed_iface iface in
  let name := pushed_name iface in
  let order := insert_order self ++ [(name, iface_type iface)] in
  if iface_is_userspace iface then
    interfaces (ifs_kernel self) (<[(name, iface_type iface) := iface]> (ifs_user self))
      order search
  else
    interfaces (<[name := iface]> (ifs_kernel self)) (ifs_user self) order search.

(** [Interfaces::new]. *)
Definition interfaces_new (ifaces : list Interface) : Interfaces :=
  foldl interfaces_push interfaces_default ifaces.

(** [Interfaces::get]. *)
Definition interfaces_get (self : Interfaces) (b : BaseInterface) : option Interface :=
  if type_is_userspace (bi_iface_type b) then
    ifs_user self !! (bi_name b, bi_iface_type b)
  else if String.eqb (bi_kernel_iface_name b) "" then ifs_kernel self !! bi_name b
  else ifs_kernel self !! bi_kernel_iface_name b.

(** The closure of [Interfaces::iter], with the sets it has seen. *)
Fixpoint iter_from (self : Interfaces) (seen_kernel : gset string)
    (seen_user : gset IfaceKey) (order : list IfaceKey) : list Interface :=
  match order with
  | [] => []
  | (name, t) :: order' =>
      if type_is_userspace t then
        if decide ((name, t) ∈ seen_user) then iter_from self seen_kernel seen_user order'
        else
          option_list (ifs_user self !! (name, t)) ++
          iter_from self seen_kernel ({[ (name, t) ]} ∪ seen_user) order'
      else
        if decide (name ∈ seen_kernel) then iter_from self seen_kernel seen_user order'
        else
          option_list (ifs_kernel self !! name) ++
          iter_from self ({[ name ]} ∪ seen_kernel) seen_user order'
  end.

(** [Interfaces::iter]. *)
Definition interfaces_iter (self : Interfaces) : list Interface :=
  iter_from self ∅ ∅ (insert_order self).

(** The kernel interface a name stands for. *)
Definition search_kernel_name (self : Interfaces) (des : BaseInterface) : string :=
  if negb (String.eqb (bi_kernel_iface_name des) "") then bi_kernel_iface_name des
  else default (bi_name des) (search_name (ifs_search self) (bi_name des)).

(** [Interfaces::get_matched_iface_from_current]. *)
Definition get_matched_iface_from_current (self : Interfaces) (des : BaseInterface) :
    res (option Interface) :=
  match bi_identifier des with
  | None | Some IdName =>
      if type_is_userspace (bi_iface_type des) then
        Ok (ifs_user self !! (bi_name des, bi_iface_type des))
      else Ok (ifs_kernel self !! search_kernel_name self des)
  | Some IdMacAddress =>
      match bi_mac_address des with
      | None => fail InvalidArgument
      | Some mac =>
          match search_mac (ifs_search self) mac with
          | [] =>
              if state_is_absent (bi_state des) || state_is_ignore (bi_state des)
              then Ok None else fail InvalidArgument
          | name :: _ => Ok (ifs_kernel self !! name)
          end
      end
  end.

Definition is_mac_identified (i : Interface) : bool :=
  bool_decide (bi_identifier (base_iface i) = Some IdMacAddress).

(** [ret.is_none()] guards the next search. *)
Definition or_find (ret : option Interface) (f : Interface → bool)
    (l : list Interface) : option Interface :=
  match ret with
  | Some i => Some i
  | None => List.find (λ i, is_mac_identified i && f i) l
  end.

(** [Interfaces::get_matched_iface_from_save]. *)
Definition get_matched_iface_from_save (self : Interfaces) (des : BaseInterface) :
    option Interface :=
  match bi_identifier des with
  | None | Some IdName =>
      if type_is_userspace (bi_iface_type des) then
        ifs_user self !! (bi_name des, bi_iface_type des)
      else ifs_kernel self !! search_kernel_name self des
  | Some IdMacAddress =>
      let l := interfaces_iter self in
      let ret :=
        match bi_mac_address des with
        | Some mac => or_find None (λ i, bool_decide (bi_mac_address (base_iface i) = Some mac)) l
        | None => None
        end in
      let ret :=
        match bi_profile_name des with
        | Some p => or_find ret (λ i, bool_decide (bi_profile_name (base_iface i) = Some p)) l
        | None => ret
        end in
      let ret :=
        or_find ret (λ i, bool_decide (bi_profile_name (base_iface i) = Some (bi_name des))) l in
      or_find ret (λ i, String.eqb (bi_name (base_iface i)) (bi_name des)) l
  end.

(** ** What the iterator yields *)

(** The slot an interface is stored in. *)
Definition order_key (k : IfaceKey) : string + IfaceKey :=
  if type_is_userspace k.2 then inr k else inl k.1.

Definition iface_key (i : Interface) : string + IfaceKey :=
  order_key (pushed_name (pushed_iface i), iface_type (pushed_iface i)).

(** The first occurrence of every element. *)
Fixpoint firsts (seen l : list (string + IfaceKey)) : list (string + IfaceKey) :=
  match l with
  | [] => []
  | k :: l' => if decide (k ∈ seen) then firsts seen l' else k :: firsts (k :: seen) l'
  end.

(** The interface pushed last into a slot, as it is stored. *)
Definition last_pushed (l : list Interface) (k : string + IfaceKey) : option Interface :=
  pushed_iface <$> last (filter (λ i, iface_key i = k) l).

Definition slot_get (self : Interfaces) (k : string + IfaceKey) : option Interface :=
  match k with inl n => ifs_kernel self !! n | inr k => ifs_user self !! k end.

Lemma iter_from_firsts self sk su seen order :
  (∀ n, n ∈ sk ↔ inl n ∈ seen) → (∀ k, k ∈ su ↔ inr k ∈ seen) →
  iter_from self sk su order =
  omap (slot_get self) (firsts seen (order_key <$> order)).
Proof.
  revert sk su seen. induction order as [|[n t] order IH]; intros sk su seen Hk Hu; [done|].
  cbn [iter_from fmap list_fmap firsts].
  assert (order_key (n, t) = if type_is_userspace t then inr (n, t) else inl n) as Hk0
    by done.
  destruct (type_is_userspace t); rewrite Hk0.
  - destruct (decide ((n, t) ∈ su)) as [H|H], (decide (inr (n, t) ∈ seen)) as [H'|H'];
      [by apply IH|by rewrite Hu in H|by rewrite Hu in H|].
    rewrite (IH _ _ (inr (n, t) :: seen)); [|set_solver..].
    simpl. by destruct (ifs_user self !! (n, t)).
  - destruct (decide (n ∈ sk)) as [H|H], (decide (inl n ∈ seen)) as [H'|H'];
      [by apply IH|by rewrite Hk in H|by rewrite Hk in H|].
    rewrite (IH _ _ (inl n :: seen)); [|set_solver..].
    simpl. by destruct (ifs_kernel self !! n).
Qed.

Lemma last_pushed_snoc l i k :
  last_pushed (l ++ [i]) k =
  if decide (iface_key i = k) then Some (pushed_iface i) else last_pushed l k.
Proof.
  unfold last_pushed. rewrite filter_app, filter_cons, filter_nil.
  destruct (decide (iface_key i = k)); [by rewrite last_snoc|by rewrite app_nil_r].
Qed.

Lemma userspace_type i : iface_is_userspace i = type_is_userspace (iface_type i).
Proof. done. Qed.

(** The invariant of a collection built by [push]. *)
Lemma interfaces_new_slots l :
  (∀ k, slot_get (interfaces_new l) k = last_pushed l k ∨
        (∃ n t, k = inr (n, t) ∧ type_is_userspace t = false)) ∧
  order_key <$> insert_order (interfaces_new l) = iface_key <$> l.
Proof.
  induction l as [|i l [IHs IHo]] using rev_ind; [split; [by left; destruct k|done]|].
  unfold interfaces_new in *. rewrite foldl_app. cbn [foldl].
  set (s := foldl _ _ _) in *. unfold interfaces_push.
  set (p := pushed_iface i). split.
  - intros k. rewrite last_pushed_snoc.
    assert (iface_key i = order_key (pushed_name p, iface_type p)) as Hk by done.
    rewrite Hk. unfold order_key. cbn [fst snd]. rewrite userspace_type. fold p.
    destruct (type_is_userspace (iface_type p)) eqn:Hu; destruct (IHs k) as [IH|IH];
      try (by right); left; destruct k as [n|[n t]]; simpl in *; rewrite ?lookup_insert;
      repeat case_decide; simplify_eq; done.
  - destruct (iface_is_userspace p); cbn [insert_order];
      by rewrite !fmap_app, IHo.
Qed.

Lemma elem_of_firsts seen l k : k ∈ firsts seen l → k ∈ l.
Proof.
  revert seen. induction l as [|x l IH]; intros seen; simpl; [done|].
  case_decide; [intros ?%IH; set_solver|].
  intros [->|?%IH]%elem_of_cons; set_solver.
Qed.

(** Iterating a collection built by [push] yields, slot by slot in the
    order in which the slots were first filled, the interface pushed last into
    that slot: one slot per kernel interface name whatever its type, one per
    name and type of a userspace interface. *)
Theorem interfaces_iter_insertion_order l :
  interfaces_iter (interfaces_new l) =
  omap (last_pushed l) (firsts [] (iface_key <$> l)).
Proof.
  destruct (interfaces_new_slots l) as [Hs Ho]. unfold interfaces_iter.
  rewrite (iter_from_firsts _ _ _ []), Ho; [|set_solver..].
  apply omap_ext_in. intros k Hk%elem_of_firsts.
  destruct (Hs k) as [->|(n & t & -> & Ht)]; [done|].
  apply list_elem_of_fmap in Hk as (i & Hi & _). unfold iface_key, order_key in Hi.
  cbn [fst snd] in Hi. destruct (type_is_userspace _) eqn:?; congruence.
Qed.

Definition ex_iface (n : string) (t : InterfaceType) : Interface :=
  IfUnknown (base_new n t).

Example interfaces_iter_ex :
  iface_type <$> interfaces_iter (interfaces_new
    [ex_iface "eth0" TEthernet; ex_iface "br0" TOvsBridge; ex_iface "br0" TLinuxBridge;
     ex_iface "eth0" TVeth]) = [TVeth; TOvsBridge; TLinuxBridge].
Proof. vm_compute. reflexivity. Qed.
