(* ===== verification/IfaceDiff.v ===== *)
(** * IfaceDiff: merging, comparing and reverting interfaces

    [src/lib/schema/iface.rs]: the dispatch of the trait [NipartInterface] to the
    interface kinds; [schema/merged/iface.rs] ([Interface::merge]),
    [schema/gen_diff/iface.rs] and [schema/revert/iface.rs]: the interface that
    results from a desired and a previous one, the difference an apply sends, and
    what undoes it.  They go through JSON, so they have the derived serialization as
    parameter ([Serde]).

    [Interface::from] has no case for some types and panics; an [outcome] is the
    result of code that can do so. *)

From S2P Require Export Iface.

#[local] Open Scope Z_scope.

(** ** Panics *)

Inductive Failure : Type :=
| Failed (e : NipartError)
| Panicked.

#[export] Instance Failure_eq_dec : EqDecision Failure.
Proof. solve_decision. Defined.

Abbreviation outcome A := (result Failure A).

Definition lift {A} (r : res A) : outcome A :=
  match r with Ok x => Ok x | Err e => Err (Failed e) end.

Definition or_panic {A} (x : option A) : outcome A :=
  match x with Some x => Ok x | None => Err Panicked end.

Lemma lift_ok {A} (r : res A) x : lift r = Ok x ↔ r = Ok x.
Proof. destruct r; simpl; split; congruence. Qed.

(** ** The interface kinds of the enum *)

Definition as_ethernet (i : Interface) : option EthernetInterface :=
  match i with IfEthernet b c => Some (kind_iface b c) | _ => None end.
Definition of_ethernet (i : EthernetInterface) : Interface := IfEthernet (k_base i) (k_conf i).

Definition as_ovs_bridge (i : Interface) : option OvsBridgeInterface :=
  match i with IfOvsBridge b c => Some (kind_iface b c) | _ => None end.
Definition of_ovs_bridge (i : OvsBridgeInterface) : Interface := IfOvsBridge (k_base i) (k_conf i).

Definition as_ovs_iface (i : Interface) : option BaseInterface :=
  match i with IfOvsInterface b => Some b | _ => None end.

Definition as_loopback (i : Interface) : option BaseInterface :=
  match i with IfLoopback b => Some b | _ => None end.

Definition as_wifi_phy (i : Interface) : option WifiInterface :=
  match i with IfWifiPhy b c => Some (kind_iface b c) | _ => None end.
Definition of_wifi_phy (i : WifiInterface) : Interface := IfWifiPhy (k_base i) (k_conf i).

Definition as_wifi_cfg (i : Interface) : option WifiInterface :=
  match i with IfWifiCfg b c => Some (kind_iface b c) | _ => None end.
Definition of_wifi_cfg (i : WifiInterface) : Interface := IfWifiCfg (k_base i) (k_conf i).

Definition as_dummy (i : Interface) : option BaseInterface :=
  match i with IfDummy b => Some b | _ => None end.

Definition as_vlan (i : Interface) : option VlanInterface :=
  match i with IfVlan b c => Some (kind_iface b c) | _ => None end.
Definition of_vlan (i : VlanInterface) : Interface := IfVlan (k_base i) (k_conf i).

Definition as_vrf (i : Interface) : option VrfInterface :=
  match i with IfVrf b c => Some (kind_iface b c) | _ => None end.
Definition of_vrf (i : VrfInterface) : Interface := IfVrf (k_base i) (k_conf i).

Definition as_vxlan (i : Interface) : option VxlanInterface :=
  match i with IfVxlan b c => Some (kind_iface b c) | _ => None end.
Definition of_vxlan (i : VxlanInterface) : Interface := IfVxlan (k_base i) (k_conf i).

Definition as_bond (i : Interface) : option BondInterface :=
  match i with IfBond i => Some i | _ => None end.

Definition as_linux_bridge (i : Interface) : option LinuxBridgeInterface :=
  match i with IfLinuxBridge i => Some i | _ => None end.

Definition as_macsec (i : Interface) : option MacSecInterface :=
  match i with IfMacSec b c => Some (kind_iface b c) | _ => None end.
Definition of_macsec (i : MacSecInterface) : Interface := IfMacSec (k_base i) (k_conf i).

Definition as_wireguard (i : Interface) : option WireguardInterface :=
  match i with IfWireguard b c => Some (kind_iface b c) | _ => None end.
Definition of_wireguard (i : WireguardInterface) : Interface := IfWireguard (k_base i) (k_conf i).

Definition as_unknown (i : Interface) : option BaseInterface :=
  match i with IfUnknown b => Some b | _ => None end.

(** [Interface::default]. *)
Definition iface_default : Interface := IfUnknown (base_default (TUnknown "unknown")).

(** ** The dispatch *)

(** [gen_sanitize!]: all interfaces are of the kind of the desired one. *)
Definition sanitize_as {K} (as_kind : Interface → option K) (of_kind : K → Interface)
    (f : option K → Targets K → res (Targets K)) (current : option Interface)
    (t : Targets Interface) : res (Targets Interface) :=
  let? cur_iface :=
    match current with
    | None => Ok None
    | Some c => match as_kind c with Some k => Ok (Some k) | None => fail Bug end
    end in
  match as_kind (t_save t), as_kind (t_apply t), as_kind (t_verify t), as_kind (t_merged t) with
  | Some save, Some apply, Some verify, Some merged =>
      let? t := f cur_iface (targets save apply verify merged) in
      Ok (map_targets of_kind t)
  | _, _, _, _ => fail Bug
  end.

Section Sanitize.
(** [str::to_uppercase]. *)
Context (to_uppercase : string → string).

(** [NipartInterface::sanitize for Interface]. *)
Definition iface_sanitize (self : Interface) : option Interface → Targets Interface →
    res (Targets Interface) :=
  match self with
  | IfEthernet b c =>
      sanitize_as as_ethernet of_ethernet
        (λ cur t, let? _ := ethernet_sanitize (kind_iface b c) cur in Ok t)
  | IfOvsBridge _ _ => sanitize_as as_ovs_bridge of_ovs_bridge (λ _ t, Ok t)
  | IfOvsInterface _ => sanitize_as as_ovs_iface IfOvsInterface (λ _ t, Ok t)
  | IfLoopback b => sanitize_as as_loopback IfLoopback (λ _ t, loopback_sanitize b t)
  | IfWifiPhy b c =>
      sanitize_as as_wifi_phy of_wifi_phy
        (λ _ t, wifi_phy_sanitize to_uppercase (kind_iface b c) t)
  | IfWifiCfg _ _ =>
      sanitize_as as_wifi_cfg of_wifi_cfg (λ _ t, Ok (wifi_cfg_sanitize to_uppercase t))
  | IfDummy _ => sanitize_as as_dummy IfDummy (λ _ t, Ok t)
  | IfVlan b c => sanitize_as as_vlan of_vlan (vlan_sanitize (kind_iface b c))
  | IfVrf b c => sanitize_as as_vrf of_vrf (vrf_sanitize (kind_iface b c))
  | IfVxlan b c => sanitize_as as_vxlan of_vxlan (vxlan_sanitize (kind_iface b c))
  | IfBond i => sanitize_as as_bond IfBond (bond_sanitize to_uppercase i)
  | IfLinuxBridge i => sanitize_as as_linux_bridge IfLinuxBridge (linux_bridge_sanitize i)
  | IfMacSec b c => sanitize_as as_macsec of_macsec (macsec_sanitize (kind_iface b c))
  | IfWireguard b c => sanitize_as as_wireguard of_wireguard (wireguard_sanitize (kind_iface b c))
  | IfUnknown _ => sanitize_as as_unknown IfUnknown (λ _ t, Ok t)
  end.

End Sanitize.

(** [hide_secrets]. *)
Definition iface_hide_secrets (i : Interface) : Interface :=
  match i with
  | IfWifiPhy b c => IfWifiPhy b (hide_wifi_secrets <$> c)
  | IfWifiCfg b c => IfWifiCfg b (hide_wifi_secrets <$> c)
  | IfMacSec b c => IfMacSec b (macsec_hide_secrets <$> c)
  | IfWireguard b c => IfWireguard b (wireguard_hide_secrets <$> c)
  | _ => i
  end.

(** [sanitize_before_verify]: the new desired and current interface. *)
Definition iface_sanitize_before_verify (self current : Interface) : Interface * Interface :=
  match self, current with
  | IfWifiPhy b c, IfWifiPhy b' c' =>
      let '(i, i') := wifi_phy_sanitize_before_verify (kind_iface b c) (kind_iface b' c') in
      (of_wifi_phy i, of_wifi_phy i')
  | IfWifiCfg b c, IfWifiCfg b' c' =>
      let '(i, i') := wifi_cfg_sanitize_before_verify (kind_iface b c) (kind_iface b' c') in
      (of_wifi_cfg i, of_wifi_cfg i')
  | IfVlan _ _, IfVlan b' c' => (self, of_vlan (vlan_sanitize_before_verify (kind_iface b' c')))
  | IfBond i, IfBond i' =>
      let '(i, i') := bond_sanitize_before_verify i i' in (IfBond i, IfBond i')
  | IfLinuxBridge i, IfLinuxBridge i' =>
      (self, IfLinuxBridge (linux_bridge_sanitize_before_verify i i'))
  | IfMacSec b c, IfMacSec _ _ => (of_macsec (macsec_sanitize_before_verify (kind_iface b c)), current)
  | _, _ => (self, current)
  end.

(** [include_diff_context]: [self] is the difference. *)
Definition iface_include_diff_context (self desired current : Interface) : Interface :=
  match self, desired, current with
  | IfWifiPhy b c, IfWifiPhy b' c', IfWifiPhy b'' c'' =>
      of_wifi_phy (wifi_include_diff_context (kind_iface b c) (kind_iface b' c') (kind_iface b'' c''))
  | IfWifiCfg b c, IfWifiCfg b' c', IfWifiCfg b'' c'' =>
      of_wifi_cfg (wifi_include_diff_context (kind_iface b c) (kind_iface b' c') (kind_iface b'' c''))
  | IfVlan b c, IfVlan b' c', IfVlan b'' c'' =>
      of_vlan (vlan_include_diff_context (kind_iface b c) (kind_iface b' c') (kind_iface b'' c''))
  | IfLinuxBridge i, IfLinuxBridge i', IfLinuxBridge i'' =>
      IfLinuxBridge (linux_bridge_include_diff_context i i' i'')
  | IfMacSec b c, IfMacSec b' c', IfMacSec b'' c'' =>
      of_macsec (macsec_include_diff_context (kind_iface b c) (kind_iface b' c') (kind_iface b'' c''))
  | _, _, _ => self
  end.

(** [post_merge]: [self] is the merged interface. *)
Definition iface_post_merge (self new_state old_state : Interface) : Interface :=
  match self, new_state, old_state with
  | IfWifiPhy b c, IfWifiPhy b' c', IfWifiPhy b'' c'' =>
      of_wifi_phy (wifi_iface_post_merge (kind_iface b c) (kind_iface b' c') (kind_iface b'' c''))
  | IfWifiCfg b c, IfWifiCfg b' c', IfWifiCfg b'' c'' =>
      of_wifi_cfg (wifi_iface_post_merge (kind_iface b c) (kind_iface b' c') (kind_iface b'' c''))
  | IfBond i, IfBond i', IfBond i'' => IfBond (bond_post_merge i i' i'')
  | _, _, _ => self
  end.

(** ** Through JSON *)

Definition set_state (s : InterfaceState) : Interface → Interface := upd_base (set_bi_state s).

Definition clone_name_type_only (i : Interface) : outcome Interface :=
  or_panic (iface_clone_name_type_only i).

Section Diff.
Context {Num : Type} `{!EqDecision Num} `{!Serde Num Interface} `{!Serde Num (list AltNameEntry)}.

(** [Interface::merge]. *)
Definition iface_merge (self new_state : Interface) : res Interface :=
  let? ret := json_merge self new_state in
  let ret := upd_base (λ b, base_post_merge b (base_iface self)) ret in
  Ok (iface_post_merge ret new_state self).

(** The MAC address that identifies the interface is part of every difference. *)
Definition keep_mac_identifier (self diff : Interface) : Interface :=
  if bool_decide (bi_identifier (base_iface self) = Some IdMacAddress) then
    upd_base (λ b,
      let b := set_bi_identifier (Some IdMacAddress) b in
      match bi_mac_address (base_iface self) with
      | Some mac => set_bi_mac_address (Some mac) b
      | None => b
      end) diff
  else diff.

(** [Interface::gen_diff]. *)
Definition iface_gen_diff (self old : Interface) : outcome (option Interface) :=
  if iface_is_absent self then Ok (Some (set_state SAbsent old))
  else
    let? des_value := lift (to_value self) in
    let? old_value := lift (to_value old) in
    match gen_diff_json_value des_value old_value with
    | None => Ok None
    | Some diff_value =>
        let? new_iface := clone_name_type_only self in
        let new_iface := set_state (bi_state (base_iface self)) new_iface in
        let? new_iface_value := lift (to_value new_iface) in
        let? new_iface := lift (from_value (copy_undefined_value new_iface_value diff_value)) in
        let new_iface := iface_include_diff_context new_iface self old in
        Ok (Some (keep_mac_identifier self new_iface))
    end.

(** [Interface::gen_diff_for_apply]. *)
Definition drop_description (i : Interface) : Interface := upd_base (set_bi_description None) i.

Definition gen_diff_for_apply (self old : Interface) : outcome (option Interface) :=
  iface_gen_diff (drop_description self) (drop_description old).

(** The alternative names that undo what the apply does to them. *)
Definition revert_alt_name (cur_alt_names : list string) (des_alt_name : AltNameEntry) :
    option AltNameEntry :=
  let in_current := bool_decide (an_name des_alt_name ∈ cur_alt_names) in
  if negb (an_absent des_alt_name) && negb in_current
  then Some (alt_name_entry (an_name des_alt_name) true)
  else if an_absent des_alt_name && in_current
  then Some (alt_name_entry (an_name des_alt_name) false)
  else None.

Definition gen_revert_alt_names (des : list AltNameEntry) (cur : option (list AltNameEntry)) :
    list AltNameEntry :=
  omap (revert_alt_name (map an_name (default [] cur))) des.

(** [value[key] = v]: anything but an object and [null] panics. *)
Definition index_mut (key : string) (v value : Value Num) : outcome (Value Num) :=
  match value with
  | Object m => Ok (Object (obj_insert key v m))
  | Null => Ok (Object [(key, v)])
  | _ => Err Panicked
  end.

(** [is_no_op]. *)
Definition is_no_op (revert_iface desired_iface : Interface) : bool :=
  match to_value revert_iface, to_value desired_iface with
  | Ok revert_value, Ok desired_value => value_eqb revert_value desired_value
  | _, _ => false
  end.

(** [Interface::generate_revert].  No kind adds anything to the revert context of the
    base. *)
Definition iface_generate_revert (self : Interface) (current : option Interface) :
    outcome (option Interface) :=
  if iface_is_absent self then Ok current
  else
    match current with
    | None => Ok (Some (set_state SAbsent self))
    | Some current =>
        let? name_type_only := clone_name_type_only current in
        let? revert_value := lift (to_value name_type_only) in
        let? desired_value := lift (to_value self) in
        let? current_value := lift (to_value current) in
        let revert_value := gen_revert_state desired_value current_value revert_value in
        let? revert_value :=
          match bi_alt_names (base_iface self) with
          | None => Ok revert_value
          | Some des_alt_names =>
              match gen_revert_alt_names des_alt_names (bi_alt_names (base_iface current)) with
              | [] => Ok revert_value
              | revert_alt_names =>
                  let? v := lift (to_value revert_alt_names) in
                  index_mut "alt-names" v revert_value
              end
          end in
        let? revert_iface := lift (from_value revert_value) in
        let revert_iface :=
          upd_base (λ b, base_include_revert_context b (base_iface current)) revert_iface in
        Ok (if is_no_op revert_iface self then None else Some revert_iface)
    end.

(** [Interface::verify]. *)
Definition iface_verify (self current : Interface) : res () :=
  let? self_value := to_value self in
  let? current_value := to_value current in
  match get_json_value_difference (iface_name self +:+ ".interface") self_value current_value with
  | Some _ => fail VerificationError
  | None => Ok ()
  end.

End Diff.
