(* ===== verification/Eff.v ===== *)
(** * Eff: computations with effects

    The asynchronous functions that ask the kernel, the plugins and the other workers for
    something: each step has the state [K] of what is outside, and an [outcome].  The
    state stays changed when a step fails. *)

From S2P Require Export IfaceDiff.

Definition Eff (K A : Type) : Type := K → outcome A * K.

#[export] Instance Eff_ret {K} : MRet (Eff K) := λ A a k, (Ok a, k).
#[export] Instance Eff_bind {K} : MBind (Eff K) := λ A B f x k,
  match x k with
  | (Ok a, k') => f a k'
  | (Err e, k') => (Err e, k')
  end.

Definition eff_of {K A} (r : outcome A) : Eff K A := λ k, (r, k).
Definition eff_res {K A} (r : res A) : Eff K A := eff_of (lift r).
Definition eff_fail {K A} (e : ErrorKind) : Eff K A := eff_res (fail e).

(** What an operation of the outside answers. *)
Definition eff_call {K A} (f : K → res A * K) : Eff K A :=
  λ k, let '(r, k') := f k in (lift r, k').

(** What is read of the outside. *)
Definition eff_read {K A} (f : K → res A) : Eff K A := λ k, (lift (f k), k).

(** [match f().await]: an error is a value, a panic is not. *)
Definition eff_try {K A} (x : Eff K A) : Eff K (res A) := λ k,
  match x k with
  | (Ok a, k') => (Ok (Ok a), k')
  | (Err (Failed e), k') => (Ok (Err e), k')
  | (Err Panicked, k') => (Err Panicked, k')
  end.

Fixpoint eff_each {K A} (f : A → Eff K ()) (l : list A) : Eff K () :=
  match l with [] => mret () | x :: l' => f x ≫= λ _, eff_each f l' end.

(** ** Inversion *)

Section Inversion.
Context {K A B : Type}.

Lemma eff_bind_run (x : Eff K A) (f : A → Eff K B) k :
  (x ≫= f) k = match x k with (Ok a, k') => f a k' | (Err e, k') => (Err e, k') end.
Proof. done. Qed.

Lemma eff_bind_ok (x : Eff K A) (f : A → Eff K B) k b k' :
  (x ≫= f) k = (Ok b, k') ↔ ∃ a k1, x k = (Ok a, k1) ∧ f a k1 = (Ok b, k').
Proof.
  rewrite eff_bind_run. destruct (x k) as [[a|e] k1]; split; [eauto| | |]; naive_solver.
Qed.

Lemma eff_bind_err (x : Eff K A) (f : A → Eff K B) k e k' :
  (x ≫= f) k = (Err e, k') ↔
    x k = (Err e, k') ∨ ∃ a k1, x k = (Ok a, k1) ∧ f a k1 = (Err e, k').
Proof. unfold mbind, Eff_bind. destruct (x k) as [[a|e'] k1]; naive_solver. Qed.

Lemma eff_try_ok (x : Eff K A) k a k' : eff_try x k = (Ok (Ok a), k') ↔ x k = (Ok a, k').
Proof. unfold eff_try. destruct (x k) as [[a'|[e|]] k1]; naive_solver. Qed.

Lemma eff_try_failed (x : Eff K A) k e k' : eff_try x k = (Ok (Err e), k') ↔ x k = (Err (Failed e), k').
Proof. unfold eff_try. destruct (x k) as [[a'|[e'|]] k1]; naive_solver. Qed.

Lemma eff_try_err (x : Eff K A) k e k' : eff_try x k = (Err e, k') ↔ e = Panicked ∧ x k = (Err Panicked, k').
Proof. unfold eff_try. destruct (x k) as [[a'|[e'|]] k1]; naive_solver. Qed.

End Inversion.

(** A property of the state that every step keeps. *)
Definition keeps {K A} (P : K → K → Prop) (x : Eff K A) : Prop := ∀ k r k', x k = (r, k') → P k k'.

Section Keeps.
Context {K : Type} (P : K → K → Prop) `{!Reflexive P} `{!Transitive P}.

Lemma eff_keeps_ret {A} (a : A) : keeps P (mret a : Eff K A).
Proof. by intros k r k' [= _ <-]. Qed.

Lemma keeps_of {A} (r : outcome A) : keeps P (eff_of r : Eff K A).
Proof. by intros k r' k' [= _ <-]. Qed.

Lemma keeps_res {A} (r : res A) : keeps P (eff_res r : Eff K A).
Proof. apply keeps_of. Qed.

Lemma eff_keeps_bind {A B} (x : Eff K A) (f : A → Eff K B) :
  keeps P x → (∀ a, keeps P (f a)) → keeps P (x ≫= f).
Proof.
  intros Hx Hf k r k'. unfold mbind, Eff_bind. destruct (x k) as [[a|e] k1] eqn:E.
  - intros H. transitivity k1; [by eapply Hx|by eapply Hf].
  - intros [= _ <-]. by eapply Hx.
Qed.

Lemma keeps_call {A} (f : K → res A * K) : (∀ k, P k (f k).2) → keeps P (eff_call f).
Proof. intros Hf k r k'. unfold eff_call. specialize (Hf k). destruct (f k). by intros [= _ <-]. Qed.

Lemma keeps_try {A} (x : Eff K A) : keeps P x → keeps P (eff_try x).
Proof.
  intros Hx k r k'. unfold eff_try. destruct (x k) as [[a|[e|]] k1] eqn:E; intros [= _ <-]; by eapply Hx.
Qed.

Lemma keeps_each {A} (f : A → Eff K ()) l : (∀ x, keeps P (f x)) → keeps P (eff_each f l).
Proof. intros Hf. induction l as [|x l IH]; [apply eff_keeps_ret|]. by apply eff_keeps_bind. Qed.

End Keeps.

#[export] Hint Resolve eff_keeps_ret keeps_of keeps_res keeps_call keeps_try keeps_each : keeps.
