(* ===== verification/SectionSerde.v ===== *)
(** * SectionSerde: a serialization of interfaces

    A concrete instance of [Serde] for the examples and witnesses: an interface is a
    JSON object with a key per property that is set, as the derived serialization
    makes it, but a section with properties of its own is one opaque value.  What it
    serializes is read back ([section_serde_roundtrip]). *)

From S2P Require Export IfaceDiff.

#[local] Open Scope Z_scope.

#[export] Instance VxlanConfig_eq_dec : EqDecision VxlanConfig.
Proof. solve_decision. Defined.
#[export] Instance Interface_eq_dec : EqDecision Interface.
Proof. unfold EqDecision, VethConfig, OvsBridgeConfig. solve_decision. Defined.

(** The opaque values. *)
Inductive Leaf : Type :=
| LType (t : InterfaceType) | LState (s : InterfaceState) | LIdentifier (i : InterfaceIdentifier)
| LAutoConnect (a : InterfaceAutoConnect) | LLinkState (l : InterfaceLinkState)
| LIpv4 (i : InterfaceIpv4) | LIpv6 (i : InterfaceIpv6) | LInt (n : Z)
| LAltNames (l : list AltNameEntry) | LSection (i : Interface).

#[export] Instance Leaf_eq_dec : EqDecision Leaf.
Proof. solve_decision. Defined.

(** The interface without its base, if it has a section. *)
Definition no_base : BaseInterface := base_default TEthernet.

Definition section_of (i : Interface) : option Interface :=
  match i with
  | IfEthernet _ (Some c) => Some (IfEthernet no_base (Some c))
  | IfOvsBridge _ (Some c) => Some (IfOvsBridge no_base (Some c))
  | IfWifiPhy _ (Some c) => Some (IfWifiPhy no_base (Some c))
  | IfWifiCfg _ (Some c) => Some (IfWifiCfg no_base (Some c))
  | IfVlan _ (Some c) => Some (IfVlan no_base (Some c))
  | IfVrf _ (Some c) => Some (IfVrf no_base (Some c))
  | IfVxlan _ (Some c) => Some (IfVxlan no_base (Some c))
  | IfBond (bond_interface _ (Some c)) => Some (IfBond (bond_interface no_base (Some c)))
  | IfLinuxBridge (linux_bridge_interface _ (Some c)) =>
      Some (IfLinuxBridge (linux_bridge_interface no_base (Some c)))
  | IfMacSec _ (Some c) => Some (IfMacSec no_base (Some c))
  | IfWireguard _ (Some c) => Some (IfWireguard no_base (Some c))
  | _ => None
  end.

Definition non_empty (s : string) : option string := if String.eqb s "" then None else Some s.

Definition leaf {A} (f : A → Leaf) (x : A) : Value Leaf := Number (f x).

(** The properties in the order of their keys; those that are not set are left out. *)
Definition fields (i : Interface) : list (string * option (Value Leaf)) :=
  let b := base_iface i in
  [("alt-names", leaf LAltNames <$> bi_alt_names b);
   ("auto-connect", leaf LAutoConnect <$> bi_auto_connect b);
   ("controller", VString <$> bi_controller b);
   ("controller-type", leaf LType <$> bi_controller_type b);
   ("description", VString <$> bi_description b);
   ("driver", VString <$> bi_driver b);
   ("identifier", leaf LIdentifier <$> bi_identifier b);
   ("iface-index", leaf LInt <$> bi_iface_index b);
   ("ipv4", leaf LIpv4 <$> bi_ipv4 b);
   ("ipv6", leaf LIpv6 <$> bi_ipv6 b);
   ("kernel-iface-name", VString <$> non_empty (bi_kernel_iface_name b));
   ("link-state", leaf LLinkState <$> bi_link_state b);
   ("mac-address", VString <$> bi_mac_address b);
   ("max-mtu", leaf LInt <$> bi_max_mtu b);
   ("min-mtu", leaf LInt <$> bi_min_mtu b);
   ("mtu", leaf LInt <$> bi_mtu b);
   ("name", VString <$> Some (bi_name b));
   ("pci-address", VString <$> bi_pci_address b);
   ("permanent-mac-address", VString <$> bi_permanent_mac_address b);
   ("profile-name", VString <$> bi_profile_name b);
   ("section", leaf LSection <$> section_of i);
   ("state", leaf LState <$> Some (bi_state b));
   ("type", leaf LType <$> Some (bi_iface_type b))].

Fixpoint present (l : list (string * option (Value Leaf))) : list (string * Value Leaf) :=
  match l with
  | [] => []
  | (k, Some v) :: l' => (k, v) :: present l'
  | (_, None) :: l' => present l'
  end.

Definition to_entries (i : Interface) : list (string * Value Leaf) := present (fields i).

Definition get_string (k : string) (m : list (string * Value Leaf)) : option string :=
  match obj_get k m with Some (VString s) => Some s | _ => None end.

Definition get_leaf {A} (k : string) (f : Leaf → option A) (m : list (string * Value Leaf)) : option A :=
  match obj_get k m with Some (Number l) => f l | _ => None end.

Definition leaf_type (l : Leaf) := match l with LType t => Some t | _ => None end.
Definition leaf_int (l : Leaf) := match l with LInt n => Some n | _ => None end.

Definition base_of_entries (m : list (string * Value Leaf)) : BaseInterface :=
  base_interface (default "" (get_string "name" m)) (default "" (get_string "kernel-iface-name" m))
    (get_string "profile-name" m) (get_string "description" m)
    (default (TUnknown "unknown") (get_leaf "type" leaf_type m))
    (get_leaf "identifier" (λ l, match l with LIdentifier i => Some i | _ => None end) m)
    (get_leaf "iface-index" leaf_int m)
    (default SUp (get_leaf "state" (λ l, match l with LState s => Some s | _ => None end) m))
    (get_leaf "auto-connect" (λ l, match l with LAutoConnect a => Some a | _ => None end) m)
    (get_leaf "link-state" (λ l, match l with LLinkState s => Some s | _ => None end) m)
    (get_string "controller" m) (get_leaf "controller-type" leaf_type m)
    (get_string "mac-address" m) (get_string "permanent-mac-address" m)
    (get_string "driver" m) (get_string "pci-address" m)
    (get_leaf "mtu" leaf_int m) (get_leaf "min-mtu" leaf_int m) (get_leaf "max-mtu" leaf_int m)
    (get_leaf "alt-names" (λ l, match l with LAltNames a => Some a | _ => None end) m)
    (get_leaf "ipv4" (λ l, match l with LIpv4 i => Some i | _ => None end) m)
    (get_leaf "ipv6" (λ l, match l with LIpv6 i => Some i | _ => None end) m).

(** The variant is that of the section, or of the type when there is none. *)
Definition of_entries (m : list (string * Value Leaf)) : Interface :=
  let b := base_of_entries m in
  match get_leaf "section" (λ l, match l with LSection i => Some i | _ => None end) m with
  | Some i => set_base i b
  | None =>
      match bi_iface_type b with
      | TVeth => IfEthernet b None
      | _ => default (IfUnknown b) (interface_from_base b)
      end
  end.

#[export] Instance section_serde : Serde Leaf Interface := {
  to_value i := Ok (Object (to_entries i));
  from_value v := match v with Object m => Ok (of_entries m) | _ => fail Bug end;
}.

#[export] Instance alt_names_serde : Serde Leaf (list AltNameEntry) := {
  to_value l := Ok (Number (LAltNames l));
  from_value v := match v with Number (LAltNames l) => Ok l | _ => fail Bug end;
}.

(** ** Reading back *)

Fixpoint find_key (k : string) (l : list (string * option (Value Leaf))) : option (Value Leaf) :=
  match l with
  | [] => None
  | (k', v) :: l' => if String.eqb k k' then v else find_key k l'
  end.

Lemma obj_get_absent k l : k ∉ l.*1 → obj_get k (present l) = None.
Proof.
  induction l as [|[k' [v|]] l IH]; simpl; [done|..]; rewrite not_elem_of_cons; intros [Hk Hl].
  - rewrite (proj2 (String.eqb_neq _ _) Hk). by apply IH.
  - by apply IH.
Qed.

Lemma obj_get_present k l : NoDup l.*1 → obj_get k (present l) = find_key k l.
Proof.
  induction l as [|[k' [v|]] l IH]; simpl; [done|..]; rewrite NoDup_cons; intros [Hk Hl].
  - destruct (String.eqb_spec k k'); [done|by apply IH].
  - destruct (String.eqb_spec k k') as [->|]; [by apply obj_get_absent|by apply IH].
Qed.

Lemma fields_distinct i : NoDup (fields i).*1.
Proof.
  replace (fields i).*1 with (fields iface_default).*1 by reflexivity.
  apply (bool_decide_unpack _). vm_compute. exact I.
Qed.

Lemma obj_get_to_entries k i : obj_get k (to_entries i) = find_key k (fields i).
Proof. apply obj_get_present, fields_distinct. Qed.

Lemma base_eta b :
  b = base_interface (bi_name b) (bi_kernel_iface_name b) (bi_profile_name b) (bi_description b)
        (bi_iface_type b) (bi_identifier b) (bi_iface_index b) (bi_state b) (bi_auto_connect b)
        (bi_link_state b) (bi_controller b) (bi_controller_type b) (bi_mac_address b)
        (bi_permanent_mac_address b) (bi_driver b) (bi_pci_address b) (bi_mtu b) (bi_min_mtu b)
        (bi_max_mtu b) (bi_alt_names b) (bi_ipv4 b) (bi_ipv6 b).
Proof. by destruct b. Qed.

Lemma base_of_to_entries i : base_of_entries (to_entries i) = base_iface i.
Proof.
  rewrite (base_eta (base_iface i)). unfold base_of_entries. f_equal;
    unfold get_string, get_leaf; rewrite obj_get_to_entries;
    cbv [find_key fields String.eqb Ascii.eqb Bool.eqb]; try done;
    try (match goal with |- _ = ?y => by destruct y end).
Qed.

(** The variant of an interface is that of its type. *)
Definition variant_ok (i : Interface) : Prop :=
  match section_of i with
  | Some _ => True
  | None => match bi_iface_type (base_iface i) with
            | TVeth => i = IfEthernet (base_iface i) None
            | _ => default (IfUnknown (base_iface i)) (interface_from_base (base_iface i)) = i
            end
  end.

Lemma section_serde_roundtrip i v :
  variant_ok i → to_value i = Ok v → from_value v = Ok i.
Proof.
  unfold variant_ok. simpl. intros Hv [= <-]. simpl. f_equal. unfold of_entries.
  rewrite base_of_to_entries. unfold get_leaf. rewrite obj_get_to_entries.
  change (find_key "section" (fields i)) with (leaf LSection <$> section_of i).
  destruct (section_of i) as [c|] eqn:Es; [|by destruct (bi_iface_type (base_iface i))].
  simpl. destruct i as [? []|? []| | |? []|? []| |? []|? []|? []|[? []]|[? []]|? []|? []|]; try done;
    injection Es as <-; done.
Qed.
