(* ===== verification/MergedIface.v ===== *)
(** * MergedIface: one interface of an apply

    [src/lib/schema/merged/iface.rs]: from the desired, the current and the saved
    state of an interface [MergedInterface::new] computes what is applied, verified,
    saved and reverted, and [apply_ctrller_change] is what a change of the port list
    of a controller does to a port. *)

From S2P Require Export IfaceDiff.

#[local] Open Scope Z_scope.

(** The fields that the code assigns to. *)
Definition set_mi_merged (v : Interface) (m : MergedInterface) : MergedInterface :=
  merged_interface (mi_desired m) (mi_current m) v (mi_for_apply m) (mi_for_verify m)
    (mi_for_save m) (mi_for_revert m) (mi_up_priority m) (mi_will_delete m).

Definition set_mi_for_apply (v : option Interface) (m : MergedInterface) : MergedInterface :=
  merged_interface (mi_desired m) (mi_current m) (mi_merged m) v (mi_for_verify m)
    (mi_for_save m) (mi_for_revert m) (mi_up_priority m) (mi_will_delete m).

Definition set_mi_for_verify (v : option Interface) (m : MergedInterface) : MergedInterface :=
  merged_interface (mi_desired m) (mi_current m) (mi_merged m) (mi_for_apply m) v
    (mi_for_save m) (mi_for_revert m) (mi_up_priority m) (mi_will_delete m).

Definition set_mi_for_save (v : option Interface) (m : MergedInterface) : MergedInterface :=
  merged_interface (mi_desired m) (mi_current m) (mi_merged m) (mi_for_apply m)
    (mi_for_verify m) v (mi_for_revert m) (mi_up_priority m) (mi_will_delete m).

Definition set_mi_for_revert (v : option Interface) (m : MergedInterface) : MergedInterface :=
  merged_interface (mi_desired m) (mi_current m) (mi_merged m) (mi_for_apply m)
    (mi_for_verify m) (mi_for_save m) v (mi_up_priority m) (mi_will_delete m).

Definition set_mi_up_priority (v : option Z) (m : MergedInterface) : MergedInterface :=
  merged_interface (mi_desired m) (mi_current m) (mi_merged m) (mi_for_apply m)
    (mi_for_verify m) (mi_for_save m) (mi_for_revert m) v (mi_will_delete m).

Definition set_mi_will_delete (v : bool) (m : MergedInterface) : MergedInterface :=
  merged_interface (mi_desired m) (mi_current m) (mi_merged m) (mi_for_apply m)
    (mi_for_verify m) (mi_for_save m) (mi_for_revert m) (mi_up_priority m) v.

(** ** Construction *)

Definition desires (f : InterfaceState → bool) (desired : option Interface) : bool :=
  match desired with Some d => f (bi_state (base_iface d)) | None => false end.

Section New.
Context {Num : Type} `{!EqDecision Num} `{!Serde Num Interface} `{!Serde Num (list AltNameEntry)}.
(** [str::to_uppercase]. *)
Context (to_uppercase : string → string).

(** The states before the sanitizing. *)
Definition merge_for_save (desired saved : option Interface) : res (option Interface) :=
  match desired, saved with
  | Some desired, Some saved => let? i := iface_merge saved desired in Ok (Some i)
  | Some desired, None => Ok (Some desired)
  | None, saved => Ok saved
  end.

Definition diff_for_apply (desired current for_save : option Interface) (force : bool) :
    outcome (option Interface) :=
  match current, for_save with
  | Some current, Some for_save =>
      if force : bool then Ok (Some for_save) else gen_diff_for_apply for_save current
  | _, _ => Ok (match desired with Some _ => for_save | None => None end)
  end.

Definition merge_current (desired current : option Interface) : res Interface :=
  match desired, current with
  | Some desired, Some current => iface_merge current desired
  | None, Some current => Ok current
  | Some desired, None => Ok desired
  | None, None => Ok iface_default
  end.

(** A real NIC cannot be removed: it goes down. *)
Definition absent_nic_down (for_apply : Interface) : Interface :=
  if iface_is_absent for_apply && negb (iface_is_virtual for_apply)
  then set_state SDown for_apply else for_apply.

Definition map_base_targets (t : Targets Interface) (b : Targets BaseInterface) : Targets Interface :=
  targets (set_base (t_save t) (t_save b)) (set_base (t_apply t) (t_apply b))
    (set_base (t_verify t) (t_verify b)) (set_base (t_merged t) (t_merged b)).

Definition sanitize_targets (desired : Interface) (current saved : option Interface)
    (t : Targets Interface) : res (Targets Interface) :=
  let? b := base_sanitize to_uppercase (base_iface desired) (base_iface <$> current)
              (base_iface <$> saved) (map_targets base_iface t) in
  let t := map_base_targets t b in
  let t := targets (t_save t) (absent_nic_down (t_apply t)) (t_verify t) (t_merged t) in
  iface_sanitize to_uppercase desired current t.

(** [MergedInterface::sanitize]. *)
Definition mi_sanitize (self : MergedInterface) (saved : option Interface) :
    outcome MergedInterface :=
  match mi_desired self, mi_for_apply self, mi_for_save self, mi_for_verify self with
  | Some desired, Some for_apply, Some for_save, Some for_verify =>
      let? t := lift (sanitize_targets desired (mi_current self) saved
                        (targets for_save for_apply for_verify (mi_merged self))) in
      let? for_revert := iface_generate_revert (t_apply t) (mi_current self) in
      Ok (merged_interface (Some desired) (mi_current self) (t_merged t) (Some (t_apply t))
            (Some (t_verify t)) (Some (t_save t)) for_revert (mi_up_priority self)
            (mi_will_delete self))
  | _, _, _, _ => Ok self
  end.

(** Nothing is applied, verified or reverted. *)
Definition only_saved (self : MergedInterface) : MergedInterface :=
  set_mi_for_revert None (set_mi_for_verify None (set_mi_for_apply None self)).

(** [MergedInterface::new]. *)
Definition merged_interface_new (desired current saved : option Interface) (force : bool) :
    outcome MergedInterface :=
  let saved_only := desires state_is_saved desired in
  let ignored := desires state_is_ignore desired in
  let? for_save := lift (merge_for_save desired saved) in
  let for_verify := drop_description <$> desired in
  let? for_apply := diff_for_apply desired current for_save force in
  let? merged := lift (merge_current desired current) in
  let for_apply := if ignored then option_or for_apply for_save else for_apply in
  let? ret := mi_sanitize (merged_interface desired current merged for_apply for_verify for_save
                             None None false) saved in
  let ret := if ignored then only_saved ret else ret in
  Ok (if saved_only then
        set_mi_for_save
          (set_state (match saved with Some s => bi_state (base_iface s) | None => SUp end) <$>
             mi_for_save ret) (only_saved ret)
      else ret).

End New.

(** ** Accessors *)

Definition mi_is_userspace (m : MergedInterface) : bool := iface_is_userspace (mi_merged m).
Definition mi_name (m : MergedInterface) : string := iface_name (mi_merged m).
Definition mi_iface_type (m : MergedInterface) : InterfaceType := iface_type (mi_merged m).
Definition mi_kernel_iface_name (m : MergedInterface) : string := kernel_iface_name (mi_merged m).
Definition mi_is_desired (m : MergedInterface) : bool := bool_decide (is_Some (mi_desired m)).
Definition mi_is_changed (m : MergedInterface) : bool := bool_decide (is_Some (mi_for_apply m)).

Definition will_delete_before_apply (m : MergedInterface) : bool :=
  match mi_for_apply m, mi_current m with
  | Some for_apply, Some current => iface_need_delete for_apply current
  | _, _ => false
  end.

Definition mi_is_absent (m : MergedInterface) : bool :=
  match mi_for_apply m with Some i => iface_is_absent i | None => false end.

(** [is_up_priority_valid]. *)
Definition is_up_priority_valid (m : MergedInterface) : bool :=
  match mi_for_apply m with
  | Some for_apply =>
      if iface_is_up for_apply && (iface_has_controller for_apply || iface_has_parent for_apply)
      then bool_decide (is_Some (mi_up_priority m)) else true
  | None => true
  end.

(** ** A port follows its controller *)

(** [mark_as_changed]. *)
Definition mark_as_changed (m : MergedInterface) : outcome MergedInterface :=
  match mi_current m with
  | None => Ok (set_mi_for_apply None m)
  | Some current =>
      let? i := clone_name_type_only current in
      Ok (set_mi_for_apply (Some i) m)
  end.

Definition ipv4_off : InterfaceIpv4 :=
  iface_ipv4 (Some false) (Some false) None None None None None None.
Definition ipv6_off : InterfaceIpv6 := iface_ipv6 (Some false) (Some false) None None None.

(** [ipv4/ipv6.enabled == Some(true)]. *)
Definition ip_explicitly_enabled (b : BaseInterface) : bool :=
  bool_decide (bi_ipv4 b ≫= v4_enabled = Some true) ||
  bool_decide (bi_ipv6 b ≫= v6_enabled = Some true).

Definition set_ips (v4 : option InterfaceIpv4) (v6 : option InterfaceIpv6) : Interface → Interface :=
  upd_base (λ b, set_bi_ipv6 v6 (set_bi_ipv4 v4 b)).

Definition set_ctrl (ctrl_name : string) (ctrl_type : InterfaceType) : Interface → Interface :=
  upd_base (λ b, set_bi_controller_type (Some ctrl_type) (set_bi_controller (Some ctrl_name) b)).

(** An interface that the request does not mention, or does not change, is included. *)
Definition include_port (self : MergedInterface) (ctrl_state : InterfaceState) :
    outcome MergedInterface :=
  if negb (mi_is_desired self) then
    let? self := mark_as_changed self in
    Ok (if bool_decide (ctrl_state = SUp)
        then set_mi_for_apply (set_state SUp <$> mi_for_apply self)
               (set_mi_merged (set_state SUp (mi_merged self)) self)
        else self)
  else if bool_decide (mi_for_apply self = None) then mark_as_changed self
  else Ok self.

(** The port cannot hold IP addresses. *)
Definition purge_port_ip (self : MergedInterface) : MergedInterface :=
  let self := set_mi_merged (set_ips None None (mi_merged self)) self in
  let desired_ip_enabled :=
    match mi_desired self with Some d => ip_explicitly_enabled (base_iface d) | None => false end in
  if desired_ip_enabled then self
  else set_mi_for_apply (set_ips (Some ipv4_off) (Some ipv6_off) <$> mi_for_apply self)
         (set_mi_for_save (set_ips None None <$> mi_for_save self) self).

Definition attach_port (self : MergedInterface) (apply_iface : Interface) (ctrl_name : string)
    (ctrl_type : InterfaceType) : MergedInterface :=
  let self := set_mi_for_apply (Some (set_ctrl ctrl_name ctrl_type apply_iface)) self in
  let self :=
    if bool_decide (ctrl_type = TBond) &&
       bool_decide (bi_identifier (base_iface apply_iface) = Some IdMacAddress)
    then set_mi_for_verify (upd_base (set_bi_mac_address None) <$> mi_for_verify self) self
    else self in
  let self := set_mi_merged (set_ctrl ctrl_name ctrl_type (mi_merged self)) self in
  if base_can_have_ip (base_iface (mi_merged self)) then self else purge_port_ip self.

Definition remove_port (self : MergedInterface) (apply_iface : Interface) : MergedInterface :=
  set_mi_for_verify (set_state SAbsent <$> mi_for_verify self)
    (set_mi_for_apply (Some (set_state SAbsent apply_iface))
       (set_mi_merged (set_state SAbsent (mi_merged self)) self)).

(** An up interface that needs a controller is detached from the one it has. *)
Definition loses_controller (self : MergedInterface) (ctrl_name : string) : bool :=
  need_controller (iface_type (mi_merged self)) && String.eqb ctrl_name "" &&
  bool_decide (is_Some (mi_current self ≫= λ c, bi_controller (base_iface c))) &&
  bool_decide (iface_is_up <$> mi_for_apply self = Some true).

(** [MergedInterface::apply_ctrller_change]. *)
Definition apply_ctrller_change (self : MergedInterface) (ctrl_name : string)
    (ctrl_type : InterfaceType) (ctrl_state : InterfaceState) : outcome MergedInterface :=
  if desires state_is_ignore (mi_desired self) then Ok self
  else if loses_controller self ctrl_name then Err (Failed (nipart_error InvalidArgument))
  else
    let? self := include_port self ctrl_state in
    match mi_for_apply self with
    | None => Err (Failed (nipart_error Bug))
    | Some apply_iface =>
        Ok (if need_controller (iface_type (mi_merged self)) && String.eqb ctrl_name ""
            then remove_port self apply_iface
            else attach_port self apply_iface ctrl_name ctrl_type)
    end.
