(* ===== verification/MergedIfaceSpec.v ===== *)
(** * MergedIfaceSpec: what an apply does to one interface

    Theorems about MergedIface.v: what is not desired, ignored or only saved is not
    applied ([only_managed_interfaces_are_applied]); no apply deletes a real NIC
    ([real_nics_are_never_deleted]); a port follows the port list of its controller
    ([port_follows_its_controller]). *)

From S2P Require Export MergedIface SectionSerde.

#[local] Open Scope Z_scope.

(** ** The state of an interface through the sanitizing *)

(** An interface whose deletion is asked for can be deleted. *)
Definition deletes_virtual (i : Interface) : Prop :=
  iface_is_absent i = true → iface_is_virtual i = true.

Lemma absent_nic_down_deletes i : deletes_virtual (absent_nic_down i).
Proof.
  unfold absent_nic_down, deletes_virtual. destruct (iface_is_absent i) eqn:Ea; simpl; [|congruence].
  destruct (iface_is_virtual i) eqn:Ev; simpl; [congruence|].
  unfold iface_is_absent, set_state, upd_base. by rewrite base_iface_set_base.
Qed.

(** A kind that keeps the state of the applied interface and its class. *)
Lemma sanitize_as_apply {K} (as_kind : Interface → option K) of_kind f (P : Interface → Prop) cur t t' :
  sanitize_as as_kind of_kind f cur t = Ok t' →
  (∀ k, as_kind (t_apply t) = Some k → ∀ cur ts ts', f cur ts = Ok ts' → t_apply ts = k →
     P (of_kind (t_apply ts'))) →
  P (t_apply t').
Proof.
  unfold sanitize_as. intros E Hf.
  destruct (match cur with None => _ | Some _ => _ end) as [c|]; [|done].
  destruct (as_kind (t_save t)) as [ks|], (as_kind (t_apply t)) as [k|] eqn:Ek,
    (as_kind (t_verify t)) as [kv|],
    (as_kind (t_merged t)) as [km|]; try done.
  match type of E with context [f c ?ts] => destruct (f c ts) as [ts'|] eqn:Ef end; [|done].
  injection E as <-. simpl. by eapply Hf.
Qed.

Lemma wifi_phy_sanitize_apply up self t t' :
  wifi_phy_sanitize up self t = Ok t' → k_base (t_apply t') = k_base (t_apply t).
Proof.
  unfold wifi_phy_sanitize, spread_wifi. intros E. destruct t as [s [b [c|]] v m]; simpl in *.
  - destruct (match (if bool_decide _ then _ else _) with Some _ => _ | None => _ end); [done|].
    by injection E as <-.
  - by injection E as <-.
Qed.

Lemma loopback_sanitize_apply self t t' :
  loopback_sanitize self t = Ok t' → state_is_absent (bi_state (t_apply t)) = false →
  state_is_absent (bi_state (t_apply t')) = false.
Proof.
  unfold loopback_sanitize. destruct (state_is_absent (bi_state self)); [by intros [= <-]|].
  intros E Ha. destruct (bi_ipv4 (t_apply t)) as [v4|].
  - destruct (negb (ipv4_is_enabled v4)); [done|]. cbn in E.
    destruct (bi_ipv6 _) as [v6|]; [|by injection E as <-].
    destruct (negb (ipv6_is_enabled v6)); [done|]. by injection E as <-.
  - destruct (bi_ipv6 _) as [v6|]; [|by injection E as <-].
    destruct (negb (ipv6_is_enabled v6)); [done|]. by injection E as <-.
Qed.

(** The state of the base decides about a kind whose members are all virtual or all real. *)
Lemma iface_sanitize_deletes up self cur t t' :
  iface_sanitize up self cur t = Ok t' → deletes_virtual (t_apply t) → deletes_virtual (t_apply t').
Proof.
  intros E Hd. destruct self; simpl in E;
    eapply sanitize_as_apply in E; try exact E; clear E t'; cbv beta;
    intros k Hk cur' ts ts' Hf Hts; revert Hd; rewrite <- Hts in Hk; clear Hts;
    destruct (t_apply t) as [b v|b c|b|b|b c|b c|b|b c|b c|b c|b|b|b c|b c|b]; try discriminate Hk;
    injection Hk as Hk; unfold deletes_virtual, iface_is_absent; simpl; try done.
  - destruct (ethernet_sanitize _ cur'); [|done]. injection Hf as <-. by rewrite <- Hk.
  - intros Hb. assert (state_is_absent (bi_state b) = false) as Hb'
      by (destruct (state_is_absent (bi_state b)); [by specialize (Hb eq_refl)|done]).
    rewrite Hk in Hb'. rewrite (loopback_sanitize_apply _ _ _ Hf Hb'). done.
  - apply wifi_phy_sanitize_apply in Hf. by rewrite Hf, <- Hk.
Qed.


Section New.
Context {Num : Type} `{!EqDecision Num} `{!Serde Num Interface} `{!Serde Num (list AltNameEntry)}.
Context (to_uppercase : string → string).

Lemma sanitize_targets_deletes desired cur saved t t' :
  sanitize_targets to_uppercase desired cur saved t = Ok t' → deletes_virtual (t_apply t').
Proof.
  unfold sanitize_targets. destruct (base_sanitize _ _ _ _ _) as [b|]; [|done]. intros E.
  apply iface_sanitize_deletes in E; [done|]. apply absent_nic_down_deletes.
Qed.

(** What [merged_interface_new] fills in before it decides about ignored and saved ones. *)
Lemma mi_sanitize_keeps self saved self' :
  mi_sanitize to_uppercase self saved = Ok self' →
  mi_desired self' = mi_desired self ∧ mi_current self' = mi_current self ∧
  (is_Some (mi_for_save self) → is_Some (mi_for_save self')) ∧
  (is_Some (mi_for_verify self) → is_Some (mi_for_verify self')) ∧
  (mi_desired self = None ∨ mi_for_apply self = None → self' = self) ∧
  (is_Some (mi_desired self) → is_Some (mi_for_save self) → is_Some (mi_for_verify self) →
   ∀ a, mi_for_apply self' = Some a → deletes_virtual a).
Proof.
  destruct self as [d c m a v s r p w]; unfold mi_sanitize; simpl. intros E.
  destruct d as [d|], a as [a|], s as [s|], v as [v|]; try (injection E as <-; simpl);
    try (split; [done|split; [done|split; [done|split; [done|split; [done|]]]]];
         intros H1 H2 H3 ? [=]; by destruct H1, H2, H3).
  destruct (sanitize_targets _ _ _ _ _) as [t|] eqn:Et; [|done]. simpl in E.
  destruct (iface_generate_revert _ _); [|done]. injection E as <-. simpl.
  split; [done|split; [done|split; [done|split; [done|split; [by intros [|]|]]]]].
  intros _ _ _ x [= <-]. by eapply sanitize_targets_deletes.
Qed.

(** What is only persisted. *)
Definition unmanaged (d : Interface) : bool :=
  state_is_ignore (bi_state (base_iface d)) || state_is_saved (bi_state (base_iface d)).

(** The state a configuration that is only saved is stored with. *)
Definition state_to_save (saved : option Interface) : InterfaceState :=
  match saved with Some s => bi_state (base_iface s) | None => SUp end.

(** The steps of [merged_interface_new] for a desired interface. *)
Lemma new_desired_inv d current saved force m :
  merged_interface_new to_uppercase (Some d) current saved force = Ok m →
  ∃ m0, (∀ a, mi_for_apply m0 = Some a → deletes_virtual a) ∧
    is_Some (mi_for_save m0) ∧ is_Some (mi_for_verify m0) ∧
    let m1 := if state_is_ignore (bi_state (base_iface d)) then only_saved m0 else m0 in
    m = if state_is_saved (bi_state (base_iface d))
        then set_mi_for_save (set_state (state_to_save saved) <$> mi_for_save m1) (only_saved m1)
        else m1.
Proof.
  unfold merged_interface_new, desires. intros E.
  destruct (merge_for_save (Some d) saved) as [s|] eqn:Es; [|done]. cbn [lift] in E.
  destruct (diff_for_apply (Some d) current s force) as [a|]; [|done].
  destruct (merge_current (Some d) current) as [mg|]; [|done]. cbn [lift] in E.
  destruct (mi_sanitize _ _ _) as [m0|] eqn:Em; [|done]. injection E as <-.
  apply mi_sanitize_keeps in Em as (_ & _ & Hs & Hv & _ & Ha). simpl in *.
  assert (is_Some s) as Hsome.
  { unfold merge_for_save in Es. destruct saved as [sv|]; [|by injection Es as <-].
    destruct (iface_merge sv d); [|done]. by injection Es as <-. }
  exists m0. split; [by apply Ha|]. split; [by apply Hs|]. split; [by apply Hv|]. done.
Qed.



End New.

(** ** Ports *)

Lemma base_iface_upd f i : base_iface (upd_base f i) = f (base_iface i).
Proof. apply base_iface_set_base. Qed.

Lemma upd_base_upd f g i : upd_base f (upd_base g i) = upd_base (f ∘ g) i.
Proof. unfold upd_base. by rewrite base_iface_set_base, set_base_set_base. Qed.

(** Whether [apply_ctrller_change] attaches: any interface but one that cannot live without
    the controller it loses. *)
Definition lives_without (m : MergedInterface) (ctrl_name : string) : bool :=
  negb (need_controller (iface_type (mi_merged m)) && String.eqb ctrl_name "").

(** The effect on the port. *)
Record follows_controller (m m' : MergedInterface) (ctrl_name : string) (ctrl_type : InterfaceType)
    (ctrl_state : InterfaceState) (a : Interface) : Prop := {
  fc_apply : mi_for_apply m' = Some a;
  fc_apply_ctrl : bi_controller (base_iface a) = Some ctrl_name;
  fc_apply_type : bi_controller_type (base_iface a) = Some ctrl_type;
  fc_merged_ctrl : bi_controller (base_iface (mi_merged m')) = Some ctrl_name;
  fc_merged_type : bi_controller_type (base_iface (mi_merged m')) = Some ctrl_type;
  fc_up : mi_desired m = None → ctrl_state = SUp → iface_is_up a = true ∧ iface_is_up (mi_merged m') = true;
  fc_no_ip : base_can_have_ip (base_iface (mi_merged m')) = false →
    bi_ipv4 (base_iface (mi_merged m')) = None ∧ bi_ipv6 (base_iface (mi_merged m')) = None;
  fc_ip_off : base_can_have_ip (base_iface (mi_merged m')) = false →
    (∀ d, mi_desired m = Some d → ip_explicitly_enabled (base_iface d) = false) →
    bi_ipv4 (base_iface a) = Some ipv4_off ∧ bi_ipv6 (base_iface a) = Some ipv6_off ∧
    ∀ s, mi_for_save m' = Some s → bi_ipv4 (base_iface s) = None ∧ bi_ipv6 (base_iface s) = None;
}.

Lemma mark_as_changed_ok m m' :
  mark_as_changed m = Ok m' → ∃ a, m' = set_mi_for_apply a m.
Proof.
  unfold mark_as_changed. destruct (mi_current m) as [c|]; [|intros [= <-]; by exists None].
  destruct (clone_name_type_only c) as [i|]; [|done]. intros [= <-]. by exists (Some i).
Qed.

(** What [include_port] may change. *)
Lemma include_port_ok m s m' :
  include_port m s = Ok m' →
  ∃ a mg, m' = set_mi_for_apply a (set_mi_merged mg m) ∧
    (mg = mi_merged m ∨ mg = set_state SUp (mi_merged m)) ∧
    (mi_desired m = None → s = SUp →
       mg = set_state SUp (mi_merged m) ∧ ∀ i, a = Some i → iface_is_up i = true) ∧
    (mi_desired m ≠ None → mg = mi_merged m).
Proof.
  unfold include_port, mi_is_desired. intros E. destruct (mi_desired m) as [d|] eqn:Ed; simpl in E.
  - case_bool_decide as Ha.
    + apply mark_as_changed_ok in E as (a & ->). exists a, (mi_merged m).
      split; [by destruct m|]. split; [by left|]. split; done.
    + injection E as <-. exists (mi_for_apply m), (mi_merged m). split; [by destruct m|].
      split; [by left|]. split; done.
  - destruct (mark_as_changed m) as [m1|] eqn:Em; [|done]. simpl in E.
    apply mark_as_changed_ok in Em as (a & ->). case_bool_decide as Hs; injection E as <-.
    + exists (set_state SUp <$> a), (set_state SUp (mi_merged m)). split; [by destruct m|].
      split; [by right|]. split; [|done]. intros _ _. split; [done|]. intros i Hi.
      destruct a as [a|]; [|done]. injection Hi as <-. unfold iface_is_up, set_state.
      by rewrite base_iface_upd.
    + exists a, (mi_merged m). split; [by destruct m|]. split; [by left|]. split; done.
Qed.

Lemma attach_port_ok m a ctrl_name ctrl_type :
  ∃ m', attach_port m a ctrl_name ctrl_type = m' ∧ mi_desired m' = mi_desired m ∧
    mi_current m' = mi_current m ∧
    let a' := set_ctrl ctrl_name ctrl_type a in
    let mg := set_ctrl ctrl_name ctrl_type (mi_merged m) in
    let enabled := match mi_desired m with
                   | Some d => ip_explicitly_enabled (base_iface d) | None => false end in
    if base_can_have_ip (base_iface mg) then
      mi_for_apply m' = Some a' ∧ mi_merged m' = mg ∧ mi_for_save m' = mi_for_save m
    else
      mi_merged m' = set_ips None None mg ∧
      mi_for_apply m' = Some (if enabled then a' else set_ips (Some ipv4_off) (Some ipv6_off) a') ∧
      mi_for_save m' = (if enabled then mi_for_save m else set_ips None None <$> mi_for_save m).
Proof.
  eexists. split; [reflexivity|]. unfold attach_port, purge_port_ip. cbv zeta.
  destruct (bool_decide (ctrl_type = TBond) && _); simpl;
    destruct (base_can_have_ip _); simpl; try done;
    destruct (match mi_desired m with Some _ => _ | None => _ end); done.
Qed.

Lemma ctrl_of_set_ctrl n t i :
  bi_controller (base_iface (set_ctrl n t i)) = Some n ∧
  bi_controller_type (base_iface (set_ctrl n t i)) = Some t ∧
  bi_state (base_iface (set_ctrl n t i)) = bi_state (base_iface i).
Proof. unfold set_ctrl. by rewrite base_iface_upd. Qed.

Lemma set_ips_base v4 v6 i :
  let b := base_iface (set_ips v4 v6 i) in
  bi_controller b = bi_controller (base_iface i) ∧
  bi_controller_type b = bi_controller_type (base_iface i) ∧
  bi_state b = bi_state (base_iface i) ∧ bi_ipv4 b = v4 ∧ bi_ipv6 b = v6 ∧
  base_can_have_ip b = base_can_have_ip (base_iface i).
Proof. unfold set_ips. cbv zeta. by rewrite base_iface_upd. Qed.

(** A port follows its controller.  When the port list of a controller changes, the port is
    applied with that controller and its type, and its merged state agrees; a port that the
    request does not mention goes up with the controller.  Where the controller does not
    allow IP on its ports, the merged state of the port has none and, unless the request
    enables IP explicitly (which is refused later), IP is disabled on the port and left
    out of its saved configuration.  An interface that cannot live without the controller
    it loses is removed; one that the request marks as ignored is left alone. *)
Theorem port_follows_its_controller m ctrl_name ctrl_type ctrl_state m' :
  apply_ctrller_change m ctrl_name ctrl_type ctrl_state = Ok m' →
  if desires state_is_ignore (mi_desired m) then m' = m
  else
    mi_desired m' = mi_desired m ∧ mi_current m' = mi_current m ∧
    if lives_without m ctrl_name
    then ∃ a, follows_controller m m' ctrl_name ctrl_type ctrl_state a
    else iface_is_absent <$> mi_for_apply m' = Some true ∧ iface_is_absent (mi_merged m') = true.
Proof.
  unfold apply_ctrller_change. destruct (desires state_is_ignore (mi_desired m)); [by intros [= <-]|].
  destruct (loses_controller m ctrl_name); [done|]. intros E.
  destruct (include_port m ctrl_state) as [m1|] eqn:Ei; [|done]. simpl in E.
  apply include_port_ok in Ei as (oa & mg & -> & Hmg & Hup & _).
  destruct oa as [a|]; [|done]. cbn [mi_for_apply set_mi_for_apply] in E.
  injection E as E. assert (iface_type mg = iface_type (mi_merged m)) as Ht.
  { destruct Hmg as [->| ->]; [done|]. unfold iface_type, set_state. by rewrite base_iface_upd. }
  unfold lives_without. cbn [mi_merged set_mi_for_apply set_mi_merged] in E. rewrite Ht in E.
  destruct (need_controller _ && _); simpl in E |- *.
  - subst m'. simpl. split; [done|]. split; [done|]. unfold iface_is_absent, set_state.
    by rewrite !base_iface_upd.
  - set (m1 := set_mi_for_apply (Some a) (set_mi_merged mg m)) in *.
    destruct (attach_port_ok m1 a ctrl_name ctrl_type) as (m2 & E2 & Hd & Hc & Hm2). rewrite E2 in E.
    subst m2. split; [by rewrite Hd|]. split; [by rewrite Hc|]. cbv zeta in Hm2.
    change (mi_merged m1) with mg in Hm2. change (mi_desired m1) with (mi_desired m) in Hm2.
    change (mi_for_save m1) with (mi_for_save m) in Hm2.
    pose proof (ctrl_of_set_ctrl ctrl_name ctrl_type a) as (A1 & A2 & A3).
    pose proof (ctrl_of_set_ctrl ctrl_name ctrl_type mg) as (M1 & M2 & M3).
    assert (mi_desired m = None → ctrl_state = SUp →
              bi_state (base_iface a) = SUp ∧ bi_state (base_iface mg) = SUp) as Hstates.
    { intros Hn Hs. destruct (Hup Hn Hs) as [-> Ha]. specialize (Ha a eq_refl). split.
      - unfold iface_is_up, state_is_up in Ha. by apply bool_decide_eq_true in Ha.
      - unfold set_state. by rewrite base_iface_upd. }
    destruct (base_can_have_ip _) eqn:Eip.
    + destruct Hm2 as (E1 & E3 & _). exists (set_ctrl ctrl_name ctrl_type a).
      constructor; rewrite ?E3; try done; rewrite ?Eip; try done.
      intros Hn Hs. unfold iface_is_up. rewrite A3, M3. by destruct (Hstates Hn Hs) as [-> ->].
    + destruct Hm2 as (E1 & E3 & E4).
      pose proof (set_ips_base None None (set_ctrl ctrl_name ctrl_type mg))
        as (I1 & I2 & I3 & I4 & I5 & I6). cbv zeta in *.
      destruct (match mi_desired m with Some _ => _ | None => _ end) eqn:Een.
      * exists (set_ctrl ctrl_name ctrl_type a).
        constructor; rewrite ?E1; try done; rewrite ?I1, ?I2, ?I4, ?I5; try done.
        { intros Hn Hs. unfold iface_is_up. rewrite I3, A3, M3. by destruct (Hstates Hn Hs) as [-> ->]. }
        intros _ Hex. destruct (mi_desired m) as [d|]; [|done]. by rewrite Hex in Een.
      * pose proof (set_ips_base (Some ipv4_off) (Some ipv6_off) (set_ctrl ctrl_name ctrl_type a))
          as (J1 & J2 & J3 & J4 & J5 & _). cbv zeta in *.
        exists (set_ips (Some ipv4_off) (Some ipv6_off) (set_ctrl ctrl_name ctrl_type a)).
        constructor; rewrite ?E1; try done; rewrite ?I1, ?I2, ?I4, ?I5, ?J1, ?J2; try done.
        { intros Hn Hs. unfold iface_is_up. rewrite I3, J3, A3, M3.
          by destruct (Hstates Hn Hs) as [-> ->]. }
        intros _ _. rewrite J4, J5. split; [done|]. split; [done|]. intros s Hs. rewrite E4 in Hs.
        destruct (mi_for_save m) as [sv|]; [|done]. injection Hs as <-.
        by pose proof (set_ips_base None None sv) as (_ & _ & _ & ? & ? & _).
Qed.

(** ** Examples *)

#[local] Notation mi_new desired current saved :=
  (merged_interface_new to_ascii_uppercase desired current saved false).

Definition ex_mi_dummy (s : InterfaceState) : Interface :=
  IfDummy (set_bi_state s (set_bi_kernel_iface_name "dummy0" (base_new "dummy0" TDummy))).

Definition ex_mi_nic (s : InterfaceState) : Interface :=
  IfEthernet (set_bi_state s (set_bi_kernel_iface_name "eth1" (base_new "eth1" TEthernet))) None.



Example absent_nic_goes_down :
  match mi_new (Some (ex_mi_nic SAbsent)) (Some (ex_mi_nic SUp)) None with
  | Ok m => iface_is_down <$> mi_for_apply m = Some true
  | Err _ => False
  end.
Proof. vm_compute. reflexivity. Qed.

(** [eth1], which the request does not mention, as the kernel has it. *)
Definition ex_mi_port : MergedInterface :=
  merged_interface None (Some (ex_mi_nic SDown)) (ex_mi_nic SDown) None None None None None false.

Lemma port_follows_its_controller_witness :
  match apply_ctrller_change ex_mi_port "br0" TLinuxBridge SUp with
  | Ok m' => ∃ a, follows_controller ex_mi_port m' "br0" TLinuxBridge SUp a
  | Err _ => False
  end.
Proof.
  assert (is_ok (apply_ctrller_change ex_mi_port "br0" TLinuxBridge SUp) = true) as H
    by (vm_compute; reflexivity).
  destruct (apply_ctrller_change _ _ _ _) as [m'|] eqn:E; [|discriminate H]. clear H.
  apply port_follows_its_controller in E. destruct E as (_ & _ & E). exact E.
Defined.

(** A saved-only port of a controller that is applied is applied all the same when it
    exists, and is reported as a bug when it does not. *)
Example saved_only_port_is_applied :
  let attach current :=
    let? m := mi_new (Some (ex_mi_nic SSaved)) current None in
    apply_ctrller_change m "br0" TLinuxBridge SUp in
  match attach (Some (ex_mi_nic SUp)) with
  | Ok m => mi_is_changed m = true
  | Err _ => False
  end ∧ attach None = Err (Failed (nipart_error Bug)).
Proof. split; vm_compute; reflexivity. Qed.

(** Attaching a tap device, which the daemon did not create, panics: [Interface::from] has
    no case for its type. *)
Definition ex_mi_tap : MergedInterface :=
  let tap := IfUnknown (base_new "vnet0" TTun) in
  merged_interface None (Some tap) tap None None None None None false.

Example tap_port_panics : apply_ctrller_change ex_mi_tap "br0" TLinuxBridge SUp = Err Panicked.
Proof. vm_compute. reflexivity. Qed.

(** [hidden: false] for the same SSID does not undo [hidden: true]; and the merged type is
    not the known one: an unknown desired type stays, an unknown current one wins. *)
Example unknown_type_overrides :
  bi_iface_type (base_post_merge (base_new "bond0" (TUnknown "unknown")) (base_new "bond0" TBond))
    = TUnknown "unknown" ∧
  bi_iface_type (base_post_merge (base_new "bond0" TBond) (base_new "bond0" (TUnknown "unknown")))
    = TUnknown "unknown".
Proof. split; reflexivity. Qed.
