(* ===== verification/Controller.v ===== *)
(** * Controller: controllers and their ports

    [src/lib/schema/merged/controller.rs]: after the interfaces of an apply are
    merged, the ports that a changed port list attaches or detaches are included in
    the apply, the types of controllers are filled in, and requests that contradict
    themselves are refused.

    A map is the list of its entries in the order in which it is iterated over; the
    order in which the pending changes are carried out is a parameter. *)

From S2P Require Export MergedIface.

#[local] Open Scope Z_scope.

(** ** Access to the maps *)

Definition set_kernel_ifaces (v : list (string * MergedInterface)) (self : MergedInterfaces) :
    MergedInterfaces :=
  merged_interfaces v (user_ifaces self) (mis_insert_order self) (current_kernel_ifaces self)
    (mis_search self).

Definition set_user_ifaces (v : list (string * InterfaceType * MergedInterface))
    (self : MergedInterfaces) : MergedInterfaces :=
  merged_interfaces (kernel_ifaces self) v (mis_insert_order self) (current_kernel_ifaces self)
    (mis_search self).

Definition push_order (k : string * InterfaceType) (self : MergedInterfaces) : MergedInterfaces :=
  merged_interfaces (kernel_ifaces self) (user_ifaces self) (mis_insert_order self ++ [k])
    (current_kernel_ifaces self) (mis_search self).

(** [HashMap::get_mut] and an assignment; [HashMap::insert]. *)
Definition entry_update {K A} `{EqDecision K} (k : K) (f : A → A) : list (K * A) → list (K * A) :=
  map (λ e, if decide (e.1 = k) then (e.1, f e.2) else e).

Definition entry_insert {K A} `{EqDecision K} (k : K) (v : A) (l : list (K * A)) : list (K * A) :=
  if decide (k ∈ l.*1) then entry_update k (λ _, v) l else l ++ [(k, v)].

Fixpoint entry_get {K A} `{EqDecision K} (k : K) (l : list (K * A)) : option A :=
  match l with
  | [] => None
  | (k', v) :: l' => if decide (k' = k) then Some v else entry_get k l'
  end.

Definition get_kernel (self : MergedInterfaces) (name : string) : option MergedInterface :=
  entry_get name (kernel_ifaces self).

Definition get_user (self : MergedInterfaces) (name : string) (t : InterfaceType) :
    option MergedInterface := entry_get (name, t) (user_ifaces self).

(** The user space or the kernel interface of a name and a type. *)
Definition get_iface (self : MergedInterfaces) (name : string) (t : InterfaceType) :
    option MergedInterface :=
  if type_is_userspace t then get_user self name t else get_kernel self name.

(** [self.user_ifaces.values().find(|c| c.merged.name() == name)]. *)
Definition find_user_named (self : MergedInterfaces) (name : string) : option MergedInterface :=
  List.find (λ m, String.eqb (mi_name m) name) (user_ifaces self).*2.

(** ** Changed ports *)

Definition all_ports (i : option Interface) : list string := default [] (i ≫= iface_ports).

Definition ports_difference (l k : list string) : list string :=
  List.filter (λ x, negb (bool_decide (x ∈ k))) l.

(** [MergedInterface::get_changed_ports]: the attached and the detached ports. *)
Definition get_changed_ports (self : MergedInterface) : option (list string * list string) :=
  match mi_for_apply self with
  | None => None
  | Some for_apply =>
      if iface_is_absent for_apply then
        match mi_current self ≫= iface_ports with
        | Some ports => Some ([], ports)
        | None => None
        end
      else if will_delete_before_apply self then
        Some (all_ports (Some (mi_merged self)), all_ports (mi_current self))
      else
        let desired_port_names :=
          match iface_ports for_apply, mi_current self with
          | Some p, _ => Some p
          | None, Some cur_iface => if iface_is_ignore cur_iface then iface_ports cur_iface else None
          | None, None => None
          end in
        match desired_port_names with
        | None => None
        | Some desired =>
            let current :=
              match mi_current self with
              | Some cur_iface => if iface_is_ignore cur_iface then [] else all_ports (Some cur_iface)
              | None => []
              end in
            Some (ports_difference desired current, ports_difference current desired)
        end
  end.

(** The controller, its type and its state a port gets. *)
Abbreviation PortChange := (string * InterfaceType * InterfaceState)%type.

Abbreviation PortChanges := (gmap string PortChange).

Definition attach_change (change : PortChange) (pending : PortChanges) (port_name : string) :
    PortChanges := <[port_name := change]> pending.

Definition detach_change (state : InterfaceState) (pending : PortChanges) (port_name : string) :
    PortChanges :=
  match pending !! port_name with
  | Some _ => pending
  | None => <[port_name := ("", TUnknown "", state)]> pending
  end.

(** The controllers that [handle_changed_ports] looks at. *)
Definition is_changed_controller (m : MergedInterface) : bool :=
  mi_is_changed m && mi_is_desired m && iface_is_controller (mi_merged m).

Definition collect_changes (pending : PortChanges) (m : MergedInterface) : PortChanges :=
  if is_changed_controller m then
    match mi_for_apply m, get_changed_ports m with
    | Some for_apply, Some (attached_ports, detached_ports) =>
        let state := bi_state (base_iface for_apply) in
        let change := (kernel_iface_name for_apply, iface_type for_apply, state) in
        foldl (detach_change state) (foldl (attach_change change) pending attached_ports)
          detached_ports
    | _, _ => pending
    end
  else pending.

(** [MergedInterfaces::iter]. *)
Definition merged_iter (self : MergedInterfaces) : list MergedInterface :=
  (kernel_ifaces self).*2 ++ (user_ifaces self).*2.

Definition pending_changes (self : MergedInterfaces) : PortChanges :=
  foldl collect_changes ∅ (merged_iter self).

Section Changes.
Context {Num : Type} `{!EqDecision Num} `{!Serde Num Interface} `{!Serde Num (list AltNameEntry)}.
Context (to_uppercase : string → string).

(** One pending change.  All ports are kernel interfaces. *)
Definition apply_change (self : MergedInterfaces) (change : string * PortChange) :
    outcome MergedInterfaces :=
  let '(iface_name, (ctrl_name, ctrl_type, ctrl_state)) := change in
  match get_kernel self iface_name with
  | Some m =>
      let self := if mi_is_changed m then self
                  else push_order (mi_kernel_iface_name m, mi_iface_type m) self in
      let? m := apply_ctrller_change m ctrl_name ctrl_type ctrl_state in
      Ok (set_kernel_ifaces (entry_update iface_name (λ _, m) (kernel_ifaces self)) self)
  | None =>
      if bool_decide (ctrl_type = TOvsBridge) then
        let? m := merged_interface_new to_uppercase
                    (Some (IfOvsInterface (ovs_iface_new_with_name_and_ctrl iface_name ctrl_name)))
                    None None false in
        Ok (push_order (iface_name, TOvsInterface)
              (set_kernel_ifaces (entry_insert iface_name m (kernel_ifaces self)) self))
      else if negb (String.eqb ctrl_name "") then Err (Failed (nipart_error InvalidArgument))
      else Ok self
  end.

(** [MergedInterfaces::handle_changed_ports]; [drain]: the order of the hash map. *)
Definition handle_changed_ports (drain : PortChanges → list (string * PortChange))
    (self : MergedInterfaces) : outcome MergedInterfaces :=
  fold_result apply_change self (drain (pending_changes self)).

End Changes.

(** ** References to profiles *)

(** The profile names, with the kernel names of their interfaces. *)
Definition profile_entry (m : MergedInterface) : option (string * string) :=
  match bi_profile_name (base_iface (mi_merged m)) with
  | Some profile_name =>
      if negb (String.eqb profile_name "") && negb (String.eqb (mi_kernel_iface_name m) "")
      then Some (profile_name, mi_kernel_iface_name m) else None
  | None => None
  end.

Definition profile_to_kernel (self : MergedInterfaces) : gmap string string :=
  foldl (λ acc e, <[e.1 := e.2]> acc) ∅ (omap profile_entry (merged_iter self)).

Definition port_renames_of (profiles : gmap string string) (m : MergedInterface) :
    list (string * InterfaceType * string * string) :=
  if negb (iface_is_controller (mi_merged m)) then []
  else
    omap (λ port_name,
            match profiles !! port_name with
            | Some kernel_name =>
                Some (mi_kernel_iface_name m, mi_iface_type m, port_name, kernel_name)
            | None => None
            end) (all_ports (Some (mi_merged m))).

Definition change_port (org new : string) (i : option Interface) : res (option Interface) :=
  match i with
  | Some i => let? i := iface_change_port_name i org new in Ok (Some i)
  | None => Ok None
  end.

Definition rename_port (org new : string) (m : MergedInterface) : res MergedInterface :=
  let? for_apply := change_port org new (mi_for_apply m) in
  let? for_verify := change_port org new (mi_for_verify m) in
  let? merged := iface_change_port_name (mi_merged m) org new in
  Ok (set_mi_merged merged (set_mi_for_verify for_verify (set_mi_for_apply for_apply m))).

Definition apply_rename (self : MergedInterfaces)
    (rename : string * InterfaceType * string * string) : res MergedInterfaces :=
  let '(ctrl_name, ctrl_type, org_port_name, new_port_name) := rename in
  if type_is_userspace ctrl_type then
    match get_user self ctrl_name ctrl_type with
    | Some m =>
        let? m := rename_port org_port_name new_port_name m in
        Ok (set_user_ifaces (entry_update (ctrl_name, ctrl_type) (λ _, m) (user_ifaces self)) self)
    | None => Ok self
    end
  else
    match get_kernel self ctrl_name with
    | Some m =>
        let? m := rename_port org_port_name new_port_name m in
        Ok (set_kernel_ifaces (entry_update ctrl_name (λ _, m) (kernel_ifaces self)) self)
    | None => Ok self
    end.

(** [MergedInterfaces::post_merge_resolve_port_ref]. *)
Definition post_merge_resolve_port_ref (self : MergedInterfaces) : res MergedInterfaces :=
  let profiles := profile_to_kernel self in
  if bool_decide (profiles = ∅) then Ok self
  else fold_result apply_rename self (merged_iter self ≫= port_renames_of profiles).

(** ** Types of controllers *)

(** The type of the interface of that name. *)
Definition named_type (self : MergedInterfaces) (ctrl_name : string) : option InterfaceType :=
  mi_iface_type <$> option_or (get_kernel self ctrl_name) (find_user_named self ctrl_name).

Definition lacks_ctrl_type (m : MergedInterface) : option (string * string) :=
  match mi_for_apply m with
  | Some for_apply =>
      match bi_controller (base_iface for_apply), bi_controller_type (base_iface for_apply) with
      | Some ctrl_name, None =>
          if String.eqb ctrl_name "" then None else Some (mi_kernel_iface_name m, ctrl_name)
      | _, _ => None
      end
  | None => None
  end.

Definition set_ctrl_type (t : InterfaceType) : Interface → Interface :=
  upd_base (set_bi_controller_type (Some t)).

Definition fill_ctrl_type (self : MergedInterfaces) (e : string * string) : MergedInterfaces :=
  match named_type self e.2 with
  | Some t =>
      set_kernel_ifaces
        (entry_update e.1 (λ m, set_mi_merged (set_ctrl_type t (mi_merged m))
            (set_mi_for_apply (set_ctrl_type t <$> mi_for_apply m) m)) (kernel_ifaces self)) self
  | None => self
  end.

(** [MergedInterfaces::resolve_controller_type]. *)
Definition resolve_controller_type (self : MergedInterfaces) : MergedInterfaces :=
  foldl fill_ctrl_type self (omap lacks_ctrl_type (merged_iter self)).

(** Whether the MAC address of an interface only identifies it, as the bond it is a port
    of sets the address. *)
Definition is_mac_bond_port (self : MergedInterfaces) (m : MergedInterface) : bool :=
  match mi_for_apply m with
  | None => false
  | Some for_apply =>
      let base := base_iface (mi_merged m) in
      let ctrl_name := default "" (bi_controller base) in
      bool_decide (bi_identifier (base_iface for_apply) = Some IdMacAddress) &&
      negb (String.eqb ctrl_name "") &&
      bool_decide (option_or (bi_controller_type base) (named_type self ctrl_name) = Some TBond)
  end.

Definition drop_mac : Interface → Interface := upd_base (set_bi_mac_address None).

Definition drop_port_mac (m : MergedInterface) : MergedInterface :=
  set_mi_for_verify (drop_mac <$> mi_for_verify m) (set_mi_for_apply (drop_mac <$> mi_for_apply m) m).

(** [MergedInterfaces::drop_mac_identifier_bond_port_mac]. *)
Definition drop_mac_identifier_bond_port_mac (self : MergedInterfaces) : MergedInterfaces :=
  foldl (λ self name,
           set_kernel_ifaces (entry_update name drop_port_mac (kernel_ifaces self)) self)
    self (map mi_kernel_iface_name (List.filter (is_mac_bond_port self) (merged_iter self))).

(** ** Checks *)

(** [is_port_overbook], over the ports of all controllers. *)
Fixpoint check_ports (port_to_ctrl : gset string) (ports : list string) : res (gset string) :=
  match ports with
  | [] => Ok port_to_ctrl
  | port :: ports' =>
      if bool_decide (port ∈ port_to_ctrl) then fail InvalidArgument
      else check_ports ({[port]} ∪ port_to_ctrl) ports'
  end.

Definition is_desired_up (m : MergedInterface) : bool :=
  mi_is_desired m && iface_is_up (mi_merged m).

(** The port lists [check_overbook_ports] goes through. *)
Definition claimed_ports (self : MergedInterfaces) : list (list string) :=
  map (λ m, all_ports (Some (mi_merged m)))
    (List.filter (λ m, iface_is_controller (mi_merged m) && is_desired_up m) (merged_iter self)).

(** [MergedInterfaces::check_overbook_ports]. *)
Definition check_overbook_ports (self : MergedInterfaces) : res () :=
  let? _ := fold_result check_ports ∅ (claimed_ports self) in Ok ().

(** [MergedInterfaces::check_infiniband_as_ports]. *)
Definition ib_iface_names (self : MergedInterfaces) : list string :=
  map mi_kernel_iface_name
    (List.filter (λ m, bool_decide (mi_iface_type m = TInfiniBand)) (kernel_ifaces self).*2).

Definition is_active_backup (i : Interface) : bool :=
  match i with IfBond b => bool_decide (bond_mode b = Some ActiveBackup) | _ => false end.

Definition holds_infiniband (ib : list string) (m : MergedInterface) : bool :=
  mi_is_desired m && iface_is_controller (mi_merged m) &&
  existsb (λ p, bool_decide (p ∈ ib)) (all_ports (Some (mi_merged m))) &&
  negb (is_active_backup (mi_merged m)).

Definition check_infiniband_as_ports (self : MergedInterfaces) : res () :=
  if existsb (holds_infiniband (ib_iface_names self)) (kernel_ifaces self).*2
  then fail InvalidArgument else Ok ().

(** The controller that the request names for an up interface. *)
Definition des_ctrl_name (m : MergedInterface) : option string :=
  if is_desired_up m then mi_desired m ≫= λ d, bi_controller (base_iface d) else None.

(** [validate_controller_not_in_port_list]. *)
Definition in_ports_of_controller (self : MergedInterfaces) (m : MergedInterface) : res () :=
  match des_ctrl_name m with
  | None => Ok ()
  | Some ctrl =>
      if String.eqb ctrl "" then Ok ()
      else
        match option_or (get_user self ctrl TOvsBridge) (get_kernel self ctrl) with
        | None => fail InvalidArgument
        | Some ctrl_iface =>
            match mi_desired ctrl_iface ≫= iface_ports with
            | Some ports =>
                if bool_decide (mi_kernel_iface_name m ∈ ports) then Ok () else fail InvalidArgument
            | None => Ok ()
            end
        end
  end.

Definition validate_controller_not_in_port_list (self : MergedInterfaces) : res () :=
  fold_result (λ _, in_ports_of_controller self) () (kernel_ifaces self).*2.

(** [validate_controller_in_other_port_list]. *)
Definition list_ports (port_to_ctrl : gmap string string) (m : MergedInterface) :
    gmap string string :=
  foldl (λ acc port_name, <[port_name := mi_kernel_iface_name m]> acc) port_to_ctrl
    (all_ports (Some (mi_merged m))).

Definition port_to_ctrl (self : MergedInterfaces) : gmap string string :=
  foldl list_ports ∅ (List.filter is_desired_up (merged_iter self)).

Definition listed_elsewhere (ctrls : gmap string string) (m : MergedInterface) : bool :=
  match des_ctrl_name m, ctrls !! mi_kernel_iface_name m with
  | Some ctrl, Some ctrl_name => negb (String.eqb ctrl ctrl_name)
  | _, _ => false
  end.

Definition validate_controller_in_other_port_list (self : MergedInterfaces) : res () :=
  if existsb (listed_elsewhere (port_to_ctrl self)) (kernel_ifaces self).*2
  then fail InvalidArgument else Ok ().

(** [MergedInterfaces::validate_can_have_ip]. *)
Definition has_forbidden_ip (m : MergedInterface) : bool :=
  is_desired_up m &&
  match mi_for_apply m with
  | Some for_apply => negb (base_can_have_ip (base_iface for_apply)) &&
                      ip_explicitly_enabled (base_iface for_apply)
  | None => false
  end.

Definition validate_can_have_ip (self : MergedInterfaces) : res () :=
  if existsb has_forbidden_ip (merged_iter self) then fail InvalidArgument else Ok ().

(** [MergedInterfaces::post_merge_sanitize_controller_and_port]. *)
Definition post_merge_sanitize_controller_and_port {Num} `{!EqDecision Num}
    `{!Serde Num Interface} `{!Serde Num (list AltNameEntry)} (to_uppercase : string → string)
    (drain : PortChanges → list (string * PortChange)) (self : MergedInterfaces) :
    outcome MergedInterfaces :=
  let? self := lift (post_merge_resolve_port_ref self) in
  let? self := handle_changed_ports to_uppercase drain self in
  let self := drop_mac_identifier_bond_port_mac (resolve_controller_type self) in
  let? _ := lift (check_overbook_ports self) in
  let? _ := lift (check_infiniband_as_ports self) in
  let? _ := lift (validate_controller_not_in_port_list self) in
  let? _ := lift (validate_controller_in_other_port_list self) in
  let? _ := lift (validate_can_have_ip self) in
  Ok self.
