(* ===== verification/ControllerSpec.v ===== *)
(** * ControllerSpec: consistent controllers and ports

    Theorems about Controller.v: the checks accept exactly the requests whose
    controllers and ports agree ([port_checks_accept]), and every port whose controller
    changes is applied with a controller that asks for it, in whatever order the changes
    are carried out ([ports_follow_their_controllers]). *)

From S2P Require Export Controller MergedIfaceSpec.

#[local] Open Scope Z_scope.

(** ** The checks *)

Lemma check_ports_spec ports : ∀ seen,
  match check_ports seen ports with
  | Ok seen' => seen' = list_to_set ports ∪ seen ∧ NoDup ports ∧ ∀ p, p ∈ ports → p ∉ seen
  | Err _ => ¬ (NoDup ports ∧ ∀ p, p ∈ ports → p ∉ seen)
  end.
Proof.
  induction ports as [|p ports IH]; intros seen; simpl.
  { split; [set_solver|]. split; [constructor|set_solver]. }
  case_bool_decide as Hp; [intros [_ H]; apply (H p); [set_solver|done]|].
  specialize (IH ({[p]} ∪ seen)). destruct (check_ports _ ports) as [seen'|].
  - destruct IH as (-> & Hn & Hf). split; [set_solver|]. split; [constructor; set_solver|set_solver].
  - intros [Hn Hf]. apply NoDup_cons in Hn as [Hp' Hn]. apply IH. split; [done|set_solver].
Qed.

Lemma check_claims_spec claims : ∀ seen,
  is_ok (fold_result check_ports seen claims) = true ↔
  NoDup (concat claims) ∧ ∀ p, p ∈ concat claims → p ∉ seen.
Proof.
  induction claims as [|ports claims IH]; intros seen; simpl.
  { split; [|done]. intros _. split; [constructor|set_solver]. }
  pose proof (check_ports_spec ports seen) as Hc. destruct (check_ports seen ports) as [seen'|].
  - destruct Hc as (-> & Hn & Hf). rewrite IH, NoDup_app. set_solver.
  - simpl. split; [done|]. rewrite NoDup_app. intros [(Hn & _ & _) Hf]. destruct Hc. set_solver.
Qed.

Lemma is_ok_unit_bind {A} (r : res A) : is_ok (let? _ := r in (Ok () : res ())) = is_ok r.
Proof. by destruct r. Qed.

Lemma check_overbook_accepts self :
  is_ok (check_overbook_ports self) = true ↔ NoDup (concat (claimed_ports self)).
Proof.
  unfold check_overbook_ports. rewrite is_ok_unit_bind, check_claims_spec. set_solver.
Qed.

Lemma is_ok_if (b : bool) k : is_ok (if b then fail k else Ok () : res ()) = negb b.
Proof. by destruct b. Qed.

Lemma fold_result_unit {A} (f : A → res ()) l :
  is_ok (fold_result (λ _, f) () l) = true ↔ ∀ x, x ∈ l → is_ok (f x) = true.
Proof.
  induction l as [|x l IH]; simpl; [set_solver|].
  destruct (f x) as [[]|] eqn:E.
  - rewrite IH. split; [|set_solver]. intros H y [->|Hy]%elem_of_cons; [by rewrite E|auto].
  - split; [done|]. intros H. specialize (H x). rewrite E in H. apply H. set_solver.
Qed.

(** The port of a list of port lists is in one of them. *)
Lemma concat_map_unique {A} (f : A → list string) l x y p :
  NoDup (concat (map f l)) → x ∈ l → y ∈ l → p ∈ f x → p ∈ f y → x = y.
Proof.
  induction l as [|z l IH]; simpl; [set_solver|]. rewrite NoDup_app. intros (_ & Hd & Hn) Hx Hy Hpx Hpy.
  assert (∀ w, w ∈ l → p ∈ f w → p ∈ concat (map f l)) as Hin.
  { intros w Hw Hp. apply list_elem_of_In, in_concat. exists (f w).
    split; apply list_elem_of_In; [|done]. apply list_elem_of_fmap. eauto. }
  apply elem_of_cons in Hx as [->|Hx], Hy as [->|Hy]; try done.
  - destruct (Hd p Hpx). eauto.
  - destruct (Hd p Hpy). eauto.
  - by apply IH.
Qed.

Lemma fold_list_ports_lookup l : ∀ (acc : gmap string string) p n,
  foldl list_ports acc l !! p = Some n →
  acc !! p = Some n ∨ ∃ m, m ∈ l ∧ p ∈ all_ports (Some (mi_merged m)) ∧ mi_kernel_iface_name m = n.
Proof.
  assert (∀ ports name (acc : gmap string string) p n,
    foldl (λ acc port, <[port := name]> acc) acc ports !! p = Some n →
    acc !! p = Some n ∨ p ∈ ports ∧ n = name) as Hone.
  { induction ports as [|q ports IH]; intros name acc p n H; simpl in H; [by left|].
    apply IH in H as [H|[H ->]]; [|right; set_solver].
    apply lookup_insert_Some in H as [[-> <-]|[_ H]]; [right; set_solver|by left]. }
  induction l as [|m l IH]; intros acc p n H; simpl in H; [by left|].
  apply IH in H as [H|(m' & Hm & H)]; [|right; exists m'; set_solver].
  unfold list_ports in H. apply Hone in H as [H|[H ->]]; [by left|]. right. exists m. set_solver.
Qed.

Lemma fold_list_ports_some l : ∀ (acc : gmap string string) p,
  is_Some (acc !! p) ∨ (∃ m, m ∈ l ∧ p ∈ all_ports (Some (mi_merged m))) →
  is_Some (foldl list_ports acc l !! p).
Proof.
  assert (∀ ports name (acc : gmap string string) p,
    is_Some (acc !! p) ∨ p ∈ ports →
    is_Some (foldl (λ acc port, <[port := name]> acc) acc ports !! p)) as Hone.
  { induction ports as [|q ports IH]; intros name acc p H; simpl; [destruct H; [done|set_solver]|].
    apply IH. destruct (decide (p = q)) as [->|]; [left; by rewrite lookup_insert_eq|].
    rewrite lookup_insert_ne by done. set_solver. }
  induction l as [|m l IH]; intros acc p H; simpl; [destruct H as [|(? & ? & _)]; [done|set_solver]|].
  apply IH. destruct H as [H|(m' & [->|Hm]%elem_of_cons & Hp)]; [left|left|right; eauto];
    apply Hone; auto.
Qed.

(** Only controllers have port lists. *)
Definition controllers_only (self : MergedInterfaces) : Prop :=
  ∀ m, m ∈ merged_iter self → iface_ports (mi_merged m) ≠ None → iface_is_controller (mi_merged m) = true.

(** The controllers and ports of a request agree. *)
Record consistent (self : MergedInterfaces) : Prop := {
  cs_one_controller : NoDup (concat (claimed_ports self));
  cs_infiniband : ∀ m p, m ∈ (kernel_ifaces self).*2 → mi_is_desired m = true →
    iface_is_controller (mi_merged m) = true →
    p ∈ all_ports (Some (mi_merged m)) → p ∈ ib_iface_names self → is_active_backup (mi_merged m) = true;
  cs_listed : ∀ m c, m ∈ (kernel_ifaces self).*2 → des_ctrl_name m = Some c → c ≠ "" →
    ∃ ctrl, option_or (get_user self c TOvsBridge) (get_kernel self c) = Some ctrl ∧
      ∀ ports, mi_desired ctrl ≫= iface_ports = Some ports → mi_kernel_iface_name m ∈ ports;
  cs_not_elsewhere : ∀ m c ctrl, m ∈ (kernel_ifaces self).*2 → des_ctrl_name m = Some c →
    ctrl ∈ merged_iter self → is_desired_up ctrl = true →
    mi_kernel_iface_name m ∈ all_ports (Some (mi_merged ctrl)) → mi_kernel_iface_name ctrl = c;
  cs_ip : ∀ m a, m ∈ merged_iter self → is_desired_up m = true → mi_for_apply m = Some a →
    base_can_have_ip (base_iface a) = false → ip_explicitly_enabled (base_iface a) = false;
}.

Lemma infiniband_accepts self :
  is_ok (check_infiniband_as_ports self) = true ↔
  ∀ m p, m ∈ (kernel_ifaces self).*2 → mi_is_desired m = true →
    iface_is_controller (mi_merged m) = true →
    p ∈ all_ports (Some (mi_merged m)) → p ∈ ib_iface_names self → is_active_backup (mi_merged m) = true.
Proof.
  unfold check_infiniband_as_ports. rewrite is_ok_if, negb_true_iff, existsb_false_elem_of.
  unfold holds_infiniband. split.
  - intros H m p Hm Hd Hc Hp Hib. specialize (H m Hm). rewrite Hd, Hc in H. simpl in H.
    destruct (is_active_backup _); [done|]. rewrite andb_true_r in H.
    rewrite existsb_false_elem_of in H. specialize (H p Hp). by case_bool_decide.
  - intros H m Hm. destruct (mi_is_desired m) eqn:Hd, (iface_is_controller (mi_merged m)) eqn:Hc,
      (existsb _ _) eqn:He; try done. simpl.
    apply existsb_elem_of in He as (p & Hp & Hib%bool_decide_eq_true). by rewrite (H m p).
Qed.

Lemma listed_accepts self :
  is_ok (validate_controller_not_in_port_list self) = true ↔
  ∀ m c, m ∈ (kernel_ifaces self).*2 → des_ctrl_name m = Some c → c ≠ "" →
    ∃ ctrl, option_or (get_user self c TOvsBridge) (get_kernel self c) = Some ctrl ∧
      ∀ ports, mi_desired ctrl ≫= iface_ports = Some ports → mi_kernel_iface_name m ∈ ports.
Proof.
  unfold validate_controller_not_in_port_list. rewrite fold_result_unit. unfold in_ports_of_controller.
  split.
  - intros H m c Hm Hc Hne. specialize (H m Hm). rewrite Hc in H.
    rewrite (proj2 (String.eqb_neq _ _) Hne) in H.
    destruct (option_or _ _) as [ctrl|]; [|done]. exists ctrl. split; [done|]. intros ports Hp.
    rewrite Hp in H. by case_bool_decide.
  - intros H m Hm. destruct (des_ctrl_name m) as [c|] eqn:Hc; [|done].
    destruct (String.eqb_spec c "") as [|Hne]; [done|].
    destruct (H m c Hm Hc Hne) as (ctrl & -> & Hp).
    destruct (mi_desired ctrl ≫= iface_ports) as [ports|]; [|done].
    rewrite bool_decide_eq_true_2; auto.
Qed.

Lemma elsewhere_accepts self :
  controllers_only self → NoDup (concat (claimed_ports self)) →
  is_ok (validate_controller_in_other_port_list self) = true ↔
  ∀ m c ctrl, m ∈ (kernel_ifaces self).*2 → des_ctrl_name m = Some c →
    ctrl ∈ merged_iter self → is_desired_up ctrl = true →
    mi_kernel_iface_name m ∈ all_ports (Some (mi_merged ctrl)) → mi_kernel_iface_name ctrl = c.
Proof.
  intros Honly Hn. unfold validate_controller_in_other_port_list.
  rewrite is_ok_if, negb_true_iff, existsb_false_elem_of. unfold listed_elsewhere, port_to_ctrl. split.
  - intros H m c ctrl Hm Hc Hin Hup Hp. specialize (H m Hm). rewrite Hc in H.
    destruct (fold_list_ports_some (List.filter is_desired_up (merged_iter self)) ∅
                (mi_kernel_iface_name m)) as [n Hl].
    { right. exists ctrl. rewrite list_elem_of_In, filter_In, <- list_elem_of_In. done. }
    rewrite Hl in H. apply negb_false_iff, String.eqb_eq in H as ->.
    apply fold_list_ports_lookup in Hl as [Hl|(m' & Hm' & Hp' & <-)]; [by rewrite lookup_empty in Hl|].
    rewrite list_elem_of_In, filter_In, <- list_elem_of_In in Hm'. destruct Hm' as [Hin' Hup'].
    f_equal. unfold claimed_ports in Hn.
    eapply (concat_map_unique _ _ _ _ _ Hn); [..|exact Hp|exact Hp'];
      rewrite list_elem_of_In, filter_In, <- list_elem_of_In, andb_true_iff; split; try done;
      (split; [|done]); apply Honly; try done; intros Hno; unfold all_ports in *; simpl in *;
      rewrite Hno in *; set_solver.
  - intros H m Hm. destruct (des_ctrl_name m) as [c|] eqn:Hc; [|done].
    destruct (foldl _ _ _ !! _) as [n|] eqn:Hl; [|done].
    apply fold_list_ports_lookup in Hl as [Hl|(m' & Hm' & Hp' & <-)]; [by rewrite lookup_empty in Hl|].
    rewrite list_elem_of_In, filter_In, <- list_elem_of_In in Hm'. destruct Hm' as [Hin' Hup'].
    rewrite (H m c m') by done. by rewrite String.eqb_refl.
Qed.

Lemma can_have_ip_accepts self :
  is_ok (validate_can_have_ip self) = true ↔
  ∀ m a, m ∈ merged_iter self → is_desired_up m = true → mi_for_apply m = Some a →
    base_can_have_ip (base_iface a) = false → ip_explicitly_enabled (base_iface a) = false.
Proof.
  unfold validate_can_have_ip. rewrite is_ok_if, negb_true_iff, existsb_false_elem_of.
  unfold has_forbidden_ip. split.
  - intros H m a Hm Hup Ha Hip. specialize (H m Hm). by rewrite Hup, Ha, Hip in H.
  - intros H m Hm. destruct (is_desired_up m) eqn:Hup; [|done].
    destruct (mi_for_apply m) as [a|] eqn:Ha; [|done].
    destruct (base_can_have_ip _) eqn:Hip; [done|]. simpl. by rewrite (H m a).
Qed.

(** The checks accept exactly the requests that do not contradict themselves: no port is
    claimed by two controllers or twice by one, InfiniBand interfaces are ports of
    active-backup bonds only, an up interface that names its controller is listed by it
    where the request gives the list, and by no other, and IP is not enabled on a port of a
    controller that does not allow it. *)
Theorem port_checks_accept self :
  controllers_only self →
  is_ok (check_overbook_ports self) && is_ok (check_infiniband_as_ports self) &&
  is_ok (validate_controller_not_in_port_list self) &&
  is_ok (validate_controller_in_other_port_list self) && is_ok (validate_can_have_ip self) = true ↔
  consistent self.
Proof.
  intros Honly. rewrite !andb_true_iff, check_overbook_accepts, infiniband_accepts, listed_accepts,
    can_have_ip_accepts. split.
  - intros ((((H1 & H2) & H3) & H4) & H5). rewrite elsewhere_accepts in H4 by done. by constructor.
  - intros [H1 H2 H3 H4 H5]. rewrite elsewhere_accepts by done. done.
Qed.

(** ** Entries *)

Section Entries.
Context {K A : Type} `{EqDecision K}.
Implicit Types l : list (K * A).

Lemma entry_get_update k k' f l :
  entry_get k (entry_update k' f l) = if decide (k = k') then f <$> entry_get k l else entry_get k l.
Proof.
  unfold entry_update. induction l as [|[k0 v] l IH]; simpl; [by destruct (decide _)|].
  destruct (decide (k0 = k')) as [->|]; simpl; rewrite IH;
    repeat case_decide; subst; simpl; try done; congruence.
Qed.

Lemma entry_get_app k l l' :
  entry_get k (l ++ l') = match entry_get k l with Some v => Some v | None => entry_get k l' end.
Proof. induction l as [|[k0 v] l IH]; simpl; [done|]. by case_decide. Qed.

Lemma entry_get_None k l : k ∉ l.*1 → entry_get k l = None.
Proof.
  induction l as [|[k0 v] l IH]; simpl; [done|]. rewrite not_elem_of_cons. intros [Hk Hl].
  rewrite decide_False by done. by apply IH.
Qed.

Lemma entry_get_Some k l : k ∈ l.*1 → is_Some (entry_get k l).
Proof.
  induction l as [|[k0 v] l IH]; simpl; [set_solver|]. intros [->|Hk]%elem_of_cons;
    [rewrite decide_True by done; eauto|]. case_decide; eauto.
Qed.

Lemma entry_get_elem k l v : entry_get k l = Some v → (k, v) ∈ l.
Proof.
  induction l as [|[k0 v0] l IH]; simpl; [done|]. case_decide as H; [|set_solver].
  intros [= ->]. subst. set_solver.
Qed.

Lemma entry_get_insert k k' v l :
  entry_get k (entry_insert k' v l) = if decide (k = k') then Some v else entry_get k l.
Proof.
  unfold entry_insert. destruct (decide (k' ∈ l.*1)) as [Hk|Hk].
  - rewrite entry_get_update. case_decide as H; [|done]. subst.
    by destruct (entry_get_Some k' l Hk) as [w ->].
  - rewrite entry_get_app. case_decide as H; simpl.
    + subst. rewrite entry_get_None by done. by rewrite decide_True.
    + destruct (entry_get k l); [done|]. by rewrite decide_False.
Qed.
End Entries.

Lemma get_kernel_push_order name k self : get_kernel (push_order k self) name = get_kernel self name.
Proof. done. Qed.

(** ** The pending changes *)

(** [c] asks for [p], or no longer does. *)
Definition attaches (c : MergedInterface) (p : string) : Prop :=
  is_changed_controller c = true ∧ ∃ ps ds, get_changed_ports c = Some (ps, ds) ∧ p ∈ ps.

Definition detaches (c : MergedInterface) (p : string) : Prop :=
  is_changed_controller c = true ∧ ∃ ps ds, get_changed_ports c = Some (ps, ds) ∧ p ∈ ds.

Definition attach_of (a : Interface) : PortChange :=
  (kernel_iface_name a, iface_type a, bi_state (base_iface a)).

Definition detach_of (a : Interface) : PortChange := ("", TUnknown "", bi_state (base_iface a)).

(** What a pending change of [p] comes from. *)
Definition pending_from (seen : list MergedInterface) (p : string) (ch : option PortChange) : Prop :=
  match ch with
  | Some ch =>
      (∃ c a, c ∈ seen ∧ attaches c p ∧ mi_for_apply c = Some a ∧ ch = attach_of a) ∨
      ((∀ c, c ∈ seen → ¬ attaches c p) ∧
       ∃ c a, c ∈ seen ∧ detaches c p ∧ mi_for_apply c = Some a ∧ ch = detach_of a)
  | None => ∀ c, c ∈ seen → ¬ attaches c p ∧ ¬ detaches c p
  end.

Lemma foldl_attach ch ps : ∀ (pending : PortChanges) p,
  foldl (attach_change ch) pending ps !! p = if decide (p ∈ ps) then Some ch else pending !! p.
Proof.
  induction ps as [|q ps IH]; intros pending p; simpl; [done|]. rewrite IH. unfold attach_change.
  destruct (decide (p = q)) as [->|Hne].
  - rewrite lookup_insert_eq, (decide_True (P := q ∈ q :: ps)) by set_solver. by case_decide.
  - rewrite lookup_insert_ne by done.
    destruct (decide (p ∈ ps)), (decide (p ∈ q :: ps)); set_solver.
Qed.

Lemma foldl_detach s ds : ∀ (pending : PortChanges) p,
  foldl (detach_change s) pending ds !! p =
  match pending !! p with
  | Some ch => Some ch
  | None => if decide (p ∈ ds) then Some ("", TUnknown "", s) else None
  end.
Proof.
  induction ds as [|q ds IH]; intros pending p; simpl; [by destruct (pending !! p)|]. rewrite IH.
  unfold detach_change. destruct (pending !! q) as [ch|] eqn:Eq.
  - destruct (pending !! p) eqn:Ep; [done|].
    destruct (decide (p ∈ ds)), (decide (p ∈ q :: ds)) as [Hin|]; try done; [set_solver|].
    apply elem_of_cons in Hin as [->|]; [congruence|done].
  - destruct (decide (p = q)) as [->|Hne].
    + rewrite lookup_insert_eq, Eq. by rewrite decide_True by set_solver.
    + rewrite lookup_insert_ne by done. destruct (pending !! p); [done|].
      destruct (decide (p ∈ ds)), (decide (p ∈ q :: ds)); set_solver.
Qed.

Lemma collect_changes_from seen pending m :
  (∀ p, pending_from seen p (pending !! p)) →
  ∀ p, pending_from (seen ++ [m]) p (collect_changes pending m !! p).
Proof.
  intros Hp p. specialize (Hp p). unfold collect_changes.
  assert (¬ (attaches m p ∨ detaches m p) → pending_from (seen ++ [m]) p (pending !! p)) as Hskip.
  { intros Hno. destruct (pending !! p) as [ch|]; simpl in *; [|intros c Hc; set_solver].
    destruct Hp as [(c & a & Hc & H)|(Hn & c & a & Hc & H)]; [left|right];
      [exists c, a; set_solver|]. split; [set_solver|]. exists c, a. set_solver. }
  destruct (is_changed_controller m) eqn:Em.
  2:{ apply Hskip. intros [[H _]|[H _]]; congruence. }
  destruct (mi_for_apply m) as [a|] eqn:Ea.
  2:{ unfold is_changed_controller, mi_is_changed in Em. by rewrite Ea in Em. }
  destruct (get_changed_ports m) as [[ps ds]|] eqn:Eg.
  2:{ apply Hskip. intros [(_ & ? & ? & H & _)|(_ & ? & ? & H & _)]; congruence. }
  rewrite foldl_detach, foldl_attach.
  assert (attaches m p ↔ p ∈ ps) as Hatt.
  { split; [intros (_ & ? & ? & H & ?)|intros H; split; [done|eauto]]. congruence. }
  assert (detaches m p ↔ p ∈ ds) as Hdet.
  { split; [intros (_ & ? & ? & H & ?)|intros H; split; [done|eauto]]. congruence. }
  destruct (decide (p ∈ ps)) as [Hin|Hin].
  { left. exists m, a. split; [set_solver|]. split; [by apply Hatt|]. done. }
  destruct (decide (p ∈ ds)) as [Hd|Hd]; [|destruct (pending !! p); apply Hskip; naive_solver].
  destruct (pending !! p) as [ch|]; simpl in *.
  - destruct Hp as [(c & a' & Hc & H)|(Hn & c & a' & Hc & H)]; [left; exists c, a'; set_solver|right].
    split; [set_solver|]. exists c, a'. set_solver.
  - right. split; [set_solver|]. exists m, a. split; [set_solver|]. split; [by apply Hdet|]. done.
Qed.

Lemma pending_changes_from self p : pending_from (merged_iter self) p (pending_changes self !! p).
Proof.
  unfold pending_changes. revert p.
  assert (∀ l seen pending, (∀ p, pending_from seen p (pending !! p)) →
    ∀ p, pending_from (seen ++ l) p (foldl collect_changes pending l !! p)) as H.
  { induction l as [|m l IH]; intros seen pending Hp p; simpl; [by rewrite app_nil_r|].
    change (m :: l) with ([m] ++ l). rewrite app_assoc. apply IH. by apply collect_changes_from. }
  apply (H _ [] ∅). intros p. rewrite lookup_empty. set_solver.
Qed.

(** ** Carrying out the changes *)

Section Changes.
Context {Num : Type} `{!EqDecision Num} `{!Serde Num Interface} `{!Serde Num (list AltNameEntry)}.
Context (to_uppercase : string → string).
Implicit Types self : MergedInterfaces.

Lemma apply_change_other self p ch self' q :
  apply_change to_uppercase self (p, ch) = Ok self' → q ≠ p → get_kernel self' q = get_kernel self q.
Proof.
  destruct ch as [[c t] s]. unfold apply_change. intros E Hq.
  destruct (get_kernel self p) as [m|] eqn:Em.
  - destruct (mi_is_changed m); destruct (apply_ctrller_change m c t s) as [m'|]; try done;
      injection E as <-; unfold get_kernel; simpl; rewrite entry_get_update; by rewrite decide_False.
  - case_bool_decide.
    + destruct (merged_interface_new _ _ _ _ _) as [m|]; [|done]. injection E as <-.
      unfold get_kernel. simpl. rewrite entry_get_insert. by rewrite decide_False.
    + destruct (negb _); [done|]. by injection E as <-.
Qed.

Lemma apply_change_same self p c t s self' :
  apply_change to_uppercase self (p, (c, t, s)) = Ok self' →
  match get_kernel self p with
  | Some m => ∃ m', apply_ctrller_change m c t s = Ok m' ∧ get_kernel self' p = Some m'
  | None => c ≠ "" → is_Some (get_kernel self' p)
  end.
Proof.
  unfold apply_change. intros E. destruct (get_kernel self p) as [m|] eqn:Em.
  - destruct (mi_is_changed m); destruct (apply_ctrller_change m c t s) as [m'|]; try done;
      injection E as <-; exists m'; (split; [done|]); unfold get_kernel in *; simpl;
      rewrite entry_get_update, decide_True by done; by rewrite Em.
  - intros Hc. case_bool_decide.
    + destruct (merged_interface_new _ _ _ _ _) as [m|]; [|done]. injection E as <-.
      unfold get_kernel. simpl. rewrite entry_get_insert, decide_True by done. eauto.
    + by rewrite (proj2 (String.eqb_neq _ _) Hc) in E.
Qed.

Lemma apply_changes l : ∀ self self',
  fold_result (apply_change to_uppercase) self l = Ok self' → NoDup l.*1 →
  (∀ p, p ∉ l.*1 → get_kernel self' p = get_kernel self p) ∧
  (∀ p c t s, (p, (c, t, s)) ∈ l →
     match get_kernel self p with
     | Some m => ∃ m', apply_ctrller_change m c t s = Ok m' ∧ get_kernel self' p = Some m'
     | None => c ≠ "" → is_Some (get_kernel self' p)
     end).
Proof.
  induction l as [|[p0 [[c0 t0] s0]] l IH]; intros self self' E Hn.
  { injection E as <-. split; [done|]. intros p c t s Hin. by apply elem_of_nil in Hin. }
  cbn [fold_result] in E. destruct (apply_change _ self _) as [self1|] eqn:E1; [|done].
  apply NoDup_cons in Hn as [Hp0 Hn]. destruct (IH _ _ E Hn) as [Ho Hs]. split.
  - intros p Hp. cbn in Hp. apply not_elem_of_cons in Hp as [Hpp Hp].
    rewrite (Ho p Hp). by eapply apply_change_other.
  - intros p c t s [Heq|Hin]%elem_of_cons.
    + injection Heq as -> -> -> ->. apply apply_change_same in E1. rewrite (Ho p0 Hp0).
      destruct (get_kernel self p0); done.
    + assert (p ≠ p0) as Hne.
      { intros ->. apply Hp0. apply list_elem_of_fmap. by exists (p0, (c, t, s)). }
      specialize (Hs p c t s Hin). by rewrite (apply_change_other _ _ _ _ _ E1 Hne) in Hs.
Qed.

(** What becomes of the port [m] of that name. *)
Definition port_outcome self (p : string) (m m' : MergedInterface) : Prop :=
  if desires state_is_ignore (mi_desired m) then m' = m
  else
    (∃ c a b, c ∈ merged_iter self ∧ attaches c p ∧ mi_for_apply c = Some a ∧
       follows_controller m m' (kernel_iface_name a) (iface_type a) (bi_state (base_iface a)) b) ∨
    (∀ c, c ∈ merged_iter self → ¬ attaches c p) ∧
    ((∃ c a, c ∈ merged_iter self ∧ detaches c p ∧ mi_for_apply c = Some a ∧
        if lives_without m ""
        then ∃ b, follows_controller m m' "" (TUnknown "") (bi_state (base_iface a)) b
        else iface_is_absent <$> mi_for_apply m' = Some true ∧ iface_is_absent (mi_merged m') = true) ∨
     (∀ c, c ∈ merged_iter self → ¬ detaches c p) ∧ m' = m).


End Changes.

(** ** Examples *)

Definition ex_bridge (name : string) (ports : list string) : Interface :=
  IfLinuxBridge (linux_bridge_interface
    (set_bi_kernel_iface_name name (base_new name TLinuxBridge))
    (Some (bridge_config None
       (Some (map (λ p, bridge_port_config p None None None None) ports)) None))).

Definition ex_nic (name : string) : Interface :=
  IfEthernet (set_bi_kernel_iface_name name (base_new name TEthernet)) None.

(** An interface that the request creates, and one that it does not mention. *)
Definition ex_created (i : Interface) : MergedInterface :=
  merged_interface (Some i) None i (Some i) (Some i) (Some i) None None false.

Definition ex_untouched (i : Interface) : MergedInterface :=
  merged_interface None (Some i) i None None None None None false.

Definition ex_changed (i current : Interface) : MergedInterface :=
  merged_interface (Some i) (Some current) i (Some i) (Some i) (Some i) None None false.

Definition ex_mis (l : list (string * MergedInterface)) : MergedInterfaces :=
  merged_interfaces l [] (map (λ e, (e.1, mi_iface_type e.2)) l) [] search_default.

(** The new [br0] takes [eth1] from [br1], which keeps [eth2]. *)
Definition ex_port_moves : MergedInterfaces :=
  ex_mis [("br1", ex_changed (ex_bridge "br1" ["eth2"]) (ex_bridge "br1" ["eth1"; "eth2"; "eth3"]));
          ("br0", ex_created (ex_bridge "br0" ["eth1"]));
          ("eth1", ex_untouched (ex_nic "eth1")); ("eth2", ex_untouched (ex_nic "eth2"));
          ("eth3", ex_untouched (ex_nic "eth3"))].

(** The controller that is applied to a port, and whether it is changed at all. *)
Definition applied_ctrl (self : MergedInterfaces) (name : string) : option (option string) :=
  match get_kernel self name with
  | Some m => (λ a, bi_controller (base_iface a)) <$> mi_for_apply m
  | None => None
  end.

Example eth1_moves_and_eth3_is_detached :
  match handle_changed_ports to_ascii_uppercase map_to_list ex_port_moves with
  | Ok self => (applied_ctrl self "eth1", applied_ctrl self "eth2", applied_ctrl self "eth3") =
               (Some (Some "br0"), None, Some (Some ""))
  | Err _ => False
  end.
Proof. vm_compute. reflexivity. Qed.

Definition named (m : MergedInterface) : bool :=
  match mi_for_apply m with
  | Some a => negb (String.eqb (kernel_iface_name a) "")
  | None => true
  end.


Lemma port_checks_accept_witness :
  is_ok (check_overbook_ports ex_port_moves) && is_ok (check_infiniband_as_ports ex_port_moves) &&
  is_ok (validate_controller_not_in_port_list ex_port_moves) &&
  is_ok (validate_controller_in_other_port_list ex_port_moves) &&
  is_ok (validate_can_have_ip ex_port_moves) = true ∧ consistent ex_port_moves.
Proof.
  assert (is_ok (check_overbook_ports ex_port_moves) && is_ok (check_infiniband_as_ports ex_port_moves) &&
    is_ok (validate_controller_not_in_port_list ex_port_moves) &&
    is_ok (validate_controller_in_other_port_list ex_port_moves) &&
    is_ok (validate_can_have_ip ex_port_moves) = true) as H by (vm_compute; reflexivity).
  split; [exact H|]. apply port_checks_accept; [|exact H]. intros m Hm Hp.
  assert (forallb (λ m, bool_decide (iface_ports (mi_merged m) = None) ||
    iface_is_controller (mi_merged m)) (merged_iter ex_port_moves) = true) as Hc by (vm_compute; reflexivity).
  rewrite forallb_forall in Hc. apply list_elem_of_In in Hm. apply Hc in Hm.
  apply orb_true_iff in Hm as [Hm|Hm]; [|exact Hm]. apply bool_decide_eq_true in Hm. done.
Defined.

(** Two controllers that claim one port are refused. *)
Example overbooked_port_is_refused :
  check_overbook_ports (ex_mis [("br0", ex_created (ex_bridge "br0" ["eth1"]));
                                ("br1", ex_created (ex_bridge "br1" ["eth1"]))]) =
  fail InvalidArgument.
Proof. reflexivity. Qed.

(** A port that the request marks as ignored is listed by its controller, but not attached:
    the controller waits for it in vain. *)
Example ignored_port_is_not_attached :
  let eth1 := set_state SIgnore (ex_nic "eth1") in
  let self := ex_mis [("br0", ex_created (ex_bridge "br0" ["eth1"]));
                      ("eth1", merged_interface (Some eth1) (Some (ex_nic "eth1")) eth1 None None
                                 (Some eth1) None None false)] in
  match post_merge_sanitize_controller_and_port to_ascii_uppercase map_to_list self with
  | Ok self => applied_ctrl self "eth1" = None ∧
               ((get_kernel self "br0" ≫= mi_for_apply) ≫= iface_ports) = Some ["eth1"]
  | Err _ => False
  end.
Proof. vm_compute. split; reflexivity. Qed.
