(* ===== verification/MergedIfaces.v ===== *)
(** * MergedIfaces: the interfaces of an apply

    [src/lib/schema/merged/inter_iface.rs], [merged/ethernet.rs] and
    [merged/wifi.rs]: the desired, current and saved interfaces are matched and
    merged, sanitized together, and put into the order in which they are activated.

    The order in which a hash map is iterated over and in which an unstable sort puts
    equal keys is an [Iteration], any that the standard library allows. *)

From S2P Require Export Controller Interfaces.

#[local] Open Scope Z_scope.

(** ** Orders the code does not determine *)

(** The key of an activation: deletions first, then by priority. *)
Abbreviation Activation := (bool * Z * Interface)%type.

Definition activation_cmp : bool * Z → bool * Z → comparison := pair_cmp bool_cmp Z.compare.

Definition activation_le (a b : Activation) : Prop := activation_cmp a.1 b.1 ≠ Gt.

Record Iteration : Type := iteration {
  it_kernel : gmap string Interface → list (string * Interface);
  it_user : gmap IfaceKey Interface → list (IfaceKey * Interface);
  it_changes : PortChanges → list (string * PortChange);
  it_merged_kernel : list (string * MergedInterface) → list (string * MergedInterface);
  it_merged_user : list (IfaceKey * MergedInterface) → list (IfaceKey * MergedInterface);
  it_sort : list Activation → list Activation;
  it_kernel_perm m : it_kernel m ≡ₚ map_to_list m;
  it_user_perm m : it_user m ≡ₚ map_to_list m;
  it_changes_perm m : it_changes m ≡ₚ map_to_list m;
  it_merged_kernel_perm l : it_merged_kernel l ≡ₚ l;
  it_merged_user_perm l : it_merged_user l ≡ₚ l;
  it_sort_perm l : it_sort l ≡ₚ l;
  it_sort_sorted l : StronglySorted activation_le (it_sort l);
}.

(** [Interfaces::drain]. *)
Definition drain (it : Iteration) (ifaces : Interfaces) : list Interface :=
  (it_kernel it (ifs_kernel ifaces)).*2 ++ (it_user it (ifs_user ifaces)).*2.

(** ** Pushing *)

(** An interface that is only saved keeps what is known about it under its key. *)
Definition adopt_saved (m existing : MergedInterface) : MergedInterface :=
  if bool_decide (mi_for_apply existing = None) && bool_decide (mi_for_save existing = None)
  then set_mi_for_save (mi_for_save m) existing else existing.

Definition push_kernel (name : string) (t : InterfaceType) (m : MergedInterface)
    (self : MergedInterfaces) : MergedInterfaces :=
  push_order (name, t) (set_kernel_ifaces (entry_insert name m (kernel_ifaces self)) self).

Definition push_user (name : string) (t : InterfaceType) (m : MergedInterface)
    (self : MergedInterfaces) : MergedInterfaces :=
  push_order (name, t) (set_user_ifaces (entry_insert (name, t) m (user_ifaces self)) self).

(** The name under which a saved kernel interface is kept. *)
Definition saved_iface_name (base : BaseInterface) : string :=
  if negb (String.eqb (bi_kernel_iface_name base) "") then bi_kernel_iface_name base
  else default (bi_name base) (bi_profile_name base).

Definition push_saved (saved : Interface) (m : MergedInterface) (self : MergedInterfaces) :
    MergedInterfaces :=
  if iface_is_userspace saved then
    match get_user self (iface_name saved) (iface_type saved) with
    | Some _ => set_user_ifaces (entry_update (iface_name saved, iface_type saved) (adopt_saved m)
                                   (user_ifaces self)) self
    | None => push_user (iface_name saved) (iface_type saved) m self
    end
  else
    let name := saved_iface_name (base_iface saved) in
    match get_kernel self name with
    | Some _ => set_kernel_ifaces (entry_update name (adopt_saved m) (kernel_ifaces self)) self
    | None => push_kernel name (iface_type saved) m self
    end.

(** [MergedInterfaces::push]. *)
Definition mis_push (self : MergedInterfaces) (m : MergedInterface) : MergedInterfaces :=
  match (if String.eqb (mi_name m) "" then mi_for_save m else None) with
  | Some saved => push_saved saved m self
  | None =>
      if mi_is_userspace m then push_user (mi_name m) (mi_iface_type m) m self
      else push_kernel (mi_kernel_iface_name m) (mi_iface_type m) m self
  end.

(** ** Matching *)

(** [unify_veth_and_ethernet]. *)
Definition unify_veth (i : Interface) : Interface :=
  if bool_decide (iface_type i = TVeth) then upd_base (set_bi_iface_type TEthernet) i else i.

Definition unify_veth_and_ethernet (self : Interfaces) : Interfaces :=
  interfaces (unify_veth <$> ifs_kernel self) (unify_veth <$> ifs_user self) (insert_order self)
    (ifs_search self).

(** [copy_identifier_config_from]. *)
Definition copy_identifier_config_from (dst src : BaseInterface) : BaseInterface :=
  let dst := set_bi_identifier (bi_identifier src) dst in
  if bool_decide (bi_identifier src = Some IdMacAddress) then
    match bi_mac_address src with
    | Some mac => set_bi_mac_address (Some mac) dst
    | None => dst
    end
  else dst.

(** The desired interface is identified the way its saved configuration is. *)
Definition identify_as_saved (saved_iface des_iface : BaseInterface) : BaseInterface :=
  if negb (base_is_name_matching saved_iface) && bool_decide (bi_identifier des_iface = None) then
    let des_iface := copy_identifier_config_from des_iface saved_iface in
    if bool_decide (bi_profile_name des_iface = None)
    then set_bi_profile_name (bi_profile_name saved_iface) des_iface else des_iface
  else des_iface.

(** The names of a desired interface that was found by its MAC address. *)
Definition resolve_mac_names (saved_iface : option Interface) (cur_iface : Interface)
    (des : BaseInterface) : BaseInterface :=
  let cur_kernel_name := kernel_iface_name cur_iface in
  let des := if bool_decide (bi_profile_name des = None)
             then set_bi_profile_name (Some (bi_name des)) des else des in
  let des_kernel_name := bi_kernel_iface_name des in
  if negb (String.eqb des_kernel_name "") && negb (String.eqb des_kernel_name cur_kernel_name)
  then
    let des := set_bi_kernel_iface_name des_kernel_name (set_bi_name des_kernel_name des) in
    if bool_decide (bi_alt_names des = None) &&
       bool_decide (saved_iface ≫= (λ s, bi_alt_names (base_iface s)) = None)
    then set_bi_alt_names (Some [alt_name_entry cur_kernel_name false]) des else des
  else set_bi_kernel_iface_name cur_kernel_name (set_bi_name cur_kernel_name des).

Definition is_mac_desired (i : Interface) : bool :=
  bool_decide (bi_identifier (base_iface i) = Some IdMacAddress).

(** The interfaces a desired one is merged with, and itself with its names resolved. *)
Record Matched : Type := matched {
  mt_desired : Interface;
  mt_current : option Interface;
  mt_saved : option Interface;
}.

Definition match_desired (current : Interfaces) (saved : option Interfaces) (des_iface : Interface) :
    res Matched :=
  let saved_iface := saved ≫= λ s, get_matched_iface_from_save s (base_iface des_iface) in
  let des_iface :=
    match saved_iface with
    | Some saved_iface => upd_base (identify_as_saved (base_iface saved_iface)) des_iface
    | None => des_iface
    end in
  let? cur_iface := get_matched_iface_from_current current (base_iface des_iface) in
  let des_iface :=
    match cur_iface with
    | Some cur_iface =>
        if is_mac_desired des_iface
        then upd_base (resolve_mac_names saved_iface cur_iface) des_iface else des_iface
    | None => des_iface
    end in
  let saved_iface :=
    if bool_decide (saved_iface = None) && is_mac_desired des_iface &&
       bool_decide (is_Some cur_iface)
    then saved ≫= λ s, ifs_kernel s !! kernel_iface_name des_iface
    else saved_iface in
  Ok (matched des_iface cur_iface saved_iface).

Definition consumed_key (i : Interface) : IfaceKey := (iface_name i, iface_type i).

(** ** WIFI *)

(** The [wifi-phy] that carries the IP configuration of a connected [wifi-cfg]. *)
Definition expanded_phy (wifi_cfg cur_phy : BaseInterface) : BaseInterface :=
  let base := set_bi_kernel_iface_name (bi_kernel_iface_name cur_phy)
                (set_bi_name (bi_name cur_phy) wifi_cfg) in
  let base := set_bi_identifier (Some IdMacAddress) (set_bi_state SUp (set_bi_iface_type TWifiPhy base)) in
  let base := set_bi_permanent_mac_address None
                (set_bi_mac_address (bi_mac_address cur_phy) base) in
  if bool_decide (bi_profile_name base = None)
  then set_bi_profile_name (bi_profile_name cur_phy) base else base.

Definition expand_wifi_cfg (it : Iteration) (desired current : Interfaces) (iface : Interface) :
    option Interface :=
  match iface with
  | IfWifiCfg b wifi =>
      if negb (iface_is_up iface) then None
      else if bool_decide (bi_ipv4 b = None) && bool_decide (bi_ipv6 b = None) then None
      else
        match find_connected_wifi_phy_for_cfg (it_kernel it (ifs_kernel current)) wifi with
        | None => None
        | Some cur_phy =>
            if iface_is_ignore cur_phy then None
            else if bool_decide (is_Some (ifs_kernel desired !! kernel_iface_name cur_phy)) then None
            else Some (IfWifiPhy (expanded_phy b (base_iface cur_phy)) None)
        end
  | _ => None
  end.

(** [expand_wifi_cfg_to_connected_phy]. *)
Definition expand_wifi_cfg_to_connected_phy (it : Iteration) (desired current : Interfaces) :
    Interfaces :=
  foldl interfaces_push desired (omap (expand_wifi_cfg it desired current) (interfaces_iter desired)).

(** [has_any_bind_wifi]. *)
Definition binds_any (m : MergedInterface) : bool :=
  match mi_for_apply m with
  | Some (IfWifiCfg b wifi) =>
      state_is_up (bi_state b) &&
      bool_decide ((λ w, bool_decide (wifi_base_iface w = None)) <$> wifi = Some true)
  | _ => false
  end.

Definition has_any_bind_wifi (self : MergedInterfaces) : bool :=
  existsb binds_any (user_ifaces self).*2.

Definition is_managed_phy (m : MergedInterface) : bool :=
  bool_decide (mi_iface_type m = TWifiPhy) && negb (iface_is_ignore (mi_merged m)) &&
  bool_decide (is_Some (mi_current m)).

(** The phy that an applied [wifi-cfg] names. *)
Definition bound_phy (self : MergedInterfaces) (m : MergedInterface) : option string :=
  match mi_for_apply m with
  | Some (IfWifiCfg b wifi) =>
      if negb (state_is_up (bi_state b)) then None
      else
        match wifi ≫= wifi_base_iface with
        | Some base_iface => Some (default base_iface (search_name (mis_search self) base_iface))
        | None => None
        end
  | _ => None
  end.

Definition phy_names_to_bring_up (self : MergedInterfaces) : list string :=
  (if has_any_bind_wifi self
   then (List.filter (λ e : string * MergedInterface, is_managed_phy e.2) (kernel_ifaces self)).*1
   else []) ++
  omap (bound_phy self) (user_ifaces self).*2.

(** A desired down or absent phy stays so. *)
Definition is_wanted_down (m : MergedInterface) : bool :=
  match mi_desired m with Some i => iface_is_absent i || iface_is_down i | None => false end.

Definition bring_phy_up (names : list string) (m : MergedInterface) : outcome MergedInterface :=
  if is_managed_phy m && negb (is_wanted_down m) &&
     bool_decide (mi_kernel_iface_name m ∈ names) && bool_decide (mi_for_apply m = None)
  then
    let? m := mark_as_changed m in
    Ok (set_mi_for_apply (set_state SUp <$> mi_for_apply m) m)
  else Ok m.

Definition map_kernel (f : MergedInterface → outcome MergedInterface) (self : MergedInterfaces) :
    outcome MergedInterfaces :=
  let? l := map_result (λ e : string * MergedInterface, let? m := f e.2 in Ok (e.1, m))
              (kernel_ifaces self) in
  Ok (set_kernel_ifaces l self).

(** [post_merge_sanitize_wifi]. *)
Definition post_merge_sanitize_wifi (self : MergedInterfaces) : outcome MergedInterfaces :=
  match phy_names_to_bring_up self with
  | [] => Ok self
  | names => map_kernel (bring_phy_up names) self
  end.

(** ** Alternative names *)

Definition cur_alt_names (acc : gmap string string) (m : MergedInterface) : gmap string string :=
  match mi_current m with
  | Some cur =>
      foldl (λ acc a, <[an_name a := iface_name cur]> acc) acc
        (default [] (bi_alt_names (base_iface cur)))
  | None => acc
  end.

(** One alternative name of an interface that is applied: the names in use and those of
    the interface that were seen. *)
Definition check_alt_name (all_iface_names : list string) (des_iface : Interface)
    (self_cur_kernel_name : option string) (acc : gmap string string * gset string)
    (a : AltNameEntry) : res (gmap string string * gset string) :=
  let '(all_alt_names, seen) := acc in
  let name := an_name a in
  if bool_decide (name ∈ seen) then fail InvalidArgument
  else
    let seen := {[name]} ∪ seen in
    if an_absent a then Ok (delete name all_alt_names, seen)
    else if String.eqb (kernel_iface_name des_iface) name then fail InvalidArgument
    else
      match all_alt_names !! name with
      | Some other_iface_name =>
          if negb (String.eqb (kernel_iface_name des_iface) other_iface_name)
          then fail InvalidArgument else Ok (all_alt_names, seen)
      | None =>
          if bool_decide (name ∈ all_iface_names) &&
             negb (bool_decide (self_cur_kernel_name = Some name))
          then fail InvalidArgument
          else Ok (<[name := iface_name des_iface]> all_alt_names, seen)
      end.

Definition check_iface_alt_names (all_iface_names : list string) (acc : gmap string string)
    (m : MergedInterface) : res (gmap string string) :=
  match mi_for_apply m with
  | None => Ok acc
  | Some des_iface =>
      let? r := fold_result (check_alt_name all_iface_names des_iface
                               (kernel_iface_name <$> mi_current m)) (acc, ∅)
                  (default [] (bi_alt_names (base_iface des_iface))) in
      Ok r.1
  end.

(** [MergedInterfaces::validate_alt_names]. *)
Definition validate_alt_names (self : MergedInterfaces) : res () :=
  let merged := (kernel_ifaces self).*2 in
  let? _ := fold_result (check_iface_alt_names (kernel_ifaces self).*1)
              (foldl cur_alt_names ∅ merged) merged in
  Ok ().

(** ** Activation order *)

Definition INTERFACES_SET_PRIORITY_MAX_RETRY : nat := 4.

(** What the passes of [set_ifaces_up_priority] skip, or the name and what is applied. *)
Definition lacks_priority (self : MergedInterfaces) (key : string * InterfaceType) :
    option Interface :=
  match get_iface self key.1 key.2 with
  | Some m =>
      if is_up_priority_valid m then None
      else match mi_for_apply m with
           | Some for_apply => if iface_is_up for_apply then Some for_apply else None
           | None => None
           end
  | None => None
  end.

Definition priority_of (m : MergedInterface) : Z := default 0 (mi_up_priority m).

(** The first pass: ports after their controllers.  [ret]: all priorities are known. *)
Definition ctrl_pass (self : MergedInterfaces) (acc : bool * gmap string Z)
    (key : string * InterfaceType) : res (bool * gmap string Z) :=
  let '(ret, pending_changes) := acc in
  match lacks_priority self key with
  | None => Ok acc
  | Some for_apply =>
      match bi_controller (base_iface for_apply) with
      | None => Ok acc
      | Some ctrl_name =>
          if String.eqb ctrl_name "" then Ok acc
          else
            match bi_controller_type (base_iface for_apply) with
            | None => fail Bug
            | Some ctrl_iface_type =>
                match get_iface self ctrl_name ctrl_iface_type with
                | None => fail Bug
                | Some ctrl_iface =>
                    match pending_changes !! ctrl_name with
                    | Some ctrl_pri => Ok (ret, <[key.1 := ctrl_pri + 1]> pending_changes)
                    | None =>
                        if is_up_priority_valid ctrl_iface
                        then Ok (ret, <[key.1 := priority_of ctrl_iface + 1]> pending_changes)
                        else Ok (false, pending_changes)
                    end
                end
            end
      end
  end.

(** The second pass: children after their parents. *)
Definition parent_pass (self : MergedInterfaces) (pending_changes : gmap string Z)
    (key : string * InterfaceType) : gmap string Z :=
  match lacks_priority self key ≫= iface_parent with
  | None => pending_changes
  | Some parent =>
      match pending_changes !! parent, get_kernel self parent with
      | Some parent_priority, _ => <[key.1 := parent_priority + 1]> pending_changes
      | None, Some parent_iface =>
          if is_up_priority_valid parent_iface
          then <[key.1 := priority_of parent_iface + 1]> pending_changes else pending_changes
      | None, None => pending_changes
      end
  end.

Definition set_priorities (pending_changes : gmap string Z) (self : MergedInterfaces) :
    MergedInterfaces :=
  set_kernel_ifaces
    (map (λ e, match pending_changes !! e.1 with
               | Some priority => (e.1, set_mi_up_priority (Some priority) e.2)
               | None => e
               end) (kernel_ifaces self)) self.

(** [MergedInterfaces::set_ifaces_up_priority]. *)
Definition set_ifaces_up_priority (self : MergedInterfaces) : res (bool * MergedInterfaces) :=
  let? r := fold_result (ctrl_pass self) (true, ∅) (mis_insert_order self) in
  let '(ret, pending_changes) := r in
  let pending_changes :=
    if ret : bool then foldl (parent_pass self) pending_changes (mis_insert_order self)
    else pending_changes in
  Ok (ret, set_priorities pending_changes self).

(** [MergedInterfaces::_set_up_priority]. *)
Fixpoint set_up_priority_loop (rounds : nat) (self : MergedInterfaces) : res MergedInterfaces :=
  match rounds with
  | O => fail InvalidArgument
  | S rounds =>
      let? r := set_ifaces_up_priority self in
      if r.1 : bool then Ok r.2 else set_up_priority_loop rounds r.2
  end.

Definition set_up_priority : MergedInterfaces → res MergedInterfaces :=
  set_up_priority_loop INTERFACES_SET_PRIORITY_MAX_RETRY.

(** [MergedInterfaces::mark_will_delete]. *)
Definition mark_will_delete (self : MergedInterfaces) : MergedInterfaces :=
  set_kernel_ifaces
    (map (λ e, if iface_is_up (mi_merged e.2) && will_delete_before_apply e.2
               then (e.1, set_mi_will_delete true e.2) else e) (kernel_ifaces self)) self.

(** ** The states of the apply *)

Definition activation (f : MergedInterface → option Interface) (m : MergedInterface) :
    option Activation :=
  match f m with
  | Some i => Some (negb (mi_is_absent m), priority_of m, i)
  | None => None
  end.

Definition gen_state (it : Iteration) (f : MergedInterface → option Interface)
    (self : MergedInterfaces) : Interfaces :=
  interfaces_new (map snd (it_sort it (omap (activation f) (merged_iter self)))).

(** [gen_state_for_apply], [gen_state_for_save], [gen_merged_state]. *)
Definition ifaces_for_apply (it : Iteration) : MergedInterfaces → Interfaces :=
  gen_state it mi_for_apply.
Definition ifaces_for_save (it : Iteration) : MergedInterfaces → Interfaces :=
  gen_state it mi_for_save.
Definition gen_merged_state (it : Iteration) : MergedInterfaces → Interfaces :=
  gen_state it (Some ∘ mi_merged).

(** ** Construction *)

Section New.
Context {Num : Type} `{!EqDecision Num} `{!Serde Num Interface} `{!Serde Num (list AltNameEntry)}.
Context (to_uppercase : string → string) (it : Iteration).

(** The peer that comes with a new veth interface. *)
Definition veth_peer_of (self : MergedInterfaces) (m : MergedInterface) : list MergedInterface :=
  match mi_current m, mi_for_apply m with
  | None, Some (IfEthernet b (Some peer)) =>
      if bool_decide (is_Some (get_kernel self peer)) then []
      else
        let des_iface := IfEthernet (base_new peer TEthernet) (Some (bi_name b)) in
        match merged_interface_new to_uppercase (Some des_iface) None None false with
        | Ok m => [set_mi_for_verify None (set_mi_up_priority (Some 1) m)]
        | Err _ => []
        end
  | _, _ => []
  end.

(** [bring_new_veth_peer_up]. *)
Definition bring_new_veth_peer_up (self : MergedInterfaces) : MergedInterfaces :=
  foldl (λ self m, set_kernel_ifaces (entry_insert (mi_kernel_iface_name m) m (kernel_ifaces self)) self)
    self ((kernel_ifaces self).*2 ≫= veth_peer_of self).

(** [mark_veth_peer_absent_also]. *)
Definition absent_veth_peer (self : MergedInterfaces) (m : MergedInterface) : option string :=
  match mi_current m with
  | Some (IfEthernet _ (Some peer)) =>
      if mi_is_absent m then
        match get_kernel self peer with
        | Some peer_iface => if mi_is_desired peer_iface then None else Some peer
        | None => None
        end
      else None
  | _ => None
  end.

Definition mark_veth_peer_absent_also (self : MergedInterfaces) : MergedInterfaces :=
  foldl (λ self name,
           set_kernel_ifaces
             (entry_update name (λ m, set_mi_for_apply (set_state SAbsent <$> mi_for_apply m) m)
                (kernel_ifaces self)) self)
    self (omap (absent_veth_peer self) (kernel_ifaces self).*2).

Definition post_merge_sanitize_veth (self : MergedInterfaces) : MergedInterfaces :=
  mark_veth_peer_absent_also (bring_new_veth_peer_up self).

(** [post_merge_sanitize]. *)
Definition post_merge_sanitize (self : MergedInterfaces) : outcome MergedInterfaces :=
  let? self := post_merge_sanitize_wifi (post_merge_sanitize_veth self) in
  post_merge_sanitize_controller_and_port to_uppercase (it_changes it) self.

(** The interfaces merged so far, and the saved and current ones they stand for. *)
Record Building : Type := building {
  bd_ret : MergedInterfaces;
  bd_consumed_saved : list IfaceKey;
  bd_consumed_current : list IfaceKey;
}.

Definition push_desired (current : Interfaces) (saved : option Interfaces) (force : bool)
    (b : Building) (des_iface : Interface) : outcome Building :=
  let? mt := lift (match_desired current saved des_iface) in
  let? m := merged_interface_new to_uppercase (Some (mt_desired mt)) (mt_current mt) (mt_saved mt)
              force in
  Ok (building (mis_push (bd_ret b) m)
        (bd_consumed_saved b ++ option_list (consumed_key <$> mt_saved mt))
        (bd_consumed_current b ++ option_list (consumed_key <$> mt_current mt))).

(** Current interfaces that are not desired, and saved ones that are not. *)
Definition push_current (consumed : list IfaceKey) (ret : MergedInterfaces) (cur_iface : Interface) :
    outcome MergedInterfaces :=
  if bool_decide (consumed_key cur_iface ∈ consumed) then Ok ret
  else
    let? m := merged_interface_new to_uppercase None (Some cur_iface) None false in
    Ok (mis_push ret m).

Definition push_unconsumed_saved (consumed : list IfaceKey) (ret : MergedInterfaces)
    (saved_iface : Interface) : outcome MergedInterfaces :=
  if bool_decide (consumed_key saved_iface ∈ consumed) then Ok ret
  else
    let? m := merged_interface_new to_uppercase None None (Some saved_iface) false in
    Ok (mis_push ret m).

(** The loops of [new_with_force]. *)
Definition merge_all (desired current : Interfaces) (saved : option Interfaces) (force : bool) :
    outcome MergedInterfaces :=
  let start := merged_interfaces [] [] [] (it_kernel it (ifs_kernel current)) search_default in
  let desired := unify_veth_and_ethernet desired in
  let current := unify_veth_and_ethernet current in
  let desired := expand_wifi_cfg_to_connected_phy it desired current in
  let? b := fold_result (push_desired current saved force) (building start [] [])
              (drain it desired) in
  let? ret := fold_result (push_current (bd_consumed_current b)) (bd_ret b) (drain it current) in
  fold_result (push_unconsumed_saved (bd_consumed_saved b)) ret
    (match saved with Some s => drain it s | None => [] end).

(** From here on the maps are iterated over. *)
Definition rehash (self : MergedInterfaces) : MergedInterfaces :=
  set_user_ifaces (it_merged_user it (user_ifaces self))
    (set_kernel_ifaces (it_merged_kernel it (kernel_ifaces self)) self).

Definition set_search (self : MergedInterfaces) : MergedInterfaces :=
  merged_interfaces (kernel_ifaces self) (user_ifaces self) (mis_insert_order self)
    (current_kernel_ifaces self) (search_new (interfaces_iter (gen_merged_state it self))).

(** [MergedInterfaces::new_with_force]. *)
Definition new_with_force (desired current : Interfaces) (saved : option Interfaces) (force : bool) :
    outcome MergedInterfaces :=
  let? ret := merge_all desired current saved force in
  let? ret := post_merge_sanitize (set_search (rehash ret)) in
  let? _ := lift (validate_alt_names ret) in
  let? ret := lift (set_up_priority ret) in
  Ok (mark_will_delete ret).

End New.

(** ** Verification *)

(** The current interface a desired one is compared with. *)
Definition verify_key (iface : Interface) : IfaceKey + string :=
  if iface_is_userspace iface then inl (iface_name iface, iface_type iface)
  else inr (if negb (String.eqb (kernel_iface_name iface) "") then kernel_iface_name iface
            else iface_name iface).

Definition cur_get (current : Interfaces) (k : IfaceKey + string) : option Interface :=
  match k with inl k => ifs_user current !! k | inr name => ifs_kernel current !! name end.

Definition cur_set (current : Interfaces) (k : IfaceKey + string) (i : Interface) : Interfaces :=
  match k with
  | inl k => interfaces (ifs_kernel current) (<[k := i]> (ifs_user current)) (insert_order current)
               (ifs_search current)
  | inr name => interfaces (<[name := i]> (ifs_kernel current)) (ifs_user current)
                  (insert_order current) (ifs_search current)
  end.

(** Both [sanitize_before_verify]. *)
Definition prepare_verify (iface cur_iface : Interface) : Interface * Interface :=
  let '(b, cur_b) := base_sanitize_before_verify (base_iface iface) (base_iface cur_iface) in
  iface_sanitize_before_verify (set_base iface b) (set_base cur_iface cur_b).

Section Verify.
Context {Num : Type} `{!EqDecision Num} `{!Serde Num Interface}.

Definition verify_iface (current : Interfaces) (m : MergedInterface) : res Interfaces :=
  match mi_desired m, mi_for_verify m with
  | Some _, Some iface =>
      let iface := iface_hide_secrets iface in
      let key := verify_key iface in
      if iface_is_absent iface || iface_is_virtual iface && iface_is_down iface then
        match cur_get current key with
        | Some cur_iface =>
            if iface_is_virtual cur_iface then fail VerificationError else Ok current
        | None => Ok current
        end
      else
        match cur_get current key with
        | Some cur_iface =>
            let '(iface, cur_iface) := prepare_verify iface cur_iface in
            let? _ := (if iface_is_up iface then iface_verify iface cur_iface else Ok ()) in
            Ok (cur_set current key cur_iface)
        | None => if iface_is_up iface then fail VerificationError else Ok current
        end
  | _, _ => Ok current
  end.

(** [MergedInterfaces::verify]. *)
Definition ifaces_verify (self : MergedInterfaces) (current : Interfaces) : res () :=
  let? _ := fold_result verify_iface (unify_veth_and_ethernet current)
              ((user_ifaces self).*2 ++ (kernel_ifaces self).*2) in
  Ok ().

(** [Interfaces::merge]. *)
Definition ifaces_slot (self : Interfaces) (b : BaseInterface) (i : Interface) : Interfaces :=
  if type_is_userspace (bi_iface_type b) then cur_set self (inl (bi_name b, bi_iface_type b)) i
  else if String.eqb (bi_kernel_iface_name b) "" then cur_set self (inr (bi_name b)) i
  else cur_set self (inr (bi_kernel_iface_name b)) i.

Definition merge_iface (self : Interfaces) (new_iface : Interface) : res Interfaces :=
  match interfaces_get self (base_iface new_iface) with
  | Some old_iface =>
      let? i := iface_merge old_iface new_iface in
      Ok (ifaces_slot self (base_iface new_iface) i)
  | None => Ok (interfaces_push self new_iface)
  end.

Definition interfaces_merge (self new_ifaces : Interfaces) : res Interfaces :=
  fold_result merge_iface self (interfaces_iter new_ifaces).

(** [Interfaces::gen_diff], [MergedInterfaces::gen_diff]. *)
Context `{!Serde Num (list AltNameEntry)}.

Definition push_diff (ret : Interfaces) (new_iface : Interface) (old : option Interface) :
    outcome Interfaces :=
  match old with
  | Some cur_iface =>
      let? diff := iface_gen_diff new_iface cur_iface in
      Ok (match diff with Some i => interfaces_push ret i | None => ret end)
  | None => Ok (interfaces_push ret new_iface)
  end.

Definition interfaces_gen_diff (self old : Interfaces) : outcome Interfaces :=
  fold_result (λ ret i, push_diff ret i (interfaces_get old (base_iface i))) interfaces_default
    (interfaces_iter self).

Definition merged_ifaces_gen_diff (self : MergedInterfaces) : outcome Interfaces :=
  fold_result (λ ret m, match mi_for_apply m with
                        | Some des_iface => push_diff ret des_iface (mi_current m)
                        | None => Ok ret
                        end) interfaces_default (merged_iter self).

End Verify.
