(* ===== verification/UpPriority.v ===== *)
(** * UpPriority: the order of activation

    Theorems about the activation order of MergedIfaces.v: when the priorities could be
    set, deletions come first and every port after its controller
    ([ports_are_activated_after_controllers]), and they can be set whatever the order of
    the interfaces when controllers are nested at most four deep
    ([four_levels_in_any_order]). *)

From S2P Require Export MergedIfaces ControllerSpec.

#[local] Open Scope Z_scope.

(** ** Ports, as the passes see them *)

(** The controller an up interface is applied with. *)
Definition wants (m : MergedInterface) : option string :=
  match mi_for_apply m with
  | Some a =>
      if iface_is_up a then
        match bi_controller (base_iface a) with
        | Some c => if String.eqb c "" then None else Some c
        | None => None
        end
      else None
  | None => None
  end.

Definition parentless (m : MergedInterface) : Prop := mi_for_apply m ≫= iface_parent = None.

(** The type of that controller. *)
Definition ctrl_type_of (m : MergedInterface) : option InterfaceType :=
  mi_for_apply m ≫= λ a, bi_controller_type (base_iface a).

(** Interfaces as the steps before leave them: a user space interface shares its name with
    no kernel interface and is no port, and ports without a priority are in the insertion
    order. *)
Record wired (self : MergedInterfaces) : Prop := {
  w_apart : ∀ n t, is_Some (get_user self n t) → get_kernel self n = None;
  w_user : ∀ n t m, get_user self n t = Some m → wants m = None;
  w_order : ∀ n m c, get_kernel self n = Some m → wants m = Some c → mi_up_priority m = None →
    ∃ t, type_is_userspace t = false ∧ (n, t) ∈ mis_insert_order self;
}.

Lemma wants_valid m c :
  wants m = Some c → is_up_priority_valid m = bool_decide (is_Some (mi_up_priority m)).
Proof.
  unfold wants, is_up_priority_valid, iface_has_controller, base_has_controller.
  destruct (mi_for_apply m) as [a|]; [|done]. destruct (iface_is_up a); [|done].
  destruct (bi_controller _) as [c'|]; [|done]. by destruct (String.eqb c' "").
Qed.

(** The first pass on one key, by the port and the controller it finds. *)
Inductive ctrl_step (s : MergedInterfaces) (key : string * InterfaceType) : Prop :=
| cs_skip :
    (∀ acc, ctrl_pass s acc key = Ok acc) →
    (∀ m, get_iface s key.1 key.2 = Some m → is_up_priority_valid m = false → wants m = None) →
    ctrl_step s key
| cs_lost m c :
    get_iface s key.1 key.2 = Some m → is_up_priority_valid m = false → wants m = Some c →
    (∀ t, ctrl_type_of m = Some t → get_iface s c t = None) →
    (∀ acc, ctrl_pass s acc key = fail Bug) → ctrl_step s key
| cs_port m c t ctrl :
    get_iface s key.1 key.2 = Some m → is_up_priority_valid m = false → wants m = Some c →
    ctrl_type_of m = Some t → get_iface s c t = Some ctrl →
    (∀ ret pending, ctrl_pass s (ret, pending) key =
       Ok (match pending !! c with
           | Some w => (ret, <[key.1 := w + 1]> pending)
           | None => if is_up_priority_valid ctrl
                     then (ret, <[key.1 := priority_of ctrl + 1]> pending) else (false, pending)
           end)) → ctrl_step s key.

Lemma ctrl_step_total s key : ctrl_step s key.
Proof.
  destruct (get_iface s key.1 key.2) as [m|] eqn:Em.
  2:{ apply cs_skip; [|congruence]. intros [ret pending]. unfold ctrl_pass, lacks_priority. by rewrite Em. }
  destruct (is_up_priority_valid m) eqn:Ev.
  { apply cs_skip; [|congruence]. intros [ret pending]. unfold ctrl_pass, lacks_priority. by rewrite Em, Ev. }
  assert (lacks_priority s key = match mi_for_apply m with
            | Some a => if iface_is_up a then Some a else None | None => None end) as En
    by (unfold lacks_priority; by rewrite Em, Ev).
  destruct (mi_for_apply m) as [a|] eqn:Ea.
  2:{ apply cs_skip; [intros [ret pending]; unfold ctrl_pass; by rewrite En|].
      intros m' Hm' _; simplify_eq; unfold wants. by rewrite Ea. }
  destruct (iface_is_up a) eqn:Eu.
  2:{ apply cs_skip; [intros [ret pending]; unfold ctrl_pass; by rewrite En|].
      intros m' Hm' _; simplify_eq; unfold wants. by rewrite Ea, Eu. }
  destruct (bi_controller (base_iface a)) as [c|] eqn:Ec.
  2:{ apply cs_skip; [intros [ret pending]; unfold ctrl_pass; by rewrite En, Ec|].
      intros m' Hm' _; simplify_eq; unfold wants. by rewrite Ea, Eu, Ec. }
  destruct (String.eqb c "") eqn:Ene.
  { apply cs_skip; [intros [ret pending]; unfold ctrl_pass; by rewrite En, Ec, Ene|].
    intros m' Hm' _; simplify_eq; unfold wants. by rewrite Ea, Eu, Ec, Ene. }
  assert (wants m = Some c) as Hw by (unfold wants; by rewrite Ea, Eu, Ec, Ene).
  assert (ctrl_type_of m = bi_controller_type (base_iface a)) as Ht by (unfold ctrl_type_of; by rewrite Ea).
  destruct (bi_controller_type (base_iface a)) as [t|] eqn:Et.
  2:{ eapply cs_lost; [done..|congruence|]. intros [ret pending]. unfold ctrl_pass.
      by rewrite En, Ec, Ene, Et. }
  destruct (get_iface s c t) as [ctrl|] eqn:Ect.
  2:{ eapply cs_lost; [done..|congruence|]. intros [ret pending]. unfold ctrl_pass.
      by rewrite En, Ec, Ene, Et, Ect. }
  eapply cs_port; [done..|]. intros ret pending. unfold ctrl_pass. rewrite En, Ec, Ene, Et, Ect.
  destruct (pending !! c); [done|]. by destruct (is_up_priority_valid ctrl).
Qed.

(** ** One round *)

Section Round.
Context (s : MergedInterfaces) (Hw : wired s).

Lemma get_iface_kernel n t : type_is_userspace t = false → get_iface s n t = get_kernel s n.
Proof. unfold get_iface. by intros ->. Qed.

(** A port is a kernel interface. *)
Lemma port_is_kernel n t m c :
  get_iface s n t = Some m → wants m = Some c → type_is_userspace t = false ∧ get_kernel s n = Some m.
Proof.
  unfold get_iface. destruct (type_is_userspace t); [|done]. intros Hm Hc.
  apply (w_user _ Hw) in Hm. congruence.
Qed.

(** What a pending priority comes from. *)
Definition pending_ok (pending : gmap string Z) : Prop :=
  ∀ n v, pending !! n = Some v →
    ∃ m c t ctrl, get_kernel s n = Some m ∧ is_up_priority_valid m = false ∧ wants m = Some c ∧
      ctrl_type_of m = Some t ∧ get_iface s c t = Some ctrl ∧
      match pending !! c with
      | Some w => v = w + 1
      | None => is_up_priority_valid ctrl = true ∧ v = priority_of ctrl + 1
      end.

(** The value a port gets is the one it has, if any. *)
Lemma pending_insert pending n m c t ctrl v :
  pending_ok pending → get_kernel s n = Some m → is_up_priority_valid m = false →
  wants m = Some c → ctrl_type_of m = Some t → get_iface s c t = Some ctrl →
  match pending !! c with
  | Some w => v = w + 1
  | None => is_up_priority_valid ctrl = true ∧ v = priority_of ctrl + 1
  end → pending_ok (<[n := v]> pending).
Proof.
  intros Hp Hm Hv Hc Ht Hctrl Hval.
  assert (c ≠ n) as Hcn.
  { intros ->. destruct (pending !! n) as [w|] eqn:En.
    - destruct (Hp n w En) as (m' & c' & t' & ctrl' & Hm' & _ & Hc' & _ & _ & H).
      rewrite Hm in Hm'. injection Hm' as <-. rewrite Hc in Hc'. injection Hc' as <-.
      rewrite En in H. lia.
    - destruct Hval as [Hval _]. unfold get_iface in Hctrl. destruct (type_is_userspace t).
      + pose proof (w_apart _ Hw n t (ex_intro _ _ Hctrl)). congruence.
      + congruence. }
  assert (∀ w, pending !! n = Some w → w = v) as Hsame.
  { intros w En. destruct (Hp n w En) as (m' & c' & t' & ctrl' & Hm' & _ & Hc' & Ht' & Hctrl' & H).
    rewrite Hm in Hm'. injection Hm' as <-. rewrite Hc in Hc'. injection Hc' as <-.
    rewrite Ht in Ht'. injection Ht' as <-. rewrite Hctrl in Hctrl'. injection Hctrl' as <-.
    destruct (pending !! c); [lia|]. destruct H, Hval. lia. }
  intros n' v' [[Hn' Hv']|[Hne Hn']]%lookup_insert_Some.
  { subst n' v'. exists m, c, t, ctrl. rewrite lookup_insert_ne by done. done. }
  destruct (Hp n' v' Hn') as (m' & c' & t' & ctrl' & Hm' & Hv' & Hc' & Ht' & Hctrl' & H).
  exists m', c', t', ctrl'. do 5 (split; [done|]). destruct (decide (c' = n)) as [->|Hcn'].
  2:{ by rewrite lookup_insert_ne by done. }
  rewrite lookup_insert_eq. destruct (pending !! n) as [w|] eqn:En.
  - by rewrite <- (Hsame w eq_refl).
  - destruct H as [H _]. unfold get_iface in Hctrl'. destruct (type_is_userspace t').
    + pose proof (w_apart _ Hw n t' (ex_intro _ _ Hctrl')). congruence.
    + congruence.
Qed.

(** The first pass on one key. *)
Lemma ctrl_pass_ok ret pending key ret' pending' :
  ctrl_pass s (ret, pending) key = Ok (ret', pending') → pending_ok pending →
  pending_ok pending' ∧ (∀ n, is_Some (pending !! n) → is_Some (pending' !! n)) ∧
  (ret' = true → ret = true ∧
     ∀ m c, get_iface s key.1 key.2 = Some m → wants m = Some c → is_up_priority_valid m = false →
       is_Some (pending' !! key.1)).
Proof.
  intros E Hp.
  destruct (ctrl_step_total s key) as [Hs Hno|m c Hm Hv Hc _ Hs|m c t ctrl Hm Hv Hc Ht Hctrl Hs];
    rewrite Hs in E; [injection E as <- <-| |injection E as E].
  - split; [done|]. split; [done|]. intros Hr. split; [done|]. intros m c Hm Hc Hv.
    rewrite (Hno m Hm Hv) in Hc. done.
  - done.
  - destruct (port_is_kernel _ _ _ _ Hm Hc) as [_ Hk].
    assert (∀ v, match pending !! c with
                 | Some w => v = w + 1
                 | None => is_up_priority_valid ctrl = true ∧ v = priority_of ctrl + 1
                 end → pending_ok (<[key.1 := v]> pending)) as Hins
      by (intros v; by eapply pending_insert).
    assert (∀ v n, is_Some (pending !! n) → is_Some (<[key.1 := v]> pending !! n)) as Hkeep.
    { intros v n Hn. destruct (decide (n = key.1)) as [->|]; [by rewrite lookup_insert_eq|].
      by rewrite lookup_insert_ne. }
    destruct (pending !! c) as [w|] eqn:Ec; [|destruct (is_up_priority_valid ctrl) eqn:Evc];
      injection E as <- <-.
    + split; [by apply Hins|]. split; [apply Hkeep|]. intros ->. split; [done|].
      intros. by rewrite lookup_insert_eq.
    + split; [by apply Hins|]. split; [apply Hkeep|]. intros ->. split; [done|].
      intros. by rewrite lookup_insert_eq.
    + done.
Qed.

Lemma ctrl_fold_ok keys : ∀ ret pending ret' pending',
  fold_result (ctrl_pass s) (ret, pending) keys = Ok (ret', pending') → pending_ok pending →
  pending_ok pending' ∧ (∀ n, is_Some (pending !! n) → is_Some (pending' !! n)) ∧
  (ret' = true → ret = true ∧
     ∀ n t m c, (n, t) ∈ keys → get_iface s n t = Some m → wants m = Some c →
       is_up_priority_valid m = false → is_Some (pending' !! n)).
Proof.
  induction keys as [|key keys IH]; intros ret pending ret' pending' E Hp; cbn [fold_result] in E.
  { injection E as <- <-. split; [done|]. split; [done|]. intros ->. split; [done|]. intros. set_solver. }
  destruct (ctrl_pass s (ret, pending) key) as [[ret1 pending1]|] eqn:E1; [|done].
  destruct (ctrl_pass_ok _ _ _ _ _ E1 Hp) as (Hp1 & Hk1 & Hr1).
  destruct (IH _ _ _ _ E Hp1) as (Hp2 & Hk2 & Hr2).
  split; [done|]. split; [auto|]. intros Hr. destruct (Hr2 Hr) as [Hr1' Hc2].
  destruct (Hr1 Hr1') as [Hr' Hc1]. split; [done|].
  intros n t m c [<-|Hin]%elem_of_cons Hm Hc Hv; [by eapply Hk2, Hc1|by eapply Hc2].
Qed.

(** The second pass leaves interfaces without a parent alone. *)
Lemma parent_fold_keeps keys n m : ∀ pending,
  get_kernel s n = Some m → parentless m →
  foldl (parent_pass s) pending keys !! n = pending !! n.
Proof.
  induction keys as [|key keys IH]; intros pending Hm Hpar; simpl; [done|].
  rewrite IH by done. unfold parent_pass.
  destruct (lacks_priority s key ≫= iface_parent) as [parent|] eqn:En; [|done].
  assert (key.1 ≠ n) as Hne.
  { intros <-. unfold lacks_priority, get_iface in En. destruct (type_is_userspace key.2).
    - destruct (get_user s key.1 key.2) as [u|] eqn:Eu; [|done].
      pose proof (w_apart _ Hw _ _ (ex_intro _ _ Eu)). congruence.
    - rewrite Hm in En. unfold parentless in Hpar. destruct (is_up_priority_valid m); [done|].
      destruct (mi_for_apply m) as [a|]; [|done]. destruct (iface_is_up a); [|done].
      simpl in *. congruence. }
  destruct (pending !! parent); [by rewrite lookup_insert_ne|].
  destruct (get_kernel s parent) as [p|]; [|done].
  destruct (is_up_priority_valid p); [by rewrite lookup_insert_ne|done].
Qed.

End Round.

(** ** Setting the priorities *)

Definition given_priority (p : option Z) (m : MergedInterface) : MergedInterface :=
  match p with Some priority => set_mi_up_priority (Some priority) m | None => m end.

Lemma get_kernel_priorities pending s n :
  get_kernel (set_priorities pending s) n = given_priority (pending !! n) <$> get_kernel s n.
Proof.
  unfold get_kernel, set_priorities. simpl. induction (kernel_ifaces s) as [|[k m] l IH]; [done|].
  simpl. destruct (pending !! k) eqn:Ek; simpl; case_decide; subst; rewrite ?Ek; done.
Qed.

Lemma get_iface_priorities pending s n t :
  get_iface (set_priorities pending s) n t =
    given_priority (if type_is_userspace t then None else pending !! n) <$> get_iface s n t.
Proof.
  unfold get_iface. destruct (type_is_userspace t); [|apply get_kernel_priorities].
  by destruct (get_user s n t) eqn:E; unfold get_user in *; simpl; rewrite E.
Qed.

Lemma given_priority_apply p m : mi_for_apply (given_priority p m) = mi_for_apply m.
Proof. by destruct p. Qed.

Lemma given_priority_wants p m : wants (given_priority p m) = wants m.
Proof. by destruct p. Qed.

Lemma given_priority_valid p m :
  is_up_priority_valid m = true → is_up_priority_valid (given_priority p m) = true.
Proof.
  destruct p as [v|]; [|done]. unfold is_up_priority_valid. simpl.
  destruct (mi_for_apply m) as [a|]; [|done]. by destruct (_ && _).
Qed.

(** A priority makes an interface valid. *)
Lemma with_some_valid v m : is_up_priority_valid (given_priority (Some v) m) = true.
Proof.
  unfold is_up_priority_valid. simpl. destruct (mi_for_apply m) as [a|]; [|done]. by destruct (_ && _).
Qed.

Lemma wired_priorities pending s : wired s → wired (set_priorities pending s).
Proof.
  intros [Ha Hu Ho]. split.
  - intros n t H. by rewrite get_kernel_priorities, (Ha n t H).
  - exact Hu.
  - intros n m c. rewrite get_kernel_priorities. intros [m' [Hm ->]]%fmap_Some_1.
    rewrite given_priority_wants. intros Hc Hp. apply (Ho n m' c Hm Hc). by destruct (pending !! n).
Qed.

(** ** What the rounds establish *)

(** The controllers of the ports that have a priority, and the relation to theirs. *)
Definition ordered (s : MergedInterfaces) : Prop :=
  ∀ n m c v, get_kernel s n = Some m → wants m = Some c → parentless m → mi_up_priority m = Some v →
    ∃ t ctrl, ctrl_type_of m = Some t ∧ get_iface s c t = Some ctrl ∧
      (parentless ctrl → is_up_priority_valid ctrl = true ∧ v = priority_of ctrl + 1).

Section Rounds.
Context (s : MergedInterfaces) (Hw : wired s).

(** The pending priorities at the end of a round: those of the first pass, and what the
    second adds for interfaces with a parent. *)
Definition round_of (pending final : gmap string Z) : Prop :=
  pending_ok s pending ∧
  (∀ n m, get_kernel s n = Some m → parentless m → final !! n = pending !! n) ∧
  (∀ n, is_Some (pending !! n) → is_Some (final !! n)).

Lemma parent_fold_mono keys n : ∀ pending,
  is_Some (pending !! n) → is_Some (foldl (parent_pass s) pending keys !! n).
Proof.
  induction keys as [|key keys IH]; intros pending Hn; [done|]. simpl. apply IH.
  assert (∀ v, is_Some (<[key.1 := v]> pending !! n)) as Hins.
  { intros v. destruct (decide (n = key.1)) as [->|]; [by rewrite lookup_insert_eq|].
    by rewrite lookup_insert_ne. }
  unfold parent_pass. destruct (lacks_priority s key ≫= iface_parent) as [parent|]; [|done].
  destruct (pending !! parent); [apply Hins|]. destruct (get_kernel s parent) as [p|]; [|done].
  destruct (is_up_priority_valid p); [apply Hins|done].
Qed.

Lemma round_shape ret s' :
  set_ifaces_up_priority s = Ok (ret, s') →
  ∃ pending final, round_of pending final ∧ s' = set_priorities final s ∧
    fold_result (ctrl_pass s) (true, ∅) (mis_insert_order s) = Ok (ret, pending).
Proof.
  unfold set_ifaces_up_priority.
  destruct (fold_result _ _ _) as [[ret0 pending]|] eqn:E; [|done]. simpl. intros [= <- <-].
  assert (pending_ok s pending) as Hp.
  { apply (ctrl_fold_ok s Hw _ _ _ _ _ E). intros n v H. by rewrite lookup_empty in H. }
  exists pending. eexists. split; [|split; [done|done]]. destruct ret0; [|by split].
  split; [done|]. split; [intros; by eapply parent_fold_keeps|]. intros n. apply parent_fold_mono.
Qed.

(** A priority pending for the controller reaches it. *)
Lemma final_ctrl pending final c t ctrl :
  round_of pending final → get_iface s c t = Some ctrl → parentless ctrl →
  (if type_is_userspace t then None else final !! c) = pending !! c.
Proof.
  intros (Hp & Hfin & _) Hc Hpar. unfold get_iface in Hc. destruct (type_is_userspace t).
  - destruct (pending !! c) as [w|] eqn:Ew; [|done].
    destruct (Hp c w Ew) as (m & c' & t' & ctrl' & Hm & _).
    rewrite (w_apart _ Hw c t (ex_intro _ _ Hc)) in Hm. done.
  - by apply (Hfin c ctrl).
Qed.

Lemma round_ordered pending final :
  ordered s → round_of pending final → ordered (set_priorities final s).
Proof.
  intros Ho Hr n m c v. rewrite get_kernel_priorities. intros [m0 [Hm ->]]%fmap_Some_1.
  rewrite given_priority_wants. intros Hc Hpar Hv.
  assert (parentless m0) as Hpar0 by (unfold parentless in *; by rewrite given_priority_apply in Hpar).
  assert (∀ m, ctrl_type_of (given_priority (final !! n) m) = ctrl_type_of m) as Hct
    by (intros; unfold ctrl_type_of; by rewrite given_priority_apply).
  pose proof Hr as (Hp & Hfin & _). rewrite (Hfin n m0 Hm Hpar0) in *.
  destruct (pending !! n) as [w|] eqn:En; simpl in Hv.
  - injection Hv as ->. destruct (Hp n v En) as (m & c' & t & ctrl & Hm' & Hi & Hc' & Ht & Hctrl & H).
    rewrite Hm in Hm'. injection Hm' as <-. rewrite Hc in Hc'. injection Hc' as <-.
    exists t. rewrite get_iface_priorities, Hctrl, Hct. eexists. do 2 (split; [done|]).
    intros Hpc. assert (parentless ctrl) as Hpc0
      by (unfold parentless in *; by rewrite given_priority_apply in Hpc).
    rewrite (final_ctrl _ _ _ _ _ Hr Hctrl Hpc0). destruct (pending !! c) as [w|].
    + split; [apply with_some_valid|done].
    + done.
  - destruct (Ho n m0 c v Hm Hc Hpar0 Hv) as (t & ctrl & Ht & Hctrl & H).
    exists t. rewrite get_iface_priorities, Hctrl, Hct. eexists. do 2 (split; [done|]).
    intros Hpc. assert (parentless ctrl) as Hpc0
      by (unfold parentless in *; by rewrite given_priority_apply in Hpc).
    rewrite (final_ctrl _ _ _ _ _ Hr Hctrl Hpc0). destruct (H Hpc0) as [Hval Hv'].
    destruct (pending !! c) as [w|] eqn:Ew; [|done].
    destruct (Hp c w Ew) as (mc & c' & t' & ctrl' & Hmc & Hi & _).
    unfold get_iface in Hctrl. destruct (type_is_userspace t).
    + by rewrite (w_apart _ Hw c t (ex_intro _ _ Hctrl)) in Hmc.
    + congruence.
Qed.

End Rounds.

(** After a round that succeeds every port has a priority. *)
Lemma round_done s s' n m c :
  wired s → set_ifaces_up_priority s = Ok (true, s') → get_kernel s' n = Some m → wants m = Some c →
  is_Some (mi_up_priority m).
Proof.
  intros Hw E. destruct (round_shape s Hw _ _ E) as (pending & final & (Hp & Hfin & Hmono) & -> & Ef).
  rewrite get_kernel_priorities. intros [m0 [Hm ->]]%fmap_Some_1. rewrite given_priority_wants. intros Hc.
  destruct (final !! n) as [w|] eqn:En; [simpl; eauto|]. simpl.
  destruct (mi_up_priority m0) as [v|] eqn:Ev; [eauto|]. exfalso.
  destruct (w_order _ Hw n m0 c Hm Hc Ev) as (t & Ht & Hin).
  apply ctrl_fold_ok in Ef as (_ & _ & Hall); [|done|by intros n' v' H; rewrite lookup_empty in H].
  destruct (Hall eq_refl) as [_ Hall']. destruct (Hmono n) as [w Hw'].
  - eapply Hall'; [done|by rewrite get_iface_kernel|done|]. by rewrite (wants_valid m0 c), Ev.
  - congruence.
Qed.

Lemma rounds_ordered rounds : ∀ s s',
  wired s → ordered s → set_up_priority_loop rounds s = Ok s' →
  ordered s' ∧ ∀ n m c, get_kernel s' n = Some m → wants m = Some c → is_Some (mi_up_priority m).
Proof.
  induction rounds as [|rounds IH]; intros s s' Hw Ho E; [done|]. simpl in E.
  destruct (set_ifaces_up_priority s) as [[ret s1]|] eqn:E1; [|done]. simpl in E.
  destruct (round_shape s Hw _ _ E1) as (pending & final & Hr & Hs1 & _).
  assert (ordered s1) as Ho1 by (subst; by eapply round_ordered).
  destruct ret.
  - injection E as <-. split; [done|]. intros n m c. by apply (round_done s s1).
  - apply (IH s1); [|done|done]. subst. by apply wired_priorities.
Qed.

(** ** The order of the activation *)

(** The interfaces to apply, in the order [gen_state_for_apply] lists them. *)
Definition activations (it : Iteration) (s : MergedInterfaces) : list Activation :=
  it_sort it (omap (activation mi_for_apply) (merged_iter s)).

Lemma sorted_before {A} (R : A → A → Prop) l i j a b :
  StronglySorted R l → l !! i = Some a → l !! j = Some b → a ≠ b → ¬ R a b → (j < i)%nat.
Proof.
  intros Hs Hi Hj Hne Hn. destruct (Nat.lt_trichotomy i j) as [H|[->|H]]; [|congruence|done].
  destruct Hn. revert i j Hi Hj H. induction Hs as [|x l Hs IH Hx]; intros i j Hi Hj H; [done|].
  destruct j as [|j]; [lia|]. simpl in Hj. destruct i as [|i]; simpl in Hi.
  - injection Hi as ->. rewrite List.Forall_forall in Hx. apply Hx, list_elem_of_In.
    by eapply list_elem_of_lookup_2.
  - apply (IH i j); [done..|lia].
Qed.

(** A port gets the priority after its controller's. *)
Lemma port_priority s s' :
  wired s → (∀ n m, get_kernel s n = Some m → mi_up_priority m = None) →
  set_up_priority s = Ok s' →
  ∀ n m c, get_kernel s' n = Some m → wants m = Some c → parentless m →
    ∃ t ctrl, ctrl_type_of m = Some t ∧ get_iface s' c t = Some ctrl ∧
      (parentless ctrl → mi_up_priority m = Some (priority_of ctrl + 1)).
Proof.
  intros Hw Hfresh E. apply rounds_ordered in E as [Ho Hall]; [|done|by intros n m c v Hm _ _; rewrite (Hfresh n m Hm)].
  intros n m c Hm Hc Hpar. destruct (Hall n m c Hm Hc) as [v Hv].
  destruct (Ho n m c v Hm Hc Hpar Hv) as (t & ctrl & Ht & Hctrl & H).
  exists t, ctrl. do 2 (split; [done|]). intros Hpc. by destruct (H Hpc) as [_ ->].
Qed.

(** When the priorities could be set, the interfaces to apply are listed with the
    deletions first, and every port gets the priority after its controller's: it is listed
    after it. *)
Theorem ports_are_activated_after_controllers it s s' :
  wired s → (∀ n m, get_kernel s n = Some m → mi_up_priority m = None) →
  set_up_priority s = Ok s' →
  (∀ i j a b, activations it s' !! i = Some a → activations it s' !! j = Some b →
     a.1.1 = true → b.1.1 = false → (j < i)%nat) ∧
  ∀ n m c, get_kernel s' n = Some m → wants m = Some c → parentless m →
    ∃ t ctrl, ctrl_type_of m = Some t ∧ get_iface s' c t = Some ctrl ∧
      (parentless ctrl →
       mi_up_priority m = Some (priority_of ctrl + 1) ∧
       ∀ i j a b, activation mi_for_apply m = Some a → activation mi_for_apply ctrl = Some b →
         activations it s' !! i = Some a → activations it s' !! j = Some b → (j < i)%nat).
Proof.
  intros Hw Hfresh E. pose proof (it_sort_sorted it (omap (activation mi_for_apply) (merged_iter s'))) as Hs.
  fold (activations it s') in Hs. split.
  { intros i j [[x p] a] [[y q] b] Hi Hj Hx Hy. simpl in *. subst.
    apply (sorted_before _ _ i j _ _ Hs Hi Hj); [congruence|]. unfold activation_le. simpl. auto. }
  intros n m c Hm Hc Hpar. destruct (port_priority s s' Hw Hfresh E n m c Hm Hc Hpar) as (t & ctrl & Ht & Hctrl & H).
  exists t, ctrl. do 2 (split; [done|]). intros Hpc. pose proof (H Hpc) as Hv. split; [done|].
  intros i j a b Ha Hb Hi Hj. assert (mi_is_absent m = false) as Hup.
  { unfold wants in Hc. unfold mi_is_absent. destruct (mi_for_apply m) as [x|]; [|done].
    unfold iface_is_up, iface_is_absent in *. by destruct (bi_state _). }
  unfold activation in Ha, Hb. destruct (mi_for_apply m) as [x|]; [|done].
  destruct (mi_for_apply ctrl) as [y|]; [|done]. injection Ha as <-. injection Hb as <-.
  assert (priority_of m = priority_of ctrl + 1) as Hp by (unfold priority_of at 1; by rewrite Hv).
  apply (sorted_before _ _ i j _ _ Hs Hi Hj); [intros Heq; apply (f_equal (λ a, a.1.2)) in Heq; simpl in Heq; lia|].
  intros Hle. apply Hle. unfold activation_cmp, pair_cmp. simpl. rewrite Hup, Hp.
  destruct (mi_is_absent ctrl); simpl; [done|]. apply Z.compare_gt_iff. lia.
Qed.

(** ** Nesting *)

(** The interface is at most [k] controllers away from one that needs no priority. *)
Fixpoint within (s : MergedInterfaces) (k : nat) (n : string) (t : InterfaceType) : Prop :=
  match k with
  | O => ∃ m, get_iface s n t = Some m ∧ is_up_priority_valid m = true
  | S k =>
      within s k n t ∨
      ∃ m c t', get_iface s n t = Some m ∧ wants m = Some c ∧ ctrl_type_of m = Some t' ∧
        within s k c t'
  end.

(** The ports to activate are nested at most [k] deep. *)
Definition nested (s : MergedInterfaces) (k : nat) : Prop :=
  ∀ n t m c, (n, t) ∈ mis_insert_order s → get_iface s n t = Some m → wants m = Some c →
    is_up_priority_valid m = false → within s k n t.

Lemma within_exists s k n t : within s k n t → is_Some (get_iface s n t).
Proof. revert n t. induction k as [|k IH]; intros n t; simpl; [naive_solver|]. intros [H|H]; naive_solver. Qed.

(** The controller of a port in the insertion order. *)
Lemma within_ctrl s k n t m c :
  within s (S k) n t → get_iface s n t = Some m → wants m = Some c →
  is_up_priority_valid m = false → ∃ t', ctrl_type_of m = Some t' ∧ within s k c t'.
Proof.
  intros Hn Hm Hc Hv. induction k as [|k IH].
  - destruct Hn as [(m' & Hm' & H)|(m' & c' & t' & Hm' & Hc' & Ht' & H)]; simplify_eq; [congruence|eauto].
  - destruct Hn as [H|(m' & c' & t' & Hm' & Hc' & Ht' & H)]; simplify_eq; [|eauto].
    destruct (IH H) as (t' & Ht' & H'). exists t'. split; [done|]. by left.
Qed.

Section Nested.
Context (s : MergedInterfaces) (Hw : wired s).

(** With controllers that exist the first pass does not fail. *)
Lemma ctrl_fold_total k keys : ∀ ret pending,
  (∀ n t m c, (n, t) ∈ keys → get_iface s n t = Some m → wants m = Some c →
     is_up_priority_valid m = false → within s (S k) n t) →
  ∃ ret' pending', fold_result (ctrl_pass s) (ret, pending) keys = Ok (ret', pending') ∧
    (k = O → ret = true → ret' = true) ∧ (∀ n, is_Some (pending !! n) → is_Some (pending' !! n)) ∧
    ∀ n t m c t' ctrl, (n, t) ∈ keys → get_iface s n t = Some m → wants m = Some c →
      is_up_priority_valid m = false → ctrl_type_of m = Some t' → get_iface s c t' = Some ctrl →
      is_up_priority_valid ctrl = true → is_Some (pending' !! n).
Proof.
  induction keys as [|key keys IH]; intros ret pending Hn.
  { exists ret, pending. split; [done|]. split; [done|]. split; [done|]. intros. set_solver. }
  assert (∃ ret1 pending1, ctrl_pass s (ret, pending) key = Ok (ret1, pending1) ∧
    (k = O → ret = true → ret1 = true) ∧ (∀ n, is_Some (pending !! n) → is_Some (pending1 !! n)) ∧
    ∀ m c t' ctrl, get_iface s key.1 key.2 = Some m → wants m = Some c →
      is_up_priority_valid m = false → ctrl_type_of m = Some t' → get_iface s c t' = Some ctrl →
      is_up_priority_valid ctrl = true → is_Some (pending1 !! key.1))
    as (ret1 & pending1 & E1 & Hr1 & Hm1 & Hc1).
  { destruct (ctrl_step_total s key) as [Hs Hno|m c Hm Hv Hc Hlost Hs|m c t ctrl Hm Hv Hc Ht Hctrl Hs].
    - exists ret, pending. do 3 (split; [done|]). intros m c t' ctrl Hm Hc Hv.
      rewrite (Hno m Hm Hv) in Hc. done.
    - destruct key as [n t]. destruct (within_ctrl s k n t m c) as (t' & Ht' & H); [|done..|].
      + eapply Hn; [apply list_elem_of_here|done..].
      + destruct (within_exists _ _ _ _ H). rewrite (Hlost t' Ht') in *. done.
    - assert (∀ v n, is_Some (pending !! n) → is_Some (<[key.1 := v]> pending !! n)) as Hkeep.
      { intros v n Hs'. destruct (decide (n = key.1)) as [->|]; [by rewrite lookup_insert_eq|].
        by rewrite lookup_insert_ne. }
      rewrite Hs. destruct (pending !! c) as [w|]; [|destruct (is_up_priority_valid ctrl) eqn:Ev].
      + eexists _, _. split; [done|]. split; [done|]. split; [apply Hkeep|].
        intros. by rewrite lookup_insert_eq.
      + eexists _, _. split; [done|]. split; [done|]. split; [apply Hkeep|].
        intros. by rewrite lookup_insert_eq.
      + eexists _, _. split; [done|]. split.
        * intros ->. destruct key as [n t0].
          destruct (within_ctrl s 0 n t0 m c) as (t' & Ht' & m' & Hm' & H); [|done..|congruence].
          eapply Hn; [apply list_elem_of_here|done..].
        * split; [done|]. intros m' c' t' ctrl' ????? H'. simplify_eq. congruence. }
  destruct (IH ret1 pending1) as (ret2 & pending2 & E2 & Hr2 & Hm2 & Hc2).
  { intros n t m c Hin. apply Hn. by right. }
  exists ret2, pending2. cbn [fold_result]. rewrite E1. split; [done|]. split; [auto|].
  split; [auto|]. intros n t m c t' ctrl [<-|Hin]%elem_of_cons Hm Hc Hv Ht Hctrl Hcv.
  - apply Hm2. by eapply Hc1.
  - by eapply Hc2.
Qed.

(** A round brings every port one level nearer. *)
Lemma round_nearer k :
  nested s (S k) → ∃ ret s', set_ifaces_up_priority s = Ok (ret, s') ∧ wired s' ∧
    (k = O → ret = true) ∧ ∀ j n t, within s (S j) n t → within s' j n t.
Proof.
  intros Hn. destruct (ctrl_fold_total k (mis_insert_order s) true ∅ Hn)
    as (ret & pending & E & Hr & _ & Hc).
  assert (∃ final s', set_ifaces_up_priority s = Ok (ret, s') ∧ s' = set_priorities final s ∧
            ∀ n, is_Some (pending !! n) → is_Some (final !! n)) as (final & s' & E' & -> & Hmono).
  { unfold set_ifaces_up_priority. rewrite E. simpl. eexists _, _. split; [done|]. split; [done|].
    destruct ret; [intros n; apply parent_fold_mono|done]. }
  eexists ret, _. split; [done|]. split; [by apply wired_priorities|]. split; [auto|].
  assert (∀ n t m c t', get_iface s n t = Some m → wants m = Some c → ctrl_type_of m = Some t' →
    within s 0 c t' → within (set_priorities final s) 0 n t) as Hbase.
  { intros n t m c t' Hm Hwc Ht' (ctrl & Hctrl & Hcv). simpl. rewrite get_iface_priorities, Hm.
    eexists. split; [done|]. destruct (is_up_priority_valid m) eqn:Hv; [by apply given_priority_valid|].
    destruct (port_is_kernel s Hw _ _ _ _ Hm Hwc) as [-> Hk].
    destruct (w_order _ Hw n m c Hk Hwc) as (t0 & Ht0 & Hin).
    { rewrite (wants_valid m c Hwc), bool_decide_eq_false in Hv. by destruct (mi_up_priority m); [destruct Hv; eauto|]. }
    destruct (Hmono n) as [v ->]; [|apply with_some_valid].
    eapply Hc; [done|by rewrite get_iface_kernel|done..]. }
  assert (∀ n t, within s 0 n t → within (set_priorities final s) 0 n t) as Hvalid.
  { intros n t (m & Hm & Hv). simpl. rewrite get_iface_priorities, Hm. eexists. split; [done|].
    by apply given_priority_valid. }
  induction j as [|j IHj]; intros n t Hin.
  - destruct Hin as [Hin|(m & c & t' & Hm & Hwc & Ht' & Hin)]; [auto|by eapply Hbase].
  - destruct Hin as [Hin|(m & c & t' & Hm & Hwc & Ht' & Hin)]; [left; auto|]. right.
    rewrite get_iface_priorities, Hm. eexists _, c, t'. split; [done|].
    rewrite given_priority_wants. split; [done|]. split; [|by apply IHj].
    unfold ctrl_type_of in *. by rewrite given_priority_apply.
Qed.

End Nested.

Lemma rounds_total rounds : ∀ s,
  wired s → (0 < rounds)%nat → nested s rounds → ∃ s', set_up_priority_loop rounds s = Ok s'.
Proof.
  induction rounds as [|[|rounds] IH]; intros s Hw Hr Hn; [lia|..];
    destruct (round_nearer s Hw _ Hn) as (ret & s' & E & Hw' & Hret & Hnear);
    cbn [set_up_priority_loop]; rewrite E; simpl.
  - rewrite Hret by done. eauto.
  - destruct ret; [eauto|]. apply IH; [done|lia|].
    assert (∃ final, s' = set_priorities final s) as [final ->].
    { destruct (round_shape s Hw _ _ E) as (pending & final & _ & -> & _). eauto. }
    intros n t m c Hin. rewrite get_iface_priorities. intros [m0 [Hm ->]]%fmap_Some_1.
    rewrite given_priority_wants. intros Hc Hv. apply Hnear. eapply Hn; [done..|].
    destruct (is_up_priority_valid m0) eqn:E0; [|done].
    by rewrite (given_priority_valid _ _ E0) in Hv.
Qed.


(** ** Examples *)

Lemma ex_mis_wired l :
  forallb (λ e, negb (type_is_userspace (mi_iface_type e.2))) l = true → wired (ex_mis l).
Proof.
  intros Hl. split; [by intros n t [m Hm]|done|]. intros n m c Hm _ _. exists (mi_iface_type m).
  apply entry_get_elem in Hm. rewrite forallb_forall in Hl. split.
  - apply list_elem_of_In, Hl in Hm. by apply negb_true_iff in Hm.
  - simpl. apply list_elem_of_fmap. by exists (n, m).
Qed.

(** What the examples apply: [i] as a port of [ctrl], and in front of it what it lists. *)
Definition ex_up (i : Interface) : string * MergedInterface := (iface_name i, ex_created i).

Definition ex_port_of (ctrl : string) (i : Interface) : Interface :=
  set_base i (set_bi_controller_type (Some TLinuxBridge)
    (set_bi_controller (Some ctrl) (base_iface i))).

Definition ex_vlan (name parent : string) : Interface :=
  IfVlan (set_bi_kernel_iface_name name (base_new name TVlan))
    (Some (vlan_config (Some parent) (Some 100) None None None None None None None)).

(** The ports first: [eth1] in [br1], [br1] in [br0]. *)
#[local] Notation ex_stack := (ex_mis
  [ex_up (ex_port_of "br1" (ex_nic "eth1")); ex_up (ex_port_of "br0" (ex_bridge "br1" ["eth1"]));
   ex_up (ex_bridge "br0" ["br1"])]).

Definition priorities (r : res MergedInterfaces) : option (list (string * option Z)) :=
  match r with
  | Ok s => Some (map (λ e, (e.1, mi_up_priority e.2)) (kernel_ifaces s))
  | Err _ => None
  end.

(** Hash maps that yield their entries in the order of the model's, and a stable sort. *)
Definition ex_iteration : Iteration :=
  iteration map_to_list map_to_list map_to_list id id (sort_by activation_cmp fst)
    (λ _, reflexivity _) (λ _, reflexivity _) (λ _, reflexivity _) (λ _, reflexivity _)
    (λ _, reflexivity _) (sort_by_perm activation_cmp fst) (sort_by_sorted activation_cmp fst).

Lemma ports_are_activated_after_controllers_witness :
  match set_up_priority ex_stack with
  | Ok s' => ∀ m, get_kernel s' "eth1" = Some m → wants m = Some "br1" → parentless m →
      ∃ t ctrl, ctrl_type_of m = Some t ∧ get_iface s' "br1" t = Some ctrl
  | Err _ => False
  end.
Proof.
  assert (is_ok (set_up_priority ex_stack) = true) as H by (vm_compute; reflexivity).
  destruct (set_up_priority ex_stack) as [s'|] eqn:E; [|discriminate H]. clear H.
  apply (ports_are_activated_after_controllers ex_iteration) in E.
  - destruct E as [_ E]. intros m Hm Hc Hpar. destruct (E "eth1" m "br1" Hm Hc Hpar) as (t & ctrl & Ht & Hctrl & _).
    exists t, ctrl. split; assumption.
  - apply ex_mis_wired. vm_compute. reflexivity.
  - intros n m Hm. apply entry_get_elem in Hm. apply list_elem_of_In in Hm.
    destruct Hm as [Hm|[Hm|[Hm|[]]]]; injection Hm as _ <-; reflexivity.
Defined.

(** Two rounds order the stack. *)
Example stack_is_ordered :
  priorities (set_up_priority ex_stack) = Some [("eth1", Some 2); ("br1", Some 1); ("br0", None)].
Proof. reflexivity. Qed.


(** Five levels are refused or accepted by the order in which the interfaces come, which
    is that of a hash map's iteration: the request cannot choose it. *)
Definition ex_levels : list (string * MergedInterface) :=
  [ex_up (ex_bridge "p0" []); ex_up (ex_port_of "p0" (ex_bridge "p1" []));
   ex_up (ex_port_of "p1" (ex_bridge "p2" [])); ex_up (ex_port_of "p2" (ex_bridge "p3" []));
   ex_up (ex_port_of "p3" (ex_bridge "p4" [])); ex_up (ex_port_of "p4" (ex_bridge "p5" []))].

Example five_levels_depend_on_the_order :
  set_up_priority (ex_mis (rev ex_levels)) = fail InvalidArgument ∧
  priorities (set_up_priority (ex_mis ex_levels)) =
    Some [("p0", None); ("p1", Some 1); ("p2", Some 2); ("p3", Some 3); ("p4", Some 4); ("p5", Some 5)].
Proof. split; reflexivity. Qed.

(** A port with a parent of its own gets its parent's next priority in place of its
    controller's: [vlan1] on [eth1] is activated beside [br1], its controller. *)
Example vlan_port_ties_with_its_controller :
  priorities (set_up_priority (ex_mis
    [ex_up (ex_bridge "br0" ["br1"]); ex_up (ex_port_of "br0" (ex_bridge "br1" ["vlan1"]));
     ex_up (ex_nic "eth1"); ex_up (ex_port_of "br1" (ex_vlan "vlan1" "eth1"))])) =
  Some [("br0", None); ("br1", Some 1); ("eth1", None); ("vlan1", Some 1)].
Proof. reflexivity. Qed.

(** The second pass runs once: a VLAN on a VLAN that comes before it gets no priority, and
    is activated with, or before, its parent. *)
Example qinq_needs_the_order :
  priorities (set_up_priority (ex_mis
    [ex_up (ex_vlan "outer.100" "eth1.100"); ex_up (ex_vlan "eth1.100" "eth1"); ex_up (ex_nic "eth1")])) =
    Some [("outer.100", None); ("eth1.100", Some 1); ("eth1", None)] ∧
  priorities (set_up_priority (ex_mis
    [ex_up (ex_vlan "eth1.100" "eth1"); ex_up (ex_vlan "outer.100" "eth1.100"); ex_up (ex_nic "eth1")])) =
    Some [("eth1.100", Some 1); ("outer.100", Some 2); ("eth1", None)].
Proof. split; reflexivity. Qed.

(** A port whose controller is in no state is reported as a bug of the program. *)
Example stale_controller_is_a_bug :
  set_up_priority (ex_mis [ex_up (ex_port_of "br9" (ex_nic "eth1"))]) = fail Bug.
Proof. reflexivity. Qed.
