(* ===== verification/DnsAuto.v ===== *)
(** * DnsAuto: the DNS information learned from DHCP

    [src/daemon/dns_auto.rs]: the snapshot of the nameservers, domains and cache
    groups that the DHCPv4 workers have learned, in the order of the priorities of
    their interfaces.  The information of the workers, a hash map, is the list of
    its entries in any order; the state being applied is the list of its merged
    interfaces in the order they are iterated over. *)

From S2P Require Export DnsConfig Interfaces.

#[local] Open Scope Z_scope.

Record NipartDhcpDnsInfo : Type := dhcp_dns_info {
  di_nameservers : list string;
  di_domains : list string;
  di_domain_search : list string;
}.

Record AutoDnsIface : Type := auto_dns_iface {
  ai_iface : string;
  ai_priority : Z;
  ai_saved_order : Z;
  ai_nameservers : list string;
  ai_domains : list string;
  ai_domain_search : list string;
}.

Record AutoDnsSnapshot : Type := auto_dns_snapshot {
  as_ifaces : list AutoDnsIface;
  as_servers : list string;
  as_cache_servers : list string;
  as_domains : list string;
  as_has_domain_search : bool;
  as_groups : list NipartDnsUpstreamGroup;
}.

Definition snapshot_default : AutoDnsSnapshot := auto_dns_snapshot [] [] [] [] false [].

(** ** Where an interface is configured *)

Definition saved_iface_order (state : Interfaces) : gmap string Z :=
  foldl (λ m p, <[bi_kernel_iface_name (base_iface p.2) := Z.of_nat p.1]> m) ∅
    (enumerate (interfaces_iter state)).

Definition saved_ipv4 (state : Interfaces) (iface_name : string) : option InterfaceIpv4 :=
  ifs_kernel state !! iface_name ≫= (λ iface, bi_ipv4 (base_iface iface)).

(** [find_map] over the merged interfaces. *)
Definition merged_ipv4 (merged : list Interface) (iface_name : string) : option InterfaceIpv4 :=
  head (omap (λ iface,
    let base := base_iface iface in
    if bool_decide (bi_kernel_iface_name base = iface_name) || bool_decide (bi_name base = iface_name)
    then bi_ipv4 base else None) merged).

(** ** The snapshot *)

(** [srv.split('%').next()], and the nameserver bound to an interface. *)
Definition without_zone (srv : string) : string := hd srv (str_split "%" srv).

Definition bound_server (iface srv : string) : string :=
  (without_zone srv ++ ":53%" ++ iface)%string.

Definition DHCP_GROUP_PREFIX : string := "nipart-dhcp-".

Definition gen_dhcp_group (iface : AutoDnsIface) : NipartDnsUpstreamGroup :=
  dns_group (DHCP_GROUP_PREFIX ++ ai_iface iface) (ai_domains iface)
    (bound_server (ai_iface iface) <$> ai_nameservers iface) false true.

(** [usize::MAX], for an interface that is not saved. *)
Definition NOT_SAVED : Z := USIZE_MAX.

(** The order of the interfaces: the higher priority first, then the saved order, then
    the name. *)
Definition auto_dns_key (i : AutoDnsIface) : Z * (Z * string) :=
  (- ai_priority i, (ai_saved_order i, ai_iface i)).

Definition auto_dns_cmp : Z * (Z * string) → Z * (Z * string) → comparison :=
  pair_cmp Z.compare (pair_cmp Z.compare string_cmp).

Section Lower.
Context (to_lowercase : string → string).

(** Nonempty domains in lower case. *)
Definition lower_domains (domains : list string) : list string :=
  List.filter nonempty (to_lowercase <$> domains).

(** The body of the loop over the learned information. *)
Definition learned_iface (saved_state : Interfaces) (merged : option (list Interface))
    (entry : string * NipartDhcpDnsInfo) : option AutoDnsIface :=
  let '(iface_name, info) := entry in
  let ipv4 := option_or (merged ≫= (λ m, merged_ipv4 m iface_name))
                (saved_ipv4 saved_state iface_name) in
  let auto_dns := match ipv4 with
                  | Some i => auto_dns_enabled i
                  | None => true
                  end in
  if negb auto_dns then None
  else
    let priority := match ipv4 with
                    | Some i => auto_dns_priority_value i
                    | None => 0
                    end in
    let nameservers := push_all_unique [] (di_nameservers info) in
    let domains := push_all_unique [] (lower_domains (di_domains info)) in
    if bool_decide (nameservers = []) && bool_decide (domains = []) then None
    else Some (auto_dns_iface iface_name priority
      (default NOT_SAVED (saved_iface_order saved_state !! iface_name))
      nameservers domains (lower_domains (di_domain_search info))).

(** The second loop: everything in the order of the interfaces. *)
Definition snapshot_of (ifaces : list AutoDnsIface) : AutoDnsSnapshot :=
  auto_dns_snapshot ifaces
    (push_all_unique [] (mjoin (ai_nameservers <$> ifaces)))
    (push_all_unique []
       (mjoin ((λ i, bound_server (ai_iface i) <$> ai_nameservers i) <$> ifaces)))
    (push_all_unique [] (mjoin (ai_domains <$> ifaces)))
    (existsb (λ i, negb (bool_decide (ai_domain_search i = []))) ifaces)
    (gen_dhcp_group <$> List.filter (λ i, negb (bool_decide (ai_domains i = [])) &&
                                          negb (bool_decide (ai_nameservers i = []))) ifaces).

Definition collect_auto_dns (dhcp_info : list (string * NipartDhcpDnsInfo))
    (saved_state : Interfaces) (merged : option (list Interface)) : AutoDnsSnapshot :=
  snapshot_of (sort_by auto_dns_cmp auto_dns_key
                 (omap (learned_iface saved_state merged) dhcp_info)).
End Lower.

(** ** What the snapshot is made of *)

(** What a DHCPv4 worker has learned: the nameservers are IPv4 addresses as the standard
    library prints them, the interface is one of the kernel. *)
Definition dhcp_entry_ok (entry : string * NipartDhcpDnsInfo) : Prop :=
  validate_interface_name entry.1 = Ok tt ∧
  ∀ srv, srv ∈ di_nameservers entry.2 → ∃ n, 0 ≤ n < 2 ^ 32 ∧ srv = ip_display (V4 n).

Lemma without_zone_ipv4 n : 0 ≤ n < 2 ^ 32 → without_zone (ip_display (V4 n)) = ip_display (V4 n).
Proof.
  intros Hn. unfold without_zone. by rewrite str_split_no_char by by apply ip_display_no_char.
Qed.

(** A learned nameserver bound to its interface is one the cache can parse. *)
Lemma bound_server_parses iface n :
  validate_interface_name iface = Ok tt → 0 ≤ n < 2 ^ 32 →
  upstream_parse (bound_server iface (ip_display (V4 n))) = Ok (UpIp (SockV4 n 53) true (Some iface)).
Proof.
  intros Hi Hn. unfold bound_server. rewrite without_zone_ipv4 by done.
  assert ((ip_display (V4 n) ++ ":53%" ++ iface)%string =
    upstream_display (UpIp (SockV4 n 53) true (Some iface))) as ->.
  { unfold upstream_display, socket_addr_display. by rewrite <-!string_app_assoc. }
  apply upstream_parse_display_ok. split; [done|]. by split.
Qed.

Section Snapshot.
Context (to_lowercase : string → string) (saved_state : Interfaces)
  (merged : option (list Interface)).

Abbreviation learned := (learned_iface to_lowercase saved_state merged).

Lemma learned_iface_name e i : learned e = Some i → ai_iface i = e.1.
Proof. unfold learned_iface. destruct e as [n info]. repeat case_match; intros [= <-]; done. Qed.

Lemma learned_nameservers e i srv :
  learned e = Some i → srv ∈ ai_nameservers i → srv ∈ di_nameservers e.2.
Proof.
  unfold learned_iface. destruct e as [n info].
  destruct (negb _); [done|]. destruct (_ && _); [done|]. intros [= <-]. simpl.
  rewrite elem_of_push_all. set_solver.
Qed.

(** The interfaces of the learned information in any order. *)
Definition learned_ifaces (dhcp_info : list (string * NipartDhcpDnsInfo)) : list AutoDnsIface :=
  sort_by auto_dns_cmp auto_dns_key (omap learned dhcp_info).

Lemma elem_of_learned_ifaces dhcp_info i :
  i ∈ learned_ifaces dhcp_info ↔ ∃ e, e ∈ dhcp_info ∧ learned e = Some i.
Proof. unfold learned_ifaces. by rewrite elem_of_sort_by, list_elem_of_omap. Qed.

Lemma elem_of_mjoin_fmap {A B} (f : A → list B) (l : list A) y :
  y ∈ mjoin (f <$> l) ↔ ∃ x, x ∈ l ∧ y ∈ f x.
Proof.
  rewrite list_elem_of_join. setoid_rewrite list_elem_of_fmap. naive_solver.
Qed.

Lemma learned_parses dhcp_info i srv :
  Forall dhcp_entry_ok dhcp_info → i ∈ learned_ifaces dhcp_info → srv ∈ ai_nameservers i →
  ∃ u, upstream_parse (bound_server (ai_iface i) srv) = Ok u.
Proof.
  intros Hok (e & He & Hl)%elem_of_learned_ifaces Hs.
  rewrite Forall_forall in Hok. destruct (Hok e He) as [Hn Hd].
  destruct (Hd srv) as (n & Hr & ->); [by eapply learned_nameservers|].
  rewrite (learned_iface_name e i Hl). eexists. by apply bound_server_parses.
Qed.

(** Every nameserver of the snapshot of the cache can be parsed. *)
Lemma collect_auto_dns_parses dhcp_info :
  Forall dhcp_entry_ok dhcp_info →
  let snapshot := collect_auto_dns to_lowercase dhcp_info saved_state merged in
  nameservers_accepted (as_cache_servers snapshot) ∧
  ∀ g, g ∈ as_groups snapshot → nameservers_accepted (g_nameservers g).
Proof.
  intros Hok. unfold collect_auto_dns. fold (learned_ifaces dhcp_info). simpl. split.
  - intros srv. rewrite elem_of_push_all, elem_of_mjoin_fmap.
    intros [H|(i & Hi & Hs)]; [by apply elem_of_nil in H|].
    apply list_elem_of_fmap in Hs as (s & -> & Hs). by eapply learned_parses.
  - intros g (i & -> & Hi)%list_elem_of_fmap. apply list_elem_of_In, filter_In in Hi as [Hi _].
    apply list_elem_of_In in Hi. intros srv (s & -> & Hs)%list_elem_of_fmap.
    by eapply learned_parses.
Qed.

Lemma omap_Permutation {A B} (f : A → option B) (l k : list A) : l ≡ₚ k → omap f l ≡ₚ omap f k.
Proof. intros H. by rewrite H. Qed.

Lemma learned_keys_distinct dhcp_info :
  NoDup dhcp_info.*1 → keys_distinct auto_dns_key (omap learned dhcp_info).
Proof.
  intros Hnd. unfold keys_distinct.
  assert (NoDup (ai_iface <$> omap learned dhcp_info)) as H.
  { induction dhcp_info as [|e l IH]; [constructor|]. apply NoDup_cons in Hnd as [He Hnd].
    rewrite omap_cons. destruct (learned e) as [i|] eqn:E; [|by apply IH].
    rewrite fmap_cons. apply NoDup_cons. split; [|by apply IH].
    intros (j & Hj & Hin)%list_elem_of_fmap. apply list_elem_of_omap in Hin as (e' & He' & Hl).
    apply He. rewrite <-(learned_iface_name _ _ E), Hj, (learned_iface_name _ _ Hl).
    by apply list_elem_of_fmap_2. }
  apply (NoDup_fmap_1 (λ k : Z * (Z * string), k.2.2)). by rewrite <-list_fmap_compose.
Qed.

(** Whether the DNS of an interface is to be used. *)
Definition uses_auto_dns (iface_name : string) : bool :=
  match option_or (merged ≫= (λ m, merged_ipv4 m iface_name)) (saved_ipv4 saved_state iface_name) with
  | Some i => auto_dns_enabled i
  | None => true
  end.

Lemma learned_has_server e srv :
  (∃ i, learned e = Some i ∧ srv ∈ ai_nameservers i) ↔
  uses_auto_dns e.1 = true ∧ srv ∈ di_nameservers e.2.
Proof.
  unfold learned_iface, uses_auto_dns. destruct e as [n info]. simpl.
  destruct (match option_or _ _ with Some i => auto_dns_enabled i | None => true end); simpl.
  2:{ split; [by intros (i & ? & _)|by intros [? _]]. }
  assert (∀ x, x ∈ push_all_unique [] (di_nameservers info) ↔ x ∈ di_nameservers info) as Hp.
  { intros x. rewrite elem_of_push_all. set_solver. }
  destruct (_ && _) eqn:E.
  - apply andb_true_iff in E as [E _]. apply bool_decide_eq_true in E.
    split; [by intros (i & ? & _)|]. intros [_ Hs]. apply Hp in Hs. rewrite E in Hs.
    by apply elem_of_nil in Hs.
  - split.
    + intros (i & [= <-] & Hs). simpl in Hs. by rewrite Hp in Hs.
    + intros [_ Hs]. eexists. split; [done|]. simpl. by rewrite Hp.
Qed.

Lemma mjoin_app {A} (l k : list (list A)) : mjoin (l ++ k) = mjoin l ++ mjoin k.
Proof. induction l as [|x l IH]; [done|]. simpl. by rewrite IH, app_assoc. Qed.
End Snapshot.

(** The snapshot of the learned DNS information does not depend on the order in which
    the hash map of the DHCP workers is iterated over; its interfaces are in the order of
    their priority, then of the saved state, then of their name; its nameservers are those
    of the leases of the interfaces that use the learned DNS, each once, and the nameservers
    of the first interfaces come first. *)
Theorem auto_dns_snapshot_correct to_lowercase saved_state merged dhcp_info :
  NoDup dhcp_info.*1 →
  let snapshot := collect_auto_dns to_lowercase dhcp_info saved_state merged in
  (∀ other, other ≡ₚ dhcp_info →
    collect_auto_dns to_lowercase other saved_state merged = snapshot) ∧
  StronglySorted (key_le auto_dns_cmp auto_dns_key) (as_ifaces snapshot) ∧
  NoDup (as_servers snapshot) ∧
  (∀ srv, srv ∈ as_servers snapshot ↔
    ∃ name info, (name, info) ∈ dhcp_info ∧ uses_auto_dns saved_state merged name = true ∧
      srv ∈ di_nameservers info) ∧
  ∀ k, as_servers (snapshot_of (take k (as_ifaces snapshot))) `prefix_of` as_servers snapshot.
Proof.
  intros Hnd. unfold collect_auto_dns. cbv zeta. split; [|split; [|split; [|split]]].
  - intros other Hp. f_equal. symmetry.
    apply (sort_by_order_irrelevant auto_dns_cmp auto_dns_key).
    + by apply learned_keys_distinct.
    + symmetry. by apply omap_Permutation.
  - exact (sort_by_sorted auto_dns_cmp auto_dns_key _).
  - apply push_all_unique_spec, NoDup_nil_2.
  - intros srv. simpl. rewrite elem_of_push_all, elem_of_mjoin_fmap.
    setoid_rewrite (elem_of_learned_ifaces to_lowercase saved_state merged dhcp_info).
    split.
    + intros [H|(i & ([name info] & He & Hl) & Hs)]; [by apply elem_of_nil in H|].
      destruct (proj1 (learned_has_server to_lowercase saved_state merged (name, info) srv)) as [? ?];
        [by exists i|]. by exists name, info.
    + intros (name & info & He & Hu & Hs). right.
      destruct (proj2 (learned_has_server to_lowercase saved_state merged (name, info) srv))
        as (i & Hl & Hsi); [done|]. exists i. split; [by exists (name, info)|done].
  - intros k. simpl. match goal with |- context [take k ?l] => set (ifaces := l) end.
    rewrite <-(take_drop k ifaces) at 2. rewrite fmap_app, mjoin_app.
    unfold push_all_unique at 2. rewrite foldl_app. apply push_all_unique_spec.
Qed.

Definition ex_leases : list (string * NipartDhcpDnsInfo) :=
  [("eth1", dhcp_dns_info ["192.0.2.1"; "192.0.2.9"] ["example.org"] []);
   ("eth2", dhcp_dns_info ["192.0.2.2"; "192.0.2.1"] [] [])].

Lemma auto_dns_snapshot_correct_witness :
  as_servers (collect_auto_dns ex_lower (reverse ex_leases) interfaces_default None) =
    ["192.0.2.1"; "192.0.2.9"; "192.0.2.2"].
Proof.
  rewrite (proj1 (auto_dns_snapshot_correct ex_lower interfaces_default None ex_leases
    ltac:(apply (bool_decide_unpack _); vm_compute; reflexivity))).
  - vm_compute. reflexivity.
  - apply reverse_Permutation.
Defined.
