(* ===== verification/DnsServer.v ===== *)
(** * DnsServer: the configuration of the embedded DNS cache

    [src/daemon/dns/config.rs], [worker.rs] and [manager.rs]: the runtime
    configuration built from the schema and the learned information, what is
    handed to the embedded server and what is shown, and the worker that starts
    and stops the server.  The embedded server is third-party code: the record
    [MudzConfig] is the arguments of its constructors, and whether it starts is an
    argument of the worker. *)

From S2P Require Export DnsAuto MergedDns.

#[local] Open Scope Z_scope.

Record DnsUpstreamConfig : Type := dns_upstream_config {
  us_static_servers : list DnsUpstreamServer;
  us_disable_ipv6 : bool;
}.

Record DnsDohConfig : Type := dns_doh_config {
  dd_nameservers : list IpAddr;
  dd_disable_ipv6 : bool;
}.

Record DnsGroupConfig : Type := dns_group_config {
  dg_name : string;
  dg_domains : list string;
  dg_upstream : DnsUpstreamConfig;
  dg_from_dhcp : bool;
}.

Record NipartDnsServerConfig : Type := dns_server_config {
  sc_bind : SocketAddr;
  sc_max_cache_size : Z;
  sc_load_etc_hosts : bool;
  sc_auto_dns : bool;
  sc_auto_dns_servers : list DnsUpstreamServer;
  sc_fallback : DnsUpstreamConfig;
  sc_doh : option DnsDohConfig;
  sc_static_groups : list DnsGroupConfig;
  sc_groups : list DnsGroupConfig;
}.

(** [DnsUpstreamConfig::servers]: static servers first, then dynamic ones. *)
Definition upstream_servers (self : DnsUpstreamConfig) (auto_dns_servers : list DnsUpstreamServer)
    : list DnsUpstreamServer :=
  us_static_servers self ++ auto_dns_servers.

(** ** Groups *)

(** Add servers and domains that are not there yet. *)
Definition extend_group (servers : list DnsUpstreamServer) (domains : list string)
    (existing : DnsGroupConfig) : DnsGroupConfig :=
  dns_group_config (dg_name existing) (push_all_unique (dg_domains existing) domains)
    (dns_upstream_config
       (push_all_unique (us_static_servers (dg_upstream existing)) servers)
       (us_disable_ipv6 (dg_upstream existing)))
    (dg_from_dhcp existing).

(** [iter_mut().find(p)], updating what is found. *)
Fixpoint update_first {A} (p : A → bool) (f : A → A) (l : list A) : option (list A) :=
  match l with
  | [] => None
  | x :: l' =>
      if p x then Some (f x :: l')
      else match update_first p f l' with
           | Some k => Some (x :: k)
           | None => None
           end
  end.

Definition covers_domain (domains : list string) (group : DnsGroupConfig) : bool :=
  existsb (λ domain, bool_decide (domain ∈ domains)) (dg_domains group).

Definition has_name (name : string) (group : DnsGroupConfig) : bool :=
  bool_decide (dg_name group = name).

Section Lower.
Context (to_lowercase : string → string).

(** [DnsGroupConfig::new]. *)
Definition group_config_new (group : NipartDnsUpstreamGroup) : res DnsGroupConfig :=
  let? servers := map_result upstream_parse (g_nameservers group) in
  Ok (dns_group_config (g_name group) (to_lowercase <$> g_domains group)
        (dns_upstream_config servers (g_disable_ipv6 group)) (g_from_dhcp group)).

(** The body of the loop of [merge_groups]. *)
Definition merge_group (ret : list DnsGroupConfig) (auto_group : NipartDnsUpstreamGroup)
    : res (list DnsGroupConfig) :=
  let auto_domains := to_lowercase <$> g_domains auto_group in
  let? auto_servers := map_result upstream_parse (g_nameservers auto_group) in
  Ok match update_first (covers_domain auto_domains) (extend_group auto_servers auto_domains) ret with
     | Some ret => ret
     | None =>
         match update_first (has_name (g_name auto_group))
                 (extend_group auto_servers auto_domains) ret with
         | Some ret => ret
         | None =>
             ret ++ [dns_group_config (g_name auto_group) auto_domains
                       (dns_upstream_config auto_servers (g_disable_ipv6 auto_group)) true]
         end
     end.

Fixpoint merge_groups (ret : list DnsGroupConfig) (auto_groups : list NipartDnsUpstreamGroup)
    : res (list DnsGroupConfig) :=
  match auto_groups with
  | [] => Ok ret
  | auto_group :: auto_groups' =>
      let? ret := merge_group ret auto_group in merge_groups ret auto_groups'
  end.

(** [NipartDnsServerConfig::new]. *)
Definition server_config_new (cache : DnsCacheConfig) (auto_dns : AutoDnsSnapshot)
    : res NipartDnsServerConfig :=
  match bind_addr cache with
  | None => fail InvalidArgument
  | Some bind =>
      let? fallback_servers := map_result upstream_parse (fb_nameservers (cc_fallback cache)) in
      let? auto_dns_servers :=
        if cc_auto_dns cache then map_result upstream_parse (as_cache_servers auto_dns)
        else Ok [] in
      let auto_groups := if cc_auto_dns cache then as_groups auto_dns else [] in
      let? static_groups := map_result group_config_new (cc_groups cache) in
      let? groups := merge_groups static_groups auto_groups in
      Ok (dns_server_config bind (cc_max_cache_size cache) (cc_load_etc_hosts cache)
            (cc_auto_dns cache) auto_dns_servers
            (dns_upstream_config fallback_servers (fb_disable_ipv6 (cc_fallback cache)))
            ((λ doh, dns_doh_config (doh_nameservers doh) (doh_disable_ipv6 doh)) <$> cc_doh cache)
            static_groups groups)
  end.
End Lower.

(** ** What the embedded server is given *)

Record MudzGroupConfig : Type := mudz_group_config {
  mg_nameservers : list string;
  mg_domains : list string;
  mg_disable_ipv6 : bool;
}.

Record MudzConfig : Type := mudz_config_of {
  mz_udp_bind : string;
  mz_max_cache_size : Z;
  mz_load_etc_hosts : bool;
  mz_fallback_nameservers : list string;
  mz_fallback_disable_ipv6 : bool;
  mz_doh : option DnsDohConfig;
  mz_groups : gmap string MudzGroupConfig;
}.

Definition mudz_group (group : DnsGroupConfig) : MudzGroupConfig :=
  mudz_group_config (upstream_display <$> us_static_servers (dg_upstream group))
    (dg_domains group) (us_disable_ipv6 (dg_upstream group)).

Definition mudz_config (self : NipartDnsServerConfig) : MudzConfig :=
  mudz_config_of (socket_addr_display (sc_bind self)) (sc_max_cache_size self)
    (sc_load_etc_hosts self)
    (upstream_display <$> upstream_servers (sc_fallback self) (sc_auto_dns_servers self))
    (us_disable_ipv6 (sc_fallback self)) (sc_doh self)
    (foldl (λ groups group, <[dg_name group := mudz_group group]> groups) ∅ (sc_groups self)).

(** [to_schema_config]: the effective configuration, for querying. *)
Definition schema_group (group : DnsGroupConfig) : NipartDnsUpstreamGroup :=
  dns_group (dg_name group) (dg_domains group)
    (upstream_display <$> us_static_servers (dg_upstream group))
    (us_disable_ipv6 (dg_upstream group)) (dg_from_dhcp group).

Definition to_schema_config (self : NipartDnsServerConfig) : DnsCacheConfig :=
  dns_cache true (socket_addr_display (sc_bind self)) (sc_max_cache_size self)
    (sc_load_etc_hosts self) (sc_auto_dns self)
    (dns_fallback (upstream_display <$> us_static_servers (sc_fallback self))
       (us_disable_ipv6 (sc_fallback self)))
    ((λ doh, dns_doh (dd_nameservers doh) (dd_disable_ipv6 doh)) <$> sc_doh self)
    (schema_group <$> sc_groups self).

(** ** The worker *)

Inductive NipartDnsCmd : Type :=
| CmdStart (config : NipartDnsServerConfig)
| CmdNotifyNetworkChange
| CmdStop
| CmdQuery.

Inductive NipartDnsReply : Type :=
| ReplyNone
| ReplyRunning (config : option DnsCacheConfig).

(** What the worker keeps of a running server: the configuration it was started with. *)
Record NipartDnsWorker : Type := dns_worker { dw_running : option NipartDnsServerConfig }.

Section Mudz.
(** Whether [MudzServer::new] and the notifier succeed. *)
Context (mudz_start : MudzConfig → res unit) (mudz_notify : res unit).

Definition stop_server (self : NipartDnsWorker) : NipartDnsWorker := dns_worker None.

Definition start_server (config : NipartDnsServerConfig) (self : NipartDnsWorker)
    : res unit * NipartDnsWorker :=
  match mudz_start (mudz_config config) with
  | Err e => (Err e, self)
  | Ok _ => (Ok tt, dns_worker (Some config))
  end.

Definition dns_process_cmd (cmd : NipartDnsCmd) (self : NipartDnsWorker)
    : res NipartDnsReply * NipartDnsWorker :=
  match cmd with
  | CmdStart config =>
      let '(r, self) := start_server config (stop_server self) in
      (let? _ := r in Ok ReplyNone, self)
  | CmdNotifyNetworkChange =>
      match dw_running self with
      | Some _ => (let? _ := mudz_notify in Ok ReplyNone, self)
      | None => (Ok ReplyNone, self)
      end
  | CmdStop => (Ok ReplyNone, stop_server self)
  | CmdQuery => (Ok (ReplyRunning (to_schema_config <$> dw_running self)), self)
  end.

(** [NipartDnsManager::apply_config], [stop] and [query_config]: the worker executes the
    commands in order. *)
Definition dns_apply_config (to_lowercase : string → string) (cache : option DnsCacheConfig)
    (auto_dns : AutoDnsSnapshot) (self : NipartDnsWorker) : res unit * NipartDnsWorker :=
  match cache with
  | None => (Ok tt, self)
  | Some cache =>
      if negb (cc_enabled cache) then
        let '(r, self) := dns_process_cmd CmdStop self in (let? _ := r in Ok tt, self)
      else
        match server_config_new to_lowercase cache auto_dns with
        | Err e => (Err e, self)
        | Ok config =>
            let '(r, self) := dns_process_cmd (CmdStart config) self in (let? _ := r in Ok tt, self)
        end
  end.

Definition dns_query_config (self : NipartDnsWorker) : res (option DnsCacheConfig) * NipartDnsWorker :=
  let '(r, self) := dns_process_cmd CmdQuery self in
  (let? reply := r in
   Ok match reply with
      | ReplyRunning config => config
      | ReplyNone => None
      end, self).
End Mudz.

(** ** Merging DHCP groups *)

Section Merge.
Context (to_lowercase : string → string).

Definition offers_domain (autos : list NipartDnsUpstreamGroup) (domain : string) : Prop :=
  ∃ ag d, ag ∈ autos ∧ d ∈ g_domains ag ∧ domain = to_lowercase d.

Definition offers_server (autos : list NipartDnsUpstreamGroup) (u : DnsUpstreamServer) : Prop :=
  ∃ ag srv, ag ∈ autos ∧ srv ∈ g_nameservers ag ∧ upstream_parse srv = Ok u.

Definition dg_servers (g : DnsGroupConfig) : list DnsUpstreamServer :=
  us_static_servers (dg_upstream g).

(** [g'] is [g] with domains and servers of [autos] after its own ones. *)
Record extended (autos : list NipartDnsUpstreamGroup) (g g' : DnsGroupConfig) : Prop := {
  ex_name : dg_name g' = dg_name g;
  ex_ipv6 : us_disable_ipv6 (dg_upstream g') = us_disable_ipv6 (dg_upstream g);
  ex_dhcp : dg_from_dhcp g' = dg_from_dhcp g;
  ex_domains : dg_domains g `prefix_of` dg_domains g';
  ex_servers : dg_servers g `prefix_of` dg_servers g';
  ex_new_domains : ∀ d, d ∈ dg_domains g' → d ∈ dg_domains g ∨ offers_domain autos d;
  ex_new_servers : ∀ u, u ∈ dg_servers g' → u ∈ dg_servers g ∨ offers_server autos u;
}.

(** All domains of [ag] are routed to all its servers. *)
Definition serves (ag : NipartDnsUpstreamGroup) (g : DnsGroupConfig) : Prop :=
  (∀ d, d ∈ g_domains ag → to_lowercase d ∈ dg_domains g) ∧
  (∀ srv, srv ∈ g_nameservers ag → ∃ u, upstream_parse srv = Ok u ∧ u ∈ dg_servers g).

(** A group that [autos] alone have made. *)
Record generated (autos : list NipartDnsUpstreamGroup) (g : DnsGroupConfig) : Prop := {
  gen_dhcp : dg_from_dhcp g = true;
  gen_name : ∃ ag, ag ∈ autos ∧ dg_name g = g_name ag;
  gen_domains : ∀ d, d ∈ dg_domains g → offers_domain autos d;
  gen_servers : ∀ u, u ∈ dg_servers g → offers_server autos u;
}.

Record merged_into (autos : list NipartDnsUpstreamGroup) (base groups : list DnsGroupConfig)
    : Prop := {
  mi_kept : ∀ i g, base !! i = Some g → ∃ g', groups !! i = Some g' ∧ extended autos g g';
  mi_new : ∀ i g, (length base ≤ i)%nat → groups !! i = Some g → generated autos g;
  mi_served : ∀ ag, ag ∈ autos → ∃ g, g ∈ groups ∧ serves ag g;
  mi_names : NoDup (dg_name <$> base) → NoDup (dg_name <$> groups);
}.

Lemma offers_domain_mono l k d : l ⊆ k → offers_domain l d → offers_domain k d.
Proof. intros Hs (ag & d' & ? & ? & ?). exists ag, d'. auto. Qed.

Lemma offers_server_mono l k u : l ⊆ k → offers_server l u → offers_server k u.
Proof. intros Hs (ag & srv & ? & ? & ?). exists ag, srv. auto. Qed.

Lemma extended_refl autos g : extended autos g g.
Proof. split; auto. Qed.

Lemma extended_trans l k autos g1 g2 g3 :
  l ⊆ autos → k ⊆ autos → extended l g1 g2 → extended k g2 g3 → extended autos g1 g3.
Proof.
  intros Hl Hk [n1 i1 d1 p1 s1 q1 t1] [n2 i2 d2 p2 s2 q2 t2].
  split; [congruence..|by etransitivity|by etransitivity| |].
  - intros d [H|H]%q2; [apply q1 in H as [?|H]|]; [by left|right..];
      by eapply offers_domain_mono; [|exact H].
  - intros u [H|H]%t2; [apply t1 in H as [?|H]|]; [by left|right..];
      by eapply offers_server_mono; [|exact H].
Qed.

Lemma serves_extended l ag g g' : serves ag g → extended l g g' → serves ag g'.
Proof.
  intros [H1 H2] [_ _ _ [d Hd] [s Hs] _ _]. split.
  - intros x Hx. rewrite Hd, elem_of_app. left. auto.
  - intros srv Hsrv. destruct (H2 srv Hsrv) as (u & Hu & Hin). exists u. split; [done|].
    rewrite Hs, elem_of_app. by left.
Qed.

Lemma generated_extended l k autos g g' :
  l ⊆ autos → k ⊆ autos → generated l g → extended k g g' → generated autos g'.
Proof.
  intros Hl Hk [Hd (ag & Hag & Hn) Hdom Hsrv] [n2 i2 d2 p2 s2 q2 t2]. split.
  - congruence.
  - exists ag. split; [auto|congruence].
  - intros d [H|H]%q2; [apply Hdom in H|]; by eapply offers_domain_mono; [|exact H].
  - intros u [H|H]%t2; [apply Hsrv in H|]; by eapply offers_server_mono; [|exact H].
Qed.

Lemma merged_into_trans l k base mid groups :
  merged_into l base mid → merged_into k mid groups → merged_into (l ++ k) base groups.
Proof.
  intros [K1 N1 S1 U1] [K2 N2 S2 U2].
  assert (l ⊆ l ++ k) as Hl by set_solver. assert (k ⊆ l ++ k) as Hk by set_solver. split.
  - intros i g Hi. destruct (K1 i g Hi) as (g1 & H1 & E1). destruct (K2 i g1 H1) as (g2 & H2 & E2).
    exists g2. split; [done|]. exact (extended_trans l k _ _ _ _ Hl Hk E1 E2).
  - intros i g Hi Hg. destruct (decide (length mid ≤ i)%nat) as [Hm|Hm].
    + destruct (N2 i g Hm Hg) as [Hd (ag & Hag & Hn) Hdom Hsrv]. split; [done|..].
      * exists ag. split; [set_solver|done].
      * intros d H%Hdom. by eapply offers_domain_mono; [|exact H].
      * intros u H%Hsrv. by eapply offers_server_mono; [|exact H].
    + destruct (lookup_lt_is_Some_2 mid i) as [g1 H1]; [lia|].
      destruct (K2 i g1 H1) as (g2 & H2 & E2). assert (g2 = g) as -> by congruence.
      exact (generated_extended l k _ _ _ Hl Hk (N1 i g1 Hi H1) E2).
  - intros ag [Hag|Hag]%elem_of_app; [|by apply S2].
    destruct (S1 ag Hag) as (g1 & [i Hi]%list_elem_of_lookup & Hs).
    destruct (K2 i g1 Hi) as (g2 & H2 & E2). exists g2.
    split; [by eapply list_elem_of_lookup_2|by eapply serves_extended].
  - auto.
Qed.

Lemma merged_into_refl base : merged_into [] base base.
Proof.
  split; [..|done].
  - intros i g Hi. exists g. split; [done|apply extended_refl].
  - intros i g Hi Hg. apply lookup_lt_Some in Hg. lia.
  - intros ag Hag. by apply elem_of_nil in Hag.
Qed.

Lemma update_first_Some {A} (p : A → bool) f (l k : list A) :
  update_first p f l = Some k →
  ∃ i x, l !! i = Some x ∧ p x = true ∧ k = <[i := f x]> l.
Proof.
  revert k. induction l as [|x l IH]; intros k; simpl; [done|]. destruct (p x) eqn:E.
  - intros [= <-]. by exists 0%nat, x.
  - destruct (update_first p f l) as [k'|]; [|done]. intros [= <-].
    destruct (IH k' eq_refl) as (i & y & Hi & Hy & ->). by exists (S i), y.
Qed.

Lemma update_first_None {A} (p : A → bool) f (l : list A) :
  update_first p f l = None → ∀ x, x ∈ l → p x = false.
Proof.
  induction l as [|x l IH]; simpl; [set_solver|]. destruct (p x) eqn:E; [done|].
  destruct (update_first p f l); [done|]. intros _ y [->|Hy]%elem_of_cons; [done|auto].
Qed.

Lemma parsed_servers ag servers :
  map_result upstream_parse (g_nameservers ag) = Ok servers →
  (∀ u, u ∈ servers → offers_server [ag] u) ∧
  (∀ srv, srv ∈ g_nameservers ag → ∃ u, upstream_parse srv = Ok u ∧ u ∈ servers).
Proof.
  intros H%map_result_Forall2. split.
  - intros u Hu. destruct (Forall2_elem_r _ _ _ _ H Hu) as (srv & Hs & Hp).
    exists ag, srv. split; [by left|done].
  - intros srv Hs. destruct (Forall2_elem_l _ _ _ _ H Hs) as (u & Hu & Hp). by exists u.
Qed.

Lemma extend_group_extended ag servers g :
  map_result upstream_parse (g_nameservers ag) = Ok servers →
  extended [ag] g (extend_group servers (to_lowercase <$> g_domains ag) g) ∧
  serves ag (extend_group servers (to_lowercase <$> g_domains ag) g).
Proof.
  intros [Ho Hp]%parsed_servers.
  destruct (push_all_unique_spec (to_lowercase <$> g_domains ag) (dg_domains g)) as (Pd & Ed & _).
  destruct (push_all_unique_spec servers (dg_servers g)) as (Ps & Es & _).
  split; [split; try done|split]; unfold dg_servers; simpl.
  - intros d [?|Hd]%Ed; [by left|]. right. apply list_elem_of_fmap in Hd as (d0 & -> & Hd0).
    exists ag, d0. split; [by left|done].
  - intros u [?|Hu]%Es; [by left|]. right. by apply Ho.
  - intros d Hd. apply Ed. right. by apply list_elem_of_fmap_2.
  - intros srv Hs. destruct (Hp srv Hs) as (u & Hu & Hin). exists u. split; [done|].
    apply Es. by right.
Qed.

Lemma merged_into_insert ag base i g g' :
  base !! i = Some g → extended [ag] g g' → serves ag g' →
  merged_into [ag] base (<[i := g']> base).
Proof.
  intros Hi He Hs. pose proof (lookup_lt_Some _ _ _ Hi) as Hlt. split.
  - intros j h Hj. destruct (decide (i = j)) as [<-|Hij].
    + rewrite list_lookup_insert_eq by done. exists g'. split; [done|]. congruence.
    + rewrite list_lookup_insert_ne by done. exists h. split; [done|apply extended_refl].
  - intros j h Hj Hh. apply lookup_lt_Some in Hh. rewrite length_insert in Hh. lia.
  - intros a ->%list_elem_of_singleton. exists g'. split; [|done].
    apply list_elem_of_lookup. exists i. by rewrite list_lookup_insert_eq.
  - intros Hnd. rewrite list_fmap_insert, (ex_name _ _ _ He).
    by rewrite list_insert_id by (rewrite list_lookup_fmap, Hi; done).
Qed.

Lemma merge_group_merged base ag ret :
  merge_group to_lowercase base ag = Ok ret → merged_into [ag] base ret.
Proof.
  unfold merge_group. destruct (map_result _ _) as [servers|] eqn:Es; [|done]. intros [= <-].
  destruct (update_first (covers_domain _) _ base) as [ret|] eqn:E1.
  { apply update_first_Some in E1 as (i & g & Hi & _ & ->).
    destruct (extend_group_extended ag servers g Es). by eapply merged_into_insert. }
  destruct (update_first (has_name _) _ base) as [ret|] eqn:E2.
  { apply update_first_Some in E2 as (i & g & Hi & _ & ->).
    destruct (extend_group_extended ag servers g Es). by eapply merged_into_insert. }
  pose proof (update_first_None _ _ _ E2) as Hn. clear E1 E2.
  apply parsed_servers in Es as [Ho Hp]. split.
  - intros i g Hi. exists g. split; [by apply lookup_app_l_Some|apply extended_refl].
  - intros i g Hi Hg. rewrite lookup_app_r in Hg by done.
    apply list_lookup_singleton_Some in Hg as [_ <-]. split; [done|..].
    + exists ag. split; [by left|done].
    + intros d (d0 & -> & Hd)%list_elem_of_fmap. exists ag, d0. split; [by left|done].
    + intros u Hu. by apply Ho.
  - intros a ->%list_elem_of_singleton. eexists. split; [apply elem_of_app; right; by left|].
    split; [|by apply Hp]. intros d Hd. by apply list_elem_of_fmap_2.
  - intros Hnd. rewrite fmap_app, NoDup_app. split; [done|]. split; [|apply NoDup_singleton].
    intros n (g & -> & Hg)%list_elem_of_fmap Hin%list_elem_of_singleton.
    specialize (Hn g Hg). unfold has_name in Hn. by apply bool_decide_eq_false in Hn.
Qed.

Lemma merge_groups_merged base autos groups :
  merge_groups to_lowercase base autos = Ok groups → merged_into autos base groups.
Proof.
  revert base. induction autos as [|ag autos IH]; intros base; simpl.
  - intros [= <-]. apply merged_into_refl.
  - destruct (merge_group to_lowercase base ag) as [ret|] eqn:E; [|done]. intros H.
    apply (merged_into_trans [ag] autos base ret); [by apply merge_group_merged|by apply IH].
Qed.

(** Only a nameserver that cannot be parsed stops the merge. *)
Lemma merge_groups_ok base autos :
  (∀ ag, ag ∈ autos → nameservers_accepted (g_nameservers ag)) →
  ∃ groups, merge_groups to_lowercase base autos = Ok groups.
Proof.
  revert base. induction autos as [|ag autos IH]; intros base H; simpl; [by eexists|].
  unfold merge_group. destruct (map_result_is_ok upstream_parse (g_nameservers ag)) as [_ Hok].
  destruct (map_result _ _) as [servers|e].
  - apply IH. intros ag' Hag. apply H. by right.
  - simpl in Hok. discriminate Hok. intros x Hx. apply (H ag); [by left|done].
Qed.
End Merge.

(** The DHCP groups are merged into the groups of the cache without losing or mixing
    anything.  Every static group stays at its place with its name and settings and its own
    domains and servers first; everything added to it, and every further group, comes from
    the DHCP groups; every DHCP group is served, all its domains being routed to all its
    servers; and names stay distinct, so that the embedded server, which keys the groups by
    their name, loses none. *)
Theorem merge_groups_correct to_lowercase static_groups autos groups :
  merge_groups to_lowercase static_groups autos = Ok groups →
  merged_into to_lowercase autos static_groups groups.
Proof. apply merge_groups_merged. Qed.

Definition ex_static_groups : list DnsGroupConfig :=
  [dns_group_config "home" ["example.org"]
     (dns_upstream_config [upstream_from_ip (V4 0xC0000235)] false) false].

Definition ex_dhcp_group (iface domain server : string) : NipartDnsUpstreamGroup :=
  dns_group (DHCP_GROUP_PREFIX ++ iface) [domain] [(server ++ ":53%" ++ iface)%string] false true.

Lemma merge_groups_correct_witness :
  ∃ groups, merged_into ex_lower
    [ex_dhcp_group "eth1" "example.org" "198.51.100.53"; ex_dhcp_group "eth2" "corp.example" "203.0.113.1"]
    ex_static_groups groups ∧
    dg_name <$> groups = ["home"; "nipart-dhcp-eth2"].
Proof.
  eexists. split; [eapply merge_groups_correct; vm_compute; reflexivity|].
  vm_compute. reflexivity.
Defined.

(** ** Building the configuration *)

Lemma foldl_groups_lookup (groups : list DnsGroupConfig) (m : gmap string MudzGroupConfig) n :
  NoDup (dg_name <$> groups) →
  foldl (λ m g, <[dg_name g := mudz_group g]> m) m groups !! n =
    match List.find (λ g, bool_decide (dg_name g = n)) groups with
    | Some g => Some (mudz_group g)
    | None => m !! n
    end.
Proof.
  revert m. induction groups as [|g groups IH]; intros m; [done|].
  rewrite fmap_cons. intros [Hg Hnd]%NoDup_cons. cbn [foldl List.find].
  rewrite IH by done. case_bool_decide as Hn.
  - destruct (List.find _ groups) as [g'|] eqn:E.
    + apply find_elem_of in E as [Hin He]. apply bool_decide_eq_true in He.
      destruct Hg. rewrite Hn, <-He. by apply list_elem_of_fmap_2.
    + by rewrite Hn, lookup_insert_eq.
  - destruct (List.find _ groups); [done|]. by rewrite lookup_insert_ne.
Qed.

Lemma find_name (groups : list DnsGroupConfig) g :
  NoDup (dg_name <$> groups) → g ∈ groups →
  List.find (λ h, bool_decide (dg_name h = dg_name g)) groups = Some g.
Proof.
  induction groups as [|h groups IH]; [set_solver|]. rewrite fmap_cons.
  intros [Hh Hnd]%NoDup_cons [->|Hg]%elem_of_cons; cbn [List.find].
  - by rewrite bool_decide_true.
  - rewrite bool_decide_false; [by apply IH|]. intros He. apply Hh. rewrite He.
    by apply list_elem_of_fmap_2.
Qed.

(** The embedded server has every group under its name. *)
Lemma mudz_groups_complete conf g :
  NoDup (dg_name <$> sc_groups conf) → g ∈ sc_groups conf →
  mz_groups (mudz_config conf) !! dg_name g = Some (mudz_group g).
Proof. intros Hnd Hg. simpl. by rewrite foldl_groups_lookup, find_name. Qed.

Section Build.
Context (to_lowercase : string → string).

Lemma group_config_new_name g c : group_config_new to_lowercase g = Ok c → dg_name c = g_name g.
Proof. unfold group_config_new. destruct (map_result _ _); [|done]. by intros [= <-]. Qed.

Lemma group_configs_names gs cs :
  map_result (group_config_new to_lowercase) gs = Ok cs → dg_name <$> cs = g_name <$> gs.
Proof.
  intros H%map_result_Forall2. induction H as [|g c gs cs Hg _ IH]; [done|].
  rewrite !fmap_cons, IH. by rewrite (group_config_new_name _ _ Hg).
Qed.

Lemma nameservers_parse l : nameservers_accepted l → ∃ us, map_result upstream_parse l = Ok us.
Proof. intros H. apply is_ok_Ok, map_result_is_ok. exact H. Qed.

Lemma user_groups_id gs : (∀ g, g ∈ gs → g_from_dhcp g = false) → user_groups gs = gs.
Proof.
  unfold user_groups. induction gs as [|g gs IH]; intros H; [done|]. cbn [List.filter].
  rewrite H by by left. cbn [negb]. rewrite IH; [done|]. intros h Hh. apply H. by right.
Qed.

Lemma server_config_new_ok etc_hosts cache snapshot :
  cache_accepted to_lowercase etc_hosts cache →
  (∀ g, g ∈ cc_groups cache → g_from_dhcp g = false) →
  nameservers_accepted (as_cache_servers snapshot) →
  (∀ g, g ∈ as_groups snapshot → nameservers_accepted (g_nameservers g)) →
  ∃ conf, server_config_new to_lowercase cache snapshot = Ok conf ∧
    bind_addr cache = Some (sc_bind conf) ∧ NoDup (dg_name <$> sc_groups conf).
Proof.
  intros [[a Ha] Hf _ Hg _ Hnd _ _] Hu Hs Has. unfold server_config_new. rewrite Ha.
  destruct (nameservers_parse _ Hf) as [fb ->].
  destruct (nameservers_parse _ Hs) as [auto Hauto].
  assert (∃ l, (if cc_auto_dns cache then map_result upstream_parse (as_cache_servers snapshot)
    else Ok []) = Ok l) as [l ->] by (destruct (cc_auto_dns cache); [by exists auto|by eexists]).
  assert (∃ cs, map_result (group_config_new to_lowercase) (cc_groups cache) = Ok cs) as [cs Hcs].
  { apply is_ok_Ok, map_result_is_ok. intros g Hin. destruct (Hg g Hin) as [_ Hns].
    unfold group_config_new. destruct (nameservers_parse _ Hns) as [us ->]. by eexists. }
  rewrite Hcs.
  destruct (merge_groups_ok to_lowercase cs (if cc_auto_dns cache then as_groups snapshot else []))
    as [groups Hm].
  { destruct (cc_auto_dns cache); [done|]. intros g Hin. by apply elem_of_nil in Hin. }
  rewrite Hm. eexists. split; [done|]. split; [done|].
  apply (mi_names _ _ _ _ (merge_groups_merged _ _ _ _ Hm)).
  rewrite (group_configs_names _ _ Hcs). by rewrite <-(user_groups_id (cc_groups cache)).
Qed.
End Build.

(** An accepted DNS configuration can always be started.  Whatever the DHCP leases of
    the host say, the runtime configuration of an accepted cache is built without error
    (no nameserver that passed the validation, and no learned one, fails to be parsed
    later), it listens on the configured address, and the embedded server gets every group,
    under its name, with all its servers and domains. *)
Theorem accepted_cache_starts to_lowercase etc_hosts d cache dhcp_info saved_state merged :
  resolver_validate to_lowercase etc_hosts d = Ok tt → dr_cache d = Some cache →
  (∀ g, g ∈ cc_groups cache → g_from_dhcp g = false) → Forall dhcp_entry_ok dhcp_info →
  ∃ conf, server_config_new to_lowercase cache
      (collect_auto_dns to_lowercase dhcp_info saved_state merged) = Ok conf ∧
    bind_addr cache = Some (sc_bind conf) ∧
    ∀ g, g ∈ sc_groups conf →
      mz_groups (mudz_config conf) !! dg_name g = Some (mudz_group g).
Proof.
  intros (_ & Hc & _)%resolver_validate_ok Hd Hu Hok.
  destruct (collect_auto_dns_parses to_lowercase saved_state merged dhcp_info Hok) as [Hs Hg].
  destruct (server_config_new_ok to_lowercase etc_hosts cache
    (collect_auto_dns to_lowercase dhcp_info saved_state merged)) as (conf & Hn & Hb & Hnd);
    [by apply Hc|done..|].
  exists conf. split; [done|]. split; [done|]. intros g. by apply mudz_groups_complete.
Qed.

Lemma ex_leases_ok : Forall dhcp_entry_ok ex_leases.
Proof.
  assert (∀ n s, (0 ≤ n < 2 ^ 32) → s = ip_display (V4 n) → ∃ n, 0 ≤ n < 2 ^ 32 ∧ s = ip_display (V4 n))
    as H by (intros n s Hn Hs; by exists n).
  constructor; [|constructor; [|constructor]]; (split; [reflexivity|]); intros srv Hin;
    repeat (apply elem_of_cons in Hin as [->|Hin]); try (by apply elem_of_nil in Hin).
  - by apply (H 0xC0000201).
  - by apply (H 0xC0000209).
  - by apply (H 0xC0000202).
  - by apply (H 0xC0000201).
Qed.

Lemma accepted_cache_starts_witness :
  ∃ conf, server_config_new ex_lower ex_cache
      (collect_auto_dns ex_lower ex_leases interfaces_default None) = Ok conf ∧
    bind_addr ex_cache = Some (sc_bind conf) ∧
    ∀ g, g ∈ sc_groups conf →
      mz_groups (mudz_config conf) !! dg_name g = Some (mudz_group g).
Proof.
  apply (accepted_cache_starts ex_lower None (ex_resolver ["127.0.0.1"])).
  - vm_compute. reflexivity.
  - reflexivity.
  - intros g Hg. repeat (apply elem_of_cons in Hg as [->|Hg]; [reflexivity|]).
    by apply elem_of_nil in Hg.
  - exact ex_leases_ok.
Defined.

(** ** What is shown can be applied *)

Section Show.
Context (to_lowercase : string → string).

Lemma parse_displayed us l :
  map_result upstream_parse l = Ok us →
  map_result upstream_parse (upstream_display <$> us) = Ok us.
Proof.
  intros H%map_result_Forall2. apply map_result_Forall2.
  induction H as [|s u l us Hs _ IH]; constructor; [|done]. by eapply upstream_parse_display_ok, upstream_parse_ok.
Qed.

Lemma group_config_again g c :
  (∀ s, to_lowercase (to_lowercase s) = to_lowercase s) →
  group_config_new to_lowercase g = Ok c →
  group_config_new to_lowercase (schema_group c) = Ok c ∧ dg_from_dhcp c = g_from_dhcp g.
Proof.
  intros Hlow. unfold group_config_new at 1.
  destruct (map_result upstream_parse (g_nameservers g)) as [us|] eqn:E; [|done]. intros [= <-].
  split; [|done]. unfold group_config_new, schema_group. simpl.
  rewrite (parse_displayed us (g_nameservers g)) by done. do 2 f_equal.
  rewrite <-list_fmap_compose. apply list_fmap_ext. intros i s _. apply Hlow.
Qed.

Lemma group_configs_again gs cs :
  (∀ s, to_lowercase (to_lowercase s) = to_lowercase s) →
  (∀ g, g ∈ gs → g_from_dhcp g = false) →
  map_result (group_config_new to_lowercase) gs = Ok cs →
  map_result (group_config_new to_lowercase) (schema_group <$> cs) = Ok cs ∧
  ∀ c, c ∈ cs → dg_from_dhcp c = false.
Proof.
  intros Hlow Hu H%map_result_Forall2. split.
  - apply map_result_Forall2. clear Hu. induction H as [|g c gs cs Hg _ IH]; constructor; [|done].
    by apply (group_config_again g c).
  - intros c Hc. destruct (Forall2_elem_r _ _ _ _ H Hc) as (g & Hg & Hn).
    apply (group_config_again g c) in Hn as [_ ->]; [|done]. by apply Hu.
Qed.

(** The shown groups without the generated ones are the static ones, when no static group
    was extended. *)
Lemma shown_user_groups base autos groups :
  merged_into to_lowercase autos base groups →
  (∀ c, c ∈ base → dg_from_dhcp c = false) → take (length base) groups = base →
  user_groups (schema_group <$> groups) = schema_group <$> base.
Proof.
  intros [_ Hnew _ _] Hb Ht. rewrite <-(take_drop (length base) groups), Ht.
  unfold user_groups. rewrite fmap_app, List.filter_app.
  fold (user_groups (schema_group <$> base)). rewrite user_groups_id.
  2:{ intros g (c & -> & Hc)%list_elem_of_fmap. by apply Hb. }
  rewrite <-app_nil_r. f_equal. apply elem_of_nil_inv. intros g.
  rewrite list_elem_of_In, filter_In, <-list_elem_of_In.
  intros [(c & -> & [i Hi]%list_elem_of_lookup)%list_elem_of_fmap Hd].
  rewrite lookup_drop in Hi. destruct (Hnew (length base + i)%nat c) as [Hc _ _ _]; [lia|done|].
  simpl in Hd. by rewrite Hc in Hd.
Qed.
End Show.

(** What [npt show] prints of a running cache can be applied back.  When no DHCP group
    had a domain or name in common with a group of the user, the shown configuration, less
    its generated groups as the merge drops them, builds the very same runtime
    configuration again under the same leases: nothing learned has become static. *)
Theorem shown_config_reapplies to_lowercase cache snapshot conf :
  server_config_new to_lowercase cache snapshot = Ok conf →
  (∀ s, to_lowercase (to_lowercase s) = to_lowercase s) →
  (∀ g, g ∈ cc_groups cache → g_from_dhcp g = false) →
  take (length (sc_static_groups conf)) (sc_groups conf) = sc_static_groups conf →
  server_config_new to_lowercase (with_groups user_groups (to_schema_config conf)) snapshot = Ok conf.
Proof.
  unfold server_config_new at 1. intros H Hlow Hu.
  destruct (bind_addr cache) as [bind|] eqn:Eb; [|done].
  destruct (map_result upstream_parse (fb_nameservers _)) as [fb|] eqn:Ef; [|done].
  destruct (if cc_auto_dns cache then _ else _) as [auto|] eqn:Ea; [|done].
  destruct (map_result (group_config_new to_lowercase) _) as [cs|] eqn:Ec; [|done].
  destruct (merge_groups _ _ _) as [groups|] eqn:Em; [|done]. injection H as <-. simpl. intros Ht.
  destruct (group_configs_again to_lowercase _ _ Hlow Hu Ec) as [Hcs Hcd].
  unfold server_config_new, with_groups, to_schema_config, bind_addr. simpl.
  rewrite socket_addr_parse_display by by eapply socket_addr_from_str_ok.
  rewrite (parse_displayed fb _ Ef), Ea.
  rewrite (shown_user_groups to_lowercase cs _ groups (merge_groups_merged _ _ _ _ Em) Hcd Ht).
  rewrite Hcs, Em. do 2 f_equal. by destruct (cc_doh cache) as [[]|].
Qed.

Definition ex_snapshot (groups : list NipartDnsUpstreamGroup) : AutoDnsSnapshot :=
  auto_dns_snapshot [] [] [] [] false groups.

Definition ex_dhcp_snapshot : AutoDnsSnapshot :=
  ex_snapshot [ex_dhcp_group "eth2" "corp.example" "203.0.113.1"].

Lemma shown_config_reapplies_witness :
  ∃ conf, server_config_new ex_lower ex_cache ex_dhcp_snapshot = Ok conf ∧
    length (sc_groups conf) = 3%nat ∧
    server_config_new ex_lower (with_groups user_groups (to_schema_config conf)) ex_dhcp_snapshot =
      Ok conf.
Proof.
  eexists. split; [vm_compute; reflexivity|]. split; [vm_compute; reflexivity|].
  apply (shown_config_reapplies ex_lower ex_cache ex_dhcp_snapshot).
  - vm_compute. reflexivity.
  - reflexivity.
  - intros g Hg. repeat (apply elem_of_cons in Hg as [->|Hg]; [reflexivity|]).
    by apply elem_of_nil in Hg.
  - vm_compute. reflexivity.
Defined.

(** What the theorem excludes.  A lease whose domain is that of a group of the user puts
    its server into that group, and the shown group is not marked as generated: applying
    what was shown makes the learned server a static one. *)
Definition option_of {A} (x : res A) : option A :=
  match x with
  | Ok a => Some a
  | Err _ => None
  end.

Definition shown_nameservers (c : DnsCacheConfig) (name : string) : list string :=
  mjoin (g_nameservers <$> List.filter (λ g, bool_decide (g_name g = name)) (cc_groups c)).

Example learned_server_becomes_static :
  let snapshot := ex_snapshot [ex_dhcp_group "eth1" "example.org" "198.51.100.53"] in
  (λ conf, shown_nameservers (with_groups user_groups (to_schema_config conf)) "home") <$>
    option_of (server_config_new ex_lower ex_cache snapshot) =
  Some ["192.0.2.53"; "198.51.100.53:53%eth1"].
Proof. vm_compute. reflexivity. Qed.

(** A lease with a domain of each of two groups of the user goes to the first of them with
    both domains, so that a domain is routed by two groups, which the validation refuses
    as ambiguous: what is shown of the running cache cannot be applied back. *)
Example two_groups_share_a_domain :
  let lease := dns_group "nipart-dhcp-eth1" ["example.org"; "ads.example"]
                 ["198.51.100.53:53%eth1"] false true in
  cache_validate ex_lower None ex_cache = Ok tt ∧
  cache_validate ex_lower None <$> (to_schema_config <$>
    option_of (server_config_new ex_lower ex_cache (ex_snapshot [lease]))) =
  Some (fail InvalidArgument).
Proof. split; vm_compute; reflexivity. Qed.

