(* ===== verification/DnsApply.v ===== *)
(** * DnsApply: applying, verifying and refreshing the DNS configuration

    The DNS part of the daemon: [apply_dns], [verify_dns] and [apply_dns_resolver] (the
    rollback) of [src/daemon/apply.rs], [apply_auto_dns_snapshot] of
    [src/daemon/dns_auto.rs], [restore_saved_dns_resolver] of
    [src/daemon/commander.rs] and the DNS part of [src/daemon/query.rs].  The host is
    /etc/resolv.conf and the cache worker; the functions compose the merge, the file and
    the cache server of MergedDns.v, ResolvConf.v and DnsServer.v. *)

From S2P Require Export ResolvConf DnsServer.

#[local] Open Scope Z_scope.

Record DnsHost : Type := dns_host {
  dh_file : file;
  dh_cache : NipartDnsWorker;
}.

(** The address an enabled cache listens on. *)
Definition cache_bind_ip (cache : option DnsCacheConfig) : option IpAddr :=
  match cache with
  | Some c => if cc_enabled c then socket_ip <$> bind_addr c else None
  | None => None
  end.

Section Apply.
Context (to_lowercase : string → string) (mudz_start : MudzConfig → res unit) (can_write : bool).

(** [apply_dns_resolver_conf], then [NipartDnsManager::apply_config] if there is one to be
    called. *)
Definition write_then (bind : option IpAddr)
    (static_servers searches options dynamic_servers dynamic_searches : list string)
    (k : DnsHost → res unit * DnsHost) (h : DnsHost) : res unit * DnsHost :=
  match write_static_dns can_write (dh_file h) bind static_servers searches options
          dynamic_servers dynamic_searches with
  | Err e => (Err e, h)
  | Ok f => k (dns_host f (dh_cache h))
  end.

Definition apply_cache (cache : option DnsCacheConfig) (auto_dns : AutoDnsSnapshot) (h : DnsHost)
    : res unit * DnsHost :=
  let '(r, w) := dns_apply_config mudz_start (Ok tt) to_lowercase cache auto_dns (dh_cache h) in
  (r, dns_host (dh_file h) w).

(** [NipartCommander::apply_dns], with the saved resolver state. *)
Definition apply_dns (saved : DnsResolver) (merged : MergedDnsResolver) (auto_dns : AutoDnsSnapshot)
    (h : DnsHost) : res unit * DnsHost :=
  let dynamic_searches := if merged_auto_search_allowed merged then as_domains auto_dns else [] in
  let effective_cache := option_or (md_cache merged) (dr_cache saved) in
  write_then (cache_bind_ip effective_cache) (md_servers merged) (md_searches merged)
    (md_options merged) (as_servers auto_dns) dynamic_searches
    (λ h, if is_unchanged merged then (Ok tt, h) else apply_cache (md_cache merged) auto_dns h) h.

(** [apply_auto_dns_snapshot]: the refresh between applies. *)
Definition apply_auto_dns_snapshot (resolver : DnsResolver) (snapshot : AutoDnsSnapshot) (h : DnsHost)
    : res unit * DnsHost :=
  let config := dr_config resolver in
  let dynamic_searches := if auto_search_allowed config then as_domains snapshot else [] in
  write_then (cache_bind_ip (dr_cache resolver)) (field_or_empty dc_server config)
    (field_or_empty dc_search config) (field_or_empty dc_options config) (as_servers snapshot)
    dynamic_searches (apply_cache (dr_cache resolver) snapshot) h.

(** [restore_saved_dns_resolver]: at the start of the daemon. *)
Definition restore_saved_dns_resolver (saved : DnsResolver) (auto_dns : AutoDnsSnapshot) (h : DnsHost)
    : res unit * DnsHost :=
  let config := dr_config saved in
  let dynamic_searches := if auto_search_allowed config then as_domains auto_dns else [] in
  write_then (cache_bind_ip (dr_cache saved)) (field_or_empty dc_server config)
    (field_or_empty dc_search config) (field_or_empty dc_options config) (as_servers auto_dns)
    dynamic_searches (apply_cache (dr_cache saved) auto_dns) h.

(** [apply_dns_resolver]: a previous state during rollback. *)
Definition apply_dns_resolver (resolver : DnsResolver) (dynamic_servers : list string) (h : DnsHost)
    : res unit * DnsHost :=
  let config := dr_config resolver in
  write_then (cache_bind_ip (dr_cache resolver)) (field_or_empty dc_server config)
    (field_or_empty dc_search config) (field_or_empty dc_options config) dynamic_servers []
    (apply_cache (dr_cache resolver) snapshot_default) h.
End Apply.

(** ** Verification *)

Definition all_present (expected running : list string) : res unit :=
  if forallb (λ x, bool_decide (x ∈ running)) expected then Ok tt else fail VerificationError.

Definition verify_dns (merged : MergedDnsResolver) (running : option DnsResolverClient) : res unit :=
  if is_unchanged merged then Ok tt
  else
    match running with
    | None => fail VerificationError
    | Some running =>
        let servers := default [] (dc_server running) in
        let? _ := all_present (md_servers merged) servers in
        let? _ := all_present (md_searches merged) (default [] (dc_search running)) in
        let? _ := all_present (md_options merged) (default [] (dc_options running)) in
        match ip_display <$> cache_bind_ip (md_cache merged) with
        | Some cache_ip =>
            if bool_decide (head servers = Some cache_ip) then Ok tt else fail VerificationError
        | None => Ok tt
        end
    end.

(** ** The apply *)

(** The state before the apply, as [apply_network_state] reads it: from the file only. *)
Definition pre_apply_dns (h : DnsHost) : res DnsResolver := query_running_dns (dh_file h).

(** [fill_saved_dns_resolver] and [fill_running_dns_cache]: the state [npt show] prints. *)
Definition fill_saved_dns_resolver (net_state saved : DnsResolver) : DnsResolver :=
  dns_resolver (dr_running net_state) (dr_config saved) (dr_cache saved).

Definition fill_running_dns_cache (w : NipartDnsWorker) (net_state : DnsResolver) : DnsResolver :=
  match to_schema_config <$> dw_running w with
  | Some cache => dns_resolver (dr_running net_state) (dr_config net_state) (Some cache)
  | None => net_state
  end.

(** ** The file after an apply *)

Lemma cache_bind_ip_ok cache ip : cache_bind_ip cache = Some ip → ip_ok ip.
Proof.
  unfold cache_bind_ip. destruct cache as [c|]; [|done]. destruct (cc_enabled c); [|done].
  unfold bind_addr. destruct (socket_addr_from_str _) as [a|] eqn:E; [|done]. intros [= <-].
  apply socket_addr_from_str_ok in E. destruct a; simpl in *; tauto.
Qed.

(** Nothing but the file and the cache worker is touched, and the file only once. *)
Lemma write_then_ok can_write bind ss se so ds de k h h' :
  write_then can_write bind ss se so ds de k h = (Ok tt, h') →
  ∃ f, write_static_dns can_write (dh_file h) bind ss se so ds de = Ok f ∧
       k (dns_host f (dh_cache h)) = (Ok tt, h').
Proof. unfold write_then. destruct (write_static_dns _ _ _ _ _ _ _ _) as [f|]; [|done]. eauto. Qed.

Lemma apply_cache_file low mudz cache auto h : dh_file (apply_cache low mudz cache auto h).2 = dh_file h.
Proof. unfold apply_cache. by destruct (dns_apply_config _ _ _ _ _ _). Qed.

Lemma apply_dns_ok low mudz can_write saved merged auto h h' :
  apply_dns low mudz can_write saved merged auto h = (Ok tt, h') →
  write_static_dns can_write (dh_file h)
    (cache_bind_ip (option_or (md_cache merged) (dr_cache saved))) (md_servers merged)
    (md_searches merged) (md_options merged) (as_servers auto)
    (if merged_auto_search_allowed merged then as_domains auto else []) = Ok (dh_file h').
Proof.
  unfold apply_dns. intros (f & Hf & Hk)%write_then_ok. rewrite Hf. f_equal.
  destruct (is_unchanged merged); [by injection Hk as <-|].
  pose proof (apply_cache_file low mudz (md_cache merged) auto (dns_host f (dh_cache h))) as H.
  by rewrite Hk in H.
Qed.

Lemma all_present_ok l k : (∀ x, x ∈ l → x ∈ k) → all_present l k = Ok tt.
Proof.
  intros H. unfold all_present. assert (forallb (λ x, bool_decide (x ∈ k)) l = true) as ->; [|done].
  apply forallb_forall. intros x Hx. apply bool_decide_eq_true, H. by apply list_elem_of_In.
Qed.

Lemma snd_tag o l : snd <$> tag o l = l.
Proof. unfold tag. by rewrite <-list_fmap_compose, list_fmap_id. Qed.

(** The search list of a configuration that fits on the line with its first entries kept. *)
Definition search_fits (searches : list string) : Prop :=
  Forall token searches ∧ str_len (join_string " " (dedup_values [] searches)) ≤ SEARCH_LIMIT.

Lemma written_searches_keep searches dynamic c x :
  search_fits searches → x ∈ searches → x ∈ written_searches searches dynamic c.
Proof.
  intros [Ht Hl] Hx. unfold written_searches, truncate_search_list.
  assert (Forall token (dedup_values [] searches)) as Hd.
  { apply Forall_forall. intros y [Hy _]%elem_of_dedup_values. by eapply Forall_forall in Ht. }
  assert (dedup_values [] searches `prefix_of` push_all_unique (push_all_unique
    (dedup_values [] searches) dynamic) (foreign_searches c)) as [k ->].
  { etransitivity; apply push_all_unique_spec. }
  assert (x ∈ dedup_values [] searches) as Hxd by by apply elem_of_dedup_values; set_solver.
  rewrite truncate_keeps; [set_solver|done|].
  rewrite search_cost_join; [exact Hl|done| |done].
  intros E. rewrite E in Hxd. by apply elem_of_nil in Hxd.
Qed.

Lemma static_head ip servers t :
  head (static_nameservers (Some ip) servers ++ t) = Some (ip_display ip).
Proof.
  unfold static_nameservers. change (ip_display <$> option_list (Some ip)) with [ip_display ip].
  by destruct (push_all_unique_spec servers [ip_display ip]) as ([k ->] & _ & _).
Qed.

(** C16: an applied DNS configuration verifies.  After a successful apply of a configuration
    whose nameservers are addresses, whose options are words and whose search domains fit on
    the line of the resolver, whatever was learned from DHCP and whatever other tools have
    in /etc/resolv.conf, the state read back from the file passes the verification: all
    static nameservers, search domains and options are there, and the address of an enabled
    cache is the first nameserver. *)
Theorem applied_dns_verifies low mudz can_write saved merged auto h h' post :
  apply_dns low mudz can_write saved merged auto h = (Ok tt, h') →
  query_running_dns (dh_file h') = Ok post →
  (∀ srv, srv ∈ md_servers merged → is_ip srv = true) →
  search_fits (md_searches merged) → Forall token (md_options merged) →
  Forall token (as_servers auto) →
  verify_dns merged (dr_running post) = Ok tt.
Proof.
  intros Ha%apply_dns_ok Hq Hs Hse Ho Hau. unfold verify_dns.
  destruct (is_unchanged merged); [done|].
  apply write_static_dns_reads in Ha as (c & c' & Hc & Hc' & _ & [Ws We Wo]); [|apply cache_bind_ip_ok| |done..].
  2:{ apply Forall_forall. intros x Hx. by apply is_ip_token, Hs. }
  unfold query_running_dns in Hq. rewrite Hc' in Hq. injection Hq as <-.
  set (bind := cache_bind_ip (option_or (md_cache merged) (dr_cache saved))) in *.
  cbn [dr_running dc_server dc_search dc_options default].
  assert (List.filter is_ip (static_nameservers bind (md_servers merged)) =
    static_nameservers bind (md_servers merged)) as Hfil.
  { apply filter_is_ip_id. intros x. unfold static_nameservers. rewrite elem_of_push_all.
    intros [Hx|Hx]; [|by apply Hs]. destruct bind as [ip|] eqn:Eb; [|by apply elem_of_nil in Hx].
    apply list_elem_of_singleton in Hx as ->. unfold is_ip.
    rewrite ip_parse_display by by eapply cache_bind_ip_ok. by apply bool_decide_eq_true. }
  rewrite Ws, We, Wo, Hfil, !fmap_app, !snd_tag.
  rewrite all_present_ok.
  2:{ intros x Hx. apply elem_of_app. left. unfold static_nameservers.
      apply elem_of_push_all. by right. }
  rewrite all_present_ok by (intros x; by apply written_searches_keep).
  rewrite all_present_ok.
  2:{ intros x Hx. apply elem_of_app. left. apply elem_of_dedup_values. set_solver. }
  destruct (cache_bind_ip (md_cache merged)) as [ip|] eqn:Ec; [|done]. cbn [fmap option_fmap option_map].
  assert (bind = Some ip) as ->.
  { unfold bind. by destruct (md_cache merged). }
  unfold default, from_option, id. rewrite static_head. by rewrite bool_decide_true.
Qed.

Definition ex_mudz (c : MudzConfig) : res unit := Ok tt.

Definition ex_saved : DnsResolver := dns_resolver None (Some (dns_client (Some ["192.0.2.1"]) None None)) None.

Definition ex_host : DnsHost :=
  dns_host (FileContent "# nipart: static
nameserver 192.0.2.1
# nipart: foreign
nameserver 203.0.113.53
") (dns_worker None).

Definition ex_merged (desired : DnsResolver) : MergedDnsResolver :=
  match query_running_dns (dh_file ex_host) with
  | Ok current =>
      match merged_dns_new desired current (Some ex_saved) with
      | Ok m => m
      | Err _ => merged_dns None dns_resolver_default None [] [] false [] [] [] None
      end
  | Err _ => merged_dns None dns_resolver_default None [] [] false [] [] [] None
  end.

Definition ex_auto : AutoDnsSnapshot := collect_auto_dns ex_lower ex_leases interfaces_default None.

Lemma applied_dns_verifies_witness :
  let merged := ex_merged (ex_resolver ["127.0.0.1"; "192.0.2.53"]) in
  ∃ h' post, apply_dns ex_lower ex_mudz true ex_saved merged ex_auto ex_host = (Ok tt, h') ∧
    is_unchanged merged = false ∧ verify_dns merged (dr_running post) = Ok tt.
Proof.
  intros merged. eexists. eexists. split; [vm_compute; reflexivity|].
  split; [vm_compute; reflexivity|].
  eapply (applied_dns_verifies ex_lower ex_mudz true ex_saved merged ex_auto ex_host).
  - vm_compute. reflexivity.
  - vm_compute. reflexivity.
  - intros srv H. assert (forallb is_ip (md_servers merged) = true) as Hf by (vm_compute; reflexivity).
    eapply forallb_forall in Hf; [exact Hf|]. by apply list_elem_of_In.
  - split; [apply (bool_decide_unpack _); vm_compute; reflexivity|]. vm_compute. discriminate.
  - apply (bool_decide_unpack _). vm_compute. reflexivity.
  - apply (bool_decide_unpack _). vm_compute. reflexivity.
Defined.

(** The nameserver of a link-local address with its interface, which the documentation of
    [DnsResolverClient::server] gives and the validation accepts, never verifies: reading the
    file back drops it, because it is no address. *)
Definition verified (desired : DnsResolver) : res unit :=
  let merged := ex_merged desired in
  let '(r, h) := apply_dns ex_lower ex_mudz true ex_saved merged ex_auto ex_host in
  let? _ := r in
  let? post := query_running_dns (dh_file h) in
  verify_dns merged (dr_running post).

Definition ex_client (servers searches options : list string) : DnsResolver :=
  dns_resolver None (Some (dns_client (Some servers) (Some searches) (Some options))) None.

Example link_local_server_never_verifies :
  let desired := ex_client ["fe80::1%eth1"] [] [] in
  resolver_validate ex_lower None desired = Ok tt ∧ verified desired = fail VerificationError.
Proof. split; vm_compute; reflexivity. Qed.

(** Neither does an accepted option whose value has a space in it, nor a search domain that
    does not fit on the line. *)
Example spaced_option_never_verifies :
  let desired := ex_client [] [] ["ndots:2 rotate"] in
  resolver_validate ex_lower None desired = Ok tt ∧ verified desired = fail VerificationError.
Proof. split; vm_compute; reflexivity. Qed.

(** Rolling back a failed apply restores what [query_running_dns] read before it, which has
    no static configuration: the static nameserver that was in the file is gone. *)
Definition nameservers_after_rollback (desired : DnsResolver) : res (list string) :=
  let? revert_dns := pre_apply_dns ex_host in
  let? merged := merged_dns_new desired revert_dns (Some ex_saved) in
  let '(_, h) := apply_dns ex_lower ex_mudz true ex_saved merged snapshot_default ex_host in
  let '(_, h) := apply_dns_resolver ex_lower ex_mudz true revert_dns (apply_dynamic_servers merged) h in
  let? conf := rc_read (dh_file h) in
  Ok (snd <$> rc_servers conf).

Example rollback_forgets_static_servers :
  (let? conf := rc_read (dh_file ex_host) in Ok (snd <$> rc_servers conf)) =
    Ok ["192.0.2.1"; "203.0.113.53"] ∧
  nameservers_after_rollback (ex_client ["192.0.2.99"] [] []) = Ok ["203.0.113.53"; "203.0.113.53"].
Proof. split; vm_compute; reflexivity. Qed.

(** ** The refresh after an apply *)

Lemma merged_dns_desired desired current saved m :
  merged_dns_new desired current saved = Ok m →
  md_cache m = with_groups user_groups <$> dr_cache desired ∧
  (md_search_defined m = false → md_searches m = []) ∧
  (is_unchanged m = true → dr_cache desired = None).
Proof.
  assert (∀ (c : option DnsResolverClient), bool_decide (is_Some (c ≫= dc_search)) = false →
    field_or_empty dc_search c = []) as Hf.
  { intros c H. unfold field_or_empty. by destruct (c ≫= dc_search). }
  assert (∀ d : DnsResolver, (if resolver_is_empty d then None else Some d) ≫= dr_cache = dr_cache d) as Hd.
  { intros d. destruct (resolver_is_empty d) eqn:E; [|done]. unfold resolver_is_empty in E.
    rewrite !andb_true_iff, !bool_decide_eq_true in E. by destruct E as [_ ->]. }
  assert (∀ d : DnsResolver, bool_decide ((if resolver_is_empty d then None else Some d) = None) = true →
    dr_cache d = None) as Hu.
  { intros d H. rewrite <-Hd. apply bool_decide_eq_true in H. by rewrite H. }
  unfold merged_dns_new. simpl. intros H.
  assert (∀ (m : MergedDnsResolver) , md_desired m = (if resolver_is_empty (strip_from_dhcp_groups desired)
      then None else Some (strip_from_dhcp_groups desired)) →
    md_cache m = with_groups user_groups <$> dr_cache desired ∧
    (is_unchanged m = true → dr_cache desired = None)) as Hm.
  { intros m' E. unfold md_cache, is_unchanged. rewrite E. split; [apply Hd|].
    intros Hx%Hu. simpl in Hx. by destruct (dr_cache desired). }
  destruct (dr_config desired) as [conf|]; [destruct (negb (client_is_empty conf))|];
    injection H as <-; (split; [by apply Hm|split; [|by apply Hm]]); simpl.
  - intros [Hx Hy]%orb_false_iff. destruct (dc_search conf); [done|]. by apply Hf.
  - done.
  - apply Hf.
Qed.

(** Starting the cache does not depend on what ran before. *)
Lemma apply_cache_again low mudz c auto h1 h2 r1 r2 :
  apply_cache low mudz (Some c) auto h1 = (Ok tt, r1) →
  apply_cache low mudz (Some c) auto h2 = (Ok tt, r2) → dh_cache r1 = dh_cache r2.
Proof.
  unfold apply_cache, dns_apply_config. destruct (cc_enabled c); simpl.
  2:{ by intros [= <-] [= <-]. }
  destruct (server_config_new low c auto) as [conf|]; [|done]. unfold start_server. simpl.
  destruct (mudz (mudz_config conf)); simpl; [by intros [= <-] [= <-]|done].
Qed.

(** The refresh agrees with the apply.  After a successful apply, the refresh of the DNS
    information, which knows only what the apply persisted, writes the very file the apply wrote
    when nothing new was learned, and starts the very cache the apply started; no search
    domain, server or option appears or disappears between the two. *)
Theorem refresh_agrees_with_apply low mudz can_write desired current saved merged auto h h1 h2 c :
  merged_dns_new desired current (Some saved) = Ok merged →
  apply_dns low mudz can_write saved merged auto h = (Ok tt, h1) →
  apply_auto_dns_snapshot low mudz can_write (dns_state_for_save merged) auto h1 = (Ok tt, h2) →
  rc_read (dh_file h) = Ok c → foreign_searches c = [] →
  Forall token (md_servers merged) → Forall token (md_options merged) →
  Forall token (as_servers auto) →
  dh_file h2 = dh_file h1 ∧ (is_Some (dr_cache desired) → dh_cache h2 = dh_cache h1).
Proof.
  intros Hm Ha Hr Hc Hf Hs Ho Hau. pose proof (apply_dns_ok _ _ _ _ _ _ _ _ Ha) as Hw.
  destruct (merged_dns_desired _ _ _ _ Hm) as (Hcache & Hsearch & Hun).
  assert (md_cache_for_save merged = option_or (md_cache merged) (dr_cache saved)) as Hsave.
  { rewrite Hcache. by apply merged_dns_cache in Hm. }
  unfold apply_auto_dns_snapshot in Hr. apply write_then_ok in Hr as (f & Hf2 & Hk).
  assert (auto_search_allowed (dr_config (dns_state_for_save merged)) =
    merged_auto_search_allowed merged) as Hallow by apply dns_saved_allowed.
  rewrite Hallow in Hf2. cbn [dns_state_for_save dr_cache dr_config] in Hf2, Hk.
  rewrite Hsave in Hf2, Hk. unfold field_or_empty in Hf2. cbn in Hf2.
  assert (default [] (if md_search_defined merged then Some (md_searches merged) else None) =
    md_searches merged) as He by (destruct (md_search_defined merged); [done|by rewrite Hsearch]).
  rewrite He in Hf2.
  pose proof (write_again can_write (dh_file h) _ _ _ _ _ _ _ c (λ ip, cache_bind_ip_ok _ ip)
    Hs Ho Hau Hw Hc Hf) as Hstable.
  rewrite Hstable in Hf2. injection Hf2 as <-. split.
  - pose proof (apply_cache_file low mudz (option_or (md_cache merged) (dr_cache saved)) auto
      (dns_host (dh_file h1) (dh_cache h1))) as H.
    by rewrite Hk in H.
  - intros [cc Hcc]. rewrite Hcache, Hcc in Hk. cbn [fmap option_fmap option_map option_or] in Hk.
    unfold apply_dns in Ha. apply write_then_ok in Ha as (f & _ & Ha).
    destruct (is_unchanged merged); [by rewrite Hun in Hcc|].
    rewrite Hcache, Hcc in Ha. by eapply apply_cache_again.
Qed.

Lemma refresh_agrees_with_apply_witness :
  let desired := ex_resolver ["127.0.0.1"; "192.0.2.53"] in
  ∃ h1 h2,
    apply_dns ex_lower ex_mudz true ex_saved (ex_merged desired) ex_auto ex_host = (Ok tt, h1) ∧
    is_Some (dw_running (dh_cache h1)) ∧
    dh_file h2 = dh_file h1 ∧ (is_Some (dr_cache desired) → dh_cache h2 = dh_cache h1).
Proof.
  intros desired. eexists. eexists. split; [vm_compute; reflexivity|].
  split; [eexists; vm_compute; reflexivity|].
  eapply (refresh_agrees_with_apply ex_lower ex_mudz true desired
    (dns_resolver (Some (dns_client (Some ["192.0.2.1"; "203.0.113.53"]) (Some []) (Some []))) None None)
    ex_saved (ex_merged desired) ex_auto ex_host).
  - vm_compute. reflexivity.
  - vm_compute. reflexivity.
  - vm_compute. reflexivity.
  - vm_compute. reflexivity.
  - vm_compute. reflexivity.
  - apply (bool_decide_unpack _). vm_compute. reflexivity.
  - apply (bool_decide_unpack _). vm_compute. reflexivity.
  - apply (bool_decide_unpack _). vm_compute. reflexivity.
Defined.
