(* ===== verification/Route.v ===== *)
(** * Route: route entries and route lists

    [src/lib/schema/route.rs]: the route entry with its ordering key, its
    matching against another entry, its sanitizing, and [Routes] with
    [validate], [remove_ignored_routes], [mark_route_as_ignored_ifaces] and
    [resolve_vrf_name].  Log messages and the text of the errors are not
    modelled; [u16], [u32] and [i64] fields are integers. *)

From S2P Require Export Interfaces.

#[local] Open Scope Z_scope.

Definition DEFAULT_TABLE_ID : Z := 254.
Definition LOOPBACK_IFACE_NAME : string := "lo".
Definition USE_DEFAULT_ROUTE_TABLE : Z := 0.

Inductive RouteState : Type := RAbsent | RIgnore | RSaved.

#[export] Instance RouteState_eq_dec : EqDecision RouteState.
Proof. solve_decision. Defined.

Inductive RouteType : Type := Blackhole | Unreachable | Prohibit.

#[export] Instance RouteType_eq_dec : EqDecision RouteType.
Proof. solve_decision. Defined.

Definition RTN_UNICAST : Z := 1.

(** [From<RouteType> for u8]. *)
Definition route_type_to_u8 (t : RouteType) : Z :=
  match t with Blackhole => 6 | Unreachable => 7 | Prohibit => 8 end.

Inductive RouteProtocol : Type :=
| PUnspec | PIcmpRedirect | PKernel | PBoot | PStatic | PGated | PRa | PMrt | PZebra
| PBird | PDnRouted | PXorp | PNtk | PDhcp | PMrouted | PKeepAlived | PBabel | PBgp
| PIsis | POspf | PRip | PEigrp
| POther (v : Z).

#[export] Instance RouteProtocol_eq_dec : EqDecision RouteProtocol.
Proof. solve_decision. Defined.

(** [From<u8> for RouteProtocol]. *)
Definition protocol_from_u8 (value : Z) : RouteProtocol :=
  match value with
  | 0 => PUnspec | 1 => PIcmpRedirect | 2 => PKernel | 3 => PBoot | 4 => PStatic
  | 8 => PGated | 9 => PRa | 10 => PMrt | 11 => PZebra | 12 => PBird | 13 => PDnRouted
  | 14 => PXorp | 15 => PNtk | 16 => PDhcp | 17 => PMrouted | 18 => PKeepAlived
  | 42 => PBabel | 186 => PBgp | 187 => PIsis | 188 => POspf | 189 => PRip
  | 192 => PEigrp
  | value => POther value
  end.

(** [From<RouteProtocol> for u8]. *)
Definition protocol_to_u8 (p : RouteProtocol) : Z :=
  match p with
  | PUnspec => 0 | PIcmpRedirect => 1 | PKernel => 2 | PBoot => 3 | PStatic => 4
  | PGated => 8 | PRa => 9 | PMrt => 10 | PZebra => 11 | PBird => 12 | PDnRouted => 13
  | PXorp => 14 | PNtk => 15 | PDhcp => 16 | PMrouted => 17 | PKeepAlived => 18
  | PBabel => 42 | PBgp => 186 | PIsis => 187 | POspf => 188 | PRip => 189
  | PEigrp => 192
  | POther value => value
  end.

Record RouteEntry : Type := route_entry {
  rt_state : option RouteState;
  rt_destination : option string;
  rt_next_hop_iface : option string;
  rt_next_hop_addr : option string;
  rt_metric : option Z;
  rt_table_id : option Z;
  rt_weight : option Z;
  rt_route_type : option RouteType;
  rt_cwnd : option Z;
  rt_source : option string;
  rt_initcwnd : option Z;
  rt_initrwnd : option Z;
  rt_mtu : option Z;
  rt_quickack : option bool;
  rt_advmss : option Z;
  rt_onlink : option bool;
  rt_vrf_name : option string;
  rt_protocol : option RouteProtocol;
}.

#[export] Instance RouteEntry_eq_dec : EqDecision RouteEntry.
Proof. solve_decision. Defined.

Definition route_default : RouteEntry :=
  route_entry None None None None None None None None None None None None None None
    None None None None.

(** Assignments to single fields. *)
Definition set_rt_state (x : option RouteState) (r : RouteEntry) : RouteEntry :=
  let 'route_entry _ d i a m t w ty c s ic ir mt q ad o v p := r in
  route_entry x d i a m t w ty c s ic ir mt q ad o v p.
Definition set_rt_destination (x : option string) (r : RouteEntry) : RouteEntry :=
  let 'route_entry st _ i a m t w ty c s ic ir mt q ad o v p := r in
  route_entry st x i a m t w ty c s ic ir mt q ad o v p.
Definition set_rt_next_hop_iface (x : option string) (r : RouteEntry) : RouteEntry :=
  let 'route_entry st d _ a m t w ty c s ic ir mt q ad o v p := r in
  route_entry st d x a m t w ty c s ic ir mt q ad o v p.
Definition set_rt_next_hop_addr (x : option string) (r : RouteEntry) : RouteEntry :=
  let 'route_entry st d i _ m t w ty c s ic ir mt q ad o v p := r in
  route_entry st d i x m t w ty c s ic ir mt q ad o v p.
Definition set_rt_table_id (x : option Z) (r : RouteEntry) : RouteEntry :=
  let 'route_entry st d i a m _ w ty c s ic ir mt q ad o v p := r in
  route_entry st d i a m x w ty c s ic ir mt q ad o v p.
Definition set_rt_source (x : option string) (r : RouteEntry) : RouteEntry :=
  let 'route_entry st d i a m t w ty c _ ic ir mt q ad o v p := r in
  route_entry st d i a m t w ty c x ic ir mt q ad o v p.
Definition set_rt_onlink (x : option bool) (r : RouteEntry) : RouteEntry :=
  let 'route_entry st d i a m t w ty c s ic ir mt q ad _ v p := r in
  route_entry st d i a m t w ty c s ic ir mt q ad x v p.

Definition is_absent (r : RouteEntry) : bool := bool_decide (rt_state r = Some RAbsent).
Definition is_ignore (r : RouteEntry) : bool := bool_decide (rt_state r = Some RIgnore).
Definition is_saved (r : RouteEntry) : bool := bool_decide (rt_state r = Some RSaved).

(** [self.x.is_some() && self.x != other.x]. *)
Definition differs `{EqDecision A} (x y : option A) : bool :=
  match x with Some _ => negb (bool_decide (x = y)) | None => false end.

(** [RouteEntry::is_match]. *)
Definition is_match (self other : RouteEntry) : bool :=
  if negb (bool_decide (rt_destination self = Some "")) &&
     differs (rt_destination self) (rt_destination other) then false
  else if differs (rt_next_hop_iface self) (rt_next_hop_iface other) then false
  else if differs (rt_next_hop_addr self) (rt_next_hop_addr other) then false
  else if negb (bool_decide (rt_table_id self = Some USE_DEFAULT_ROUTE_TABLE)) &&
     differs (rt_table_id self) (rt_table_id other) then false
  else if differs (rt_weight self) (rt_weight other) then false
  else if differs (rt_route_type self) (rt_route_type other) then false
  else if differs (rt_cwnd self) (rt_cwnd other) then false
  else if differs (rt_source self) (rt_source other) then false
  else if differs (rt_initcwnd self) (rt_initcwnd other) then false
  else if differs (rt_initrwnd self) (rt_initrwnd other) then false
  else if differs (rt_mtu self) (rt_mtu other) then false
  else if differs (rt_quickack self) (rt_quickack other) then false
  else if differs (rt_advmss self) (rt_advmss other) then false
  else if differs (rt_onlink self) (rt_onlink other) then false
  else if differs (rt_vrf_name self) (rt_vrf_name other) then false
  else true.

(** [route_protocol_sort_key]. *)
Definition route_protocol_sort_key (p : option RouteProtocol) : Z :=
  default 0 (protocol_to_u8 <$> p).

(** [RouteEntry::sort_key]. *)
Definition sort_key (r : RouteEntry) : list bool * (list string * list Z) :=
  ([ negb (is_absent r);
     negb (default false (is_ipv6_addr <$> rt_destination r));
     default false (rt_quickack r);
     default false (rt_onlink r) ],
   ([ default LOOPBACK_IFACE_NAME (rt_next_hop_iface r);
      default "" (rt_destination r);
      default "" (rt_next_hop_addr r);
      default "" (rt_source r) ],
    [ default DEFAULT_TABLE_ID (rt_table_id r);
      default 0 (rt_cwnd r);
      default 0 (rt_initcwnd r);
      default 0 (rt_initrwnd r);
      default 0 (rt_mtu r);
      default 0 (rt_weight r);
      default 0 (route_type_to_u8 <$> rt_route_type r);
      default 0 (rt_advmss r);
      route_protocol_sort_key (rt_protocol r) ])).

(** The order of tuples and vectors. *)
Definition sort_key_cmp :
    list bool * (list string * list Z) → list bool * (list string * list Z) → comparison :=
  pair_cmp (list_cmp bool_cmp) (pair_cmp (list_cmp string_cmp) (list_cmp Z.compare)).

#[export] Instance sort_key_cmp_total : TotalCmp sort_key_cmp.
Proof. unfold sort_key_cmp. apply _. Qed.

(** [PartialEq for RouteEntry], [Ord for RouteEntry] and the hash sets of
    route entries all go through [sort_key]. *)
Definition route_eqb : RouteEntry → RouteEntry → bool := key_eqb sort_key_cmp sort_key.
Definition route_le : RouteEntry → RouteEntry → Prop := key_le sort_key_cmp sort_key.
Definition sort_routes : list RouteEntry → list RouteEntry := sort_by sort_key_cmp sort_key.
Definition dedup_routes : list RouteEntry → list RouteEntry := dedup sort_key_cmp sort_key.
Definition routes_insert : RouteEntry → list RouteEntry → list RouteEntry :=
  hset_insert sort_key_cmp sort_key.
Abbreviation insert_all := (hset_insert_all sort_key_cmp sort_key).
Abbreviation routes_distinct := (keys_distinct sort_key).

Lemma routes_insert_distinct r l : routes_distinct l → routes_distinct (routes_insert r l).
Proof. exact (hset_insert_distinct sort_key_cmp sort_key r l). Qed.

Lemma routes_insert_keeps r x l : x ∈ l → x ∈ routes_insert r l.
Proof. exact (hset_insert_keeps sort_key_cmp sort_key r x l). Qed.

Lemma elem_of_routes_insert r x l : x ∈ routes_insert r l → x = r ∨ x ∈ l.
Proof. exact (elem_of_hset_insert sort_key_cmp sort_key r x l). Qed.

Lemma routes_insert_key r l : sort_key r ∈ sort_key <$> routes_insert r l.
Proof. exact (hset_insert_key sort_key_cmp sort_key r l). Qed.

Lemma insert_all_distinct l : routes_distinct (insert_all l []).
Proof. apply (hset_insert_all_distinct sort_key_cmp sort_key l). constructor. Qed.

Lemma elem_of_insert_all l r :
  r ∈ insert_all l [] ↔ ∃ l1 l2, l = l1 ++ r :: l2 ∧ sort_key r ∉ sort_key <$> l1.
Proof.
  rewrite (elem_of_hset_insert_all_first sort_key_cmp sort_key l r []).
  split; [intros [[]%elem_of_nil|H]; exact H|by right].
Qed.

Lemma insert_all_sub l r : r ∈ insert_all l [] → r ∈ l.
Proof. intros (l1 & l2 & -> & _)%elem_of_insert_all. set_solver. Qed.

Lemma insert_all_key l r : r ∈ l → sort_key r ∈ sort_key <$> insert_all l [].
Proof. intros H. apply (hset_insert_all_key sort_key_cmp sort_key). by left. Qed.

Lemma sort_routes_perm l : sort_routes l ≡ₚ l.
Proof. apply sort_by_perm. Qed.

Lemma sort_routes_sorted l : StronglySorted route_le (sort_routes l).
Proof. exact (sort_by_sorted sort_key_cmp sort_key l). Qed.

Lemma sort_routes_any_order l k :
  routes_distinct l → k ≡ₚ l → sort_routes k = sort_routes l.
Proof.
  intros Hd Hp. symmetry.
  exact (sort_by_order_irrelevant sort_key_cmp sort_key l k Hd (symmetry Hp)).
Qed.

Lemma elem_of_sort_routes r l : r ∈ sort_routes l ↔ r ∈ l.
Proof. apply elem_of_sort_by. Qed.

Definition rt_is_ipv6 (r : RouteEntry) : bool :=
  bool_decide (is_ipv6_addr <$> rt_destination r = Some true).

Definition is_unicast (r : RouteEntry) : bool :=
  match rt_route_type r with
  | None => true
  | Some t => route_type_to_u8 t =? RTN_UNICAST
  end.

(** The three address rewrites at the start of [sanitize]. *)
Definition sanitize_destination (dst : option string) : res (option string) :=
  match dst with
  | None => Ok None
  | Some dst =>
      if String.eqb dst "" then Ok None
      else let? d := sanitize_ip_network dst in Ok (Some d)
  end.

Definition sanitize_ip_addr (a : option string) : res (option string) :=
  match a with
  | None => Ok None
  | Some a =>
      match ip_from_str a with
      | Some i => Ok (Some (ip_display i))
      | None => fail InvalidArgument
      end
  end.

Definition check_weight (r : RouteEntry) : res unit :=
  match rt_weight r with
  | Some weight =>
      if negb ((1 <=? weight) && (weight <=? 256)) then fail InvalidArgument
      else match rt_destination r with
           | Some dst => if is_ipv6_addr dst then fail NoSupport else Ok tt
           | None => Ok tt
           end
  | None => Ok tt
  end.

Definition check_nonzero (x : option Z) : res unit :=
  if bool_decide (x = Some 0) then fail InvalidArgument else Ok tt.

(** [RouteEntry::sanitize]. *)
Definition sanitize (self : RouteEntry) : res RouteEntry :=
  let? d := sanitize_destination (rt_destination self) in
  let self := set_rt_destination d self in
  let? via := sanitize_ip_addr (rt_next_hop_addr self) in
  let self := set_rt_next_hop_addr via self in
  let? src := sanitize_ip_addr (rt_source self) in
  let self := set_rt_source src self in
  let? _ := check_weight self in
  let? _ := check_nonzero (rt_cwnd self) in
  let? _ := check_nonzero (rt_mtu self) in
  let? _ := check_nonzero (rt_advmss self) in
  Ok self.

(** [validate_route_dst]. *)
Definition validate_route_dst (route : RouteEntry) : res unit :=
  match rt_destination route with
  | Some dst =>
      if is_ipv6_addr dst then Ok tt
      else
        let ip_net := str_split slash dst in
        match ipv4_from_str (nth 0 ip_net "") with
        | None => fail InvalidArgument
        | Some ip_addr =>
            if nth 0 (octets ip_addr) 0 =? 0 then
              if str_contains slash dst then
                match parse_i32 (nth 1 ip_net "") with
                | Some prefix =>
                    if (8 <=? prefix) && is_unicast route then fail InvalidArgument
                    else Ok tt
                | None => fail InvalidArgument
                end
              else if is_unicast route then fail InvalidArgument
              else Ok tt
            else Ok tt
        end
  | None => Ok tt
  end.

(** ** [Routes] *)

Record Routes : Type := routes {
  running : option (list RouteEntry);
  config : option (list RouteEntry);
}.

Definition routes_default : Routes := routes None None.

Definition routes_is_empty (self : Routes) : bool :=
  match config self with Some [] | None => true | Some _ => false end.

(** The body of the loop of [Routes::validate]. *)
Definition validate_route (route : RouteEntry) : res unit :=
  let? _ :=
    (if negb (is_absent route) then
       if negb (is_unicast route) &&
          (match rt_next_hop_iface route with
           | Some i => negb (String.eqb i LOOPBACK_IFACE_NAME)
           | None => false
           end || bool_decide (is_Some (rt_next_hop_addr route)))
       then fail InvalidArgument
       else if bool_decide (rt_next_hop_iface route = None) && is_unicast route
       then fail NoSupport
       else Ok tt
     else Ok tt) in
  validate_route_dst route.

(** [Routes::validate]. *)
Definition validate (self : Routes) : res unit :=
  match config self with
  | Some l => let? _ := map_result validate_route l in Ok tt
  | None => Ok tt
  end.

(** [Routes::remove_ignored_routes]. *)
Definition remove_ignored_routes (self : Routes) : Routes :=
  let retain := List.filter (λ rt, negb (is_ignore rt)) in
  routes (retain <$> running self) (retain <$> config self).

(** [Routes::mark_route_as_ignored_ifaces]. *)
Definition mark_route_as_ignored_ifaces (self : Routes) (ifaces : Interfaces) : Routes :=
  let ignored_ifaces :=
    omap (λ iface, if iface_is_ignore iface && negb (iface_is_userspace iface)
                   then Some (iface_name iface) else None) (interfaces_iter ifaces) in
  let mark rt :=
    match rt_next_hop_iface rt with
    | Some iface => if bool_decide (iface ∈ ignored_ifaces)
                    then set_rt_state (Some RIgnore) rt else rt
    | None => rt
    end in
  let mark_all (rts : list RouteEntry) := mark <$> rts in
  routes (mark_all <$> running self) (mark_all <$> config self).

(** The names of the VRF interfaces that are [down], and that are [absent]. *)
Definition vrf_names (f : Interface → bool) (mi : MergedInterfaces) : list string :=
  omap (λ e : string * MergedInterface,
    let i := mi_merged e.2 in
    if f i && bool_decide (iface_type i = TVrf) then Some (iface_name i) else None)
    (kernel_ifaces mi).

(** [vrf_name_to_table_id]: a name collected twice keeps the later entry. *)
Definition vrf_table_of (i : Interface) : option (string * Z) :=
  if iface_is_up i then
    match i with
    | IfVrf b vrf => pair (bi_name b) <$> (vrf ≫= vrf_table_id)
    | _ => None
    end
  else None.

Definition vrf_tables (mi : MergedInterfaces) : gmap string Z :=
  foldl (λ m e, <[e.1 := e.2]> m) ∅
    (omap (λ e : string * MergedInterface, vrf_table_of (mi_merged e.2)) (kernel_ifaces mi)).

Definition resolve_route_vrf (mi : MergedInterfaces) (rt : RouteEntry) : res RouteEntry :=
  match rt_vrf_name rt with
  | None => Ok rt
  | Some vrf_name =>
      if bool_decide (vrf_name ∈ vrf_names iface_is_down mi) then fail InvalidArgument
      else if bool_decide (vrf_name ∈ vrf_names iface_is_absent mi)
      then fail InvalidArgument
      else
        match vrf_tables mi !! vrf_name with
        | None => fail InvalidArgument
        | Some table_id =>
            if differs (rt_table_id rt) (Some table_id) then fail InvalidArgument
            else Ok (set_rt_table_id (Some table_id) rt)
        end
  end.

(** [Routes::resolve_vrf_name]. *)
Definition resolve_vrf_name (self : Routes) (mi : MergedInterfaces) : res Routes :=
  match config self with
  | None => Ok self
  | Some l =>
      let? l := map_result (resolve_route_vrf mi) l in
      Ok (routes (running self) (Some l))
  end.

(** ** Matching *)

(** A field of the pattern is a wildcard or agrees with the entry's. *)
Definition agrees {A} (x y : option A) : Prop := x = None ∨ x = y.

Lemma differs_false `{EqDecision A} (x y : option A) : differs x y = false ↔ agrees x y.
Proof.
  unfold agrees. destruct x as [x|]; simpl; [|naive_solver].
  rewrite negb_false_iff, bool_decide_eq_true. naive_solver.
Qed.

Lemma agrees_refl {A} (x : option A) : agrees x x.
Proof. by right. Qed.

Lemma agrees_trans {A} (x y z : option A) : agrees x y → agrees y z → agrees x z.
Proof. unfold agrees. naive_solver congruence. Qed.

#[export] Hint Resolve agrees_refl agrees_trans : nipart.

(** What it means for [self] to match [other]. *)
Record matches (self other : RouteEntry) : Prop := {
  m_destination : rt_destination self = Some "" ∨
    agrees (rt_destination self) (rt_destination other);
  m_next_hop_iface : agrees (rt_next_hop_iface self) (rt_next_hop_iface other);
  m_next_hop_addr : agrees (rt_next_hop_addr self) (rt_next_hop_addr other);
  m_table_id : rt_table_id self = Some USE_DEFAULT_ROUTE_TABLE ∨
    agrees (rt_table_id self) (rt_table_id other);
  m_weight : agrees (rt_weight self) (rt_weight other);
  m_route_type : agrees (rt_route_type self) (rt_route_type other);
  m_cwnd : agrees (rt_cwnd self) (rt_cwnd other);
  m_source : agrees (rt_source self) (rt_source other);
  m_initcwnd : agrees (rt_initcwnd self) (rt_initcwnd other);
  m_initrwnd : agrees (rt_initrwnd self) (rt_initrwnd other);
  m_mtu : agrees (rt_mtu self) (rt_mtu other);
  m_quickack : agrees (rt_quickack self) (rt_quickack other);
  m_advmss : agrees (rt_advmss self) (rt_advmss other);
  m_onlink : agrees (rt_onlink self) (rt_onlink other);
  m_vrf_name : agrees (rt_vrf_name self) (rt_vrf_name other);
}.

Lemma if_false_else_true (b c : bool) :
  (if b then false else c) = true ↔ b = false ∧ c = true.
Proof. destruct b; naive_solver. Qed.

Lemma wild_false (P : Prop) `{!Decision P} (b : bool) :
  negb (bool_decide P) && b = false ↔ P ∨ b = false.
Proof.
  rewrite andb_false_iff, negb_false_iff, bool_decide_eq_true. naive_solver.
Qed.

Lemma is_match_matches self other : is_match self other = true ↔ matches self other.
Proof.
  unfold is_match. rewrite !if_false_else_true, !wild_false, !differs_false.
  split; [intros H; decompose_Forall_hyps; constructor; tauto|].
  intros []; tauto.
Qed.

Lemma matches_refl r : matches r r.
Proof. constructor; auto with nipart. Qed.

Lemma matches_trans a b c : matches a b → matches b c → matches a c.
Proof.
  assert (∀ {A} (w : A) (x y z : option A), x = Some w ∨ agrees x y →
    y = Some w ∨ agrees y z → x = Some w ∨ agrees x z) as Hw.
  { unfold agrees. naive_solver congruence. }
  intros [] []; constructor; eauto with nipart.
Qed.


Definition ex_route (dst : string) (iface : string) (table : Z) (metric : Z) : RouteEntry :=
  route_entry None (Some dst) (Some iface) (Some "192.0.2.1") (Some metric) (Some table)
    None None None None None None None None None None None None.


(** ** Sanitizing a route *)

Definition canonical_addr (a : string) : Prop := ∃ i, ip_ok i ∧ a = ip_display i.

(** What a sanitized route satisfies. *)
Record route_sane (r : RouteEntry) : Prop := {
  rs_destination : ∀ d, rt_destination r = Some d → canonical_network d;
  rs_next_hop_addr : ∀ a, rt_next_hop_addr r = Some a → canonical_addr a;
  rs_source : ∀ a, rt_source r = Some a → canonical_addr a;
  rs_weight : ∀ w, rt_weight r = Some w → 1 ≤ w ≤ 256 ∧ rt_is_ipv6 r = false;
  rs_cwnd : rt_cwnd r ≠ Some 0;
  rs_mtu : rt_mtu r ≠ Some 0;
  rs_advmss : rt_advmss r ≠ Some 0;
}.

Lemma canonical_network_nonempty d : canonical_network d → String.eqb d "" = false.
Proof.
  intros Hd. destruct (String.eqb_spec d "") as [->|]; [|done].
  by apply canonical_network_fixed in Hd.
Qed.

Lemma sanitize_destination_canonical dst dst' :
  sanitize_destination dst = Ok dst' → ∀ d, dst' = Some d → canonical_network d.
Proof.
  intros H d ->. destruct dst as [dst|]; [|done]. simpl in H.
  destruct (String.eqb dst ""); [done|].
  destruct (sanitize_ip_network dst) as [t|] eqn:E; [|done].
  injection H as ->. by eapply sanitize_ip_network_network.
Qed.

Lemma sanitize_destination_fixed dst :
  (∀ d, dst = Some d → canonical_network d) → sanitize_destination dst = Ok dst.
Proof.
  intros H. destruct dst as [d|]; [|done]. specialize (H d eq_refl). simpl.
  by rewrite canonical_network_nonempty, canonical_network_fixed.
Qed.

Lemma sanitize_ip_addr_canonical a a' :
  sanitize_ip_addr a = Ok a' → ∀ x, a' = Some x → canonical_addr x.
Proof.
  intros H x ->. destruct a as [a|]; [|done]. simpl in H.
  destruct (ip_from_str a) as [i|] eqn:E; [|done]. injection H as <-.
  exists i. eauto using ip_from_str_ok.
Qed.

Lemma sanitize_ip_addr_fixed a :
  (∀ x, a = Some x → canonical_addr x) → sanitize_ip_addr a = Ok a.
Proof.
  intros H. destruct a as [a|]; [|done]. destruct (H a eq_refl) as (i & Hi & ->).
  simpl. by rewrite ip_parse_display.
Qed.

Lemma check_nonzero_ok x : check_nonzero x = Ok tt ↔ x ≠ Some 0.
Proof.
  unfold check_nonzero. destruct (bool_decide _) eqn:E; bool_hyps; naive_solver.
Qed.

Lemma check_weight_ok r :
  check_weight r = Ok tt ↔
  ∀ w, rt_weight r = Some w → 1 ≤ w ≤ 256 ∧ rt_is_ipv6 r = false.
Proof.
  unfold check_weight, rt_is_ipv6. destruct (rt_weight r) as [w|]; [|naive_solver].
  destruct (negb _) eqn:E.
  - split; [done|]. intros H. destruct (H w eq_refl) as [Hw _].
    apply negb_true_iff, andb_false_iff in E as [E|E]; bool_hyps; lia.
  - bool_hyps. destruct (rt_destination r) as [d|]; simpl.
    + destruct (is_ipv6_addr d); simpl; naive_solver.
    + naive_solver.
Qed.

(** [sanitize] rewrites the three addresses and checks the rest. *)
Lemma sanitize_ok r r' :
  sanitize r = Ok r' ↔
  ∃ d via src,
    sanitize_destination (rt_destination r) = Ok d ∧
    sanitize_ip_addr (rt_next_hop_addr r) = Ok via ∧
    sanitize_ip_addr (rt_source r) = Ok src ∧
    r' = set_rt_source src (set_rt_next_hop_addr via (set_rt_destination d r)) ∧
    check_weight r' = Ok tt ∧ rt_cwnd r' ≠ Some 0 ∧ rt_mtu r' ≠ Some 0 ∧
    rt_advmss r' ≠ Some 0.
Proof.
  setoid_rewrite <-check_nonzero_ok. destruct r. unfold sanitize. cbv zeta. cbn -[check_weight].
  split.
  - intros H. step_cases H. injection H as <-. eexists _, _, _.
    repeat match goal with u : unit |- _ => destruct u end.
    split_and!; try done.
  - intros (d & via & src & Hd & Hvia & Hsrc & -> & Hw & Hc & Hm & Ha).
    rewrite Hd, Hvia, Hsrc, Hw. cbn in Hc, Hm, Ha. by rewrite Hc, Hm, Ha.
Qed.

Lemma sanitize_sane r r' : sanitize r = Ok r' → route_sane r'.
Proof.
  intros (d & via & src & Hd & Hvia & Hsrc & -> & Hw & Hc & Hm & Ha)%sanitize_ok.
  rewrite check_weight_ok in Hw. destruct r. simpl in *. constructor; simpl; try done.
  - by eapply sanitize_destination_canonical.
  - by eapply sanitize_ip_addr_canonical.
  - by eapply sanitize_ip_addr_canonical.
Qed.

Lemma sane_sanitize r : route_sane r → sanitize r = Ok r.
Proof.
  intros []. apply sanitize_ok. eexists _, _, _.
  split_and!; [by apply sanitize_destination_fixed|by apply sanitize_ip_addr_fixed|
    by apply sanitize_ip_addr_fixed|by destruct r|by apply check_weight_ok|done..].
Qed.

(** [RouteEntry::sanitize] puts a route into canonical form and is
    idempotent: an accepted route has a destination network without host bits,
    addresses in their canonical spelling, an ECMP weight from 1 to 256 and not
    for IPv6, and no zero cwnd, mtu or advmss; it differs from the given route
    in the three address fields only; and the canonical routes are exactly the
    ones that are accepted unchanged. *)
Theorem route_sanitize_correct r r' :
  sanitize r = Ok r' →
  route_sane r' ∧ sanitize r' = Ok r' ∧ (route_sane r ↔ r' = r) ∧
  ∃ d via src,
    r' = set_rt_source src (set_rt_next_hop_addr via (set_rt_destination d r)).
Proof.
  intros H. pose proof (sanitize_sane _ _ H) as Hs.
  split_and!; auto using sane_sanitize.
  - split; [|by intros <-]. intros Hr%sane_sanitize. congruence.
  - apply sanitize_ok in H as (d & via & src & _ & _ & _ & -> & _). by exists d, via, src.
Qed.

Lemma route_sanitize_correct_witness :
  sanitize (ex_route "198.51.100.9/24" "eth1" 0 5) =
    Ok (ex_route "198.51.100.0/24" "eth1" 0 5) ∧
  sanitize (ex_route "198.51.100.0/24" "eth1" 0 5) =
    Ok (ex_route "198.51.100.0/24" "eth1" 0 5).
Proof.
  split; [vm_compute; reflexivity|].
  apply (route_sanitize_correct (ex_route "198.51.100.9/24" "eth1" 0 5)).
  vm_compute. reflexivity.
Defined.

(** ** Validating *)

(** What [Routes::validate] demands of a route. *)
Record route_valid (r : RouteEntry) : Prop := {
  rv_next_hop : is_absent r = false → rt_route_type r = None →
    rt_next_hop_iface r ≠ None;
  rv_no_next_hop : is_absent r = false → rt_route_type r ≠ None →
    (rt_next_hop_iface r = None ∨ rt_next_hop_iface r = Some LOOPBACK_IFACE_NAME) ∧
    rt_next_hop_addr r = None;
  rv_destination : validate_route_dst r = Ok tt;
}.

Lemma is_unicast_None r : is_unicast r = bool_decide (rt_route_type r = None).
Proof. unfold is_unicast. by destruct (rt_route_type r) as [[]|]. Qed.

Lemma validate_route_valid r : validate_route r = Ok tt ↔ route_valid r.
Proof.
  unfold validate_route. rewrite is_unicast_None.
  destruct (is_absent r) eqn:Ha; simpl.
  - split; [intros H; constructor; congruence|by intros []].
  - destruct (decide (rt_route_type r = None)) as [Ht|Ht].
    + rewrite bool_decide_true by done. simpl. rewrite andb_true_r.
      destruct (bool_decide (rt_next_hop_iface r = None)) eqn:Hi; bool_hyps.
      * split; [done|]. intros [H _ _]. by destruct (H Ha Ht).
      * split; [intros H; constructor; done|by intros []].
    + rewrite bool_decide_false by done. simpl. rewrite andb_false_r.
      destruct (_ || _) eqn:E.
      * split; [done|]. intros [_ H _]. destruct (H Ha Ht) as [Hi Hv].
        rewrite Hv in E. destruct Hi as [Hi|Hi]; rewrite Hi in E; done.
      * apply orb_false_iff in E as [Ei Ev]. apply bool_decide_eq_false in Ev.
        rewrite <-eq_None_not_Some in Ev.
        split; [|by intros []]. intros H. constructor; [congruence| |done].
        intros _ _. split; [|done]. destruct (rt_next_hop_iface r); [right|by left].
        apply negb_false_iff, String.eqb_eq in Ei. by subst.
Qed.

Lemma validate_config self :
  validate self = Ok tt ↔ ∀ l r, config self = Some l → r ∈ l → route_valid r.
Proof.
  unfold validate. setoid_rewrite <-validate_route_valid.
  destruct (config self) as [l|]; [|naive_solver].
  pose proof (map_result_unit validate_route l) as H.
  destruct (map_result _ l); simpl in *; naive_solver.
Qed.

Lemma first_octet n : nth 0 (octets n) 0 = n / 2 ^ 24 mod 256.
Proof.
  unfold octets, digits. simpl. rewrite !Z.div_div by lia. reflexivity.
Qed.

(** On a canonical destination [validate_route_dst] refuses the networks inside
    0.0.0.0/8 for unicast routes, and nothing else. *)
Lemma validate_dst_network r i p :
  ip_ok i → 0 ≤ p ≤ ip_width i → rt_destination r = Some (network_string i p) →
  validate_route_dst r = Ok tt ↔
  ¬ (is_ipv6 i = false ∧ ip_bits i < 2 ^ 24 ∧ 8 ≤ p ∧ rt_route_type r = None).
Proof.
  intros Hi Hp Hd. pose proof (ip_width_range i).
  unfold validate_route_dst. rewrite Hd, is_ipv6_network by lia.
  destruct i as [n|n]; [|by split; [intros _ (? & ?)|]].
  cbn [is_ipv6]. cbv zeta. rewrite split_network by lia. cbn [nth].
  unfold ip_width in Hp. cbn in Hi, Hp. rewrite ipv4_from_display by done.
  rewrite first_octet, Z.mod_small by (split; [apply Z.div_pos; lia|
    apply Z.div_lt_upper_bound; lia]).
  assert (str_contains slash (network_string (V4 n) p) = true) as ->.
  { unfold network_string. rewrite !str_contains_app. simpl. apply orb_true_r. }
  rewrite parse_i32_dec, is_unicast_None by lia. cbn [ip_bits].
  assert (n / 2 ^ 24 =? 0 = (n <? 2 ^ 24)) as ->.
  { apply eq_bool_prop_intro. rewrite !Is_true_true, Z.eqb_eq, Z.ltb_lt, Z.div_small_iff by lia.
    lia. }
  destruct (n <? 2 ^ 24) eqn:E1, (8 <=? p) eqn:E2,
    (bool_decide (rt_route_type r = None)) eqn:E3; bool_hyps; simpl;
    (split; [try done; intros _ (_ & ? & ? & ?); try done; lia|try done]).
  intros H'. exfalso. by apply H'.
Qed.

(** [Routes::validate] accepts exactly the route lists in which every route
    that is not a removal has a next hop interface, or is a blackhole,
    unreachable or prohibit route without next hop (other than the loopback
    interface), and every destination is acceptable; and a destination in
    canonical form is acceptable unless it is an IPv4 network inside 0.0.0.0/8
    of a unicast route: the default route 0.0.0.0/0 is not one of these. *)
Theorem routes_validate_correct self :
  (validate self = Ok tt ↔ ∀ l r, config self = Some l → r ∈ l → route_valid r) ∧
  ∀ r i p,
    ip_ok i → 0 ≤ p ≤ ip_width i → rt_destination r = Some (network_string i p) →
    validate_route_dst r = Ok tt ↔
    ¬ (is_ipv6 i = false ∧ ip_bits i < 2 ^ 24 ∧ 8 ≤ p ∧ rt_route_type r = None).
Proof. split; [apply validate_config|apply validate_dst_network]. Qed.

Lemma routes_validate_correct_witness :
  validate_route_dst (ex_route "0.0.0.0/0" "eth1" 254 0) = Ok tt ∧
  validate_route_dst (ex_route "0.0.0.0/8" "eth1" 254 0) ≠ Ok tt.
Proof.
  pose proof (proj2 (routes_validate_correct routes_default)) as H. split.
  - apply (H _ (V4 0) 0); [cbn; lia|cbn; lia|reflexivity|]. intros (_ & _ & ? & _). lia.
  - intros Hv. apply (H _ (V4 0) 8) in Hv; [|cbn; lia|cbn; lia|reflexivity].
    apply Hv. cbn. split_and!; [done|lia|lia|done].
Defined.

(** ** VRF names *)

(** The merged state has an up VRF named [n] bound to table [t]. *)
Definition vrf_up (mi : MergedInterfaces) (n : string) (t : Z) : Prop :=
  ∃ k m, (k, m) ∈ kernel_ifaces mi ∧ vrf_table_of (mi_merged m) = Some (n, t).

(** ... a VRF named [n] in a state that satisfies [f]. *)
Definition vrf_in_state (mi : MergedInterfaces) (f : Interface → bool) (n : string) : Prop :=
  ∃ k m, (k, m) ∈ kernel_ifaces mi ∧ f (mi_merged m) = true ∧
         iface_type (mi_merged m) = TVrf ∧ iface_name (mi_merged m) = n.

(** [r'] is [r] with the table of its VRF. *)
Definition vrf_resolved (mi : MergedInterfaces) (r r' : RouteEntry) : Prop :=
  match rt_vrf_name r with
  | None => r' = r
  | Some n =>
      ¬ vrf_in_state mi iface_is_down n ∧ ¬ vrf_in_state mi iface_is_absent n ∧
      ∃ t, vrf_up mi n t ∧ agrees (rt_table_id r) (Some t) ∧
           r' = set_rt_table_id (Some t) r
  end.

Lemma elem_of_vrf_names f mi n : n ∈ vrf_names f mi ↔ vrf_in_state mi f n.
Proof.
  unfold vrf_names, vrf_in_state. rewrite list_elem_of_omap. split.
  - intros ([k m] & Hm & H). exists k, m. simpl in H.
    destruct (f (mi_merged m)) eqn:Hf; [|done]. simpl in H.
    destruct (bool_decide _) eqn:Ht; [|done]. bool_hyps. naive_solver.
  - intros (k & m & Hm & Hf & Ht & <-). exists (k, m). split; [done|]. simpl.
    by rewrite Hf, bool_decide_true.
Qed.

Lemma foldl_insert_lookup (l : list (string * Z)) (m : gmap string Z) n t :
  foldl (λ m e, <[e.1 := e.2]> m) m l !! n = Some t → (n, t) ∈ l ∨ m !! n = Some t.
Proof.
  revert m. induction l as [|[k v] l IH]; intros m; simpl; [by right|].
  intros [H|H]%IH; [set_solver|]. simpl in H.
  apply lookup_insert_Some in H as [[-> ->]|[_ H]]; [set_solver|by right].
Qed.

Lemma foldl_insert_is_Some (l : list (string * Z)) (m : gmap string Z) n t :
  (n, t) ∈ l ∨ is_Some (m !! n) →
  is_Some (foldl (λ m e, <[e.1 := e.2]> m) m l !! n).
Proof.
  revert m. induction l as [|[k v] l IH]; intros m; simpl; [set_solver|].
  intros H. apply IH. simpl. rewrite lookup_insert_is_Some.
  destruct H as [[[= -> ->]|H]%elem_of_cons|H]; [|by left|].
  - right. by left.
  - right. destruct (decide (k = n)); auto.
Qed.

Lemma elem_of_vrf_list mi n t :
  (n, t) ∈ omap (λ e : string * MergedInterface, vrf_table_of (mi_merged e.2))
    (kernel_ifaces mi) ↔ vrf_up mi n t.
Proof.
  rewrite list_elem_of_omap. unfold vrf_up. split.
  - intros ([k m] & ? & ?). by exists k, m.
  - intros (k & m & ? & ?). by exists (k, m).
Qed.

Lemma vrf_tables_Some mi n t : vrf_tables mi !! n = Some t → vrf_up mi n t.
Proof.
  intros [H|H]%foldl_insert_lookup; [by apply elem_of_vrf_list|by rewrite lookup_empty in H].
Qed.

(** No name stands for two tables. *)
Definition vrf_unique (mi : MergedInterfaces) : Prop :=
  ∀ n t t', vrf_up mi n t → vrf_up mi n t' → t = t'.

Lemma vrf_tables_up mi n t : vrf_unique mi → vrf_tables mi !! n = Some t ↔ vrf_up mi n t.
Proof.
  intros Hu. split; [apply vrf_tables_Some|]. intros Hup.
  destruct (foldl_insert_is_Some _ ∅ n t (or_introl (proj2 (elem_of_vrf_list mi n t) Hup)))
    as [t' Ht']. rewrite (Hu n t t'); [done..|]. by apply vrf_tables_Some.
Qed.

Lemma resolve_route_vrf_ok mi r r' :
  vrf_unique mi → resolve_route_vrf mi r = Ok r' ↔ vrf_resolved mi r r'.
Proof.
  intros Hu. unfold resolve_route_vrf, vrf_resolved.
  destruct (rt_vrf_name r) as [n|]; [|naive_solver].
  rewrite <-!elem_of_vrf_names.
  do 2 (destruct (bool_decide _) eqn:?; bool_hyps; [naive_solver|]).
  destruct (vrf_tables mi !! n) as [t|] eqn:Ht.
  - apply vrf_tables_up in Ht; [|done].
    destruct (differs _ _) eqn:Hd.
    + split; [done|]. intros (_ & _ & t' & Ht' & Hag & _).
      rewrite (Hu _ _ _ Ht' Ht) in Hag. apply differs_false in Hag. congruence.
    + apply differs_false in Hd. split; [intros [= <-]; eauto 10|].
      intros (_ & _ & t' & Ht' & _ & ->). by rewrite (Hu _ _ _ Ht' Ht).
  - split; [done|]. intros (_ & _ & t & Hup%vrf_tables_up & _); [congruence|done].
Qed.

(** [Routes::resolve_vrf_name], on a merged state in which no VRF name
    stands for two tables, succeeds exactly when every route naming a VRF names
    one that is up with a table, that is not down or absent, and that agrees
    with the table the route itself asks for; then the route gets that table
    and everything else is unchanged.  It fails with [InvalidArgument] only. *)
Theorem resolve_vrf_name_correct mi self self' :
  vrf_unique mi →
  (resolve_vrf_name self mi = Ok self' ↔
   running self' = running self ∧
   option_Forall2 (Forall2 (vrf_resolved mi)) (config self) (config self')) ∧
  (∀ e, resolve_vrf_name self mi = Err e → e = nipart_error InvalidArgument).
Proof.
  intros Hu. unfold resolve_vrf_name. split.
  - destruct self as [run [l|]], self' as [run' l']; simpl.
    + assert (map_result (resolve_route_vrf mi) l = Ok (default [] l') ↔
        Forall2 (vrf_resolved mi) l (default [] l')) as Hl.
      { rewrite map_result_Forall2.
        split; intros H; (eapply Forall2_impl; [exact H|]); intros r r';
          by apply resolve_route_vrf_ok. }
      split.
      * intros H. destruct (map_result _ l) as [k|] eqn:E; [|done]. injection H as -> <-.
        split; [done|]. constructor. by apply Hl.
      * intros [-> H]. inversion H as [? k Hk|]; subst. apply Hl in Hk. simpl in Hk.
        by rewrite Hk.
    + split; [intros [= -> <-]; split; [done|constructor]|].
      intros [-> H]. by inversion H.
  - destruct (config self) as [l|]; [|done]. intros e H.
    destruct (map_result (resolve_route_vrf mi) l) as [|e'] eqn:E; [done|].
    injection H as <-. revert E. induction l as [|r l IH]; simpl; [done|].
    destruct (resolve_route_vrf mi r) as [r'|e] eqn:Er.
    + destruct (map_result _ l); [done|]. intros [= <-]. auto.
    + intros [= <-]. unfold resolve_route_vrf in Er. by step_cases Er; injection Er as <-.
Qed.

Definition ex_vrf : Interface :=
  IfVrf (set_bi_kernel_iface_name "red" (base_new "red" TVrf))
    (Some (vrf_config None (Some 100))).

Definition ex_mi : MergedInterfaces :=
  merged_interfaces
    [("red", merged_interface None (Some ex_vrf) ex_vrf None None None None None false)] [] [] []
    search_default.

Definition ex_vrf_route (table : option Z) : RouteEntry :=
  route_entry None (Some "198.51.100.0/24") (Some "eth1") None None table
    None None None None None None None None None None (Some "red") None.

Lemma resolve_vrf_name_correct_witness :
  resolve_vrf_name (routes None (Some [ex_vrf_route None])) ex_mi =
  Ok (routes None (Some [ex_vrf_route (Some 100)])).
Proof.
  apply resolve_vrf_name_correct.
  - intros n t t' (k & m & H & Ht) (k' & m' & H' & Ht').
    apply list_elem_of_singleton in H as [= -> ->], H' as [= -> ->].
    vm_compute in Ht, Ht'. congruence.
  - split; [done|]. constructor. constructor; [|constructor]. unfold vrf_resolved. simpl.
    split_and!.
    + intros (k & m & H & Hf & _). apply list_elem_of_singleton in H as [= -> ->].
      by vm_compute in Hf.
    + intros (k & m & H & Hf & _). apply list_elem_of_singleton in H as [= -> ->].
      by vm_compute in Hf.
    + exists 100. split_and!; [|by left|done]. eexists _, _.
      split; [apply list_elem_of_here|vm_compute; reflexivity].
Defined.
