(* ===== verification/MergedRoute.v ===== *)
(** * MergedRoute: merging desired, current and saved routes

    [src/lib/schema/merged/route.rs], [gen_diff/route.rs] and
    [revert/route.rs]: what an apply changes in the kernel, what it persists
    and how it is reverted.

    A [HashSet<RouteEntry>] is the list of its elements in insertion order,
    equality being that of the sort key; the vectors collected from one are
    either sorted or used as sets.  A [HashSet<&str>] is a [gset]. *)

From S2P Require Export Route.

#[local] Open Scope Z_scope.

(** ** Interface lists *)

Record IfaceLists : Type := iface_lists {
  il_absent : gset string;
  il_ipv4_disabled : gset string;
  il_ipv6_disabled : gset string;
  il_dhcpv4_enabled : gset string;
  il_will_delete : gset string;
  il_saved_only : gset string;
  il_desired_ifaces : gset string;
}.

Definition kernel_values (mi : MergedInterfaces) : list MergedInterface :=
  (kernel_ifaces mi).*2.

(** The kernel names of the merged interfaces that satisfy [f]. *)
Definition names_where (f : MergedInterface → bool) (mi : MergedInterfaces) : gset string :=
  list_to_set ((λ m, kernel_iface_name (mi_merged m)) <$> List.filter f (kernel_values mi)).

(** [collect_iface_lists]. *)
Definition collect_iface_lists (mi : MergedInterfaces) : IfaceLists :=
  iface_lists
    (names_where (λ i, iface_is_absent (mi_merged i)) mi)
    (names_where (λ i, negb (base_is_ipv4_enabled (base_iface (mi_merged i)))) mi)
    (names_where (λ i, negb (base_is_ipv6_enabled (base_iface (mi_merged i)))) mi)
    (names_where (λ i, bool_decide
       ((bi_ipv4 (base_iface (mi_merged i)) ≫= v4_dhcp) = Some true)) mi)
    (names_where mi_will_delete mi)
    (list_to_set (concat
       ((λ i, [kernel_iface_name (mi_merged i); iface_name (mi_merged i)]) <$>
        List.filter (λ i, state_is_saved (bi_state (base_iface (mi_merged i))))
          (kernel_values mi))))
    (names_where (λ i, bool_decide (is_Some (mi_desired i))) mi).

(** ** Inheriting from saved routes *)

Definition or_else {A} (x y : option A) : option A :=
  match x with Some _ => x | None => y end.

(** [fill_undefined_route_fields]. *)
Definition fill_undefined_route_fields (rt saved : RouteEntry) : RouteEntry :=
  route_entry (rt_state rt)
    (or_else (rt_destination rt) (rt_destination saved))
    (or_else (rt_next_hop_iface rt) (rt_next_hop_iface saved))
    (or_else (rt_next_hop_addr rt) (rt_next_hop_addr saved))
    (if bool_decide (rt_metric rt = None) ||
        bool_decide (rt_metric rt = Some USE_DEFAULT_METRIC)
     then rt_metric saved else rt_metric rt)
    (or_else (rt_table_id rt) (rt_table_id saved))
    (or_else (rt_weight rt) (rt_weight saved))
    (or_else (rt_route_type rt) (rt_route_type saved))
    (or_else (rt_cwnd rt) (rt_cwnd saved))
    (or_else (rt_source rt) (rt_source saved))
    (or_else (rt_initcwnd rt) (rt_initcwnd saved))
    (or_else (rt_initrwnd rt) (rt_initrwnd saved))
    (or_else (rt_mtu rt) (rt_mtu saved))
    (or_else (rt_quickack rt) (rt_quickack saved))
    (or_else (rt_advmss rt) (rt_advmss saved))
    (or_else (rt_onlink rt) (rt_onlink saved))
    (or_else (rt_vrf_name rt) (rt_vrf_name saved))
    (rt_protocol rt).

(** [resolve_route_next_hop]. *)
Definition resolve_route_next_hop (rt : RouteEntry) (mi : MergedInterfaces) : RouteEntry :=
  match rt_next_hop_iface rt with
  | Some name =>
      match resolve_route_next_hop_iface mi name with
      | Some k => set_rt_next_hop_iface (Some k) rt
      | None => rt
      end
  | None => rt
  end.

(** The loop of [inherit_saved_route_fields] over the desired routes. *)
Fixpoint inherit_loop (mi : MergedInterfaces) (saved_routes : list RouteEntry)
    (resolved_saved : list (nat * RouteEntry)) (consumed : list nat)
    (l : list RouteEntry) : list RouteEntry * list nat :=
  match l with
  | [] => ([], consumed)
  | rt :: l' =>
      if is_absent rt then
        let '(k, consumed) := inherit_loop mi saved_routes resolved_saved consumed l' in
        (rt :: k, consumed)
      else
        let resolved_desired := resolve_route_next_hop rt mi in
        match List.find (λ e : nat * RouteEntry,
                negb (bool_decide (e.1 ∈ consumed)) && is_match resolved_desired e.2)
              resolved_saved with
        | Some (index, _) =>
            let rt := fill_undefined_route_fields rt (nth index saved_routes route_default) in
            let '(k, consumed) :=
              inherit_loop mi saved_routes resolved_saved (index :: consumed) l' in
            (rt :: k, consumed)
        | None =>
            let '(k, consumed) := inherit_loop mi saved_routes resolved_saved consumed l' in
            (rt :: k, consumed)
        end
  end.

(** [inherit_saved_route_fields]: the new desired routes and the indexes of
    the consumed saved routes. *)
Definition inherit_saved_route_fields (desired : Routes) (saved : option Routes)
    (mi : MergedInterfaces) : Routes * list nat :=
  match saved ≫= config, config desired with
  | Some saved_routes, Some desired_routes =>
      let resolved_saved :=
        (λ e : nat * RouteEntry, (e.1, resolve_route_next_hop e.2 mi)) <$>
        List.filter (λ e : nat * RouteEntry, negb (is_absent e.2)) (enumerate saved_routes) in
      let '(l, consumed) := inherit_loop mi saved_routes resolved_saved [] desired_routes in
      (routes (running desired) (Some l), consumed)
  | _, _ => (desired, [])
  end.

(** ** Desired routes *)

Definition iface_in (x : option string) (s : gset string) : bool :=
  match x with Some i => bool_decide (i ∈ s) | None => false end.

(** The onlink flag of a route whose gateway a DHCPv4 lease will make
    reachable. *)
Definition fill_onlink (il : IfaceLists) (rt : RouteEntry) : RouteEntry :=
  if bool_decide (rt_onlink rt = None) && negb (is_absent rt) && negb (rt_is_ipv6 rt) &&
     bool_decide (is_Some (rt_next_hop_addr rt)) &&
     iface_in (rt_next_hop_iface rt) (il_dhcpv4_enabled il)
  then set_rt_onlink (Some true) rt else rt.

(** The body of the loop of [resolve_desired_routes]; [None] is [continue]. *)
Definition resolve_desired_route (mi : MergedInterfaces) (il : IfaceLists)
    (rt : RouteEntry) : res (option RouteEntry) :=
  let? rt := sanitize rt in
  if is_saved rt || iface_in (rt_next_hop_iface rt) (il_saved_only il) then Ok None
  else
    match rt_next_hop_iface rt with
    | Some name =>
        match resolve_route_next_hop_iface mi name with
        | Some k => Ok (Some (fill_onlink il (set_rt_next_hop_iface (Some k) rt)))
        | None => if is_pending_wifi_cfg_route_target mi name then Ok None
                  else fail InvalidArgument
        end
    | None => Ok (Some (fill_onlink il rt))
    end.

(** [resolve_desired_routes]. *)
Definition resolve_desired_routes (desired : Routes) (mi : MergedInterfaces)
    (il : IfaceLists) : res (list RouteEntry) :=
  let? l := map_result (resolve_desired_route mi il) (default [] (config desired)) in
  Ok (omap id l).

(** Whether IP is disabled for the family of [rt] on [via]. *)
Definition ip_disabled (il : IfaceLists) (rt : RouteEntry) (via : string) : bool :=
  (rt_is_ipv6 rt && bool_decide (via ∈ il_ipv6_disabled il)) ||
  (negb (rt_is_ipv6 rt) && bool_decide (via ∈ il_ipv4_disabled il)).

(** The interface a route marks as changed. *)
Definition route_changed_iface (rt : RouteEntry) : gset string :=
  match rt_next_hop_iface rt with
  | Some via => {[ via ]}
  | None => if bool_decide (is_Some (rt_route_type rt)) then {[ LOOPBACK_IFACE_NAME ]} else ∅
  end.

(** [validate_desired_routes]. *)
Definition validate_desired_route (il : IfaceLists) (rt : RouteEntry) : res unit :=
  match rt_next_hop_iface rt with
  | Some via =>
      if bool_decide (via ∈ il_absent il) then fail InvalidArgument
      else if rt_is_ipv6 rt && bool_decide (via ∈ il_ipv6_disabled il)
      then fail InvalidArgument
      else if negb (rt_is_ipv6 rt) && bool_decide (via ∈ il_ipv4_disabled il)
      then fail InvalidArgument
      else Ok tt
  | None => Ok tt
  end.

Definition not_absent (l : list RouteEntry) : list RouteEntry :=
  List.filter (λ rt, negb (is_absent rt)) l.
Definition only_absent (l : list RouteEntry) : list RouteEntry := List.filter is_absent l.

Definition validate_desired_routes (desired_routes : list RouteEntry) (il : IfaceLists)
    (changed_ifaces : gset string) : res (gset string) :=
  let? _ := map_result (validate_desired_route il) (not_absent desired_routes) in
  Ok (foldl (λ s rt, s ∪ route_changed_iface rt) changed_ifaces (not_absent desired_routes)).

(** [config.iter().flatten().chain(running.iter().flatten())]. *)
Definition config_and_running (current : Routes) : list RouteEntry :=
  default [] (config current) ++ default [] (running current).

(** [collect_absent_route_changes]. *)
Definition collect_absent_route_changes (desired_routes : list RouteEntry)
    (current : Routes) (changed_ifaces : gset string) : gset string :=
  foldl (λ s absent_rt,
    foldl (λ s rt,
      if is_match absent_rt rt
      then s ∪ {[ default LOOPBACK_IFACE_NAME (rt_next_hop_iface rt) ]} else s)
      s (config_and_running current))
    changed_ifaces (only_absent desired_routes).

(** ** Merged and changed routes *)

(** The reasons for which a current route via [via] is removed: IP disabled
    by this apply, or an absent desired route that matches. *)
Definition current_route_removed (il : IfaceLists) (desired_routes : list RouteEntry)
    (via : string) (rt : RouteEntry) : bool :=
  (bool_decide (via ∈ il_desired_ifaces il) && ip_disabled il rt via) ||
  existsb (λ absent_rt, is_match absent_rt rt) (only_absent desired_routes).

(** The kernel purges the routes of an interface that goes away. *)
Definition iface_goes_away (il : IfaceLists) (via : string) : bool :=
  bool_decide (via ∈ il_will_delete il) || bool_decide (via ∈ il_absent il).

Definition mark_absent (rt : RouteEntry) : RouteEntry := set_rt_state (Some RAbsent) rt.

(** The loop over [current.config]. *)
Definition build_config_step (il : IfaceLists) (desired_routes : list RouteEntry)
    (st : list RouteEntry * list RouteEntry) (rt : RouteEntry) :
    list RouteEntry * list RouteEntry :=
  let '(merged, changed) := st in
  match rt_next_hop_iface rt with
  | None => (merged, changed)
  | Some via =>
      if iface_goes_away il via then (merged, changed)
      else if current_route_removed il desired_routes via rt
      then (merged, routes_insert (mark_absent rt) changed)
      else (merged ++ [rt], changed)
  end.

(** The loop over [current.running]. *)
Definition build_running_step (il : IfaceLists) (desired_routes : list RouteEntry)
    (changed : list RouteEntry) (rt : RouteEntry) : list RouteEntry :=
  match rt_next_hop_iface rt with
  | None => changed
  | Some via =>
      if iface_goes_away il via then changed
      else if current_route_removed il desired_routes via rt
      then routes_insert (mark_absent rt) changed
      else changed
  end.

(** [current_route_matches]. *)
Definition current_route_matches (current : Routes) (rt : RouteEntry) : bool :=
  existsb (is_match rt) (config_and_running current).

(** The loop over the desired routes. *)
Definition build_desired_step (il : IfaceLists) (current : Routes)
    (st : list RouteEntry * list RouteEntry) (rt : RouteEntry) :
    list RouteEntry * list RouteEntry :=
  let '(merged, changed) := st in
  if iface_in (rt_next_hop_iface rt) (il_will_delete il) then
    (merged ++ [rt], routes_insert rt changed)
  else if negb (current_route_matches current rt) then
    (merged ++ [rt], routes_insert rt changed)
  else (merged, changed).

(** [build_merged_and_changed_routes], from an empty set of changed routes. *)
Definition build_merged_and_changed_routes (current : Routes)
    (desired_routes : list RouteEntry) (il : IfaceLists) :
    list RouteEntry * list RouteEntry :=
  let '(merged, changed) :=
    foldl (build_config_step il desired_routes) ([], []) (default [] (config current)) in
  let changed :=
    foldl (build_running_step il desired_routes) changed (default [] (running current)) in
  let '(merged, changed) :=
    foldl (build_desired_step il current) (merged, changed) (not_absent desired_routes) in
  (dedup_routes (sort_routes merged), changed).

(** The saved routes of the interfaces that are deleted and created again. *)
Definition restore_saved_step (il : IfaceLists) (consumed : list nat)
    (st : list RouteEntry * list RouteEntry * gset string) (e : nat * RouteEntry) :
    list RouteEntry * list RouteEntry * gset string :=
  let '(merged, changed, changed_ifaces) := st in
  let '(index, rt) := e in
  if is_absent rt || bool_decide (index ∈ consumed) then st
  else
    match rt_next_hop_iface rt with
    | Some via =>
        if bool_decide (via ∈ il_will_delete il) && negb (existsb (is_match rt) changed)
        then (merged ++ [rt], routes_insert rt changed, changed_ifaces ∪ {[ via ]})
        else st
    | None => st
    end.

(** [group_by_next_hop_iface]. *)
Definition group_push (m : gmap string (list RouteEntry)) (k : string) (rt : RouteEntry) :
    gmap string (list RouteEntry) :=
  <[k := default [] (m !! k) ++ [rt]]> m.

Definition group_by_next_hop_iface (l : list RouteEntry) : gmap string (list RouteEntry) :=
  foldl (λ m rt,
    match rt_next_hop_iface rt with
    | Some via => group_push m via rt
    | None => if bool_decide (is_Some (rt_route_type rt))
              then group_push m LOOPBACK_IFACE_NAME rt else m
    end) ∅ l.

(** ** Routes to persist *)

(** [desired_iface_ipv4_disabled], [desired_iface_ipv6_disabled]. *)
Definition desired_iface_ipv4_disabled (mi : MergedInterfaces) (name : string) : bool :=
  match assoc_get name (kernel_ifaces mi) ≫= mi_desired with
  | Some desired =>
      match bi_ipv4 (base_iface desired) with
      | Some ipv4 => negb (ipv4_is_enabled ipv4)
      | None => false
      end
  | None => false
  end.

Definition desired_iface_ipv6_disabled (mi : MergedInterfaces) (name : string) : bool :=
  match assoc_get name (kernel_ifaces mi) ≫= mi_desired with
  | Some desired =>
      match bi_ipv6 (base_iface desired) with
      | Some ipv6 => negb (ipv6_is_enabled ipv6)
      | None => false
      end
  | None => false
  end.

(** [saved_route_is_removed]. *)
Definition saved_route_is_removed (rt : RouteEntry) (desired : Routes) (il : IfaceLists)
    (ignored_ifaces : list string) (mi : MergedInterfaces) : bool :=
  let kernel_name :=
    (λ via, default via (resolve_route_next_hop_iface mi via)) <$> rt_next_hop_iface rt in
  let resolved_rt :=
    match kernel_name with
    | Some k => set_rt_next_hop_iface (Some k) rt
    | None => rt
    end in
  if existsb (λ absent_rt, is_match (resolve_route_next_hop absent_rt mi) resolved_rt)
       (only_absent (default [] (config desired)))
  then true
  else
    match kernel_name with
    | None => false
    | Some via =>
        bool_decide (via ∈ ignored_ifaces) ||
        bool_decide (via ∈ il_absent il) ||
        (bool_decide (via ∈ il_desired_ifaces il) &&
         ((rt_is_ipv6 rt && desired_iface_ipv6_disabled mi via) ||
          (negb (rt_is_ipv6 rt) && desired_iface_ipv4_disabled mi via)))
    end.

(** [gen_routes_for_save]. *)
Definition gen_routes_for_save (desired : Routes) (saved : option Routes) (il : IfaceLists)
    (ignored_ifaces : list string) (mi : MergedInterfaces) (consumed : list nat) : Routes :=
  let set :=
    hset_insert_all sort_key_cmp sort_key (not_absent (default [] (config desired))) [] in
  let set :=
    foldl (λ set (e : nat * RouteEntry),
      if is_absent e.2 || bool_decide (e.1 ∈ consumed) then set
      else if saved_route_is_removed e.2 desired il ignored_ifaces mi then set
      else routes_insert e.2 set)
      set (enumerate (default [] (saved ≫= config))) in
  routes None (Some (sort_routes set)).

(** ** [MergedRoutes] *)

Record MergedRoutes : Type := merged_routes {
  mr_merged : gmap string (list RouteEntry);
  mr_route_changed_ifaces : list string;
  mr_changed_routes : list RouteEntry;
  mr_desired : Routes;
  mr_current : Routes;
  mr_saved : option Routes;
  mr_for_save : Routes;
}.

(** [remove_routes_to_ignored_ifaces]: the ignored interfaces. *)
Definition ignored_iface_names (mi : MergedInterfaces) : list string :=
  (λ m, kernel_iface_name (mi_merged m)) <$>
  List.filter (λ m, iface_is_ignore (mi_merged m)) (kernel_values mi).

(** [MergedRoutes::new]. *)
Definition merged_routes_new (desired current : Routes) (saved : option Routes)
    (mi : MergedInterfaces) : res MergedRoutes :=
  let desired := remove_ignored_routes desired in
  let? _ := validate desired in
  let? desired := resolve_vrf_name desired mi in
  let '(desired, consumed) := inherit_saved_route_fields desired saved mi in
  let il := collect_iface_lists mi in
  let? desired_routes := resolve_desired_routes desired mi il in
  let? changed_ifaces := validate_desired_routes desired_routes il ∅ in
  let changed_ifaces := collect_absent_route_changes desired_routes current changed_ifaces in
  let '(merged, changed) := build_merged_and_changed_routes current desired_routes il in
  let '(merged, changed, changed_ifaces) :=
    foldl (restore_saved_step il consumed) (merged, changed, changed_ifaces)
      (enumerate (default [] (saved ≫= config))) in
  let changed_ifaces := foldl (λ s rt, s ∪ route_changed_iface rt) changed_ifaces changed in
  let ignored_ifaces := ignored_iface_names mi in
  Ok (merged_routes
    (foldl (λ m n, delete n m) (group_by_next_hop_iface merged) ignored_ifaces)
    (List.filter (λ n, negb (bool_decide (n ∈ ignored_ifaces))) (elements changed_ifaces))
    changed desired current saved
    (gen_routes_for_save desired saved il ignored_ifaces mi consumed)).

Definition mr_is_changed (self : MergedRoutes) : bool :=
  negb (bool_decide (mr_route_changed_ifaces self = [])).

(** [gen_state_for_apply], [gen_state_for_save]. *)
Definition mr_gen_state_for_apply (self : MergedRoutes) : Routes :=
  routes None (Some (mr_changed_routes self)).
Definition mr_gen_state_for_save (self : MergedRoutes) : Routes :=
  routes None (config (mr_for_save self)).

(** [MergedRoutes::gen_diff]. *)
Definition mr_gen_diff (self : MergedRoutes) : Routes :=
  routes None (match mr_changed_routes self with [] => None | l => Some l end).

(** [Routes::gen_diff]. *)
Definition routes_gen_diff (self old : Routes) : Routes :=
  routes None (Some
    (match config self, config old with
     | Some new_routes, Some old_routes =>
         List.filter (λ r, forallb (λ o, negb (is_match r o)) old_routes) new_routes
     | Some new_routes, None => new_routes
     | None, Some old_routes => old_routes
     | None, None => []
     end)).

(** [MergedRoutes::generate_revert]. *)
Definition revert_route (current : Routes) (rt : RouteEntry) : list RouteEntry :=
  if is_absent rt then List.filter (is_match rt) (default [] (config current))
  else [mark_absent rt].

Definition mr_generate_revert (self : MergedRoutes) : res Routes :=
  let revert := concat (revert_route (mr_current self) <$> mr_changed_routes self) in
  Ok (routes None (match revert with [] => None | l => Some l end)).

(** [Routes::merge]. *)
Definition merge_absent_step (old : list RouteEntry) (set : list RouteEntry)
    (new_route : RouteEntry) : list RouteEntry :=
  if existsb (is_match new_route) old then set else routes_insert new_route set.

Definition merge_present_step (old : list RouteEntry) (set : list RouteEntry)
    (new_route : RouteEntry) : list RouteEntry :=
  let new_route :=
    match List.find (λ o, negb (is_absent o) && is_match new_route o) old with
    | Some o => fill_undefined_route_fields new_route o
    | None => new_route
    end in
  routes_insert new_route set.

Definition merge_old_step (new_routes : list RouteEntry) (set : list RouteEntry)
    (old_route : RouteEntry) : list RouteEntry :=
  if existsb (λ r, is_absent r && is_match r old_route) new_routes then
    routes_insert (mark_absent old_route) set
  else if is_absent old_route &&
          existsb (λ r, negb (is_absent r) && is_match old_route r) new_routes
  then set
  else routes_insert old_route set.

Definition routes_merge (self new : Routes) : res Routes :=
  let? _ := validate new in
  match config new with
  | None => Ok self
  | Some new_routes =>
      let old := default [] (config self) in
      let set := foldl (merge_absent_step old) [] (only_absent new_routes) in
      let set := foldl (merge_present_step old) set (not_absent new_routes) in
      let set := foldl (merge_old_step new_routes) set old in
      Ok (routes None (Some (sort_routes set)))
  end.

(** ** What is changed *)

(** A current route that must go, as the removal request for it. *)
Definition removal_of (il : IfaceLists) (desired_routes : list RouteEntry)
    (rt : RouteEntry) : option RouteEntry :=
  match rt_next_hop_iface rt with
  | None => None
  | Some via =>
      if iface_goes_away il via then None
      else if current_route_removed il desired_routes via rt then Some (mark_absent rt)
      else None
  end.

(** A current route of the configuration that stays. *)
Definition stays (il : IfaceLists) (desired_routes : list RouteEntry) (rt : RouteEntry) : bool :=
  match rt_next_hop_iface rt with
  | None => false
  | Some via =>
      negb (iface_goes_away il via) && negb (current_route_removed il desired_routes via rt)
  end.

(** A desired route the kernel does not have, or is about to lose. *)
Definition needs_add (il : IfaceLists) (current : Routes) (rt : RouteEntry) : bool :=
  iface_in (rt_next_hop_iface rt) (il_will_delete il) ||
  negb (current_route_matches current rt).

Lemma insert_all_cons x (l s : list RouteEntry) :
  insert_all (x :: l) s = insert_all l (routes_insert x s).
Proof. done. Qed.

Lemma build_config_loop il d m c l :
  foldl (build_config_step il d) (m, c) l =
  (m ++ List.filter (stays il d) l, insert_all (omap (removal_of il d) l) c).
Proof.
  revert m c. induction l as [|rt l IH]; intros m c; [by rewrite app_nil_r|].
  cbn [foldl]. rewrite omap_cons. unfold build_config_step at 2, removal_of at 1.
  cbn [List.filter]. unfold stays at 1.
  destruct (rt_next_hop_iface rt) as [via|]; [|apply IH].
  destruct (iface_goes_away il via); simpl; [apply IH|].
  destruct (current_route_removed il d via rt); simpl; rewrite IH; [done|].
  by rewrite <-app_assoc.
Qed.

Lemma build_running_loop il d c l :
  foldl (build_running_step il d) c l = insert_all (omap (removal_of il d) l) c.
Proof.
  apply foldl_hset_insert_omap. intros s rt. unfold build_running_step, removal_of.
  by repeat case_match.
Qed.

Lemma build_desired_loop il cur m c l :
  foldl (build_desired_step il cur) (m, c) l =
  (m ++ List.filter (needs_add il cur) l, insert_all (List.filter (needs_add il cur) l) c).
Proof.
  revert m c. induction l as [|rt l IH]; intros m c; [by rewrite app_nil_r|].
  cbn [foldl List.filter].
  assert (build_desired_step il cur (m, c) rt =
    if needs_add il cur rt then (m ++ [rt], routes_insert rt c) else (m, c)) as ->.
  { unfold build_desired_step, needs_add. by repeat case_match. }
  destruct (needs_add il cur rt); rewrite IH; [|done]. by rewrite <-app_assoc.
Qed.

(** The changes the two loops over the current routes and the loop over the
    desired routes ask for, in order. *)
Definition requested_changes (il : IfaceLists) (current : Routes) (d : list RouteEntry) :
    list RouteEntry :=
  omap (removal_of il d) (config_and_running current) ++
  List.filter (needs_add il current) (not_absent d).

Definition merged_before_dedup (il : IfaceLists) (current : Routes) (d : list RouteEntry) :
    list RouteEntry :=
  List.filter (stays il d) (default [] (config current)) ++
  List.filter (needs_add il current) (not_absent d).

Lemma build_merged_and_changed_eq current d il :
  build_merged_and_changed_routes current d il =
  (dedup_routes (sort_routes (merged_before_dedup il current d)),
   insert_all (requested_changes il current d) []).
Proof.
  unfold build_merged_and_changed_routes, requested_changes, config_and_running.
  rewrite build_config_loop, build_running_loop, build_desired_loop.
  by rewrite omap_app, !hset_insert_all_app.
Qed.

(** The saved routes that are put back. *)
Lemma restore_saved_loop il consumed l m c s m' c' s' :
  foldl (restore_saved_step il consumed) (m, c, s) l = (m', c', s') →
  (keys_distinct sort_key c → keys_distinct sort_key c') ∧
  (∀ r, r ∈ c → r ∈ c') ∧
  (∀ r, r ∈ c' → r ∈ c ∨ ∃ i via, (i, r) ∈ l ∧ i ∉ consumed ∧ is_absent r = false ∧
     rt_next_hop_iface r = Some via ∧ via ∈ il_will_delete il) ∧
  (∀ i r via, (i, r) ∈ l → i ∉ consumed → is_absent r = false →
     rt_next_hop_iface r = Some via → via ∈ il_will_delete il →
     ∃ r', r' ∈ c' ∧ (is_match r r' = true ∨ sort_key r = sort_key r')) ∧
  s ⊆ s'.
Proof.
  revert m c s. induction l as [|[i rt] l IH]; intros m c s; cbn [foldl].
  { intros [= <- <- <-]. set_solver. }
  assert (∀ st, restore_saved_step il consumed (m, c, s) (i, rt) = st →
    (st = (m, c, s) ∧ (∀ via, i ∉ consumed → is_absent rt = false →
       rt_next_hop_iface rt = Some via → via ∈ il_will_delete il →
       ∃ r', r' ∈ c ∧ is_match rt r' = true)) ∨
    (∃ via, st = (m ++ [rt], routes_insert rt c, s ∪ {[ via ]}) ∧ i ∉ consumed ∧
       is_absent rt = false ∧ rt_next_hop_iface rt = Some via ∧ via ∈ il_will_delete il))
    as Hstep.
  { intros st <-. unfold restore_saved_step.
    destruct (is_absent rt) eqn:Ha; [left; naive_solver|]. simpl.
    destruct (bool_decide (i ∈ consumed)) eqn:Hi; bool_hyps; [left; naive_solver|].
    destruct (rt_next_hop_iface rt) as [via|]; [|left; naive_solver].
    destruct (bool_decide (via ∈ _)) eqn:Hw; bool_hyps; simpl; [|left; naive_solver].
    destruct (existsb _ c) eqn:Em; simpl; [left|right; by exists via].
    apply existsb_exists in Em as (r' & ?%list_elem_of_In & ?). eauto. }
  destruct (Hstep _ eq_refl) as [[-> Hno]|(via & -> & Hi & Ha & Hv & Hw)]; intros H;
    apply IH in H as (H1 & H2 & H3 & H4 & H5).
  - split_and!; [done|done| | |done].
    + intros r [Hr|(j & w & ?)]%H3; [by left|]. right. exists j, w. set_solver.
    + intros j r w [[= -> ->]|Hr]%elem_of_cons; [|by eapply H4].
      intros ? ? ? ?. edestruct Hno as (r' & ? & ?); [done..|]. eauto.
  - split_and!;
      [intros; by apply H1, routes_insert_distinct|
      intros; by apply H2, routes_insert_keeps| | |set_solver].
    + intros r [[->|Hr]%elem_of_routes_insert|(j & w & ?)]%H3; [right|by left|right].
      * exists i, via. set_solver.
      * exists j, w. set_solver.
    + intros j r w [[= -> ->]|Hr]%elem_of_cons; [|by eapply H4].
      intros _ _ _ _.
      pose proof (routes_insert_key rt c) as Hk.
      apply list_elem_of_fmap in Hk as (r' & Hk & Hr'). exists r'. eauto.
Qed.

(** The intermediate values of a run of [MergedRoutes::new] that succeeds. *)
Record new_run (desired current : Routes) (saved : option Routes) (mi : MergedInterfaces)
    (mr : MergedRoutes) (d1 : Routes) (consumed : list nat) (dr merged : list RouteEntry)
    (ci0 ci : gset string) : Prop := {
  nr_validate : validate (remove_ignored_routes desired) = Ok tt;
  nr_vrf : resolve_vrf_name (remove_ignored_routes desired) mi = Ok d1;
  nr_inherit : inherit_saved_route_fields d1 saved mi = (mr_desired mr, consumed);
  nr_desired : resolve_desired_routes (mr_desired mr) mi (collect_iface_lists mi) = Ok dr;
  nr_checked : validate_desired_routes dr (collect_iface_lists mi) ∅ = Ok ci0;
  nr_restore :
    foldl (restore_saved_step (collect_iface_lists mi) consumed)
      (dedup_routes (sort_routes (merged_before_dedup (collect_iface_lists mi) current dr)),
       insert_all (requested_changes (collect_iface_lists mi) current dr) [],
       collect_absent_route_changes dr current ci0)
      (enumerate (default [] (saved ≫= config))) = (merged, mr_changed_routes mr, ci);
  nr_merged : mr_merged mr =
    foldl (λ m n, delete n m) (group_by_next_hop_iface merged) (ignored_iface_names mi);
  nr_changed_ifaces : mr_route_changed_ifaces mr =
    List.filter (λ n, negb (bool_decide (n ∈ ignored_iface_names mi)))
      (elements (foldl (λ s rt, s ∪ route_changed_iface rt) ci (mr_changed_routes mr)));
  nr_current : mr_current mr = current;
  nr_saved : mr_saved mr = saved;
  nr_for_save : mr_for_save mr =
    gen_routes_for_save (mr_desired mr) saved (collect_iface_lists mi)
      (ignored_iface_names mi) mi consumed;
}.

Lemma merged_routes_new_ok desired current saved mi mr :
  merged_routes_new desired current saved mi = Ok mr ↔
  ∃ d1 consumed dr merged ci0 ci,
    new_run desired current saved mi mr d1 consumed dr merged ci0 ci.
Proof.
  unfold merged_routes_new. cbv zeta. split.
  - intros H.
    destruct (validate _) as [[]|] eqn:E1; [|done].
    destruct (resolve_vrf_name _ _) as [d1|] eqn:E2; [|done].
    destruct (inherit_saved_route_fields d1 saved mi) as [d2 consumed] eqn:E3.
    destruct (resolve_desired_routes d2 _ _) as [dr|] eqn:E4; [|done].
    destruct (validate_desired_routes dr _ _) as [ci0|] eqn:E5; [|done].
    rewrite build_merged_and_changed_eq in H.
    destruct (foldl (restore_saved_step _ _) _ _) as [[merged changed] ci] eqn:E6.
    injection H as <-. exists d1, consumed, dr, merged, ci0, ci. by constructor.
  - intros (d1 & consumed & dr & merged & ci0 & ci & []).
    rewrite nr_validate0, nr_vrf0, nr_inherit0, nr_desired0, nr_checked0.
    rewrite build_merged_and_changed_eq, nr_restore0.
    rewrite <-nr_merged0, <-nr_changed_ifaces0, <-nr_for_save0.
    destruct mr; simpl in *. by subst.
Qed.

Definition in_set (x : option string) (s : gset string) : Prop := ∃ i, x = Some i ∧ i ∈ s.

Lemma iface_in_true x s : iface_in x s = true ↔ in_set x s.
Proof.
  unfold iface_in, in_set. destruct x as [i|]; [|naive_solver].
  rewrite bool_decide_eq_true. naive_solver.
Qed.

(** The removal requests an apply must make: a current route, of the
    configuration or running, whose interface stays, and which an absent
    desired route matches or whose family this apply disables on the
    interface. *)
Definition must_remove (il : IfaceLists) (current : Routes) (dr : list RouteEntry)
    (r : RouteEntry) : Prop :=
  ∃ cur via,
    cur ∈ config_and_running current ∧ r = mark_absent cur ∧
    rt_next_hop_iface cur = Some via ∧
    via ∉ il_will_delete il ∧ via ∉ il_absent il ∧
    ((via ∈ il_desired_ifaces il ∧ ip_disabled il cur via = true) ∨
     ∃ a, a ∈ dr ∧ is_absent a = true ∧ is_match a cur = true).

(** The additions: a desired route that matches no current route, or whose
    interface is deleted and created again. *)
Definition must_add (il : IfaceLists) (current : Routes) (dr : list RouteEntry)
    (r : RouteEntry) : Prop :=
  r ∈ dr ∧ is_absent r = false ∧
  (in_set (rt_next_hop_iface r) (il_will_delete il) ∨
   ∀ cur, cur ∈ config_and_running current → is_match r cur = false).

(** The saved routes that may be put back. *)
Definition may_restore (il : IfaceLists) (saved : option Routes) (consumed : list nat)
    (i : nat) (r : RouteEntry) : Prop :=
  default [] (saved ≫= config) !! i = Some r ∧ i ∉ consumed ∧ is_absent r = false ∧
  in_set (rt_next_hop_iface r) (il_will_delete il).

Lemma elem_of_not_absent r l : r ∈ not_absent l ↔ r ∈ l ∧ is_absent r = false.
Proof.
  unfold not_absent. rewrite list_elem_of_In, filter_In, <-list_elem_of_In.
  by rewrite negb_true_iff.
Qed.

Lemma elem_of_only_absent r l : r ∈ only_absent l ↔ r ∈ l ∧ is_absent r = true.
Proof. unfold only_absent. by rewrite list_elem_of_In, filter_In, <-list_elem_of_In. Qed.

Lemma current_route_removed_true il dr via rt :
  current_route_removed il dr via rt = true ↔
  (via ∈ il_desired_ifaces il ∧ ip_disabled il rt via = true) ∨
  ∃ a, a ∈ dr ∧ is_absent a = true ∧ is_match a rt = true.
Proof.
  unfold current_route_removed.
  rewrite orb_true_iff, andb_true_iff, bool_decide_eq_true, existsb_elem_of.
  setoid_rewrite elem_of_only_absent. naive_solver.
Qed.

Lemma iface_goes_away_false il via :
  iface_goes_away il via = false ↔ via ∉ il_will_delete il ∧ via ∉ il_absent il.
Proof.
  unfold iface_goes_away. by rewrite orb_false_iff, !bool_decide_eq_false.
Qed.

Lemma removal_of_Some il dr rt r :
  removal_of il dr rt = Some r ↔
  ∃ via, r = mark_absent rt ∧ rt_next_hop_iface rt = Some via ∧
    iface_goes_away il via = false ∧ current_route_removed il dr via rt = true.
Proof.
  unfold removal_of. destruct (rt_next_hop_iface rt) as [via|].
  - destruct (iface_goes_away il via) eqn:E1, (current_route_removed il dr via rt) eqn:E2;
      (split; [try done|intros (v & -> & [= <-] & ? & ?); congruence]).
    intros [= <-]. by exists via.
  - split; [done|]. by intros (? & _ & ? & _).
Qed.

Lemma elem_of_requested_changes il current dr r :
  r ∈ requested_changes il current dr ↔
  must_remove il current dr r ∨ must_add il current dr r.
Proof.
  unfold requested_changes, must_remove, must_add.
  rewrite elem_of_app, list_elem_of_omap. f_equiv.
  - setoid_rewrite removal_of_Some. setoid_rewrite iface_goes_away_false.
    setoid_rewrite current_route_removed_true. split.
    + intros (cur & ? & via & ? & ? & [] & ?). by exists cur, via.
    + intros (cur & via & ? & ? & ? & ? & ? & ?). exists cur. split; [done|]. by exists via.
  - rewrite list_elem_of_In, filter_In, <-list_elem_of_In, elem_of_not_absent.
    unfold needs_add, current_route_matches.
    rewrite orb_true_iff, iface_in_true, negb_true_iff, existsb_false_elem_of. tauto.
Qed.


(** ** Which requests are accepted *)

(** The next hop of a sanitized desired route can be used. *)
Definition next_hop_usable (mi : MergedInterfaces) (r : RouteEntry) : Prop :=
  let il := collect_iface_lists mi in
  match rt_next_hop_iface r with
  | None => True
  | Some name =>
      match resolve_route_next_hop_iface mi name with
      | Some k => is_absent r = true ∨ (k ∉ il_absent il ∧ ip_disabled il r k = false)
      | None => is_pending_wifi_cfg_route_target mi name = true
      end
  end.

(** A desired route is acceptable: it can be sanitized, and it is only to be
    saved or its next hop can be used. *)
Definition acceptable (mi : MergedInterfaces) (r : RouteEntry) : Prop :=
  ∃ r', sanitize r = Ok r' ∧
    (is_saved r' = true ∨
     in_set (rt_next_hop_iface r') (il_saved_only (collect_iface_lists mi)) ∨
     next_hop_usable mi r').

Lemma fill_onlink_same il r :
  is_absent (fill_onlink il r) = is_absent r ∧ rt_is_ipv6 (fill_onlink il r) = rt_is_ipv6 r ∧
  rt_next_hop_iface (fill_onlink il r) = rt_next_hop_iface r ∧
  rt_destination (fill_onlink il r) = rt_destination r.
Proof. unfold fill_onlink. case_match; by destruct r. Qed.

Lemma ip_disabled_same il r r' via :
  rt_is_ipv6 r = rt_is_ipv6 r' → ip_disabled il r via = ip_disabled il r' via.
Proof. unfold ip_disabled. by intros ->. Qed.

Lemma validate_desired_route_ok il r :
  validate_desired_route il r = Ok tt ↔
  ∀ via, rt_next_hop_iface r = Some via →
    via ∉ il_absent il ∧ ip_disabled il r via = false.
Proof.
  unfold validate_desired_route.
  destruct (rt_next_hop_iface r) as [via|]; [|naive_solver].
  transitivity (via ∉ il_absent il ∧ ip_disabled il r via = false); [|naive_solver].
  rewrite <-(bool_decide_eq_false (via ∈ il_absent il)). unfold ip_disabled.
  destruct (rt_is_ipv6 r), (bool_decide (via ∈ il_absent il)),
    (bool_decide (via ∈ il_ipv6_disabled il)), (bool_decide (via ∈ il_ipv4_disabled il));
    simpl; (split; [intros H; first [discriminate H|done]|intros [H1 H2]; congruence]).
Qed.

(** A desired route once its next hop is resolved to [k]. *)
Lemma resolved_hop_ok il r k :
  let x := fill_onlink il (set_rt_next_hop_iface (Some k) r) in
  is_absent x = is_absent r ∧ rt_is_ipv6 x = rt_is_ipv6 r ∧ rt_next_hop_iface x = Some k ∧
  (validate_desired_route il x = Ok tt ↔ k ∉ il_absent il ∧ ip_disabled il r k = false).
Proof.
  intros x. destruct (fill_onlink_same il (set_rt_next_hop_iface (Some k) r))
    as (H1 & H2 & H3 & _). fold x in H1, H2, H3.
  assert (rt_is_ipv6 x = rt_is_ipv6 r) as H6 by (rewrite H2; by destruct r).
  assert (rt_next_hop_iface x = Some k) as Hk by (rewrite H3; by destruct r).
  split_and!; [rewrite H1; by destruct r|done|done|].
  rewrite validate_desired_route_ok, Hk, <-(ip_disabled_same il x r k H6). naive_solver.
Qed.

Lemma resolve_desired_route_ok mi r :
  acceptable mi r ↔
  ∃ o, resolve_desired_route mi (collect_iface_lists mi) r = Ok o ∧
    ∀ x, o = Some x → is_absent x = false →
      validate_desired_route (collect_iface_lists mi) x = Ok tt.
Proof.
  set (il := collect_iface_lists mi). unfold acceptable, resolve_desired_route. fold il.
  destruct (sanitize r) as [r'|e] eqn:Es; [|split; [by intros (? & ? & _)|by intros (? & ? & _)]].
  transitivity (is_saved r' || iface_in (rt_next_hop_iface r') (il_saved_only il) = true ∨
    next_hop_usable mi r').
  { rewrite orb_true_iff, iface_in_true. split; [intros (? & [= <-] & ?); tauto|].
    intros H. exists r'. split; [done|tauto]. }
  destruct (_ || _); [split; [by exists None|by left]|].
  unfold next_hop_usable. fold il. destruct (rt_next_hop_iface r') as [name|] eqn:Eh.
  - destruct (resolve_route_next_hop_iface mi name) as [k|].
    + destruct (resolved_hop_ok il r' k) as (Ha & _ & _ & Hv). split.
      * intros [|H]; [done|]. eexists. split; [done|]. intros x [= <-] Hx.
        rewrite Ha in Hx. apply Hv. destruct H as [H|H]; [congruence|done].
      * intros (o & [= <-] & H). right. destruct (is_absent r'); [by left|right].
        apply Hv, H; [done|congruence].
    + destruct (is_pending_wifi_cfg_route_target mi name).
      * split; [by exists None|by right].
      * split; [by intros []|by intros (? & ? & _)].
  - split; [intros _|by right]. eexists. split; [done|]. intros x [= <-] _.
    apply validate_desired_route_ok.
    destruct (fill_onlink_same il r') as (_ & _ & -> & _). congruence.
Qed.

(** The two loops that can refuse a desired route. *)
Lemma desired_routes_accepted mi d :
  (∃ dr ci, resolve_desired_routes d mi (collect_iface_lists mi) = Ok dr ∧
     validate_desired_routes dr (collect_iface_lists mi) ∅ = Ok ci) ↔
  ∀ r, r ∈ default [] (config d) → acceptable mi r.
Proof.
  setoid_rewrite resolve_desired_route_ok.
  unfold resolve_desired_routes, validate_desired_routes.
  set (il := collect_iface_lists mi). set (l := default [] (config d)). split.
  - intros (dr & ci & H1 & H2) r Hr.
    destruct (map_result (resolve_desired_route mi il) l) as [os|] eqn:E; [|done].
    injection H1 as <-. apply map_result_Forall2 in E.
    destruct (Forall2_elem_l _ _ _ _ E Hr) as (o & Ho & Hro). exists o. split; [done|].
    intros x -> Hx. pose proof (map_result_unit (validate_desired_route il)
      (not_absent (omap id os))) as Hu.
    destruct (map_result (validate_desired_route il) _); [|done].
    apply Hu; [done|]. by rewrite elem_of_not_absent, elem_of_omap_id.
  - intros H. assert (is_ok (map_result (resolve_desired_route mi il) l) = true) as E.
    { apply map_result_is_ok. intros r Hr. destruct (H r Hr) as (o & Ho & _). eauto. }
    apply is_ok_Ok in E as [os E]. rewrite E. exists (omap id os).
    apply map_result_Forall2 in E.
    pose proof (map_result_unit (validate_desired_route il) (not_absent (omap id os))) as Hu.
    assert (is_ok (map_result (validate_desired_route il) (not_absent (omap id os))) = true)
      as [us ->]%is_ok_Ok; [|eauto].
    apply Hu. intros x. rewrite elem_of_not_absent, elem_of_omap_id. intros [Hx Ha].
    destruct (Forall2_elem_r _ _ _ _ E Hx) as (r & Hr & Hrx).
    destruct (H r Hr) as (o & Ho & Hv). apply Hv; congruence.
Qed.

(** [MergedRoutes::new] accepts a request exactly when the request, less
    its ignored routes, is valid, its VRF names resolve, and every desired route
    with what it inherits from the saved ones is acceptable: it can be
    sanitized, and it is only to be saved, or has no next hop interface, or its
    next hop interface is a known one that, unless the route is a removal, is
    not being deleted and has IP enabled for the route's family, or is a wifi
    profile that waits for its radio to connect. *)
Theorem merged_routes_new_accepts desired current saved mi :
  is_ok (merged_routes_new desired current saved mi) = true ↔
  validate (remove_ignored_routes desired) = Ok tt ∧
  ∃ d1, resolve_vrf_name (remove_ignored_routes desired) mi = Ok d1 ∧
    ∀ r, r ∈ default [] (config (inherit_saved_route_fields d1 saved mi).1) →
      acceptable mi r.
Proof.
  rewrite is_ok_Ok. setoid_rewrite <-desired_routes_accepted.
  setoid_rewrite merged_routes_new_ok. split.
  - intros (mr & d1 & consumed & dr & merged & ci0 & ci & []).
    split; [done|]. exists d1. split; [done|]. rewrite nr_inherit0. by exists dr, ci0.
  - intros (Hv & d1 & Hd1 & dr & ci0 & H1 & H2).
    destruct (inherit_saved_route_fields d1 saved mi) as [d2 consumed] eqn:E.
    destruct (foldl (restore_saved_step (collect_iface_lists mi) consumed)
      (dedup_routes (sort_routes (merged_before_dedup (collect_iface_lists mi) current dr)),
       insert_all (requested_changes (collect_iface_lists mi) current dr) [],
       collect_absent_route_changes dr current ci0)
      (enumerate (default [] (saved ≫= config)))) as [[merged changed] ci] eqn:Er.
    eexists (merged_routes _ _ changed d2 current saved _).
    exists d1, consumed, dr, merged, ci0, ci.
    constructor; simpl; try done; reflexivity.
Qed.

(** ** What is persisted *)

(** The kernel name of the next hop interface of a saved route. *)
Definition kernel_hop (mi : MergedInterfaces) (r : RouteEntry) : option string :=
  (λ via, default via (resolve_route_next_hop_iface mi via)) <$> rt_next_hop_iface r.

(** The desired state sets the IP section of [r]'s family on [via] to
    disabled. *)
Definition desired_disables (mi : MergedInterfaces) (r : RouteEntry) (via : string) : Prop :=
  ∃ m i, assoc_get via (kernel_ifaces mi) = Some m ∧ mi_desired m = Some i ∧
    (if rt_is_ipv6 r
     then ∃ p, bi_ipv6 (base_iface i) = Some p ∧ ipv6_is_enabled p = false
     else ∃ p, bi_ipv4 (base_iface i) = Some p ∧ ipv4_is_enabled p = false).

(** The reasons for which an apply drops a saved route. *)
Definition saved_dropped (mi : MergedInterfaces) (desired : Routes) (r : RouteEntry) : Prop :=
  (∃ a, a ∈ default [] (config desired) ∧ is_absent a = true ∧
     is_match (resolve_route_next_hop a mi) (resolve_route_next_hop r mi) = true) ∨
  (∃ via, kernel_hop mi r = Some via ∧
     (via ∈ ignored_iface_names mi ∨ via ∈ il_absent (collect_iface_lists mi) ∨
      (via ∈ il_desired_ifaces (collect_iface_lists mi) ∧ desired_disables mi r via))).

Lemma desired_iface_disabled mi r via :
  desired_disables mi r via ↔
  (rt_is_ipv6 r && desired_iface_ipv6_disabled mi via ||
   negb (rt_is_ipv6 r) && desired_iface_ipv4_disabled mi via) = true.
Proof.
  unfold desired_disables, desired_iface_ipv6_disabled, desired_iface_ipv4_disabled.
  destruct (assoc_get via (kernel_ifaces mi)) as [m|]; simpl;
    [|rewrite !andb_false_r; naive_solver].
  destruct (mi_desired m) as [i|] eqn:Ei; simpl; [|rewrite !andb_false_r; naive_solver].
  destruct (rt_is_ipv6 r); simpl; rewrite ?orb_false_r.
  - destruct (bi_ipv6 (base_iface i)) as [p|] eqn:E; [rewrite negb_true_iff|].
    + split; [intros (? & ? & ? & ? & ? & ? & ?); by simplify_eq|].
      intros H. exists m, i. rewrite Ei, E. eauto 10.
    + split; [|done]. intros (? & ? & ? & ? & ? & ? & ?); by simplify_eq.
  - destruct (bi_ipv4 (base_iface i)) as [p|] eqn:E; [rewrite negb_true_iff|].
    + split; [intros (? & ? & ? & ? & ? & ? & ?); by simplify_eq|].
      intros H. exists m, i. rewrite Ei, E. eauto 10.
    + split; [|done]. intros (? & ? & ? & ? & ? & ? & ?); by simplify_eq.
Qed.

Lemma saved_route_is_removed_true mi desired r :
  saved_route_is_removed r desired (collect_iface_lists mi) (ignored_iface_names mi) mi = true ↔
  saved_dropped mi desired r.
Proof.
  unfold saved_route_is_removed, saved_dropped. fold (kernel_hop mi r).
  assert (match kernel_hop mi r with
    | Some k => set_rt_next_hop_iface (Some k) r | None => r end =
    resolve_route_next_hop r mi) as ->.
  { unfold kernel_hop, resolve_route_next_hop.
    destruct (rt_next_hop_iface r) as [n|] eqn:E; [|done]. simpl.
    destruct (resolve_route_next_hop_iface mi n); [done|]. destruct r; simpl in *. by subst. }
  destruct (existsb _ _) eqn:Ex.
  - apply existsb_elem_of in Ex as (a & [Ha ?]%elem_of_only_absent & ?).
    split; [intros _; left; by exists a|done].
  - rewrite existsb_false_elem_of in Ex. split.
    + intros H. right. destruct (kernel_hop mi r) as [via|]; [|done]. exists via.
      split; [done|].
      apply orb_true_iff in H as [[H|H]%orb_true_iff|[H H2%desired_iface_disabled]%andb_true_iff];
        apply bool_decide_eq_true in H; tauto.
    + intros [(a & Ha & Hab & Hm)|(via & -> & H)].
      * rewrite Ex in Hm; [done|]. by rewrite elem_of_only_absent.
      * apply orb_true_iff. rewrite orb_true_iff, andb_true_iff, !bool_decide_eq_true.
        rewrite <-desired_iface_disabled. tauto.
Qed.

(** The saved routes an apply keeps. *)
Definition saved_kept (mi : MergedInterfaces) (desired : Routes) (saved : option Routes)
    (consumed : list nat) (i : nat) (r : RouteEntry) : Prop :=
  default [] (saved ≫= config) !! i = Some r ∧ i ∉ consumed ∧ is_absent r = false ∧
  ¬ saved_dropped mi desired r.

(** The set [gen_routes_for_save] sorts. *)
Lemma gen_routes_for_save_set mi desired saved consumed :
  ∃ k, gen_routes_for_save desired saved (collect_iface_lists mi)
         (ignored_iface_names mi) mi consumed =
       routes None (Some (sort_routes (insert_all
         (not_absent (default [] (config desired)) ++ k) []))) ∧
       ∀ r, r ∈ k ↔ ∃ i, saved_kept mi desired saved consumed i r.
Proof.
  set (f := λ e : nat * RouteEntry,
    if is_absent e.2 || bool_decide (e.1 ∈ consumed) then None
    else if saved_route_is_removed e.2 desired (collect_iface_lists mi)
              (ignored_iface_names mi) mi then None else Some e.2).
  exists (omap f (enumerate (default [] (saved ≫= config)))). split.
  - unfold gen_routes_for_save. cbv zeta. do 3 f_equal. rewrite hset_insert_all_app.
    apply foldl_hset_insert_omap. intros s e. unfold f. by repeat case_match.
  - intros r. rewrite list_elem_of_omap. unfold saved_kept.
    setoid_rewrite <-saved_route_is_removed_true. split.
    + intros ([i r'] & Hi%elem_of_enumerate & Hf). unfold f in Hf. simpl in Hf.
      destruct (_ || _) eqn:E1; [done|]. destruct (saved_route_is_removed _ _ _ _ _) eqn:E2; [done|].
      injection Hf as ->. bool_hyps. exists i. split_and!; try done. by rewrite E2.
    + intros (i & Hi & Hc & Ha & Hk). exists (i, r). split; [by apply elem_of_enumerate|].
      unfold f. simpl. rewrite Ha, bool_decide_false by done. simpl.
      by destruct (saved_route_is_removed _ _ _ _ _).
Qed.

(** What a successful merge persists: a sorted list without two equal
    routes that holds every desired route that is not a removal and every saved
    route the apply keeps, up to the properties route equality ignores, and
    nothing else; of a desired and a saved route that are equal the desired one
    is persisted.  A saved route is kept unless a desired route replaced it, an
    absent desired route matches it, or its next hop interface is ignored, being
    deleted, or explicitly set by the desired state to IP disabled for the
    family of the route.  The list does not depend on the order in which the
    hash set yields its elements. *)
Theorem routes_for_save_correct desired current saved mi mr :
  merged_routes_new desired current saved mi = Ok mr →
  ∃ d1 consumed l,
    inherit_saved_route_fields d1 saved mi = (mr_desired mr, consumed) ∧
    mr_for_save mr = routes None (Some l) ∧
    StronglySorted route_le l ∧ routes_distinct l ∧
    (∀ k, k ≡ₚ l → sort_routes k = l) ∧
    let wanted r :=
      r ∈ default [] (config (mr_desired mr)) ∧ is_absent r = false in
    let kept r := ∃ i, saved_kept mi (mr_desired mr) saved consumed i r in
    (∀ r, r ∈ l → wanted r ∨ (kept r ∧ ∀ d, wanted d → sort_key d ≠ sort_key r)) ∧
    (∀ r, wanted r ∨ kept r → sort_key r ∈ sort_key <$> l).
Proof.
  intros (d1 & consumed & dr & merged & ci0 & ci & [])%merged_routes_new_ok.
  destruct (gen_routes_for_save_set mi (mr_desired mr) saved consumed) as (k & Hs & Hk).
  set (w := not_absent (default [] (config (mr_desired mr)))) in *.
  set (set := insert_all (w ++ k) []) in *.
  exists d1, consumed, (sort_routes set). cbv zeta. setoid_rewrite <-Hk.
  setoid_rewrite <-elem_of_not_absent. fold w.
  assert (routes_distinct (sort_routes set)) as Hd.
  { unfold keys_distinct. rewrite sort_routes_perm. apply insert_all_distinct. }
  split_and!; [done|by rewrite nr_for_save0|apply sort_routes_sorted|done| | |].
  - intros l Hl. rewrite sort_routes_perm in Hl.
    apply sort_routes_any_order; [apply insert_all_distinct|done].
  - intros r (l1 & l2 & Hl & Hn)%elem_of_sort_routes%elem_of_insert_all.
    apply app_eq_inv in Hl as [(m & -> & Hm)|(m & -> & Hm)].
    + destruct m as [|x m]; simpl in Hm.
      * right. subst k. split; [set_solver|]. intros d Hd' He. apply Hn. rewrite <-He.
        apply list_elem_of_fmap_2. set_solver.
      * injection Hm as <- _. left. set_solver.
    + right. subst k. split; [set_solver|]. intros d Hd' He. apply Hn. rewrite <-He.
      apply list_elem_of_fmap_2. set_solver.
  - intros r Hr. assert (r ∈ w ++ k) as Hr' by set_solver.
    apply insert_all_key in Hr'. apply list_elem_of_fmap in Hr' as (y & -> & Hy).
    apply list_elem_of_fmap_2. by apply elem_of_sort_routes.
Qed.

(** ** Interfaces to reconfigure *)

(** The interface whose group a route belongs to. *)
Definition route_group (r : RouteEntry) : option string :=
  match rt_next_hop_iface r with
  | Some via => Some via
  | None => if bool_decide (is_Some (rt_route_type r)) then Some LOOPBACK_IFACE_NAME else None
  end.

Lemma route_changed_iface_group r n : n ∈ route_changed_iface r ↔ route_group r = Some n.
Proof.
  unfold route_changed_iface, route_group. destruct (rt_next_hop_iface r) as [via|].
  - rewrite elem_of_singleton. naive_solver.
  - destruct (bool_decide _); [rewrite elem_of_singleton; naive_solver|set_solver].
Qed.

Lemma foldl_union_elem (f : RouteEntry → gset string) l s n :
  n ∈ foldl (λ s r, s ∪ f r) s l ↔ n ∈ s ∨ ∃ r, r ∈ l ∧ n ∈ f r.
Proof.
  revert s. induction l as [|r l IH]; intros s; simpl; [set_solver|].
  rewrite IH. set_solver.
Qed.

Lemma group_push_lookup m k r n :
  default [] (group_push m k r !! n) =
  default [] (m !! n) ++ (if decide (k = n) then [r] else []).
Proof.
  unfold group_push. destruct (decide (k = n)) as [->|Hn].
  - by rewrite lookup_insert_eq.
  - by rewrite lookup_insert_ne, app_nil_r.
Qed.

Lemma group_step_lookup m r n :
  default [] (match rt_next_hop_iface r with
    | Some via => group_push m via r
    | None => if bool_decide (is_Some (rt_route_type r))
              then group_push m LOOPBACK_IFACE_NAME r else m
    end !! n) =
  default [] (m !! n) ++ (if bool_decide (route_group r = Some n) then [r] else []).
Proof.
  unfold route_group.
  destruct (rt_next_hop_iface r) as [via|]; [|destruct (bool_decide (is_Some _))].
  - rewrite group_push_lookup. f_equal. by destruct (decide (via = n)) as [->|];
      [rewrite bool_decide_true|rewrite bool_decide_false by congruence].
  - rewrite group_push_lookup. f_equal. by destruct (decide (LOOPBACK_IFACE_NAME = n)) as [->|];
      [rewrite bool_decide_true|rewrite bool_decide_false by congruence].
  - by rewrite app_nil_r.
Qed.

(** Grouping keeps, for each interface, its routes in their order. *)
Lemma group_by_next_hop_iface_lookup l n :
  default [] (group_by_next_hop_iface l !! n) =
  List.filter (λ r, bool_decide (route_group r = Some n)) l.
Proof.
  unfold group_by_next_hop_iface.
  match goal with |- default [] (foldl ?f _ _ !! _) = _ =>
    assert (∀ m, default [] (foldl f m l !! n) = default [] (m !! n) ++
      List.filter (λ r, bool_decide (route_group r = Some n)) l) as H; [|by rewrite H]
  end.
  induction l as [|r l IH]; intros m; [by rewrite app_nil_r|].
  cbn [foldl List.filter]. rewrite IH, group_step_lookup.
  destruct (bool_decide (route_group r = Some n)); by rewrite <-app_assoc.
Qed.

(** The interfaces a successful merge marks.  The interface of every
    changed route, the loopback interface for a route without next hop, is
    among the changed interfaces unless it is ignored, so that an apply whose
    only change is a deletion is not skipped; an ignored interface is neither
    among them nor has merged routes; and the merged routes filed under an
    interface are routes through that interface. *)
Theorem merged_routes_ifaces_correct desired current saved mi mr :
  merged_routes_new desired current saved mi = Ok mr →
  (∀ r n, r ∈ mr_changed_routes mr → route_group r = Some n →
     n ∈ mr_route_changed_ifaces mr ∨ n ∈ ignored_iface_names mi) ∧
  (∀ n, n ∈ ignored_iface_names mi →
     n ∉ mr_route_changed_ifaces mr ∧ mr_merged mr !! n = None) ∧
  (∀ n l, mr_merged mr !! n = Some l → Forall (λ r, route_group r = Some n) l) ∧
  (mr_changed_routes mr ≠ [] → mr_is_changed mr = false →
     ∀ r, r ∈ mr_changed_routes mr →
       route_group r = None ∨ ∃ n, route_group r = Some n ∧ n ∈ ignored_iface_names mi).
Proof.
  intros (d1 & consumed & dr & merged & ci0 & ci & [])%merged_routes_new_ok.
  assert (∀ n, n ∈ mr_route_changed_ifaces mr ↔ n ∉ ignored_iface_names mi ∧
    (n ∈ ci ∨ ∃ r, r ∈ mr_changed_routes mr ∧ route_group r = Some n)) as Hci.
  { intros n. rewrite nr_changed_ifaces0, list_elem_of_In, filter_In, <-list_elem_of_In.
    rewrite elem_of_elements, negb_true_iff, bool_decide_eq_false, foldl_union_elem.
    setoid_rewrite route_changed_iface_group. tauto. }
  assert (∀ r n, r ∈ mr_changed_routes mr → route_group r = Some n →
    n ∈ mr_route_changed_ifaces mr ∨ n ∈ ignored_iface_names mi) as H1.
  { intros r n Hr Hg. destruct (decide (n ∈ ignored_iface_names mi)); [by right|left].
    apply Hci. eauto. }
  split_and!; [done| | |].
  - intros n Hn. rewrite Hci, nr_merged0, foldl_delete_lookup, decide_True by done.
    split; [tauto|done].
  - intros n l. rewrite nr_merged0, foldl_delete_lookup.
    destruct (decide _); [done|]. intros Hl.
    pose proof (group_by_next_hop_iface_lookup merged n) as Hg. rewrite Hl in Hg.
    simpl in Hg. subst l. apply Forall_forall. intros r Hr.
    apply list_elem_of_In, filter_In in Hr as [_ Hr]. by apply bool_decide_eq_true in Hr.
  - intros _ Hc r Hr. unfold mr_is_changed in Hc. apply negb_false_iff in Hc.
    apply bool_decide_eq_true in Hc. destruct (route_group r) as [n|] eqn:Hg; [right|by left].
    exists n. split; [done|]. destruct (H1 r n Hr Hg) as [H|H]; [|done].
    rewrite Hc in H. set_solver.
Qed.

(** ** Merging two route lists *)

(** A new route with what it inherits from the first old route it matches. *)
Definition inherit_old (old : list RouteEntry) (r : RouteEntry) : RouteEntry :=
  match List.find (λ o, negb (is_absent o) && is_match r o) old with
  | Some o => fill_undefined_route_fields r o
  | None => r
  end.

(** The routes of the merge of [new] into [old]. *)
Inductive merged_into (old new : list RouteEntry) : RouteEntry → Prop :=
| merged_request a :
    a ∈ new → is_absent a = true → (∀ o, o ∈ old → is_match a o = false) →
    merged_into old new a
| merged_present n :
    n ∈ new → is_absent n = false → merged_into old new (inherit_old old n)
| merged_removed o a :
    o ∈ old → a ∈ new → is_absent a = true → is_match a o = true →
    merged_into old new (mark_absent o)
| merged_kept o :
    o ∈ old → (∀ a, a ∈ new → is_absent a = true → is_match a o = false) →
    (is_absent o = false ∨ ∀ n, n ∈ new → is_absent n = false → is_match o n = false) →
    merged_into old new o.

(** What the loop over the old routes inserts. *)
Definition old_route_result (new : list RouteEntry) (o : RouteEntry) : option RouteEntry :=
  if existsb (λ r, is_absent r && is_match r o) new then Some (mark_absent o)
  else if is_absent o && existsb (λ r, negb (is_absent r) && is_match o r) new then None
  else Some o.

Lemma merge_loops old new :
  foldl (merge_old_step new) (foldl (merge_present_step old)
    (foldl (merge_absent_step old) [] (only_absent new)) (not_absent new)) old =
  insert_all (omap (λ a, if existsb (is_match a) old then None else Some a) (only_absent new)
    ++ omap (λ n, Some (inherit_old old n)) (not_absent new)
    ++ omap (old_route_result new) old) [].
Proof.
  rewrite !hset_insert_all_app.
  rewrite (foldl_hset_insert_omap sort_key_cmp sort_key
    (λ a, if existsb (is_match a) old then None else Some a) (merge_absent_step old)).
  - rewrite (foldl_hset_insert_omap sort_key_cmp sort_key
      (λ n, Some (inherit_old old n)) (merge_present_step old)).
    + apply foldl_hset_insert_omap. intros s o. unfold merge_old_step, old_route_result.
      by repeat case_match.
    + intros s n. unfold merge_present_step, inherit_old. by case_match.
  - intros s a. unfold merge_absent_step. by case_match.
Qed.

Lemma existsb_and_false (f g : RouteEntry → bool) l :
  existsb (λ r, f r && g r) l = false ↔ ∀ r, r ∈ l → f r = true → g r = false.
Proof.
  rewrite existsb_false_elem_of. split; intros H r Hr.
  - intros Hf. specialize (H r Hr). by rewrite Hf in H.
  - destruct (f r) eqn:E; [by apply H|done].
Qed.

Lemma old_route_result_merged old new o r :
  o ∈ old → old_route_result new o = Some r → merged_into old new r.
Proof.
  intros Ho. unfold old_route_result.
  destruct (existsb (λ r, is_absent r && is_match r o) new) eqn:E1.
  - intros [= <-]. apply existsb_elem_of in E1 as (a & Ha & Hm). bool_hyps.
    by eapply merged_removed.
  - rewrite existsb_and_false in E1. destruct (is_absent o) eqn:Eo; simpl.
    + destruct (existsb _ new) eqn:E2; [done|]. intros [= <-].
      rewrite existsb_and_false in E2. apply merged_kept; [done|done|right].
      intros n Hn Hna. apply E2; [done|]. by rewrite Hna.
    + intros [= <-]. apply merged_kept; [done|done|by left].
Qed.

Lemma elem_of_merge_loops old new r :
  r ∈ omap (λ a, if existsb (is_match a) old then None else Some a) (only_absent new)
    ++ omap (λ n, Some (inherit_old old n)) (not_absent new)
    ++ omap (old_route_result new) old ↔
  merged_into old new r.
Proof.
  rewrite !elem_of_app, !list_elem_of_omap. split.
  - intros [(a & [Ha Hab]%elem_of_only_absent & H)|[(n & [Hn Hna]%elem_of_not_absent & [= <-])|
      (o & Ho & H)]].
    + destruct (existsb _ old) eqn:E; [done|]. injection H as <-.
      rewrite existsb_false_elem_of in E. by apply merged_request.
    + by apply merged_present.
    + by eapply old_route_result_merged.
  - intros [a Ha Hab H|n Hn Hna|o a Ho Ha Hab Hm|o Ho H1 H2].
    + left. exists a. rewrite elem_of_only_absent. split; [done|].
      apply existsb_false_elem_of in H. by rewrite H.
    + right. left. exists n. by rewrite elem_of_not_absent.
    + right. right. exists o. split; [done|]. unfold old_route_result.
      assert (existsb (λ r, is_absent r && is_match r o) new = true) as ->; [|done].
      apply existsb_elem_of. exists a. by rewrite Hab, Hm.
    + right. right. exists o. split; [done|]. unfold old_route_result.
      rewrite (proj2 (existsb_and_false is_absent (λ r, is_match r o) new)) by auto.
      destruct H2 as [->|H2]; [done|]. destruct (is_absent o); [simpl|done].
      rewrite (proj2 (existsb_and_false (λ r, negb (is_absent r)) (is_match o) new)); [done|].
      intros n Hn Hna%negb_true_iff. auto.
Qed.

(** [Routes::merge].  An invalid new list is refused, a new state without
    routes changes nothing, and otherwise the merge is a sorted list without two
    equal routes that holds, up to the properties route equality ignores, exactly
    these: every new route, with the properties it leaves undefined taken from
    the first old route it matches; every removal request that matches no old
    route; a removal for every old route a new removal matches; and every other
    old route, less the old removals that a new route supersedes. *)
Theorem routes_merge_correct self new :
  (is_ok (routes_merge self new) = true ↔ validate new = Ok tt) ∧
  (config new = None → routes_merge self new = Ok self) ∧
  ∀ m nr, routes_merge self new = Ok m → config new = Some nr →
    ∃ l, m = routes None (Some l) ∧ StronglySorted route_le l ∧ routes_distinct l ∧
      (∀ r, r ∈ l → merged_into (default [] (config self)) nr r) ∧
      (∀ r, merged_into (default [] (config self)) nr r → sort_key r ∈ sort_key <$> l).
Proof.
  unfold routes_merge. split_and!.
  - destruct (validate new) as [[]|]; [|done]. by destruct (config new).
  - intros Hc. unfold validate. by rewrite Hc.
  - intros m nr Hm Hc. rewrite Hc in Hm. destruct (validate new) as [[]|]; [|done].
    cbv zeta in Hm. rewrite merge_loops in Hm. injection Hm as <-.
    eexists. split; [done|]. split_and!.
    + apply sort_routes_sorted.
    + unfold keys_distinct. rewrite sort_routes_perm. apply insert_all_distinct.
    + intros r Hr%elem_of_sort_routes%insert_all_sub. by apply elem_of_merge_loops.
    + intros r Hr%elem_of_merge_loops%insert_all_key. by rewrite sort_routes_perm.
Qed.

(** ** Inheriting *)

Lemma agrees_or_else {A} (x y : option A) : agrees x (or_else x y).
Proof. destruct x; [by right|by left]. Qed.

Lemma or_else_agrees {A} (x y : option A) : agrees x y → agrees (or_else x y) y.
Proof. intros [->| ->]; [by right|]. destruct y; by right. Qed.

(** Filling keeps what the route sets, and the result still matches what the
    route matched. *)
Lemma fill_matches r s :
  matches r (fill_undefined_route_fields r s) ∧
  (matches r s → matches (fill_undefined_route_fields r s) s).
Proof.
  split.
  - destruct r, s. constructor; simpl; auto using agrees_or_else.
  - intros [Hd ? ? Ht]. destruct r, s. constructor; simpl in *; auto using or_else_agrees.
    + destruct Hd as [->|H]; [by left|right; by apply or_else_agrees].
    + destruct Ht as [->|H]; [by left|right; by apply or_else_agrees].
Qed.

(** One desired route and the saved route it consumes, if any. *)
Definition inherits (mi : MergedInterfaces) (saved : list RouteEntry) (r : RouteEntry)
    (u : option nat) (r' : RouteEntry) : Prop :=
  match u with
  | None => r' = r
  | Some i => ∃ s, saved !! i = Some s ∧ is_absent s = false ∧ is_absent r = false ∧
      is_match (resolve_route_next_hop r mi) (resolve_route_next_hop s mi) = true ∧
      r' = fill_undefined_route_fields r s
  end.

(** The saved route [i] is there to be consumed by [r]. *)
Definition consumable (mi : MergedInterfaces) (saved : list RouteEntry) (r : RouteEntry)
    (i : nat) : Prop :=
  ∃ s, saved !! i = Some s ∧ is_absent s = false ∧
    is_match (resolve_route_next_hop r mi) (resolve_route_next_hop s mi) = true.

Definition resolved_saved (mi : MergedInterfaces) (saved : list RouteEntry) :
    list (nat * RouteEntry) :=
  (λ e : nat * RouteEntry, (e.1, resolve_route_next_hop e.2 mi)) <$>
  List.filter (λ e : nat * RouteEntry, negb (is_absent e.2)) (enumerate saved).

Lemma elem_of_resolved_saved mi saved i s' :
  (i, s') ∈ resolved_saved mi saved ↔
  ∃ s, saved !! i = Some s ∧ is_absent s = false ∧ s' = resolve_route_next_hop s mi.
Proof.
  unfold resolved_saved. rewrite list_elem_of_fmap. split.
  - intros ([j s] & [= -> ->] & H). apply list_elem_of_In, filter_In in H as [H Ha].
    apply list_elem_of_In, elem_of_enumerate in H. apply negb_true_iff in Ha. eauto.
  - intros (s & Hs & Ha & ->). exists (i, s). split; [done|].
    apply list_elem_of_In, filter_In. rewrite <-list_elem_of_In, elem_of_enumerate.
    by rewrite negb_true_iff.
Qed.

Lemma inherit_loop_spec mi saved l c l' c' :
  inherit_loop mi saved (resolved_saved mi saved) c l = (l', c') →
  NoDup c →
  ∃ us, Forall3 (inherits mi saved) l us l' ∧ NoDup c' ∧
    (∀ i, i ∈ c' ↔ i ∈ c ∨ Some i ∈ us) ∧
    (∀ k r i, l !! k = Some r → us !! k = Some None → is_absent r = false →
       consumable mi saved r i → i ∈ c').
Proof.
  revert c l' c'. induction l as [|r l IH]; intros c l' c' H Hnd; simpl in H.
  { injection H as <- <-. exists []. split_and!; [constructor|done|set_solver|done]. }
  set (p := λ e : nat * RouteEntry, negb (bool_decide (e.1 ∈ c)) &&
    is_match (resolve_route_next_hop r mi) e.2) in H.
  assert (∃ u c1 r1 l1, NoDup c1 ∧ (∀ i, i ∈ c1 ↔ i ∈ c ∨ Some i = u) ∧
    inherits mi saved r u r1 ∧ l' = r1 :: l1 ∧
    inherit_loop mi saved (resolved_saved mi saved) c1 l = (l1, c') ∧
    (u = None → is_absent r = false → ∀ i, consumable mi saved r i → i ∈ c1))
    as (u & c1 & r1 & l1 & Hnd1 & Hc1 & Hr1 & -> & H1 & Hu).
  { destruct (is_absent r) eqn:Ha; [|destruct (List.find p _) as [[i s']|] eqn:Ef];
      (destruct (inherit_loop _ _ _ _ l) as [l1 c1] eqn:E; injection H as <- <-).
    - exists None, c, r, l1. split_and!; [done|naive_solver|done..].
    - apply find_elem_of in Ef as [(s & Hs & Hsa & ->)%elem_of_resolved_saved Hp].
      unfold p in Hp. simpl in Hp. bool_hyps.
      exists (Some i), (i :: c), (fill_undefined_route_fields r s), l1.
      split_and!; [by constructor| |by exists s| |done|done].
      { intros j. rewrite elem_of_cons. naive_solver. }
      by rewrite (nth_lookup_Some _ _ _ _ Hs).
    - exists None, c, r, l1. split_and!; [done|naive_solver|done..|].
      intros _ _ i (s & Hs & Hsa & Hm).
      assert (p (i, resolve_route_next_hop s mi) = false) as Hp.
      { eapply find_none_elem_of; [done|]. apply elem_of_resolved_saved. eauto. }
      unfold p in Hp. simpl in Hp. rewrite Hm, andb_true_r in Hp. by bool_hyps. }
  destruct (IH _ _ _ H1 Hnd1) as (us & HF & Hnd' & Hc' & Hlast).
  exists (u :: us). split_and!;
    [by constructor|done|intros i; rewrite Hc', Hc1, elem_of_cons; tauto|].
  intros [|k] r0 i Hk Hus Ha Hcons; simpl in *; simplify_eq.
  - apply Hc'. left. by apply Hu.
  - by eapply Hlast.
Qed.

(** Inheriting from the saved routes.  Each desired route consumes at most
    one saved route and no saved route is consumed twice; a consuming route and
    the consumed one are not removals, match once their next hop interfaces are
    resolved, and the route takes from the saved one the properties it leaves
    undefined and keeps those it sets; every other route is unchanged, and one
    that is not a removal then matches no saved route that is left. *)
Theorem inherit_saved_route_fields_correct desired saved mi desired' consumed :
  inherit_saved_route_fields desired saved mi = (desired', consumed) →
  let sv := default [] (saved ≫= config) in
  let l := default [] (config desired) in
  let l' := default [] (config desired') in
  running desired' = running desired ∧ NoDup consumed ∧
  ∃ us, Forall3 (inherits mi sv) l us l' ∧
    (∀ i, i ∈ consumed ↔ Some i ∈ us) ∧
    Forall2 (λ r r', is_match r r' = true) l l' ∧
    (∀ k r i, l !! k = Some r → us !! k = Some None → is_absent r = false →
       consumable mi sv r i → i ∈ consumed).
Proof.
  intros H. cbv zeta.
  assert (running desired' = running desired ∧
    inherit_loop mi (default [] (saved ≫= config))
      (resolved_saved mi (default [] (saved ≫= config))) []
      (default [] (config desired)) = (default [] (config desired'), consumed)) as [-> Hl].
  { unfold inherit_saved_route_fields in H. destruct (saved ≫= config) as [sv|]; simpl.
    - destruct (config desired) as [l|] eqn:E; simpl.
      + fold (resolved_saved mi sv) in H. destruct (inherit_loop _ _ _ _ _) as [l1 c1].
        by injection H as <- <-.
      + injection H as <- <-. by rewrite E.
    - injection H as <- <-. split; [done|].
      generalize (default [] (config desired)). intros l.
      induction l as [|r l IH]; [done|]. simpl. unfold resolved_saved. simpl.
      unfold resolved_saved in IH. simpl in IH. rewrite IH. by destruct (is_absent r). }
  apply inherit_loop_spec in Hl as (us & HF & Hnd & Hc & Hlast); [|constructor].
  split_and!; [done|done|]. exists us.
  split_and!; [done|intros i; rewrite Hc, elem_of_nil; tauto| |done].
  clear Hlast Hc H. induction HF as [|r u r' l us l' Hr _ IH]; constructor; [|done].
  apply is_match_matches. destruct u as [i|]; simpl in Hr.
  - destruct Hr as (s & _ & _ & _ & _ & ->). apply fill_matches.
  - subst r'. apply matches_refl.
Qed.

(** ** Reverting *)

Lemma mark_absent_matches c : is_absent (mark_absent c) = true ∧ is_match (mark_absent c) c = true.
Proof.
  split; [by destruct c|]. apply is_match_matches. destruct c.
  constructor; simpl; auto with nipart.
Qed.

(** The revert of a merge undoes its changes: it asks for the removal of
    every route the merge adds, restores every configured current route a
    removal of the merge matches, and asks for nothing else. *)
Theorem generate_revert_correct mr :
  ∃ rv, mr_generate_revert mr = Ok rv ∧ running rv = None ∧ config rv ≠ Some [] ∧
    let l := default [] (config rv) in
    (∀ c, c ∈ mr_changed_routes mr → is_absent c = false →
       ∃ r, r ∈ l ∧ is_absent r = true ∧ is_match r c = true) ∧
    (∀ cur c, cur ∈ default [] (config (mr_current mr)) → c ∈ mr_changed_routes mr →
       is_absent c = true → is_match c cur = true → cur ∈ l) ∧
    (∀ r, r ∈ l →
       (∃ c, c ∈ mr_changed_routes mr ∧ is_absent c = false ∧ r = mark_absent c) ∨
       (r ∈ default [] (config (mr_current mr)) ∧
        ∃ c, c ∈ mr_changed_routes mr ∧ is_absent c = true ∧ is_match c r = true)).
Proof.
  eexists. split; [done|]. split; [done|].
  set (revert := concat (revert_route (mr_current mr) <$> mr_changed_routes mr)).
  assert (∀ r, r ∈ revert ↔ ∃ c, c ∈ mr_changed_routes mr ∧
    r ∈ revert_route (mr_current mr) c) as Hr.
  { intros r. unfold revert. rewrite list_elem_of_In, in_concat.
    setoid_rewrite <-list_elem_of_In. setoid_rewrite list_elem_of_fmap. naive_solver. }
  split; [simpl; by destruct revert|]. cbv zeta. simpl.
  assert (default [] (match revert with [] => None | _ :: _ => Some revert end) = revert) as ->
    by (by destruct revert).
  setoid_rewrite Hr. unfold revert_route.
  assert (∀ c r, r ∈ List.filter (is_match c) (default [] (config (mr_current mr))) ↔
    r ∈ default [] (config (mr_current mr)) ∧ is_match c r = true) as Hf.
  { intros c r. by rewrite list_elem_of_In, filter_In, <-list_elem_of_In. }
  split_and!.
  - intros c Hc Ha. exists (mark_absent c). split; [|apply mark_absent_matches].
    exists c. split; [done|]. rewrite Ha. by apply list_elem_of_singleton.
  - intros cur c Hcur Hc Ha Hm. exists c. split; [done|]. rewrite Ha. by apply Hf.
  - intros r (c & Hc & H). destruct (is_absent c) eqn:Ha.
    + apply Hf in H as [Hr' Hm]. right. eauto.
    + apply list_elem_of_singleton in H as ->. left. eauto.
Qed.

(** ** Concrete runs *)

Definition ex_eth (name : string) (v4 : bool) : Interface :=
  IfEthernet (set_bi_ipv4 (Some (iface_ipv4 (Some v4) None None None None None None None))
    (set_bi_link_state (Some LUp) (set_bi_kernel_iface_name name (base_new name TEthernet)))) None.

(** [eth1] with IPv4 enabled, in the desired and the current state. *)
Definition ex_mi_eth1 : MergedInterfaces :=
  let i := ex_eth "eth1" true in
  merged_interfaces
    [("eth1", merged_interface (Some i) (Some i) i (Some i) (Some i) (Some i) None None false)] [] []
    [("eth1", i)] (search_new [i]).

Definition ex_config (l : list RouteEntry) : Routes := routes None (Some l).

Definition ex_new (desired current : list RouteEntry) (saved : option Routes) :
    res MergedRoutes :=
  merged_routes_new (ex_config desired) (ex_config current) saved ex_mi_eth1.

Definition ex_absent_all : RouteEntry :=
  set_rt_state (Some RAbsent) (set_rt_next_hop_iface (Some "eth1") route_default).

Definition get_ok {A} (d : A) (r : res A) : A := match r with Ok x => x | Err _ => d end.

Definition ex_mr_default : MergedRoutes :=
  merged_routes ∅ [] [] routes_default routes_default None routes_default.

Definition ex_r1 : RouteEntry := ex_route "198.51.100.0/24" "eth1" 254 100.
Definition ex_r2 : RouteEntry := ex_route "203.0.113.0/24" "eth1" 254 100.

(** Adding a route next to one that exists and one that is saved. *)
Definition ex_mr : MergedRoutes :=
  get_ok ex_mr_default (ex_new [ex_r1] [] (Some (ex_config [ex_r2]))).

Example ex_mr_ok : ex_new [ex_r1] [] (Some (ex_config [ex_r2])) = Ok ex_mr.
Proof. vm_compute. reflexivity. Qed.

Example ex_mr_changed : mr_changed_routes ex_mr = [ex_r1].
Proof. vm_compute. reflexivity. Qed.

Example ex_mr_for_save : mr_for_save ex_mr = ex_config [ex_r1; ex_r2].
Proof. vm_compute. reflexivity. Qed.


Lemma routes_for_save_correct_witness :
  ∃ l, mr_for_save ex_mr = routes None (Some l) ∧ StronglySorted route_le l.
Proof.
  destruct (routes_for_save_correct _ _ _ _ _ ex_mr_ok) as (_ & _ & l & _ & H1 & H2 & _).
  exact (ex_intro _ l (conj H1 H2)).
Defined.

Lemma merged_routes_ifaces_correct_witness :
  "eth1" ∈ mr_route_changed_ifaces ex_mr ∨ "eth1" ∈ ignored_iface_names ex_mi_eth1.
Proof.
  apply (proj1 (merged_routes_ifaces_correct _ _ _ _ _ ex_mr_ok) ex_r1 "eth1");
    [rewrite ex_mr_changed; apply list_elem_of_here|vm_compute; reflexivity].
Defined.

Lemma routes_merge_correct_witness :
  ∃ l, get_ok routes_default (routes_merge (ex_config [ex_r2]) (ex_config [ex_r1])) =
       routes None (Some l) ∧ StronglySorted route_le l.
Proof.
  destruct (proj2 (proj2 (routes_merge_correct (ex_config [ex_r2]) (ex_config [ex_r1])))
    (get_ok routes_default (routes_merge (ex_config [ex_r2]) (ex_config [ex_r1]))) [ex_r1])
    as (l & H1 & H2 & _); [vm_compute; reflexivity|reflexivity|].
  exact (ex_intro _ l (conj H1 H2)).
Defined.

Lemma inherit_saved_route_fields_correct_witness :
  NoDup (inherit_saved_route_fields (ex_config [ex_r1]) (Some (ex_config [ex_r1]))
    ex_mi_eth1).2.
Proof.
  exact (proj1 (proj2 (inherit_saved_route_fields_correct (ex_config [ex_r1])
    (Some (ex_config [ex_r1])) ex_mi_eth1 _ _ (surjective_pairing _)))).
Defined.

(** Changing a route "by deleting the old one and adding the new one in a
    single transaction", as the documentation of [Routes::config] has it,
    deletes the old one and adds nothing: the new route is compared with the
    current routes, the one being deleted included, and the comparison ignores
    the metric. *)
Example delete_and_add_only_deletes :
  mr_changed_routes (get_ok ex_mr_default
    (ex_new [ex_absent_all; ex_route "198.51.100.0/24" "eth1" 254 200] [ex_r1] None)) =
  [mark_absent ex_r1].
Proof. vm_compute. reflexivity. Qed.

(** An empty next hop address of an absent route, documented to delete the
    routes without next hop address, is refused. *)
Example absent_empty_next_hop_addr :
  is_err (ex_new [set_rt_next_hop_addr (Some "") ex_absent_all] [] None) = true ∧
  is_match (set_rt_next_hop_addr (Some "") ex_absent_all)
    (set_rt_next_hop_addr None ex_r1) = false.
Proof. split; vm_compute; reflexivity. Qed.

(** An absent route spelled in a non-canonical way is sanitized before it is
    compared with the current routes, but not before it is compared with the
    saved ones: the route leaves the kernel and stays in the saved state. *)
Definition ex_absent_spelled : RouteEntry :=
  set_rt_state (Some RAbsent)
    (set_rt_destination (Some "198.51.100.7/24")
       (set_rt_next_hop_iface (Some "eth1") route_default)).

Example absent_not_sanitized_for_save :
  let mr := get_ok ex_mr_default (ex_new [ex_absent_spelled] [ex_r1] (Some (ex_config [ex_r1]))) in
  mr_changed_routes mr = [mark_absent ex_r1] ∧ mr_for_save mr = ex_config [ex_r1].
Proof. vm_compute. split; reflexivity. Qed.
