(* ===== verification/RouteRule.v ===== *)
(** * RouteRule: policy routing rules

    [src/lib/schema/route_rule.rs]: the rule entry with its ordering key, its
    matching, validation and sanitizing, [RouteRules::validate] and
    [RouteRules::merge], and the assignment of automatic priorities.  Messages
    and [Display] are not modelled; [i64] arithmetic wraps. *)

From S2P Require Export Route.

#[local] Open Scope Z_scope.

Definition ROUTE_RULE_DEFAULT_PRIORITY : Z := 30000.
Definition ROUTE_RULE_DEFAULT_ROUTE_TABLE_ID : Z := 254.

Inductive RouteRuleState : Type := RuleAbsent.

#[export] Instance RouteRuleState_eq_dec : EqDecision RouteRuleState.
Proof. solve_decision. Defined.

Inductive AddressFamily : Type := Ipv4 | Ipv6.

#[export] Instance AddressFamily_eq_dec : EqDecision AddressFamily.
Proof. solve_decision. Defined.

Inductive RouteRuleAction : Type := ABlackhole | AUnreachable | AProhibit.

#[export] Instance RouteRuleAction_eq_dec : EqDecision RouteRuleAction.
Proof. solve_decision. Defined.

(** [From<RouteRuleAction> for u8]. *)
Definition action_to_u8 (a : RouteRuleAction) : Z :=
  match a with ABlackhole => 6 | AUnreachable => 7 | AProhibit => 8 end.

Record RouteRuleEntry : Type := route_rule {
  rr_family : option AddressFamily;
  rr_state : option RouteRuleState;
  rr_ip_from : option string;
  rr_ip_to : option string;
  rr_priority : option Z;
  rr_table_id : option Z;
  rr_fwmark : option Z;
  rr_fwmask : option Z;
  rr_action : option RouteRuleAction;
  rr_iif : option string;
  rr_suppress_prefix_length : option Z;
}.

#[export] Instance RouteRuleEntry_eq_dec : EqDecision RouteRuleEntry.
Proof. solve_decision. Defined.

Definition rule_default : RouteRuleEntry :=
  route_rule None None None None None None None None None None None.

Definition USE_DEFAULT_PRIORITY : Z := -1.
Definition RULE_USE_DEFAULT_ROUTE_TABLE : Z := 0.

(** Assignments to single fields. *)
Definition set_rr_family (x : option AddressFamily) (r : RouteRuleEntry) : RouteRuleEntry :=
  let 'route_rule _ s f t p tb m k a i l := r in route_rule x s f t p tb m k a i l.
Definition set_rr_state (x : option RouteRuleState) (r : RouteRuleEntry) : RouteRuleEntry :=
  let 'route_rule fa _ f t p tb m k a i l := r in route_rule fa x f t p tb m k a i l.
Definition set_rr_ip_from (x : option string) (r : RouteRuleEntry) : RouteRuleEntry :=
  let 'route_rule fa s _ t p tb m k a i l := r in route_rule fa s x t p tb m k a i l.
Definition set_rr_ip_to (x : option string) (r : RouteRuleEntry) : RouteRuleEntry :=
  let 'route_rule fa s f _ p tb m k a i l := r in route_rule fa s f x p tb m k a i l.
Definition set_rr_priority (x : option Z) (r : RouteRuleEntry) : RouteRuleEntry :=
  let 'route_rule fa s f t _ tb m k a i l := r in route_rule fa s f t x tb m k a i l.
Definition set_rr_table_id (x : option Z) (r : RouteRuleEntry) : RouteRuleEntry :=
  let 'route_rule fa s f t p _ m k a i l := r in route_rule fa s f t p x m k a i l.
Definition set_rr_iif (x : option string) (r : RouteRuleEntry) : RouteRuleEntry :=
  let 'route_rule fa s f t p tb m k a _ l := r in route_rule fa s f t p tb m k a x l.

Definition rule_is_absent (r : RouteRuleEntry) : bool :=
  bool_decide (rr_state r = Some RuleAbsent).

(** [RouteRuleEntry::is_ipv6]. *)
Definition rule_is_ipv6 (r : RouteRuleEntry) : bool :=
  bool_decide (rr_family r = Some Ipv6) ||
  bool_decide (is_ipv6_addr <$> rr_ip_from r = Some true) ||
  bool_decide (is_ipv6_addr <$> rr_ip_to r = Some true).

(** The family a network string is written in. *)
Definition addr_family (net : string) : AddressFamily :=
  if is_ipv6_addr net then Ipv6 else Ipv4.

(** [is_ipv6_addr(net) != (family == Ipv6)]. *)
Definition family_mismatch (family : AddressFamily) (net : option string) : bool :=
  match net with
  | Some net => negb (eqb (is_ipv6_addr net) (bool_decide (family = Ipv6)))
  | None => false
  end.

(** [validate_fwmark_and_fwmask]. *)
Definition validate_fwmark_and_fwmask (self : RouteRuleEntry) : res unit :=
  if bool_decide (rr_fwmark self = None) && bool_decide (is_Some (rr_fwmask self))
  then fail InvalidArgument else Ok tt.

(** [RouteRuleEntry::validate]. *)
Definition rule_validate (self : RouteRuleEntry) : res unit :=
  if bool_decide (rr_ip_from self = None) && bool_decide (rr_ip_to self = None) &&
     bool_decide (rr_family self = None)
  then fail InvalidArgument
  else
    let? _ :=
      match rr_family self with
      | Some family =>
          if family_mismatch family (rr_ip_from self) then fail InvalidArgument
          else if family_mismatch family (rr_ip_to self) then fail InvalidArgument
          else Ok tt
      | None => Ok tt
      end in
    validate_fwmark_and_fwmask self.

(** [canonical_ip_network]. *)
Definition canonical_ip_network (ip_net : string) : option string :=
  match sanitize_ip_network ip_net with Ok n => Some n | Err _ => None end.

(** A prefix of the pattern: absent, a network in any spelling, or the empty
    string, which stands for rules without this prefix. *)
Definition prefix_matches (self other : option string) : bool :=
  match self with
  | None => true
  | Some net =>
      if negb (String.eqb net "") then
        match canonical_ip_network net with
        | None => false
        | Some n => bool_decide (other = Some n)
        end
      else
        match other with Some o => String.eqb o "" | None => true end
  end.

(** [RouteRuleEntry::is_match]. *)
Definition rule_is_match (self other : RouteRuleEntry) : bool :=
  if negb (prefix_matches (rr_ip_from self) (rr_ip_from other)) then false
  else if negb (prefix_matches (rr_ip_to self) (rr_ip_to other)) then false
  else if bool_decide (is_Some (rr_family self)) &&
          bool_decide (is_Some (rr_family other)) &&
          negb (bool_decide (rr_family self = rr_family other)) then false
  else if bool_decide (is_Some (rr_priority self)) &&
          negb (bool_decide (rr_priority self = Some USE_DEFAULT_PRIORITY)) &&
          negb (bool_decide (rr_priority self = rr_priority other)) &&
          negb (bool_decide (rr_priority self = Some 0) &&
                bool_decide (rr_priority other = None)) then false
  else if negb (bool_decide (rr_table_id self = Some RULE_USE_DEFAULT_ROUTE_TABLE)) &&
          differs (rr_table_id self) (rr_table_id other) then false
  else if bool_decide (is_Some (rr_fwmark self)) &&
          negb (default 0 (rr_fwmark self) =? default 0 (rr_fwmark other)) then false
  else if bool_decide (is_Some (rr_fwmask self)) &&
          negb (default 0 (rr_fwmask self) =? default 0 (rr_fwmask other)) then false
  else if differs (rr_iif self) (rr_iif other) then false
  else if differs (rr_action self) (rr_action other) then false
  else if differs (rr_suppress_prefix_length self) (rr_suppress_prefix_length other)
  then false
  else true.

(** [RouteRuleEntry::sort_key]. *)
Definition rule_sort_key (r : RouteRuleEntry) :
    bool * (bool * (Z * (string * (string * (Z * (Z * (Z * (Z * (Z * string))))))))) :=
  (negb (rule_is_absent r),
  ((match rr_ip_from r with
    | Some ip_from => negb (is_ipv6_addr ip_from)
    | None =>
        match rr_ip_to r with
        | Some ip_to => negb (is_ipv6_addr ip_to)
        | None =>
            match rr_family r with
            | Some family => bool_decide (family = Ipv4)
            | None => true
            end
        end
    end),
  (default RULE_USE_DEFAULT_ROUTE_TABLE (rr_table_id r),
  (default "" (rr_ip_from r),
  (default "" (rr_ip_to r),
  (default USE_DEFAULT_PRIORITY (rr_priority r),
  (default 0 (rr_fwmark r),
  (default 0 (rr_fwmask r),
  (default 0 (action_to_u8 <$> rr_action r),
  (default 0 (rr_suppress_prefix_length r),
   default "" (rr_iif r))))))))))).

Definition rule_key_cmp :=
  pair_cmp bool_cmp (pair_cmp bool_cmp (pair_cmp Z.compare (pair_cmp string_cmp
    (pair_cmp string_cmp (pair_cmp Z.compare (pair_cmp Z.compare (pair_cmp Z.compare
    (pair_cmp Z.compare (pair_cmp Z.compare string_cmp))))))))).

#[export] Instance rule_key_cmp_total : TotalCmp rule_key_cmp.
Proof. unfold rule_key_cmp. apply _. Qed.

(** [Ord], [Eq] and [Hash] of a rule go through [sort_key]. *)
Definition rule_eqb : RouteRuleEntry → RouteRuleEntry → bool :=
  key_eqb rule_key_cmp rule_sort_key.
Definition rule_le : RouteRuleEntry → RouteRuleEntry → Prop :=
  key_le rule_key_cmp rule_sort_key.
Definition sort_rules : list RouteRuleEntry → list RouteRuleEntry :=
  sort_by rule_key_cmp rule_sort_key.
Definition dedup_rules : list RouteRuleEntry → list RouteRuleEntry :=
  dedup rule_key_cmp rule_sort_key.
Definition rules_insert : RouteRuleEntry → list RouteRuleEntry → list RouteRuleEntry :=
  hset_insert rule_key_cmp rule_sort_key.

Abbreviation insert_all_rules := (hset_insert_all rule_key_cmp rule_sort_key).
Abbreviation rules_distinct := (keys_distinct rule_sort_key).

(** One prefix in [sanitize]: the canonical prefix, and the family it gives a
    rule without one. *)
Definition sanitize_prefix (family : option AddressFamily) (net : option string) :
    res (option AddressFamily * option string) :=
  match net with
  | None => Ok (family, None)
  | Some net =>
      if String.eqb net "" then Ok (family, None)
      else
        let? n := sanitize_ip_network net in
        Ok (match family with None => Some (addr_family n) | Some f => Some f end, Some n)
  end.

(** [RouteRuleEntry::sanitize]. *)
Definition rule_sanitize (self : RouteRuleEntry) : res RouteRuleEntry :=
  let? p := sanitize_prefix (rr_family self) (rr_ip_from self) in
  let self := set_rr_ip_from p.2 (set_rr_family p.1 self) in
  let? p := sanitize_prefix (rr_family self) (rr_ip_to self) in
  let self := set_rr_ip_to p.2 (set_rr_family p.1 self) in
  let? _ := rule_validate self in
  if bool_decide (rr_action self = None) && bool_decide (rr_table_id self = None)
  then Ok (set_rr_table_id (Some ROUTE_RULE_DEFAULT_ROUTE_TABLE_ID) self)
  else Ok self.

(** ** [RouteRules] *)

Record RouteRules : Type := route_rules { rules_config : option (list RouteRuleEntry) }.

Definition rules_default : RouteRules := route_rules None.

Definition rules_is_empty (self : RouteRules) : bool :=
  match rules_config self with Some [] | None => true | Some _ => false end.

Definition check_prefix (net : option string) : res unit :=
  match net with
  | Some net =>
      if negb (String.eqb net "") then let? _ := sanitize_ip_network net in Ok tt else Ok tt
  | None => Ok tt
  end.

(** [RouteRules::validate]. *)
Definition validate_rule (rule : RouteRuleEntry) : res unit :=
  let? _ := check_prefix (rr_ip_from rule) in
  let? _ := check_prefix (rr_ip_to rule) in
  if negb (rule_is_absent rule) then rule_validate rule else Ok tt.

Definition rules_validate (self : RouteRules) : res unit :=
  match rules_config self with
  | Some l => let? _ := map_result validate_rule l in Ok tt
  | None => Ok tt
  end.

(** [RouteRules::merge]. *)
Definition rules_absent (l : list RouteRuleEntry) : list RouteRuleEntry :=
  List.filter rule_is_absent l.
Definition rules_present (l : list RouteRuleEntry) : list RouteRuleEntry :=
  List.filter (λ r, negb (rule_is_absent r)) l.

Definition rules_merge_absent_step (old set : list RouteRuleEntry) (new_rule : RouteRuleEntry) :
    list RouteRuleEntry :=
  if existsb (rule_is_match new_rule) old then set else rules_insert new_rule set.

Definition rules_merge_old_step (new_rules set : list RouteRuleEntry)
    (old_rule : RouteRuleEntry) : list RouteRuleEntry :=
  if existsb (λ r, rule_is_absent r && rule_is_match r old_rule) new_rules then set
  else if rule_is_absent old_rule &&
          existsb (λ r, negb (rule_is_absent r) && rule_is_match old_rule r) new_rules
  then set
  else rules_insert old_rule set.

Definition rules_merge (self new : RouteRules) : res RouteRules :=
  let? _ := rules_validate new in
  match rules_config new with
  | None => Ok self
  | Some new_rules =>
      let old := default [] (rules_config self) in
      let set := foldl (rules_merge_absent_step old) [] (rules_absent new_rules) in
      let set := insert_all_rules (rules_present new_rules) set in
      let set := foldl (rules_merge_old_step new_rules) set old in
      Ok (route_rules (Some (sort_rules set)))
  end.

(** [RouteRules::gen_diff]. *)
Definition rules_gen_diff (self old : RouteRules) : RouteRules :=
  route_rules (Some
    (match rules_config self, rules_config old with
     | Some new_rules, Some old_rules =>
         List.filter (λ r, forallb (λ o, negb (rule_is_match r o)) old_rules) new_rules
     | Some new_rules, None => new_rules
     | None, Some old_rules => old_rules
     | None, None => []
     end)).

(** ** Automatic priorities *)

(** [i64] addition. *)
Definition wrap_i64 (x : Z) : Z := (x + 2 ^ 63) mod 2 ^ 64 - 2 ^ 63.

(** [iter().max()]. *)
Definition max_list (l : list Z) : option Z :=
  match l with [] => None | x :: l' => Some (foldl Z.max x l') end.

Definition needs_priority (r : RouteRuleEntry) : bool :=
  negb (rule_is_absent r) &&
  (bool_decide (rr_priority r = None) ||
   bool_decide (rr_priority r = Some USE_DEFAULT_PRIORITY)).

(** The priority of the first current rule that has one and matches. *)
Fixpoint find_cur_priority (rule : RouteRuleEntry) (merged : list RouteRuleEntry) : option Z :=
  match merged with
  | [] => None
  | cur :: merged' =>
      match rr_priority cur with
      | Some p =>
          if p =? USE_DEFAULT_PRIORITY then find_cur_priority rule merged'
          else if rule_is_match rule cur then Some p
          else find_cur_priority rule merged'
      | None => find_cur_priority rule merged'
      end
  end.

(** The loop over [for_apply]. *)
Fixpoint assign_priorities (merged : list RouteRuleEntry) (max_priority : Z)
    (for_apply : list RouteRuleEntry) : list RouteRuleEntry :=
  match for_apply with
  | [] => []
  | rule :: l =>
      if needs_priority rule then
        match find_cur_priority rule merged with
        | Some p => set_rr_priority (Some p) rule :: assign_priorities merged max_priority l
        | None =>
            let max_priority := wrap_i64 (max_priority + 1) in
            set_rr_priority (Some max_priority) rule :: assign_priorities merged max_priority l
        end
      else rule :: assign_priorities merged max_priority l
  end.

Definition start_priority (merged : list RouteRuleEntry) : Z :=
  let max_priority := default 0 (max_list ((λ r, default 0 (rr_priority r)) <$> merged)) in
  if max_priority <? ROUTE_RULE_DEFAULT_PRIORITY - 1
  then ROUTE_RULE_DEFAULT_PRIORITY - 1 else max_priority.

(** [set_auto_priority]. *)
Definition set_auto_priority (for_apply merged : list RouteRuleEntry) : list RouteRuleEntry :=
  assign_priorities merged (start_priority merged) for_apply.

(** ** Sanitized rules *)

(** What a sanitized rule satisfies: it has a family, its prefixes are
    canonical and of that family, a mask comes with a mark, and it has an
    action or a table to look up. *)
Record rule_sane (r : RouteRuleEntry) : Prop := {
  ru_family : ∃ f, rr_family r = Some f ∧
    (∀ n, rr_ip_from r = Some n → canonical_network n ∧ addr_family n = f) ∧
    (∀ n, rr_ip_to r = Some n → canonical_network n ∧ addr_family n = f);
  ru_fwmask : rr_fwmask r ≠ None → rr_fwmark r ≠ None;
  ru_target : rr_action r = None → rr_table_id r ≠ None;
}.

Lemma family_mismatch_false f net :
  family_mismatch f net = false ↔ ∀ n, net = Some n → addr_family n = f.
Proof.
  unfold family_mismatch, addr_family. destruct net as [n|]; [|naive_solver].
  rewrite negb_false_iff, eqb_true_iff.
  transitivity ((if is_ipv6_addr n then Ipv6 else Ipv4) = f); [|naive_solver].
  by destruct (is_ipv6_addr n), f.
Qed.

(** With a family, [validate] checks it against the prefixes. *)
Lemma rule_validate_ok r f :
  rr_family r = Some f →
  (rule_validate r = Ok tt ↔
   (∀ n, rr_ip_from r = Some n → addr_family n = f) ∧
   (∀ n, rr_ip_to r = Some n → addr_family n = f) ∧
   (rr_fwmask r ≠ None → rr_fwmark r ≠ None)).
Proof.
  intros Hf. rewrite <-!family_mismatch_false. unfold rule_validate.
  rewrite Hf, andb_false_r. unfold validate_fwmark_and_fwmask.
  destruct (family_mismatch f (rr_ip_from r)); [naive_solver|].
  destruct (family_mismatch f (rr_ip_to r)); [naive_solver|].
  destruct (rr_fwmark r), (rr_fwmask r); simpl; naive_solver.
Qed.

Lemma sanitize_prefix_ok fam net p :
  sanitize_prefix fam net = Ok p →
  (∀ n, p.2 = Some n → canonical_network n) ∧
  (fam = None → ∀ n, p.2 = Some n → p.1 = Some (addr_family n)) ∧
  (∀ f, fam = Some f → p.1 = Some f) ∧ (p.2 = None → p.1 = fam).
Proof.
  unfold sanitize_prefix. destruct net as [net|]; [|intros [= <-]; naive_solver].
  destruct (String.eqb net ""); [intros [= <-]; naive_solver|].
  destruct (sanitize_ip_network net) as [n|] eqn:E; [|done]. intros [= <-]. simpl.
  apply sanitize_ip_network_network in E.
  split_and!; [naive_solver|by intros -> ? [= <-]|by intros ? ->|done].
Qed.

Lemma sanitize_prefix_fixed fam net :
  (∀ n, net = Some n → canonical_network n) → is_Some fam →
  sanitize_prefix fam net = Ok (fam, net).
Proof.
  intros H [f ->]. unfold sanitize_prefix. destruct net as [n|]; [|done].
  specialize (H n eq_refl). by rewrite canonical_network_nonempty, canonical_network_fixed.
Qed.

Lemma rule_sanitize_sane r r' : rule_sanitize r = Ok r' → rule_sane r'.
Proof.
  unfold rule_sanitize. destruct r as [fam s f t p tb m k a i l].
  cbn [rr_family rr_ip_from rr_ip_to set_rr_family set_rr_ip_from set_rr_ip_to
       rr_action rr_table_id set_rr_table_id].
  destruct (sanitize_prefix fam f) as [[f1 n1]|] eqn:E1; [|done]. cbv zeta. cbn.
  destruct (sanitize_prefix f1 t) as [[f2 n2]|] eqn:E2; [|done].
  apply sanitize_prefix_ok in E1 as (Hc1 & Hn1 & Hs1 & He1).
  apply sanitize_prefix_ok in E2 as (Hc2 & Hn2 & Hs2 & He2). cbn in *.
  set (r := route_rule f2 s n1 n2 p tb m k a i l).
  destruct (rule_validate r) as [[]|] eqn:Ev; [|done].
  assert (∃ fm, f2 = Some fm) as [fm ->].
  { destruct f1 as [f1|]; [by eexists; apply Hs2|].
    destruct n2; [by eexists; apply Hn2|].
    destruct f2 as [f2|]; [by eexists|]. exfalso.
    destruct n1 as [n1|]; [|by subst r].
    destruct fam as [fm|]; [by specialize (Hs1 fm eq_refl)|].
    by specialize (Hn1 eq_refl _ eq_refl). }
  apply (rule_validate_ok r fm eq_refl) in Ev as (Hf & Ht & Hm).
  intros H. destruct (bool_decide (a = None) && bool_decide (tb = None)) eqn:Ea;
    injection H as <-; (constructor;
      [exists fm; split_and!; [done|intros n Hn; split; [by apply Hc1|by apply Hf]|
         intros n Hn; split; [by apply Hc2|by apply Ht]]|done|]); simpl; [done|].
  apply andb_false_iff in Ea as [Ea|Ea]; bool_hyps; naive_solver.
Qed.

Lemma sane_rule_sanitize r : rule_sane r → rule_sanitize r = Ok r.
Proof.
  intros [(f & Hf & Hfrom & Hto) Hm Ht].
  assert (rule_validate r = Ok tt) as Hv by (apply (rule_validate_ok r f Hf); naive_solver).
  destruct r as [fam s nf nt p tb m k a i l]. simpl in *. subst fam. unfold rule_sanitize.
  cbn [rr_family rr_ip_from]. rewrite sanitize_prefix_fixed; [|naive_solver|by eexists].
  cbn. rewrite sanitize_prefix_fixed; [|naive_solver|by eexists]. cbn. rewrite Hv.
  destruct a, tb; try done. by destruct (Ht eq_refl).
Qed.

Lemma prefix_matches_refl net :
  (∀ n, net = Some n → canonical_network n) → prefix_matches net net = true.
Proof.
  intros H. destruct net as [n|]; [|done]. specialize (H n eq_refl). simpl.
  rewrite canonical_network_nonempty by done. simpl.
  unfold canonical_ip_network. rewrite canonical_network_fixed by done.
  by apply bool_decide_eq_true.
Qed.

(** A rule whose prefixes are canonical matches itself, with any priority put
    in for one that is not set. *)
Lemma rule_match_priority r p :
  (∀ n, rr_ip_from r = Some n → canonical_network n) →
  (∀ n, rr_ip_to r = Some n → canonical_network n) →
  rr_priority r = p ∨ rr_priority r = None ∨ rr_priority r = Some USE_DEFAULT_PRIORITY →
  rule_is_match r (set_rr_priority p r) = true.
Proof.
  intros Hf Ht Hp. unfold rule_is_match. destruct r as [fam s nf nt q tb m k a i l].
  cbn [set_rr_priority rr_family rr_ip_from rr_ip_to rr_priority rr_table_id rr_fwmark
    rr_fwmask rr_action rr_iif rr_suppress_prefix_length] in *.
  rewrite !prefix_matches_refl by done. cbn [negb].
  rewrite (bool_decide_true (fam = fam)) by done. rewrite !andb_false_r, !Z.eqb_refl, !andb_false_r.
  assert (∀ {A} `{EqDecision A} (x : option A), differs x x = false) as Hd.
  { intros A dec x. apply differs_false. apply agrees_refl. }
  rewrite !Hd, andb_false_r.
  destruct Hp as [->|[->| ->]]; [|done|by rewrite (bool_decide_true (Some _ = Some _))].
  rewrite (bool_decide_true (p = p)) by done. by rewrite !andb_false_r.
Qed.

(** [RouteRuleEntry::sanitize] puts a rule into canonical form and is
    idempotent: an accepted rule has a family that both its prefixes, canonical
    networks, are of, no mask without a mark, and an action or a table; the
    canonical rules are exactly those accepted unchanged; a sanitized rule
    matches itself; and the priority, the marks, the action, the interface and
    the state are as given. *)
Theorem rule_sanitize_correct r r' :
  rule_sanitize r = Ok r' →
  rule_sane r' ∧ rule_sanitize r' = Ok r' ∧ (rule_sane r ↔ r' = r) ∧
  rule_is_match r' r' = true ∧
  rr_priority r' = rr_priority r ∧ rr_fwmark r' = rr_fwmark r ∧
  rr_fwmask r' = rr_fwmask r ∧ rr_action r' = rr_action r ∧ rr_iif r' = rr_iif r ∧
  rr_state r' = rr_state r ∧
  rr_suppress_prefix_length r' = rr_suppress_prefix_length r ∧
  (∀ f, rr_family r = Some f → rr_family r' = Some f).
Proof.
  intros H. pose proof (rule_sanitize_sane _ _ H) as Hs.
  split; [done|]. split; [by apply sane_rule_sanitize|]. split; [|split].
  - split; [|by intros <-]. intros Hr%sane_rule_sanitize. congruence.
  - destruct Hs as [(f & _ & H1 & H2) _ _].
    pose proof (rule_match_priority r' (rr_priority r')) as Hm.
    replace (set_rr_priority (rr_priority r') r') with r' in Hm by (by destruct r').
    apply Hm; naive_solver.
  - unfold rule_sanitize in H. destruct r as [fam s nf nt p tb m k a i l].
    cbn [rr_family rr_ip_from] in *.
    destruct (sanitize_prefix fam nf) as [[f1 n1]|] eqn:E1; [|done]. cbn in H.
    destruct (sanitize_prefix f1 nt) as [[f2 n2]|] eqn:E2; [|done]. cbn in H.
    apply sanitize_prefix_ok in E1 as (_ & _ & Hs1 & _).
    apply sanitize_prefix_ok in E2 as (_ & _ & Hs2 & _).
    destruct (rule_validate _); [|done].
    destruct (_ && _); injection H as <-; split_and!; try done; simpl; eauto.
Qed.

Definition ex_rule (from : string) (table : Z) (priority : option Z) : RouteRuleEntry :=
  set_rr_priority priority
    (set_rr_table_id (Some table) (set_rr_ip_from (Some from) rule_default)).

Lemma rule_sanitize_correct_witness :
  rule_sanitize (ex_rule "198.51.100.9/24" 100 None) =
    Ok (set_rr_family (Some Ipv4) (ex_rule "198.51.100.0/24" 100 None)) ∧
  rule_sane (set_rr_family (Some Ipv4) (ex_rule "198.51.100.0/24" 100 None)).
Proof.
  split; [vm_compute; reflexivity|].
  apply (rule_sanitize_correct (ex_rule "198.51.100.9/24" 100 None)).
  vm_compute. reflexivity.
Defined.

(** ** Priorities *)

(** [cur] offers the rule [r] its priority [p]. *)
Definition offers_priority (r cur : RouteRuleEntry) (p : Z) : Prop :=
  rr_priority cur = Some p ∧ p ≠ USE_DEFAULT_PRIORITY ∧ rule_is_match r cur = true.

(** [p] is the priority of the first rule of [merged] that offers one. *)
Definition first_offer (r : RouteRuleEntry) (merged : list RouteRuleEntry) (p : Z) : Prop :=
  ∃ l1 cur l2, merged = l1 ++ cur :: l2 ∧ offers_priority r cur p ∧
    ∀ x q, x ∈ l1 → ¬ offers_priority r x q.

Lemma find_cur_priority_cases r merged :
  match find_cur_priority r merged with
  | Some p => first_offer r merged p
  | None => ∀ x q, x ∈ merged → ¬ offers_priority r x q
  end.
Proof.
  induction merged as [|cur merged IH]; simpl; [set_solver|].
  assert ((∀ q, ¬ offers_priority r cur q) →
    match find_cur_priority r merged with
    | Some p => first_offer r (cur :: merged) p
    | None => ∀ x q, x ∈ cur :: merged → ¬ offers_priority r x q
    end) as Hskip.
  { intros Hno. destruct (find_cur_priority r merged) as [p|].
    - destruct IH as (l1 & c & l2 & -> & Ho & Hl1). exists (cur :: l1), c, l2.
      split_and!; [done|done|]. intros x q [->|Hx]%elem_of_cons; [apply Hno|by apply Hl1].
    - intros x q [->|Hx]%elem_of_cons; [apply Hno|by apply IH]. }
  destruct (rr_priority cur) as [p|] eqn:Ep.
  - destruct (p =? USE_DEFAULT_PRIORITY) eqn:E; bool_hyps.
    + apply Hskip. intros q (Hq & Hne & _). congruence.
    + destruct (rule_is_match r cur) eqn:Em.
      * exists [], cur, merged. split_and!; [done|done|]. intros x q Hx. set_solver.
      * apply Hskip. intros q (_ & _ & ?). congruence.
  - apply Hskip. intros q (Hq & _). congruence.
Qed.

(** What happens to one rule; [u] is the fresh priority it takes, if any. *)
Definition prioritized (merged : list RouteRuleEntry) (r : RouteRuleEntry) (u : option Z)
    (r' : RouteRuleEntry) : Prop :=
  match u with
  | Some p => needs_priority r = true ∧ (∀ x q, x ∈ merged → ¬ offers_priority r x q) ∧
      r' = set_rr_priority (Some p) r
  | None => (needs_priority r = false ∧ r' = r) ∨
      (needs_priority r = true ∧ ∃ p, first_offer r merged p ∧
       r' = set_rr_priority (Some p) r)
  end.

Lemma wrap_i64_small x : - 2 ^ 63 ≤ x < 2 ^ 63 → wrap_i64 x = x.
Proof. intros H. unfold wrap_i64. rewrite Z.mod_small; lia. Qed.

Lemma assign_priorities_spec merged max l :
  - 2 ^ 62 ≤ max → max + Z.of_nat (length l) < 2 ^ 63 →
  ∃ us, Forall3 (prioritized merged) l us (assign_priorities merged max l) ∧
    omap id us = seqZ (max + 1) (Z.of_nat (length (omap id us))).
Proof.
  revert max. induction l as [|r l IH]; intros max H1 H2; simpl.
  { exists []. split; [constructor|done]. }
  cbn [length] in H2. pose proof (find_cur_priority_cases r merged) as Hf.
  destruct (needs_priority r) eqn:En; [destruct (find_cur_priority r merged) as [p|]|].
  - destruct (IH max) as (us & HF & Hs); [lia|lia|]. exists (None :: us).
    split; [|done]. constructor; [|done]. right. eauto.
  - rewrite wrap_i64_small by lia. destruct (IH (max + 1)) as (us & HF & Hs); [lia|lia|].
    exists (Some (max + 1) :: us). split; [by constructor|]. rewrite omap_cons. simpl.
    rewrite Hs at 1. rewrite (seqZ_cons (max + 1)) by lia. f_equal. f_equal; lia.
  - destruct (IH max) as (us & HF & Hs); [lia|lia|]. exists (None :: us).
    split; [|done]. constructor; [by left|done].
Qed.

Lemma foldl_max_le x l y : y = x ∨ y ∈ l → y ≤ foldl Z.max x l.
Proof.
  revert x y. induction l as [|z l IH]; intros x y; simpl.
  - intros [->|H]; [lia|by apply elem_of_nil in H].
  - pose proof (IH (Z.max x z) (Z.max x z) (or_introl eq_refl)).
    intros [->|[->|H']%elem_of_cons]; [lia|lia|apply IH; by right].
Qed.

Lemma foldl_max_in x l : foldl Z.max x l = x ∨ foldl Z.max x l ∈ l.
Proof.
  revert x. induction l as [|z l IH]; intros x; simpl; [by left|].
  destruct (IH (Z.max x z)) as [H|H]; [|set_solver]. rewrite H.
  destruct (Z.max_spec x z) as [[_ ->]|[_ ->]]; set_solver.
Qed.

Lemma start_priority_bounds merged :
  29999 ≤ start_priority merged ∧
  (∀ r p, r ∈ merged → rr_priority r = Some p → p ≤ start_priority merged) ∧
  (∀ m, 29999 ≤ m → (∀ r p, r ∈ merged → rr_priority r = Some p → p ≤ m) →
     start_priority merged ≤ m).
Proof.
  set (ps := (λ r, default 0 (rr_priority r)) <$> merged).
  assert ((∀ r p, r ∈ merged → rr_priority r = Some p → p ≤ default 0 (max_list ps)) ∧
    (∀ m, 0 ≤ m → (∀ r p, r ∈ merged → rr_priority r = Some p → p ≤ m) →
      default 0 (max_list ps) ≤ m)) as [H1 H2].
  { split.
    - intros r p Hr Hp. assert (p ∈ ps) as Hin.
      { apply list_elem_of_fmap. exists r. by rewrite Hp. }
      destruct ps as [|x l]; [set_solver|]. apply elem_of_cons in Hin.
      by apply foldl_max_le.
    - intros m Hm Hall. assert (∀ p, p ∈ ps → p ≤ m) as Hps.
      { intros p (r & -> & Hr)%list_elem_of_fmap.
        destruct (rr_priority r) as [q|] eqn:E; simpl; [by eapply Hall|done]. }
      destruct ps as [|x l]; [done|]. simpl.
      destruct (foldl_max_in x l) as [->|H]; apply Hps; set_solver. }
  unfold start_priority, ROUTE_RULE_DEFAULT_PRIORITY. fold ps. cbv zeta.
  destruct (_ <? _) eqn:E; bool_hyps; (split; [lia|split]); [|intros; lia|done|].
  - intros r p Hr Hp. specialize (H1 r p Hr Hp). lia.
  - intros m Hm Hall. apply H2; [lia|done].
Qed.

(** C29: [set_auto_priority].  Provided the priorities of the current rules are
    below 2^62 (the kernel's are 32 bit) and there are fewer than 2^62 rules to
    apply, only the rules that are added without an explicit priority change,
    and only in their priority: a rule takes the priority of the first current
    rule with one that it matches, and the others take consecutive fresh
    priorities, in their order, from 30000 up and above every priority in use.
    The 64 bit counter never wraps. *)
Theorem set_auto_priority_correct for_apply merged :
  (∀ r p, r ∈ merged → rr_priority r = Some p → p < 2 ^ 62) →
  Z.of_nat (length for_apply) < 2 ^ 62 →
  ∃ us fresh,
    Forall3 (prioritized merged) for_apply us (set_auto_priority for_apply merged) ∧
    omap id us = fresh ∧
    fresh = seqZ (start_priority merged + 1) (Z.of_nat (length fresh)) ∧ NoDup fresh ∧
    ∀ p, p ∈ fresh → ROUTE_RULE_DEFAULT_PRIORITY ≤ p < 2 ^ 63 ∧
      ∀ r q, r ∈ merged → rr_priority r = Some q → q < p.
Proof.
  intros H1 H2. destruct (start_priority_bounds merged) as (Hlo & Hge & Hle).
  assert (start_priority merged ≤ 2 ^ 62) as Hhi.
  { apply Hle; [lia|]. intros r p Hr Hp. specialize (H1 r p Hr Hp). lia. }
  destruct (assign_priorities_spec merged (start_priority merged) for_apply)
    as (us & HF & Hs); [lia|lia|]. exists us, (omap id us). split_and!; [done..| |].
  - rewrite Hs. apply NoDup_seqZ.
  - assert (length (omap id us) ≤ length for_apply)%nat as Hl.
    { etransitivity; [apply length_omap_id|]. by rewrite (Forall3_length_lm _ _ _ _ HF). }
    intros p Hp. rewrite Hs in Hp. apply elem_of_seqZ in Hp.
    unfold ROUTE_RULE_DEFAULT_PRIORITY. split; [lia|].
    intros r q Hr Hq. specialize (Hge r q Hr Hq). lia.
Qed.

Definition ex_auto : list RouteRuleEntry :=
  [ex_rule "198.51.100.0/24" 100 None; ex_rule "203.0.113.0/24" 100 (Some 7);
   ex_rule "192.0.2.0/24" 100 (Some USE_DEFAULT_PRIORITY)].

Example ex_auto_priorities :
  rr_priority <$> set_auto_priority ex_auto [ex_rule "192.0.2.0/24" 100 None;
    ex_rule "10.0.0.0/8" 100 (Some 30005)] = [Some 30006; Some 7; Some 30007].
Proof. vm_compute. reflexivity. Qed.

Lemma set_auto_priority_correct_witness :
  ∃ us fresh, Forall3 (prioritized []) ex_auto us (set_auto_priority ex_auto []) ∧
    omap id us = fresh ∧ NoDup fresh.
Proof.
  destruct (set_auto_priority_correct ex_auto []) as (us & fresh & H1 & H2 & _ & H3 & _).
  - intros r p Hr. set_solver.
  - vm_compute. reflexivity.
  - exists us, fresh. split_and!; assumption.
Defined.

(** ** Merging two rule lists *)

Lemma elem_of_rules_absent r l : r ∈ rules_absent l ↔ r ∈ l ∧ rule_is_absent r = true.
Proof. unfold rules_absent. by rewrite list_elem_of_In, filter_In, <-list_elem_of_In. Qed.

Lemma elem_of_rules_present r l : r ∈ rules_present l ↔ r ∈ l ∧ rule_is_absent r = false.
Proof.
  unfold rules_present.
  by rewrite list_elem_of_In, filter_In, <-list_elem_of_In, negb_true_iff.
Qed.

Lemma insert_all_rules_distinct l : rules_distinct (insert_all_rules l []).
Proof. apply (hset_insert_all_distinct rule_key_cmp rule_sort_key l). constructor. Qed.

Lemma insert_all_rules_sub l r : r ∈ insert_all_rules l [] → r ∈ l.
Proof.
  intros H. apply (elem_of_hset_insert_all rule_key_cmp rule_sort_key) in H as [H|H];
    [done|by apply elem_of_nil in H].
Qed.

Lemma insert_all_rules_key l r :
  r ∈ l → rule_sort_key r ∈ rule_sort_key <$> insert_all_rules l [].
Proof. intros H. apply (hset_insert_all_key rule_key_cmp rule_sort_key). by left. Qed.

Lemma sort_rules_perm l : sort_rules l ≡ₚ l.
Proof. apply sort_by_perm. Qed.

Lemma elem_of_sort_rules r l : r ∈ sort_rules l ↔ r ∈ l.
Proof. by rewrite sort_rules_perm. Qed.

Lemma sort_rules_sorted l : StronglySorted rule_le (sort_rules l).
Proof. exact (sort_by_sorted rule_key_cmp rule_sort_key l). Qed.

Lemma sort_rules_distinct l : rules_distinct l → rules_distinct (sort_rules l).
Proof. unfold keys_distinct. by rewrite sort_rules_perm. Qed.

(** The rules of the merge of [new] into [old]. *)
Inductive rules_merged (old new : list RouteRuleEntry) : RouteRuleEntry → Prop :=
| rules_merged_request a :
    a ∈ new → rule_is_absent a = true → (∀ o, o ∈ old → rule_is_match a o = false) →
    rules_merged old new a
| rules_merged_present n :
    n ∈ new → rule_is_absent n = false → rules_merged old new n
| rules_merged_kept o :
    o ∈ old → (∀ a, a ∈ new → rule_is_absent a = true → rule_is_match a o = false) →
    (rule_is_absent o = false ∨
     ∀ n, n ∈ new → rule_is_absent n = false → rule_is_match o n = false) →
    rules_merged old new o.

Definition old_rule_result (new : list RouteRuleEntry) (o : RouteRuleEntry) :
    option RouteRuleEntry :=
  if existsb (λ r, rule_is_absent r && rule_is_match r o) new then None
  else if rule_is_absent o && existsb (λ r, negb (rule_is_absent r) && rule_is_match o r) new
  then None else Some o.

Lemma rules_merge_loops old new :
  foldl (rules_merge_old_step new) (insert_all_rules (rules_present new)
    (foldl (rules_merge_absent_step old) [] (rules_absent new))) old =
  insert_all_rules (omap (λ a, if existsb (rule_is_match a) old then None else Some a)
      (rules_absent new)
    ++ rules_present new ++ omap (old_rule_result new) old) [].
Proof.
  rewrite !hset_insert_all_app.
  rewrite (foldl_hset_insert_omap rule_key_cmp rule_sort_key
    (λ a, if existsb (rule_is_match a) old then None else Some a)
    (rules_merge_absent_step old)).
  - apply foldl_hset_insert_omap. intros s o. unfold rules_merge_old_step, old_rule_result.
    by repeat case_match.
  - intros s a. unfold rules_merge_absent_step. by case_match.
Qed.

Lemma existsb_both_false {A} (f g : A → bool) l :
  existsb (λ r, f r && g r) l = false ↔ ∀ r, r ∈ l → f r = true → g r = false.
Proof.
  rewrite existsb_false_elem_of. split; intros H r Hr.
  - intros Hf. specialize (H r Hr). by rewrite Hf in H.
  - destruct (f r) eqn:E; [by apply H|done].
Qed.

Lemma old_rule_result_Some new o r :
  old_rule_result new o = Some r ↔
  r = o ∧ (∀ a, a ∈ new → rule_is_absent a = true → rule_is_match a o = false) ∧
  (rule_is_absent o = false ∨
   ∀ n, n ∈ new → rule_is_absent n = false → rule_is_match o n = false).
Proof.
  unfold old_rule_result. destruct (existsb _ new) eqn:E1.
  - split; [done|]. intros (_ & H & _).
    by rewrite (proj2 (existsb_both_false _ _ _) H) in E1.
  - rewrite existsb_both_false in E1.
    destruct (rule_is_absent o); [|split; [intros [= <-]; eauto|by intros (-> & _)]].
    simpl. destruct (existsb _ new) eqn:E2.
    + split; [done|]. intros (_ & _ & [H|H]); [done|].
      rewrite (proj2 (existsb_both_false (λ r, negb (rule_is_absent r)) _ _)) in E2; [done|].
      intros n Hn Hna%negb_true_iff. auto.
    + rewrite existsb_both_false in E2. split; [intros [= <-]|by intros (-> & _)].
      split_and!; [done|done|right]. intros n Hn Hna. apply E2; [done|]. by rewrite Hna.
Qed.

Lemma elem_of_rules_merge_loops old new r :
  r ∈ omap (λ a, if existsb (rule_is_match a) old then None else Some a) (rules_absent new)
    ++ rules_present new ++ omap (old_rule_result new) old ↔
  rules_merged old new r.
Proof.
  rewrite !elem_of_app, !list_elem_of_omap, elem_of_rules_present.
  setoid_rewrite old_rule_result_Some. setoid_rewrite elem_of_rules_absent. split.
  - intros [(a & [Ha Hab] & H)|[[Hn Hna]|(o & Ho & -> & H1 & H2)]].
    + destruct (existsb _ old) eqn:E; [done|]. injection H as <-.
      rewrite existsb_false_elem_of in E. by apply rules_merged_request.
    + by apply rules_merged_present.
    + by apply rules_merged_kept.
  - intros [a Ha Hab H|n Hn Hna|o Ho H1 H2]; [left|right; by left|right; right; by exists o].
    exists a. split; [done|]. apply existsb_false_elem_of in H. by rewrite H.
Qed.

(** [RouteRules::merge].  An invalid new list is refused, a new state
    without rules changes nothing, and otherwise the merge is a sorted list
    without two equal rules that holds, up to rule equality, exactly these: every
    new rule; every removal request that matches no old rule; and every old rule
    that no new removal matches, less the old removals that a new rule
    supersedes. *)
Theorem rules_merge_correct self new :
  (is_ok (rules_merge self new) = true ↔ rules_validate new = Ok tt) ∧
  (rules_config new = None → rules_merge self new = Ok self) ∧
  ∀ m nr, rules_merge self new = Ok m → rules_config new = Some nr →
    ∃ l, m = route_rules (Some l) ∧ StronglySorted rule_le l ∧ rules_distinct l ∧
      (∀ r, r ∈ l → rules_merged (default [] (rules_config self)) nr r) ∧
      (∀ r, rules_merged (default [] (rules_config self)) nr r →
         rule_sort_key r ∈ rule_sort_key <$> l).
Proof.
  unfold rules_merge. split_and!.
  - destruct (rules_validate new) as [[]|]; [|done]. by destruct (rules_config new).
  - intros Hc. unfold rules_validate. by rewrite Hc.
  - intros m nr Hm Hc. rewrite Hc in Hm. destruct (rules_validate new) as [[]|]; [|done].
    cbv zeta in Hm. rewrite rules_merge_loops in Hm. injection Hm as <-.
    eexists. split; [done|]. split_and!.
    + apply sort_rules_sorted.
    + apply sort_rules_distinct, insert_all_rules_distinct.
    + intros r Hr%elem_of_sort_rules%insert_all_rules_sub. by apply elem_of_rules_merge_loops.
    + intros r Hr%elem_of_rules_merge_loops%insert_all_rules_key. by rewrite sort_rules_perm.
Qed.

Definition ex_rules (l : list RouteRuleEntry) : RouteRules := route_rules (Some l).

Definition ex_rules_merged : list RouteRuleEntry :=
  [ex_rule "203.0.113.0/24" 100 (Some 7); ex_rule "198.51.100.0/24" 200 None].

Lemma rules_merge_correct_witness :
  ∃ l, route_rules (Some ex_rules_merged) = route_rules (Some l) ∧ rules_distinct l.
Proof.
  destruct (proj2 (proj2 (rules_merge_correct
    (ex_rules [ex_rule "198.51.100.0/24" 200 None])
    (ex_rules [ex_rule "203.0.113.0/24" 100 (Some 7)])))
    (ex_rules ex_rules_merged) [ex_rule "203.0.113.0/24" 100 (Some 7)])
    as (l & H1 & _ & H2 & _); [vm_compute; reflexivity|reflexivity|].
  exact (ex_intro _ l (conj H1 H2)).
Defined.

(** Two rules that differ in [suppress-prefix-length] being 0 or absent are
    equal to the hash sets, and one of them is lost, although neither means the
    other: [table main suppress 0] skips default routes. *)
Definition ex_suppress (l : option Z) : RouteRuleEntry :=
  route_rule (Some Ipv4) None None None None (Some 254) None None None None l.

Example suppress_zero_is_lost :
  rules_merge rules_default (ex_rules [ex_suppress None; ex_suppress (Some 0)]) =
  Ok (ex_rules [ex_suppress None]) ∧
  rule_is_match (ex_suppress (Some 0)) (ex_suppress None) = false.
Proof. split; vm_compute; reflexivity. Qed.
