(* ===== verification/MergedRouteRule.v ===== *)
(** * MergedRouteRule: merging desired, current and saved routing rules

    [src/lib/schema/merged/route_rule.rs]: the rules an apply changes, the
    rules it persists, the verification after the apply and the revert. *)

From S2P Require Export RouteRule MergedRoute.

#[local] Open Scope Z_scope.

Record MergedRouteRules : Type := merged_route_rules {
  mu_desired : RouteRules;
  mu_current : RouteRules;
  mu_changed_rules : list RouteRuleEntry;
  mu_for_save : RouteRules;
  mu_for_verify : list RouteRuleEntry;
}.

(** [resolve_rule_iif]. *)
Definition resolve_rule_iif (mi : MergedInterfaces) (rule : RouteRuleEntry) : RouteRuleEntry :=
  match rr_iif rule with
  | Some iif =>
      match resolve_route_next_hop_iface mi iif with
      | Some k => if negb (String.eqb k iif) then set_rr_iif (Some k) rule else rule
      | None => rule
      end
  | None => rule
  end.

(** [fill_undefined_rule_fields]. *)
Definition fill_undefined_rule_fields (rule saved : RouteRuleEntry) : RouteRuleEntry :=
  route_rule
    (or_else (rr_family rule) (rr_family saved))
    (rr_state rule)
    (or_else (rr_ip_from rule) (rr_ip_from saved))
    (or_else (rr_ip_to rule) (rr_ip_to saved))
    (if bool_decide (rr_priority rule = None) ||
        bool_decide (rr_priority rule = Some USE_DEFAULT_PRIORITY)
     then rr_priority saved else rr_priority rule)
    (or_else (rr_table_id rule) (rr_table_id saved))
    (or_else (rr_fwmark rule) (rr_fwmark saved))
    (or_else (rr_fwmask rule) (rr_fwmask saved))
    (or_else (rr_action rule) (rr_action saved))
    (or_else (rr_iif rule) (rr_iif saved))
    (or_else (rr_suppress_prefix_length rule) (rr_suppress_prefix_length saved)).

(** [current_rule_matches]. *)
Definition current_rule_matches (current_rules : list RouteRuleEntry)
    (rule : RouteRuleEntry) : bool :=
  existsb (rule_is_match rule) current_rules.

(** The loop that lets the desired rules inherit from the saved ones. *)
Fixpoint inherit_rules (mi : MergedInterfaces) (saved_rules : list RouteRuleEntry)
    (consumed : list nat) (l : list RouteRuleEntry) : list RouteRuleEntry * list nat :=
  match l with
  | [] => ([], consumed)
  | rule :: l' =>
      match List.find (λ e : nat * RouteRuleEntry,
              negb (bool_decide (e.1 ∈ consumed)) &&
              rule_is_match (resolve_rule_iif mi rule) (resolve_rule_iif mi e.2))
            (enumerate saved_rules) with
      | Some (i, saved) =>
          let '(k, consumed) := inherit_rules mi saved_rules (i :: consumed) l' in
          (fill_undefined_rule_fields rule saved :: k, consumed)
      | None =>
          let '(k, consumed) := inherit_rules mi saved_rules consumed l' in
          (rule :: k, consumed)
      end
  end.

Definition mark_rule_absent (r : RouteRuleEntry) : RouteRuleEntry :=
  set_rr_state (Some RuleAbsent) r.

(** The interfaces an apply deletes. *)
Definition absent_ifaces (mi : MergedInterfaces) : gset string :=
  names_where (λ i, iface_is_absent (mi_merged i)) mi.

(** Whether an apply removes a current rule. *)
Definition rule_removed (absent_rules : list RouteRuleEntry) (absent : gset string)
    (rule : RouteRuleEntry) : bool :=
  existsb (λ a, rule_is_match a rule) absent_rules || iface_in (rr_iif rule) absent.

(** The loop over the current rules: the removals, in order. *)
Definition rule_removal (absent_rules : list RouteRuleEntry) (absent : gset string)
    (rule : RouteRuleEntry) : res (option RouteRuleEntry) :=
  if rule_removed absent_rules absent rule then
    let? a := rule_sanitize (mark_rule_absent rule) in Ok (Some a)
  else Ok None.

(** [gen_route_rules_for_save]. *)
Definition gen_route_rules_for_save (desired_rules absent_rules saved_rules : list RouteRuleEntry)
    (consumed : list nat) (absent : gset string) (mi : MergedInterfaces) : RouteRules :=
  let set := insert_all_rules desired_rules [] in
  let set :=
    foldl (λ set (e : nat * RouteRuleEntry),
      if bool_decide (e.1 ∈ consumed) then set
      else if rule_removed absent_rules absent (resolve_rule_iif mi e.2) then set
      else rules_insert e.2 set) set (enumerate saved_rules) in
  let rules := sort_rules set in
  route_rules (match rules with [] => None | l => Some l end).

(** [MergedRouteRules::new]. *)
Definition merged_route_rules_new (desired current : RouteRules) (saved : option RouteRules)
    (mi : MergedInterfaces) : res MergedRouteRules :=
  let? _ := rules_validate desired in
  let? _ := rules_validate current in
  let absent := absent_ifaces mi in
  let rules := default [] (rules_config desired) in
  let absent_rules := resolve_rule_iif mi <$> rules_absent rules in
  let? desired_rules := map_result rule_sanitize (rules_present rules) in
  let? saved_rules :=
    map_result rule_sanitize (rules_present (default [] (saved ≫= rules_config))) in
  let '(desired_rules, consumed) := inherit_rules mi saved_rules [] desired_rules in
  let for_verify := resolve_rule_iif mi <$> desired_rules in
  let current_rules := default [] (rules_config current) in
  let? removals := map_result (rule_removal absent_rules absent) current_rules in
  let changed := insert_all_rules (omap id removals) [] in
  let changed := insert_all_rules
    (List.filter (λ r, negb (current_rule_matches current_rules r)) for_verify) changed in
  Ok (merged_route_rules desired current
    (set_auto_priority (sort_rules changed) current_rules)
    (gen_route_rules_for_save desired_rules absent_rules saved_rules consumed absent mi)
    for_verify).

Definition mu_is_changed (self : MergedRouteRules) : bool :=
  negb (bool_decide (mu_changed_rules self = [])).

(** [gen_state_for_apply] and [gen_diff]. *)
Definition mu_gen_state_for_apply (self : MergedRouteRules) : RouteRules :=
  route_rules (match mu_changed_rules self with [] => None | l => Some l end).
Definition mu_gen_state_for_save (self : MergedRouteRules) : RouteRules :=
  route_rules (rules_config (mu_for_save self)).
Definition mu_gen_diff (self : MergedRouteRules) : RouteRules := mu_gen_state_for_apply self.

(** [MergedRouteRules::generate_revert]. *)
Definition revert_rule (current : list RouteRuleEntry) (rule : RouteRuleEntry) :
    list RouteRuleEntry :=
  if rule_is_absent rule then List.filter (rule_is_match rule) current
  else [mark_rule_absent rule].

Definition mu_generate_revert (self : MergedRouteRules) : res RouteRules :=
  let current := default [] (rules_config (mu_current self)) in
  let revert := concat (revert_rule current <$> mu_changed_rules self) in
  let revert := dedup_rules (sort_rules revert) in
  Ok (route_rules (match revert with [] => None | l => Some l end)).

(** [MergedRouteRules::verify]. *)
Definition mu_verify (self : MergedRouteRules) (current : RouteRules) : res unit :=
  let cur := default [] (rules_config current) in
  if existsb (λ d, negb (current_rule_matches cur d)) (mu_for_verify self)
  then fail VerificationError
  else if existsb (λ a, existsb (rule_is_match a) cur) (rules_absent (mu_changed_rules self))
  then fail VerificationError
  else Ok tt.

(** [remove_rules_to_ignored_ifaces]. *)
Definition remove_rules_to_ignored_ifaces (self : MergedRouteRules)
    (ignored_ifaces : list string) : MergedRouteRules :=
  let retain := List.filter (λ r,
    match rr_iif r with Some iif => negb (bool_decide (iif ∈ ignored_ifaces)) | None => true end) in
  merged_route_rules
    (route_rules (retain <$> rules_config (mu_desired self))) (mu_current self)
    (retain (mu_changed_rules self))
    (route_rules (retain <$> rules_config (mu_for_save self)))
    (retain (mu_for_verify self)).

(** ** What is changed *)

(** The removal requests an apply must make: of the current rules an absent
    desired rule matches, or whose interface it deletes. *)
Definition rule_must_remove (mi : MergedInterfaces) (desired current : RouteRules)
    (r : RouteRuleEntry) : Prop :=
  ∃ c, c ∈ default [] (rules_config current) ∧ rule_sanitize (mark_rule_absent c) = Ok r ∧
    ((∃ a, a ∈ default [] (rules_config desired) ∧ rule_is_absent a = true ∧
        rule_is_match (resolve_rule_iif mi a) c = true) ∨
     in_set (rr_iif c) (absent_ifaces mi)).

(** The additions: the desired rules the kernel lacks. *)
Definition rule_must_add (current : RouteRules) (for_verify : list RouteRuleEntry)
    (r : RouteRuleEntry) : Prop :=
  r ∈ for_verify ∧ ∀ c, c ∈ default [] (rules_config current) → rule_is_match r c = false.

(** The intermediate values of a run of [MergedRouteRules::new]. *)
Record rules_run (desired current : RouteRules) (saved : option RouteRules)
    (mi : MergedInterfaces) (mu : MergedRouteRules)
    (sane_rules desired_rules saved_rules : list RouteRuleEntry) (consumed : list nat)
    (removals : list (option RouteRuleEntry)) : Prop := {
  ur_desired : rules_validate desired = Ok tt;
  ur_current : rules_validate current = Ok tt;
  ur_sane : map_result rule_sanitize (rules_present (default [] (rules_config desired))) =
    Ok sane_rules;
  ur_saved : map_result rule_sanitize (rules_present (default [] (saved ≫= rules_config))) =
    Ok saved_rules;
  ur_inherit : inherit_rules mi saved_rules [] sane_rules = (desired_rules, consumed);
  ur_removals :
    map_result (rule_removal (resolve_rule_iif mi <$>
        rules_absent (default [] (rules_config desired))) (absent_ifaces mi))
      (default [] (rules_config current)) = Ok removals;
  ur_verify : mu_for_verify mu = resolve_rule_iif mi <$> desired_rules;
  ur_changed : mu_changed_rules mu =
    set_auto_priority (sort_rules (insert_all_rules (omap id removals ++
      List.filter (λ r, negb (current_rule_matches (default [] (rules_config current)) r))
        (mu_for_verify mu)) [])) (default [] (rules_config current));
  ur_save : mu_for_save mu =
    gen_route_rules_for_save desired_rules
      (resolve_rule_iif mi <$> rules_absent (default [] (rules_config desired)))
      saved_rules consumed (absent_ifaces mi) mi;
}.

Lemma merged_route_rules_new_ok desired current saved mi mu :
  merged_route_rules_new desired current saved mi = Ok mu →
  ∃ sane dr sr consumed removals,
    rules_run desired current saved mi mu sane dr sr consumed removals.
Proof.
  unfold merged_route_rules_new. cbv zeta. intros H.
  destruct (rules_validate desired) as [[]|] eqn:E1; [|done].
  destruct (rules_validate current) as [[]|] eqn:E2; [|done].
  destruct (map_result rule_sanitize _) as [sane|] eqn:E3; [|done].
  destruct (map_result rule_sanitize (rules_present (default [] (saved ≫= _))))
    as [sr|] eqn:E4; [|done].
  destruct (inherit_rules mi sr [] sane) as [dr consumed] eqn:E5.
  destruct (map_result (rule_removal _ _) _) as [removals|] eqn:E6; [|done].
  injection H as <-. exists sane, dr, sr, consumed, removals.
  constructor; try done. simpl. by rewrite hset_insert_all_app.
Qed.

Lemma rule_removed_true absent_rules absent r :
  rule_removed absent_rules absent r = true ↔
  (∃ a, a ∈ absent_rules ∧ rule_is_match a r = true) ∨ in_set (rr_iif r) absent.
Proof. unfold rule_removed. by rewrite orb_true_iff, existsb_elem_of, iface_in_true. Qed.

Lemma elem_of_rule_changes desired current saved mi mu sane dr sr consumed removals r :
  rules_run desired current saved mi mu sane dr sr consumed removals →
  r ∈ omap id removals ++
    List.filter (λ r, negb (current_rule_matches (default [] (rules_config current)) r))
      (mu_for_verify mu) ↔
  rule_must_remove mi desired current r ∨ rule_must_add current (mu_for_verify mu) r.
Proof.
  intros []. rewrite elem_of_app, elem_of_omap_id. f_equiv.
  - apply map_result_Forall2 in ur_removals0. unfold rule_must_remove.
    assert (∀ c, rule_removal (resolve_rule_iif mi <$>
        rules_absent (default [] (rules_config desired))) (absent_ifaces mi) c = Ok (Some r) ↔
      rule_sanitize (mark_rule_absent c) = Ok r ∧
      ((∃ a, a ∈ default [] (rules_config desired) ∧ rule_is_absent a = true ∧
        rule_is_match (resolve_rule_iif mi a) c = true) ∨
       in_set (rr_iif c) (absent_ifaces mi))) as Hc.
    { intros c. unfold rule_removal.
      transitivity (rule_sanitize (mark_rule_absent c) = Ok r ∧
        rule_removed (resolve_rule_iif mi <$>
          rules_absent (default [] (rules_config desired))) (absent_ifaces mi) c = true).
      - destruct (rule_removed _ _ c); [|naive_solver].
        destruct (rule_sanitize _); naive_solver.
      - rewrite rule_removed_true. setoid_rewrite list_elem_of_fmap. f_equiv. f_equiv. split.
        + intros (a & (a' & -> & [Ha Hab]%elem_of_rules_absent) & Hm). eauto.
        + intros (a & Ha & Hab & Hm). eexists. split; [|done].
          exists a. by rewrite elem_of_rules_absent. }
    setoid_rewrite <-Hc. split.
    + intros Hr. by apply (Forall2_elem_r _ _ _ _ ur_removals0).
    + intros (c & Hcur & Hr).
      destruct (Forall2_elem_l _ _ _ _ ur_removals0 Hcur) as (o & Ho & He). congruence.
  - unfold rule_must_add, current_rule_matches.
    by rewrite list_elem_of_In, filter_In, <-list_elem_of_In, negb_true_iff,
      existsb_false_elem_of.
Qed.

(** The rules a successful merge hands to the kernel.  Before priorities are
    assigned they are a sorted list without two equal rules: the removals of the
    current rules that an absent desired rule matches or whose interface is
    deleted, and the desired rules, their interface resolved, that match no
    current rule; nothing else is there, and each of these is there up to rule
    equality.  They differ from the changed rules in the priorities
    [set_auto_priority] assigns. *)
Theorem merged_rules_changed_correct desired current saved mi mu :
  merged_route_rules_new desired current saved mi = Ok mu →
  ∃ base,
    mu_changed_rules mu = set_auto_priority base (default [] (rules_config current)) ∧
    StronglySorted rule_le base ∧ rules_distinct base ∧
    (∀ r, r ∈ base → rule_must_remove mi desired current r ∨
       rule_must_add current (mu_for_verify mu) r) ∧
    (∀ r, rule_must_remove mi desired current r ∨ rule_must_add current (mu_for_verify mu) r →
       rule_sort_key r ∈ rule_sort_key <$> base).
Proof.
  intros (sane & dr & sr & consumed & removals & Hrun)%merged_route_rules_new_ok.
  eexists. split; [apply Hrun|]. split_and!.
  - apply sort_rules_sorted.
  - apply sort_rules_distinct, insert_all_rules_distinct.
  - intros r Hr%elem_of_sort_rules%insert_all_rules_sub. by eapply elem_of_rule_changes.
  - intros r Hr. rewrite sort_rules_perm. apply insert_all_rules_key.
    by eapply elem_of_rule_changes.
Qed.

(** ** Verification *)

Lemma resolve_rule_iif_state mi r :
  rule_is_absent (resolve_rule_iif mi r) = rule_is_absent r.
Proof. unfold resolve_rule_iif. repeat case_match; by destruct r. Qed.

Lemma rule_sanitize_state r r' :
  rule_sanitize r = Ok r' → rule_is_absent r' = rule_is_absent r.
Proof.
  unfold rule_sanitize. destruct r. intros H. step_cases H; injection H as <-; done.
Qed.

Lemma inherit_rules_state mi sr c l l' c' :
  inherit_rules mi sr c l = (l', c') →
  Forall2 (λ r r', rule_is_absent r' = rule_is_absent r) l l'.
Proof.
  revert c l' c'. induction l as [|r l IH]; intros c l' c' H; simpl in H.
  { by injection H as <- <-. }
  destruct (List.find _ _) as [[i s]|];
    (destruct (inherit_rules _ _ _ l) as [k c2] eqn:E; injection H as <- <-;
     constructor; [done|by eapply IH]).
Qed.

Lemma for_verify_present desired current saved mi mu sane dr sr consumed removals d :
  rules_run desired current saved mi mu sane dr sr consumed removals →
  d ∈ mu_for_verify mu → rule_is_absent d = false.
Proof.
  intros [] Hd. rewrite ur_verify0 in Hd. apply list_elem_of_fmap in Hd as (x & -> & Hx).
  rewrite resolve_rule_iif_state. apply inherit_rules_state in ur_inherit0.
  destruct (Forall2_elem_r _ _ _ _ ur_inherit0 Hx) as (y & Hy & ->).
  apply map_result_Forall2 in ur_sane0.
  destruct (Forall2_elem_r _ _ _ _ ur_sane0 Hy) as (z & [_ Hz]%elem_of_rules_present & Hzy).
  by rewrite (rule_sanitize_state _ _ Hzy).
Qed.

(** Assigning a priority leaves a rule alone or sets the priority of one
    without. *)
Definition with_priority (r r' : RouteRuleEntry) : Prop :=
  r' = r ∨ (needs_priority r = true ∧ ∃ p, r' = set_rr_priority (Some p) r).

Lemma assign_priorities_with m max l :
  Forall2 with_priority l (assign_priorities m max l).
Proof.
  revert max. induction l as [|r l IH]; intros max; simpl; [constructor|].
  destruct (needs_priority r) eqn:En; [destruct (find_cur_priority r m)|];
    (constructor; [|apply IH]); unfold with_priority; eauto.
Qed.

Lemma if_false_true (b c : bool) : (if b then false else c) = true ↔ b = false ∧ c = true.
Proof. destruct b; naive_solver. Qed.

(** A rule with a priority put in matches less. *)
Lemma rule_match_weaken p d r :
  needs_priority d = true → rule_is_match (set_rr_priority (Some p) d) r = true →
  rule_is_match d r = true.
Proof.
  intros Hn. unfold needs_priority in Hn. apply andb_true_iff in Hn as [_ Hn].
  unfold rule_is_match. destruct d as [fam s nf nt q tb m k a i l].
  cbn [set_rr_priority rr_family rr_ip_from rr_ip_to rr_priority rr_table_id rr_fwmark
    rr_fwmask rr_action rr_iif rr_suppress_prefix_length rr_state] in *.
  rewrite !if_false_true. intros (H1 & H2 & H3 & _ & H). split_and!; try tauto.
  apply orb_true_iff in Hn as [Hn|Hn]; apply bool_decide_eq_true in Hn as ->; [done|].
  by rewrite (bool_decide_true (Some _ = Some _)).
Qed.

(** What the kernel does with the changed rules: it keeps the current rules no
    removal matches, it has for each added rule one that matches it, and no rule
    a removal matches is left. *)
Record kernel_applied (mu : MergedRouteRules) (current after : list RouteRuleEntry) : Prop := {
  ka_kept : ∀ r, r ∈ current →
    (∀ a, a ∈ mu_changed_rules mu → rule_is_absent a = true → rule_is_match a r = false) →
    r ∈ after;
  ka_added : ∀ c, c ∈ mu_changed_rules mu → rule_is_absent c = false →
    ∃ r, r ∈ after ∧ rule_is_match c r = true;
  ka_removed : ∀ a r, a ∈ mu_changed_rules mu → rule_is_absent a = true →
    r ∈ after → rule_is_match a r = false;
}.

Lemma mu_verify_ok mu after :
  mu_verify mu (route_rules (Some after)) = Ok tt ↔
  (∀ d, d ∈ mu_for_verify mu → ∃ r, r ∈ after ∧ rule_is_match d r = true) ∧
  (∀ a r, a ∈ mu_changed_rules mu → rule_is_absent a = true → r ∈ after →
     rule_is_match a r = false).
Proof.
  unfold mu_verify, current_rule_matches. cbn [default rules_config].
  destruct (existsb _ (mu_for_verify mu)) eqn:E1.
  - split; [done|]. intros [H _]. apply existsb_elem_of in E1 as (d & Hd & Hn).
    destruct (H d Hd) as (r & Hr & Hm). apply negb_true_iff in Hn.
    rewrite existsb_false_elem_of in Hn. rewrite Hn in Hm; done.
  - rewrite existsb_false_elem_of in E1.
    assert (∀ d, d ∈ mu_for_verify mu → ∃ r, r ∈ after ∧ rule_is_match d r = true) as H1.
    { intros d Hd. apply existsb_elem_of. by apply negb_false_iff, E1. }
    destruct (existsb _ (rules_absent _)) eqn:E2.
    + split; [done|]. intros [_ H]. apply existsb_elem_of in E2 as (a & Ha & Hm).
      apply elem_of_rules_absent in Ha as [Ha Hab].
      apply existsb_elem_of in Hm as (r & Hr & Hm). rewrite H in Hm; done.
    + split; [intros _|done]. split; [done|]. intros a r Ha Hab Hr.
      rewrite existsb_false_elem_of in E2.
      pose proof (E2 a (proj2 (elem_of_rules_absent a _) (conj Ha Hab))) as H.
      rewrite existsb_false_elem_of in H. by apply H.
Qed.


(** ** What is persisted *)

(** The saved rules an apply keeps. *)
Definition rule_kept (mi : MergedInterfaces) (desired : RouteRules)
    (saved_rules : list RouteRuleEntry) (consumed : list nat) (r : RouteRuleEntry) : Prop :=
  ∃ i, saved_rules !! i = Some r ∧ i ∉ consumed ∧
    (∀ a, a ∈ default [] (rules_config desired) → rule_is_absent a = true →
       rule_is_match (resolve_rule_iif mi a) (resolve_rule_iif mi r) = false) ∧
    ¬ in_set (rr_iif (resolve_rule_iif mi r)) (absent_ifaces mi).

Lemma gen_route_rules_for_save_set desired dr sr consumed mi :
  ∃ k, gen_route_rules_for_save dr
         (resolve_rule_iif mi <$> rules_absent (default [] (rules_config desired)))
         sr consumed (absent_ifaces mi) mi =
       route_rules (match sort_rules (insert_all_rules (dr ++ k) []) with
                    | [] => None | l => Some l end) ∧
       ∀ r, r ∈ k ↔ rule_kept mi desired sr consumed r.
Proof.
  set (gone := rule_removed (resolve_rule_iif mi <$>
    rules_absent (default [] (rules_config desired))) (absent_ifaces mi)).
  set (f := λ e : nat * RouteRuleEntry,
    if bool_decide (e.1 ∈ consumed) then None
    else if gone (resolve_rule_iif mi e.2) then None else Some e.2).
  exists (omap f (enumerate sr)). split.
  - unfold gen_route_rules_for_save. cbv zeta. rewrite hset_insert_all_app.
    rewrite (foldl_hset_insert_omap rule_key_cmp rule_sort_key f); [by destruct (sort_rules _)|].
    intros s e. unfold f, gone. by repeat case_match.
  - intros r. rewrite list_elem_of_omap. unfold rule_kept.
    assert (∀ r, gone r = false ↔
      (∀ a, a ∈ default [] (rules_config desired) → rule_is_absent a = true →
         rule_is_match (resolve_rule_iif mi a) r = false) ∧
      ¬ in_set (rr_iif r) (absent_ifaces mi)) as Hg.
    { intros x. unfold gone, rule_removed.
      rewrite orb_false_iff, existsb_false_elem_of, <-iface_in_true, not_true_iff_false.
      setoid_rewrite list_elem_of_fmap. f_equiv. split.
      - intros H a Ha Hab. apply H. exists a. by rewrite elem_of_rules_absent.
      - intros H y (a & -> & [Ha Hab]%elem_of_rules_absent). auto. }
    setoid_rewrite <-Hg. split.
    + intros ([i x] & Hi%elem_of_enumerate & Hf). unfold f in Hf. simpl in Hf.
      destruct (bool_decide _) eqn:E1; [done|].
      destruct (gone _) eqn:E2; [done|]. injection Hf as ->. bool_hyps. eauto.
    + intros (i & Hi & Hc & Hk). exists (i, r). split; [by apply elem_of_enumerate|].
      unfold f. simpl. by rewrite bool_decide_false, Hk.
Qed.

(** What a successful merge of the rules persists: a sorted list without two
    equal rules, of every desired rule with what it inherits and every saved rule
    that no desired rule replaced, no absent desired rule matches and whose
    interface this apply does not delete; of a desired and a saved rule that are
    equal the desired one.  The rules to verify are the persisted desired rules
    with their interface resolved. *)
Theorem rules_for_save_correct desired current saved mi mu :
  merged_route_rules_new desired current saved mi = Ok mu →
  ∃ sane dr sr consumed,
    map_result rule_sanitize (rules_present (default [] (saved ≫= rules_config))) = Ok sr ∧
    map_result rule_sanitize (rules_present (default [] (rules_config desired))) = Ok sane ∧
    inherit_rules mi sr [] sane = (dr, consumed) ∧
    mu_for_verify mu = resolve_rule_iif mi <$> dr ∧
    let l := default [] (rules_config (mu_for_save mu)) in
    let kept := rule_kept mi desired sr consumed in
    StronglySorted rule_le l ∧ rules_distinct l ∧
    (∀ r, r ∈ l → r ∈ dr ∨ (kept r ∧ ∀ d, d ∈ dr → rule_sort_key d ≠ rule_sort_key r)) ∧
    (∀ r, r ∈ dr ∨ kept r → rule_sort_key r ∈ rule_sort_key <$> l).
Proof.
  intros (sane & dr & sr & consumed & removals & Hrun)%merged_route_rules_new_ok.
  exists sane, dr, sr, consumed. split_and!; [apply Hrun..|]. cbv zeta.
  rewrite (ur_save _ _ _ _ _ _ _ _ _ _ Hrun).
  destruct (gen_route_rules_for_save_set desired dr sr consumed mi) as (k & -> & Hk).
  set (set := insert_all_rules (dr ++ k) []).
  assert (default [] (rules_config (route_rules
    (match sort_rules set with [] => None | l => Some l end))) = sort_rules set) as ->
    by (simpl; by destruct (sort_rules set)).
  setoid_rewrite <-Hk. split_and!.
  - apply sort_rules_sorted.
  - apply sort_rules_distinct, insert_all_rules_distinct.
  - intros r Hr. apply (proj1 (elem_of_sort_rules r set)) in Hr.
    apply (elem_of_hset_insert_all_first rule_key_cmp rule_sort_key) in Hr
      as [[]%elem_of_nil|(l1 & l2 & Hl & Hn)].
    assert (∀ d, d ∈ l1 → rule_sort_key d ≠ rule_sort_key r) as Hne.
    { intros d Hd He. apply Hn. rewrite <-He. by apply list_elem_of_fmap_2. }
    apply app_eq_inv in Hl as [(m & -> & Hm)|(m & -> & Hm)].
    + destruct m as [|x m]; simpl in Hm; [right|injection Hm as <- _; left; set_solver].
      subst k. split; [set_solver|]. intros d Hd. apply Hne. set_solver.
    + right. subst k. split; [set_solver|]. intros d Hd. apply Hne. set_solver.
  - intros r Hr. rewrite sort_rules_perm. apply insert_all_rules_key. set_solver.
Qed.

(** ** Concrete runs *)

Definition ex_rules_new (desired current : list RouteRuleEntry) (saved : option RouteRules) :
    res MergedRouteRules :=
  merged_route_rules_new (ex_rules desired) (ex_rules current) saved ex_mi_eth1.

Definition ex_mu_default : MergedRouteRules :=
  merged_route_rules rules_default rules_default [] rules_default [].

Definition ex_new_rule : RouteRuleEntry := ex_rule "198.51.100.0/24" 100 None.
Definition ex_cur_rule : RouteRuleEntry :=
  set_rr_family (Some Ipv4) (ex_rule "203.0.113.0/24" 200 (Some 30000)).
Definition ex_added_rule : RouteRuleEntry :=
  set_rr_family (Some Ipv4) (ex_rule "198.51.100.0/24" 100 (Some 30001)).

(** Adding a rule without priority next to a current one. *)
Definition ex_mu : MergedRouteRules :=
  get_ok ex_mu_default (ex_rules_new [ex_new_rule] [ex_cur_rule] (Some (ex_rules [ex_cur_rule]))).

Example ex_mu_ok :
  ex_rules_new [ex_new_rule] [ex_cur_rule] (Some (ex_rules [ex_cur_rule])) = Ok ex_mu.
Proof. vm_compute. reflexivity. Qed.

Example ex_mu_changed : mu_changed_rules ex_mu = [ex_added_rule].
Proof. vm_compute. reflexivity. Qed.

Lemma merged_rules_changed_correct_witness :
  ∃ base, mu_changed_rules ex_mu = set_auto_priority base [ex_cur_rule] ∧ rules_distinct base.
Proof.
  destruct (merged_rules_changed_correct _ _ _ _ _ ex_mu_ok) as (base & H1 & _ & H2 & _).
  exact (ex_intro _ base (conj H1 H2)).
Defined.

Lemma rules_for_save_correct_witness :
  rules_distinct (default [] (rules_config (mu_for_save ex_mu))).
Proof.
  destruct (rules_for_save_correct _ _ _ _ _ ex_mu_ok)
    as (_ & _ & _ & _ & _ & _ & _ & _ & _ & H & _). exact H.
Defined.


(** Replacing a rule by deleting and adding it in one apply deletes it, and the
    verification fails on what is left. *)
Example delete_and_add_rule_fails_verification :
  let absent := set_rr_state (Some RuleAbsent) (set_rr_table_id (Some 200) rule_default) in
  let mu := get_ok ex_mu_default (ex_rules_new [absent; ex_cur_rule] [ex_cur_rule] None) in
  mu_changed_rules mu = [mark_rule_absent ex_cur_rule] ∧
  mu_verify mu (ex_rules []) = fail VerificationError.
Proof. vm_compute. split; reflexivity. Qed.
