(* ===== verification/LinkEvent.v ===== *)
(** * LinkEvent: link events and the kernel messages they come from

    [src/lib/schema/link_event.rs], [Interface::process_auto_connect] of
    [src/lib/schema/auto_connect.rs], and of
    [src/daemon/monitor/monitor_worker.rs] the part before the worker: reading
    an event out of a netlink link message or out of a queried interface, and
    the record kept of the last event of an interface.

    The netlink packet types belong to third-party crates; they are modelled by
    the constructors the source matches on, every other one being one
    constructor.  What is read from outside (clocks, sysfs, the udev database,
    the parser of the 802.11 information elements) is the record [Env]. *)

From S2P Require Export Interfaces.

#[local] Open Scope Z_scope.

(** ** The outside of the worker *)

(** [Ieee80211Element]. *)
Inductive Ieee80211Element : Type := Ssid (s : string) | OtherElement.

(** What a step of the worker reads: both clocks in nanoseconds, whether a
    name is a wireless NIC in sysfs, [Ieee80211Elements::parse], whether udev
    initialized an interface index, whether the daemon is online, whether the
    commander still holds its end of the channel, and the order in which the
    iterator of a [HashMap] yields the given keys. *)
Record Env : Type := mk_env {
  env_instant : Z;
  env_system_time : Z;
  env_wifi_nic : string → bool;
  env_parse_ies : list Z → option (list Ieee80211Element);
  env_udev_initialized : Z → bool;
  env_online : bool;
  env_channel_open : bool;
  env_order : list string → list string;
  env_order_perm : ∀ l, env_order l ≡ₚ l;
}.

Definition from_secs (s : Z) : Z := s * 1000000000.

(** [SystemTime::elapsed]: an error when the clock went backwards. *)
Definition elapsed (env : Env) (time : Z) : option Z :=
  if env_system_time env <? time then None else Some (env_system_time env - time).

(** ** Link events *)

Record InterfaceLinkEvent : Type := link_event {
  le_iface_name : string;
  le_iface_index : Z;
  le_iface_type : InterfaceType;
  le_is_up : bool;
  le_is_delete : bool;
  le_time_stamp : Z;
  le_ssid : option string;
  le_is_new_wifi_phy : bool;
}.

#[export] Instance InterfaceLinkEvent_eq_dec : EqDecision InterfaceLinkEvent.
Proof. solve_decision. Defined.

(** [InterfaceLinkEvent::new]. *)
Definition link_event_new (env : Env) (name : string) (index : Z) (t : InterfaceType)
    (is_up : bool) (ssid : option string) : InterfaceLinkEvent :=
  link_event name index t is_up false (env_system_time env) ssid false.

Definition set_is_up (b : bool) (e : InterfaceLinkEvent) : InterfaceLinkEvent :=
  link_event (le_iface_name e) (le_iface_index e) (le_iface_type e) b (le_is_delete e)
    (le_time_stamp e) (le_ssid e) (le_is_new_wifi_phy e).
Definition set_is_delete (b : bool) (e : InterfaceLinkEvent) : InterfaceLinkEvent :=
  link_event (le_iface_name e) (le_iface_index e) (le_iface_type e) (le_is_up e) b
    (le_time_stamp e) (le_ssid e) (le_is_new_wifi_phy e).
Definition set_ssid (s : option string) (e : InterfaceLinkEvent) : InterfaceLinkEvent :=
  link_event (le_iface_name e) (le_iface_index e) (le_iface_type e) (le_is_up e)
    (le_is_delete e) (le_time_stamp e) s (le_is_new_wifi_phy e).
Definition set_is_new_wifi_phy (b : bool) (e : InterfaceLinkEvent) : InterfaceLinkEvent :=
  link_event (le_iface_name e) (le_iface_index e) (le_iface_type e) (le_is_up e)
    (le_is_delete e) (le_time_stamp e) (le_ssid e) b.

(** [WifiPhyInterface::ssid] of an interface that is one. *)
Definition iface_wifi_phy_ssid (i : Interface) : option string :=
  match i with IfWifiPhy _ wifi => wifi_phy_ssid wifi | _ => None end.

(** [From<&Interface> for InterfaceLinkEvent]. *)
Definition event_from_iface (env : Env) (i : Interface) : InterfaceLinkEvent :=
  let b := base_iface i in
  link_event (kernel_iface_name i) (default 0 (bi_iface_index b)) (iface_type i)
    (bool_decide (bi_link_state b = Some LUp)) (iface_is_absent i)
    (env_system_time env) (iface_wifi_phy_ssid i) false.

(** [link_event_from_iface]. *)
Definition link_event_from_iface (env : Env) (name : string) (i : Interface)
    (wifi_monitor_enabled : bool) : option InterfaceLinkEvent :=
  let base := base_iface i in
  let is_up := match bi_link_state base with
    | Some LUp | Some LDormant => true
    | Some LUnknown => bool_decide (bi_state base = SUp)
    | _ => false
    end in
  let event := link_event_new env name (default 0 (bi_iface_index base)) (iface_type i)
    is_up None in
  Some (if wifi_monitor_enabled && bool_decide (iface_type i = TWifiPhy) then
          match i with
          | IfWifiPhy _ wifi =>
              match wifi_phy_ssid wifi with
              | Some ssid => set_ssid (Some ssid) event
              | None => event
              end
          | _ => event
          end
        else event).

(** [event_extra_info]. *)
Definition event_extra_info (event : InterfaceLinkEvent) : option string :=
  if decide (le_iface_type event = TWifiPhy) then le_ssid event else None.

(** [event_is_explicitly_down]. *)
Definition event_is_explicitly_down (event : InterfaceLinkEvent)
    (explicitly_down : gset string) : bool :=
  bool_decide (le_iface_name event ∈ explicitly_down) ||
  match le_ssid event with
  | Some ssid => bool_decide (ssid ∈ explicitly_down)
  | None => false
  end.

(** ** The last event of an interface *)

Record LastLinkEvent : Type := last_link_event_of {
  ll_is_up : bool;
  ll_iface_index : Z;
  ll_iface_type : InterfaceType;
  ll_extra_info : option string;
  ll_mac_address : option string;
  ll_time_stamp : Z;
}.

(** [LastLinkEvent::from_event]. *)
Definition from_event (event : InterfaceLinkEvent) (mac_address : option string) :
    LastLinkEvent :=
  last_link_event_of (le_is_up event) (le_iface_index event) (le_iface_type event)
    (event_extra_info event) mac_address (le_time_stamp event).

(** [LastLinkEvent::is_same_state]. *)
Definition is_same_state (self : LastLinkEvent) (event : InterfaceLinkEvent) : bool :=
  if negb (Bool.eqb (ll_is_up self) (le_is_up event)) then false
  else
    match event_extra_info event with
    | None => true
    | Some extra_info => bool_decide (ll_extra_info self = Some extra_info)
    end.

(** [LastLinkEvent::to_delete_event]. *)
Definition to_delete_event (env : Env) (self : LastLinkEvent) (name : string) :
    InterfaceLinkEvent :=
  set_is_delete true
    (link_event_new env name (ll_iface_index self) (ll_iface_type self) false
       (ll_extra_info self)).

(** ** Netlink link messages *)

Inductive WirelessEvent : Type :=
| AssociateRequest (ies : list Z) | AssociateResponse (ies : list Z) | OtherWireless.

(** [InfoKind], those without a constructor by the text they are shown as. *)
Inductive InfoKind : Type :=
| KBond | KVeth | KBridge | KVlan | KVxlan | KDummy | KTun | KVrf | KMacVlan
| KMacVtap | KIpoib | KIpVlan | KMacSec | KHsr | KXfrm | KOther (shown : string).

Inductive LinkInfo : Type := Kind (k : InfoKind) | OtherInfo.

Inductive LinkAttribute : Type :=
| IfName (name : string) | Address (addr : list Z) | Wireless (e : WirelessEvent)
| LinkInfos (infos : list LinkInfo) | OtherAttribute.

Inductive LinkLayerType : Type :=
| LinkEther | LinkLoopback | LinkInfiniband | LinkOther (shown : string).

Record LinkMessage : Type := link_message {
  lm_index : Z;
  lm_lower_up : bool;
  lm_running : bool;
  lm_link_layer_type : LinkLayerType;
  lm_attributes : list LinkAttribute;
}.

(** The payload of a [NetlinkMessage<RouteNetlinkMessage>]. *)
Inductive RouteNetlinkMessage : Type :=
| NewLink (msg : LinkMessage) | DelLink (msg : LinkMessage) | OtherMessage.

(** [iter().find_map(f)]. *)
Fixpoint find_map {A B} (f : A → option B) (l : list A) : option B :=
  match l with
  | [] => None
  | x :: l' => match f x with Some y => Some y | None => find_map f l' end
  end.

Definition hex_digit (n : Z) : ascii :=
  ascii_of_N (Z.to_N (if n <? 10 then 48 + n else 55 + n)).

(** [format!("{b:02X}")] of a byte. *)
Definition hex_byte (b : Z) : string :=
  String (hex_digit (b / 16)) (String (hex_digit (b mod 16)) "").

(** [format_mac]. *)
Definition format_mac (addr : list Z) : option string :=
  if (length addr =? 6)%nat then Some (String.concat ":" (hex_byte <$> addr)) else None.

Definition ascii_lower (c : ascii) : ascii :=
  let n := Z.of_N (N_of_ascii c) in
  if (65 <=? n) && (n <=? 90) then ascii_of_N (Z.to_N (n + 32)) else c.

(** [str::to_lowercase], for the ASCII names the kernel has for these kinds. *)
Fixpoint to_lowercase (s : string) : string :=
  match s with
  | "" => ""
  | String c s' => String (ascii_lower c) (to_lowercase s')
  end%string.

(** The [match info_kind] of [parse_iface_type_from_nl_msg]. *)
Definition type_of_kind (k : InfoKind) : InterfaceType :=
  match k with
  | KBond => TBond | KVeth => TVeth | KBridge => TLinuxBridge | KVlan => TVlan
  | KVxlan => TVxlan | KDummy => TDummy | KTun => TTun | KVrf => TVrf
  | KMacVlan => TMacVlan | KMacVtap => TMacVtap | KIpoib => TInfiniBand
  | KIpVlan => TIpVlan | KMacSec => TMacSec | KHsr => THsr | KXfrm => TXfrm
  | KOther v => TUnknown (to_lowercase v)
  end.

(** [parse_iface_type_from_nl_msg]. *)
Definition parse_iface_type_from_nl_msg (msg : LinkMessage) : InterfaceType :=
  let info_kind :=
    match find_map (λ a, match a with LinkInfos infos => Some infos | _ => None end)
            (lm_attributes msg) with
    | Some infos => find_map (λ i, match i with Kind k => Some k | OtherInfo => None end) infos
    | None => None
    end in
  match info_kind with
  | Some k => type_of_kind k
  | None =>
      match lm_link_layer_type msg with
      | LinkEther => TEthernet
      | LinkLoopback => TLoopback
      | LinkInfiniband => TInfiniBand
      | LinkOther v => TUnknown (to_lowercase v)
      end
  end.

(** [is_wifi_association_event]. *)
Definition is_wifi_association_event (e : WirelessEvent) : bool :=
  match e with AssociateRequest _ | AssociateResponse _ => true | OtherWireless => false end.

(** The loop of [should_ignore_wireless_notification]. *)
Definition scan_attr (acc : bool * bool * bool) (attr : LinkAttribute) : bool * bool * bool :=
  let '(has_wireless_attr, has_association_ie, has_other_attr) := acc in
  match attr with
  | IfName _ => acc
  | Wireless e => (true, has_association_ie || is_wifi_association_event e, has_other_attr)
  | _ => (has_wireless_attr, has_association_ie, true)
  end.

(** [should_ignore_wireless_notification]. *)
Definition should_ignore_wireless_notification (msg : LinkMessage) : bool :=
  let '(has_wireless_attr, has_association_ie, has_other_attr) :=
    foldl scan_attr (false, false, false) (lm_attributes msg) in
  has_wireless_attr && negb has_other_attr && negb has_association_ie.

(** The information elements of the first association event of a message. *)
Definition association_ies (msg : LinkMessage) : option (list Z) :=
  find_map (λ a, match a with
                 | Wireless (AssociateResponse ies) | Wireless (AssociateRequest ies) => Some ies
                 | _ => None
                 end) (lm_attributes msg).

(** The loop over [elements.0]: the first SSID that is not empty. *)
Definition first_ssid (elements : list Ieee80211Element) : option string :=
  find_map (λ ie, match ie with
                  | Ssid s => if String.eqb s "" then None else Some s
                  | OtherElement => None
                  end) elements.

(** [parse_link_msg]. *)
Definition parse_link_msg (env : Env) (msg : LinkMessage) (wifi_monitor_enabled : bool)
    (is_delete : bool) : option (InterfaceLinkEvent * option string) :=
  match find_map (λ a, match a with IfName n => Some n | _ => None end) (lm_attributes msg) with
  | None => None
  | Some iface_name =>
      let mac := find_map (λ a, match a with Address addr => format_mac addr | _ => None end)
                   (lm_attributes msg) in
      let iface_type := parse_iface_type_from_nl_msg msg in
      let iface_type :=
        if bool_decide (iface_type = TEthernet) && env_wifi_nic env iface_name
        then TWifiPhy else iface_type in
      let event := link_event_new env iface_name (lm_index msg) iface_type false None in
      if is_delete then Some (set_is_delete true event, mac)
      else
        let event := set_is_up (lm_lower_up msg || lm_running msg) event in
        if should_ignore_wireless_notification msg then None
        else if wifi_monitor_enabled && bool_decide (iface_type = TWifiPhy) then
          match association_ies msg with
          | None => Some (event, mac)
          | Some wifi_ie =>
              match env_parse_ies env wifi_ie with
              | Some elements =>
                  match first_ssid elements with
                  | Some ssid => Some (set_ssid (Some ssid) event, mac)
                  | None => Some (event, mac)
                  end
              | None => Some (event, mac)
              end
          end
        else Some (event, mac)
  end.

(** [parse_route_netlink_msg]. *)
Definition parse_route_netlink_msg (env : Env) (msg : RouteNetlinkMessage)
    (wifi_monitor_enabled : bool) : option (InterfaceLinkEvent * option string) :=
  match msg with
  | NewLink m => parse_link_msg env m wifi_monitor_enabled false
  | DelLink m => parse_link_msg env m wifi_monitor_enabled true
  | OtherMessage => None
  end.

(** ** Activation by link events *)

Definition some_wifi_phy_has_ssid (cur_ifaces : Interfaces) (ssid : string) : bool :=
  existsb (λ i, bool_decide (iface_wifi_phy_ssid i = Some ssid)) (interfaces_iter cur_ifaces).

(** [Interface::process_auto_connect]. *)
Definition process_auto_connect (self : Interface) (event : InterfaceLinkEvent)
    (cur_ifaces : Interfaces) : option bool :=
  let base := base_iface self in
  match bi_auto_connect base with
  | None => None
  | Some Manual => None
  | Some AutoConnect =>
      let name_matched := String.eqb (kernel_iface_name self) (le_iface_name event) in
      let mac_matched :=
        negb name_matched && bool_decide (bi_identifier base = Some IdMacAddress) &&
        match bi_mac_address base with
        | Some saved_mac =>
            match ifs_kernel cur_ifaces !! le_iface_name event with
            | Some cur => mac_of_iface_is (to_ascii_uppercase saved_mac) (base_iface cur)
            | None => false
            end
        | None => false
        end in
      if negb name_matched && negb mac_matched then None
      else if le_is_delete event then None
      else Some (le_is_up event)
  | Some (AcWifi ssid) => Some (some_wifi_phy_has_ssid cur_ifaces ssid)
  | Some (AcWifiNot ssid) => Some (negb (some_wifi_phy_has_ssid cur_ifaces ssid))
  end.

(** [iface_identity_names]. *)
Definition iface_identity_names (i : Interface) : list string :=
  let kernel := kernel_iface_name i in
  [iface_name i] ++
  (if negb (String.eqb kernel "") && negb (String.eqb kernel (iface_name i))
   then [kernel] else []) ++
  match bi_profile_name (base_iface i) with
  | Some p =>
      if negb (String.eqb p (iface_name i)) && negb (String.eqb p kernel) then [p] else []
  | None => []
  end.
