(* ===== verification/NetState.v ===== *)
(** * NetState: the network state and its options

    [src/lib/schema/net_state.rs], [wait_online.rs] and [state_options.rs]: what
    a query returns, a configuration file holds and an apply asks for, when the
    daemon counts as online, and the options of an apply. *)

From S2P Require Export RouteRule DnsConfig LinkEvent.

#[local] Open Scope Z_scope.

(** ** Wait-online *)

Definition GATEWAY4 : string := "0.0.0.0/0".
Definition GATEWAY6 : string := "::/0".

Inductive NipartWaitOnlineCondition : Type := Gateway | Gateway4 | Gateway6.

Record NipartWaitOnline : Type := wait_online {
  wo_timeout_sec : Z;
  wo_conditions : list NipartWaitOnlineCondition;
}.

Definition DEFAULT_TIMEOUT_SEC : Z := 30.

(** [NipartWaitOnline::default]. *)
Definition wait_online_default : NipartWaitOnline := wait_online DEFAULT_TIMEOUT_SEC [Gateway].

(** ** [NetworkState] *)

Definition CUR_SCHEMA_VERSION : Z := 1.

Record NetworkState : Type := network_state {
  ns_version : option Z;
  ns_description : option string;
  ns_wait_online : option NipartWaitOnline;
  ns_routes : Routes;
  ns_route_rules : RouteRules;
  ns_dns_resolver : DnsResolver;
  ns_ifaces : Interfaces;
}.

(** [NetworkState::default]. *)
Definition ns_default : NetworkState :=
  network_state (Some CUR_SCHEMA_VERSION) None None (routes None None) rules_default
    (dns_resolver None None None) interfaces_default.

Definition set_ns_routes (v : Routes) (s : NetworkState) : NetworkState :=
  network_state (ns_version s) (ns_description s) (ns_wait_online s) v (ns_route_rules s)
    (ns_dns_resolver s) (ns_ifaces s).
Definition set_ns_route_rules (v : RouteRules) (s : NetworkState) : NetworkState :=
  network_state (ns_version s) (ns_description s) (ns_wait_online s) (ns_routes s) v
    (ns_dns_resolver s) (ns_ifaces s).
Definition set_ns_ifaces (v : Interfaces) (s : NetworkState) : NetworkState :=
  network_state (ns_version s) (ns_description s) (ns_wait_online s) (ns_routes s)
    (ns_route_rules s) (ns_dns_resolver s) v.

(** [NetworkState::is_empty]; a state equal to the default one has only empty parts. *)
Definition ns_is_empty (self : NetworkState) : bool :=
  interfaces_is_empty (ns_ifaces self) && routes_is_empty (ns_routes self) &&
  rules_is_empty (ns_route_rules self) &&
  match ns_wait_online self with None => true | Some _ => false end &&
  resolver_is_empty (ns_dns_resolver self).

(** What the daemon does to a desired state it builds: [ifaces.push],
    [routes.config.get_or_insert_default().extend] and the same for the rules. *)
Definition push_iface (i : Interface) (s : NetworkState) : NetworkState :=
  set_ns_ifaces (interfaces_push (ns_ifaces s) i) s.

Definition extend_routes (l : list RouteEntry) (s : NetworkState) : NetworkState :=
  set_ns_routes (routes (running (ns_routes s)) (Some (default [] (config (ns_routes s)) ++ l))) s.

Definition extend_rules (l : list RouteRuleEntry) (s : NetworkState) : NetworkState :=
  set_ns_route_rules (route_rules (Some (default [] (rules_config (ns_route_rules s)) ++ l))) s.

(** ** When the network is online *)

(** [route_iface_link_usable]. *)
Definition route_iface_link_usable (cur_state : NetworkState) (rt : RouteEntry) : bool :=
  match rt_next_hop_iface rt ≫= λ name, ifs_kernel (ns_ifaces cur_state) !! name with
  | Some iface =>
      match bi_link_state (base_iface iface) with
      | Some LUp | Some LUnknown => true
      | _ => false
      end
  | None => false
  end.

(** [NipartWaitOnlineCondition::route_matches] and [is_met]. *)
Definition condition_route_matches (self : NipartWaitOnlineCondition) (rt : RouteEntry) : bool :=
  match self with
  | Gateway => bool_decide (rt_destination rt = Some GATEWAY4) ||
               bool_decide (rt_destination rt = Some GATEWAY6)
  | Gateway4 => bool_decide (rt_destination rt = Some GATEWAY4)
  | Gateway6 => bool_decide (rt_destination rt = Some GATEWAY6)
  end.

Definition condition_is_met (self : NipartWaitOnlineCondition) (cur_state : NetworkState) : bool :=
  match running (ns_routes cur_state) with
  | None => false
  | Some l => existsb (λ rt, condition_route_matches self rt &&
                             route_iface_link_usable cur_state rt) l
  end.

(** ** Options *)

Record NipartApplyOption : Type := apply_option {
  no_verify : bool;
  memory_only : bool;
  dhcp_in_no_daemon : bool;
  restart_auto_ip : bool;
  force : bool;
  no_wifi_connect_wait : bool;
}.

(** The builders of [NipartApplyOption]. *)
Definition opt_new : NipartApplyOption := apply_option false false false false false false.
Definition opt_no_verify (o : NipartApplyOption) : NipartApplyOption :=
  apply_option true (memory_only o) (dhcp_in_no_daemon o) (restart_auto_ip o) (force o)
    (no_wifi_connect_wait o).
Definition opt_memory_only (o : NipartApplyOption) : NipartApplyOption :=
  apply_option (no_verify o) true (dhcp_in_no_daemon o) (restart_auto_ip o) (force o)
    (no_wifi_connect_wait o).
Definition opt_dhcp_in_no_daemon (o : NipartApplyOption) : NipartApplyOption :=
  apply_option (no_verify o) true (dhcp_in_no_daemon o) (restart_auto_ip o) (force o)
    (no_wifi_connect_wait o).
Definition opt_restart_auto_ip (o : NipartApplyOption) : NipartApplyOption :=
  apply_option (no_verify o) (memory_only o) (dhcp_in_no_daemon o) true (force o)
    (no_wifi_connect_wait o).

(** The builder [dhcp_in_no_daemon] sets another option. *)
Example dhcp_in_no_daemon_is_not_set :
  dhcp_in_no_daemon (opt_dhcp_in_no_daemon opt_new) = false ∧
  memory_only (opt_dhcp_in_no_daemon opt_new) = true.
Proof. split; reflexivity. Qed.

(** ** Pushing *)

Lemma interfaces_new_app l k :
  foldl interfaces_push (interfaces_new l) k = interfaces_new (l ++ k).
Proof. unfold interfaces_new. by rewrite foldl_app. Qed.
