(* ===== verification/MergedNetState.v ===== *)
(** * MergedNetState: the whole state of an apply

    [src/lib/schema/merged/net_state.rs], [gen_diff/net_state.rs],
    [revert/net_state.rs], [revert/inter_ifaces.rs] and what [net_state.rs] does with
    secrets: the interfaces, routes, route rules and DNS of a request are merged with
    the current and the saved state, and from the result come the states to apply, to
    save, to show and to revert to. *)

From S2P Require Export NetState MergedIfaces MergedRouteRule MergedDns.

#[local] Open Scope Z_scope.

#[export] Instance NipartWaitOnlineCondition_eq_dec : EqDecision NipartWaitOnlineCondition.
Proof. solve_decision. Defined.

#[export] Instance NipartWaitOnline_eq_dec : EqDecision NipartWaitOnline.
Proof. solve_decision. Defined.

Record MergedNetworkState : Type := merged_net_state {
  mn_version : option Z;
  mn_description : option string;
  mn_description_for_save : option string;
  mn_ifaces : MergedInterfaces;
  mn_routes : MergedRoutes;
  mn_route_rules : MergedRouteRules;
  mn_dns : MergedDnsResolver;
  mn_wait_online : NipartWaitOnline;
  mn_wait_online_for_save : option NipartWaitOnline;
  mn_option : NipartApplyOption;
  mn_desired : NetworkState;
}.

Definition set_mn_ifaces (v : MergedInterfaces) (s : MergedNetworkState) : MergedNetworkState :=
  merged_net_state (mn_version s) (mn_description s) (mn_description_for_save s) v (mn_routes s)
    (mn_route_rules s) (mn_dns s) (mn_wait_online s) (mn_wait_online_for_save s) (mn_option s)
    (mn_desired s).

Definition set_mn_routes (v : MergedRoutes) (s : MergedNetworkState) : MergedNetworkState :=
  merged_net_state (mn_version s) (mn_description s) (mn_description_for_save s) (mn_ifaces s) v
    (mn_route_rules s) (mn_dns s) (mn_wait_online s) (mn_wait_online_for_save s) (mn_option s)
    (mn_desired s).

Definition set_mn_route_rules (v : MergedRouteRules) (s : MergedNetworkState) : MergedNetworkState :=
  merged_net_state (mn_version s) (mn_description s) (mn_description_for_save s) (mn_ifaces s)
    (mn_routes s) v (mn_dns s) (mn_wait_online s) (mn_wait_online_for_save s) (mn_option s)
    (mn_desired s).

(** ** Construction *)

Section New.
Context {Num : Type} `{!EqDecision Num} `{!Serde Num Interface} `{!Serde Num (list AltNameEntry)}.
(** [str::to_lowercase], [str::to_uppercase], [/etc/hosts], the order of hash maps. *)
Context (to_lowercase to_uppercase : string → string) (etc_hosts : option string) (it : Iteration).

(** [MergedNetworkState::new]. *)
Definition merged_net_state_new (desired current : NetworkState) (saved_config : option NetworkState)
    (option : NipartApplyOption) : outcome MergedNetworkState :=
  let? _ := lift (resolver_validate to_lowercase etc_hosts (ns_dns_resolver desired)) in
  let? merged_ifaces := new_with_force to_uppercase it (ns_ifaces desired) (ns_ifaces current)
                          (ns_ifaces <$> saved_config) (force option) in
  let? mroutes := lift (merged_routes_new (ns_routes desired) (ns_routes current)
                                (ns_routes <$> saved_config) merged_ifaces) in
  let? mrules := lift (merged_route_rules_new (ns_route_rules desired)
                                     (ns_route_rules current) (ns_route_rules <$> saved_config)
                                     merged_ifaces) in
  let ignored_ifaces := ignored_iface_names merged_ifaces in
  let mrules :=
    match ignored_ifaces with
    | [] => mrules
    | _ => remove_rules_to_ignored_ifaces mrules ignored_ifaces
    end in
  let? mdns := lift (merged_dns_new (ns_dns_resolver desired) (ns_dns_resolver current)
                             (ns_dns_resolver <$> saved_config)) in
  Ok (merged_net_state (ns_version desired) (ns_description desired)
        (option_or (ns_description desired) (saved_config ≫= ns_description))
        merged_ifaces mroutes mrules mdns
        (default wait_online_default (option_or (ns_wait_online desired) (ns_wait_online current)))
        (option_or (ns_wait_online desired) (saved_config ≫= ns_wait_online))
        option desired).

(** [MergedNetworkState::verify]. *)
Definition mn_verify (self : MergedNetworkState) (current : NetworkState) : res () :=
  let? _ := ifaces_verify (mn_ifaces self) (ns_ifaces current) in
  mu_verify (mn_route_rules self) (ns_route_rules current).

(** ** Derived states *)

(** [gen_state_for_apply], [gen_state_for_save]. *)
Definition mn_gen_state_for_apply (self : MergedNetworkState) : NetworkState :=
  network_state (mn_version self) (mn_description self) (ns_wait_online (mn_desired self))
    (mr_gen_state_for_apply (mn_routes self)) (mu_gen_state_for_apply (mn_route_rules self))
    (dns_state_for_apply (mn_dns self)) (ifaces_for_apply it (mn_ifaces self)).

Definition mn_gen_state_for_save (self : MergedNetworkState) : NetworkState :=
  network_state (mn_version self) (mn_description_for_save self) (mn_wait_online_for_save self)
    (mr_gen_state_for_save (mn_routes self)) (mu_gen_state_for_save (mn_route_rules self))
    (dns_state_for_save (mn_dns self)) (ifaces_for_save it (mn_ifaces self)).

(** [MergedInterface::generate_revert] and [MergedInterfaces::generate_revert]. *)
Definition mi_generate_revert (m : MergedInterface) : outcome (option Interface) :=
  match mi_for_apply m with
  | None => Ok None
  | Some apply_iface =>
      match mi_current m with
      | Some _ => iface_generate_revert apply_iface (mi_current m)
      | None =>
          let? revert_iface := clone_name_type_only apply_iface in
          Ok (Some (set_state SAbsent revert_iface))
      end
  end.

Definition push_revert (ret : Interfaces) (m : MergedInterface) : outcome Interfaces :=
  if mi_is_desired m || mi_is_changed m then
    let? r := mi_generate_revert m in
    Ok (match r with Some new_iface => interfaces_push ret new_iface | None => ret end)
  else Ok ret.

Definition ifaces_generate_revert (self : MergedInterfaces) : outcome Interfaces :=
  fold_result push_revert interfaces_default (merged_iter self).

(** [MergedNetworkState::generate_revert]. *)
Definition mn_generate_revert (self : MergedNetworkState) : outcome NetworkState :=
  let? ifs := ifaces_generate_revert (mn_ifaces self) in
  let? rts := lift (mr_generate_revert (mn_routes self)) in
  let? rrs := lift (mu_generate_revert (mn_route_rules self)) in
  Ok (network_state (ns_version ns_default) None None rts rrs (ns_dns_resolver ns_default)
        ifs).

(** [MergedNetworkState::gen_diff], [NetworkState::gen_diff]. *)
Definition mn_gen_diff (self : MergedNetworkState) : outcome NetworkState :=
  let? ifs := merged_ifaces_gen_diff (mn_ifaces self) in
  Ok (network_state (mn_version self) (mn_description self)
        (if bool_decide (mn_wait_online self = wait_online_default) then None
         else Some (mn_wait_online self))
        (mr_gen_diff (mn_routes self)) (mu_gen_diff (mn_route_rules self))
        (merged_gen_diff (mn_dns self)) ifs).

Definition ns_gen_diff (self old : NetworkState) : outcome NetworkState :=
  let? ifs := interfaces_gen_diff (ns_ifaces self) (ns_ifaces old) in
  Ok (network_state (ns_version self) (option_or (ns_description self) (ns_description old))
        (option_or (ns_wait_online self) (ns_wait_online old))
        (routes_gen_diff (ns_routes self) (ns_routes old))
        (rules_gen_diff (ns_route_rules self) (ns_route_rules old))
        (resolver_gen_diff (ns_dns_resolver self) (ns_dns_resolver old)) ifs).

(** [NetworkState::merge]. *)
Definition ns_merge (self new_state : NetworkState) : res NetworkState :=
  let? rts := routes_merge (ns_routes self) (ns_routes new_state) in
  let? rrs := rules_merge (ns_route_rules self) (ns_route_rules new_state) in
  let? dns := resolver_merge (ns_dns_resolver self) (ns_dns_resolver new_state) in
  let? ifs := interfaces_merge (ns_ifaces self) (ns_ifaces new_state) in
  Ok (network_state (option_or (ns_version new_state) (ns_version self))
        (option_or (ns_description new_state) (ns_description self))
        (option_or (ns_wait_online new_state) (ns_wait_online self))
        rts rrs dns ifs).

(** ** Secrets *)

Definition interfaces_hide_secrets (self : Interfaces) : Interfaces :=
  interfaces (iface_hide_secrets <$> ifs_kernel self) (iface_hide_secrets <$> ifs_user self)
    (insert_order self) (ifs_search self).

(** [NetworkState::hide_secrets]. *)
Definition ns_hide_secrets (self : NetworkState) : NetworkState :=
  set_ns_ifaces (interfaces_hide_secrets (ns_ifaces self)) self.

(** [NetworkState::extract_secrets]: the state without secrets, and the secrets. *)
Definition extract_secrets (self : NetworkState) : outcome (NetworkState * NetworkState) :=
  let original := self in
  let self := ns_hide_secrets self in
  let? secrets := interfaces_gen_diff (ns_ifaces original) (ns_ifaces self) in
  Ok (self, set_ns_ifaces secrets ns_default).

(** [MergedInterface::hide_secrets], [MergedNetworkState::hide_secrets]. *)
Definition mi_hide_secrets (m : MergedInterface) : MergedInterface :=
  merged_interface (iface_hide_secrets <$> mi_desired m) (iface_hide_secrets <$> mi_current m)
    (iface_hide_secrets (mi_merged m)) (iface_hide_secrets <$> mi_for_apply m)
    (iface_hide_secrets <$> mi_for_verify m) (iface_hide_secrets <$> mi_for_save m)
    (iface_hide_secrets <$> mi_for_revert m) (mi_up_priority m) (mi_will_delete m).

Definition mis_hide_secrets (self : MergedInterfaces) : MergedInterfaces :=
  set_user_ifaces (prod_map id mi_hide_secrets <$> user_ifaces self)
    (set_kernel_ifaces (prod_map id mi_hide_secrets <$> kernel_ifaces self) self).

Definition mn_hide_secrets (self : MergedNetworkState) : MergedNetworkState :=
  set_mn_ifaces (mis_hide_secrets (mn_ifaces self)) self.

End New.

(** ** Conditional activation *)

(** [merged_ifaces.current], of which the conditions look at the kernel interfaces; the order
    does not matter to them. *)
Definition current_ifaces (self : MergedInterfaces) : Interfaces :=
  interfaces (list_to_map (current_kernel_ifaces self)) ∅
    (prod_map id iface_type <$> current_kernel_ifaces self) search_default.

(** [MergedInterface::can_bring_up]. *)
Definition can_bring_up (env : Env) (m : MergedInterface) (merged_ifaces : MergedInterfaces) : bool :=
  match mi_for_apply m with
  | Some iface =>
      match mi_current m with
      | Some cur_iface =>
          match process_auto_connect iface (event_from_iface env cur_iface)
                  (current_ifaces merged_ifaces) with
          | None => iface_is_up iface
          | Some b => b
          end
      | None => iface_is_virtual iface
      end
  | None => false
  end.

(** An up interface whose condition is not met yet. *)
Definition is_waiting (env : Env) (self : MergedInterfaces) (m : MergedInterface) : bool :=
  bool_decide (is_Some (mi_for_apply m)) && iface_is_up (mi_merged m) &&
  negb (can_bring_up env m self).

Definition waiting_ifaces (env : Env) (self : MergedInterfaces) : list (string * InterfaceType) :=
  map (λ m, (mi_kernel_iface_name m, mi_iface_type m))
    (List.filter (is_waiting env self) (merged_iter self)).

Definition entry_remove {K A} `{EqDecision K} (k : K) (l : list (K * A)) : list (K * A) :=
  List.filter (λ e, negb (bool_decide (e.1 = k))) l.

Definition route_not_via (iface_name : string) (rt : RouteEntry) : bool :=
  negb (bool_decide (rt_next_hop_iface rt = Some iface_name)).

Definition rule_not_of (iface_name : string) (rule : RouteRuleEntry) : bool :=
  negb (bool_decide (rr_iif rule = Some iface_name)).

Definition retain_routes (iface_name : string) (self : MergedRoutes) : MergedRoutes :=
  merged_routes (mr_merged self)
    (List.filter (λ n, negb (String.eqb n iface_name)) (mr_route_changed_ifaces self))
    (List.filter (route_not_via iface_name) (mr_changed_routes self))
    (routes (running (mr_desired self))
       (List.filter (route_not_via iface_name) <$> config (mr_desired self)))
    (mr_current self) (mr_saved self) (mr_for_save self).

Definition retain_rules (iface_name : string) (self : MergedRouteRules) : MergedRouteRules :=
  let retain := List.filter (rule_not_of iface_name) in
  merged_route_rules (route_rules (retain <$> rules_config (mu_desired self))) (mu_current self)
    (retain (mu_changed_rules self)) (mu_for_save self) (retain (mu_for_verify self)).

(** One of the interfaces that are held back. *)
Definition hold_back (self : MergedNetworkState) (key : string * InterfaceType) :
    MergedNetworkState :=
  let '(iface_name, iface_type) := key in
  let ifaces := mn_ifaces self in
  if type_is_userspace iface_type then
    set_mn_ifaces (set_user_ifaces (entry_remove key (user_ifaces ifaces)) ifaces) self
  else
    set_mn_ifaces (set_kernel_ifaces (entry_remove iface_name (kernel_ifaces ifaces)) ifaces)
      (set_mn_route_rules (retain_rules iface_name (mn_route_rules self))
         (set_mn_routes (retain_routes iface_name (mn_routes self)) self)).

(** [MergedNetworkState::remove_conditional_activation]. *)
Definition remove_conditional_activation (env : Env) (self : MergedNetworkState) :
    MergedNetworkState :=
  foldl hold_back self (waiting_ifaces env (mn_ifaces self)).

(** ** What is held back *)

(** The kernel and the user space interfaces of some keys. *)
Definition kernel_keys (keys : list (string * InterfaceType)) : list string :=
  (List.filter (λ k : string * InterfaceType, negb (type_is_userspace k.2)) keys).*1.

Definition user_keys (keys : list (string * InterfaceType)) : list (string * InterfaceType) :=
  List.filter (λ k, type_is_userspace k.2) keys.

Lemma filter_filter {A} (f g : A → bool) l :
  List.filter f (List.filter g l) = List.filter (λ x, g x && f x) l.
Proof. induction l as [|x l IH]; [done|]. simpl. destruct (g x) eqn:Eg; simpl; by rewrite IH. Qed.

Lemma elem_of_lfilter {A} (f : A → bool) l x : x ∈ List.filter f l ↔ x ∈ l ∧ f x = true.
Proof. rewrite list_elem_of_In, filter_In. by rewrite <-list_elem_of_In. Qed.

Lemma filter_all {A} (f : A → bool) l : (∀ x, f x = true) → List.filter f l = l.
Proof. intros Hf. induction l as [|x l IH]; [done|]. simpl. by rewrite Hf, IH. Qed.

(** The interfaces that are not held back. *)
Lemma hold_back_ifaces keys : ∀ self,
  let self' := foldl hold_back self keys in
  kernel_ifaces (mn_ifaces self') =
    List.filter (λ e, negb (bool_decide (e.1 ∈ kernel_keys keys))) (kernel_ifaces (mn_ifaces self)) ∧
  user_ifaces (mn_ifaces self') =
    List.filter (λ e, negb (bool_decide (e.1 ∈ user_keys keys))) (user_ifaces (mn_ifaces self)) ∧
  current_kernel_ifaces (mn_ifaces self') = current_kernel_ifaces (mn_ifaces self).
Proof.
  induction keys as [|[n t] keys IH]; intros self; cbv zeta; cbn [foldl].
  { unfold kernel_keys, user_keys. simpl.
    split_and!; [..|done]; symmetry; apply filter_all; intros x; by destruct (bool_decide_reflect (x.1 ∈ [])) as [H%not_elem_of_nil|]. }
  destruct (IH (hold_back self (n, t))) as (-> & -> & ->). unfold hold_back, kernel_keys, user_keys.
  simpl. destruct (type_is_userspace t) eqn:Et; simpl; (split_and!; [..|done]); try done;
    unfold entry_remove; rewrite filter_filter; apply List.filter_ext; intros e;
    rewrite <-negb_orb, <-bool_decide_or; do 2 f_equal; apply bool_decide_ext;
    rewrite elem_of_cons; done.
Qed.

Lemma keep_and {A} (P : Prop) (x : option A) (Q R : A → Prop) :
  (P ∧ ∀ n, x = Some n → Q n) ∧ (∀ n, x = Some n → R n) ↔ P ∧ ∀ n, x = Some n → Q n ∧ R n.
Proof.
  split; [intros [[? HQ] HR]; auto|]. intros [? H]. split; [split; [done|]|]; intros n Hn; by apply H.
Qed.

(** The routes and rules that are not held back; what is saved stays. *)
Lemma hold_back_rest keys : ∀ self,
  let self' := foldl hold_back self keys in
  (∀ r, r ∈ mr_changed_routes (mn_routes self') ↔
     r ∈ mr_changed_routes (mn_routes self) ∧
     ∀ n, rt_next_hop_iface r = Some n → n ∉ kernel_keys keys) ∧
  (∀ r, r ∈ mu_changed_rules (mn_route_rules self') ↔
     r ∈ mu_changed_rules (mn_route_rules self) ∧ ∀ n, rr_iif r = Some n → n ∉ kernel_keys keys) ∧
  mr_for_save (mn_routes self') = mr_for_save (mn_routes self) ∧
  mu_for_save (mn_route_rules self') = mu_for_save (mn_route_rules self) ∧
  mn_dns self' = mn_dns self.
Proof.
  induction keys as [|[n t] keys IH]; intros self; cbv zeta; cbn [foldl];
    [unfold kernel_keys; set_solver|].
  destruct (IH (hold_back self (n, t))) as (Hr & Hu & -> & -> & ->). unfold hold_back, kernel_keys in *.
  simpl. destruct (type_is_userspace t) eqn:Et; simpl in *; [done|].
  assert (∀ (x : option string), negb (bool_decide (x = Some n)) = true ↔ ∀ n', x = Some n' → n' ≠ n) as Hx.
  { intros x. rewrite negb_true_iff, bool_decide_eq_false. destruct x; naive_solver. }
  split_and!; [| |done..]; intros r; [rewrite Hr|rewrite Hu];
    rewrite elem_of_lfilter; unfold route_not_via, rule_not_of; rewrite Hx;
    setoid_rewrite not_elem_of_cons; apply keep_and.
Qed.


(** ** Examples *)

Definition ex_auto_nic (l : InterfaceLinkState) : Interface :=
  IfEthernet (set_bi_link_state (Some l) (set_bi_auto_connect (Some AutoConnect)
    (set_bi_kernel_iface_name "eth1" (base_new "eth1" TEthernet)))) None.

Definition ex_request (l : InterfaceLinkState) : MergedNetworkState :=
  let nic := ex_auto_nic l in
  let mis := merged_interfaces
    [("eth1", merged_interface (Some nic) (Some nic) nic (Some nic) (Some nic) (Some nic) None None false)]
    [] [("eth1", TEthernet)] [("eth1", nic)] search_default in
  let rt := ex_route "198.51.100.0/24" "eth1" 254 100 in
  merged_net_state None None None mis
    (merged_routes ∅ ["eth1"] [rt] (ex_config [rt]) (ex_config []) None (ex_config [rt]))
    (merged_route_rules rules_default rules_default [] rules_default [])
    (merged_dns None dns_resolver_default None [] [] false [] [] [] None)
    wait_online_default None opt_new ns_default.

(** A NIC without carrier, and its route, are held back, but saved. *)
Example nic_without_carrier_is_held_back env :
  let self := remove_conditional_activation env (ex_request LDown) in
  kernel_ifaces (mn_ifaces self) = [] ∧ mr_changed_routes (mn_routes self) = [] ∧
  length (default [] (config (mr_for_save (mn_routes self)))) = 1%nat ∧
  remove_conditional_activation env (ex_request LUp) = ex_request LUp.
Proof. split_and!; reflexivity. Qed.

(** Routes of an interface to be ignored are taken out of the merged routes and of the
    interfaces whose routes change, but not out of the changed routes: they are applied with
    the next change of another route. *)
Example route_of_an_ignored_interface_is_applied :
  let mi i := merged_interface (Some i) (Some i) i None None (Some i) None None false in
  let rt := ex_route "198.51.100.0/24" "eth1" 254 100 in
  let mis := merged_interfaces
    [("eth0", mi (ex_eth "eth0" true)); ("eth1", mi (set_state SIgnore (ex_eth "eth1" true)))]
    [] [("eth0", TEthernet); ("eth1", TEthernet)] []
    (search_new [ex_eth "eth0" true; ex_eth "eth1" true]) in
  match merged_routes_new (ex_config [rt; ex_route "203.0.113.0/24" "eth0" 254 100])
          (ex_config []) None mis with
  | Ok mr => mr_route_changed_ifaces mr = ["eth0"] ∧ rt ∈ mr_changed_routes mr
  | Err _ => False
  end.
Proof. vm_compute. split; [reflexivity|]. apply list_elem_of_In. simpl. auto. Qed.

(** A state that does not mention routes differs from one that does in all its routes. *)
Example undefined_routes_are_a_difference :
  let rt := ex_route "198.51.100.0/24" "eth1" 254 100 in
  config (routes_gen_diff (routes None None) (ex_config [rt])) = Some [rt].
Proof. reflexivity. Qed.
