(* ===== verification/KernelApply.v ===== *)
(** * KernelApply: from the merged state to requests to the kernel

    [src/lib/no_daemon/inter_ifaces.rs], [route.rs], [route_rule.rs] and
    [apply_merged_state] of [apply.rs]: the interfaces that are deleted first, the
    renames, the links in the order of their activation, the port options of the
    controllers, the IP settings, routes and rules.  The kernel ([src/lib/netlink/])
    is an interface: it is asked by [Request]s, and may refuse each of them. *)

From S2P Require Export Eff UpPriority MergedNetState.

#[local] Open Scope Z_scope.

(** ** The kernel *)

Inductive Request : Type :=
| Connect                                     (** [new_connection] *)
| DeleteIface (kernel_iface_name : string)
| RenameIface (iface_index : Z) (name : string)
| LinkChanges (apply_iface : Interface) (current : option Interface) (existing : gset string)
| BondPorts (bond : BondInterface)
| BridgePorts (bridge : LinuxBridgeInterface) (current : option LinuxBridgeInterface)
| EnableIpv6 (iface_name : string)
| EnableAutoconf (iface_name : string)
| IpChanges (apply_base : BaseInterface) (current : option BaseInterface)
| ApplyRoutes (changed : list RouteEntry)
| ApplyRules (changed : list RouteRuleEntry).

Class Kernel (K : Type) : Type := request : Request → K → res () * K.

(** A kernel that remembers what it was asked. *)
Definition Logged (K : Type) : Type := (K * list Request)%type.

#[export] Instance logged_kernel {K} `{!Kernel K} : Kernel (Logged K) := λ r k,
  let '(k, log) := k in
  let '(a, k) := request r k in
  (a, (k, log ++ [r])).

(** The order of the links: [sort_unstable_by_key]. *)
Definition link_key (m : MergedInterface) : bool * Z := (negb (mi_is_absent m), priority_of m).

Definition link_le (a b : MergedInterface) : Prop := activation_cmp (link_key a) (link_key b) ≠ Gt.

Record LinkSort : Type := link_sort {
  ls_sort : list MergedInterface → list MergedInterface;
  ls_perm l : ls_sort l ≡ₚ l;
  ls_sorted l : StronglySorted link_le (ls_sort l);
}.

(** ** Deletions *)

(** The interface has to be deleted before it is changed: what it is created from. *)
Definition needs_recreation (m : MergedInterface) : option Interface :=
  if iface_is_up (mi_merged m) then
    match mi_for_apply m, mi_for_save m, mi_current m with
    | Some for_apply, Some for_save, Some current =>
        if iface_need_delete for_apply current then Some for_save else None
    | _, _, _ => None
    end
  else None.

Definition recreated (m : MergedInterface) : MergedInterface :=
  match needs_recreation m with
  | Some for_save =>
      merged_interface (mi_desired m) None for_save (Some for_save) (Some for_save)
        (mi_for_save m) (mi_for_revert m) (mi_up_priority m) (mi_will_delete m)
  | None => m
  end.

Definition recreate_all (self : MergedInterfaces) : MergedInterfaces :=
  set_kernel_ifaces (prod_map id recreated <$> kernel_ifaces self) self.

Definition recreated_names (self : MergedInterfaces) : list string :=
  omap (λ m, needs_recreation m ≫= λ _, kernel_iface_name <$> mi_for_apply m) (kernel_ifaces self).*2.

(** The absent interfaces; a name is never empty. *)
Fixpoint absent_names (l : list MergedInterface) : res (list string) :=
  match l with
  | [] => Ok []
  | m :: l' =>
      match mi_for_apply m with
      | Some for_apply =>
          if iface_is_absent for_apply then
            if String.eqb (kernel_iface_name for_apply) "" then fail Bug
            else
              let? names := absent_names l' in
              Ok (kernel_iface_name for_apply :: names)
          else absent_names l'
      | None => absent_names l'
      end
  end.

(** ** Renames *)

Definition rename_of (m : MergedInterface) : option (Z * string) :=
  match mi_for_apply m, mi_current m with
  | Some apply_iface, Some cur_iface =>
      if iface_is_absent apply_iface then None
      else
        let new_name := kernel_iface_name apply_iface in
        let cur_name := kernel_iface_name cur_iface in
        if String.eqb new_name "" || String.eqb new_name cur_name then None
        else (λ i, (i, new_name)) <$> bi_iface_index (base_iface cur_iface)
  | _, _ => None
  end.

(** ** Links *)

Definition changed_links (sort : LinkSort) (self : MergedInterfaces) : list MergedInterface :=
  ls_sort sort (List.filter (λ m, mi_is_changed m && negb (mi_is_absent m)) (merged_iter self)).

Definition existing_iface_names (self : MergedInterfaces) : gset string :=
  list_to_set (List.filter (λ e, bool_decide (is_Some (mi_current e.2))) (kernel_ifaces self)).*1.

Definition is_new_macsec (apply_iface : Interface) (m : MergedInterface) : bool :=
  bool_decide (iface_type apply_iface = TMacSec) && bool_decide (mi_current m = None).

(** The first loop: everything but new MACsec interfaces. *)
Definition link_request (existing : gset string) (m : MergedInterface) : option Request :=
  match mi_for_apply m with
  | Some apply_iface =>
      if negb (iface_is_virtual apply_iface) && bool_decide (mi_current m = None) then None
      else if type_is_userspace (iface_type apply_iface) then None
      else if is_new_macsec apply_iface m then None
      else Some (LinkChanges apply_iface (mi_current m) existing)
  | None => None
  end.

(** The second loop: the new MACsec interfaces. *)
Definition macsec_request (existing : gset string) (m : MergedInterface) : option Request :=
  match mi_for_apply m with
  | Some apply_iface =>
      if negb (bool_decide (iface_type apply_iface = TMacSec)) ||
         bool_decide (is_Some (mi_current m)) ||
         type_is_userspace (iface_type apply_iface)
      then None
      else Some (LinkChanges apply_iface None existing)
  | None => None
  end.

(** The third loop: the options of the ports. *)
Definition port_request (m : MergedInterface) : option Request :=
  if iface_is_controller (mi_merged m) && mi_is_desired m && iface_is_up (mi_merged m) then
    match mi_for_apply m with
    | Some (IfBond bond) => Some (BondPorts bond)
    | Some (IfLinuxBridge br) =>
        Some (BridgePorts br (mi_current m ≫= as_linux_bridge))
    | _ => None
    end
  else None.

(** ** IP settings *)

Definition wants_autoconf (m : MergedInterface) : bool :=
  match mi_desired m ≫= (λ i, bi_ipv6 (base_iface i)) with
  | Some ipv6_conf => bool_decide (v6_autoconf ipv6_conf = Some true)
  | None => false
  end.

Definition ip_requests (m : MergedInterface) : list Request :=
  (if wants_autoconf m then [EnableIpv6 (mi_name m); EnableAutoconf (mi_name m)] else []) ++
  match mi_for_apply m with
  | Some apply_iface => [IpChanges (base_iface apply_iface) (base_iface <$> mi_current m)]
  | None => []
  end.

(** ** Routes and rules *)

(** [u32::MAX]. *)
Definition METRIC_MAX : Z := 4294967295.

(** [validate_routes]: the routes of one interface, with what was seen. *)
Definition route_key (dst : string) (rt : RouteEntry) : string * option Z :=
  (dst, match rt_metric rt with
        | Some m => if (0 <=? m) && (m <=? METRIC_MAX) then Some m else None
        | None => None
        end).

Fixpoint validate_iface_routes (hashed : list (string * option Z)) (l : list RouteEntry) : res () :=
  match l with
  | [] => Ok ()
  | rt :: l' =>
      if bool_decide (is_Some (rt_weight rt)) then fail NoSupport
      else
        match rt_destination rt with
        | None => validate_iface_routes hashed l'
        | Some dst =>
            if bool_decide (route_key dst rt ∈ hashed) then fail InvalidArgument
            else validate_iface_routes (route_key dst rt :: hashed) l'
        end
  end.

Fixpoint validate_changed_ifaces (self : MergedRoutes) (ifaces : list string) : res () :=
  match ifaces with
  | [] => Ok ()
  | iface :: ifaces' =>
      let? _ := validate_iface_routes [] (default [] (mr_merged self !! iface)) in
      validate_changed_ifaces self ifaces'
  end.

Definition validate_routes (self : MergedRoutes) : res () :=
  validate_changed_ifaces self (mr_route_changed_ifaces self).

(** [apply_route_rules]: removals first. *)
Definition ordered_rules (self : MergedRouteRules) : list RouteRuleEntry :=
  List.filter rule_is_absent (mu_changed_rules self) ++
  List.filter (λ r, negb (rule_is_absent r)) (mu_changed_rules self).

(** ** Execution *)

Section Execution.
Context {K : Type} `{!Kernel K} (sort : LinkSort).

Definition ask (r : Request) : Eff K () := eff_call (request r).

Definition ask_all (l : list Request) : Eff K () := eff_each ask l.

(** An error of the kernel is reported as a bug: [map_err]. *)
Definition ask_or_bug (r : Request) : Eff K () := λ k,
  match request r k with
  | (Ok a, k') => (Ok a, k')
  | (Err _, k') => (lift (fail Bug), k')
  end.

(** [delete_ifaces_before_apply]. *)
Definition delete_ifaces_before_apply (self : MergedInterfaces) : Eff K MergedInterfaces :=
  let self' := recreate_all self in
  absent ← eff_res (absent_names (kernel_ifaces self').*2);
  match recreated_names self ++ absent with
  | [] => mret self'
  | to_delete =>
      _ ← ask Connect;
      _ ← ask_all (map DeleteIface to_delete);
      mret self'
  end.

(** [rename_ifaces_before_apply]. *)
Definition rename_ifaces_before_apply (self : MergedInterfaces) : Eff K () :=
  match omap rename_of (merged_iter self) with
  | [] => mret ()
  | renames =>
      _ ← ask Connect;
      eff_each (λ r, ask_or_bug (RenameIface r.1 r.2)) renames
  end.

(** [apply_ifaces_link_changes]. *)
Definition apply_ifaces_link_changes (self : MergedInterfaces) : Eff K () :=
  let sorted := changed_links sort self in
  let existing := existing_iface_names self in
  _ ← ask Connect;
  _ ← ask_all (omap (link_request existing) sorted);
  _ ← ask_all (omap (macsec_request existing) sorted);
  ask_all (omap port_request sorted).

(** [apply_ifaces_ip_changes]. *)
Definition apply_ifaces_ip_changes (self : MergedInterfaces) : Eff K () :=
  eff_each (λ m, ask_all (ip_requests m)) (kernel_ifaces self).*2.

(** [apply_ifaces]: failures of the links and of the IP settings are left to the
    verification. *)
Definition apply_ifaces (self : MergedInterfaces) : Eff K MergedInterfaces :=
  self ← delete_ifaces_before_apply self;
  _ ← rename_ifaces_before_apply self;
  _ ← eff_try (apply_ifaces_link_changes self);
  _ ← eff_try (apply_ifaces_ip_changes self);
  mret self.

Definition apply_routes (self : MergedRoutes) : Eff K () :=
  if negb (mr_is_changed self) then mret ()
  else
    _ ← eff_res (validate_routes self);
    ask (ApplyRoutes (mr_changed_routes self)).

Definition apply_route_rules (self : MergedRouteRules) : Eff K () :=
  if negb (mu_is_changed self) then mret () else ask (ApplyRules (ordered_rules self)).

(** [NipartNoDaemon::apply_merged_state]. *)
Definition apply_merged_state (self : MergedNetworkState) : Eff K MergedNetworkState :=
  ifs ← apply_ifaces (mn_ifaces self);
  _ ← apply_routes (mn_routes self);
  _ ← apply_route_rules (mn_route_rules self);
  mret (set_mn_ifaces ifs self).

End Execution.

(** ** The merged state afterwards *)

Lemma delete_ifaces_ok {K} `{!Kernel K} self (k : K) self' k' :
  delete_ifaces_before_apply self k = (Ok self', k') → self' = recreate_all self.
Proof.
  unfold delete_ifaces_before_apply. intros (absent & k1 & _ & H)%eff_bind_ok.
  destruct (_ ++ _) as [|x l]; [by injection H as <- _|].
  apply eff_bind_ok in H as (? & k2 & _ & H). apply eff_bind_ok in H as (? & k3 & _ & H).
  by injection H.
Qed.

Lemma apply_ifaces_ok {K} `{!Kernel K} sort self (k : K) self' k' :
  apply_ifaces sort self k = (Ok self', k') → self' = recreate_all self.
Proof.
  unfold apply_ifaces. intros (s1 & k1 & ->%delete_ifaces_ok & H)%eff_bind_ok.
  do 3 apply eff_bind_ok in H as (? & ? & _ & H). by injection H.
Qed.

Lemma apply_merged_state_ok {K} `{!Kernel K} sort self (k : K) self' k' :
  apply_merged_state sort self k = (Ok self', k') →
  self' = set_mn_ifaces (recreate_all (mn_ifaces self)) self.
Proof.
  unfold apply_merged_state. intros (s1 & k1 & ->%apply_ifaces_ok & H)%eff_bind_ok.
  do 2 apply eff_bind_ok in H as (? & ? & _ & H). by injection H.
Qed.

(** An interface is created again once. *)
Lemma recreate_all_idem self : recreate_all (recreate_all self) = recreate_all self.
Proof.
  assert (∀ m, recreated (recreated m) = recreated m) as Hm.
  { intros m. unfold recreated at 2 3. destruct (needs_recreation m) eqn:E; [|unfold recreated; by rewrite E].
    unfold recreated, needs_recreation. simpl. by destruct (iface_is_up _), (mi_for_save m). }
  unfold recreate_all, set_kernel_ifaces. simpl. f_equal. rewrite <-list_fmap_compose.
  apply list_fmap_ext. intros _ [n m] _. simpl. by rewrite Hm.
Qed.

(** ** What is asked of the kernel *)

(** The requests of [x], as a list and a condition on it. *)
Definition issues {K A} (P : outcome A → list Request → Prop) (x : Eff (Logged K) A) : Prop :=
  ∀ k log r k' log', x (k, log) = (r, (k', log')) → ∃ asked, log' = log ++ asked ∧ P r asked.

(** [x] follows the plan, and stops where it fails. *)
Definition follows {A} (plan : list Request) (r : outcome A) (asked : list Request) : Prop :=
  asked `prefix_of` plan ∧ (is_ok r = true → asked = plan).

Lemma mjoin_singletons {A B} (g : A → B) l : mjoin ((λ x, [g x]) <$> l) = map g l.
Proof. induction l as [|x l IH]; [done|]. csimpl. by rewrite IH. Qed.

Section Issues.
Context {K : Type} `{ker : !Kernel K}.

Lemma issues_impl {A} (P Q : outcome A → list Request → Prop) (x : Eff (Logged K) A) :
  (∀ r asked, P r asked → Q r asked) → issues P x → issues Q x.
Proof. intros H Hx k log r k' log' E. destruct (Hx _ _ _ _ _ E) as (asked & -> & ?). eauto. Qed.

Lemma issues_of {A} (r : outcome A) :
  issues (λ r' asked, r' = r ∧ asked = []) (eff_of r : Eff (Logged K) A).
Proof. intros k log r' k' log' [= <- <- <-]. exists []. by rewrite app_nil_r. Qed.

Lemma follows_of {A} (r : outcome A) : issues (follows []) (eff_of r : Eff (Logged K) A).
Proof. eapply issues_impl; [|apply issues_of]. by intros r' asked [-> ->]. Qed.

Lemma follows_ret {A} (a : A) : issues (follows []) (mret a : Eff (Logged K) A).
Proof. apply (follows_of (Ok a)). Qed.

Lemma issues_bind {A B} P Q (x : Eff (Logged K) A) (f : A → Eff (Logged K) B) :
  issues P x → (∀ a, issues (Q a) (f a)) →
  issues (λ r asked, (∃ e, r = Err e ∧ P (Err e) asked) ∨
    ∃ a l1 l2, asked = l1 ++ l2 ∧ P (Ok a) l1 ∧ Q a r l2) (x ≫= f).
Proof.
  intros Hx Hf k log r k' log'. rewrite eff_bind_run. destruct (x (k, log)) as [[a|e] [k1 log1]] eqn:E.
  - destruct (Hx _ _ _ _ _ E) as (l1 & -> & H1). intros E'.
    destruct (Hf _ _ _ _ _ _ E') as (l2 & -> & H2). exists (l1 ++ l2). rewrite (assoc_L (++)).
    split; [done|]. right. naive_solver.
  - destruct (Hx _ _ _ _ _ E) as (l1 & -> & H1). intros [= <- <- <-]. exists l1. split; [done|].
    left. eauto.
Qed.

Lemma follows_bind {A B} p q (x : Eff (Logged K) A) (f : A → Eff (Logged K) B) :
  issues (follows p) x → (∀ a, issues (follows q) (f a)) → issues (follows (p ++ q)) (x ≫= f).
Proof.
  intros Hx Hf. eapply issues_impl; [|by apply (issues_bind (follows p) (λ _, follows q))].
  intros r asked [(e & -> & Hp & _)|(a & l1 & l2 & -> & [_ Hp] & Hq & Hq')].
  - split; [by apply prefix_app_r|done].
  - rewrite Hp by done. split; [by apply prefix_app|]. intros Hr. by rewrite Hq'.
Qed.

Lemma follows_ask (r : Request) : issues (follows [r]) (ask r : Eff (Logged K) ()).
Proof.
  intros k log a k' log'. unfold ask, eff_call, request at 1, logged_kernel.
  destruct (request r k) as [x k1]. intros [= _ _ <-]. by exists [r].
Qed.

Lemma follows_ask_or_bug (r : Request) : issues (follows [r]) (ask_or_bug r : Eff (Logged K) ()).
Proof.
  intros k log a k' log'. unfold ask_or_bug, request at 1, logged_kernel.
  destruct (request r k) as [[x|e] k1]; intros [= _ _ <-]; by exists [r].
Qed.

Lemma follows_each {A} (plan : A → list Request) (f : A → Eff (Logged K) ()) l :
  (∀ x, issues (follows (plan x)) (f x)) → issues (follows (mjoin (plan <$> l))) (eff_each f l).
Proof. intros Hf. induction l as [|x l IH]; [apply follows_ret|]. simpl. by apply follows_bind. Qed.

Lemma follows_ask_all l : issues (follows l) (ask_all l : Eff (Logged K) ()).
Proof.
  rewrite <-(list_fmap_id l) at 1. rewrite <-(mjoin_singletons id).
  apply follows_each, follows_ask.
Qed.

Lemma issues_try {A} P (x : Eff (Logged K) A) :
  issues P x → issues (λ r asked, ∃ r', P r' asked ∧
    (r' = Err Panicked ∧ r = Err Panicked ∨ is_ok r = true)) (eff_try x).
Proof.
  intros Hx k log r k' log'. unfold eff_try. destruct (x (k, log)) as [r1 [k1 log1]] eqn:E.
  destruct (Hx _ _ _ _ _ E) as (l1 & -> & H1).
  destruct r1 as [a|[e|]]; intros [= <- <- <-]; exists l1; (split; [done|]); eauto.
Qed.

End Issues.

(** The plan of an apply. *)
Definition deletions (self : MergedInterfaces) : list Request :=
  match absent_names (kernel_ifaces (recreate_all self)).*2 with
  | Ok absent =>
      match recreated_names self ++ absent with
      | [] => []
      | l => Connect :: map DeleteIface l
      end
  | Err _ => []
  end.

Definition renames (self : MergedInterfaces) : list Request :=
  match omap rename_of (merged_iter self) with
  | [] => []
  | l => Connect :: map (λ r, RenameIface r.1 r.2) l
  end.

Definition links (sort : LinkSort) (self : MergedInterfaces) : list Request :=
  let sorted := changed_links sort self in
  let existing := existing_iface_names self in
  Connect :: omap (link_request existing) sorted ++ omap (macsec_request existing) sorted ++
    omap port_request sorted.

Definition ip_changes (self : MergedInterfaces) : list Request :=
  mjoin (ip_requests <$> (kernel_ifaces self).*2).

Section Plan.
Context {K : Type} `{ker : !Kernel K} (sort : LinkSort).

Lemma follows_deletions self :
  issues (follows (deletions self)) (delete_ifaces_before_apply self : Eff (Logged K) _).
Proof.
  unfold deletions, delete_ifaces_before_apply, eff_res.
  destruct (absent_names _) as [absent|e]; simpl; [|apply follows_of].
  assert (∀ (f : list string → Eff (Logged K) MergedInterfaces),
            (eff_of (Ok absent) ≫= f) = f absent) as -> by done.
  destruct (_ ++ _) as [|x l]; [apply (follows_ret (recreate_all self))|].
  refine (follows_bind [Connect] _ _ _ (follows_ask _) _).
  intros _. rewrite <-(app_nil_r (map DeleteIface _)) at 1.
  refine (follows_bind _ _ _ _ (follows_ask_all _) _). intros _. apply follows_ret.
Qed.

Lemma follows_renames self :
  issues (follows (renames self)) (rename_ifaces_before_apply self : Eff (Logged K) ()).
Proof.
  unfold renames, rename_ifaces_before_apply. destruct (omap _ _) as [|x l]; [apply follows_ret|].
  refine (follows_bind [Connect] _ _ _ (follows_ask _) _). intros _.
  rewrite <-(mjoin_singletons (λ r : Z * string, RenameIface r.1 r.2)). apply follows_each. intros r. apply follows_ask_or_bug.
Qed.

Lemma follows_links self :
  issues (follows (links sort self)) (apply_ifaces_link_changes sort self : Eff (Logged K) ()).
Proof.
  refine (follows_bind [Connect] _ _ _ (follows_ask _) _). intros _.
  refine (follows_bind _ _ _ _ (follows_ask_all _) _). intros _.
  refine (follows_bind _ _ _ _ (follows_ask_all _) _). intros _. apply follows_ask_all.
Qed.

Lemma follows_ip_changes self :
  issues (follows (ip_changes self)) (apply_ifaces_ip_changes self : Eff (Logged K) ()).
Proof. apply follows_each. intros m. apply follows_ask_all. Qed.

(** Deletions and renames come first and must succeed; then the links and the IP settings,
    each up to its first failure. *)
Lemma apply_ifaces_requests self (k : K) log r k' log' :
  apply_ifaces sort self (k, log) = (r, (k', log')) →
  (∃ asked e, r = Err e ∧ log' = log ++ asked ∧ asked `prefix_of` deletions self ++ renames (recreate_all self)) ∨
  ∃ ls ips, log' = log ++ deletions self ++ renames (recreate_all self) ++ ls ++ ips ∧
    ls `prefix_of` links sort (recreate_all self) ∧ ips `prefix_of` ip_changes (recreate_all self) ∧
    ∀ self', r = Ok self' → self' = recreate_all self.
Proof.
  intros E. pose proof (follows_deletions self) as Hd. unfold apply_ifaces in E.
  rewrite eff_bind_run in E.
  destruct (delete_ifaces_before_apply self (k, log)) as [[s1|e] [k1 log1]] eqn:E1.
  2:{ injection E as <- <- <-. destruct (Hd _ _ _ _ _ E1) as (l & -> & Hl & _). left.
      exists l, e. split; [done|]. split; [done|]. by apply prefix_app_r. }
  apply delete_ifaces_ok in E1 as Hs. subst s1. destruct (Hd _ _ _ _ _ E1) as (l & -> & _ & Hl). rewrite (Hl eq_refl) in E.
  clear E1 l Hl Hd. rewrite eff_bind_run in E.
  destruct (rename_ifaces_before_apply (recreate_all self) (k1, log ++ deletions self))
    as [[[]|e] [k2 log2]] eqn:E1.
  2:{ injection E as <- <- <-. destruct (follows_renames _ _ _ _ _ _ E1) as (l & -> & Hl & _). left.
      exists (deletions self ++ l), e. rewrite (assoc_L (++)). split; [done|]. split; [done|].
      by apply prefix_app. }
  destruct (follows_renames _ _ _ _ _ _ E1) as (l & -> & _ & Hl). rewrite (Hl eq_refl) in E.
  clear E1 l Hl.
  right. rewrite eff_bind_run in E.
  destruct (eff_try _ _) as [r1 [k3 log3]] eqn:E1 in E.
  destruct (issues_try _ _ (follows_links _) _ _ _ _ _ E1) as (ls & -> & r1' & [Hls _] & Hr1). clear E1.
  destruct r1 as [r1|e].
  2:{ injection E as <- <- <-. exists ls, []. rewrite app_nil_r, <-!(assoc_L (++)).
      split_and!; [done|done|apply prefix_nil|done]. }
  rewrite eff_bind_run in E. destruct (eff_try _ _) as [r2 [k4 log4]] eqn:E1 in E.
  destruct (issues_try _ _ (follows_ip_changes _) _ _ _ _ _ E1) as (ips & -> & r2' & [Hips _] & _).
  exists ls, ips. rewrite <-!(assoc_L (++)) in *. destruct r2; injection E as <- <- <-; split_and!;
    try done; by intros self' [= <-].
Qed.

End Plan.

(** ** The order of the requests *)

Lemma recreated_priority m : priority_of (recreated m) = priority_of m.
Proof. unfold recreated. by destruct (needs_recreation m). Qed.

Lemma changed_links_elem sort self m :
  m ∈ changed_links sort self ↔ m ∈ merged_iter self ∧ mi_is_changed m = true ∧ mi_is_absent m = false.
Proof.
  unfold changed_links. rewrite ls_perm, elem_of_lfilter, andb_true_iff, negb_true_iff. naive_solver.
Qed.

(** The link of a lower priority comes first. *)
Lemma changed_links_order sort self i j a b :
  changed_links sort self !! i = Some a → changed_links sort self !! j = Some b →
  priority_of b < priority_of a → (j < i)%nat.
Proof.
  intros Hi Hj Hp. pose proof (list_elem_of_lookup_2 _ _ _ Hi) as [_ [_ Ha]]%changed_links_elem.
  pose proof (list_elem_of_lookup_2 _ _ _ Hj) as [_ [_ Hb]]%changed_links_elem.
  refine (sorted_before link_le _ i j a b (ls_sorted sort _) Hi Hj _ _); [intros ->; lia|].
  unfold link_le, link_key, activation_cmp, pair_cmp. rewrite Ha, Hb. simpl.
  intros H. by destruct H; apply Z.compare_gt_iff.
Qed.


(** ** Routes the kernel path takes *)

Definition route_keys (l : list RouteEntry) : list (string * option Z) :=
  omap (λ rt, (λ dst, route_key dst rt) <$> rt_destination rt) l.

Lemma validate_iface_routes_ok l : ∀ hashed,
  validate_iface_routes hashed l = Ok () ↔
    (∀ rt, rt ∈ l → rt_weight rt = None) ∧ NoDup (route_keys l) ∧
    ∀ key, key ∈ route_keys l → key ∉ hashed.
Proof.
  induction l as [|rt l IH]; intros hashed; simpl.
  { split; [|done]. intros _. split_and!; [set_solver|apply NoDup_nil_2|set_solver]. }
  unfold route_keys. simpl. destruct (rt_weight rt) as [w|] eqn:Ew; simpl.
  { split; [done|]. intros [H _]. by rewrite (H rt) in Ew by set_solver. }
  destruct (rt_destination rt) as [dst|]; simpl.
  - case_bool_decide as Hin; [split; [done|]; intros (_ & _ & H); destruct (H (route_key dst rt)); set_solver|].
    rewrite IH. fold (route_keys l). rewrite NoDup_cons. set_solver.
  - rewrite IH. fold (route_keys l). set_solver.
Qed.

(** The routes of the interfaces whose routes change are accepted exactly when none of
    them has a weight and no two routes of an interface share destination and metric. *)
Theorem validate_routes_accepts self :
  validate_routes self = Ok () ↔
  ∀ iface rts, iface ∈ mr_route_changed_ifaces self → mr_merged self !! iface = Some rts →
    (∀ rt, rt ∈ rts → rt_weight rt = None) ∧ NoDup (route_keys rts).
Proof.
  unfold validate_routes. induction (mr_route_changed_ifaces self) as [|iface l IH]; simpl.
  { split; [set_solver|done]. }
  destruct (validate_iface_routes [] (default [] (mr_merged self !! iface))) as [[]|e] eqn:E.
  - simpl. rewrite IH. apply validate_iface_routes_ok in E as (Hw & Hd & _). split.
    + intros H i rts [->|Hi]%elem_of_cons Hrts; [by rewrite Hrts in *|eauto].
    + intros H i rts Hi. apply H. by right.
  - split; [done|]. intros H. simpl. destruct (mr_merged self !! iface) as [rts|] eqn:Er; [|done].
    destruct (H iface rts) as [Hw Hd]; [by left|done|].
    assert (validate_iface_routes [] rts = Ok ()) as H'; [|simpl in E; congruence].
    apply validate_iface_routes_ok. split_and!; [done..|set_solver].
Qed.

(** ** Examples *)

(** A stable sort by the key. *)
Definition ex_link_sort : LinkSort :=
  link_sort (sort_by activation_cmp link_key) (sort_by_perm activation_cmp link_key)
    (sort_by_sorted activation_cmp link_key).

(** A kernel that refuses to change the links of some interfaces. *)
Definition refusing (names : list string) : Kernel () := λ r k,
  match r with
  | LinkChanges i _ _ => if bool_decide (kernel_iface_name i ∈ names) then (fail NoSupport, k) else (Ok (), k)
  | _ => (Ok (), k)
  end.

(** [eth1] in [br1], [br1] in [br0]. *)
#[local] Notation ex_stack := (ex_mis
  [ex_up (ex_port_of "br1" (ex_nic "eth1")); ex_up (ex_port_of "br0" (ex_bridge "br1" ["eth1"]));
   ex_up (ex_bridge "br0" ["br1"])]).


(** What a request is about. *)
Definition request_name (r : Request) : string :=
  match r with
  | DeleteIface n => "delete " +:+ n
  | LinkChanges i _ _ => "link " +:+ kernel_iface_name i
  | BridgePorts br _ => "ports " +:+ kernel_iface_name (IfLinuxBridge br)
  | IpChanges b _ => "ip " +:+ bi_name b
  | _ => ""
  end.

Definition asked_of (ker : Kernel ()) (r : res MergedInterfaces) : option (bool * list string) :=
  match r with
  | Ok s =>
      let '(r, (_, log)) := @apply_ifaces _ (@logged_kernel _ ker) ex_link_sort s ((), []) in
      Some (is_ok r, map request_name log)
  | Err _ => None
  end.

(** The stack is linked from the outside; a refusal leaves the rest of the links undone
    and is not reported: the verification has to find it. *)
Example stack_is_linked :
  asked_of (refusing []) (set_up_priority (ex_mis
    [ex_up (ex_port_of "br0" (ex_nic "eth1")); ex_up (ex_bridge "br0" ["eth1"])])) =
    Some (true, [""; "link br0"; "ports br0"; "ip eth1"; "ip br0"]) ∧
  asked_of (refusing ["br0"]) (set_up_priority (ex_mis
    [ex_up (ex_port_of "br0" (ex_nic "eth1")); ex_up (ex_bridge "br0" ["eth1"])])) =
    Some (true, [""; "link br0"; "ip eth1"; "ip br0"]).
Proof. split; vm_compute; reflexivity. Qed.

(** The MAC address of a request that does not identify its interface by it is ignored,
    but not if the interface has to be created again: then it is applied. *)
Definition ex_vlan_of (id : Z) (mac : string) : Interface :=
  IfVlan (set_bi_mac_address (Some mac) (set_bi_kernel_iface_name "eth1.1" (base_new "eth1.1" TVlan)))
    (Some (vlan_config (Some "eth1") (Some id) None None None None None None None)).

Example recreated_interface_takes_the_ignored_mac :
  let applied id :=
    match merged_interface_new to_ascii_uppercase (Some (ex_vlan_of id "02:00:00:00:00:02"))
            (Some (ex_vlan_of 100 "02:00:00:00:00:01")) None true with
    | Ok m => (λ i, bi_mac_address (base_iface i)) <$> mi_for_apply (recreated m)
    | Err _ => None
    end in
  applied 100 = Some None ∧ applied 200 = Some (Some "02:00:00:00:00:02").
Proof. split; vm_compute; reflexivity. Qed.

(** Routes in two tables never conflict in the kernel; their table is not looked at. *)
Example routes_of_two_tables_are_refused :
  validate_routes (merged_routes
    {["eth1" := [ex_route "198.51.100.0/24" "eth1" 254 100; ex_route "198.51.100.0/24" "eth1" 200 100]]}
    ["eth1"] [] routes_default routes_default None routes_default) = fail InvalidArgument.
Proof. vm_compute. reflexivity. Qed.
