(* ===== verification/NoDaemonApply.v ===== *)
(** * NoDaemonApply: an apply without the daemon

    [src/lib/no_daemon/apply.rs], [query.rs] and [get_routes] of [route.rs]: the current
    state is read from the kernel, the merged state is applied, [/etc/resolv.conf] is
    written, and the result is verified until it holds or the attempts are used up; the
    whole is repeated once after a failure that may pass. *)

From S2P Require Export KernelApply DnsApply.

#[local] Open Scope Z_scope.

(** ** Queries *)

Record NipartQueryOption : Type := query_option {
  qo_version : Z;
  qo_running : bool;
  qo_saved : bool;
  qo_include_secrets : bool;
}.

Definition query_default : NipartQueryOption := query_option CUR_SCHEMA_VERSION true false false.
Definition query_saved : NipartQueryOption := query_option CUR_SCHEMA_VERSION false true false.
Definition query_running_and_saved : NipartQueryOption :=
  query_option CUR_SCHEMA_VERSION true true false.
Definition query_include_secrets (value : bool) (o : NipartQueryOption) : NipartQueryOption :=
  query_option (qo_version o) (qo_running o) (qo_saved o) value.

(** What is read from the kernel and its files: the interfaces without addresses, the
    addresses by interface index, the routes with the names of the indices, the rules,
    [/etc/resolv.conf]; and the time that passes, in milliseconds. *)
Class Host (K : Type) : Type := {
  out_links : K → res (list Interface) * K;
  out_addresses : K → res (gmap Z InterfaceIpv4 * gmap Z InterfaceIpv6) * K;
  out_routes : gmap Z string → K → res Routes * K;
  out_rules : K → res RouteRules * K;
  out_file : K → file;
  out_set_file : file → K → K;
  out_can_write : K → bool;
  out_sleep : Z → K → K;
}.

Definition ipv4_none : InterfaceIpv4 := iface_ipv4 None None None None None None None None.
Definition ipv6_none : InterfaceIpv6 := iface_ipv6 None None None None None.

(** The addresses of the interfaces, each taken once: [HashMap::remove]. *)
Fixpoint fill_addresses {Key} (maps : gmap Z InterfaceIpv4 * gmap Z InterfaceIpv6)
    (l : list (Key * Interface)) : list (Key * Interface) :=
  match l with
  | [] => []
  | (name, iface) :: l' =>
      let iface_index := default 0 (bi_iface_index (base_iface iface)) in
      (name, set_ips (Some (default ipv4_none (maps.1 !! iface_index)))
               (Some (default ipv6_none (maps.2 !! iface_index))) iface) ::
      fill_addresses (delete iface_index maps.1, delete iface_index maps.2) l'
  end.

Definition fill_all_addresses (it : Iteration) (maps : gmap Z InterfaceIpv4 * gmap Z InterfaceIpv6)
    (self : Interfaces) : Interfaces :=
  let kernel := it_kernel it (ifs_kernel self) in
  let user := it_user it (ifs_user self) in
  let filled := fill_addresses maps (map (prod_map inl id) kernel ++ map (prod_map inr id) user) in
  interfaces
    (list_to_map (omap (λ e : (string + IfaceKey) * Interface,
       match e.1 with inl n => Some (n, e.2) | inr _ => None end) filled))
    (list_to_map (omap (λ e : (string + IfaceKey) * Interface,
       match e.1 with inl _ => None | inr k => Some (k, e.2) end) filled))
    (insert_order self) (ifs_search self).

(** The names of the indices, for the routes. *)
Definition index_map (ifaces : Interfaces) : gmap Z string :=
  foldl (λ m iface, match bi_iface_index (base_iface iface) with
                    | Some index => <[index := iface_name iface]> m
                    | None => m
                    end) ∅ (interfaces_iter ifaces).

(** ** DNS of the leases *)

Record DhcpDns : Type := dhcp_dns_of {
  dd_iface : string;
  dd_nameservers : list string;
  dd_domains : list string;
}.

(** [get_max_retry_count]. *)
Definition RETRY_COUNT_COMMON : Z := 10.
Definition RETRY_COUNT_WIFI : Z := 20.
Definition RETRY_INTERVAL_MS : Z := 500.
Definition TOP_LEVEL_RETRY_MAX : nat := 2.
Definition TOP_LEVEL_RETRY_INTERVAL_SEC : Z := 2.

Definition is_wifi (t : InterfaceType) : bool :=
  match t with TWifiPhy | TWifiCfg => true | _ => false end.

Definition get_max_retry_count (self : MergedNetworkState) : Z :=
  if existsb (λ m, mi_is_changed m && is_wifi (mi_iface_type m)) (kernel_ifaces (mn_ifaces self)).*2
  then RETRY_COUNT_WIFI else RETRY_COUNT_COMMON.

Section Lower.
Context (to_lowercase : string → string).

(** The entry of one merged interface: its priority, its position, its name, its lease. *)
Definition dhcp_dns_entry (dhcp_dns : list DhcpDns) (order : nat) (m : MergedInterface) :
    option (Z * (Z * string) * DhcpDns) :=
  let base := base_iface (mi_merged m) in
  match List.find (λ d, String.eqb (dd_iface d) (bi_kernel_iface_name base) ||
                        String.eqb (dd_iface d) (bi_name base)) dhcp_dns with
  | None => None
  | Some dns =>
      match bi_ipv4 base with
      | None => None
      | Some ipv4 =>
          if negb (auto_dns_enabled ipv4) then None
          else Some (- auto_dns_priority_value ipv4, (Z.of_nat order, bi_kernel_iface_name base), dns)
      end
  end.

(** [gen_dhcp_dns]. *)
Definition gen_dhcp_dns (self : MergedNetworkState) (dhcp_dns : list DhcpDns) :
    list string * list string :=
  let entries := omap id (imap (dhcp_dns_entry dhcp_dns) (merged_iter (mn_ifaces self))) in
  let entries := (sort_by auto_dns_cmp fst entries).*2 in
  (push_all_unique [] (entries ≫= dd_nameservers),
   push_all_unique [] (to_lowercase <$> (entries ≫= dd_domains))).
End Lower.

(** ** Apply *)

Section Apply.
Context {Num : Type} `{!EqDecision Num} `{!Serde Num Interface} `{!Serde Num (list AltNameEntry)}.
Context (to_lowercase to_uppercase : string → string) (etc_hosts : option string) (it : Iteration).
Context {K : Type} `{!Kernel K} `{!Host K} (sort : LinkSort).
(** [run_dhcp_once], which asks the DHCP servers and applies the leases. *)
Context (run_dhcp_once : MergedInterfaces → K → res (list DhcpDns) * K).

(** [get_routes]: none if they cannot be read. *)
Definition get_routes (ifaces : Interfaces) : Eff K Routes :=
  r ← eff_try (eff_call (out_routes (index_map ifaces)));
  mret (match r with Ok rts => rts | Err _ => routes (Some []) (Some []) end).

(** [NipartNoDaemon::query_network_state]. *)
Definition query_network_state (opt : NipartQueryOption) : Eff K NetworkState :=
  if negb (qo_version opt =? 1) then eff_fail InvalidSchemaVersion
  else
    links ← eff_call out_links;
    addresses ← eff_try (eff_call out_addresses);
    let maps := match addresses with Ok maps => maps | Err _ => (∅, ∅) end in
    let ifaces := fill_all_addresses it maps (interfaces_new links) in
    rts ← get_routes ifaces;
    rules ← eff_call out_rules;
    dns ← eff_read (λ k, query_running_dns (out_file k));
    mret (network_state (ns_version ns_default) None None
            (mark_route_as_ignored_ifaces rts ifaces) rules dns ifaces).

(** [NipartNoDaemon::apply_dns_resolver]. *)
Definition no_daemon_apply_dns (self : MergedNetworkState) (dhcp_dns : list DhcpDns) : Eff K () :=
  let cache := md_cache (mn_dns self) in
  if match cache with Some c => cc_enabled c | None => false end then eff_fail NoSupport
  else
    let '(dynamic_servers, dynamic_domains) := gen_dhcp_dns to_lowercase self dhcp_dns in
    let dynamic_searches := if merged_auto_search_allowed (mn_dns self) then dynamic_domains else [] in
    eff_call (λ k,
      match write_static_dns (out_can_write k) (out_file k) (cache_bind_ip cache)
              (md_servers (mn_dns self)) (md_searches (mn_dns self)) (md_options (mn_dns self))
              dynamic_servers dynamic_searches with
      | Ok f => (Ok (), out_set_file f k)
      | Err e => (Err e, k)
      end).

(** What is done at first, and again halfway through the verification. *)
Definition apply_and_resolve (self : MergedNetworkState) : Eff K MergedNetworkState :=
  self ← apply_merged_state sort self;
  dhcp_dns ← (if dhcp_in_no_daemon (mn_option self) then eff_call (run_dhcp_once (mn_ifaces self))
              else mret []);
  _ ← no_daemon_apply_dns self dhcp_dns;
  mret self.

Definition sleep (ms : Z) : Eff K () := λ k, (Ok (), out_sleep ms k).

(** The loop over [1..(max_retry_count + 1)]; [n] iterations are left. *)
Fixpoint verify_loop (n : nat) (cur max_retry : Z) (self : MergedNetworkState) (result : res ()) :
    Eff K (MergedNetworkState * res ()) :=
  match n with
  | O => mret (self, result)
  | S n =>
      state ← query_network_state query_default;
      self ← (if cur =? max_retry / 2 then apply_and_resolve self else mret self);
      match mn_verify self state with
      | Ok _ => mret (self, Ok ())
      | Err e =>
          _ ← sleep RETRY_INTERVAL_MS;
          verify_loop n (cur + 1) max_retry self (Err e)
      end
  end.

(** [apply_network_state_once]. *)
Definition apply_network_state_once (desired : NetworkState) (opt : NipartApplyOption) :
    Eff K NetworkState :=
  current ← query_network_state query_default;
  self ← eff_of (merged_net_state_new to_lowercase to_uppercase etc_hosts it desired current None opt);
  self ← apply_and_resolve self;
  let max_retry := get_max_retry_count self in
  verified ← (if no_verify opt then mret (self, Ok ())
              else verify_loop (Z.to_nat max_retry) 1 max_retry self (Ok ()));
  _ ← eff_res verified.2;
  eff_of (mn_gen_diff verified.1).

(** The loop over [1..=TOP_LEVEL_RETRY_MAX], with the attempts that are left. *)
Fixpoint apply_attempts (n : nat) (desired : NetworkState) (opt : NipartApplyOption)
    (last_err : option NipartError) : Eff K NetworkState :=
  match n with
  | O => eff_res (Err (default (nipart_error Bug) last_err))
  | S n =>
      r ← eff_try (apply_network_state_once desired opt);
      match r with
      | Ok state => mret state
      | Err e =>
          if negb (retriable (kind e)) then eff_res (Err e)
          else
            _ ← (match n with O => mret () | _ => sleep (1000 * TOP_LEVEL_RETRY_INTERVAL_SEC) end);
            apply_attempts n desired opt (Some e)
      end
  end.

(** [NipartNoDaemon::apply_network_state]. *)
Definition no_daemon_apply (desired : NetworkState) (opt : NipartApplyOption) :
    Eff K NetworkState :=
  apply_attempts TOP_LEVEL_RETRY_MAX desired opt None.

End Apply.

(** ** A success is verified *)

(** The merged state with the interfaces to be created again. *)
Definition with_recreated (self : MergedNetworkState) : MergedNetworkState :=
  set_mn_ifaces (recreate_all (mn_ifaces self)) self.

Lemma with_recreated_idem self : with_recreated (with_recreated self) = with_recreated self.
Proof. unfold with_recreated, set_mn_ifaces. simpl. by rewrite recreate_all_idem. Qed.

Section Verified.
Context {Num : Type} `{!EqDecision Num} `{!Serde Num Interface} `{!Serde Num (list AltNameEntry)}.
Context (to_lowercase to_uppercase : string → string) (etc_hosts : option string) (it : Iteration).
Context {K : Type} `{!Kernel K} `{!Host K} (sort : LinkSort).
Context (run_dhcp_once : MergedInterfaces → K → res (list DhcpDns) * K).

#[local] Abbreviation resolve := (apply_and_resolve to_lowercase sort run_dhcp_once).
#[local] Abbreviation loop := (verify_loop to_lowercase it sort run_dhcp_once).
#[local] Abbreviation once := (apply_network_state_once to_lowercase to_uppercase etc_hosts it sort
                                 run_dhcp_once).
#[local] Abbreviation attempts := (apply_attempts to_lowercase to_uppercase etc_hosts it sort
                                     run_dhcp_once).

(** A queried state passes the verification. *)
Definition seen_verified (self : MergedNetworkState) : Prop :=
  ∃ k state k', query_network_state it query_default k = (Ok state, k') ∧ mn_verify self state = Ok ().

Lemma apply_and_resolve_ok self k self' k' :
  resolve self k = (Ok self', k') → self' = with_recreated self.
Proof.
  unfold apply_and_resolve. intros (s1 & k1 & ->%apply_merged_state_ok & H)%eff_bind_ok.
  do 2 apply eff_bind_ok in H as (? & ? & _ & H). by injection H.
Qed.

Lemma verify_loop_ok n : ∀ cur max_retry self result k self' k',
  with_recreated self = self → (n = O → is_ok result = false) →
  loop n cur max_retry self result k = (Ok (self', Ok ()), k') →
  self' = self ∧ seen_verified self.
Proof.
  induction n as [|n IH]; intros cur max_retry self result k self' k' Hself Hr; simpl.
  { intros [= _ -> _]. by specialize (Hr eq_refl). }
  intros (state & k1 & Hq & (s1 & k2 & Hs & H)%eff_bind_ok)%eff_bind_ok.
  assert (s1 = self) as ->.
  { destruct (cur =? max_retry / 2); [|by injection Hs].
    by rewrite (apply_and_resolve_ok _ _ _ _ Hs). }
  destruct (mn_verify self state) as [[]|e] eqn:Ev.
  - injection H as <- _. split; [done|]. by exists k, state, k1.
  - apply eff_bind_ok in H as (? & k3 & _ & H). by apply (IH _ _ _ _ _ _ _ Hself) in H.
Qed.

(** One attempt: what it merged, and that the result was seen. *)
Definition verified_attempt (desired : NetworkState) (opt : NipartApplyOption) (diff : NetworkState) :
    Prop :=
  ∃ k current k' self,
    query_network_state it query_default k = (Ok current, k') ∧
    merged_net_state_new to_lowercase to_uppercase etc_hosts it desired current None opt = Ok self ∧
    mn_gen_diff (with_recreated self) = Ok diff ∧
    (no_verify opt = false → seen_verified (with_recreated self)).

Lemma get_max_retry_count_pos self : (0 < Z.to_nat (get_max_retry_count self))%nat.
Proof. unfold get_max_retry_count. destruct (existsb _ _); unfold RETRY_COUNT_WIFI, RETRY_COUNT_COMMON; lia. Qed.

Lemma once_verified desired opt k diff k' :
  once desired opt k = (Ok diff, k') → verified_attempt desired opt diff.
Proof.
  unfold apply_network_state_once. intros (current & k1 & Hq & H)%eff_bind_ok.
  apply eff_bind_ok in H as (self & k2 & [= Hn _] & H).
  apply eff_bind_ok in H as (s1 & k3 & ->%apply_and_resolve_ok & H).
  apply eff_bind_ok in H as ([s2 r2] & k4 & Hv & H).
  apply eff_bind_ok in H as ([] & k5 & Hr & [= Hd _]). simpl in *.
  assert (r2 = Ok ()) as -> by (destruct r2 as [[]|e]; [done|by injection Hr]).
  exists k, current, k1, self. split; [done|]. split; [done|].
  destruct (no_verify opt); [by injection Hv as <- _|].
  apply verify_loop_ok in Hv as [-> Hs]; [done|apply with_recreated_idem|].
  intros H. pose proof (get_max_retry_count_pos (with_recreated self)). lia.
Qed.

(** Without the daemon an apply that is reported as done was seen done: unless the
    verification was switched off, a state that was read back afterwards passed it, with the
    interfaces that had to be created again compared with their complete configuration. *)
Theorem no_daemon_success_is_verified desired opt k diff k' :
  no_daemon_apply to_lowercase to_uppercase etc_hosts it sort run_dhcp_once desired opt k =
    (Ok diff, k') →
  verified_attempt desired opt diff.
Proof.
  unfold no_daemon_apply. generalize (@None NipartError). generalize k.
  induction TOP_LEVEL_RETRY_MAX as [|n IH]; intros k0 last_err; simpl.
  { destruct last_err; done. }
  intros ([state|e] & k1 & Hr & H)%eff_bind_ok.
  - rewrite eff_try_ok in Hr. injection H as <- _. by eapply once_verified.
  - destruct (negb (retriable (kind e))); [done|].
    apply eff_bind_ok in H as (? & k2 & _ & H). by apply IH in H.
Qed.

(** A failure is reported at once if trying again cannot help; any other failure is
    repeated once, two seconds later, and the second failure is the one reported. *)
Theorem no_daemon_failure_is_repeated desired opt k e k' :
  no_daemon_apply to_lowercase to_uppercase etc_hosts it sort run_dhcp_once desired opt k =
    (Err (Failed e), k') ↔
  (once desired opt k = (Err (Failed e), k') ∧ retriable (kind e) = false) ∨
  ∃ e1 k1, once desired opt k = (Err (Failed e1), k1) ∧ retriable (kind e1) = true ∧
    once desired opt (out_sleep 2000 k1) = (Err (Failed e), k').
Proof.
  unfold no_daemon_apply, TOP_LEVEL_RETRY_MAX. cbn [apply_attempts].
  rewrite eff_bind_run. unfold eff_try at 1.
  destruct (once desired opt k) as [[d|[e1|]] k1]; simpl;
    [split; [done|]; by intros [[[=] ?]|(? & ? & [=] & _)]| |
     split; [done|]; by intros [[[=] ?]|(? & ? & [=] & _)]].
  destruct (retriable (kind e1)) eqn:E1; simpl.
  2:{ unfold eff_res, eff_of. simpl. split; [intros [= <- <-]; by left|].
      intros [[[= <- <-] _]|(? & ? & [= <- <-] & ? & _)]; [done|congruence]. }
  rewrite eff_bind_run. simpl. rewrite eff_bind_run. unfold eff_try.
  change (1000 * TOP_LEVEL_RETRY_INTERVAL_SEC) with 2000.
  destruct (once desired opt (out_sleep 2000 k1)) as [[d|[e2|]] k2] eqn:E2; simpl;
    [by split; [|intros [[[= <- _] ?]|(? & ? & [= <- <-] & _ & H)]; congruence]| |
     by split; [|intros [[[= <- _] ?]|(? & ? & [= <- <-] & _ & H)]; congruence]].
  trans ((Err (Failed e2) : outcome NetworkState, k2) = (Err (Failed e), k')).
  { by destruct (negb (retriable (kind e2))). }
  split; [intros [= <- <-]; right; by exists e1, k1|].
  intros [[[= <- _] ?]|(? & ? & [= <- <-] & _ & H)]; congruence.
Qed.

End Verified.

(** ** Examples *)

(** A small kernel: interfaces are created, changed and deleted, nothing else is kept. *)
Record Box : Type := box { bx_ifaces : list Interface; bx_file : file; bx_ms : Z }.

Definition set_links (l : list Interface) (b : Box) : Box := box l (bx_file b) (bx_ms b).

Definition other_than (name : string) (i : Interface) : bool := negb (String.eqb (iface_name i) name).

#[local] Instance box_kernel : Kernel Box := λ r b,
  (Ok (), match r with
          | LinkChanges i _ _ => set_links (List.filter (other_than (iface_name i)) (bx_ifaces b) ++ [i]) b
          | DeleteIface n => set_links (List.filter (other_than n) (bx_ifaces b)) b
          | _ => b
          end).

#[local] Instance box_host : Host Box := {|
  out_links b := (Ok (bx_ifaces b), b);
  out_addresses b := (fail DaemonFailure, b);
  out_routes _ b := (Ok (routes (Some []) (Some [])), b);
  out_rules b := (Ok (route_rules None), b);
  out_file := bx_file;
  out_set_file f b := box (bx_ifaces b) f (bx_ms b);
  out_can_write _ := true;
  out_sleep ms b := box (bx_ifaces b) (bx_file b) (bx_ms b + ms);
|}.

Definition no_dhcp (_ : MergedInterfaces) (b : Box) : res (list DhcpDns) * Box := (Ok [], b).

#[local] Abbreviation ex_apply := (no_daemon_apply ex_lower to_ascii_uppercase None ex_iteration
                                     ex_link_sort no_dhcp).

Definition ex_wanted (i : Interface) : NetworkState := push_iface i ns_default.

Definition ex_dummy : Interface := IfDummy (base_new "dummy0" TDummy).

Definition ex_box : Box := box [] FileNotFound 0.

Lemma no_daemon_success_is_verified_witness :
  match ex_apply (ex_wanted ex_dummy) opt_new ex_box with
  | (Ok diff, _) => ∃ self, mn_gen_diff self = Ok diff ∧
      ∃ k state k', query_network_state (K:=Box) ex_iteration query_default k = (Ok state, k') ∧
        mn_verify self state = Ok ()
  | (Err _, _) => False
  end.
Proof.
  assert (is_ok (ex_apply (ex_wanted ex_dummy) opt_new ex_box).1 = true) as H by (vm_compute; reflexivity).
  destruct (ex_apply (ex_wanted ex_dummy) opt_new ex_box) as [[diff|e] k'] eqn:E; [|discriminate H].
  clear H. apply no_daemon_success_is_verified in E.
  destruct E as (k & current & k1 & self & _ & _ & Hd & Hv). exists (with_recreated self).
  split; [exact Hd|]. exact (Hv eq_refl).
Defined.

(** A DNS cache needs the daemon: it is refused, but only after the interfaces were
    changed, and they stay so. *)
Definition with_cache (s : NetworkState) : NetworkState :=
  network_state (ns_version s) (ns_description s) (ns_wait_online s) (ns_routes s) (ns_route_rules s)
    (ex_resolver ["127.0.0.1"]) (ns_ifaces s).

Example refused_cache_leaves_changes :
  let '(r, b) := ex_apply (with_cache (ex_wanted ex_dummy)) opt_new ex_box in
  r = Err (Failed (nipart_error NoSupport)) ∧ map iface_name (bx_ifaces b) = ["dummy0"].
Proof. vm_compute. split; reflexivity. Qed.

(** [auto-connect] is a property the kernel does not have: what the daemon pretends for its
    own verification is missing here, so that a request with it fails after everything was
    applied. *)
Definition ex_auto_dummy : Interface :=
  IfDummy (set_bi_auto_connect (Some AutoConnect) (base_new "dummy0" TDummy)).

(** A kernel does not report what it was told of [auto-connect]. *)
Definition as_reported (b : Box) : Box :=
  set_links (upd_base (set_bi_auto_connect None) <$> bx_ifaces b) b.

Example auto_connect_never_verifies :
  match merged_net_state_new ex_lower to_ascii_uppercase None ex_iteration (ex_wanted ex_auto_dummy)
          ns_default None opt_new with
  | Ok self =>
      match apply_and_resolve ex_lower ex_link_sort no_dhcp self ex_box with
      | (Ok self, b) =>
          match query_network_state ex_iteration query_default (as_reported b) with
          | (Ok state, _) => mn_verify self state = fail VerificationError
          | _ => False
          end
      | _ => False
      end
  | Err _ => False
  end.
Proof. vm_compute. reflexivity. Qed.
