(* ===== verification/Monitor.v ===== *)
(** * Monitor: the worker that turns kernel link notifications into events

    [src/daemon/monitor/monitor_worker.rs]: the state of [NipartMonitorWorker],
    its handlers and its main loop.  A handler that fails keeps the changes it
    made, as a method over [&mut self] does, so a handler is a function from the
    state to a result and a state.  Every [.await] of a handler is on the
    channel to the commander or on the kernel; nothing else touches the state
    meanwhile, so a handler is one step.

    [sent] is the content of the channel to the commander; the netlink session
    is the number of the connection it was opened with.  What a step reads from
    outside is a [World]. *)

From S2P Require Export LinkEvent.

#[local] Open Scope Z_scope.

Definition EVENT_EXPIRE_TIME_SEC : Z := 300.
Definition DOWN_WAIT_SEC : Z := 10.
Definition DELAY_TICK_SEC_IF_BUSY : Z := 1.
Definition DELAY_TICK_SEC_IF_FREE : Z := 24 * 60 * 60.
Definition RECONCILE_INTERVAL_NOT_ONLINE_SECS : Z := 5.
Definition RECONCILE_INTERVAL_ONLINE_SECS : Z := 30.
Definition u32_max : Z := 4294967295.

(** ** Data *)

Record CollectBatch : Type := collect_batch_of {
  cb_events : list InterfaceLinkEvent;
  cb_boot : bool;
}.

Inductive NipartManagerCmd : Type :=
| LinkEvent (event : InterfaceLinkEvent)
| LinkEvents (events : list InterfaceLinkEvent) (boot : bool)
| GatewayChanged
| DhcpV4LeaseApplied (iface : string).

Inductive NipartMonitorCmd : Type :=
| SetCommanderSender
| AddIface (iface : string)
| DelIface (iface : string)
| AddMacWatch (mac : string)
| DelMacWatch (mac : string)
| EnableWifiMonitor
| DisableWifiMonitor
| Start
| Pause
| Resume
| MarkExplicitlyDown (names : list string)
| ClearExplicitlyDown (names : list string)
| ForgetPausedState (ifaces : list string)
| ForgetEmitted (ifaces : list string).

Record Monitor : Type := monitor {
  iface_monitor_list : gset string;
  mac_watch_list : gset string;
  iface_mac : gmap string string;
  wifi_monitor_enabled : bool;
  netlink_handle : option nat;
  netlink_msg_receiver : option nat;
  msg_to_commander : bool;
  manual_pause_count : Z;
  explicitly_down : gset string;
  emited : gmap string LastLinkEvent;
  paused_state : option (gmap string LastLinkEvent);
  wifi_phys_emited : gset string;
  delay_queue : gmap string (InterfaceLinkEvent * Z);
  started : bool;
  udev_pending_events : gmap string InterfaceLinkEvent;
  collect_batch : option CollectBatch;
  next_reconcile : Z;
  connections : nat;
  sent : list NipartManagerCmd;
}.

Definition upd_iface_monitor_list (f : gset string → gset string) (m : Monitor) : Monitor :=
  monitor (f (iface_monitor_list m)) (mac_watch_list m) (iface_mac m) (wifi_monitor_enabled m)
    (netlink_handle m) (netlink_msg_receiver m) (msg_to_commander m) (manual_pause_count m)
    (explicitly_down m) (emited m) (paused_state m) (wifi_phys_emited m) (delay_queue m)
    (started m) (udev_pending_events m) (collect_batch m) (next_reconcile m) (connections m)
    (sent m).
Definition upd_mac_watch_list (f : gset string → gset string) (m : Monitor) : Monitor :=
  monitor (iface_monitor_list m) (f (mac_watch_list m)) (iface_mac m) (wifi_monitor_enabled m)
    (netlink_handle m) (netlink_msg_receiver m) (msg_to_commander m) (manual_pause_count m)
    (explicitly_down m) (emited m) (paused_state m) (wifi_phys_emited m) (delay_queue m)
    (started m) (udev_pending_events m) (collect_batch m) (next_reconcile m) (connections m)
    (sent m).
Definition upd_iface_mac (f : gmap string string → gmap string string) (m : Monitor) : Monitor :=
  monitor (iface_monitor_list m) (mac_watch_list m) (f (iface_mac m)) (wifi_monitor_enabled m)
    (netlink_handle m) (netlink_msg_receiver m) (msg_to_commander m) (manual_pause_count m)
    (explicitly_down m) (emited m) (paused_state m) (wifi_phys_emited m) (delay_queue m)
    (started m) (udev_pending_events m) (collect_batch m) (next_reconcile m) (connections m)
    (sent m).
Definition upd_wifi_monitor_enabled (f : bool → bool) (m : Monitor) : Monitor :=
  monitor (iface_monitor_list m) (mac_watch_list m) (iface_mac m) (f (wifi_monitor_enabled m))
    (netlink_handle m) (netlink_msg_receiver m) (msg_to_commander m) (manual_pause_count m)
    (explicitly_down m) (emited m) (paused_state m) (wifi_phys_emited m) (delay_queue m)
    (started m) (udev_pending_events m) (collect_batch m) (next_reconcile m) (connections m)
    (sent m).
Definition upd_netlink_handle (f : option nat → option nat) (m : Monitor) : Monitor :=
  monitor (iface_monitor_list m) (mac_watch_list m) (iface_mac m) (wifi_monitor_enabled m)
    (f (netlink_handle m)) (netlink_msg_receiver m) (msg_to_commander m) (manual_pause_count m)
    (explicitly_down m) (emited m) (paused_state m) (wifi_phys_emited m) (delay_queue m)
    (started m) (udev_pending_events m) (collect_batch m) (next_reconcile m) (connections m)
    (sent m).
Definition upd_netlink_msg_receiver (f : option nat → option nat) (m : Monitor) : Monitor :=
  monitor (iface_monitor_list m) (mac_watch_list m) (iface_mac m) (wifi_monitor_enabled m)
    (netlink_handle m) (f (netlink_msg_receiver m)) (msg_to_commander m) (manual_pause_count m)
    (explicitly_down m) (emited m) (paused_state m) (wifi_phys_emited m) (delay_queue m)
    (started m) (udev_pending_events m) (collect_batch m) (next_reconcile m) (connections m)
    (sent m).
Definition upd_msg_to_commander (f : bool → bool) (m : Monitor) : Monitor :=
  monitor (iface_monitor_list m) (mac_watch_list m) (iface_mac m) (wifi_monitor_enabled m)
    (netlink_handle m) (netlink_msg_receiver m) (f (msg_to_commander m)) (manual_pause_count m)
    (explicitly_down m) (emited m) (paused_state m) (wifi_phys_emited m) (delay_queue m)
    (started m) (udev_pending_events m) (collect_batch m) (next_reconcile m) (connections m)
    (sent m).
Definition upd_manual_pause_count (f : Z → Z) (m : Monitor) : Monitor :=
  monitor (iface_monitor_list m) (mac_watch_list m) (iface_mac m) (wifi_monitor_enabled m)
    (netlink_handle m) (netlink_msg_receiver m) (msg_to_commander m) (f (manual_pause_count m))
    (explicitly_down m) (emited m) (paused_state m) (wifi_phys_emited m) (delay_queue m)
    (started m) (udev_pending_events m) (collect_batch m) (next_reconcile m) (connections m)
    (sent m).
Definition upd_explicitly_down (f : gset string → gset string) (m : Monitor) : Monitor :=
  monitor (iface_monitor_list m) (mac_watch_list m) (iface_mac m) (wifi_monitor_enabled m)
    (netlink_handle m) (netlink_msg_receiver m) (msg_to_commander m) (manual_pause_count m)
    (f (explicitly_down m)) (emited m) (paused_state m) (wifi_phys_emited m) (delay_queue m)
    (started m) (udev_pending_events m) (collect_batch m) (next_reconcile m) (connections m)
    (sent m).
Definition upd_emited (f : gmap string LastLinkEvent → gmap string LastLinkEvent) (m : Monitor) : Monitor :=
  monitor (iface_monitor_list m) (mac_watch_list m) (iface_mac m) (wifi_monitor_enabled m)
    (netlink_handle m) (netlink_msg_receiver m) (msg_to_commander m) (manual_pause_count m)
    (explicitly_down m) (f (emited m)) (paused_state m) (wifi_phys_emited m) (delay_queue m)
    (started m) (udev_pending_events m) (collect_batch m) (next_reconcile m) (connections m)
    (sent m).
Definition upd_paused_state (f : option (gmap string LastLinkEvent) → option (gmap string LastLinkEvent)) (m : Monitor) : Monitor :=
  monitor (iface_monitor_list m) (mac_watch_list m) (iface_mac m) (wifi_monitor_enabled m)
    (netlink_handle m) (netlink_msg_receiver m) (msg_to_commander m) (manual_pause_count m)
    (explicitly_down m) (emited m) (f (paused_state m)) (wifi_phys_emited m) (delay_queue m)
    (started m) (udev_pending_events m) (collect_batch m) (next_reconcile m) (connections m)
    (sent m).
Definition upd_wifi_phys_emited (f : gset string → gset string) (m : Monitor) : Monitor :=
  monitor (iface_monitor_list m) (mac_watch_list m) (iface_mac m) (wifi_monitor_enabled m)
    (netlink_handle m) (netlink_msg_receiver m) (msg_to_commander m) (manual_pause_count m)
    (explicitly_down m) (emited m) (paused_state m) (f (wifi_phys_emited m)) (delay_queue m)
    (started m) (udev_pending_events m) (collect_batch m) (next_reconcile m) (connections m)
    (sent m).
Definition upd_delay_queue (f : gmap string (InterfaceLinkEvent * Z) → gmap string (InterfaceLinkEvent * Z)) (m : Monitor) : Monitor :=
  monitor (iface_monitor_list m) (mac_watch_list m) (iface_mac m) (wifi_monitor_enabled m)
    (netlink_handle m) (netlink_msg_receiver m) (msg_to_commander m) (manual_pause_count m)
    (explicitly_down m) (emited m) (paused_state m) (wifi_phys_emited m) (f (delay_queue m))
    (started m) (udev_pending_events m) (collect_batch m) (next_reconcile m) (connections m)
    (sent m).
Definition upd_started (f : bool → bool) (m : Monitor) : Monitor :=
  monitor (iface_monitor_list m) (mac_watch_list m) (iface_mac m) (wifi_monitor_enabled m)
    (netlink_handle m) (netlink_msg_receiver m) (msg_to_commander m) (manual_pause_count m)
    (explicitly_down m) (emited m) (paused_state m) (wifi_phys_emited m) (delay_queue m)
    (f (started m)) (udev_pending_events m) (collect_batch m) (next_reconcile m) (connections m)
    (sent m).
Definition upd_udev_pending_events (f : gmap string InterfaceLinkEvent → gmap string InterfaceLinkEvent) (m : Monitor) : Monitor :=
  monitor (iface_monitor_list m) (mac_watch_list m) (iface_mac m) (wifi_monitor_enabled m)
    (netlink_handle m) (netlink_msg_receiver m) (msg_to_commander m) (manual_pause_count m)
    (explicitly_down m) (emited m) (paused_state m) (wifi_phys_emited m) (delay_queue m)
    (started m) (f (udev_pending_events m)) (collect_batch m) (next_reconcile m) (connections m)
    (sent m).
Definition upd_collect_batch (f : option CollectBatch → option CollectBatch) (m : Monitor) : Monitor :=
  monitor (iface_monitor_list m) (mac_watch_list m) (iface_mac m) (wifi_monitor_enabled m)
    (netlink_handle m) (netlink_msg_receiver m) (msg_to_commander m) (manual_pause_count m)
    (explicitly_down m) (emited m) (paused_state m) (wifi_phys_emited m) (delay_queue m)
    (started m) (udev_pending_events m) (f (collect_batch m)) (next_reconcile m) (connections m)
    (sent m).
Definition upd_next_reconcile (f : Z → Z) (m : Monitor) : Monitor :=
  monitor (iface_monitor_list m) (mac_watch_list m) (iface_mac m) (wifi_monitor_enabled m)
    (netlink_handle m) (netlink_msg_receiver m) (msg_to_commander m) (manual_pause_count m)
    (explicitly_down m) (emited m) (paused_state m) (wifi_phys_emited m) (delay_queue m)
    (started m) (udev_pending_events m) (collect_batch m) (f (next_reconcile m)) (connections m)
    (sent m).
Definition upd_connections (f : nat → nat) (m : Monitor) : Monitor :=
  monitor (iface_monitor_list m) (mac_watch_list m) (iface_mac m) (wifi_monitor_enabled m)
    (netlink_handle m) (netlink_msg_receiver m) (msg_to_commander m) (manual_pause_count m)
    (explicitly_down m) (emited m) (paused_state m) (wifi_phys_emited m) (delay_queue m)
    (started m) (udev_pending_events m) (collect_batch m) (next_reconcile m) (f (connections m))
    (sent m).
Definition upd_sent (f : list NipartManagerCmd → list NipartManagerCmd) (m : Monitor) : Monitor :=
  monitor (iface_monitor_list m) (mac_watch_list m) (iface_mac m) (wifi_monitor_enabled m)
    (netlink_handle m) (netlink_msg_receiver m) (msg_to_commander m) (manual_pause_count m)
    (explicitly_down m) (emited m) (paused_state m) (wifi_phys_emited m) (delay_queue m)
    (started m) (udev_pending_events m) (collect_batch m) (next_reconcile m) (connections m)
    (f (sent m)).

(** [TaskWorker::new]: [now] is the instant of the start. *)
Definition monitor_new (now : Z) : Monitor :=
  monitor ∅ ∅ ∅ false None None false 0 ∅ ∅ None ∅ ∅ false ∅ None now 0 [].

(** What a step finds outside: the clocks and files of [Env], whether a netlink
    connection can be opened, the link dump of a new connection and whether it
    ends without an error, and the kernel interfaces of a full query. *)
Record World : Type := mk_world {
  world_env :> Env;
  world_connect_ok : bool;
  world_dump : list LinkMessage;
  world_dump_ok : bool;
  world_query : res (gmap string Interface);
}.

(** The keys of a map in the order of its iterator. *)
Definition iter_keys {A} (env : Env) (m : gmap string A) : list string :=
  env_order env ((map_to_list m).*1).

(** ** Handlers *)

Definition Mon (A : Type) : Type := Monitor → res A * Monitor.

#[export] Instance Mon_ret : MRet Mon := λ A a m, (Ok a, m).
#[export] Instance Mon_bind : MBind Mon := λ A B k x m,
  match x m with
  | (Ok a, m') => k a m'
  | (Err e, m') => (Err e, m')
  end.

Definition modify (f : Monitor → Monitor) : Mon () := λ m, (Ok (), f m).
Definition gets {A} (f : Monitor → A) : Mon A := λ m, (Ok (f m), m).
Definition throw {A} (k : ErrorKind) : Mon A := λ m, (fail k, m).
Definition when_ (b : bool) (x : Mon ()) : Mon () := if b then x else mret ().

(** The result of a computation, its error included. *)
Definition attempt {A} (x : Mon A) : Mon (res A) := λ m, let '(r, m') := x m in (Ok r, m').
Definition of_result {A} (r : res A) : Mon A := λ m, (r, m).

Fixpoint for_each {A} (f : A → Mon ()) (l : list A) : Mon () :=
  match l with [] => mret () | x :: l' => f x;; for_each f l' end.

Fixpoint fold_mon {A B} (f : B → A → Mon B) (b : B) (l : list A) : Mon B :=
  match l with [] => mret b | x :: l' => b' ← f b x; fold_mon f b' l' end.

(** *** Guards *)

Definition should_pause (self : Monitor) : bool :=
  bool_decide (iface_monitor_list self = ∅) && bool_decide (mac_watch_list self = ∅) &&
  negb (wifi_monitor_enabled self).

Definition should_resume (self : Monitor) : bool :=
  negb (bool_decide (iface_monitor_list self = ∅)) ||
  negb (bool_decide (mac_watch_list self = ∅)) || wifi_monitor_enabled self.

Definition should_start_netlink (self : Monitor) : bool :=
  started self && (manual_pause_count self =? 0) &&
  bool_decide (netlink_handle self = None).

(** [emit_on_resume]. *)
Definition emit_on_resume (self : Monitor) (event : InterfaceLinkEvent) : bool :=
  match paused_state self with
  | None => true
  | Some paused =>
      match paused !! le_iface_name event with
      | None => true
      | Some last => negb (is_same_state last event)
      end
  end.

(** [last_link_event]. *)
Definition last_link_event (self : Monitor) (event : InterfaceLinkEvent) : LastLinkEvent :=
  from_event event (iface_mac self !! le_iface_name event).

(** [event_is_interested]. *)
Definition event_is_interested (self : Monitor) (event : InterfaceLinkEvent) : bool :=
  bool_decide (le_iface_name event ∈ iface_monitor_list self) ||
  match iface_mac self !! le_iface_name event with
  | Some mac => bool_decide (mac ∈ mac_watch_list self)
  | None => false
  end ||
  (wifi_monitor_enabled self && bool_decide (is_Some (le_ssid event))) ||
  (wifi_monitor_enabled self && bool_decide (le_iface_type event = TWifiPhy)).

Definition reconcile_interval (env : Env) : Z :=
  from_secs (if env_online env then RECONCILE_INTERVAL_ONLINE_SECS
             else RECONCILE_INTERVAL_NOT_ONLINE_SECS).

(** *** Sending *)

(** [sender.send(cmd)] over [msg_to_commander]. *)
Definition send_cmd (env : Env) (cmd : NipartManagerCmd) : Mon () :=
  sender ← gets msg_to_commander;
  if sender && env_channel_open env then modify (upd_sent (λ l, l ++ [cmd])) else throw Bug.

(** [send_batch]. *)
Definition send_batch (env : Env) (batch : CollectBatch) : Mon () :=
  send_cmd env (LinkEvents (cb_events batch) (cb_boot batch)).

(** The event [notify] sends: the first of a wifi-phy is marked. *)
Definition announced (self : Monitor) (event : InterfaceLinkEvent) : InterfaceLinkEvent :=
  if le_is_delete event then event
  else if wifi_monitor_enabled self && bool_decide (le_iface_type event = TWifiPhy) &&
          bool_decide (le_iface_name event ∉ wifi_phys_emited self)
  then set_is_new_wifi_phy true event else event.

(** [notify]. *)
Definition notify (env : Env) (event : InterfaceLinkEvent) : Mon () :=
  let name := le_iface_name event in
  event ← gets (λ self, announced self event);
  when_ (le_is_delete event) (modify (upd_wifi_phys_emited (.∖ {[name]})));;
  modify (upd_delay_queue (delete name));;
  (if le_is_delete event then
     modify (upd_emited (delete name));;
     modify (upd_wifi_phys_emited (.∖ {[name]}))
   else
     when_ (le_is_new_wifi_phy event) (modify (upd_wifi_phys_emited ({[name]} ∪.)));;
     last_event ← gets (λ self, last_link_event self event);
     modify (upd_emited <[name := last_event]>));;
  batch ← gets collect_batch;
  match batch with
  | Some b =>
      modify (upd_collect_batch (λ _,
        Some (collect_batch_of (cb_events b ++ [event]) (cb_boot b))))
  | None => send_cmd env (LinkEvent event)
  end.

(** [delay_notify]. *)
Definition delay_notify (env : Env) (event : InterfaceLinkEvent) (time : Z) : Mon () :=
  modify (upd_delay_queue <[le_iface_name event := (event, env_instant env + time)]>).

(** The suppressed branch of [try_notify]. *)
Definition record_suppressed (event : InterfaceLinkEvent) : Mon () :=
  let name := le_iface_name event in
  if le_is_delete event then
    modify (upd_emited (delete name));;
    modify (upd_wifi_phys_emited (.∖ {[name]}))
  else
    last_event ← gets (λ self, last_link_event self event);
    modify (upd_emited <[name := last_event]>).

(** The deduplication and debounce at the end of [try_notify]. *)
Definition debounce (env : Env) (event : InterfaceLinkEvent) : Mon () :=
  if le_is_delete event then notify env event
  else
    previous ← gets (λ self, emited self !! le_iface_name event);
    match previous with
    | Some previous_event =>
        if match elapsed env (ll_time_stamp previous_event) with
           | Some d => from_secs EVENT_EXPIRE_TIME_SEC <? d
           | None => false
           end
        then notify env event
        else if negb (ll_is_up previous_event) && le_is_up event then notify env event
        else
          when_ (negb (le_is_up event) && ll_is_up previous_event)
            (last_event ← gets (λ self, last_link_event self event);
             modify (upd_emited <[le_iface_name event := last_event]>));;
          delay_notify env event (from_secs DOWN_WAIT_SEC)
    | None => notify env event
    end.

(** [try_notify]. *)
Definition try_notify (env : Env) (event : InterfaceLinkEvent) : Mon () :=
  let name := le_iface_name event in
  suppressed ← gets (λ self, event_is_explicitly_down event (explicitly_down self));
  if suppressed : bool then record_suppressed event
  else
    interested ← gets (λ self, event_is_interested self event);
    if negb interested then mret ()
    else
      when_ (le_is_delete event) (modify (upd_udev_pending_events (delete name)));;
      if negb (le_is_delete event) && negb (env_udev_initialized env (le_iface_index event)) then
        modify (upd_udev_pending_events <[name := event]>)
      else debounce env event.

(** *** Pause and resume *)

Definition pause (self : Monitor) : Monitor :=
  let self := match paused_state self with
              | None => upd_paused_state (λ _, Some (emited self)) self
              | Some _ => self
              end in
  upd_iface_mac (λ _, ∅) (upd_netlink_msg_receiver (λ _, None)
    (upd_netlink_handle (λ _, None) self)).

(** [handle_resume_event]. *)
Definition handle_resume_event (env : Env) (event : InterfaceLinkEvent) : Mon () :=
  emit ← gets (λ self, emit_on_resume self event);
  if negb emit then mret () else try_notify env event.

(** One interface of [handle_resume_deleted_ifaces]. *)
Definition resume_deleted_iface (env : Env) (paused : gmap string LastLinkEvent)
    (seen_ifaces : gset string) (name : string) : Mon () :=
  match paused !! name with
  | None => mret ()
  | Some last_event =>
      if decide (name ∈ seen_ifaces) then mret ()
      else
        match ll_mac_address last_event with
        | Some mac => modify (upd_iface_mac <[name := mac]>)
        | None => mret ()
        end;;
        try_notify env (to_delete_event env last_event name);;
        modify (upd_iface_mac (delete name))
  end.

(** [handle_resume_deleted_ifaces]. *)
Definition handle_resume_deleted_ifaces (env : Env) (seen_ifaces : gset string) : Mon () :=
  paused_state ← gets paused_state;
  modify (upd_paused_state (λ _, None));;
  match paused_state with
  | None => mret ()
  | Some paused =>
      for_each (resume_deleted_iface env paused seen_ifaces) (iter_keys env paused)
  end.

(** Remember the MAC address that came with an event. *)
Definition observe_mac (name : string) (mac : option string) : Mon () :=
  match mac with
  | Some mac => modify (upd_iface_mac <[name := mac]>)
  | None => mret ()
  end.

(** One message of the link dump of [resume]. *)
Definition resume_link_msg (env : Env) (seen_ifaces : gset string) (msg : LinkMessage) :
    Mon (gset string) :=
  wifi ← gets wifi_monitor_enabled;
  match parse_link_msg env msg wifi false with
  | None => mret seen_ifaces
  | Some (event, mac) =>
      observe_mac (le_iface_name event) mac;;
      handle_resume_event env event;;
      mret ({[le_iface_name event]} ∪ seen_ifaces)
  end.

(** [resume]. *)
Definition resume (w : World) : Mon () :=
  if negb (world_connect_ok w) then throw InvalidArgument
  else
    session ← gets (λ self, S (connections self));
    modify (upd_connections S);;
    seen_ifaces ← fold_mon (resume_link_msg w) ∅ (world_dump w);
    (if world_dump_ok w then mret () else throw InvalidArgument);;
    handle_resume_deleted_ifaces w seen_ifaces;;
    modify (upd_netlink_handle (λ _, Some session));;
    modify (upd_netlink_msg_receiver (λ _, Some session)).

(** [start_and_dump]. *)
Definition start_and_dump (w : World) : Mon () :=
  modify (upd_collect_batch (λ _, Some (collect_batch_of [] true)));;
  result ← attempt (resume w);
  batch ← gets collect_batch;
  modify (upd_collect_batch (λ _, None));;
  match batch with
  | Some batch => send_batch w batch
  | None => mret ()
  end;;
  of_result result.

(** *** Queues *)

(** One event of [process_udev_pending_events]. *)
Definition retry_udev_pending (env : Env) (event : InterfaceLinkEvent) : Mon () :=
  if negb (env_udev_initialized env (le_iface_index event)) then
    modify (upd_udev_pending_events <[le_iface_name event := event]>)
  else try_notify env event.

(** [process_udev_pending_events]. *)
Definition process_udev_pending_events (env : Env) : Mon () :=
  queue ← gets udev_pending_events;
  modify (upd_udev_pending_events (λ _, ∅));;
  for_each (retry_udev_pending env) (omap (queue !!.) (iter_keys env queue)).

(** One interface of [process_delay_queue]. *)
Definition emit_delayed (env : Env) (name : string) : Mon () :=
  entry ← gets (λ self, delay_queue self !! name);
  match entry with
  | None => mret ()
  | Some (event, _) =>
      modify (upd_delay_queue (delete name));;
      suppressed ← gets (λ self, event_is_explicitly_down event (explicitly_down self));
      if suppressed : bool then mret ()
      else
        previous ← gets (λ self, emited self !! le_iface_name event);
        if match previous with
           | Some previous_event => ll_is_up previous_event && le_is_up event
           | None => false
           end
        then mret ()
        else notify env event
  end.

(** The interfaces whose delay is over. *)
Definition delay_is_over (env : Env) (queue : gmap string (InterfaceLinkEvent * Z))
    (name : string) : bool :=
  match queue !! name with
  | Some (_, time) => time <? env_instant env
  | None => false
  end.

(** [process_delay_queue]. *)
Definition process_delay_queue (env : Env) : Mon () :=
  queue ← gets delay_queue;
  for_each (emit_delayed env)
    (filter (λ name, delay_is_over env queue name = true) (iter_keys env queue)).

(** *** Reconciliation *)

(** One interface of the query. *)
Definition reconcile_iface (env : Env) (state : gmap string Interface) (seen : gset string)
    (name : string) : Mon (gset string) :=
  match state !! name with
  | None => mret seen
  | Some iface =>
      observe_mac name (to_ascii_uppercase <$> bi_mac_address (base_iface iface));;
      wifi ← gets wifi_monitor_enabled;
      match link_event_from_iface env name iface wifi with
      | None => mret seen
      | Some event =>
          let seen := {[name]} ∪ seen in
          interested ← gets (λ self, event_is_interested self event);
          if negb interested then mret seen
          else
            previous ← gets (λ self, emited self !! name);
            if match previous with
               | Some previous => is_same_state previous event
               | None => false
               end
            then mret seen
            else try_notify env event;; mret seen
      end
  end.

(** One tracked interface of the second loop. *)
Definition reconcile_tracked (env : Env) (seen : gset string) (name : string) : Mon () :=
  if decide (name ∈ seen) then mret ()
  else
    last ← gets (λ self, emited self !! name);
    match last with
    | None => mret ()
    | Some last =>
        observe_mac name (ll_mac_address last);;
        let event := to_delete_event env last name in
        interested ← gets (λ self, event_is_interested self event);
        (if interested : bool then try_notify env event
         else
           modify (upd_emited (delete name));;
           modify (upd_wifi_phys_emited (.∖ {[name]})));;
        modify (upd_iface_mac (delete name))
    end.

(** The [async] block of [reconcile]. *)
Definition reconcile_state (env : Env) (state : gmap string Interface) : Mon () :=
  seen ← fold_mon (reconcile_iface env state) ∅ (iter_keys env state);
  tracked ← gets (λ self, iter_keys env (emited self));
  for_each (reconcile_tracked env seen) tracked.

(** [reconcile]. *)
Definition reconcile (w : World) : Mon () :=
  idle ← gets (λ self, negb (started self) || (0 <? manual_pause_count self) ||
                       bool_decide (netlink_handle self = None));
  if idle : bool then mret ()
  else
    state ← of_result (world_query w);
    modify (upd_collect_batch (λ _, Some (collect_batch_of [] false)));;
    result ← attempt (reconcile_state w state);
    batch ← gets collect_batch;
    modify (upd_collect_batch (λ _, None));;
    of_result result;;
    match batch with
    | Some batch => send_batch w batch
    | None => mret ()
    end.

(** *** Commands *)

(** Drop the pre-pause snapshot of the interfaces. *)
Definition forget_snapshot (ifaces : list string) (self : Monitor) : Monitor :=
  upd_paused_state (λ p, (λ paused, foldl (λ s i, delete i s) paused ifaces) <$> p) self.

(** [process_cmd]. *)
Definition process_cmd (w : World) (cmd : NipartMonitorCmd) : Mon () :=
  let resume_if_needed : Mon () :=
    start ← gets should_start_netlink; when_ start (resume w) in
  let pause_if_idle : Mon () :=
    idle ← gets should_pause; when_ idle (modify pause) in
  match cmd with
  | SetCommanderSender => modify (upd_msg_to_commander (λ _, true))
  | AddIface iface =>
      modify (upd_iface_monitor_list ({[iface]} ∪.));; resume_if_needed
  | DelIface iface =>
      modify (upd_iface_monitor_list (.∖ {[iface]}));; pause_if_idle
  | AddMacWatch mac =>
      modify (upd_mac_watch_list ({[to_ascii_uppercase mac]} ∪.));; resume_if_needed
  | DelMacWatch mac =>
      modify (upd_mac_watch_list (.∖ {[to_ascii_uppercase mac]}));; pause_if_idle
  | EnableWifiMonitor => modify (upd_wifi_monitor_enabled (λ _, true));; resume_if_needed
  | DisableWifiMonitor => modify (upd_wifi_monitor_enabled (λ _, false));; pause_if_idle
  | Start =>
      was_started ← gets started;
      if was_started : bool then mret ()
      else
        modify (upd_started (λ _, true));;
        resumes ← gets should_resume;
        (if resumes : bool then start_and_dump w else send_batch w (collect_batch_of [] true));;
        modify (upd_next_reconcile (λ _, env_instant w + reconcile_interval w))
  | Pause =>
      modify (upd_manual_pause_count (λ c, Z.min u32_max (c + 1)));; modify pause
  | Resume =>
      modify (upd_manual_pause_count (λ c, Z.max 0 (c - 1)));;
      ready ← gets (λ self, (manual_pause_count self =? 0) && should_resume self &&
                            should_start_netlink self);
      when_ ready (resume w)
  | MarkExplicitlyDown names => modify (upd_explicitly_down (.∪ list_to_set names))
  | ClearExplicitlyDown names => modify (upd_explicitly_down (.∖ list_to_set names))
  | ForgetPausedState ifaces =>
      modify (forget_snapshot ifaces);;
      modify (upd_emited (λ e, foldl (λ s i, delete i s) e ifaces))
  | ForgetEmitted ifaces =>
      modify (forget_snapshot ifaces);;
      modify (upd_emited (λ e, foldl (λ s i, delete i s) e ifaces));;
      modify (upd_wifi_phys_emited (.∖ list_to_set ifaces))
  end.

(** [process_rtnl_message]. *)
Definition process_rtnl_message (env : Env) (msg : RouteNetlinkMessage) : Mon () :=
  wifi ← gets wifi_monitor_enabled;
  match parse_route_netlink_msg env msg wifi with
  | None => mret ()
  | Some (event, mac) => observe_mac (le_iface_name event) mac;; try_notify env event
  end.

(** ** The main loop *)

(** The tick branch: every part runs, an error is only logged. *)
Definition on_tick (w : World) (self : Monitor) : Monitor :=
  let self := (process_udev_pending_events w self).2 in
  let self := (process_delay_queue w self).2 in
  if next_reconcile self <=? env_instant w then
    upd_next_reconcile (λ _, env_instant w + reconcile_interval w) (reconcile w self).2
  else self.

(** The delay until the next tick. *)
Definition ticker_reset (env : Env) (self : Monitor) : Z :=
  let reset :=
    from_secs (if bool_decide (delay_queue self = ∅) && bool_decide (udev_pending_events self = ∅)
               then DELAY_TICK_SEC_IF_FREE else DELAY_TICK_SEC_IF_BUSY) in
  let reset :=
    if started self && (manual_pause_count self =? 0) &&
       negb (bool_decide (netlink_handle self = None))
    then Z.min reset (Z.max 0 (next_reconcile self - env_instant env)) else reset in
  Z.max reset 1000000.

(** What wakes the loop up. *)
Inductive LoopEvent : Type :=
| GotCmd (cmd : NipartMonitorCmd)
| GotNetlink (msg : RouteNetlinkMessage)
| NetlinkClosed
| Tick.

Definition loop_branch (w : World) (ev : LoopEvent) (self : Monitor) : Monitor :=
  match ev with
  | GotCmd cmd => (process_cmd w cmd self).2
  | GotNetlink msg => (process_rtnl_message w msg self).2
  | NetlinkClosed => self
  | Tick => on_tick w self
  end.

(** One iteration of [run]: the receiver is taken out of the worker while the
    branches are polled; without one only commands wake the loop. *)
Definition loop_iteration (w : World) (ev : LoopEvent) (self : Monitor) : option Monitor :=
  match netlink_msg_receiver self with
  | Some receiver =>
      let self := loop_branch w ev (upd_netlink_msg_receiver (λ _, None) self) in
      Some (if manual_pause_count self =? 0
            then upd_netlink_msg_receiver (λ _, Some receiver) self else self)
  | None =>
      match ev with
      | GotCmd cmd => Some (process_cmd w cmd self).2
      | _ => None
      end
  end.

(** A run of the loop. *)
Inductive run : Monitor → list (World * LoopEvent) → Monitor → Prop :=
| run_nil m : run m [] m
| run_cons m w ev m' l m'' :
    loop_iteration w ev m = Some m' → run m' l m'' → run m ((w, ev) :: l) m''.
