(* ===== verification/MonitorSpec.v ===== *)
(** * MonitorSpec: the monitor as one tracker per interface

    The specification of the monitor worker of Monitor.v.  [Track] is what the
    worker keeps of one interface; [track_step] is the contract of the debounce
    for one interface, as a labelled transition system that says when an event
    may be reported, held back, dropped or suppressed.  The refinement theorem
    states that every run of the worker, looked at from one interface, is a run
    of that system with exactly the events sent about the interface as its
    labels: interfaces do not influence each other. *)

From S2P Require Export Monitor.

#[local] Open Scope Z_scope.

(** ** What was reported *)

Definition events_of (cmd : NipartManagerCmd) : list InterfaceLinkEvent :=
  match cmd with
  | LinkEvent e => [e]
  | LinkEvents es _ => es
  | GatewayChanged | DhcpV4LeaseApplied _ => []
  end.

Definition batched (m : Monitor) : list InterfaceLinkEvent :=
  match collect_batch m with Some b => cb_events b | None => [] end.

(** Every event reported so far, in order: those in the channel, then those of
    the batch being collected. *)
Definition reported (m : Monitor) : list InterfaceLinkEvent :=
  (sent m ≫= events_of) ++ batched m.

Definition about (n : string) (l : list InterfaceLinkEvent) : list InterfaceLinkEvent :=
  filter (λ e, le_iface_name e = n) l.

(** ** One interface *)

Record Track : Type := track {
  tr_last : option LastLinkEvent;
  tr_known_phy : bool;
  tr_held : option (InterfaceLinkEvent * Z);
  tr_pending : option InterfaceLinkEvent;
}.

Definition project (n : string) (m : Monitor) : Track :=
  track (emited m !! n) (bool_decide (n ∈ wifi_phys_emited m)) (delay_queue m !! n)
    (udev_pending_events m !! n).

(** The last known state is too old to debounce against. *)
Definition expired (env : Env) (last : LastLinkEvent) : bool :=
  match elapsed env (ll_time_stamp last) with
  | Some d => from_secs EVENT_EXPIRE_TIME_SEC <? d
  | None => false
  end.

(** An event that is reported without being held back. *)
Definition immediate (env : Env) (last : option LastLinkEvent) (e : InterfaceLinkEvent) : Prop :=
  match last with
  | None => True
  | Some l => expired env l = true ∨ (ll_is_up l = false ∧ le_is_up e = true)
  end.

(** [e] as it is reported: the first event of a wifi-phy is marked. *)
Definition marked (t : Track) (e e' : InterfaceLinkEvent) : Prop :=
  e' = e ∨ (tr_known_phy t = false ∧ le_iface_type e = TWifiPhy ∧
            e' = set_is_new_wifi_phy true e).

(** The contract of the debounce for the interface [n], at the clocks of [env]
    and with the names [down] explicitly brought down.  The label is the event
    reported, if one is. *)
Inductive track_step (env : Env) (down : gset string) (n : string) :
    Track → option InterfaceLinkEvent → Track → Prop :=
| step_report t e e' mac :
    le_iface_name e = n → le_is_delete e = false →
    event_is_explicitly_down e down = false →
    immediate env (tr_last t) e → marked t e e' →
    track_step env down n t (Some e')
      (track (Some (from_event e' mac)) (tr_known_phy t || le_is_new_wifi_phy e')
         None (tr_pending t))
| step_report_held t e e' deadline mac :
    le_iface_name e = n → le_is_delete e = false →
    event_is_explicitly_down e down = false →
    tr_held t = Some (e, deadline) → deadline < env_instant env → marked t e e' →
    track_step env down n t (Some e')
      (track (Some (from_event e' mac)) (tr_known_phy t || le_is_new_wifi_phy e')
         None (tr_pending t))
| step_report_delete t e :
    le_iface_name e = n → le_is_delete e = true →
    event_is_explicitly_down e down = false →
    track_step env down n t (Some e) (track None false None None)
| step_hold t e last mac :
    le_iface_name e = n → le_is_delete e = false →
    event_is_explicitly_down e down = false →
    tr_last t = Some last → ¬ immediate env (tr_last t) e →
    track_step env down n t None
      (track (if negb (le_is_up e) && ll_is_up last then Some (from_event e mac) else Some last)
         (tr_known_phy t) (Some (e, env_instant env + from_secs DOWN_WAIT_SEC)) (tr_pending t))
| step_discard t e deadline :
    tr_held t = Some (e, deadline) → deadline < env_instant env →
    event_is_explicitly_down e down = true ∨
      (le_is_up e = true ∧ (ll_is_up <$> tr_last t) = Some true) →
    track_step env down n t None (track (tr_last t) (tr_known_phy t) None (tr_pending t))
| step_suppress t e mac :
    le_iface_name e = n → le_is_delete e = false →
    event_is_explicitly_down e down = true →
    track_step env down n t None
      (track (Some (from_event e mac)) (tr_known_phy t) (tr_held t) (tr_pending t))
| step_forget t known :
    (known = true → tr_known_phy t = true) →
    track_step env down n t None (track None known (tr_held t) (tr_pending t))
| step_defer t e :
    le_iface_name e = n → le_is_delete e = false →
    env_udev_initialized env (le_iface_index e) = false →
    track_step env down n t None (track (tr_last t) (tr_known_phy t) (tr_held t) (Some e))
| step_retry t :
    track_step env down n t None (track (tr_last t) (tr_known_phy t) (tr_held t) None).

(** Finitely many steps and the events they report. *)
Inductive track_steps (env : Env) (down : gset string) (n : string) :
    Track → list InterfaceLinkEvent → Track → Prop :=
| steps_refl t : track_steps env down n t [] t
| steps_cons t o t' l t'' :
    track_step env down n t o t' → track_steps env down n t' l t'' →
    track_steps env down n t (option_list o ++ l) t''.

(** The steps of a run: the clocks and the names brought down change from one
    iteration of the loop to the next. *)
Inductive track_run (n : string) :
    Track → list (Env * gset string) → list InterfaceLinkEvent → Track → Prop :=
| track_run_nil t : track_run n t [] [] t
| track_run_cons t env down l t' cfgs l' t'' :
    track_steps env down n t l t' → track_run n t' cfgs l' t'' →
    track_run n t ((env, down) :: cfgs) (l ++ l') t''.

Lemma track_steps_one env down n t o t' :
  track_step env down n t o t' → track_steps env down n t (option_list o) t'.
Proof. intros H. rewrite <- (app_nil_r (option_list o)). by econstructor; [|constructor]. Qed.

Lemma track_steps_trans env down n t l t' l' t'' :
  track_steps env down n t l t' → track_steps env down n t' l' t'' →
  track_steps env down n t (l ++ l') t''.
Proof.
  induction 1 as [|t o t1 l1 t2 Hs _ IH]; intros H'; [done|].
  rewrite <- app_assoc. econstructor; [done|]. by apply IH.
Qed.

Lemma about_app n l k : about n (l ++ k) = about n l ++ about n k.
Proof. apply filter_app. Qed.

(** ** A logic of handlers *)

(** The other end of the channel is there. *)
Definition connected (env : Env) (m : Monitor) : Prop :=
  env_channel_open env = true ∧ msg_to_commander m = true.

Section Logic.
Context (env : Env) (R : Monitor → Monitor → Prop) `{!PreOrder R}.

(** Started in [m] while the commander listens, [x] succeeds and takes [m] to a state
    that [R] relates to it. *)
Definition goes {A} (x : Mon A) (m : Monitor) : Prop :=
  connected env m → ∃ a m', x m = (Ok a, m') ∧ connected env m' ∧ R m m'.

Lemma goes_ret {A} (a : A) m : goes (mret a) m.
Proof. intros Hc. exists a, m. by split. Qed.

Lemma goes_bind {A B} (x : Mon A) (k : A → Mon B) m :
  goes x m → (∀ a m', x m = (Ok a, m') → R m m' → goes (k a) m') → goes (x ≫= k) m.
Proof.
  intros Hx Hk Hc. destruct (Hx Hc) as (a & m1 & E & Hc1 & HR).
  destruct (Hk a m1 E HR Hc1) as (b & m2 & E2 & Hc2 & HR2).
  exists b, m2. split; [|split; [done|by etransitivity]].
  unfold mbind, Mon_bind. by rewrite E.
Qed.

Lemma goes_seq {A B} (x : Mon A) (y : Mon B) m :
  goes x m → (∀ m', goes y m') → goes (x;; y) m.
Proof. intros Hx Hy. apply goes_bind; auto. Qed.

Lemma goes_gets {A B} (f : Monitor → A) (k : A → Mon B) m :
  goes (k (f m)) m → goes (gets f ≫= k) m.
Proof. done. Qed.

Lemma goes_modify f m :
  msg_to_commander (f m) = msg_to_commander m → R m (f m) → goes (modify f) m.
Proof. intros Hf HR [Ho Hm]. exists (), (f m). split_and!; [done|split; congruence|done]. Qed.

Lemma goes_modify_bind {B} f (y : Mon B) m :
  msg_to_commander (f m) = msg_to_commander m → R m (f m) → goes y (f m) →
  goes (modify f;; y) m.
Proof.
  intros Hf HR Hy. apply goes_bind; [by apply goes_modify|].
  by intros ? ? [= <- <-] _.
Qed.

Lemma goes_for_each {A} (f : A → Mon ()) l :
  (∀ x m, x ∈ l → goes (f x) m) → ∀ m, goes (for_each f l) m.
Proof.
  induction l as [|x l IH]; intros Hf m; [apply goes_ret|].
  apply goes_seq; [apply Hf; set_solver|]. intros m'. apply IH. intros. apply Hf. set_solver.
Qed.

Lemma goes_fold {A B} (f : B → A → Mon B) l :
  (∀ b x m, x ∈ l → goes (f b x) m) → ∀ b m, goes (fold_mon f b l) m.
Proof.
  induction l as [|x l IH]; intros Hf b m; [apply goes_ret|].
  apply goes_bind; [apply Hf; set_solver|]. intros b' m' _ _. apply IH.
  intros. apply Hf. set_solver.
Qed.
End Logic.

(** The same for a handler that may fail: its changes stay. *)
Definition ends {A} (env : Env) (R : Monitor → Monitor → Prop) (x : Mon A) (m : Monitor) : Prop :=
  connected env m → connected env (x m).2 ∧ R m (x m).2.

Lemma ends_goes {A} env R (x : Mon A) m : goes env R x m → ends env R x m.
Proof. intros Hg Hc. destruct (Hg Hc) as (a & m' & -> & ? & ?). done. Qed.

Lemma ends_bind {A B} env R `{!PreOrder R} (x : Mon A) (k : A → Mon B) m :
  ends env R x m → (∀ a m', x m = (Ok a, m') → ends env R (k a) m') → ends env R (x ≫= k) m.
Proof.
  intros Hx Hk Hc. destruct (Hx Hc) as [Hc1 HR]. unfold mbind, Mon_bind.
  destruct (x m) as [[a|er] m1] eqn:E; [|done].
  destruct (Hk a m1 eq_refl Hc1) as [Hc2 HR2]. split; [done|by etransitivity].
Qed.

Lemma goes_exact env R (x : Mon ()) f m :
  (connected env m → x m = (Ok (), f m) ∧ connected env (f m)) → R m (f m) → goes env R x m.
Proof. intros Hx HR Hc. destruct (Hx Hc). by exists (), (f m). Qed.

Lemma gets_bind {A B} (f : Monitor → A) (k : A → Mon B) m : (gets f ≫= k) m = k (f m) m.
Proof. done. Qed.

Lemma modify_bind {B} f (y : Mon B) m : (modify f;; y) m = y (f m).
Proof. done. Qed.

Lemma of_result_bind {A B} (a : A) (k : A → Mon B) m : (of_result (Ok a) ≫= k) m = k a m.
Proof. done. Qed.

(** What a successful handler did, when it is known to succeed. *)
Lemma goes_run {A} env R (x : Mon A) m r m' :
  goes env R x m → connected env m → x m = (r, m') → connected env m' ∧ R m m'.
Proof.
  intros Hg Hc E. destruct (Hg Hc) as (a & m1 & E' & H1 & H2). rewrite E in E'.
  injection E' as -> ->. by split.
Qed.

(** ** Handlers leave the other interfaces alone *)

(** What is watched, brought down and open. *)
Definition config_of (m : Monitor) :=
  (iface_monitor_list m, mac_watch_list m, wifi_monitor_enabled m, explicitly_down m,
   (started m, manual_pause_count m, netlink_handle m, next_reconcile m)).

(** [m'] differs from [m] in nothing that concerns the interface [n]. *)
Record frame (n : string) (m m' : Monitor) : Prop := {
  frame_project : project n m' = project n m;
  frame_reported : about n (reported m') = about n (reported m);
  frame_mac : iface_mac m' !! n = iface_mac m !! n;
  frame_config : config_of m' = config_of m;
  frame_batch : is_Some (collect_batch m') ↔ is_Some (collect_batch m);
}.

#[export] Instance frame_preorder n : PreOrder (frame n).
Proof.
  split.
  - intros m. by split.
  - intros m1 m2 m3 [] []. split; try congruence. etransitivity; eassumption.
Qed.

Lemma announced_name m e : le_iface_name (announced m e) = le_iface_name e.
Proof. unfold announced. by repeat case_match. Qed.

Lemma announced_delete m e : le_is_delete (announced m e) = le_is_delete e.
Proof. unfold announced. by repeat case_match. Qed.

Lemma announced_up m e : le_is_up (announced m e) = le_is_up e.
Proof. unfold announced. by repeat case_match. Qed.

Lemma about_other n e : le_iface_name e ≠ n → about n [e] = [].
Proof. intros He. unfold about. by rewrite filter_cons_False. Qed.

Lemma about_same n e : le_iface_name e = n → about n [e] = [e].
Proof. intros He. unfold about. by rewrite filter_cons_True. Qed.

Lemma about_all n l : Forall (λ e, le_iface_name e = n) l → about n l = l.
Proof. induction 1; [done|]. unfold about in *. rewrite filter_cons_True; congruence. Qed.

(** The state after the event [e'] was put in the batch or in the channel. *)
Definition pushed (e : InterfaceLinkEvent) (m : Monitor) : Monitor :=
  match collect_batch m with
  | Some b => upd_collect_batch (λ _,
      Some (collect_batch_of (cb_events b ++ [e]) (cb_boot b))) m
  | None => upd_sent (λ l, l ++ [LinkEvent e]) m
  end.

(** The state [notify] leaves. *)
Definition notified (e : InterfaceLinkEvent) (m : Monitor) : Monitor :=
  let name := le_iface_name e in
  let e' := announced m e in
  pushed e'
    (if le_is_delete e then
       upd_wifi_phys_emited (.∖ {[name]}) (upd_emited (delete name)
         (upd_delay_queue (delete name) (upd_wifi_phys_emited (.∖ {[name]}) m)))
     else
       let m := upd_delay_queue (delete name) m in
       let m := if le_is_new_wifi_phy e' then upd_wifi_phys_emited ({[name]} ∪.) m else m in
       upd_emited <[name := last_link_event m e']> m).

Lemma notify_run env e m :
  connected env m → notify env e m = (Ok (), notified e m) ∧ connected env (notified e m).
Proof.
  intros [Ho Hm]. pose proof (announced_delete m e) as Hd.
  unfold notify, notified, pushed, send_cmd, mbind, Mon_bind, gets, modify, mret, Mon_ret.
  destruct (le_is_delete e); rewrite Hd; simpl; rewrite ?Hd;
    [|destruct (le_is_new_wifi_phy (announced m e))]; simpl;
    destruct (collect_batch m) as [b|]; simpl; rewrite ?Hm, ?Ho; by split.
Qed.

Lemma reported_pushed e m : reported (pushed e m) = reported m ++ [e].
Proof.
  unfold reported, pushed, batched. destruct (collect_batch m) as [b|] eqn:Hb; cbn.
  - by rewrite app_assoc.
  - rewrite Hb, !app_nil_r, bind_app. done.
Qed.

(** Everything but the batch and the channel. *)
Lemma pushed_other e m :
  project (le_iface_name e) (pushed e m) = project (le_iface_name e) m.
Proof. unfold pushed. by destruct (collect_batch m). Qed.

Lemma frame_pushed n e m : le_iface_name e ≠ n → frame n m (pushed e m).
Proof.
  intros He. split; try by (unfold pushed; destruct (collect_batch m)).
  - by rewrite reported_pushed, about_app, about_other, app_nil_r.
  - unfold pushed. destruct (collect_batch m) eqn:Hb; simpl; rewrite ?Hb; [|done].
    split; intros _; eauto.
Qed.

(** An update that is local to the interface [k]. *)
Ltac frame_local :=
  split; try reflexivity; unfold project; simpl;
  rewrite ?lookup_insert_ne, ?lookup_delete_ne by done;
  first [reflexivity | f_equal; apply bool_decide_ext; set_solver].

Lemma frame_phys_del n k m : k ≠ n → frame n m (upd_wifi_phys_emited (.∖ {[k]}) m).
Proof. intros. frame_local. Qed.
Lemma frame_phys_add n k m : k ≠ n → frame n m (upd_wifi_phys_emited ({[k]} ∪.) m).
Proof. intros. frame_local. Qed.
Lemma frame_queue_del n k m : k ≠ n → frame n m (upd_delay_queue (delete k) m).
Proof. intros. frame_local. Qed.
Lemma frame_queue_add n k v m : k ≠ n → frame n m (upd_delay_queue <[k := v]> m).
Proof. intros. frame_local. Qed.
Lemma frame_emited_del n k m : k ≠ n → frame n m (upd_emited (delete k) m).
Proof. intros. frame_local. Qed.
Lemma frame_emited_add n k v m : k ≠ n → frame n m (upd_emited <[k := v]> m).
Proof. intros. frame_local. Qed.
Lemma frame_pending_del n k m : k ≠ n → frame n m (upd_udev_pending_events (delete k) m).
Proof. intros. frame_local. Qed.
Lemma frame_pending_add n k v m :
  k ≠ n → frame n m (upd_udev_pending_events <[k := v]> m).
Proof. intros. frame_local. Qed.
Lemma frame_mac_del n k m : k ≠ n → frame n m (upd_iface_mac (delete k) m).
Proof. intros. frame_local. Qed.
Lemma frame_mac_add n k v m : k ≠ n → frame n m (upd_iface_mac <[k := v]> m).
Proof. intros. frame_local. Qed.

Create HintDb monitor discriminated.
#[export] Hint Resolve frame_pushed frame_phys_del frame_phys_add frame_queue_del
  frame_queue_add frame_emited_del frame_emited_add frame_pending_del frame_pending_add
  frame_mac_del frame_mac_add : monitor.

(** Peel the updates off the state on the right. *)
Ltac frame_peel :=
  repeat match goal with
    | |- frame _ ?m ?m => reflexivity
    | |- frame _ _ _ => etransitivity; [|solve [eauto 3 with monitor nocore]]
    end.

Lemma frame_notified n e m : le_iface_name e ≠ n → frame n m (notified e m).
Proof.
  intros He. unfold notified. etransitivity.
  2: { apply frame_pushed. by rewrite announced_name. }
  destruct (le_is_delete e); [|destruct (le_is_new_wifi_phy (announced m e))];
    frame_peel.
Qed.
#[export] Hint Resolve frame_notified : monitor.

(** The states [debounce] and [try_notify] leave. *)
Definition debounced (env : Env) (e : InterfaceLinkEvent) (m : Monitor) : Monitor :=
  let name := le_iface_name e in
  if le_is_delete e then notified e m
  else
    match emited m !! name with
    | None => notified e m
    | Some l =>
        if expired env l then notified e m
        else if negb (ll_is_up l) && le_is_up e then notified e m
        else
          upd_delay_queue <[name := (e, env_instant env + from_secs DOWN_WAIT_SEC)]>
            (if negb (le_is_up e) && ll_is_up l
             then upd_emited <[name := last_link_event m e]> m else m)
    end.

Definition suppressed (e : InterfaceLinkEvent) (m : Monitor) : Monitor :=
  let name := le_iface_name e in
  if le_is_delete e then
    upd_wifi_phys_emited (.∖ {[name]}) (upd_emited (delete name) m)
  else upd_emited <[name := last_link_event m e]> m.

Definition tried (env : Env) (e : InterfaceLinkEvent) (m : Monitor) : Monitor :=
  let name := le_iface_name e in
  if event_is_explicitly_down e (explicitly_down m) then suppressed e m
  else if negb (event_is_interested m e) then m
  else if le_is_delete e then notified e (upd_udev_pending_events (delete name) m)
  else if env_udev_initialized env (le_iface_index e) then debounced env e m
  else upd_udev_pending_events <[name := e]> m.

Lemma debounce_run env e m :
  connected env m →
  debounce env e m = (Ok (), debounced env e m) ∧ connected env (debounced env e m).
Proof.
  intros Hc. unfold debounce, debounced. destruct (le_is_delete e); [by apply notify_run|].
  rewrite gets_bind. destruct (emited m !! le_iface_name e) as [l|]; [|by apply notify_run].
  fold (expired env l). destruct (expired env l); [by apply notify_run|].
  destruct (negb (ll_is_up l) && le_is_up e); [by apply notify_run|].
  by destruct (negb (le_is_up e) && ll_is_up l).
Qed.

Lemma try_notify_run env e m :
  connected env m →
  try_notify env e m = (Ok (), tried env e m) ∧ connected env (tried env e m).
Proof.
  intros Hc. unfold try_notify, tried, record_suppressed, suppressed. rewrite gets_bind.
  destruct (event_is_explicitly_down e (explicitly_down m)); [by destruct (le_is_delete e)|].
  rewrite gets_bind. destruct (negb (event_is_interested m e)); [done|].
  destruct (le_is_delete e) eqn:Hd; simpl.
  - rewrite modify_bind. unfold debounce. rewrite Hd. by apply notify_run.
  - destruct (env_udev_initialized env (le_iface_index e)); simpl; [|done].
    by apply debounce_run.
Qed.

Lemma frame_debounced n env e m : le_iface_name e ≠ n → frame n m (debounced env e m).
Proof.
  intros He. unfold debounced. repeat case_match; frame_peel.
Qed.
#[export] Hint Resolve frame_debounced : monitor.

Lemma frame_tried n env e m : le_iface_name e ≠ n → frame n m (tried env e m).
Proof.
  intros He. unfold tried, suppressed. repeat case_match; frame_peel.
Qed.
#[export] Hint Resolve frame_tried : monitor.

(** ** The refinement *)

(** Queued events are filed under their interface and are no delete events. *)
Definition keyed (m : Monitor) : Prop :=
  (∀ k e t, delay_queue m !! k = Some (e, t) → le_iface_name e = k ∧ le_is_delete e = false) ∧
  (∀ k e, udev_pending_events m !! k = Some e → le_iface_name e = k ∧ le_is_delete e = false).

(** The states [emit_delayed] and [retry_udev_pending] leave. *)
Definition emitted_late (env : Env) (k : string) (m : Monitor) : Monitor :=
  match delay_queue m !! k with
  | None => m
  | Some (e, _) =>
      let m1 := upd_delay_queue (delete k) m in
      if event_is_explicitly_down e (explicitly_down m) then m1
      else if match emited m !! le_iface_name e with
              | Some l => ll_is_up l && le_is_up e
              | None => false
              end
      then m1 else notified e m1
  end.

Definition retried (env : Env) (e : InterfaceLinkEvent) (m : Monitor) : Monitor :=
  if env_udev_initialized env (le_iface_index e) then tried env e m
  else upd_udev_pending_events <[le_iface_name e := e]> m.

Lemma emit_delayed_run env k m :
  connected env m →
  emit_delayed env k m = (Ok (), emitted_late env k m) ∧ connected env (emitted_late env k m).
Proof.
  intros Hc. unfold emit_delayed, emitted_late. rewrite gets_bind.
  destruct (delay_queue m !! k) as [[e t]|]; [|done].
  rewrite modify_bind, gets_bind. simpl.
  destruct (event_is_explicitly_down e (explicitly_down m)); [done|].
  rewrite gets_bind. simpl.
  destruct (match emited m !! le_iface_name e with Some _ => _ | None => _ end); [done|].
  by apply notify_run.
Qed.

Lemma retry_run env e m :
  connected env m →
  retry_udev_pending env e m = (Ok (), retried env e m) ∧ connected env (retried env e m).
Proof.
  intros Hc. unfold retry_udev_pending, retried.
  destruct (env_udev_initialized env (le_iface_index e)); [by apply try_notify_run|done].
Qed.

Lemma keyed_notified e m : keyed m → keyed (notified e m).
Proof.
  intros [Hq Hp]. unfold notified, pushed.
  split; repeat case_match; simpl in *; intros k ? ?; rewrite ?lookup_delete_Some;
    naive_solver.
Qed.

Lemma keyed_debounced env e m : le_is_delete e = false → keyed m → keyed (debounced env e m).
Proof.
  intros He Hk. unfold debounced. rewrite He.
  repeat case_match; try by apply keyed_notified.
  all: destruct Hk as [Hq Hp]; split; simpl; [|done].
  all: intros k ? ? [[<- [= <- <-]]|[_ ?]]%lookup_insert_Some; eauto.
Qed.

Lemma keyed_tried env e m : keyed m → keyed (tried env e m).
Proof.
  intros Hk. unfold tried, suppressed. destruct (event_is_explicitly_down _ _).
  { by destruct (le_is_delete e). }
  destruct (negb _); [done|]. destruct (le_is_delete e) eqn:He.
  - apply keyed_notified. destruct Hk as [Hq Hp]. split; [done|]. simpl.
    intros k ? [_ ?]%lookup_delete_Some. eauto.
  - destruct (env_udev_initialized _ _); [by apply keyed_debounced|].
    destruct Hk as [Hq Hp]. split; [done|]. simpl.
    intros k ? [[<- [= <-]]|[_ ?]]%lookup_insert_Some; eauto.
Qed.

Lemma keyed_emitted_late env k m : keyed m → keyed (emitted_late env k m).
Proof.
  intros Hk. unfold emitted_late. destruct (delay_queue m !! k) as [[e t]|]; [|done].
  assert (keyed (upd_delay_queue (delete k) m)).
  { destruct Hk as [Hq Hp]. split; [|done]. simpl.
    intros k' ? ? [_ ?]%lookup_delete_Some. eauto. }
  repeat case_match; auto using keyed_notified.
Qed.

Lemma keyed_retried env e m : le_is_delete e = false → keyed m → keyed (retried env e m).
Proof.
  intros He Hk. unfold retried. destruct (env_udev_initialized _ _); [by apply keyed_tried|].
  destruct Hk as [Hq Hp]. split; [done|]. simpl.
  intros k ? [[<- [= <-]]|[_ ?]]%lookup_insert_Some; eauto.
Qed.

(** From a state with the invariant [I], [m'] is reached by steps of the tracker of
    [n] that report what the monitor reports about [n], and keeps [I]. *)
Definition sim (env : Env) (n : string) (I : Monitor → Prop) (m m' : Monitor) : Prop :=
  I m → I m' ∧ explicitly_down m' = explicitly_down m ∧
  (is_Some (collect_batch m') ↔ is_Some (collect_batch m)) ∧
  ∃ l, track_steps env (explicitly_down m) n (project n m) l (project n m') ∧
       about n (reported m') = about n (reported m) ++ l.

#[export] Instance sim_preorder env n I : PreOrder (sim env n I).
Proof.
  split.
  - intros m HI. split_and!; [done..|]. exists []. rewrite app_nil_r. split; [constructor|done].
  - intros m1 m2 m3 H1 H2 HI.
    destruct (H1 HI) as (HI2 & Hd2 & Hb2 & l & Hl & Hr).
    destruct (H2 HI2) as (HI3 & Hd3 & Hb3 & l' & Hl' & Hr').
    split_and!; [done|congruence|by etransitivity|]. exists (l ++ l'). split.
    + eapply track_steps_trans; [done|]. by rewrite <- Hd2.
    + by rewrite Hr', Hr, app_assoc.
Qed.

Lemma sim_frame env n (I : Monitor → Prop) m m' :
  (I m → I m') → frame n m m' → sim env n I m m'.
Proof.
  intros HI [] Hm. split_and!; [auto|unfold config_of in *; congruence|done|]. exists []. rewrite app_nil_r.
  split; [|done]. rewrite frame_project0. constructor.
Qed.

(** One step of the tracker. *)
Lemma sim_step env n (I : Monitor → Prop) m m' o :
  (I m → I m') → explicitly_down m' = explicitly_down m →
  (is_Some (collect_batch m') ↔ is_Some (collect_batch m)) →
  (I m → track_step env (explicitly_down m) n (project n m) o (project n m')) →
  about n (reported m') = about n (reported m) ++ option_list o →
  sim env n I m m'.
Proof.
  intros HI Hd Hb Hs Hr Hm. split_and!; [auto|done|done|].
  exists (option_list o). split; [|done]. by apply track_steps_one, Hs.
Qed.

Lemma sim_intro env n (I : Monitor → Prop) m m' :
  (I m → sim env n I m m') → sim env n I m m'.
Proof. intros H HI. exact (H HI HI). Qed.

(** One step that reports nothing. *)
Lemma sim_tau env n (I : Monitor → Prop) m m' :
  (I m → I m') → explicitly_down m' = explicitly_down m →
  collect_batch m' = collect_batch m → reported m' = reported m →
  (I m → track_step env (explicitly_down m) n (project n m) None (project n m')) →
  sim env n I m m'.
Proof.
  intros HI Hd Hb Hr Hs. eapply sim_step; [done|done|by rewrite Hb|done|].
  rewrite Hr. symmetry. apply app_nil_r.
Qed.

Lemma marked_announced e m : marked (project (le_iface_name e) m) e (announced m e).
Proof.
  unfold announced, marked. destruct (le_is_delete e); [by left|].
  destruct (wifi_monitor_enabled m); [|by left]. simpl.
  destruct (decide (le_iface_type e = TWifiPhy)) as [Ht|];
    [rewrite bool_decide_true by done|rewrite bool_decide_false by done; by left].
  destruct (decide (le_iface_name e ∈ wifi_phys_emited m)) as [Hin|Hin]; simpl.
  - rewrite (bool_decide_false (_ ∉ _)) by tauto. by left.
  - rewrite (bool_decide_true (_ ∉ _)) by done. right. by rewrite bool_decide_false.
Qed.

Lemma project_notified e m :
  let n := le_iface_name e in
  project n (notified e m) =
    if le_is_delete e then track None false None (udev_pending_events m !! n)
    else track (Some (from_event (announced m e) (iface_mac m !! n)))
           (bool_decide (n ∈ wifi_phys_emited m) || le_is_new_wifi_phy (announced m e))
           None (udev_pending_events m !! n).
Proof.
  cbn zeta. unfold notified. rewrite <- (announced_name m e) at 1.
  rewrite pushed_other, announced_name. unfold project.
  destruct (le_is_delete e); simpl.
  - rewrite !lookup_delete_eq. f_equal. apply bool_decide_false. set_solver.
  - destruct (le_is_new_wifi_phy (announced m e)); simpl;
      rewrite lookup_insert_eq, lookup_delete_eq; unfold last_link_event; simpl;
      rewrite announced_name; f_equal.
    + rewrite orb_true_r. apply bool_decide_true. set_solver.
    + by rewrite orb_false_r.
Qed.

Lemma notified_down e m : explicitly_down (notified e m) = explicitly_down m.
Proof. unfold notified, pushed. by repeat case_match. Qed.

Lemma notified_batch e m :
  is_Some (collect_batch (notified e m)) ↔ is_Some (collect_batch m).
Proof.
  unfold notified, pushed.
  destruct (le_is_delete e); [|destruct (le_is_new_wifi_phy (announced m e))]; simpl;
    destruct (collect_batch m) eqn:Hb; simpl; rewrite ?Hb; try done;
    (split; intros _; eauto).
Qed.

Lemma reported_notified e m : reported (notified e m) = reported m ++ [announced m e].
Proof. unfold notified. rewrite reported_pushed. by repeat case_match. Qed.

Lemma about_notified e m :
  about (le_iface_name e) (reported (notified e m)) =
  about (le_iface_name e) (reported m) ++ [announced m e].
Proof.
  rewrite reported_notified, about_app. f_equal. apply about_same, announced_name.
Qed.

Lemma from_event_marked e m mac :
  le_is_delete e = false → from_event (announced m e) mac = from_event e mac.
Proof. intros He. unfold announced. rewrite He. by repeat case_match. Qed.

(** A report of an event the contract allows. *)
Lemma sim_notified env n (I : Monitor → Prop) e m :
  (I m → I (notified e m)) → le_is_delete e = false →
  event_is_explicitly_down e (explicitly_down m) = false →
  immediate env (emited m !! le_iface_name e) e ∨
    (∃ t, delay_queue m !! le_iface_name e = Some (e, t) ∧ t < env_instant env) →
  sim env n I m (notified e m).
Proof.
  intros HI He Hd Hg. destruct (decide (le_iface_name e = n)) as [<-|Hn].
  2: { apply sim_frame; [done|]. by apply frame_notified. }
  eapply (sim_step _ _ _ _ _ (Some (announced m e)));
    [done|apply notified_down|apply notified_batch| |apply about_notified].
  intros _. rewrite project_notified, He.
  destruct Hg as [Hi|(t & Hq & Ht)].
  - eapply step_report; try done. apply marked_announced.
  - eapply step_report_held; try done. apply marked_announced.
Qed.

Lemma sim_debounced env n (I : Monitor → Prop) e m :
  (I m → I (debounced env e m)) → le_is_delete e = false →
  event_is_explicitly_down e (explicitly_down m) = false →
  sim env n I m (debounced env e m).
Proof.
  intros HI He Hd. destruct (decide (le_iface_name e = n)) as [<-|Hn].
  2: { apply sim_frame; [done|]. by apply frame_debounced. }
  revert HI. unfold debounced. rewrite He.
  destruct (emited m !! le_iface_name e) as [l|] eqn:Hl; intros HI.
  2: { apply sim_notified; try done. left. by rewrite Hl. }
  destruct (expired env l) eqn:Hx.
  { apply sim_notified; try done. left. rewrite Hl. by left. }
  destruct (negb (ll_is_up l) && le_is_up e) eqn:Hup.
  { apply sim_notified; try done. left. rewrite Hl. right. by bool_hyps. }
  apply sim_tau; [done|by destruct (negb (le_is_up e) && ll_is_up l)..|].
  intros _. set (n := le_iface_name e).
  assert (project n (upd_delay_queue
      <[n := (e, env_instant env + from_secs DOWN_WAIT_SEC)]>
      (if negb (le_is_up e) && ll_is_up l
       then upd_emited <[n := last_link_event m e]> m else m)) =
    track (if negb (le_is_up e) && ll_is_up l
           then Some (from_event e (iface_mac m !! n)) else Some l)
      (tr_known_phy (project n m))
      (Some (e, env_instant env + from_secs DOWN_WAIT_SEC))
      (tr_pending (project n m))) as ->.
  { unfold project. destruct (negb (le_is_up e) && ll_is_up l); simpl;
      rewrite !lookup_insert_eq; [done|]. unfold n. by rewrite Hl. }
  eapply step_hold; try done. simpl. unfold n. rewrite Hl.
  intros [Hi|[Hi Hi']]; [congruence|]. by rewrite Hi, Hi' in Hup.
Qed.

Lemma sim_suppressed env n (I : Monitor → Prop) e m :
  (I m → I (suppressed e m)) → event_is_explicitly_down e (explicitly_down m) = true →
  sim env n I m (suppressed e m).
Proof.
  intros HI Hd. destruct (decide (le_iface_name e = n)) as [<-|Hn].
  2: { apply sim_frame; [done|]. unfold suppressed. destruct (le_is_delete e); frame_peel. }
  revert HI. unfold suppressed. destruct (le_is_delete e) eqn:He; intros HI.
  - apply sim_tau; [done..|].
    intros _. unfold project at 2. simpl. rewrite lookup_delete_eq, bool_decide_false by set_solver.
    by apply (step_forget _ _ _ (project _ m)).
  - apply sim_tau; [done..|].
    intros _. unfold project at 2. simpl. rewrite lookup_insert_eq.
    by apply (step_suppress _ _ _ (project _ m)).
Qed.

Lemma keyed_pending_del k m : keyed m → keyed (upd_udev_pending_events (delete k) m).
Proof.
  intros [Hq Hp]. split; [done|]. simpl. intros k' ? [_ ?]%lookup_delete_Some. eauto.
Qed.

Lemma sim_deferred env n e m :
  le_is_delete e = false → env_udev_initialized env (le_iface_index e) = false →
  sim env n keyed m (upd_udev_pending_events <[le_iface_name e := e]> m).
Proof.
  intros He Hu. assert (keyed m → keyed (upd_udev_pending_events <[le_iface_name e := e]> m)).
  { intros [Hq Hp]. split; [done|]. simpl.
    intros k ? [[<- [= <-]]|[_ ?]]%lookup_insert_Some; eauto. }
  destruct (decide (le_iface_name e = n)) as [<-|Hn].
  2: { apply sim_frame; [done|]. by apply frame_pending_add. }
  apply sim_tau; [done..|]. intros _. unfold project at 2. simpl. rewrite lookup_insert_eq.
  by apply (step_defer _ _ _ (project _ m)).
Qed.

Lemma sim_tried env n e m : sim env n keyed m (tried env e m).
Proof.
  pose proof (keyed_tried env e) as HI. unfold tried in *.
  destruct (event_is_explicitly_down e (explicitly_down m)) eqn:Hd.
  { apply sim_suppressed; [|done]. intros Hk. specialize (HI m Hk). by rewrite Hd in HI. }
  destruct (negb (event_is_interested m e)); [reflexivity|].
  destruct (le_is_delete e) eqn:He.
  - destruct (decide (le_iface_name e = n)) as [<-|Hn].
    2: { apply sim_frame; [intros; by apply keyed_notified, keyed_pending_del|frame_peel]. }
    eapply (sim_step _ _ _ _ _ (Some e)).
    + intros. by apply keyed_notified, keyed_pending_del.
    + by rewrite notified_down.
    + by rewrite notified_batch.
    + intros _. rewrite project_notified, He. simpl. rewrite lookup_delete_eq.
      by apply step_report_delete.
    + rewrite about_notified. unfold announced. by rewrite He.
  - destruct (env_udev_initialized env (le_iface_index e)) eqn:Hu.
    + apply sim_debounced; [by apply keyed_debounced|done|done].
    + by apply sim_deferred.
Qed.

Lemma sim_retried env n e m :
  le_is_delete e = false → sim env n keyed m (retried env e m).
Proof.
  intros He. unfold retried. destruct (env_udev_initialized env (le_iface_index e)) eqn:Hu;
    [apply sim_tried|by apply sim_deferred].
Qed.

(** While the delay queue is worked off, nothing is added to it. *)
Definition draining (queue : gmap string (InterfaceLinkEvent * Z)) (m : Monitor) : Prop :=
  keyed m ∧ delay_queue m ⊆ queue.

Lemma queue_notified e m : delay_queue (notified e m) = delete (le_iface_name e) (delay_queue m).
Proof. unfold notified, pushed. by repeat case_match. Qed.

Lemma draining_emitted_late env queue k m :
  draining queue m → draining queue (emitted_late env k m).
Proof.
  intros [Hk Hq]. split; [by apply keyed_emitted_late|].
  unfold emitted_late. destruct (delay_queue m !! k) as [[e t]|]; [|done].
  repeat case_match; rewrite ?queue_notified; simpl;
    repeat (etransitivity; [apply delete_subseteq|]); done.
Qed.

Lemma notified_dequeued e m :
  notified e (upd_delay_queue (delete (le_iface_name e)) m) = notified e m.
Proof.
  unfold notified. change (announced (upd_delay_queue _ m) e) with (announced m e).
  f_equal. destruct (le_is_delete e), (le_is_new_wifi_phy (announced m e));
    unfold upd_delay_queue; simpl; by rewrite delete_delete_eq.
Qed.

Lemma sim_emitted_late env n queue k m :
  delay_is_over env queue k = true →
  sim env n (draining queue) m (emitted_late env k m).
Proof.
  intros Hover. apply sim_intro. intros [[Hq _] Hsub].
  pose proof (draining_emitted_late env queue k m) as HI. unfold emitted_late in *.
  destruct (delay_queue m !! k) as [[e t]|] eqn:He; [|reflexivity].
  pose proof (Hq _ _ _ He) as [<- Hdel]. clear Hq.
  assert (t < env_instant env) as Ht.
  { eapply lookup_weaken in Hsub; [|done]. unfold delay_is_over in Hover.
    rewrite Hsub in Hover. by apply Z.ltb_lt. }
  set (m1 := upd_delay_queue (delete (le_iface_name e)) m) in *.
  assert ((draining queue m → draining queue m1) →
      event_is_explicitly_down e (explicitly_down m) = true ∨
        (le_is_up e = true ∧ (ll_is_up <$> emited m !! le_iface_name e) = Some true) →
      sim env n (draining queue) m m1) as Hdrop.
  { intros HI1 Hwhy. destruct (decide (le_iface_name e = n)) as [<-|Hn].
    2: { apply sim_frame; [done|]. unfold m1. frame_peel. }
    apply sim_tau; [done..|]. intros _. unfold project at 2, m1. simpl.
    rewrite lookup_delete_eq. by apply (step_discard _ _ _ (project _ m) e t). }
  destruct (event_is_explicitly_down e (explicitly_down m)) eqn:Hd; [eauto|].
  destruct (emited m !! le_iface_name e) as [l|] eqn:Hl.
  - destruct (ll_is_up l && le_is_up e) eqn:Hup.
    + apply andb_true_iff in Hup as [Hup ?]. apply Hdrop; [done|right]. simpl. by rewrite Hup.
    + unfold m1 in *. rewrite notified_dequeued in *. apply sim_notified; eauto.
  - unfold m1 in *. rewrite notified_dequeued in *. apply sim_notified; eauto.
Qed.

(** A change that no tracker sees. *)
Lemma sim_unseen env n (I : Monitor → Prop) m m' :
  (I m → I m') → project n m' = project n m → explicitly_down m' = explicitly_down m →
  collect_batch m' = collect_batch m → reported m' = reported m → sim env n I m m'.
Proof.
  intros HI Hp Hd Hb Hr HI1. split_and!; [auto|done|by rewrite Hb|].
  exists []. rewrite Hp, Hr, app_nil_r. split; [constructor|done].
Qed.

Section SimHandlers.
Context (env : Env) (n : string).
#[local] Abbreviation runs := (goes env (sim env n keyed)).

Lemma runs_try_notify e m : runs (try_notify env e) m.
Proof. eapply goes_exact; [apply try_notify_run|apply sim_tried]. Qed.

Lemma runs_unseen f m :
  (∀ m, msg_to_commander (f m) = msg_to_commander m) → (keyed m → keyed (f m)) →
  project n (f m) = project n m → explicitly_down (f m) = explicitly_down m →
  collect_batch (f m) = collect_batch m → reported (f m) = reported m →
  runs (modify f) m.
Proof. intros. apply goes_modify; [done|]. by apply sim_unseen. Qed.

Lemma runs_observe_mac k mac m : runs (observe_mac k mac) m.
Proof. destruct mac; [by apply runs_unseen|apply goes_ret; apply _]. Qed.

Lemma runs_forget_mac k m : runs (modify (upd_iface_mac (delete k))) m.
Proof. by apply runs_unseen. Qed.

Lemma runs_handle_resume_event e m : runs (handle_resume_event env e) m.
Proof.
  apply goes_gets. destruct (negb (emit_on_resume m e)); [apply goes_ret; apply _|].
  apply runs_try_notify.
Qed.

Lemma runs_resume_deleted_iface paused seen k m :
  runs (resume_deleted_iface env paused seen k) m.
Proof.
  unfold resume_deleted_iface. destruct (paused !! k) as [l|]; [|apply goes_ret; apply _].
  destruct (decide (k ∈ seen)); [apply goes_ret; apply _|].
  apply goes_seq; [apply _|apply (runs_observe_mac k)|]. intros m1.
  apply goes_seq; [apply _|apply runs_try_notify|]. intros m2. apply runs_forget_mac.
Qed.

Lemma runs_handle_resume_deleted_ifaces seen m :
  runs (handle_resume_deleted_ifaces env seen) m.
Proof.
  apply goes_gets. apply goes_seq; [apply _|by apply runs_unseen|]. intros m1.
  destruct (paused_state m) as [paused|]; [|apply goes_ret; apply _].
  apply goes_for_each; [apply _|]. intros k m2 _. apply runs_resume_deleted_iface.
Qed.

Lemma runs_resume_link_msg seen msg m : runs (resume_link_msg env seen msg) m.
Proof.
  apply goes_gets. destruct (parse_link_msg _ _ _ _) as [[e mac]|]; [|apply goes_ret; apply _].
  apply goes_seq; [apply _|apply runs_observe_mac|]. intros m1.
  apply goes_seq; [apply _|apply runs_handle_resume_event|]. intros m2.
  apply goes_ret; apply _.
Qed.

Lemma runs_reconcile_iface state seen k m : runs (reconcile_iface env state seen k) m.
Proof.
  unfold reconcile_iface. destruct (state !! k) as [i|]; [|apply goes_ret; apply _].
  apply goes_seq; [apply _|apply runs_observe_mac|]. intros m1. apply goes_gets.
  destruct (link_event_from_iface env k i _) as [e|]; [|apply goes_ret; apply _].
  apply goes_gets. destruct (negb _); [apply goes_ret; apply _|]. apply goes_gets.
  destruct (match emited m1 !! k with Some _ => _ | None => _ end);
    [apply goes_ret; apply _|].
  apply goes_seq; [apply _|apply runs_try_notify|]. intros m2. apply goes_ret; apply _.
Qed.

Lemma runs_forget k m :
  runs (modify (upd_emited (delete k));; modify (upd_wifi_phys_emited (.∖ {[k]}))) m.
Proof.
  eapply (goes_exact _ _ _
    (λ m, upd_wifi_phys_emited (.∖ {[k]}) (upd_emited (delete k) m))); [done|].
  destruct (decide (k = n)) as [->|Hk].
  2: { apply sim_frame; [done|]. frame_peel. }
  apply sim_tau; [done..|]. intros _. unfold project at 2. simpl.
  rewrite lookup_delete_eq, bool_decide_false by set_solver.
  by apply (step_forget _ _ _ (project n m)).
Qed.

Lemma runs_reconcile_tracked seen k m : runs (reconcile_tracked env seen k) m.
Proof.
  unfold reconcile_tracked. destruct (decide (k ∈ seen)); [apply goes_ret; apply _|].
  apply goes_gets. destruct (emited m !! k) as [l|]; [|apply goes_ret; apply _].
  apply goes_seq; [apply _|apply runs_observe_mac|]. intros m1. apply goes_gets.
  apply goes_seq; [apply _| |intros m2; apply runs_forget_mac].
  destruct (event_is_interested _ _); [apply runs_try_notify|apply runs_forget].
Qed.

Lemma runs_reconcile_state state m : runs (reconcile_state env state) m.
Proof.
  apply goes_bind; [apply _|apply goes_fold; [apply _|]|].
  - intros seen k m1 _. apply runs_reconcile_iface.
  - intros seen m1 _ _. apply goes_gets. apply goes_for_each; [apply _|].
    intros k m2 _. apply runs_reconcile_tracked.
Qed.

Lemma runs_process_rtnl_message msg m : runs (process_rtnl_message env msg) m.
Proof.
  apply goes_gets. destruct (parse_route_netlink_msg _ _ _) as [[e mac]|];
    [|apply goes_ret; apply _].
  apply goes_seq; [apply _|apply runs_observe_mac|]. intros m1. apply runs_try_notify.
Qed.

Lemma runs_process_udev_pending_events m :
  keyed m → runs (process_udev_pending_events env) m.
Proof.
  intros [_ Hp]. apply goes_gets. apply goes_seq; [apply _| |].
  - apply goes_modify; [done|]. apply sim_tau; try done.
    + intros [Hq _]. split; [done|]. simpl. intros k e. by rewrite lookup_empty.
    + intros _. apply (step_retry _ _ _ (project n m)).
  - intros m1. apply goes_for_each; [apply _|]. intros e m2 He.
    apply list_elem_of_omap in He as (k & _ & Hk). apply Hp in Hk as [_ Hd].
    eapply goes_exact; [apply retry_run|]. by apply sim_retried.
Qed.

Lemma runs_process_delay_queue m : runs (process_delay_queue env) m.
Proof.
  intros Hc. assert (goes env (sim env n (draining (delay_queue m))) (process_delay_queue env) m)
    as Hg.
  { apply goes_gets. apply goes_for_each; [apply _|]. intros k m2 Hk.
    apply list_elem_of_filter in Hk as [Hk _].
    eapply goes_exact; [apply emit_delayed_run|]. by apply sim_emitted_late. }
  destruct (Hg Hc) as (a & m' & E & Hc' & Hs). exists a, m'. split_and!; [done..|].
  intros Hk. destruct (Hs (conj Hk (reflexivity _))) as ([? _] & ?). done.
Qed.
End SimHandlers.

(** Between two iterations of the loop no batch is being collected. *)
Definition settled (m : Monitor) : Prop := keyed m ∧ collect_batch m = None.

Lemma sim_settled env n m m' : sim env n keyed m m' → sim env n settled m m'.
Proof.
  intros Hs [Hk Hb]. destruct (Hs Hk) as (Hk' & Hd & Hb' & Hl). split_and!; [|done..].
  split; [done|]. apply eq_None_not_Some. rewrite Hb', Hb. apply is_Some_None.
Qed.

(** A batch is collected, closed and sent. *)
Lemma sim_batch env n boot m m2 :
  sim env n keyed (upd_collect_batch (λ _, Some (collect_batch_of [] boot)) m) m2 →
  settled m → ∃ b, collect_batch m2 = Some b ∧
  sim env n settled m
    (upd_sent (λ l, l ++ [LinkEvents (cb_events b) (cb_boot b)])
       (upd_collect_batch (λ _, None) m2)).
Proof.
  intros Hs [Hk Hb]. destruct (Hs Hk) as (Hk' & Hd & [_ Hb'] & l & Hl & Hr).
  destruct Hb' as [b Hb']; [by eexists|]. exists b. split; [done|].
  intros _. split_and!; [done|done|simpl; rewrite Hb; tauto|].
  exists l. split; [exact Hl|].
  assert (reported (upd_collect_batch (λ _, Some (collect_batch_of [] boot)) m) = reported m)
    as Hm by (unfold reported, batched; simpl; by rewrite Hb).
  rewrite Hm in Hr. rewrite <- Hr. unfold reported, batched. simpl.
  rewrite Hb', app_nil_r, bind_app. simpl. by rewrite app_nil_r.
Qed.

Section SimLoop.
Context (w : World) (n : string).
#[local] Abbreviation tracks := (ends w (sim w n settled)).

Lemma tracks_runs {A} (x : Mon A) m : goes w (sim w n keyed) x m → tracks x m.
Proof.
  intros Hg Hc. destruct (ends_goes _ _ _ _ Hg Hc) as [? ?]. split; [done|by apply sim_settled].
Qed.

Lemma tracks_unseen f m :
  (∀ m, msg_to_commander (f m) = msg_to_commander m) → (settled m → settled (f m)) →
  project n (f m) = project n m → explicitly_down (f m) = explicitly_down m →
  collect_batch (f m) = collect_batch m → reported (f m) = reported m →
  tracks (modify f) m.
Proof. intros Hf ? ? ? ? ? [Ho Hm]. split; [split; simpl; congruence|by apply sim_unseen]. Qed.

Lemma ends_resume_keyed m : ends w (sim w n keyed) (resume w) m.
Proof.
  unfold resume. destruct (negb (world_connect_ok w)); [by intros Hc; split|].
  apply ends_bind; [apply _|by intros Hc; split|]. intros session m1 [= <- <-].
  apply ends_bind; [apply _|by apply ends_goes, runs_unseen|]. intros [] m2 _.
  apply ends_bind; [apply _| |intros seen m3 _].
  { apply ends_goes, goes_fold; [apply _|]. intros. apply runs_resume_link_msg. }
  apply ends_bind; [apply _|by destruct (world_dump_ok w); intros Hc; split|].
  intros [] m4 _.
  apply ends_bind; [apply _|apply ends_goes, runs_handle_resume_deleted_ifaces|].
  intros [] m5 _.
  apply ends_bind; [apply _|by apply ends_goes, runs_unseen|]. intros [] m6 _.
  by apply ends_goes, runs_unseen.
Qed.

Lemma tracks_resume m : tracks (resume w) m.
Proof.
  intros Hc. destruct (ends_resume_keyed m Hc). split; [done|by apply sim_settled].
Qed.

(** The end of [start_and_dump] and of [reconcile]. *)
Lemma send_batch_run (b : CollectBatch) m :
  connected w m → send_batch w b m =
    (Ok (), upd_sent (λ l, l ++ [LinkEvents (cb_events b) (cb_boot b)]) m).
Proof. intros [Ho Hm]. unfold send_batch, send_cmd. rewrite gets_bind, Hm, Ho. done. Qed.

Lemma tracks_start_and_dump m : settled m → tracks (start_and_dump w) m.
Proof.
  intros Hset Hc. unfold start_and_dump. rewrite modify_bind.
  destruct (ends_resume_keyed (upd_collect_batch (λ _, Some (collect_batch_of [] true)) m) Hc)
    as [Hc2 Hs].
  unfold attempt, gets, modify, of_result, mbind, Mon_bind.
  destruct (resume w _) as [r m2]. simpl in *.
  destruct (sim_batch _ _ _ _ _ Hs Hset) as (b & -> & Hb).
  rewrite send_batch_run by done. split; [done|exact Hb].
Qed.

Lemma tracks_reconcile m : settled m → tracks (reconcile w) m.
Proof.
  intros Hset Hc. unfold reconcile. rewrite gets_bind. destruct (negb _ || _ || _); [done|].
  unfold of_result at 1. destruct (world_query w) as [state|er];
    unfold mbind, Mon_bind at 1; [|done].
  destruct (runs_reconcile_state w n state
    (upd_collect_batch (λ _, Some (collect_batch_of [] false)) m) Hc) as ([] & m2 & E & Hc2 & Hs).
  unfold attempt, gets, modify, of_result, mbind, Mon_bind. rewrite E.
  destruct (sim_batch _ _ _ _ _ Hs Hset) as (b & -> & Hb).
  rewrite send_batch_run by done. split; [done|exact Hb].
Qed.

Lemma tracks_resume_if b m : tracks (when_ b (resume w)) m.
Proof. destruct b; [apply tracks_resume|by intros Hc; split]. Qed.

Lemma tracks_pause m : tracks (modify pause) m.
Proof.
  apply tracks_unseen; unfold pause; intros; by destruct (paused_state _).
Qed.

Lemma tracks_pause_if b m : tracks (when_ b (modify pause)) m.
Proof. destruct b; [apply tracks_pause|by intros Hc; split]. Qed.

(** A change of what is watched, then [resume] or [pause] if that calls for it. *)
Lemma tracks_then f (g : Monitor → bool) (act : Mon ()) m :
  tracks (modify f) m → (∀ b m, tracks (when_ b act) m) →
  tracks (modify f;; b ← gets g; when_ b act) m.
Proof.
  intros Hf Ha. apply ends_bind; [apply _|done|]. intros [] m1 _.
  apply (ends_bind _ _ (gets g)); [by intros Hc; split|]. intros b m2 _. apply Ha.
Qed.

(** [ForgetPausedState] and [ForgetEmitted]. *)
Lemma tracks_forget ifaces (phys : bool) m :
  tracks (modify (upd_emited (λ e, foldl (λ s i, delete i s) e ifaces));;
          when_ phys (modify (upd_wifi_phys_emited (.∖ list_to_set ifaces)))) m.
Proof.
  intros Hc. rewrite modify_bind.
  set (m1 := upd_emited _ m). set (m2 := (when_ phys _ m1).2).
  assert (connected w m2) by (unfold m2; by destruct phys).
  split; [done|]. apply sim_settled. destruct (decide (n ∈ ifaces)) as [Hin|Hin].
  - apply sim_tau; [by unfold m2; destruct phys..|]. intros _.
    replace (project n m2) with
      (track None (negb phys && tr_known_phy (project n m)) (tr_held (project n m))
         (tr_pending (project n m))).
    { apply step_forget. intros [_ ?]%andb_true_iff. done. }
    unfold m2. destruct phys; unfold project; simpl; rewrite foldl_delete_lookup, decide_True by done.
    + f_equal. symmetry. apply bool_decide_false. set_solver.
    + done.
  - apply sim_unseen; [by unfold m2; destruct phys| |by unfold m2; destruct phys..].
    unfold m2. destruct phys; unfold project; simpl;
      rewrite foldl_delete_lookup, decide_False by done; [|done].
    f_equal. apply bool_decide_ext. set_solver.
Qed.

Definition marks_down (cmd : NipartMonitorCmd) : bool :=
  match cmd with MarkExplicitlyDown _ | ClearExplicitlyDown _ => true | _ => false end.

Lemma tracks_process_cmd cmd m :
  marks_down cmd = false → settled m → tracks (process_cmd w cmd) m.
Proof.
  intros Hcmd Hset. destruct cmd as [|i|i|a|a| | | | | | | |l|l]; try done; simpl.
  - intros [Ho Hm]. split; [done|]. by apply sim_unseen.
  - apply (tracks_then _ should_start_netlink); [by apply tracks_unseen|apply tracks_resume_if].
  - apply (tracks_then _ should_pause); [by apply tracks_unseen|apply tracks_pause_if].
  - apply (tracks_then _ should_start_netlink); [by apply tracks_unseen|apply tracks_resume_if].
  - apply (tracks_then _ should_pause); [by apply tracks_unseen|apply tracks_pause_if].
  - apply (tracks_then _ should_start_netlink); [by apply tracks_unseen|apply tracks_resume_if].
  - apply (tracks_then _ should_pause); [by apply tracks_unseen|apply tracks_pause_if].
  - intros Hc. rewrite gets_bind. destruct (started m); [done|]. revert Hc.
    apply ends_bind; [apply _|by apply tracks_unseen|]. intros [] m1 [= <-].
    apply (ends_bind _ _ (gets should_resume)); [by intros Hc; split|]. intros b m2 [= <- <-].
    apply ends_bind; [apply _| |intros; by apply tracks_unseen].
    destruct (should_resume _); [by apply tracks_start_and_dump|].
    intros Hc. rewrite send_batch_run by done. split; [done|]. apply sim_unseen; try done.
    unfold reported, batched. simpl. by rewrite bind_app, app_nil_r.
  - apply ends_bind; [apply _|by apply tracks_unseen|]. intros. apply tracks_pause.
  - apply (tracks_then _ (λ self, (manual_pause_count self =? 0) && should_resume self &&
                            should_start_netlink self));
      [by apply tracks_unseen|apply tracks_resume_if].
  - apply ends_bind; [apply _|by apply tracks_unseen|]. intros [] m1 _.
    apply (tracks_forget l false).
  - apply ends_bind; [apply _|by apply tracks_unseen|]. intros [] m1 _.
    apply (tracks_forget l true).
Qed.

Lemma tracks_on_tick m : settled m → connected w m →
  connected w (on_tick w m) ∧ sim w n settled m (on_tick w m).
Proof.
  intros Hset Hc. unfold on_tick.
  destruct (ends_goes _ _ _ _ (runs_process_udev_pending_events w n m (proj1 Hset)) Hc)
    as [Hc1 H1%sim_settled].
  destruct (ends_goes _ _ _ _ (runs_process_delay_queue w n _) Hc1) as [Hc2 H2%sim_settled].
  set (m1 := (process_udev_pending_events w m).2) in *.
  set (m2 := (process_delay_queue w m1).2) in *.
  assert (sim w n settled m m2) as H12 by by etransitivity.
  destruct (next_reconcile m2 <=? env_instant w); [|done].
  destruct (H12 Hset) as [Hset2 _].
  destruct (tracks_reconcile m2 Hset2 Hc2) as [Hc3 H3]. split; [done|].
  etransitivity; [done|]. etransitivity; [done|]. by apply sim_unseen.
Qed.
End SimLoop.

(** The names brought down after a wake-up of the loop. *)
Definition next_down (ev : LoopEvent) (down : gset string) : gset string :=
  match ev with
  | GotCmd (MarkExplicitlyDown names) => down ∪ list_to_set names
  | GotCmd (ClearExplicitlyDown names) => down ∖ list_to_set names
  | _ => down
  end.

(** What an iteration does to the interface [n]. *)
Definition tracked_by (env : Env) (n : string) (down' : gset string) (m m' : Monitor) : Prop :=
  settled m' ∧ connected env m' ∧ explicitly_down m' = down' ∧
  ∃ l, track_steps env (explicitly_down m) n (project n m) l (project n m') ∧
       about n (reported m') = about n (reported m) ++ l.

Lemma loop_branch_tracked (w : World) ev m n :
  settled m → connected w m →
  tracked_by w n (next_down ev (explicitly_down m)) m (loop_branch w ev m).
Proof.
  intros Hset Hc.
  assert (∀ m', connected w m' ∧ sim w n settled m m' →
    tracked_by w n (explicitly_down m) m m') as Hsim.
  { intros m' [Hc' Hs]. destruct (Hs Hset) as (? & ? & _ & ?). done. }
  destruct ev as [cmd|msg| |]; simpl.
  - destruct (marks_down cmd) eqn:Hcmd.
    + destruct cmd; try done; (split; [done|split; [done|split; [done|]]]);
        exists []; rewrite app_nil_r; (split; [constructor|done]).
    + assert (next_down (GotCmd cmd) (explicitly_down m) = explicitly_down m) as Hd
        by by destruct cmd.
      unfold next_down in Hd. rewrite Hd. by apply Hsim, tracks_process_cmd.
  - apply Hsim. apply tracks_runs; [apply runs_process_rtnl_message|done].
  - apply Hsim. split; [done|reflexivity].
  - apply Hsim. by apply tracks_on_tick.
Qed.

Lemma loop_iteration_tracked (w : World) ev m m' n :
  loop_iteration w ev m = Some m' → settled m → connected w m →
  tracked_by w n (next_down ev (explicitly_down m)) m m'.
Proof.
  intros Hit Hset Hc. unfold loop_iteration in Hit.
  destruct (netlink_msg_receiver m) as [r|].
  - injection Hit as <-.
    pose proof (loop_branch_tracked w ev (upd_netlink_msg_receiver (λ _, None) m) n Hset Hc).
    by destruct (manual_pause_count _ =? 0).
  - destruct ev as [cmd|msg| |]; try done. injection Hit as <-.
    by apply (loop_branch_tracked w (GotCmd cmd)).
Qed.

(** The clocks and the names brought down at every iteration of a run. *)
Fixpoint configs (down : gset string) (l : list (World * LoopEvent)) : list (Env * gset string) :=
  match l with
  | [] => []
  | (w, ev) :: l' => (world_env w, down) :: configs (next_down ev down) l'
  end.

(** The commander listens for the whole run. *)
Definition listening (l : list (World * LoopEvent)) : Prop :=
  Forall (λ s, env_channel_open (world_env s.1) = true) l.

(** C14: refinement.  Every run of the monitor worker, looked at from any one interface,
    is a run of the tracker of that interface, with the clocks of the run and the names
    brought down by the commands of the run, and the events the worker reports about the
    interface are exactly the labels of that tracker run, in order.  So the worker is the
    product of independent trackers: what it reports of an interface obeys the contract of
    the debounce whatever happens to the other interfaces. *)
Theorem monitor_refines_trackers n m l m' :
  run m l m' → settled m → msg_to_commander m = true → listening l →
  ∃ evs, track_run n (project n m) (configs (explicitly_down m) l) evs (project n m') ∧
         about n (reported m') = about n (reported m) ++ evs.
Proof.
  induction 1 as [m|m w ev m1 l m' Hit Hrun IH]; intros Hset Hs Hl.
  { exists []. rewrite app_nil_r. split; [constructor|done]. }
  apply Forall_cons in Hl as [Ho Hl].
  destruct (loop_iteration_tracked _ _ _ _ n Hit Hset (conj Ho Hs))
    as (Hset1 & [_ Hs1] & Hd & evs1 & Hst & Hr1).
  destruct (IH Hset1 Hs1 Hl) as (evs & Hst' & Hr). exists (evs1 ++ evs). split.
  - simpl. econstructor; [done|]. by rewrite <- Hd.
  - by rewrite Hr, Hr1, app_assoc.
Qed.

Lemma track_steps_not_down env down n t l t' :
  track_steps env down n t l t' →
  Forall (λ e, event_is_explicitly_down e down = false) l.
Proof.
  assert (∀ t e e', marked t e e' → event_is_explicitly_down e down = false →
    event_is_explicitly_down e' down = false) as Hm.
  { by intros ? ? ? [->|(_ & _ & ->)]. }
  induction 1 as [|t o t1 l t2 Hs _ IH]; [done|]. apply Forall_app. split; [|done].
  inversion Hs; simpl; constructor; eauto.
Qed.

Lemma elem_of_about e l : e ∈ about (le_iface_name e) l ↔ e ∈ l.
Proof. unfold about. rewrite list_elem_of_filter. tauto. Qed.

(** The name [n] is not cleared by the commands of the run. *)
Definition stays_down (n : string) (l : list (World * LoopEvent)) : Prop :=
  Forall (λ s, match s.2 with GotCmd (ClearExplicitlyDown names) => n ∉ names | _ => True end) l.

(** C23: after an interface or profile was explicitly brought down, no event of an interface
    of that name or with that SSID reaches the event worker until a command clears the name,
    whatever the kernel announces, the queues still hold, a link dump or a reconciliation
    finds. *)
Theorem explicitly_down_stays_silent n m l m' :
  run m l m' → settled m → msg_to_commander m = true → listening l →
  n ∈ explicitly_down m → stays_down n l →
  ∀ e, e ∈ reported m' → e ∉ reported m → le_iface_name e ≠ n ∧ le_ssid e ≠ Some n.
Proof.
  induction 1 as [m|m w ev m1 l m' Hit Hrun IH]; intros Hset Hs Hl Hn Hst e He Hne; [done|].
  apply Forall_cons in Hl as [Ho Hl]. apply Forall_cons in Hst as [Hev Hst].
  destruct (loop_iteration_tracked _ _ _ _ (le_iface_name e) Hit Hset (conj Ho Hs))
    as (Hset1 & [_ Hs1] & Hd & evs1 & Hsteps & Hr1).
  destruct (decide (e ∈ reported m1)) as [He1|He1].
  - rewrite <- elem_of_about, Hr1, elem_of_app, elem_of_about in He1.
    destruct He1 as [|He1]; [done|].
    apply track_steps_not_down in Hsteps. rewrite Forall_forall in Hsteps.
    specialize (Hsteps e He1). unfold event_is_explicitly_down in Hsteps.
    apply orb_false_iff in Hsteps as [H1 H2]. apply bool_decide_eq_false in H1.
    split; [by intros Heq; rewrite Heq in H1|]. intros Hssid. rewrite Hssid in H2.
    by apply bool_decide_eq_false in H2.
  - apply (IH Hset1 Hs1 Hl); try done. rewrite Hd.
    destruct ev as [[]|msg| |]; simpl in *; try done; [set_solver|].
    apply elem_of_difference. split; [done|]. by rewrite elem_of_list_to_set.
Qed.

(** ** Examples *)

(** A run as a function. *)
Fixpoint loop_steps (l : list (World * LoopEvent)) (m : Monitor) : option Monitor :=
  match l with
  | [] => Some m
  | (w, ev) :: l' => m' ← loop_iteration w ev m; loop_steps l' m'
  end.

Lemma loop_steps_run l m m' : loop_steps l m = Some m' → run m l m'.
Proof.
  revert m. induction l as [|[w ev] l IH]; intros m H; simpl in H.
  - injection H as ->. constructor.
  - apply bind_Some in H as (m1 & H1 & H2). econstructor; eauto.
Qed.

(** [t] seconds after the start, with the commander listening and udev done. *)
Definition ex_env (t : Z) : Env :=
  mk_env (from_secs t) (from_secs t) (λ _, false) (λ _, None) (λ _, true) false true
    (λ l, l) (λ l, reflexivity l).

Definition ex_link (name : string) (up : bool) : LinkMessage :=
  link_message 2 up up LinkEther [IfName name; Address [2; 0; 0; 0; 0; 16]].

Definition ex_iface (name : string) (s : InterfaceLinkState) : Interface :=
  IfEthernet (set_bi_link_state (Some s) (set_bi_iface_index (Some 2)
    (set_bi_kernel_iface_name name (base_new name TEthernet)))) None.

(** The dump and the query find [eth1] with the carrier [up]. *)
Definition ex_world (t : Z) (up : bool) : World :=
  mk_world (ex_env t) true [ex_link "eth1" up] true
    (Ok {["eth1" := ex_iface "eth1" (if up then LUp else LDown)]}).

Definition ex_boot : list (World * LoopEvent) :=
  [(ex_world 0 true, GotCmd SetCommanderSender); (ex_world 0 true, GotCmd (AddIface "eth1"));
   (ex_world 0 true, GotCmd Start)].

(** The worker after the boot dump. *)
Definition ex_monitor : Monitor := default (monitor_new 0) (loop_steps ex_boot (monitor_new 0)).

Example ex_boot_reports :
  (λ e, (le_iface_name e, le_is_up e)) <$> reported ex_monitor = [("eth1", true)].
Proof. vm_compute. reflexivity. Qed.

Lemma ex_monitor_settled : settled ex_monitor.
Proof.
  split; [|by vm_compute].
  assert (delay_queue ex_monitor = ∅ ∧ udev_pending_events ex_monitor = ∅) as [Hq Hp]
    by by vm_compute.
  split; [rewrite Hq|rewrite Hp]; intros k ?; by rewrite lookup_empty.
Qed.

(** The link goes down, comes back, and goes down for good. *)
Definition ex_flapping : list (World * LoopEvent) :=
  [(ex_world 1 false, GotNetlink (NewLink (ex_link "eth1" false)));
   (ex_world 2 true, GotNetlink (NewLink (ex_link "eth1" true)));
   (ex_world 3 false, GotNetlink (NewLink (ex_link "eth1" false)));
   (ex_world 20 false, Tick)].

Lemma monitor_refines_trackers_witness :
  ∃ m' evs, loop_steps ex_flapping ex_monitor = Some m' ∧
    track_run "eth1" (project "eth1" ex_monitor) (configs ∅ ex_flapping) evs (project "eth1" m') ∧
    le_is_up <$> evs = [true; false].
Proof.
  destruct (loop_steps ex_flapping ex_monitor) as [m'|] eqn:E; [|by vm_compute in E].
  destruct (monitor_refines_trackers "eth1" ex_monitor ex_flapping m') as (evs & Hr & Ha).
  - by apply loop_steps_run.
  - apply ex_monitor_settled.
  - by vm_compute.
  - by repeat constructor.
  - exists m', evs. split; [done|]. split; [exact Hr|].
    assert (le_is_up <$> about "eth1" (reported m') = [true; true; false]) as Hup.
    { vm_compute in E. injection E as <-. by vm_compute. }
    rewrite Ha, fmap_app in Hup. vm_compute in Hup. injection Hup as Hup. exact Hup.
Defined.

Lemma mark_down_unseen f m :
  (settled m → settled (upd_explicitly_down f m)) ∧
  reported (upd_explicitly_down f m) = reported m.
Proof. done. Qed.

(** [eth1] is brought down by hand before its link flaps. *)
Definition ex_down_monitor : Monitor := upd_explicitly_down (.∪ {["eth1"]}) ex_monitor.

Example ex_down_is_about_eth1 :
  match loop_steps ex_flapping ex_down_monitor with
  | Some m' => forallb (λ e, String.eqb (le_iface_name e) "eth1") (reported m')
  | None => false
  end = true.
Proof. vm_compute. reflexivity. Qed.

Lemma explicitly_down_stays_silent_witness :
  ∃ m', loop_steps ex_flapping ex_down_monitor = Some m' ∧
    ∀ e, e ∈ reported m' → e ∈ reported ex_monitor.
Proof.
  destruct (mark_down_unseen (.∪ {["eth1"]}) ex_monitor) as [Hset Hrep].
  specialize (Hset ex_monitor_settled). rewrite <- Hrep. fold ex_down_monitor in Hset |- *.
  pose proof ex_down_is_about_eth1 as Hall.
  destruct (loop_steps ex_flapping ex_down_monitor) as [m'|] eqn:E; [|discriminate Hall].
  exists m'. split; [done|]. intros e He.
  destruct (decide (e ∈ reported ex_down_monitor)) as [Hin|Hin]; [exact Hin|].
  destruct (explicitly_down_stays_silent "eth1" ex_down_monitor ex_flapping m') with e as [Hn _];
    [by apply loop_steps_run|exact Hset|by vm_compute|by repeat constructor
    |apply elem_of_union_r, elem_of_singleton; reflexivity|by repeat constructor
    |exact He|exact Hin|].
  destruct Hn. rewrite forallb_forall in Hall. apply String.eqb_eq, Hall, list_elem_of_In, He.
Defined.
