(* ===== verification/MonitorLive.v ===== *)
(** * MonitorLive: what the monitor does eventually

    The delay queue and the periodic reconciliation of Monitor.v make up for
    lost netlink notifications: whatever the worker missed of an interface, once
    a reconciliation is due and the debounce time has passed, the event worker
    has been told the state of the kernel.  The proofs follow one interface
    through a tick; all that a tick does to the other interfaces is a [frame]
    of MonitorSpec.v. *)

From S2P Require Export MonitorSpec.

#[local] Open Scope Z_scope.

(** ** Following one interface through a loop over all *)

Definition framed (n : string) (m m' : Monitor) : Prop :=
  keyed m → keyed m' ∧ frame n m m'.

#[export] Instance framed_preorder n : PreOrder (framed n).
Proof.
  split; [by intros m Hk|]. intros m1 m2 m3 H1 H2 Hk.
  destruct (H1 Hk) as [Hk2 ?]. destruct (H2 Hk2) as [? ?]. split; [done|by etransitivity].
Qed.

Lemma framed_intro n m m' : (keyed m → keyed m') → frame n m m' → framed n m m'.
Proof. intros Hk Hf Hm. auto. Qed.

Lemma iter_keys_NoDup {A} env (m : gmap string A) : NoDup (iter_keys env m).
Proof. unfold iter_keys. rewrite env_order_perm. apply NoDup_fst_map_to_list. Qed.

Lemma elem_of_iter_keys {A} env (m : gmap string A) k : k ∈ iter_keys env m ↔ is_Some (m !! k).
Proof.
  unfold iter_keys. rewrite (env_order_perm env), list_elem_of_fmap. split.
  - intros ([k' v] & -> & Hk). apply elem_of_map_to_list in Hk. by eexists.
  - intros [v Hv]. exists (k, v). split; [done|by apply elem_of_map_to_list].
Qed.

Lemma link_event_from_iface_spec env k i wifi e :
  link_event_from_iface env k i wifi = Some e →
  le_iface_name e = k ∧ le_is_delete e = false ∧ le_is_new_wifi_phy e = false.
Proof. unfold link_event_from_iface. intros [= <-]. by repeat case_match. Qed.

Section Follow.
Context (env : Env) (n : string).

Lemma goes_for_each_frame {A} (f : A → Mon ()) l m :
  (∀ x m, x ∈ l → goes env (framed n) (f x) m) → goes env (framed n) (for_each f l) m.
Proof. intros Hf. apply goes_for_each; [apply _|auto]. Qed.

(** A loop over keys among which [n] is once. *)
Lemma for_each_at (f : string → Mon ()) (g : Monitor → Monitor) l m :
  (∀ k m, k ≠ n → goes env (framed n) (f k) m) →
  (∀ m, connected env m → f n m = (Ok (), g m) ∧ connected env (g m)) →
  (∀ m, keyed m → keyed (g m)) →
  NoDup l → n ∈ l → connected env m → keyed m →
  ∃ m1 m', for_each f l m = (Ok (), m') ∧ connected env m' ∧ keyed m' ∧
           keyed m1 ∧ frame n m m1 ∧ frame n (g m1) m'.
Proof.
  intros Hf Hn Hg. revert m.
  induction l as [|k l IH]; intros m Hnd Hin Hc Hk; [by apply not_elem_of_nil in Hin|].
  apply NoDup_cons in Hnd as [Hkl Hnd]. simpl. unfold mbind, Mon_bind.
  destruct (decide (k = n)) as [->|Hkn].
  - destruct (Hn m Hc) as [-> Hc1].
    destruct (goes_for_each_frame f l (g m)) as ([] & m' & E & Hc' & Hfr); [|done|].
    { intros x m1 Hx. apply Hf. intros ->. done. }
    rewrite E. destruct (Hfr (Hg _ Hk)). exists m, m'. split_and!; try done. 
  - destruct (Hf k m Hkn Hc) as ([] & m1 & -> & Hc1 & Hfr). destruct (Hfr Hk) as [Hk1 Hfr1].
    apply elem_of_cons in Hin as [->|Hin]; [done|].
    destruct (IH m1 Hnd Hin Hc1 Hk1) as (m2 & m' & E & ? & ? & ? & ? & ?).
    exists m2, m'. split_and!; try done. by etransitivity.
Qed.

Lemma fold_mon_at {B} (f : B → string → Mon B) (g : Monitor → Monitor) l b m :
  (∀ b k m, k ≠ n → goes env (framed n) (f b k) m) →
  (∀ b m, connected env m → ∃ b', f b n m = (Ok b', g m) ∧ connected env (g m)) →
  (∀ m, keyed m → keyed (g m)) →
  NoDup l → n ∈ l → connected env m → keyed m →
  ∃ b' m1 m', fold_mon f b l m = (Ok b', m') ∧ connected env m' ∧ keyed m' ∧
              keyed m1 ∧ frame n m m1 ∧ frame n (g m1) m'.
Proof.
  intros Hf Hn Hg. revert b m.
  induction l as [|k l IH]; intros b m Hnd Hin Hc Hk; [by apply not_elem_of_nil in Hin|].
  apply NoDup_cons in Hnd as [Hkl Hnd]. simpl. unfold mbind, Mon_bind.
  destruct (decide (k = n)) as [->|Hkn].
  - destruct (Hn b m Hc) as (b1 & -> & Hc1).
    destruct (goes_fold env (framed n) f l) with b1 (g m) as (b' & m' & E & Hc' & Hfr); [|done|].
    { intros b2 x m1 Hx. apply Hf. intros ->. done. }
    rewrite E. destruct (Hfr (Hg _ Hk)). exists b', m, m'. split_and!; try done.
  - destruct (Hf b k m Hkn Hc) as (b1 & m1 & -> & Hc1 & Hfr). destruct (Hfr Hk) as [Hk1 Hfr1].
    apply elem_of_cons in Hin as [->|Hin]; [done|].
    destruct (IH b1 m1 Hnd Hin Hc1 Hk1) as (b' & m2 & m' & E & ? & ? & ? & ? & ?).
    exists b', m2, m'. split_and!; try done. by etransitivity.
Qed.

(** Handlers of other interfaces. *)

Lemma framed_try_notify e m : le_iface_name e ≠ n → goes env (framed n) (try_notify env e) m.
Proof.
  intros He. eapply goes_exact; [apply try_notify_run|].
  apply framed_intro; [apply keyed_tried|by apply frame_tried].
Qed.

Lemma framed_retry e m :
  le_iface_name e ≠ n → le_is_delete e = false → goes env (framed n) (retry_udev_pending env e) m.
Proof.
  intros He Hd. eapply goes_exact; [apply retry_run|].
  apply framed_intro; [by apply keyed_retried|]. unfold retried. case_match; frame_peel.
Qed.

Lemma framed_emit_delayed k m : k ≠ n → goes env (framed n) (emit_delayed env k) m.
Proof.
  intros Hk. eapply goes_exact; [apply emit_delayed_run|]. intros Hm.
  split; [by apply keyed_emitted_late|]. destruct Hm as [Hq _]. unfold emitted_late.
  destruct (delay_queue m !! k) as [[e t]|] eqn:He; [|reflexivity].
  apply Hq in He as [<- _]. repeat case_match; frame_peel.
Qed.

Lemma framed_observe k mac m : k ≠ n → goes env (framed n) (observe_mac k mac) m.
Proof.
  intros Hk. destruct mac; [|apply goes_ret; apply _].
  apply goes_modify; [done|]. apply framed_intro; [done|]. frame_peel.
Qed.

Lemma framed_reconcile_iface K seen k m :
  k ≠ n → goes env (framed n) (reconcile_iface env K seen k) m.
Proof.
  intros Hk. unfold reconcile_iface. destruct (K !! k) as [i|]; [|apply goes_ret; apply _].
  apply goes_seq; [apply _|by apply framed_observe|]. intros m1. apply goes_gets.
  destruct (link_event_from_iface env k i _) as [e|] eqn:He; [|apply goes_ret; apply _].
  apply link_event_from_iface_spec in He as (<- & _).
  apply goes_gets. destruct (negb _); [apply goes_ret; apply _|]. apply goes_gets.
  destruct (match emited m1 !! le_iface_name e with Some _ => _ | None => _ end);
    [apply goes_ret; apply _|].
  apply goes_seq; [apply _|by apply framed_try_notify|]. intros m2. apply goes_ret; apply _.
Qed.

Lemma framed_reconcile_tracked seen k m :
  k ≠ n → goes env (framed n) (reconcile_tracked env seen k) m.
Proof.
  intros Hk. unfold reconcile_tracked. destruct (decide (k ∈ seen)); [apply goes_ret; apply _|].
  apply goes_gets. destruct (emited m !! k) as [l|]; [|apply goes_ret; apply _].
  apply goes_seq; [apply _|by apply framed_observe|]. intros m1. apply goes_gets.
  apply goes_seq; [apply _| |].
  - destruct (event_is_interested _ _); [by apply framed_try_notify|].
    apply goes_seq; [apply _| |]; intros; (apply goes_modify; [done|]);
      (apply framed_intro; [done|]); frame_peel.
  - intros m2. apply goes_modify; [done|]. apply framed_intro; [done|]. frame_peel.
Qed.
End Follow.

(** ** One interface through a tick *)

(** The interface is watched by name, not brought down and not waiting for udev, and an
    event held back of it agrees with its last known state; the session is open. *)
Record tracked (n : string) (m : Monitor) : Prop := {
  tk_watched : n ∈ iface_monitor_list m;
  tk_not_down : n ∉ explicitly_down m;
  tk_not_pending : udev_pending_events m !! n = None;
  tk_held : ∀ h d, delay_queue m !! n = Some (h, d) →
    ∃ l, emited m !! n = Some l ∧ ll_is_up l = le_is_up h;
  tk_open : started m = true ∧ manual_pause_count m = 0 ∧ is_Some (netlink_handle m);
}.

Section Views.
Context (n : string).

Lemma frame_last m m' : frame n m m' → emited m' !! n = emited m !! n.
Proof. intros [Hp _ _ _ _]. by injection Hp. Qed.
Lemma frame_held m m' : frame n m m' → delay_queue m' !! n = delay_queue m !! n.
Proof. intros [Hp _ _ _ _]. by injection Hp. Qed.
Lemma frame_pending m m' :
  frame n m m' → udev_pending_events m' !! n = udev_pending_events m !! n.
Proof. intros [Hp _ _ _ _]. by injection Hp. Qed.

Lemma tracked_view m m' :
  emited m' !! n = emited m !! n → delay_queue m' !! n = delay_queue m !! n →
  udev_pending_events m' !! n = udev_pending_events m !! n → config_of m' = config_of m →
  tracked n m → tracked n m'.
Proof.
  intros He Hq Hp Hc [????[? []]]. unfold config_of in Hc. injection Hc as ? ? ? ? ? ? Hh ?.
  split; [congruence|congruence|congruence|by rewrite He, Hq|].
  split_and!; [congruence|congruence|by rewrite Hh].
Qed.

Lemma tracked_frame m m' : frame n m m' → tracked n m → tracked n m'.
Proof.
  intros Hf. apply tracked_view; [by apply frame_last|by apply frame_held|
    by apply frame_pending|by eapply frame_config].
Qed.

Lemma tracked_quiet m e :
  tracked n m → le_iface_name e = n → le_ssid e = None →
  event_is_explicitly_down e (explicitly_down m) = false.
Proof.
  intros Ht <- Hs. unfold event_is_explicitly_down. rewrite Hs, orb_false_r.
  apply bool_decide_false. by destruct Ht.
Qed.

Lemma tracked_interested m e :
  tracked n m → le_iface_name e = n → event_is_interested m e = true.
Proof.
  intros [Hw _ _ _ _] <-. unfold event_is_interested. by rewrite bool_decide_true.
Qed.

(** What [debounce] does to the interface of the event. *)
Lemma debounced_view env e m :
  le_iface_name e = n → le_is_delete e = false →
  let m' := debounced env e m in
  config_of m' = config_of m ∧ udev_pending_events m' !! n = udev_pending_events m !! n ∧
  ∃ l, emited m' !! n = Some l ∧ ll_is_up l = le_is_up e ∧
    ((delay_queue m' !! n = None ∧
      about n (reported m') = about n (reported m) ++ [announced m e]) ∨
     (delay_queue m' !! n = Some (e, env_instant env + from_secs DOWN_WAIT_SEC) ∧
      about n (reported m') = about n (reported m) ∧
      ∃ l0, emited m !! n = Some l0 ∧ (le_is_up e = true → ll_is_up l0 = true))).
Proof.
  intros <- Hd. cbn zeta.
  assert (config_of (notified e m) = config_of m ∧
    udev_pending_events (notified e m) !! le_iface_name e =
    udev_pending_events m !! le_iface_name e ∧
    ∃ l, emited (notified e m) !! le_iface_name e = Some l ∧ ll_is_up l = le_is_up e ∧
    delay_queue (notified e m) !! le_iface_name e = None ∧
    about (le_iface_name e) (reported (notified e m)) =
      about (le_iface_name e) (reported m) ++ [announced m e]) as (Hc & Hp & l & Hn).
  { pose proof (project_notified e m) as Hpr. cbn zeta in Hpr. rewrite Hd in Hpr.
    injection Hpr as Hl _ Hq Hp. split_and!; [|done|].
    - unfold notified, pushed. by repeat case_match.
    - eexists. split; [exact Hl|]. split_and!; [|done|apply about_notified].
      simpl. apply announced_up. }
  destruct Hn as (Hl & Hu & Hq & Ha). unfold debounced. rewrite Hd.
  destruct (emited m !! le_iface_name e) as [l0|] eqn:Hl0; [|eauto 10].
  destruct (expired env l0); [eauto 10|].
  destruct (negb (ll_is_up l0) && le_is_up e) eqn:Hup; [eauto 10|].
  split_and!; [by destruct (negb (le_is_up e) && ll_is_up l0)..|].
  destruct (negb (le_is_up e) && ll_is_up l0) eqn:Hdn.
  - eexists. split; [simpl; by rewrite lookup_insert_eq|]. split; [done|]. right. simpl.
    rewrite lookup_insert_eq. split_and!; [done..|]. exists l0. split; [done|].
    by intros Hue; rewrite Hue in Hdn.
  - exists l0. split; [done|].
    assert (ll_is_up l0 = le_is_up e) as Heq by (by destruct (ll_is_up l0), (le_is_up e)).
    split; [done|]. right. simpl. rewrite lookup_insert_eq. split_and!; [done..|].
    exists l0. split; [done|congruence].
Qed.

(** What [emit_delayed] does to it. *)
Lemma emitted_late_view env m :
  keyed m → tracked n m →
  let m' := emitted_late env n m in
  config_of m' = config_of m ∧ udev_pending_events m' !! n = None ∧
  delay_queue m' !! n = None ∧
  (ll_is_up <$> emited m' !! n) = (ll_is_up <$> emited m !! n) ∧
  (about n (reported m') = about n (reported m) ∨
   ∃ h e, about n (reported m') = about n (reported m) ++ [e] ∧
          (fst <$> delay_queue m !! n) = Some h ∧
          le_is_up e = le_is_up h ∧ le_is_delete e = false) ∧
  (∀ h, (fst <$> delay_queue m !! n) = Some h → le_is_up h = false → le_ssid h = None →
   about n (reported m') ≠ about n (reported m)).
Proof.
  intros Hk Ht. pose proof Ht as [_ _ Hpend Hheld _]. cbn zeta. unfold emitted_late.
  destruct (delay_queue m !! n) as [[h t]|] eqn:Hq.
  2: { split_and!; try done. by left. }
  destruct (proj1 Hk _ _ _ Hq) as [Hname Hdel].
  destruct (Hheld h t eq_refl) as (l & Hl & Hlu). rewrite Hname, Hl.
  destruct (event_is_explicitly_down h (explicitly_down m)) eqn:Hx.
  { simpl. rewrite lookup_delete_eq, Hl. split_and!; [done..|by left|].
    intros ? [= <-] _ Hs. by rewrite (tracked_quiet m h) in Hx. }
  destruct (ll_is_up l && le_is_up h) eqn:Hup.
  { simpl. rewrite lookup_delete_eq, Hl. split_and!; [done..|by left|].
    intros ? [= <-] Hu. rewrite Hu in Hup. by rewrite andb_false_r in Hup. }
  subst n. rewrite notified_dequeued.
  pose proof (project_notified h m) as Hpr. cbn zeta in Hpr. rewrite Hdel in Hpr.
  injection Hpr as He _ Hqn Hp. rewrite He, about_notified. split_and!; [|congruence|done| | |].
  - unfold notified, pushed. by repeat case_match.
  - simpl. by rewrite announced_up, Hlu.
  - right. exists h, (announced m h). by rewrite announced_up, announced_delete.
  - intros ? _ _ _ Heq. apply (f_equal length) in Heq. rewrite length_app in Heq. simpl in Heq.
    lia.
Qed.

(** The two queues of a tick. *)
Lemma queue_phase (w : World) m :
  settled m → connected w m → tracked n m →
  let m2 := (process_delay_queue w (process_udev_pending_events w m).2).2 in
  connected w m2 ∧ settled m2 ∧ explicitly_down m2 = explicitly_down m ∧
  ((delay_is_over w (delay_queue m) n = false ∧ frame n m m2) ∨
   (delay_is_over w (delay_queue m) n = true ∧
    ∃ ma, keyed ma ∧ frame n m ma ∧ frame n (emitted_late w n ma) m2)).
Proof.
  intros Hset Hc Ht. cbn zeta. destruct Hset as [Hk Hb].
  assert (goes w (framed n) (process_udev_pending_events w) m) as H1.
  { pose proof Hk as [_ Hp]. apply goes_gets. apply goes_seq; [apply _| |].
    - apply goes_modify; [done|]. apply framed_intro.
      + intros [Hq _]. split; [done|]. simpl. intros ? ?. by rewrite lookup_empty.
      + split; try done. unfold project. simpl. rewrite lookup_empty. f_equal.
        symmetry. apply Ht.
    - intros m1. apply goes_for_each_frame. intros e m2 He.
      apply list_elem_of_omap in He as (k & _ & Hke). pose proof (Hp _ _ Hke) as [Hname Hd].
      apply framed_retry; [|done]. rewrite Hname. intros ->.
      by rewrite (tk_not_pending n m Ht) in Hke. }
  destruct (H1 Hc) as ([] & m1 & E1 & Hc1 & Hf1). rewrite E1. simpl.
  destruct (Hf1 Hk) as [Hk1 Hfr1].
  destruct (ends_goes _ _ _ _ (runs_process_udev_pending_events w n m Hk) Hc) as [_ Hs1].
  rewrite E1 in Hs1. simpl in Hs1. destruct (Hs1 Hk) as (_ & Hd1 & Hb1 & _).
  destruct (ends_goes _ _ _ _ (runs_process_delay_queue w n m1) Hc1) as [Hc2 Hs2].
  destruct (Hs2 Hk1) as (Hk2 & Hd2 & Hb2 & _).
  split; [done|]. split; [split; [done|]|split; [congruence|]].
  { apply eq_None_not_Some. rewrite Hb2, Hb1, Hb. apply is_Some_None. }
  clear Hs1 Hs2 Hk2 Hc2 Hd2 Hb2 Hb1 Hd1. unfold process_delay_queue. rewrite gets_bind.
  assert (delay_is_over w (delay_queue m1) n = delay_is_over w (delay_queue m) n) as Hov.
  { unfold delay_is_over. by rewrite (frame_held m m1). }
  rewrite <- Hov. destruct (delay_is_over w (delay_queue m1) n) eqn:Hover; [right|left];
    (split; [done|]).
  - destruct (for_each_at w n (emit_delayed w) (emitted_late w n)
      (filter (λ k, delay_is_over w (delay_queue m1) k = true) (iter_keys w (delay_queue m1)))
      m1) as (ma & m2 & -> & ? & ? & ? & ? & ?); try done.
    + intros. by apply framed_emit_delayed.
    + intros. by apply emit_delayed_run.
    + intros. by apply keyed_emitted_late.
    + apply NoDup_filter, iter_keys_NoDup.
    + apply list_elem_of_filter. split; [done|]. apply elem_of_iter_keys.
      unfold delay_is_over in Hover. by destruct (delay_queue m1 !! n).
    + exists ma. split_and!; [done|by etransitivity|done].
  - destruct (goes_for_each_frame w n (emit_delayed w)
      (filter (λ k, delay_is_over w (delay_queue m1) k = true) (iter_keys w (delay_queue m1)))
      m1) as ([] & m2 & -> & _ & Hfr); [|done|].
    + intros k m2 Hin. apply framed_emit_delayed. intros ->.
      apply list_elem_of_filter in Hin as [Hin _]. congruence.
    + simpl. destruct (Hfr Hk1). by etransitivity.
Qed.

(** What the first loop of [reconcile] does to the interface, found as [i]. *)
Definition reconciled (env : Env) (i : Interface) (m : Monitor) : Monitor :=
  let m1 := (observe_mac n (to_ascii_uppercase <$> bi_mac_address (base_iface i)) m).2 in
  match link_event_from_iface env n i (wifi_monitor_enabled m1) with
  | None => m1
  | Some event =>
      if negb (event_is_interested m1 event) then m1
      else if match emited m1 !! n with
              | Some previous => is_same_state previous event
              | None => false
              end
      then m1 else tried env event m1
  end.

(** What the second loop does to it when it was not found. *)
Definition untracked (env : Env) (m : Monitor) : Monitor :=
  match emited m !! n with
  | None => m
  | Some last =>
      let m1 := (observe_mac n (ll_mac_address last) m).2 in
      let event := to_delete_event env last n in
      upd_iface_mac (delete n)
        (if event_is_interested m1 event then tried env event m1
         else upd_wifi_phys_emited (.∖ {[n]}) (upd_emited (delete n) m1))
  end.

Lemma observe_run env mac m :
  connected env m →
  observe_mac n mac m = (Ok (), (observe_mac n mac m).2) ∧ connected env (observe_mac n mac m).2.
Proof. by destruct mac. Qed.

Lemma keyed_observe mac m : keyed m → keyed (observe_mac n mac m).2.
Proof. by destruct mac. Qed.

Lemma reconcile_iface_run env K i seen m :
  K !! n = Some i → connected env m →
  reconcile_iface env K seen n m = (Ok ({[n]} ∪ seen), reconciled env i m) ∧
  connected env (reconciled env i m).
Proof.
  intros HK Hc. unfold reconcile_iface, reconciled. rewrite HK.
  destruct (observe_run env (to_ascii_uppercase <$> bi_mac_address (base_iface i)) m Hc)
    as [E Hc1].
  unfold mbind at 1, Mon_bind at 1. rewrite E. set (m1 := (observe_mac n _ m).2) in *.
  rewrite gets_bind. destruct (link_event_from_iface env n i _) as [e|] eqn:He; [|done].
  rewrite gets_bind. destruct (negb _); [done|]. rewrite gets_bind.
  destruct (match emited m1 !! n with Some _ => _ | None => _ end); [done|].
  destruct (try_notify_run env e m1 Hc1) as [E2 Hc2].
  unfold mbind, Mon_bind. by rewrite E2.
Qed.

Lemma keyed_reconciled env i m : keyed m → keyed (reconciled env i m).
Proof.
  intros Hk. unfold reconciled. repeat case_match; auto using keyed_observe, keyed_tried.
Qed.

Lemma reconcile_tracked_run env seen m :
  n ∉ seen → connected env m →
  reconcile_tracked env seen n m = (Ok (), untracked env m) ∧ connected env (untracked env m).
Proof.
  intros Hn Hc. unfold reconcile_tracked, untracked. rewrite decide_False by done.
  rewrite gets_bind. destruct (emited m !! n) as [l|]; [|done].
  destruct (observe_run env (ll_mac_address l) m Hc) as [E Hc1].
  unfold mbind at 1, Mon_bind at 1. set (m1 := (observe_mac n (ll_mac_address l) m).2) in *.
  rewrite E, gets_bind. cbn [snd].
  destruct (event_is_interested m1 (to_delete_event env l n)); [|by split].
  destruct (try_notify_run env (to_delete_event env l n) m1 Hc1) as [E2 Hc2].
  unfold mbind, Mon_bind. by rewrite E2.
Qed.

Lemma keyed_untracked env m : keyed m → keyed (untracked env m).
Proof.
  intros Hk. unfold untracked. destruct (emited m !! n) as [l|]; [|done].
  cut (keyed (if event_is_interested (observe_mac n (ll_mac_address l) m).2
                   (to_delete_event env l n)
              then tried env (to_delete_event env l n) (observe_mac n (ll_mac_address l) m).2
              else upd_wifi_phys_emited (.∖ {[n]})
                     (upd_emited (delete n) (observe_mac n (ll_mac_address l) m).2)));
    [done|].
  destruct (event_is_interested _ _); [by apply keyed_tried, keyed_observe|].
  by apply (keyed_observe (ll_mac_address l)) in Hk.
Qed.

End Views.

(** The names the first loop of [reconcile] has seen are those of the query. *)
Lemma reconcile_seen env K l seen m seen' m' :
  connected env m → fold_mon (reconcile_iface env K) seen l m = (Ok seen', m') →
  ∀ k, k ∈ seen' ↔ k ∈ seen ∨ (k ∈ l ∧ is_Some (K !! k)).
Proof.
  revert seen m. induction l as [|k l IH]; intros seen m Hc E k'; simpl in E.
  { injection E as -> _. set_solver. }
  unfold mbind, Mon_bind in E. destruct (K !! k) as [i|] eqn:HK.
  - destruct (reconcile_iface_run k env K i seen m HK Hc) as [E1 Hc1]. rewrite E1 in E.
    rewrite (IH _ _ Hc1 E k'), elem_of_union, elem_of_singleton, elem_of_cons.
    split; [|naive_solver]. intros [[->|]|[]]; eauto.
  - unfold reconcile_iface in E at 1. rewrite HK in E. rewrite (IH _ _ Hc E k'), elem_of_cons.
    split; [naive_solver|]. intros [|[[->|] Hs]]; [by left| |by right].
    rewrite HK in Hs. by destruct Hs.
Qed.

(** [reconcile_state] from one interface's point of view. *)
Lemma reconcile_state_present n env K i m :
  K !! n = Some i → connected env m → keyed m →
  ∃ m1 m', reconcile_state env K m = (Ok (), m') ∧ connected env m' ∧ keyed m1 ∧
           frame n m m1 ∧ frame n (reconciled n env i m1) m'.
Proof.
  intros HK Hc Hk. unfold reconcile_state.
  destruct (fold_mon_at env n (reconcile_iface env K) (reconciled n env i) (iter_keys env K) ∅ m)
    as (seen & m1 & m2 & E & Hc2 & Hk2 & Hk1 & Hf1 & Hf2); try done.
  { intros. by apply framed_reconcile_iface. }
  { intros b m1 Hc1. destruct (reconcile_iface_run n env K i b m1 HK Hc1). eauto. }
  { intros. by apply keyed_reconciled. }
  { apply iter_keys_NoDup. }
  { apply elem_of_iter_keys. by eexists. }
  assert (n ∈ seen) as Hseen.
  { apply (reconcile_seen _ _ _ _ _ _ _ Hc E). right.
    split; [apply elem_of_iter_keys|]; by eexists. }
  unfold mbind, Mon_bind. rewrite E. unfold gets.
  destruct (goes_for_each_frame env n (reconcile_tracked env seen) (iter_keys env (emited m2)) m2)
    as ([] & m' & E2 & Hc' & Hf3); [|done|].
  { intros k m3 _. destruct (decide (k = n)) as [->|].
    - unfold reconcile_tracked. rewrite decide_True by done. apply goes_ret; apply _.
    - by apply framed_reconcile_tracked. }
  rewrite E2. destruct (Hf3 Hk2) as [_ ?]. exists m1, m'. split_and!; try done.
  by etransitivity.
Qed.

Lemma reconcile_state_absent n env K m :
  K !! n = None → connected env m → keyed m →
  ∃ m1 m', reconcile_state env K m = (Ok (), m') ∧ connected env m' ∧ keyed m1 ∧
           frame n m m1 ∧ frame n (untracked n env m1) m'.
Proof.
  intros HK Hc Hk. unfold reconcile_state.
  destruct (goes_fold env (framed n) (reconcile_iface env K) (iter_keys env K)) with
    (∅ : gset string) m as (seen & m2 & E & Hc2 & Hf2); [|done|].
  { intros b k m1 Hin. apply framed_reconcile_iface. intros ->.
    apply elem_of_iter_keys in Hin. rewrite HK in Hin. by destruct Hin. }
  destruct (Hf2 Hk) as [Hk2 Hfr2].
  assert (n ∉ seen) as Hseen.
  { intros Hin. apply (reconcile_seen _ _ _ _ _ _ _ Hc E) in Hin as [Hin|[_ Hin]];
      [set_solver|]. rewrite HK in Hin. by destruct Hin. }
  unfold mbind, Mon_bind. rewrite E. unfold gets.
  destruct (emited m2 !! n) as [last|] eqn:Hl.
  - destruct (for_each_at env n (reconcile_tracked env seen) (untracked n env)
      (iter_keys env (emited m2)) m2) as (m3 & m' & -> & ? & ? & ? & ? & ?); try done.
    + intros. by apply framed_reconcile_tracked.
    + intros. by apply reconcile_tracked_run.
    + intros. by apply keyed_untracked.
    + apply iter_keys_NoDup.
    + apply elem_of_iter_keys. by eexists.
    + exists m3, m'. split_and!; try done. by etransitivity.
  - destruct (goes_for_each_frame env n (reconcile_tracked env seen) (iter_keys env (emited m2)) m2)
      as ([] & m' & E2 & Hc' & Hf3); [|done|].
    { intros k m3 Hin. apply framed_reconcile_tracked. intros ->.
      apply elem_of_iter_keys in Hin. rewrite Hl in Hin. by destruct Hin. }
    rewrite E2. destruct (Hf3 Hk2) as [_ ?]. exists m2, m'.
    unfold untracked. rewrite Hl. split_and!; try done.
Qed.

(** ** Recovery *)

(** [m'] and [m] agree on the interface and on what is watched and open. *)
Record like (n : string) (m m' : Monitor) : Prop := {
  like_last : emited m' !! n = emited m !! n;
  like_held : delay_queue m' !! n = delay_queue m !! n;
  like_pending : udev_pending_events m' !! n = udev_pending_events m !! n;
  like_about : about n (reported m') = about n (reported m);
  like_names : iface_monitor_list m' = iface_monitor_list m;
  like_down : explicitly_down m' = explicitly_down m;
  like_session : (started m', manual_pause_count m', netlink_handle m') =
                 (started m, manual_pause_count m, netlink_handle m);
}.

#[export] Instance like_preorder n : PreOrder (like n).
Proof.
  split; [by intros m; split|]. intros m1 m2 m3 [] []. split; congruence.
Qed.

Lemma like_frame n m m' : frame n m m' → like n m m'.
Proof.
  intros Hf. pose proof Hf as [_ Ha _ Hc _]. unfold config_of in Hc. injection Hc as ? ? ? ? ? ? ? ?.
  split; try congruence; [by apply frame_last|by apply frame_held|by apply frame_pending].
Qed.

Lemma like_tracked n m m' : like n m m' → tracked n m → tracked n m'.
Proof.
  intros [He Hq Hp _ Hn Hd Hs] [????[? []]]. injection Hs as ? ? Hh.
  split; [congruence|congruence|congruence|by rewrite He, Hq|].
  split_and!; [congruence|congruence|by rewrite Hh].
Qed.

(** [reconcile] when the session is open. *)
Lemma reconcile_phase n (w : World) K m :
  settled m → connected w m → tracked n m → world_query w = Ok K →
  let m' := (reconcile w m).2 in
  connected w m' ∧ settled m' ∧
  ∃ m1, keyed m1 ∧ like n m m1 ∧
        like n (match K !! n with
                | Some i => reconciled n w i m1
                | None => untracked n w m1
                end) m'.
Proof.
  intros [Hk Hb] Hc Ht HK. cbn zeta.
  destruct (tracks_reconcile w n m (conj Hk Hb) Hc) as [Hc' Hs].
  destruct (Hs (conj Hk Hb)) as [Hset' _]. split; [done|]. split; [done|]. clear Hs Hset' Hc'.
  unfold reconcile. rewrite gets_bind. destruct Ht as [_ _ _ _ (-> & -> & [s ->])].
  change (negb true || (0 <? 0) || bool_decide (Some s = None)) with false. rewrite HK.
  rewrite of_result_bind. set (mb := upd_collect_batch (λ _, Some (collect_batch_of [] false)) m).
  assert (∃ m1 m2, reconcile_state w K mb = (Ok (), m2) ∧ connected w m2 ∧ keyed m1 ∧
    frame n mb m1 ∧ frame n (match K !! n with
                | Some i => reconciled n w i m1
                | None => untracked n w m1
                end) m2) as (m1 & m2 & E & Hc2 & Hk1 & Hf1 & Hf2).
  { destruct (K !! n) as [i|] eqn:Hi;
      [by apply reconcile_state_present|by apply reconcile_state_absent]. }
  assert (like n m mb) as Hmb.
  { split; try done. unfold reported, batched, mb. simpl. by rewrite Hb. }
  exists m1. split; [done|]. split; [etransitivity; [exact Hmb|by apply like_frame]|].
  rewrite modify_bind. fold mb. unfold attempt, gets, modify, of_result, mbind, Mon_bind.
  rewrite E. destruct (collect_batch m2) as [b|] eqn:Hb2.
  - rewrite send_batch_run by done. etransitivity; [by apply like_frame|]. simpl. split; try done.
    unfold reported, batched. simpl. rewrite Hb2, app_nil_r, bind_app. simpl. by rewrite app_nil_r.
  - etransitivity; [by apply like_frame|]. simpl. split; try done.
    unfold reported, batched. simpl. by rewrite Hb2.
Qed.

(** The carrier of a queried interface, as the monitor understands it. *)
Definition kernel_is_up (i : Interface) : bool :=
  match bi_link_state (base_iface i) with
  | Some LUp | Some LDormant => true
  | Some LUnknown => bool_decide (bi_state (base_iface i) = SUp)
  | _ => false
  end.

Lemma link_event_carrier env k i wifi e :
  link_event_from_iface env k i wifi = Some e →
  le_is_up e = kernel_is_up i ∧ (iface_wifi_phy_ssid i = None → le_ssid e = None).
Proof.
  unfold link_event_from_iface, kernel_is_up, iface_wifi_phy_ssid. intros [= <-].
  split; [by repeat case_match|]. by repeat case_match.
Qed.

Lemma like_observe n mac m : like n m (observe_mac n mac m).2.
Proof. by destruct mac. Qed.

Lemma tracked_after n m m' :
  udev_pending_events m' !! n = None → iface_monitor_list m' = iface_monitor_list m →
  explicitly_down m' = explicitly_down m →
  (started m', manual_pause_count m', netlink_handle m') =
    (started m, manual_pause_count m, netlink_handle m) →
  (∀ h d, delay_queue m' !! n = Some (h, d) →
    ∃ l, emited m' !! n = Some l ∧ ll_is_up l = le_is_up h) →
  tracked n m → tracked n m'.
Proof.
  intros Hp Hn Hd Hs Hq [????[? []]]. injection Hs as ? ? Hh.
  split; [congruence|congruence|done|done|]. split_and!; [congruence|congruence|by rewrite Hh].
Qed.

(** What [reconcile] does to an interface the kernel has. *)
Lemma reconciled_view n env i m :
  tracked n m → iface_wifi_phy_ssid i = None → (∀ x, env_udev_initialized env x = true) →
  let m' := reconciled n env i m in
  (∃ l, emited m !! n = Some l ∧ ll_is_up l = kernel_is_up i ∧ like n m m') ∨
  ((∀ l, emited m !! n = Some l → ll_is_up l ≠ kernel_is_up i) ∧ tracked n m' ∧
   ∃ l e, emited m' !! n = Some l ∧ ll_is_up l = kernel_is_up i ∧
     le_is_up e = kernel_is_up i ∧ le_is_delete e = false ∧ le_ssid e = None ∧
     ((delay_queue m' !! n = None ∧ about n (reported m') = about n (reported m) ++ [e]) ∨
      (delay_queue m' !! n = Some (e, env_instant env + from_secs DOWN_WAIT_SEC) ∧
       about n (reported m') = about n (reported m) ∧ kernel_is_up i = false))).
Proof.
  intros Ht Hssid Hudev. cbn zeta. unfold reconciled.
  pose proof (like_observe n (to_ascii_uppercase <$> bi_mac_address (base_iface i)) m) as Hl1.
  set (m1 := (observe_mac n _ m).2) in *. pose proof (like_tracked _ _ _ Hl1 Ht) as Ht1.
  destruct (link_event_from_iface env n i (wifi_monitor_enabled m1)) as [e|] eqn:He; [|done].
  pose proof (link_event_carrier _ _ _ _ _ He) as [Hup Hs]. specialize (Hs Hssid).
  apply link_event_from_iface_spec in He as (Hname & Hdel & _).
  rewrite (tracked_interested n m1 e Ht1 Hname). simpl.
  assert (event_extra_info e = None) as Hx by (unfold event_extra_info; by case_decide).
  assert (∀ l, is_same_state l e = bool_decide (ll_is_up l = kernel_is_up i)) as Hsame.
  { intros l. unfold is_same_state. rewrite Hx, Hup.
    by destruct (ll_is_up l), (kernel_is_up i). }
  rewrite <- (like_last _ _ _ Hl1).
  destruct (match emited m1 !! n with Some _ => _ | None => _ end) eqn:Hsm.
  { left. destruct (emited m1 !! n) as [l|]; [|done]. rewrite Hsame in Hsm.
    exists l. split_and!; [done|by apply bool_decide_eq_true in Hsm|done]. }
  right. assert (∀ l, emited m1 !! n = Some l → ll_is_up l ≠ kernel_is_up i) as Hdis.
  { intros l Hl. rewrite Hl, Hsame in Hsm. by apply bool_decide_eq_false in Hsm. }
  split; [done|]. unfold tried.
  rewrite (tracked_quiet n m1 e Ht1 Hname Hs), (tracked_interested n m1 e Ht1 Hname), Hdel, Hudev.
  simpl. destruct (debounced_view n env e m1 Hname Hdel) as (Hc & Hp & l & Hl & Hlu & Hcase).
  unfold config_of in Hc. injection Hc as Hc1 _ _ Hc2 Hc3 Hc4 Hc5 _.
  split.
  { apply (tracked_after n m1); try congruence.
    - rewrite Hp. apply Ht1.
    - intros h d Hq. exists l. split; [done|].
      destruct Hcase as [[Hq' _]|(Hq' & _ & _)]; rewrite Hq' in Hq; [done|].
      by injection Hq as <- _. }
  destruct Hcase as [[Hq Ha]|(Hq & Ha & l0 & Hl0 & Hupl)].
  - exists l, (announced m1 e). rewrite announced_up, announced_delete, Ha, (like_about _ _ _ Hl1).
    split_and!; try congruence; [|by left].
    rewrite <- Hs. unfold announced. by repeat case_match.
  - exists l, e. rewrite Ha, (like_about _ _ _ Hl1). split_and!; try congruence.
    right. split_and!; try done. destruct (kernel_is_up i) eqn:Hk; [|done].
    exfalso. apply (Hdis l0 Hl0). rewrite Hupl; [done|congruence].
Qed.

Section Recovery.
Context (n : string) (i : Interface).
Context (base : list InterfaceLinkEvent) (agreed : Prop) (D : Z).

(** The event worker was told: it knew already, or an event was sent since. *)
Definition told (m : Monitor) : Prop :=
  agreed ∨ ∃ evs e, about n (reported m) = base ++ evs ∧ e ∈ evs ∧
                    le_is_up e = kernel_is_up i ∧ le_is_delete e = false.

Definition owed (m : Monitor) : Prop :=
  kernel_is_up i = false ∧
  ∃ h d, delay_queue m !! n = Some (h, d) ∧ le_is_up h = false ∧ le_ssid h = None ∧ d ≤ D.

(** The last known state agrees with the kernel, and the event worker was told or will
    be by the time [D]. *)
Definition agreeing (m : Monitor) : Prop :=
  tracked n m ∧ (ll_is_up <$> emited m !! n) = Some (kernel_is_up i) ∧ (told m ∨ owed m).

(** Reports are only added. *)
Definition extends (m : Monitor) : Prop := ∃ evs, about n (reported m) = base ++ evs.

Lemma told_more m m' l :
  about n (reported m') = about n (reported m) ++ l → told m → told m'.
Proof.
  intros Ha [|(evs & e & Hm & He & ?)]; [by left|right].
  exists (evs ++ l), e. rewrite Ha, Hm, app_assoc, elem_of_app. auto.
Qed.

Lemma told_like m m' : like n m m' → told m → told m'.
Proof. intros Hl. apply (told_more _ _ []). rewrite app_nil_r. apply Hl. Qed.

Lemma told_now m m' e :
  extends m → about n (reported m') = about n (reported m) ++ [e] →
  le_is_up e = kernel_is_up i → le_is_delete e = false → told m'.
Proof.
  intros [evs Hm] Ha Hu Hd. right. exists (evs ++ [e]), e.
  rewrite Ha, Hm, app_assoc, elem_of_app. split_and!; try done. right. set_solver.
Qed.

Lemma agreeing_like m m' : like n m m' → agreeing m → agreeing m'.
Proof.
  intros Hl (Ht & He & Hto). split_and!; [by eapply like_tracked|by rewrite (like_last _ _ _ Hl)|].
  destruct Hto as [|[? Ho]]; [left; by eapply told_like|right].
  split; [done|]. by rewrite (like_held _ _ _ Hl).
Qed.

Lemma extends_more m m' l :
  about n (reported m') = about n (reported m) ++ l → extends m → extends m'.
Proof. intros Ha [evs Hm]. exists (evs ++ l). by rewrite Ha, Hm, app_assoc. Qed.

Lemma extends_like m m' : like n m m' → extends m → extends m'.
Proof. intros Hl. apply (extends_more _ _ []). rewrite app_nil_r. apply Hl. Qed.

(** The queues keep the agreement, and pay the debt when its time is over. *)
Lemma agreeing_queues (w : World) m :
  settled m → connected w m → agreeing m → extends m →
  let m2 := (process_delay_queue w (process_udev_pending_events w m).2).2 in
  agreeing m2 ∧ extends m2 ∧ (D < env_instant w → told m2).
Proof.
  intros Hset Hc Hag Hex. cbn zeta. pose proof Hag as (Ht & He & Hto).
  destruct (queue_phase n w m Hset Hc Ht) as (_ & _ & _ & [[Hov Hf]|(Hov & ma & Hka & Hfa & Hf)]).
  - apply like_frame in Hf.
    split; [by eapply agreeing_like|]. split; [by eapply extends_like|].
    intros HD. eapply told_like; [done|]. destruct Hto as [|[_ (h & d & Hq & _ & _ & Hd)]]; [done|].
    unfold delay_is_over in Hov. rewrite Hq in Hov. lia.
  - apply like_frame in Hfa, Hf.
    pose proof (agreeing_like _ _ Hfa Hag) as (Hta & Hea & Htoa).
    pose proof (extends_like _ _ Hfa Hex) as Hexa.
    destruct (emitted_late_view n w ma Hka Hta) as (Hcf & Hp & Hq & Hl & Ha & Hpay).
    set (mb := emitted_late w n ma) in *.
    assert (tracked n mb) as Htb.
    { unfold config_of in Hcf. injection Hcf as ? ? ? ? ? ? ? ?.
      by apply (tracked_after n ma); try congruence. }
    assert (told mb) as Htold.
    { destruct Htoa as [Htold|[Hk (h & d & Hqa & Hh & Hs & _)]].
      - destruct Ha as [Ha|(h & e & Ha & _)].
        + eapply (told_more _ _ []); [by rewrite app_nil_r|done].
        + by eapply told_more.
      - destruct Ha as [Ha|(h' & e & Ha & Hh' & Hue & Hde)].
        + destruct (Hpay h); try done. by rewrite Hqa.
        + rewrite Hqa in Hh'. injection Hh' as <-. eapply told_now; [done|exact Ha|congruence|done]. }
    assert (extends mb) as Hexb.
    { destruct Ha as [Ha|(h & e & Ha & _)]; [|by eapply extends_more].
      eapply (extends_more _ _ []); [by rewrite app_nil_r|done]. }
    split; [|split; [by eapply extends_like|intros; by eapply told_like]].
    eapply agreeing_like; [done|]. split_and!; [done|by rewrite Hl|by left].
Qed.

(** So does a reconciliation. *)
Lemma agreeing_reconcile (K : gmap string Interface) (w : World) m :
  K !! n = Some i → iface_wifi_phy_ssid i = None →
  settled m → connected w m → agreeing m → extends m → world_query w = Ok K →
  (∀ x, env_udev_initialized w x = true) →
  let m' := (reconcile w m).2 in
  agreeing m' ∧ extends m' ∧ (told m → told m').
Proof.
  intros HK Hssid Hset Hc Hag Hex HKw Hu. cbn zeta.
  destruct (reconcile_phase n w K m Hset Hc (proj1 Hag) HKw) as (_ & _ & m1 & _ & Hl1 & Hl2).
  rewrite HK in Hl2. pose proof (agreeing_like _ _ Hl1 Hag) as (Ht1 & He1 & _).
  destruct (reconciled_view n w i m1 Ht1 Hssid Hu) as [(l & _ & _ & Hl3)|(Hdis & _)].
  - assert (like n m (reconcile w m).2) as Hlk by (etransitivity; [done|by etransitivity]).
    split_and!; [by eapply agreeing_like|by eapply extends_like|by apply told_like].
  - exfalso. destruct (emited m1 !! n) as [l|]; [|done]. injection He1 as He1.
    by apply (Hdis l).
Qed.
End Recovery.

(** The queues never change what is known of the carrier. *)
Lemma queues_view n (w : World) m :
  settled m → connected w m → tracked n m →
  let m2 := (process_delay_queue w (process_udev_pending_events w m).2).2 in
  connected w m2 ∧ settled m2 ∧ tracked n m2 ∧ next_reconcile m2 = next_reconcile m ∧
  (ll_is_up <$> emited m2 !! n) = (ll_is_up <$> emited m !! n) ∧
  ∃ evs, about n (reported m2) = about n (reported m) ++ evs.
Proof.
  intros Hset Hc Ht. cbn zeta.
  destruct (queue_phase n w m Hset Hc Ht) as (Hc2 & Hset2 & _ & Hcase).
  split; [done|]. split; [done|].
  destruct Hcase as [[_ Hf]|(_ & ma & Hka & Hfa & Hf)].
  - split; [by eapply tracked_frame|]. pose proof (like_frame _ _ _ Hf) as Hl.
    split; [pose proof (frame_config _ _ _ Hf) as Hcf; unfold config_of in Hcf; congruence|].
    split; [by rewrite (like_last _ _ _ Hl)|]. exists []. rewrite app_nil_r. apply Hl.
  - pose proof (tracked_frame _ _ _ Hfa Ht) as Hta.
    destruct (emitted_late_view n w ma Hka Hta) as (Hcf & Hp & Hq & Hl & Ha & _).
    pose proof (frame_config _ _ _ Hfa) as Hcfa. pose proof (frame_config _ _ _ Hf) as Hcf2.
    rewrite Hcfa in Hcf. rewrite Hcf in Hcf2. unfold config_of in Hcf2, Hcf.
    injection Hcf2 as ? ? ? ? ? ? ? ?. injection Hcf as ? ? ? ? ? ? ? ?.
    apply like_frame in Hf, Hfa.
    split; [|split; [done|split]].
    + apply (like_tracked _ _ _ Hf). apply (tracked_after n m); try congruence.
    + by rewrite (like_last _ _ _ Hf), Hl, (like_last _ _ _ Hfa).
    + rewrite (like_about _ _ _ Hf). destruct Ha as [Ha|(h & e & Ha & _)].
      * exists []. rewrite Ha, app_nil_r. apply Hfa.
      * exists [e]. by rewrite Ha, (like_about _ _ _ Hfa).
Qed.

Lemma on_tick_like n (w : World) m :
  let m2 := (process_delay_queue w (process_udev_pending_events w m).2).2 in
  like n (if next_reconcile m2 <=? env_instant w then (reconcile w m2).2 else m2) (on_tick w m).
Proof. cbn zeta. unfold on_tick. by destruct (_ <=? _). Qed.

Section Ticks.
Context (n : string) (K : gmap string Interface).

(** The commander listens, the kernel has the interfaces [K], and udev is done with them. *)
Definition stable (w : World) : Prop :=
  env_channel_open w = true ∧ world_query w = Ok K ∧
  ∀ x, env_udev_initialized w x = true.

Section Present.
Context (i : Interface) (HK : K !! n = Some i) (Hssid : iface_wifi_phy_ssid i = None).
Context (base : list InterfaceLinkEvent) (agreed : Prop) (D : Z).

Lemma agreeing_on_tick w m :
  stable w → settled m → connected w m →
  agreeing n i base agreed D m → extends n base m →
  agreeing n i base agreed D (on_tick w m) ∧ extends n base (on_tick w m) ∧
  (D < env_instant w → told n i base agreed (on_tick w m)).
Proof.
  intros (Ho & HKw & Hu) Hset Hc Hag Hex. pose proof (on_tick_like n w m) as Hlk.
  cbn zeta in Hlk.
  destruct (agreeing_queues n i base agreed D w m Hset Hc Hag Hex) as (Hag2 & Hex2 & Hto2).
  destruct (queues_view n w m Hset Hc (proj1 Hag)) as (Hc2 & Hset2 & _).
  set (m2 := (process_delay_queue w (process_udev_pending_events w m).2).2) in *.
  destruct (next_reconcile m2 <=? env_instant w).
  - destruct (agreeing_reconcile n i base agreed D K w m2 HK Hssid Hset2 Hc2 Hag2 Hex2 HKw Hu)
      as (Hag3 & Hex3 & Hto3).
    split_and!; [by eapply agreeing_like|by eapply extends_like|].
    intros HD. eapply told_like; [done|]. auto.
  - split_and!; [by eapply agreeing_like|by eapply extends_like|].
    intros HD. eapply told_like; [done|]. auto.
Qed.
End Present.

(** The tick at which a reconciliation is due. *)
Lemma first_tick_present i (w : World) m :
  K !! n = Some i → iface_wifi_phy_ssid i = None → stable w → settled m → connected w m →
  tracked n m → next_reconcile m ≤ env_instant w →
  let base := about n (reported m) in
  let agreed := (ll_is_up <$> emited m !! n) = Some (kernel_is_up i) in
  agreeing n i base agreed (env_instant w + from_secs DOWN_WAIT_SEC) (on_tick w m) ∧
  extends n base (on_tick w m).
Proof.
  intros HK Hssid Hst Hset Hc Ht Hdue. cbn zeta.
  set (base := about n (reported m)).
  assert (extends n base m) as Hex by (exists []; by rewrite app_nil_r).
  destruct (decide ((ll_is_up <$> emited m !! n) = Some (kernel_is_up i))) as [Hag|Hdis].
  { edestruct (agreeing_on_tick i HK Hssid base) as (? & ? & _); [done..| |done|by split].
    split_and!; [done|done|]. left. by left. }
  destruct Hst as (Ho & HKw & Hu). pose proof (on_tick_like n w m) as Hlk. cbn zeta in Hlk.
  destruct (queues_view n w m Hset Hc Ht) as (Hc2 & Hset2 & Ht2 & Hnr & Hup & evs & Ha2).
  set (m2 := (process_delay_queue w (process_udev_pending_events w m).2).2) in *.
  rewrite Hnr, (proj2 (Z.leb_le _ _) Hdue) in Hlk.
  destruct (reconcile_phase n w K m2 Hset2 Hc2 Ht2 HKw) as (_ & _ & m1 & _ & Hl1 & Hl2).
  rewrite HK in Hl2. pose proof (like_tracked _ _ _ Hl1 Ht2) as Ht1.
  assert (extends n base m1) as Hex1.
  { exists evs. by rewrite (like_about _ _ _ Hl1). }
  destruct (reconciled_view n w i m1 Ht1 Hssid Hu)
    as [(l & Hl & Hlu & _)|(_ & Ht3 & l & e & Hl & Hlu & Heu & Hed & Hes & Hcase)].
  { exfalso. apply Hdis. by rewrite <- Hup, <- (like_last _ _ _ Hl1), Hl, <- Hlu. }
  assert (like n (reconciled n w i m1) (on_tick w m)) as Hl3 by by etransitivity.
  set (m3 := reconciled n w i m1) in *.
  split; [eapply agreeing_like; [done|]|eapply extends_like; [done|]].
  - split_and!; [done|by rewrite Hl; simpl; rewrite Hlu|].
    destruct Hcase as [[_ Ha]|(Hq & _ & Hk)]; [left; by eapply told_now|right].
    split; [done|]. exists e, (env_instant w + from_secs DOWN_WAIT_SEC).
    split_and!; [done|congruence|done|lia].
  - destruct Hcase as [[_ Ha]|(_ & Ha & _)]; [by eapply extends_more|].
    eapply (extends_more _ _ _ _ []); [by rewrite app_nil_r|done].
Qed.

(** An interface the kernel no longer has. *)

Definition gone (m : Monitor) : Prop := tracked n m ∧ emited m !! n = None.

(** The SSID last seen is not brought down either. *)
Definition ssid_not_down (m : Monitor) : Prop :=
  ∀ l s, emited m !! n = Some l → ll_extra_info l = Some s → s ∉ explicitly_down m.

Lemma gone_like m m' : like n m m' → gone m → gone m'.
Proof.
  intros Hl [Ht He]. split; [by eapply like_tracked|by rewrite (like_last _ _ _ Hl)].
Qed.

Lemma gone_on_tick (w : World) m :
  K !! n = None → stable w → settled m → connected w m → gone m → gone (on_tick w m).
Proof.
  intros HK (_ & HKw & _) Hset Hc [Ht He]. pose proof (on_tick_like n w m) as Hlk.
  cbn zeta in Hlk.
  destruct (queues_view n w m Hset Hc Ht) as (Hc2 & Hset2 & Ht2 & _ & Hup & _).
  set (m2 := (process_delay_queue w (process_udev_pending_events w m).2).2) in *.
  rewrite He in Hup. apply fmap_None in Hup. eapply gone_like; [done|].
  destruct (next_reconcile m2 <=? env_instant w); [|by split].
  destruct (reconcile_phase n w K m2 Hset2 Hc2 Ht2 HKw) as (_ & _ & m1 & _ & Hl1 & Hl2).
  rewrite HK in Hl2. eapply gone_like; [done|]. eapply (gone_like m2); [|by split].
  unfold untracked. rewrite (like_last _ _ _ Hl1), Hup. done.
Qed.

Lemma late_ssid_not_down env m :
  keyed m → ssid_not_down m → ssid_not_down (emitted_late env n m).
Proof.
  intros Hk Hs. unfold emitted_late.
  destruct (delay_queue m !! n) as [[h t]|] eqn:Hq; [|done].
  destruct (event_is_explicitly_down h (explicitly_down m)) eqn:Hx; [done|].
  destruct (match emited m !! le_iface_name h with Some _ => _ | None => _ end); [done|].
  destruct (proj1 Hk _ _ _ Hq) as [Hname Hdel].
  replace (upd_delay_queue (delete n) m) with
    (upd_delay_queue (delete (le_iface_name h)) m) by by rewrite Hname.
  rewrite notified_dequeued. intros l s. rewrite notified_down.
  pose proof (project_notified h m) as Hpr. cbn zeta in Hpr. rewrite Hdel, Hname in Hpr.
  injection Hpr as -> _ _ _. intros [= <-]. simpl.
  assert (event_extra_info (announced m h) = event_extra_info h) as ->
    by (unfold announced; by repeat case_match).
  unfold event_extra_info. case_decide; [|done]. intros Hssid.
  unfold event_is_explicitly_down in Hx. rewrite Hssid in Hx.
  apply orb_false_iff in Hx as [_ Hx]. by apply bool_decide_eq_false in Hx.
Qed.

Lemma ssid_not_down_like m m' : like n m m' → ssid_not_down m → ssid_not_down m'.
Proof. intros [He _ _ _ _ Hd _] Hs l s. rewrite He, Hd. apply Hs. Qed.

(** The tick at which a reconciliation is due. *)
Lemma first_tick_absent (w : World) m :
  K !! n = None → stable w → settled m → connected w m → tracked n m → ssid_not_down m →
  next_reconcile m ≤ env_instant w →
  gone (on_tick w m) ∧
  (is_Some (emited m !! n) → ∃ evs e, about n (reported (on_tick w m)) =
     about n (reported m) ++ evs ∧ e ∈ evs ∧ le_is_delete e = true).
Proof.
  intros HK Hst Hset Hc Ht Hs Hdue.
  destruct (emited m !! n) as [l0|] eqn:Hl0.
  2: { split; [by apply gone_on_tick|]. by intros []. }
  destruct Hst as (Ho & HKw & Hu). pose proof (on_tick_like n w m) as Hlk. cbn zeta in Hlk.
  assert (ssid_not_down (process_delay_queue w (process_udev_pending_events w m).2).2) as Hs2.
  { destruct (queue_phase n w m Hset Hc Ht) as (_ & _ & _ & [[_ Hf]|(_ & ma & Hka & Hfa & Hf)]).
    - eapply ssid_not_down_like; [by apply like_frame|done].
    - eapply ssid_not_down_like; [by apply like_frame|]. apply late_ssid_not_down; [done|].
      eapply ssid_not_down_like; [by apply like_frame|done]. }
  destruct (queues_view n w m Hset Hc Ht) as (Hc2 & Hset2 & Ht2 & Hnr & Hup & evs & Ha2).
  set (m2 := (process_delay_queue w (process_udev_pending_events w m).2).2) in *.
  rewrite Hnr, (proj2 (Z.leb_le _ _) Hdue) in Hlk.
  destruct (reconcile_phase n w K m2 Hset2 Hc2 Ht2 HKw) as (_ & _ & m1 & Hk1 & Hl1 & Hl2).
  rewrite HK in Hl2. pose proof (like_tracked _ _ _ Hl1 Ht2) as Ht1.
  pose proof (ssid_not_down_like _ _ Hl1 Hs2) as Hs1.
  assert (∃ l, emited m1 !! n = Some l) as [l Hl].
  { rewrite (like_last _ _ _ Hl1). rewrite Hl0 in Hup.
    destruct (emited m2 !! n) as [l|]; [by eexists|done]. }
  assert (∃ e, gone (untracked n w m1) ∧ le_is_delete e = true ∧
    about n (reported (untracked n w m1)) = about n (reported m1) ++ [e]) as (e & Hg & Hde & Ha).
  { unfold untracked. rewrite Hl. set (e := to_delete_event w l n).
    pose proof (like_observe n (ll_mac_address l) m1) as Hlo.
    set (mo := (observe_mac n (ll_mac_address l) m1).2) in *.
    pose proof (like_tracked _ _ _ Hlo Ht1) as Hto.
    rewrite (tracked_interested n mo e Hto) by done.
    assert (event_is_explicitly_down e (explicitly_down mo) = false) as Hx.
    { unfold event_is_explicitly_down. rewrite (bool_decide_false (le_iface_name e ∈ _)).
      - simpl. destruct (ll_extra_info l) as [s|] eqn:Hi; [|done].
        apply bool_decide_false. rewrite (like_down _ _ _ Hlo). by apply (Hs1 l).
      - apply Hto. }
    unfold tried. rewrite Hx, (tracked_interested n mo e Hto) by done. simpl.
    set (md := upd_udev_pending_events (delete n) mo).
    pose proof (project_notified e md) as Hpr. cbn zeta in Hpr. simpl in Hpr.
    rewrite lookup_delete_eq in Hpr. injection Hpr as Hln _ Hqn Hpn.
    exists (announced md e). split; [|split].
    - split; [|exact Hln]. apply (tracked_after n mo); try done.
      + unfold notified, pushed. by destruct (collect_batch _).
      + exact (notified_down e md).
      + unfold notified, pushed. by destruct (collect_batch _).
      + intros h d Hq. exfalso. simpl in Hq. by rewrite Hqn in Hq.
    - done.
    - pose proof (about_notified e md) as Hab. simpl in Hab.
      rewrite <- (like_about _ _ _ Hlo). exact Hab. }
  split.
  - eapply gone_like; [done|]. eapply gone_like; [done|]. done.
  - intros _. exists (evs ++ [e]), e.
    rewrite (like_about _ _ _ Hlk), (like_about _ _ _ Hl2), Ha, (like_about _ _ _ Hl1), Ha2, app_assoc.
    split_and!; [done|set_solver|done].
Qed.
End Ticks.

(** ** Runs *)

(** A wake-up of the loop that is not about the interface [n]. *)
Definition unrelated (n : string) (w : World) (ev : LoopEvent) : Prop :=
  match ev with
  | Tick | NetlinkClosed => True
  | GotNetlink msg => ∀ wifi e mac,
      parse_route_netlink_msg w msg wifi = Some (e, mac) → le_iface_name e ≠ n
  | GotCmd _ => False
  end.

Lemma unrelated_like n (w : World) ev m :
  unrelated n w ev → ev ≠ Tick → keyed m → connected w m → like n m (loop_branch w ev m).
Proof.
  intros Hu Hev Hk Hc. destruct ev as [cmd|msg| |]; try done. simpl in *.
  assert (goes w (framed n) (process_rtnl_message w msg) m) as Hg.
  { apply goes_gets. destruct (parse_route_netlink_msg _ _ _) as [[e mac]|] eqn:He;
      [|apply goes_ret; apply _].
    apply Hu in He. apply goes_seq; [apply _|by apply framed_observe|].
    intros m1. by apply framed_try_notify. }
  destruct (Hg Hc) as ([] & m' & -> & _ & Hf). destruct (Hf Hk). by apply like_frame.
Qed.

(** An iteration is its branch, up to the receiver. *)
Lemma iteration_like n (w : World) ev m m' :
  loop_iteration w ev m = Some m' → (∀ cmd, ev ≠ GotCmd cmd) →
  ∃ r, like n (loop_branch w ev (upd_netlink_msg_receiver (λ _, r) m)) m'.
Proof.
  intros Hit Hev. unfold loop_iteration in Hit. destruct (netlink_msg_receiver m) as [r|].
  - injection Hit as <-. exists None. by destruct (manual_pause_count _ =? 0).
  - destruct ev as [cmd|msg| |]; try done. by destruct (Hev cmd).
Qed.

Section Run.
Context (n : string) (K : gmap string Interface).

Definition uneventful (l : list (World * LoopEvent)) : Prop :=
  Forall (λ s, stable K s.1 ∧ unrelated n s.1 s.2) l.

(** A property that ticks keep and that only looks at the interface lasts. *)
Lemma uneventful_run (P : Monitor → Prop) m l m' :
  (∀ m m', like n m m' → P m → P m') →
  (∀ w m, stable K w → settled m → connected w m → P m → P (on_tick w m)) →
  run m l m' → uneventful l → settled m → msg_to_commander m = true → P m →
  P m' ∧ settled m' ∧ msg_to_commander m' = true.
Proof.
  intros Hlike Htick. induction 1 as [m|m w ev m1 l m' Hit Hrun IH]; intros Hun Hset Hs HP; [done|].
  apply Forall_cons in Hun as [[Hst Hu] Hun]. simpl in *.
  assert (connected w m) as Hc by (split; [apply Hst|done]).
  destruct (loop_iteration_tracked w ev m m1 n Hit Hset Hc) as (Hset1 & [_ Hs1] & _).
  apply IH; try done.
  destruct (iteration_like n w ev m m1 Hit) as [r Hl]; [by destruct ev|].
  set (mr := upd_netlink_msg_receiver (λ _, r) m) in *.
  assert (like n m mr) as Hmr by done.
  eapply Hlike; [done|].
  assert (ev = Tick ∨ ev ≠ Tick) as [->|Hev] by (destruct ev; auto).
  - apply Htick; try done. by eapply Hlike.
  - eapply Hlike; [|exact HP]. etransitivity; [done|].
    apply unrelated_like; try done. apply Hset.
Qed.
End Run.

(** Events about [n] that [m'] reported and [m] had not. *)
Definition newly_reported (n : string) (m m' : Monitor) (e : InterfaceLinkEvent) : Prop :=
  ∃ evs, about n (reported m') = about n (reported m) ++ evs ∧ e ∈ evs.

Lemma run_cons_inv m w ev l m' :
  run m ((w, ev) :: l) m' → ∃ m1, loop_iteration w ev m = Some m1 ∧ run m1 l m'.
Proof. inversion 1; subst; eauto. Qed.

Lemma run_snoc_inv m l w ev m' :
  run m (l ++ [(w, ev)]) m' → ∃ m1, run m l m1 ∧ loop_iteration w ev m1 = Some m'.
Proof.
  revert m. induction l as [|[w0 ev0] l IH]; intros m Hr; simpl in Hr.
  - apply run_cons_inv in Hr as (m1 & Hi & Hr). inversion Hr; subst. exists m.
    split; [constructor|done].
  - apply run_cons_inv in Hr as (m1 & Hi & Hr). destruct (IH _ Hr) as (m2 & ? & ?).
    exists m2. split; [by econstructor|done].
Qed.

(** A first and a last tick with an uneventful run between them. *)
Lemma between_ticks n K (P P1 : Monitor → Prop) w0 l w1 m m' :
  run m ((w0, Tick) :: l ++ [(w1, Tick)]) m' →
  settled m → msg_to_commander m = true → tracked n m →
  stable K w0 → uneventful n K l → stable K w1 →
  (∀ m m', like n m m' → P m → P m') → (∀ m m', like n m m' → P1 m → P1 m') →
  (∀ mr, like n m mr → settled mr → connected w0 mr → next_reconcile mr = next_reconcile m →
    P (on_tick w0 mr)) →
  (∀ w m, stable K w → settled m → connected w m → P m → P (on_tick w m)) →
  (∀ m, settled m → connected w1 m → P m → P1 (on_tick w1 m)) →
  P1 m'.
Proof.
  intros Hrun Hset Hs Ht Hst0 Hun Hst1 HP HP1 Hfirst Htick Hlast.
  apply run_cons_inv in Hrun as (m1 & Hit0 & Hrun).
  apply run_snoc_inv in Hrun as (m2 & Hrun & Hit1).
  assert (connected w0 m) as Hc0 by (split; [apply Hst0|done]).
  destruct (loop_iteration_tracked w0 Tick m m1 n Hit0 Hset Hc0) as (Hset1 & [_ Hs1] & _).
  destruct (iteration_like n w0 Tick m m1 Hit0) as [r0 Hl0]; [done|].
  destruct (uneventful_run n K P m1 l m2) as (HP2 & Hset2 & Hs2); try done.
  { eapply HP; [exact Hl0|]. by apply Hfirst. }
  destruct (iteration_like n w1 Tick m2 m' Hit1) as [r1 Hl1]; [done|].
  eapply HP1; [exact Hl1|]. apply Hlast; [done|by split; [apply Hst1|]|].
  apply (HP m2); [by split|done].
Qed.

Lemma present_is_recovered n K i w0 l w1 m m' :
  run m ((w0, Tick) :: l ++ [(w1, Tick)]) m' →
  settled m → msg_to_commander m = true → tracked n m →
  stable K w0 → uneventful n K l → stable K w1 →
  next_reconcile m ≤ env_instant w0 →
  env_instant w0 + from_secs DOWN_WAIT_SEC < env_instant w1 →
  K !! n = Some i → iface_wifi_phy_ssid i = None →
  (ll_is_up <$> emited m' !! n) = Some (kernel_is_up i) ∧
  told n i (about n (reported m)) ((ll_is_up <$> emited m !! n) = Some (kernel_is_up i)) m'.
Proof.
  intros Hrun Hset Hs Ht Hst0 Hun Hst1 Hdue Hlate HK Hssid.
  set (base := about n (reported m)).
  set (agreed := (ll_is_up <$> emited m !! n) = Some (kernel_is_up i)).
  set (D := env_instant w0 + from_secs DOWN_WAIT_SEC) in *.
  apply (between_ticks n K (λ m, agreeing n i base agreed D m ∧ extends n base m)
    (λ m', (ll_is_up <$> emited m' !! n) = Some (kernel_is_up i) ∧ told n i base agreed m')
    w0 l w1 m m'); try done.
  - intros ma mb Hl []. split; [by eapply agreeing_like|by eapply extends_like].
  - intros ma mb Hl [He Hto]. split; [by rewrite (like_last _ _ _ Hl)|by eapply told_like].
  - intros mr Hl Hsr Hcr Hnr. unfold base, agreed.
    rewrite <- (like_about _ _ _ Hl), <- (like_last _ _ _ Hl).
    apply (first_tick_present n K); try done; [by eapply like_tracked|by rewrite Hnr].
  - intros w ma Hst Hsa Hca [Ha1 Ha2].
    destruct (agreeing_on_tick n K i HK Hssid base agreed D w ma) as (? & ? & _); done.
  - intros ma Hsa Hca [Ha1 Ha2].
    destruct (agreeing_on_tick n K i HK Hssid base agreed D w1 ma) as ((_ & He & _) & _ & Hto);
      [done..|]. split; [done|by apply Hto].
Qed.

Lemma absent_is_recovered n K w0 l w1 m m' :
  run m ((w0, Tick) :: l ++ [(w1, Tick)]) m' →
  settled m → msg_to_commander m = true → tracked n m →
  stable K w0 → uneventful n K l → stable K w1 →
  next_reconcile m ≤ env_instant w0 → K !! n = None → ssid_not_down n m →
  gone n m' ∧ (is_Some (emited m !! n) → ∃ e, newly_reported n m m' e ∧ le_is_delete e = true).
Proof.
  intros Hrun Hset Hs Ht Hst0 Hun Hst1 Hdue HK Hsd.
  set (P := λ m', gone n m' ∧
    (is_Some (emited m !! n) → ∃ e, newly_reported n m m' e ∧ le_is_delete e = true)).
  assert (∀ ma mb l, gone n mb → about n (reported mb) = about n (reported ma) ++ l →
    P ma → P mb) as HP.
  { intros ma mb k Hg Hr [_ Hd]. split; [done|]. intros He.
    destruct (Hd He) as (e & (evs & Hm & Hin) & Hde). exists e. split; [|done].
    exists (evs ++ k). rewrite Hr, Hm, app_assoc, elem_of_app. auto. }
  assert (∀ ma mb, like n ma mb → P ma → P mb) as HPl.
  { intros ma mb Hl [Hg Hd]. apply (HP ma mb []); [by eapply gone_like| |done].
    rewrite app_nil_r. apply Hl. }
  assert (∀ w ma, stable K w → settled ma → connected w ma → P ma → P (on_tick w ma)) as HPt.
  { intros w ma Hst Hsa Hca Hp. destruct (tracks_on_tick w n ma Hsa Hca) as [_ Hsim].
    destruct (Hsim Hsa) as (_ & _ & _ & evs & _ & Hr).
    eapply HP; [|exact Hr|done]. apply (gone_on_tick n K); try done. apply Hp. }
  apply (between_ticks n K P P w0 l w1 m m'); try done; [|intros; by apply HPt].
  intros mr Hl Hsr Hcr Hnr.
  destruct (first_tick_absent n K w0 mr) as [Hg Hd]; try done;
    [by eapply like_tracked|by eapply ssid_not_down_like|by rewrite Hnr|].
  split; [done|]. rewrite <- (like_last _ _ _ Hl). intros He.
  destruct (Hd He) as (evs & e & Ha & Hin & Hde). exists e. split; [|done].
  exists evs. by rewrite Ha, (like_about _ _ _ Hl).
Qed.

(** C15: liveness.  Whatever notifications of the kernel were lost, the event worker learns
    the state of a watched interface within one reconciliation and one debounce delay: if
    the loop keeps waking up while the kernel has the interfaces [K], one of the wake-ups
    being a tick at which a reconciliation is due and a later one a tick after the debounce
    delay, then at the end the last known carrier of the interface is the one the kernel
    has, and an event with that carrier was sent unless it was known before; and an
    interface the kernel no longer has was reported as deleted and is forgotten. *)
Theorem lost_changes_are_recovered n K w0 l w1 m m' :
  run m ((w0, Tick) :: l ++ [(w1, Tick)]) m' →
  settled m → msg_to_commander m = true → tracked n m →
  stable K w0 → uneventful n K l → stable K w1 →
  next_reconcile m ≤ env_instant w0 →
  env_instant w0 + from_secs DOWN_WAIT_SEC < env_instant w1 →
  match K !! n with
  | Some i => iface_wifi_phy_ssid i = None →
      (ll_is_up <$> emited m' !! n) = Some (kernel_is_up i) ∧
      ((ll_is_up <$> emited m !! n) = Some (kernel_is_up i) ∨
       ∃ e, newly_reported n m m' e ∧ le_is_up e = kernel_is_up i ∧ le_is_delete e = false)
  | None => ssid_not_down n m →
      emited m' !! n = None ∧
      (is_Some (emited m !! n) → ∃ e, newly_reported n m m' e ∧ le_is_delete e = true)
  end.
Proof.
  intros Hrun Hset Hs Ht Hst0 Hun Hst1 Hdue Hlate. destruct (K !! n) as [i|] eqn:HK.
  - intros Hssid.
    destruct (present_is_recovered n K i w0 l w1 m m') as [He Hto]; try done. split; [done|].
    destruct Hto as [|(evs & e & Ha & Hin & ?)]; [by left|right]. exists e. split; [|done].
    by exists evs.
  - intros Hsd. destruct (absent_is_recovered n K w0 l w1 m m') as [[_ He] Hd]; done.
Qed.

(** A due tick, an uneventful notification and tick, and a late tick, with the carrier lost
    without a notification. *)
Definition ex_between : list (World * LoopEvent) :=
  [(ex_world 7 false, GotNetlink (NewLink (ex_link "eth2" true))); (ex_world 8 false, Tick)].

Definition ex_ticks : list (World * LoopEvent) :=
  (ex_world 5 false, Tick) :: ex_between ++ [(ex_world 16 false, Tick)].

Lemma ex_stable t (up : bool) :
  stable {["eth1" := ex_iface "eth1" (if up then LUp else LDown)]} (ex_world t up).
Proof. by split_and!. Qed.

Lemma ex_monitor_tracked : tracked "eth1" ex_monitor.
Proof.
  split; [by apply (bool_decide_eq_true_1 _); vm_compute|
    by apply (bool_decide_eq_true_1 _); vm_compute|by vm_compute| |].
  - assert (delay_queue ex_monitor = ∅) as -> by by vm_compute. intros ? ?. by rewrite lookup_empty.
  - split_and!; [by vm_compute|by vm_compute|]. exists 1%nat. by vm_compute.
Qed.

Lemma lost_changes_are_recovered_witness :
  ∃ m' e, loop_steps ex_ticks ex_monitor = Some m' ∧
    newly_reported "eth1" ex_monitor m' e ∧ le_is_up e = false.
Proof.
  destruct (loop_steps ex_ticks ex_monitor) as [m'|] eqn:E; [|by vm_compute in E].
  pose proof (lost_changes_are_recovered "eth1" {["eth1" := ex_iface "eth1" LDown]}
    (ex_world 5 false) ex_between (ex_world 16 false) ex_monitor m'
    (loop_steps_run _ _ _ E) ex_monitor_settled) as H.
  assert (uneventful "eth1" {["eth1" := ex_iface "eth1" LDown]} ex_between) as Hun.
  { apply Forall_cons_2; [split; [apply (ex_stable 7 false)|]|].
    2: { apply Forall_cons_2; [split; [apply (ex_stable 8 false)|exact I]|constructor]. }
    intros wifi e mac He. cbn [fst] in He.
    assert (le_iface_name <$> (fst <$> Some (e, mac)) = Some "eth2") as Hn
      by (rewrite <- He; by destruct wifi).
    injection Hn as ->. done. }
  specialize (H eq_refl ex_monitor_tracked (ex_stable 5 false) Hun (ex_stable 16 false)).
  rewrite lookup_singleton_eq in H.
  destruct H as [_ [Hag|(e & He & Hup & _)]]; [by vm_compute|by vm_compute|done| |].
  - exfalso. by vm_compute in Hag.
  - exists m', e. split; [done|]. split; [exact He|exact Hup].
Defined.

(** The loop wakes up in time: within a second while an event is held back or waits for
    udev, and no later than the due reconciliation (or a millisecond) while the session is
    open. *)
Lemma ticker_wakes_in_time env m :
  (delay_queue m ≠ ∅ ∨ udev_pending_events m ≠ ∅ →
    ticker_reset env m ≤ from_secs DELAY_TICK_SEC_IF_BUSY) ∧
  (started m = true → manual_pause_count m = 0 → is_Some (netlink_handle m) →
    env_instant env + ticker_reset env m ≤
      Z.max (next_reconcile m) (env_instant env) + 1000000).
Proof.
  unfold ticker_reset, from_secs. split.
  - intros Hb. assert (bool_decide (delay_queue m = ∅) &&
      bool_decide (udev_pending_events m = ∅) = false) as ->.
    { apply andb_false_iff. rewrite !bool_decide_eq_false. tauto. }
    unfold DELAY_TICK_SEC_IF_BUSY. destruct (started m && _ && _); lia.
  - intros -> -> [s ->]. change (true && (0 =? 0) && negb (bool_decide (Some s = None))) with true.
    unfold DELAY_TICK_SEC_IF_BUSY, DELAY_TICK_SEC_IF_FREE.
    destruct (bool_decide _ && bool_decide _); lia.
Qed.

(** ** A change of the SSID alone *)

Definition ex_wifi (ssid : string) : Interface :=
  IfWifiPhy (set_bi_link_state (Some LUp) (set_bi_iface_index (Some 3)
    (set_bi_kernel_iface_name "wlan0" (base_new "wlan0" TWifiPhy)))) (Some (wifi_of ssid None None false None)).

(** The query finds [wlan0] associated with [ssid]. *)
Definition ex_wifi_world (t : Z) (ssid : string) : World :=
  mk_world (ex_env t) true [] true (Ok {["wlan0" := ex_wifi ssid]}).

(** A reconciliation announces the SSID; later ones, and the delay queue, drop a new one. *)
Example ssid_change_is_dropped :
  (λ m, (le_ssid <$> reported m, ll_extra_info <$> emited m !! "wlan0")) <$>
    loop_steps
      [(ex_wifi_world 0 "home", GotCmd SetCommanderSender);
       (ex_wifi_world 0 "home", GotCmd EnableWifiMonitor);
       (ex_wifi_world 0 "home", GotCmd Start);
       (ex_wifi_world 5 "home", Tick); (ex_wifi_world 10 "office", Tick);
       (ex_wifi_world 21 "office", Tick); (ex_wifi_world 100 "office", Tick);
       (ex_wifi_world 200 "office", Tick)] (monitor_new 0) =
  Some ([Some "home"], Some (Some "home")).
Proof. vm_compute. reflexivity. Qed.
