(* ===== verification/MonitorSession.v ===== *)
(** * MonitorSession: pausing, resuming and the netlink session

    When the worker of Monitor.v listens to the kernel.  The invariant of its
    loop ties the session to the pause counter and the receiver; a pause and a
    resume during which the kernel did not change report nothing. *)

From S2P Require Export MonitorLive.

#[local] Open Scope Z_scope.

(** ** The invariant of the session *)

(** An open session has been started, is not paused, has a receiver, and has reconciled the
    snapshot of the last pause; the counter is one of an unsigned 32 bit integer. *)
Definition session_ok (m : Monitor) : Prop :=
  0 ≤ manual_pause_count m ≤ u32_max ∧
  (is_Some (netlink_handle m) →
    started m = true ∧ manual_pause_count m = 0 ∧ is_Some (netlink_msg_receiver m) ∧
    paused_state m = None).

(** What ties the session together and the handlers of events never touch. *)
Definition session_of (m : Monitor) :=
  (started m, manual_pause_count m, netlink_handle m, netlink_msg_receiver m, paused_state m,
   connections m).

(** [x] keeps the part [p] of the state, whether it succeeds or not. *)
Definition keeps_part {A X} (p : Monitor → X) (x : Mon A) : Prop := ∀ m, p (x m).2 = p m.
Abbreviation keeps_session := (keeps_part session_of).

Section Keeps.
Context {X : Type} (p : Monitor → X).
#[local] Abbreviation keeps_p := (keeps_part p).

Lemma keeps_ret {A} (a : A) : keeps_p (mret a).
Proof. done. Qed.

Lemma keeps_bind {A B} (x : Mon A) (k : A → Mon B) :
  keeps_p x → (∀ a, keeps_p (k a)) → keeps_p (x ≫= k).
Proof.
  intros Hx Hk m. unfold mbind, Mon_bind. specialize (Hx m).
  destruct (x m) as [[a|e] m1]; [|done]. by rewrite (Hk a).
Qed.

Lemma keeps_gets {A} (f : Monitor → A) : keeps_p (gets f).
Proof. done. Qed.

Lemma keeps_modify f : (∀ m, p (f m) = p m) → keeps_p (modify f).
Proof. intros Hf m. apply Hf. Qed.

Lemma keeps_for_each {A} (f : A → Mon ()) l :
  (∀ x, keeps_p (f x)) → keeps_p (for_each f l).
Proof. intros Hf. induction l; simpl; [apply keeps_ret|]. apply keeps_bind; auto. Qed.

Lemma keeps_fold {A B} (f : B → A → Mon B) l b :
  (∀ b x, keeps_p (f b x)) → keeps_p (fold_mon f b l).
Proof.
  intros Hf. revert b. induction l; intros b; simpl; [apply keeps_ret|].
  apply keeps_bind; auto.
Qed.

Lemma keeps_of_result {A} (r : res A) : keeps_p (of_result r).
Proof. done. Qed.

Lemma keeps_attempt {A} (x : Mon A) : keeps_p x → keeps_p (attempt x).
Proof. intros Hx m. specialize (Hx m). unfold attempt. by destruct (x m). Qed.
End Keeps.

(** Walk through a handler. *)
Ltac keeps :=
  repeat match goal with
    | |- keeps_part _ (mret _) => apply keeps_ret
    | |- keeps_part _ (gets _) => apply keeps_gets
    | |- keeps_part _ (throw _) => done
    | |- keeps_part _ (of_result _) => apply keeps_of_result
    | |- keeps_part _ (attempt _) => apply keeps_attempt
    | |- keeps_part _ (modify _) => apply keeps_modify; intros ?; reflexivity
    | |- keeps_part _ (_ ≫= _) => apply keeps_bind; [|intros ?]
    | |- keeps_part _ (for_each _ _) => apply keeps_for_each; intros ?
    | |- keeps_part _ (fold_mon _ _ _) => apply keeps_fold; intros ? ?
    | |- keeps_part _ (when_ ?b _) => destruct b; simpl
    | |- keeps_part _ (match ?x with _ => _ end) => destruct x
    | |- keeps_part _ (let _ := _ in _) => cbv zeta
    end.

Lemma keeps_send_cmd env cmd : keeps_session (send_cmd env cmd).
Proof. unfold send_cmd. keeps. Qed.

Lemma keeps_notify env e : keeps_session (notify env e).
Proof. unfold notify. keeps; apply keeps_send_cmd. Qed.

Lemma keeps_try_notify env e : keeps_session (try_notify env e).
Proof.
  unfold try_notify, record_suppressed, debounce, delay_notify. keeps; apply keeps_notify.
Qed.

Lemma keeps_queues env :
  keeps_session (process_udev_pending_events env) ∧ keeps_session (process_delay_queue env).
Proof.
  split.
  - unfold process_udev_pending_events, retry_udev_pending. keeps; apply keeps_try_notify.
  - unfold process_delay_queue, emit_delayed. keeps; apply keeps_notify.
Qed.

Lemma keeps_reconcile w : keeps_session (reconcile w).
Proof.
  unfold reconcile, send_batch, reconcile_state, reconcile_iface, reconcile_tracked, observe_mac.
  keeps; first [apply keeps_send_cmd|apply keeps_try_notify].
Qed.

Lemma keeps_rtnl env msg : keeps_session (process_rtnl_message env msg).
Proof. unfold process_rtnl_message, observe_mac. keeps; apply keeps_try_notify. Qed.

(** What is left of the session when [resume] ends, with or without an error. *)
Definition resumed (m m' : Monitor) : Prop :=
  started m' = started m ∧ manual_pause_count m' = manual_pause_count m ∧
  ((netlink_handle m' = netlink_handle m ∧ netlink_msg_receiver m' = netlink_msg_receiver m ∧
    (paused_state m = None → paused_state m' = None)) ∨
   (is_Some (netlink_handle m') ∧ is_Some (netlink_msg_receiver m') ∧ paused_state m' = None)).

Lemma keeps_resume_link_msg env seen msg : keeps_session (resume_link_msg env seen msg).
Proof.
  unfold resume_link_msg, observe_mac, handle_resume_event. keeps; apply keeps_try_notify.
Qed.

Lemma deleted_ifaces_session env seen m :
  let m' := (handle_resume_deleted_ifaces env seen m).2 in
  started m' = started m ∧ manual_pause_count m' = manual_pause_count m ∧
  netlink_handle m' = netlink_handle m ∧ netlink_msg_receiver m' = netlink_msg_receiver m ∧
  paused_state m' = None.
Proof.
  cbn zeta. unfold handle_resume_deleted_ifaces. rewrite gets_bind, modify_bind.
  destruct (paused_state m) as [paused|]; [|done].
  set (m1 := upd_paused_state _ m).
  assert (keeps_session (for_each (resume_deleted_iface env paused seen) (iter_keys env paused)))
    as Hk.
  { unfold resume_deleted_iface. keeps; apply keeps_try_notify. }
  specialize (Hk m1). unfold session_of in Hk. injection Hk as ? ? ? ? ? ?.
  split_and!; [done..|congruence].
Qed.

Lemma resume_session w m : resumed m (resume w m).2.
Proof.
  unfold resume. destruct (negb (world_connect_ok w)); [by split_and!; [..|left]|].
  rewrite gets_bind, modify_bind. set (m1 := upd_connections S m).
  assert (keeps_session (fold_mon (resume_link_msg w) ∅ (world_dump w))) as Hk
    by (apply keeps_fold, keeps_resume_link_msg).
  specialize (Hk m1). unfold session_of in Hk. injection Hk as H1 H2 H3 H4 H5 _.
  unfold mbind at 1, Mon_bind at 1.
  destruct (fold_mon (resume_link_msg w) ∅ (world_dump w) m1) as [[seen|er] m2]; simpl in *.
  2: { split_and!; [done..|]. left. split_and!; [done..|]. intros Hp. exact (eq_trans H5 Hp). }
  destruct (world_dump_ok w).
  2: { split_and!; [done..|]. left. split_and!; [done..|]. intros Hp. exact (eq_trans H5 Hp). }
  unfold mbind at 1, Mon_bind at 1. simpl.
  pose proof (deleted_ifaces_session w seen m2) as (D1 & D2 & D3 & D4 & D5).
  unfold mbind at 1, Mon_bind at 1.
  destruct (handle_resume_deleted_ifaces w seen m2) as [[[]|er] m3]; simpl in *.
  - split_and!; simpl; [congruence..|]. right. split_and!; [by eexists|by eexists|done].
  - split_and!; [congruence..|]. left. split_and!; congruence.
Qed.

(** The part of the invariant that does not need the receiver, and how a session that is
    opened gets one. *)
Definition session_closed (m : Monitor) : Prop :=
  0 ≤ manual_pause_count m ≤ u32_max ∧
  (is_Some (netlink_handle m) →
    started m = true ∧ manual_pause_count m = 0 ∧ paused_state m = None).

Definition opened (m m' : Monitor) : Prop :=
  session_closed m' ∧
  (netlink_handle m = None → is_Some (netlink_handle m') → is_Some (netlink_msg_receiver m')).

Lemma opened_resume w m :
  started m = true → manual_pause_count m = 0 → session_closed m → opened m (resume w m).2.
Proof.
  intros Hs Hc [Hb Ho]. destruct (resume_session w m) as (Es & Ec & Hcase).
  split; [split; [by rewrite Ec|]|].
  - intros Hh. rewrite Es, Ec. split_and!; [done|done|].
    destruct Hcase as [(Eh & _ & Hp)|(_ & _ & ?)]; [|done]. apply Hp.
    rewrite Eh in Hh. by apply Ho.
  - intros Hn Hh. destruct Hcase as [(Eh & _)|(_ & ? & _)]; [|done].
    rewrite Eh, Hn in Hh. by destruct Hh.
Qed.

Lemma opened_closed m m' :
  netlink_handle m' = None → 0 ≤ manual_pause_count m' ≤ u32_max → opened m m'.
Proof.
  intros Hh Hb. split; [split; [done|]|intros _]; rewrite Hh; intros Hs; by destruct Hs.
Qed.

Lemma opened_same m m' :
  session_of m' = session_of m → session_closed m → opened m m'.
Proof.
  intros Hs [Hb Ho]. unfold session_of in Hs. injection Hs as H1 H2 H3 H4 H5 _.
  split; [split; [by rewrite H2|by rewrite H1, H2, H3, H5]|].
  rewrite H3. intros -> Hx. by destruct Hx.
Qed.

Lemma pause_closes m : netlink_handle (pause m) = None ∧
  manual_pause_count (pause m) = manual_pause_count m.
Proof. unfold pause. by destruct (paused_state m). Qed.

(** A change that does not concern the session, then [resume] or [pause]. *)
Lemma opened_then f (g : Monitor → bool) (act : Mon ()) m :
  (∀ m, session_of (f m) = session_of m) →
  (∀ m, session_closed m → g m = true → opened m (act m).2) →
  session_closed m → opened m ((modify f;; b ← gets g; when_ b act) m).2.
Proof.
  intros Hf Hact Hm. rewrite modify_bind, gets_bind.
  destruct (opened_same m (f m) (Hf m) Hm) as [Hm1 _].
  destruct (g (f m)) eqn:Hg; simpl; [|by apply opened_same].
  destruct (Hact _ Hm1 Hg) as [H1 H2]. split; [done|].
  pose proof (Hf m) as Hs. unfold session_of in Hs. injection Hs as _ _ Hh _ _ _.
  by rewrite <- Hh.
Qed.

Lemma opened_start_netlink w m :
  session_closed m → should_start_netlink m = true → opened m (resume w m).2.
Proof.
  intros Hm Hs. unfold should_start_netlink in Hs. apply andb_true_iff in Hs as [Hs _].
  apply andb_true_iff in Hs as [Hs Hc]. apply opened_resume; [done|by apply Z.eqb_eq|done].
Qed.

Lemma opened_pause m : session_closed m → opened m (modify pause m).2.
Proof.
  intros [Hb _]. destruct (pause_closes m) as [Hh Hc]. apply opened_closed; [exact Hh|].
  change (0 ≤ manual_pause_count (pause m) ≤ u32_max). by rewrite Hc.
Qed.

(** [Start] is not issued while the monitor is paused. *)
Definition start_unpaused (ev : LoopEvent) (m : Monitor) : Prop :=
  ev = GotCmd Start → manual_pause_count m = 0.

Lemma start_and_dump_session w m :
  session_of (start_and_dump w m).2 =
  session_of (resume w (upd_collect_batch (λ _, Some (collect_batch_of [] true)) m)).2.
Proof.
  unfold start_and_dump. rewrite modify_bind. unfold attempt, mbind at 1, Mon_bind at 1.
  destruct (resume w _) as [r m1]. rewrite gets_bind, modify_bind. simpl.
  assert (keeps_session (match collect_batch m1 with
    | Some batch => send_batch w batch | None => mret () end;; of_result r)) as Hk.
  { apply keeps_bind; [|done]. destruct (collect_batch m1); [apply keeps_send_cmd|done]. }
  by rewrite (Hk (upd_collect_batch (λ _, None) m1)).
Qed.

Lemma opened_start w m :
  manual_pause_count m = 0 → session_closed m → opened m (process_cmd w Start m).2.
Proof.
  intros Hc Hm. simpl. rewrite gets_bind. destruct (started m) eqn:Hs; [by apply opened_same|].
  destruct Hm as [Hb Ho].
  assert (netlink_handle m = None) as Hh.
  { destruct (netlink_handle m); [|done]. destruct Ho as [Ho _]; [by eexists|]. congruence. }
  rewrite modify_bind, gets_bind. set (m1 := upd_started _ m).
  assert (∀ x : Mon (), opened m (x m1).2 → opened m ((x;;
    modify (upd_next_reconcile (λ _, env_instant w + reconcile_interval w))) m1).2) as Hend.
  { intros x. unfold mbind, Mon_bind. by destruct (x m1) as [[[]|er] m2]. }
  apply Hend. destruct (should_resume m1).
  - set (m2 := upd_collect_batch (λ _, Some (collect_batch_of [] true)) m1).
    assert (opened m2 (resume w m2).2) as [H1 H2].
    { apply opened_resume; [done|done|]. split; [done|]. intros Hx. simpl in Hx.
      rewrite Hh in Hx. by destruct Hx. }
    pose proof (start_and_dump_session w m1) as Hse. fold m2 in Hse.
    unfold session_of in Hse. injection Hse as E1 E2 E3 E4 E5 _.
    split; [|by rewrite E3, E4].
    destruct H1 as [Hb1 Ho1]. split; [by rewrite E2|by rewrite E1, E2, E3, E5].
  - apply opened_closed; [|].
    + pose proof (keeps_send_cmd w (LinkEvents [] true) m1) as Hse. unfold session_of in Hse.
      injection Hse as _ _ E3 _ _ _. unfold send_batch. simpl. by rewrite E3.
    + pose proof (keeps_send_cmd w (LinkEvents [] true) m1) as Hse. unfold session_of in Hse.
      injection Hse as _ E2 _ _ _ _. unfold send_batch. simpl. by rewrite E2.
Qed.

Lemma opened_process_cmd w cmd m :
  start_unpaused (GotCmd cmd) m → session_closed m → opened m (process_cmd w cmd m).2.
Proof.
  intros Hst Hm.
  destruct cmd as [|i|i|a|a| | | | | |l|l|l|l]; try by apply opened_same.
  1-6: apply opened_then; [done|intros; first [by apply opened_start_netlink|by apply opened_pause]|done].
  - apply opened_start; [by apply Hst|done].
  - destruct (pause_closes (upd_manual_pause_count (λ c, Z.min u32_max (c + 1)) m)) as [Hh Hc].
    apply opened_closed; [exact Hh|].
    change (0 ≤ manual_pause_count (pause (upd_manual_pause_count
      (λ c, Z.min u32_max (c + 1)) m)) ≤ u32_max).
    rewrite Hc. simpl. destruct Hm as [Hb _]. unfold u32_max in *. lia.
  - unfold process_cmd. rewrite modify_bind, gets_bind.
    set (m1 := upd_manual_pause_count _ m).
    assert (session_closed m1) as Hm1.
    { destruct Hm as [Hb Ho]. split; [simpl; lia|]. intros Hh. destruct (Ho Hh) as (? & Hc & ?).
      split_and!; [done|simpl; lia|done]. }
    destruct ((manual_pause_count m1 =? 0) && should_resume m1 && should_start_netlink m1) eqn:Hg;
      simpl.
    + apply andb_true_iff in Hg as [_ Hg]. exact (opened_start_netlink w m1 Hm1 Hg).
    + split; [done|]. simpl. intros -> Hx. by destruct Hx.
  - destruct Hm as [Hb Ho]. split.
    + split; [done|]. intros Hh. destruct (Ho Hh) as (? & ? & Hp). split_and!; [done..|].
      simpl. by rewrite Hp.
    + simpl. intros -> Hx. by destruct Hx.
  - destruct Hm as [Hb Ho]. split.
    + split; [done|]. intros Hh. destruct (Ho Hh) as (? & ? & Hp). split_and!; [done..|].
      simpl. by rewrite Hp.
    + simpl. intros -> Hx. by destruct Hx.
Qed.

Lemma on_tick_session w m : 
  let m' := on_tick w m in session_of m' = session_of m.
Proof.
  cbn zeta. unfold on_tick. destruct (keeps_queues w) as [H1 H2].
  set (m1 := (process_udev_pending_events w m).2). set (m2 := (process_delay_queue w m1).2).
  assert (session_of m2 = session_of m) as Hs by (transitivity (session_of m1); [apply H2|apply H1]).
  destruct (next_reconcile m2 <=? env_instant w); [|done].
  rewrite <- Hs, <- (keeps_reconcile w m2). done.
Qed.

Lemma opened_branch w ev m :
  start_unpaused ev m → session_closed m → opened m (loop_branch w ev m).
Proof.
  intros Hst Hm. destruct ev as [cmd|msg| |]; simpl.
  - by apply opened_process_cmd.
  - apply opened_same; [apply keeps_rtnl|done].
  - by apply opened_same.
  - apply opened_same; [apply on_tick_session|done].
Qed.

Lemma session_iteration w ev m m' :
  start_unpaused ev m → session_ok m → loop_iteration w ev m = Some m' → session_ok m'.
Proof.
  intros Hst [Hb Ho] Hit. unfold loop_iteration in Hit.
  assert (session_closed m) as Hm.
  { split; [done|]. intros Hh. by destruct (Ho Hh) as (? & ? & _ & ?). }
  destruct (netlink_msg_receiver m) as [r|] eqn:Hr.
  - injection Hit as <-.
    destruct (opened_branch w ev (upd_netlink_msg_receiver (λ _, None) m) Hst Hm) as [[Hb' Ho'] _].
    set (m1 := loop_branch w ev _) in *.
    destruct (manual_pause_count m1 =? 0) eqn:Hc.
    + split; [done|]. intros Hh. destruct (Ho' Hh) as (? & ? & ?).
      split_and!; [done|done|by eexists|done].
    + split; [done|]. intros Hh. destruct (Ho' Hh) as (_ & Hz & _). lia.
  - destruct ev as [cmd|msg| |]; try done. injection Hit as <-.
    destruct (opened_process_cmd w cmd m Hst Hm) as [[Hb' Ho'] Hopen].
    split; [done|]. intros Hh. destruct (Ho' Hh) as (? & ? & ?).
    split_and!; [done|done| |done]. apply Hopen; [|done].
    destruct (netlink_handle m); [|done]. destruct Ho as (_ & _ & Hx & _); [by eexists|].
    by destruct Hx.
Qed.

(** Whenever [Start] arrives in a run, the monitor is not paused. *)
Inductive protocol : Monitor → list (World * LoopEvent) → Prop :=
| protocol_nil m : protocol m []
| protocol_cons m w ev l :
    start_unpaused ev m → (∀ m', loop_iteration w ev m = Some m' → protocol m' l) →
    protocol m ((w, ev) :: l).

(** C24: the invariant of the session.  From the start of the daemon on, as long as [Start]
    is not issued while the monitor is paused, an open netlink session means that
    monitoring was started, that no pause is outstanding, that the loop has the receiver of
    a session to listen to (the worker is never deaf while it believes it listens), and
    that the snapshot of the last pause has been reconciled; the pause counter stays
    within its type. *)
Theorem session_invariant now m l m' :
  m = monitor_new now → protocol m l → run m l m' → session_ok m'.
Proof.
  intros -> Hp Hr. assert (session_ok (monitor_new now)) as Hok.
  { split; [done|]. intros Hx. by destruct Hx. }
  induction Hr as [|m w ev m1 l m2 Hit Hr IH]; [done|].
  inversion Hp as [|? ? ? ? Hst Hp1]; subst. apply IH; [by apply Hp1|].
  by eapply session_iteration.
Qed.

Lemma session_invariant_witness :
  session_ok ex_monitor ∧ netlink_handle ex_monitor = Some 1%nat.
Proof.
  split; [|by vm_compute].
  apply (session_invariant 0 (monitor_new 0) ex_boot ex_monitor); [done| |].
  - apply protocol_cons; [done|]. intros m1 [= <-].
    apply protocol_cons; [done|]. intros m2 [= <-].
    apply protocol_cons; [done|]. intros m3 _. constructor.
  - apply loop_steps_run. unfold ex_monitor.
    destruct (loop_steps ex_boot (monitor_new 0)) eqn:E; [done|]. by vm_compute in E.
Defined.

(** ** A pause during which nothing changes *)

(** An event, with the MAC address that comes with it, is in the dump. *)
Definition in_dump (w : World) (wifi : bool) (e : InterfaceLinkEvent) (mac : option string) : Prop :=
  ∃ msg, msg ∈ world_dump w ∧ parse_link_msg w msg wifi false = Some (e, mac).

(** Nothing the worker watches is about the event, whatever MAC address the dump has for its
    interface. *)
Definition unwatched (w : World) (m : Monitor) (e : InterfaceLinkEvent) : Prop :=
  event_is_explicitly_down e (explicitly_down m) = false ∧
  le_iface_name e ∉ iface_monitor_list m ∧
  (wifi_monitor_enabled m = true → le_ssid e = None ∧ le_iface_type e ≠ TWifiPhy) ∧
  (∀ e' a, in_dump w (wifi_monitor_enabled m) e' (Some a) →
    le_iface_name e' = le_iface_name e → a ∉ mac_watch_list m).

(** The dump finds what the worker last knew: every interface it tracks, in the same state,
    and besides only interfaces it does not watch. *)
Record unchanged (w : World) (m : Monitor) : Prop := {
  unchanged_same : ∀ e mac, in_dump w (wifi_monitor_enabled m) e mac →
    (∃ l, emited m !! le_iface_name e = Some l ∧ is_same_state l e = true) ∨
    (emited m !! le_iface_name e = None ∧ unwatched w m e);
  unchanged_all : ∀ n, is_Some (emited m !! n) →
    ∃ e mac, in_dump w (wifi_monitor_enabled m) e mac ∧ le_iface_name e = n;
}.

Section Unchanged.
Context (w : World) (m : Monitor).
Context (Hun : unchanged w m) (Hpaused : paused_state m = Some (emited m)).

(** The state with the MAC addresses [g]. *)
Definition with_macs (g : gmap string string) : Monitor := upd_iface_mac (λ _, g) m.

(** The MAC addresses come from the dump. *)
Definition from_dump (g : gmap string string) : Prop :=
  ∀ k a, g !! k = Some a →
    ∃ e, in_dump w (wifi_monitor_enabled m) e (Some a) ∧ le_iface_name e = k.

Lemma resume_event_silent e mac g :
  in_dump w (wifi_monitor_enabled m) e mac → from_dump g →
  handle_resume_event w e (with_macs g) = (Ok (), with_macs g).
Proof.
  intros Hin Hg. unfold handle_resume_event. rewrite gets_bind.
  change (emit_on_resume (with_macs g) e) with (emit_on_resume m e).
  unfold emit_on_resume. rewrite Hpaused.
  destruct (unchanged_same w m Hun e mac Hin) as [(l & -> & Hs)|(-> & Hx & Hn & Hwifi & Hmac)].
  { by rewrite Hs. }
  simpl. unfold try_notify. rewrite gets_bind.
  change (explicitly_down (with_macs g)) with (explicitly_down m). rewrite Hx, gets_bind.
  assert (event_is_interested (with_macs g) e = false) as ->; [|done].
  unfold event_is_interested. simpl. rewrite (bool_decide_false (_ ∈ _)) by done. simpl.
  assert (match g !! le_iface_name e with
    | Some mac0 => bool_decide (mac0 ∈ mac_watch_list m) | None => false end = false) as ->.
  { destruct (g !! le_iface_name e) as [a|] eqn:Ha; [|done]. apply bool_decide_false.
    destruct (Hg _ _ Ha) as (e' & Hin' & Hname). by eapply Hmac. }
  destruct (wifi_monitor_enabled m); [|done]. destruct Hwifi as [-> Ht]; [done|].
  simpl. by apply bool_decide_false.
Qed.

Lemma resume_msg_silent seen msg g :
  msg ∈ world_dump w → from_dump g →
  ∃ seen' g', resume_link_msg w seen msg (with_macs g) = (Ok seen', with_macs g') ∧
    from_dump g' ∧ seen ⊆ seen' ∧
    (∀ e mac, parse_link_msg w msg (wifi_monitor_enabled m) false = Some (e, mac) →
      le_iface_name e ∈ seen').
Proof.
  intros Hmsg Hg. unfold resume_link_msg. rewrite gets_bind.
  change (wifi_monitor_enabled (with_macs g)) with (wifi_monitor_enabled m).
  destruct (parse_link_msg w msg (wifi_monitor_enabled m) false) as [[e mac]|] eqn:Hp.
  2: { exists seen, g. by split_and!. }
  assert (in_dump w (wifi_monitor_enabled m) e mac) as Hin by (exists msg; by split).
  set (g' := match mac with Some a => <[le_iface_name e := a]> g | None => g end).
  assert (observe_mac (le_iface_name e) mac (with_macs g) = (Ok (), with_macs g')) as E
    by by destruct mac.
  assert (from_dump g') as Hg'.
  { intros k a. unfold g'. destruct mac as [a'|]; [|apply Hg].
    intros [[<- <-]|[_ Hk]]%lookup_insert_Some; [by exists e|by apply Hg]. }
  exists ({[le_iface_name e]} ∪ seen), g'. split.
  - unfold mbind, Mon_bind. rewrite E, (resume_event_silent e mac g' Hin Hg'). done.
  - split_and!; [done|set_solver|]. intros e' mac' [= <- <-]. set_solver.
Qed.

Lemma resume_dump_silent l seen g :
  (∀ msg, msg ∈ l → msg ∈ world_dump w) → from_dump g →
  ∃ seen' g', fold_mon (resume_link_msg w) seen l (with_macs g) = (Ok seen', with_macs g') ∧
    seen ⊆ seen' ∧
    (∀ msg e mac, msg ∈ l → parse_link_msg w msg (wifi_monitor_enabled m) false = Some (e, mac) →
      le_iface_name e ∈ seen').
Proof.
  revert seen g. induction l as [|msg l IH]; intros seen g Hl Hg.
  { exists seen, g. split_and!; [done..|]. by intros ? ? ? ?%not_elem_of_nil. }
  destruct (resume_msg_silent seen msg g) as (seen1 & g1 & E & Hg1 & Hs1 & Hn1); [set_solver|done|].
  destruct (IH seen1 g1) as (seen2 & g2 & E2 & Hs2 & Hn2); [set_solver|done|].
  exists seen2, g2. split; [|split; [by etransitivity|]].
  - simpl. unfold mbind, Mon_bind. by rewrite E.
  - intros msg' e mac [->|Hin]%elem_of_cons Hp; [|by eapply Hn2].
    apply Hs2. by eapply Hn1.
Qed.

Lemma resume_deleted_silent seen g :
  (∀ n, is_Some (emited m !! n) → n ∈ seen) →
  handle_resume_deleted_ifaces w seen (with_macs g) =
    (Ok (), upd_paused_state (λ _, None) (with_macs g)).
Proof.
  intros Hseen. unfold handle_resume_deleted_ifaces. rewrite gets_bind, modify_bind.
  change (paused_state (with_macs g)) with (paused_state m). rewrite Hpaused.
  set (m1 := upd_paused_state _ _). generalize m1. clear m1. intros m1.
  induction (iter_keys w (emited m)) as [|k l IH]; [done|]. simpl.
  assert (resume_deleted_iface w (emited m) seen k m1 = (Ok (), m1)) as E.
  { unfold resume_deleted_iface. destruct (emited m !! k) eqn:Hk; [|done].
    by rewrite decide_True by (apply Hseen; by eexists). }
  unfold mbind, Mon_bind. by rewrite E.
Qed.
End Unchanged.

(** The state a pause leaves. *)
Definition paused (m : Monitor) : Monitor :=
  upd_paused_state (λ _, Some (emited m)) (upd_iface_mac (λ _, ∅)
    (upd_netlink_msg_receiver (λ _, None) (upd_netlink_handle (λ _, None)
      (upd_manual_pause_count (λ _, 1) m)))).

Lemma pause_iteration (w : World) m :
  manual_pause_count m = 0 → paused_state m = None → is_Some (netlink_msg_receiver m) →
  loop_iteration w (GotCmd Pause) m = Some (paused m).
Proof.
  destruct m. simpl. intros -> -> [r ->]. reflexivity.
Qed.

(** [resume] after such a pause. *)
Lemma resume_silent (w : World) m :
  world_connect_ok w = true → world_dump_ok w = true → unchanged w m →
  paused_state m = Some (emited m) → iface_mac m = ∅ →
  ∃ g, resume w m = (Ok (), upd_netlink_msg_receiver (λ _, Some (S (connections m)))
    (upd_netlink_handle (λ _, Some (S (connections m)))
      (upd_paused_state (λ _, None) (with_macs (upd_connections S m) g)))).
Proof.
  intros Hcon Hdump [Hu1 Hu2] Hp Hg. set (mc := upd_connections S m).
  assert (unchanged w mc) as Hunc by (split; [exact Hu1|exact Hu2]).
  destruct (resume_dump_silent w mc Hunc Hp (world_dump w) ∅ ∅) as (seen & g & E & _ & Hn);
    [done|intros ? ? Hk; by rewrite lookup_empty in Hk|].
  assert (with_macs mc ∅ = mc) as Hmc by (unfold with_macs, mc; destruct m; simpl in *; by subst).
  rewrite Hmc in E. exists g.
  unfold resume. rewrite Hcon. simpl. rewrite gets_bind, modify_bind. fold mc.
  unfold mbind at 1, Mon_bind at 1. rewrite E, Hdump.
  unfold mbind at 1, Mon_bind at 1. simpl. unfold mbind at 1, Mon_bind at 1.
  rewrite (resume_deleted_silent w mc Hp); [done|].
  intros n Hin. destruct (unchanged_all w mc Hunc n Hin) as (e & mac & (msg & Hmsg & Hpm) & <-).
  by eapply Hn.
Qed.

(** The iteration that handles the last [Resume]. *)
Lemma resume_iteration (w : World) m m' :
  manual_pause_count m = 1 → netlink_msg_receiver m = None → netlink_handle m = None →
  started m = true → should_resume m = true →
  loop_iteration w (GotCmd Resume) m = Some m' →
  m' = (resume w (upd_manual_pause_count (λ _, 0) m)).2.
Proof.
  intros Hc Hrec Hh Hs Hr Hit. unfold loop_iteration in Hit. rewrite Hrec in Hit.
  injection Hit as <-.
  assert (upd_manual_pause_count (λ c, Z.max 0 (c - 1)) m = upd_manual_pause_count (λ _, 0) m)
    as Hm by (destruct m; simpl in *; by subst).
  unfold process_cmd. rewrite modify_bind, gets_bind, Hm.
  set (mr := upd_manual_pause_count (λ _, 0) m).
  assert ((manual_pause_count mr =? 0) && should_resume mr && should_start_netlink mr = true) as ->.
  { unfold should_start_netlink. simpl. rewrite Hs, Hh.
    change (should_resume mr) with (should_resume m). by rewrite Hr. }
  done.
Qed.

(** A pause and a resume between which the kernel did not change (an apply that touches
    none of the watched interfaces) report nothing, drop nothing of what is held back or
    pending, and leave the session open. *)
Theorem pause_resume_silent (w0 w : World) m m1 m2 :
  loop_iteration w0 (GotCmd Pause) m = Some m1 →
  loop_iteration w (GotCmd Resume) m1 = Some m2 →
  session_ok m → is_Some (netlink_handle m) → should_resume m = true →
  world_connect_ok w = true → world_dump_ok w = true → unchanged w m →
  reported m2 = reported m ∧ emited m2 = emited m ∧ delay_queue m2 = delay_queue m ∧
  udev_pending_events m2 = udev_pending_events m ∧ manual_pause_count m2 = 0 ∧
  is_Some (netlink_handle m2) ∧ is_Some (netlink_msg_receiver m2).
Proof.
  intros H1 H2 [_ Ho] Hh Hr Hcon Hdump Hun. destruct (Ho Hh) as (Hs & Hc & Hrec & Hp).
  rewrite pause_iteration in H1 by done. injection H1 as <-.
  apply resume_iteration in H2 as ->; [|done..].
  set (mr := upd_manual_pause_count (λ _, 0) (paused m)).
  assert (unchanged w mr) as Hunr.
  { destruct Hun as [Hu1 Hu2]. split; [exact Hu1|exact Hu2]. }
  destruct (resume_silent w mr Hcon Hdump Hunr eq_refl eq_refl) as [g ->]. cbn [snd].
  split_and!; try done; by eexists.
Qed.

Lemma ex_unchanged : unchanged (ex_world 2 true) ex_monitor.
Proof.
  assert (∀ e mac, in_dump (ex_world 2 true) (wifi_monitor_enabled ex_monitor) e mac →
    parse_link_msg (ex_world 2 true) (ex_link "eth1" true) false false = Some (e, mac)) as Hd.
  { intros e mac (msg & Hmsg & Hp). apply list_elem_of_singleton in Hmsg as ->. by vm_compute in Hp |- *. }
  split.
  - intros e mac Hin. left. apply Hd in Hin. vm_compute in Hin. injection Hin as <- <-.
    eexists. split; [vm_compute; reflexivity|done].
  - intros n Hn. 
    assert (n = "eth1") as ->.
    { assert (dom (emited ex_monitor) = {["eth1"]}) as Hdom by by vm_compute.
      apply elem_of_dom in Hn. rewrite Hdom in Hn. by apply elem_of_singleton in Hn. }
    eexists _, _. split; [exists (ex_link "eth1" true); split|]; [|vm_compute; reflexivity|done].
    by apply list_elem_of_singleton.
Qed.

Lemma pause_resume_silent_witness :
  ∃ m1 m2, loop_iteration (ex_world 1 true) (GotCmd Pause) ex_monitor = Some m1 ∧
    loop_iteration (ex_world 2 true) (GotCmd Resume) m1 = Some m2 ∧
    reported m2 = reported ex_monitor ∧ is_Some (netlink_handle m2).
Proof.
  destruct (loop_iteration (ex_world 1 true) (GotCmd Pause) ex_monitor) as [m1|] eqn:E1;
    [|by vm_compute in E1].
  destruct (loop_iteration (ex_world 2 true) (GotCmd Resume) m1) as [m2|] eqn:E2.
  2: { vm_compute in E1. injection E1 as <-. by vm_compute in E2. }
  destruct (pause_resume_silent (ex_world 1 true) (ex_world 2 true) ex_monitor m1 m2)
    as (Hr & _ & _ & _ & _ & Hh & _); [done|done| | |by vm_compute|done|done|exact ex_unchanged|].
  - split; [by vm_compute|]. intros _. split_and!; [by vm_compute|by vm_compute| |by vm_compute].
    exists 1%nat. by vm_compute.
  - exists 1%nat. by vm_compute.
  - exists m1, m2. by split_and!.
Defined.
