(* ===== verification/MonitorManager.v ===== *)
(** * MonitorManager: which interfaces the monitor watches

    [src/daemon/monitor/monitor_manager.rs]: the commands the manager sends to
    the worker of Monitor.v for an applied and for a saved state.  [exec] of a
    command is [process_cmd] of the worker: the manager waits for the reply, and
    what the loop handles between two commands changes no watch.  The query of
    the running state is an argument. *)

From S2P Require Export MonitorSession.

#[local] Open Scope Z_scope.

Definition exec (w : World) (cmd : NipartMonitorCmd) : Mon () := process_cmd w cmd.

(** [mark_explicitly_down] and [clear_explicitly_down]. *)
Definition mark_explicitly_down (w : World) (i : Interface) : Mon () :=
  exec w (MarkExplicitlyDown (iface_identity_names i)).
Definition clear_explicitly_down (w : World) (i : Interface) : Mon () :=
  exec w (ClearExplicitlyDown (iface_identity_names i)).

(** [forget_paused_state] and [forget_emitted]. *)
Definition forget_paused_state (w : World) (names : list string) : Mon () :=
  if bool_decide (names = []) then mret () else exec w (ForgetPausedState names).
Definition forget_emitted (w : World) (names : list string) : Mon () :=
  if bool_decide (names = []) then mret () else exec w (ForgetEmitted names).

(** The SSID of a WIFI configuration or of a WIFI phy. *)
Definition iface_wifi_ssid (i : Interface) : option string :=
  match i with
  | IfWifiPhy _ wifi | IfWifiCfg _ wifi => wifi_phy_ssid wifi
  | _ => None
  end.

Definition auto_connect_is_wifi (a : InterfaceAutoConnect) : bool :=
  match a with AcWifi _ | AcWifiNot _ => true | _ => false end.

(** The body of [wifi_monitor_is_needed]. *)
Definition iface_needs_wifi_monitor (i : Interface) : bool :=
  bool_decide (is_Some (iface_wifi_ssid i)) ||
  match bi_auto_connect (base_iface i) with
  | Some a => auto_connect_is_wifi a
  | None => false
  end.

(** The saved interfaces that are configured. *)
Definition active_saved (saved : Interfaces) : list Interface :=
  filter (λ i, negb (iface_is_absent i) && negb (iface_is_ignore i) = true)
    (interfaces_iter saved).

(** [wifi_monitor_is_needed]. *)
Definition wifi_monitor_is_needed (saved : Interfaces) : bool :=
  existsb iface_needs_wifi_monitor (active_saved saved).

(** [nic_is_active]. *)
Definition nic_is_active (env : Env) (saved_iface : Interface) (cur_state : Interfaces) : bool :=
  let base := base_iface saved_iface in
  let saved_mac :=
    if bool_decide (bi_identifier base = Some IdMacAddress)
    then to_ascii_uppercase <$> bi_mac_address base else None in
  existsb (λ cur_iface,
    let cur_base := base_iface cur_iface in
    let name_matched :=
      String.eqb (kernel_iface_name saved_iface) (kernel_iface_name cur_iface) ||
      String.eqb (iface_name saved_iface) (kernel_iface_name cur_iface) in
    let mac_matched :=
      match saved_mac with
      | Some saved_mac => mac_of_iface_is saved_mac cur_base
      | None => false
      end in
    (name_matched || mac_matched) &&
    match bi_iface_index cur_base with
    | Some index => env_udev_initialized env index
    | None => false
    end) ((map_to_list (ifs_kernel cur_state)).*2).

Definition set_wifi_monitor (saved : Interfaces) : NipartMonitorCmd :=
  if wifi_monitor_is_needed saved then EnableWifiMonitor else DisableWifiMonitor.

(** One saved interface of [setup_saved_state_monitors]. *)
Definition watch_saved_iface (env : Env) (cur_state : Interfaces) (watch_active : bool)
    (iface : Interface) : option NipartMonitorCmd :=
  let base := base_iface iface in
  if bool_decide (bi_auto_connect base = Some Manual) then None
  else if iface_is_userspace iface then None
  else
    let active := nic_is_active env iface cur_state in
    if bool_decide (bi_identifier base = Some IdMacAddress) then
      match bi_mac_address base with
      | None => None
      | Some mac => Some (if active && negb watch_active then DelMacWatch mac else AddMacWatch mac)
      end
    else if negb (String.eqb (kernel_iface_name iface) "") && (watch_active || negb active)
    then Some (AddIface (kernel_iface_name iface)) else None.

(** [setup_saved_state_monitors]; [cur] is the result of the query. *)
Definition setup_saved_state_monitors (w : World) (saved : Interfaces) (cur : res Interfaces)
    (watch_active : bool) : Mon () :=
  exec w (set_wifi_monitor saved);;
  cur_state ← of_result cur;
  for_each (exec w) (omap (watch_saved_iface w cur_state watch_active) (active_saved saved)).

(** One interface to apply of [setup_monitor]. *)
Definition watch_applied_iface (iface : Interface) : list NipartMonitorCmd :=
  let base := base_iface iface in
  if iface_is_absent iface then
    match bi_mac_address base with
    | Some mac => if bool_decide (bi_identifier base = Some IdMacAddress)
                  then [DelMacWatch mac] else []
    | None => []
    end ++ [DelIface (kernel_iface_name iface)]
  else if bool_decide (bi_auto_connect base = Some AutoConnect) ||
          bool_decide (bi_identifier base = Some IdMacAddress)
  then [AddIface (kernel_iface_name iface)] else [].

(** [setup_monitor]; [for_apply] are the interfaces the merged state applies. *)
Definition setup_monitor (w : World) (for_apply : list Interface) (saved : Interfaces)
    (cur : res Interfaces) : Mon () :=
  exec w (set_wifi_monitor saved);;
  for_each (exec w) (for_apply ≫= watch_applied_iface);;
  setup_saved_state_monitors w saved cur false.

(** ** What commands do to the watches *)

Definition watches (m : Monitor) : gset string * gset string * bool :=
  (iface_monitor_list m, mac_watch_list m, wifi_monitor_enabled m).

(** What a command means to the watches. *)
Definition rewatched (cmd : NipartMonitorCmd) (m : Monitor) : Monitor :=
  match cmd with
  | AddIface i => upd_iface_monitor_list ({[i]} ∪.) m
  | DelIface i => upd_iface_monitor_list (.∖ {[i]}) m
  | AddMacWatch a => upd_mac_watch_list ({[to_ascii_uppercase a]} ∪.) m
  | DelMacWatch a => upd_mac_watch_list (.∖ {[to_ascii_uppercase a]}) m
  | EnableWifiMonitor => upd_wifi_monitor_enabled (λ _, true) m
  | DisableWifiMonitor => upd_wifi_monitor_enabled (λ _, false) m
  | _ => m
  end.

Lemma watches_send_cmd env cmd : keeps_part watches (send_cmd env cmd).
Proof. unfold send_cmd. keeps. Qed.

Lemma watches_try_notify env e : keeps_part watches (try_notify env e).
Proof.
  unfold try_notify, record_suppressed, debounce, delay_notify, notify.
  keeps; apply watches_send_cmd.
Qed.

Lemma watches_resume w : keeps_part watches (resume w).
Proof.
  unfold resume, resume_link_msg, handle_resume_event, handle_resume_deleted_ifaces,
    resume_deleted_iface, observe_mac.
  keeps; apply watches_try_notify.
Qed.

Lemma watches_pause m : watches (pause m) = watches m.
Proof. unfold pause. by destruct (paused_state m). Qed.

Lemma watches_then f (g : Monitor → bool) (act : Mon ()) m :
  keeps_part watches act →
  watches ((modify f;; b ← gets g; when_ b act) m).2 = watches (f m).
Proof.
  intros Hk. rewrite modify_bind, gets_bind. destruct (g (f m)); [apply Hk|done].
Qed.

(** A command changes the watches as it says, whether the session it may open succeeds. *)
Lemma process_cmd_watches w cmd m :
  watches (process_cmd w cmd m).2 = watches (rewatched cmd m).
Proof.
  pose proof (watches_resume w) as Hr.
  assert (keeps_part watches (modify pause)) as Hp by (intros m'; apply watches_pause).
  destruct cmd; try done.
  1-6: by apply watches_then.
  - simpl. rewrite gets_bind. destruct (started m); [done|].
    assert (keeps_part watches (start_and_dump w)) as Hs.
    { unfold start_and_dump, send_batch. keeps; [done|apply watches_send_cmd]. }
    assert (keeps_part watches (modify (upd_started (λ _, true));; resumes ← gets should_resume;
      (if resumes : bool then start_and_dump w else send_batch w (collect_batch_of [] true));;
      modify (upd_next_reconcile (λ _, env_instant w + reconcile_interval w)))) as Hk.
    { keeps; [done|apply watches_send_cmd]. }
    apply Hk.
  - exact (watches_pause (upd_manual_pause_count (λ c, Z.min u32_max (c + 1)) m)).
  - etransitivity; [by apply watches_then|done].
Qed.

Lemma for_each_ok_inv {A} (f : A → Mon ()) l m m' (P : Monitor → Prop) :
  for_each f l m = (Ok (), m') → P m →
  (∀ x m1, x ∈ l → P m1 → P (f x m1).2) → P m'.
Proof.
  revert m. induction l as [|x l IH]; intros m E Hm Hf; simpl in E.
  { by injection E as <-. }
  unfold mbind, Mon_bind in E. pose proof (Hf x m ltac:(set_solver) Hm) as H1.
  destruct (f x m) as [[[]|er] m1]; [|done]. apply (IH m1); [done|done|].
  intros. apply Hf; [set_solver|done].
Qed.

(** After the loop every element has been handled, and what it established lasts if the
    others keep it. *)
Lemma for_each_establishes {A} (f : A → Mon ()) l m m' (P : Monitor → Prop) x :
  for_each f l m = (Ok (), m') → x ∈ l →
  (∀ m1, P (f x m1).2) → (∀ y m1, y ∈ l → P m1 → P (f y m1).2) → P m'.
Proof.
  revert m. induction l as [|y l IH]; intros m E Hx Hf Hk; [by apply not_elem_of_nil in Hx|].
  simpl in E. unfold mbind, Mon_bind in E.
  destruct (f y m) as [[[]|er] m1] eqn:E1; [|done].
  apply elem_of_cons in Hx as [->|Hx].
  - apply (for_each_ok_inv f l m1 m' P E); [|intros; apply Hk; set_solver].
    pose proof (Hf m) as H1. by rewrite E1 in H1.
  - apply (IH m1); [done|done|done|]. intros. apply Hk; set_solver.
Qed.

(** Every saved interface to be activated by itself is watched, by its name or by its MAC
    address. *)
Definition is_watched (i : Interface) (m : Monitor) : Prop :=
  if bool_decide (bi_identifier (base_iface i) = Some IdMacAddress)
  then ∀ mac, bi_mac_address (base_iface i) = Some mac →
         to_ascii_uppercase mac ∈ mac_watch_list m
  else kernel_iface_name i ≠ "" → kernel_iface_name i ∈ iface_monitor_list m.

Lemma is_watched_watches i m m' : watches m' = watches m → is_watched i m → is_watched i m'.
Proof. unfold watches, is_watched. intros [= -> -> _]. done. Qed.

Lemma is_watched_grow i m m' :
  iface_monitor_list m ⊆ iface_monitor_list m' → mac_watch_list m ⊆ mac_watch_list m' →
  is_watched i m → is_watched i m'.
Proof.
  unfold is_watched. intros H1 H2. case_bool_decide; [|by eauto].
  intros Hm mac Hmac. by apply H2, Hm.
Qed.

(** The command for a saved interface makes it watched. *)
Lemma watch_saved_iface_watches env cur_state i :
  bi_auto_connect (base_iface i) ≠ Some Manual → iface_is_userspace i = false →
  (∀ m, is_watched i m) ∨
  ∃ cmd, watch_saved_iface env cur_state true i = Some cmd ∧ ∀ m, is_watched i (rewatched cmd m).
Proof.
  intros Hman Hus. unfold watch_saved_iface, is_watched.
  rewrite Hus, andb_false_r, (bool_decide_false (_ = Some Manual)) by done.
  case_bool_decide as Hid.
  - destruct (bi_mac_address (base_iface i)) as [mac|]; [right|by left].
    exists (AddMacWatch mac). split; [done|]. intros m mac' [= <-]. simpl. set_solver.
  - destruct (String.eqb_spec (kernel_iface_name i) "") as [Hn|Hn]; [by left|right].
    eexists. split; [reflexivity|]. intros m _. simpl. set_solver.
Qed.

(** Commands that only add watches. *)
Definition adds_watch (cmd : NipartMonitorCmd) : Prop :=
  (∃ a, cmd = AddMacWatch a) ∨ (∃ k, cmd = AddIface k).

Lemma watch_saved_iface_adds env cur_state i cmd :
  watch_saved_iface env cur_state true i = Some cmd → adds_watch cmd.
Proof.
  unfold watch_saved_iface, adds_watch. rewrite andb_false_r.
  repeat case_match; intros [= <-]; eauto.
Qed.

Lemma adds_watch_grows w cmd m :
  adds_watch cmd →
  let m' := (process_cmd w cmd m).2 in
  iface_monitor_list m ⊆ iface_monitor_list m' ∧ mac_watch_list m ⊆ mac_watch_list m' ∧
  wifi_monitor_enabled m' = wifi_monitor_enabled m.
Proof.
  intros Hadd. cbn zeta. pose proof (process_cmd_watches w cmd m) as Hw.
  set (m' := (process_cmd w cmd m).2) in *. clearbody m'. unfold watches in Hw.
  destruct Hadd as [[a ->]|[k ->]]; injection Hw as H1 H2 H3; rewrite H1, H2, H3; simpl;
    set_solver.
Qed.

(** The boot hand-off loses no configuration.  When [setup_saved_state_monitors]
    succeeds with [watch_active], every saved kernel interface that is neither absent,
    ignored nor activated by hand is watched: by its MAC address when the configuration
    names one, otherwise by its kernel name; the WIFI monitor is on exactly when some saved
    interface needs it; and no watch that was there is lost. *)
Theorem saved_configs_are_watched w saved cur m m' :
  setup_saved_state_monitors w saved cur true m = (Ok (), m') →
  (∀ i, i ∈ active_saved saved → bi_auto_connect (base_iface i) ≠ Some Manual →
     iface_is_userspace i = false → is_watched i m') ∧
  wifi_monitor_enabled m' = wifi_monitor_is_needed saved ∧
  iface_monitor_list m ⊆ iface_monitor_list m' ∧ mac_watch_list m ⊆ mac_watch_list m'.
Proof.
  unfold setup_saved_state_monitors. intros E. unfold mbind at 1, Mon_bind at 1 in E.
  pose proof (process_cmd_watches w (set_wifi_monitor saved) m) as Hw.
  unfold exec in E. destruct (process_cmd w (set_wifi_monitor saved) m) as [[[]|er] m1]; [|done].
  destruct cur as [cur_state|er]; [|done]. rewrite of_result_bind in E. simpl in Hw.
  assert (watches m1 = (iface_monitor_list m, mac_watch_list m, wifi_monitor_is_needed saved))
    as Hm1.
  { rewrite Hw. unfold set_wifi_monitor. by destruct (wifi_monitor_is_needed saved). }
  unfold watches in Hm1. injection Hm1 as Hl1 Hl2 Hl3. clear Hw.
  set (cmds := omap (watch_saved_iface w cur_state true) (active_saved saved)) in E.
  assert (∀ cmd, cmd ∈ cmds → adds_watch cmd) as Hadds.
  { intros cmd Hin. apply list_elem_of_omap in Hin as (i & _ & Hi).
    by eapply watch_saved_iface_adds. }
  split.
  - intros i Hi Hman Hus.
    destruct (watch_saved_iface_watches w cur_state i Hman Hus) as [Hall|(cmd & Hcmd & Hest)];
      [apply Hall|].
    apply (for_each_establishes (exec w) cmds m1 m' (is_watched i) cmd); [done| | |].
    + apply list_elem_of_omap. by exists i.
    + intros m2. eapply is_watched_watches; [apply process_cmd_watches|apply Hest].
    + intros cmd' m2 Hin Hm2. destruct (adds_watch_grows w cmd' m2 (Hadds _ Hin)) as (? & ? & _).
      by eapply is_watched_grow.
  - apply (for_each_ok_inv (exec w) cmds m1 m' (λ m2,
      wifi_monitor_enabled m2 = wifi_monitor_is_needed saved ∧
      iface_monitor_list m ⊆ iface_monitor_list m2 ∧ mac_watch_list m ⊆ mac_watch_list m2)).
    + exact E.
    + by rewrite Hl1, Hl2, Hl3.
    + intros cmd m2 Hin (Hwf & Hs1 & Hs2).
      destruct (adds_watch_grows w cmd m2 (Hadds _ Hin)) as (? & ? & Hwf2).
      split_and!; [by rewrite <- Hwf|by etransitivity|by etransitivity].
Qed.

Definition ex_saved : Interfaces :=
  interfaces_new
    [ex_iface "eth1" LUp;
     IfEthernet (set_bi_mac_address (Some "02:00:00:00:00:0a") (set_bi_auto_connect (Some AutoConnect)
       (set_bi_identifier (Some IdMacAddress) (base_new "nic" TEthernet)))) None;
     IfEthernet (set_bi_auto_connect (Some Manual)
       (set_bi_kernel_iface_name "eth3" (base_new "eth3" TEthernet))) None].

Lemma saved_configs_are_watched_witness :
  ∃ m', setup_saved_state_monitors (ex_world 1 true) ex_saved (Ok interfaces_default) true
          (monitor_new 0) = (Ok (), m') ∧
    (∀ i, i ∈ active_saved ex_saved → bi_auto_connect (base_iface i) ≠ Some Manual →
       iface_is_userspace i = false → is_watched i m') ∧
    iface_monitor_list m' = {["eth1"]} ∧ mac_watch_list m' = {["02:00:00:00:00:0A"]}.
Proof.
  destruct (setup_saved_state_monitors (ex_world 1 true) ex_saved (Ok interfaces_default) true
    (monitor_new 0)) as [[[]|e] m'] eqn:E; [|by vm_compute in E].
  exists m'. split; [done|].
  split; [apply (saved_configs_are_watched _ _ _ _ _ E)|].
  vm_compute in E. injection E as <-. vm_compute. split; reflexivity.
Defined.
