(* ===== verification/EventWorker.v ===== *)
(** * EventWorker: from link events to applied configuration

    [src/daemon/event/event_worker.rs]: a batch of link events becomes one desired
    state, built from the saved configuration and the current state, and is
    applied with the monitor paused.

    Queries of the kernel and of the plugins are functions of their number, since
    each sees another moment; [merge] is [NetworkState::merge], whose interface
    part goes through the derived serialization; [merged] is
    [MergedNetworkState::new], of which the worker reads the interfaces.  The
    handler is a computation of Monitor.v: what it does to the worker of the
    monitor are the commands of MonitorManager.v, and [meanwhile] is what that
    worker does while the apply runs. *)

From S2P Require Export Controller NetState MonitorManager.

#[local] Open Scope Z_scope.

Definition WIFI_SSID_QUERY_RETRY_TIMES : nat := 10.

(** ** Saved interfaces and events *)

(** [wifi_cfg_base_iface]. *)
Definition wifi_cfg_base_iface (i : Interface) : option string :=
  match i with IfWifiCfg _ wifi => wifi ≫= wifi_base_iface | _ => None end.

(** [gen_wifi_cfg_for_new_phy]. *)
Definition wifi_cfg_for_phy (phy_name : string) (i : Interface) : bool :=
  match i with
  | IfWifiCfg _ _ =>
      negb (bool_decide (bi_auto_connect (base_iface i) = Some Manual)) &&
      match wifi_cfg_base_iface i with
      | None => true
      | Some b => String.eqb b "" || String.eqb b phy_name
      end
  | _ => false
  end.

Definition gen_wifi_cfg_for_new_phy (phy_name : string) (saved_state : NetworkState) :
    list Interface :=
  List.filter (wifi_cfg_for_phy phy_name) (interfaces_iter (ns_ifaces saved_state)).

(** [saved_iface_matches_event]. *)
Definition saved_iface_matches_event (iface : Interface) (event : InterfaceLinkEvent)
    (cur_state : NetworkState) : bool :=
  if String.eqb (kernel_iface_name iface) (le_iface_name event) ||
     String.eqb (iface_name iface) (le_iface_name event) then true
  else if negb (bool_decide (bi_identifier (base_iface iface) = Some IdMacAddress)) then false
  else
    match bi_mac_address (base_iface iface) with
    | None => false
    | Some saved_mac =>
        match ifs_kernel (ns_ifaces cur_state) !! le_iface_name event ≫=
              λ cur_iface, bi_mac_address (base_iface cur_iface) with
        | Some cur_mac =>
            String.eqb (to_ascii_uppercase cur_mac) (to_ascii_uppercase saved_mac)
        | None => false
        end
    end.

(** [event_identity_names]. *)
Definition iface_names (i : Interface) : list string :=
  [iface_name i] ++
  (if negb (String.eqb (kernel_iface_name i) "") then [kernel_iface_name i] else []) ++
  option_list (bi_profile_name (base_iface i)).

Definition event_identity_names (event : InterfaceLinkEvent) (saved_state cur_state : NetworkState) :
    gset string :=
  list_to_set (le_iface_name event ::
    (List.filter (λ i, saved_iface_matches_event i event cur_state)
       (interfaces_iter (ns_ifaces saved_state)) ≫= iface_names)).

(** [virtual_depends_on_event]. *)
Definition virtual_depends_on_event (saved_iface : Interface) (event_names : gset string)
    (saved_state cur_state : NetworkState) (event : InterfaceLinkEvent) : bool :=
  match iface_ports saved_iface with
  | Some ports => existsb (λ port, bool_decide (port ∈ event_names)) ports
  | None => false
  end ||
  existsb (λ port_iface,
    bool_decide (bi_controller (base_iface port_iface) = Some (iface_name saved_iface)) &&
    saved_iface_matches_event port_iface event cur_state)
    (interfaces_iter (ns_ifaces saved_state)) ||
  match iface_parent saved_iface with
  | Some parent => bool_decide (parent ∈ event_names)
  | None => false
  end.

(** [gen_missing_virtual_dependents]. *)
Definition is_missing_dependent (event : InterfaceLinkEvent) (saved_state cur_state : NetworkState)
    (saved_iface : Interface) : bool :=
  let event_names := event_identity_names event saved_state cur_state in
  if negb (iface_is_virtual saved_iface) || iface_is_userspace saved_iface ||
     iface_is_absent saved_iface || iface_is_ignore saved_iface ||
     bool_decide (bi_auto_connect (base_iface saved_iface) = Some Manual) then false
  else if negb (virtual_depends_on_event saved_iface event_names saved_state cur_state event)
  then false
  else negb (bool_decide (is_Some (ifs_kernel (ns_ifaces cur_state) !!
                                     kernel_iface_name saved_iface))).

Definition gen_missing_virtual_dependents (event : InterfaceLinkEvent)
    (saved_state cur_state : NetworkState) : list Interface :=
  List.filter (is_missing_dependent event saved_state cur_state)
    (interfaces_iter (ns_ifaces saved_state)).

(** [mark_saved_ignored_phys]. *)
Definition mark_ignored (ignored_ifaces : list Interface) (cur_iface : Interface) : Interface :=
  if existsb (λ ignored, iface_is_match ignored cur_iface) ignored_ifaces
  then upd_base (set_bi_state SIgnore) cur_iface else cur_iface.

Definition mark_saved_ignored_phys (cur_state saved_state : NetworkState) : NetworkState :=
  match List.filter iface_is_ignore (interfaces_iter (ns_ifaces saved_state)) with
  | [] => cur_state
  | ignored_ifaces =>
      let ifs := ns_ifaces cur_state in
      set_ns_ifaces (interfaces (mark_ignored ignored_ifaces <$> ifs_kernel ifs) (ifs_user ifs)
                       (insert_order ifs) (ifs_search ifs)) cur_state
  end.

(** [saved_state_ignores_event]. *)
Definition saved_state_ignores_event (saved_state : NetworkState) (event : InterfaceLinkEvent)
    (cur_state : NetworkState) : bool :=
  existsb (λ iface, iface_is_ignore iface && saved_iface_matches_event iface event cur_state)
    (interfaces_iter (ns_ifaces saved_state)).

(** [is_stale_link_down_event]: the link is up by now. *)
Definition is_stale_link_down_event (event : InterfaceLinkEvent) (cur_iface : option Interface) :
    bool :=
  negb (le_is_up event) && negb (le_is_delete event) &&
  match cur_iface with
  | Some iface =>
      match bi_link_state (base_iface iface) with
      | Some LUp | Some LDormant => true
      | _ => false
      end
  | None => false
  end.

(** [nic_is_gone]. *)
Definition nic_is_gone (event : InterfaceLinkEvent) (cur_iface : option Interface) : bool :=
  le_is_delete event || bool_decide (cur_iface = None).

(** ** What an event asks for *)

(** [is_route_matching_iface]. *)
Definition is_route_matching_iface (rt : RouteEntry) (iface : Interface) : bool :=
  match rt_next_hop_iface rt with
  | Some name =>
      String.eqb name (kernel_iface_name iface) ||
      bool_decide (Some name = bi_profile_name (base_iface iface)) ||
      String.eqb name (iface_name iface)
  | None => false
  end.

(** The saved routes through an interface. *)
Definition saved_routes_of (saved_iface : Interface) (saved_state : NetworkState) :
    list RouteEntry :=
  List.filter (λ rt, is_route_matching_iface rt saved_iface)
    (default [] (config (ns_routes saved_state))).

(** [gen_routes_for_iface_up], [gen_routes_for_wifi_cfg_up]. *)
Definition gen_routes_for_iface_up (saved_iface : Interface) (saved_state : NetworkState) :
    list RouteEntry :=
  if iface_is_userspace saved_iface then [] else saved_routes_of saved_iface saved_state.

Definition gen_routes_for_wifi_cfg_up (saved_iface : Interface) (saved_state : NetworkState) :
    list RouteEntry :=
  if negb (bool_decide (iface_type saved_iface = TWifiCfg)) then []
  else saved_routes_of saved_iface saved_state.

(** [gen_route_rules_for_iface_up]. *)
Definition is_rule_of_iface (rule : RouteRuleEntry) (iface : Interface) : bool :=
  match rr_iif rule with
  | Some iif =>
      String.eqb iif (kernel_iface_name iface) || String.eqb iif (iface_name iface) ||
      bool_decide (Some iif = bi_profile_name (base_iface iface))
  | None => false
  end.

Definition gen_route_rules_for_iface_up (saved_iface : Interface) (saved_state : NetworkState) :
    list RouteRuleEntry :=
  List.filter (λ rule, is_rule_of_iface rule saved_iface)
    (default [] (rules_config (ns_route_rules saved_state))).

(** [gen_desired_iface_up]. *)
Definition activated (saved_iface : Interface) : Interface :=
  upd_base (λ b, set_bi_auto_connect None (set_bi_state SUp b)) saved_iface.

Definition gen_desired_iface_up (saved_iface : Interface) (saved_state : NetworkState) :
    Interface * list RouteEntry :=
  (activated saved_iface, gen_routes_for_iface_up saved_iface saved_state).

(** [gen_desired_iface_down]. *)
Definition set_absent (rt : RouteEntry) : RouteEntry := set_rt_state (Some RAbsent) rt.

Definition down_state (auto_connect : InterfaceAutoConnect) (saved_iface : Interface) :
    InterfaceState :=
  if negb (bool_decide (auto_connect = AutoConnect)) &&
     negb (bool_decide (iface_type saved_iface = TWifiCfg))
  then if iface_is_virtual saved_iface then SAbsent else SDown
  else bi_state (base_iface saved_iface).

Definition drop_wifi (i : Interface) : Interface :=
  match i with IfWifiPhy b _ => IfWifiPhy b None | _ => i end.

Definition deactivated (auto_connect : InterfaceAutoConnect) (saved_iface : Interface) : Interface :=
  let ipv6 := if bool_decide (iface_type saved_iface = TWifiPhy)
              then ipv6_new_purge_keep_link_local else ipv6_new_disabled in
  drop_wifi (upd_base (λ b, set_bi_ipv6 (Some ipv6) (set_bi_ipv4 (Some ipv4_new_disabled)
    (set_bi_auto_connect None (set_bi_state (down_state auto_connect saved_iface) b)))) saved_iface).

Definition gen_desired_iface_down (auto_connect : InterfaceAutoConnect) (saved_iface : Interface)
    (saved_state : NetworkState) : Interface * list RouteEntry :=
  let new_iface := deactivated auto_connect saved_iface in
  (new_iface,
   if iface_is_userspace new_iface then []
   else map set_absent (saved_routes_of saved_iface saved_state)).

(** [wifi_cfg_to_wifi_phy]. *)
Definition wifi_cfg_to_wifi_phy (name : string) (saved_iface : Interface) : Interface :=
  let base := base_iface saved_iface in
  let desired := set_bi_iface_type TWifiPhy (set_bi_kernel_iface_name name (set_bi_name name base)) in
  let desired :=
    match bi_profile_name desired with
    | Some _ => desired
    | None => set_bi_profile_name (option_or (bi_profile_name base) (Some (bi_name base))) desired
    end in
  IfWifiPhy desired None.

(** [handle_event_auto_connect]. *)
Definition handle_event_auto_connect (event : InterfaceLinkEvent) (saved_iface : Interface)
    (saved_state cur_state : NetworkState) : option (Interface * list RouteEntry) :=
  let auto_connect := default AutoConnect (bi_auto_connect (base_iface saved_iface)) in
  let saved_iface := upd_base (set_bi_auto_connect (Some auto_connect)) saved_iface in
  match process_auto_connect saved_iface event (ns_ifaces cur_state) with
  | None => None
  | Some false => Some (gen_desired_iface_down auto_connect saved_iface saved_state)
  | Some true => Some (gen_desired_iface_up saved_iface saved_state)
  end.

(** [auto_connect_targets_event_nic]. *)
Definition auto_connect_targets_event_nic (iface : Interface) (event : InterfaceLinkEvent)
    (cur_iface : option Interface) : bool :=
  if String.eqb (kernel_iface_name iface) (le_iface_name event) then true
  else
    match cur_iface with
    | None => false
    | Some cur_iface =>
        bool_decide (bi_identifier (base_iface iface) = Some IdMacAddress) &&
        match bi_mac_address (base_iface iface) with
        | Some saved_mac => mac_of_iface_is (to_ascii_uppercase saved_mac) (base_iface cur_iface)
        | None => false
        end
    end.

(** [gen_wifi_phy_ip_purge]. *)
Definition purged_phy (event : InterfaceLinkEvent) (cur_iface : option Interface) : Interface :=
  IfWifiPhy (set_bi_ipv6 (Some ipv6_new_purge_keep_link_local) (set_bi_ipv4 (Some ipv4_new_disabled)
    (set_bi_state (if bool_decide (cur_iface = None) then SAbsent else SUp)
       (base_new (le_iface_name event) (le_iface_type event))))) None.

Definition gen_wifi_phy_ip_purge (event : InterfaceLinkEvent) (cur_iface : option Interface)
    (auto_connect_covers_ip_purge : bool) : option Interface :=
  if le_is_up event || negb (bool_decide (le_iface_type event = TWifiPhy)) ||
     auto_connect_covers_ip_purge then None
  else
    match cur_iface with
    | None | Some (IfWifiPhy _ _) => Some (purged_phy event cur_iface)
    | Some _ => None
    end.

(** [gen_running_route_purge]. *)
Definition gen_running_route_purge (iface_name : string) (cur_state : NetworkState) :
    list RouteEntry :=
  map set_absent (List.filter (λ rt, bool_decide (rt_next_hop_iface rt = Some iface_name))
                    (default [] (running (ns_routes cur_state)))).

(** [handle_wifi_phy_event]. *)
Definition handle_wifi_phy_event (event : InterfaceLinkEvent) (saved_iface : Interface) :
    option Interface :=
  if negb (le_is_up event) && bool_decide (iface_type saved_iface = TWifiPhy) then None
  else
    match saved_iface with
    | IfWifiCfg _ wifi =>
        if le_is_up event && bool_decide (is_Some (le_ssid event)) &&
           bool_decide (le_ssid event = wifi_ssid <$> wifi)
        then Some (wifi_cfg_to_wifi_phy (le_iface_name event) saved_iface) else None
    | _ => None
    end.

(** ** One event *)

(** What the worker meets outside. *)
Record EventEnv : Type := event_env {
  ee_saved : res NetworkState;
  ee_query : nat → res NetworkState;
  ee_plugins : nat → NetworkState → res (list NetworkState);
  ee_merge : NetworkState → NetworkState → res NetworkState;
  ee_merged : NetworkState → NetworkState → NipartApplyOption → res MergedInterfaces;
  ee_apply : MergedInterfaces → res unit;
  ee_meanwhile : Monitor → Monitor;
  ee_online : res unit;
  ee_world_rearm : World;
  ee_world_apply : World;
  ee_world_resume : World;
  ee_ifaces_rearm : res Interfaces;
  ee_ifaces_apply : res Interfaces;
}.

(** The variables of the loop over the events; [bt_queries] counts the queries. *)
Record Batch : Type := batch {
  bt_desired : NetworkState;
  bt_rearm : bool;
  bt_dependents : gset string;
  bt_wifi_cfgs : gset string;
  bt_cur : NetworkState;
  bt_queries : nat;
}.

Definition upd_desired (f : NetworkState → NetworkState) (b : Batch) : Batch :=
  batch (f (bt_desired b)) (bt_rearm b) (bt_dependents b) (bt_wifi_cfgs b) (bt_cur b)
    (bt_queries b).

(** The interface an event is about, in the current state. *)
Definition cur_iface_of (event : InterfaceLinkEvent) (cur_state : NetworkState) :
    option Interface :=
  ifs_kernel (ns_ifaces cur_state) !! le_iface_name event.

(** A saved [wifi-cfg] for a phy that appeared. *)
Definition hand_over_wifi_cfg (b : Batch) (wifi_cfg : Interface) : Batch :=
  if bool_decide (iface_name wifi_cfg ∈ bt_wifi_cfgs b) then b
  else batch (push_iface wifi_cfg (bt_desired b)) (bt_rearm b) (bt_dependents b)
         ({[iface_name wifi_cfg]} ∪ bt_wifi_cfgs b) (bt_cur b) (bt_queries b).

Definition hand_over_wifi_cfgs (saved_state : NetworkState) (event : InterfaceLinkEvent)
    (b : Batch) : Batch :=
  if le_is_new_wifi_phy event && bool_decide (le_iface_type event = TWifiPhy)
  then foldl hand_over_wifi_cfg b (gen_wifi_cfg_for_new_phy (le_iface_name event) saved_state)
  else b.

(** The SSID of the phy, queried [retries] more times while it is unknown. *)
Fixpoint retry_ssid (env : EventEnv) (event : InterfaceLinkEvent) (retries : nat)
    (cur_state : NetworkState) (queries : nat) : res (option string * NetworkState * nat) :=
  match cur_iface_of event cur_state ≫= iface_wifi_phy_ssid, retries with
  | Some ssid, _ => Ok (Some ssid, cur_state, queries)
  | None, O => Ok (None, cur_state, queries)
  | None, S retries =>
      let? cur_state := ee_query env queries in
      retry_ssid env event retries cur_state (S queries)
  end.

(** The event with the SSID of its phy, and the state in which it was found. *)
Definition find_ssid (env : EventEnv) (event : InterfaceLinkEvent) (cur_state : NetworkState)
    (queries : nat) : res (InterfaceLinkEvent * NetworkState * nat) :=
  if bool_decide (le_ssid event = None) && le_is_up event &&
     bool_decide (le_iface_type event = TWifiPhy) then
    let? found := retry_ssid env event (WIFI_SSID_QUERY_RETRY_TIMES - 1) cur_state queries in
    match found with
    | (Some ssid, cur_state, queries) => Ok (set_ssid (Some ssid) event, cur_state, queries)
    | (None, cur_state, queries) =>
        let? plugin_states := ee_plugins env queries cur_state in
        let? cur_state := fold_result (ee_merge env) cur_state plugin_states in
        Ok (match cur_iface_of event cur_state ≫= iface_wifi_phy_ssid with
            | Some ssid => set_ssid (Some ssid) event
            | None => event
            end, cur_state, S queries)
    end
  else Ok (event, cur_state, queries).

(** One saved interface: the desired state and whether its activation covers the purge of
    the NIC. *)
Definition associate (event : InterfaceLinkEvent) (saved_state : NetworkState)
    (saved_iface : Interface) (desired : NetworkState) : NetworkState :=
  if bool_decide (le_iface_type event = TWifiPhy) then
    match handle_wifi_phy_event event saved_iface with
    | Some new_iface =>
        extend_rules (gen_route_rules_for_iface_up saved_iface saved_state)
          (extend_routes (gen_routes_for_wifi_cfg_up saved_iface saved_state)
             (push_iface new_iface desired))
    | None => desired
    end
  else desired.

Definition handle_saved_iface (event : InterfaceLinkEvent) (saved_state cur_state : NetworkState)
    (acc : NetworkState * bool) (saved_iface : Interface) : NetworkState * bool :=
  let desired := associate event saved_state saved_iface acc.1 in
  match handle_event_auto_connect event saved_iface saved_state cur_state with
  | Some (new_iface, rts) =>
      (extend_rules (gen_route_rules_for_iface_up saved_iface saved_state)
         (extend_routes rts (push_iface new_iface desired)),
       acc.2 || auto_connect_targets_event_nic new_iface event (cur_iface_of event cur_state))
  | None => (desired, acc.2)
  end.

(** The purge of a phy whose link went down, with its running routes. *)
Definition purge_phy (event : InterfaceLinkEvent) (cur_state : NetworkState) (covered : bool)
    (desired : NetworkState) : NetworkState :=
  let wifi_phy_purge := gen_wifi_phy_ip_purge event (cur_iface_of event cur_state) covered in
  let desired := match wifi_phy_purge with
                 | Some purge_iface => push_iface purge_iface desired
                 | None => desired
                 end in
  if bool_decide (le_iface_type event = TWifiPhy) && negb (le_is_up event) &&
     (bool_decide (is_Some wifi_phy_purge) || covered) then
    match gen_running_route_purge (le_iface_name event) cur_state with
    | [] => desired
    | running_routes => extend_routes running_routes desired
    end
  else desired.

(** A missing virtual interface on top of the one that appeared. *)
Definition create_dependent (saved_state : NetworkState) (b : Batch) (saved_iface : Interface) :
    Batch :=
  if bool_decide (iface_name saved_iface ∈ bt_dependents b) then b
  else
    let '(new_iface, rts) := gen_desired_iface_up saved_iface saved_state in
    let desired := extend_routes rts (push_iface new_iface (bt_desired b)) in
    let desired := if iface_is_up new_iface
                   then extend_rules (gen_route_rules_for_iface_up saved_iface saved_state) desired
                   else desired in
    batch desired (bt_rearm b) ({[iface_name saved_iface]} ∪ bt_dependents b) (bt_wifi_cfgs b)
      (bt_cur b) (bt_queries b).

(** The body of the loop of [handle_events]. *)
Definition handle_event (env : EventEnv) (saved_state : NetworkState) (b : Batch)
    (event : InterfaceLinkEvent) : res Batch :=
  let cur_iface := cur_iface_of event (bt_cur b) in
  if is_stale_link_down_event event cur_iface then Ok b
  else if saved_state_ignores_event saved_state event (bt_cur b) then Ok b
  else if nic_is_gone event cur_iface then
    Ok (batch (bt_desired b) true (bt_dependents b) (bt_wifi_cfgs b) (bt_cur b) (bt_queries b))
  else
    let b := hand_over_wifi_cfgs saved_state event b in
    let? found := find_ssid env event (bt_cur b) (bt_queries b) in
    let '(event, cur_state, queries) := found in
    let '(desired, covered) :=
      foldl (handle_saved_iface event saved_state cur_state) (bt_desired b, false)
        (interfaces_iter (ns_ifaces saved_state)) in
    let desired := purge_phy event cur_state covered desired in
    let b := batch desired (bt_rearm b) (bt_dependents b) (bt_wifi_cfgs b) cur_state queries in
    Ok (foldl (create_dependent saved_state) b
          (gen_missing_virtual_dependents event saved_state cur_state)).

(** The loop of [handle_events], with the queries before it. *)
Definition handle_batch (env : EventEnv) (events : list InterfaceLinkEvent) :
    res (NetworkState * Batch) :=
  let? saved_state := ee_saved env in
  let? cur_state := ee_query env 0 in
  let cur_state := mark_saved_ignored_phys cur_state saved_state in
  let? b := fold_result (handle_event env saved_state)
              (batch ns_default false ∅ ∅ cur_state 1) events in
  Ok (saved_state, b).

(** ** Applying *)

Definition event_option (boot : bool) : NipartApplyOption :=
  if boot then opt_restart_auto_ip (opt_memory_only (opt_no_verify opt_new))
  else opt_no_verify opt_new.

(** The kernel names of the interfaces whose apply failed. *)
Definition retry_names (merged_state : MergedInterfaces) : list string :=
  List.filter (λ name, negb (String.eqb name ""))
    (map (λ i, kernel_iface_name (mi_merged i)) (merged_iter merged_state)).

(** The desired state is applied with the monitor paused. *)
Definition apply_desired (env : EventEnv) (saved_state desired_state cur_state : NetworkState)
    (boot : bool) : Mon () :=
  merged_state ← of_result (ee_merged env desired_state cur_state (event_option boot));
  exec (ee_world_apply env) Pause;;
  modify (ee_meanwhile env);;
  let apply_result := ee_apply env merged_state in
  setup_result ← attempt
    (if is_ok apply_result
     then setup_monitor (ee_world_apply env) (omap mi_for_apply (merged_iter merged_state))
            (ns_ifaces saved_state) (ee_ifaces_apply env)
     else mret ());
  exec (ee_world_resume env) Resume;;
  match apply_result with
  | Err e =>
      (if retriable (kind e) then forget_emitted (ee_world_resume env) (retry_names merged_state)
       else mret ());;
      of_result (Err e)
  | Ok _ => of_result setup_result
  end.

(** [NipartEventWorker::handle_events], with the commander set. *)
Definition handle_events (env : EventEnv) (events : list InterfaceLinkEvent) (boot : bool) :
    Mon () :=
  handled ← of_result (handle_batch env events);
  let '(saved_state, b) := (handled : NetworkState * Batch) in
  (if bt_rearm b
   then setup_saved_state_monitors (ee_world_rearm env) (ns_ifaces saved_state)
          (ee_ifaces_rearm env) true
   else mret ());;
  (if ns_is_empty (bt_desired b) then mret ()
   else apply_desired env saved_state (bt_desired b) (bt_cur b) boot);;
  of_result (ee_online env).
