(* ===== verification/EventSpec.v ===== *)
(** * EventSpec: what the event worker does on its own

    The desired state EventWorker.v builds from a batch of events: where each
    interface, route and rule in it comes from, and that the profiles of the NICs
    whose links changed are in it; and what applying it does to the monitor of
    Monitor.v, whether the apply succeeds or not. *)

From S2P Require Export EventWorker.

#[local] Open Scope Z_scope.

(** ** Changes of the desired state *)

(** Interfaces pushed, routes and rules appended. *)
Record Change : Type := change {
  ch_ifaces : list Interface;
  ch_routes : list RouteEntry;
  ch_rules : list RouteRuleEntry;
}.

Definition no_change : Change := change [] [] [].
Definition both (c c' : Change) : Change :=
  change (ch_ifaces c ++ ch_ifaces c') (ch_routes c ++ ch_routes c') (ch_rules c ++ ch_rules c').
Definition all_of (l : list Change) : Change := foldr both no_change l.

(** [d'] is [d] with the change [c], and nothing else. *)
Record grown (d d' : NetworkState) (c : Change) : Prop := {
  gr_ifaces : ns_ifaces d' = foldl interfaces_push (ns_ifaces d) (ch_ifaces c);
  gr_routes : default [] (config (ns_routes d')) = default [] (config (ns_routes d)) ++ ch_routes c;
  gr_rules : default [] (rules_config (ns_route_rules d')) =
             default [] (rules_config (ns_route_rules d)) ++ ch_rules c;
  gr_rest : running (ns_routes d') = running (ns_routes d) ∧
            ns_wait_online d' = ns_wait_online d ∧ ns_dns_resolver d' = ns_dns_resolver d;
}.

Lemma grown_refl d : grown d d no_change.
Proof. by split; simpl; rewrite ?app_nil_r. Qed.

Lemma grown_trans d1 d2 d3 c c' : grown d1 d2 c → grown d2 d3 c' → grown d1 d3 (both c c').
Proof.
  intros [H1 H2 H3 (?&?&?)] [K1 K2 K3 (?&?&?)]. split; simpl.
  - by rewrite K1, H1, foldl_app.
  - by rewrite K2, H2, app_assoc.
  - by rewrite K3, H3, app_assoc.
  - split_and!; congruence.
Qed.

Lemma both_no_change c : both c no_change = c.
Proof. destruct c. unfold both, no_change. simpl. by rewrite !app_nil_r. Qed.

Lemma grown_push i d : grown d (push_iface i d) (change [i] [] []).
Proof. by split; simpl; rewrite ?app_nil_r. Qed.

(** What [if let Some(..)] does to the desired state: an interface with routes and rules. *)
Lemma grown_profile i rts rls d :
  grown d (extend_rules rls (extend_routes rts (push_iface i d))) (change [i] rts rls).
Proof. by split. Qed.

Lemma grown_foldl {A B} (get : B → NetworkState) (f : B → A → B) (chg : A → Change) b l :
  (∀ b x, grown (get b) (get (f b x)) (chg x)) →
  grown (get b) (get (foldl f b l)) (all_of (map chg l)).
Proof.
  intros Hf. revert b. induction l as [|x l IH]; intros b; [apply grown_refl|].
  simpl. eapply grown_trans; [apply Hf|apply IH].
Qed.

(** Every part of a change has its reason. *)
Record explained (P : Interface → Prop) (Q : RouteEntry → Prop) (R : RouteRuleEntry → Prop)
    (c : Change) : Prop := {
  ex_ifaces : ∀ i, i ∈ ch_ifaces c → P i;
  ex_routes : ∀ rt, rt ∈ ch_routes c → Q rt;
  ex_rules : ∀ r, r ∈ ch_rules c → R r;
}.

Lemma explained_none P Q R : explained P Q R no_change.
Proof. split; intros x Hx; by apply elem_of_nil in Hx. Qed.

Lemma explained_both P Q R c c' :
  explained P Q R c → explained P Q R c' → explained P Q R (both c c').
Proof. intros [] []. split; intros x; simpl; rewrite elem_of_app; naive_solver. Qed.

Lemma explained_all P Q R l : (∀ c, c ∈ l → explained P Q R c) → explained P Q R (all_of l).
Proof.
  induction l as [|c l IH]; intros Hl; simpl; [apply explained_none|].
  apply explained_both; [apply Hl; set_solver|apply IH; set_solver].
Qed.

Lemma explained_weaken (P P' : Interface → Prop) (Q Q' : RouteEntry → Prop)
    (R R' : RouteRuleEntry → Prop) c :
  (∀ i, P i → P' i) → (∀ rt, Q rt → Q' rt) → (∀ r, R r → R' r) →
  explained P Q R c → explained P' Q' R' c.
Proof. intros HP HQ HR []. split; eauto. Qed.

(** A grown state whose change is explained. *)
Lemma grown_foldl_explained {A B} (get : B → NetworkState) (f : B → A → B) P Q R b l :
  (∀ b x, x ∈ l → ∃ c, grown (get b) (get (f b x)) c ∧ explained P Q R c) →
  ∃ c, grown (get b) (get (foldl f b l)) c ∧ explained P Q R c.
Proof.
  revert b. induction l as [|x l IH]; intros b Hf.
  { exists no_change. split; [apply grown_refl|apply explained_none]. }
  destruct (Hf b x ltac:(set_solver)) as (c & Hc & He).
  destruct (IH (f b x)) as (c' & Hc' & He'); [set_solver|].
  exists (both c c'). split; [by eapply grown_trans|by apply explained_both].
Qed.

(** [c] is part of [c']. *)
Definition part_of (c c' : Change) : Prop :=
  ch_ifaces c ⊆ ch_ifaces c' ∧ ch_routes c ⊆ ch_routes c' ∧ ch_rules c ⊆ ch_rules c'.

#[export] Instance part_of_preorder : PreOrder part_of.
Proof.
  split; [intros c; by split_and!|]. intros c1 c2 c3 (?&?&?) (?&?&?).
  split_and!; by etransitivity.
Qed.

Lemma part_of_both_l c c' : part_of c (both c c').
Proof. split_and!; simpl; set_solver. Qed.
Lemma part_of_both_r c c' : part_of c' (both c c').
Proof. split_and!; simpl; set_solver. Qed.

Lemma part_of_all {A} (f : A → Change) x l : x ∈ l → part_of (f x) (all_of (map f l)).
Proof.
  induction 1 as [|x y l _ IH]; simpl; [apply part_of_both_l|].
  etransitivity; [exact IH|apply part_of_both_r].
Qed.

(** ** Reasons *)

Section Reasons.
Context (saved_state : NetworkState).

Definition saved_ifaces : list Interface := interfaces_iter (ns_ifaces saved_state).
Definition saved_routes : list RouteEntry := default [] (config (ns_routes saved_state)).
Definition saved_rules : list RouteRuleEntry :=
  default [] (rules_config (ns_route_rules saved_state)).

(** The mode of a saved profile; it is automatic when nothing is said. *)
Definition mode_of (s : Interface) : InterfaceAutoConnect :=
  default AutoConnect (bi_auto_connect (base_iface s)).

(** What an event means to a saved profile: nothing, up or down. *)
Definition follows (s : Interface) (event : InterfaceLinkEvent) (cur_state : NetworkState) :
    option bool :=
  process_auto_connect (upd_base (set_bi_auto_connect (Some (mode_of s))) s) event
    (ns_ifaces cur_state).

(** Why an interface is in the desired state. *)
Inductive justified (cur_state : NetworkState) (event : InterfaceLinkEvent) : Interface → Prop :=
| justified_up s :
    s ∈ saved_ifaces → follows s event cur_state = Some true →
    justified cur_state event (activated s)
| justified_down s :
    s ∈ saved_ifaces → follows s event cur_state = Some false →
    justified cur_state event (deactivated (mode_of s) s)
| justified_profile s :
    s ∈ saved_ifaces → le_is_new_wifi_phy event = true →
    wifi_cfg_for_phy (le_iface_name event) s = true →
    justified cur_state event s
| justified_associated b wifi :
    IfWifiCfg b (Some wifi) ∈ saved_ifaces → le_is_up event = true →
    le_ssid event = Some (wifi_ssid wifi) →
    justified cur_state event
      (wifi_cfg_to_wifi_phy (le_iface_name event) (IfWifiCfg b (Some wifi)))
| justified_dependent s :
    s ∈ saved_ifaces → is_missing_dependent event saved_state cur_state s = true →
    justified cur_state event (activated s)
| justified_purge :
    le_is_up event = false → le_iface_type event = TWifiPhy →
    justified cur_state event (purged_phy event (cur_iface_of event cur_state)).

(** Why a route is: a saved one of a saved profile, or one the kernel still has through a
    phy whose link went down, which is removed. *)
Definition justified_route (cur_state : NetworkState) (event : InterfaceLinkEvent)
    (rt : RouteEntry) : Prop :=
  (∃ s r, s ∈ saved_ifaces ∧ r ∈ saved_routes ∧ is_route_matching_iface r s = true ∧
          (rt = r ∨ rt = set_absent r)) ∨
  (∃ r, r ∈ default [] (running (ns_routes cur_state)) ∧
        rt_next_hop_iface r = Some (le_iface_name event) ∧
        le_iface_type event = TWifiPhy ∧ le_is_up event = false ∧ rt = set_absent r).

Definition justified_rule (r : RouteRuleEntry) : Prop :=
  r ∈ saved_rules ∧ ∃ s, s ∈ saved_ifaces ∧ is_rule_of_iface r s = true.

Abbreviation because cur_state event :=
  (explained (justified cur_state event) (justified_route cur_state event) justified_rule).

(** *** The helpers *)

Lemma elem_of_List_filter {A} (f : A → bool) (l : list A) x :
  x ∈ List.filter f l ↔ x ∈ l ∧ f x = true.
Proof. rewrite !list_elem_of_In. apply filter_In. Qed.

Lemma rules_justified s r :
  s ∈ saved_ifaces → r ∈ gen_route_rules_for_iface_up s saved_state → justified_rule r.
Proof.
  intros Hs Hr. apply elem_of_List_filter in Hr as [Hr Hm]. split; [done|]. by exists s.
Qed.

Lemma saved_routes_justified cur_state event s rt :
  s ∈ saved_ifaces → rt ∈ saved_routes_of s saved_state → justified_route cur_state event rt.
Proof.
  intros Hs Hr. apply elem_of_List_filter in Hr as [Hr Hm]. left. exists s, rt. eauto.
Qed.

Lemma absent_routes_justified cur_state event s rt :
  s ∈ saved_ifaces → rt ∈ map set_absent (saved_routes_of s saved_state) →
  justified_route cur_state event rt.
Proof.
  intros Hs Hr. apply list_elem_of_In, in_map_iff in Hr as (r & <- & Hr).
  apply list_elem_of_In, elem_of_List_filter in Hr as [Hr Hm]. left. exists s, r. eauto.
Qed.

Lemma activated_mode s a :
  activated (upd_base (set_bi_auto_connect a) s) = activated s.
Proof. by destruct s as [| | | | | | | | | |[]|[]| | |]. Qed.

Lemma deactivated_mode a s a' :
  deactivated a (upd_base (set_bi_auto_connect a') s) = deactivated a s.
Proof. by destruct s as [| | | | | | | | | |[]|[]| | |]. Qed.

Lemma matching_mode rt s a :
  is_route_matching_iface rt (upd_base (set_bi_auto_connect a) s) = is_route_matching_iface rt s.
Proof. by destruct s as [| | | | | | | | | |[]|[]| | |]. Qed.

Lemma saved_routes_mode s a :
  saved_routes_of (upd_base (set_bi_auto_connect a) s) saved_state = saved_routes_of s saved_state.
Proof.
  unfold saved_routes_of. apply List.filter_ext. intros rt. apply matching_mode.
Qed.

Lemma userspace_mode s a :
  iface_is_userspace (upd_base (set_bi_auto_connect a) s) = iface_is_userspace s.
Proof. by destruct s as [| | | | | | | | | |[]|[]| | |]. Qed.

Lemma userspace_deactivated a s : iface_is_userspace (deactivated a s) = iface_is_userspace s.
Proof. by destruct s as [| | | | | | | | | |[]|[]| | |]. Qed.

(** What a saved profile contributes when its NIC's link changed. *)
Definition auto_change (event : InterfaceLinkEvent) (cur_state : NetworkState) (s : Interface) :
    Change :=
  match follows s event cur_state with
  | None => no_change
  | Some up =>
      change [if up : bool then activated s else deactivated (mode_of s) s]
        (if iface_is_userspace s then []
         else if up then saved_routes_of s saved_state
         else map set_absent (saved_routes_of s saved_state))
        (gen_route_rules_for_iface_up s saved_state)
  end.

(** What a saved WIFI profile contributes when its SSID was associated. *)
Definition assoc_change (event : InterfaceLinkEvent) (s : Interface) : Change :=
  if bool_decide (le_iface_type event = TWifiPhy) then
    match handle_wifi_phy_event event s with
    | Some i => change [i] (gen_routes_for_wifi_cfg_up s saved_state)
                  (gen_route_rules_for_iface_up s saved_state)
    | None => no_change
    end
  else no_change.

Lemma handle_event_auto_connect_change event cur_state s :
  match handle_event_auto_connect event s saved_state cur_state with
  | Some (i, rts) => change [i] rts (gen_route_rules_for_iface_up s saved_state)
  | None => no_change
  end = auto_change event cur_state s.
Proof.
  unfold handle_event_auto_connect, auto_change. fold (mode_of s). unfold follows.
  destruct (process_auto_connect _ _ _) as [[]|]; [| |done].
  - unfold gen_desired_iface_up, gen_routes_for_iface_up.
    by rewrite activated_mode, userspace_mode, saved_routes_mode.
  - unfold gen_desired_iface_down.
    by rewrite deactivated_mode, userspace_deactivated, saved_routes_mode.
Qed.

Lemma handle_saved_iface_grown event cur_state acc s :
  grown acc.1 (handle_saved_iface event saved_state cur_state acc s).1
    (both (assoc_change event s) (auto_change event cur_state s)).
Proof.
  rewrite <- handle_event_auto_connect_change. unfold handle_saved_iface.
  assert (grown acc.1 (associate event saved_state s acc.1) (assoc_change event s)) as H1.
  { unfold associate, assoc_change. case_bool_decide; [|apply grown_refl].
    destruct (handle_wifi_phy_event event s); [apply grown_profile|apply grown_refl]. }
  destruct (handle_event_auto_connect event s saved_state cur_state) as [[i rts]|].
  - eapply grown_trans; [exact H1|apply grown_profile].
  - eapply grown_trans; [exact H1|apply grown_refl].
Qed.

Lemma auto_change_justified event cur_state s :
  s ∈ saved_ifaces → because cur_state event (auto_change event cur_state s).
Proof.
  intros Hs. unfold auto_change. destruct (follows s event cur_state) as [up|] eqn:Hf;
    [|apply explained_none]. split; simpl.
  - intros i ->%list_elem_of_singleton. destruct up; [by apply justified_up|by apply justified_down].
  - intros rt. destruct (iface_is_userspace s); [by intros ?%elem_of_nil|].
    destruct up; [by apply saved_routes_justified|by apply absent_routes_justified].
  - intros r. by apply rules_justified.
Qed.

Lemma assoc_change_justified event cur_state s :
  s ∈ saved_ifaces → because cur_state event (assoc_change event s).
Proof.
  intros Hs. unfold assoc_change. case_bool_decide; [|apply explained_none].
  unfold handle_wifi_phy_event. destruct (negb (le_is_up event) && _); [apply explained_none|].
  destruct s as [| | | | |b wifi| | | | | | | | |]; try apply explained_none.
  destruct (le_is_up event) eqn:Hup; [|apply explained_none]. simpl.
  case_bool_decide as Hsome; [|apply explained_none]. simpl.
  case_bool_decide as Heq; [|apply explained_none].
  destruct wifi as [wifi|]; [|rewrite Heq in Hsome; by destruct Hsome]. split; simpl.
  - intros i ->%list_elem_of_singleton. by apply justified_associated.
  - intros rt. unfold gen_routes_for_wifi_cfg_up. case_match; [by intros ?%elem_of_nil|].
    by apply saved_routes_justified.
  - intros r. by apply rules_justified.
Qed.

Lemma purge_phy_grown event cur_state covered d :
  ∃ c, grown d (purge_phy event cur_state covered d) c ∧ because cur_state event c.
Proof.
  unfold purge_phy. set (purge := gen_wifi_phy_ip_purge _ _ _).
  assert (∀ i, purge = Some i → justified cur_state event i) as Hp.
  { unfold purge, gen_wifi_phy_ip_purge. intros i.
    destruct (le_is_up event) eqn:Hup; [done|]. case_bool_decide as Ht; [|done].
    destruct covered; [done|]. intros Hi. simpl in Hi.
    assert (i = purged_phy event (cur_iface_of event cur_state)) as ->
      by (destruct (cur_iface_of event cur_state) as [[]|]; by simplify_eq).
    by apply justified_purge. }
  assert (∃ c, grown d (match purge with Some i => push_iface i d | None => d end) c ∧
            because cur_state event c) as (c & Hg & Hc).
  { destruct purge as [i|].
    - exists (change [i] [] []). split; [apply grown_push|]. split; simpl; intros x Hx.
      + apply list_elem_of_singleton in Hx as ->. by apply Hp.
      + by apply elem_of_nil in Hx.
      + by apply elem_of_nil in Hx.
    - exists no_change. split; [apply grown_refl|apply explained_none]. }
  set (d1 := match purge with Some i => push_iface i d | None => d end) in *. clearbody d1.
  destruct (bool_decide (le_iface_type event = TWifiPhy) && negb (le_is_up event) &&
            (bool_decide (is_Some purge) || covered)) eqn:Hb; [|by exists c].
  apply andb_true_iff in Hb as [Hb _]. apply andb_true_iff in Hb as [Ht Hup].
  apply bool_decide_eq_true in Ht. apply negb_true_iff in Hup.
  destruct (gen_running_route_purge _ _) as [|rt rts] eqn:Hr; [by exists c|].
  exists (both c (change [] (rt :: rts) [])). split.
  { eapply grown_trans; [exact Hg|]. split; simpl; by rewrite ?app_nil_r. }
  apply explained_both; [done|]. split; simpl; intros x Hx.
  - by apply elem_of_nil in Hx.
  - rewrite <- Hr in Hx. apply list_elem_of_In, in_map_iff in Hx as (r & <- & Hx).
    apply list_elem_of_In, elem_of_List_filter in Hx as [Hx Hn].
    apply bool_decide_eq_true in Hn. right. exists r. eauto.
  - by apply elem_of_nil in Hx.
Qed.

Lemma create_dependent_grown event cur_state b s :
  s ∈ gen_missing_virtual_dependents event saved_state cur_state →
  ∃ c, grown (bt_desired b) (bt_desired (create_dependent saved_state b s)) c ∧
       because cur_state event c.
Proof.
  intros Hs. apply elem_of_List_filter in Hs as [Hs Hm]. unfold create_dependent.
  case_bool_decide; [exists no_change; split; [apply grown_refl|apply explained_none]|].
  simpl. assert (iface_is_up (activated s) = true) as ->
    by (by destruct s as [| | | | | | | | | |[]|[]| | |]).
  eexists. split; [apply grown_profile|]. split; simpl.
  - intros i ->%list_elem_of_singleton. by apply justified_dependent.
  - intros rt. unfold gen_routes_for_iface_up. case_match; [by intros ?%elem_of_nil|].
    by apply saved_routes_justified.
  - intros r. by apply rules_justified.
Qed.

Lemma hand_over_grown event cur_state b :
  ∃ c, grown (bt_desired b) (bt_desired (hand_over_wifi_cfgs saved_state event b)) c ∧
       because cur_state event c.
Proof.
  unfold hand_over_wifi_cfgs. destruct (le_is_new_wifi_phy event) eqn:Hn; simpl.
  2: { exists no_change. split; [apply grown_refl|apply explained_none]. }
  case_bool_decide; [|exists no_change; split; [apply grown_refl|apply explained_none]].
  apply grown_foldl_explained. intros b1 s Hs.
  apply elem_of_List_filter in Hs as [Hs Hm]. unfold hand_over_wifi_cfg.
  case_bool_decide; [exists no_change; split; [apply grown_refl|apply explained_none]|].
  eexists. split; [apply grown_push|]. split; simpl; intros x Hx; try by apply elem_of_nil in Hx.
  apply list_elem_of_singleton in Hx as ->. by apply justified_profile.
Qed.
End Reasons.

(** ** A batch *)

(** The event is acted upon: it is not stale, its NIC is managed and still there. *)
Record live (saved_state : NetworkState) (event : InterfaceLinkEvent) (cur_state : NetworkState) :
    Prop := {
  live_current : is_stale_link_down_event event (cur_iface_of event cur_state) = false;
  live_managed : saved_state_ignores_event saved_state event cur_state = false;
  live_there : nic_is_gone event (cur_iface_of event cur_state) = false;
}.

(** The event, possibly with the SSID the worker found out. *)
Definition informed (event event' : InterfaceLinkEvent) : Prop :=
  event' = event ∨ ∃ ssid, event' = set_ssid (Some ssid) event.

Definition needs_ssid (event : InterfaceLinkEvent) : bool :=
  bool_decide (le_ssid event = None) && le_is_up event &&
  bool_decide (le_iface_type event = TWifiPhy).

Lemma find_ssid_informed env event cur q event' cur' q' :
  find_ssid env event cur q = Ok (event', cur', q') → informed event event'.
Proof.
  unfold find_ssid. destruct (bool_decide _ && _ && _); [|intros [= <- _ _]; by left].
  destruct (retry_ssid _ _ _ _ _) as [[[[ssid|] cur1] q1]|]; [| |done].
  - intros [= <- _ _]. right. eauto.
  - destruct (ee_plugins env q1 cur1) as [states|]; [|done].
    destruct (fold_result (ee_merge env) cur1 states) as [cur2|]; [|done].
    intros [= <- _ _]. destruct (cur_iface_of event cur2 ≫= iface_wifi_phy_ssid); unfold informed;
      eauto.
Qed.

Lemma find_ssid_known env event cur q :
  needs_ssid event = false → find_ssid env event cur q = Ok (event, cur, q).
Proof. unfold needs_ssid, find_ssid. by intros ->. Qed.

Lemma create_dependents_cur saved l b : bt_cur (foldl (create_dependent saved) b l) = bt_cur b.
Proof.
  revert b. induction l as [|s l IH]; intros b; [done|]. simpl. rewrite IH.
  unfold create_dependent. case_bool_decide; [done|]. done.
Qed.

Lemma hand_over_cur saved event b :
  bt_cur (hand_over_wifi_cfgs saved event b) = bt_cur b ∧
  bt_queries (hand_over_wifi_cfgs saved event b) = bt_queries b.
Proof.
  unfold hand_over_wifi_cfgs. destruct (_ && _); [|done].
  generalize (gen_wifi_cfg_for_new_phy (le_iface_name event) saved). intros l. revert b.
  induction l as [|s l IH]; intros b; [done|]. simpl.
  destruct (IH (hand_over_wifi_cfg b s)) as [-> ->].
  unfold hand_over_wifi_cfg. by case_bool_decide.
Qed.

(** One event: what it adds is justified by it, and every saved profile is considered. *)
Lemma handle_event_grown env saved b event b' :
  handle_event env saved b event = Ok b' →
  (¬ live saved event (bt_cur b) ∧ bt_desired b' = bt_desired b ∧ bt_cur b' = bt_cur b) ∨
  live saved event (bt_cur b) ∧
  ∃ event' c, informed event event' ∧ (needs_ssid event = false →
      event' = event ∧ bt_cur b' = bt_cur b) ∧
    grown (bt_desired b) (bt_desired b') c ∧
    explained (λ i, ∃ ev, informed event ev ∧ justified saved (bt_cur b') ev i)
      (λ rt, ∃ ev, informed event ev ∧ justified_route saved (bt_cur b') ev rt)
      (justified_rule saved) c ∧
    ∀ s, s ∈ saved_ifaces saved → part_of (auto_change saved event' (bt_cur b') s) c.
Proof.
  unfold handle_event. intros E.
  destruct (is_stale_link_down_event event _) eqn:Hstale.
  { injection E as <-. left. split; [intros [H _ _]; congruence|done]. }
  destruct (saved_state_ignores_event saved event (bt_cur b)) eqn:Hign.
  { injection E as <-. left. split; [intros [_ H _]; congruence|done]. }
  destruct (nic_is_gone event _) eqn:Hgone.
  { injection E as <-. left. split; [intros [_ _ H]; congruence|done]. }
  right. split; [by split|].
  destruct (hand_over_cur saved event b) as [Hc0 Hq0].
  destruct (find_ssid env event _ _) as [[[ev cur] q]|] eqn:Hf; [|done].
  pose proof (find_ssid_informed _ _ _ _ _ _ _ Hf) as Hinf.
  destruct (foldl _ _ _) as [desired covered] eqn:Hfold.
  injection E as <-. rewrite create_dependents_cur. simpl.
  set (b1 := hand_over_wifi_cfgs saved event b) in *.
  set (chg := λ s, both (assoc_change saved ev s) (auto_change saved ev cur s)).
  pose proof (grown_foldl fst (handle_saved_iface ev saved cur) chg (bt_desired b1, false)
    (saved_ifaces saved) (λ acc s, handle_saved_iface_grown saved ev cur acc s)) as Hs.
  unfold saved_ifaces in Hs at 1. rewrite Hfold in Hs. simpl in Hs.
  destruct (hand_over_grown saved event cur b) as (c1 & Hg1 & He1).
  destruct (purge_phy_grown saved ev cur covered desired) as (c3 & Hg3 & He3).
  set (b2 := batch (purge_phy ev cur covered desired) (bt_rearm b1) (bt_dependents b1)
               (bt_wifi_cfgs b1) cur q).
  destruct (grown_foldl_explained bt_desired (create_dependent saved)
    (justified saved cur ev) (justified_route saved cur ev) (justified_rule saved) b2
    (gen_missing_virtual_dependents ev saved cur)) as (c4 & Hg4 & He4).
  { intros b3 s Hin. by apply create_dependent_grown. }
  exists ev, (both c1 (both (all_of (map chg (saved_ifaces saved))) (both c3 c4))).
  split; [done|]. split.
  { intros Hn. rewrite (find_ssid_known _ _ _ _ Hn) in Hf. injection Hf as <- <- _. by split. }
  assert (∀ c, explained (justified saved cur ev) (justified_route saved cur ev)
                 (justified_rule saved) c →
          explained (λ i, ∃ ev, informed event ev ∧ justified saved cur ev i)
            (λ rt, ∃ ev, informed event ev ∧ justified_route saved cur ev rt)
            (justified_rule saved) c) as Hweak.
  { intros c. apply explained_weaken; eauto. }
  split; [|split].
  - eapply grown_trans; [exact Hg1|]. eapply grown_trans; [exact Hs|].
    eapply grown_trans; [exact Hg3|exact Hg4].
  - apply explained_both.
    { revert He1. apply explained_weaken; [| |done]; intros x Hx; exists event; split; [by left|done|by left|done]. }
    apply explained_both; [|by apply explained_both; apply Hweak]. apply Hweak, explained_all.
    intros c Hin. apply list_elem_of_In, in_map_iff in Hin as (s & <- & Hin).
    apply list_elem_of_In in Hin.
    apply explained_both; [by apply assoc_change_justified|by apply auto_change_justified].
  - intros s Hin. etransitivity; [apply part_of_both_r|].
    etransitivity; [exact (part_of_all chg s _ Hin)|].
    etransitivity; [apply part_of_both_l|apply part_of_both_r].
Qed.

(** What one event of the batch may add, in the state [b] the events before it left. *)
Abbreviation step_explained saved event cur :=
  (explained (λ i, ∃ ev, informed event ev ∧ justified saved cur ev i)
     (λ rt, ∃ ev, informed event ev ∧ justified_route saved cur ev rt) (justified_rule saved)).

(** [event] of the batch was acted upon, and [ev] is what the worker made of it. *)
Definition acted_upon (saved : NetworkState) (events : list InterfaceLinkEvent)
    (ev : InterfaceLinkEvent) : Prop :=
  ∃ event cur, event ∈ events ∧ live saved event cur ∧ informed event ev.

Abbreviation batch_explained saved events :=
  (explained (λ i, ∃ ev cur, acted_upon saved events ev ∧ justified saved cur ev i)
     (λ rt, ∃ ev cur, acted_upon saved events ev ∧ justified_route saved cur ev rt)
     (justified_rule saved)).

Lemma handle_events_loop env saved events b b' :
  fold_result (handle_event env saved) b events = Ok b' →
  ∃ c, grown (bt_desired b) (bt_desired b') c ∧ batch_explained saved events c ∧
    ((∀ e, e ∈ events → needs_ssid e = false) → bt_cur b' = bt_cur b ∧
       ∀ e s, e ∈ events → live saved e (bt_cur b) → s ∈ saved_ifaces saved →
         part_of (auto_change saved e (bt_cur b) s) c).
Proof.
  revert b. induction events as [|event events IH]; intros b E; simpl in E.
  { injection E as <-. exists no_change. split; [apply grown_refl|].
    split; [apply explained_none|]. intros _. split; [done|]. by intros e s He%elem_of_nil. }
  destruct (handle_event env saved b event) as [b1|] eqn:Hb; [|done].
  destruct (IH b1 E) as (c2 & Hg2 & He2 & Hall).
  assert (∀ c, batch_explained saved events c → batch_explained saved (event :: events) c) as Hmore.
  { intros c. apply explained_weaken; [| |done]; intros x (ev & cur & (e & cur' & Hin & Hl & Hi) & Hj);
      exists ev, cur; split; [exists e, cur'; set_solver|done|exists e, cur'; set_solver|done]. }
  destruct (handle_event_grown _ _ _ _ _ Hb) as [(Hdead & Hd & Hc)|(Hlive & ev & c1 & Hinf & Hq & Hg1 & He1 & Hs)].
  - exists c2. rewrite <- Hd. split; [done|]. split; [by apply Hmore|]. intros Hn.
    destruct Hall as [Hcur Hall]; [set_solver|]. rewrite Hc in Hcur, Hall. split; [done|].
    intros e s [->|Hin]%elem_of_cons Hl Hsv; [done|by apply Hall].
  - exists (both c1 c2). split; [by eapply grown_trans|]. split.
    + apply explained_both; [|by apply Hmore]. revert He1.
      apply explained_weaken; [| |done]; intros x (ev1 & Hi & Hj); exists ev1, (bt_cur b1);
        (split; [exists event, (bt_cur b); split_and!; [set_solver|done|done]|done]).
    + intros Hn. destruct (Hq (Hn event ltac:(set_solver))) as [-> Hc].
      destruct Hall as [Hcur Hall]; [set_solver|]. rewrite Hc in Hcur, Hall, Hs. split; [done|].
      intros e s [->|Hin]%elem_of_cons Hl Hsv.
      * etransitivity; [by apply Hs|apply part_of_both_l].
      * etransitivity; [by apply Hall|apply part_of_both_r].
Qed.

Lemma handle_batch_inv env events saved b :
  handle_batch env events = Ok (saved, b) →
  ∃ cur, ee_saved env = Ok saved ∧ ee_query env 0 = Ok cur ∧
    fold_result (handle_event env saved)
      (batch ns_default false ∅ ∅ (mark_saved_ignored_phys cur saved) 1) events = Ok b.
Proof.
  unfold handle_batch. destruct (ee_saved env) as [s|]; [|done].
  destruct (ee_query env 0) as [cur|]; [|done].
  destruct (fold_result _ _ _) as [b'|] eqn:E; [|done]. intros [= <- <-]. by exists cur.
Qed.


(** The routes of a saved profile that is not only a user space configuration. *)
Definition profile_routes (saved : NetworkState) (s : Interface) : list RouteEntry :=
  if iface_is_userspace s then [] else saved_routes_of s saved.

