(* ===== verification/EventApply.v ===== *)
(** * EventApply: applying what the events ask for

    What [handle_events] of EventWorker.v does to the monitor: nothing for events
    of NICs that are not managed, a pause that is always taken back, and a failed
    apply that the next reconciliation repeats. *)

From S2P Require Export EventSpec.

#[local] Open Scope Z_scope.

(** ** Events without effect *)

(** The worker does not react to the event. *)
Definition no_concern (saved : NetworkState) (cur : NetworkState) (event : InterfaceLinkEvent) :
    Prop :=
  is_stale_link_down_event event (cur_iface_of event cur) = true ∨
  saved_state_ignores_event saved event cur = true.

Lemma handle_event_no_concern env saved b event :
  no_concern saved (bt_cur b) event → handle_event env saved b event = Ok b.
Proof.
  unfold no_concern, handle_event. destruct (is_stale_link_down_event _ _); [done|].
  by intros [?| ->].
Qed.

(** Events of NICs that are marked as ignored, and link-down events that are out of date,
    have no effect at all: nothing is applied, and the monitor is neither paused nor changed
    in any other way.  Only the online state is evaluated again. *)
Theorem unmanaged_events_change_nothing env events boot saved cur m :
  ee_saved env = Ok saved → ee_query env 0 = Ok cur →
  (∀ e, e ∈ events → no_concern saved (mark_saved_ignored_phys cur saved) e) →
  handle_events env events boot m = (ee_online env, m).
Proof.
  intros Hs Hq Hall. unfold handle_events, handle_batch. rewrite Hs, Hq.
  set (b := batch ns_default false ∅ ∅ (mark_saved_ignored_phys cur saved) 1).
  assert (fold_result (handle_event env saved) b events = Ok b) as ->.
  { induction events as [|e l IH]; [done|]. simpl.
    rewrite handle_event_no_concern by (apply Hall; set_solver). apply IH. set_solver. }
  rewrite of_result_bind. reflexivity.
Qed.

(** ** The pause counter *)

(** What a command means to the pause counter. *)
Definition recounted (cmd : NipartMonitorCmd) (c : Z) : Z :=
  match cmd with
  | Pause => Z.min u32_max (c + 1)
  | Resume => Z.max 0 (c - 1)
  | _ => c
  end.

Lemma session_pause_count m m' :
  session_of m' = session_of m → manual_pause_count m' = manual_pause_count m.
Proof. by intros [= _ ? _ _ _ _]. Qed.

Lemma resume_pause_count w : keeps_part manual_pause_count (resume w).
Proof. intros m. apply (resume_session w m). Qed.

Lemma start_pause_count w : keeps_part manual_pause_count (start_and_dump w).
Proof.
  intros m. rewrite (session_pause_count _ _ (start_and_dump_session w m)).
  by rewrite resume_pause_count.
Qed.

Lemma exec_pause_count w cmd m :
  manual_pause_count (exec w cmd m).2 = recounted cmd (manual_pause_count m).
Proof.
  assert (keeps_part manual_pause_count (modify pause)) as Hp by (intros m1; apply pause_closes).
  unfold exec. destruct cmd; try done; unfold process_cmd, recounted.
  1-6: rewrite modify_bind, gets_bind;
    match goal with |- context [when_ ?b ?act] => destruct b; simpl when_ end;
    first [exact (Hp _)|exact (resume_pause_count w _)|done].
  - rewrite gets_bind. destruct (started m); [done|].
    rewrite modify_bind, gets_bind. set (m1 := upd_started _ m).
    assert (∀ x : Mon (), keeps_part manual_pause_count x →
      keeps_part manual_pause_count (x;; modify (upd_next_reconcile
        (λ _, env_instant w + reconcile_interval w)))) as Hend
      by (intros x Hx; apply keeps_bind; [done|by intros _ m2]).
    refine (Hend _ _ m1). destruct (should_resume m1); [apply start_pause_count|].
    intros m2. apply session_pause_count, keeps_send_cmd.
  - rewrite modify_bind. exact (Hp _).
  - rewrite modify_bind, gets_bind.
    match goal with |- context [when_ ?b ?act] => destruct b; simpl when_ end;
      [exact (resume_pause_count w _)|done].
Qed.

Lemma exec_other_pause_count w cmd :
  cmd ≠ Pause → cmd ≠ Resume → keeps_part manual_pause_count (exec w cmd).
Proof. intros H1 H2 m. rewrite exec_pause_count. by destruct cmd. Qed.

Lemma set_wifi_monitor_pause_count w saved :
  keeps_part manual_pause_count (exec w (set_wifi_monitor saved)).
Proof. unfold set_wifi_monitor. destruct (wifi_monitor_is_needed saved); by apply exec_other_pause_count. Qed.

Lemma keeps_for_each_in {A X} (p : Monitor → X) (f : A → Mon ()) l :
  (∀ x, x ∈ l → keeps_part p (f x)) → keeps_part p (for_each f l).
Proof.
  induction l as [|x l IH]; intros Hf; simpl; [apply keeps_ret|].
  apply keeps_bind; [apply Hf; set_solver|]. intros _. apply IH. set_solver.
Qed.

Lemma setup_saved_pause_count w saved cur active :
  keeps_part manual_pause_count (setup_saved_state_monitors w saved cur active).
Proof.
  unfold setup_saved_state_monitors. apply keeps_bind; [apply set_wifi_monitor_pause_count|].
  intros _. apply keeps_bind; [apply keeps_of_result|]. intros cur_state.
  apply keeps_for_each_in. intros cmd Hin. apply list_elem_of_omap in Hin as (i & _ & Hi).
  apply exec_other_pause_count; intros ->; unfold watch_saved_iface in Hi;
    by repeat case_match.
Qed.

Lemma setup_monitor_pause_count w for_apply saved cur :
  keeps_part manual_pause_count (setup_monitor w for_apply saved cur).
Proof.
  unfold setup_monitor. apply keeps_bind; [apply set_wifi_monitor_pause_count|]. intros _.
  apply keeps_bind; [|intros _; apply setup_saved_pause_count].
  apply keeps_for_each_in. intros cmd Hin. apply list_elem_of_bind in Hin as (i & Hin & _).
  unfold watch_applied_iface in Hin.
  apply exec_other_pause_count; intros ->; repeat case_match; set_solver.
Qed.

Lemma forget_pause_count w names : keeps_part manual_pause_count (forget_emitted w names).
Proof.
  unfold forget_emitted. case_bool_decide; [apply keeps_ret|by apply exec_other_pause_count].
Qed.

(** The first command of [x ≫= k] changes the counter by [f], the rest keeps it. *)
Lemma count_bind {A B} (x : Mon A) (k : A → Mon B) (f : Z → Z) m :
  manual_pause_count (x m).2 = f (manual_pause_count m) →
  (∀ a, keeps_part manual_pause_count (k a)) →
  manual_pause_count ((x ≫= k) m).2 = f (manual_pause_count m).
Proof.
  intros Hx Hk. unfold mbind, Mon_bind. destruct (x m) as [[a|e] m1]; [|done].
  by rewrite (Hk a).
Qed.

Lemma exec_pause_ok w m : exec w Pause m = (Ok (), (exec w Pause m).2).
Proof. done. Qed.

Section Apply.
Context (env : EventEnv) (saved_state desired_state cur_state : NetworkState) (boot : bool).

(** What the apply leads to, once the states could be merged. *)
Definition apply_steps (merged_state : MergedInterfaces) : Mon () :=
  let apply_result := ee_apply env merged_state in
  setup_result ← attempt
    (if is_ok apply_result
     then setup_monitor (ee_world_apply env) (omap mi_for_apply (merged_iter merged_state))
            (ns_ifaces saved_state) (ee_ifaces_apply env)
     else mret ());
  exec (ee_world_resume env) Resume;;
  match apply_result with
  | Err e =>
      (if retriable (kind e) then forget_emitted (ee_world_resume env) (retry_names merged_state)
       else mret ());;
      of_result (Err e)
  | Ok _ => of_result setup_result
  end.

Lemma apply_desired_steps merged_state m :
  ee_merged env desired_state cur_state (event_option boot) = Ok merged_state →
  apply_desired env saved_state desired_state cur_state boot m =
  apply_steps merged_state (ee_meanwhile env (exec (ee_world_apply env) Pause m).2).
Proof.
  intros Hm. unfold apply_desired. rewrite Hm, of_result_bind. unfold mbind at 1, Mon_bind at 1.
  by rewrite exec_pause_ok, modify_bind.
Qed.

Lemma apply_steps_pause_count merged_state m :
  manual_pause_count (apply_steps merged_state m).2 = Z.max 0 (manual_pause_count m - 1).
Proof.
  unfold apply_steps. set (setup := if is_ok _ then _ else _).
  assert (keeps_part manual_pause_count setup) as Hs.
  { unfold setup. destruct (is_ok _); [apply setup_monitor_pause_count|apply keeps_ret]. }
  unfold mbind at 1, Mon_bind at 1. unfold attempt. specialize (Hs m).
  destruct (setup m) as [r m1]. simpl in Hs. rewrite <- Hs.
  apply (count_bind (exec (ee_world_resume env) Resume) _ (λ c, Z.max 0 (c - 1)) m1);
    [apply exec_pause_count|]. intros _.
  destruct (ee_apply env merged_state) as [|e]; [apply keeps_of_result|].
  apply keeps_bind; [|intros _; apply keeps_of_result].
  destruct (retriable (kind e)); [apply forget_pause_count|apply keeps_ret].
Qed.

Lemma apply_steps_failed merged_state e m :
  ee_apply env merged_state = Err e →
  apply_steps merged_state m =
  (exec (ee_world_resume env) Resume;;
   (if retriable (kind e) then forget_emitted (ee_world_resume env) (retry_names merged_state)
    else mret ());;
   of_result (Err e)) m.
Proof. intros He. unfold apply_steps. by rewrite He. Qed.
End Apply.

Lemma mret_bind {A B} (a : A) (k : A → Mon B) m : (mret a ≫= k) m = k a m.
Proof. done. Qed.

(** An apply never leaves the monitor paused.  However a batch of events ends - a query,
    the merge, the apply, the setup of the watches, the resume or the online check may
    fail - the pause counter is what it was before, as long as what the worker of the monitor
    does during the apply does not change it. *)
Theorem event_apply_takes_pause_back env events boot m :
  (∀ m, manual_pause_count (ee_meanwhile env m) = manual_pause_count m) →
  0 ≤ manual_pause_count m < u32_max →
  manual_pause_count (handle_events env events boot m).2 = manual_pause_count m.
Proof.
  intros Hmean Hc. unfold handle_events.
  destruct (handle_batch env events) as [[saved b]|]; [|done]. rewrite of_result_bind.
  set (rearm := if bt_rearm b
    then setup_saved_state_monitors (ee_world_rearm env) (ns_ifaces saved)
           (ee_ifaces_rearm env) true else mret ()).
  assert (keeps_part manual_pause_count rearm) as Hr.
  { unfold rearm. destruct (bt_rearm b); [apply setup_saved_pause_count|apply keeps_ret]. }
  unfold mbind at 1, Mon_bind at 1. specialize (Hr m).
  destruct (rearm m) as [[[]|e] m1]; [|done].
  simpl in Hr. rewrite <- Hr in *. clear Hr m.
  apply (count_bind _ _ id); [|intros _; apply keeps_of_result]. unfold id.
  destruct (ns_is_empty (bt_desired b)); [done|].
  destruct (ee_merged env (bt_desired b) (bt_cur b) (event_option boot)) as [merged|] eqn:Em.
  - rewrite (apply_desired_steps _ _ _ _ _ _ _ Em), apply_steps_pause_count, Hmean,
      exec_pause_count. simpl. unfold u32_max in *. lia.
  - unfold apply_desired. by rewrite Em.
Qed.

(** ** A failed apply *)

Lemma lookup_delete_names {A} (names : list string) (m : gmap string A) n :
  n ∈ names → foldl (λ s i, delete i s) m names !! n = None.
Proof.
  assert (∀ (l : list string) (m : gmap string A), m !! n = None →
    foldl (λ s i, delete i s) m l !! n = None) as Hkeep.
  { induction l as [|i l IH]; intros m1 Hm1; [done|]. simpl. apply IH.
    by rewrite lookup_delete_None; right. }
  revert m. induction names as [|i l IH]; intros m Hin; [by apply elem_of_nil in Hin|].
  simpl. destruct (decide (n ∈ l)) as [Hl|Hl]; [by apply IH|].
  apply Hkeep. apply elem_of_cons in Hin as [->|]; [|done]. by rewrite lookup_delete_eq.
Qed.

(** An interface without an emitted state is reported by the next reconciliation. *)
Lemma forgotten_is_reported n env K i seen m :
  tracked n m → emited m !! n = None → connected env m → K !! n = Some i →
  iface_wifi_phy_ssid i = None → (∀ x, env_udev_initialized env x = true) →
  ∃ e m', reconcile_iface env K seen n m = (Ok ({[n]} ∪ seen), m') ∧
    about n (reported m') = about n (reported m) ++ [e] ∧
    le_is_up e = kernel_is_up i ∧ le_is_delete e = false.
Proof.
  intros Ht Hnone Hc HK Hssid Hudev.
  destruct (reconcile_iface_run n env K i seen m HK Hc) as [E _].
  pose proof (reconciled_view n env i m Ht Hssid Hudev) as Hview. cbn zeta in Hview.
  destruct Hview as [(l & Hl & _)|(_ & _ & l & e & _ & _ & Hup & Hdel & _ & [[_ Ha]|Hheld])].
  - congruence.
  - exists e, (reconciled n env i m). split_and!; done.
  - exfalso. destruct Hheld as (Hq & _ & _). revert Hq. unfold reconciled.
    pose proof (like_observe n (to_ascii_uppercase <$> bi_mac_address (base_iface i)) m) as Hl.
    set (m1 := (observe_mac n _ m).2) in *.
    assert (emited m1 !! n = None) as Hn1 by (by rewrite (like_last _ _ _ Hl)).
    destruct (link_event_from_iface env n i (wifi_monitor_enabled m1)) as [ev|] eqn:He; [|done].
    pose proof (link_event_carrier _ _ _ _ _ He) as [_ Hs]. specialize (Hs Hssid).
    apply link_event_from_iface_spec in He as (Hname & Hd & _).
    pose proof (like_tracked _ _ _ Hl Ht) as Ht1.
    rewrite (tracked_interested n m1 ev Ht1 Hname), Hn1. simpl. unfold tried.
    rewrite (tracked_quiet n m1 ev Ht1 Hname Hs), (tracked_interested n m1 ev Ht1 Hname), Hd, Hudev.
    simpl. destruct (debounced_view n env ev m1 Hname Hd) as (_ & _ & l1 & _ & _ & [[Hq _]|(_ & _ & l0 & Hl0 & _)]);
      congruence.
Qed.


(** ** Examples *)

(** [eth1], with a static configuration, a route and a rule of it. *)
Definition ev_profile : Interface :=
  IfEthernet (set_bi_kernel_iface_name "eth1" (base_new "eth1" TEthernet)) None.

Definition ev_route : RouteEntry := ex_route "198.51.100.0/24" "eth1" 254 100.

Definition ev_saved : NetworkState := extend_routes [ev_route] (push_iface ev_profile ns_default).

Definition ev_state (ifaces : list Interface) : NetworkState :=
  set_ns_ifaces (interfaces_new ifaces) ns_default.

Definition ev_event (name : string) (t : InterfaceType) (up : bool) : InterfaceLinkEvent :=
  link_event name 2 t up false 0 None false.

(** The merged state of the examples has one interface, [eth1]. *)
Definition ev_merged : MergedInterfaces :=
  merged_interfaces
    [("eth1", merged_interface None None ev_profile (Some ev_profile) None None None None false)]
    [] [] [] search_default.

(** The queries of the kernel give [states] one after the other. *)
Definition ev_env (saved : NetworkState) (states : list NetworkState) (apply : res unit) : EventEnv :=
  event_env (Ok saved) (λ k, Ok (default ns_default (states !! k))) (λ _ _, Ok [])
    (λ s _, Ok s) (λ _ _ _, Ok ev_merged) (λ _, apply) id (Ok tt)
    (ex_world 1 true) (ex_world 1 true) (ex_world 1 true) (Ok interfaces_default)
    (Ok interfaces_default).

Definition ev_up : EventEnv := ev_env ev_saved [ev_state [ex_iface "eth1" LUp]] (Ok tt).

Definition batch_of (env : EventEnv) (events : list InterfaceLinkEvent) : Batch :=
  match handle_batch env events with
  | Ok (_, b) => b
  | Err _ => batch ns_default false ∅ ∅ ns_default 0
  end.

Lemma batch_of_ok env events saved :
  ee_saved env = Ok saved → is_ok (handle_batch env events) = true →
  handle_batch env events = Ok (saved, batch_of env events).
Proof.
  intros Hs Hok. unfold batch_of. destruct (handle_batch env events) as [[s b]|] eqn:E; [|done].
  apply handle_batch_inv in E as (cur & Hs' & _). congruence.
Qed.



(** The link of [eth1] is up by now, so the event that it went down is out of date. *)
Lemma unmanaged_events_change_nothing_witness :
  handle_events ev_up [ev_event "eth1" TEthernet false] false ex_monitor = (Ok tt, ex_monitor).
Proof.
  apply (unmanaged_events_change_nothing ev_up _ false ev_saved (ev_state [ex_iface "eth1" LUp])).
  - reflexivity.
  - reflexivity.
  - intros e ->%list_elem_of_singleton. left. vm_compute. reflexivity.
Defined.

Lemma event_apply_takes_pause_back_witness :
  manual_pause_count
    (handle_events ev_up [ev_event "eth1" TEthernet true] false ex_monitor).2 = 0.
Proof.
  assert (manual_pause_count ex_monitor = 0) as Hz by (vm_compute; reflexivity).
  rewrite <- Hz. apply event_apply_takes_pause_back; [reflexivity|]. rewrite Hz. split; reflexivity.
Defined.

(** A plugin fails while [eth1] is brought up. *)
Definition ev_failing : EventEnv :=
  ev_env ev_saved [ev_state [ex_iface "eth1" LUp]] (fail PluginFailure).

Example ev_resume_is_ok :
  is_ok (exec (ee_world_resume ev_failing) Resume
    (ee_meanwhile ev_failing (exec (ee_world_apply ev_failing) Pause ex_monitor).2)).1 = true.
Proof. vm_compute. reflexivity. Qed.


Definition ev_wlan (name : string) (state : InterfaceState) : Interface :=
  IfWifiPhy (set_bi_state state (set_bi_kernel_iface_name name (base_new name TWifiPhy))) None.

(** [wlan1] is marked as ignored before the merge, so that it is not brought up.  When the SSID
    of [wlan0] has to be queried again, the mark is lost. *)
Example retry_forgets_ignored_phys :
  let env := ev_env (ev_state [ev_wlan "wlan1" SIgnore])
    (repeat (ev_state [ev_wlan "wlan0" SUp; ev_wlan "wlan1" SUp]) 10) (Ok tt) in
  let state events := (λ i, bi_state (base_iface i)) <$>
    ifs_kernel (ns_ifaces (bt_cur (batch_of env events))) !! "wlan1" in
  state [ev_event "wlan0" TWifiPhy false] = Some SIgnore ∧
  state [ev_event "wlan0" TWifiPhy true] = Some SUp.
Proof. vm_compute. split; reflexivity. Qed.

(** An ignored NIC, known by its permanent MAC address while it uses another one, is brought
    up when its link goes up; so is one whose activation waits for a WIFI network. *)
Definition ev_ignored (auto : option InterfaceAutoConnect) : Interface :=
  IfEthernet (set_bi_mac_address (Some "02:00:00:00:00:01") (set_bi_identifier (Some IdMacAddress)
    (set_bi_auto_connect auto (set_bi_state SIgnore (base_new "nic" TEthernet))))) None.

Definition ev_nic : Interface :=
  IfEthernet (set_bi_permanent_mac_address (Some "02:00:00:00:00:01")
    (set_bi_mac_address (Some "02:00:00:00:00:99")
      (set_bi_kernel_iface_name "eth1" (base_new "eth1" TEthernet)))) None.

Example ignored_nics_are_brought_up :
  let brought_up auto name :=
    (λ i, (iface_name i, bi_state (base_iface i))) <$>
    interfaces_iter (ns_ifaces (bt_desired (batch_of
      (ev_env (ev_state [ev_ignored auto]) [ev_state [ev_nic; ex_iface "eth2" LUp]] (Ok tt))
      [ev_event name TEthernet true]))) in
  brought_up None "eth1" = [("nic", SUp)] ∧
  brought_up (Some (AcWifiNot "home")) "eth2" = [("nic", SUp)].
Proof. vm_compute. split; reflexivity. Qed.
