(* ===== verification/WifiConnect.v ===== *)
(** * WifiConnect: waiting for the requested WIFI networks

    The part of [src/daemon/apply.rs] before and in [wait_wifi_connect_requests]: which
    associations an apply asks for, on which NICs, when they are there, and the wait for
    them, which ends with them, with an error that waiting cannot cure, or after a minute. *)

From S2P Require Export Eff MonitorManager MergedNetState.

#[local] Open Scope Z_scope.

Definition WIFI_CONNECT_WAIT_TIMEOUT_SECS : Z := 60.
Definition WIFI_CONNECT_SETTLED_OTHER_GRACE_SECS : Z := 3.
Definition APPLY_RETRY_INTERVAL_MS : Z := 500.

Record WifiConnectRequest : Type := connect_request {
  cr_ssid : string;
  cr_base_iface : option string;
}.

Record WifiConnectGroup : Type := connect_group {
  cg_phy_name : option string;
  cg_base_iface : option string;
  cg_ssids : list string;
}.

(** ** Requests *)

Definition kernel_merged (self : MergedNetworkState) : list MergedInterface :=
  (kernel_ifaces (mn_ifaces self)).*2.

Definition is_phy (m : MergedInterface) : bool := bool_decide (mi_iface_type m = TWifiPhy).

Definition is_ignored_phy (m : MergedInterface) : bool := is_phy m && iface_is_ignore (mi_merged m).

(** [wifi_phy_kernel_name]. *)
Definition wifi_phy_kernel_name (self : MergedNetworkState) (iface : Interface) : option string :=
  match List.find (λ m, bool_decide (iface_name <$> mi_desired m = Some (iface_name iface)) && is_phy m &&
                        negb (String.eqb (mi_kernel_iface_name m) "")) (kernel_merged self) with
  | Some m => Some (mi_kernel_iface_name m)
  | None => Some (if String.eqb (kernel_iface_name iface) "" then iface_name iface
                  else kernel_iface_name iface)
  end.

(** [wifi_connect_request_has_eligible_phy]. *)
Definition wifi_connect_request_has_eligible_phy (self : MergedNetworkState)
    (request_base_iface : option string) : bool :=
  let ignored_phys := List.filter is_ignored_phy (kernel_merged self) in
  if bool_decide (ignored_phys = []) then true
  else
    match request_base_iface with
    | Some base =>
        negb (existsb (λ m, is_ignored_phy m &&
          (String.eqb (mi_kernel_iface_name m) base || String.eqb (mi_name m) base ||
           bool_decide (bi_profile_name (base_iface (mi_merged m)) = Some base))) (kernel_merged self))
    | None =>
        let present := List.filter (λ m, is_phy m && bool_decide (is_Some (mi_current m)))
                         (kernel_merged self) in
        if bool_decide (present = []) then true
        else negb (bool_decide (length (List.filter (λ m, iface_is_ignore (mi_merged m)) present) =
                                length present))
    end.

Definition requested_ssid (wifi : option WifiConfig) : option string :=
  match wifi_phy_ssid wifi with Some ssid => if String.eqb ssid "" then None else Some ssid | None => None end.

(** One interface of [wifi_connect_requests]. *)
Definition connect_request_of (self : MergedNetworkState) (iface : Interface) : option WifiConnectRequest :=
  if negb (iface_is_up iface) then None
  else
    match iface with
    | IfWifiPhy _ wifi =>
        (λ ssid, connect_request ssid (wifi_phy_kernel_name self iface)) <$> requested_ssid wifi
    | IfWifiCfg _ wifi =>
        match requested_ssid wifi with
        | Some ssid =>
            let base_iface := wifi ≫= wifi_base_iface in
            if wifi_connect_request_has_eligible_phy self base_iface
            then Some (connect_request ssid base_iface) else None
        | None => None
        end
    | _ => None
    end.

Definition wifi_connect_requests (self : MergedNetworkState) : list WifiConnectRequest :=
  omap (connect_request_of self) (interfaces_iter (ns_ifaces (mn_desired self))).

Definition should_wait_wifi_connect (opt : NipartApplyOption) : bool :=
  negb (no_verify opt) && negb (no_wifi_connect_wait opt).

(** ** Groups *)

(** The group a request for [phy_name] (or else for [base_iface]) belongs to. *)
Definition is_group_of (phy_name base_iface : option string) (group : WifiConnectGroup) : bool :=
  match phy_name with
  | Some phy_name => bool_decide (cg_phy_name group = Some phy_name)
  | None => bool_decide (cg_phy_name group = None) && bool_decide (cg_base_iface group = base_iface)
  end.

Definition add_ssid (ssid : string) (group : WifiConnectGroup) : WifiConnectGroup :=
  connect_group (cg_phy_name group) (cg_base_iface group) (push_unique (cg_ssids group) ssid).

(** The closure [push]. *)
Fixpoint push_group (phy_name base_iface : option string) (ssid : string)
    (groups : list WifiConnectGroup) : list WifiConnectGroup :=
  match groups with
  | [] => [connect_group phy_name base_iface [ssid]]
  | group :: groups' =>
      if is_group_of phy_name base_iface group then add_ssid ssid group :: groups'
      else group :: push_group phy_name base_iface ssid groups'
  end.

(** What a request pushes. *)
Definition targets_of (phy_names : list string) (request : WifiConnectRequest) :
    list (option string * option string) :=
  match cr_base_iface request with
  | None => map (λ phy_name, (Some phy_name, None)) phy_names
  | Some base =>
      if bool_decide (base ∈ phy_names) then [(Some base, Some base)] else [(None, Some base)]
  end.

(** [wifi_connect_groups]. *)
Definition push_request (phy_names : list string) (groups : list WifiConnectGroup)
    (request : WifiConnectRequest) : list WifiConnectGroup :=
  foldl (λ groups t, push_group t.1 t.2 (cr_ssid request) groups) groups (targets_of phy_names request).

Definition wifi_connect_groups (requests : list WifiConnectRequest) (phy_names : list string) :
    list WifiConnectGroup :=
  foldl (push_request phy_names) [] requests.

(** ** The live state *)

(** The WIFI NIC is the one the group is about. *)
Definition group_targets (group : WifiConnectGroup) (phy : Interface) : bool :=
  match cg_phy_name group, cg_base_iface group with
  | Some phy_name, _ => String.eqb (kernel_iface_name phy) phy_name
  | None, Some base =>
      String.eqb base (kernel_iface_name phy) || String.eqb base (iface_name phy) ||
      bool_decide (bi_profile_name (base_iface phy) = Some base)
  | None, None => true
  end.

(** [wifi_group_is_connected]. *)
Definition wifi_group_is_connected (state : NetworkState) (group : WifiConnectGroup) : bool :=
  existsb (λ iface,
    match iface with
    | IfWifiPhy _ wifi =>
        existsb (λ ssid, bool_decide (wifi_phy_ssid wifi = Some ssid)) (cg_ssids group) &&
        group_targets group iface
    | _ => false
    end) (interfaces_iter (ns_ifaces state)).

(** [connected_wifi_phys]. *)
Definition connected_wifi_phys (state : NetworkState) : list (string * string) :=
  omap (λ iface, pair (kernel_iface_name iface) <$> iface_wifi_phy_ssid iface)
    (interfaces_iter (ns_ifaces state)).

(** [wifi_group_connected_elsewhere]. *)
Definition connected_elsewhere (group : WifiConnectGroup) (iface : Interface) : option (string * string) :=
  match iface_wifi_phy_ssid iface with
  | Some connected =>
      if bool_decide (connected ∈ cg_ssids group) then None
      else if group_targets group iface then Some (kernel_iface_name iface, connected) else None
  | None => None
  end.

Fixpoint find_map {A B} (f : A → option B) (l : list A) : option B :=
  match l with
  | [] => None
  | x :: l' => match f x with Some y => Some y | None => find_map f l' end
  end.

Definition wifi_group_connected_elsewhere (state : NetworkState) (group : WifiConnectGroup) :
    option (string * string) :=
  find_map (connected_elsewhere group) (interfaces_iter (ns_ifaces state)).

(** [wifi_phy_names]. *)
Definition wifi_phy_names (state : NetworkState) : list string :=
  foldl (λ ret iface,
    if bool_decide (iface_type iface = TWifiPhy) && negb (String.eqb (kernel_iface_name iface) "")
    then push_unique ret (kernel_iface_name iface) else ret) [] (interfaces_iter (ns_ifaces state)).

(** [is_fatal_wifi_connect_error] of [src/daemon/dhcp/mod.rs]. *)
Definition is_fatal_wifi_connect_error (k : ErrorKind) : bool :=
  match k with NoSupport | AuthenticationError => true | _ => false end.

(** ** The wait *)

Section Wait.
(** The running state of the kernel, the state the plugins report, the error a plugin has for
    a NIC and an SSID, whether the client is gone, the time in milliseconds, a sleep, and what
    is done with the state in which everything is connected. *)
Context {K : Type} (query_kernel : Eff K NetworkState) (live_state : NetworkState → Eff K NetworkState)
  (connect_error : string → string → Eff K ()) (is_closed : K → bool) (now : K → Z)
  (sleep : Z → Eff K ()) (on_connected : NetworkState → Eff K ()).

(** An error the plugin diagnosed ends the wait; any other is ignored. *)
Definition poll_error (phy_name ssid : string) : Eff K () :=
  r ← eff_try (connect_error phy_name ssid);
  match r with
  | Ok _ => mret ()
  | Err e => if is_fatal_wifi_connect_error (kind e) then eff_res (Err e) else mret ()
  end.

Definition poll_group (phy_names : list string) (group : WifiConnectGroup) : Eff K () :=
  let candidates := match cg_phy_name group with Some phy_name => [phy_name] | None => phy_names end in
  eff_each (λ phy_name, eff_each (poll_error phy_name) (cg_ssids group)) candidates.

(** The first pending group on another network, since when and on which. *)
Definition Settled : Type := option (Z * string * string).

Definition settle (settled : Settled) (other : option (string * string)) (time : Z) : res Settled :=
  match other with
  | None => Ok None
  | Some (phy_name, connected_ssid) =>
      let first_seen :=
        match settled with
        | Some (since, phy, ssid) =>
            if String.eqb phy phy_name && String.eqb ssid connected_ssid then since else time
        | None => time
        end in
      if 1000 * WIFI_CONNECT_SETTLED_OTHER_GRACE_SECS <=? time - first_seen
      then fail VerificationError
      else Ok (Some (first_seen, phy_name, connected_ssid))
  end.

Definition eff_get {A} (f : K → A) : Eff K A := eff_read (λ k, Ok (f k)).

(** One round of the loop: [None] when everything is connected. *)
Definition wait_round (groups : list WifiConnectGroup) (phy_names : list string) (deadline : Z)
    (settled : Settled) : Eff K (option Settled) :=
  closed ← eff_get is_closed;
  if closed : bool then eff_fail IpcClosed
  else
    kernel_state ← query_kernel;
    live ← live_state kernel_state;
    match List.filter (λ group, negb (wifi_group_is_connected live group)) groups with
    | [] => _ ← on_connected live; mret None
    | pending =>
        time ← eff_get now;
        settled ← eff_res (settle settled (find_map (wifi_group_connected_elsewhere live) pending) time);
        _ ← eff_each (poll_group phy_names) pending;
        time ← eff_get now;
        if deadline <=? time then eff_fail ETimeout
        else
          _ ← sleep APPLY_RETRY_INTERVAL_MS;
          mret (Some settled)
    end.

(** The loop, as long as there is fuel; [false] when it runs out. *)
Fixpoint wait_loop (fuel : nat) (groups : list WifiConnectGroup) (phy_names : list string)
    (deadline : Z) (settled : Settled) : Eff K bool :=
  match fuel with
  | O => mret false
  | S fuel =>
      next ← wait_round groups phy_names deadline settled;
      match next with
      | None => mret true
      | Some settled => wait_loop fuel groups phy_names deadline settled
      end
  end.

(** The number of rounds that fit into the wait. *)
Definition WAIT_ROUNDS : nat := 121.

End Wait.

(** The NICs the wait is about: those the kernel has, without the ignored ones. *)
Definition waited_phys (self : MergedNetworkState) (kernel_state : NetworkState) : list string :=
  let ignored_phys := map mi_kernel_iface_name (List.filter is_ignored_phy (kernel_merged self)) in
  List.filter (λ name, negb (bool_decide (name ∈ ignored_phys))) (wifi_phy_names kernel_state).

(** [wait_wifi_connect_requests], with what [forget_changed_wifi_phys] does for the NICs that
    were connected before and the state in which all are. *)
Definition wait_wifi_connect_requests {K} (query_kernel : Eff K NetworkState)
    (live_state : NetworkState → Eff K NetworkState) (connect_error : string → string → Eff K ())
    (is_closed : K → bool) (now : K → Z) (sleep : Z → Eff K ())
    (forget_changed : list (string * string) → NetworkState → Eff K ())
    (requests : list WifiConnectRequest) (self : MergedNetworkState) : Eff K bool :=
  match requests with
  | [] => mret true
  | _ =>
      kernel_state ← query_kernel;
      let phy_names := waited_phys self kernel_state in
      match phy_names with
      | [] => mret true
      | _ =>
          let groups := wifi_connect_groups requests phy_names in
          initial_state ← live_state kernel_state;
          time ← eff_get now;
          wait_loop query_kernel live_state connect_error is_closed now sleep
            (forget_changed (connected_wifi_phys initial_state)) WAIT_ROUNDS groups phy_names
            (time + 1000 * WIFI_CONNECT_WAIT_TIMEOUT_SECS) None
      end
  end.

(** ** Groups and requests *)

(** What identifies a group: its NIC, or the name it has to be looked up by. *)
Definition group_id (phy_name base_iface : option string) : string + option string :=
  match phy_name with Some phy_name => inl phy_name | None => inr base_iface end.

Definition id_of (g : WifiConnectGroup) : string + option string :=
  group_id (cg_phy_name g) (cg_base_iface g).

(** The group [id] waits for [ssid]. *)
Definition waits_for (groups : list WifiConnectGroup) (id : string + option string) (ssid : string) : Prop :=
  ∃ g, g ∈ groups ∧ id_of g = id ∧ ssid ∈ cg_ssids g.

Lemma is_group_of_id p b g : is_group_of p b g = true ↔ id_of g = group_id p b.
Proof.
  unfold is_group_of, id_of, group_id. destruct p as [p|]; [|rewrite andb_true_iff, bool_decide_eq_true];
    rewrite bool_decide_eq_true; destruct (cg_phy_name g); naive_solver.
Qed.

Lemma waits_for_cons g groups id ssid :
  waits_for (g :: groups) id ssid ↔ (id_of g = id ∧ ssid ∈ cg_ssids g) ∨ waits_for groups id ssid.
Proof. unfold waits_for. set_solver. Qed.

Lemma elem_of_push_unique (l : list string) x y : x ∈ push_unique l y ↔ x ∈ l ∨ x = y.
Proof. unfold push_unique. case_bool_decide; set_solver. Qed.

Lemma push_group_waits p b ssid groups id s :
  waits_for (push_group p b ssid groups) id s ↔
    waits_for groups id s ∨ (id = group_id p b ∧ s = ssid).
Proof.
  induction groups as [|g groups IH]; cbn [push_group].
  { rewrite waits_for_cons. unfold waits_for. simpl. set_solver. }
  destruct (is_group_of p b g) eqn:E; rewrite !waits_for_cons; [|rewrite IH; tauto].
  apply is_group_of_id in E. unfold id_of in *. simpl.
  rewrite elem_of_push_unique. naive_solver.
Qed.

Lemma push_group_ids p b ssid groups :
  NoDup (id_of <$> groups) → NoDup (id_of <$> push_group p b ssid groups) ∧
  ∀ id, id ∈ id_of <$> push_group p b ssid groups → id ∈ id_of <$> groups ∨ id = group_id p b.
Proof.
  induction groups as [|g groups IH]; cbn [push_group fmap list_fmap]; intros Hnd.
  { split; [apply NoDup_singleton|]. set_solver. }
  apply NoDup_cons in Hnd as [Hg Hnd]. destruct (is_group_of p b g) eqn:E.
  { split; [by apply NoDup_cons|]. intros id. unfold id_of at 1. simpl. set_solver. }
  destruct (IH Hnd) as [IH1 IH2]. split; [|cbn [fmap list_fmap]; set_solver].
  cbn [fmap list_fmap]. apply NoDup_cons. split; [|done]. intros [Hin|Hin]%IH2; [done|].
  apply is_group_of_id in Hin. congruence.
Qed.

(** The groups an apply waits for are those of its requests: every SSID is waited for on
    every NIC it is handed to, nothing else is, and no NIC has two groups. *)
Theorem groups_follow_requests requests phy_names :
  let groups := wifi_connect_groups requests phy_names in
  NoDup (id_of <$> groups) ∧
  ∀ id ssid, waits_for groups id ssid ↔
    ∃ r p b, r ∈ requests ∧ (p, b) ∈ targets_of phy_names r ∧ id = group_id p b ∧ ssid = cr_ssid r.
Proof.
  unfold wifi_connect_groups. cbv zeta.
  assert (∀ requests groups, NoDup (id_of <$> groups) →
    let groups' := foldl (push_request phy_names) groups requests in
    NoDup (id_of <$> groups') ∧
    ∀ id ssid, waits_for groups' id ssid ↔ waits_for groups id ssid ∨
      ∃ r p b, r ∈ requests ∧ (p, b) ∈ targets_of phy_names r ∧ id = group_id p b ∧ ssid = cr_ssid r)
    as H.
  { clear requests. induction requests as [|r requests IH]; intros groups Hnd; simpl.
    { split; [done|]. set_solver. }
    assert (∀ ts groups, NoDup (id_of <$> groups) →
      let groups' := foldl (λ groups t, push_group t.1 t.2 (cr_ssid r) groups) groups ts in
      NoDup (id_of <$> groups') ∧
      ∀ id ssid, waits_for groups' id ssid ↔ waits_for groups id ssid ∨
        ∃ p b, (p, b) ∈ ts ∧ id = group_id p b ∧ ssid = cr_ssid r) as Hts.
    { clear. induction ts as [|[p b] ts IH]; intros groups Hnd; simpl; [split; [done|]; set_solver|].
      destruct (IH _ (proj1 (push_group_ids p b (cr_ssid r) groups Hnd))) as [H1 H2].
      split; [done|]. intros id ssid. rewrite H2, push_group_waits. split.
      - intros [[?|[-> ->]]|(p' & b' & ? & ? & ?)]; [by left|..]; right;
          [exists p, b|exists p', b']; split_and!; try done; [by left|by right].
      - intros [?|(p' & b' & [[= -> ->]|?]%elem_of_cons & ? & ?)]; [by left; left|..];
          [left; by right|right; by exists p', b']. }
    destruct (Hts (targets_of phy_names r) groups Hnd) as [Hnd' Hw].
    destruct (IH _ Hnd') as [H1 H2]. split; [done|]. intros id ssid.
    rewrite H2. unfold push_request. rewrite Hw. split.
    - intros [[?|(p & b & ? & ? & ?)]|(r0 & p & b & ? & ? & ? & ?)]; [by left|..]; right;
        [exists r, p, b|exists r0, p, b]; split_and!; try done; [by left|by right].
    - intros [?|(r0 & p & b & [->|?]%elem_of_cons & ? & ? & ?)]; [by left; left|..];
        [left; right; by exists p, b|right; by exists r0, p, b]. }
  destruct (H requests [] (NoDup_nil_2)) as [H1 H2]. split; [done|]. intros id ssid. rewrite H2.
  unfold waits_for. set_solver.
Qed.

(** ** The wait ends *)

Section Ends.
Context {K : Type} (query_kernel : Eff K NetworkState) (live_state : NetworkState → Eff K NetworkState)
  (connect_error : string → string → Eff K ()) (is_closed : K → bool) (now : K → Z)
  (sleep : Z → Eff K ()) (forget_changed : list (string * string) → NetworkState → Eff K ()).

(** Time does not go back, and a sleep lasts. *)
Definition later (k k' : K) : Prop := now k ≤ now k'.
Context (query_later : keeps later query_kernel) (live_later : ∀ s, keeps later (live_state s))
  (error_later : ∀ phy ssid, keeps later (connect_error phy ssid))
  (sleep_later : ∀ ms k r k', sleep ms k = (r, k') → now k + ms ≤ now k').

#[local] Instance later_refl : Reflexive later.
Proof. intros k. unfold later. lia. Qed.

#[local] Instance later_trans : Transitive later.
Proof. intros k k' k''. unfold later. lia. Qed.

Lemma poll_group_later phy_names group : keeps later (poll_group connect_error phy_names group).
Proof.
  unfold poll_group. apply keeps_each; [apply _..|]. intros phy. apply keeps_each; [apply _..|].
  intros ssid. unfold poll_error. apply eff_keeps_bind; [apply _| |].
  - apply keeps_try, error_later.
  - intros [[]|e]; [apply eff_keeps_ret, _|]. destruct (is_fatal_wifi_connect_error _);
      [apply keeps_res, _|apply eff_keeps_ret, _].
Qed.

Lemma eff_get_run {A} (f : K → A) k : eff_get f k = (Ok (f k), k).
Proof. done. Qed.

#[local] Abbreviation round on_connected :=
  (wait_round query_kernel live_state connect_error is_closed now sleep on_connected).

(** A round that asks for another one ends before the deadline, and half a second passes. *)
Lemma wait_round_again on_connected groups phy_names deadline settled k s' k' :
  round on_connected groups phy_names deadline settled k = (Ok (Some s'), k') →
  now k < deadline ∧ now k + APPLY_RETRY_INTERVAL_MS ≤ now k'.
Proof.
  unfold wait_round. rewrite eff_bind_run, eff_get_run. destruct (is_closed k); [done|].
  intros (ks & k1 & H1 & (live & k2 & H2 & H)%eff_bind_ok)%eff_bind_ok.
  pose proof (query_later _ _ _ H1) as L1. pose proof (live_later _ _ _ _ H2) as L2.
  destruct (List.filter _ groups) as [|g pending].
  { apply eff_bind_ok in H as (? & k3 & _ & H). by injection H. }
  rewrite eff_bind_run, eff_get_run in H.
  apply eff_bind_ok in H as (settled' & k3 & H3 & H). injection H3 as _ <-.
  apply eff_bind_ok in H as ([] & k4 & H4 & H).
  assert (later k2 k4) as L4.
  { eapply keeps_each, H4; [apply _..|]. apply poll_group_later. }
  rewrite eff_bind_run, eff_get_run in H.
  destruct (deadline <=? now k4) eqn:Ed; [done|]. apply Z.leb_gt in Ed.
  apply eff_bind_ok in H as ([] & k5 & H5 & H). injection H as _ <-.
  apply sleep_later in H5. unfold later in *. lia.
Qed.

Lemma wait_loop_ends on_connected groups phy_names deadline fuel : ∀ settled k k',
  deadline - now k ≤ APPLY_RETRY_INTERVAL_MS * (Z.of_nat fuel - 1) → (0 < fuel)%nat →
  wait_loop query_kernel live_state connect_error is_closed now sleep on_connected fuel groups
    phy_names deadline settled k ≠ (Ok false, k').
Proof.
  induction fuel as [|fuel IH]; intros settled k k' Hd Hf; [lia|]. cbn [wait_loop].
  intros (next & k1 & H1 & H)%eff_bind_ok. destruct next as [settled'|]; [|by injection H].
  apply wait_round_again in H1 as [Hlt Hle]. unfold APPLY_RETRY_INTERVAL_MS in *.
  revert H. apply IH; lia.
Qed.

(** A round that ends the wait has seen everything connected. *)
Lemma wait_round_done on_connected groups phy_names deadline settled k k' :
  round on_connected groups phy_names deadline settled k = (Ok None, k') →
  ∃ ks k1 k2 live, live_state ks k1 = (Ok live, k2) ∧
    ∀ g, g ∈ groups → wifi_group_is_connected live g = true.
Proof.
  unfold wait_round. rewrite eff_bind_run, eff_get_run. destruct (is_closed k); [done|].
  intros (ks & k1 & H1 & (live & k2 & H2 & H)%eff_bind_ok)%eff_bind_ok. exists ks, k1, k2, live.
  split; [done|]. destruct (List.filter _ groups) as [|g0 pending] eqn:E.
  - intros g Hg. destruct (wifi_group_is_connected live g) eqn:Eg; [done|].
    assert (g ∈ List.filter (λ group, negb (wifi_group_is_connected live group)) groups) as Hin
      by (apply elem_of_lfilter; by rewrite Eg). rewrite E in Hin. by apply not_elem_of_nil in Hin.
  - rewrite eff_bind_run, eff_get_run in H. apply eff_bind_ok in H as (? & k3 & _ & H).
    apply eff_bind_ok in H as (? & k4 & _ & H). rewrite eff_bind_run, eff_get_run in H.
    destruct (_ <=? _); [done|]. apply eff_bind_ok in H as (? & k5 & _ & H). by injection H.
Qed.

Lemma wait_loop_done on_connected groups phy_names deadline fuel : ∀ settled k k',
  wait_loop query_kernel live_state connect_error is_closed now sleep on_connected fuel groups
    phy_names deadline settled k = (Ok true, k') →
  ∃ ks k1 k2 live, live_state ks k1 = (Ok live, k2) ∧
    ∀ g, g ∈ groups → wifi_group_is_connected live g = true.
Proof.
  induction fuel as [|fuel IH]; intros settled k k'; [done|]. cbn [wait_loop].
  intros (next & k1 & H1 & H)%eff_bind_ok. destruct next as [settled'|]; [by eapply IH|].
  by eapply wait_round_done.
Qed.


End Ends.

(** ** Examples *)

(** A NIC, and what the plugin says of it. *)
Definition ex_wlan (name : string) (ssid : option string) : Interface :=
  IfWifiPhy (set_bi_kernel_iface_name name (base_new name TWifiPhy))
    ((λ s, wifi_of s None None false None) <$> ssid).

Definition ex_nics (l : list Interface) : NetworkState := foldr push_iface ns_default l.

(** A wait on a clock that only sleeps move, for [live] at each time. *)
Definition ex_wait (kernel : NetworkState) (live : Z → NetworkState) (error : res ())
    (self : MergedNetworkState) : outcome bool * Z :=
  wait_wifi_connect_requests (K:=Z) (λ k, (Ok kernel, k)) (λ _ k, (Ok (live k), k))
    (λ _ _ k, (lift error, k)) (λ _, false) id (λ ms k, (Ok (), k + ms)) (λ _ _, mret ())
    [connect_request "home" None] self 0.

Definition ex_no_change : MergedNetworkState :=
  set_mn_ifaces (merged_interfaces [] [] [] [] search_default) (ex_request LUp).


(** Connected after a second; on another network: three seconds; nothing: a minute; a wrong
    password: at once; an unbound profile and two NICs: both have to be connected. *)
Example wait_examples :
  let kernel := ex_nics [ex_wlan "wlan0" None] in
  ex_wait kernel (λ t, ex_nics [ex_wlan "wlan0" (if 1000 <=? t then Some "home" else None)]) (Ok ())
    ex_no_change = (Ok true, 1000) ∧
  ex_wait kernel (λ _, ex_nics [ex_wlan "wlan0" (Some "cafe")]) (Ok ()) ex_no_change =
    (Err (Failed (nipart_error VerificationError)), 3000) ∧
  ex_wait kernel (λ _, kernel) (Ok ()) ex_no_change =
    (Err (Failed (nipart_error ETimeout)), 60000) ∧
  ex_wait kernel (λ _, kernel) (fail AuthenticationError) ex_no_change =
    (Err (Failed (nipart_error AuthenticationError)), 0) ∧
  ex_wait (ex_nics [ex_wlan "wlan0" None; ex_wlan "wlan1" None])
    (λ _, ex_nics [ex_wlan "wlan0" (Some "home"); ex_wlan "wlan1" None]) (Ok ()) ex_no_change =
    (Err (Failed (nipart_error ETimeout)), 60000).
Proof. vm_compute. split_and!; reflexivity. Qed.
