(* ===== verification/ConfStore.v ===== *)
(** * ConfStore: the persisted configuration

    [src/daemon/conf/conf_worker.rs]: the saved state in memory and the two files it is
    kept in, the configuration and its secrets.  YAML is a parameter. *)

From S2P Require Export ResolvConf NoDaemonApply.

#[local] Open Scope Z_scope.

(** [NipartConfWorker] with [/etc/nipart/applied.yml] and [applied.secrets.yml]. *)
Record ConfStore : Type := conf_store {
  cs_saved : NetworkState;
  cs_state_file : file;
  cs_secrets_file : file;
}.

Inductive NipartConfCmd : Type :=
| SaveState (state : NetworkState)
| QueryState.

Inductive NipartConfReply : Type :=
| ConfNone
| ConfState (state : NetworkState).

(** How the calls on the files end; a failed write leaves [io_partial] behind. *)
Record ConfIo : Type := conf_io {
  io_dir : bool;
  io_create : bool;
  io_chmod : bool;
  io_write : bool;
  io_create_secrets : bool;
  io_chmod_secrets : bool;
  io_write_secrets : bool;
  io_partial : string;
}.

Definition io_good : ConfIo :=
  conf_io true true true true true true true "".

(** ** Absent interfaces *)

Definition delete_kernel (name : string) (self : Interfaces) : Interfaces :=
  interfaces (delete name (ifs_kernel self)) (ifs_user self) (insert_order self) (ifs_search self).

Definition delete_user (key : IfaceKey) (self : Interfaces) : Interfaces :=
  interfaces (ifs_kernel self) (delete key (ifs_user self)) (insert_order self) (ifs_search self).

Definition discard (self : Interfaces) (key : string * InterfaceType) : Interfaces :=
  if type_is_userspace key.2 then delete_user key self else delete_kernel key.1 self.

(** [discard_absent_iface]. *)
Definition discard_absent_iface (state : NetworkState) : NetworkState :=
  let pending_changes :=
    omap (λ i, if iface_is_absent i then Some (kernel_iface_name i, iface_type i) else None)
      (interfaces_iter (ns_ifaces state)) in
  set_ns_ifaces (foldl discard (ns_ifaces state) pending_changes) state.

(** ** Files *)

Section Store.
Context {Num : Type} `{!EqDecision Num} `{!Serde Num Interface} `{!Serde Num (list AltNameEntry)}.
(** [rmsd_yaml]. *)
Context (to_yaml : NetworkState → option string) (from_yaml : string → option NetworkState).

(** [read_state_from_file]: what cannot be read counts as empty, what cannot be parsed is
    deleted. *)
Definition merge_secrets (state : NetworkState) (f : file) : NetworkState * file :=
  match f with
  | FileContent secrets =>
      match from_yaml secrets with
      | Some s => (match ns_merge state s with Ok merged => merged | Err _ => ns_default end, f)
      | None => (state, FileNotFound)
      end
  | _ => (state, f)
  end.

Definition read_state_from_file (state_file secrets_file : file) : ConfStore :=
  match state_file with
  | FileContent content =>
      let '(state, state_file) := match from_yaml content with
                                  | Some s => (s, state_file)
                                  | None => (ns_default, FileNotFound)
                                  end in
      let '(state, secrets_file) := merge_secrets state secrets_file in
      conf_store state state_file secrets_file
  | _ => conf_store ns_default state_file secrets_file
  end.

(** A file after it was created, opened to its owner or all, and written; an I/O error is
    reported as a bug. *)
Definition write_file (create chmod write : bool) (partial content : string) (old : file) :
    res () * file :=
  if negb create then (fail Bug, old)
  else if negb chmod then (fail Bug, FileContent "")
  else if negb write then (fail Bug, FileContent partial)
  else (Ok (), FileContent content).

(** [save_state_to_file]. *)
Definition save_state_to_file (io : ConfIo) (net_state : NetworkState) (state_file secrets_file : file) :
    outcome () * (file * file) :=
  let unchanged := (state_file, secrets_file) in
  if negb (io_dir io) then (lift (fail DaemonFailure), unchanged)
  else
    match extract_secrets net_state with
    | Err e => (Err e, unchanged)
    | Ok (state, secret_state) =>
        match to_yaml state, to_yaml secret_state with
        | Some state_yaml_str, Some secret_yaml_str =>
            match write_file (io_create io) (io_chmod io) (io_write io) (io_partial io)
                    state_yaml_str state_file with
            | (Err e, f) => (lift (Err e), (f, secrets_file))
            | (Ok _, f) =>
                let '(r, s) := write_file (io_create_secrets io) (io_chmod_secrets io)
                                 (io_write_secrets io) (io_partial io) secret_yaml_str FileNotFound in
                (lift r, (f, s))
            end
        | _, _ => (lift (fail Bug), unchanged)
        end
    end.

(** [NipartConfWorker::process_cmd]. *)
Definition conf_process_cmd (io : ConfIo) (cmd : NipartConfCmd) (self : ConfStore) :
    outcome NipartConfReply * ConfStore :=
  match cmd with
  | SaveState state =>
      let state := discard_absent_iface state in
      let '(r, (f, s)) := save_state_to_file io state (cs_state_file self) (cs_secrets_file self) in
      match r with
      | Ok _ => (Ok ConfNone, conf_store state f s)
      | Err e => (Err e, conf_store (cs_saved self) f s)
      end
  | QueryState => (Ok (ConfState (cs_saved self)), self)
  end.

(** [NipartConfManager::save_state] and [query_state]. *)
Definition save_state (io : ConfIo) (state : NetworkState) (self : ConfStore) : outcome () * ConfStore :=
  let '(r, self) := conf_process_cmd io (SaveState state) self in
  (match r with Ok _ => Ok () | Err e => Err e end, self).

Definition query_state (self : ConfStore) : outcome NetworkState :=
  match (conf_process_cmd io_good QueryState self).1 with
  | Ok (ConfState s) => Ok s
  | Ok ConfNone => lift (fail Bug)
  | Err e => Err e
  end.

(** ** What is saved *)

Lemma query_state_ok self : query_state self = Ok (cs_saved self).
Proof. done. Qed.

(** The state in memory is the one of the last save that succeeded. *)
Lemma save_state_memory io state self r self' :
  save_state io state self = (r, self') →
  (r = Ok () ∧ cs_saved self' = discard_absent_iface state) ∨
  ((∃ e, r = Err e) ∧ cs_saved self' = cs_saved self).
Proof.
  unfold save_state, conf_process_cmd. destruct (save_state_to_file _ _ _ _) as [r1 [f s]].
  destruct r1 as [[]|e]; intros [= <- <-]; [by left|right; eauto].
Qed.

End Store.

(** ** Examples *)

(** A profile identified by a MAC address has no name of a kernel interface, under which
    [discard_absent_iface] looks for it: it stays in the saved state as absent. *)
Definition ex_mac_profile (s : InterfaceState) : Interface :=
  IfEthernet (set_bi_state s (set_bi_mac_address (Some "02:00:00:00:00:01")
    (set_bi_identifier (Some IdMacAddress) (base_new "wan" TEthernet)))) None.

Example absent_mac_profile_stays_saved :
  map iface_name (interfaces_iter (ns_ifaces (discard_absent_iface
    (push_iface (ex_mac_profile SAbsent) ns_default)))) = ["wan"] ∧
  interfaces_iter (ns_ifaces (discard_absent_iface
    (push_iface (set_state SAbsent (ex_nic "eth1")) ns_default))) = [].
Proof. split; vm_compute; reflexivity. Qed.

(** The files are written in place: a save that fails half way leaves nothing for the next
    start of the daemon, although the state in memory is kept. *)
Example failed_save_loses_the_saved_state :
  let to_yaml (s : NetworkState) := Some (String.concat "," (map iface_name (interfaces_iter (ns_ifaces s)))) in
  let from_yaml (s : string) := if String.eqb s "eth1" then Some (push_iface (ex_nic "eth1") ns_default) else None in
  let store := read_state_from_file from_yaml (FileContent "eth1") FileNotFound in
  let full := conf_io true true true false true true true "" in
  let '(r, store') := save_state to_yaml full (push_iface (ex_nic "eth2") ns_default) store in
  map iface_name (interfaces_iter (ns_ifaces (cs_saved store))) = ["eth1"] ∧
  is_ok r = false ∧ cs_saved store' = cs_saved store ∧
  cs_saved (read_state_from_file from_yaml (cs_state_file store') (cs_secrets_file store')) = ns_default.
Proof. vm_compute. split_and!; reflexivity. Qed.
