(* ===== verification/DaemonQuery.v ===== *)
(** * DaemonQuery: what the daemon shows

    The views of [src/daemon/query.rs]: the interfaces of the kernel with what the saved
    configuration knows of them, the saved profiles, and both together. *)

From S2P Require Export NoDaemonApply EventWorker.

#[local] Open Scope Z_scope.

(** ** Saved profiles in the running state *)

(** [saved_iface_has_kernel_match] and the search of [merge_saved_into_running]. *)
Definition saved_iface_has_kernel_match (saved_iface : Interface) (cur_state : NetworkState) : bool :=
  if is_name_matching saved_iface then
    bool_decide (is_Some (ifs_kernel (ns_ifaces cur_state) !! kernel_iface_name saved_iface))
  else
    existsb (λ e, iface_is_match saved_iface e.2) (map_to_list (ifs_kernel (ns_ifaces cur_state))).

Section Merge.
(** The order of hash maps. *)
Context (it : Iteration).

Definition matched_key (saved_iface : Interface) (kernel : gmap string Interface) : option string :=
  if is_name_matching saved_iface then
    if bool_decide (is_Some (kernel !! kernel_iface_name saved_iface))
    then Some (kernel_iface_name saved_iface) else None
  else fst <$> List.find (λ e, iface_is_match saved_iface e.2) (it_kernel it kernel).

(** What a matching saved profile adds: only what is not known yet. *)
Definition annotate (saved_iface cur_iface : Interface) : Interface :=
  let saved := base_iface saved_iface in
  upd_base (λ b,
    let b := set_bi_auto_connect (option_or (bi_auto_connect b) (bi_auto_connect saved)) b in
    let b := set_bi_profile_name (option_or (bi_profile_name b) (bi_profile_name saved)) b in
    set_bi_description (option_or (bi_description b) (bi_description saved)) b) cur_iface.

(** The loop over the saved kernel interfaces: the interfaces of the kernel, the names of
    the managed ones, and the profiles without a kernel interface. *)
Definition Merging : Type := (gmap string Interface * gset string * list Interface)%type.

Definition merge_saved_iface (acc : Merging) (saved_iface : Interface) : Merging :=
  let '(kernel, managed, saved_only) := acc in
  match matched_key saved_iface kernel ≫= λ k, pair k <$> kernel !! k with
  | None =>
      let state := if iface_is_ignore saved_iface then SIgnore else SSaved in
      (kernel, managed, saved_only ++ [set_state state saved_iface])
  | Some (k, cur_iface) =>
      if iface_is_ignore saved_iface
      then (<[k := set_state SIgnore cur_iface]> kernel, managed, saved_only)
      else (<[k := annotate saved_iface cur_iface]> kernel,
            {[kernel_iface_name cur_iface]} ∪ managed, saved_only)
  end.

Definition push_wifi_cfg (ifs : Interfaces) (iface : Interface) : Interfaces :=
  if bool_decide (iface_type iface = TWifiCfg) then interfaces_push ifs iface else ifs.

Definition set_ifs_kernel (v : gmap string Interface) (self : Interfaces) : Interfaces :=
  interfaces v (ifs_user self) (insert_order self) (ifs_search self).

(** [merge_saved_into_running]; the saved interfaces are drained. *)
Definition merge_saved_into_running (net_state saved_state : NetworkState) :
    NetworkState * gset string * list Interface :=
  let ifs := foldl push_wifi_cfg (ns_ifaces net_state) (it_user it (ifs_user (ns_ifaces saved_state))).*2 in
  let '(kernel, managed, saved_only) :=
    foldl merge_saved_iface (ifs_kernel ifs, ∅, []) (it_kernel it (ifs_kernel (ns_ifaces saved_state))).*2 in
  (set_ns_ifaces (set_ifs_kernel kernel ifs) net_state, managed, saved_only).
End Merge.

(** ** Saved routes and rules *)

Definition set_routes_config (v : option (list RouteEntry)) (s : NetworkState) : NetworkState :=
  set_ns_routes (routes (running (ns_routes s)) v) s.

(** One saved route of [append_saved_only_routes]. *)
Definition saved_only_route (kernel_rts : option (list RouteEntry)) (saved_only_names : gset string)
    (rt : RouteEntry) : option RouteEntry :=
  let via_saved_only := match rt_next_hop_iface rt with
                        | Some name => bool_decide (name ∈ saved_only_names)
                        | None => false
                        end in
  if negb (is_saved rt) && negb via_saved_only then None
  else if match kernel_rts with Some rts => existsb (λ krt, is_match krt rt) rts | None => false end
  then None
  else Some (set_rt_state (Some RSaved) rt).

(** [append_saved_only_routes]. *)
Definition append_saved_only_routes (net_state saved_state : NetworkState)
    (saved_only_names : gset string) : NetworkState :=
  match config (ns_routes saved_state) with
  | None => net_state
  | Some saved_rts =>
      let kernel_rts := config (ns_routes net_state) in
      match omap (saved_only_route kernel_rts saved_only_names)
              (List.filter (λ rt, negb (is_absent rt)) saved_rts) with
      | [] => net_state
      | saved_only_rts => set_routes_config (Some (default [] kernel_rts ++ saved_only_rts)) net_state
      end
  end.

(** [resolve_rule_iif]. *)
Definition resolve_rule_iif (net_state : NetworkState) (rule : RouteRuleEntry) : RouteRuleEntry :=
  match rr_iif rule with
  | None => rule
  | Some iif =>
      match List.find (λ iface, String.eqb (kernel_iface_name iface) iif ||
                                String.eqb (iface_name iface) iif ||
                                bool_decide (bi_profile_name (base_iface iface) = Some iif))
              (interfaces_iter (ns_ifaces net_state)) with
      | Some iface =>
          if String.eqb (kernel_iface_name iface) iif then rule
          else set_rr_iif (Some (kernel_iface_name iface)) rule
      | None => rule
      end
  end.

Definition with_default_table (rule : RouteRuleEntry) : RouteRuleEntry :=
  if bool_decide (rr_action rule = None) && bool_decide (rr_table_id rule = None)
  then set_rr_table_id (Some ROUTE_RULE_DEFAULT_ROUTE_TABLE_ID) rule else rule.

(** [append_saved_only_route_rules]. *)
Definition append_saved_only_route_rules (net_state saved_state : NetworkState) : NetworkState :=
  match rules_config (ns_route_rules saved_state) with
  | None => net_state
  | Some saved_rules =>
      let kernel_rules := rules_config (ns_route_rules net_state) in
      match List.filter (λ rule, negb (match kernel_rules with
                                       | Some rules => existsb (rule_is_match rule) rules
                                       | None => false
                                       end))
              (map (λ rule, resolve_rule_iif net_state (with_default_table rule))
                 (List.filter (λ r, negb (rule_is_absent r)) saved_rules)) with
      | [] => net_state
      | pending => set_ns_route_rules (route_rules (Some (default [] kernel_rules ++ pending))) net_state
      end
  end.
