(* ===== verification/DhcpManager.v ===== *)
(** * DhcpManager: when the DHCP clients are started and stopped

    [src/daemon/dhcp/dhcp_manager.rs], [dhcpv6_manager.rs] and [mod.rs]: what an apply
    asks the DHCP workers for, and what the running state says of them.  Both managers are
    the same code but for a few expressions, which a [DhcpFamily] gives.  The workers, which
    talk to the DHCP servers, and the plugins are interfaces. *)

From S2P Require Export NoDaemonApply WifiConnect.

#[local] Open Scope Z_scope.

Inductive DhcpVersion : Type := DhcpV4 | DhcpV6.

(** [NipartDhcpCmd] and [NipartDhcpV6Cmd], as far as the managers send them. *)
Inductive DhcpCmd : Type :=
| StartIfaceDhcp (base : BaseInterface)
| StopIfaceDhcp (kernel_iface_name : string).

Class DhcpWorkers (K : Type) : Type := {
  out_dhcp : DhcpVersion → DhcpCmd → K → res () * K;
  out_dhcp_states : DhcpVersion → K → res (gmap string DhcpState) * K;
  out_dhcp_dns : K → res (list (string * NipartDhcpDnsInfo)) * K;
}.

(** The plugins, the clock in milliseconds, and whether the client is gone. *)
Class Plugins (K : Type) : Type := {
  out_plugin_states : NipartQueryOption → NetworkState → K → res (list NetworkState) * K;
  out_plugin_apply : NetworkState → NipartApplyOption → K → res () * K;
  out_wifi_connect_error : string → string → K → res () * K;
  out_now : K → Z;
  out_is_closed : K → bool;
}.

(** ** Change of the network *)

(** [wifi_ssid_changed]. *)
Definition wifi_ssid_changed (current desired : option Interface) : bool :=
  match current, desired with
  | Some (IfWifiPhy _ cur), Some (IfWifiPhy _ des) =>
      match wifi_phy_ssid des with
      | Some des_ssid => negb (bool_decide (wifi_phy_ssid cur = Some des_ssid))
      | None => false
      end
  | _, _ => false
  end.

(** [wifi_cfg_targets_phy]. *)
Definition wifi_cfg_targets_phy (wifi_cfg : option WifiConfig) (phy : BaseInterface) : bool :=
  match wifi_cfg ≫= wifi_base_iface with
  | None => true
  | Some base_iface =>
      String.eqb base_iface (bi_kernel_iface_name phy) || String.eqb base_iface (bi_name phy) ||
      match bi_mac_address phy with Some mac => eq_ignore_ascii_case mac base_iface | None => false end
  end.

(** [wifi_cfg_apply_ssid]. *)
Definition handed_ssid (phy : BaseInterface) (m : MergedInterface) : option string :=
  match mi_for_apply m with
  | Some (IfWifiCfg b wifi) =>
      if state_is_up (bi_state b) && wifi_cfg_targets_phy wifi phy then wifi_phy_ssid wifi else None
  | _ => None
  end.

Definition wifi_cfg_apply_ssid (ifaces : MergedInterfaces) (phy : BaseInterface) : option string :=
  match remove_dups (omap (handed_ssid phy) (user_ifaces ifaces).*2) with
  | [ssid] => Some ssid
  | _ => None
  end.

(** The SSID the request itself gives to the NIC. *)
Definition desired_phy_ssid (m : MergedInterface) : option string :=
  match mi_desired m with Some (IfWifiPhy _ wifi) => wifi_phy_ssid wifi | _ => None end.

(** [wifi_cfg_ssid_changed]. *)
Definition wifi_cfg_ssid_changed (ifaces : MergedInterfaces) (m : MergedInterface) : bool :=
  match mi_current m with
  | Some (IfWifiPhy b cur) =>
      if bool_decide (is_Some (desired_phy_ssid m)) then false
      else
        match wifi_cfg_apply_ssid ifaces b with
        | Some ssid => negb (bool_decide (wifi_phy_ssid cur = Some ssid))
        | None => false
        end
  | _ => false
  end.

(** [desired_ssid_for_phy]. *)
Definition desired_ssid_for_phy (ifaces : MergedInterfaces) (m : MergedInterface) : option string :=
  match desired_phy_ssid m with
  | Some ssid => Some ssid
  | None => match mi_current m with
            | Some (IfWifiPhy b _) => wifi_cfg_apply_ssid ifaces b
            | _ => None
            end
  end.

Definition should_touch_dhcp (restart_auto_ip ssid_changed ip_conf_changed iface_is_up : bool) : bool :=
  negb iface_is_up || restart_auto_ip || ssid_changed || ip_conf_changed.

Definition should_touch_unchanged_dhcp (restart_auto_ip has_config : bool) : bool :=
  restart_auto_ip && has_config.

(** ** The decision *)

(** Where the two managers differ: whether the difference touches the configuration of the
    client, the configuration that is taken from the merged interface if it does not mention
    one, whether the client is to run, and what is known of the SSID. *)
Record DhcpFamily : Type := dhcp_family {
  df_version : DhcpVersion;
  df_conf_changed : BaseInterface → bool;
  df_fill : BaseInterface → BaseInterface → BaseInterface;
  df_auto : BaseInterface → option bool;
  df_ssid_changed : MergedInterfaces → MergedInterface → bool;
  df_target_ssid : MergedInterfaces → MergedInterface → option string;
}.

Definition is_given {A} (x : option A) : bool := bool_decide (is_Some x).

Definition ipv4_diff_needs_dhcp_restart (diff : InterfaceIpv4) : bool :=
  is_given (v4_enabled diff) || is_given (v4_dhcp diff) || is_given (v4_dhcp_state diff) ||
  is_given (v4_addresses diff) || is_given (auto_gateway diff) || is_given (auto_route_metric diff).

(** [NipartDhcpV4Manager]. *)
Definition dhcpv4 : DhcpFamily :=
  dhcp_family DhcpV4
    (λ b, match bi_ipv4 b with Some diff => ipv4_diff_needs_dhcp_restart diff | None => false end)
    (λ merged b, if is_given (bi_ipv4 b) then b else set_bi_ipv4 (bi_ipv4 merged) b)
    (λ b, ipv4_is_auto <$> bi_ipv4 b)
    (λ ifaces m, wifi_ssid_changed (mi_current m) (mi_desired m) || wifi_cfg_ssid_changed ifaces m)
    desired_ssid_for_phy.

(** [NipartDhcpV6Manager]. *)
Definition dhcpv6 : DhcpFamily :=
  dhcp_family DhcpV6
    (λ b, is_given (bi_ipv6 b))
    (λ merged b, if is_given (bi_ipv6 b) then b else set_bi_ipv6 (bi_ipv6 merged) b)
    (λ b, (λ i, bool_decide (v6_dhcp i = Some true)) <$> bi_ipv6 b)
    (λ _ m, wifi_ssid_changed (mi_current m) (mi_desired m))
    (λ _ m, desired_phy_ssid m).

Inductive DhcpAction : Type :=
| DhcpKeep
| DhcpStop (kernel_iface_name : string)
| DhcpStart (base : BaseInterface)
| DhcpRestart (base : BaseInterface) (ssid_changed : bool).

Definition with_mac_of (merged : BaseInterface) (b : BaseInterface) : BaseInterface :=
  let b := if is_given (bi_mac_address b) then b else set_bi_mac_address (bi_mac_address merged) b in
  set_bi_iface_index (bi_iface_index merged) b.

(** The loop body of [apply_dhcp_config], up to what it asks for. *)
Definition dhcp_action (f : DhcpFamily) (restart_auto_ip : bool) (ifaces : MergedInterfaces)
    (m : MergedInterface) : DhcpAction :=
  let has_config := is_given (mi_desired m) || is_given (mi_for_save m) in
  if negb (mi_is_changed m) && negb (should_touch_unchanged_dhcp restart_auto_ip has_config)
  then DhcpKeep
  else
    let merged := base_iface (mi_merged m) in
    let base := with_mac_of merged (base_iface (default (mi_merged m) (mi_for_apply m))) in
    let conf_changed := df_conf_changed f base in
    let base := df_fill f merged base in
    let ssid_changed := df_ssid_changed f ifaces m in
    let up := state_is_up (bi_state base) in
    if negb (should_touch_dhcp restart_auto_ip ssid_changed conf_changed up) then DhcpKeep
    else if negb (mi_is_changed m) && negb (bool_decide (df_auto f base = Some true)) then DhcpKeep
    else if up then
      match df_auto f base with
      | None => DhcpKeep
      | Some true => if restart_auto_ip || ssid_changed then DhcpRestart base ssid_changed
                     else DhcpStart base
      | Some false => DhcpStop (bi_kernel_iface_name base)
      end
    else DhcpStop (bi_kernel_iface_name base).

(** ** Its execution *)

Definition WIFI_SSID_WAIT_TIMEOUT_SECS : Z := 60.

(** The rounds that fit into this wait, one per second. *)
Definition SSID_WAIT_ROUNDS : nat := 61.

(** [wifi_state_has_ssid]. *)
Definition wifi_state_has_ssid (state : NetworkState) (iface_name ssid : string) : bool :=
  bool_decide ((ifs_kernel (ns_ifaces state) !! iface_name ≫= iface_wifi_phy_ssid) = Some ssid).

Section Manager.
Context {Num : Type} `{!EqDecision Num} `{!Serde Num Interface} `{!Serde Num (list AltNameEntry)}.
Context (it : Iteration) {K : Type} `{!Kernel K} `{!Host K} `{!DhcpWorkers K} `{!Plugins K}.

Definition merge_states (state : NetworkState) (l : list NetworkState) : res NetworkState :=
  foldl (λ r s, let? state := r in ns_merge state s) (Ok state) l.

(** [wait_wifi_ssid], with the rounds that are left; [false] when there are none. *)
Fixpoint wait_ssid_loop (fuel : nat) (iface_name ssid : string) (deadline : Z) : Eff K bool :=
  match fuel with
  | O => mret false
  | S fuel =>
      _ ← poll_error (λ n s, eff_call (out_wifi_connect_error n s)) iface_name ssid;
      state ← query_network_state it query_default;
      seen ← (if wifi_state_has_ssid state iface_name ssid then mret true
              else
                states ← eff_call (out_plugin_states query_default state);
                state ← eff_res (merge_states state states);
                mret (wifi_state_has_ssid state iface_name ssid));
      if seen : bool then mret true
      else
        time ← eff_get out_now;
        if deadline <=? time then eff_fail ETimeout
        else
          _ ← sleep 1000;
          wait_ssid_loop fuel iface_name ssid deadline
  end.

Definition wait_wifi_ssid (iface_name ssid : string) : Eff K bool :=
  time ← eff_get out_now;
  wait_ssid_loop SSID_WAIT_ROUNDS iface_name ssid (time + 1000 * WIFI_SSID_WAIT_TIMEOUT_SECS).

(** [NipartNoDaemon::purge_iface_ip]. *)
Definition purge_iface_ip (base : BaseInterface) (current : option BaseInterface) : Eff K () :=
  ask (IpChanges (set_bi_ipv6 (Some ipv6_new_disabled) (set_bi_ipv4 (Some ipv4_new_disabled)
                    (base_clone_name_type_only base))) current).

Definition dhcp_exec (f : DhcpFamily) (cmd : DhcpCmd) : Eff K () :=
  eff_call (out_dhcp (df_version f) cmd).

Definition run_dhcp_action (f : DhcpFamily) (ifaces : MergedInterfaces) (m : MergedInterface)
    (action : DhcpAction) : Eff K () :=
  match action with
  | DhcpKeep => mret ()
  | DhcpStop name => dhcp_exec f (StopIfaceDhcp name)
  | DhcpStart base => dhcp_exec f (StartIfaceDhcp base)
  | DhcpRestart base ssid_changed =>
      _ ← dhcp_exec f (StopIfaceDhcp (bi_kernel_iface_name base));
      _ ← (if ssid_changed then
             _ ← purge_iface_ip (base_iface (mi_merged m)) (base_iface <$> mi_current m);
             match df_target_ssid f ifaces m with
             | Some ssid => _ ← wait_wifi_ssid (bi_kernel_iface_name base) ssid; mret ()
             | None => mret ()
             end
           else mret ());
      dhcp_exec f (StartIfaceDhcp base)
  end.

(** [apply_dhcp_config]. *)
Definition apply_dhcp_config (f : DhcpFamily) (self : MergedNetworkState) : Eff K () :=
  eff_each (λ m, run_dhcp_action f (mn_ifaces self) m
                   (dhcp_action f (restart_auto_ip (mn_option self)) (mn_ifaces self) m))
    (List.filter (λ m, negb (mi_is_userspace m) && negb (iface_is_ignore (mi_merged m)))
       (merged_iter (mn_ifaces self))).

(** [apply_dhcp_config] of the two managers. *)
Definition apply_dhcpv4_config : MergedNetworkState → Eff K () := apply_dhcp_config dhcpv4.
Definition apply_dhcpv6_config : MergedNetworkState → Eff K () := apply_dhcp_config dhcpv6.

(** [fill_dhcp_states]. *)
Definition fill_dhcp_state (v : DhcpVersion) (state : DhcpState) (iface : Interface) : Interface :=
  upd_base (λ b,
    match v with
    | DhcpV4 =>
        let i := default ipv4_none (bi_ipv4 b) in
        set_bi_ipv4 (Some (iface_ipv4 (Some true) (Some true) (Some state) (v4_addresses i)
          (auto_gateway i) (auto_dns i) (auto_dns_priority i) (auto_route_metric i))) b
    | DhcpV6 =>
        let i := default ipv6_none (bi_ipv6 b) in
        set_bi_ipv6 (Some (iface_ipv6 (Some true) (Some true) (Some state) (v6_autoconf i)
          (v6_addresses i))) b
    end) iface.

Definition fill_dhcp_states (v : DhcpVersion) (net_state : NetworkState) : Eff K NetworkState :=
  states ← eff_call (out_dhcp_states v);
  let ifs := ns_ifaces net_state in
  let kernel := map_imap (λ name iface,
    Some (match states !! name with Some state => fill_dhcp_state v state iface | None => iface end))
    (ifs_kernel ifs) in
  mret (set_ns_ifaces (interfaces kernel (ifs_user ifs) (insert_order ifs) (ifs_search ifs)) net_state).

End Manager.

(** ** Examples *)

(** [wlan0], connected to "home", with DHCPv4 and DHCPv6, and a profile for "cafe" that is
    activated. *)
Definition ex_auto_ips (b : BaseInterface) : BaseInterface :=
  set_bi_ipv6 (Some (iface_ipv6 (Some true) (Some true) None None None))
    (set_bi_ipv4 (Some (iface_ipv4 (Some true) (Some true) None None None None None None)) b).

Definition ex_switching : MergedInterfaces * MergedInterface :=
  let phy := upd_base ex_auto_ips (ex_wlan "wlan0" (Some "home")) in
  let marker := IfWifiPhy (set_bi_kernel_iface_name "wlan0" (base_new "wlan0" TWifiPhy)) None in
  let m := merged_interface (Some marker) (Some phy) phy (Some marker) None None None None false in
  let cfg := IfWifiCfg (base_new "cafe" TWifiCfg) (Some (wifi_of "cafe" None None false None)) in
  let u := merged_interface (Some cfg) None cfg (Some cfg) None None None None false in
  (merged_interfaces [("wlan0", m)] [(("cafe", TWifiCfg), u)] [] [] search_default, m).

(** The switch of the network restarts the DHCPv4 client, which purges all addresses of the
    NIC and waits for the new network; the DHCPv6 client keeps the lease of the old one. *)
Example dhcpv6_misses_the_switch :
  let '(ifaces, m) := ex_switching in
  (∃ base, dhcp_action dhcpv4 false ifaces m = DhcpRestart base true) ∧
  desired_ssid_for_phy ifaces m = Some "cafe" ∧
  dhcp_action dhcpv6 false ifaces m = DhcpKeep.
Proof. split_and!; [eexists|..]; vm_compute; reflexivity. Qed.
