(* ===== verification/Daemon.v ===== *)
(** * Daemon: the state of the daemon and its queries

    [NipartCommander] has a handle to each worker of the daemon.  A command is executed by
    its worker before the call returns, so the state of the whole is the state of the
    workers - the saved configuration, the DNS cache, the monitor - with the latch of
    [wait_online.rs] and what is outside: the kernel and its files, the plugins, the DHCP
    workers and the clock.  The queries are those of [src/daemon/query.rs]. *)

From S2P Require Export Decimal DhcpManager DaemonQuery ConfStore EventApply.

#[local] Open Scope Z_scope.

Record Daemon (K : Type) : Type := daemon_of {
  dm_out : K;
  dm_conf : ConfStore;
  dm_dns : NipartDnsWorker;
  dm_monitor : Monitor;
  dm_online : bool;
}.
Arguments daemon_of {K}. Arguments dm_out {K}. Arguments dm_conf {K}. Arguments dm_dns {K}.
Arguments dm_monitor {K}. Arguments dm_online {K}.

(** What else the outside decides: how the files of the configuration can be written, whether
    the DNS cache starts and can be notified, what the monitor's calls see, and what the
    monitor's own loop does while an apply runs. *)
Class Outside (K : Type) : Type := {
  out_conf_io : K → ConfIo;
  out_mudz_start : K → MudzConfig → res ();
  out_mudz_notify : K → res ();
  out_world : K → World;
  out_meanwhile : K → Monitor → Monitor;
}.

(** ** Parts of the daemon *)

Section Parts.
Context {K : Type}.

Definition on_out {A} (x : Eff K A) : Eff (Daemon K) A := λ d,
  let '(r, k) := x (dm_out d) in
  (r, daemon_of k (dm_conf d) (dm_dns d) (dm_monitor d) (dm_online d)).

Definition on_monitor {A} (x : K → Mon A) : Eff (Daemon K) A := λ d,
  let '(r, m) := x (dm_out d) (dm_monitor d) in
  (lift r, daemon_of (dm_out d) (dm_conf d) (dm_dns d) m (dm_online d)).

Definition on_dns {A} (x : K → NipartDnsWorker → res A * NipartDnsWorker) : Eff (Daemon K) A := λ d,
  let '(r, w) := x (dm_out d) (dm_dns d) in
  (lift r, daemon_of (dm_out d) (dm_conf d) w (dm_monitor d) (dm_online d)).

(** [/etc/resolv.conf] and the cache together. *)
Definition on_dns_host `{!Host K} {A} (x : K → DnsHost → res A * DnsHost) : Eff (Daemon K) A := λ d,
  let '(r, h) := x (dm_out d) (dns_host (out_file (dm_out d)) (dm_dns d)) in
  (lift r, daemon_of (out_set_file (dh_file h) (dm_out d)) (dm_conf d) (dh_cache h) (dm_monitor d)
             (dm_online d)).

(** [NipartConfManager::query_state], as [query_state_ok] says. *)
Definition query_conf : Eff (Daemon K) NetworkState := λ d, (Ok (cs_saved (dm_conf d)), d).

Definition set_online : Eff (Daemon K) () := λ d,
  (Ok (), daemon_of (dm_out d) (dm_conf d) (dm_dns d) (dm_monitor d) true).
End Parts.

(** ** Queries *)

Definition set_ns_dns_resolver (v : DnsResolver) (s : NetworkState) : NetworkState :=
  network_state (ns_version s) (ns_description s) (ns_wait_online s) (ns_routes s)
    (ns_route_rules s) v (ns_ifaces s).

(** [Interfaces::iter_mut]. *)
Definition map_ifaces (f : Interface → Interface) (self : Interfaces) : Interfaces :=
  interfaces (f <$> ifs_kernel self) (f <$> ifs_user self) (insert_order self) (ifs_search self).

(** The loop of [query_saved_state]. *)
Definition mark_saved (cur_state : NetworkState) (iface : Interface) : Interface :=
  if iface_is_userspace iface || iface_is_absent iface || iface_is_ignore iface then iface
  else set_state (if saved_iface_has_kernel_match iface cur_state then SUp else SSaved) iface.

Definition hidden (opt : NipartQueryOption) (s : NetworkState) : NetworkState :=
  if qo_include_secrets opt then s else ns_hide_secrets s.

Section Query.
Context {Num : Type} `{!EqDecision Num} `{!Serde Num Interface} `{!Serde Num (list AltNameEntry)}.
Context (it : Iteration).
Context {K : Type} `{!Kernel K} `{!Host K} `{!DhcpWorkers K} `{!Plugins K}.

(** [NipartNoDaemon::query_dns_resolver]. *)
Definition query_dns_resolver : Eff K DnsResolver := eff_read (λ k, query_running_dns (out_file k)).

(** [query_kernel_state]. *)
Definition query_kernel_state (opt : NipartQueryOption) : Eff K NetworkState :=
  state ← query_network_state it opt;
  plugins_net_states ← eff_call (out_plugin_states opt state);
  state ← eff_res (merge_states state plugins_net_states);
  dns ← query_dns_resolver;
  mret (set_ns_dns_resolver dns state).

(** The end of both views of the running state. *)
Definition fill_views (opt : NipartQueryOption) (saved net_state : NetworkState) :
    Eff (Daemon K) NetworkState :=
  let net_state := set_ns_dns_resolver
    (fill_saved_dns_resolver (ns_dns_resolver net_state) (ns_dns_resolver saved)) net_state in
  cache ← on_dns (λ _, dns_query_config (λ _, Ok ()) (Ok ()));
  let dns := ns_dns_resolver net_state in
  let net_state := match cache with
                   | Some c => set_ns_dns_resolver (dns_resolver (dr_running dns) (dr_config dns) (Some c)) net_state
                   | None => net_state
                   end in
  net_state ← on_out (fill_dhcp_states DhcpV4 net_state);
  net_state ← on_out (fill_dhcp_states DhcpV6 net_state);
  mret (hidden opt net_state).

(** [query_running_state]. *)
Definition query_running_state (opt : NipartQueryOption) : Eff (Daemon K) NetworkState :=
  net_state ← on_out (query_kernel_state opt);
  saved_state ← query_conf;
  fill_views opt saved_state (merge_saved_into_running it net_state saved_state).1.1.

(** [query_saved_state]. *)
Definition query_saved_state (opt : NipartQueryOption) : Eff (Daemon K) NetworkState :=
  state ← query_conf;
  cur_state ← on_out (query_network_state it query_default);
  mret (hidden opt (set_ns_ifaces (map_ifaces (mark_saved cur_state) (ns_ifaces state)) state)).

(** The interfaces of the kernel, as the saved configuration manages them or not. *)
Definition mark_managed (managed : gset string) (self : Interfaces) : Interfaces :=
  set_ifs_kernel ((λ iface, set_state
    (if bool_decide (kernel_iface_name iface ∈ managed) then SUp else SIgnore) iface) <$> ifs_kernel self) self.

(** [query_running_and_saved_state]. *)
Definition query_running_and_saved_state (opt : NipartQueryOption) : Eff (Daemon K) NetworkState :=
  net_state ← on_out (query_kernel_state opt);
  saved_state ← query_conf;
  let '(net_state, managed, saved_only) := merge_saved_into_running it net_state saved_state in
  let net_state := set_ns_ifaces (mark_managed managed (ns_ifaces net_state)) net_state in
  let saved_only_names := list_to_set (saved_only ≫= λ i, [kernel_iface_name i; iface_name i]) in
  let net_state := set_ns_ifaces (foldl interfaces_push (ns_ifaces net_state) saved_only) net_state in
  let net_state := append_saved_only_routes net_state saved_state saved_only_names in
  let net_state := append_saved_only_route_rules net_state saved_state in
  fill_views opt saved_state net_state.

(** [NipartCommander::query_network_state]. *)
Definition daemon_query (opt : NipartQueryOption) : Eff (Daemon K) NetworkState :=
  match qo_running opt, qo_saved opt with
  | true, false => query_running_state opt
  | false, true => query_saved_state opt
  | true, true => query_running_and_saved_state opt
  | false, false => eff_fail InvalidArgument
  end.

(** ** Online *)

(** [try_set_daemon_online]. *)
Definition try_set_daemon_online (saved_state cur_state : option NetworkState) : Eff (Daemon K) () :=
  online ← eff_get dm_online;
  if online : bool then mret ()
  else
    saved ← (match saved_state with Some s => mret s | None => query_conf end);
    let online_cfg := default wait_online_default (ns_wait_online saved) in
    match wo_conditions online_cfg with
    | [] => set_online
    | conds =>
        cur ← (match cur_state with Some c => mret c | None => on_out (query_network_state it query_default) end);
        if forallb (λ condition, condition_is_met condition cur) conds then set_online else mret ()
    end.

(** [update_daemon_online_state]. *)
Definition update_daemon_online_state : Eff (Daemon K) () :=
  online ← eff_get dm_online;
  if online : bool then mret () else try_set_daemon_online None None.

End Query.

(** [next_retry_wait], in milliseconds. *)
Definition MAX_RETRY_WAIT : Z := 2.

Definition next_retry_wait (retry_count budget elapsed : Z) : Z :=
  let retry_wait :=
    if 5 <? retry_count
    then Z.max 1 (Z.min MAX_RETRY_WAIT (2 ^ Z.min (retry_count - 5) (Z.log2 MAX_RETRY_WAIT)))
    else 1 in
  Z.min (1000 * retry_wait) (Z.max 0 (budget - elapsed)).

Lemma next_retry_wait_bounds retry_count budget elapsed :
  0 ≤ next_retry_wait retry_count budget elapsed ≤ 2000 ∧
  (elapsed ≤ budget → elapsed + next_retry_wait retry_count budget elapsed ≤ budget) ∧
  (elapsed + 1000 ≤ budget → 1000 ≤ next_retry_wait retry_count budget elapsed).
Proof. unfold next_retry_wait, MAX_RETRY_WAIT. destruct (5 <? retry_count); simpl; lia. Qed.

(** ** The default gateway *)

(** [src/daemon/dns_gateway.rs]. *)
Definition is_default_route (route : RouteEntry) : bool :=
  match rt_destination route with
  | Some d => String.eqb d GATEWAY4 || String.eqb d GATEWAY6
  | None => false
  end.

Definition gateway_of (route : RouteEntry) : option string :=
  if is_absent route || negb (is_default_route route) || is_given (rt_route_type route) then None
  else Some (join_string "|" [default "" (rt_next_hop_iface route); default "" (rt_next_hop_addr route);
               default "" (int_string <$> rt_metric route); default "" (int_string <$> rt_table_id route)]).

Definition default_gateway_fingerprint (routes : list RouteEntry) : list string :=
  dedup string_cmp id (sort_by string_cmp id (omap gateway_of routes)).

Section Gateway.
Context {K : Type} `{!Outside K}.

Definition notify_dns_cache_network_change : Eff (Daemon K) () :=
  on_dns (λ k w, let '(r, w) := dns_process_cmd (out_mudz_start k) (out_mudz_notify k) CmdNotifyNetworkChange w in
                 ((let? _ := r in Ok ()), w)).

(** [notify_dns_cache_on_gateway_change]. *)
Definition notify_dns_cache_on_gateway_change (self : MergedNetworkState) : Eff (Daemon K) () :=
  let before := default_gateway_fingerprint (default [] (config (mr_current (mn_routes self)))) in
  let after := default_gateway_fingerprint (mjoin (map_to_list (mr_merged (mn_routes self))).*2) in
  if bool_decide (before = after) then mret ()
  else _ ← eff_try notify_dns_cache_network_change; mret ().
End Gateway.
