(* ===== verification/DaemonApply.v ===== *)
(** * DaemonApply: the transaction of the daemon

    [src/daemon/apply.rs]: a desired state is merged with what is there and what is saved,
    applied with the monitor paused, waited for and verified; a failure is rolled back, a
    success is saved and watched. *)

From S2P Require Export Daemon.

#[local] Open Scope Z_scope.

(** ** What is verified, handed over and restored *)

(** [pretend_config_is_saved]: first the WIFI profiles, then [auto-connect]. *)
Definition pretend_profile (ifs : Interfaces) (m : MergedInterface) : Interfaces :=
  match mi_desired m with
  | Some (IfWifiCfg b wifi) =>
      if state_is_up (bi_state b) then interfaces_push ifs (IfWifiCfg b wifi)
      else delete_user (bi_name b, TWifiCfg) ifs
  | _ => ifs
  end.

(** An assignment through [Interfaces::get_mut]. *)
Definition update_iface (b : BaseInterface) (f : Interface → Interface) (self : Interfaces) : Interfaces :=
  if type_is_userspace (bi_iface_type b) then
    interfaces (ifs_kernel self) (alter f (bi_name b, bi_iface_type b) (ifs_user self))
      (insert_order self) (ifs_search self)
  else
    let name := if String.eqb (bi_kernel_iface_name b) "" then bi_name b else bi_kernel_iface_name b in
    interfaces (alter f name (ifs_kernel self)) (ifs_user self) (insert_order self) (ifs_search self).

Definition pretend_auto_connect (ifs : Interfaces) (m : MergedInterface) : Interfaces :=
  match mi_for_save m ≫= λ iface, bi_auto_connect (base_iface iface) with
  | Some auto_connect =>
      update_iface (base_iface (mi_merged m)) (upd_base (set_bi_auto_connect (Some auto_connect))) ifs
  | None => ifs
  end.

Definition pretend_config_is_saved (post_apply_state : NetworkState) (self : MergedNetworkState) :
    NetworkState :=
  let ifs := foldl pretend_profile (ns_ifaces post_apply_state) (user_ifaces (mn_ifaces self)).*2 in
  set_ns_ifaces (foldl pretend_auto_connect ifs (merged_iter (mn_ifaces self))) post_apply_state.

(** [ignored_wifi_phy_markers]. *)
Definition ignored_wifi_phy_marker (m : MergedInterface) : option Interface :=
  if bool_decide (mi_iface_type m = TWifiPhy) && iface_is_ignore (mi_merged m) &&
     negb (String.eqb (mi_kernel_iface_name m) "")
  then set_state SIgnore <$> iface_clone_name_type_only (mi_merged m)
  else None.

Definition ignored_wifi_phy_markers (ifaces : MergedInterfaces) : list Interface :=
  omap ignored_wifi_phy_marker (kernel_ifaces ifaces).*2.

Definition with_markers (ifaces : MergedInterfaces) (state : NetworkState) : NetworkState :=
  set_ns_ifaces (foldl interfaces_push (ns_ifaces state) (ignored_wifi_phy_markers ifaces)) state.

(** [saved_wifi_restore_state]. *)
Definition restores_wifi (iface : Interface) : bool :=
  negb (iface_is_absent iface || iface_is_ignore iface ||
        bool_decide (bi_auto_connect (base_iface iface) = Some Manual)) && is_wifi (iface_type iface).

Definition saved_wifi_restore_state (saved_state : NetworkState) : NetworkState :=
  set_ns_ifaces (foldl interfaces_push interfaces_default
                   (List.filter restores_wifi (interfaces_iter (ns_ifaces saved_state)))) ns_default.

Record RevertDns : Type := revert_dns_of {
  rd_resolver : DnsResolver;
  rd_dynamic_servers : list string;
}.

(** The numbers of attempts, [RETRY_COUNT] and the others of this file. *)
Definition VERIFY_COUNT : nat := 10.
Definition WIFI_VERIFY_COUNT : nat := 60.
Definition APPLY_RETRY_MAX : nat := 2.
Definition APPLY_RETRY_INTERVAL_SEC : Z := 2.

(** ** The apply *)

Section Apply.
Context {Num : Type} `{!EqDecision Num} `{!Serde Num Interface} `{!Serde Num (list AltNameEntry)}.
Context (to_lowercase to_uppercase : string → string) (etc_hosts : option string) (it : Iteration)
  (sort : LinkSort) (to_yaml : NetworkState → option string).
Context {K : Type} `{!Kernel K} `{!Host K} `{!DhcpWorkers K} `{!Plugins K} `{!Outside K}.

#[local] Abbreviation merged_new := (merged_net_state_new to_lowercase to_uppercase etc_hosts it).

Definition dm_sleep (ms : Z) : Eff (Daemon K) () := on_out (sleep ms).

Definition plugin_apply (state : NetworkState) (opt : NipartApplyOption) : Eff (Daemon K) () :=
  on_out (eff_call (out_plugin_apply state opt)).

(** [apply_dhcp_config] of both managers. *)
Definition apply_dhcp (self : MergedNetworkState) : Eff (Daemon K) () :=
  _ ← on_out (apply_dhcpv4_config it self);
  on_out (apply_dhcpv6_config it self).

(** [NipartCommander::apply_dns] with the snapshot of [auto_dns_snapshot]. *)
Definition daemon_apply_dns (self : MergedNetworkState) : Eff (Daemon K) () :=
  saved_state ← query_conf;
  dhcp_info ← on_out (eff_call out_dhcp_dns);
  let auto_dns := collect_auto_dns to_lowercase dhcp_info (ns_ifaces saved_state)
                    (Some (map mi_merged (merged_iter (mn_ifaces self)))) in
  on_dns_host (λ k, apply_dns to_lowercase (out_mudz_start k) (out_can_write k)
                      (ns_dns_resolver saved_state) (mn_dns self) auto_dns).

(** [wifi_plugin_live_state]. *)
Definition wifi_plugin_live_state (kernel_state : NetworkState) : Eff (Daemon K) NetworkState :=
  states ← on_out (eff_call (out_plugin_states query_default kernel_state));
  eff_res (merge_states ns_default states).

(** [forget_changed_wifi_phys]. *)
Definition changed_phys (initial_connected connected : list (string * string)) : list string :=
  dedup string_cmp id (sort_by string_cmp id
    (List.filter (λ e, negb (bool_decide (e ∈ initial_connected))) connected).*1).

Definition forget_changed_wifi_phys (initial_connected : list (string * string))
    (current : NetworkState) : Eff (Daemon K) () :=
  on_monitor (λ k, forget_paused_state (out_world k)
                     (changed_phys initial_connected (connected_wifi_phys current))).

(** The wait of WifiConnect.v on the daemon. *)
Definition daemon_wait (self : MergedNetworkState) : Eff (Daemon K) bool :=
  wait_wifi_connect_requests (on_out (query_network_state it query_default)) wifi_plugin_live_state
    (λ phy_name ssid, on_out (eff_call (out_wifi_connect_error phy_name ssid)))
    (λ d, out_is_closed (dm_out d)) (λ d, out_now (dm_out d)) dm_sleep forget_changed_wifi_phys
    (wifi_connect_requests self) self.

(** [NipartCommander::verify]. *)
Definition daemon_verify (self : MergedNetworkState) : Eff (Daemon K) () :=
  post_apply_state ← daemon_query it query_default;
  let post_apply_state := pretend_config_is_saved post_apply_state self in
  _ ← eff_res (mn_verify self post_apply_state);
  _ ← eff_res (verify_dns (mn_dns self) (dr_running (ns_dns_resolver post_apply_state)));
  try_set_daemon_online it None (Some post_apply_state).

Fixpoint daemon_verify_loop (n : nat) (self : MergedNetworkState) (result : res ()) :
    Eff (Daemon K) () :=
  match n with
  | O => eff_res result
  | S n =>
      r ← eff_try (daemon_verify self);
      match r with
      | Ok _ => mret ()
      | Err e => _ ← dm_sleep RETRY_INTERVAL_MS; daemon_verify_loop n self (Err e)
      end
  end.

Definition verify_count (self : MergedNetworkState) : nat :=
  if existsb (λ m, is_wifi (mi_iface_type m)) (merged_iter (mn_ifaces self))
  then WIFI_VERIFY_COUNT else VERIFY_COUNT.

(** [apply_merged_state_once]. *)
Definition apply_merged_state_once (self : MergedNetworkState) : Eff (Daemon K) () :=
  let apply_state := with_markers (mn_ifaces self) (mn_gen_state_for_apply it self) in
  world ← eff_get (λ d, out_world (dm_out d));
  applied ← on_out (apply_merged_state sort (remove_conditional_activation (world_env world) self));
  _ ← daemon_apply_dns self;
  _ ← plugin_apply apply_state (mn_option self);
  _ ← (if should_wait_wifi_connect (mn_option self) then daemon_wait self else mret true);
  _ ← apply_dhcp self;
  if no_verify (mn_option self) then mret ()
  else daemon_verify_loop (verify_count self) applied (Ok ()).

(** The loop of [NipartCommander::apply_merged_state], with the attempts that are left. *)
Fixpoint apply_retries (n : nat) (self : MergedNetworkState) (last_err : option NipartError) :
    Eff (Daemon K) () :=
  match n with
  | O => eff_res (Err (default (nipart_error Bug) last_err))
  | S n =>
      r ← eff_try (apply_merged_state_once self);
      match r with
      | Ok _ => mret ()
      | Err e =>
          if negb (retriable (kind e)) || bool_decide (kind e = IpcClosed) then eff_res (Err e)
          else
            _ ← (match n with O => mret () | _ => dm_sleep (1000 * APPLY_RETRY_INTERVAL_SEC) end);
            apply_retries n self (Some e)
      end
  end.

Definition daemon_apply_merged_state (self : MergedNetworkState) : Eff (Daemon K) () :=
  apply_retries APPLY_RETRY_MAX self None.

(** ** Rollback *)

(** [restore_saved_wifi_profiles]. *)
Definition restore_saved_wifi_profiles (ifaces : MergedInterfaces) : Eff (Daemon K) () :=
  saved_state ← query_conf;
  let wifi_state := saved_wifi_restore_state saved_state in
  if ns_is_empty wifi_state then mret ()
  else plugin_apply (with_markers ifaces wifi_state) (opt_no_verify (opt_memory_only opt_new)).

(** [NipartCommander::rollback]. *)
Definition rollback (revert_state : NetworkState) (revert_dns : RevertDns) : Eff (Daemon K) () :=
  let opt := opt_no_verify opt_new in
  let revert_touches_wifi :=
    existsb (λ iface, is_wifi (iface_type iface)) (interfaces_iter (ns_ifaces revert_state)) in
  current_state ← daemon_query it query_default;
  self ← eff_of (merged_new revert_state current_state None opt);
  let apply_state := with_markers (mn_ifaces self) (mn_gen_state_for_apply it self) in
  self ← on_out (apply_merged_state sort self);
  _ ← on_dns_host (λ k, apply_dns_resolver to_lowercase (out_mudz_start k) (out_can_write k)
                          (rd_resolver revert_dns) (rd_dynamic_servers revert_dns));
  _ ← plugin_apply apply_state opt;
  _ ← (if revert_touches_wifi then restore_saved_wifi_profiles (mn_ifaces self) else mret ());
  _ ← apply_dhcp self;
  notify_dns_cache_on_gateway_change self.

(** ** The transaction *)

Definition save_conf (state : NetworkState) : Eff (Daemon K) () := λ d,
  let '(r, c) := save_state to_yaml (out_conf_io (dm_out d)) state (dm_conf d) in
  (r, daemon_of (dm_out d) c (dm_dns d) (dm_monitor d) (dm_online d)).

(** [NipartMonitorManager::setup_monitor]; its query sees the kernel. *)
Definition daemon_setup_monitor (self : MergedNetworkState) (saved_state : NetworkState) :
    Eff (Daemon K) () :=
  cur ← eff_try (on_out (query_network_state it query_default));
  let cur := match cur with Ok s => Ok (ns_ifaces s) | Err e => Err e end in
  on_monitor (λ k, setup_monitor (out_world k) (omap mi_for_apply (merged_iter (mn_ifaces self)))
                     (ns_ifaces saved_state) cur).

(** [apply_network_state_inner]. *)
Definition apply_network_state_inner (self : MergedNetworkState)
    (state_to_save revert_state : NetworkState) (revert_dns : RevertDns) :
    Eff (Daemon K) NetworkState :=
  r ← eff_try (daemon_apply_merged_state self);
  match r with
  | Err e => _ ← eff_try (rollback revert_state revert_dns); eff_res (Err e)
  | Ok _ =>
      _ ← (if memory_only (mn_option self) then mret (Ok ()) else eff_try (save_conf state_to_save));
      saved_state ← query_conf;
      _ ← daemon_setup_monitor self saved_state;
      mret saved_state
  end.

Definition dm_exec (cmd : NipartMonitorCmd) : Eff (Daemon K) () :=
  on_monitor (λ k, exec (out_world k) cmd).

(** What the loop of the monitor does during the apply. *)
Definition dm_meanwhile : Eff (Daemon K) () :=
  on_monitor (λ k, modify (out_meanwhile k)).

(** The part of [apply_network_state_with_saved_config] with the monitor paused. *)
Definition apply_paused {A} (x : Eff (Daemon K) A) : Eff (Daemon K) A :=
  _ ← dm_exec Pause;
  _ ← dm_meanwhile;
  result ← eff_try x;
  _ ← dm_exec Resume;
  eff_res result.

(** The state that is shown to the client. *)
Definition shown_diff (self : MergedNetworkState) : Eff (Daemon K) NetworkState :=
  r ← eff_try (eff_of (mn_gen_diff self));
  mret (ns_hide_secrets (match r with Ok s => s | Err _ => mn_gen_state_for_apply it self end)).

(** The beginning of [apply_network_state_with_saved_config]: the merged state, and the state
    before it. *)
Definition prepare_apply (desired_state : NetworkState) (opt : NipartApplyOption)
    (saved_config : option NetworkState) :
    Eff (Daemon K) (MergedNetworkState * NetworkState * RevertDns) :=
  current ← daemon_query it query_default;
  resolver ← on_out query_dns_resolver;
  let current := set_ns_dns_resolver resolver current in
  self ← eff_of (merged_new desired_state current saved_config opt);
  revert_state ← eff_of (mn_generate_revert self);
  mret (self, revert_state, revert_dns_of resolver (apply_dynamic_servers (mn_dns self))).

(** [apply_network_state_with_saved_config]. *)
Definition apply_with_saved_config (desired_state : NetworkState) (opt : NipartApplyOption)
    (saved_config : option NetworkState) : Eff (Daemon K) NetworkState :=
  prepared ← prepare_apply desired_state opt saved_config;
  let '(self, revert_state, revert_dns) := prepared in
  saved_state ← apply_paused (apply_network_state_inner self (mn_gen_state_for_save it self)
                                revert_state revert_dns);
  _ ← notify_dns_cache_on_gateway_change self;
  diff_state ← shown_diff self;
  _ ← try_set_daemon_online it (Some saved_state) None;
  mret diff_state.

(** [NipartCommander::apply_network_state]. *)
Definition daemon_apply (desired_state : NetworkState) (opt : NipartApplyOption) :
    Eff (Daemon K) NetworkState :=
  saved_config ← query_conf;
  apply_with_saved_config desired_state opt (Some saved_config).

End Apply.

(** ** What an apply leaves alone *)

Section Undisturbed.
Context {K : Type}.

(** The saved configuration and the pause counter of the monitor. *)
Definition undisturbed (d d' : Daemon K) : Prop :=
  dm_conf d' = dm_conf d ∧
  manual_pause_count (dm_monitor d') = manual_pause_count (dm_monitor d).

#[export] Instance undisturbed_refl : Reflexive undisturbed.
Proof. by intros d. Qed.

#[export] Instance undisturbed_trans : Transitive undisturbed.
Proof. intros d1 d2 d3 [H1 H2] [H3 H4]. split; congruence. Qed.

Lemma keeps_on_out {A} (x : Eff K A) : keeps undisturbed (on_out x).
Proof. intros d r d'. unfold on_out. destruct (x _). by intros [= _ <-]. Qed.

Lemma keeps_on_dns {A} (x : K → NipartDnsWorker → res A * NipartDnsWorker) : keeps undisturbed (on_dns x).
Proof. intros d r d'. unfold on_dns. destruct (x _ _). by intros [= _ <-]. Qed.

Lemma keeps_on_dns_host `{!Host K} {A} (x : K → DnsHost → res A * DnsHost) :
  keeps undisturbed (on_dns_host x).
Proof. intros d r d'. unfold on_dns_host. destruct (x _ _). by intros [= _ <-]. Qed.

Lemma keeps_on_monitor {A} (x : K → Mon A) :
  (∀ k, keeps_part manual_pause_count (x k)) → keeps undisturbed (on_monitor x).
Proof.
  intros Hx d r d'. unfold on_monitor. pose proof (Hx (dm_out d) (dm_monitor d)) as H.
  destruct (x _ _). by intros [= _ <-].
Qed.

Lemma keeps_query_conf : keeps undisturbed (query_conf (K:=K)).
Proof. by intros d r d' [= _ <-]. Qed.

Lemma keeps_set_online : keeps undisturbed (set_online (K:=K)).
Proof. by intros d r d' [= _ <-]. Qed.

Lemma keeps_eff_get {A} (f : Daemon K → A) : keeps undisturbed (eff_get f).
Proof. by intros d r d' [= _ <-]. Qed.

Lemma undisturbed_ret {A} (a : A) : keeps undisturbed (mret a).
Proof. apply eff_keeps_ret, _. Qed.

Lemma undisturbed_res {A} (r : res A) : keeps undisturbed (eff_res r).
Proof. apply keeps_res, _. Qed.

Lemma undisturbed_of {A} (r : outcome A) : keeps undisturbed (eff_of r).
Proof. apply keeps_of, _. Qed.

Lemma undisturbed_bind {A B} (x : Eff (Daemon K) A) (f : A → Eff (Daemon K) B) :
  keeps undisturbed x → (∀ a, keeps undisturbed (f a)) → keeps undisturbed (x ≫= f).
Proof. apply eff_keeps_bind, _. Qed.

Lemma undisturbed_each {A} (f : A → Eff (Daemon K) ()) l :
  (∀ x, keeps undisturbed (f x)) → keeps undisturbed (eff_each f l).
Proof. apply keeps_each; apply _. Qed.
End Undisturbed.

Create HintDb undisturbed.
#[export] Hint Resolve keeps_on_out keeps_on_dns keeps_on_dns_host keeps_query_conf keeps_set_online
  keeps_eff_get undisturbed_ret undisturbed_res undisturbed_of keeps_try : undisturbed.

(** The steps one by one. *)
Ltac undisturbed :=
  repeat (first
    [ progress intros
    | solve [auto with undisturbed]
    | apply undisturbed_bind
    | apply keeps_try
    | apply undisturbed_each
    | match goal with |- keeps _ (match ?x with _ => _ end) => destruct x end ]).

Section Calm.
Context {Num : Type} `{!EqDecision Num} `{!Serde Num Interface} `{!Serde Num (list AltNameEntry)}.
Context (to_lowercase to_uppercase : string → string) (etc_hosts : option string) (it : Iteration)
  (sort : LinkSort).
Context {K : Type} `{!Kernel K} `{!Host K} `{!DhcpWorkers K} `{!Plugins K} `{!Outside K}.

Lemma daemon_query_undisturbed opt : keeps (undisturbed (K:=K)) (daemon_query it opt).
Proof.
  unfold daemon_query, query_running_state, query_saved_state, query_running_and_saved_state, fill_views,
    eff_fail. undisturbed.
Qed.

Lemma online_undisturbed saved cur : keeps (undisturbed (K:=K)) (try_set_daemon_online it saved cur).
Proof. unfold try_set_daemon_online. undisturbed. Qed.

Lemma notify_undisturbed self : keeps (undisturbed (K:=K)) (notify_dns_cache_on_gateway_change self).
Proof. unfold notify_dns_cache_on_gateway_change, notify_dns_cache_network_change. undisturbed. Qed.

Lemma apply_dhcp_undisturbed self : keeps (undisturbed (K:=K)) (apply_dhcp it self).
Proof. unfold apply_dhcp. undisturbed. Qed.

Lemma apply_dns_undisturbed self : keeps (undisturbed (K:=K)) (daemon_apply_dns to_lowercase self).
Proof. unfold daemon_apply_dns. undisturbed. Qed.

Lemma forget_undisturbed initial cur : keeps (undisturbed (K:=K)) (forget_changed_wifi_phys initial cur).
Proof.
  apply keeps_on_monitor. intros k. unfold forget_paused_state.
  case_bool_decide; [apply keeps_ret|by apply exec_other_pause_count].
Qed.

#[local] Hint Resolve daemon_query_undisturbed online_undisturbed notify_undisturbed
  apply_dhcp_undisturbed apply_dns_undisturbed forget_undisturbed : undisturbed.

Lemma wait_round_undisturbed on_connected groups phy_names deadline settled :
  (∀ live, keeps undisturbed (on_connected live)) →
  keeps (undisturbed (K:=K))
    (wait_round (on_out (query_network_state it query_default)) wifi_plugin_live_state
       (λ phy_name ssid, on_out (eff_call (out_wifi_connect_error phy_name ssid)))
       (λ d, out_is_closed (dm_out d)) (λ d, out_now (dm_out d)) dm_sleep on_connected groups phy_names
       deadline settled).
Proof.
  intros Hc. unfold wait_round, wifi_plugin_live_state, dm_sleep, eff_fail, poll_group, poll_error.
  undisturbed.
Qed.

Lemma wait_loop_undisturbed on_connected fuel groups phy_names deadline settled :
  (∀ live, keeps undisturbed (on_connected live)) →
  keeps (undisturbed (K:=K))
    (wait_loop (on_out (query_network_state it query_default)) wifi_plugin_live_state
       (λ phy_name ssid, on_out (eff_call (out_wifi_connect_error phy_name ssid)))
       (λ d, out_is_closed (dm_out d)) (λ d, out_now (dm_out d)) dm_sleep on_connected fuel groups
       phy_names deadline settled).
Proof.
  intros Hc. revert settled. induction fuel as [|fuel IH]; intros settled; cbn [wait_loop];
    [apply undisturbed_ret|].
  apply undisturbed_bind; [by apply wait_round_undisturbed|].
  intros [settled'|]; [apply IH|apply undisturbed_ret].
Qed.

Lemma wait_undisturbed self : keeps (undisturbed (K:=K)) (daemon_wait it self).
Proof.
  unfold daemon_wait, wait_wifi_connect_requests. destruct (wifi_connect_requests self); [apply undisturbed_ret|].
  apply undisturbed_bind; [apply keeps_on_out|]. intros ks.
  destruct (waited_phys self ks); [apply undisturbed_ret|].
  apply undisturbed_bind; [unfold wifi_plugin_live_state; undisturbed|]. intros initial.
  apply undisturbed_bind; [apply keeps_eff_get|]. intros time.
  apply wait_loop_undisturbed. apply forget_undisturbed.
Qed.

#[local] Hint Resolve wait_undisturbed : undisturbed.

Lemma verify_loop_undisturbed n self result :
  keeps (undisturbed (K:=K)) (daemon_verify_loop it n self result).
Proof.
  revert result. induction n as [|n IH]; intros result; cbn [daemon_verify_loop]; [undisturbed|].
  unfold daemon_verify, dm_sleep. undisturbed.
Qed.

#[local] Hint Resolve verify_loop_undisturbed : undisturbed.

Lemma once_undisturbed self : keeps (undisturbed (K:=K)) (apply_merged_state_once to_lowercase it sort self).
Proof. unfold apply_merged_state_once, plugin_apply. undisturbed. Qed.

Lemma apply_merged_undisturbed self :
  keeps (undisturbed (K:=K)) (daemon_apply_merged_state to_lowercase it sort self).
Proof.
  unfold daemon_apply_merged_state. generalize (@None NipartError).
  induction APPLY_RETRY_MAX as [|n IH]; intros last_err; cbn [apply_retries]; [undisturbed|].
  apply undisturbed_bind; [apply keeps_try, once_undisturbed|]. unfold dm_sleep. undisturbed.
Qed.

Lemma rollback_undisturbed revert_state revert_dns :
  keeps (undisturbed (K:=K))
    (rollback to_lowercase to_uppercase etc_hosts it sort revert_state revert_dns).
Proof. unfold rollback, restore_saved_wifi_profiles, plugin_apply. undisturbed. Qed.

Lemma shown_diff_undisturbed self : keeps (undisturbed (K:=K)) (shown_diff it self).
Proof. unfold shown_diff. undisturbed. Qed.

Lemma setup_undisturbed self saved : keeps (undisturbed (K:=K)) (daemon_setup_monitor it self saved).
Proof.
  unfold daemon_setup_monitor. undisturbed.
  all: apply keeps_on_monitor; intros k; apply setup_monitor_pause_count.
Qed.
End Calm.

(** ** The transaction *)

Section Transaction.
Context {Num : Type} `{!EqDecision Num} `{!Serde Num Interface} `{!Serde Num (list AltNameEntry)}.
Context (to_lowercase to_uppercase : string → string) (etc_hosts : option string) (it : Iteration)
  (sort : LinkSort) (to_yaml : NetworkState → option string).
Context {K : Type} `{!Kernel K} `{!Host K} `{!DhcpWorkers K} `{!Plugins K} `{!Outside K}.

#[local] Abbreviation prepare := (prepare_apply to_lowercase to_uppercase etc_hosts it (K:=K)).
#[local] Abbreviation apply_merged := (daemon_apply_merged_state to_lowercase it sort (K:=K)).
#[local] Abbreviation back := (rollback to_lowercase to_uppercase etc_hosts it sort (K:=K)).
#[local] Abbreviation inner := (apply_network_state_inner to_lowercase to_uppercase etc_hosts it sort to_yaml (K:=K)).
#[local] Abbreviation apply := (daemon_apply to_lowercase to_uppercase etc_hosts it sort to_yaml (K:=K)).

Definition same_count (d d' : Daemon K) : Prop :=
  manual_pause_count (dm_monitor d') = manual_pause_count (dm_monitor d).

#[local] Instance same_count_refl : Reflexive same_count.
Proof. by intros d. Qed.

#[local] Instance same_count_trans : Transitive same_count.
Proof. intros d1 d2 d3. unfold same_count. congruence. Qed.

Lemma undisturbed_count {A} (x : Eff (Daemon K) A) : keeps undisturbed x → keeps same_count x.
Proof. intros Hx d r d' H. apply (Hx _ _ _ H). Qed.

Lemma prepare_undisturbed desired opt saved : keeps undisturbed (prepare desired opt saved).
Proof.
  unfold prepare_apply. apply undisturbed_bind; [apply daemon_query_undisturbed|]. undisturbed.
Qed.

(** The daemon while an apply runs. *)
Definition paused (d : Daemon K) : Daemon K := (dm_meanwhile (dm_exec Pause d).2).2.

Lemma apply_paused_run {A} (x : Eff (Daemon K) A) d :
  apply_paused x d =
    match x (paused d) with
    | (Err Panicked, d1) => (Err Panicked, d1)
    | (r, d1) => let '(resumed, d2) := dm_exec Resume d1 in
                 (match resumed with Ok _ => r | Err e => Err e end, d2)
    end.
Proof.
  change (apply_paused x d) with ((result ← eff_try x; _ ← dm_exec Resume; eff_res result) (paused d)).
  rewrite eff_bind_run. unfold eff_try. destruct (x (paused d)) as [[a|[e|]] d1]; [..|done];
    rewrite eff_bind_run; by destruct (dm_exec Resume d1) as [[[]|e'] d2].
Qed.

Lemma paused_conf d : dm_conf (paused d) = dm_conf d.
Proof. done. Qed.

Lemma keeps_conf_exec cmd d : dm_conf (dm_exec cmd d).2 = dm_conf d.
Proof. unfold dm_exec, on_monitor. by destruct (exec _ _ _). Qed.

(** What is saved after the apply of [self] that left [d]. *)
Definition conf_after (self : MergedNetworkState) (d : Daemon K) : ConfStore :=
  if memory_only (mn_option self) then dm_conf d
  else (save_state to_yaml (out_conf_io (dm_out d)) (mn_gen_state_for_save it self) (dm_conf d)).2.

Lemma save_conf_run state d :
  dm_conf (save_conf to_yaml state d).2 = (save_state to_yaml (out_conf_io (dm_out d)) state (dm_conf d)).2 ∧
  dm_monitor (save_conf to_yaml state d).2 = dm_monitor d.
Proof. unfold save_conf. by destruct (save_state _ _ _ _). Qed.

Lemma try_state {A} (x : Eff (Daemon K) A) d : (eff_try x d).2 = (x d).2.
Proof. unfold eff_try. by destruct (x d) as [[?|[?|]] ?]. Qed.

(** The inner part, when the state could not be applied. *)
Lemma inner_failed self state_to_save revert_state revert_dns d e d1 :
  apply_merged self d = (Err (Failed e), d1) →
  inner self state_to_save revert_state revert_dns d =
    match back revert_state revert_dns d1 with
    | (Err Panicked, d2) => (Err Panicked, d2)
    | (_, d2) => (Err (Failed e), d2)
    end.
Proof.
  intros Ha. unfold apply_network_state_inner. rewrite eff_bind_run. unfold eff_try at 1. rewrite Ha.
  rewrite eff_bind_run. unfold eff_try. by destruct (back _ _ _) as [[?|[?|]] d2].
Qed.

(** The inner part, when the state could be applied. *)
Lemma inner_applied self revert_state revert_dns d d1 r d' :
  apply_merged self d = (Ok (), d1) →
  inner self (mn_gen_state_for_save it self) revert_state revert_dns d = (r, d') →
  dm_conf d' = conf_after self d1.
Proof.
  intros Ha. unfold apply_network_state_inner. rewrite eff_bind_run. unfold eff_try at 1. rewrite Ha.
  unfold conf_after. destruct (memory_only _).
  - rewrite eff_bind_run. simpl. intros H.
    assert (keeps undisturbed (_ ← daemon_setup_monitor it self (cs_saved (dm_conf d1));
                               mret (cs_saved (dm_conf d1)))) as Hk
      by (apply undisturbed_bind; [apply setup_undisturbed|undisturbed]).
    by apply Hk in H as [-> _].
  - intros H. destruct (save_conf_run (mn_gen_state_for_save it self) d1) as [<- _].
    rewrite <-try_state. revert H. rewrite eff_bind_run.
    destruct (eff_try _ d1) as [[s|e] d2]; [|by intros [= _ <-]]. simpl.
    assert (keeps undisturbed (_ ← daemon_setup_monitor it self (cs_saved (dm_conf d2));
                               mret (cs_saved (dm_conf d2)))) as Hk
      by (apply undisturbed_bind; [apply setup_undisturbed|undisturbed]).
    by intros [-> _]%Hk.
Qed.

Lemma conf_of_rest self saved diff d r d' :
  (_ ← notify_dns_cache_on_gateway_change self;
   diff_state ← shown_diff it self;
   _ ← try_set_daemon_online it saved diff;
   mret diff_state) d = (r, d') → undisturbed d d'.
Proof.
  apply undisturbed_bind; [apply notify_undisturbed|intros _].
  apply undisturbed_bind; [apply shown_diff_undisturbed|intros diff_state].
  apply undisturbed_bind; [apply online_undisturbed|undisturbed].
Qed.
(** C1: An apply is a transaction.  If the merged state or the state to go back to cannot be
    made, nothing has been changed.  If the merged state cannot be applied, the state before
    it is applied again, the monitor is resumed, and the error of the apply - not one of the
    rollback - is reported; nothing is saved.  If it could be applied, what is saved is the
    merged state, or what was saved before if the request is for the memory only. *)
Theorem apply_is_a_transaction desired opt d :
  let '(r, d') := apply desired opt d in
  match prepare desired opt (Some (cs_saved (dm_conf d))) d with
  | (Err e, d1) => r = Err e ∧ d' = d1 ∧ undisturbed d d'
  | (Ok (self, revert_state, revert_dns), d1) =>
      match apply_merged self (paused d1) with
      | (Ok _, d2) => dm_conf d2 = dm_conf d ∧ dm_conf d' = conf_after self d2
      | (Err Panicked, d2) => r = Err Panicked ∧ dm_conf d' = dm_conf d
      | (Err (Failed e), d2) =>
          dm_conf d' = dm_conf d ∧
          match back revert_state revert_dns d2 with
          | (Err Panicked, d3) => r = Err Panicked
          | (_, d3) =>
              let '(resumed, d4) := dm_exec Resume d3 in
              d' = d4 ∧ r = match resumed with Ok _ => Err (Failed e) | Err e' => Err e' end
          end
      end
  end.
Proof.
  destruct (apply desired opt d) as [r d'] eqn:E. unfold daemon_apply in E.
  rewrite eff_bind_run in E. cbn [query_conf] in E. unfold apply_with_saved_config in E.
  rewrite eff_bind_run in E.
  destruct (prepare _ _ _ d) as [[[[self revert_state] revert_dns]|e] d1] eqn:Ep;
    apply prepare_undisturbed in Ep; [|by injection E as <- <-].
  destruct Ep as [Ep _]. rewrite eff_bind_run, apply_paused_run in E.
  destruct (apply_merged self (paused d1)) as [[[]|[e|]] d2] eqn:Ea;
    pose proof (apply_merged_undisturbed _ _ _ _ _ _ _ Ea) as [Hc _]; rewrite paused_conf, Ep in Hc.
  - split; [done|]. destruct (inner _ _ _ _ (paused d1)) as [ri di] eqn:Ei.
    rewrite <-(inner_applied _ _ _ _ _ _ _ Ea Ei).
    pose proof (keeps_conf_exec Resume di) as Hk. destruct (dm_exec Resume di) as [resumed d4].
    destruct ri as [saved|[e|]]; [|by destruct resumed; injection E as _ <-|by injection E as _ <-].
    destruct resumed; [|by injection E as _ <-]. by apply conf_of_rest in E as [-> _].
  - rewrite (inner_failed _ _ _ _ _ _ _ Ea) in E.
    destruct (back revert_state revert_dns d2) as [rb d3] eqn:Eb.
    pose proof (rollback_undisturbed _ _ _ _ _ _ _ _ _ _ Eb) as [Hb _].
    pose proof (keeps_conf_exec Resume d3) as Hk.
    destruct rb as [[]|[eb|]]; [| |by injection E as <- <-; split; [congruence|]].
    all: destruct (dm_exec Resume d3) as [[[]|e'] d4]; simpl in Hk; injection E as <- <-;
      split; [congruence|done|congruence|done].
  - unfold apply_network_state_inner in E. rewrite eff_bind_run in E. unfold eff_try at 1 in E.
    rewrite Ea in E. by injection E as <- <-.
Qed.

(** ** The monitor *)

Lemma save_conf_count state : keeps same_count (save_conf to_yaml state).
Proof.
  intros d r d' H. unfold same_count. destruct (save_conf_run state d) as [_ Hm].
  rewrite H in Hm. simpl in Hm. by rewrite Hm.
Qed.

Lemma inner_count self state_to_save revert_state revert_dns :
  keeps same_count (inner self state_to_save revert_state revert_dns).
Proof.
  unfold apply_network_state_inner.
  apply eff_keeps_bind; [apply _|apply keeps_try, undisturbed_count, apply_merged_undisturbed|].
  intros [[]|e].
  - apply eff_keeps_bind; [apply _| |].
    + destruct (memory_only _); [apply eff_keeps_ret, _|apply keeps_try, save_conf_count].
    + intros _. apply undisturbed_count, undisturbed_bind; [apply keeps_query_conf|]. intros saved.
      apply undisturbed_bind; [apply setup_undisturbed|intros _; apply undisturbed_ret].
  - apply undisturbed_count, undisturbed_bind; [apply keeps_try, rollback_undisturbed|].
    intros _. apply undisturbed_res.
Qed.

Lemma dm_exec_count cmd d :
  manual_pause_count (dm_monitor (dm_exec cmd d).2) = recounted cmd (manual_pause_count (dm_monitor d)).
Proof.
  unfold dm_exec, on_monitor. pose proof (exec_pause_count (out_world (dm_out d)) cmd (dm_monitor d)) as H.
  by destruct (exec _ _ _).
Qed.

Lemma apply_paused_count {A} (x : Eff (Daemon K) A) d :
  keeps same_count x →
  (∀ k m, manual_pause_count (out_meanwhile k m) = manual_pause_count m) →
  0 ≤ manual_pause_count (dm_monitor d) < u32_max →
  (apply_paused x d).1 ≠ Err Panicked → same_count d (apply_paused x d).2.
Proof.
  intros Hx Hm Hc. rewrite apply_paused_run. destruct (x (paused d)) as [r d1] eqn:E. apply Hx in E.
  assert (manual_pause_count (dm_monitor (paused d)) = manual_pause_count (dm_monitor d) + 1) as Hp.
  { unfold paused, dm_meanwhile, on_monitor, modify. simpl. rewrite Hm.
    pose proof (dm_exec_count Pause d) as H. unfold recounted in H.
    transitivity (Z.min u32_max (manual_pause_count (dm_monitor d) + 1)); [exact H|lia]. }
  assert (same_count d (dm_exec Resume d1).2) as Hr.
  { unfold same_count. rewrite dm_exec_count. unfold same_count in E. rewrite E, Hp. simpl. lia. }
  destruct r as [a|[e|]]; [..|done]; by destruct (dm_exec Resume d1) as [[]].
Qed.

(** C30: However an apply ends - unless the daemon panicked - the monitor is as paused as it
    was before: the links are watched again after a failed merge, a failed apply, a failed
    rollback, a failed save or a failed setup of the watches. *)
Theorem daemon_apply_takes_pause_back desired opt d :
  (∀ k m, manual_pause_count (out_meanwhile k m) = manual_pause_count m) →
  0 ≤ manual_pause_count (dm_monitor d) < u32_max →
  (apply desired opt d).1 ≠ Err Panicked →
  manual_pause_count (dm_monitor (apply desired opt d).2) = manual_pause_count (dm_monitor d).
Proof.
  intros Hm Hc. unfold daemon_apply, apply_with_saved_config. rewrite eff_bind_run. cbn [query_conf].
  rewrite eff_bind_run.
  destruct (prepare _ _ _ d) as [[[[self revert_state] revert_dns]|e] d1] eqn:Ep;
    apply prepare_undisturbed in Ep as [_ Ep]; [|done].
  rewrite eff_bind_run. set (x := inner _ _ _ _).
  pose proof (apply_paused_count x d1 (inner_count _ _ _ _) Hm) as Hx.
  rewrite Ep in Hx. specialize (Hx Hc). unfold same_count in Hx.
  destruct (apply_paused x d1) as [[saved|e] d2]; simpl in *.
  - match goal with |- (?c).1 ≠ _ → _ => destruct c as [r d3] eqn:E end.
    apply conf_of_rest in E as [_ E]. simpl. intros _. rewrite E, <-Ep. by apply Hx.
  - intros Hr. rewrite <-Ep. apply Hx. congruence.
Qed.

(** ** Success *)

Lemma merged_new_option desired current saved opt self :
  merged_net_state_new to_lowercase to_uppercase etc_hosts it desired current saved opt = Ok self →
  mn_option self = opt.
Proof.
  unfold merged_net_state_new. intros H. repeat case_match; simplify_eq; try done.
Qed.

(** What the verification saw of the state [self] that was applied. *)
Definition daemon_saw (self : MergedNetworkState) : Prop :=
  ∃ d1 state d2, daemon_query it query_default d1 = (Ok state, d2) ∧
    let state := pretend_config_is_saved state self in
    mn_verify self state = Ok () ∧
    verify_dns (mn_dns self) (dr_running (ns_dns_resolver state)) = Ok ().

Lemma eff_res_ok {A} (r : res A) (d : Daemon K) a d' : eff_res r d = (Ok a, d') → r = Ok a.
Proof. destruct r; by intros [= ->]. Qed.

Lemma daemon_verify_ok self d d' :
  daemon_verify it self d = (Ok (), d') → daemon_saw self.
Proof.
  unfold daemon_verify. intros (state & d1 & Hq & H)%eff_bind_ok.
  apply eff_bind_ok in H as ([] & d2 & Hv & H). apply eff_bind_ok in H as ([] & d3 & Hd & _).
  exists d, state, d1. split; [done|]. by apply eff_res_ok in Hv, Hd.
Qed.

Lemma daemon_verify_loop_ok n self result d d' :
  (n = O → is_ok result = false) →
  daemon_verify_loop it n self result d = (Ok (), d') → daemon_saw self.
Proof.
  revert result d. induction n as [|n IH]; intros result d Hr; cbn [daemon_verify_loop].
  { destruct result as [[]|e]; [specialize (Hr eq_refl); discriminate|intros [=]]. }
  intros ([[]|e] & d1 & H1 & H)%eff_bind_ok.
  - rewrite eff_try_ok in H1. by eapply daemon_verify_ok.
  - apply eff_bind_ok in H as ([] & d2 & _ & H). by eapply IH, H.
Qed.

(** The state [self] was applied: with the exception of what waits for a link, it was seen
    afterwards, unless that was not wanted; and if WIFI connections were requested, the
    wait for them ended well. *)
Definition seen_applied (self : MergedNetworkState) : Prop :=
  (no_verify (mn_option self) = false →
   ∃ env, daemon_saw (with_recreated (remove_conditional_activation env self))) ∧
  (should_wait_wifi_connect (mn_option self) = true →
   ∃ d1 b d2, daemon_wait it self d1 = (Ok b, d2)).

Lemma verify_count_pos self : (0 < verify_count self)%nat.
Proof. unfold verify_count, WIFI_VERIFY_COUNT, VERIFY_COUNT. destruct (existsb _ _); lia. Qed.

Lemma on_out_ok {A} (x : Eff K A) d a d' : on_out x d = (Ok a, d') → ∃ k, x (dm_out d) = (Ok a, k).
Proof. unfold on_out. destruct (x _) as [[]]; intros [= -> _]. eauto. Qed.

Lemma apply_once_ok self d d' :
  apply_merged_state_once to_lowercase it sort self d = (Ok (), d') → seen_applied self.
Proof.
  unfold apply_merged_state_once. intros (world & d1 & _ & H)%eff_bind_ok.
  apply eff_bind_ok in H as (applied & d2 & (k & Ha%apply_merged_state_ok)%on_out_ok & H).
  do 2 apply eff_bind_ok in H as ([] & ? & _ & H). apply eff_bind_ok in H as (waited & d5 & Hw & H).
  apply eff_bind_ok in H as ([] & d6 & _ & H). split.
  - intros Hn. rewrite Hn in H. exists (world_env world). change (daemon_saw (set_mn_ifaces (recreate_all
      (mn_ifaces (remove_conditional_activation world self))) (remove_conditional_activation world self))).
    rewrite <-Ha. eapply daemon_verify_loop_ok, H. pose proof (verify_count_pos self). lia.
  - intros Hs. rewrite Hs in Hw. eauto.
Qed.

Lemma apply_merged_ok self d d' : apply_merged self d = (Ok (), d') → seen_applied self.
Proof.
  unfold daemon_apply_merged_state. generalize (@None NipartError). revert d.
  induction APPLY_RETRY_MAX as [|n IH]; intros d last_err; cbn [apply_retries];
    [by destruct last_err|].
  intros ([[]|e] & d1 & H1 & H)%eff_bind_ok.
  - rewrite eff_try_ok in H1. by eapply apply_once_ok.
  - destruct (_ || _); [done|]. apply eff_bind_ok in H as ([] & d2 & _ & H). by eapply IH.
Qed.

Lemma inner_ok self state_to_save revert_state revert_dns d saved d' :
  inner self state_to_save revert_state revert_dns d = (Ok saved, d') → seen_applied self.
Proof.
  unfold apply_network_state_inner. intros ([[]|e] & d1 & H1 & H)%eff_bind_ok.
  - rewrite eff_try_ok in H1. by eapply apply_merged_ok.
  - by apply eff_bind_ok in H as (? & ? & _ & H).
Qed.


End Transaction.

(** ** Examples *)

#[local] Existing Instance box_kernel.
#[local] Existing Instance box_host.

(** A plugin that refuses what mentions [bad], no DHCP servers. *)
#[local] Instance box_plugins : Plugins Box := {|
  out_plugin_states _ _ b := (Ok [], b);
  out_plugin_apply s _ b :=
    (if existsb (λ i, String.eqb (iface_name i) "bad") (interfaces_iter (ns_ifaces s))
     then fail PluginFailure else Ok (), b);
  out_wifi_connect_error _ _ b := (Ok (), b);
  out_now := bx_ms;
  out_is_closed _ := false;
|}.

#[local] Instance box_dhcp : DhcpWorkers Box := {|
  out_dhcp _ _ b := (Ok (), b);
  out_dhcp_states _ b := (Ok ∅, b);
  out_dhcp_dns b := (Ok [], b);
|}.

(** The disk is full after a thousand seconds; after two thousand netlink cannot be opened. *)
#[local] Instance box_outside : Outside Box := {|
  out_conf_io b := if (1000000 <=? bx_ms b) && (bx_ms b <? 2000000)
                   then conf_io true true true false true true true "" else io_good;
  out_mudz_start _ _ := Ok ();
  out_mudz_notify _ := Ok ();
  out_world b := mk_world (ex_env 1) (bx_ms b <? 2000000) [] true (Ok ∅);
  out_meanwhile _ m := m;
|}.

#[local] Abbreviation ex_daemon_apply :=
  (daemon_apply ex_lower to_ascii_uppercase None ex_iteration ex_link_sort (λ _, Some "saved") (K:=Box)).

Definition ex_store : ConfStore := conf_store ns_default FileNotFound FileNotFound.

Definition ex_daemon (ms : Z) (m : Monitor) : Daemon Box :=
  daemon_of (box [] FileNotFound ms) ex_store (dns_worker None) m false.

Definition ex_bad : Interface := IfDummy (base_new "bad" TDummy).


Lemma daemon_apply_takes_pause_back_witness :
  manual_pause_count
    (dm_monitor (ex_daemon_apply (ex_wanted ex_bad) opt_new (ex_daemon 0 (monitor_new 0))).2) = 0.
Proof.
  refine (daemon_apply_takes_pause_back _ _ _ _ _ _ _ _ (ex_daemon 0 (monitor_new 0)) _ _ _).
  - reflexivity.
  - split; reflexivity.
  - assert (is_ok (match (ex_daemon_apply (ex_wanted ex_bad) opt_new (ex_daemon 0 (monitor_new 0))).1 with
                   | Err Panicked => fail Bug | _ => Ok () end) = true) as H by (vm_compute; reflexivity).
    intros E. rewrite E in H. discriminate H.
Defined.

(** A refused apply is tried again two seconds later, and then taken back; an accepted one is
    saved. *)
Example refused_apply_is_taken_back :
  let '(r, d) := ex_daemon_apply (ex_wanted ex_bad) opt_new (ex_daemon 0 (monitor_new 0)) in
  r = Err (Failed (nipart_error PluginFailure)) ∧ bx_ifaces (dm_out d) = [] ∧
  bx_ms (dm_out d) = 2000 ∧ dm_conf d = ex_store ∧
  let '(r, d) := ex_daemon_apply (ex_wanted ex_dummy) opt_new (ex_daemon 0 (monitor_new 0)) in
  is_ok r = true ∧ map iface_name (bx_ifaces (dm_out d)) = ["dummy0"] ∧
  map iface_name (interfaces_iter (ns_ifaces (cs_saved (dm_conf d)))) = ["dummy0"].
Proof. vm_compute. split_and!; reflexivity. Qed.

(** A state that cannot be saved is reported as applied: only the log says that it will be
    gone after a restart. *)
Example failed_save_is_a_success :
  let '(r, d) := ex_daemon_apply (ex_wanted ex_dummy) opt_new (ex_daemon 1000000 (monitor_new 0)) in
  is_ok r = true ∧ map iface_name (bx_ifaces (dm_out d)) = ["dummy0"] ∧
  cs_saved (dm_conf d) = ns_default.
Proof. vm_compute. split_and!; reflexivity. Qed.

(** An error after the state was applied and saved - here the links cannot be watched again -
    is reported without going back: the client sees a failure, the request is in effect. *)
Example late_error_keeps_the_change :
  let watching := upd_started (λ _, true) (upd_iface_monitor_list (λ _, {["eth0"]}) (monitor_new 0)) in
  let '(r, d) := ex_daemon_apply (ex_wanted ex_dummy) opt_new (ex_daemon 2000000 watching) in
  is_ok r = false ∧ map iface_name (bx_ifaces (dm_out d)) = ["dummy0"] ∧
  map iface_name (interfaces_iter (ns_ifaces (cs_saved (dm_conf d)))) = ["dummy0"].
Proof. vm_compute. split_and!; reflexivity. Qed.
