(* ===== verification/Boot.v ===== *)
(** * Boot: the saved state at the start of the daemon

    [src/daemon/commander.rs]: what of the saved configuration is applied when the daemon
    starts, before the links are watched, and the states of its other actions. *)

From S2P Require Export DaemonApply.

#[local] Open Scope Z_scope.

(** ** Repeated passes *)

(** A loop that repeats a pass until it changes nothing. *)
Fixpoint until_stable {S} (fuel : nat) (pass : S → S * bool) (s : S) : option S :=
  match fuel with
  | O => None
  | Datatypes.S fuel =>
      let '(s, changed) := pass s in
      if changed : bool then until_stable fuel pass s else Some s
  end.

Section Stable.
Context {S : Type} (pass : S → S * bool) (left_over : S → nat) (I : S → Prop).

(** A pass that changes something leaves less to do. *)
Lemma until_stable_ends fuel : ∀ s,
  (∀ s, I s → I (pass s).1) →
  (∀ s, I s → (pass s).2 = true → (left_over (pass s).1 < left_over s)%nat) →
  I s → (left_over s < fuel)%nat →
  ∃ s0 s', until_stable fuel pass s = Some s' ∧ I s0 ∧ I s' ∧ pass s0 = (s', false).
Proof.
  induction fuel as [|fuel IH]; intros s HI Hm Hs Hf; [lia|]. cbn [until_stable].
  pose proof (HI s Hs) as Hs'. pose proof (Hm s Hs) as Hl. destruct (pass s) as [s' changed] eqn:E.
  simpl in *. destruct changed; [|by exists s, s'].
  apply IH; [done..|]. specialize (Hl eq_refl). lia.
Qed.
End Stable.

(** ** Interfaces that are only activated by hand *)

Definition is_manual (iface : Interface) : bool :=
  bool_decide (bi_auto_connect (base_iface iface) = Some Manual).

Definition boot_dependency (iface : Interface) : option string :=
  option_or (bi_controller (base_iface iface)) (iface_parent iface).

(** The loop body of [remove_manual_activation]. *)
Definition exclude_step (st : list string * bool) (iface : Interface) : list string * bool :=
  let '(excluded, changed) := st in
  if bool_decide (iface_name iface ∈ excluded) then st
  else
    match boot_dependency iface with
    | Some dependency => if bool_decide (dependency ∈ excluded) then (excluded ++ [iface_name iface], true) else st
    | None => st
    end.

Definition exclude_pass (ifaces : list Interface) (excluded : list string) : list string * bool :=
  foldl exclude_step (excluded, false) ifaces.

Definition manual_names (ifaces : list Interface) : list string :=
  map iface_name (List.filter is_manual ifaces).

Definition excluded_at_boot (ifaces : list Interface) : option (list string) :=
  until_stable (S (length ifaces)) (exclude_pass ifaces) (manual_names ifaces).

Definition without_excluded (excluded : list string) (state : NetworkState) : NetworkState :=
  let keeps_name (n : option string) := match n with Some n => negb (bool_decide (n ∈ excluded)) | None => true end in
  let ifs := ns_ifaces state in
  let ifs := interfaces (foldl (λ m n, delete n m) (ifs_kernel ifs) excluded)
               (filter (λ e, e.1.1 ∉ excluded) (ifs_user ifs)) (insert_order ifs) (ifs_search ifs) in
  let state := set_ns_ifaces ifs state in
  let state := set_routes_config
    (List.filter (λ rt, keeps_name (rt_next_hop_iface rt)) <$> config (ns_routes state)) state in
  set_ns_route_rules (route_rules
    (List.filter (λ rule, keeps_name (rr_iif rule)) <$> rules_config (ns_route_rules state))) state.

(** [remove_manual_activation]; [None] if the loop did not end. *)
Definition remove_manual_activation (state : NetworkState) : option NetworkState :=
  (λ excluded, match excluded with [] => state | _ => without_excluded excluded state end)
    <$> excluded_at_boot (interfaces_iter (ns_ifaces state)).

(** ** What is not attached to a NIC *)

Definition virtual_iface_identity_names (iface : Interface) : list string :=
  [iface_name iface] ++
  (if String.eqb (kernel_iface_name iface) "" then [] else [kernel_iface_name iface]) ++
  option_list (bi_profile_name (base_iface iface)).

Definition boot_candidate (iface : Interface) : bool :=
  iface_is_virtual iface && negb (iface_is_absent iface) && negb (iface_is_ignore iface) &&
  negb (bool_decide (iface_type iface = TWifiCfg)).

Definition boot_dependencies (iface : Interface) : list string :=
  if iface_is_userspace iface then []
  else if iface_is_controller iface then default [] (iface_ports iface)
  else option_list (iface_parent iface).

(** The loop body of [gen_creatable_virtual_names]: the names that are ready, the result. *)
Definition Creatable : Type := (gset string * gset string)%type.

Definition creatable_step (st : Creatable * bool) (iface : Interface) : Creatable * bool :=
  let '((ready, ret), changed) := st in
  let names := virtual_iface_identity_names iface in
  if existsb (λ name, bool_decide (name ∈ ready)) names
  then ((ready, ret ∪ list_to_set names), changed)
  else if forallb (λ dep, bool_decide (dep ∈ ready)) (boot_dependencies iface)
  then ((ready ∪ list_to_set names, ret ∪ list_to_set names), true)
  else st.

Definition creatable_pass (ifaces : list Interface) (st : Creatable) : Creatable * bool :=
  foldl creatable_step (st, false) ifaces.

(** [gen_creatable_virtual_names]. *)
Definition gen_creatable_virtual_names (saved_state cur_state : NetworkState) : option (gset string) :=
  let ifaces := List.filter boot_candidate (interfaces_iter (ns_ifaces saved_state)) in
  snd <$> until_stable (S (length ifaces)) (creatable_pass ifaces)
            (dom (ifs_kernel (ns_ifaces cur_state)), ∅).

Definition boots_without_nic (iface : Interface) : bool :=
  iface_is_virtual iface && negb (bool_decide (iface_type iface = TWifiCfg)) && negb (iface_is_ignore iface).

Definition among (names : gset string) (n : option string) : bool :=
  match n with Some n => bool_decide (n ∈ names) | None => true end.

(** [gen_non_nic_state]. *)
Definition gen_non_nic_state (saved_state cur_state : NetworkState) : option NetworkState :=
  (λ creatable_names,
    let ifs := interfaces_new (List.filter boots_without_nic (interfaces_iter (ns_ifaces saved_state))) in
    let state := set_ns_ifaces ifs ns_default in
    let state :=
      match List.filter (λ rt, among creatable_names (rt_next_hop_iface rt))
              (default [] (config (ns_routes saved_state))) with
      | [] => state
      | rts => set_routes_config (Some rts) state
      end in
    match rules_config (ns_route_rules saved_state) with
    | Some rules => set_ns_route_rules (route_rules
                      (Some (List.filter (λ rule, among creatable_names (rr_iif rule)) rules))) state
    | None => state
    end) <$> gen_creatable_virtual_names saved_state cur_state.

(** ** States of other actions *)

(** [gen_wifi_off_purge_state]. *)
Definition wifi_off_purge (iface : Interface) : option Interface :=
  if bool_decide (iface_type iface = TWifiPhy) && iface_is_up iface && negb (iface_is_ignore iface)
  then Some (IfWifiPhy (set_bi_ipv6 (Some ipv6_new_disabled) (set_bi_ipv4 (Some ipv4_new_disabled)
               (base_new (kernel_iface_name iface) TWifiPhy))) None)
  else None.

Section Order.
(** The order of hash maps. *)
Context (it : Iteration).

Definition gen_wifi_off_purge_state (cur_state : NetworkState) : NetworkState :=
  set_ns_ifaces (interfaces_new (omap wifi_off_purge (it_kernel it (ifs_kernel (ns_ifaces cur_state))).*2))
    ns_default.

(** [match_kernel_iface_for_saved_iface]. *)
Definition kernel_iface_of (saved_iface cur_iface : Interface) : bool :=
  match saved_iface with
  | IfWifiCfg _ wifi =>
      match wifi_phy_ssid wifi with
      | Some ssid => bool_decide (iface_wifi_phy_ssid cur_iface = Some ssid)
      | None => false
      end
  | _ =>
      let base := base_iface saved_iface in
      let saved_mac := if bool_decide (bi_identifier base = Some IdMacAddress)
                       then to_ascii_uppercase <$> bi_mac_address base else None in
      String.eqb (kernel_iface_name saved_iface) (kernel_iface_name cur_iface) ||
      String.eqb (iface_name saved_iface) (kernel_iface_name cur_iface) ||
      match saved_mac with Some saved_mac => mac_of_iface_is saved_mac (base_iface cur_iface) | None => false end
  end.

Definition match_kernel_iface_for_saved_iface (saved_iface : Interface) (cur_state : NetworkState) :
    option Interface :=
  List.find (kernel_iface_of saved_iface) (it_kernel it (ifs_kernel (ns_ifaces cur_state))).*2.

(** [gen_saved_route_reconcile_state]. *)
Definition reconcile_saved_iface (saved_state cur_state : NetworkState) (iface_name_ : string)
    (ret : NetworkState * gset string) (saved_iface : Interface) : NetworkState * gset string :=
  let '(state, added) := ret in
  match match_kernel_iface_for_saved_iface saved_iface cur_state with
  | Some cur_iface =>
      if negb (String.eqb (kernel_iface_name cur_iface) iface_name_) then ret
      else
        match saved_routes_of saved_iface saved_state with
        | [] => ret
        | rts =>
            let state := extend_routes rts state in
            if bool_decide (iface_name saved_iface ∈ added) then (state, added)
            else (push_iface saved_iface state, {[iface_name saved_iface]} ∪ added)
        end
  | None => ret
  end.

Definition gen_saved_route_reconcile_state (saved_state cur_state : NetworkState)
    (iface_name_ : string) : NetworkState :=
  let '(state, _) := foldl (reconcile_saved_iface saved_state cur_state iface_name_) (ns_default, ∅)
                       (interfaces_iter (ns_ifaces saved_state)) in
  set_routes_config ((λ rts, dedup_routes (sort_routes rts)) <$> config (ns_routes state)) state.
End Order.

(** ** The exclusion is a closure *)

(** What must not come up at boot: the interfaces that are activated by hand, and those that
    depend on one that must not. *)
Inductive held_back_at_boot (ifaces : list Interface) : string → Prop :=
| held_manual i : i ∈ ifaces → is_manual i = true → held_back_at_boot ifaces (iface_name i)
| held_dependent i d : i ∈ ifaces → boot_dependency i = Some d → held_back_at_boot ifaces d →
    held_back_at_boot ifaces (iface_name i).

(** The passes of the loop, as they treat each interface. *)
Lemma exclude_step_cases st i :
  (exclude_step st i = st ∧
     (iface_name i ∈ st.1 ∨ (∀ d, boot_dependency i = Some d → d ∉ st.1))) ∨
  (exclude_step st i = (st.1 ++ [iface_name i], true) ∧ iface_name i ∉ st.1 ∧
     ∃ d, boot_dependency i = Some d ∧ d ∈ st.1).
Proof.
  destruct st as [excluded changed]. unfold exclude_step. case_bool_decide as H.
  { left. split; [done|by left]. }
  destruct (boot_dependency i) as [d|]; [|left; split; [done|right; by intros ? [=]]].
  case_bool_decide as Hd; [right; eauto|left]. split; [done|]. right. by intros ? [= <-].
Qed.

Lemma exclude_pass_inv (P : list string * bool → Prop) ifaces st :
  P st →
  (∀ st i, i ∈ ifaces → P st → iface_name i ∉ st.1 →
     (∃ d, boot_dependency i = Some d ∧ d ∈ st.1) → P (st.1 ++ [iface_name i], true)) →
  P (foldl exclude_step st ifaces).
Proof.
  revert st. induction ifaces as [|i ifaces IH]; intros st Hst Hstep; [done|]. simpl. apply IH.
  - destruct (exclude_step_cases st i) as [[-> _]|(-> & Hn & Hd)]; [done|].
    apply Hstep; [by left|done..].
  - intros st' i' Hi'. apply Hstep. by right.
Qed.

(** A pass that changes nothing has found every dependent excluded. *)
Lemma exclude_pass_stable ifaces e e' :
  exclude_pass ifaces e = (e', false) →
  e' = e ∧ ∀ i d, i ∈ ifaces → boot_dependency i = Some d → d ∈ e → iface_name i ∈ e.
Proof.
  unfold exclude_pass. induction ifaces as [|i ifaces IH]; cbn [foldl].
  { intros [= ->]. split; [done|]. by intros i d ?%elem_of_nil. }
  destruct (exclude_step_cases (e, false) i) as [[-> Hi]|(-> & _)].
  - intros [-> H]%IH. split; [done|]. intros j d [->|Hj]%elem_of_cons Hd Hin; [|by eapply H].
    destruct Hi as [|Hi]; [done|]. by apply Hi in Hd.
  - assert (∀ l st, st.2 = true → (foldl exclude_step st l).2 = true) as Hk.
    { intros l st H. by apply (exclude_pass_inv (λ st, st.2 = true) l). }
    intros H. specialize (Hk ifaces (e ++ [iface_name i], true) eq_refl). simpl in H. by rewrite H in Hk.
Qed.

Definition not_yet (ifaces : list Interface) (e : list string) : nat :=
  length (filter (λ i, iface_name i ∉ e) ifaces).

Lemma filter_length_less (P Q : Interface → Prop) `{!∀ i, Decision (P i)} `{!∀ i, Decision (Q i)} l i :
  (∀ j, Q j → P j) → i ∈ l → P i → ¬ Q i → (length (filter Q l) < length (filter P l))%nat.
Proof.
  intros HPQ Hi HP HQ.
  assert (∀ k, (length (filter Q k) ≤ length (filter P k))%nat) as Hle.
  { induction k as [|x k IH]; [done|]. rewrite !filter_cons.
    destruct (decide (Q x)) as [Hq|], (decide (P x)) as [|Hp]; simpl; try lia. by apply HPQ in Hq. }
  induction l as [|x l IH]; [by apply elem_of_nil in Hi|]. rewrite !filter_cons. specialize (Hle l).
  apply elem_of_cons in Hi as [<-|Hi].
  - rewrite decide_False, decide_True by done. simpl. lia.
  - specialize (IH Hi). destruct (decide (Q x)) as [Hq|], (decide (P x)) as [|Hp]; simpl; try lia.
    by apply HPQ in Hq.
Qed.

Lemma not_yet_less ifaces e e' i :
  e ⊆ e' → i ∈ ifaces → iface_name i ∉ e → iface_name i ∈ e' → (not_yet ifaces e' < not_yet ifaces e)%nat.
Proof.
  unfold not_yet. intros Hsub Hi Hn Hin. apply (filter_length_less _ _ _ i); [|done..| by intros []].
  intros j Hj Hje. by apply Hj, Hsub.
Qed.

Lemma exclude_pass_less ifaces e :
  (exclude_pass ifaces e).2 = true →
  (not_yet ifaces (exclude_pass ifaces e).1 < not_yet ifaces e)%nat.
Proof.
  intros Hc.
  assert (∀ l, l ⊆ ifaces → let st := foldl exclude_step (e, false) l in
    e ⊆ st.1 ∧ (st.2 = true → ∃ i, i ∈ ifaces ∧ iface_name i ∉ e ∧ iface_name i ∈ st.1)) as Hinv.
  { intros l Hl. apply (exclude_pass_inv (λ st, e ⊆ st.1 ∧
      (st.2 = true → ∃ i, i ∈ ifaces ∧ iface_name i ∉ e ∧ iface_name i ∈ st.1))); [done|].
    intros [e1 c1] i Hi [Hsub _] Hn _. simpl in *. split; [set_solver|]. intros _. exists i.
    split; [by apply Hl|]. set_solver. }
  destruct (Hinv ifaces) as [Hsub (i & Hi & Hn & Hin)]; [done|done|].
  by apply (not_yet_less ifaces e _ i).
Qed.

Lemma excluded_correct ifaces :
  ∃ e, excluded_at_boot ifaces = Some e ∧ ∀ n, n ∈ e ↔ held_back_at_boot ifaces n.
Proof.
  set (I e := (∀ n, n ∈ e → held_back_at_boot ifaces n) ∧ manual_names ifaces ⊆ e).
  destruct (until_stable_ends (exclude_pass ifaces) (not_yet ifaces) I (S (length ifaces))
    (manual_names ifaces)) as (s0 & e & He & [Hs Hm] & _ & Hst).
  - intros e [Hs Hm]. unfold exclude_pass.
    apply (exclude_pass_inv (λ st, I st.1)); [by split|].
    intros [e1 c1] i Hi [Hs1 Hm1] _ (d & Hd & Hin). split; simpl; [|set_solver].
    intros n [Hn| ->%list_elem_of_singleton]%elem_of_app; [by apply Hs1|].
    apply held_dependent with d; [done..|]. by apply Hs1.
  - intros e _. apply exclude_pass_less.
  - split; [|done]. intros n (i & -> & Hi)%list_elem_of_fmap. apply elem_of_lfilter in Hi as [Hi Hman].
    by apply held_manual.
  - unfold not_yet. pose proof (length_filter (λ i, iface_name i ∉ manual_names ifaces) ifaces). lia.
  - exists e. split; [done|]. apply exclude_pass_stable in Hst as [-> Hcl]. intros n. split; [apply Hs|].
    induction 1 as [i Hi Hman|i d Hi Hd _ IH]; [|by eapply Hcl].
    apply Hm, list_elem_of_fmap. exists i. split; [done|]. by apply elem_of_lfilter.
Qed.

Lemma lookup_deletes {A} (names : list string) (m : gmap string A) n :
  foldl (λ m n, delete n m) m names !! n = if bool_decide (n ∈ names) then None else m !! n.
Proof.
  revert m. induction names as [|x l IH]; intros m; cbn [foldl]; [done|]. rewrite IH.
  destruct (decide (n = x)) as [->|Hx].
  - rewrite lookup_delete_eq. rewrite (bool_decide_eq_true_2 (x ∈ x :: l)) by by left. by case_bool_decide.
  - rewrite lookup_delete_ne by done. rewrite (bool_decide_ext (n ∈ x :: l) (n ∈ l)); [done|].
    rewrite elem_of_cons. naive_solver.
Qed.

(** The user's key, or the name used by a route or a rule, is not held back. *)
Definition boots_with (ifaces : list Interface) (n : option string) : Prop :=
  ∀ x, n = Some x → ¬ held_back_at_boot ifaces x.


(** ** What can be created at boot *)

Section Creatable.
Context (kernel : gset string) (candidates : list Interface).

Definition names_of (i : Interface) : list string := virtual_iface_identity_names i.

(** The names that exist after the apply: those of the kernel, and those of an interface that
    does not exist yet and all of whose dependencies do. *)
Inductive exists_after_boot : string → Prop :=
| exists_in_kernel n : n ∈ kernel → exists_after_boot n
| exists_created i n : i ∈ candidates → (∀ m, m ∈ names_of i → m ∉ kernel) → n ∈ names_of i →
    (∀ d, d ∈ boot_dependencies i → exists_after_boot d) → exists_after_boot n.

(** Different interfaces have different names. *)
Context (names_distinct : ∀ i j n, i ∈ candidates → j ∈ candidates → n ∈ names_of i → n ∈ names_of j →
  i = j).

Record creatable_inv (st : Creatable) : Prop := {
  ci_kernel : kernel ⊆ st.1;
  ci_sound : ∀ n, n ∈ st.1 → exists_after_boot n;
  ci_whole : ∀ n, n ∈ st.1 → n ∈ kernel ∨
    ∃ i, i ∈ candidates ∧ n ∈ names_of i ∧ ∀ m, m ∈ names_of i → m ∈ st.1;
  ci_ret : ∀ n, n ∈ st.2 → ∃ i m, i ∈ candidates ∧ n ∈ names_of i ∧ m ∈ names_of i ∧ m ∈ st.1;
}.

Lemma creatable_step_cases st c i :
  (creatable_step (st, c) i = ((st.1, st.2 ∪ list_to_set (names_of i)), c) ∧
     ∃ m, m ∈ names_of i ∧ m ∈ st.1) ∨
  (creatable_step (st, c) i =
     ((st.1 ∪ list_to_set (names_of i), st.2 ∪ list_to_set (names_of i)), true) ∧
     (∀ m, m ∈ names_of i → m ∉ st.1) ∧ ∀ d, d ∈ boot_dependencies i → d ∈ st.1) ∨
  (creatable_step (st, c) i = (st, c) ∧ (∀ m, m ∈ names_of i → m ∉ st.1) ∧
     ∃ d, d ∈ boot_dependencies i ∧ d ∉ st.1).
Proof.
  destruct st as [ready ret]. unfold creatable_step. fold (names_of i).
  destruct (existsb _ (names_of i)) eqn:En.
  { left. split; [done|]. apply existsb_exists in En as (m & Hm & Hr%bool_decide_eq_true).
    exists m. by apply list_elem_of_In in Hm. }
  right. assert (∀ m, m ∈ names_of i → m ∉ ready) as Hn.
  { intros m Hm Hr. enough (existsb (λ name, bool_decide (name ∈ ready)) (names_of i) = true) by congruence.
    apply existsb_exists. exists m. rewrite <-list_elem_of_In. split; [done|]. by apply bool_decide_eq_true. }
  destruct (forallb _ _) eqn:Ed.
  - left. split; [done|]. split; [done|]. intros d Hd. rewrite forallb_forall in Ed.
    apply list_elem_of_In in Hd. by apply Ed, bool_decide_eq_true in Hd.
  - right. split; [done|]. split; [done|].
    destruct (decide (Forall (λ d, d ∈ ready) (boot_dependencies i))) as [HF|HF].
    + rewrite Forall_forall in HF. apply not_true_iff_false in Ed. destruct Ed.
      apply forallb_forall. intros d Hd%list_elem_of_In. by apply bool_decide_eq_true, HF.
    + apply not_Forall_Exists in HF; [|apply _]. apply Exists_exists in HF as (d & Hd & Hn'). by exists d.
Qed.

Lemma iface_name_named i : iface_name i ∈ names_of i.
Proof. by left. Qed.

#[local] Opaque names_of.

Lemma creatable_step_inv st c i :
  i ∈ candidates → creatable_inv st → creatable_inv (creatable_step (st, c) i).1.
Proof.
  intros Hi [Hk Hs Hw Hr].
  destruct (creatable_step_cases st c i) as [[-> (m & Hm & Hin)]|[(-> & Hn & Hd)|[-> _]]]; [| |done].
  - split; [done..|]. simpl. intros n [Hn|Hn%elem_of_list_to_set]%elem_of_union; [by apply Hr|].
    by exists i, m.
  - split; simpl.
    + set_solver.
    + intros n [Hin|Hin%elem_of_list_to_set]%elem_of_union; [by apply Hs|].
      apply exists_created with i; [done| |done|]; [|intros d ?; by apply Hs, Hd].
      intros m Hm Hmk. by apply (Hn m), Hk.
    + intros n [Hin|Hin%elem_of_list_to_set]%elem_of_union.
      * destruct (Hw n Hin) as [|(j & Hj & Hnj & Hall)]; [by left|right]. exists j.
        split_and!; [done..|]. intros m Hm. apply elem_of_union_l. by apply Hall.
      * right. exists i. split_and!; [done..|]. intros m Hm. apply elem_of_union_r.
        by apply elem_of_list_to_set.
    + intros n [Hin|Hin%elem_of_list_to_set]%elem_of_union.
      * destruct (Hr n Hin) as (j & m & Hj & ? & ? & ?). exists j, m. split_and!; [done..|].
        by apply elem_of_union_l.
      * exists i, n. split_and!; [done..|]. by apply elem_of_union_r, elem_of_list_to_set.
Qed.

Lemma creatable_pass_inv l st c :
  l ⊆ candidates → creatable_inv st → creatable_inv (foldl creatable_step (st, c) l).1.
Proof.
  revert st c. induction l as [|i l IH]; intros st c Hl Hst; [done|]. cbn [foldl].
  destruct (creatable_step (st, c) i) as [st' c'] eqn:E.
  apply IH; [set_solver|]. pose proof (creatable_step_inv st c i) as H. rewrite E in H.
  apply H; [set_solver|done].
Qed.

(** What a pass leaves alone, and when it reports no change. *)
Lemma creatable_pass_grows l st c :
  let r := foldl creatable_step (st, c) l in
  st.1 ⊆ r.1.1 ∧ st.2 ⊆ r.1.2 ∧ (c = true → r.2 = true).
Proof.
  revert st c. induction l as [|i l IH]; intros st c; [done|]. cbn [foldl].
  destruct (creatable_step_cases st c i) as [[-> _]|[(-> & _)|[-> _]]].
  - destruct (IH (st.1, st.2 ∪ list_to_set (names_of i)) c) as (H1 & H2 & H3). simpl in *. set_solver.
  - destruct (IH (st.1 ∪ list_to_set (names_of i), st.2 ∪ list_to_set (names_of i)) true) as (H1 & H2 & H3).
    simpl in *. set_solver.
  - apply IH.
Qed.

(** A pass without a change: nothing more became ready; what has a name that is ready is in the
    result; everything else lacks a dependency. *)
Lemma creatable_pass_stable l st st' :
  foldl creatable_step (st, false) l = (st', false) →
  st'.1 = st.1 ∧
  ∀ i, i ∈ l → (∃ m, m ∈ names_of i ∧ m ∈ st.1) ∧ (∀ n, n ∈ names_of i → n ∈ st'.2) ∨
               (∀ m, m ∈ names_of i → m ∉ st.1) ∧ (∃ d, d ∈ boot_dependencies i ∧ d ∉ st.1).
Proof.
  revert st. induction l as [|i l IH]; intros st; cbn [foldl].
  { intros [= ->]. split; [done|]. by intros i ?%elem_of_nil. }
  destruct (creatable_step_cases st false i) as [[-> (m & Hm & Hin)]|[(-> & _)|[-> Hd]]].
  - intros H. pose proof (creatable_pass_grows l (st.1, st.2 ∪ list_to_set (names_of i)) false) as Hg.
    unfold Creatable in *. rewrite H in Hg. destruct Hg as (_ & Hg & _). apply IH in H as [-> H]. split; [done|].
    intros j [->|Hj]%elem_of_cons; [|by apply H]. left. split; [by exists m|].
    intros n Hn. apply Hg. simpl. apply elem_of_union_r. by apply elem_of_list_to_set.
  - intros H.
    pose proof (creatable_pass_grows l (st.1 ∪ list_to_set (names_of i), st.2 ∪ list_to_set (names_of i)) true) as Hg.
    unfold Creatable in *. rewrite H in Hg. destruct Hg as (_ & _ & Hg). by specialize (Hg eq_refl).
  - intros [-> H]%IH. split; [done|]. intros j [->|Hj]%elem_of_cons; [by right|by apply H].
Qed.

Definition unready (st : Creatable) : nat :=
  length (filter (λ i, Forall (λ m, m ∉ st.1) (names_of i)) candidates).
Lemma creatable_pass_less st :
  (creatable_pass candidates st).2 = true →
  (unready (creatable_pass candidates st).1 < unready st)%nat.
Proof.
  unfold creatable_pass. intros Hc.
  assert (∀ l (st1 : Creatable), l ⊆ candidates → st.1 ⊆ st1.1 → (foldl creatable_step (st1, false) l).2 = true →
    ∃ i, i ∈ candidates ∧ Forall (λ m, m ∉ st.1) (names_of i) ∧
      (∃ m, m ∈ names_of i ∧ m ∈ (foldl creatable_step (st1, false) l).1.1)) as Hex.
  { induction l as [|i l IH]; intros st1 Hl Hsub; [done|]. cbn [foldl].
    destruct (creatable_step_cases st1 false i) as [[-> _]|[(-> & Hn & _)|[-> _]]].
    - apply IH; set_solver.
    - intros _. exists i. split; [set_solver|]. split; [apply Forall_forall; set_solver|].
      exists (iface_name i). pose proof (iface_name_named i) as Hin. split; [done|].
      pose proof (creatable_pass_grows l (st1.1 ∪ list_to_set (names_of i), st1.2 ∪ list_to_set (names_of i)) true)
        as (Hg & _). apply Hg. simpl. apply elem_of_union_r. by apply elem_of_list_to_set.
    - apply IH; set_solver. }
  destruct (Hex candidates st) as (i & Hi & Hno & m & Hm & Hin); [done..|].
  pose proof (creatable_pass_grows candidates st false) as (Hg & _).
  apply (filter_length_less (λ i, Forall (λ m, m ∉ st.1) (names_of i)) _ _ i); [|done|done|].
  - intros j. rewrite !Forall_forall. set_solver.
  - rewrite Forall_forall. intros Hall. by apply (Hall m).
Qed.

Lemma creatable_correct :
  ∃ st, until_stable (S (length candidates)) (creatable_pass candidates) (kernel, ∅) = Some st ∧
    ∀ n, n ∈ st.2 ↔ ∃ i m, i ∈ candidates ∧ n ∈ names_of i ∧ m ∈ names_of i ∧ exists_after_boot m.
Proof.
  destruct (until_stable_ends (creatable_pass candidates) unready creatable_inv
    (S (length candidates)) (kernel, ∅)) as (st0 & st & He & Hi0 & [_ Hs Hw Hr] & Hst).
  - intros st Hst. by apply creatable_pass_inv.
  - intros st _. apply creatable_pass_less.
  - split; simpl; [done| |by left|set_solver]. intros n Hn. by apply exists_in_kernel.
  - unfold unready. pose proof (length_filter (λ i, Forall (λ m, m ∉ (kernel, ∅ : gset string).1) (names_of i)) candidates). lia.
  - exists st. split; [done|]. unfold creatable_pass in Hst.
    apply creatable_pass_stable in Hst as [Heq Hcl]. rewrite Heq in *. intros n. split.
    + intros (i & m & Hi & Hn & Hm & Hin)%Hr. exists i, m. split_and!; [done..|]. by apply Hs.
    + intros (i & m & Hi & Hn & Hm & Hex).
      assert (∀ n, exists_after_boot n → n ∈ st0.1) as Hcomplete.
      { clear n Hn m Hm Hex. induction 1 as [n Hn|j n Hj Hfresh Hn _ IH]; [by apply (ci_kernel _ Hi0)|].
        destruct (Hcl j Hj) as [[(m & Hm & Hin) _]|(_ & d & Hd & Hnd)].
        - destruct (Hw m Hin) as [Hk|(j' & Hj' & Hm' & Hall)]; [by apply Hfresh in Hk|].
          rewrite (names_distinct j j' m) in Hn by done. by apply Hall.
        - by apply IH in Hd. }
      destruct (Hcl i Hi) as [[_ Hret]|(Hno & _)]; [by apply Hret|].
      by apply Hcomplete, (Hno m) in Hex.
Qed.
End Creatable.


(** ** The start of the daemon *)

Section Start.
Context {Num : Type} `{!EqDecision Num} `{!Serde Num Interface} `{!Serde Num (list AltNameEntry)}.
Context (to_lowercase to_uppercase : string → string) (etc_hosts : option string) (it : Iteration)
  (sort : LinkSort) (to_yaml : NetworkState → option string).
Context {K : Type} `{!Kernel K} `{!Host K} `{!DhcpWorkers K} `{!Plugins K} `{!Outside K}.

(** [NipartCommander::restore_saved_dns_resolver]. *)
Definition daemon_restore_dns (saved : DnsResolver) (saved_state : NetworkState) : Eff (Daemon K) () :=
  dhcp_info ← on_out (eff_call out_dhcp_dns);
  let auto_dns := collect_auto_dns to_lowercase dhcp_info (ns_ifaces saved_state) None in
  on_dns_host (λ k, restore_saved_dns_resolver to_lowercase (out_mudz_start k) (out_can_write k) saved auto_dns).

(** A loop that ended. *)
Definition stable {A} (x : option A) : Eff (Daemon K) A :=
  match x with Some a => mret a | None => eff_fail Bug end.

(** [boot_apply_inner]. *)
Definition boot_apply_inner : Eff (Daemon K) () :=
  saved_state ← query_conf;
  saved_state ← stable (remove_manual_activation saved_state);
  _ ← (if resolver_is_empty (ns_dns_resolver saved_state) then mret (Ok ())
       else eff_try (daemon_restore_dns (ns_dns_resolver saved_state) saved_state));
  cur_state ← on_out (query_network_state it query_default);
  non_nic_state ← stable (gen_non_nic_state saved_state cur_state);
  _ ← (if ns_is_empty non_nic_state then mret (Ok ns_default)
       else eff_try (apply_with_saved_config to_lowercase to_uppercase etc_hosts it sort to_yaml
                       non_nic_state (opt_restart_auto_ip (opt_memory_only (opt_no_verify opt_new)))
                       (Some saved_state)));
  cur ← eff_try (on_out (query_network_state it query_default));
  _ ← on_monitor (λ k, setup_saved_state_monitors (out_world k) (ns_ifaces saved_state)
                         (match cur with Ok s => Ok (ns_ifaces s) | Err e => Err e end) true);
  dm_exec Start.

(** [boot_apply]. *)
Definition boot_apply : Eff (Daemon K) () :=
  r ← eff_try boot_apply_inner;
  match r with
  | Ok _ => mret ()
  | Err e => _ ← eff_try (dm_exec Start); eff_res (Err e)
  end.

Lemma exec_start_started w m : started (exec w Start m).2 = true.
Proof.
  unfold exec, process_cmd. rewrite gets_bind. destruct (started m) eqn:Es; [done|].
  rewrite modify_bind, gets_bind. set (m1 := upd_started _ m).
  assert (∀ x : Mon (), keeps_part started x →
    keeps_part started (x;; modify (upd_next_reconcile (λ _, env_instant w + reconcile_interval w)))) as Hend
    by (intros x Hx; apply keeps_bind; [done|by intros _ m2]).
  assert (∀ m m', session_of m' = session_of m → started m' = started m) as Hses by (by intros ? ? [= ?]).
  assert (started m1 = true) as <- by done. refine (Hend _ _ m1). destruct (should_resume m1).
  - intros m2. rewrite (Hses _ _ (start_and_dump_session w m2)). by rewrite (proj1 (resume_session w _)).
  - intros m2. apply Hses, keeps_send_cmd.
Qed.
Lemma dm_exec_start d : started (dm_monitor (dm_exec Start d).2) = true.
Proof.
  unfold dm_exec, on_monitor. pose proof (exec_start_started (out_world (dm_out d)) (dm_monitor d)) as H.
  by destruct (exec _ _ _).
Qed.

(** The daemon listens to the links. *)
Definition listens (d : Daemon K) : Prop := started (dm_monitor d) = true.

Lemma bind_start_listens {A} (x : Eff (Daemon K) A) d r d' :
  (x ≫= λ _, dm_exec Start) d = (Ok r, d') → listens d'.
Proof.
  intros (a & d1 & _ & H)%eff_bind_ok. unfold listens. rewrite <-(dm_exec_start d1). by rewrite H.
Qed.

(** However loading the saved state ends - unless the daemon panicked -, the monitor is
    started: a failure at boot never leaves the daemon deaf to the events of the links. *)
Theorem boot_always_listens d :
  (boot_apply d).1 ≠ Err Panicked → listens (boot_apply d).2.
Proof.
  unfold boot_apply. rewrite eff_bind_run. unfold eff_try at 1 3.
  destruct (boot_apply_inner d) as [[[]|[e|]] d1] eqn:E; simpl; [| |done].
  - intros _. revert E. unfold boot_apply_inner.
    do 7 (intros (? & ? & _ & H)%eff_bind_ok; revert H). by apply bind_start_listens.
  - rewrite eff_bind_run. pose proof (dm_exec_start d1) as H. unfold eff_try.
    destruct (dm_exec Start d1) as [[[]|[e'|]] d2] eqn:Es; simpl in *; [done..|].
    unfold dm_exec, on_monitor in Es. by destruct (exec _ _ _) as [[] ?].
Qed.
End Start.

(** ** Examples *)

#[local] Transparent names_of.

Definition boot_vlan (name base : string) : Interface :=
  IfVlan (set_bi_kernel_iface_name name (base_new name TVlan)) (Some (vlan_config (Some base) (Some 10) None None None None None None None)).

Definition boot_saved (l : list Interface) : NetworkState := set_ns_ifaces (interfaces_new l) ns_default.

Definition boot_dummy (name kernel : string) : Interface :=
  IfDummy (set_bi_kernel_iface_name kernel (base_new name TDummy)).

(** A VLAN on a VLAN on an interface that is created at boot as well. *)
Definition boot_stack : list Interface :=
  [boot_vlan "d0.1.2" "d0.1"; boot_vlan "d0.1" "d0"; boot_dummy "d0" "d0"].


Example boot_stack_is_created :
  gen_creatable_virtual_names (boot_saved boot_stack) ns_default = Some {["d0"; "d0.1"; "d0.1.2"]}.
Proof. vm_compute. reflexivity. Qed.

(** The names of an interface the kernel already has are not ready, only its kernel name is:
    when the daemon is started again, the VLAN on the profile "lab" counts as one that
    cannot be created, and its routes are left out. *)
Example alias_of_existing_is_not_ready :
  let saved := boot_saved [boot_dummy "lab" "d0"; boot_vlan "d0.1" "lab"] in
  gen_creatable_virtual_names saved ns_default = Some {["lab"; "d0"; "d0.1"]} ∧
  gen_creatable_virtual_names saved (boot_saved [boot_dummy "d0" "d0"]) = Some {["lab"; "d0"]}.
Proof. split; vm_compute; reflexivity. Qed.

Definition by_hand (i : Interface) : Interface := upd_base (set_bi_auto_connect (Some Manual)) i.

Definition left_at_boot (l : list Interface) : option (list string) :=
  (λ s, map iface_name (interfaces_iter (ns_ifaces s))) <$> remove_manual_activation (boot_saved l).

(** The excluded interfaces are looked up under their profile names, but stored under their
    kernel names: a profile with a name of its own stays, and is applied at boot. *)
Example named_profile_stays_up :
  left_at_boot [by_hand (boot_dummy "d0" "d0")] = Some [] ∧
  left_at_boot [by_hand (boot_dummy "lab" "d0")] = Some ["lab"].
Proof. split; vm_compute; reflexivity. Qed.

(** Only the controller of an interface that has one is looked at: a VLAN that is a port of a
    bridge comes up although the NIC below it is activated by hand. *)
Example port_on_manual_parent_stays_up :
  left_at_boot [by_hand (boot_dummy "d0" "d0"); boot_vlan "d0.1" "d0"] = Some [] ∧
  left_at_boot [by_hand (boot_dummy "d0" "d0");
                upd_base (set_bi_controller (Some "br0")) (boot_vlan "d0.1" "d0")] = Some ["d0.1"].
Proof. split; vm_compute; reflexivity. Qed.

#[local] Existing Instance box_kernel.
#[local] Existing Instance box_host.
#[local] Existing Instance box_plugins.
#[local] Existing Instance box_dhcp.
#[local] Existing Instance box_outside.

Lemma boot_always_listens_witness :
  listens (boot_apply ex_lower to_ascii_uppercase None ex_iteration ex_link_sort (λ _, Some "saved")
             (ex_daemon 0 (monitor_new 0))).2.
Proof.
  refine (boot_always_listens _ _ _ _ _ _ (ex_daemon 0 (monitor_new 0)) _).
  assert (is_ok match (boot_apply ex_lower to_ascii_uppercase None ex_iteration ex_link_sort
                         (λ _, Some "saved") (ex_daemon 0 (monitor_new 0))).1 with
                | Err Panicked => fail Bug | _ => Ok () end = true) as H by (vm_compute; reflexivity).
  intros E. rewrite E in H. discriminate H.
Defined.
