(* ===== verification/IfaceAction.v ===== *)
(** * IfaceAction: the actions on one interface, and the requests of the clients

    [src/daemon/iface_action.rs]: bringing an interface or a saved profile up or down
    without changing what is saved.  [api.rs]: which client may ask for what, and what is
    done for it.  [wait_online.rs]: the wait for the online state.  The lock that orders the
    requests is taken around each of them. *)

From S2P Require Export Boot.

#[local] Open Scope Z_scope.

(** ** States of an action *)

Definition iface_matches_name (name : string) (iface : Interface) : bool :=
  String.eqb (iface_name iface) name || String.eqb (kernel_iface_name iface) name ||
  bool_decide (bi_profile_name (base_iface iface) = Some name).

Definition find_saved_iface (saved_state : NetworkState) (name : string) : option Interface :=
  List.find (iface_matches_name name) (interfaces_iter (ns_ifaces saved_state)).

Definition saved_iface_or_error (saved_state : NetworkState) (name : string) : res Interface :=
  match find_saved_iface saved_state name with
  | Some iface => Ok iface
  | None => fail InvalidArgument
  end.

(** Lists that are only set when they hold something. *)
Definition with_routes (rts : list RouteEntry) (s : NetworkState) : NetworkState :=
  match rts with [] => s | _ => set_routes_config (Some rts) s end.

Definition with_rules (rules : list RouteRuleEntry) (s : NetworkState) : NetworkState :=
  match rules with [] => s | _ => set_ns_route_rules (route_rules (Some rules)) s end.

(** [gen_routes_for_iface_down], [gen_route_rules_for_iface_down]. *)
Definition action_routes_down (saved_iface : Interface) (saved_state : NetworkState) : list RouteEntry :=
  map set_absent (saved_routes_of saved_iface saved_state).

Definition action_rules_down (saved_iface : Interface) (saved_state : NetworkState) : list RouteRuleEntry :=
  map (set_rr_state (Some RuleAbsent)) (gen_route_rules_for_iface_up saved_iface saved_state).

Definition gen_state_for_up (saved_iface : Interface) (saved_state : NetworkState) : NetworkState :=
  let state := push_iface (activated saved_iface) ns_default in
  if iface_is_userspace saved_iface then state
  else with_rules (gen_route_rules_for_iface_up saved_iface saved_state)
         (with_routes (saved_routes_of saved_iface saved_state) state).

(** [same_saved_iface]. *)
Definition same_saved_iface (a b : Interface) : bool :=
  String.eqb (iface_name a) (iface_name b) ||
  (negb (String.eqb (kernel_iface_name a) "") && String.eqb (kernel_iface_name a) (kernel_iface_name b)) ||
  match bi_profile_name (base_iface a), bi_profile_name (base_iface b) with
  | Some a_name, Some b_name => String.eqb a_name b_name
  | _, _ => false
  end.

Definition wifi_cfg_down_profile (target saved_iface : Interface) : Interface :=
  upd_base (λ b, set_bi_state (if same_saved_iface saved_iface target then SDown else SUp)
                   (set_bi_auto_connect None b)) saved_iface.

Definition gen_wifi_cfg_down_state (saved_state : NetworkState) (target : Interface) : NetworkState :=
  foldl (λ s i, push_iface (wifi_cfg_down_profile target i) s) ns_default
    (List.filter (λ i, bool_decide (iface_type i = TWifiCfg)) (interfaces_iter (ns_ifaces saved_state))).

(** What becomes of an interface that is brought down. *)
Definition brought_down (iface : Interface) : Interface :=
  upd_base (λ b, set_bi_ipv6 (Some ipv6_new_purge_keep_link_local)
    (set_bi_ipv4 (Some ipv4_new_disabled)
      (set_bi_state (if iface_is_virtual iface then SAbsent else SDown) (set_bi_auto_connect None b)))) iface.

Definition gen_state_for_down (saved_iface : Interface) (saved_state : NetworkState) : NetworkState :=
  if bool_decide (iface_type saved_iface = TWifiCfg) then gen_wifi_cfg_down_state saved_state saved_iface
  else with_rules (action_rules_down saved_iface saved_state)
         (with_routes (action_routes_down saved_iface saved_state)
            (push_iface (brought_down saved_iface) ns_default)).

Definition gen_state_for_down_current_only (cur_iface : Interface) : NetworkState :=
  push_iface (brought_down cur_iface) ns_default.

(** ** Clients *)

Record NipartWifiScanOption : Type := wifi_scan_option {
  so_iface_name : option string;
  so_hidden_ssids : list string;
  so_dump : bool;
}.

Inductive NipartWifiControl : Type := WifiOn | WifiOff.

Inductive NipartClientCmd : Type :=
| Ping
| QueryNetworkState (opt : NipartQueryOption)
| ApplyNetworkState (desired_state : NetworkState) (opt : NipartApplyOption)
| UpInterface (name : string)
| DownInterface (name : string)
| WaitOnline
| WifiScan (opt : NipartWifiScanOption)
| WifiControl (control : NipartWifiControl).

(** [permission_check]. *)
Definition permission_check (command : NipartClientCmd) (peer_uid : Z) : res () :=
  if peer_uid =? 0 then Ok ()
  else
    match command with
    | Ping | WaitOnline => Ok ()
    | QueryNetworkState s => if qo_include_secrets s then fail PermissionDeny else Ok ()
    | WifiScan s => if so_dump s then Ok () else fail PermissionDeny
    | _ => fail PermissionDeny
    end.

(** The operations of the WIFI plugin that no state describes; [WifiScanResult] is what it
    answers with. *)
Class Radio (WifiScanResult K : Type) : Type := {
  out_wifi_scan : NipartWifiScanOption → K → res (list WifiScanResult) * K;
  out_wifi_control : NipartWifiControl → K → res () * K;
}.

Inductive Reply (WifiScanResult : Type) : Type :=
| Pong
| ReplyState (state : NetworkState)
| ReplyUnit
| ReplyScan (l : list WifiScanResult).
Arguments Pong {_}. Arguments ReplyState {_}. Arguments ReplyUnit {_}. Arguments ReplyScan {_}.

Definition IFACE_ACTION_WAIT_TIMEOUT_SECS : Z := 60.
Definition IFACE_ACTION_WAIT_INTERVAL_MS : Z := 500.

(** The rounds that fit into this wait. *)
Definition ACTION_ROUNDS : nat := 121.

Section Actions.
Context {Num : Type} `{!EqDecision Num} `{!Serde Num Interface} `{!Serde Num (list AltNameEntry)}.
Context (to_lowercase to_uppercase : string → string) (etc_hosts : option string) (it : Iteration)
  (sort : LinkSort) (to_yaml : NetworkState → option string).
Context {WifiScanResult K : Type} `{!Kernel K} `{!Host K} `{!DhcpWorkers K} `{!Plugins K} `{!Outside K}
  `{!Radio WifiScanResult K}.

#[local] Abbreviation apply_saved :=
  (apply_with_saved_config to_lowercase to_uppercase etc_hosts it sort to_yaml (K:=K)).

(** [check_up_interface]. *)
Definition check_up_interface (name : string) : Eff (Daemon K) () :=
  saved_state ← query_conf;
  _ ← eff_res (saved_iface_or_error saved_state name);
  mret ().

Definition opt_force (o : NipartApplyOption) : NipartApplyOption :=
  apply_option (no_verify o) (memory_only o) (dhcp_in_no_daemon o) (restart_auto_ip o) true
    (no_wifi_connect_wait o).

Definition opt_no_wifi_connect_wait (o : NipartApplyOption) : NipartApplyOption :=
  apply_option (no_verify o) (memory_only o) (dhcp_in_no_daemon o) (restart_auto_ip o) (force o) true.

(** [up_interface]. *)
Definition up_interface (name : string) : Eff (Daemon K) NetworkState :=
  saved_state ← query_conf;
  saved_iface ← eff_res (saved_iface_or_error saved_state name);
  _ ← on_monitor (λ k, clear_explicitly_down (out_world k) saved_iface);
  apply_saved (gen_state_for_up saved_iface saved_state)
    (opt_restart_auto_ip (opt_force (opt_memory_only opt_new))) None.

(** The state and the interface of [down_interface]. *)
Definition down_target (name : string) : Eff (Daemon K) (NetworkState * Interface) :=
  saved_state ← query_conf;
  match find_saved_iface saved_state name with
  | Some saved_iface => mret (gen_state_for_down saved_iface saved_state, saved_iface)
  | None =>
      cur_state ← daemon_query it query_default;
      match List.find (iface_matches_name name) (interfaces_iter (ns_ifaces cur_state)) with
      | Some cur_iface => mret (gen_state_for_down_current_only cur_iface, cur_iface)
      | None => eff_fail InvalidArgument
      end
  end.

(** [down_interface]. *)
Definition down_interface (name : string) : Eff (Daemon K) NetworkState :=
  target ← down_target name;
  let '(desired_state, marked_iface) := target in
  _ ← on_monitor (λ k, mark_explicitly_down (out_world k) marked_iface);
  result ← eff_try (apply_saved desired_state
                      (opt_no_wifi_connect_wait (opt_force (opt_memory_only opt_new))) None);
  _ ← (match result with
       | Ok _ => mret (Ok ())
       | Err _ => eff_try (on_monitor (λ k, clear_explicitly_down (out_world k) marked_iface))
       end);
  eff_res result.

(** [wait_for_iface_action]; [false] if there are no more rounds. *)
Definition action_seen (wifi : WifiConfig) (cur_iface : Interface) : bool :=
  negb (iface_is_ignore cur_iface) &&
  bool_decide (iface_wifi_phy_ssid cur_iface = Some (wifi_ssid wifi)) &&
  match wifi_base_iface wifi with
  | None => true
  | Some base => String.eqb base (kernel_iface_name cur_iface) || String.eqb base (iface_name cur_iface)
  end.

Fixpoint action_loop (fuel : nat) (wifi : WifiConfig) (is_up : bool) (deadline : Z) : Eff (Daemon K) bool :=
  match fuel with
  | O => mret false
  | S fuel =>
      cur_state ← daemon_query it query_default;
      let connected := existsb (action_seen wifi) (map_to_list (ifs_kernel (ns_ifaces cur_state))).*2 in
      if Bool.eqb connected is_up then mret true
      else
        time ← eff_get (λ d, out_now (dm_out d));
        if deadline <=? time then eff_fail ETimeout
        else
          _ ← dm_sleep IFACE_ACTION_WAIT_INTERVAL_MS;
          action_loop fuel wifi is_up deadline
  end.

Definition wait_for_iface_action (name : string) (is_up : bool) : Eff (Daemon K) bool :=
  saved_state ← query_conf;
  match find_saved_iface saved_state name with
  | Some (IfWifiCfg _ (Some wifi)) =>
      time ← eff_get (λ d, out_now (dm_out d));
      action_loop ACTION_ROUNDS wifi is_up (time + 1000 * IFACE_ACTION_WAIT_TIMEOUT_SECS)
  | _ => mret true
  end.

(** [wifi_control] with [purge_wifi_phy_ip_stack]. *)
Definition purge_wifi_phy_ip_stack : Eff (Daemon K) () :=
  cur_state ← daemon_query it query_default;
  let desired_state := gen_wifi_off_purge_state it cur_state in
  if ns_is_empty desired_state then mret ()
  else _ ← apply_saved desired_state (opt_memory_only opt_new) None; mret ().

Definition wifi_control (control : NipartWifiControl) : Eff (Daemon K) () :=
  _ ← on_out (eff_call (out_wifi_control control));
  match control with WifiOff => purge_wifi_phy_ip_stack | WifiOn => mret () end.

(** [wait_online]: the loop of [_wait_online], and the timeout, which is noticed when the loop
    sleeps; [false] if there are no more rounds. *)
Fixpoint online_loop (fuel : nat) (saved_state : NetworkState) (retry_count start budget : Z) :
    Eff (Daemon K) bool :=
  match fuel with
  | O => mret false
  | S fuel =>
      online ← eff_get dm_online;
      if online : bool then mret true
      else
        _ ← try_set_daemon_online it (Some saved_state) None;
        time ← eff_get (λ d, out_now (dm_out d));
        _ ← dm_sleep (next_retry_wait retry_count budget (time - start));
        online ← eff_get dm_online;
        time ← eff_get (λ d, out_now (dm_out d));
        if negb online && (budget <=? time - start) then eff_fail ETimeout
        else online_loop fuel saved_state (retry_count + 1) start budget
  end.

Definition daemon_wait_online : Eff (Daemon K) bool :=
  saved_state ← query_conf;
  let timeout_sec := wo_timeout_sec (default wait_online_default (ns_wait_online saved_state)) in
  start ← eff_get (λ d, out_now (dm_out d));
  online_loop (Z.to_nat (timeout_sec + 2)) saved_state 0 start (1000 * timeout_sec).

(** What is done for a client that has the permission. *)
Definition serve (command : NipartClientCmd) : Eff (Daemon K) (Reply WifiScanResult) :=
  match command with
  | Ping => mret Pong
  | QueryNetworkState opt => s ← daemon_query it opt; mret (ReplyState s)
  | ApplyNetworkState desired_state opt =>
      s ← daemon_apply to_lowercase to_uppercase etc_hosts it sort to_yaml desired_state opt;
      mret (ReplyState s)
  | UpInterface name =>
      _ ← check_up_interface name;
      s ← up_interface name;
      _ ← wait_for_iface_action name true;
      mret (ReplyState s)
  | DownInterface name =>
      s ← down_interface name;
      _ ← wait_for_iface_action name false;
      mret (ReplyState s)
  | WaitOnline => _ ← daemon_wait_online; mret ReplyUnit
  | WifiScan opt => l ← on_out (eff_call (out_wifi_scan opt)); mret (ReplyScan l)
  | WifiControl control => _ ← wifi_control control; mret ReplyUnit
  end.

(** One round of [process_api_connection]: the reply that is sent. *)
Definition process_command (peer_uid : Z) (command : NipartClientCmd) :
    Eff (Daemon K) (res (Reply WifiScanResult)) :=
  match permission_check command peer_uid with
  | Err e => mret (Err e)
  | Ok _ => eff_try (serve command)
  end.

End Actions.

(** ** Who changes what *)

Section Rights.
Context {Num : Type} `{!EqDecision Num} `{!Serde Num Interface} `{!Serde Num (list AltNameEntry)}.
Context (to_lowercase to_uppercase : string → string) (etc_hosts : option string) (it : Iteration)
  (sort : LinkSort) (to_yaml : NetworkState → option string).
Context {WifiScanResult K : Type} `{!Kernel K} `{!Host K} `{!DhcpWorkers K} `{!Plugins K} `{!Outside K}
  `{!Radio WifiScanResult K}.

#[local] Abbreviation process :=
  (process_command to_lowercase to_uppercase etc_hosts it sort to_yaml (WifiScanResult:=WifiScanResult) (K:=K)).

Lemma online_loop_undisturbed fuel saved_state retry_count start budget :
  keeps (undisturbed (K:=K)) (online_loop it fuel saved_state retry_count start budget).
Proof.
  revert retry_count. induction fuel as [|fuel IH]; intros retry_count; cbn [online_loop]; [undisturbed|].
  apply undisturbed_bind; [apply keeps_eff_get|]. intros [|]; [undisturbed|].
  apply undisturbed_bind; [apply online_undisturbed|]. intros _.
  unfold dm_sleep, eff_fail. undisturbed.
Qed.

Lemma wait_online_undisturbed : keeps (undisturbed (K:=K)) (daemon_wait_online it).
Proof.
  unfold daemon_wait_online. apply undisturbed_bind; [apply keeps_query_conf|]. intros saved.
  apply undisturbed_bind; [apply keeps_eff_get|]. intros start. apply online_loop_undisturbed.
Qed.

Lemma wait_action_undisturbed name up : keeps (undisturbed (K:=K)) (wait_for_iface_action it name up).
Proof.
  unfold wait_for_iface_action. apply undisturbed_bind; [apply keeps_query_conf|]. intros saved.
  assert (∀ fuel wifi deadline, keeps (undisturbed (K:=K)) (action_loop it fuel wifi up deadline)) as Hl.
  { induction fuel as [|fuel IH]; intros wifi deadline; cbn [action_loop]; [apply undisturbed_ret|].
    apply undisturbed_bind; [apply daemon_query_undisturbed|]. intros cur.
    destruct (Bool.eqb _ _); [apply undisturbed_ret|]. unfold dm_sleep, eff_fail. undisturbed. }
  destruct (find_saved_iface saved name) as [[]|]; try apply undisturbed_ret.
  destruct wifi; [|apply undisturbed_ret]. apply undisturbed_bind; [apply keeps_eff_get|]. intros time. apply Hl.
Qed.

(** A request of a client without the rights of root that is not refused only reads. *)
Definition reads_only (command : NipartClientCmd) : Prop :=
  match command with
  | Ping | WaitOnline => True
  | QueryNetworkState opt => qo_include_secrets opt = false
  | WifiScan opt => so_dump opt = true
  | _ => False
  end.

(** What a query that does not ask for the secrets answers with. *)
Lemma daemon_query_hidden opt d s d' :
  qo_include_secrets opt = false → daemon_query it opt d = (Ok s, d') → ∃ s0 : NetworkState, s = ns_hide_secrets s0.
Proof.
  intros Ho.
  assert (∀ saved s1 d, fill_views opt saved s1 d = (Ok s, d') → ∃ s0, s = ns_hide_secrets s0) as Hf.
  { intros saved s1 d1. unfold fill_views. do 3 (intros (? & ? & _ & H)%eff_bind_ok; revert H).
    unfold hidden. rewrite Ho. intros [= <- _]. eauto. }
  unfold daemon_query. destruct (qo_running opt), (qo_saved opt); [..|done].
  - unfold query_running_and_saved_state. do 2 (intros (? & ? & _ & H)%eff_bind_ok; revert H).
    destruct (merge_saved_into_running _ _ _) as [[? ?] ?]. apply Hf.
  - unfold query_running_state. do 2 (intros (? & ? & _ & H)%eff_bind_ok; revert H). apply Hf.
  - unfold query_saved_state. do 2 (intros (? & ? & _ & H)%eff_bind_ok; revert H).
    unfold hidden. rewrite Ho. intros [= <- _]. eauto.
Qed.

(** C33: A client that is not root changes nothing and learns no secret: its request is refused
    and the daemon is as before, or the request only reads - then neither the saved
    configuration nor the pause of the monitor changes, and a state it is shown has its
    secrets hidden. *)
Theorem unprivileged_clients_only_read uid command d :
  let '(r, d') := process uid command d in
  uid = 0 ∨
  (r = Ok (fail PermissionDeny) ∧ d' = d) ∨
  (reads_only command ∧ undisturbed d d' ∧
   ∀ s, r = Ok (Ok (ReplyState s)) → ∃ s0, s = ns_hide_secrets s0).
Proof.
  destruct (process uid command d) as [r d'] eqn:E. destruct (decide (uid = 0)) as [|Hu]; [by left|].
  right. apply Z.eqb_neq in Hu. unfold process_command, permission_check in E. rewrite Hu in E.
  destruct command as [|opt|des opt|n|n| |opt|c]; [| |by left; injection E as <- <-..| | |].
  all: try (by left; injection E as <- <-).
  - right. injection E as <- <-. by split_and!.
  - destruct (qo_include_secrets opt) eqn:Es; [by left; injection E as <- <-|right].
    split; [done|]. simpl in E. split.
    + refine (keeps_try _ _ _ _ _ _ E). apply undisturbed_bind; [apply daemon_query_undisturbed|]. undisturbed.
    + intros s ->. rewrite eff_try_ok in E. apply eff_bind_ok in E as (s1 & d1 & Hq & [= -> _]).
      by eapply daemon_query_hidden.
  - right. split; [done|]. simpl in E. split.
    + refine (keeps_try _ _ _ _ _ _ E). apply undisturbed_bind; [apply wait_online_undisturbed|]. undisturbed.
    + intros s ->. rewrite eff_try_ok in E. by apply eff_bind_ok in E as (? & ? & _ & E).
  - destruct (so_dump opt) eqn:Es; [right|by left; injection E as <- <-].
    split; [done|]. simpl in E. split.
    + refine (keeps_try _ _ _ _ _ _ E). undisturbed.
    + intros s ->. rewrite eff_try_ok in E. by apply eff_bind_ok in E as (? & ? & _ & E).
Qed.
(** ** What is saved *)

Definition same_conf (d d' : Daemon K) : Prop := dm_conf d' = dm_conf d.

#[local] Instance same_conf_refl : Reflexive same_conf.
Proof. by intros d. Qed.

#[local] Instance same_conf_trans : Transitive same_conf.
Proof. intros d1 d2 d3. unfold same_conf. congruence. Qed.

Lemma undisturbed_conf {A} (x : Eff (Daemon K) A) : keeps undisturbed x → keeps same_conf x.
Proof. intros Hx d r d' H. apply (Hx _ _ _ H). Qed.

Lemma conf_on_monitor {A} (x : K → Mon A) : keeps same_conf (on_monitor x).
Proof. intros d r d'. unfold on_monitor. destruct (x _ _). by intros [= _ <-]. Qed.

Lemma conf_bind {A B} (x : Eff (Daemon K) A) (f : A → Eff (Daemon K) B) :
  keeps same_conf x → (∀ a, keeps same_conf (f a)) → keeps same_conf (x ≫= f).
Proof. apply eff_keeps_bind, _. Qed.

Lemma inner_memory_only self state_to_save revert_state revert_dns :
  memory_only (mn_option self) = true →
  keeps same_conf (apply_network_state_inner to_lowercase to_uppercase etc_hosts it sort to_yaml self
                     state_to_save revert_state revert_dns (K:=K)).
Proof.
  intros Hm. unfold apply_network_state_inner. rewrite Hm.
  apply conf_bind; [apply keeps_try, undisturbed_conf, apply_merged_undisturbed|]. intros [[]|e].
  - apply undisturbed_conf, undisturbed_bind; [apply undisturbed_ret|]. intros _.
    apply undisturbed_bind; [apply keeps_query_conf|]. intros saved.
    apply undisturbed_bind; [apply setup_undisturbed|]. intros _. apply undisturbed_ret.
  - apply undisturbed_conf, undisturbed_bind; [apply keeps_try, rollback_undisturbed|].
    intros _. apply undisturbed_res.
Qed.

(** An apply for the memory only does not change what is saved. *)
Lemma memory_only_keeps_conf desired opt saved :
  memory_only opt = true →
  keeps same_conf (apply_with_saved_config to_lowercase to_uppercase etc_hosts it sort to_yaml desired
                     opt saved (K:=K)).
Proof.
  intros Hm d r d'. unfold apply_with_saved_config. rewrite eff_bind_run.
  destruct (prepare_apply _ _ _ _ _ _ _ d) as [[[[self revert_state] revert_dns]|e] d1] eqn:Ep.
  - assert (mn_option self = opt) as Ho.
    { unfold prepare_apply in Ep. do 2 apply eff_bind_ok in Ep as (? & ? & _ & Ep).
      apply eff_bind_ok in Ep as (self' & ? & Hn & Ep). injection Hn as Hn _.
      apply eff_bind_ok in Ep as (? & ? & _ & Ep). injection Ep as <- _ _ _. by eapply merged_new_option. }
    apply prepare_undisturbed in Ep as [Ep _]. intros H. unfold same_conf. rewrite <-Ep.
    refine (conf_bind _ _ _ _ _ _ _ H).
    + unfold apply_paused. apply conf_bind; [apply conf_on_monitor|]. intros _.
      apply conf_bind; [apply conf_on_monitor|]. intros _.
      apply conf_bind; [apply keeps_try, inner_memory_only; congruence|]. intros result.
      apply conf_bind; [apply conf_on_monitor|]. intros _. apply undisturbed_conf, undisturbed_res.
    + intros saved_state. apply undisturbed_conf. intros ? ? ?. apply conf_of_rest.
  - apply prepare_undisturbed in Ep as [Ep _]. by intros [= _ <-].
Qed.

Lemma up_keeps_conf name :
  keeps same_conf (up_interface to_lowercase to_uppercase etc_hosts it sort to_yaml name (K:=K)).
Proof.
  unfold up_interface. apply conf_bind; [apply undisturbed_conf, keeps_query_conf|]. intros saved.
  apply conf_bind; [apply undisturbed_conf, undisturbed_res|]. intros i.
  apply conf_bind; [apply conf_on_monitor|]. intros _. by apply memory_only_keeps_conf.
Qed.

Lemma down_keeps_conf name :
  keeps same_conf (down_interface to_lowercase to_uppercase etc_hosts it sort to_yaml name (K:=K)).
Proof.
  unfold down_interface. apply conf_bind.
  { apply undisturbed_conf. unfold down_target, eff_fail. apply undisturbed_bind; [apply keeps_query_conf|].
    intros saved. destruct (find_saved_iface saved name); [undisturbed|].
    apply undisturbed_bind; [apply daemon_query_undisturbed|]. intros cur. undisturbed. }
  intros [desired i]. apply conf_bind; [apply conf_on_monitor|]. intros _.
  apply conf_bind; [by apply keeps_try, memory_only_keeps_conf|]. intros result.
  apply conf_bind; [|intros _; apply undisturbed_conf, undisturbed_res].
  destruct result; [apply undisturbed_conf, undisturbed_ret|apply keeps_try, conf_on_monitor].
Qed.

Lemma wifi_control_keeps_conf control :
  keeps same_conf (wifi_control to_lowercase to_uppercase etc_hosts it sort to_yaml control
                     (WifiScanResult:=WifiScanResult) (K:=K)).
Proof.
  unfold wifi_control. apply conf_bind; [apply undisturbed_conf, keeps_on_out|]. intros _.
  destruct control; [apply undisturbed_conf, undisturbed_ret|]. unfold purge_wifi_phy_ip_stack.
  apply conf_bind; [apply undisturbed_conf, daemon_query_undisturbed|]. intros cur.
  destruct (ns_is_empty _); [apply undisturbed_conf, undisturbed_ret|].
  apply conf_bind; [by apply memory_only_keeps_conf|intros _; apply undisturbed_conf, undisturbed_ret].
Qed.

(** C34: What is saved is changed by requests to apply a state only, and only if they are not
    for the memory only.  Bringing an interface up or down, switching WIFI on or off and all
    queries leave it alone, whatever becomes of them. *)
Theorem only_applies_are_saved uid command d :
  let '(r, d') := process_command to_lowercase to_uppercase etc_hosts it sort to_yaml
                    (WifiScanResult:=WifiScanResult) uid command d in
  dm_conf d' = dm_conf d ∨
  ∃ desired opt, command = ApplyNetworkState desired opt ∧ memory_only opt = false ∧ uid = 0.
Proof.
  destruct (process uid command d) as [r d'] eqn:E. unfold process_command in E.
  destruct (permission_check command uid) as [[]|e] eqn:Ep; [|left; by injection E as _ <-].
  assert (∀ x : Eff (Daemon K) (Reply WifiScanResult), keeps same_conf x → eff_try x d = (r, d') →
    dm_conf d' = dm_conf d) as Hx by (intros x Hx; apply (keeps_try same_conf x Hx)).
  assert (∀ name up, keeps same_conf (wait_for_iface_action it name up (K:=K))) as Hw
    by (intros; apply undisturbed_conf, wait_action_undisturbed).
  assert (∀ a : Reply WifiScanResult, keeps same_conf (mret a)) as Hret
    by (intros; apply undisturbed_conf, undisturbed_ret).
  destruct command as [|opt|desired opt|name|name| |opt|control]; cbn [serve] in E.
  - left. apply (Hx _ (Hret _) E).
  - left. refine (Hx _ _ E). apply conf_bind; [apply undisturbed_conf, daemon_query_undisturbed|done].
  - destruct (memory_only opt) eqn:Hm; [left|right; exists desired, opt].
    + refine (Hx _ _ E). apply conf_bind; [|done]. unfold daemon_apply.
      apply conf_bind; [apply undisturbed_conf, keeps_query_conf|]. intros saved. by apply memory_only_keeps_conf.
    + split_and!; [done..|]. unfold permission_check in Ep. by destruct (uid =? 0) eqn:Eu; [apply Z.eqb_eq in Eu|].
  - left. refine (Hx _ _ E). apply conf_bind.
    { apply undisturbed_conf. unfold check_up_interface. undisturbed. }
    intros _. apply conf_bind; [apply up_keeps_conf|]. intros s. by apply conf_bind.
  - left. refine (Hx _ _ E). apply conf_bind; [apply down_keeps_conf|]. intros s. by apply conf_bind.
  - left. refine (Hx _ _ E). apply conf_bind; [apply undisturbed_conf, wait_online_undisturbed|done].
  - left. refine (Hx _ _ E). apply conf_bind; [apply undisturbed_conf, keeps_on_out|done].
  - left. refine (Hx _ _ E). apply conf_bind; [apply wifi_control_keeps_conf|done].
Qed.
End Rights.

(** ** Examples *)

Definition ex_wifi_profile (name : string) (auto_connect : option InterfaceAutoConnect) : Interface :=
  IfWifiCfg (set_bi_auto_connect auto_connect (base_new name TWifiCfg))
    (Some (wifi_of name None None false None)).

Definition states_of (s : NetworkState) : list (string * InterfaceState) :=
  map (λ i, (iface_name i, bi_state (base_iface i))) (interfaces_iter (ns_ifaces s)).

(** Bringing one WIFI profile down hands every other saved one to the plugin, those that are
    activated by hand only and those that were brought down before included. *)
Example down_brings_the_others_up :
  let saved := boot_saved [ex_wifi_profile "home" None; ex_wifi_profile "cafe" (Some Manual)] in
  states_of (gen_state_for_down (ex_wifi_profile "home" None) saved) = [("home", SDown); ("cafe", SUp)] ∧
  states_of (gen_state_for_down (ex_wifi_profile "cafe" (Some Manual)) saved) =
    [("home", SUp); ("cafe", SDown)].
Proof. split; vm_compute; reflexivity. Qed.

(** A NIC is set down, a virtual interface is removed, its routes with it. *)
Example down_examples :
  let dummy := boot_dummy "lab" "d0" in
  let saved := extend_routes [ex_route "198.51.100.0/24" "lab" 254 100; ex_route "203.0.113.0/24" "eth9" 254 100]
                 (boot_saved [dummy; ex_nic "eth1"]) in
  states_of (gen_state_for_down dummy saved) = [("lab", SAbsent)] ∧
  config (ns_routes (gen_state_for_down dummy saved)) =
    Some [set_absent (ex_route "198.51.100.0/24" "lab" 254 100)] ∧
  states_of (gen_state_for_down (ex_nic "eth1") saved) = [("eth1", SDown)] ∧
  config (ns_routes (gen_state_for_up dummy saved)) = Some [ex_route "198.51.100.0/24" "lab" 254 100].
Proof. vm_compute. split_and!; reflexivity. Qed.
