(* ===== verification/WifiHints.v ===== *)
(** * WifiHints: what the WIFI plugin remembers of a network

    [src/plugin-wifi/hints.rs]: per SSID a file with the access points it was reached
    through, from which the first scan after a start is narrowed.  A file is trusted only if
    it is a regular file of moderate size, not writable by others, owned by the owner of the
    directory, and names its SSID; it is replaced atomically. *)

From S2P Require Export LinkEvent SocketAddr.

#[local] Open Scope Z_scope.

(** ** Data *)

Record LoadedHints : Type := loaded_hints {
  frequencies_mhz : list Z;
  known_bss : list (list Z * Z);
}.

#[export] Instance LoadedHints_eq_dec : EqDecision LoadedHints.
Proof. solve_decision. Defined.

Definition hints_default : LoadedHints := loaded_hints [] [].
Definition hints_are_empty (h : LoadedHints) : bool :=
  match frequencies_mhz h, known_bss h with [], [] => true | _, _ => false end.

Record StoredBss : Type := stored_bss { sb_bssid : string; sb_frequency_mhz : Z }.

Record PersistedHints : Type := persisted_hints {
  ph_version : Z;
  ph_ssid : string;
  ph_updated_on : Z;
  ph_bss : list StoredBss;
}.

#[export] Instance StoredBss_eq_dec : EqDecision StoredBss.
Proof. solve_decision. Defined.
#[export] Instance PersistedHints_eq_dec : EqDecision PersistedHints.
Proof. solve_decision. Defined.

Definition HINT_TTL_DAYS : Z := 30.
Definition MAX_BSS_PER_SSID : nat := 16.
Definition MAX_HINTS_FILE_SIZE : Z := 64 * 1024.
Definition HINTS_VERSION : Z := 1.

(** A file as [symlink_metadata] and [open] see it; the directory and its owner. *)
Record HintFile : Type := hint_file {
  hf_is_file : bool;
  hf_len : Z;
  hf_mode : Z;
  hf_uid : Z;
  hf_content : option string;
}.

Record HintDir : Type := hint_dir {
  hd_uid : option Z;
  hd_files : gmap string HintFile;
}.

(** ** Names and addresses *)

(** [encode_ssid]: [[A-Za-z0-9._-]] stay. *)
Definition is_plain_byte (c : ascii) : bool :=
  let n := byte_of c in
  ((65 <=? n) && (n <=? 90)) || ((97 <=? n) && (n <=? 122)) || ((48 <=? n) && (n <=? 57)) ||
  (n =? 46) || (n =? 95) || (n =? 45).

Fixpoint encode_ssid (s : string) : string :=
  match s with
  | "" => ""
  | String c s' =>
      if is_plain_byte c then String c (encode_ssid s')
      else String "%" (String.append (hex_byte (byte_of c)) (encode_ssid s'))
  end.

Definition path_for_ssid (ssid : string) : string := String.append (encode_ssid ssid) ".hints".

(** [format!("{byte:02x}")]. *)
Definition hex_byte_lower (b : Z) : string :=
  String (digit_char (b / 16)) (String (digit_char (b mod 16)) "").

Definition mac_to_string (mac : list Z) : string := join_string ":" (hex_byte_lower <$> mac).

(** [u8::from_str_radix(part, 16)] of a part of two bytes: a sign is accepted. *)
Definition hex_part (part : string) : option Z :=
  match part with
  | String a (String b "") =>
      if Ascii.eqb a "+" then to_digit 16 b
      else
        match to_digit 16 a, to_digit 16 b with
        | Some x, Some y => Some (16 * x + y)
        | _, _ => None
        end
  | _ => None
  end.

Definition mac_from_string (mac : string) : option (list Z) :=
  let parts := str_split colon mac in
  if (length parts =? 6)%nat then mapM hex_part parts else None.

(** ** One file *)

Definition is_expired (updated_on today : Z) : bool := HINT_TTL_DAYS <? Z.max 0 (today - updated_on).

(** The first entry of [bssid] gets the frequency, or a new one is pushed; and whether that
    changed anything. *)
Fixpoint merge_entry (bssid : string) (frequency_mhz : Z) (bss : list StoredBss) :
    list StoredBss * bool :=
  match bss with
  | [] => ([stored_bss bssid frequency_mhz], true)
  | entry :: bss' =>
      if String.eqb (sb_bssid entry) bssid then
        if sb_frequency_mhz entry =? frequency_mhz then (entry :: bss', false)
        else (stored_bss (sb_bssid entry) frequency_mhz :: bss', true)
      else
        let '(l, changed) := merge_entry bssid frequency_mhz bss' in (entry :: l, changed)
  end.

(** [merge_bss]. *)
Definition merge_bss (ssid : string) (previous : option PersistedHints) (bssid : string)
    (frequency_mhz today : Z) : PersistedHints * bool :=
  let bss := match previous with Some hints => ph_bss hints | None => [] end in
  let '(bss, content_changed) := merge_entry bssid frequency_mhz bss in
  let '(bss, content_changed) :=
    if (MAX_BSS_PER_SSID <? length bss)%nat
    then (drop (length bss - MAX_BSS_PER_SSID) bss, true) else (bss, content_changed) in
  (persisted_hints HINTS_VERSION ssid today bss,
   content_changed || negb (bool_decide (ph_updated_on <$> previous = Some today))).

(** What is attached to the network: the loops of [load_hints_on_day]. *)
Definition push_known (acc : list (list Z * Z)) (bss : StoredBss) : list (list Z * Z) :=
  match mac_from_string (sb_bssid bss) with
  | Some bssid =>
      if existsb (λ e, bool_decide (e.1 = bssid)) acc then acc
      else acc ++ [(bssid, sb_frequency_mhz bss)]
  | None => acc
  end.

Definition hints_of (hints : PersistedHints) : LoadedHints :=
  let known := foldl push_known [] (ph_bss hints) in
  loaded_hints
    (dedup Z.compare id (sort_by Z.compare id (List.filter (λ f, negb (f =? 0)) known.*2))) known.

(** ** The directory *)

(** How the calls that write end: the directory is created, the temporary file is written
    and renamed; the plugin's user. *)
Record HintIo : Type := hint_io { hi_create_dir : bool; hi_write : bool; hi_uid : Z }.

Section Files.
(** [rmsd_yaml]. *)
Context (to_yaml : PersistedHints → option string) (from_yaml : string → option PersistedHints).

(** [read_hints]. *)
Definition owned_by_directory (d : HintDir) (f : HintFile) : bool :=
  bool_decide (hd_uid d = Some (hf_uid f)).

Definition is_trusted (d : HintDir) (f : HintFile) : bool :=
  hf_is_file f && (hf_len f <=? MAX_HINTS_FILE_SIZE) && (Z.land (hf_mode f) 18 =? 0) &&
  owned_by_directory d f.

Definition read_hints (d : HintDir) (ssid : string) : option PersistedHints :=
  match hd_files d !! path_for_ssid ssid with
  | Some f =>
      if is_trusted d f then
        match hf_content f ≫= from_yaml with
        | Some hints =>
            if (ph_version hints =? HINTS_VERSION) && String.eqb (ph_ssid hints) ssid
            then Some hints else None
        | None => None
        end
      else None
  | None => None
  end.

(** [load_hints_on_day]: an expired file is deleted. *)
Definition load_hints_on_day (d : HintDir) (ssid : string) (today : Z) : LoadedHints * HintDir :=
  match read_hints d ssid with
  | Some hints =>
      if is_expired (ph_updated_on hints) today
      then (hints_default, hint_dir (hd_uid d) (delete (path_for_ssid ssid) (hd_files d)))
      else (hints_of hints, d)
  | None => (hints_default, d)
  end.

(** [remove_in]. *)
Definition remove_hints (d : HintDir) (ssid : string) : HintDir :=
  hint_dir (hd_uid d) (delete (path_for_ssid ssid) (hd_files d)).

(** [create_hints_dir]. *)
Definition create_hints_dir (io : HintIo) (d : HintDir) : res () * HintDir :=
  match hd_uid d with
  | Some _ => (Ok (), d)
  | None =>
      if hi_create_dir io then (Ok (), hint_dir (Some (hi_uid io)) (hd_files d))
      else (fail PluginFailure, d)
  end.

(** [write_hints]: a temporary file of mode 0600 is renamed. *)
Definition write_hints (io : HintIo) (d : HintDir) (ssid : string) (hints : PersistedHints) :
    res () * HintDir :=
  match to_yaml hints with
  | None => (fail Bug, d)
  | Some yaml =>
      if hi_write io then
        (Ok (), hint_dir (hd_uid d) (<[path_for_ssid ssid :=
           hint_file true (Z.of_nat (String.length yaml)) 384 (hi_uid io) (Some yaml)]> (hd_files d)))
      else (fail PluginFailure, d)
  end.

(** [record_bss_on_day]. *)
Definition unexpired (today : Z) (hints : PersistedHints) : option PersistedHints :=
  if is_expired (ph_updated_on hints) today then None else Some hints.

Definition record_bss_on_day (io : HintIo) (d : HintDir) (ssid : string) (bssid : list Z)
    (freq_mhz today : Z) : res () * HintDir :=
  let previous := read_hints d ssid ≫= unexpired today in
  let '(hints, changed) := merge_bss ssid previous (mac_to_string bssid) freq_mhz today in
  if negb changed then (Ok (), d)
  else
    match create_hints_dir io d with
    | (Ok _, d) => write_hints io d ssid hints
    | (Err e, d) => (Err e, d)
    end.

End Files.

(** ** Names of files *)

(** The digits of a byte in either case; no digit is a sign. *)
Lemma hex_bytes_read c :
  hex_part (hex_byte (byte_of c)) = Some (byte_of c) ∧
  hex_part (hex_byte_lower (byte_of c)) = Some (byte_of c) ∧
  str_contains colon (hex_byte_lower (byte_of c)) = false ∧
  chars_in is_plain_byte (hex_byte (byte_of c)) = true.
Proof. destruct c as [[] [] [] [] [] [] [] []]; vm_compute; repeat split. Qed.

Lemma byte_of_inj c d : byte_of c = byte_of d → c = d.
Proof.
  unfold byte_of. intros H%N2Z.inj. rewrite <-(ascii_N_embedding c), <-(ascii_N_embedding d). by f_equal.
Qed.

Lemma hex_byte_inj c d : hex_byte (byte_of c) = hex_byte (byte_of d) → c = d.
Proof.
  intros H. apply byte_of_inj. pose proof (hex_bytes_read c) as [Hc _].
  pose proof (hex_bytes_read d) as [Hd _]. congruence.
Qed.

#[export] Instance encode_ssid_inj : Inj (=) (=) encode_ssid.
Proof.
  intros s. induction s as [|c s IH]; intros [|d t]; cbn [encode_ssid]; [done| | |].
  1,2: by destruct (is_plain_byte _).
  destruct (is_plain_byte c) eqn:Ec, (is_plain_byte d) eqn:Ed.
  - intros [= -> H]. by rewrite (IH t).
  - intros [= -> H]. discriminate Ec.
  - intros [= <- H]. discriminate Ed.
  - intros H. assert (hex_byte (byte_of c) = hex_byte (byte_of d) ∧ encode_ssid s = encode_ssid t) as [H1 H2].
    { unfold hex_byte in *. cbn [String.append] in H. injection H as H1 H2 H3. split; [congruence|done]. }
    apply hex_byte_inj in H1 as ->. by rewrite (IH t).
Qed.

Lemma string_app_cancel_r (u s t : string) : (s ++ u)%string = (t ++ u)%string → s = t.
Proof.
  revert t. induction s as [|c s IH]; intros [|d t] H; [done| | |].
  1,2: exfalso; apply (f_equal String.length) in H; rewrite !string_length_app in H; simpl in H; lia.
  injection H as -> H. by rewrite (IH t).
Qed.

#[export] Instance path_for_ssid_inj : Inj (=) (=) path_for_ssid.
Proof. intros s t H. apply (inj encode_ssid). by apply (string_app_cancel_r ".hints"). Qed.

Definition safe_byte (c : ascii) : bool := is_plain_byte c || Ascii.eqb c "%".

Lemma chars_in_impl (f g : ascii → bool) s :
  (∀ c, f c = true → g c = true) → chars_in f s = true → chars_in g s = true.
Proof.
  intros H. induction s as [|c s IH]; [done|]. cbn [chars_in].
  intros [Hc Hs]%andb_true_iff. by rewrite (H c Hc), IH.
Qed.

Lemma encode_ssid_safe s : chars_in safe_byte (encode_ssid s) = true.
Proof.
  induction s as [|c s IH]; [done|]. cbn [encode_ssid].
  assert (∀ d, is_plain_byte d = true → safe_byte d = true) as Hp
    by (intros d Hd; unfold safe_byte; by rewrite Hd).
  destruct (is_plain_byte c) eqn:E; cbn [chars_in]; [by rewrite IH, (Hp c)|].
  rewrite (chars_in_app safe_byte (hex_byte (byte_of c)) (encode_ssid s)), IH, andb_true_r.
  apply andb_true_iff. split; [done|]. apply (chars_in_impl is_plain_byte _ _ Hp), hex_bytes_read.
Qed.

(** Two SSIDs never share a file of hints, and whatever an access point calls itself, the
    name of its file consists of letters, digits and the characters [._-%]: it stays in the
    directory, being neither empty, "." nor "..". *)
Theorem hint_files_are_separate s t :
  (path_for_ssid s = path_for_ssid t ↔ s = t) ∧
  chars_in safe_byte (path_for_ssid s) = true ∧
  path_for_ssid s ∉ [""; "."; ".."].
Proof.
  split_and!; [split; [apply (inj path_for_ssid)|by intros ->]| |].
  - unfold path_for_ssid. by rewrite (chars_in_app safe_byte), encode_ssid_safe.
  - intros H. assert (6 ≤ String.length (path_for_ssid s))%nat as Hl.
    { unfold path_for_ssid. rewrite (string_length_app (encode_ssid s) ".hints"). simpl. lia. }
    rewrite !elem_of_cons, elem_of_nil in H. by destruct H as [H|[H|[H|[]]]]; rewrite H in Hl; simpl in Hl; lia.
Qed.

(** ** Addresses *)

Lemma str_split_join c l :
  l ≠ [] → Forall (λ s, str_contains c s = false) l → str_split c (join_string (String c "") l) = l.
Proof.
  intros Hne Hl. induction Hl as [|s l Hs Hl IH]; [done|]. destruct l as [|s' l]; [by apply str_split_no_char|].
  change (join_string (String c "") (s :: s' :: l)) with (s ++ String c (join_string (String c "") (s' :: l)))%string.
  rewrite str_split_app by done. by rewrite IH.
Qed.

Definition mac_byte_ok (b : Z) : Prop := 0 ≤ b < 256.

Lemma byte_of_byte b : mac_byte_ok b → ∃ c, byte_of c = b.
Proof.
  intros [H1 H2]. exists (ascii_of_N (Z.to_N b)). unfold byte_of. rewrite N_ascii_embedding by lia. lia.
Qed.

(** [mac_from_string] reads what [mac_to_string] writes. *)
Lemma mac_roundtrip mac :
  length mac = 6%nat → Forall mac_byte_ok mac → mac_from_string (mac_to_string mac) = Some mac.
Proof.
  intros Hl Hb. unfold mac_from_string, mac_to_string.
  rewrite (str_split_join colon), length_fmap, Hl; simpl.
  - apply mapM_fmap_Forall_Some. eapply Forall_impl; [exact Hb|].
    intros b (c & <-)%byte_of_byte. apply hex_bytes_read.
  - by destruct mac.
  - clear Hl. induction Hb as [|b mac (c & <-)%byte_of_byte _ IH]; constructor; [apply hex_bytes_read|done].
Qed.

(** ** A recorded access point is remembered *)

Definition entry_ok (e : StoredBss) : Prop :=
  ∃ mac, length mac = 6%nat ∧ Forall mac_byte_ok mac ∧ sb_bssid e = mac_to_string mac.

(** A set of hints the plugin writes. *)
Definition hints_ok (h : PersistedHints) : Prop :=
  (length (ph_bss h) ≤ MAX_BSS_PER_SSID)%nat ∧ Forall entry_ok (ph_bss h) ∧
  NoDup (sb_bssid <$> ph_bss h).

Lemma merge_entry_spec m f bss :
  let '(l, changed) := merge_entry m f bss in
  stored_bss m f ∈ l ∧ (changed = false → l = bss) ∧
  ((sb_bssid <$> l) = (sb_bssid <$> bss) ∨ ((m ∉ (sb_bssid <$> bss)) ∧ l = bss ++ [stored_bss m f])).
Proof.
  induction bss as [|e bss IH]; simpl; [set_solver|].
  destruct (String.eqb_spec (sb_bssid e) m) as [<-|Hne].
  - destruct (Z.eqb_spec (sb_frequency_mhz e) f) as [<-|].
    + split; [destruct e; set_solver|]. split; [done|by left].
    + split; [set_solver|]. split; [done|by left].
  - destruct (merge_entry m f bss) as [l c]. destruct IH as (Hin & Hc & Hl). split; [set_solver|]. split.
    + intros Hf. by rewrite (Hc Hf).
    + destruct Hl as [Hl|[Hni ->]]; [left; csimpl; by rewrite Hl|right; set_solver].
Qed.

Lemma entries_ok_keys l k :
  (sb_bssid <$> l) = (sb_bssid <$> k) → Forall entry_ok k → Forall entry_ok l.
Proof.
  intros E Hk. rewrite Forall_forall in *. intros e He.
  assert (sb_bssid e ∈ (sb_bssid <$> k)) as (e' & Heq & He')%list_elem_of_fmap
    by (rewrite <-E; by apply list_elem_of_fmap_2).
  destruct (Hk e' He') as (mac & ? & ? & ?). exists mac. split_and!; [done..|congruence].
Qed.

Lemma merge_bss_spec ssid previous mac freq today :
  (∀ h, previous = Some h → hints_ok h) → length mac = 6%nat → Forall mac_byte_ok mac →
  let '(h, changed) := merge_bss ssid previous (mac_to_string mac) freq today in
  hints_ok h ∧ ph_version h = HINTS_VERSION ∧ ph_ssid h = ssid ∧ ph_updated_on h = today ∧
  stored_bss (mac_to_string mac) freq ∈ ph_bss h ∧
  (changed = false → ∃ h', previous = Some h' ∧ ph_updated_on h' = today ∧ ph_bss h' = ph_bss h).
Proof.
  intros Hp Hl Hb. unfold merge_bss.
  set (bss := match previous with Some h => ph_bss h | None => [] end).
  assert ((length bss ≤ MAX_BSS_PER_SSID)%nat ∧ Forall entry_ok bss ∧ NoDup (sb_bssid <$> bss)) as (H1 & H2 & H3).
  { subst bss. destruct previous as [h|]; [by apply Hp|]. split_and!; [simpl; lia|constructor|by apply NoDup_nil]. }
  pose proof (merge_entry_spec (mac_to_string mac) freq bss) as Hs.
  destruct (merge_entry (mac_to_string mac) freq bss) as [l c]. destruct Hs as (Hin & Hc & Hlk).
  assert (entry_ok (stored_bss (mac_to_string mac) freq)) as Hnew by (by exists mac).
  destruct (Nat.ltb_spec MAX_BSS_PER_SSID (length l)) as [Hlong|Hshort].
  - destruct Hlk as [Hk|[Hni ->]].
    { apply (f_equal length) in Hk. rewrite !length_fmap in Hk. lia. }
    rewrite length_app in *. cbn [length] in *.
    replace (length bss + 1 - MAX_BSS_PER_SSID)%nat with 1%nat by lia.
    destruct bss as [|b bss'] eqn:Eb; [unfold MAX_BSS_PER_SSID in Hlong; simpl in Hlong; lia|].
    cbn [length app drop ph_bss] in *. apply Forall_cons in H2 as [_ H2]. rewrite fmap_cons in Hni, H3. apply NoDup_cons in H3 as [_ H3].
    unfold hints_ok. cbn [ph_bss drop]. rewrite drop_0.
    split_and!; [| | |done..|set_solver|done].
    + rewrite length_app. simpl. lia.
    + apply Forall_app. by split; [|constructor].
    + rewrite fmap_app. apply NoDup_app. split_and!; [done| |apply NoDup_singleton].
      intros x Hx. set_solver.
  - split_and!; [|done..| ].
    + split_and!; simpl; [lia| |].
      * destruct Hlk as [Hk|[_ ->]]; [by eapply entries_ok_keys|apply Forall_app; by split; [|constructor]].
      * destruct Hlk as [->|[Hni ->]]; [done|]. rewrite fmap_app. apply NoDup_app.
        split_and!; [done| |apply NoDup_singleton]. set_solver.
    + intros [-> Hd]%orb_false_iff. apply negb_false_iff, bool_decide_eq_true in Hd.
      apply fmap_Some in Hd as (h & -> & Ht). exists h. split_and!; [done..|]. simpl. by rewrite Hc.
Qed.

Lemma push_known_mono l : ∀ acc x, x ∈ acc → x ∈ foldl push_known acc l.
Proof.
  induction l as [|b l IH]; intros acc x Hx; [done|]. apply IH. unfold push_known.
  destruct (mac_from_string _); [|done]. destruct (existsb _ acc); [done|]. set_solver.
Qed.

Lemma push_known_length l : ∀ acc, (length (foldl push_known acc l) ≤ length acc + length l)%nat.
Proof.
  induction l as [|b l IH]; intros acc; simpl; [lia|]. etrans; [apply IH|]. unfold push_known.
  destruct (mac_from_string _); [|lia]. destruct (existsb _ acc); [lia|]. rewrite length_app. simpl. lia.
Qed.

(** An entry of a set the plugin wrote is loaded. *)
Lemma push_known_found mac freq l : ∀ acc,
  length mac = 6%nat → Forall mac_byte_ok mac → Forall entry_ok l → NoDup (sb_bssid <$> l) →
  (∀ e, e ∈ acc → e.1 ≠ mac) → stored_bss (mac_to_string mac) freq ∈ l →
  (mac, freq) ∈ foldl push_known acc l.
Proof.
  induction l as [|b l IH]; intros acc Hlen Hb Hok Hd Hacc Hin; [by apply elem_of_nil in Hin|].
  apply Forall_cons in Hok as [(m & Hm1 & Hm2 & Hm3) Hok]. rewrite fmap_cons in Hd.
  apply NoDup_cons in Hd as [Hni Hd]. apply elem_of_cons in Hin as [<-|Hin]; cbn [foldl].
  - apply push_known_mono. unfold push_known. cbn [sb_bssid sb_frequency_mhz]. rewrite mac_roundtrip by done.
    destruct (existsb _ acc) eqn:E; [|set_solver].
    apply existsb_elem_of in E as (e & He & Heq%bool_decide_eq_true). by apply Hacc in He.
  - apply IH; [done..| |done]. unfold push_known. rewrite Hm3, mac_roundtrip by done.
    destruct (existsb _ acc); [done|]. intros e [He| ->%list_elem_of_singleton]%elem_of_app; [by apply Hacc|].
    simpl. intros ->. apply Hni. rewrite Hm3.
    change (mac_to_string mac) with (sb_bssid (stored_bss (mac_to_string mac) freq)).
    by apply list_elem_of_fmap_2.
Qed.

Lemma hints_of_found h mac freq :
  hints_ok h → length mac = 6%nat → Forall mac_byte_ok mac →
  stored_bss (mac_to_string mac) freq ∈ ph_bss h →
  (mac, freq) ∈ known_bss (hints_of h) ∧ (freq ≠ 0 → freq ∈ frequencies_mhz (hints_of h)) ∧
  (length (known_bss (hints_of h)) ≤ MAX_BSS_PER_SSID)%nat.
Proof.
  intros (H1 & H2 & H3) Hl Hb Hin.
  assert ((mac, freq) ∈ known_bss (hints_of h)) as Hk
    by (apply push_known_found; [done..|set_solver|done]).
  split_and!; [done| |].
  - intros Hf. cbn [hints_of frequencies_mhz].
    assert (freq ∈ id <$> dedup Z.compare id (sort_by Z.compare id
      (List.filter (λ f, negb (f =? 0)) (known_bss (hints_of h)).*2))) as H; [|by rewrite list_fmap_id in H].
    apply (dedup_keys Z.compare id), elem_of_sort_by, list_elem_of_In, filter_In. split.
    + apply list_elem_of_In. by apply (list_elem_of_fmap_2 snd _ _ Hk).
    + by apply negb_true_iff, Z.eqb_neq.
  - etrans; [apply push_known_length|]. done.
Qed.

Section Recorded.
Context (to_yaml : PersistedHints → option string) (from_yaml : string → option PersistedHints).

(** The directory holds what the plugin wrote. *)
Definition dir_ok (d : HintDir) : Prop :=
  (hd_uid d = None → hd_files d = ∅) ∧ ∀ ssid h, read_hints from_yaml d ssid = Some h → hints_ok h.

Lemma read_hints_insert d u ssid f ssid' :
  ssid' ≠ ssid → (hd_uid d = None → hd_files d = ∅) → (hd_uid d = None ∨ u = hd_uid d) →
  read_hints from_yaml (hint_dir u (<[path_for_ssid ssid := f]> (hd_files d))) ssid' =
    read_hints from_yaml d ssid'.
Proof.
  intros Hne He Hu. unfold read_hints. simpl. rewrite lookup_insert_ne by (by intros H%(inj path_for_ssid)).
  destruct Hu as [Hn| ->]; [by rewrite (He Hn), lookup_empty|done].
Qed.

Lemma read_hints_facts d ssid h :
  read_hints from_yaml d ssid = Some h → ph_version h = HINTS_VERSION ∧ ph_ssid h = ssid.
Proof.
  unfold read_hints. destruct (hd_files d !! _) as [f|]; [|done]. destruct (is_trusted d f); [|done].
  destruct (hf_content f ≫= from_yaml) as [h'|]; [|done].
  destruct (Z.eqb_spec (ph_version h') HINTS_VERSION), (String.eqb_spec (ph_ssid h') ssid); simpl; naive_solver.
Qed.

(** C6: An access point that was recorded after a connection is offered for the first scan of
    its SSID on each of the next thirty days, with its channel among the channels swept; at
    most sixteen access points are remembered, the files of other SSIDs stay as they are, and
    the directory still holds only what can be trusted.  (The file format is assumed to read
    back what it wrote, and sixteen entries to fit the limit of a file.) *)
Theorem recorded_bss_is_loaded io d ssid mac freq today d' day :
  (∀ h y, to_yaml h = Some y → from_yaml y = Some h) →
  (∀ h y, hints_ok h → to_yaml h = Some y → Z.of_nat (String.length y) ≤ MAX_HINTS_FILE_SIZE) →
  dir_ok d → (hd_uid d = None ∨ hd_uid d = Some (hi_uid io)) →
  length mac = 6%nat → Forall mac_byte_ok mac →
  record_bss_on_day to_yaml from_yaml io d ssid mac freq today = (Ok (), d') →
  today ≤ day ≤ today + HINT_TTL_DAYS →
  let h := (load_hints_on_day from_yaml d' ssid day).1 in
  (mac, freq) ∈ known_bss h ∧ (freq ≠ 0 → freq ∈ frequencies_mhz h) ∧
  (length (known_bss h) ≤ MAX_BSS_PER_SSID)%nat ∧ dir_ok d' ∧
  ∀ ssid', ssid' ≠ ssid → read_hints from_yaml d' ssid' = read_hints from_yaml d ssid'.
Proof.
  intros Hy Hs [He Hd] Hu Hl Hb Hr Hday.
  assert (∃ h, read_hints from_yaml d' ssid = Some h ∧ hints_ok h ∧ ph_updated_on h = today ∧
    stored_bss (mac_to_string mac) freq ∈ ph_bss h ∧ (hd_uid d' = None → hd_files d' = ∅) ∧
    ∀ ssid', ssid' ≠ ssid → read_hints from_yaml d' ssid' = read_hints from_yaml d ssid')
    as (h & Hh & Hok & Ht & Hin & He' & Hother).
  { revert Hr. unfold record_bss_on_day.
    set (previous := read_hints from_yaml d ssid ≫= unexpired today).
    assert (∀ p, previous = Some p → read_hints from_yaml d ssid = Some p) as Hp.
    { intros p. subst previous. unfold unexpired. destruct (read_hints from_yaml d ssid) as [q|]; [|done].
      simpl. destruct (is_expired _ _); naive_solver. }
    pose proof (merge_bss_spec ssid previous mac freq today (λ p Hq, Hd _ _ (Hp p Hq)) Hl Hb) as Hm.
    destruct (merge_bss _ _ _ _ _) as [h changed]. destruct Hm as (Hok & Hv & Hss & Ht & Hin & Hc).
    destruct changed; simpl.
    - unfold create_hints_dir, write_hints. intros Hw.
      assert (∃ y, to_yaml h = Some y ∧ d' = hint_dir (Some (hi_uid io)) (<[path_for_ssid ssid :=
        hint_file true (Z.of_nat (String.length y)) 384 (hi_uid io) (Some y)]> (hd_files d))) as (y & Hyy & ->).
      { destruct Hu as [Hn|Hn]; rewrite Hn in Hw; [destruct (hi_create_dir io); [|done]|];
          destruct (to_yaml h) as [y|]; try done; destruct (hi_write io); try done;
          injection Hw as <-; exists y; by rewrite ?Hn. }
      exists h. split; [|split_and!; [done..| |]].
      + unfold read_hints, is_trusted, owned_by_directory. simpl. rewrite lookup_insert_eq. simpl.
        rewrite bool_decide_eq_true_2 by done.
        rewrite (proj2 (Z.leb_le _ _) (Hs h y Hok Hyy)). simpl.
        by rewrite (Hy h y Hyy), Hv, Hss, Z.eqb_refl, String.eqb_refl.
      + done.
      + intros ssid' Hne. apply read_hints_insert; [done..|]. destruct Hu as [|Hn]; [by left|right; by rewrite Hn].
    - intros [= <-]. destruct (Hc eq_refl) as (h' & Hh' & Hd' & Hb'). apply Hp in Hh' as Hh2.
      exists h'. split_and!; [done|by eapply Hd|done|by rewrite Hb'|done|done]. }
  unfold load_hints_on_day. rewrite Hh. unfold is_expired. rewrite Ht.
  rewrite (proj2 (Z.ltb_ge _ _)) by (unfold HINT_TTL_DAYS in *; lia). simpl.
  destruct (hints_of_found h mac freq Hok Hl Hb Hin) as (H1 & H2 & H3).
  split_and!; [done..| |done]. split; [done|]. intros s p Hsp.
  destruct (decide (s = ssid)) as [->|Hne]; [congruence|]. rewrite Hother in Hsp by done. by eapply Hd.
Qed.

End Recorded.

(** ** Examples *)

Definition ex_mac : list Z := [2; 0; 0; 0; 0; 171].
Definition ex_hints : PersistedHints :=
  persisted_hints 1 "cafe" 20000 [stored_bss "02:00:00:00:00:ab" 5180].

(** A file format for one value. *)
Definition ex_hints_yaml (h : PersistedHints) : option string := if decide (h = ex_hints) then Some "x" else None.
Definition ex_yaml_hints (y : string) : option PersistedHints := if String.eqb y "x" then Some ex_hints else None.

Definition ex_hint_io : HintIo := hint_io true true 0.

Lemma recorded_bss_is_loaded_witness :
  let '(r, d') := record_bss_on_day ex_hints_yaml ex_yaml_hints ex_hint_io (hint_dir None ∅) "cafe" ex_mac 5180 20000 in
  r = Ok () ∧ (ex_mac, 5180) ∈ known_bss (load_hints_on_day ex_yaml_hints d' "cafe" 20030).1 ∧
  known_bss (load_hints_on_day ex_yaml_hints d' "cafe" 20031).1 = [].
Proof.
  destruct (record_bss_on_day ex_hints_yaml ex_yaml_hints ex_hint_io (hint_dir None ∅) "cafe" ex_mac 5180 20000)
    as [r d'] eqn:E.
  assert (r = Ok ()) as -> by (change r with (r, d').1; rewrite <-E; vm_compute; reflexivity).
  split; [reflexivity|]. split.
  - apply (recorded_bss_is_loaded ex_hints_yaml ex_yaml_hints ex_hint_io (hint_dir None ∅) "cafe" ex_mac 5180 20000 d' 20030).
    + intros h y. unfold ex_hints_yaml. case_decide as Hh; [|done]. intros [= <-]. by rewrite Hh.
    + intros h y _. unfold ex_hints_yaml. case_decide; [|done]. by intros [= <-].
    + split; [done|]. intros ssid h. unfold read_hints. simpl. by rewrite lookup_empty.
    + by left.
    + reflexivity.
    + repeat constructor; vm_compute; done.
    + exact E.
    + unfold HINT_TTL_DAYS. lia.
  - replace d' with (Ok () : res (), d').2 by reflexivity.
    rewrite <-E. vm_compute. reflexivity.
Defined.

Example hostile_ssid_stays_in_the_directory :
  path_for_ssid "../../etc/passwd" = "..%2F..%2Fetc%2Fpasswd.hints" ∧ path_for_ssid "" = ".hints".
Proof. split; vm_compute; reflexivity. Qed.

(** Rust reads a number with a sign, so an address that is not of the documented form is
    accepted. *)
Example signed_bssid_is_accepted :
  mac_from_string "+2:00:00:00:00:+a" = Some [2; 0; 0; 0; 0; 10].
Proof. vm_compute. reflexivity. Qed.
