(* ===== verification/WifiNetworks.v ===== *)
(** * WifiNetworks: the networks the WIFI plugin hands to its client

    The pure part of [src/plugin-wifi/apply.rs]: how the WIFI sections of an apply become the
    network list of a NIC, when two lists are the same configuration, when a forced apply
    starts the association anew, and which errors of the client a waiting daemon is told. *)

From S2P Require Export WifiHints.

#[local] Open Scope Z_scope.

(** ** Data *)

(** [shuli_wifi::NetworkConfig], of a third-party crate: the fields that the plugin sets and
    compares.  Hints without frequencies and without access points are those of [new]. *)
Record ShuliNetwork : Type := shuli_network {
  sn_ssid : string;
  sn_password : option string;
  sn_hidden : bool;
  sn_bssid : option (list Z);
  sn_prefered : bool;
  sn_hints : LoadedHints;
}.

#[export] Instance ShuliNetwork_eq_dec : EqDecision ShuliNetwork.
Proof. solve_decision. Defined.

Definition set_prefered (v : bool) (n : ShuliNetwork) : ShuliNetwork :=
  shuli_network (sn_ssid n) (sn_password n) (sn_hidden n) (sn_bssid n) v (sn_hints n).
Definition set_hints (v : LoadedHints) (n : ShuliNetwork) : ShuliNetwork :=
  shuli_network (sn_ssid n) (sn_password n) (sn_hidden n) (sn_bssid n) (sn_prefered n) v.

(** The kinds of [shuli_wifi::ErrorKind] the plugin tells apart. *)
Inductive ShuliErrorKind : Type := ShNoSupport | ShWrongPassword | ShAuthFailed | ShOtherError.

Record WifiLiveState : Type := wifi_live_state { wl_ssid : string; wl_bssid : option string }.
Record WifiConnectError : Type := wifi_connect_error { we_ssid : string; we_error : NipartError }.
Record WifiIfaceState : Type := wifi_iface_state {
  wi_if_index : Z;
  wi_desired_networks : list ShuliNetwork;
}.

(** ** Errors of connections *)

Definition latched_connect_error (errors : gmap string WifiConnectError) (iface_name ssid : string) :
    option NipartError :=
  match errors !! iface_name with
  | Some latched => if String.eqb (we_ssid latched) ssid then Some (we_error latched) else None
  | None => None
  end.

Definition nipart_error_from_shuli (k : ShuliErrorKind) : option NipartError :=
  match k with
  | ShNoSupport => Some (nipart_error NoSupport)
  | ShWrongPassword | ShAuthFailed => Some (nipart_error AuthenticationError)
  | ShOtherError => None
  end.

(** The WIFI section of the kinds that have one. *)
Definition wifi_section (iface : Interface) : option (option WifiConfig) :=
  match iface with IfWifiCfg _ wifi | IfWifiPhy _ wifi => Some wifi | _ => None end.

Definition applied_ssids (ifaces : list Interface) : list string :=
  omap (λ iface, wifi_ssid <$> mjoin (wifi_section iface)) ifaces.

Definition clear_applied_connect_errors (errors : gmap string WifiConnectError)
    (ifaces : list Interface) : gmap string WifiConnectError :=
  filter (λ e, we_ssid e.2 ∉ applied_ssids ifaces) errors.

(** ** The NICs of a configuration *)

Definition has_wifi_ssid_up_request (ifaces : list Interface) : bool :=
  existsb (λ iface, iface_is_up iface &&
    match mjoin (wifi_section iface) with
    | Some cfg => negb (String.eqb (wifi_ssid cfg) "")
    | None => false
    end) ifaces.

Definition is_wifi_phy (iface : Interface) : bool := bool_decide (iface_type iface = TWifiPhy).

Definition up_wifi_phys (ifaces : list Interface) : list string :=
  map kernel_iface_name (List.filter (λ iface, is_wifi_phy iface && iface_is_up iface) ifaces).

Definition ignored_wifi_phys (ifaces : list Interface) : gset string :=
  list_to_set (map kernel_iface_name (List.filter (λ iface, iface_is_ignore iface && is_wifi_phy iface) ifaces)).

Definition wifi_cfg_phy_names (iface : Interface) (wifi_cfg : WifiConfig)
    (up_wifi_phys present_wifi_phys : list string) : list string :=
  if is_wifi_phy iface then [kernel_iface_name iface]
  else
    match wifi_base_iface wifi_cfg with
    | Some base_iface =>
        if String.eqb base_iface "" then
          match up_wifi_phys with [] => present_wifi_phys | _ => up_wifi_phys end
        else if bool_decide (base_iface ∈ present_wifi_phys) || bool_decide (base_iface ∈ up_wifi_phys)
        then [base_iface] else []
    | None => match up_wifi_phys with [] => present_wifi_phys | _ => up_wifi_phys end
    end.

(** ** Network lists *)

Definition build_shuli_network (wifi_cfg : WifiConfig) (loaded_hints : option LoadedHints) :
    res ShuliNetwork :=
  let? bssid :=
    match wifi_bssid wifi_cfg with
    | Some bssid =>
        match mac_from_string bssid with Some mac => Ok (Some mac) | None => fail InvalidArgument end
    | None => Ok None
    end in
  Ok (shuli_network (wifi_ssid wifi_cfg) (wifi_password wifi_cfg) (wifi_hidden wifi_cfg) bssid false
        match loaded_hints with
        | Some loaded => if hints_are_empty loaded then hints_default else loaded
        | None => hints_default
        end).

Definition has_ssid (ssid : string) (n : ShuliNetwork) : bool := String.eqb (sn_ssid n) ssid.

(** Credentials or pins of one SSID that differ. *)
Definition networks_conflict (existing network : ShuliNetwork) : bool :=
  negb (bool_decide (sn_password existing = sn_password network)) ||
  negb (bool_decide (sn_bssid existing = sn_bssid network)).

(** The loop that [build_shuli_networks] and [merge_preferred_networks] share; [mark] is
    applied to what is pushed. *)
Fixpoint gather_networks (mark : ShuliNetwork → ShuliNetwork) (hint_map : gmap string LoadedHints)
    (ret : list ShuliNetwork) (wifi_cfgs : list WifiConfig) : res (list ShuliNetwork) :=
  match wifi_cfgs with
  | [] => Ok ret
  | wifi_cfg :: wifi_cfgs' =>
      let? network := build_shuli_network wifi_cfg (hint_map !! wifi_ssid wifi_cfg) in
      match List.find (has_ssid (sn_ssid network)) ret with
      | Some existing =>
          if networks_conflict existing network then fail InvalidArgument
          else gather_networks mark hint_map ret wifi_cfgs'
      | None => gather_networks mark hint_map (ret ++ [mark network]) wifi_cfgs'
      end
  end.

Definition build_shuli_networks (wifi_cfgs : list WifiConfig) (hint_map : gmap string LoadedHints) :
    res (list ShuliNetwork) :=
  gather_networks id hint_map [] wifi_cfgs.

(** The closure [normalized]. *)
Definition normalized (n : ShuliNetwork) : ShuliNetwork := set_hints hints_default (set_prefered false n).

(** The first unmatched equal entry is marked. *)
Fixpoint mark_match (network : ShuliNetwork) (desired : list (bool * ShuliNetwork)) :
    option (list (bool * ShuliNetwork)) :=
  match desired with
  | [] => None
  | (matched, other) :: desired' =>
      if negb matched && bool_decide (other = network) then Some ((true, other) :: desired')
      else cons (matched, other) <$> mark_match network desired'
  end.

Fixpoint match_all (current : list ShuliNetwork) (desired : list (bool * ShuliNetwork)) : bool :=
  match current with
  | [] => true
  | network :: current' =>
      match mark_match network desired with
      | Some desired => match_all current' desired
      | None => false
      end
  end.

Definition same_saved_networks_ignoring_prefered (current desired : list ShuliNetwork) : bool :=
  (length current =? length desired)%nat &&
  match_all (map normalized current) (map (λ n, (false, normalized n)) desired).

Definition should_reconnect_to_networks (live_ssid : option string) (networks : list ShuliNetwork)
    (force : bool) (preferred_ssid : option string) : bool :=
  if negb force || bool_decide (networks = []) then false
  else
    match preferred_ssid with
    | Some _ => negb (bool_decide (live_ssid = preferred_ssid))
    | None => negb match live_ssid with Some ssid => existsb (has_ssid ssid) networks | None => false end
    end.

Definition refresh_hints (current desired : list ShuliNetwork) : list ShuliNetwork :=
  map (λ n, match List.find (has_ssid (sn_ssid n)) desired with
            | Some fresh => set_hints (sn_hints fresh) n
            | None => n
            end) current.

(** [position] and [remove]. *)
Fixpoint take_first {A} (f : A → bool) (l : list A) : option (A * list A) :=
  match l with
  | [] => None
  | x :: l' => if f x then Some (x, l') else prod_map id (cons x) <$> take_first f l'
  end.

Fixpoint merge_existing (existing requested : list ShuliNetwork) : list ShuliNetwork :=
  match existing with
  | [] => requested
  | network :: existing' =>
      match take_first (has_ssid (sn_ssid network)) requested with
      | Some (fresh, rest) => fresh :: merge_existing existing' rest
      | None => set_hints hints_default (set_prefered false network) :: merge_existing existing' requested
      end
  end.

Definition merge_preferred_networks (existing : list ShuliNetwork) (wifi_cfgs : list WifiConfig)
    (hint_map : gmap string LoadedHints) : res (list ShuliNetwork) :=
  let? requested := gather_networks (set_prefered true) hint_map [] wifi_cfgs in
  Ok (merge_existing existing requested).

(** ** One list per NIC *)

Lemma find_has_ssid ssid l n : List.find (has_ssid ssid) l = Some n → n ∈ l ∧ sn_ssid n = ssid.
Proof. intros [Hin H%String.eqb_eq]%find_some. by rewrite list_elem_of_In. Qed.

Lemma find_has_ssid_none ssid l : List.find (has_ssid ssid) l = None → ssid ∉ sn_ssid <$> l.
Proof.
  intros H (n & -> & Hn)%list_elem_of_fmap. apply list_elem_of_In in Hn.
  pose proof (find_none _ _ H n Hn) as E. by apply String.eqb_neq in E.
Qed.

Lemma build_shuli_network_ok w h n :
  build_shuli_network w h = Ok n →
  sn_ssid n = wifi_ssid w ∧ sn_password n = wifi_password w ∧ sn_hidden n = wifi_hidden w ∧
  sn_prefered n = false ∧ sn_bssid n = (wifi_bssid w ≫= mac_from_string).
Proof.
  unfold build_shuli_network. destruct (wifi_bssid w) as [b|]; simpl; [|by intros [= <-]].
  destruct (mac_from_string b) as [m|]; simpl; [|done]. by intros [= <-].
Qed.

Lemma build_shuli_network_err w h e :
  build_shuli_network w h = Err e →
  kind e = InvalidArgument ∧ ∃ b, wifi_bssid w = Some b ∧ mac_from_string b = None.
Proof.
  unfold build_shuli_network. destruct (wifi_bssid w) as [b|]; simpl; [|done].
  destruct (mac_from_string b) as [m|] eqn:E; simpl; [done|]. intros [= <-]. eauto.
Qed.

(** Two sections that cannot be one network. *)
Definition cfgs_conflict (w1 w2 : WifiConfig) : Prop :=
  wifi_ssid w1 = wifi_ssid w2 ∧
  (wifi_password w1 ≠ wifi_password w2 ∨
   (wifi_bssid w1 ≫= mac_from_string) ≠ (wifi_bssid w2 ≫= mac_from_string)).

Definition bad_bssid (w : WifiConfig) : Prop := ∃ b, wifi_bssid w = Some b ∧ mac_from_string b = None.

Lemma build_not_bad w h n : build_shuli_network w h = Ok n → ¬ bad_bssid w.
Proof.
  intros H (b & Hb & Hm). unfold build_shuli_network in H. by rewrite Hb, Hm in H.
Qed.

(** A network of the list comes from a section. *)
Definition network_of (n : ShuliNetwork) (w : WifiConfig) : Prop :=
  sn_ssid n = wifi_ssid w ∧ sn_password n = wifi_password w ∧
  sn_bssid n = (wifi_bssid w ≫= mac_from_string).

Lemma networks_conflict_iff n m w :
  network_of m w → networks_conflict n m = false ↔
    sn_password n = wifi_password w ∧ sn_bssid n = (wifi_bssid w ≫= mac_from_string).
Proof.
  intros (_ & Hp & Hb). unfold networks_conflict.
  rewrite orb_false_iff, !negb_false_iff, !bool_decide_eq_true. by rewrite Hp, Hb.
Qed.

Section Gather.
Context (mark : ShuliNetwork → ShuliNetwork) (hint_map : gmap string LoadedHints).
Context (mark_keeps : ∀ n w, network_of n w → network_of (mark n) w).

(** What the loop maintains about the sections it has seen. *)
Definition gathered (seen : list WifiConfig) (ret : list ShuliNetwork) : Prop :=
  NoDup (sn_ssid <$> ret) ∧
  (∀ n, n ∈ ret → ∃ w n0, w ∈ seen ∧ network_of n w ∧ n = mark n0 ∧
     build_shuli_network w (hint_map !! wifi_ssid w) = Ok n0) ∧
  (∀ w, w ∈ seen → ¬ bad_bssid w ∧ ∃ n, n ∈ ret ∧ network_of n w).

Lemma gathered_nil : gathered [] [].
Proof. split_and!; [by apply NoDup_nil|..]; by intros x Hx%elem_of_nil. Qed.

Lemma gathered_known seen ret w n :
  gathered seen ret → ¬ bad_bssid w → n ∈ ret → network_of n w → gathered (seen ++ [w]) ret.
Proof.
  intros (H1 & H2 & H3) Hb Hn Hw. split_and!; [done| |].
  - intros m (w' & n0 & Hw' & ? & ? & ?)%H2. exists w', n0. rewrite elem_of_app. by split_and!; [left|..].
  - intros w' [Hw'| ->%list_elem_of_singleton]%elem_of_app; [by apply H3|eauto].
Qed.

Lemma gathered_new seen ret w n0 :
  gathered seen ret → build_shuli_network w (hint_map !! wifi_ssid w) = Ok n0 →
  sn_ssid n0 ∉ sn_ssid <$> ret → gathered (seen ++ [w]) (ret ++ [mark n0]).
Proof.
  intros (H1 & H2 & H3) Hb Hni.
  assert (network_of n0 w) as Hn by (apply build_shuli_network_ok in Hb; unfold network_of; tauto).
  pose proof (mark_keeps _ _ Hn) as Hm.
  assert (sn_ssid (mark n0) = sn_ssid n0) as Hs by (destruct Hn, Hm; congruence).
  split_and!.
  - rewrite fmap_app. apply NoDup_app. split_and!; [done| |apply NoDup_singleton].
    intros s Hs1 Hs2%list_elem_of_singleton. apply Hni. by rewrite <-Hs, <-Hs2.
  - intros m [(w' & n1 & Hw' & ? & ? & ?)%H2| ->%list_elem_of_singleton]%elem_of_app.
    + exists w', n1. rewrite elem_of_app. by split_and!; [left|..].
    + exists w, n0. rewrite elem_of_app, list_elem_of_singleton. by split_and!; [right|..].
  - intros w' [(Hb' & n & Hn1 & Hn2)%H3| ->%list_elem_of_singleton]%elem_of_app.
    + split; [done|]. exists n. rewrite elem_of_app. by split; [left|].
    + split; [by eapply build_not_bad|]. exists (mark n0). rewrite elem_of_app, list_elem_of_singleton. by split; [right|].
Qed.

(** Why the loop fails, before and after one more section. *)
Lemma later_error (P : Prop) seen w cfgs :
  (P ∧ ((∃ w', w' ∈ cfgs ∧ bad_bssid w') ∨
        ∃ w1 w2, w1 ∈ seen ++ w :: cfgs ∧ w2 ∈ cfgs ∧ cfgs_conflict w1 w2)) →
  P ∧ ((∃ w', w' ∈ w :: cfgs ∧ bad_bssid w') ∨
       ∃ w1 w2, w1 ∈ seen ++ w :: cfgs ∧ w2 ∈ w :: cfgs ∧ cfgs_conflict w1 w2).
Proof.
  intros [HP [(w' & Hw & Hb)|(w1 & w2 & Hw1 & Hw2 & Hc)]]; (split; [done|]).
  - left. exists w'. split; [by right|done].
  - right. exists w1, w2. split_and!; [done|by right|done].
Qed.

Lemma gather_networks_spec wifi_cfgs : ∀ seen ret,
  gathered seen ret →
  match gather_networks mark hint_map ret wifi_cfgs with
  | Ok l => gathered (seen ++ wifi_cfgs) l ∧ ∃ l', l = ret ++ l'
  | Err e =>
      kind e = InvalidArgument ∧
      ((∃ w, w ∈ wifi_cfgs ∧ bad_bssid w) ∨
       ∃ w1 w2, w1 ∈ seen ++ wifi_cfgs ∧ w2 ∈ wifi_cfgs ∧ cfgs_conflict w1 w2)
  end.
Proof.
  induction wifi_cfgs as [|w cfgs IH]; intros seen ret Hg; cbn [gather_networks].
  { rewrite app_nil_r. split; [done|]. exists []. by rewrite app_nil_r. }
  destruct (build_shuli_network w _) as [n0|e] eqn:Eb.
  2: { apply build_shuli_network_err in Eb as [? ?]. split; [done|]. left. exists w. rewrite elem_of_cons. auto. }
  assert (network_of n0 w) as Hn by (apply build_shuli_network_ok in Eb; unfold network_of; tauto).
  destruct (List.find _ ret) as [n|] eqn:Ef.
  - apply find_has_ssid in Ef as [Hin Hs]. destruct (networks_conflict n n0) eqn:Ec.
    + split; [done|]. right. destruct Hg as (_ & H2 & _).
      destruct (H2 n Hin) as (w1 & _ & Hw1 & (Hs1 & Hp1 & Hb1) & _). exists w1, w.
      split; [set_solver|]. split; [set_solver|]. destruct Hn as (Hs0 & Hp0 & Hb0). split; [congruence|].
      destruct (decide (wifi_password w1 = wifi_password w)) as [E|]; [right|by left]. intros E'.
      assert (networks_conflict n n0 = false); [|congruence].
      apply (networks_conflict_iff n n0 w); [done|]. split; congruence.
    + apply (networks_conflict_iff n n0 w) in Ec as [Hp Hb]; [|done].
      specialize (IH (seen ++ [w]) ret). rewrite <-(assoc_L app) in IH. simpl in IH.
      assert (network_of n w) as Hnw by (split_and!; [destruct Hn; congruence|done|done]).
      specialize (IH (gathered_known _ _ _ _ Hg (build_not_bad _ _ _ Eb) Hin Hnw)).
      destruct (gather_networks _ _ ret cfgs); [done|]. by apply later_error.
  - apply find_has_ssid_none in Ef. specialize (IH (seen ++ [w]) (ret ++ [mark n0])).
    rewrite <-(assoc_L app) in IH. simpl in IH. specialize (IH (gathered_new _ _ _ _ Hg Eb Ef)).
    destruct (gather_networks _ _ (ret ++ [mark n0]) cfgs).
    + destruct IH as [? (l' & ->)]. split; [done|]. exists (mark n0 :: l'). by rewrite <-(assoc_L app).
    + by apply later_error.
Qed.

Lemma gather_networks_ok wifi_cfgs l :
  gather_networks mark hint_map [] wifi_cfgs = Ok l → gathered wifi_cfgs l.
Proof.
  intros H. pose proof (gather_networks_spec wifi_cfgs [] []) as S. rewrite H in S. apply S.
  apply gathered_nil.
Qed.

End Gather.

Lemma gathered_no_conflict mark hm cfgs l w1 w2 :
  gathered mark hm cfgs l → w1 ∈ cfgs → w2 ∈ cfgs → ¬ cfgs_conflict w1 w2.
Proof.
  intros (H1 & _ & H3) (_ & n1 & Hn1 & Hs1 & Hp1 & Hb1)%H3 (_ & n2 & Hn2 & Hs2 & Hp2 & Hb2)%H3 [Hs Hc].
  assert (n1 = n2) as ->; [|destruct Hc; congruence].
  apply list_elem_of_lookup in Hn1 as [i Hi]. apply list_elem_of_lookup in Hn2 as [j Hj].
  assert (i = j) as ->; [|congruence].
  eapply (NoDup_lookup _ i j (sn_ssid n1) H1); rewrite list_lookup_fmap, ?Hi, ?Hj; simpl; congruence.
Qed.

(** The list of a NIC is refused exactly if a section pins an access point by something that
    is not an address, or two sections for one SSID differ in password or pin; otherwise it has
    one network per SSID, each with the settings of a section, and none is preferred. *)
Theorem build_shuli_networks_correct cfgs hint_map :
  match build_shuli_networks cfgs hint_map with
  | Ok l =>
      NoDup (sn_ssid <$> l) ∧ (∀ w, w ∈ cfgs → ∃ n, n ∈ l ∧ network_of n w) ∧
      (∀ n, n ∈ l → sn_prefered n = false ∧ ∃ w, w ∈ cfgs ∧ network_of n w) ∧
      (∀ w, w ∈ cfgs → ¬ bad_bssid w) ∧ ∀ w1 w2, w1 ∈ cfgs → w2 ∈ cfgs → ¬ cfgs_conflict w1 w2
  | Err e =>
      kind e = InvalidArgument ∧
      ((∃ w, w ∈ cfgs ∧ bad_bssid w) ∨ ∃ w1 w2, w1 ∈ cfgs ∧ w2 ∈ cfgs ∧ cfgs_conflict w1 w2)
  end.
Proof.
  pose proof (gather_networks_spec id hint_map (λ _ _ H, H) cfgs [] []) as S. unfold build_shuli_networks.
  specialize (S (gathered_nil _ _)). destruct (gather_networks _ _ _ _) as [l|e]; [|done]. destruct S as [Hg _].
  destruct (id Hg) as (H1 & H2 & H3). split_and!.
  - done.
  - intros w Hw. by apply H3.
  - intros n (w & n0 & Hw & Hn & -> & Hb)%H2. split; [by apply build_shuli_network_ok in Hb as (_ & _ & _ & ? & _)|by exists w].
  - intros w Hw. by apply H3.
  - intros w1 w2. by eapply gathered_no_conflict.
Qed.

(** ** The same configuration *)

(** What is left to match. *)
Definition unmatched (l : list (bool * ShuliNetwork)) : list ShuliNetwork :=
  (List.filter (λ e, negb e.1) l).*2.

Lemma mark_match_spec n l :
  match mark_match n l with
  | Some l' => unmatched l ≡ₚ n :: unmatched l'
  | None => n ∉ unmatched l
  end.
Proof.
  induction l as [|[m o] l IH]; simpl; [apply not_elem_of_nil|].
  destruct m; cbn [negb andb].
  - destruct (mark_match n l); simpl; [|done]. exact IH.
  - case_bool_decide as E; [by subst|]. destruct (mark_match n l); simpl.
    + unfold unmatched in *. simpl. rewrite IH. apply perm_swap.
    + unfold unmatched in *. simpl. by intros [->|H]%elem_of_cons.
Qed.

Lemma match_all_iff current : ∀ desired,
  match_all current desired = true ↔ ∃ rest, unmatched desired ≡ₚ current ++ rest.
Proof.
  induction current as [|n current IH]; intros desired; simpl; [split; [eauto|done]|].
  pose proof (mark_match_spec n desired) as Hm. destruct (mark_match n desired) as [l|].
  - rewrite IH. split; intros [rest Hr]; exists rest.
    + by rewrite Hm, Hr.
    + rewrite Hm in Hr. by apply Permutation.Permutation_cons_inv in Hr.
  - split; [done|]. intros [rest Hr]. exfalso. apply Hm. rewrite Hr. by left.
Qed.

Lemma match_all_same l l0 :
  (length l =? length l0)%nat = true →
  match_all (map normalized l) (map (λ n, (false, normalized n)) l0) = true ↔
    map normalized l ≡ₚ map normalized l0.
Proof.
  rewrite Nat.eqb_eq, match_all_iff. intros Hl.
  assert (unmatched (map (λ n, (false, normalized n)) l0) = map normalized l0) as ->.
  { clear Hl. induction l0 as [|n l0 IH]; [done|]. unfold unmatched in *. simpl. by f_equal. }
  split; [|intros H; exists []; by rewrite app_nil_r, H].
  intros [rest Hr]. assert (rest = []) as ->.
  { apply Permutation_length in Hr. rewrite length_app, !length_map in Hr.
    destruct rest; [done|]. simpl in Hr. lia. }
  by rewrite app_nil_r in Hr.
Qed.

(** Two lists carry the same saved configuration exactly if, but for the preferences and
    the hints, one is a permutation of the other: neither the order of a hash map nor a
    recorded access point restarts an association, and duplicates are counted. *)
Theorem same_saved_networks_iff current desired :
  same_saved_networks_ignoring_prefered current desired = true ↔
    map normalized current ≡ₚ map normalized desired.
Proof.
  unfold same_saved_networks_ignoring_prefered. rewrite andb_true_iff. split.
  - intros [Hl Hm]. by apply match_all_same.
  - intros H. assert ((length current =? length desired)%nat = true) as Hl.
    { apply Permutation_length in H. rewrite !length_map in H. by apply Nat.eqb_eq. }
    split; [done|by apply match_all_same].
Qed.

(** ** A preferred network *)

Lemma take_first_spec {A} (f : A → bool) l :
  match take_first f l with
  | Some (x, rest) => f x = true ∧ l ≡ₚ x :: rest ∧ ∃ l1 l2, l = l1 ++ x :: l2 ∧ rest = l1 ++ l2
  | None => ∀ x, x ∈ l → f x = false
  end.
Proof.
  induction l as [|y l IH]; simpl; [intros x Hx; by apply elem_of_nil in Hx|].
  destruct (f y) eqn:E; [split_and!; [done..|]; by exists [], l|].
  destruct (take_first f l) as [[x rest]|]; simpl.
  - destruct IH as (H1 & H2 & l1 & l2 & -> & ->). split; [done|]. split.
    + rewrite H2. apply perm_swap.
    + by exists (y :: l1), l2.
  - intros x [->|Hx]%elem_of_cons; [done|by apply IH].
Qed.

(** The networks whose SSID is none of these. *)
Definition not_among (ssids : list string) (l : list ShuliNetwork) : list ShuliNetwork :=
  List.filter (λ n, negb (bool_decide (sn_ssid n ∈ ssids))) l.

Lemma elem_of_not_among ssids l n : n ∈ not_among ssids l ↔ n ∈ l ∧ sn_ssid n ∉ ssids.
Proof.
  unfold not_among. rewrite list_elem_of_In, filter_In, <-list_elem_of_In.
  by rewrite negb_true_iff, bool_decide_eq_false.
Qed.

Lemma not_among_cons s ssids l :
  s ∉ sn_ssid <$> l → not_among (s :: ssids) l = not_among ssids l.
Proof.
  intros Hs. apply filter_ext_in. intros n Hn%list_elem_of_In. f_equal. apply bool_decide_ext.
  rewrite elem_of_cons. split; [|by right]. intros [<-|H]; [|done].
  exfalso. by apply Hs, list_elem_of_fmap_2.
Qed.

Lemma not_among_take s ssids l1 n l2 :
  sn_ssid n = s → NoDup (sn_ssid <$> l1 ++ n :: l2) →
  not_among (s :: ssids) (l1 ++ n :: l2) = not_among ssids (l1 ++ l2) ∧
  NoDup (sn_ssid <$> l1 ++ l2) ∧ s ∉ sn_ssid <$> l1 ++ l2.
Proof.
  intros <- Hd. rewrite fmap_app, fmap_cons in Hd.
  apply NoDup_app in Hd as (H1 & H2 & [H3 H4]%NoDup_cons).
  assert (sn_ssid n ∉ sn_ssid <$> l1 ++ l2) as Hn.
  { rewrite fmap_app, elem_of_app. intros [H|H]; [|done]. apply (H2 _ H). by left. }
  split_and!; [|rewrite fmap_app; apply NoDup_app; split_and!; [done| |done]|done].
  - rewrite <-(not_among_cons _ _ _ Hn). unfold not_among. rewrite !List.filter_app. f_equal. simpl.
    by rewrite bool_decide_eq_true_2 by by left.
  - intros x Hx Hx2. apply (H2 _ Hx). by right.
Qed.

(** The entries of the merged list, and their order. *)
Lemma merge_existing_ssids existing : ∀ requested,
  NoDup (sn_ssid <$> requested) →
  sn_ssid <$> merge_existing existing requested =
    (sn_ssid <$> existing) ++ (sn_ssid <$> not_among (sn_ssid <$> existing) requested).
Proof.
  induction existing as [|m existing IH]; intros requested Hd.
  { simpl. f_equal. symmetry. apply forallb_filter_id. apply forallb_forall. intros n _. done. }
  cbn [merge_existing]. pose proof (take_first_spec (has_ssid (sn_ssid m)) requested) as Ht.
  destruct (take_first _ requested) as [[fresh rest]|].
  - destruct Ht as (Hs%String.eqb_eq & _ & l1 & l2 & -> & ->).
    destruct (not_among_take _ (sn_ssid <$> existing) _ _ _ Hs Hd) as (E & Hd' & _).
    rewrite !fmap_cons, E, (IH _ Hd'), Hs. done.
  - rewrite !fmap_cons, (IH _ Hd). simpl. f_equal. f_equal. f_equal. symmetry. apply not_among_cons.
    intros (n & Hn & Hin)%list_elem_of_fmap. specialize (Ht n Hin).
    unfold has_ssid in Ht. apply String.eqb_neq in Ht. congruence.
Qed.

Lemma merge_existing_entries existing : ∀ requested n,
  NoDup (sn_ssid <$> requested) → NoDup (sn_ssid <$> existing) →
  n ∈ merge_existing existing requested ↔
    n ∈ requested ∨ ∃ m, m ∈ existing ∧ (sn_ssid m ∉ sn_ssid <$> requested) ∧ n = normalized m.
Proof.
  induction existing as [|m existing IH]; intros requested n Hd He.
  { split; [by left|]. intros [H|(m & H%elem_of_nil & _)]; done. }
  rewrite fmap_cons in He. apply NoDup_cons in He as [Hm He].
  cbn [merge_existing]. pose proof (take_first_spec (has_ssid (sn_ssid m)) requested) as Ht.
  destruct (take_first _ requested) as [[fresh rest]|].
  - destruct Ht as (Hs%String.eqb_eq & Hp & l1 & l2 & -> & ->).
    destruct (not_among_take _ [] _ _ _ Hs Hd) as (_ & Hd' & Hr).
    rewrite elem_of_cons, (IH _ _ Hd' He), Hp, elem_of_cons, Logic.or_assoc. do 2 f_equiv.
    split; intros (m' & Hm' & Hni & ->).
    + exists m'. split_and!; [by right| |done]. rewrite Hp, fmap_cons, elem_of_cons. intros [E|]; [|done].
      apply Hm. rewrite <-Hs, <-E. by apply list_elem_of_fmap_2.
    + rewrite Hp, fmap_cons, elem_of_cons in Hni. apply elem_of_cons in Hm' as [->|Hm']; [by exfalso; apply Hni; left|].
      exists m'. tauto.
  - assert (sn_ssid m ∉ sn_ssid <$> requested) as Hni.
    { intros (k & Hk & Hin)%list_elem_of_fmap. specialize (Ht k Hin).
      unfold has_ssid in Ht. apply String.eqb_neq in Ht. congruence. }
    rewrite elem_of_cons, (IH _ _ Hd He). split.
    + intros [->|[H|(m' & ? & ? & ->)]]; [right|by left|right].
      * exists m. split_and!; [by left|done|done].
      * exists m'. split_and!; [by right|done|done].
    + intros [H|(m' & [->|Hm']%elem_of_cons & ? & ->)]; [by right; left|by left|].
      right. right. eauto.
Qed.

Lemma nodup_filtered (f : ShuliNetwork → bool) l :
  NoDup (sn_ssid <$> l) → NoDup (sn_ssid <$> List.filter f l).
Proof.
  induction l as [|n l IH]; [done|]. rewrite fmap_cons. intros [Hn Hd]%NoDup_cons. simpl.
  destruct (f n); [|by apply IH]. rewrite fmap_cons. apply NoDup_cons. split; [|by apply IH].
  intros (k & Hk & Hin)%list_elem_of_fmap. apply Hn. rewrite Hk. apply list_elem_of_fmap_2.
  apply list_elem_of_In. apply list_elem_of_In, filter_In in Hin. tauto.
Qed.

Lemma merge_existing_nodup existing requested :
  NoDup (sn_ssid <$> requested) → NoDup (sn_ssid <$> existing) →
  NoDup (sn_ssid <$> merge_existing existing requested).
Proof.
  intros Hd He. rewrite (merge_existing_ssids _ _ Hd), NoDup_app. split_and!; [done| |by apply nodup_filtered].
  intros s Hs (n & -> & [_ Hn]%elem_of_not_among)%list_elem_of_fmap. done.
Qed.

Lemma build_networks_nodup cfgs hint_map l :
  build_shuli_networks cfgs hint_map = Ok l → NoDup (sn_ssid <$> l).
Proof. intros [H _]%gather_networks_ok; done. Qed.

Lemma merge_preferred_networks_nodup existing cfgs hint_map l :
  NoDup (sn_ssid <$> existing) → merge_preferred_networks existing cfgs hint_map = Ok l →
  NoDup (sn_ssid <$> l).
Proof.
  intros He. unfold merge_preferred_networks.
  destruct (gather_networks _ _ _ _) as [requested|] eqn:Eg; [|done]. intros [= <-].
  apply gather_networks_ok in Eg as [Hd _]; [|done]. by apply merge_existing_nodup.
Qed.

(** The hints change nothing else of a list. *)
Definition agree (l l0 : list ShuliNetwork) : Prop := map normalized l = map normalized l0.

Lemma agree_find ssid l : ∀ l0,
  agree l l0 →
  match List.find (has_ssid ssid) l, List.find (has_ssid ssid) l0 with
  | Some n, Some n0 => normalized n = normalized n0
  | None, None => True
  | _, _ => False
  end.
Proof.
  unfold agree. induction l as [|n l IH]; intros [|n0 l0] H; try done.
  injection H as H1 H2 H3 H4 H. simpl.
  assert (has_ssid ssid n = has_ssid ssid n0) as -> by (unfold has_ssid; by rewrite H1).
  destruct (has_ssid ssid n0); [|by apply IH]. unfold normalized, set_hints, set_prefered. simpl.
  by rewrite H1, H2, H3, H4.
Qed.

Lemma build_network_hints w h n :
  build_shuli_network w h = Ok n →
  ∃ n0, build_shuli_network w None = Ok n0 ∧ normalized n = normalized n0.
Proof.
  unfold build_shuli_network. destruct (match wifi_bssid w with Some _ => _ | None => _ end); [|done].
  intros [= <-]. by eexists.
Qed.

Lemma gather_networks_hints hint_map cfgs : ∀ ret ret0 l,
  agree ret ret0 → gather_networks id hint_map ret cfgs = Ok l →
  ∃ l0, gather_networks id ∅ ret0 cfgs = Ok l0 ∧ agree l l0.
Proof.
  induction cfgs as [|w cfgs IH]; intros ret ret0 l Ha; cbn [gather_networks]; [intros [= <-]; eauto|].
  rewrite lookup_empty. destruct (build_shuli_network w (_ !! _)) as [n|] eqn:En; [|done].
  apply build_network_hints in En as (n0 & -> & Hn).
  assert (sn_ssid n = sn_ssid n0 ∧ sn_password n = sn_password n0 ∧ sn_bssid n = sn_bssid n0) as (Hs & Hp & Hb)
    by (injection Hn; auto).
  rewrite <-Hs. pose proof (agree_find (sn_ssid n) _ _ Ha) as Hf.
  destruct (List.find _ ret) as [m|], (List.find _ ret0) as [m0|]; try done.
  - assert (networks_conflict m0 n0 = networks_conflict m n) as ->
      by (unfold networks_conflict; injection Hf as _ E1 _ E2; by rewrite E1, E2, Hp, Hb).
    destruct (networks_conflict m n); [done|]. by apply IH.
  - apply IH. unfold agree in *. rewrite !map_app, Ha. simpl. by rewrite Hn.
Qed.

Lemma build_networks_hints cfgs hint_map l :
  build_shuli_networks cfgs hint_map = Ok l →
  ∃ l0, build_shuli_networks cfgs ∅ = Ok l0 ∧ agree l l0.
Proof. by apply gather_networks_hints. Qed.

(** [npt up] of a network keeps the others: the merged list has the SSIDs it had, in their
    order, then the new ones; the requested networks, with the settings of their sections, are
    preferred, and no other is, and the others keep their settings and lose their hints, so
    that they do not narrow the scan. *)
Theorem merge_preferred_networks_correct existing cfgs hint_map l :
  NoDup (sn_ssid <$> existing) → merge_preferred_networks existing cfgs hint_map = Ok l →
  NoDup (sn_ssid <$> l) ∧ (sn_ssid <$> existing) `prefix_of` (sn_ssid <$> l) ∧
  (∀ w, w ∈ cfgs → ∃ n, n ∈ l ∧ network_of n w) ∧
  ∀ n, n ∈ l →
    (sn_prefered n = true ∧ ∃ w, w ∈ cfgs ∧ network_of n w) ∨
    (sn_prefered n = false ∧ sn_hints n = hints_default ∧
     (sn_ssid n ∉ wifi_ssid <$> cfgs) ∧ ∃ m, m ∈ existing ∧ n = normalized m).
Proof.
  intros He. unfold merge_preferred_networks.
  destruct (gather_networks _ _ _ _) as [requested|] eqn:Eg; [|done]. intros [= <-].
  apply gather_networks_ok in Eg as (Hd & Hfrom & Hhas); [|done].
  split_and!.
  - by apply merge_existing_nodup.
  - rewrite (merge_existing_ssids _ _ Hd). by apply prefix_app_r.
  - intros w (_ & n & Hn & Hw)%Hhas. exists n. split; [|done]. apply merge_existing_entries; auto.
  - intros n [Hn|(m & Hm & Hni & ->)]%merge_existing_entries; [left|right|done..].
    + destruct (Hfrom n Hn) as (w & n0 & Hw & Hnw & -> & _). eauto.
    + split_and!; [done..| |eauto]. intros (w & Es & (_ & k & Hk & Hkw)%Hhas)%list_elem_of_fmap.
      apply Hni. simpl in Es. rewrite Es. destruct Hkw as [<- _]. by apply list_elem_of_fmap_2.
Qed.

(** New hints change neither what is saved nor what is preferred. *)
Lemma refresh_hints_normalized current desired :
  map normalized (refresh_hints current desired) = map normalized current ∧
  (sn_ssid <$> refresh_hints current desired) = sn_ssid <$> current.
Proof.
  unfold refresh_hints. induction current as [|n l [IH1 IH2]]; [done|]. csimpl.
  rewrite IH1, IH2. by destruct (List.find _ desired).
Qed.

Lemma latched_connect_error_cleared errors ifaces iface_name ssid :
  ssid ∈ applied_ssids ifaces →
  latched_connect_error (clear_applied_connect_errors errors ifaces) iface_name ssid = None.
Proof.
  intros Hs. unfold latched_connect_error, clear_applied_connect_errors.
  destruct (filter _ errors !! iface_name) as [e|] eqn:E; [|done].
  apply map_lookup_filter_Some in E as [_ Hni]. cbn in *.
  destruct (String.eqb_spec (we_ssid e) ssid) as [E|]; [by rewrite E in Hni|done].
Qed.

(** ** Examples *)

Definition ex_cafe : WifiConfig := wifi_of "cafe" None (Some "secret") false None.
Definition ex_home : ShuliNetwork :=
  shuli_network "home" (Some "1234") false None true (loaded_hints [2412] []).

Lemma merge_preferred_networks_correct_witness :
  ∃ l, merge_preferred_networks [ex_home] [ex_cafe] ∅ = Ok l ∧
       (sn_ssid <$> [ex_home]) `prefix_of` (sn_ssid <$> l).
Proof.
  eexists. split; [reflexivity|].
  apply (merge_preferred_networks_correct [ex_home] [ex_cafe] ∅); [|reflexivity].
  apply NoDup_singleton.
Defined.
