(* ===== verification/WifiPlugin.v ===== *)
(** * WifiPlugin: the WIFI plugin and its worker

    [src/plugin-wifi/apply.rs]: [WifiClientState], the one client of all WIFI NICs with what
    the plugin keeps about each of them; [plugin.rs]: the requests, which a worker serves one
    after the other between the cycles of the client; [query.rs]: the state it answers with.
    The client, of the crate [shuli_wifi], and nl80211 are an interface. *)

From S2P Require Export WifiNetworks IfaceAction.

#[local] Open Scope Z_scope.

(** ** The client *)

(** What a cycle of the client ends with. *)
Inductive ShuliState : Type :=
| ConnectedWithoutOffloadRekey | ConnectedWithOffloadRekey
| ShFailed | ShFailedAuthentication | ShOtherState.

Inductive ShuliRun : Type :=
| RunResult (iface_name : string) (state : ShuliState)
| RunError (k : ShuliErrorKind) (iface_name ssid : option string).

(** [C] is a client, [K] what is outside of the plugin.  A boolean is whether the call went
    well; [sh_export_hints] is the address and the frequency of the access point. *)
Class Shuli (C K : Type) : Type := {
  get_wifi_ifaces : K → list (string * Z) * K;
  sh_init : list (string * list ShuliNetwork) → K → option C * K;
  sh_add_iface : string → list ShuliNetwork → C → K → bool * C * K;
  sh_remove_iface : string → C → K → bool * C * K;
  sh_update_networks : string → list ShuliNetwork → C → K → bool * C * K;
  sh_shutdown : C → K → bool * C * K;
  sh_notify_resume : C → K → bool * C * K;
  sh_run : C → K → ShuliRun * C * K;
  sh_current_ssid : C → string → option string;
  sh_current_bssid : C → string → option (list Z);
  sh_export_hints : C → string → option (option (list Z) * option Z);
  sh_hint_io : K → HintIo;
  days_since_epoch_utc : K → Z;
}.

(** [WifiClientState] with what it shares with the plugin, the directory of the hints, and the
    outside. *)
Record WifiClientState (C K : Type) : Type := wifi_client_state {
  wc_client : option C;
  wc_ifaces : gmap string WifiIfaceState;
  wc_live : gmap string WifiLiveState;
  wc_errors : gmap string WifiConnectError;
  wc_enabled : bool;
  wc_enabled_flag : bool;
  wc_connected : bool;
  wc_hints : HintDir;
  wc_out : K;
}.
Arguments wifi_client_state {C K}. Arguments wc_client {C K}. Arguments wc_ifaces {C K}.
Arguments wc_live {C K}. Arguments wc_errors {C K}. Arguments wc_enabled {C K}.
Arguments wc_enabled_flag {C K}. Arguments wc_connected {C K}. Arguments wc_hints {C K}.
Arguments wc_out {C K}.

Section State.
Context {C K : Type}.
Abbreviation St := (WifiClientState C K).

Definition upd_client (v : option C) (s : St) : St :=
  wifi_client_state v (wc_ifaces s) (wc_live s) (wc_errors s) (wc_enabled s) (wc_enabled_flag s)
    (wc_connected s) (wc_hints s) (wc_out s).
Definition upd_ifaces (f : gmap string WifiIfaceState → gmap string WifiIfaceState) (s : St) : St :=
  wifi_client_state (wc_client s) (f (wc_ifaces s)) (wc_live s) (wc_errors s) (wc_enabled s)
    (wc_enabled_flag s) (wc_connected s) (wc_hints s) (wc_out s).
Definition upd_live (v : gmap string WifiLiveState) (connected : bool) (s : St) : St :=
  wifi_client_state (wc_client s) (wc_ifaces s) v (wc_errors s) (wc_enabled s) (wc_enabled_flag s)
    connected (wc_hints s) (wc_out s).
Definition upd_errors (f : gmap string WifiConnectError → gmap string WifiConnectError) (s : St) : St :=
  wifi_client_state (wc_client s) (wc_ifaces s) (wc_live s) (f (wc_errors s)) (wc_enabled s)
    (wc_enabled_flag s) (wc_connected s) (wc_hints s) (wc_out s).
Definition upd_enabled (v : bool) (s : St) : St :=
  wifi_client_state (wc_client s) (wc_ifaces s) (wc_live s) (wc_errors s) v v
    (wc_connected s) (wc_hints s) (wc_out s).
Definition upd_hints (v : HintDir) (s : St) : St :=
  wifi_client_state (wc_client s) (wc_ifaces s) (wc_live s) (wc_errors s) (wc_enabled s)
    (wc_enabled_flag s) (wc_connected s) v (wc_out s).
Definition upd_out (v : K) (s : St) : St :=
  wifi_client_state (wc_client s) (wc_ifaces s) (wc_live s) (wc_errors s) (wc_enabled s)
    (wc_enabled_flag s) (wc_connected s) (wc_hints s) v.

(** A step that cannot fail. *)
Definition mutate (f : St → St) : Eff St () := λ s, (Ok (), f s).
Definition get {A} (f : St → A) : Eff St A := λ s, (Ok (f s), s).

(** [WifiClientState::new]; the files and the outside are there. *)
Definition wifi_client_state_new (hints : HintDir) (k : K) : St :=
  wifi_client_state None ∅ ∅ ∅ true true false hints k.

Definition clear_live_ifaces : Eff St () := mutate (λ s, upd_live ∅ (wc_connected s) s).
Definition set_connected (v : bool) : Eff St () := mutate (λ s, upd_live (wc_live s) v s).
Definition set_live_connected (iface_name : string) (live : WifiLiveState) : Eff St () :=
  mutate (λ s, upd_live (<[iface_name := live]> (wc_live s)) true s).
Definition clear_live_iface (iface_name : string) : Eff St () :=
  mutate (λ s, let live := delete iface_name (wc_live s) in
               upd_live live (negb (bool_decide (live = ∅))) s).
Definition set_connect_error (iface_name : string) (e : WifiConnectError) : Eff St () :=
  mutate (upd_errors (insert iface_name e)).
Definition clear_connect_error (iface_name : string) : Eff St () :=
  mutate (upd_errors (delete iface_name)).
Definition clear_all_connect_errors : Eff St () := mutate (upd_errors (λ _, ∅)).
Definition has_client (s : St) : bool := match wc_client s with Some _ => true | None => false end.
Definition live_ssid (s : St) (iface_name : string) : option string := wl_ssid <$> wc_live s !! iface_name.

(** A call of the client, if there is one; whether it went well. *)
Definition on_client (f : C → K → bool * C * K) : Eff St bool := λ s,
  match wc_client s with
  | Some c => let '(ok, c', k) := f c (wc_out s) in (Ok ok, upd_out k (upd_client (Some c') s))
  | None => (Ok true, s)
  end.

End State.

(** [WifiWorkerRequest]. *)
Inductive WifiWorkerRequest : Type :=
| WorkerApply (ifaces : list Interface) (opt : NipartApplyOption)
| WorkerControl (control : NipartWifiControl)
| WorkerResume.

(** What the interfaces of an apply ask for. *)
Record WifiPlan : Type := wifi_plan {
  pl_desired : gmap string (list WifiConfig);
  pl_names : gset string;
  pl_ssids : gset string;
}.

Definition bind_cfg (wifi_cfg : WifiConfig) (desired : gmap string (list WifiConfig)) (phy : string) :
    gmap string (list WifiConfig) :=
  <[phy := default [] (desired !! phy) ++ [wifi_cfg]]> desired.

(** The order in which the standard library iterates over the maps and sets, at each place. *)
Record HashOrder : Type := hash_order {
  ho_keys : nat → gset string → list string;
  ho_keys_perm n s : ho_keys n s ≡ₚ elements s;
}.

Section Worker.
Context {C K : Type} `{!Shuli C K}.
Context (to_yaml : PersistedHints → option string) (from_yaml : string → option PersistedHints)
  (order : HashOrder).
Abbreviation St := (WifiClientState C K).

(** [hints::load_hints], [hints::remove], [hints::record_bss]. *)
Definition load_hints (ssid : string) : Eff St LoadedHints := λ s,
  let '(h, d) := load_hints_on_day from_yaml (wc_hints s) ssid (days_since_epoch_utc (wc_out s)) in
  (Ok h, upd_hints d s).
Definition forget_hints (ssid : string) : Eff St () :=
  mutate (λ s, upd_hints (remove_hints (wc_hints s) ssid) s).
Definition record_bss (ssid : string) (bssid : list Z) (freq_mhz : Z) : Eff St () :=
  mutate (λ s, upd_hints (record_bss_on_day to_yaml from_yaml (sh_hint_io (wc_out s)) (wc_hints s)
                            ssid bssid freq_mhz (days_since_epoch_utc (wc_out s))).2 s).

Definition save_quick_start_hints (ssid : string) (hints : option (option (list Z) * option Z)) :
    Eff St () :=
  match hints with
  | Some (Some bssid, Some freq_mhz) => record_bss ssid bssid freq_mhz
  | _ => mret ()
  end.

(** [notify_resume], [shutdown], [start_client], [restart_client]. *)
Definition notify_resume : Eff St () := _ ← on_client sh_notify_resume; mret ().

Definition shutdown : Eff St () :=
  _ ← on_client sh_shutdown;
  _ ← set_connected false;
  _ ← clear_all_connect_errors;
  clear_live_ifaces.

Definition init_client : Eff St () := λ s,
  let configs := omap (λ name, (λ st, (name, wi_desired_networks st)) <$> wc_ifaces s !! name)
                   (ho_keys order 0 (dom (wc_ifaces s))) in
  let '(client, k) := sh_init configs (wc_out s) in
  (Ok (), upd_out k (upd_client client s)).

Definition start_client : Eff St () :=
  _ ← set_connected false;
  _ ← clear_all_connect_errors;
  _ ← clear_live_ifaces;
  ifaces ← get wc_ifaces;
  if bool_decide (ifaces = ∅) then mutate (upd_client None)
  else
    _ ← on_client sh_shutdown;
    init_client.

Definition restart_client : Eff St () :=
  _ ← on_client sh_shutdown;
  _ ← mutate (upd_client None);
  _ ← set_connected false;
  _ ← clear_live_ifaces;
  start_client.

Definition set_control (control : NipartWifiControl) : Eff St () :=
  match control with
  | WifiOff =>
      _ ← mutate (upd_enabled false);
      _ ← set_connected false;
      _ ← shutdown;
      _ ← clear_live_ifaces;
      mutate (upd_client None)
  | WifiOn =>
      was_enabled ← get wc_enabled;
      _ ← mutate (upd_enabled true);
      client ← get has_client;
      if negb was_enabled || negb client then restart_client else mret ()
  end.

(** ** A cycle of the client *)

Definition run_client : Eff St (option (ShuliRun * C)) := λ s,
  match wc_client s with
  | Some c => let '(r, c', k) := sh_run c (wc_out s) in
              (Ok (Some (r, c')), upd_out k (upd_client (Some c') s))
  | None => (Ok None, s)
  end.

(** The SSID of an error: its own, unless that is empty, or the one the client tries. *)
Definition error_ssid (client : C) (iface_name : string) (ssid : option string) : string :=
  match ssid with
  | Some ssid => if String.eqb ssid "" then default "" (sh_current_ssid client iface_name) else ssid
  | None => default "" (sh_current_ssid client iface_name)
  end.

Definition run_result (client : C) (iface_name : string) (state : ShuliState) : Eff St () :=
  match state with
  | ConnectedWithoutOffloadRekey | ConnectedWithOffloadRekey =>
      let ssid := default "unknown" (sh_current_ssid client iface_name) in
      let bssid := match sh_current_bssid client iface_name with
                   | Some mac => if bool_decide (mac = [0; 0; 0; 0; 0; 0]) then None else Some mac
                   | None => None
                   end in
      _ ← save_quick_start_hints ssid (sh_export_hints client iface_name);
      _ ← clear_connect_error iface_name;
      set_live_connected iface_name (wifi_live_state ssid (mac_to_string <$> bssid))
  | ShFailedAuthentication =>
      let ssid := default "" (sh_current_ssid client iface_name) in
      _ ← clear_live_iface iface_name;
      set_connect_error iface_name (wifi_connect_error ssid (nipart_error AuthenticationError))
  | ShFailed | ShOtherState => clear_live_iface iface_name
  end.

Definition run_once : Eff St () :=
  r ← run_client;
  match r with
  | None => mret ()
  | Some (RunError k iface_name ssid, client) =>
      match nipart_error_from_shuli k with
      | Some error =>
          let iface_name := default "" iface_name in
          set_connect_error iface_name (wifi_connect_error (error_ssid client iface_name ssid) error)
      | None => eff_fail PluginFailure
      end
  | Some (RunResult iface_name state, client) => run_result client iface_name state
  end.

(** ** Applying *)

Definition wifi_on_for_request (ifaces : list Interface) : Eff St () :=
  mutate (λ s, if negb (wc_enabled s) && has_wifi_ssid_up_request ifaces then upd_enabled true s else s).

(** The phys of nl80211 with their indexes; a later entry of a name replaces an earlier one. *)
Definition phys_of (infos : list (string * Z)) : gmap string Z :=
  foldl (λ m info, <[info.1 := info.2]> m) ∅ infos.

Definition query_phys : Eff St (gmap string Z) := λ s,
  let '(infos, k) := get_wifi_ifaces (wc_out s) in
  (Ok (phys_of infos), upd_out k s).

Definition plan_iface (up_phys present_phys : list string) (plan : WifiPlan) (iface : Interface) :
    Eff St WifiPlan :=
  if iface_is_ignore iface then mret plan
  else
    match wifi_section iface with
    | None => mret plan
    | Some wifi_cfg =>
        if iface_is_absent iface || iface_is_down iface then
          if is_wifi_phy iface then
            mret (wifi_plan (pl_desired plan) ({[kernel_iface_name iface]} ∪ pl_names plan) (pl_ssids plan))
          else
            let ssid := match wifi_cfg with Some cfg => wifi_ssid cfg | None => iface_name iface end in
            _ ← forget_hints ssid;
            mret (wifi_plan (pl_desired plan) (pl_names plan) ({[ssid]} ∪ pl_ssids plan))
        else if negb (iface_is_up iface) then eff_fail Bug
        else
          match wifi_cfg with
          | None => mret plan
          | Some cfg =>
              mret (wifi_plan (foldl (bind_cfg cfg) (pl_desired plan)
                                 (wifi_cfg_phy_names iface cfg up_phys present_phys))
                      (pl_names plan) (pl_ssids plan))
          end
    end.

Fixpoint plan_wifi (up_phys present_phys : list string) (plan : WifiPlan) (ifaces : list Interface) :
    Eff St WifiPlan :=
  match ifaces with
  | [] => mret plan
  | iface :: ifaces' =>
      plan ← plan_iface up_phys present_phys plan iface;
      plan_wifi up_phys present_phys plan ifaces'
  end.

(** The hints of the SSIDs, each loaded once; [retain] drops the empty ones. *)
Fixpoint load_hint_map (hint_map : gmap string LoadedHints) (cfgs : list WifiConfig) :
    Eff St (gmap string LoadedHints) :=
  match cfgs with
  | [] => mret (filter (λ e, hints_are_empty e.2 = false) hint_map)
  | cfg :: cfgs' =>
      match hint_map !! wifi_ssid cfg with
      | Some _ => load_hint_map hint_map cfgs'
      | None => h ← load_hints (wifi_ssid cfg); load_hint_map (<[wifi_ssid cfg := h]> hint_map) cfgs'
      end
  end.

Definition desired_cfgs (desired : gmap string (list WifiConfig)) : list WifiConfig :=
  mjoin (omap (λ name, desired !! name) (ho_keys order 1 (dom desired))).

(** A NIC is given up: the loops over the names to delete and the ignored NICs. *)
Definition drop_iface (forget_error : bool) (iface_name : string) : Eff St () :=
  ifaces ← get wc_ifaces;
  match ifaces !! iface_name with
  | Some _ =>
      _ ← mutate (upd_ifaces (delete iface_name));
      _ ← on_client (sh_remove_iface iface_name);
      _ ← clear_live_iface iface_name;
      if forget_error : bool then clear_connect_error iface_name else mret ()
  | None => mret ()
  end.

(** The network list an apply wants on a managed NIC. *)
Definition wanted_networks (plan : WifiPlan) (force : bool) (hint_map : gmap string LoadedHints)
    (iface_name : string) (current : list ShuliNetwork) : res (list ShuliNetwork) :=
  match pl_desired plan !! iface_name with
  | Some wifi_cfgs =>
      if force && (length wifi_cfgs =? 1)%nat
      then merge_preferred_networks current wifi_cfgs hint_map
      else build_shuli_networks wifi_cfgs hint_map
  | None => Ok (List.filter (λ n, negb (bool_decide (sn_ssid n ∈ pl_ssids plan))) current)
  end.

Definition networks_changed (force : bool) (current networks : list ShuliNetwork) : bool :=
  if force then negb (bool_decide (current = networks))
  else negb (same_saved_networks_ignoring_prefered current networks).

Definition set_networks (iface_name : string) (networks : list ShuliNetwork) : Eff St () :=
  mutate (upd_ifaces (alter (λ st, wifi_iface_state (wi_if_index st) networks) iface_name)).

(** One managed NIC; the lists to be sent are collected. *)
Definition update_managed (phys : gmap string Z) (plan : WifiPlan) (force : bool)
    (hint_map : gmap string LoadedHints) (pending : gmap string (list ShuliNetwork))
    (iface_name : string) : Eff St (gmap string (list ShuliNetwork)) :=
  ifaces ← get wc_ifaces;
  match ifaces !! iface_name with
  | None => mret pending
  | Some iface_state =>
      if negb (bool_decide (phys !! iface_name = Some (wi_if_index iface_state))) then
        _ ← mutate (upd_ifaces (delete iface_name));
        _ ← on_client (sh_remove_iface iface_name);
        _ ← clear_live_iface iface_name;
        mret pending
      else
        let current := wi_desired_networks iface_state in
        networks ← eff_res (wanted_networks plan force hint_map iface_name current);
        if networks_changed force current networks || (force && negb (bool_decide (networks = [])))
        then mret (<[iface_name := networks]> pending)
        else if negb force
        then _ ← set_networks iface_name (refresh_hints current networks); mret pending
        else mret pending
  end.

Fixpoint update_all_managed (phys : gmap string Z) (plan : WifiPlan) (force : bool)
    (hint_map : gmap string LoadedHints) (pending : gmap string (list ShuliNetwork))
    (iface_names : list string) : Eff St (gmap string (list ShuliNetwork)) :=
  match iface_names with
  | [] => mret pending
  | iface_name :: iface_names' =>
      pending ← update_managed phys plan force hint_map pending iface_name;
      update_all_managed phys plan force hint_map pending iface_names'
  end.

(** A NIC that was not managed; whether the client has to be started. *)
Definition add_iface (phys : gmap string Z) (plan : WifiPlan) (force : bool)
    (hint_map : gmap string LoadedHints) (recreate : bool) (iface_name : string) : Eff St bool :=
  ifaces ← get wc_ifaces;
  match ifaces !! iface_name, phys !! iface_name, pl_desired plan !! iface_name with
  | None, Some if_index, Some wifi_cfgs =>
      networks ← eff_res (if force && (length wifi_cfgs =? 1)%nat
                          then merge_preferred_networks [] wifi_cfgs hint_map
                          else build_shuli_networks wifi_cfgs hint_map);
      client ← get has_client;
      ok ← on_client (sh_add_iface iface_name networks);
      if negb ok then mret recreate
      else
        _ ← (if client : bool then clear_connect_error iface_name else mret ());
        _ ← mutate (upd_ifaces (insert iface_name (wifi_iface_state if_index networks)));
        mret (recreate || negb client)
  | _, _, _ => mret recreate
  end.

Fixpoint add_ifaces (phys : gmap string Z) (plan : WifiPlan) (force : bool)
    (hint_map : gmap string LoadedHints) (recreate : bool) (iface_names : list string) : Eff St bool :=
  match iface_names with
  | [] => mret recreate
  | iface_name :: iface_names' =>
      recreate ← add_iface phys plan force hint_map recreate iface_name;
      add_ifaces phys plan force hint_map recreate iface_names'
  end.

Definition drain_pending (pending : gmap string (list ShuliNetwork)) : Eff St () :=
  mutate (upd_ifaces (λ ifaces, map_imap (λ name st, Some
    match pending !! name with
    | Some networks => wifi_iface_state (wi_if_index st) networks
    | None => st
    end) ifaces)).

(** The single SSID of a forced apply. *)
Definition preferred_ssid (plan : WifiPlan) (force : bool) (iface_name : string) : option string :=
  match pl_desired plan !! iface_name with
  | Some [wifi_cfg] => if force then Some (wifi_ssid wifi_cfg) else None
  | _ => None
  end.

(** A list is sent to the client, after an empty one if the association starts anew. *)
Definition send_networks (plan : WifiPlan) (force : bool)
    (entry : string * list ShuliNetwork) : Eff St () :=
  let '(iface_name, networks) := entry in
  live ← get (λ s, live_ssid s iface_name);
  ok ← (if should_reconnect_to_networks live networks force (preferred_ssid plan force iface_name)
        then on_client (sh_update_networks iface_name [])
        else mret true);
  if negb ok then mret ()
  else
    ok ← on_client (sh_update_networks iface_name networks);
    if ok : bool then set_networks iface_name networks else mret ().

(** The last part of [apply]: what becomes of the collected lists. *)
Definition finish_apply (plan : WifiPlan) (force recreate : bool)
    (pending : gmap string (list ShuliNetwork)) : Eff St () :=
  ifaces ← get wc_ifaces;
  client ← get has_client;
  enabled ← get wc_enabled;
  if bool_decide (ifaces = ∅) && client then
    _ ← shutdown; mutate (upd_client None)
  else if negb enabled then drain_pending pending
  else if recreate || (negb client && negb (bool_decide (ifaces = ∅))) then
    _ ← drain_pending pending; start_client
  else
    let names := ho_keys order 2 (dom pending) in
    _ ← eff_each clear_connect_error names;
    client ← get has_client;
    if client : bool
    then eff_each (send_networks plan force) (omap (λ name, pair name <$> pending !! name) names)
    else mret ().

Definition present_wifi_phys (phys : gmap string Z) (ifaces : list Interface) : list string :=
  sort_by string_cmp id (elements (dom phys ∖ ignored_wifi_phys ifaces)).

Definition wifi_apply (ifaces : list Interface) (force : bool) : Eff St () :=
  _ ← wifi_on_for_request ifaces;
  phys ← query_phys;
  plan ← plan_wifi (up_wifi_phys ifaces) (present_wifi_phys phys ifaces) (wifi_plan ∅ ∅ ∅) ifaces;
  hint_map ← load_hint_map ∅ (desired_cfgs (pl_desired plan));
  _ ← eff_each (drop_iface false) (ho_keys order 3 (pl_names plan));
  _ ← eff_each (drop_iface true) (ho_keys order 4 (ignored_wifi_phys ifaces));
  managed ← get (λ s, dom (wc_ifaces s));
  pending ← update_all_managed phys plan force hint_map ∅ (ho_keys order 5 managed);
  recreate ← add_ifaces phys plan force hint_map false (ho_keys order 6 (dom (pl_desired plan)));
  finish_apply plan force recreate pending.

(** ** The worker *)

(** A request of the queue; the reply. *)
Definition serve_request (request : WifiWorkerRequest) : Eff St (res ()) :=
  match request with
  | WorkerApply ifaces opt => _ ← eff_try (wifi_apply ifaces (force opt)); mret (Ok ())
  | WorkerControl control => eff_try (set_control control)
  | WorkerResume => _ ← notify_resume; mret (Ok ())
  end.


(** ** The plugin *)

(** [NipartPluginWifi] with its worker, which ends with the daemon's connection. *)
Record NipartPluginWifi : Type := plugin_wifi {
  pw_queue : list WifiWorkerRequest;
  pw_state : St;
  pw_running : bool;
}.

Definition plugin_init (hints : HintDir) (k : K) : NipartPluginWifi :=
  plugin_wifi [] (wifi_client_state_new hints k) true.

Definition enqueue (request : WifiWorkerRequest) (p : NipartPluginWifi) : NipartPluginWifi :=
  plugin_wifi (pw_queue p ++ [request]) (pw_state p) (pw_running p).

(** [NipartPlugin::apply_network_state], [wifi_control], [system_resume]: a closed queue is an
    error. *)
Definition request_apply (desired_state : NetworkState) (opt : NipartApplyOption)
    (p : NipartPluginWifi) : res () * NipartPluginWifi :=
  let ifaces := interfaces_iter (ns_ifaces desired_state) in
  let p := plugin_wifi (pw_queue p)
             (upd_errors (λ e, clear_applied_connect_errors e ifaces) (pw_state p)) (pw_running p) in
  if pw_running p then (Ok (), enqueue (WorkerApply ifaces opt) p) else (fail Bug, p).

Definition request_control (control : NipartWifiControl) (p : NipartPluginWifi) :
    res () * NipartPluginWifi :=
  if pw_running p then (Ok (), enqueue (WorkerControl control) p) else (fail Bug, p).

Definition request_resume (p : NipartPluginWifi) : res () * NipartPluginWifi :=
  if negb (wc_enabled_flag (pw_state p)) then (Ok (), p)
  else if pw_running p then (Ok (), enqueue WorkerResume p) else (fail Bug, p).

(** [wifi_connect_error]. *)
Definition plugin_connect_error (iface_name ssid : string) (p : NipartPluginWifi) : res () :=
  match latched_connect_error (wc_errors (pw_state p)) iface_name ssid with
  | Some e => Err e
  | None => Ok ()
  end.

(** [network_state_from_live_ifaces]. *)
Definition live_iface (entry : string * WifiLiveState) : Interface :=
  let '(iface_name, live) := entry in
  IfWifiPhy (set_bi_state SUp (base_new iface_name TWifiPhy))
    (Some (wifi_of (wl_ssid live) (wl_bssid live) None false None)).

Definition network_state_from_live_ifaces (live : gmap string WifiLiveState) : NetworkState :=
  foldl (λ s iface, push_iface iface s) ns_default
    (omap (λ name, (λ l, live_iface (name, l)) <$> live !! name) (ho_keys order 7 (dom live))).

Definition plugin_query (p : NipartPluginWifi) : NetworkState :=
  network_state_from_live_ifaces (wc_live (pw_state p)).

(** The time a cycle may take. *)
Definition WIFI_RUN_ONCE_TIMEOUT_SECS : Z := 120.
Definition WIFI_CONNECTED_RUN_ONCE_TIMEOUT_SECS : Z := 24 * 60 * 60.
Definition run_once_timeout_secs (s : St) : Z :=
  if wc_connected s then WIFI_CONNECTED_RUN_ONCE_TIMEOUT_SECS else WIFI_RUN_ONCE_TIMEOUT_SECS.

End Worker.
Arguments plugin_wifi {C K}. Arguments pw_queue {C K}. Arguments pw_state {C K}.
Arguments pw_running {C K}.

(** One turn of [apply_worker], or a request of the daemon.  The queue goes before the client,
    whose cycle is given up when a request comes. *)
Inductive plugin_step {C K} `{!Shuli C K} to_yaml from_yaml :
    NipartPluginWifi (C := C) (K := K) → NipartPluginWifi (C := C) (K := K) → Prop :=
| step_apply desired_state opt p :
    plugin_step to_yaml from_yaml p (request_apply desired_state opt p).2
| step_control control p : plugin_step to_yaml from_yaml p (request_control control p).2
| step_resume p : plugin_step to_yaml from_yaml p (request_resume p).2
| step_serve order r q s r' s' :
    serve_request from_yaml order r s = (r', s') →
    plugin_step to_yaml from_yaml (plugin_wifi (r :: q) s true) (plugin_wifi q s' true)
| step_cycle s r s' :
    has_client s = true → run_once to_yaml from_yaml s = (r, s') →
    plugin_step to_yaml from_yaml (plugin_wifi [] s true) (plugin_wifi [] s' true)
| step_given_up q s c k :
    has_client s = true →
    plugin_step to_yaml from_yaml (plugin_wifi q s true)
      (plugin_wifi q (upd_out k (upd_client (Some c) s)) true)
| step_stalled order s r s' :
    has_client s = true → restart_client order s = (r, s') →
    plugin_step to_yaml from_yaml (plugin_wifi [] s true) (plugin_wifi [] s' true)
| step_closed s r s' :
    shutdown s = (r, s') →
    plugin_step to_yaml from_yaml (plugin_wifi [] s true) (plugin_wifi [] s' false).

(** ** Reasoning about steps *)

(** From [P], a step ends with [Q], or fails with [E]. *)
Definition triple {S A} (P : S → Prop) (x : Eff S A) (Q : A → S → Prop) (E : S → Prop) : Prop :=
  ∀ s r s', P s → x s = (r, s') → match r with Ok a => Q a s' | Err _ => E s' end.

Section Triples.
Context {S : Type}.

Lemma triple_bind {A B} P (x : Eff S A) Q (f : A → Eff S B) R E :
  triple P x Q E → (∀ a, triple (Q a) (f a) R E) → triple P (x ≫= f) R E.
Proof.
  intros Hx Hf s r s' HP. rewrite eff_bind_run. specialize (Hx s). destruct (x s) as [[a|e] s1].
  - intros H. by apply (Hf a s1 r s' (Hx _ _ HP eq_refl)).
  - intros [= <- <-]. exact (Hx _ _ HP eq_refl).
Qed.

Lemma triple_ret {A} (a : A) Q E : triple (Q a) (mret a : Eff S A) Q E.
Proof. by intros s r s' HP [= <- <-]. Qed.

Lemma triple_res {A} (x : res A) P Q E :
  (∀ s, P s → match x with Ok a => Q a s | Err _ => E s end) → triple P (eff_res x : Eff S A) Q E.
Proof. intros H s r s' HP [= <- <-]. specialize (H s HP). by destruct x. Qed.

Lemma triple_weaken {A} P P' (x : Eff S A) Q Q' E :
  triple P' x Q' E → (∀ s, P s → P' s) → (∀ a s, Q' a s → Q a s) → triple P x Q E.
Proof.
  intros Hx HP HQ s r s' H Hr. specialize (Hx s r s' (HP s H) Hr). destruct r; auto.
Qed.

Lemma triple_each {A} (P : S → Prop) E (f : A → Eff S ()) l :
  (∀ x, triple P (f x) (λ _, P) E) → triple P (eff_each f l) (λ _, P) E.
Proof.
  intros Hf. induction l as [|x l IH]; [apply (triple_ret () (λ _, P))|].
  eapply triple_bind; [apply Hf|done].
Qed.

Lemma triple_try {A} P (x : Eff S A) Q E :
  triple P x Q E → triple P (eff_try x) (λ r s, match r with Ok a => Q a s | Err _ => E s end) E.
Proof.
  intros Hx s r s' HP. unfold eff_try. specialize (Hx s). destruct (x s) as [[a|[e|]] s1];
    intros [= <- <-]; exact (Hx _ _ HP eq_refl).
Qed.

Lemma triple_pure {A} (φ : Prop) (x : Eff S A) Q E :
  (φ → triple (λ _, True) x Q E) → triple (λ _, φ) x Q E.
Proof. intros H s r s' Hφ. by apply H. Qed.

Lemma triple_true {A} (x : Eff S A) : triple (λ _, True) x (λ _ _, True) (λ _, True).
Proof. intros s r s' _ _. by destruct r. Qed.

End Triples.

Section StateTriples.
Context {C K : Type}.
Abbreviation St := (WifiClientState C K).

Lemma triple_mutate (f : St → St) (P Q : St → Prop) E :
  (∀ s, P s → Q (f s)) → triple P (mutate f) (λ _, Q) E.
Proof. intros H s r s' HP [= <- <-]. by apply H. Qed.

Lemma triple_get {A} (f : St → A) (P : St → Prop) E :
  triple P (get f) (λ a s, P s ∧ a = f s) E.
Proof. by intros s r s' HP [= <- <-]. Qed.

Lemma mutate_bind {B} (f : St → St) (g : () → Eff St B) s : (mutate f ≫= g) s = g () (f s).
Proof. done. Qed.

Lemma get_bind {A B} (f : St → A) (g : A → Eff St B) s : (get f ≫= g) s = g (f s) s.
Proof. done. Qed.

(** The calls of the client change it and what is outside. *)
Lemma triple_on_client (f : C → K → bool * C * K) (P : St → Prop) E :
  (∀ s c k, P s → has_client s = true → P (upd_out k (upd_client (Some c) s))) →
  triple P (on_client f) (λ _, P) E.
Proof.
  intros H s r s' HP. unfold on_client. specialize (H s). unfold has_client in H.
  destruct (wc_client s) as [c|]; [|by intros [= <- <-]].
  destruct (f c (wc_out s)) as [[ok c'] k]. intros [= <- <-]. auto.
Qed.

End StateTriples.

(** ** The invariant *)

Section Invariant.
Context {C K : Type} `{!Shuli C K}.
Context (to_yaml : PersistedHints → option string) (from_yaml : string → option PersistedHints)
  (order : HashOrder).
Abbreviation St := (WifiClientState C K).

(** What the plugin tells of the WIFI agrees with what it does: the shared flag; without a
    client nothing is connected; while WIFI is off there is none; one network per SSID. *)
Definition wifi_inv (s : St) : Prop :=
  wc_enabled_flag s = wc_enabled s ∧
  (has_client s = false → wc_live s = ∅) ∧
  wc_connected s = negb (bool_decide (wc_live s = ∅)) ∧
  (wc_enabled s = false → has_client s = false) ∧
  (∀ name st, wc_ifaces s !! name = Some st → NoDup (sn_ssid <$> wi_desired_networks st)).

Definition keeps_inv {A} (x : Eff St A) : Prop := triple wifi_inv x (λ _, wifi_inv) wifi_inv.

Lemma keeps_inv_bind {A B} (x : Eff St A) (f : A → Eff St B) :
  keeps_inv x → (∀ a, keeps_inv (f a)) → keeps_inv (x ≫= f).
Proof. intros Hx Hf. by eapply triple_bind. Qed.

Lemma keeps_inv_ret {A} (a : A) : keeps_inv (mret a).
Proof. apply (triple_ret a (λ _, wifi_inv)). Qed.

Lemma keeps_inv_get {A} (f : St → A) : keeps_inv (get f).
Proof. eapply triple_weaken; [apply triple_get|done|]. by intros a s [H _]. Qed.

Lemma keeps_inv_client f : keeps_inv (on_client f).
Proof.
  apply triple_on_client. intros s c k (H1 & H2 & H3 & H4 & H5) Hc. split_and!; try done.
  intros He. specialize (H4 He). congruence.
Qed.

Lemma keeps_inv_errors f : keeps_inv (mutate (upd_errors f)).
Proof. by apply triple_mutate. Qed.

Lemma keeps_inv_hints d : keeps_inv (mutate (λ s, upd_hints (d s) s)).
Proof. by apply triple_mutate. Qed.

Lemma keeps_inv_clear_live iface_name : keeps_inv (clear_live_iface iface_name).
Proof.
  apply triple_mutate. intros s (H1 & H2 & H3 & H4 & H5). split_and!; try done.
  intros Hc. simpl. by rewrite (H2 Hc), delete_empty.
Qed.

Lemma keeps_inv_networks (f : gmap string WifiIfaceState → gmap string WifiIfaceState) :
  (∀ m, (∀ name st, m !! name = Some st → NoDup (sn_ssid <$> wi_desired_networks st)) →
        ∀ name st, f m !! name = Some st → NoDup (sn_ssid <$> wi_desired_networks st)) →
  keeps_inv (mutate (upd_ifaces f)).
Proof. intros Hf. apply triple_mutate. intros s (H1 & H2 & H3 & H4 & H5). split_and!; try done. by apply Hf. Qed.

Lemma keeps_inv_delete iface_name : keeps_inv (mutate (upd_ifaces (delete iface_name))).
Proof. apply keeps_inv_networks. intros m Hm name st [_ H]%lookup_delete_Some. by eapply Hm. Qed.

Lemma keeps_inv_set_networks iface_name networks :
  NoDup (sn_ssid <$> networks) → keeps_inv (set_networks iface_name networks).
Proof.
  intros Hd. apply keeps_inv_networks. intros m Hm name st.
  rewrite lookup_alter_Some. intros [(_ & st0 & H & ->)|[_ H]]; [done|by eapply Hm].
Qed.

Lemma keeps_inv_eff_res {A} (x : res A) : keeps_inv (eff_res x).
Proof. apply triple_res. intros s Hs. by destruct x. Qed.

Lemma keeps_inv_if {A} (b : bool) (x y : Eff St A) : keeps_inv x → keeps_inv y → keeps_inv (if b then x else y).
Proof. by destruct b. Qed.

(** The client is stopped: whatever was live is not any more. *)
Lemma shutdown_inv : keeps_inv shutdown.
Proof.
  unfold shutdown. apply keeps_inv_bind; [apply keeps_inv_client|intros _].
  intros s r s' (H1 & H2 & H3 & H4 & H5) [= <- <-]. split_and!; done.
Qed.

(** WIFI is on, and nothing is live: what a client starts from. *)
Definition startable (s : St) : Prop :=
  wc_enabled s = true ∧ wc_enabled_flag s = true ∧
  ∀ name st, wc_ifaces s !! name = Some st → NoDup (sn_ssid <$> wi_desired_networks st).

Definition idle (s : St) : Prop := startable s ∧ wc_live s = ∅ ∧ wc_connected s = false.

Lemma idle_inv s : idle s → wifi_inv s.
Proof.
  intros ((H1 & H2 & H3) & Hl & Hc). split_and!; try done; [congruence|by rewrite Hc, Hl|congruence].
Qed.

Lemma start_client_idle : triple startable (start_client order) (λ _, idle) idle.
Proof.
  unfold start_client.
  eapply (triple_bind _ _ (λ _ s, startable s ∧ wc_connected s = false)); [by apply triple_mutate|intros _].
  eapply (triple_bind _ _ (λ _ s, startable s ∧ wc_connected s = false)); [by apply triple_mutate|intros _].
  eapply (triple_bind _ _ (λ _, idle)); [apply triple_mutate; by intros s [? ?]|intros _].
  eapply (triple_bind _ _ (λ _, idle)).
  { eapply triple_weaken; [apply triple_get|done|]. by intros ifaces s [H _]. }
  intros ifaces. case_bool_decide; [by apply triple_mutate|].
  eapply (triple_bind _ _ (λ _, idle)); [by apply triple_on_client|intros _].
  intros s r s' Hs. unfold init_client. destruct (sh_init _ _) as [c k]. by intros [= <- <-].
Qed.

Lemma start_client_inv : triple startable (start_client order) (λ _, wifi_inv) wifi_inv.
Proof.
  intros s r s' Hs Hr. pose proof (start_client_idle s r s' Hs Hr). destruct r; by apply idle_inv.
Qed.

Lemma restart_client_inv : triple startable (restart_client order) (λ _, wifi_inv) wifi_inv.
Proof.
  unfold restart_client.
  eapply (triple_bind _ _ (λ _, startable)); [by apply triple_on_client|intros _].
  do 3 (eapply (triple_bind _ _ (λ _, startable)); [by apply triple_mutate|intros _]).
  apply start_client_inv.
Qed.

Lemma inv_startable s : wifi_inv s → wc_enabled s = true → startable s.
Proof. intros (H1 & _ & _ & _ & H5) He. split_and!; [done|congruence|done]. Qed.

(** WIFI is being turned off. *)
Definition off (s : St) : Prop :=
  wc_enabled s = false ∧ wc_enabled_flag s = false ∧ wc_connected s = false ∧
  ∀ name st, wc_ifaces s !! name = Some st → NoDup (sn_ssid <$> wi_desired_networks st).

Lemma off_inv :
  triple off (_ ← shutdown; _ ← clear_live_ifaces; mutate (upd_client None)) (λ _, wifi_inv) wifi_inv.
Proof.
  apply (triple_bind _ _ (λ _, off)).
  - apply (triple_bind _ _ (λ _, off)); [by apply triple_on_client|intros _].
    by intros s r s' (? & ? & ? & ?) [= <- <-].
  - intros _ s r s' (H1 & H2 & H3 & H4) [= <- <-]. split_and!; try done; simpl; congruence.
Qed.

Lemma set_control_inv control : keeps_inv (set_control order control).
Proof.
  intros s r s' Hs Hr. pose proof Hs as (H1 & H2 & H3 & H4 & H5). destruct control; cbn [set_control] in Hr.
  - rewrite get_bind, mutate_bind, get_bind in Hr. destruct (negb (wc_enabled s) || _) eqn:E.
    + by apply (restart_client_inv (upd_enabled true s) r s').
    + injection Hr as <- <-. apply orb_false_iff in E as [E%negb_false_iff _]. by split_and!.
  - rewrite !mutate_bind in Hr. refine (off_inv _ _ _ _ Hr). by split_and!.
Qed.

(** While the client runs. *)
Definition running (s : St) : Prop := wifi_inv s ∧ has_client s = true.

Lemma set_live_inv iface_name live : triple running (set_live_connected iface_name live) (λ _, wifi_inv) wifi_inv.
Proof.
  apply triple_mutate. intros t [(H1 & H2 & H3 & H4 & H5) Ht]. split_and!; try done.
  - intros Hn. unfold has_client in *. simpl in Hn. congruence.
  - simpl. rewrite bool_decide_eq_false_2; [done|]. apply insert_non_empty.
Qed.

Lemma running_inv {A} (x : Eff St A) : keeps_inv x → triple running x (λ _, wifi_inv) wifi_inv.
Proof. intros Hx s r s' [H _]. by apply Hx. Qed.

Lemma save_quick_start_hints_running ssid hints :
  triple running (save_quick_start_hints to_yaml from_yaml ssid hints) (λ _, running) wifi_inv.
Proof.
  destruct hints as [[[bssid|] [freq|]]|]; cbn [save_quick_start_hints];
    try apply (triple_ret () (λ _, running)). by apply triple_mutate.
Qed.

Lemma run_result_inv client iface_name state :
  triple running (run_result to_yaml from_yaml client iface_name state) (λ _, wifi_inv) wifi_inv.
Proof.
  destruct state; cbn [run_result].
  1,2: apply (triple_bind _ _ (λ _, running)); [apply save_quick_start_hints_running|intros _];
    apply (triple_bind _ _ (λ _, running)); [by apply triple_mutate|intros _]; apply set_live_inv.
  1,3: apply running_inv, keeps_inv_clear_live.
  apply running_inv, keeps_inv_bind; [apply keeps_inv_clear_live|intros _; apply keeps_inv_errors].
Qed.

Lemma run_once_inv : triple running (run_once to_yaml from_yaml) (λ _, wifi_inv) wifi_inv.
Proof.
  apply (triple_bind _ _ (λ _, running)).
  { intros s r s' [Hs Hc]. unfold run_client. destruct (wc_client s) as [c|] eqn:Ec.
    - destruct (sh_run c (wc_out s)) as [[x c'] k]. intros [= <- <-]. split; [|done].
      destruct Hs as (H1 & H2 & H3 & H4 & H5). split_and!; try done. intros He%H4. congruence.
    - unfold has_client in Hc. by rewrite Ec in Hc. }
  intros [[[iface_name state|k iface_name ssid] client]|].
  - apply run_result_inv.
  - destruct (nipart_error_from_shuli k); [apply running_inv, keeps_inv_errors|].
    apply triple_res. by intros s [Hs _].
  - apply running_inv, keeps_inv_ret.
Qed.

(** ** Applying keeps it *)

Lemma drop_iface_inv forget iface_name : keeps_inv (drop_iface forget iface_name).
Proof.
  apply keeps_inv_bind; [apply keeps_inv_get|intros ifaces]. destruct (ifaces !! iface_name); [|apply keeps_inv_ret].
  apply keeps_inv_bind; [apply keeps_inv_delete|intros _].
  apply keeps_inv_bind; [apply keeps_inv_client|intros _].
  apply keeps_inv_bind; [apply keeps_inv_clear_live|intros _].
  destruct forget; [apply keeps_inv_errors|apply keeps_inv_ret].
Qed.

Lemma plan_wifi_inv up_phys present ifaces : ∀ plan, keeps_inv (plan_wifi up_phys present plan ifaces).
Proof.
  induction ifaces as [|iface ifaces IH]; intros plan; [apply keeps_inv_ret|].
  apply keeps_inv_bind; [|intros plan'; apply IH]. unfold plan_iface.
  destruct (iface_is_ignore iface); [apply keeps_inv_ret|].
  destruct (wifi_section iface) as [w|]; [|apply keeps_inv_ret].
  destruct (_ || _).
  - destruct (is_wifi_phy iface); [apply keeps_inv_ret|].
    apply keeps_inv_bind; [apply keeps_inv_hints|intros _; apply keeps_inv_ret].
  - destruct (negb _); [apply keeps_inv_eff_res|]. destruct w; apply keeps_inv_ret.
Qed.

Lemma load_hint_map_inv cfgs : ∀ hint_map, keeps_inv (load_hint_map from_yaml hint_map cfgs).
Proof.
  induction cfgs as [|w cfgs IH]; intros hint_map; [apply keeps_inv_ret|]. cbn [load_hint_map].
  destruct (hint_map !! _); [apply IH|]. apply keeps_inv_bind; [|intros h; apply IH].
  intros s r s' Hs. unfold load_hints. destruct (load_hints_on_day _ _ _ _). by intros [= <- <-].
Qed.

Definition lists_ok (pending : gmap string (list ShuliNetwork)) : Prop :=
  ∀ name l, pending !! name = Some l → NoDup (sn_ssid <$> l).

Lemma wanted_networks_nodup plan force hint_map iface_name current l :
  NoDup (sn_ssid <$> current) → wanted_networks plan force hint_map iface_name current = Ok l →
  NoDup (sn_ssid <$> l).
Proof.
  intros Hc. unfold wanted_networks. destruct (pl_desired plan !! iface_name) as [cfgs|].
  - destruct (force && _); [|apply build_networks_nodup].
    intros H. by apply (merge_preferred_networks_nodup current cfgs hint_map).
  - intros [= <-]. by apply nodup_filtered.
Qed.

Lemma update_iface_inv phys plan force hint_map pending iface_name :
  lists_ok pending →
  triple wifi_inv (update_managed phys plan force hint_map pending iface_name)
    (λ pending' s, wifi_inv s ∧ lists_ok pending') wifi_inv.
Proof.
  intros Hp. unfold update_managed.
  eapply triple_bind; [apply triple_get|intros ifaces].
  destruct (ifaces !! iface_name) as [st|] eqn:Est; [|by intros s r s' [Hs _] [= <- <-]].
  destruct (negb _).
  { apply (triple_bind _ _ (λ _, wifi_inv)).
    { eapply triple_weaken; [apply (keeps_inv_delete iface_name)|by intros s [Hs _]|done]. }
    intros _. apply (triple_bind _ _ (λ _, wifi_inv)); [apply keeps_inv_client|intros _].
    apply (triple_bind _ _ (λ _, wifi_inv)); [apply keeps_inv_clear_live|intros _].
    by intros s r s' Hs [= <- <-]. }
  apply (triple_bind _ _ (λ networks s, wifi_inv s ∧ NoDup (sn_ssid <$> networks) ∧
                                        NoDup (sn_ssid <$> wi_desired_networks st))).
  { apply triple_res. intros s [Hs ->]. destruct (wanted_networks _ _ _ _ _) as [l|] eqn:E; [|done].
    destruct Hs as (H1 & H2 & H3 & H4 & H5). pose proof (H5 _ _ Est) as Hd.
    split_and!; try done. by eapply wanted_networks_nodup. }
  intros networks. destruct (_ || _).
  { intros s r s' (Hs & Hn & _) [= <- <-]. split; [done|]. intros name l.
    rewrite lookup_insert_Some. intros [[_ <-]|[_ H]]; [done|by eapply Hp]. }
  destruct (negb force); [|by intros s r s' [Hs _] [= <- <-]].
  intros s r s' (Hs & _ & Hd) [= <- <-]. split; [|done].
  refine (keeps_inv_set_networks iface_name _ _ s (Ok ()) _ Hs eq_refl).
  by rewrite (proj2 (refresh_hints_normalized _ _)).
Qed.

Lemma update_ifaces_inv phys plan force hint_map names : ∀ pending,
  lists_ok pending →
  triple wifi_inv (update_all_managed phys plan force hint_map pending names)
    (λ pending' s, wifi_inv s ∧ lists_ok pending') wifi_inv.
Proof.
  induction names as [|name names IH]; intros pending Hp; [by intros s r s' Hs [= <- <-]|].
  eapply triple_bind; [by apply update_iface_inv|intros pending' s r s' [Hs Hp'] Hr].
  by apply (IH pending' Hp' s).
Qed.

Lemma add_iface_inv phys plan force hint_map recreate iface_name :
  keeps_inv (add_iface phys plan force hint_map recreate iface_name).
Proof.
  apply keeps_inv_bind; [apply keeps_inv_get|intros ifaces].
  destruct (ifaces !! iface_name), (phys !! iface_name) as [if_index|], (pl_desired plan !! iface_name) as [cfgs|];
    try apply keeps_inv_ret.
  set (x := if force && _ then _ else _).
  assert (∀ l, x = Ok l → NoDup (sn_ssid <$> l)) as Hx.
  { intros l. subst x. destruct (force && _); [|apply build_networks_nodup].
    apply merge_preferred_networks_nodup, NoDup_nil_2. }
  apply (triple_bind _ _ (λ networks s, wifi_inv s ∧ NoDup (sn_ssid <$> networks))).
  { apply triple_res. intros s Hs. destruct x; auto. }
  clear x Hx. intros networks s r s' [Hs Hd]. revert s r s' Hs.
  apply keeps_inv_bind; [apply keeps_inv_get|intros client].
  apply keeps_inv_bind; [apply keeps_inv_client|intros ok]. destruct (negb ok); [apply keeps_inv_ret|].
  apply keeps_inv_bind; [destruct client; [apply keeps_inv_errors|apply keeps_inv_ret]|intros _].
  apply keeps_inv_bind; [|intros _; apply keeps_inv_ret].
  apply keeps_inv_networks. intros m Hm name st. rewrite lookup_insert_Some.
  intros [[_ <-]|[_ H]]; [done|by eapply Hm].
Qed.

Lemma add_ifaces_inv phys plan force hint_map names : ∀ recreate,
  keeps_inv (add_ifaces phys plan force hint_map recreate names).
Proof.
  induction names as [|name names IH]; intros recreate; [apply keeps_inv_ret|].
  apply keeps_inv_bind; [apply add_iface_inv|intros b; apply IH].
Qed.

Lemma drain_pending_inv pending : lists_ok pending → keeps_inv (drain_pending pending).
Proof.
  intros Hp. apply keeps_inv_networks. intros m Hm name st. rewrite map_lookup_imap.
  destruct (m !! name) as [st0|] eqn:E; [|done]. intros [= <-].
  destruct (pending !! name) as [l|] eqn:El; [by eapply Hp|by eapply Hm].
Qed.

Lemma keeps_inv_each {A} (f : A → Eff St ()) l : (∀ x, x ∈ l → keeps_inv (f x)) → keeps_inv (eff_each f l).
Proof.
  induction l as [|x l IH]; intros Hf; [apply keeps_inv_ret|].
  apply keeps_inv_bind; [apply Hf; by left|intros _]. apply IH. intros y Hy. apply Hf. by right.
Qed.

Lemma send_networks_inv plan force entry :
  NoDup (sn_ssid <$> entry.2) → keeps_inv (send_networks plan force entry).
Proof.
  destruct entry as [name networks]. intros Hd. apply keeps_inv_bind; [apply keeps_inv_get|intros live].
  apply keeps_inv_bind; [apply keeps_inv_if; [apply keeps_inv_client|apply keeps_inv_ret]|intros ok].
  apply keeps_inv_if; [apply keeps_inv_ret|]. apply keeps_inv_bind; [apply keeps_inv_client|intros ok2].
  apply keeps_inv_if; [by apply keeps_inv_set_networks|apply keeps_inv_ret].
Qed.

Lemma finish_apply_inv plan force recreate pending :
  lists_ok pending → keeps_inv (finish_apply order plan force recreate pending).
Proof.
  intros Hp s r s' Hs. unfold finish_apply. rewrite !get_bind.
  destruct (bool_decide _ && _); [|destruct (wc_enabled s) eqn:Een; cbn [negb]; [destruct (recreate || _)|]].
  - revert s r s' Hs. apply (triple_bind _ _ (λ _ s, wifi_inv s ∧ wc_live s = ∅)).
    + intros s r s' Hs Hr. pose proof (shutdown_inv s r s' Hs Hr) as Hi.
      destruct r as [[]|e]; [|done]. split; [done|]. revert Hr. unfold shutdown, on_client, clear_live_ifaces.
      rewrite eff_bind_run. destruct (wc_client s); [destruct (sh_shutdown _ _) as [[? ?] ?]|]; by intros [= <-].
    + intros _. apply triple_mutate. intros s [(H1 & H2 & H3 & H4 & H5) Hl]. by split_and!.
  - intros Hr. rewrite eff_bind_run in Hr. destruct (drain_pending pending s) as [x s1] eqn:Ed.
    pose proof (drain_pending_inv _ Hp s x s1 Hs Ed) as H1. injection Ed as <- <-.
    refine (start_client_inv _ r s' _ Hr). by apply inv_startable.
  - clear Een. revert s r s' Hs.
    apply keeps_inv_bind; [apply keeps_inv_each; intros; apply keeps_inv_errors|intros _].
    apply keeps_inv_bind; [apply keeps_inv_get|intros client]. apply keeps_inv_if; [|apply keeps_inv_ret].
    apply keeps_inv_each. intros [name l] Hin. apply send_networks_inv.
    apply list_elem_of_omap in Hin as (n & _ & H). apply fmap_Some in H as (l' & Hl & [= -> ->]). by eapply Hp.
  - by apply drain_pending_inv.
Qed.

Lemma wifi_apply_inv ifaces force : keeps_inv (wifi_apply from_yaml order ifaces force).
Proof.
  apply keeps_inv_bind.
  { apply triple_mutate. intros s (H1 & H2 & H3 & H4 & H5). destruct (negb _ && _); by split_and!. }
  intros _. apply keeps_inv_bind.
  { intros s r s' Hs. unfold query_phys. destruct (get_wifi_ifaces _). by intros [= <- <-]. }
  intros phys. apply keeps_inv_bind; [apply plan_wifi_inv|intros plan].
  apply keeps_inv_bind; [apply load_hint_map_inv|intros hint_map].
  apply keeps_inv_bind; [apply triple_each; intros name; apply drop_iface_inv|intros _].
  apply keeps_inv_bind; [apply triple_each; intros name; apply drop_iface_inv|intros _].
  apply keeps_inv_bind; [apply keeps_inv_get|intros managed].
  eapply triple_bind; [apply update_ifaces_inv; by intros name l H|intros pending s r s' [Hs Hp]].
  revert s r s' Hs. apply keeps_inv_bind; [apply add_ifaces_inv|intros recreate].
  by apply finish_apply_inv.
Qed.

Lemma serve_request_inv request : keeps_inv (serve_request from_yaml order request).
Proof.
  assert (∀ A (x : Eff St A), keeps_inv x → keeps_inv (eff_try x)) as Ht.
  { intros A x Hx. eapply triple_weaken; [by apply triple_try|done|]. by intros []. }
  destruct request; cbn [serve_request].
  - apply keeps_inv_bind; [apply Ht, wifi_apply_inv|intros _; apply keeps_inv_ret].
  - apply Ht, set_control_inv.
  - apply keeps_inv_bind; [|intros _; apply keeps_inv_ret].
    apply keeps_inv_bind; [apply keeps_inv_client|intros _; apply keeps_inv_ret].
Qed.

(** ** Parts of the state that a step leaves alone *)

Definition same {X} (proj : St → X) (s s' : St) : Prop := proj s' = proj s.

#[export] Instance same_refl {X} (proj : St → X) : Reflexive (same proj).
Proof. by intros s. Qed.
#[export] Instance same_trans {X} (proj : St → X) : Transitive (same proj).
Proof. intros s1 s2 s3 H1 H2. unfold same in *. congruence. Qed.

(** A part that neither the client nor the outside nor the files belong to. *)
Class Apart {X} (proj : St → X) : Prop := {
  apart_client c s : proj (upd_client c s) = proj s;
  apart_out k s : proj (upd_out k s) = proj s;
  apart_hints d s : proj (upd_hints d s) = proj s;
}.

Section Frame.
Context {X : Type} (proj : St → X) `{!Apart proj}.

Lemma frame_mutate (f : St → St) : (∀ s, proj (f s) = proj s) → keeps (same proj) (mutate f).
Proof. intros H s r s' [= _ <-]. apply H. Qed.

Lemma frame_get {A} (f : St → A) : keeps (same proj) (get f).
Proof. by intros s r s' [= _ <-]. Qed.

Lemma frame_client f : keeps (same proj) (on_client (C := C) (K := K) f).
Proof.
  intros s r s'. unfold on_client. destruct (wc_client s); [|by intros [= _ <-]].
  destruct (f _ _) as [[? ?] ?]. intros [= _ <-]. unfold same. by rewrite apart_out, apart_client.
Qed.

Lemma frame_load_hints ssid : keeps (same proj) (load_hints from_yaml ssid : Eff St _).
Proof.
  intros s r s'. unfold load_hints. destruct (load_hints_on_day _ _ _ _). intros [= _ <-]. apply apart_hints.
Qed.

Lemma frame_init : keeps (same proj) (init_client order : Eff St _).
Proof.
  intros s r s'. unfold init_client. destruct (sh_init _ _). intros [= _ <-].
  unfold same. by rewrite apart_out, apart_client.
Qed.

Lemma frame_query_phys : keeps (same proj) (query_phys : Eff St _).
Proof.
  intros s r s'. unfold query_phys. destruct (get_wifi_ifaces _). intros [= _ <-]. apply apart_out.
Qed.

Lemma frame_run_client : keeps (same proj) (run_client : Eff St _).
Proof.
  intros s r s'. unfold run_client. destruct (wc_client s); [|by intros [= _ <-]].
  destruct (sh_run _ _) as [[? ?] ?]. intros [= _ <-]. unfold same. by rewrite apart_out, apart_client.
Qed.

End Frame.

(** One construct of a computation; what is left are the loops. *)
Ltac frame_step :=
  lazymatch goal with
  | |- keeps _ (_ ≫= _) => apply eff_keeps_bind; [typeclasses eauto| |intros ?]
  | |- keeps _ (mret _) => apply eff_keeps_ret; typeclasses eauto
  | |- keeps _ (eff_res _) => apply keeps_res; typeclasses eauto
  | |- keeps _ (eff_fail _) => apply keeps_res; typeclasses eauto
  | |- keeps _ (eff_try _) => apply keeps_try
  | |- keeps _ (eff_each _ _) => apply keeps_each; [typeclasses eauto..|intros ?]
  | |- keeps (same ?proj) (mutate _) => by apply frame_mutate
  | |- keeps _ (get _) => apply frame_get
  | |- keeps _ (on_client _) => apply frame_client; typeclasses eauto
  | |- keeps _ (load_hints _ _) => apply frame_load_hints; typeclasses eauto
  | |- keeps _ (init_client _) => apply frame_init; typeclasses eauto
  | |- keeps _ query_phys => apply frame_query_phys; typeclasses eauto
  | |- keeps _ run_client => apply frame_run_client; typeclasses eauto
  | |- keeps _ (match ?x with _ => _ end) => destruct x
  end.
Ltac frame := repeat frame_step.

#[export] Instance apart_enabled : Apart wc_enabled.
Proof. by split. Qed.
#[export] Instance apart_ifaces : Apart wc_ifaces.
Proof. by split. Qed.

Lemma plan_wifi_apart {X} (proj : St → X) `{!Apart proj} up_phys present ifaces : ∀ plan,
  keeps (same proj) (plan_wifi up_phys present plan ifaces : Eff St _).
Proof.
  induction ifaces as [|iface ifaces IH]; intros plan; cbn [plan_wifi]; unfold plan_iface, forget_hints;
    frame; first [apply IH|apply frame_mutate; intros s; apply apart_hints].
Qed.

Lemma load_hint_map_apart {X} (proj : St → X) `{!Apart proj} cfgs : ∀ m,
  keeps (same proj) (load_hint_map from_yaml m cfgs : Eff St _).
Proof. induction cfgs as [|w cfgs IH]; intros m; cbn [load_hint_map]; frame; apply IH. Qed.

Ltac client_frame :=
  unfold shutdown, restart_client, start_client, set_connected, clear_live_ifaces, clear_all_connect_errors;
  frame.

Lemma shutdown_enabled : keeps (same wc_enabled) (shutdown : Eff St _).
Proof. client_frame. Qed.
Lemma start_client_enabled : keeps (same wc_enabled) (start_client order : Eff St _).
Proof. client_frame. Qed.
Lemma restart_client_enabled : keeps (same wc_enabled) (restart_client order : Eff St _).
Proof. client_frame. Qed.
Lemma shutdown_ifaces : keeps (same wc_ifaces) (shutdown : Eff St _).
Proof. client_frame. Qed.
Lemma start_client_ifaces : keeps (same wc_ifaces) (start_client order : Eff St _).
Proof. client_frame. Qed.

(** ** WIFI that is off *)

Lemma enabled_off :
  keeps (same wc_enabled) (eff_try (_ ← set_connected false; _ ← shutdown; _ ← clear_live_ifaces;
    mutate (upd_client None)) : Eff St _).
Proof. unfold set_connected, clear_live_ifaces. frame. apply shutdown_enabled. Qed.

Lemma enabled_notify : keeps (same wc_enabled) (_ ← notify_resume; mret (Ok ()) : Eff St (res ())).
Proof. unfold notify_resume. frame. Qed.

Lemma enabled_run_once : keeps (same wc_enabled) (run_once to_yaml from_yaml : Eff St _).
Proof.
  unfold run_once, run_result, save_quick_start_hints, record_bss, clear_live_iface, set_live_connected,
    set_connect_error, clear_connect_error.
  frame.
Qed.

Lemma enabled_update phys plan force hm names : ∀ pending,
  keeps (same wc_enabled) (update_all_managed phys plan force hm pending names : Eff St _).
Proof.
  induction names as [|n names IH]; intros pending; cbn [update_all_managed];
    unfold update_managed, clear_live_iface, set_networks; frame; apply IH.
Qed.

Lemma enabled_add phys plan force hm names : ∀ recreate,
  keeps (same wc_enabled) (add_ifaces phys plan force hm recreate names : Eff St _).
Proof.
  induction names as [|n names IH]; intros recreate; cbn [add_ifaces];
    unfold add_iface, clear_connect_error; frame; apply IH.
Qed.

Lemma enabled_finish plan force recreate pending :
  keeps (same wc_enabled) (finish_apply order plan force recreate pending : Eff St _).
Proof.
  unfold finish_apply, drain_pending, clear_connect_error, send_networks, set_networks.
  frame; first [apply shutdown_enabled|apply start_client_enabled].
Qed.

Lemma wifi_apply_enabled ifaces force s r s' :
  wifi_apply from_yaml order ifaces force s = (r, s') →
  wc_enabled s' = wc_enabled s || has_wifi_ssid_up_request ifaces.
Proof.
  unfold wifi_apply, wifi_on_for_request. rewrite mutate_bind.
  set (s0 := if _ : bool then _ else s).
  assert (wc_enabled s0 = wc_enabled s || has_wifi_ssid_up_request ifaces) as <-.
  { subst s0. destruct (wc_enabled s) eqn:E, (has_wifi_ssid_up_request ifaces); simpl; by rewrite ?E. }
  generalize s0. clear s0 s. intros s. revert s r s'.
  match goal with |- ∀ s r s', ?x s = _ → _ => change (keeps (same wc_enabled) x) end.
  unfold drop_iface, clear_live_iface, clear_connect_error. frame;
    first [apply plan_wifi_apart; typeclasses eauto|apply load_hint_map_apart; typeclasses eauto|apply enabled_update
          |apply enabled_add|apply enabled_finish].
Qed.

End Invariant.

Section Steps.
Context {C K : Type} `{!Shuli C K}.
Context (to_yaml : PersistedHints → option string) (from_yaml : string → option PersistedHints).
Abbreviation Plugin := (NipartPluginWifi (C := C) (K := K)).

Lemma triple_inv {A} (x : Eff (WifiClientState C K) A) P s r s' :
  triple P x (λ _, wifi_inv) wifi_inv → P s → x s = (r, s') → wifi_inv s'.
Proof. intros Hx Hs Hr. specialize (Hx s r s' Hs Hr). by destruct r. Qed.

Lemma plugin_step_inv (p p' : Plugin) :
  plugin_step to_yaml from_yaml p p' → wifi_inv (pw_state p) → wifi_inv (pw_state p').
Proof.
  destruct 1 as [desired opt p|control p|p|order rq q s r s' Hr|s r s' Hc Hr|q s c k Hc
                |order s r s' Hc Hr|s r s' Hr]; cbn [pw_state]; intros Hs.
  - unfold request_apply. simpl. by destruct (pw_running p).
  - unfold request_control. by destruct (pw_running p).
  - unfold request_resume. by destruct (negb _), (pw_running p).
  - by apply (triple_inv _ _ _ _ _ (serve_request_inv from_yaml order rq) Hs Hr).
  - by apply (triple_inv _ _ _ _ _ (run_once_inv to_yaml from_yaml) (conj Hs Hc) Hr).
  - destruct Hs as (H1 & H2 & H3 & H4 & H5). split_and!; try done. intros He%H4. congruence.
  - apply (triple_inv _ _ _ _ _ (restart_client_inv order)) in Hr; [done|]. apply inv_startable; [done|].
    destruct (wc_enabled s) eqn:E; [done|]. destruct Hs as (_ & _ & _ & H4 & _). rewrite (H4 E) in Hc. done.
  - by apply (triple_inv _ _ _ _ _ shutdown_inv Hs Hr).
Qed.

Lemma plugin_reach_inv hints k (p : Plugin) :
  rtc (plugin_step to_yaml from_yaml) (plugin_init hints k) p → wifi_inv (pw_state p).
Proof.
  intros H. remember (plugin_init hints k) as p0. assert (wifi_inv (pw_state p0)) as H0 by (subst; by split_and!).
  clear Heqp0. induction H as [|p0 p1 p2 Hs _ IH]; [done|]. apply IH. by eapply plugin_step_inv.
Qed.

(** Only a request turns WIFI on. *)
Lemma serve_request_enabled order rq s r s' :
  serve_request from_yaml order rq s = (r, s') → wc_enabled s = false → wc_enabled s' = true →
  rq = WorkerControl WifiOn ∨
  ∃ ifaces opt, rq = WorkerApply ifaces opt ∧ has_wifi_ssid_up_request ifaces = true.
Proof.
  destruct rq as [ifaces opt|[]|]; cbn [serve_request]; intros Hr He He'; [right|by left|exfalso..].
  - exists ifaces, opt. split; [done|]. rewrite eff_bind_run in Hr. unfold eff_try in Hr.
    destruct (wifi_apply from_yaml order ifaces (force opt) s) as [x s1] eqn:Ea.
    pose proof (wifi_apply_enabled _ _ _ _ _ _ _ Ea) as E. rewrite He in E. cbn in E, Hr.
    destruct x as [[]|[e|]]; injection Hr as <- <-; congruence.
  - pose proof (enabled_off (upd_enabled false s) r s' Hr) as E. unfold same in E. simpl in E. congruence.
  - pose proof (enabled_notify s r s' Hr) as E. unfold same in E. congruence.
Qed.

(** C4: While WIFI is off there is no client, nothing is connected, and a query shows no WIFI
    connection; neither the end of a cycle, a stalled client, a resume nor an apply without an
    SSID that goes up turns it on again, but only [npt wifi on] or an apply with one. *)
Theorem wifi_off_stays_off hints k (p : Plugin) order :
  rtc (plugin_step to_yaml from_yaml) (plugin_init hints k) p → wc_enabled (pw_state p) = false →
  wc_enabled_flag (pw_state p) = false ∧ has_client (pw_state p) = false ∧
  plugin_query order p = ns_default ∧
  ∀ p', plugin_step to_yaml from_yaml p p' → wc_enabled (pw_state p') = true →
    ∃ rq, pw_queue p = rq :: pw_queue p' ∧
      (rq = WorkerControl WifiOn ∨
       ∃ ifaces opt, rq = WorkerApply ifaces opt ∧ has_wifi_ssid_up_request ifaces = true).
Proof.
  intros Hp He. destruct (plugin_reach_inv hints k p Hp) as (H1 & H2 & _ & H4 & _).
  pose proof (H4 He) as Hc. split_and!; [congruence|done| |].
  - unfold plugin_query, network_state_from_live_ifaces. rewrite (H2 Hc), dom_empty_L.
    pose proof (ho_keys_perm order 7 ∅) as E. rewrite elements_empty in E.
    symmetry in E. by apply Permutation.Permutation_nil in E as ->.
  - intros p' Hs He'. destruct Hs as [desired opt p|control p|p|order' rq q s r s' Hr|s r s' Hc' Hr|q s c k' Hc'
                |order' s r s' Hc' Hr|s r s' Hr]; cbn [pw_state pw_queue] in *; try congruence.
    + exfalso. revert He'. unfold request_apply. simpl. by destruct (pw_running p); simpl; rewrite He.
    + exfalso. revert He'. unfold request_control. by destruct (pw_running p); simpl; rewrite He.
    + exfalso. revert He'. unfold request_resume. by destruct (negb _), (pw_running p); simpl; rewrite He.
    + exists rq. split; [done|]. by eapply serve_request_enabled.
    + exfalso. pose proof (shutdown_enabled _ _ _ Hr) as E. unfold same in E. congruence.
Qed.

End Steps.

(** ** The managed NICs *)

Section Managed.
Context {C K : Type} `{!Shuli C K}.
Context (from_yaml : string → option PersistedHints) (order : HashOrder).
Abbreviation St := (WifiClientState C K).
Implicit Types (P : gmap string WifiIfaceState → Prop).

Definition on_ifaces P (s : St) : Prop := P (wc_ifaces s).

Lemma triple_same_ifaces {A} (x : Eff St A) P :
  keeps (same wc_ifaces) x → triple (on_ifaces P) x (λ _, on_ifaces P) (λ _, True).
Proof. intros Hx s r s' HP Hr. destruct r; [|done]. unfold on_ifaces. by rewrite (Hx _ _ _ Hr). Qed.

Lemma triple_ifaces_mutate (f : gmap string WifiIfaceState → gmap string WifiIfaceState) P Q :
  (∀ m, P m → Q (f m)) →
  triple (on_ifaces P) (mutate (upd_ifaces f)) (λ _, on_ifaces Q) (λ _, True).
Proof. intros H. apply triple_mutate. intros s. apply H. Qed.

(** A NIC that is given up is gone. *)
Lemma forget_iface_triple iface_name P Q {B} (k : () → Eff St B) R :
  (∀ m, P m → Q (delete iface_name m)) → triple (on_ifaces Q) (k ()) R (λ _, True) →
  triple (on_ifaces P)
    (_ ← mutate (upd_ifaces (delete iface_name));
     _ ← on_client (sh_remove_iface iface_name);
     u ← clear_live_iface iface_name; k u) R (λ _, True).
Proof.
  intros Hd Hk. apply (triple_bind _ _ (λ _, on_ifaces Q)); [by apply triple_ifaces_mutate|intros _].
  apply (triple_bind _ _ (λ _, on_ifaces Q)); [apply triple_same_ifaces, frame_client, _|intros _].
  apply (triple_bind _ _ (λ _, on_ifaces Q)); [apply triple_same_ifaces; by apply frame_mutate|by intros []].
Qed.

Lemma drop_iface_gone forget iface_name (gone : string → Prop) :
  triple (on_ifaces (λ m, ∀ n, gone n → m !! n = None)) (drop_iface forget iface_name)
    (λ _, on_ifaces (λ m, ∀ n, gone n ∨ n = iface_name → m !! n = None)) (λ _, True).
Proof.
  unfold drop_iface. intros s r s' Hs. rewrite get_bind. destruct (wc_ifaces s !! iface_name) eqn:E.
  - clear E. revert s r s' Hs. apply (forget_iface_triple _ _
      (λ m, ∀ n, gone n ∨ n = iface_name → m !! n = None)).
    + intros m Hm n [H| ->]; [|apply lookup_delete_eq]. apply lookup_delete_None. auto.
    + destruct forget; [apply triple_same_ifaces; by apply frame_mutate|]. by intros s r s' H [= <- <-].
  - intros [= <- <-]. intros n [H| ->]; [by apply Hs|done].
Qed.

Lemma drop_ifaces_gone forget l : ∀ gone : string → Prop,
  triple (on_ifaces (λ m, ∀ n, gone n → m !! n = None)) (eff_each (drop_iface forget) l)
    (λ _, on_ifaces (λ m, ∀ n, gone n ∨ n ∈ l → m !! n = None)) (λ _, True).
Proof.
  induction l as [|x l IH]; intros gone.
  { intros s r s' Hs [= <- <-] n [H|H%elem_of_nil]; [by apply Hs|done]. }
  apply (triple_bind _ _ (λ _, on_ifaces (λ m, ∀ n, gone n ∨ n = x → m !! n = None)));
    [apply drop_iface_gone|intros _].
  eapply triple_weaken; [apply (IH (λ n, gone n ∨ n = x))|done|].
  intros u s H n Hn. apply H. rewrite elem_of_cons in Hn. tauto.
Qed.

(** The NICs of [m] are present with their index, but for those of [rest], and not ignored. *)
Definition all_present (phys : gmap string Z) (ignored : gset string) (rest : list string)
    (m : gmap string WifiIfaceState) : Prop :=
  ∀ n st, m !! n = Some st → (n ∈ rest ∨ phys !! n = Some (wi_if_index st)) ∧ n ∉ ignored.

Lemma settled_alter phys ignored rest name networks m :
  all_present phys ignored rest m →
  all_present phys ignored rest (alter (λ st, wifi_iface_state (wi_if_index st) networks) name m).
Proof.
  intros Hm n st. rewrite lookup_alter_Some. intros [(-> & st0 & H & ->)|[_ H]]; [|by apply Hm].
  apply (Hm _ _ H).
Qed.

Lemma update_iface_settled phys ignored plan force hint_map pending name rest :
  triple (on_ifaces (all_present phys ignored (name :: rest)))
    (update_managed phys plan force hint_map pending name)
    (λ _, on_ifaces (all_present phys ignored rest)) (λ _, True).
Proof.
  unfold update_managed. intros s r s' Hs. rewrite get_bind. destruct (wc_ifaces s !! name) as [st|] eqn:E.
  2: { intros [= <- <-] n st Hn. destruct (Hs n st Hn) as [[[->|]%elem_of_cons|] ?]; auto. congruence. }
  case_bool_decide as Hi; cbn [negb].
  2: { clear E. revert s r s' Hs. apply (forget_iface_triple _ _
         (all_present phys ignored rest)); [|by intros s r s' H [= <- <-]].
       intros m Hm n st' [Hne H]%lookup_delete_Some. destruct (Hm n st' H) as [[[->|]%elem_of_cons|] ?]; auto. done. }
  assert (all_present phys ignored rest (wc_ifaces s)) as Hs'.
  { intros n st' Hn. destruct (Hs n st' Hn) as [[[->|]%elem_of_cons|] ?]; auto.
    assert (st' = st) as -> by congruence. auto. }
  revert Hs'. clear Hs E. revert s r s'. change (triple (on_ifaces (all_present phys ignored rest))
    (networks ← eff_res (wanted_networks plan force hint_map name (wi_desired_networks st));
     if networks_changed force (wi_desired_networks st) networks || (force && negb (bool_decide (networks = [])))
     then mret (<[name := networks]> pending)
     else if negb force
     then _ ← set_networks name (refresh_hints (wi_desired_networks st) networks); mret pending
     else mret pending : Eff St _) (λ _, on_ifaces (all_present phys ignored rest)) (λ _, True)).
  apply (triple_bind _ _ (λ _, on_ifaces (all_present phys ignored rest))).
  { apply triple_res. intros s Hs. by destruct (wanted_networks _ _ _ _ _). }
  intros networks. destruct (_ || _); [by intros s r s' H [= <- <-]|].
  destruct (negb force); [|by intros s r s' H [= <- <-]].
  apply (triple_bind _ _ (λ _, on_ifaces (all_present phys ignored rest))); [|by intros _ s r s' H [= <- <-]].
  apply triple_ifaces_mutate, settled_alter.
Qed.
Lemma update_ifaces_settled phys ignored plan force hint_map names : ∀ pending,
  triple (on_ifaces (all_present phys ignored names))
    (update_all_managed phys plan force hint_map pending names)
    (λ _, on_ifaces (all_present phys ignored [])) (λ _, True).
Proof.
  induction names as [|n names IH]; intros pending; [by intros s r s' H [= <- <-]|].
  apply (triple_bind _ _ (λ _, on_ifaces (all_present phys ignored names)));
    [apply update_iface_settled|intros pending'; apply IH].
Qed.

Lemma add_iface_settled phys ignored plan force hint_map recreate name :
  name ∉ ignored →
  triple (on_ifaces (all_present phys ignored []))
    (add_iface phys plan force hint_map recreate name)
    (λ _, on_ifaces (all_present phys ignored [])) (λ _, True).
Proof.
  intros Hni. unfold add_iface. set (Q := on_ifaces (all_present phys ignored [])).
  apply (triple_bind _ _ (λ _, Q)); [by eapply triple_weaken; [apply triple_get|done|intros a s [H _]]|].
  intros ifaces. assert (triple Q (mret recreate : Eff St bool) (λ _, Q) (λ _, True)) as Hret
    by (by intros s r s' H [= <- <-]).
  destruct (ifaces !! name), (phys !! name) as [idx|] eqn:Ei, (pl_desired plan !! name) as [cfgs|]; try exact Hret.
  apply (triple_bind _ _ (λ _, Q)); [apply triple_res; intros s Hs; by destruct (if _ : bool then _ else _)|].
  intros networks. apply (triple_bind _ _ (λ _, Q)); [by eapply triple_weaken; [apply triple_get|done|intros a s [H _]]|].
  intros client. apply (triple_bind _ _ (λ _, Q)); [apply triple_same_ifaces, frame_client, _|intros ok].
  destruct (negb ok); [exact Hret|]. apply (triple_bind _ _ (λ _, Q)).
  { destruct client; [apply triple_same_ifaces; by apply frame_mutate|by intros s r s' H [= <- <-]]. }
  intros _. apply (triple_bind _ _ (λ _, Q)); [|by intros _ s r s' H [= <- <-]].
  apply triple_ifaces_mutate. intros m Hm n st. rewrite lookup_insert_Some.
  intros [[<- <-]|[_ H]]; [by split; [right|]|by apply Hm].
Qed.

Lemma add_ifaces_settled phys ignored plan force hint_map names : ∀ recreate,
  (∀ n, n ∈ names → n ∉ ignored) →
  triple (on_ifaces (all_present phys ignored []))
    (add_ifaces phys plan force hint_map recreate names)
    (λ _, on_ifaces (all_present phys ignored [])) (λ _, True).
Proof.
  induction names as [|n names IH]; intros recreate Hn; [by intros s r s' H [= <- <-]|].
  apply (triple_bind _ _ (λ _, on_ifaces (all_present phys ignored []))).
  - apply add_iface_settled, Hn. by left.
  - intros b. apply IH. intros x Hx. apply Hn. by right.
Qed.

Lemma send_networks_settled phys ignored plan force entry :
  triple (on_ifaces (all_present phys ignored [])) (send_networks plan force entry)
    (λ _, on_ifaces (all_present phys ignored [])) (λ _, True).
Proof.
  destruct entry as [name networks]. unfold send_networks. set (Q := on_ifaces (all_present phys ignored [])).
  assert (∀ f, triple Q (on_client f) (λ _, Q) (λ _, True)) as Hc
    by (intros f; apply triple_same_ifaces, frame_client, _).
  apply (triple_bind _ _ (λ _, Q)); [by eapply triple_weaken; [apply triple_get|done|intros a s [H _]]|].
  intros live. apply (triple_bind _ _ (λ _, Q)).
  { destruct (should_reconnect_to_networks _ _ _ _); [apply Hc|by intros s r s' H [= <- <-]]. }
  intros ok. destruct (negb ok); [by intros s r s' H [= <- <-]|].
  apply (triple_bind _ _ (λ _, Q)); [apply Hc|intros [|]; [|by intros s r s' H [= <- <-]]].
  apply triple_ifaces_mutate, settled_alter.
Qed.

Lemma drain_pending_settled phys ignored pending :
  triple (on_ifaces (all_present phys ignored [])) (drain_pending pending)
    (λ _, on_ifaces (all_present phys ignored [])) (λ _, True).
Proof.
  apply triple_ifaces_mutate. intros m Hm n st. rewrite map_lookup_imap.
  destruct (m !! n) as [st0|] eqn:E; [|done]. intros [= <-]. destruct (Hm n st0 E).
  by destruct (pending !! n).
Qed.

Lemma finish_apply_settled phys ignored plan force recreate pending :
  triple (on_ifaces (all_present phys ignored [])) (finish_apply order plan force recreate pending)
    (λ _, on_ifaces (all_present phys ignored [])) (λ _, True).
Proof.
  intros s r s' Hs. unfold finish_apply. rewrite !get_bind. set (Q := on_ifaces (all_present phys ignored [])) in *.
  destruct (_ && _); [|destruct (negb _); [|destruct (_ || _)]]; revert s r s' Hs.
  - apply (triple_bind _ _ (λ _, Q)); [apply triple_same_ifaces, shutdown_ifaces|intros _].
    apply triple_same_ifaces. by apply frame_mutate.
  - apply drain_pending_settled.
  - apply (triple_bind _ _ (λ _, Q)); [apply drain_pending_settled|intros _].
    apply triple_same_ifaces, start_client_ifaces.
  - apply (triple_bind _ _ (λ _, Q)).
    { apply triple_each. intros n. apply triple_same_ifaces. by apply frame_mutate. }
    intros _. apply (triple_bind _ _ (λ _, Q)); [by eapply triple_weaken; [apply triple_get|done|intros a s [H _]]|].
    intros [|]; [|by intros s r s' H [= <- <-]]. apply triple_each. intros e. apply send_networks_settled.
Qed.

Lemma wifi_cfg_phy_names_among iface cfg up present n :
  (is_wifi_phy iface = true → kernel_iface_name iface ∈ up) →
  n ∈ wifi_cfg_phy_names iface cfg up present → n ∈ up ∨ n ∈ present.
Proof.
  intros Hup. unfold wifi_cfg_phy_names. destruct (is_wifi_phy iface).
  { intros ->%list_elem_of_singleton. left. by apply Hup. }
  assert (n ∈ match up with [] => present | _ => up end → n ∈ up ∨ n ∈ present) as H
    by (destruct up; auto).
  destruct (wifi_base_iface cfg) as [b|]; [|done]. destruct (String.eqb b ""); [done|].
  destruct (_ || _) eqn:E; [|by intros ?%elem_of_nil]. intros ->%list_elem_of_singleton.
  apply orb_true_iff in E as [E%bool_decide_eq_true|E%bool_decide_eq_true]; auto.
Qed.

Lemma bind_cfgs_dom cfg l : ∀ d n, n ∈ dom (foldl (bind_cfg cfg) d l) → n ∈ dom d ∨ n ∈ l.
Proof.
  induction l as [|x l IH]; intros d n; [by left|]. cbn [foldl].
  intros [H|H]%IH; [|right; by right]. unfold bind_cfg in H. rewrite dom_insert, elem_of_union in H.
  destruct H as [->%elem_of_singleton|H]; [right; by left|by left].
Qed.

(** The NICs a plan is about. *)
Lemma plan_wifi_names up present ifaces : ∀ plan,
  (∀ i, i ∈ ifaces → is_wifi_phy i = true → iface_is_up i = true → kernel_iface_name i ∈ up) →
  (∀ n, n ∈ dom (pl_desired plan) → n ∈ up ∨ n ∈ present) →
  triple (λ _, True) (plan_wifi up present plan ifaces : Eff St _)
    (λ plan _, ∀ n, n ∈ dom (pl_desired plan) → n ∈ up ∨ n ∈ present) (λ _, True).
Proof.
  induction ifaces as [|i ifaces IH]; intros plan Hup Hp; [by intros s r s' _ [= <- <-]|].
  apply (triple_bind _ _ (λ plan _, ∀ n, n ∈ dom (pl_desired plan) → n ∈ up ∨ n ∈ present)).
  - unfold plan_iface. destruct (iface_is_ignore i); [by intros s r s' _ [= <- <-]|].
    destruct (wifi_section i) as [w|]; [|by intros s r s' _ [= <- <-]].
    destruct (_ || _); [destruct (is_wifi_phy i); by intros s r s' _ [= <- <-]|].
    destruct (iface_is_up i) eqn:Eu; cbn [negb]; [|by intros s r s' _ [= <- <-]].
    destruct w as [cfg|]; [|by intros s r s' _ [= <- <-]].
    intros s r s' _ [= <- <-] n [Hn|Hn]%bind_cfgs_dom; [by apply Hp|].
    eapply wifi_cfg_phy_names_among; [|done]. intros Hi. apply Hup; [by left|done..].
  - intros plan' s r s' Hp' Hr. refine (IH plan' _ Hp' s r s' I Hr).
    intros j Hj. apply Hup. by right.
Qed.

Lemma elem_of_ignored ifaces n :
  n ∈ ignored_wifi_phys ifaces ↔
    ∃ i, i ∈ ifaces ∧ is_wifi_phy i = true ∧ iface_is_ignore i = true ∧ kernel_iface_name i = n.
Proof.
  unfold ignored_wifi_phys. rewrite elem_of_list_to_set, list_elem_of_In, in_map_iff.
  setoid_rewrite filter_In. setoid_rewrite andb_true_iff. setoid_rewrite <-list_elem_of_In.
  split; [intros (i & ? & ? & ? & ?)|intros (i & ? & ? & ? & ?)]; exists i; auto.
Qed.

(** C5: After an apply each NIC the plugin manages is there, with the index its client was
    bound to, and none is ignored - a NIC that was created anew or is gone is forgotten, with
    its connection - provided that no NIC is both ignored and brought up. *)
Theorem managed_nics_are_present ifaces force s s' :
  (∀ i j, i ∈ ifaces → j ∈ ifaces → is_wifi_phy i = true → iface_is_up i = true →
     is_wifi_phy j = true → iface_is_ignore j = true → kernel_iface_name i ≠ kernel_iface_name j) →
  wifi_apply from_yaml order ifaces force s = (Ok (), s') →
  ∀ n st, wc_ifaces s' !! n = Some st →
    phys_of (get_wifi_ifaces (wc_out s)).1 !! n = Some (wi_if_index st) ∧ n ∉ ignored_wifi_phys ifaces.
Proof.
  intros Hd. unfold wifi_apply, wifi_on_for_request. rewrite mutate_bind, eff_bind_run.
  set (s0 := if _ : bool then _ else s). assert (wc_out s0 = wc_out s) as <- by (subst s0; by destruct (_ && _)).
  unfold query_phys. destruct (get_wifi_ifaces (wc_out s0)) as [infos k]. cbn [fst].
  generalize (upd_out k s0). clear s0 s k. intros s Hr.
  set (phys := phys_of infos) in *. set (ignored := ignored_wifi_phys ifaces) in *.
  assert (∀ n, n ∈ up_wifi_phys ifaces ∨ n ∈ present_wifi_phys phys ifaces → n ∉ ignored) as Hni.
  { intros n [H|H] Hi.
    - apply elem_of_ignored in Hi as (j & Hj & ? & ? & <-). unfold up_wifi_phys in H.
      apply list_elem_of_In, in_map_iff in H as (i & Hn & [Hi [? ?]%andb_true_iff]%filter_In).
      apply (Hd i j); [by apply list_elem_of_In|done..].
    - unfold present_wifi_phys in H. apply elem_of_sort_by, elem_of_elements in H. set_solver. }
  enough (triple (λ _, True) (plan ← plan_wifi (up_wifi_phys ifaces) (present_wifi_phys phys ifaces)
      (wifi_plan ∅ ∅ ∅) ifaces;
    hint_map ← load_hint_map from_yaml ∅ (desired_cfgs order (pl_desired plan));
    _ ← eff_each (drop_iface false) (ho_keys order 3 (pl_names plan));
    _ ← eff_each (drop_iface true) (ho_keys order 4 ignored);
    managed ← get (λ s, dom (wc_ifaces s));
    pending ← update_all_managed phys plan force hint_map ∅ (ho_keys order 5 managed);
    recreate ← add_ifaces phys plan force hint_map false (ho_keys order 6 (dom (pl_desired plan)));
    finish_apply order plan force recreate pending : Eff St ())
    (λ _, on_ifaces (all_present phys ignored [])) (λ _, True)) as Ht.
  { specialize (Ht s _ s' I Hr). intros n st Hn. destruct (Ht n st Hn) as [[H%elem_of_nil|H] ?]; done. }
  clear s s' Hr.
  apply (triple_bind _ _ (λ plan _, ∀ n, n ∈ dom (pl_desired plan) →
    n ∈ up_wifi_phys ifaces ∨ n ∈ present_wifi_phys phys ifaces)).
  { apply plan_wifi_names; [|intros n Hn; cbn [pl_desired] in Hn; by rewrite dom_empty_L in Hn].
    intros i Hi Hp Hu. unfold up_wifi_phys. apply list_elem_of_In, in_map, filter_In.
    split; [by apply list_elem_of_In|by rewrite Hp, Hu]. }
  intros plan. apply triple_pure. intros Hplan.
  apply (triple_bind _ _ (λ _ _, True)); [apply triple_true|intros hint_map].
  apply (triple_bind _ _ (λ _ _, True)); [apply triple_true|intros _].
  apply (triple_bind _ _ (λ _, on_ifaces (λ m, ∀ n, n ∈ ignored → m !! n = None))).
  { eapply triple_weaken; [apply (drop_ifaces_gone true _ (λ _, False))|by intros s _ n|].
    intros [] s H n Hn. apply H. right. by rewrite (ho_keys_perm order 4 ignored), elem_of_elements. }
  intros _. apply (triple_bind _ _ (λ managed, on_ifaces (all_present phys ignored (ho_keys order 5 managed)))).
  { eapply triple_weaken; [apply triple_get|done|]. intros managed s [H ->] n st Hn. split.
    - left. rewrite (ho_keys_perm order 5 _), elem_of_elements. by eapply elem_of_dom_2.
    - intros Hi. by rewrite (H n Hi) in Hn. }
  intros managed. apply (triple_bind _ _ (λ _, on_ifaces (all_present phys ignored [])));
    [apply update_ifaces_settled|intros pending].
  apply (triple_bind _ _ (λ _, on_ifaces (all_present phys ignored []))); [apply add_ifaces_settled|
    intros recreate; apply finish_apply_settled].
  intros n Hn. apply Hni, Hplan. by rewrite (ho_keys_perm order 6 _), elem_of_elements in Hn.
Qed.

End Managed.

(** ** The networks of a NIC *)

Section Networks.
Context {C K : Type} `{!Shuli C K}.
Context (from_yaml : string → option PersistedHints) (order : HashOrder).
Abbreviation St := (WifiClientState C K).

(** The lists are one configuration. *)
Definition same_lists (l l0 : list ShuliNetwork) : Prop := map normalized l ≡ₚ map normalized l0.

Lemma same_saved_spec l l0 : same_saved_networks_ignoring_prefered l l0 = true → same_lists l l0.
Proof.
  unfold same_saved_networks_ignoring_prefered. intros [Hl Hm]%andb_true_iff. by apply match_all_same.
Qed.

(** What a plan wants on a NIC that had [old]. *)
Definition wanted (plan : WifiPlan) (old : option WifiIfaceState) (n : string)
    (l : list ShuliNetwork) : Prop :=
  match pl_desired plan !! n with
  | Some cfgs => ∃ l0, build_shuli_networks cfgs ∅ = Ok l0 ∧ same_lists l l0
  | None => ∃ st, old = Some st ∧
      same_lists l (List.filter (λ x, negb (bool_decide (sn_ssid x ∈ pl_ssids plan)))
                      (wi_desired_networks st))
  end.

Lemma agree_same l l0 : agree l l0 → same_lists l l0.
Proof. unfold agree, same_lists. by intros ->. Qed.

Lemma wanted_same plan old n l l0 : same_lists l l0 → wanted plan old n l0 → wanted plan old n l.
Proof.
  unfold wanted, same_lists. intros H. destruct (pl_desired plan !! n).
  - intros (x & ? & Hx). exists x. by rewrite H.
  - intros (st & ? & Hx). exists st. by rewrite H.
Qed.

Lemma wanted_networks_wanted plan hint_map n st l :
  wanted_networks plan false hint_map n (wi_desired_networks st) = Ok l → wanted plan (Some st) n l.
Proof.
  unfold wanted_networks, wanted. destruct (pl_desired plan !! n) as [cfgs|]; cbn [andb].
  - intros (l0 & H & Ha)%build_networks_hints. exists l0. split; [done|by apply agree_same].
  - intros [= <-]. exists st. split; [done|]. unfold same_lists. done.
Qed.

(** The managed NICs [m], of which those of [rest] are as they were in [old], and the others
    have, or will have when the pending lists are taken over, what is wanted. *)
Definition progress (plan : WifiPlan) (old : gmap string WifiIfaceState) (rest : list string)
    (pending : gmap string (list ShuliNetwork)) (m : gmap string WifiIfaceState) : Prop :=
  (∀ n, n ∈ rest → m !! n = old !! n ∨ m !! n = None) ∧
  (∀ n st, m !! n = Some st → n ∉ rest →
     wanted plan (old !! n) n (default (wi_desired_networks st) (pending !! n))) ∧
  ∀ n, is_Some (pending !! n) → (n ∉ rest) ∧ is_Some (m !! n).

Lemma progress_delete plan old rest pending n m :
  n ∉ rest → pending !! n = None → progress plan old (n :: rest) pending m →
  progress plan old rest pending (delete n m).
Proof.
  intros Hn Hpn (H1 & H2 & H3). split_and!.
  - intros x Hx. rewrite lookup_delete_ne by set_solver. apply H1. by right.
  - intros x st [Hne Hx]%lookup_delete_Some Hr. apply H2; [done|]. by intros [->|]%elem_of_cons.
  - intros x Hx. destruct (H3 x Hx) as [Hr Hm]. rewrite elem_of_cons in Hr.
    rewrite lookup_delete_ne; [tauto|]. intros ->. rewrite Hpn in Hx. by destruct Hx.
Qed.

Lemma progress_skip plan old rest pending n m :
  m !! n = None → progress plan old (n :: rest) pending m → progress plan old rest pending m.
Proof.
  intros Hn (H1 & H2 & H3). split_and!.
  - intros x Hx. apply H1. by right.
  - intros x st Hx Hr. apply H2; [done|]. intros [->|]%elem_of_cons; congruence.
  - intros x Hx. destruct (H3 x Hx) as [Hr Hm]. rewrite elem_of_cons in Hr. tauto.
Qed.

Lemma progress_pending plan old rest pending n l st m :
  n ∉ rest → m !! n = Some st → wanted plan (old !! n) n l →
  progress plan old (n :: rest) pending m → progress plan old rest (<[n := l]> pending) m.
Proof.
  intros Hn Hm Hw (H1 & H2 & H3). split_and!.
  - intros x Hx. apply H1. by right.
  - intros x st' Hx Hr. destruct (decide (x = n)) as [->|Hne]; [by rewrite lookup_insert_eq|].
    rewrite lookup_insert_ne by done. apply H2; [done|]. by intros [->|]%elem_of_cons.
  - intros x [l' Hx]. apply lookup_insert_Some in Hx as [[<- _]|[Hne Hx]]; [eauto|].
    destruct (H3 x) as [Hr Hs]; [eauto|]. rewrite elem_of_cons in Hr. tauto.
Qed.

Lemma progress_refresh plan old rest pending n l st m :
  n ∉ rest → pending !! n = None → m !! n = Some st → wanted plan (old !! n) n l →
  progress plan old (n :: rest) pending m →
  progress plan old rest pending (alter (λ st, wifi_iface_state (wi_if_index st) l) n m).
Proof.
  intros Hn Hpn Hm Hw (H1 & H2 & H3). split_and!.
  - intros x Hx. rewrite lookup_alter_ne by set_solver. apply H1. by right.
  - intros x st'. rewrite lookup_alter_Some. intros [(<- & st0 & Hx & ->)|[Hne Hx]] Hr.
    + by rewrite Hpn.
    + apply H2; [done|]. by intros [->|]%elem_of_cons.
  - intros x Hx. destruct (H3 x Hx) as [Hr Hs]. rewrite elem_of_cons in Hr. split; [tauto|].
    rewrite lookup_alter_ne; [done|]. intros ->. tauto.
Qed.

Lemma update_iface_progress phys plan hint_map old pending n rest :
  n ∉ rest →
  triple (on_ifaces (progress plan old (n :: rest) pending))
    (update_managed phys plan false hint_map pending n)
    (λ pending', on_ifaces (progress plan old rest pending')) (λ _, True).
Proof.
  intros Hn s r s' Hs. pose proof Hs as (H1 & H2 & H3).
  assert (pending !! n = None) as Hpn.
  { apply eq_None_not_Some. intros [Hr _]%H3. apply Hr. by left. }
  unfold update_managed. rewrite get_bind. destruct (wc_ifaces s !! n) as [st|] eqn:E.
  2: { intros [= <- <-]. by eapply progress_skip. }
  assert (old !! n = Some st) as Ho by (destruct (H1 n) as [H|H]; [by left|congruence..]).
  destruct (negb _).
  { clear E H1 H2 H3. revert s r s' Hs. apply (forget_iface_triple _ _ (progress plan old rest pending));
      [|by intros s r s' H [= <- <-]]. intros m. by apply progress_delete. }
  rewrite eff_bind_run. destruct (wanted_networks _ _ _ _ _) as [l|e] eqn:El; [|by intros [= <- <-]].
  apply wanted_networks_wanted in El. cbn [eff_res eff_of lift]. rewrite <-Ho in El.
  unfold networks_changed. cbn [negb andb]. rewrite orb_false_r.
  destruct (same_saved_networks_ignoring_prefered _ _) eqn:Es; cbn [negb]; intros [= <- <-].
  - eapply progress_refresh; [done..| |done].
    eapply wanted_same; [|done]. unfold same_lists. rewrite (proj1 (refresh_hints_normalized _ _)).
    by apply same_saved_spec.
  - by eapply progress_pending.
Qed.
Lemma update_ifaces_progress phys plan hint_map old names : ∀ pending,
  NoDup names →
  triple (on_ifaces (progress plan old names pending))
    (update_all_managed phys plan false hint_map pending names)
    (λ pending', on_ifaces (progress plan old [] pending')) (λ _, True).
Proof.
  induction names as [|n names IH]; intros pending Hd; [by intros s r s' H [= <- <-]|].
  apply NoDup_cons in Hd as [Hn Hd].
  apply (triple_bind _ _ (λ pending', on_ifaces (progress plan old names pending')));
    [by apply update_iface_progress|intros pending'; by apply IH].
Qed.

Lemma progress_added plan old pending n st m :
  m !! n = None → wanted plan (old !! n) n (wi_desired_networks st) →
  progress plan old [] pending m → progress plan old [] pending (<[n := st]> m).
Proof.
  intros Hn Hw (H1 & H2 & H3). split_and!.
  - by intros x Hx%elem_of_nil.
  - intros x st' Hx Hr. apply lookup_insert_Some in Hx as [[<- <-]|[Hne Hx]]; [|by apply H2].
    assert (pending !! n = None) as ->; [|done]. apply eq_None_not_Some. intros [_ [? H]]%H3. congruence.
  - intros x Hx. split; [apply not_elem_of_nil|]. destruct (H3 x Hx) as [_ [st' Hs]].
    destruct (decide (x = n)) as [->|]; [by rewrite lookup_insert_eq|by rewrite lookup_insert_ne].
Qed.

Lemma add_iface_progress phys plan hint_map old pending recreate n :
  triple (on_ifaces (progress plan old [] pending)) (add_iface phys plan false hint_map recreate n)
    (λ _, on_ifaces (progress plan old [] pending)) (λ _, True).
Proof.
  intros s r s' Hs. unfold add_iface. rewrite get_bind. set (Q := on_ifaces (progress plan old [] pending)) in *.
  destruct (wc_ifaces s !! n) eqn:En, (phys !! n) as [idx|], (pl_desired plan !! n) as [cfgs|] eqn:Ed;
    try (by intros [= <- <-]).
  cbn [andb]. rewrite eff_bind_run. destruct (build_shuli_networks cfgs hint_map) as [l|e] eqn:El;
    [|by intros [= <- <-]].
  cbn [eff_res eff_of lift]. revert s r s' En Hs.
  assert (wanted plan (old !! n) n l) as Hw.
  { unfold wanted. rewrite Ed. apply build_networks_hints in El as (l0 & H & Ha). exists l0.
    split; [done|by apply agree_same]. }
  enough (triple (on_ifaces (λ m, m !! n = None ∧ progress plan old [] pending m))
    (client ← get has_client; ok ← on_client (sh_add_iface n l);
     if negb ok then mret recreate
     else
       _ ← (if client : bool then clear_connect_error n else mret ());
       _ ← mutate (upd_ifaces (insert n (wifi_iface_state idx l)));
       mret (recreate || negb client) : Eff St bool) (λ _, Q) (λ _, True)) as H
    by (intros s r s' En Hs; by apply H).
  set (P := on_ifaces (λ m, m !! n = None ∧ progress plan old [] pending m)).
  apply (triple_bind _ _ (λ _, P)); [by eapply triple_weaken; [apply triple_get|done|intros a s [H _]]|].
  intros client. apply (triple_bind _ _ (λ _, P)); [apply triple_same_ifaces, frame_client, _|intros ok].
  destruct (negb ok); [by intros s r s' [_ H] [= <- <-]|]. apply (triple_bind _ _ (λ _, P)).
  { destruct client; [apply triple_same_ifaces; by apply frame_mutate|by intros s r s' H [= <- <-]]. }
  intros _. apply (triple_bind _ _ (λ _, Q)); [|by intros _ s r s' H [= <- <-]].
  apply triple_ifaces_mutate. intros m [Hm Hp]. by apply progress_added.
Qed.

Lemma add_ifaces_progress phys plan hint_map old pending names : ∀ recreate,
  triple (on_ifaces (progress plan old [] pending)) (add_ifaces phys plan false hint_map recreate names)
    (λ _, on_ifaces (progress plan old [] pending)) (λ _, True).
Proof.
  induction names as [|n names IH]; intros recreate; [by intros s r s' H [= <- <-]|].
  apply (triple_bind _ _ (λ _, on_ifaces (progress plan old [] pending)));
    [apply add_iface_progress|intros b; apply IH].
Qed.

(** Every managed NIC has what is wanted, but for those of [todo]. *)
Definition reached (plan : WifiPlan) (old : gmap string WifiIfaceState)
    (todo : list (string * list ShuliNetwork)) (m : gmap string WifiIfaceState) : Prop :=
  (∀ n l, (n, l) ∈ todo → wanted plan (old !! n) n l) ∧
  ∀ n st, m !! n = Some st → n ∈ todo.*1 ∨ wanted plan (old !! n) n (wi_desired_networks st).

Lemma drain_pending_reached plan old pending :
  triple (on_ifaces (progress plan old [] pending)) (drain_pending pending : Eff St ())
    (λ _, on_ifaces (reached plan old [])) (λ _, True).
Proof.
  apply triple_ifaces_mutate. intros m (_ & H2 & _). split; [by intros n l H%elem_of_nil|].
  intros n st. rewrite map_lookup_imap. destruct (m !! n) as [st0|] eqn:E; [|done].
  intros [= <-]. right. specialize (H2 n st0 E (not_elem_of_nil _)). by destruct (pending !! n).
Qed.

Lemma progress_todo plan old pending m :
  progress plan old [] pending m →
  reached plan old (omap (λ n, pair n <$> pending !! n) (ho_keys order 2 (dom pending))) m.
Proof.
  intros (_ & H2 & H3). split.
  - intros n l (n' & _ & (l' & Hl & [= -> ->])%fmap_Some)%list_elem_of_omap.
    destruct (H3 n') as [_ [st Hst]]; [eauto|]. specialize (H2 _ _ Hst (not_elem_of_nil _)).
    by rewrite Hl in H2.
  - intros n st Hst. specialize (H2 n st Hst (not_elem_of_nil _)).
    destruct (pending !! n) as [l|] eqn:E; [left|by right].
    change n with (fst (n, l)). apply list_elem_of_fmap_2, list_elem_of_omap. exists n. rewrite E.
    split; [|done]. rewrite (ho_keys_perm order 2 _), elem_of_elements. by eapply elem_of_dom_2.
Qed.

(** What is planned depends on the request alone. *)
Lemma plan_wifi_state up present ifaces : ∀ plan (s s' : St),
  (plan_wifi up present plan ifaces s').1 = (plan_wifi up present plan ifaces s).1.
Proof.
  induction ifaces as [|i ifaces IH]; intros plan s s'; [done|]. cbn [plan_wifi]. rewrite !eff_bind_run.
  unfold plan_iface. destruct (iface_is_ignore i); [apply IH|].
  destruct (wifi_section i) as [w|]; [|apply IH].
  destruct (_ || _); [destruct (is_wifi_phy i); apply IH|].
  destruct (negb _); [done|]. destruct w; apply IH.
Qed.

Lemma drop_iface_less (old : gmap string WifiIfaceState) forget n :
  triple (on_ifaces (λ m, ∀ n, m !! n = old !! n ∨ m !! n = None)) (drop_iface forget n : Eff St ())
    (λ _, on_ifaces (λ m, ∀ n, m !! n = old !! n ∨ m !! n = None)) (λ _, True).
Proof.
  set (Q := on_ifaces (λ m : gmap string WifiIfaceState, ∀ n, m !! n = old !! n ∨ m !! n = None)).
  intros s r s' Hs. unfold drop_iface. rewrite get_bind. destruct (wc_ifaces s !! n); [|by intros [= <- <-]].
  revert s r s' Hs.
  apply (forget_iface_triple _ _ (λ m : gmap string WifiIfaceState, ∀ n, m !! n = old !! n ∨ m !! n = None)).
  - intros m Hm x. destruct (decide (x = n)) as [->|Hne]; [right; apply lookup_delete_eq|].
    rewrite lookup_delete_ne by done. apply Hm.
  - destruct forget; [apply triple_same_ifaces; by apply frame_mutate|]. by intros s r s' H [= <- <-].
Qed.

Context (accepts : ∀ n l (c : C) (k : K), (sh_update_networks n l c k).1.1 = true).

Lemma send_networks_reached plan old entry todo :
  triple (on_ifaces (reached plan old (entry :: todo))) (send_networks plan false entry)
    (λ _, on_ifaces (reached plan old todo)) (λ _, True).
Proof.
  destruct entry as [n l]. intros s r s' Hs. unfold send_networks. rewrite get_bind.
  unfold should_reconnect_to_networks. cbn [negb orb]. rewrite eff_bind_run. cbn [mret Eff_ret negb].
  rewrite eff_bind_run. unfold on_client. specialize (accepts n l).
  assert (∀ (t : St) r t', on_ifaces (reached plan old ((n, l) :: todo)) t →
    set_networks n l t = (r, t') → match r with Ok _ => on_ifaces (reached plan old todo) t' | Err _ => True end) as Hset.
  { apply (triple_ifaces_mutate (C := C) (K := K)). intros m [H1 H2]. split; [intros x y Hx; apply H1; by right|].
    intros x st. rewrite lookup_alter_Some. intros [(<- & st0 & Hx & ->)|[Hne Hx]].
    - right. apply H1. by left.
    - destruct (H2 x st Hx) as [[?|Hx2]%elem_of_cons|H]; [done|by left|by right]. }
  destruct (wc_client s) as [c|].
  - specialize (accepts c (wc_out s)). destruct (sh_update_networks n l c (wc_out s)) as [[ok c'] k].
    simpl in accepts. subst ok. intros Hr. by refine (Hset _ _ _ _ Hr).
  - intros Hr. by refine (Hset _ _ _ _ Hr).
Qed.

Lemma send_all_reached plan old todo :
  triple (on_ifaces (reached plan old todo)) (eff_each (send_networks plan false) todo)
    (λ _, on_ifaces (reached plan old [])) (λ _, True).
Proof.
  induction todo as [|e todo IH]; [by intros s r s' H [= <- <-]|].
  apply (triple_bind _ _ (λ _, on_ifaces (reached plan old todo))); [apply send_networks_reached|by intros _].
Qed.

Lemma finish_apply_reached plan old recreate pending :
  triple (on_ifaces (progress plan old [] pending)) (finish_apply order plan false recreate pending)
    (λ _, on_ifaces (reached plan old [])) (λ _, True).
Proof.
  intros s r s' Hs. unfold finish_apply. rewrite !get_bind.
  assert (∀ t : St, wc_ifaces t = ∅ → on_ifaces (reached plan old []) t) as Hempty.
  { intros t Ht. unfold on_ifaces. rewrite Ht. split; [by intros n l H%elem_of_nil|]. intros n st.
    by rewrite lookup_empty. }
  destruct (_ && _) eqn:E1; [|destruct (negb (wc_enabled s)); [|destruct (_ || _) eqn:E2]].
  - apply andb_true_iff in E1 as [E1%bool_decide_eq_true _].
    assert (keeps (same wc_ifaces) (_ ← shutdown; mutate (upd_client None) : Eff St ())) as Hk.
    { apply eff_keeps_bind; [typeclasses eauto|apply shutdown_ifaces|intros _]. by apply frame_mutate. }
    intros Hr. pose proof (Hk _ _ _ Hr) as H. destruct r; [|done]. apply Hempty. unfold same in H. congruence.
  - intros Hr. by apply (drain_pending_reached plan old pending s r s').
  - clear E1 E2. revert s r s' Hs.
    apply (triple_bind _ _ (λ _, on_ifaces (reached plan old []))); [apply drain_pending_reached|intros _].
    apply triple_same_ifaces, start_client_ifaces.
  - apply orb_false_iff in E2 as [_ E2]. clear E1.
    set (todo := omap (λ n, pair n <$> pending !! n) (ho_keys order 2 (dom pending))).
    enough (triple (λ s, on_ifaces (reached plan old todo) s ∧ (has_client s = false → wc_ifaces s = ∅))
      (_ ← eff_each clear_connect_error (ho_keys order 2 (dom pending));
       client ← get has_client;
       if client : bool then eff_each (send_networks plan false) todo else mret () : Eff St ())
      (λ _, on_ifaces (reached plan old [])) (λ _, True)) as H.
    { apply H. split; [by apply progress_todo|]. intros Hc. rewrite Hc in E2. cbn [negb andb] in E2.
      by apply negb_false_iff, bool_decide_eq_true in E2. }
    clear s r s' Hs E2.
    apply (triple_bind _ _ (λ _ s, on_ifaces (reached plan old todo) s ∧ (has_client s = false → wc_ifaces s = ∅))).
    { apply (triple_each (λ s : St, on_ifaces (reached plan old todo) s ∧ (has_client s = false → wc_ifaces s = ∅))).
      intros n. by apply triple_mutate. }
    intros _. intros s r s' [Hs He]. rewrite get_bind. destruct (has_client s) eqn:Ec.
    + by apply send_all_reached.
    + intros [= <- <-]. apply Hempty. by apply He.
Qed.

(** C3: After an apply that is not forced, with a client that takes its updates, every managed
    NIC has the saved networks that were asked for: those of the sections bound to it, or, if
    none is, those it had, less the removed SSIDs, whatever the order of the hash maps; in
    particular an apply that does not mention a NIC changes nothing saved on it. *)
Theorem unforced_apply_sets_networks ifaces plan (s0 s1 s s' : St) :
  plan_wifi (up_wifi_phys ifaces)
    (present_wifi_phys (phys_of (get_wifi_ifaces (wc_out s)).1) ifaces) (wifi_plan ∅ ∅ ∅) ifaces s0 =
    (Ok plan, s1) →
  wifi_apply from_yaml order ifaces false s = (Ok (), s') →
  ∀ n st, wc_ifaces s' !! n = Some st →
    wanted plan (wc_ifaces s !! n) n (wi_desired_networks st).
Proof.
  intros Hplan. unfold wifi_apply, wifi_on_for_request. rewrite mutate_bind, eff_bind_run.
  set (sa := if _ : bool then _ else s).
  assert (wc_out sa = wc_out s ∧ wc_ifaces sa = wc_ifaces s) as [Ho <-] by (subst sa; by destruct (_ && _)).
  unfold query_phys. rewrite Ho. destruct (get_wifi_ifaces (wc_out s)) as [infos k]. cbn [fst] in Hplan.
  change (wc_ifaces sa) with (wc_ifaces (upd_out k sa)).
  generalize (upd_out k sa). clear sa Ho s k. intros s. rewrite eff_bind_run.
  pose proof (plan_wifi_state (up_wifi_phys ifaces) (present_wifi_phys (phys_of infos) ifaces) ifaces
    (wifi_plan ∅ ∅ ∅) s0 s) as Hst. rewrite Hplan in Hst.
  pose proof (plan_wifi_apart wc_ifaces (up_wifi_phys ifaces) (present_wifi_phys (phys_of infos) ifaces)
    ifaces (wifi_plan ∅ ∅ ∅) s) as Hsame.
  destruct (plan_wifi _ _ _ ifaces s) as [x s2]. simpl in Hst. subst x. specialize (Hsame _ _ eq_refl).
  unfold same in Hsame. rewrite <-Hsame. clear s Hsame s0 s1 Hplan.
  set (phys := phys_of infos). intros Hr.
  enough (∀ old, triple (on_ifaces (λ m, ∀ n, m !! n = old !! n ∨ m !! n = None))
    (hint_map ← load_hint_map from_yaml ∅ (desired_cfgs order (pl_desired plan));
     _ ← eff_each (drop_iface false) (ho_keys order 3 (pl_names plan));
     _ ← eff_each (drop_iface true) (ho_keys order 4 (ignored_wifi_phys ifaces));
     managed ← get (λ s, dom (wc_ifaces s));
     pending ← update_all_managed phys plan false hint_map ∅ (ho_keys order 5 managed);
     recreate ← add_ifaces phys plan false hint_map false (ho_keys order 6 (dom (pl_desired plan)));
     finish_apply order plan false recreate pending : Eff St ())
    (λ _, on_ifaces (reached plan old [])) (λ _, True)) as H.
  { intros n st Hn. destruct (H (wc_ifaces s2) s2 _ s' (λ n, or_introl eq_refl) Hr) as [_ H2].
    by destruct (H2 n st Hn) as [?%elem_of_nil|]. }
  clear s2 s' Hr. intros old.
  set (Q := on_ifaces (λ m : gmap string WifiIfaceState, ∀ n, m !! n = old !! n ∨ m !! n = None)).
  apply (triple_bind _ _ (λ _, Q)); [apply triple_same_ifaces, load_hint_map_apart, _|intros hint_map].
  do 2 (apply (triple_bind _ _ (λ _, Q)); [apply triple_each; intros n; apply drop_iface_less|intros _]).
  apply (triple_bind _ _ (λ managed, on_ifaces (progress plan old (ho_keys order 5 managed) ∅))).
  { eapply triple_weaken; [apply triple_get|done|]. intros managed s [H ->]. split_and!.
    - intros n _. apply H.
    - intros n st Hn Hni. exfalso. apply Hni. rewrite (ho_keys_perm order 5 _), elem_of_elements.
      by eapply elem_of_dom_2.
    - intros n [l Hl]. by rewrite lookup_empty in Hl. }
  intros managed. apply (triple_bind _ _ (λ pending, on_ifaces (progress plan old [] pending))).
  { apply update_ifaces_progress. rewrite (ho_keys_perm order 5 _). apply NoDup_elements. }
  intros pending. apply (triple_bind _ _ (λ _, on_ifaces (progress plan old [] pending)));
    [apply add_ifaces_progress|intros recreate; apply finish_apply_reached].
Qed.
End Networks.

(** ** Examples *)

(** A client that takes everything and remembers the lists it was sent; what is outside are the
    NICs. *)
#[local] Instance ex_shuli : Shuli (list (string * list string)) (list (string * Z)) := {|
  get_wifi_ifaces k := (k, k);
  sh_init configs k := (Some (prod_map id (map sn_ssid) <$> configs), k);
  sh_add_iface n l c k := (true, c ++ [(n, sn_ssid <$> l)], k);
  sh_remove_iface n c k := (true, c, k);
  sh_update_networks n l c k := (true, c ++ [(n, sn_ssid <$> l)], k);
  sh_shutdown c k := (true, c, k);
  sh_notify_resume c k := (true, c, k);
  sh_run c k := (RunResult "wlan0" ConnectedWithOffloadRekey, c, k);
  sh_current_ssid c n := Some "cafe";
  sh_current_bssid c n := Some ex_mac;
  sh_export_hints c n := Some (Some ex_mac, Some 5180);
  sh_hint_io k := ex_hint_io;
  days_since_epoch_utc k := 20000;
|}.

Definition ex_order : HashOrder := hash_order (λ _ s, elements s) (λ _ _, Permutation_refl _).

Definition ex_cfg (state : InterfaceState) : Interface :=
  IfWifiCfg (set_bi_state state (base_new "cafe" TWifiCfg)) (Some ex_cafe).
Definition ex_phy (state : InterfaceState) : Interface :=
  IfWifiPhy (set_bi_state state (base_new "wlan0" TWifiPhy)) None.

Definition ex_wifi_state : WifiClientState (list (string * list string)) (list (string * Z)) :=
  wifi_client_state_new (hint_dir None ∅) [("wlan0", 3)].

(** The state after an apply. *)
Definition ex_after (ifaces : list Interface) (force : bool)
    (s : WifiClientState (list (string * list string)) (list (string * Z))) :
    WifiClientState (list (string * list string)) (list (string * Z)) :=
  (wifi_apply ex_yaml_hints ex_order ifaces force s).2.

Lemma managed_nics_are_present_witness :
  wi_if_index <$> wc_ifaces (ex_after [ex_cfg SUp] false ex_wifi_state) !! "wlan0" = Some 3 ∧
  ∀ n st, wc_ifaces (ex_after [ex_cfg SUp] false ex_wifi_state) !! n = Some st →
    phys_of [("wlan0", 3)] !! n = Some (wi_if_index st) ∧ n ∉ ignored_wifi_phys [ex_cfg SUp].
Proof.
  split; [vm_compute; reflexivity|].
  refine (managed_nics_are_present ex_yaml_hints ex_order [ex_cfg SUp] false ex_wifi_state
    (ex_after [ex_cfg SUp] false ex_wifi_state) _ _).
  - intros i j ->%list_elem_of_singleton _ H. vm_compute in H. discriminate H.
  - unfold ex_after. destruct (wifi_apply ex_yaml_hints ex_order [ex_cfg SUp] false ex_wifi_state) as [r s'] eqn:E.
    replace r with (Ok () : outcome ()); [reflexivity|]. change r with (r, s').1. rewrite <-E.
    vm_compute. reflexivity.
Defined.

Lemma unforced_apply_sets_networks_witness :
  ∃ plan, (plan_wifi [] ["wlan0"] (wifi_plan ∅ ∅ ∅) [ex_cfg SUp] ex_wifi_state).1 = Ok plan ∧
    ∀ n st, wc_ifaces (ex_after [ex_cfg SUp] false ex_wifi_state) !! n = Some st →
      wanted plan None n (wi_desired_networks st).
Proof.
  destruct (plan_wifi [] ["wlan0"] (wifi_plan ∅ ∅ ∅) [ex_cfg SUp] ex_wifi_state) as [[plan|e] s1] eqn:E;
    [|exfalso; apply (f_equal fst) in E; vm_compute in E; discriminate E].
  exists plan. split; [reflexivity|]. intros n st H.
  refine (unforced_apply_sets_networks ex_yaml_hints ex_order (λ _ _ _ _, eq_refl) [ex_cfg SUp] plan
    ex_wifi_state s1 ex_wifi_state _ E _ n st H).
  unfold ex_after. destruct (wifi_apply ex_yaml_hints ex_order [ex_cfg SUp] false ex_wifi_state) as [r s'] eqn:E'.
  replace r with (Ok () : outcome ()); [reflexivity|]. change r with (r, s').1. rewrite <-E'.
  vm_compute. reflexivity.
Defined.

(** WIFI is turned off; a request is served. *)
Definition ex_off : NipartPluginWifi :=
  plugin_wifi [] (serve_request ex_yaml_hints ex_order (WorkerControl WifiOff) ex_wifi_state).2 true.

Lemma wifi_off_stays_off_witness :
  wc_enabled (pw_state ex_off) = false ∧ has_client (pw_state ex_off) = false ∧
  plugin_query ex_order ex_off = ns_default.
Proof.
  destruct (wifi_off_stays_off ex_hints_yaml ex_yaml_hints (hint_dir None ∅) [("wlan0", 3)] ex_off ex_order)
    as (_ & H1 & H2 & _); [|vm_compute; reflexivity|split; [vm_compute; reflexivity|split; assumption]].
  apply (rtc_l _ _ (request_control WifiOff (plugin_init (hint_dir None ∅) [("wlan0", 3)])).2);
    [apply step_control|].
  apply rtc_once. apply (step_serve _ _ ex_order (WorkerControl WifiOff) [] ex_wifi_state
    (serve_request ex_yaml_hints ex_order (WorkerControl WifiOff) ex_wifi_state).1). apply surjective_pairing.
Defined.

(** A NIC that the request brings down is connected all the same, if the request also brings up
    a profile that is not bound to a NIC. *)
Example down_phy_is_connected :
  wi_if_index <$> wc_ifaces (ex_after [ex_phy SDown; ex_cfg SUp] false ex_wifi_state) !! "wlan0" = Some 3 ∧
  wc_client (ex_after [ex_phy SDown; ex_cfg SUp] false ex_wifi_state) = Some [("wlan0", ["cafe"])].
Proof. split; vm_compute; reflexivity. Qed.

(** A forced apply that does not mention the NIC starts its association anew if it has not
    succeeded yet. *)
Example unrelated_forced_apply_restarts :
  wc_client (ex_after [IfEthernet (set_bi_state SUp (base_new "eth0" TEthernet)) None] true
               (ex_after [ex_cfg SUp] false ex_wifi_state)) =
    Some [("wlan0", ["cafe"]); ("wlan0", []); ("wlan0", ["cafe"])].
Proof. vm_compute. reflexivity. Qed.

(** One that is not forced leaves it alone. *)
Example unrelated_apply_changes_nothing :
  wc_client (ex_after [IfEthernet (set_bi_state SUp (base_new "eth0" TEthernet)) None] false
               (ex_after [ex_cfg SUp] false ex_wifi_state)) = Some [("wlan0", ["cafe"])].
Proof. vm_compute. reflexivity. Qed.

(** A connection is shown and remembered. *)
Example connection_is_remembered :
  let s := (run_once ex_hints_yaml ex_yaml_hints (ex_after [ex_cfg SUp] false ex_wifi_state)).2 in
  live_ssid s "wlan0" = Some "cafe" ∧ wc_connected s = true.
Proof. split; vm_compute; reflexivity. Qed.
