(* ===== verification/DhcpLease.v ===== *)
(** * DhcpLease: what the DHCP workers do with a lease

    [src/daemon/dhcp/dhcp_worker.rs], [dhcpv6_worker.rs] and [src/lib/no_daemon/dhcp.rs]: the
    state a lease is turned into, the routes it replaces, what the daemon is told, the task
    that keeps a client going on one NIC, and the worker with its tasks.  The clients, of the
    crate [mozim], are an interface, and a lease is a record of the fields that are read. *)

From S2P Require Export Daemon.

#[local] Open Scope Z_scope.

(** ** Leases *)

(** [mozim::DhcpV4Lease], [mozim::DhcpV6Lease]. *)
Record DhcpV4Lease : Type := dhcpv4_lease {
  le_yiaddr : Z;
  le_prefix_length : Z;
  le_lease_time_sec : Z;
  le_dns_srvs : option (list Z);
  le_domain_name : option string;
  le_domain_search : option (list string);
  le_mtu : option Z;
  le_gateways : option (list Z);
}.

Record DhcpV6Lease : Type := dhcpv6_lease {
  l6_address : Z;
  l6_prefix_len : Z;
  l6_preferred_time_sec : Z;
  l6_valid_time_sec : Z;
}.

Definition not_empty (s : string) : bool := negb (String.eqb s "").

Definition gen_lease_domain_search (lease : DhcpV4Lease) : list string :=
  List.filter not_empty (default [] (le_domain_search lease)).

(** Option 15. *)
Definition lease_domain (lease : DhcpV4Lease) : list string :=
  match le_domain_name lease with
  | Some domain => if String.eqb domain "" then [] else [domain]
  | None => []
  end.

Definition gen_lease_domains (lease : DhcpV4Lease) : list string :=
  push_all_unique (lease_domain lease) (gen_lease_domain_search lease).

(** [lease_domains] of the daemonless backend. *)
Definition lease_domains (lease : DhcpV4Lease) : list string :=
  foldl (λ ret domain, if not_empty domain && negb (existsb (String.eqb domain) ret)
                       then ret ++ [domain] else ret)
    (lease_domain lease) (default [] (le_domain_search lease)).

(** What the resolver learns from a lease. *)
Definition lease_dns_info (lease : DhcpV4Lease) : NipartDhcpDnsInfo :=
  dhcp_dns_info ((λ srv, ip_display (V4 srv)) <$> default [] (le_dns_srvs lease))
    (gen_lease_domains lease) (gen_lease_domain_search lease).

Definition seconds (n : Z) : string := String.append (unsigned_string n) "sec".

(** [apply_lease]: the IPv4 section. *)
Definition lease_ipv4 (lease : DhcpV4Lease) : InterfaceIpv4 :=
  iface_ipv4 (Some true) (Some true) None
    (Some [iface_ip_addr (V4 (le_yiaddr lease)) (le_prefix_length lease)
             (Some (seconds (le_lease_time_sec lease))) (Some (seconds (le_lease_time_sec lease)))])
    None None None None.

Definition lease_base (lease : DhcpV4Lease) (base : BaseInterface) : BaseInterface :=
  let b := set_bi_ipv4 (Some (lease_ipv4 lease)) (base_clone_name_type_only base) in
  match le_mtu lease with Some mtu => set_bi_mtu (Some mtu) b | None => b end.

Definition lease6_base (lease : DhcpV6Lease) (base : BaseInterface) : BaseInterface :=
  set_bi_ipv6 (Some (iface_ipv6 (Some true) (Some true) None None
    (Some [iface_ip_addr (V6 (l6_address lease)) (l6_prefix_len lease)
             (Some (seconds (l6_valid_time_sec lease))) (Some (seconds (l6_preferred_time_sec lease)))])))
    (base_clone_name_type_only base).

(** ** Routes *)

Definition DEFAULT_ROUTE_TABLE_ID : Z := 254.

Definition gateway_route (iface_name : string) (metric : option Z) (gateway : Z) : RouteEntry :=
  route_entry None (Some GATEWAY4) (Some iface_name) (Some (ip_display (V4 gateway))) metric
    (Some DEFAULT_ROUTE_TABLE_ID) None None None None None None None None None None None None.

(** The gateways are wanted, and their metrics: [auto_gateway], [dhcp_route_metric]. *)
Definition lease_gateway_allowed (base : BaseInterface) : bool :=
  negb (bool_decide ((λ i, default true (auto_gateway i)) <$> bi_ipv4 base = Some false)).

Definition lease_metric (base : BaseInterface) (index : nat) : option Z :=
  match bi_ipv4 base with
  | Some ipv4 => dhcp_route_metric ipv4 (bi_iface_index base) (Z.of_nat index)
  | None => None
  end.

(** [gen_routes]; the list of the configured routes. *)
Definition gen_routes (lease : DhcpV4Lease) (base : BaseInterface) : list RouteEntry :=
  match le_gateways lease with
  | Some gateways =>
      if lease_gateway_allowed base
      then imap (λ index gateway, gateway_route (bi_name base) (lease_metric base index) gateway) gateways
      else []
  | None => []
  end.

Definition route_table_id (route : RouteEntry) : Z := default 0 (rt_table_id route).

Definition route_is_replaced_by (cur_route desired_route : RouteEntry) : bool :=
  bool_decide (is_Some (rt_next_hop_iface cur_route)) &&
  bool_decide (rt_next_hop_iface cur_route = rt_next_hop_iface desired_route) &&
  bool_decide (rt_destination cur_route = rt_destination desired_route) &&
  bool_decide (rt_metric cur_route = rt_metric desired_route) &&
  (route_table_id cur_route =? route_table_id desired_route) &&
  negb (bool_decide (rt_next_hop_addr cur_route = rt_next_hop_addr desired_route)).

(** [mark_replaced_routes_absent]. *)
Definition replaced_routes (desired_routes cur_routes : list RouteEntry) : list RouteEntry :=
  mjoin ((λ cur_route,
    if is_absent cur_route then []
    else map (λ _, set_rt_state (Some RAbsent) cur_route)
           (List.filter (route_is_replaced_by cur_route) desired_routes)) <$> cur_routes).

Definition installed_routes (cur : Routes) : list RouteEntry :=
  default [] (running cur) ++ default [] (config cur).

Definition mark_replaced_routes_absent (desired : list RouteEntry) (cur : Routes) : list RouteEntry :=
  desired ++ replaced_routes desired (installed_routes cur).

Definition iface_default_gateway_fingerprint (rts : list RouteEntry) (iface_name : string) : list string :=
  default_gateway_fingerprint
    (List.filter (λ rt, bool_decide (rt_next_hop_iface rt = Some iface_name)) rts).

(** The commands for the daemon: [notify_daemon_on_lease_applied],
    [notify_daemon_on_gateway_change]. *)
Definition lease_notices (has_sender : bool) (iface_name : string)
    (gateway_before gateway_after : list string) : list NipartManagerCmd :=
  if has_sender then
    DhcpV4LeaseApplied iface_name ::
    (if bool_decide (gateway_before = gateway_after) then [] else [GatewayChanged])
  else [].

(** ** Applying a lease *)

Section Apply.
Context {Num : Type} `{!EqDecision Num} `{!Serde Num Interface} `{!Serde Num (list AltNameEntry)}.
Context (to_lowercase to_uppercase : string → string) (etc_hosts : option string) (it : Iteration).
Context {K : Type} `{!Kernel K} `{!Host K} (sort : LinkSort).
Context (run_dhcp_once : MergedInterfaces → K → res (list DhcpDns) * K).

Definition lease_state (lease : DhcpV4Lease) (base : BaseInterface) (rts : list RouteEntry) :
    outcome NetworkState :=
  match interface_from_base (lease_base lease base) with
  | Some iface => Ok (set_ns_routes (routes None (Some rts)) (push_iface iface ns_default))
  | None => Err Panicked
  end.

(** [apply_lease], but for what is shared with the worker. *)
Definition apply_lease (has_sender : bool) (base : BaseInterface) (lease : DhcpV4Lease) :
    Eff K (list NipartManagerCmd) :=
  _ ← eff_of (lease_state lease base []);
  cur_state ← query_network_state it query_default;
  let cur_routes := ns_routes cur_state in
  let gateway_before := iface_default_gateway_fingerprint (default [] (running cur_routes)) (bi_name base) in
  let rts := gen_routes lease base in
  let gateway_after := default_gateway_fingerprint rts in
  net_state ← eff_of (lease_state lease base (mark_replaced_routes_absent rts cur_routes));
  _ ← no_daemon_apply to_lowercase to_uppercase etc_hosts it sort run_dhcp_once net_state
        (opt_no_verify (opt_memory_only opt_new));
  mret (lease_notices has_sender (bi_name base) gateway_before gateway_after).

(** [apply_dhcpv6_lease]. *)
Definition apply_dhcpv6_lease (base : BaseInterface) (lease : DhcpV6Lease) : Eff K () :=
  eff_call (request (IpChanges (lease6_base lease base) None)).

End Apply.

(** ** The task of a NIC *)

Inductive ClientState : Type := LeaseDone (lease : DhcpV4Lease) | OtherDhcpState.

(** The client, and the wait for the carrier of a link. *)
Class DhcpClient (C K : Type) : Type := {
  dc_wait_carrier : string → K → res () * K;
  dc_init : string → Z → string → K → option C * K;
  dc_run : C → K → res ClientState * C * K;
  dc_clean_up : C → K → K;
}.

(** Where the task is: each is an [await]. *)
Inductive Phase (C : Type) : Type :=
| WaitingCarrier (client : C)
| Leasing (client : C)
| Resting
| Restarting
| Applying (client : C) (lease : DhcpV4Lease)
| Stopped.
Arguments WaitingCarrier {C}. Arguments Leasing {C}. Arguments Resting {C}.
Arguments Restarting {C}. Arguments Applying {C}. Arguments Stopped {C}.

(** [NipartDhcpV4Thread] with its task: what is shared, whether the handle was dropped, and
    whether there is a sender to the daemon. *)
Record DhcpThread (C : Type) : Type := dhcp_thread_of {
  th_base : BaseInterface;
  th_phase : Phase C;
  th_state : DhcpState;
  th_dns : NipartDhcpDnsInfo;
  th_quit : bool;
  th_sender : bool;
}.
Arguments dhcp_thread_of {C}. Arguments th_base {C}. Arguments th_phase {C}. Arguments th_state {C}.
Arguments th_dns {C}. Arguments th_quit {C}. Arguments th_sender {C}.

Section Threads.
Context {C : Type}.

Definition goto (phase : Phase C) (state : DhcpState) (t : DhcpThread C) : DhcpThread C :=
  dhcp_thread_of (th_base t) phase state (th_dns t) (th_quit t) (th_sender t).
Definition stay (phase : Phase C) (t : DhcpThread C) : DhcpThread C := goto phase (th_state t) t.
Definition with_lease_dns (lease : DhcpV4Lease) (t : DhcpThread C) : DhcpThread C :=
  dhcp_thread_of (th_base t) (th_phase t) (th_state t) (lease_dns_info lease) (th_quit t) (th_sender t).

(** The handle is dropped, which the task sees as the end of its channel. *)
Definition quitting (t : DhcpThread C) : DhcpThread C :=
  dhcp_thread_of (th_base t) (th_phase t) (th_state t) (th_dns t) true (th_sender t).
End Threads.

(** The delay before a client is started again, and the attempts of DHCPv6. *)
Definition DHCPV4_RESTART_DELAY_MS : Z := 1000.
Definition DHCPV6_INIT_RETRY_COUNT : nat := 30.
Definition DHCPV6_INIT_RETRY_INTERVAL_MS : Z := 1000.

Section Task.
Context {Num : Type} `{!EqDecision Num} `{!Serde Num Interface} `{!Serde Num (list AltNameEntry)}.
Context (to_lowercase to_uppercase : string → string) (etc_hosts : option string) (it : Iteration).
Context {C K : Type} `{!Kernel K} `{!Host K} `{!DhcpClient C K} (sort : LinkSort).
Context (run_dhcp_once : MergedInterfaces → K → res (list DhcpDns) * K).
Context (error_to_string : NipartError → string).

(** [init_dhcpv4_client]. *)
Definition init_dhcpv4_client (base : BaseInterface) : Eff K C :=
  match bi_mac_address base, bi_iface_index base with
  | Some mac_addr, Some iface_index =>
      c ← eff_call (λ k, let '(c, k') := dc_init (bi_name base) iface_index mac_addr k in
                         (Ok c, k'));
      match c with Some c => mret c | None => eff_fail Bug end
  | _, _ => eff_fail Bug
  end.

(** The NIC a client is started again on. *)
Definition is_same_nic (base : BaseInterface) (cur_iface : Interface) : bool :=
  String.eqb (kernel_iface_name cur_iface) (bi_name base) || String.eqb (iface_name cur_iface) (bi_name base) ||
  match bi_mac_address base, bi_mac_address (base_iface cur_iface) with
  | Some mac, Some cur_mac => eq_ignore_ascii_case cur_mac mac
  | _, _ => false
  end.

Definition refreshed_base (base : BaseInterface) (cur_ifaces : list Interface) : BaseInterface :=
  match List.find (is_same_nic base) cur_ifaces with
  | Some cur_iface =>
      let cur := base_iface cur_iface in
      let base := set_bi_iface_index (bi_iface_index cur) base in
      match bi_mac_address cur with Some _ => set_bi_mac_address (bi_mac_address cur) base | None => base end
  | None => base
  end.

(** [init_dhcpv4_client_for_retry]. *)
Definition init_dhcpv4_client_for_retry (base : BaseInterface) : Eff K C :=
  _ ← eff_call (dc_wait_carrier (bi_name base));
  cur_state ← query_network_state it query_default;
  init_dhcpv4_client (refreshed_base base (it_kernel it (ifs_kernel (ns_ifaces cur_state))).*2).

Definition run_dhcp_client (c : C) : Eff K (res ClientState * C) := λ k,
  let '(r, c', k') := dc_run c k in (Ok (r, c'), k').

Definition clean_up_client (c : C) : Eff K () := λ k, (Ok (), dc_clean_up c k).

(** [next_dhcpv4_lease]: what a cycle of the client leads to. *)
Definition after_run (t : DhcpThread C) (r : res ClientState * C) : Eff K (DhcpThread C) :=
  match r with
  | (Ok (LeaseDone lease), c) => mret (goto (Applying c lease) Done t)
  | (Ok OtherDhcpState, c) => mret (stay (Leasing c) t)
  | (Err _, c) => _ ← clean_up_client c; mret (goto Resting Running t)
  end.

(** [dhcp_thread]: from one [await] to the next.  When the handle was dropped, [quit_first]
    says whether [select!] takes that branch; it takes any that is ready. *)
Definition turn (quit_first : bool) (t : DhcpThread C) : Eff K (DhcpThread C * list NipartManagerCmd) :=
  match th_phase t with
  | WaitingCarrier c =>
      r ← eff_try (eff_call (dc_wait_carrier (bi_name (th_base t))));
      mret (match r with Ok _ => goto (Leasing c) Running t | Err _ => stay Stopped t end, [])
  | Leasing c =>
      if th_quit t && quit_first then mret (stay Stopped t, [])
      else r ← run_dhcp_client c; t ← after_run t r; mret (t, [])
  | Resting => mret (stay (if th_quit t && quit_first then Stopped else Restarting) t, [])
  | Restarting =>
      r ← eff_try (init_dhcpv4_client_for_retry (th_base t));
      mret (match r with
            | Ok c => stay (Leasing c) t
            | Err e => goto Stopped (DhcpError (error_to_string e)) t
            end, [])
  | Applying c lease =>
      let t := with_lease_dns lease t in
      r ← eff_try (apply_lease to_lowercase to_uppercase etc_hosts it sort run_dhcp_once
                     (th_sender t) (th_base t) lease);
      mret (match r with
            | Ok notices => (stay (Leasing c) t, notices)
            | Err e => (goto Stopped (DhcpError (error_to_string e)) t, [])
            end)
  | Stopped => mret (t, [])
  end.

(** [NipartDhcpV4Thread::new]. *)
Definition thread_new (base : BaseInterface) (sender : bool) : Eff K (DhcpThread C) :=
  c ← init_dhcpv4_client base;
  mret (dhcp_thread_of base (WaitingCarrier c) WaitLinkCarrier (dhcp_dns_info [] [] []) false sender).

(** ** The worker *)

(** [NipartDhcpV4Worker], with the tasks whose handles were dropped and that may not have
    noticed yet, and what was sent to the daemon. *)
Record DhcpV4Worker : Type := dhcpv4_worker {
  dw_threads : gmap string (DhcpThread C);
  dw_dropped : list (DhcpThread C);
  dw_sender : bool;
  dw_sent : list NipartManagerCmd;
}.

Definition worker_new : DhcpV4Worker := dhcpv4_worker ∅ [] false [].

(** What [insert] and [remove] of the map drop. *)
Definition dropped_by (name : string) (w : DhcpV4Worker) : list (DhcpThread C) :=
  match dw_threads w !! name with Some t => quitting t :: dw_dropped w | None => dw_dropped w end.

(** [process_cmd] for the commands that change something. *)
Definition set_commander_sender (w : DhcpV4Worker) : DhcpV4Worker :=
  dhcpv4_worker (dw_threads w) (dw_dropped w) true (dw_sent w).

Definition worker_exec (cmd : DhcpCmd) (w : DhcpV4Worker) : Eff K DhcpV4Worker :=
  match cmd with
  | StartIfaceDhcp base =>
      t ← thread_new base (dw_sender w);
      mret (dhcpv4_worker (<[bi_name base := t]> (dw_threads w)) (dropped_by (bi_name base) w)
              (dw_sender w) (dw_sent w))
  | StopIfaceDhcp iface =>
      mret (dhcpv4_worker (delete iface (dw_threads w)) (dropped_by iface w) (dw_sender w) (dw_sent w))
  end.

Definition worker_query (w : DhcpV4Worker) : gmap string DhcpState := th_state <$> dw_threads w.

Definition has_dns_info (d : NipartDhcpDnsInfo) : bool :=
  negb (bool_decide (di_nameservers d = []) && bool_decide (di_domains d = [])).

Definition worker_dns_info (w : DhcpV4Worker) : gmap string NipartDhcpDnsInfo :=
  filter (λ e, has_dns_info e.2 = true) (th_dns <$> dw_threads w).

(** The commands and the tasks, in any order. *)
Inductive worker_step : DhcpV4Worker * K → DhcpV4Worker * K → Prop :=
| worker_sender w k : worker_step (w, k) (set_commander_sender w, k)
| worker_command cmd w k w' k' :
    worker_exec cmd w k = (Ok w', k') → worker_step (w, k) (w', k')
| worker_refused cmd w k e k' :
    worker_exec cmd w k = (Err e, k') → worker_step (w, k) (w, k')
| worker_turn quit_first name t w k t' l k' :
    dw_threads w !! name = Some t → turn quit_first t k = (Ok (t', l), k') →
    worker_step (w, k)
      (dhcpv4_worker (<[name := t']> (dw_threads w)) (dw_dropped w) (dw_sender w) (dw_sent w ++ l), k')
| worker_dropped_turn quit_first l1 t l2 w k t' l k' :
    dw_dropped w = l1 ++ t :: l2 → turn quit_first t k = (Ok (t', l), k') →
    worker_step (w, k)
      (dhcpv4_worker (dw_threads w) (l1 ++ t' :: l2) (dw_sender w) (dw_sent w ++ l), k')
| worker_outside w k k' : worker_step (w, k) (w, k').

End Task.

(** ** DHCPv6 *)

Inductive ClientState6 : Type := LeaseDone6 (lease : DhcpV6Lease) | OtherDhcpState6.

(** The client of DHCPv6; [d6_sleep] is whether the handle was dropped during the wait. *)
Class Dhcp6Client (C K : Type) : Type := {
  d6_wait_carrier : string → K → res () * K;
  d6_init : string → option Z → K → option C * K;
  d6_regenerate_link_local : string → K → res () * K;
  d6_sleep : K → bool * K;
  d6_run : C → K → res ClientState6 * C * K;
  d6_clean_up : C → K → K;
}.

Inductive Phase6 (C : Type) : Type :=
| WaitingCarrier6 | Starting6 | Leasing6 (client : C) | Resting6 | WaitingAgain6
| Applying6 (client : C) (lease : DhcpV6Lease) | Stopped6.
Arguments WaitingCarrier6 {C}. Arguments Starting6 {C}. Arguments Leasing6 {C}. Arguments Resting6 {C}.
Arguments WaitingAgain6 {C}. Arguments Applying6 {C}. Arguments Stopped6 {C}.

Record Dhcp6Thread (C : Type) : Type := dhcp6_thread_of {
  t6_base : BaseInterface;
  t6_phase : Phase6 C;
  t6_state : DhcpState;
  t6_quit : bool;
}.
Arguments dhcp6_thread_of {C}. Arguments t6_base {C}. Arguments t6_phase {C}. Arguments t6_state {C}.
Arguments t6_quit {C}.

Section Task6.
Context {C K : Type} `{!Kernel K} `{!Dhcp6Client C K}.
Context (error_to_string : NipartError → string).

Definition goto6 (phase : Phase6 C) (state : DhcpState) (t : Dhcp6Thread C) : Dhcp6Thread C :=
  dhcp6_thread_of (t6_base t) phase state (t6_quit t).
Definition stay6 (phase : Phase6 C) (t : Dhcp6Thread C) : Dhcp6Thread C := goto6 phase (t6_state t) t.
Definition failed6 (e : NipartError) (t : Dhcp6Thread C) : Dhcp6Thread C :=
  goto6 Stopped6 (DhcpError (error_to_string e)) t.

Definition try_init6 (base : BaseInterface) : Eff K (option C) := λ k,
  let '(c, k') := d6_init (bi_name base) (bi_iface_index base) k in (Ok c, k').
Definition sleep6 : Eff K bool := λ k, let '(quit, k') := d6_sleep k in (Ok quit, k').

(** The loop of [init_dhcp_client], with the attempts that are left; behind it is
    [unreachable!()]. *)
Fixpoint init6_loop (attempts : nat) (link_local_regenerated : bool) (base : BaseInterface) :
    Eff K (option C) :=
  match attempts with
  | O => eff_of (Err Panicked)
  | S attempts =>
      c ← try_init6 base;
      match c with
      | Some c => mret (Some c)
      | None =>
          _ ← (if link_local_regenerated then mret (Ok ())
               else eff_try (eff_call (d6_regenerate_link_local (bi_name base))));
          match attempts with
          | O => eff_fail Bug
          | _ =>
              quit ← sleep6;
              if quit : bool then mret None else init6_loop attempts true base
          end
      end
  end.

Definition init_dhcp6_client (base : BaseInterface) : Eff K (option C) :=
  init6_loop DHCPV6_INIT_RETRY_COUNT false base.

Definition run_client6 (c : C) : Eff K (res ClientState6 * C) := λ k,
  let '(r, c', k') := d6_run c k in (Ok (r, c'), k').

Definition clean_up6 (c : C) : Eff K () := λ k, (Ok (), d6_clean_up c k).

(** [dhcp_thread] of DHCPv6. *)
Definition turn6 (quit_first : bool) (t : Dhcp6Thread C) : Eff K (Dhcp6Thread C) :=
  match t6_phase t with
  | WaitingCarrier6 =>
      r ← eff_try (eff_call (d6_wait_carrier (bi_name (t6_base t))));
      match r with
      | Err _ => mret (stay6 Stopped6 t)
      | Ok _ =>
          r ← eff_try (eff_call (request (EnableIpv6 (bi_name (t6_base t)))));
          mret (match r with Ok _ => goto6 Starting6 Running t | Err e => failed6 e t end)
      end
  | Starting6 =>
      r ← eff_try (init_dhcp6_client (t6_base t));
      mret (match r with
            | Ok (Some c) => stay6 (Leasing6 c) t
            | Ok None => stay6 Stopped6 t
            | Err e => failed6 e t
            end)
  | Leasing6 c =>
      if t6_quit t && quit_first then mret (stay6 Stopped6 t)
      else
        r ← run_client6 c;
        match r with
        | (Ok (LeaseDone6 lease), c) => mret (goto6 (Applying6 c lease) Done t)
        | (Ok OtherDhcpState6, c) => mret (stay6 (Leasing6 c) t)
        | (Err _, c) => _ ← clean_up6 c; mret (goto6 Resting6 Running t)
        end
  | Resting6 => mret (stay6 (if t6_quit t && quit_first then Stopped6 else WaitingAgain6) t)
  | WaitingAgain6 =>
      r ← eff_try (eff_call (d6_wait_carrier (bi_name (t6_base t))));
      mret (match r with Ok _ => stay6 Starting6 t | Err e => failed6 e t end)
  | Applying6 c lease =>
      r ← eff_try (apply_dhcpv6_lease (t6_base t) lease);
      mret (match r with Ok _ => stay6 (Leasing6 c) t | Err e => failed6 e t end)
  | Stopped6 => mret t
  end.

(** [NipartDhcpV6Thread::new]. *)
Definition thread6_new (base : BaseInterface) : Dhcp6Thread C :=
  dhcp6_thread_of base WaitingCarrier6 WaitLinkCarrier false.

Definition quitting6 (t : Dhcp6Thread C) : Dhcp6Thread C :=
  dhcp6_thread_of (t6_base t) (t6_phase t) (t6_state t) true.

(** [NipartDhcpV6Worker], with the tasks whose handles were dropped. *)
Record DhcpV6Worker : Type := dhcpv6_worker {
  dw6_threads : gmap string (Dhcp6Thread C);
  dw6_dropped : list (Dhcp6Thread C);
}.

Definition worker6_new : DhcpV6Worker := dhcpv6_worker ∅ [].

Definition dropped_by6 (name : string) (w : DhcpV6Worker) : list (Dhcp6Thread C) :=
  match dw6_threads w !! name with Some t => quitting6 t :: dw6_dropped w | None => dw6_dropped w end.

(** [process_cmd] of DHCPv6: no command fails. *)
Definition worker6_exec (cmd : DhcpCmd) (w : DhcpV6Worker) : DhcpV6Worker :=
  match cmd with
  | StartIfaceDhcp base =>
      dhcpv6_worker (<[bi_name base := thread6_new base]> (dw6_threads w)) (dropped_by6 (bi_name base) w)
  | StopIfaceDhcp iface => dhcpv6_worker (delete iface (dw6_threads w)) (dropped_by6 iface w)
  end.

Definition worker6_query (w : DhcpV6Worker) : gmap string DhcpState := t6_state <$> dw6_threads w.

(** The loop ends within its attempts: [unreachable!()] is not reached. *)
Lemma init6_loop_ends attempts : ∀ regenerated base k,
  (0 < attempts)%nat → (init6_loop attempts regenerated base k).1 ≠ Err Panicked.
Proof.
  induction attempts as [|n IH]; intros regenerated base k Hn; [lia|]. cbn [init6_loop].
  rewrite eff_bind_run. unfold try_init6. destruct (d6_init _ _ k) as [[c|] k1]; [done|].
  rewrite eff_bind_run. set (x := if regenerated then _ else _). assert (∃ u k2, x k1 = (Ok u, k2)) as (u & k2 & ->).
  { subst x. destruct regenerated; [by repeat eexists|]. unfold eff_try, eff_call.
    destruct (d6_regenerate_link_local _ k1) as [[|] ?]; by repeat eexists. }
  destruct n; [done|]. rewrite eff_bind_run. unfold sleep6. destruct (d6_sleep k2) as [[|] k3]; [done|].
  apply IH. lia.
Qed.

End Task6.

(** ** What a lease asks for *)

Lemma lease_domains_fold acc l :
  foldl (λ ret domain, if not_empty domain && negb (existsb (String.eqb domain) ret)
                       then ret ++ [domain] else ret) acc l =
    push_all_unique acc (List.filter not_empty l).
Proof.
  revert acc. induction l as [|d l IH]; intros acc; [done|]. simpl.
  destruct (not_empty d); simpl; [|apply IH]. rewrite IH. unfold push_all_unique at 2. simpl. f_equal.
  unfold push_unique. destruct (existsb (String.eqb d) acc) eqn:E; simpl.
  - apply existsb_elem_of in E as (x & Hx & ->%String.eqb_eq). by rewrite bool_decide_eq_true_2.
  - rewrite bool_decide_eq_false_2; [done|]. intros Hd. apply not_true_iff_false in E. apply E.
    apply existsb_elem_of. exists d. split; [done|apply String.eqb_refl].
Qed.

(** The daemon and the daemonless backend take the same domains from a lease. *)
Theorem lease_domains_agree lease : lease_domains lease = gen_lease_domains lease.
Proof. unfold lease_domains. by rewrite lease_domains_fold. Qed.

Lemma elem_of_replaced_routes r desired l :
  r ∈ replaced_routes desired l ↔
    ∃ c, c ∈ l ∧ is_absent c = false ∧ r = set_rt_state (Some RAbsent) c ∧
      ∃ d, d ∈ desired ∧ route_is_replaced_by c d = true.
Proof.
  unfold replaced_routes. rewrite list_elem_of_join. split.
  - intros (x & Hr & (c & -> & Hc)%list_elem_of_fmap). destruct (is_absent c) eqn:Ea;
      [by apply elem_of_nil in Hr|].
    apply list_elem_of_In, in_map_iff in Hr as (d & <- & [Hd Hrep]%filter_In).
    exists c. split_and!; [done..|]. exists d. by rewrite list_elem_of_In.
  - intros (c & Hc & Ha & -> & d & Hd & Hrep).
    exists (map (λ _, set_rt_state (Some RAbsent) c) (List.filter (route_is_replaced_by c) desired)). split.
    + apply list_elem_of_In, in_map_iff. exists d. split; [done|]. apply filter_In.
      by rewrite <-list_elem_of_In.
    + apply list_elem_of_fmap. exists c. split; [by rewrite Ha|done].
Qed.

Lemma route_is_replaced_by_true c d :
  route_is_replaced_by c d = true ↔
    is_Some (rt_next_hop_iface c) ∧ rt_next_hop_iface c = rt_next_hop_iface d ∧
    rt_destination c = rt_destination d ∧ rt_metric c = rt_metric d ∧
    route_table_id c = route_table_id d ∧ rt_next_hop_addr c ≠ rt_next_hop_addr d.
Proof.
  unfold route_is_replaced_by.
  rewrite !andb_true_iff, !bool_decide_eq_true, negb_true_iff, bool_decide_eq_false, Z.eqb_eq. tauto.
Qed.

Lemma elem_of_gen_routes lease base r :
  r ∈ gen_routes lease base ↔
    ∃ gateways i g, le_gateways lease = Some gateways ∧ lease_gateway_allowed base = true ∧
      gateways !! i = Some g ∧ r = gateway_route (bi_name base) (lease_metric base i) g.
Proof.
  unfold gen_routes. destruct (le_gateways lease) as [gateways|].
  2: { split; [by intros ?%elem_of_nil|]. by intros (? & ? & ? & ? & _). }
  destruct (lease_gateway_allowed base).
  2: { split; [by intros ?%elem_of_nil|]. by intros (? & ? & ? & ? & ? & _). }
  rewrite elem_of_lookup_imap. split.
  - intros (i & g & -> & Hg). by exists gateways, i, g.
  - intros (gw & i & g & [= <-] & _ & Hg & ->). eauto.
Qed.

(** The metric comes from the interface index. *)
Definition derived_metric (base : BaseInterface) : Prop :=
  is_Some (bi_iface_index base) ∧
  ∃ ipv4, bi_ipv4 base = Some ipv4 ∧
    (auto_route_metric ipv4 = None ∨ auto_route_metric ipv4 = Some USE_DEFAULT_METRIC).

Lemma derived_metric_eq base i j :
  derived_metric base → lease_metric base i = lease_metric base j → i = j.
Proof.
  intros [[idx Hi] (ipv4 & Hv & Hm)]. unfold lease_metric, dhcp_route_metric. rewrite Hv, Hi.
  destruct Hm as [-> | ->]; simpl; intros [= E]; lia.
Qed.


(** ** The tasks and the worker *)

Section Worker.
Context {Num : Type} `{!EqDecision Num} `{!Serde Num Interface} `{!Serde Num (list AltNameEntry)}.
Context (to_lowercase to_uppercase : string → string) (etc_hosts : option string) (it : Iteration).
Context {C K : Type} `{!Kernel K} `{!Host K} `{!DhcpClient C K} (sort : LinkSort).
Context (run_dhcp_once : MergedInterfaces → K → res (list DhcpDns) * K).
Context (error_to_string : NipartError → string).
#[local] Abbreviation turn := (turn to_lowercase to_uppercase etc_hosts it sort run_dhcp_once error_to_string).
#[local] Abbreviation worker_step :=
  (worker_step to_lowercase to_uppercase etc_hosts it sort run_dhcp_once error_to_string).

(** What the shown state says of the task. *)
Definition phase_shown (phase : Phase C) (state : DhcpState) (quit : bool) : Prop :=
  match phase with
  | WaitingCarrier _ => state = WaitLinkCarrier
  | Leasing _ => state = Running ∨ state = Done
  | Resting | Restarting => state = Running
  | Applying _ _ => state = Done
  | Stopped => quit = true ∨ state = WaitLinkCarrier ∨ ∃ msg, state = DhcpError msg
  end.

Definition thread_ok (t : DhcpThread C) : Prop := phase_shown (th_phase t) (th_state t) (th_quit t).

Lemma turn_ok quit_first t k t' l k' :
  thread_ok t → turn quit_first t k = (Ok (t', l), k') →
  thread_ok t' ∧ th_quit t' = th_quit t ∧ th_base t' = th_base t.
Proof.
  unfold thread_ok, DhcpLease.turn. intros Ht.
  destruct (th_phase t) as [c|c| | |c lease|] eqn:Ep; simpl in Ht.
  - rewrite eff_bind_run. destruct (eff_try _ k) as [[[u|e]|e] k1]; intros [= <- <- <-]; simpl; auto.
  - destruct (th_quit t && quit_first) eqn:Eq.
    { apply andb_true_iff in Eq as [Eq _]. intros [= <- <- <-]. simpl. auto. }
    rewrite eff_bind_run. unfold run_dhcp_client. destruct (dc_run c k) as [[r c'] k1].
    rewrite eff_bind_run. destruct r as [[lease|]|e]; intros [= <- <- <-]; simpl; auto.
  - intros [= <- <- <-]. simpl. split; [|done]. destruct (th_quit t) eqn:Eq, quit_first; simpl; auto.
  - rewrite eff_bind_run. destruct (eff_try _ k) as [[[c|e]|e] k1]; intros [= <- <- <-]; simpl; eauto 9.
  - rewrite eff_bind_run. destruct (eff_try _ k) as [[[n|e]|e] k1]; intros [= <- <- <-]; simpl; eauto 9.
  - intros [= <- <- <-]. by rewrite Ep.
Qed.

(** Only dropping the handle sets the flag. *)
Lemma turn_quit quit_first t k t' l k' :
  turn quit_first t k = (Ok (t', l), k') → th_quit t' = th_quit t.
Proof.
  unfold DhcpLease.turn. destruct (th_phase t) as [c|c| | |c lease|].
  - rewrite eff_bind_run. by destruct (eff_try _ k) as [[[u|e]|e] k1]; intros [= <- <- <-].
  - destruct (th_quit t && quit_first); [by intros [= <- <- <-]|].
    rewrite eff_bind_run. unfold run_dhcp_client. destruct (dc_run c k) as [[r c'] k1].
    rewrite eff_bind_run. by destruct r as [[lease|]|e]; intros [= <- <- <-].
  - by intros [= <- <- <-].
  - rewrite eff_bind_run. by destruct (eff_try _ k) as [[[c|e]|e] k1]; intros [= <- <- <-].
  - rewrite eff_bind_run. by destruct (eff_try _ k) as [[[n|e]|e] k1]; intros [= <- <- <-].
  - by intros [= <- <- <-].
Qed.

Definition worker_ok (w : DhcpV4Worker (C := C)) : Prop :=
  (∀ name t, dw_threads w !! name = Some t → bi_name (th_base t) = name ∧ th_quit t = false ∧ thread_ok t) ∧
  (∀ t, t ∈ dw_dropped w → th_quit t = true).

Lemma dropped_by_ok name w t :
  worker_ok w → t ∈ dropped_by name w → th_quit t = true.
Proof.
  intros [_ H]. unfold dropped_by. destruct (dw_threads w !! name) as [t0|]; [|apply H].
  intros [->|Ht]%elem_of_cons; [done|by apply H].
Qed.

Lemma worker_step_ok w k w' k' : worker_step (w, k) (w', k') → worker_ok w → worker_ok w'.
Proof.
  intros Hs Hw. pose proof Hw as [H1 H2].
  inversion Hs as [| |  |quit_first name t w0 k0 t' l k0' Ht Hr|quit_first l1 t l2 w0 k0 t' l k0' Hd Hr|]; subst; try done.
  - match goal with H : worker_exec _ _ _ = _ |- _ => revert H end. destruct cmd as [base|iface]; cbn [worker_exec].
    + rewrite eff_bind_run. destruct (thread_new base (dw_sender w) k) as [[t|e] k1] eqn:Et; [|done].
      intros [= <- <-]. split; simpl; [|intros t' Ht'; by eapply dropped_by_ok].
      intros name t' [[<- <-]|[_ H]]%lookup_insert_Some; [|by apply H1].
      unfold thread_new in Et. rewrite eff_bind_run in Et.
      destruct (init_dhcpv4_client base k) as [[c|e] k2]; [|done]. injection Et as <- <-. done.
    + intros [= <- <-]. split; simpl; [|intros t' Ht'; by eapply dropped_by_ok].
      intros name t' [_ H]%lookup_delete_Some. by apply H1.
  - destruct (H1 _ _ Ht) as (Hn & Hq & Hok). apply turn_ok in Hr as (Hok' & Hq' & Hb'); [|done].
    split; simpl; [|done]. intros n t1 [[<- <-]|[_ H]]%lookup_insert_Some; [|by apply H1].
    split_and!; [congruence|congruence|done].
  - split; [done|]. simpl. intros t1. rewrite elem_of_app, elem_of_cons.
    assert (th_quit t' = true) as Hq.
    { assert (th_quit t = true) as Hqt by (apply H2; rewrite Hd; set_solver).
      by rewrite (turn_quit _ _ _ _ _ _ Hr). }
    intros [H|[->|H]]; [apply H2; rewrite Hd; set_solver|done|apply H2; rewrite Hd; set_solver].
Qed.

Lemma worker_steps_ok w k w' k' : rtc worker_step (w, k) (w', k') → worker_ok w → worker_ok w'.
Proof.
  intros Hs. remember (w, k) as x eqn:Ex. remember (w', k') as y eqn:Ey. revert w k Ex.
  induction Hs as [x|x [w1 k1] z H1 _ IH]; intros w k ->; [by intros; simplify_eq|].
  intros Hw. by eapply IH, worker_step_ok.
Qed.

Lemma worker_new_ok : worker_ok worker_new.
Proof. split; [intros name t; simpl; by rewrite lookup_empty|]. by intros t ?%elem_of_nil. Qed.

(** What a shown state says of the task. *)
Definition told_by (state : DhcpState) (phase : Phase C) : Prop :=
  match state with
  | WaitLinkCarrier => (∃ c, phase = WaitingCarrier c) ∨ phase = Stopped
  | Running => (∃ c, phase = Leasing c) ∨ phase = Resting ∨ phase = Restarting
  | Done => ∃ c, phase = Leasing c ∨ ∃ lease, phase = Applying c lease
  | DhcpError _ => phase = Stopped
  end.

Lemma thread_told t : thread_ok t → th_quit t = false → told_by (th_state t) (th_phase t).
Proof.
  unfold thread_ok, phase_shown, told_by. intros H Hq.
  destruct (th_phase t); [rewrite H; eauto|destruct H as [-> | ->]; eauto|rewrite H; eauto..|].
  rewrite Hq in H. destruct H as [[=]|[->|(msg & ->)]]; eauto.
Qed.

(** C8: At any moment of the worker, after any commands and any progress of its tasks, a query
    tells the truth: a NIC it lists has one task that nobody told to stop, that task works on
    the NIC of that name, and the state shown is that of the task - a NIC that shows an error
    has no client any more, and one that shows a lease has one that keeps it or applies it.
    Every other task was told to stop. *)
Theorem dhcp_query_tells k0 w k :
  rtc worker_step (worker_new, k0) (w, k) →
  (∀ name state, worker_query w !! name = Some state →
     ∃ t, dw_threads w !! name = Some t ∧ bi_name (th_base t) = name ∧ th_quit t = false ∧
       th_state t = state ∧ told_by state (th_phase t)) ∧
  (∀ name info, worker_dns_info w !! name = Some info → is_Some (worker_query w !! name)) ∧
  (∀ t, t ∈ dw_dropped w → th_quit t = true).
Proof.
  intros Hs. destruct (worker_steps_ok _ _ _ _ Hs worker_new_ok) as [H1 H2]. split_and!; [| |done].
  - intros name state. unfold worker_query. rewrite lookup_fmap_Some. intros (t & <- & Ht).
    destruct (H1 _ _ Ht) as (Hn & Hq & Hok). exists t. split_and!; [done..|]. by apply thread_told.
  - intros name info. unfold worker_dns_info, worker_query. rewrite map_lookup_filter_Some, lookup_fmap_Some.
    intros [(t & _ & Ht) _]. exists (th_state t). by rewrite lookup_fmap, Ht.
Qed.

(** A hard error of the client does not stop the task: unless it is told to quit, it starts
    another client two turns later, and stops only when that fails. *)
Lemma failed_client_is_restarted c t k e c' k1 :
  th_phase t = Leasing c → th_quit t = false → dc_run c k = (Err e, c', k1) →
  ∃ t1 t2, turn false t k = (Ok (t1, []), dc_clean_up c' k1) ∧ th_state t1 = Running ∧
    turn false t1 (dc_clean_up c' k1) = (Ok (t2, []), dc_clean_up c' k1) ∧
    th_phase t2 = Restarting ∧ th_base t2 = th_base t.
Proof.
  intros Hp Hq Hr. exists (goto Resting Running t), (stay Restarting (goto Resting Running t)).
  split_and!; try done.
  - unfold DhcpLease.turn. rewrite Hp, Hq. simpl. rewrite eff_bind_run. unfold run_dhcp_client. by rewrite Hr.
  - unfold DhcpLease.turn. simpl. by rewrite Hq.
Qed.

End Worker.

(** ** Examples *)

#[local] Existing Instance box_kernel.
#[local] Existing Instance box_host.

(** A client that gets a lease at once; [bx_ms] of the box fails the wait when it is 0. *)
#[local] Instance ex_dhcp_client : DhcpClient nat Box := {|
  dc_wait_carrier _ b := (if bx_ms b =? 0 then fail ETimeout else Ok (), b);
  dc_init _ _ _ b := (Some 0%nat, b);
  dc_run c b := (Ok (LeaseDone (dhcpv4_lease 3232235786 24 3600 None (Some "lan") (Some ["lan"; "home"]) None
                                  (Some [3232235777; 3232235778]))), c, b);
  dc_clean_up _ b := b;
|}.

Definition ex_dhcp_base (metric : option Z) : BaseInterface :=
  set_bi_ipv4 (Some (iface_ipv4 (Some true) (Some true) None None None None None metric))
    (set_bi_mac_address (Some "00:11:22:33:44:55")
       (set_bi_iface_index (Some 3) (base_new "dummy0" TDummy))).

Definition ex_dhcp_box (ms : Z) : Box := box [IfDummy (ex_dhcp_base None)] FileNotFound ms.

#[local] Abbreviation ex_turn :=
  (turn (C := nat) ex_lower to_ascii_uppercase None ex_iteration ex_link_sort no_dhcp (λ _, "failed") false).

(** The task after [n] turns. *)
Fixpoint ex_turns (n : nat) (t : DhcpThread nat) (b : Box) : outcome (DhcpThread nat) :=
  match n with
  | O => Ok t
  | S n => match ex_turn t b with
           | (Ok (t, _), b) => ex_turns n t b
           | (Err e, _) => Err e
           end
  end.

Definition ex_states (metric : option Z) (ms : Z) : list (outcome DhcpState) :=
  map (λ n, match thread_new (ex_dhcp_base metric) true (ex_dhcp_box ms) with
            | (Ok t, b) => match ex_turns n t b with Ok t => Ok (th_state t) | Err e => Err e end
            | (Err e, _) => Err e
            end) [0; 1; 2; 3]%nat.

(** Two gateways get metrics of their own from the index, but the same one when it is
    configured: such a lease is refused, and DHCP stops on the NIC. *)
Example two_gateways :
  ex_states None 1 = [Ok WaitLinkCarrier; Ok Running; Ok Done; Ok Done] ∧
  ex_states (Some 50) 1 = [Ok WaitLinkCarrier; Ok Running; Ok Done; Ok (DhcpError "failed")].
Proof. split; vm_compute; reflexivity. Qed.

(** When the wait for the carrier fails, the task is over, and it still shows that it waits. *)
Example dead_task_shows_waiting :
  match thread_new (ex_dhcp_base None) true (ex_dhcp_box 0) with
  | (Ok t, b) => match ex_turn t b with
                 | (Ok (t, _), _) => th_phase t = Stopped ∧ th_state t = WaitLinkCarrier
                 | _ => False
                 end
  | _ => False
  end.
Proof. vm_compute. split; reflexivity. Qed.

(** A task that was told to stop still applies the lease it is at, and tells the daemon. *)
Example stopped_task_still_applies :
  match thread_new (ex_dhcp_base None) true (ex_dhcp_box 1) with
  | (Ok t, b) =>
      match ex_turns 2 t b with
      | Ok t =>
          match ex_turn (quitting t) b with
          | (Ok (_, sent), b') => sent = [DhcpV4LeaseApplied "dummy0"; GatewayChanged]
          | _ => False
          end
      | _ => False
      end
  | _ => False
  end.
Proof. vm_compute. reflexivity. Qed.

Lemma dhcp_query_tells_witness :
  match thread_new (ex_dhcp_base None) true (ex_dhcp_box 1) with
  | (Ok t, b) =>
      match ex_turn t b with
      | (Ok (t', _), _) =>
          let w := dhcpv4_worker (<["dummy0" := t']> (<["dummy0" := t]> ∅)) [] true [] in
          (∀ name state, worker_query w !! name = Some state →
             ∃ t, dw_threads w !! name = Some t ∧ bi_name (th_base t) = name ∧ th_quit t = false ∧
               th_state t = state ∧ told_by state (th_phase t)) ∧
          (∀ name info, worker_dns_info w !! name = Some info → is_Some (worker_query w !! name)) ∧
          (∀ t, t ∈ dw_dropped w → th_quit t = true)
      | _ => False
      end
  | _ => False
  end.
Proof.
  destruct (thread_new (ex_dhcp_base None) true (ex_dhcp_box 1)) as [[t|] b] eqn:Et;
    [|by vm_compute in Et].
  destruct (ex_turn t b) as [[[t' l]|] b'] eqn:Er.
  2: { vm_compute in Et. injection Et as <- <-. by vm_compute in Er. }
  apply (dhcp_query_tells ex_lower to_ascii_uppercase None ex_iteration ex_link_sort no_dhcp (λ _, "failed")
           (ex_dhcp_box 1) _ b').
  eapply rtc_l; [apply worker_sender|].
  eapply rtc_l.
  { apply (worker_command _ _ _ _ _ _ _ (StartIfaceDhcp (ex_dhcp_base None))). cbn [worker_exec].
    rewrite eff_bind_run. change (dw_sender (set_commander_sender worker_new)) with true. rewrite Et. reflexivity. }
  assert (l = []) as ->.
  { vm_compute in Et. injection Et as <- <-. vm_compute in Er. by injection Er as <- <- <-. }
  apply rtc_once. refine (worker_turn _ _ _ _ _ _ _ false "dummy0" t _ _ t' [] b' _ Er).
  simpl. apply lookup_insert_eq.
Defined.
