(* ===== verification/DhcpOnce.v ===== *)
(** * DhcpOnce: DHCP without a daemon

    [src/lib/no_daemon/dhcp.rs]: [run_dhcp_once], which an apply without a daemon waits for.
    The leases are asked for concurrently: a step of the relation lets one of the pending
    requests go on to its next [await], or, when it has got its lease, applies it; the
    requests do not go on while a lease is applied, since [FuturesUnordered] is not polled. *)

From S2P Require Export DhcpLease.

#[local] Open Scope Z_scope.

(** [DhcpV4Client::init] with the name of the interface only. *)
Class OnceClient (C K : Type) : Type := oc_init : string → K → option C * K.

(** Where a request for a lease is. *)
Inductive Get4 (C : Type) : Type := Wait4 | Init4 | Run4 (client : C).
Arguments Wait4 {C}. Arguments Init4 {C}. Arguments Run4 {C}.

(** [attempts] are left to be made. *)
Inductive Get6 (C : Type) : Type :=
| Wait6 | Enable6 | Init6 (attempts : nat) (link_local_regenerated : bool) | Nap6 (attempts : nat)
| Run6 (client : C) | Again6.
Arguments Wait6 {C}. Arguments Enable6 {C}. Arguments Init6 {C}. Arguments Nap6 {C}.
Arguments Run6 {C}. Arguments Again6 {C}.

(** ** The interfaces *)

Definition wants_dhcp4 (iface : Interface) : bool :=
  bool_decide ((bi_ipv4 (base_iface iface) ≫= v4_dhcp) = Some true).
Definition wants_dhcp6 (iface : Interface) : bool :=
  bool_decide ((bi_ipv6 (base_iface iface) ≫= v6_dhcp) = Some true).

Definition dhcp_names_of (wants : Interface → bool) (mi : MergedInterfaces) : list string :=
  kernel_iface_name <$> List.filter wants (omap mi_for_apply (kernel_ifaces mi).*2).

Definition dhcp4_names : MergedInterfaces → list string := dhcp_names_of wants_dhcp4.
Definition dhcp6_names : MergedInterfaces → list string := dhcp_names_of wants_dhcp6.

(** What the DNS of the host learns. *)
Definition lease_dns (name : string) (lease : DhcpV4Lease) : DhcpDns :=
  dhcp_dns_of name ((λ srv, ip_display (V4 srv)) <$> default [] (le_dns_srvs lease)) (lease_domains lease).

(** ** Routes *)

Definition once_gateway_route (kernel_iface_name : string) (metric : option Z) (gateway : Z) : RouteEntry :=
  set_rt_onlink (Some false) (gateway_route kernel_iface_name metric gateway).

Definition once_metric (m : MergedInterface) (index : nat) : option Z :=
  match bi_ipv4 (base_iface (mi_merged m)) with
  | Some ipv4 => dhcp_route_metric ipv4 (mi_current m ≫= (λ c, bi_iface_index (base_iface c))) (Z.of_nat index)
  | None => None
  end.

Definition once_routes (lease : DhcpV4Lease) (m : MergedInterface) (kernel_iface_name : string) :
    list RouteEntry :=
  match le_gateways lease with
  | Some gateways =>
      if lease_gateway_allowed (base_iface (mi_merged m))
      then imap (λ index gateway, once_gateway_route kernel_iface_name (once_metric m index) gateway) gateways
      else []
  | None => []
  end.

Section Once.
Context {C C6 K : Type} `{!Kernel K} `{!Host K} `{!DhcpClient C K} `{!OnceClient C K} `{!Dhcp6Client C6 K}.

Definition apply_lease_v4 (mi : MergedInterfaces) (name : string) (lease : DhcpV4Lease) : Eff K () :=
  match assoc_get name (kernel_ifaces mi) with
  | None => eff_fail Bug
  | Some m =>
      _ ← eff_call (request (IpChanges (lease_base lease (base_iface (mi_merged m)))
                               (base_iface <$> mi_current m)));
      merged_routes ← eff_res (merged_routes_new (routes None (Some (once_routes lease m name)))
                                 routes_default None mi);
      KernelApply.apply_routes merged_routes
  end.

Definition apply_lease_v6 (mi : MergedInterfaces) (name : string) (lease : DhcpV6Lease) : Eff K () :=
  match assoc_get name (kernel_ifaces mi) with
  | None => eff_fail Bug
  | Some m => apply_dhcpv6_lease (base_iface (mi_merged m)) lease
  end.

(** [get_lease_v4], from one [await] to the next. *)
Definition get4_turn (name : string) (p : Get4 C) : Eff K (Get4 C + DhcpV4Lease) :=
  match p with
  | Wait4 => _ ← eff_call (dc_wait_carrier name); mret (inl Init4)
  | Init4 =>
      c ← eff_call (λ k, let '(c, k') := oc_init name k in (Ok c, k'));
      match c with Some c => mret (inl (Run4 c)) | None => eff_fail Bug end
  | Run4 c =>
      r ← run_dhcp_client c;
      match r with
      | (Ok (LeaseDone lease), _) => mret (inr lease)
      | (Ok OtherDhcpState, c) => mret (inl (Run4 c))
      | (Err _, _) => eff_fail InvalidArgument
      end
  end.

(** [init_dhcp_v6_client]: one attempt of its loop. *)
Definition once_init6 (name : string) : Eff K (option C6) := λ k,
  let '(c, k') := d6_init name None k in (Ok c, k').

Definition init6_turn (name : string) (attempts : nat) (link_local_regenerated : bool) : Eff K (Get6 C6) :=
  match attempts with
  | O => eff_of (Err Panicked)
  | S attempts =>
      c ← once_init6 name;
      match c with
      | Some c => mret (Run6 c)
      | None =>
          _ ← (if link_local_regenerated then mret (Ok ())
               else eff_try (eff_call (d6_regenerate_link_local name)));
          match attempts with O => eff_fail Bug | _ => mret (Nap6 attempts) end
      end
  end.

Definition once_sleep : Eff K () := λ k, (Ok (), out_sleep DHCPV6_INIT_RETRY_INTERVAL_MS k).

(** [get_lease_v6]. *)
Definition get6_turn (name : string) (p : Get6 C6) : Eff K (Get6 C6 + DhcpV6Lease) :=
  match p with
  | Wait6 => _ ← eff_call (d6_wait_carrier name); mret (inl Enable6)
  | Enable6 => _ ← eff_call (request (EnableIpv6 name)); mret (inl (Init6 DHCPV6_INIT_RETRY_COUNT false))
  | Init6 attempts regenerated => p ← init6_turn name attempts regenerated; mret (inl p)
  | Nap6 attempts => _ ← once_sleep; mret (inl (Init6 attempts true))
  | Run6 c =>
      r ← run_client6 c;
      match r with
      | (Ok (LeaseDone6 lease), _) => mret (inr lease)
      | (Ok OtherDhcpState6, c) => mret (inl (Run6 c))
      | (Err _, c) => _ ← clean_up6 c; mret (inl Again6)
      end
  | Again6 => _ ← eff_call (d6_wait_carrier name); mret (inl (Init6 DHCPV6_INIT_RETRY_COUNT false))
  end.

(** ** [run_dhcp_once] *)

Inductive Once : Type :=
| Asking4 (pending : list (string * Get4 C)) (dns : list DhcpDns)
| Asking6 (pending : list (string * Get6 C6)) (dns : list DhcpDns)
| Answered (r : outcome (list DhcpDns)).

(** What a step applied. *)
Inductive Applied : Type :=
| Applied4 (e : string * DhcpV4Lease)
| Applied6 (e : string * DhcpV6Lease).

Definition once_start (mi : MergedInterfaces) : Once :=
  Asking4 ((λ name, (name, Wait4)) <$> dhcp4_names mi) [].
Definition once_start6 (mi : MergedInterfaces) (dns : list DhcpDns) : Once :=
  Asking6 ((λ name, (name, Wait6)) <$> dhcp6_names mi) dns.

Inductive once_step (mi : MergedInterfaces) : Once * K → list Applied → Once * K → Prop :=
| once_turn4 l1 name p l2 dns k p' k' :
    get4_turn name p k = (Ok (inl p'), k') →
    once_step mi (Asking4 (l1 ++ (name, p) :: l2) dns, k) [] (Asking4 (l1 ++ (name, p') :: l2) dns, k')
| once_failed4 l1 name p l2 dns k e k' :
    get4_turn name p k = (Err e, k') →
    once_step mi (Asking4 (l1 ++ (name, p) :: l2) dns, k) [] (Answered (Err e), k')
| once_lease4 l1 name p l2 dns k lease k1 k' :
    get4_turn name p k = (Ok (inr lease), k1) → apply_lease_v4 mi name lease k1 = (Ok (), k') →
    once_step mi (Asking4 (l1 ++ (name, p) :: l2) dns, k) [Applied4 (name, lease)]
      (Asking4 (l1 ++ l2) (dns ++ [lease_dns name lease]), k')
| once_refused4 l1 name p l2 dns k lease k1 e k' :
    get4_turn name p k = (Ok (inr lease), k1) → apply_lease_v4 mi name lease k1 = (Err e, k') →
    once_step mi (Asking4 (l1 ++ (name, p) :: l2) dns, k) [] (Answered (Err e), k')
| once_done4 dns k : once_step mi (Asking4 [] dns, k) [] (once_start6 mi dns, k)
| once_turn6 l1 name p l2 dns k p' k' :
    get6_turn name p k = (Ok (inl p'), k') →
    once_step mi (Asking6 (l1 ++ (name, p) :: l2) dns, k) [] (Asking6 (l1 ++ (name, p') :: l2) dns, k')
| once_failed6 l1 name p l2 dns k e k' :
    get6_turn name p k = (Err e, k') →
    once_step mi (Asking6 (l1 ++ (name, p) :: l2) dns, k) [] (Answered (Err e), k')
| once_lease6 l1 name p l2 dns k lease k1 k' :
    get6_turn name p k = (Ok (inr lease), k1) → apply_lease_v6 mi name lease k1 = (Ok (), k') →
    once_step mi (Asking6 (l1 ++ (name, p) :: l2) dns, k) [Applied6 (name, lease)]
      (Asking6 (l1 ++ l2) dns, k')
| once_refused6 l1 name p l2 dns k lease k1 e k' :
    get6_turn name p k = (Ok (inr lease), k1) → apply_lease_v6 mi name lease k1 = (Err e, k') →
    once_step mi (Asking6 (l1 ++ (name, p) :: l2) dns, k) [] (Answered (Err e), k')
| once_done6 dns k : once_step mi (Asking6 [] dns, k) [] (Answered (Ok dns), k).

(** A run, with what it applied. *)
Inductive once_run (mi : MergedInterfaces) : Once * K → list Applied → Once * K → Prop :=
| once_stop x : once_run mi x [] x
| once_go x y z l l' : once_step mi x l y → once_run mi y l' z → once_run mi x (l ++ l') z.

(** ** A run asks for what is wanted *)

(** What holds of the state, after [trace]. *)
Definition once_ok (mi : MergedInterfaces) (trace : list Applied) (s : Once) : Prop :=
  ∃ l4 l6, trace = (Applied4 <$> l4) ++ (Applied6 <$> l6) ∧
  match s with
  | Asking4 pending dns =>
      l6 = [] ∧ l4.*1 ++ pending.*1 ≡ₚ dhcp4_names mi ∧ dns = (λ e, lease_dns e.1 e.2) <$> l4
  | Asking6 pending dns =>
      l4.*1 ≡ₚ dhcp4_names mi ∧ l6.*1 ++ pending.*1 ≡ₚ dhcp6_names mi ∧
      dns = (λ e, lease_dns e.1 e.2) <$> l4 ∧
      Forall (λ e, match e.2 with Init6 n _ | Nap6 n => (0 < n)%nat | _ => True end) pending
  | Answered (Ok dns) =>
      l4.*1 ≡ₚ dhcp4_names mi ∧ l6.*1 ≡ₚ dhcp6_names mi ∧ dns = (λ e, lease_dns e.1 e.2) <$> l4
  | Answered (Err e) => e ≠ Panicked
  end.

Lemma once_start_ok mi : once_ok mi [] (once_start mi).
Proof.
  exists [], []. split; [reflexivity|]. simpl. split_and!; [done| |done].
  by rewrite <-list_fmap_compose, (list_fmap_ext _ id), list_fmap_id by done.
Qed.

(** A pending request among the others. *)
Lemma perm_pending {A} (l : list string) (l1 l2 : list (string * A)) (names : list string) name p p' :
  l ++ (l1 ++ (name, p) :: l2).*1 ≡ₚ names → l ++ (l1 ++ (name, p') :: l2).*1 ≡ₚ names.
Proof. by rewrite !fmap_app. Qed.

Lemma perm_answered {A} (l : list string) (l1 l2 : list (string * A)) (names : list string) name p :
  l ++ (l1 ++ (name, p) :: l2).*1 ≡ₚ names → (l ++ [name]) ++ (l1 ++ l2).*1 ≡ₚ names.
Proof. intros <-. rewrite !fmap_app, !fmap_cons. simpl. solve_Permutation. Qed.

(** No request panics. *)
Lemma get4_no_panic name p k : (get4_turn name p k).1 ≠ Err Panicked.
Proof.
  destruct p as [| |c]; cbn [get4_turn]; rewrite eff_bind_run.
  - unfold eff_call. by destruct (dc_wait_carrier name k) as [[|] ?].
  - unfold eff_call. by destruct (oc_init name k) as [[|] ?].
  - unfold run_dhcp_client. by destruct (dc_run c k) as [[[[lease|]|e] c'] k'].
Qed.

(** Attempts are left after each attempt that is followed by another. *)
Definition get6_ok (p : Get6 C6) : Prop :=
  match p with Init6 n _ | Nap6 n => (0 < n)%nat | _ => True end.

Lemma get6_turn_ok name p k :
  get6_ok p → match (get6_turn name p k).1 with
              | Ok (inl p') => get6_ok p'
              | Ok (inr _) => True
              | Err e => e ≠ Panicked
              end.
Proof.
  intros Hp. destruct p as [| |n r|n|c|]; cbn [get6_turn]; rewrite eff_bind_run.
  - unfold eff_call. by destruct (d6_wait_carrier name k) as [[|] ?].
  - unfold eff_call. destruct (request _ k) as [[|] ?]; simpl; unfold DHCPV6_INIT_RETRY_COUNT; [lia|done].
  - destruct n as [|n]; [simpl in Hp; lia|]. cbn [init6_turn]. rewrite eff_bind_run. unfold once_init6.
    destruct (d6_init name None k) as [[c|] k1]; [done|]. rewrite eff_bind_run.
    destruct r.
    + simpl. destruct n; simpl; [done|lia].
    + unfold eff_try, eff_call. destruct (d6_regenerate_link_local name k1) as [[|] ?];
        simpl; destruct n; simpl; try done; lia.
  - simpl in *. done.
  - unfold run_client6. by destruct (d6_run c k) as [[[[lease|]|e] c'] k'].
  - unfold eff_call. destruct (d6_wait_carrier name k) as [[|] ?]; simpl; unfold DHCPV6_INIT_RETRY_COUNT; [lia|done].
Qed.

Lemma eff_call_no_panic {A} (f : K → res A * K) k : (eff_call f k).1 ≠ Err Panicked.
Proof. unfold eff_call. by destruct (f k) as [[|] ?]. Qed.

Lemma apply_routes_no_panic mr k : (KernelApply.apply_routes mr k).1 ≠ Err Panicked.
Proof.
  unfold KernelApply.apply_routes. destruct (negb _); [done|]. rewrite eff_bind_run. unfold eff_res, eff_of.
  destruct (validate_routes mr); simpl; [|done]. apply eff_call_no_panic.
Qed.

Lemma apply_lease_v4_no_panic mi name lease k : (apply_lease_v4 mi name lease k).1 ≠ Err Panicked.
Proof.
  unfold apply_lease_v4. destruct (assoc_get _ _) as [m|]; [|done]. rewrite eff_bind_run.
  pose proof (eff_call_no_panic (request (IpChanges (lease_base lease (base_iface (mi_merged m)))
    (base_iface <$> mi_current m))) k) as H.
  destruct (eff_call _ k) as [[?|e] k1]; [|exact H]. rewrite eff_bind_run. unfold eff_res at 1, eff_of.
  destruct (merged_routes_new _ _ _ _); simpl; [apply apply_routes_no_panic|done].
Qed.

Lemma apply_lease_v6_no_panic mi name lease k : (apply_lease_v6 mi name lease k).1 ≠ Err Panicked.
Proof.
  unfold apply_lease_v6. destruct (assoc_get _ _) as [m|]; [|done]. apply eff_call_no_panic.
Qed.

Lemma once_step_ok mi trace s k l s' k' :
  once_ok mi trace s → once_step mi (s, k) l (s', k') → once_ok mi (trace ++ l) s'.
Proof.
  intros (l4 & l6 & -> & Hs) Hstep.
  inversion Hstep as [l1 name p l2 dns k0 p' k0' H|l1 name p l2 dns k0 e k0' H
    |l1 name p l2 dns k0 lease k1 k0' H Ha|l1 name p l2 dns k0 lease k1 e k0' H Ha|dns k0
    |l1 name p l2 dns k0 p' k0' H|l1 name p l2 dns k0 e k0' H
    |l1 name p l2 dns k0 lease k1 k0' H Ha|l1 name p l2 dns k0 lease k1 e k0' H Ha|dns k0]; subst; simpl in Hs;
    rewrite ?app_nil_r.
  - destruct Hs as (-> & Hp & ->). exists l4, []. split; [done|]. split_and!; [done| |done].
    by eapply perm_pending.
  - exists l4, l6. split; [done|]. intros ->. apply (get4_no_panic name p k). by rewrite H.
  - destruct Hs as (-> & Hp & ->). exists (l4 ++ [(name, lease)]), [].
    split; [by rewrite fmap_app, !app_nil_r|]. split_and!; [done| |by rewrite fmap_app].
    rewrite fmap_app. by eapply perm_answered.
  - exists l4, l6. split; [done|]. intros ->. apply (apply_lease_v4_no_panic mi name lease k1). by rewrite Ha.
  - destruct Hs as (-> & Hp & ->). exists l4, []. split; [done|]. simpl in *. rewrite app_nil_r in Hp.
    split_and!; [done| |done|by apply Forall_fmap, Forall_true].
    by rewrite <-list_fmap_compose, (list_fmap_ext _ id), list_fmap_id by done.
  - destruct Hs as (H4 & Hp & -> & Hf). exists l4, l6. split; [done|]. apply Forall_app in Hf as [Hf1 Hf2].
    apply Forall_cons in Hf2 as [Hf Hf2]. split_and!; [done|by eapply perm_pending|done|].
    apply Forall_app. split; [done|]. apply Forall_cons. split; [|done].
    pose proof (get6_turn_ok name p k Hf) as Hok. by rewrite H in Hok.
  - destruct Hs as (H4 & Hp & -> & Hf). exists l4, l6. split; [done|]. apply Forall_app in Hf as [_ Hf].
    apply Forall_cons in Hf as [Hf _]. pose proof (get6_turn_ok name p k Hf) as Hok. by rewrite H in Hok.
  - destruct Hs as (H4 & Hp & -> & Hf). exists l4, (l6 ++ [(name, lease)]).
    split; [by rewrite fmap_app, (assoc_L (++))|]. split_and!; [done| |done|].
    + rewrite fmap_app. by eapply perm_answered.
    + apply Forall_app in Hf as [Hf1 Hf2]. apply Forall_cons in Hf2 as [_ Hf2]. by apply Forall_app.
  - exists l4, l6. split; [done|]. intros ->. apply (apply_lease_v6_no_panic mi name lease k1). by rewrite Ha.
  - destruct Hs as (H4 & Hp & -> & _). exists l4, l6. simpl in Hp. rewrite app_nil_r in Hp. done.
Qed.

Lemma once_run_ok mi trace s k l s' k' :
  once_ok mi trace s → once_run mi (s, k) l (s', k') → once_ok mi (trace ++ l) s'.
Proof.
  intros Hs Hr. remember (s, k) as x eqn:Ex. remember (s', k') as z eqn:Ez.
  revert trace s k Ex Hs. induction Hr as [x|x [s1 k1] z l l' H1 _ IH]; intros trace s k -> Hs.
  - simplify_eq. by rewrite app_nil_r.
  - rewrite (assoc_L (++)). eapply IH; [done|done|]. by eapply once_step_ok.
Qed.

(** C12: When the wait for DHCP ends well, every interface that was to have a lease got one that
    was applied, each one once and those of IPv4 before those of IPv6, and the DNS of the host
    is told of each IPv4 lease in the order in which they were applied.  It never ends in a
    panic, and while it has no answer it can go on. *)
Theorem dhcp_once_serves_all mi k trace s k' :
  once_run mi (once_start mi, k) trace (s, k') →
  match s with
  | Answered (Ok dns) =>
      ∃ l4 l6, trace = (Applied4 <$> l4) ++ (Applied6 <$> l6) ∧
        l4.*1 ≡ₚ dhcp4_names mi ∧ l6.*1 ≡ₚ dhcp6_names mi ∧ dns = (λ e, lease_dns e.1 e.2) <$> l4
  | Answered (Err e) => e ≠ Panicked
  | _ => ∃ l s1 k1, once_step mi (s, k') l (s1, k1)
  end.
Proof.
  intros Hr. apply (once_run_ok _ []) in Hr; [|apply once_start_ok]. destruct Hr as (l4 & l6 & E & Hs).
  destruct s as [[|[name p] pending] dns|[|[name p] pending] dns|[dns|e]].
  - do 3 eexists. apply once_done4.
  - destruct (get4_turn name p k') as [[[p'|lease]|e] k1] eqn:Et.
    + do 3 eexists. by apply (once_turn4 mi [] name p pending dns k' p' k1).
    + destruct (apply_lease_v4 mi name lease k1) as [[[]|e] k2] eqn:Ea; do 3 eexists.
      * by apply (once_lease4 mi [] name p pending dns k' lease k1 k2).
      * by apply (once_refused4 mi [] name p pending dns k' lease k1 e k2).
    + do 3 eexists. by apply (once_failed4 mi [] name p pending dns k' e k1).
  - do 3 eexists. apply once_done6.
  - destruct (get6_turn name p k') as [[[p'|lease]|e] k1] eqn:Et.
    + do 3 eexists. by apply (once_turn6 mi [] name p pending dns k' p' k1).
    + destruct (apply_lease_v6 mi name lease k1) as [[[]|e] k2] eqn:Ea; do 3 eexists.
      * by apply (once_lease6 mi [] name p pending dns k' lease k1 k2).
      * by apply (once_refused6 mi [] name p pending dns k' lease k1 e k2).
    + do 3 eexists. by apply (once_failed6 mi [] name p pending dns k' e k1).
  - exists l4, l6. destruct Hs as (H4 & H6 & ->). done.
  - exact Hs.
Qed.

End Once.

(** ** Examples *)

#[local] Existing Instance box_kernel.
#[local] Existing Instance box_host.
#[local] Existing Instance ex_dhcp_client.

#[local] Instance ex_once_client : OnceClient nat Box := λ _ b, (Some 0%nat, b).

#[local] Instance ex_dhcp6_client : Dhcp6Client nat Box := {|
  d6_wait_carrier _ b := (Ok (), b);
  d6_init _ _ b := (None, b);
  d6_regenerate_link_local _ b := (Ok (), b);
  d6_sleep b := (false, b);
  d6_run c b := (Ok OtherDhcpState6, c, b);
  d6_clean_up _ b := b;
|}.

Definition ex_once_ifaces (iface : Interface) : MergedInterfaces :=
  merged_interfaces [("dummy0", merged_interface (Some iface) (Some iface) iface (Some iface) (Some iface)
                                  None None None false)] [] [("dummy0", TDummy)] [("dummy0", iface)]
    search_default.

(** Without its gateway. *)
Definition ex_once_base : BaseInterface :=
  set_bi_ipv4 (Some (iface_ipv4 (Some true) (Some true) None None (Some false) None None None))
    (ex_dhcp_base None).

Definition ex_once_mi : MergedInterfaces := ex_once_ifaces (IfDummy ex_once_base).

Definition ex_lease : DhcpV4Lease :=
  dhcpv4_lease 3232235786 24 3600 None (Some "lan") (Some ["lan"; "home"]) None
    (Some [3232235777; 3232235778]).

Lemma dhcp_once_serves_all_witness :
  ∃ l4 l6, [Applied4 ("dummy0", ex_lease)] = (Applied4 <$> l4) ++ (Applied6 <$> l6) ∧
    l4.*1 ≡ₚ dhcp4_names ex_once_mi ∧ l6.*1 ≡ₚ dhcp6_names ex_once_mi ∧
    [lease_dns "dummy0" ex_lease] = (λ e, lease_dns e.1 e.2) <$> l4.
Proof.
  set (b := ex_dhcp_box 1).
  assert (∃ b', apply_lease_v4 ex_once_mi "dummy0" ex_lease b = (Ok (), b')) as [b' Hb].
  { destruct (apply_lease_v4 ex_once_mi "dummy0" ex_lease b) as [[[]|e] b'] eqn:E; [by exists b'|].
    vm_compute in E. discriminate E. }
  apply (dhcp_once_serves_all (C := nat) (C6 := nat) ex_once_mi b [Applied4 ("dummy0", ex_lease)]
           (Answered (Ok [lease_dns "dummy0" ex_lease])) b').
  change [Applied4 ("dummy0", ex_lease)] with ([] ++ [] ++ [Applied4 ("dummy0", ex_lease)] ++ [] ++ [] ++ @nil Applied).
  eapply once_go; [apply (once_turn4 ex_once_mi [] "dummy0" Wait4 [] [] b Init4 b); reflexivity|].
  eapply once_go; [apply (once_turn4 ex_once_mi [] "dummy0" Init4 [] [] b (Run4 0%nat) b); reflexivity|].
  eapply once_go; [apply (once_lease4 ex_once_mi [] "dummy0" (Run4 0%nat) [] [] b ex_lease b b'); [reflexivity|exact Hb]|].
  eapply once_go; [apply once_done4|]. eapply once_go; [apply once_done6|apply once_stop].
Defined.
