(* ===== verification/Netlink.v ===== *)
(** * Netlink: messages, indexes and the connection

    [src/lib/netlink/mod.rs] and [link/mod.rs]: the map between the indexes and the names of
    the links, and what is asked of the connection.  The messages are those of the crate
    [netlink-packet-route] with the attributes that are read or written; the connection, of
    the crate [rtnetlink], is an interface. *)

From S2P Require Export Decimal LinkEvent Route RouteRule NoDaemonApply.

#[local] Open Scope Z_scope.

(** ** Messages *)

Inductive NetFamily : Type := Inet | Inet6 | OtherFamily (v : Z).

#[export] Instance NetFamily_eq_dec : EqDecision NetFamily.
Proof. solve_decision. Defined.

Inductive AddressProtocol : Type := RouterAnnouncement | OtherAddressProtocol (v : Z).

#[export] Instance AddressProtocol_eq_dec : EqDecision AddressProtocol.
Proof. solve_decision. Defined.

(** [CacheInfo] with the two fields that are used. *)
Inductive AddressAttribute : Type :=
| AaAddress (addr : IpAddr) | AaLocal (addr : IpAddr) | AaCacheInfo (ifa_preferred ifa_valid : Z)
| AaProtocol (p : AddressProtocol) | AaFlags (flags : Z) | AaOther.

#[export] Instance AddressAttribute_eq_dec : EqDecision AddressAttribute.
Proof. solve_decision. Defined.

Record AddressMessage : Type := address_message {
  am_family : NetFamily;
  am_prefix_len : Z;
  am_index : Z;
  am_attributes : list AddressAttribute;
}.

Inductive RuleAction : Type :=
| RaToTable | RaBlackhole | RaUnreachable | RaProhibit | RaOther (v : Z).

#[export] Instance RuleAction_eq_dec : EqDecision RuleAction.
Proof. solve_decision. Defined.

Inductive RuleAttribute : Type :=
| RuProtocol (v : Z) | RuSource (addr : IpAddr) | RuDestination (addr : IpAddr)
| RuIifname (name : string) | RuPriority (v : Z) | RuFwMark (v : Z) | RuFwMask (v : Z)
| RuSuppressPrefixLen (v : Z) | RuTable (v : Z) | RuOther.

Record RuleMessage : Type := rule_message {
  ru_family : NetFamily;
  ru_action : RuleAction;
  ru_src_len : Z;
  ru_dst_len : Z;
  ru_table : Z;
  ru_attributes : list RuleAttribute;
}.

Inductive RouteScope : Type := ScUniverse | ScLink | ScNoWhere | ScOther (v : Z).

#[export] Instance RouteScope_eq_dec : EqDecision RouteScope.
Proof. solve_decision. Defined.

(** [RouteType] of the crate. *)
Inductive RouteKind : Type :=
| RkUnspec | RkUnicast | RkBlackHole | RkUnreachable | RkProhibit | RkOther (v : Z).

Inductive RouteAddress : Type := RaInet (addr : Z) | RaInet6 (addr : Z) | RaMpls.

Inductive RouteMetric : Type :=
| RmLock (v : Z) | RmCwnd (v : Z) | RmInitCwnd (v : Z) | RmInitRwnd (v : Z) | RmMtu (v : Z)
| RmQuickAck (v : Z) | RmAdvmss (v : Z) | RmOther.

Inductive RouteVia : Type := ViaInet (addr : Z) | ViaInet6 (addr : Z) | ViaOther.

Inductive NextHopAttribute : Type := NhGateway (addr : RouteAddress) | NhOther.

Record RouteNextHop : Type := route_next_hop {
  nh_interface_index : Z;
  nh_hops : Z;
  nh_attributes : list NextHopAttribute;
}.

Inductive RouteAttribute : Type :=
| RtTable (v : Z) | RtDestination (addr : RouteAddress) | RtOif (index : Z)
| RtGateway (addr : RouteAddress) | RtVia (via : RouteVia) | RtPrefSource (addr : RouteAddress)
| RtPriority (v : Z) | RtMultiPath (next_hops : list RouteNextHop)
| RtMetrics (nlas : list RouteMetric) | RtOther.

Record RouteMessage : Type := route_message_of {
  rm_family : NetFamily;
  rm_destination_prefix_length : Z;
  rm_table : Z;
  rm_protocol : Z;
  rm_scope : RouteScope;
  rm_kind : RouteKind;
  rm_onlink : bool;
  rm_attributes : list RouteAttribute;
}.

(** ** The index map *)

Record LinkIndexMap : Type := link_index_map {
  by_index : gmap Z string;
  by_name : gmap string Z;
}.

Definition index_map_default : LinkIndexMap := link_index_map ∅ ∅.

Definition index_map_insert (index : Z) (name : string) (m : LinkIndexMap) : LinkIndexMap :=
  link_index_map (<[index := name]> (by_index m)) (<[name := index]> (by_name m)).

Definition index_name (m : LinkIndexMap) (index : Z) : option string := by_index m !! index.
Definition name_index (m : LinkIndexMap) (name : string) : option Z := by_name m !! name.

(** The first name attribute of a message. *)
Definition message_name (message : LinkMessage) : option string :=
  find_map (λ attr, match attr with IfName name => Some name | _ => None end) (lm_attributes message).

Definition index_map_add (m : LinkIndexMap) (message : LinkMessage) : LinkIndexMap :=
  match message_name message with
  | Some name => if String.eqb name "" then m else index_map_insert (lm_index message) name m
  | None => m
  end.

Definition index_map_from_messages (messages : list LinkMessage) : LinkIndexMap :=
  foldl index_map_add index_map_default messages.

(** ** The connection *)

(** [rtnetlink::Error]: an error the kernel answers, with its raw code, or another one. *)
Inductive NetlinkError : Type := KernelError (raw_code : Z) | OtherNetlinkError.

Definition ENOENT : Z := 2.
Definition ESRCH : Z := 3.
Definition EEXIST : Z := 17.
Definition EADDRNOTAVAIL : Z := 99.

Definition is_errno (error : NetlinkError) (errno : Z) : bool :=
  match error with KernelError code => code =? - errno | OtherNetlinkError => false end.

(** What is asked of a connection; a dump that breaks off gives nothing. *)
Class Rtnetlink (K : Type) : Type := {
  nl_connect : bool → K → bool * K;
  nl_links : K → option (list LinkMessage) * K;
  nl_addresses : K → option (list AddressMessage) * K;
  nl_add_address : Z → IpAddr → Z → list AddressAttribute → K → result NetlinkError () * K;
  nl_del_address : AddressMessage → K → result NetlinkError () * K;
  nl_rules : bool → K → option (list RuleMessage) * K;
  nl_add_rule : RuleMessage → K → result NetlinkError () * K;
  nl_del_rule : RuleMessage → K → result NetlinkError () * K;
  nl_routes : NetFamily → Z → K → option (list RouteMessage) * K;
  nl_add_route : RouteMessage → K → result NetlinkError () * K;
  nl_del_route : RouteMessage → K → result NetlinkError () * K;
}.

Section Connection.
Context {K : Type} `{!Rtnetlink K}.

(** [new_connection] and [new_connection_with_strict_check]. *)
Definition connect (strict_check : bool) : Eff K () := λ k,
  let '(opened, k') := nl_connect strict_check k in
  ((if opened : bool then Ok () else lift (fail Bug)), k').

Definition new_connection : Eff K () := connect false.

(** A dump: an error on the way is a bug, whatever was received before it. *)
Definition dump {A} (f : K → option (list A) * K) : Eff K (list A) := λ k,
  let '(l, k') := f k in
  (match l with Some l => Ok l | None => lift (fail Bug) end, k').

Definition get_index_map : Eff K LinkIndexMap :=
  links ← dump nl_links; mret (index_map_from_messages links).

(** A change that is done, or that [errno] says there is nothing to do for. *)
Definition change (errno : option Z) (f : K → result NetlinkError () * K) : Eff K () := λ k,
  let '(r, k') := f k in
  (match r with
   | Ok _ => Ok ()
   | Err e => if match errno with Some n => is_errno e n | None => false end
              then Ok () else lift (fail Bug)
   end, k').

End Connection.

(** ** The map is right *)

(** When no two links share an index or a name, a name has an index just if the index has
    that name, and both are of a link that was reported. *)
Definition links_distinct (messages : list LinkMessage) : Prop :=
  NoDup (lm_index <$> messages) ∧ NoDup (omap message_name messages).

Lemma index_map_snoc l x :
  index_map_from_messages (l ++ [x]) = index_map_add (index_map_from_messages l) x.
Proof. unfold index_map_from_messages. by rewrite foldl_app. Qed.

Lemma omap_app_names l k :
  omap message_name (l ++ k) = omap message_name l ++ omap message_name k.
Proof. induction l as [|x l IH]; [done|]. simpl app. rewrite !omap_cons, IH. by destruct (message_name x). Qed.

Lemma index_map_lookups messages :
  links_distinct messages → ∀ i n,
  (index_name (index_map_from_messages messages) i = Some n ↔
     n ≠ "" ∧ ∃ m, m ∈ messages ∧ lm_index m = i ∧ message_name m = Some n) ∧
  (name_index (index_map_from_messages messages) n = Some i ↔
     n ≠ "" ∧ ∃ m, m ∈ messages ∧ lm_index m = i ∧ message_name m = Some n).
Proof.
  induction messages as [|x l IH] using rev_ind; intros [Hi Hn] i n.
  { unfold index_name, name_index. simpl. rewrite !lookup_empty.
    split; (split; [done|]); by intros (_ & m & ?%elem_of_nil & _). }
  rewrite fmap_app, NoDup_app in Hi. destruct Hi as (Hi & Hxi & _).
  rewrite omap_app_names, NoDup_app in Hn. destruct Hn as (Hn & Hxn & _).
  destruct (IH (conj Hi Hn) i n) as [H1 H2]. rewrite index_map_snoc. unfold index_map_add.
  assert (∀ m, m ∈ l → lm_index m ≠ lm_index x) as Hix.
  { intros m Hm E. apply (Hxi (lm_index m)); [by apply list_elem_of_fmap_2|]. rewrite E. simpl. set_solver. }
  assert (∀ m y, m ∈ l → message_name m = Some y → message_name x ≠ Some y) as Hnx.
  { intros m y Hm E Ex. apply (Hxn y); [apply list_elem_of_omap; eauto|].
    rewrite omap_cons, Ex. simpl. set_solver. }
  assert (∀ P : LinkMessage → Prop, (∃ m, m ∈ l ++ [x] ∧ P m) ↔ (∃ m, m ∈ l ∧ P m) ∨ P x) as Hex.
  { intros P. split.
    - intros (m & [Hm|Hm]%elem_of_app & HP); [left; eauto|]. apply list_elem_of_singleton in Hm as ->. by right.
    - intros [(m & Hm & HP)|HP]; [exists m|exists x]; (split; [apply elem_of_app|done]);
        [by left|right; by apply list_elem_of_singleton]. }
  rewrite Hex. destruct (message_name x) as [y|] eqn:Ey.
  2: { rewrite H1, H2. split; (split; [intros [? ?]; split; [done|by left]|]);
       intros [? [?|[_ [=]]]]; by split. }
  destruct (String.eqb y "") eqn:Ee.
  { apply String.eqb_eq in Ee as ->. rewrite H1, H2.
    split; (split; [intros [? ?]; split; [done|by left]|]);
      intros [? [?|[_ [= <-]]]]; by split. }
  apply String.eqb_neq in Ee. unfold index_name, name_index, index_map_insert in *. simpl.
  rewrite !lookup_insert_Some, H1, H2. split; split.
  - intros [[<- <-]|[Hne [? ?]]]; (split; [done|]); [by right|by left].
  - intros [? [(m & Hm & <- & Em)|[<- [= <-]]]]; [|by left]. right. split; [|eauto].
    intros E. by apply (Hix m).
  - intros [[<- <-]|[Hne [? ?]]]; (split; [done|]); [by right|by left].
  - intros [? [(m & Hm & <- & Em)|[<- [= <-]]]]; [|by left]. right. split; [|eauto].
    intros ->. by apply (Hnx m n).
Qed.
