(* ===== verification/NetlinkAddr.v ===== *)
(** * NetlinkAddr: addresses of the kernel

    [src/lib/netlink/addr.rs]: the addresses read out of messages, their life times, and the
    changes an IP section asks for.  The theorems run the changes on a list of addresses, as
    the kernel keeps one: an address is one with its prefix length, adding it again changes
    its life times and leaves it where it is. *)

From S2P Require Export Netlink.

#[local] Open Scope Z_scope.
#[local] Abbreviation prefix_length := IpConfig.prefix_length.

(** ** Life times *)

Definition U32_MAX : Z := 4294967295.

Definition lifetime_to_string (left_time : Z) : string :=
  if left_time =? U32_MAX then FOREVER else String.append (unsigned_string left_time) "sec".

Definition is_forever (life_time : option string) : bool :=
  match life_time with None => true | Some t => String.eqb t "" || String.eqb t FOREVER end.

(** [str::strip_suffix]. *)
Fixpoint strip_suffix (suffix s : string) : option string :=
  if String.eqb s suffix then Some ""
  else match s with "" => None | String c s' => String c <$> strip_suffix suffix s' end.

Definition parse_lifetime (value : option string) : res Z :=
  match value with
  | None => Ok U32_MAX
  | Some value =>
      if String.eqb value "" || String.eqb value FOREVER then Ok U32_MAX
      else match strip_suffix "sec" value with
           | None => fail InvalidArgument
           | Some n => match parse_unsigned U32_MAX n with
                       | Some n => Ok n
                       | None => fail InvalidArgument
                       end
           end
  end.

(** [cache_info_from_lifetimes]: the preferred and the valid life time. *)
Definition cache_info_from_lifetimes (address : InterfaceIpAddr) : res (option (Z * Z)) :=
  if is_forever (valid_life_time address) && is_forever (preferred_life_time address) then Ok None
  else
    let? preferred := parse_lifetime (preferred_life_time address) in
    let? valid := parse_lifetime (valid_life_time address) in
    Ok (Some (preferred, valid)).

(** ** Reading addresses *)

Record AddressInfo : Type := address_info_of {
  ai_iface_index : Z;
  ai_address : InterfaceIpAddr;
  ai_protocol : option AddressProtocol;
  ai_flags : Z;
}.

(** The loops over the attributes: the last one of a kind counts. *)
Record AddressScan : Type := address_scan {
  as_address : option IpAddr;
  as_local : option IpAddr;
  as_valid : string;
  as_preferred : string;
  as_protocol : option AddressProtocol;
  as_flags : Z;
}.

Definition scan_address (s : AddressScan) (attribute : AddressAttribute) : AddressScan :=
  match attribute with
  | AaAddress a => address_scan (Some a) (as_local s) (as_valid s) (as_preferred s) (as_protocol s) (as_flags s)
  | AaLocal a => address_scan (as_address s) (Some a) (as_valid s) (as_preferred s) (as_protocol s) (as_flags s)
  | AaCacheInfo preferred valid =>
      address_scan (as_address s) (as_local s) (lifetime_to_string valid) (lifetime_to_string preferred)
        (as_protocol s) (as_flags s)
  | AaProtocol p =>
      address_scan (as_address s) (as_local s) (as_valid s) (as_preferred s) (Some p) (as_flags s)
  | AaFlags f => address_scan (as_address s) (as_local s) (as_valid s) (as_preferred s) (as_protocol s) f
  | AaOther => s
  end.

Definition scan_addresses (message : AddressMessage) : AddressScan :=
  foldl scan_address (address_scan None None "" "" None 0) (am_attributes message).

Definition address_info_for (message : AddressMessage) (addr : IpAddr) (prefix : Z) : AddressInfo :=
  let s := scan_addresses message in
  address_info_of (am_index message)
    (iface_ip_addr addr prefix (Some (as_valid s)) (Some (as_preferred s))) (as_protocol s) (as_flags s).

Definition ipv4_address_info (message : AddressMessage) : option AddressInfo :=
  let s := scan_addresses message in
  match option_or (as_local s) (as_address s) with
  | Some address =>
      if is_ipv4 address then Some (address_info_for message address (am_prefix_len message)) else None
  | None => None
  end.

(** The local address of a point-to-point link is a host. *)
Definition ipv6_address_info (message : AddressMessage) : option AddressInfo :=
  let s := scan_addresses message in
  match as_local s with
  | Some local => if is_ipv6 local then Some (address_info_for message local 128) else None
  | None =>
      match as_address s with
      | Some address =>
          if is_ipv6 address then Some (address_info_for message address (am_prefix_len message)) else None
      | None => None
      end
  end.

Definition address_info (message : AddressMessage) : option AddressInfo :=
  match am_family message with
  | Inet => ipv4_address_info message
  | Inet6 => ipv6_address_info message
  | OtherFamily _ => None
  end.

(** [schema_address]: a life time that does not end is not written. *)
Definition schema_life_time (t : option string) : option string :=
  if bool_decide (t = Some FOREVER) then None else t.

Definition schema_address (a : InterfaceIpAddr) : InterfaceIpAddr :=
  iface_ip_addr (ip a) (prefix_length a) (schema_life_time (valid_life_time a))
    (schema_life_time (preferred_life_time a)).

Definition info_ends (info : AddressInfo) : bool :=
  negb (bool_decide (valid_life_time (ai_address info) = Some FOREVER)).

Definition ipv4_infos (infos : list AddressInfo) : list AddressInfo :=
  List.filter (λ info, is_ipv4 (ip (ai_address info))) infos.
Definition ipv6_infos (infos : list AddressInfo) : list AddressInfo :=
  List.filter (λ info, is_ipv6 (ip (ai_address info))) infos.

Definition ipv4_from_address_infos (infos : list AddressInfo) : option InterfaceIpv4 :=
  let infos := ipv4_infos infos in
  match infos with
  | [] => Some ipv4_none
  | _ => Some (iface_ipv4 (Some true) (Some (existsb info_ends infos)) None
                 (Some (map (λ info, schema_address (ai_address info)) infos)) None None None None)
  end.

(** Where an IPv6 address comes from: a host address that ends is one of DHCP. *)
Definition from_ra (info : AddressInfo) : bool := bool_decide (ai_protocol info = Some RouterAnnouncement).
Definition from_dhcpv6 (info : AddressInfo) : bool :=
  negb (from_ra info) && info_ends info && (prefix_length (ai_address info) =? 128).
Definition from_autoconf (info : AddressInfo) : bool :=
  from_ra info || info_ends info && negb (prefix_length (ai_address info) =? 128).

Definition given (b : bool) : option bool := if b then Some true else None.

Definition ipv6_from_address_infos (infos : list AddressInfo) : option InterfaceIpv6 :=
  let infos := ipv6_infos infos in
  match infos with
  | [] => Some ipv6_none
  | _ =>
      let dhcp := existsb from_dhcpv6 infos in
      let autoconf := existsb from_autoconf infos in
      let addresses := Some (map (λ info, schema_address (ai_address info)) infos) in
      if negb autoconf && negb dhcp
      then Some (iface_ipv6 (Some true) (Some false) None (Some false) addresses)
      else Some (iface_ipv6 (Some true) (given dhcp) None (given autoconf) addresses)
  end.

(** [grouped]: the infos of a link in the order of the messages. *)
Definition group_info (family : IpAddr → bool) (m : gmap Z (list AddressInfo)) (info : AddressInfo) :
    gmap Z (list AddressInfo) :=
  if family (ip (ai_address info))
  then <[ai_iface_index info := default [] (m !! ai_iface_index info) ++ [info]]> m
  else m.

Definition grouped (family : IpAddr → bool) (messages : list AddressMessage) : gmap Z (list AddressInfo) :=
  foldl (group_info family) ∅ (omap address_info messages).

Definition ipv4_map_from_messages (messages : list AddressMessage) : gmap Z InterfaceIpv4 :=
  (λ infos, default ipv4_none (ipv4_from_address_infos infos)) <$> grouped is_ipv4 messages.
Definition ipv6_map_from_messages (messages : list AddressMessage) : gmap Z InterfaceIpv6 :=
  (λ infos, default ipv6_none (ipv6_from_address_infos infos)) <$> grouped is_ipv6 messages.

(** ** Changes *)

Record AddressAction : Type := address_action {
  aa_address : InterfaceIpAddr;
  aa_remove : bool;
  aa_protocol : option AddressProtocol;
}.

Definition removes (l : list InterfaceIpAddr) : list AddressAction :=
  map (λ a, address_action a true None) l.
Definition adds (l : list InterfaceIpAddr) : list AddressAction :=
  map (λ a, address_action a false None) l.

Definition is_appending (des_addrs cur_addrs : list InterfaceIpAddr) : bool :=
  (length cur_addrs <? length des_addrs)%nat &&
  bool_decide (take (length cur_addrs) des_addrs = cur_addrs).

Definition same_id (a b : InterfaceIpAddr) : bool :=
  bool_decide (ip a = ip b) && (prefix_length a =? prefix_length b).

Definition is_replacing (des_addrs cur_addrs : list InterfaceIpAddr) : bool :=
  (length cur_addrs =? length des_addrs)%nat &&
  forallb (λ des_addr, existsb (same_id des_addr) cur_addrs) des_addrs.

Definition address_list_actions (des_addrs cur_addrs : list InterfaceIpAddr) : list AddressAction :=
  if is_appending des_addrs cur_addrs then
    removes (List.filter (λ a, negb (bool_decide (a ∈ des_addrs))) cur_addrs) ++
    adds (List.filter (λ a, negb (bool_decide (a ∈ cur_addrs))) des_addrs)
  else if is_replacing des_addrs cur_addrs then adds des_addrs
  else removes cur_addrs ++ adds des_addrs.

(** The addresses of an enabled section. *)
Definition live4 (ipv4 : option InterfaceIpv4) : list InterfaceIpAddr :=
  match ipv4 with
  | Some ipv4 => if ipv4_is_enabled ipv4 then default [] (v4_addresses ipv4) else []
  | None => []
  end.
Definition live6 (ipv6 : option InterfaceIpv6) : list InterfaceIpAddr :=
  match ipv6 with
  | Some ipv6 => if ipv6_is_enabled ipv6 then default [] (v6_addresses ipv6) else []
  | None => []
  end.

(** The link-local addresses stay while IPv6 is enabled. *)
Definition removable6 (des_ipv6 : InterfaceIpv6) (cur : option InterfaceIpv6) : list InterfaceIpAddr :=
  List.filter (λ a, if ipv6_is_enabled des_ipv6 then negb (is_link_local_addr a) else true) (live6 cur).

Definition ipv4_actions (des cur : option InterfaceIpv4) : list AddressAction :=
  match des with
  | Some des_ipv4 =>
      if bool_decide (des = cur) then [] else address_list_actions (live4 des) (live4 cur)
  | None => []
  end.
Definition ipv6_actions (des cur : option InterfaceIpv6) : list AddressAction :=
  match des with
  | Some des_ipv6 =>
      if bool_decide (des = cur) then []
      else address_list_actions (live6 des) (removable6 des_ipv6 cur)
  | None => []
  end.

Definition ip_address_actions (des_iface : BaseInterface) (cur_iface : option BaseInterface) :
    list AddressAction :=
  if state_is_absent (bi_state des_iface) then []
  else
    let cur_iface := default (base_clone_name_type_only des_iface) cur_iface in
    ipv4_actions (bi_ipv4 des_iface) (bi_ipv4 cur_iface) ++
    ipv6_actions (bi_ipv6 des_iface) (bi_ipv6 cur_iface).

(** ** Messages *)

Definition validate_prefix_length (address : InterfaceIpAddr) : res () :=
  if (if is_ipv4 (ip address) then 32 else 128) <? prefix_length address
  then fail InvalidArgument else Ok ().

Definition address_del_message (index : Z) (address : InterfaceIpAddr)
    (protocol : option AddressProtocol) : res AddressMessage :=
  let? _ := validate_prefix_length address in
  Ok (address_message (match ip address with V4 _ => Inet | V6 _ => Inet6 end) (prefix_length address) index
        (AaAddress (ip address) :: match protocol with Some p => [AaProtocol p] | None => [] end)).

Definition address_extra_attributes (address : InterfaceIpAddr) (protocol : option AddressProtocol) :
    res (list AddressAttribute) :=
  let? cache_info := cache_info_from_lifetimes address in
  Ok (match protocol with Some p => [AaProtocol p] | None => [] end ++
      match cache_info with Some (preferred, valid) => [AaCacheInfo preferred valid] | None => [] end).

Section Apply.
Context {K : Type} `{!Rtnetlink K}.

Definition run_action (index : Z) (action : AddressAction) : Eff K () :=
  if aa_remove action then
    message ← eff_res (address_del_message index (aa_address action) (aa_protocol action));
    change (Some EADDRNOTAVAIL) (nl_del_address message)
  else
    attributes ← eff_res (address_extra_attributes (aa_address action) (aa_protocol action));
    change None (nl_add_address index (ip (aa_address action)) (prefix_length (aa_address action)) attributes).

Definition apply_address_actions (index : Z) (actions : list AddressAction) : Eff K () :=
  eff_each (run_action index) actions.

Definition apply_iface_ip_changes (des_iface : BaseInterface) (cur_iface : option BaseInterface) :
    Eff K () :=
  match ip_address_actions des_iface cur_iface with
  | [] => mret ()
  | actions =>
      _ ← new_connection;
      index_map ← get_index_map;
      match name_index index_map (bi_name des_iface) with
      | None => eff_fail InvalidArgument
      | Some index => apply_address_actions index actions
      end
  end.

Definition get_address_messages : Eff K (list AddressMessage) :=
  _ ← new_connection; dump nl_addresses.

Definition has_link_local_addr (iface_name : string) : Eff K bool :=
  _ ← new_connection;
  index_map ← get_index_map;
  match name_index index_map iface_name with
  | None => mret false
  | Some index =>
      messages ← dump nl_addresses;
      mret (existsb (λ info, is_link_local_addr (ai_address info))
              (omap address_info (List.filter (λ m, am_index m =? index) messages)))
  end.

End Apply.

(** ** Life times are kept *)

Lemma strip_suffix_unfold suffix s :
  strip_suffix suffix s =
    if String.eqb s suffix then Some ""
    else match s with "" => None | String c s' => String c <$> strip_suffix suffix s' end.
Proof. by destruct s. Qed.

Lemma strip_suffix_app suffix s :
  strip_suffix suffix (String.append s suffix) = Some s.
Proof.
  induction s as [|c s IH]; rewrite strip_suffix_unfold; [simpl; by rewrite String.eqb_refl|].
  cbn [String.append]. destruct (String.eqb _ suffix) eqn:E.
  2: { cbn [String.append] in IH. exact (f_equal (fmap (String c)) IH). }
  apply String.eqb_eq in E. apply (f_equal String.length) in E. simpl in E.
  rewrite string_length_app in E. lia.
Qed.

Lemma finite_life_time n :
  0 ≤ n → let t := String.append (unsigned_string n) "sec" in
  String.eqb t "" = false ∧ String.eqb t FOREVER = false.
Proof.
  intros Hn t. subst t. destruct (decimal_digits_spec n Hn) as (_ & Hd & Hne).
  unfold unsigned_string. destruct (decimal_digits n) as [|d ds]; [done|].
  apply Forall_cons in Hd as [Hd _]. split; [done|].
  assert (to_digit 10 (digit_char d) = Some d) as H by (apply digit_chars_ok; [by left|done]).
  cbn [digits_string foldr String.append String.eqb FOREVER].
  by destruct (digit_char d) as [[] [] [] [] [] [] [] []].
Qed.

Lemma parse_lifetime_to_string n : 0 ≤ n ≤ U32_MAX → parse_lifetime (Some (lifetime_to_string n)) = Ok n.
Proof.
  intros Hn. unfold parse_lifetime, lifetime_to_string. destruct (n =? U32_MAX) eqn:E; bool_hyps; [by subst|].
  destruct (finite_life_time n) as [-> ->]; [lia|]. simpl.
  rewrite strip_suffix_app. by rewrite parse_unsigned_string.
Qed.

Lemma is_forever_to_string n : 0 ≤ n → is_forever (Some (lifetime_to_string n)) = (n =? U32_MAX).
Proof.
  intros Hn. unfold lifetime_to_string. destruct (n =? U32_MAX) eqn:E; [done|]. unfold is_forever.
  by destruct (finite_life_time n) as [-> ->].
Qed.

Lemma schema_life_time_forever t : is_forever (schema_life_time t) = is_forever t.
Proof. unfold schema_life_time. case_bool_decide; [by subst|done]. Qed.

Lemma parse_schema_life_time t : parse_lifetime (schema_life_time t) = parse_lifetime t.
Proof. unfold schema_life_time. case_bool_decide; [by subst|done]. Qed.

(** The life times of a message. *)
Definition message_life_times (message : AddressMessage) : option (Z * Z) :=
  foldl (λ acc attr, match attr with AaCacheInfo p v => Some (p, v) | _ => acc end) None
    (am_attributes message).

Lemma scan_life_times attrs : ∀ s acc,
  (as_valid s, as_preferred s) = match acc with
                                 | Some (p, v) => (lifetime_to_string v, lifetime_to_string p)
                                 | None => ("", "")
                                 end →
  let s' := foldl scan_address s attrs in
  (as_valid s', as_preferred s') =
    match foldl (λ acc attr, match attr with AaCacheInfo p v => Some (p, v) | _ => acc end) acc attrs with
    | Some (p, v) => (lifetime_to_string v, lifetime_to_string p)
    | None => ("", "")
    end.
Proof. induction attrs as [|attr attrs IH]; intros s acc Hs; [done|]. apply IH. by destruct attr. Qed.

Lemma address_info_for_of message info :
  address_info message = Some info → ∃ addr prefix, info = address_info_for message addr prefix.
Proof.
  unfold address_info, ipv4_address_info, ipv6_address_info. intros H.
  destruct (am_family message); [| |done].
  - destruct (option_or _ _) as [a|]; [|done]. destruct (is_ipv4 a); [|done]. injection H as <-. eauto.
  - destruct (as_local _) as [a|].
    + destruct (is_ipv6 a); [|done]. injection H as <-. eauto.
    + destruct (as_address _) as [a|]; [|done]. destruct (is_ipv6 a); [|done]. injection H as <-. eauto.
Qed.

(** An address that was read from the kernel and is applied again is given the life times
    it had; none are given to one that does not end, which the kernel takes for the same. *)
Theorem life_times_roundtrip message info :
  address_info message = Some info →
  (∀ p v, message_life_times message = Some (p, v) → 0 ≤ p ≤ U32_MAX ∧ 0 ≤ v ≤ U32_MAX) →
  cache_info_from_lifetimes (schema_address (ai_address info)) =
    Ok (match message_life_times message with
        | Some (p, v) => if (p =? U32_MAX) && (v =? U32_MAX) then None else Some (p, v)
        | None => None
        end).
Proof.
  intros (addr & prefix & ->)%address_info_for_of Hr.
  pose proof (scan_life_times (am_attributes message) (address_scan None None "" "" None 0) None eq_refl) as H.
  fold (message_life_times message) in H. fold (scan_addresses message) in H. simpl in H.
  unfold cache_info_from_lifetimes. cbn [schema_address address_info_for ai_address
    IpConfig.valid_life_time IpConfig.preferred_life_time].
  rewrite !schema_life_time_forever, !parse_schema_life_time.
  destruct (message_life_times message) as [[p v]|]; injection H as -> ->; [|done].
  destruct (Hr p v eq_refl). rewrite !is_forever_to_string, !parse_lifetime_to_string by lia.
  rewrite andb_comm. by destruct (_ && _).
Qed.

Definition ex_live_message : AddressMessage :=
  address_message Inet 24 2 [AaAddress (V4 3221225985); AaCacheInfo 1800 3600].

Lemma life_times_roundtrip_witness :
  match address_info ex_live_message with
  | Some info => cache_info_from_lifetimes (schema_address (ai_address info)) = Ok (Some (1800, 3600))
  | None => False
  end.
Proof.
  destruct (address_info ex_live_message) as [info|] eqn:E; [|discriminate E].
  rewrite (life_times_roundtrip ex_live_message info E); [reflexivity|].
  intros p v [= <- <-]. unfold U32_MAX. lia.
Defined.

(** ** Where the changes lead *)

(** The kernel: [NLM_F_REPLACE] changes an address that is there in its place. *)
Definition put_address (a : InterfaceIpAddr) (l : list InterfaceIpAddr) : list InterfaceIpAddr :=
  if existsb (same_id a) l then map (λ x, if same_id a x then a else x) l else l ++ [a].

Definition step_address (l : list InterfaceIpAddr) (action : AddressAction) : list InterfaceIpAddr :=
  if aa_remove action then List.filter (λ x, negb (same_id (aa_address action) x)) l
  else put_address (aa_address action) l.

Definition run_actions (l : list InterfaceIpAddr) (actions : list AddressAction) : list InterfaceIpAddr :=
  foldl step_address l actions.

Definition ids (l : list InterfaceIpAddr) : list (IpAddr * Z) := addr_id <$> l.

Lemma ids_cons a l : ids (a :: l) = addr_id a :: ids l.
Proof. done. Qed.

Lemma ids_app l k : ids (l ++ k) = ids l ++ ids k.
Proof. apply fmap_app. Qed.

Lemma length_ids l : length (ids l) = length l.
Proof. apply length_fmap. Qed.

Lemma same_id_true a b : same_id a b = true ↔ addr_id a = addr_id b.
Proof.
  unfold same_id, addr_id. rewrite andb_true_iff, bool_decide_eq_true, Z.eqb_eq.
  split; [by intros [-> ->]|by intros [= -> ->]].
Qed.

Lemma same_id_false a b : same_id a b = false ↔ addr_id a ≠ addr_id b.
Proof. by rewrite <-not_true_iff_false, same_id_true. Qed.

Lemma elem_of_ids a (l : list InterfaceIpAddr) : addr_id a ∈ ids l ↔ ∃ b, b ∈ l ∧ addr_id b = addr_id a.
Proof. unfold ids. rewrite list_elem_of_fmap. split; intros (b & H1 & H2); eauto. Qed.

Lemma ids_inj (l : list InterfaceIpAddr) a b :
  NoDup (ids l) → a ∈ l → b ∈ l → addr_id a = addr_id b → a = b.
Proof.
  induction l as [|x l IH]; [by intros _ ?%elem_of_nil|]. intros [Hx Hl]%NoDup_cons Ha Hb E.
  apply elem_of_cons in Ha as [->|Ha], Hb as [->|Hb]; [done| | |by apply IH].
  - destruct Hx. apply elem_of_ids. eauto.
  - destruct Hx. apply elem_of_ids. eauto.
Qed.

Lemma existsb_same_id a (l : list InterfaceIpAddr) : existsb (same_id a) l = true ↔ addr_id a ∈ ids l.
Proof.
  rewrite existsb_elem_of, elem_of_ids. split; intros (b & Hb & E); exists b; (split; [done|]);
    [by apply same_id_true in E|by apply same_id_true].
Qed.

Lemma ids_put a l :
  ids (put_address a l) = if existsb (same_id a) l then ids l else ids l ++ [addr_id a].
Proof.
  unfold put_address. destruct (existsb (same_id a) l) eqn:E; [|by rewrite ids_app].
  clear E. induction l as [|x l IH]; [done|]. cbn [map]. rewrite !ids_cons, IH. f_equal.
  destruct (same_id a x) eqn:E; [by apply same_id_true|done].
Qed.

Lemma NoDup_put a l : NoDup (ids l) → NoDup (ids (put_address a l)).
Proof.
  intros H. rewrite ids_put. destruct (existsb (same_id a) l) eqn:E; [done|]. apply NoDup_app. split_and!;
    [done| |apply NoDup_singleton].
  intros x Hx ->%list_elem_of_singleton. apply existsb_same_id in Hx. congruence.
Qed.

Lemma elem_of_put a l x :
  x ∈ put_address a l ↔ x = a ∨ x ∈ l ∧ addr_id x ≠ addr_id a.
Proof.
  unfold put_address. destruct (existsb (same_id a) l) eqn:E.
  - rewrite list_elem_of_In, in_map_iff. split.
    + intros (y & <- & Hy%list_elem_of_In). destruct (same_id a y) eqn:Ey; [by left|right].
      split; [done|]. apply same_id_false in Ey. congruence.
    + apply existsb_elem_of in E as (y & Hy & Ey). intros [->|[Hx Hne]].
      * exists y. rewrite Ey. split; [done|by apply list_elem_of_In].
      * exists x. split; [|by apply list_elem_of_In].
        destruct (same_id a x) eqn:Ex; [|done]. apply same_id_true in Ex. congruence.
  - rewrite elem_of_app, list_elem_of_singleton. split.
    + intros [Hx| ->]; [right|by left]. split; [done|]. intros Eid.
      apply not_true_iff_false in E. apply E, existsb_same_id, elem_of_ids. eauto.
    + intros [->|[Hx _]]; [by right|by left].
Qed.

Lemma run_actions_app l x y : run_actions l (x ++ y) = run_actions (run_actions l x) y.
Proof. unfold run_actions. by rewrite foldl_app. Qed.

Lemma elem_of_remove a x l :
  x ∈ List.filter (λ x, negb (same_id a x)) l ↔ x ∈ l ∧ addr_id x ≠ addr_id a.
Proof.
  rewrite list_elem_of_In, filter_In, <-list_elem_of_In, negb_true_iff, same_id_false. split; intros [? H]; auto.
Qed.

Lemma NoDup_ids_filter f l : NoDup (ids l) → NoDup (ids (List.filter f l)).
Proof.
  induction l as [|x l IH]; [done|]. intros [Hx Hl]%NoDup_cons. cbn [List.filter]. destruct (f x); [|by apply IH].
  apply NoDup_cons. split; [|by apply IH]. intros (y & Hy & E)%elem_of_ids. apply Hx.
  apply list_elem_of_In, filter_In in Hy as [Hy _]. apply elem_of_ids. exists y.
  by rewrite list_elem_of_In.
Qed.

Lemma run_removes l c :
  NoDup (ids l) → NoDup (ids (run_actions l (removes c))) ∧
  ∀ x, x ∈ run_actions l (removes c) ↔ x ∈ l ∧ addr_id x ∉ ids c.
Proof.
  revert l. induction c as [|a c IH]; intros l Hl.
  { split; [done|]. intros x. simpl. split; [intros H; split; [done|apply not_elem_of_nil]|by intros [? _]]. }
  destruct (IH (step_address l (address_action a true None))) as [H1 H2]; [by apply NoDup_ids_filter|].
  split; [exact H1|]. intros x. etrans; [apply H2|]. unfold step_address. simpl.
  rewrite elem_of_remove, elem_of_cons. tauto.
Qed.

Lemma run_adds d : ∀ l, NoDup (ids l) → NoDup (ids d) →
  NoDup (ids (run_actions l (adds d))) ∧
  ∀ x, x ∈ run_actions l (adds d) ↔ x ∈ d ∨ x ∈ l ∧ addr_id x ∉ ids d.
Proof.
  induction d as [|a d IH]; intros l Hl Hd.
  { split; [done|]. intros x. simpl. split; [intros H; right; split; [done|apply not_elem_of_nil]|].
    by intros [?%elem_of_nil|[? _]]. }
  rewrite ids_cons in Hd. apply NoDup_cons in Hd as [Ha Hd].
  destruct (IH (put_address a l)) as [H1 H2]; [by apply NoDup_put|done|]. split; [exact H1|].
  intros x. etrans; [apply H2|]. rewrite elem_of_put, ids_cons, !elem_of_cons. split.
  - intros [Hx|[[->|[Hx Hne]] Hn]]; [by left; right|by left; left|right; tauto].
  - intros [[->|Hx]|[Hx Hn]]; [right; split; [by left|done]|by left|right]. tauto.
Qed.

(** Adding addresses that are not there appends them in order. *)
Lemma run_adds_fresh d : ∀ l, NoDup (ids (l ++ d)) → run_actions l (adds d) = l ++ d.
Proof.
  induction d as [|a d IH]; intros l H; [by rewrite app_nil_r|].
  change (run_actions l (adds (a :: d))) with (run_actions (put_address a l) (adds d)).
  assert (put_address a l = l ++ [a]) as ->.
  { unfold put_address. destruct (existsb (same_id a) l) eqn:E; [|done]. apply existsb_same_id in E.
    rewrite ids_app in H. apply NoDup_app in H as (_ & H & _). destruct (H _ E).
    rewrite ids_cons. by left. }
  rewrite IH; rewrite <-(assoc_L (++)); done.
Qed.

Lemma appending_split des cur :
  is_appending des cur = true → ∃ rest, des = cur ++ rest.
Proof.
  unfold is_appending. intros [_ H%bool_decide_eq_true]%andb_true_iff.
  exists (drop (length cur) des). rewrite <-H at 1. by rewrite take_drop.
Qed.

Lemma filter_const {A} (f : A → bool) b l :
  (∀ x, x ∈ l → f x = b) → List.filter f l = if b then l else [].
Proof.
  induction l as [|x l IH]; intros H; [by destruct b|]. simpl. rewrite H, IH by set_solver. by destruct b.
Qed.

(** While the addresses are only extended, nothing is removed. *)
Lemma appending_actions cur rest :
  NoDup (ids (cur ++ rest)) → is_appending (cur ++ rest) cur = true →
  address_list_actions (cur ++ rest) cur = adds rest.
Proof.
  intros Hn Happ. unfold address_list_actions. rewrite Happ, List.filter_app.
  rewrite (filter_const _ false cur); [|intros x Hx; rewrite bool_decide_eq_true_2 by set_solver; done].
  rewrite (filter_const _ false cur); [|intros x Hx; rewrite bool_decide_eq_true_2 by set_solver; done].
  rewrite (filter_const _ true rest); [done|]. intros x Hx. rewrite bool_decide_eq_false_2; [done|].
  intros Hc. rewrite ids_app in Hn. apply NoDup_app in Hn as (_ & Hd & _).
  apply (Hd (addr_id x)); apply elem_of_ids; eauto.
Qed.

(** A replaced list has the same addresses. *)
Lemma replacing_ids des cur :
  NoDup (ids des) → is_replacing des cur = true → ids des ≡ₚ ids cur.
Proof.
  unfold is_replacing. intros Hn [Hl%Nat.eqb_eq Hf]%andb_true_iff. rewrite forallb_forall in Hf.
  apply submseteq_length_Permutation; [|by rewrite !length_ids, Hl].
  apply NoDup_submseteq; [done|]. intros i (a & -> & Ha)%list_elem_of_fmap.
  apply existsb_same_id, Hf. by apply list_elem_of_In.
Qed.

Lemma run_list_actions des cur l :
  NoDup (ids l) → NoDup (ids des) → (∀ x, x ∈ cur → x ∈ l) →
  NoDup (ids (run_actions l (address_list_actions des cur))) ∧
  ∀ x, x ∈ run_actions l (address_list_actions des cur) ↔
    x ∈ des ∨ x ∈ l ∧ (addr_id x ∉ ids des) ∧ (addr_id x ∉ ids cur).
Proof.
  intros Hl Hd Hc. destruct (is_appending des cur) eqn:Ea.
  { pose proof (appending_split _ _ Ea) as [rest ->]. rewrite appending_actions by done.
    assert (NoDup (ids rest)) as Hr by (rewrite ids_app in Hd; by apply NoDup_app in Hd as (_ & _ & ?)).
    destruct (run_adds rest l Hl Hr) as [H1 H2]. split; [done|]. intros x. rewrite H2, elem_of_app, ids_app, elem_of_app.
    assert (∀ y, y ∈ cur → addr_id y ∉ ids rest) as Hdis.
    { intros y Hy Hyr. rewrite ids_app in Hd. apply NoDup_app in Hd as (_ & Hd & _).
      apply (Hd (addr_id y)); [|done]. apply elem_of_ids. eauto. }
    split.
    - intros [Hx|[Hx Hn]]; [by left; right|]. destruct (decide (addr_id x ∈ ids cur)) as [Hi|Hi]; [|tauto].
      apply elem_of_ids in Hi as (y & Hy & E). left. left.
      by rewrite (ids_inj l x y) by auto.
    - intros [[Hx|Hx]|(Hx & Hn & _)]; [right; split; [auto|by apply Hdis]|by left|right; tauto]. }
  unfold address_list_actions. rewrite Ea. destruct (is_replacing des cur) eqn:Er.
  - destruct (run_adds des l Hl Hd) as [H1 H2]. split; [done|]. intros x. rewrite H2.
    rewrite <-(replacing_ids _ _ Hd Er). tauto.
  - destruct (run_removes l cur Hl) as [H1 H2]. rewrite run_actions_app.
    destruct (run_adds des _ H1 Hd) as [H3 H4]. split; [done|]. intros x. rewrite H4, H2. tauto.
Qed.

(** Unless the addresses are those that are there, they end in the order that is wanted. *)
Lemma run_list_actions_order des cur :
  NoDup (ids cur) → NoDup (ids des) → is_replacing des cur = false →
  run_actions cur (address_list_actions des cur) = des.
Proof.
  intros Hc Hd Hr. destruct (is_appending des cur) eqn:Ea.
  { pose proof (appending_split _ _ Ea) as [rest ->]. rewrite appending_actions by done.
    by apply run_adds_fresh. }
  unfold address_list_actions. rewrite Ea, Hr, run_actions_app.
  destruct (run_removes cur cur Hc) as [_ H].
  assert (run_actions cur (removes cur) = []) as ->.
  { destruct (run_actions cur (removes cur)) as [|x l] eqn:E; [done|].
    destruct (proj1 (H x)) as [Hx Hn]; [by left|]. destruct Hn. apply elem_of_ids. eauto. }
  by rewrite run_adds_fresh.
Qed.

(** The addresses of a section are of its family. *)
Definition families_ok (b : BaseInterface) : Prop :=
  (∀ a, a ∈ live4 (bi_ipv4 b) → is_ipv6 (ip a) = false) ∧
  (∀ a, a ∈ live6 (bi_ipv6 b) → is_ipv6 (ip a) = true).

Definition live_addresses (b : BaseInterface) : list InterfaceIpAddr :=
  live4 (bi_ipv4 b) ++ live6 (bi_ipv6 b).

(** What is wanted: a section that is not given is left alone. *)
Definition wanted4 (des cur : option InterfaceIpv4) : list InterfaceIpAddr :=
  if des is Some _ then live4 des else live4 cur.
Definition wanted6 (des cur : option InterfaceIpv6) : list InterfaceIpAddr :=
  if des is Some _ then live6 des else live6 cur.

Definition kept_link_local (des cur : option InterfaceIpv6) (x : InterfaceIpAddr) : Prop :=
  (∃ d, des = Some d ∧ ipv6_is_enabled d = true) ∧ x ∈ live6 cur ∧ is_link_local_addr x = true ∧
  addr_id x ∉ ids (live6 des).

Lemma family_not_in x l v :
  is_ipv6 (ip x) = negb v → (∀ a, a ∈ l → is_ipv6 (ip a) = v) → addr_id x ∉ ids l.
Proof.
  intros Hx Hl (b & Hb & E)%elem_of_ids. apply Hl in Hb. unfold addr_id in E.
  injection E as E _. rewrite E, Hx in Hb. by destruct v.
Qed.

Lemma ids_of_app l k : NoDup (ids (l ++ k)) → NoDup (ids l) ∧ NoDup (ids k).
Proof. rewrite ids_app. intros (? & _ & ?)%NoDup_app. done. Qed.

Lemma elem_of_removable6 d cur x :
  x ∈ removable6 d cur ↔
    x ∈ live6 cur ∧ ¬ (ipv6_is_enabled d = true ∧ is_link_local_addr x = true).
Proof.
  unfold removable6. rewrite list_elem_of_In, filter_In, <-list_elem_of_In.
  destruct (ipv6_is_enabled d), (is_link_local_addr x); simpl; naive_solver.
Qed.

Lemma run_ipv4_actions des cur rest :
  NoDup (ids (live4 cur ++ rest)) → NoDup (ids (live4 des)) →
  (∀ a, a ∈ live4 des ∨ a ∈ live4 cur → is_ipv6 (ip a) = false) →
  (∀ a, a ∈ rest → is_ipv6 (ip a) = true) →
  let l := run_actions (live4 cur ++ rest) (ipv4_actions des cur) in
  NoDup (ids l) ∧ ∀ x, x ∈ l ↔ x ∈ wanted4 des cur ∨ x ∈ rest.
Proof.
  intros Hl Hd H4 H6. unfold ipv4_actions, wanted4. destruct des as [d|].
  2: { split; [done|]. intros x. simpl. by rewrite elem_of_app. }
  case_bool_decide as E.
  { split; [done|]. intros x. simpl run_actions. by rewrite E, elem_of_app. }
  destruct (run_list_actions (live4 (Some d)) (live4 cur) (live4 cur ++ rest) Hl Hd) as [H1 H2].
  { intros x Hx. apply elem_of_app. by left. }
  split; [done|]. intros x. rewrite H2, elem_of_app. split.
  - intros [Hx|([Hx|Hx] & _ & Hn)]; [by left| |by right]. destruct Hn. apply elem_of_ids. eauto.
  - intros [Hx|Hx]; [by left|right]. split_and!; [by right|..];
      (eapply (family_not_in x _ false); [by apply H6|]); auto.
Qed.

Lemma run_ipv6_actions des cur l (want : list InterfaceIpAddr) :
  NoDup (ids l) → (∀ x, x ∈ l ↔ x ∈ want ∨ x ∈ live6 cur) → NoDup (ids (live6 des)) →
  (∀ a, a ∈ live6 des ∨ a ∈ live6 cur → is_ipv6 (ip a) = true) →
  (∀ a, a ∈ want → is_ipv6 (ip a) = false) →
  ∀ x, x ∈ run_actions l (ipv6_actions des cur) ↔
    x ∈ want ∨ x ∈ wanted6 des cur ∨ kept_link_local des cur x.
Proof.
  intros Hl Hw Hd H6 H4 x. unfold ipv6_actions, wanted6. destruct des as [d|].
  2: { simpl. rewrite Hw. split; [tauto|]. intros [?|[?|[(? & [=] & _) _]]]; tauto. }
  case_bool_decide as E.
  { simpl run_actions. rewrite Hw, E. split; [tauto|]. intros [?|[?|(_ & ? & _)]]; tauto. }
  destruct (run_list_actions (live6 (Some d)) (removable6 d cur) l Hl Hd) as [_ H2].
  { intros y [Hy _]%elem_of_removable6. apply Hw. by right. }
  rewrite H2, Hw. split.
  - intros [Hx|([Hx|Hx] & Hn & Hr)]; [by right; left|by left|right; right].
    destruct (decide (ipv6_is_enabled d = true ∧ is_link_local_addr x = true)) as [[He Hll]|Hnl].
    + split; [eauto|done].
    + destruct Hr. apply elem_of_ids. exists x. by rewrite elem_of_removable6.
  - intros [Hx|[Hx|((d' & [= <-] & He) & Hx & Hll & Hn)]]; [|by left|].
    + right. split; [by left|]. split; eapply (family_not_in x _ true); try by apply H4.
      { intros a Ha. apply H6. by left. }
      intros a [Ha _]%elem_of_removable6. apply H6. by right.
    + right. split; [by right|]. split; [done|]. intros (y & Hy & Eid)%elem_of_ids.
      apply elem_of_removable6 in Hy as [Hy Hnl]. destruct Hnl.
      assert (y = x) as ->; [|done]. apply (ids_inj l); [done|apply Hw; by right|apply Hw; by right|done].
Qed.

(** C9: The changes asked of the kernel lead from the addresses an interface has to those it
    is to have: the addresses of a given section are there and no other of its family, but
    for the link-local addresses of an enabled IPv6; a section that is not given is left as
    it is; and, unless they are the same addresses in another order, those of IPv4 end in the
    order in which they were given. *)
Theorem ip_changes_converge des cur :
  state_is_absent (bi_state des) = false → families_ok des → families_ok cur →
  NoDup (ids (live_addresses des)) → NoDup (ids (live_addresses cur)) →
  (∀ x, x ∈ run_actions (live_addresses cur) (ip_address_actions des (Some cur)) ↔
     x ∈ wanted4 (bi_ipv4 des) (bi_ipv4 cur) ∨ x ∈ wanted6 (bi_ipv6 des) (bi_ipv6 cur) ∨
     kept_link_local (bi_ipv6 des) (bi_ipv6 cur) x) ∧
  (is_replacing (live4 (bi_ipv4 des)) (live4 (bi_ipv4 cur)) = false →
   run_actions (live4 (bi_ipv4 cur)) (ipv4_actions (bi_ipv4 des) (bi_ipv4 cur)) =
     wanted4 (bi_ipv4 des) (bi_ipv4 cur)).
Proof.
  intros Hs [Hd4 Hd6] [Hc4 Hc6] Hd Hc. unfold ip_address_actions. rewrite Hs. simpl default.
  pose proof (ids_of_app _ _ Hd) as [Hn4 Hn6]. pose proof (ids_of_app _ _ Hc) as [Hm4 Hm6]. split.
  - intros x. rewrite run_actions_app.
    destruct (run_ipv4_actions (bi_ipv4 des) (bi_ipv4 cur) (live6 (bi_ipv6 cur))) as [H1 H2]; [done..| |done|].
    { intros a [Ha|Ha]; auto. }
    apply run_ipv6_actions; [done..| |].
    + intros a [Ha|Ha]; auto.
    + intros a Ha. unfold wanted4 in Ha. destruct (bi_ipv4 des); auto.
  - intros Hr. unfold ipv4_actions, wanted4. destruct (bi_ipv4 des) as [d|]; [|done].
    case_bool_decide as E; [by rewrite <-E|]. by apply run_list_actions_order.
Qed.

Definition ex_addressed (l : list InterfaceIpAddr) : BaseInterface :=
  set_bi_ipv6 (Some (iface_ipv6 (Some true) None None None
                       (Some [iface_ip_addr (V6 (0xfe80 * 2 ^ 112 + 1)) 64 None None])))
    (set_bi_ipv4 (Some (iface_ipv4 (Some true) None None (Some l) None None None None))
       (base_new "eth0" TEthernet)).

Lemma ip_changes_converge_witness :
  let des := set_bi_ipv6 (Some ipv6_none) (ex_addressed [ex_addr2]) in
  let cur := ex_addressed [ex_addr1; ex_addr2_live] in
  (∀ x, x ∈ run_actions (live_addresses cur) (ip_address_actions des (Some cur)) ↔
     x ∈ wanted4 (bi_ipv4 des) (bi_ipv4 cur) ∨ x ∈ wanted6 (bi_ipv6 des) (bi_ipv6 cur) ∨
     kept_link_local (bi_ipv6 des) (bi_ipv6 cur) x) ∧
  run_actions (live4 (bi_ipv4 cur)) (ipv4_actions (bi_ipv4 des) (bi_ipv4 cur)) = [ex_addr2].
Proof.
  set (des := set_bi_ipv6 _ _). set (cur := ex_addressed _).
  destruct (ip_changes_converge des cur) as [H1 H2].
  - vm_compute. reflexivity.
  - split; apply Forall_forall; vm_compute; repeat constructor.
  - split; apply Forall_forall; vm_compute; repeat constructor.
  - apply (bool_decide_unpack _). vm_compute. exact I.
  - apply (bool_decide_unpack _). vm_compute. exact I.
  - split; [exact H1|]. apply H2. vm_compute. reflexivity.
Defined.

(** ** Examples *)

(** The same addresses in another order are left in the old one. *)
Example reordered_addresses_stay :
  run_actions [ex_addr1; ex_addr2] (address_list_actions [ex_addr2; ex_addr1] [ex_addr1; ex_addr2]) =
    [ex_addr1; ex_addr2].
Proof. vm_compute. reflexivity. Qed.

(** An address given twice hides that another one is to be removed. *)
Example duplicate_keeps_removed :
  run_actions [ex_addr1; ex_addr2] (address_list_actions [ex_addr1; ex_addr1] [ex_addr1; ex_addr2]) =
    [ex_addr1; ex_addr2].
Proof. vm_compute. reflexivity. Qed.
