(* ===== verification/NetlinkRule.v ===== *)
(** * NetlinkRule: policy routing rules of the kernel

    [src/lib/netlink/rule.rs]: rules read out of messages, and the messages that add and
    remove a rule.  A rule that was added is read back as one that its verification accepts. *)

From S2P Require Export NetlinkAddr.

#[local] Open Scope Z_scope.

Definition U8_MAX : Z := 255.

(** [RouteHeader::RT_TABLE_UNSPEC] and [RT_TABLE_MAIN]. *)
Definition RT_TABLE_UNSPEC : Z := 0.
Definition RT_TABLE_MAIN : Z := 254.

(** Boot, static, unspec. *)
Definition SUPPORTED_STATIC_ROUTE_RULE_PROTOCOL : list Z := [3; 4; 0].

(** ** Reading *)

(** [RuleAction]: the action of the rule, and none for looking up a table. *)
Definition rule_action (action : RuleAction) : option (option RouteRuleAction) :=
  match action with
  | RaToTable => Some None
  | RaBlackhole => Some (Some ABlackhole)
  | RaUnreachable => Some (Some AUnreachable)
  | RaProhibit => Some (Some AProhibit)
  | RaOther _ => None
  end.

(** The loop over the attributes, on the protocol and the rule. *)
Definition scan_rule (message : RuleMessage) (acc : option Z * RouteRuleEntry) (attribute : RuleAttribute) :
    option Z * RouteRuleEntry :=
  let '(protocol, rule) := acc in
  let 'route_rule fam state from to priority table fwmark fwmask action iif suppress := rule in
  match attribute with
  | RuProtocol v => (Some v, rule)
  | RuSource source =>
      (protocol, set_rr_ip_from (Some (network_string source (ru_src_len message))) rule)
  | RuDestination destination =>
      (protocol, set_rr_ip_to (Some (network_string destination (ru_dst_len message))) rule)
  | RuIifname name => (protocol, set_rr_iif (Some name) rule)
  | RuPriority v => (protocol, set_rr_priority (Some v) rule)
  | RuFwMark v =>
      (protocol, route_rule fam state from to priority table (Some v) fwmask action iif suppress)
  | RuFwMask v =>
      (protocol, route_rule fam state from to priority table fwmark (Some v) action iif suppress)
  | RuSuppressPrefixLen v =>
      (protocol,
       if v =? U32_MAX then rule
       else route_rule fam state from to priority table fwmark fwmask action iif (Some v))
  | RuTable v => (protocol, if RT_TABLE_UNSPEC <? v then set_rr_table_id (Some v) rule else rule)
  | RuOther => acc
  end.

Definition rule_family (family : NetFamily) : option AddressFamily :=
  match family with Inet => Some Ipv4 | Inet6 => Some Ipv6 | OtherFamily _ => None end.

Definition route_rule_from_message (message : RuleMessage) : option RouteRuleEntry :=
  match rule_action (ru_action message) with
  | None => None
  | Some action =>
      let rule := route_rule None None None None None None None None action None None in
      let '(protocol, rule) := foldl (scan_rule message) (None, rule) (ru_attributes message) in
      if match protocol with
         | Some p => negb (bool_decide (p ∈ SUPPORTED_STATIC_ROUTE_RULE_PROTOCOL))
         | None => false
         end
      then None
      else
        let rule :=
          if bool_decide (rr_table_id rule = None) && (RT_TABLE_UNSPEC <? ru_table message)
          then set_rr_table_id (Some (ru_table message)) rule else rule in
        Some (set_rr_family (rule_family (ru_family message)) rule)
  end.

Definition route_rules_from_messages (messages : list RuleMessage) : RouteRules :=
  route_rules (Some (dedup_rules (sort_rules (omap route_rule_from_message messages)))).

(** ** Writing *)

(** [parse_rule_network]. *)
Definition parse_rule_network (ip_net : string) (family : NetFamily) : res (IpAddr * Z) :=
  let max_len (address : IpAddr) : Z := if is_ipv6 address then 128 else 32 in
  let checked (address : IpAddr) (prefix : Z) : res (IpAddr * Z) :=
    if negb (Bool.eqb (is_ipv6 address) (bool_decide (family = Inet6))) then fail InvalidArgument
    else if max_len address <? prefix then fail InvalidArgument
    else Ok (address, prefix) in
  match str_split slash ip_net with
  | [addr] =>
      match ip_from_str addr with
      | Some address => checked address (max_len address)
      | None => fail InvalidArgument
      end
  | [addr; len] =>
      match ip_from_str addr with
      | Some address =>
          match parse_unsigned U8_MAX len with
          | Some prefix => checked address prefix
          | None => fail InvalidArgument
          end
      | None => fail InvalidArgument
      end
  | _ => fail InvalidArgument
  end.

(** One prefix of the rule: its length in the header and its attribute. *)
Definition rule_network (net : option string) (family : NetFamily) (attr : IpAddr → RuleAttribute) :
    res (Z * list RuleAttribute) :=
  match net with
  | Some net => let? p := parse_rule_network net family in Ok (p.2, [attr p.1])
  | None => Ok (0, [])
  end.

(** [u32::try_from]. *)
Definition try_u32 (v : Z) : option Z := if (0 <=? v) && (v <=? U32_MAX) then Some v else None.

Definition rule_action_message (action : option RouteRuleAction) : RuleAction :=
  match action with
  | Some ABlackhole => RaBlackhole
  | Some AUnreachable => RaUnreachable
  | Some AProhibit => RaProhibit
  | None => RaToTable
  end.

(** The table in the header, and as an attribute when it does not fit. *)
Definition rule_table (table_id : option Z) (action : option RouteRuleAction) : Z * list RuleAttribute :=
  match table_id with
  | Some t =>
      if t =? RULE_USE_DEFAULT_ROUTE_TABLE
      then (if bool_decide (action = None) then RT_TABLE_MAIN else 0, [])
      else if t <=? U8_MAX then (t, []) else (0, [RuTable t])
  | None => (if bool_decide (action = None) then RT_TABLE_MAIN else 0, [])
  end.

Definition option_attr {A} (f : A → RuleAttribute) (x : option A) : list RuleAttribute :=
  match x with Some x => [f x] | None => [] end.

(** [route_rule_message], for adding and removing. *)
Definition route_rule_message (rule : RouteRuleEntry) : res RuleMessage :=
  match rr_priority rule ≫= try_u32 with
  | None => fail InvalidArgument
  | Some priority =>
      let family := if rule_is_ipv6 rule then Inet6 else Inet in
      let '(table, table_attrs) := rule_table (rr_table_id rule) (rr_action rule) in
      let? source := rule_network (rr_ip_from rule) family RuSource in
      let? destination := rule_network (rr_ip_to rule) family RuDestination in
      Ok (rule_message family (rule_action_message (rr_action rule)) source.1 destination.1 table
            (table_attrs ++ source.2 ++ destination.2 ++ [RuPriority priority] ++
             option_attr RuFwMark (rr_fwmark rule) ++ option_attr RuFwMask (rr_fwmask rule) ++
             option_attr RuIifname (rr_iif rule) ++
             option_attr RuSuppressPrefixLen (rr_suppress_prefix_length rule)))
  end.

Section Apply.
Context {K : Type} `{!Rtnetlink K}.

(** [get_route_rules]: the rules of IPv6 first. *)
Definition get_route_rules : Eff K RouteRules :=
  _ ← new_connection;
  v6 ← dump (nl_rules true);
  v4 ← dump (nl_rules false);
  mret (route_rules_from_messages (v6 ++ v4)).

(** Removing a rule that is not there, or adding one that is, is done. *)
Definition apply_rule (rule : RouteRuleEntry) : Eff K () :=
  message ← eff_res (route_rule_message rule);
  if rule_is_absent rule then change (Some ENOENT) (nl_del_rule message)
  else change (Some EEXIST) (nl_add_rule message).

Definition netlink_apply_route_rules (rules : list RouteRuleEntry) : Eff K () :=
  match rules with
  | [] => mret ()
  | _ => _ ← new_connection; eff_each apply_rule rules
  end.

End Apply.

(** ** Reading back what was written *)

Lemma parse_rule_network_string i p family :
  ip_ok i → 0 ≤ p ≤ ip_width i → is_ipv6 i = bool_decide (family = Inet6) →
  parse_rule_network (network_string i p) family = Ok (i, p).
Proof.
  intros Hi Hp Hf. pose proof (ip_width_range i). unfold parse_rule_network.
  rewrite split_network by lia. rewrite ip_parse_display by done.
  rewrite parse_dec by (unfold U8_MAX; lia). rewrite Hf, eqb_reflx. simpl.
  rewrite <-Hf. unfold ip_width in Hp. by destruct (is_ipv6 i); rewrite (proj2 (Z.ltb_ge _ _)) by lia.
Qed.

(** A canonical prefix of the family of the rule. *)
Lemma rule_network_ok net fam attr :
  (∀ n, net = Some n → canonical_network n ∧ addr_family n = fam) →
  ∃ len attrs, rule_network net (if bool_decide (fam = Ipv6) then Inet6 else Inet) attr = Ok (len, attrs) ∧
    match net with
    | Some n => ∃ i, attrs = [attr i] ∧ n = network_string i len
    | None => attrs = []
    end.
Proof.
  intros H. destruct net as [n|]; [|by exists 0, []]. destruct (H n eq_refl) as [(i & p & -> & Hi & Hp & _) Hf].
  simpl. pose proof (ip_width_range i).
  rewrite parse_rule_network_string; [simpl; eauto 7|done|done|].
  unfold addr_family in Hf. rewrite is_ipv6_network in Hf by lia. by subst fam; destruct (is_ipv6 i).
Qed.

(** The rule as it is read back: the table that was meant is named, and a prefix length that
    means none is not given. *)
Definition read_back_table (rule : RouteRuleEntry) : option Z :=
  match rr_table_id rule with
  | Some t => if t =? RULE_USE_DEFAULT_ROUTE_TABLE
              then (if bool_decide (rr_action rule = None) then Some RT_TABLE_MAIN else None)
              else Some t
  | None => if bool_decide (rr_action rule = None) then Some RT_TABLE_MAIN else None
  end.

Definition read_back (rule : RouteRuleEntry) : RouteRuleEntry :=
  let 'route_rule fam state from to priority table fwmark fwmask action iif suppress := rule in
  route_rule fam None from to priority (read_back_table rule) fwmark fwmask action iif
    (if bool_decide (suppress = Some U32_MAX) then None else suppress).

Lemma read_back_is_match rule :
  rule_sane rule → rr_suppress_prefix_length rule ≠ Some U32_MAX →
  rule_is_match rule (read_back rule) = true.
Proof.
  intros Hs Hn. pose proof Hs as [(f & Hf & H1 & H2) _ Ht].
  destruct rule as [fam st nf nt p tb m k a i l]. simpl in *. unfold rule_is_match, read_back, read_back_table.
  cbn [rr_family rr_ip_from rr_ip_to rr_priority rr_table_id rr_fwmark
    rr_fwmask rr_action rr_iif rr_suppress_prefix_length].
  rewrite !prefix_matches_refl by naive_solver. cbn [negb].
  rewrite (bool_decide_true (fam = fam)) by done. rewrite (bool_decide_true (p = p)) by done.
  rewrite !andb_false_r, !Z.eqb_refl, !andb_false_r.
  assert (∀ {A} `{EqDecision A} (x : option A), differs x x = false) as Hd.
  { intros A dec x. apply differs_false. apply agrees_refl. }
  rewrite (bool_decide_false (l = Some U32_MAX)) by done.
  rewrite !Hd. destruct tb as [t|]; [|done].
  destruct (t =? RULE_USE_DEFAULT_ROUTE_TABLE) eqn:E; [|by rewrite Hd, andb_false_r].
  apply Z.eqb_eq in E as ->. by rewrite (bool_decide_true (Some _ = Some _)).
Qed.

(** A sane rule is of the family it says. *)
Lemma sane_family rule f :
  rr_family rule = Some f →
  (∀ n, rr_ip_from rule = Some n → addr_family n = f) → (∀ n, rr_ip_to rule = Some n → addr_family n = f) →
  rule_is_ipv6 rule = bool_decide (f = Ipv6).
Proof.
  unfold rule_is_ipv6, addr_family. intros Hf H1 H2. rewrite Hf.
  destruct f; [|done].
  rewrite !bool_decide_eq_false_2; [done|..]; try done.
  - destruct (rr_ip_to rule) as [n|]; [|done]. specialize (H2 n eq_refl). simpl. intros [= E]. by rewrite E in H2.
  - destruct (rr_ip_from rule) as [n|]; [|done]. specialize (H1 n eq_refl). simpl. intros [= E]. by rewrite E in H1.
Qed.

(** What is read out of the attributes that are written. *)
Lemma scan_written message action a1 a2 table nf nt p m k i l :
  match nf with Some n => ∃ x, a1 = [RuSource x] ∧ n = network_string x (ru_src_len message) | None => a1 = [] end →
  match nt with Some n => ∃ x, a2 = [RuDestination x] ∧ n = network_string x (ru_dst_len message) | None => a2 = [] end →
  (∀ t, table = Some t → 0 < t) →
  foldl (scan_rule message) (None, route_rule None None None None None None None None action None None)
    (option_attr RuTable table ++ a1 ++ a2 ++ RuPriority p :: option_attr RuFwMark m ++
     option_attr RuFwMask k ++ option_attr RuIifname i ++ option_attr RuSuppressPrefixLen l) =
    (None, route_rule None None nf nt (Some p) table m k action i
             (if bool_decide (l = Some U32_MAX) then None else l)).
Proof.
  intros H1 H2 Ht.
  assert (∀ pr fam st f t q tb fm fk ac ii,
    foldl (scan_rule message) (pr, route_rule fam st f t q tb fm fk ac ii None) (option_attr RuSuppressPrefixLen l) =
      (pr, route_rule fam st f t q tb fm fk ac ii (if bool_decide (l = Some U32_MAX) then None else l))) as Hl.
  { intros. destruct l as [l|]; [|done]. simpl. destruct (l =? U32_MAX) eqn:E; bool_hyps.
    - subst l. by rewrite bool_decide_eq_true_2.
    - rewrite bool_decide_eq_false_2; [done|congruence]. }
  change (RuPriority p :: ?x) with ([RuPriority p] ++ x). rewrite !foldl_app.
  assert (foldl (scan_rule message) (None, route_rule None None None None None None None None action None None)
    (option_attr RuTable table) = (None, route_rule None None None None None table None None action None None)) as ->.
  { destruct table as [t|]; [|done]. specialize (Ht t eq_refl). simpl.
    by rewrite (proj2 (Z.ltb_lt RT_TABLE_UNSPEC t)) by done. }
  destruct nf as [nf|]; [destruct H1 as (x & -> & ->)|subst a1];
  (destruct nt as [nt|]; [destruct H2 as (y & -> & ->)|subst a2]);
  destruct m, k, i; apply Hl.
Qed.

(** C11: A sanitized rule with a priority of 32 bits can be written, and only such a rule;
    what is then read out of the message is the rule again, with the table that was meant,
    and the verification takes it for the rule that was asked for. *)
Theorem rule_message_roundtrip rule :
  rule_sane rule → (∀ t, rr_table_id rule = Some t → 0 ≤ t) →
  (is_ok (route_rule_message rule) = true ↔ ∃ p, rr_priority rule = Some p ∧ 0 ≤ p ≤ U32_MAX) ∧
  ∀ message, route_rule_message rule = Ok message →
    route_rule_from_message message = Some (read_back rule) ∧
    (rr_suppress_prefix_length rule ≠ Some U32_MAX → rule_is_match rule (read_back rule) = true).
Proof.
  intros Hs Ht. pose proof Hs as [(f & Hf & H1 & H2) _ _].
  pose proof (sane_family rule f Hf (λ n e, proj2 (H1 n e)) (λ n e, proj2 (H2 n e))) as H6.
  destruct (rule_network_ok _ _ RuSource H1) as (l1 & a1 & E1 & Ha1).
  destruct (rule_network_ok _ _ RuDestination H2) as (l2 & a2 & E2 & Ha2).
  unfold route_rule_message. rewrite H6, E1, E2.
  assert (∀ p, rr_priority rule ≫= try_u32 = Some p ↔ rr_priority rule = Some p ∧ 0 ≤ p ≤ U32_MAX) as Hp.
  { intros p. unfold try_u32. destruct (rr_priority rule) as [q|]; simpl; [|naive_solver].
    destruct ((0 <=? q) && (q <=? U32_MAX)) eqn:E.
    - bool_hyps. naive_solver.
    - apply andb_false_iff in E. rewrite !Z.leb_gt in E. split; [done|]. intros [[= ->] ?]. lia. }
  destruct (rr_priority rule ≫= try_u32) as [p|] eqn:Ep.
  2: { split; [|done]. split; [done|]. by intros (q & Hq%Hp). }
  pose proof (proj1 (Hp p) eq_refl) as [Hpr Hrange].
  destruct (rule_table (rr_table_id rule) (rr_action rule)) as [t ta] eqn:Et. split.
  { split; [|done]. intros _. eauto. }
  intros message [= <-]. split; [|by apply read_back_is_match].
  destruct rule as [fam st nf nt pr tb m k a i l]. simpl in *. subst fam pr.
  unfold route_rule_from_message.
  assert (∃ table, ta = option_attr RuTable table ∧ (∀ t, table = Some t → 0 < t) ∧
    (if bool_decide (table = None) && (RT_TABLE_UNSPEC <? t) then Some t else table) =
      read_back_table (route_rule (Some f) st nf nt (Some p) tb m k a i l)) as (table & -> & Hta & Hrb).
  { unfold rule_table in Et. unfold read_back_table. cbn [rr_table_id rr_action].
    destruct tb as [tb|]; [destruct (tb =? RULE_USE_DEFAULT_ROUTE_TABLE) eqn:E0; [|destruct (tb <=? U8_MAX) eqn:E8]|];
      injection Et as <- <-; bool_hyps.
    - exists None. split_and!; [done..|]. by destruct (bool_decide (a = None)).
    - exists None. split_and!; [done..|]. specialize (Ht tb eq_refl). unfold RULE_USE_DEFAULT_ROUTE_TABLE in E0.
      simpl. by rewrite (proj2 (Z.ltb_lt RT_TABLE_UNSPEC tb)) by (unfold RT_TABLE_UNSPEC; lia).
    - exists (Some tb). split_and!; [done| |done]. intros ? [= <-]. unfold U8_MAX in E8. lia.
    - exists None. split_and!; [done..|]. by destruct (bool_decide (a = None)). }
  cbn [ru_action ru_attributes ru_table ru_family].
  assert (rule_action (rule_action_message a) = Some a) as -> by (by destruct a as [[]|]).
  rewrite (scan_written _ a a1 a2 table nf nt) by done. cbn [rr_table_id ru_table].
  assert (rule_family (if bool_decide (f = Ipv6) then Inet6 else Inet) = Some f) as -> by (by destruct f).
  unfold read_back. rewrite <-Hrb. by destruct (bool_decide (table = None) && _).
Qed.

Definition ex_written_rule : RouteRuleEntry :=
  route_rule (Some Ipv4) None (Some "192.0.2.0/24") None (Some 100) (Some 500) (Some 7) None None (Some "eth0") None.

Lemma rule_message_roundtrip_witness :
  match route_rule_message ex_written_rule with
  | Ok message => route_rule_from_message message = Some (read_back ex_written_rule) ∧
                  rule_is_match ex_written_rule (read_back ex_written_rule) = true
  | Err _ => False
  end.
Proof.
  assert (rule_sane ex_written_rule) as Hs by (apply (rule_sanitize_sane ex_written_rule); reflexivity).
  destruct (rule_message_roundtrip ex_written_rule Hs) as [Hok Hrt]; [intros t [= <-]; lia|].
  destruct (route_rule_message ex_written_rule) as [message|e] eqn:E.
  - destruct (Hrt message eq_refl) as [H1 H2]. split; [exact H1|]. apply H2. discriminate.
  - assert (is_ok (Err e : res RuleMessage) = true) as H; [|discriminate H].
    apply Hok. exists 100. split; [reflexivity|unfold U32_MAX; lia].
Defined.

(** A priority that was left to be chosen cannot be written. *)
Example unset_priority_is_refused :
  route_rule_message (set_rr_priority (Some USE_DEFAULT_PRIORITY) ex_written_rule) = fail InvalidArgument.
Proof. vm_compute. reflexivity. Qed.
