(* ===== verification/NetlinkRoute.v ===== *)
(** * NetlinkRoute: routes of the kernel

    [src/lib/netlink/route.rs]: routes read out of messages, and the messages that add and
    remove a route.  The messages are put together by [RouteMessageBuilder] of the crate
    [rtnetlink], an interface with the laws that the code relies on. *)

From S2P Require Export NetlinkRule.

#[local] Open Scope Z_scope.

Definition SUPPORTED_ROUTE_SCOPE : list RouteScope := [ScUniverse; ScLink].
Definition SUPPORTED_ROUTE_PROTOCOL : list RouteProtocol :=
  [PKernel; PBoot; PStatic; PRa; PDhcp; PMrouted; PKeepAlived; PBabel].
Definition SUPPORTED_STATIC_ROUTE_PROTOCOL : list RouteProtocol := [PBoot; PStatic].
Definition LOCAL_ROUTE_TABLE : Z := 255.
Definition RTAX_CWND : Z := 7.
Definition IPV4_DEFAULT_GATEWAY : string := "0.0.0.0/0".
Definition IPV6_DEFAULT_GATEWAY : string := "::/0".
Definition IPV4_EMPTY_NEXT_HOP_ADDRESS : string := "0.0.0.0".
Definition IPV6_EMPTY_NEXT_HOP_ADDRESS : string := "::".

(** ** Reading *)

(** The last table attribute, or that of the header. *)
Definition route_table (message : RouteMessage) : Z :=
  foldl (λ table attr, match attr with RtTable v => v | _ => table end) (rm_table message)
    (rm_attributes message).

Definition is_supported_route (message : RouteMessage) (protocol : RouteProtocol) : bool :=
  bool_decide (protocol ∈ SUPPORTED_ROUTE_PROTOCOL) &&
  negb (route_table message =? LOCAL_ROUTE_TABLE) &&
  bool_decide (rm_scope message ∈ SUPPORTED_ROUTE_SCOPE).

Definition is_static_protocol (protocol : RouteProtocol) : bool :=
  bool_decide (protocol ∈ SUPPORTED_STATIC_ROUTE_PROTOCOL).

Definition route_type_from_netlink (route_type : RouteKind) : option RouteType :=
  match route_type with
  | RkBlackHole => Some Blackhole
  | RkUnreachable => Some Unreachable
  | RkProhibit => Some Prohibit
  | _ => None
  end.

Definition route_address_to_string (address : RouteAddress) : option string :=
  match address with
  | RaInet a => Some (ip_display (V4 a))
  | RaInet6 a => Some (ip_display (V6 a))
  | RaMpls => None
  end.

Definition empty_next_hop_addr (family : NetFamily) : option string :=
  match family with
  | Inet => Some IPV4_EMPTY_NEXT_HOP_ADDRESS
  | Inet6 => Some IPV6_EMPTY_NEXT_HOP_ADDRESS
  | OtherFamily _ => None
  end.

(** The first destination, even if it is not an address of IP. *)
Definition route_destination (message : RouteMessage) : option string :=
  match find_map (λ attr, match attr with RtDestination d => Some d | _ => None end)
          (rm_attributes message) with
  | Some destination =>
      (λ address, String.append address
                    (String slash (dec_string (rm_destination_prefix_length message))))
        <$> route_address_to_string destination
  | None =>
      match rm_family message with
      | Inet => Some IPV4_DEFAULT_GATEWAY
      | Inet6 => Some IPV6_DEFAULT_GATEWAY
      | OtherFamily _ => None
      end
  end.

(** A link without a name is shown by its index. *)
Definition link_shown (index_map : LinkIndexMap) (index : Z) : string :=
  default (unsigned_string index) (index_name index_map index).

Definition route_oif (message : RouteMessage) (index_map : LinkIndexMap) : option string :=
  link_shown index_map <$>
    find_map (λ attr, match attr with RtOif i => Some i | _ => None end) (rm_attributes message).

(** The last gateway and the last [via], which takes precedence. *)
Definition scan_gateway (acc : option string * option string) (attr : RouteAttribute) :
    option string * option string :=
  match attr with
  | RtGateway address => (route_address_to_string address, acc.2)
  | RtVia (ViaInet a) => (acc.1, Some (ip_display (V4 a)))
  | RtVia (ViaInet6 a) => (acc.1, Some (ip_display (V6 a)))
  | _ => acc
  end.

Definition route_next_hop_addr (message : RouteMessage) : option string :=
  let '(gateway, via) := foldl scan_gateway (None, None) (rm_attributes message) in
  option_or via gateway.

Definition route_preferred_source (message : RouteMessage) : option string :=
  find_map (λ attr, match attr with RtPrefSource s => Some s | _ => None end) (rm_attributes message)
    ≫= route_address_to_string.

Definition route_metric (message : RouteMessage) : option Z :=
  find_map (λ attr, match attr with RtPriority m => Some m | _ => None end) (rm_attributes message).

Definition next_hop_gateway (next_hop : RouteNextHop) : option string :=
  find_map (λ attr, match attr with NhGateway a => Some a | NhOther => None end) (nh_attributes next_hop)
    ≫= route_address_to_string.

Record RouteMetrics : Type := route_metrics_of {
  me_lock : option Z;
  me_cwnd : option Z;
  me_initcwnd : option Z;
  me_initrwnd : option Z;
  me_mtu : option Z;
  me_quickack : option Z;
  me_advmss : option Z;
}.

Definition metrics_default : RouteMetrics := route_metrics_of None None None None None None None.

Definition scan_metric (m : RouteMetrics) (nla : RouteMetric) : RouteMetrics :=
  let 'route_metrics_of lock cwnd initcwnd initrwnd mtu quickack advmss := m in
  match nla with
  | RmLock v => route_metrics_of (Some v) cwnd initcwnd initrwnd mtu quickack advmss
  | RmCwnd v => route_metrics_of lock (Some v) initcwnd initrwnd mtu quickack advmss
  | RmInitCwnd v => route_metrics_of lock cwnd (Some v) initrwnd mtu quickack advmss
  | RmInitRwnd v => route_metrics_of lock cwnd initcwnd (Some v) mtu quickack advmss
  | RmMtu v => route_metrics_of lock cwnd initcwnd initrwnd (Some v) quickack advmss
  | RmQuickAck v => route_metrics_of lock cwnd initcwnd initrwnd mtu (Some v) advmss
  | RmAdvmss v => route_metrics_of lock cwnd initcwnd initrwnd mtu quickack (Some v)
  | RmOther => m
  end.

Definition scan_metrics (m : RouteMetrics) (attr : RouteAttribute) : RouteMetrics :=
  match attr with RtMetrics nlas => foldl scan_metric m nlas | _ => m end.

Definition route_metrics (message : RouteMessage) : RouteMetrics :=
  foldl scan_metrics metrics_default (rm_attributes message).

(** The congestion window counts only when it is locked. *)
Definition locked_cwnd (metrics : RouteMetrics) : option Z :=
  if Z.land (default 0 (me_lock metrics)) (Z.shiftl 1 RTAX_CWND) =? 0 then None else me_cwnd metrics.

Definition message_protocol (message : RouteMessage) : RouteProtocol :=
  protocol_from_u8 (rm_protocol message).

(** [route_entry]. *)
Definition entry_of_message (message : RouteMessage) (index_map : LinkIndexMap) : RouteEntry :=
  let metrics := route_metrics message in
  route_entry None (route_destination message) (route_oif message index_map)
    (option_or (route_next_hop_addr message) (empty_next_hop_addr (rm_family message)))
    (route_metric message) (Some (route_table message)) None None (locked_cwnd metrics)
    (route_preferred_source message) (me_initcwnd metrics) (me_initrwnd metrics) (me_mtu metrics)
    ((λ q, 0 <? q) <$> me_quickack metrics) (me_advmss metrics)
    (if rm_onlink message then Some true else None) None (Some (message_protocol message)).

Definition route_entry_for_type (message : RouteMessage) (index_map : LinkIndexMap)
    (route_type : RouteType) : RouteEntry :=
  route_entry None (route_destination message)
    (if bool_decide (rm_family message = Inet6) then route_oif message index_map else None)
    None (route_metric message) (Some (route_table message)) None (Some route_type)
    (locked_cwnd (route_metrics message)) None None None None None None None None
    (Some (message_protocol message)).

Definition route_entry_for_unicast (message : RouteMessage) (index_map : LinkIndexMap) :
    option RouteEntry :=
  let entry := entry_of_message message index_map in
  match rt_next_hop_iface entry with Some _ => Some entry | None => None end.

Definition is_multipath (message : RouteMessage) : bool :=
  existsb (λ attr, match attr with RtMultiPath (_ :: _) => true | _ => false end) (rm_attributes message).

(** One next hop of a multipath route. *)
Definition next_hop_entry (message : RouteMessage) (index_map : LinkIndexMap) (next_hop : RouteNextHop) :
    RouteEntry :=
  let 'route_entry st d _ _ m t _ ty c s ic ir mt q ad o v p := entry_of_message message index_map in
  route_entry st d (Some (link_shown index_map (nh_interface_index next_hop)))
    (Some (default "" (next_hop_gateway next_hop))) m t
    (if bool_decide (rm_family message = Inet) then Some (nh_hops next_hop + 1) else None)
    ty c s ic ir mt q ad o v p.

Definition flat_multipath_route (message : RouteMessage) (index_map : LinkIndexMap) : list RouteEntry :=
  mjoin ((λ attr, match attr with
                  | RtMultiPath next_hops => next_hop_entry message index_map <$> next_hops
                  | _ => []
                  end) <$> rm_attributes message).

(** One message: the entries it is shown as. *)
Definition message_entries (message : RouteMessage) (index_map : LinkIndexMap) : list RouteEntry :=
  if is_supported_route message (message_protocol message) then
    if is_multipath message then flat_multipath_route message index_map
    else
      match route_type_from_netlink (rm_kind message) with
      | Some route_type => [route_entry_for_type message index_map route_type]
      | None => option_list (route_entry_for_unicast message index_map)
      end
  else [].

(** The loop: what runs, and what of it is configuration. *)
Definition add_message (index_map : LinkIndexMap) (acc : list RouteEntry * list RouteEntry)
    (message : RouteMessage) : list RouteEntry * list RouteEntry :=
  let entries := message_entries message index_map in
  (acc.1 ++ entries, if is_static_protocol (message_protocol message) then acc.2 ++ entries else acc.2).

Definition routes_from_messages (messages : list RouteMessage) (index_map : LinkIndexMap) : Routes :=
  let '(run, conf) := foldl (add_message index_map) ([], []) messages in
  routes (Some run) (Some conf).

(** ** Writing *)

Definition parse_ip_network (destination : string) : res (IpAddr * Z) :=
  let max_len (address : IpAddr) : Z := if is_ipv6 address then 128 else 32 in
  let checked (address : IpAddr) (prefix : Z) : res (IpAddr * Z) :=
    if max_len address <? prefix then fail InvalidArgument else Ok (address, prefix) in
  match str_split slash destination with
  | [addr] =>
      match ip_from_str addr with
      | Some address => checked address (max_len address)
      | None => fail InvalidArgument
      end
  | [addr; len] =>
      match ip_from_str addr with
      | Some address =>
          match parse_unsigned U8_MAX len with
          | Some prefix => checked address prefix
          | None => fail InvalidArgument
          end
      | None => fail InvalidArgument
      end
  | _ => fail InvalidArgument
  end.

Definition validate_route_for_apply (route : RouteEntry) : res () :=
  if match rt_table_id route with Some t => U8_MAX <? t | None => false end then fail NoSupport
  else if bool_decide (is_Some (rt_weight route)) then fail NoSupport
  else if bool_decide (is_Some (rt_route_type route)) then fail NoSupport
  else if bool_decide (is_Some (rt_cwnd route)) then fail NoSupport
  else Ok ().

(** [RouteMessageBuilder<IpAddr>]; what returns [None] fails. *)
Class RouteBuilder (B : Type) : Type := {
  rb_new : B;
  rb_destination_prefix : IpAddr → Z → B → option B;
  rb_protocol : Z → B → B;
  rb_scope : RouteScope → B → B;
  rb_kind : RouteKind → B → B;
  rb_table_id : Z → B → B;
  rb_priority : Z → B → B;
  rb_output_interface : Z → B → B;
  rb_gateway : IpAddr → B → option B;
  rb_pref_source : IpAddr → B → option B;
  rb_onlink : B → B;
  rb_build : B → RouteMessage;
}.

Section Message.
Context {B : Type} `{!RouteBuilder B}.

(** An address of the route, in the text of the request. *)
Definition with_address (set : IpAddr → B → option B) (addr : option string) (b : B) : res B :=
  match addr with
  | Some text =>
      match ip_from_str text with
      | Some a => match set a b with Some b => Ok b | None => fail InvalidArgument end
      | None => fail InvalidArgument
      end
  | None => Ok b
  end.

Definition with_protocol (route : RouteEntry) (remove : bool) (b : B) : B :=
  if remove then
    rb_kind RkUnspec (rb_scope ScNoWhere
      (rb_protocol (default 0 (protocol_to_u8 <$> rt_protocol route)) b))
  else
    rb_kind RkUnicast (rb_scope ScUniverse
      (rb_protocol (default 4 (protocol_to_u8 <$> rt_protocol route)) b)).

Definition with_option {A} (set : A → B → B) (x : option A) (b : B) : B :=
  match x with Some a => set a b | None => b end.

Definition with_interface (index_map : LinkIndexMap) (iface : option string) (b : B) : res B :=
  match iface with
  | Some iface => match name_index index_map iface with
                  | Some index => Ok (rb_output_interface index b)
                  | None => fail InvalidArgument
                  end
  | None => Ok b
  end.

Definition route_message (route : RouteEntry) (index_map : LinkIndexMap) (remove : bool) :
    res RouteMessage :=
  let? _ := validate_route_for_apply route in
  match rt_destination route with
  | None => fail InvalidArgument
  | Some destination =>
      let? dst := parse_ip_network destination in
      match rb_destination_prefix dst.1 dst.2 rb_new with
      | None => fail InvalidArgument
      | Some b =>
          let b := with_protocol route remove b in
          let b := with_option rb_table_id (rt_table_id route) b in
          let b := with_option rb_priority (rt_metric route ≫= try_u32) b in
          let? b := with_interface index_map (rt_next_hop_iface route) b in
          let? b := with_address rb_gateway (rt_next_hop_addr route) b in
          let? b := with_address rb_pref_source (rt_source route) b in
          Ok (rb_build (if negb remove && default false (rt_onlink route) then rb_onlink b else b))
      end
  end.

Definition route_add_message (route : RouteEntry) (index_map : LinkIndexMap) : res RouteMessage :=
  route_message route index_map false.
Definition route_del_message (route : RouteEntry) (index_map : LinkIndexMap) : res RouteMessage :=
  route_message route index_map true.

Context {K : Type} `{!Rtnetlink K}.

(** A route of another protocol that was dumped is left out. *)
Definition dump_protocol_routes (family : NetFamily) (protocol : RouteProtocol) :
    Eff K (list RouteMessage) :=
  messages ← dump (nl_routes family (protocol_to_u8 protocol));
  mret (List.filter (λ m, bool_decide (message_protocol m = protocol)) messages).

(** A dump that fails is skipped. *)
Fixpoint dump_routes (l : list (RouteProtocol * NetFamily)) : Eff K (list RouteMessage) :=
  match l with
  | [] => mret []
  | (protocol, family) :: l =>
      r ← eff_try (dump_protocol_routes family protocol);
      rest ← dump_routes l;
      mret (match r with Ok messages => messages | Err _ => [] end ++ rest)
  end.

Definition dumped : list (RouteProtocol * NetFamily) :=
  mjoin ((λ protocol, [(protocol, Inet6); (protocol, Inet)]) <$> SUPPORTED_ROUTE_PROTOCOL).

Definition netlink_get_routes (index_map : LinkIndexMap) : Eff K Routes :=
  r ← eff_try (connect true);
  _ ← match r with Ok _ => mret () | Err _ => new_connection end;
  messages ← dump_routes dumped;
  mret (routes_from_messages messages index_map).

(** Removing a route that is not there, or adding one that is, is done. *)
Definition apply_route (index_map : LinkIndexMap) (route : RouteEntry) : Eff K () :=
  message ← eff_res (route_message route index_map (is_absent route));
  if is_absent route then change (Some ESRCH) (nl_del_route message)
  else change (Some EEXIST) (nl_add_route message).

Definition netlink_apply_routes (l : list RouteEntry) : Eff K () :=
  match l with
  | [] => mret ()
  | _ =>
      _ ← new_connection;
      index_map ← get_index_map;
      eff_each (apply_route index_map) l
  end.

End Message.

(** ** What is shown *)

Definition shown_static (r : RouteEntry) : bool :=
  match rt_protocol r with Some p => is_static_protocol p | None => false end.

Lemma message_entries_protocol message im r :
  r ∈ message_entries message im →
  rt_protocol r = Some (message_protocol message) ∧ rt_table_id r = Some (route_table message) ∧
  is_supported_route message (message_protocol message) = true.
Proof.
  unfold message_entries. destruct (is_supported_route _ _); [|by intros ?%elem_of_nil].
  destruct (is_multipath message).
  - unfold flat_multipath_route. rewrite list_elem_of_join. intros (l & Hr & (attr & -> & _)%list_elem_of_fmap).
    destruct attr; try (by apply elem_of_nil in Hr). apply list_elem_of_fmap in Hr as (hop & -> & _). done.
  - destruct (route_type_from_netlink _); [by intros ->%list_elem_of_singleton|].
    unfold route_entry_for_unicast. destruct (rt_next_hop_iface _); [|by intros ?%elem_of_nil].
    by intros ->%list_elem_of_singleton.
Qed.

Lemma foldl_add_message im messages : ∀ run conf,
  conf = List.filter shown_static run →
  let '(run', conf') := foldl (add_message im) (run, conf) messages in
  run' = run ++ mjoin ((λ m, message_entries m im) <$> messages) ∧
  conf' = List.filter shown_static run'.
Proof.
  induction messages as [|m messages IH]; intros run conf Hc; [simpl; by rewrite app_nil_r|].
  cbn [foldl]. unfold add_message at 2. cbn [fst snd].
  assert (List.filter shown_static (message_entries m im) =
    if is_static_protocol (message_protocol m) then message_entries m im else []) as Hm.
  { apply filter_const. intros r Hr. apply message_entries_protocol in Hr as (Hp & _).
    unfold shown_static. by rewrite Hp. }
  specialize (IH (run ++ message_entries m im)
    (if is_static_protocol (message_protocol m) then conf ++ message_entries m im else conf)).
  destruct (foldl _ _ messages) as [run' conf']. destruct IH as [-> ->].
  - rewrite List.filter_app, <-Hc, Hm. by destruct (is_static_protocol _); rewrite ?app_nil_r.
  - csimpl. by rewrite (assoc_L (++)).
Qed.

(** The routes that are shown as running are those of the messages, in the order of the
    dump, and exactly those of them that were set up by hand - at boot or as static ones - are
    shown as configuration; no route of the local table is shown, and none of a protocol that
    is not supported. *)
Theorem shown_routes_correct messages im :
  let run := mjoin ((λ m, message_entries m im) <$> messages) in
  routes_from_messages messages im = routes (Some run) (Some (List.filter shown_static run)) ∧
  ∀ r, r ∈ run → rt_table_id r ≠ Some LOCAL_ROUTE_TABLE ∧
    ∃ p, rt_protocol r = Some p ∧ p ∈ SUPPORTED_ROUTE_PROTOCOL.
Proof.
  intros run. subst run. unfold routes_from_messages.
  pose proof (foldl_add_message im messages [] [] eq_refl) as H.
  destruct (foldl _ _ messages) as [run conf]. destruct H as [-> ->]. split; [done|].
  intros r. rewrite list_elem_of_join. intros (l & Hr & (m & -> & Hm)%list_elem_of_fmap).
  pose proof Hr as (Hp & Ht & Hs)%message_entries_protocol. unfold is_supported_route in Hs. bool_hyps.
  split; [congruence|]. eexists. split; done.
Qed.

(** ** Reading back what was written *)

Definition add_attr (attr : RouteAttribute) (m : RouteMessage) : RouteMessage :=
  let 'route_message_of f p t pr s k o l := m in route_message_of f p t pr s k o (l ++ [attr]).

Definition route_address (a : IpAddr) : RouteAddress :=
  match a with V4 n => RaInet n | V6 n => RaInet6 n end.
Definition ip_family (a : IpAddr) : NetFamily := if is_ipv6 a then Inet6 else Inet.

(** The builder sets what it is told and nothing else; a route is one of the main table as
    long as no other is named.  An address of another family than the destination is left
    open. *)
Class RouteBuilderLaws (B : Type) `{!RouteBuilder B} : Prop := {
  law_new : let m := rb_build rb_new in
    rm_table m = RT_TABLE_MAIN ∧ rm_onlink m = false ∧ rm_attributes m = [];
  law_destination_prefix a p (b b' : B) : rb_destination_prefix a p b = Some b' →
    rb_build b' =
      let 'route_message_of _ _ t pr s k o l := rb_build b in
      route_message_of (ip_family a) p t pr s k o (l ++ [RtDestination (route_address a)]);
  law_protocol v (b : B) : rb_build (rb_protocol v b) =
    let 'route_message_of f p t _ s k o l := rb_build b in route_message_of f p t v s k o l;
  law_scope v (b : B) : rb_build (rb_scope v b) =
    let 'route_message_of f p t pr _ k o l := rb_build b in route_message_of f p t pr v k o l;
  law_kind v (b : B) : rb_build (rb_kind v b) =
    let 'route_message_of f p t pr s _ o l := rb_build b in route_message_of f p t pr s v o l;
  law_table_id v (b : B) : 0 ≤ v ≤ U8_MAX → rb_build (rb_table_id v b) =
    let 'route_message_of f p _ pr s k o l := rb_build b in route_message_of f p v pr s k o l;
  law_priority v (b : B) : rb_build (rb_priority v b) = add_attr (RtPriority v) (rb_build b);
  law_output_interface v (b : B) : rb_build (rb_output_interface v b) = add_attr (RtOif v) (rb_build b);
  law_gateway a (b b' : B) : rb_gateway a b = Some b' → rm_family (rb_build b) = ip_family a →
    rb_build b' = add_attr (RtGateway (route_address a)) (rb_build b);
  law_pref_source a (b b' : B) : rb_pref_source a b = Some b' → rm_family (rb_build b) = ip_family a →
    rb_build b' = add_attr (RtPrefSource (route_address a)) (rb_build b);
  law_onlink (b : B) : rb_build (rb_onlink b) =
    let 'route_message_of f p t pr s k _ l := rb_build b in route_message_of f p t pr s k true l;
}.

(** The route as it is read back. *)
Definition route_back (r : RouteEntry) : RouteEntry :=
  route_entry None (rt_destination r) (rt_next_hop_iface r)
    (option_or (rt_next_hop_addr r)
       (Some (if rt_is_ipv6 r then IPV6_EMPTY_NEXT_HOP_ADDRESS else IPV4_EMPTY_NEXT_HOP_ADDRESS)))
    (rt_metric r ≫= try_u32) (Some (default RT_TABLE_MAIN (rt_table_id r))) None None None
    (rt_source r) None None None None None
    (if default false (rt_onlink r) then Some true else None) None (Some PStatic).

(** Nothing is asked for that is not written: the options of the congestion control, the MTU,
    and that a route is not on the link. *)
Definition only_written_options (r : RouteEntry) : Prop :=
  rt_initcwnd r = None ∧ rt_initrwnd r = None ∧ rt_mtu r = None ∧ rt_quickack r = None ∧
  rt_advmss r = None ∧ rt_onlink r ≠ Some false ∧ rt_vrf_name r = None.

Lemma differs_iff `{EqDecision A} (x y : option A) : differs x y = false ↔ x = None ∨ x = y.
Proof. unfold differs. destruct x; [|naive_solver]. rewrite negb_false_iff, bool_decide_eq_true. naive_solver. Qed.

Lemma route_back_is_match r :
  rt_weight r = None → rt_route_type r = None → rt_cwnd r = None →
  (is_match r (route_back r) = true ↔ only_written_options r).
Proof.
  intros Hw Ht Hc. unfold is_match, route_back, only_written_options. cbn -[differs option_or].
  assert (∀ {A} `{EqDecision A} (x : option A), differs x x = false) as Hd.
  { intros A dec x. apply differs_iff. by right. }
  rewrite !Hd, andb_false_r, Hw, Ht, Hc.
  assert (differs (rt_next_hop_addr r) (option_or (rt_next_hop_addr r) (Some
    (if rt_is_ipv6 r then IPV6_EMPTY_NEXT_HOP_ADDRESS else IPV4_EMPTY_NEXT_HOP_ADDRESS))) = false) as ->.
  { apply differs_iff. destruct (rt_next_hop_addr r); [by right|by left]. }
  assert (differs (rt_table_id r) (Some (default RT_TABLE_MAIN (rt_table_id r))) = false) as ->.
  { apply differs_iff. destruct (rt_table_id r); [by right|by left]. }
  rewrite andb_false_r.
  destruct r as [st d i a m t w ty c s ic ir mt q ad o v p]. cbn -[bool_decide]. 
  destruct ic, ir, mt, q, ad, o as [[]|], v; cbn; naive_solver.
Qed.

(** A message with the attributes that are written. *)
Definition written_message (a : IpAddr) (p t : Z) (onlink : bool) (metric : option Z) (index : Z)
    (gateway source : option IpAddr) : RouteMessage :=
  route_message_of (ip_family a) p t 4 ScUniverse RkUnicast onlink
    (RtDestination (route_address a) ::
     option_list (RtPriority <$> metric) ++ [RtOif index] ++
     option_list ((λ g, RtGateway (route_address g)) <$> gateway) ++
     option_list ((λ g, RtPrefSource (route_address g)) <$> source)).

Lemma address_string a : route_address_to_string (route_address a) = Some (ip_display a).
Proof. by destruct a. Qed.

(** What it is read as. *)
Lemma written_entry a p t onlink metric index gateway source im name :
  index_name im index = Some name →
  entry_of_message (written_message a p t onlink metric index gateway source) im =
    route_entry None (Some (network_string a p)) (Some name)
      (option_or (ip_display <$> gateway) (empty_next_hop_addr (ip_family a)))
      metric (Some t) None None None (ip_display <$> source) None None None None None
      (if onlink then Some true else None) None (Some PStatic).
Proof.
  intros Hi. unfold entry_of_message, written_message.
  assert (route_destination (written_message a p t onlink metric index gateway source) =
    Some (network_string a p)) as Hd.
  { unfold route_destination, written_message. cbn [rm_attributes rm_destination_prefix_length find_map].
    by rewrite address_string. }
  unfold written_message in Hd. rewrite Hd. unfold route_oif, route_next_hop_addr, route_metric, route_table,
    route_metrics, route_preferred_source, link_shown. cbn [rm_attributes rm_family rm_table rm_onlink].
  destruct metric, gateway, source; cbn -[entry_of_message ip_display index_name empty_next_hop_addr network_string];
    rewrite ?Hi, ?address_string; reflexivity.
Qed.

(** A route shown alone is the one a later apply looks for. *)
Lemma shown_back shown r x (P : Prop) :
  (is_match r x = true ↔ P) → shown = routes (Some [x]) (Some [x]) →
  shown = routes (Some [x]) (Some [x]) ∧ (current_route_matches shown r = true ↔ P).
Proof.
  intros HP ->. split; [done|]. rewrite <-HP. unfold current_route_matches. simpl.
  by destruct (is_match r x).
Qed.

Section Written.
Context {B : Type} `{!RouteBuilder B} `{!RouteBuilderLaws B}.

(** The addresses are of the family of the destination. *)
Definition same_family (r : RouteEntry) : Prop :=
  ∀ a, rt_next_hop_addr r = Some a ∨ rt_source r = Some a → is_ipv6_addr a = rt_is_ipv6 r.

Lemma with_address_ok set f addr (b b' : B) fam :
  (∀ a b1 b2, set a b1 = Some b2 → rm_family (rb_build b1) = ip_family a →
     rb_build b2 = add_attr (f (route_address a)) (rb_build b1)) →
  (∀ a, addr = Some a → canonical_addr a ∧ is_ipv6_addr a = fam) →
  rm_family (rb_build b) = (if fam then Inet6 else Inet) →
  with_address set addr b = Ok b' →
  ∃ x, addr = ip_display <$> x ∧
    rb_build b' = foldl (λ m a, add_attr (f (route_address a)) m) (rb_build b) (option_list x).
Proof.
  intros Hset Ha Hf. destruct addr as [text|]; [|intros [= <-]; by exists None].
  destruct (Ha text eq_refl) as [(i & Hi & ->) Hfam]. simpl. rewrite ip_parse_display by done.
  destruct (set i b) as [b2|] eqn:E; [|done]. intros [= <-]. exists (Some i). split; [done|].
  simpl. apply Hset; [done|]. unfold is_ipv6_addr in Hfam. rewrite ip_display_colon in Hfam.
  rewrite Hf. unfold ip_family. by rewrite Hfam.
Qed.

Lemma parse_ip_network_string i p :
  ip_ok i → 0 ≤ p ≤ ip_width i → parse_ip_network (network_string i p) = Ok (i, p).
Proof.
  intros Hi Hp. pose proof (ip_width_range i). unfold parse_ip_network.
  rewrite split_network by lia. rewrite ip_parse_display by done.
  rewrite parse_dec by (unfold U8_MAX; lia). unfold ip_width in Hp.
  by destruct (is_ipv6 i); rewrite (proj2 (Z.ltb_ge _ _)) by lia.
Qed.

Lemma add_attr_of attr f p t pr s k o l :
  add_attr attr (route_message_of f p t pr s k o l) = route_message_of f p t pr s k o (l ++ [attr]).
Proof. done. Qed.

(** The message of a route that was accepted. *)
Lemma route_add_message_written r im name index message :
  route_sane r → same_family r → rt_protocol r = None → (∀ t, rt_table_id r = Some t → 0 ≤ t) →
  rt_next_hop_iface r = Some name → name_index im name = Some index →
  route_add_message r im = Ok message →
  (rt_weight r = None ∧ rt_route_type r = None ∧ rt_cwnd r = None) ∧
  ∃ a p gateway source, rt_destination r = Some (network_string a p) ∧ 0 ≤ p ≤ ip_width a ∧
    rt_next_hop_addr r = ip_display <$> gateway ∧ rt_source r = ip_display <$> source ∧
    message = written_message a p (default RT_TABLE_MAIN (rt_table_id r)) (default false (rt_onlink r))
                (rt_metric r ≫= try_u32) index gateway source.
Proof.
  intros Hs Hfam Hp Ht Hn Hi. unfold route_add_message, route_message, validate_route_for_apply.
  destruct (match rt_table_id r with Some t => U8_MAX <? t | None => false end) eqn:Etab; [done|].
  case_bool_decide as Hn1; [done|]. case_bool_decide as Hn2; [done|]. case_bool_decide as Hn3; [done|]. intros H.
  assert (rt_weight r = None ∧ rt_route_type r = None ∧ rt_cwnd r = None) as Hno.
  { by rewrite !eq_None_not_Some. }
  split; [exact Hno|]. destruct (rt_destination r) as [d|] eqn:Ed; [|done].
  destruct (rs_destination r Hs d Ed) as (a & p & -> & Ha & Hpr & _).
  pose proof (ip_width_range a).
  rewrite parse_ip_network_string in H by done. cbn [fst snd] in H.
  destruct (rb_destination_prefix a p rb_new) as [b0|] eqn:E0; [|done].
  apply law_destination_prefix in E0.
  destruct law_new as (N1 & N2 & N3). destruct (rb_build rb_new) as [nf np nt npr ns nk no nl] eqn:En.
  simpl in N1, N2, N3. subst nt no nl.
  set (b1 := with_protocol r false b0) in H.
  assert (rb_build b1 = route_message_of (ip_family a) p RT_TABLE_MAIN 4 ScUniverse RkUnicast false
    [RtDestination (route_address a)]) as E1.
  { subst b1. unfold with_protocol. by rewrite law_kind, law_scope, law_protocol, E0, Hp. }
  set (b2 := with_option rb_table_id (rt_table_id r) b1) in H.
  assert (rb_build b2 = route_message_of (ip_family a) p (default RT_TABLE_MAIN (rt_table_id r)) 4 ScUniverse
    RkUnicast false [RtDestination (route_address a)]) as E2.
  { subst b2. destruct (rt_table_id r) as [t|]; [|done]. simpl. rewrite law_table_id, E1; [done|].
    specialize (Ht t eq_refl). bool_hyps. lia. }
  set (b3 := with_option rb_priority (rt_metric r ≫= try_u32) b2) in H.
  assert (rb_build b3 = route_message_of (ip_family a) p (default RT_TABLE_MAIN (rt_table_id r)) 4 ScUniverse
    RkUnicast false (RtDestination (route_address a) :: option_list (RtPriority <$> (rt_metric r ≫= try_u32)))) as E3.
  { subst b3. destruct (rt_metric r ≫= try_u32) as [m|]; [|done]. simpl. by rewrite law_priority, E2. }
  rewrite Hn in H. simpl with_interface in H. rewrite Hi in H.
  assert (rt_is_ipv6 r = is_ipv6 a) as H6.
  { unfold rt_is_ipv6. rewrite Ed. simpl. rewrite is_ipv6_network by lia. by destruct (is_ipv6 a). }
  destruct (with_address rb_gateway (rt_next_hop_addr r) (rb_output_interface index b3)) as [b5|] eqn:E5; [|done].
  apply (with_address_ok rb_gateway RtGateway _ _ _ (is_ipv6 a) law_gateway) in E5 as (gateway & Hg & E5).
  2: { intros x Hx. split; [by apply (rs_next_hop_addr r Hs)|]. rewrite <-H6. apply Hfam. by left. }
  2: { by rewrite law_output_interface, E3. }
  rewrite law_output_interface, E3, add_attr_of in E5.
  destruct (with_address rb_pref_source (rt_source r) b5) as [b6|] eqn:E6; [|done].
  apply (with_address_ok rb_pref_source RtPrefSource _ _ _ (is_ipv6 a) law_pref_source) in E6 as (source & Hsrc & E6).
  2: { intros x Hx. split; [by apply (rs_source r Hs)|]. rewrite <-H6. apply Hfam. by right. }
  2: { rewrite E5. by destruct gateway. }
  exists a, p, gateway, source. do 4 (split; [assumption || reflexivity|]). injection H as <-. cbn [negb andb].
  unfold written_message. destruct (default false (rt_onlink r)); rewrite ?law_onlink, E6, E5;
    destruct gateway, source; simpl; rewrite <-?(assoc_L (++)); done.
Qed.

(** C10: A sanitized route that can be written is read back as the route that was asked for:
    with its destination, link, addresses and metric, the table that was meant, and as a
    static one, which is configuration; and a later apply finds it in place just if it asks
    for nothing that is not written - a route with an MTU or another option of this kind is
    accepted, applied without it, and asked for again by every apply. *)
Theorem route_message_roundtrip r im name index message :
  route_sane r → same_family r → rt_protocol r = None → (∀ t, rt_table_id r = Some t → 0 ≤ t) →
  rt_table_id r ≠ Some LOCAL_ROUTE_TABLE →
  rt_next_hop_iface r = Some name → name_index im name = Some index → index_name im index = Some name →
  route_add_message r im = Ok message →
  routes_from_messages [message] im = routes (Some [route_back r]) (Some [route_back r]) ∧
  (current_route_matches (routes_from_messages [message] im) r = true ↔ only_written_options r).
Proof.
  intros Hs Hfam Hp Ht Hl Hn Hi Hin Hm.
  destruct (route_add_message_written _ _ _ _ _ Hs Hfam Hp Ht Hn Hi Hm) as
    ((Hw & Hty & Hc) & a & p & gateway & source & Hd & Hpr & Hg & Hsrc & ->).
  apply shown_back; [by apply route_back_is_match|].
  set (t := default RT_TABLE_MAIN (rt_table_id r)).
  set (m := written_message _ _ _ _ _ _ _ _).
  assert (entry_of_message m im = route_back r) as Ee.
  { subst m. rewrite (written_entry _ _ _ _ _ _ _ _ _ _ Hin). unfold route_back. rewrite Hd, Hn, Hg, Hsrc.
    assert (rt_is_ipv6 r = is_ipv6 a) as ->.
    { unfold rt_is_ipv6. rewrite Hd. simpl. pose proof (ip_width_range a). rewrite is_ipv6_network by lia.
      by destruct (is_ipv6 a). }
    unfold ip_family. by destruct (is_ipv6 a). }
  assert (route_table m = t) as Et.
  { subst m. unfold route_table, written_message. cbn [rm_attributes rm_table].
    by destruct (rt_metric r ≫= try_u32), gateway, source. }
  assert (message_entries m im = [route_back r]) as Em.
  { unfold message_entries. change (message_protocol m) with PStatic.
    assert (is_supported_route m PStatic = true) as ->.
    { unfold is_supported_route. rewrite Et. change (rm_scope m) with ScUniverse.
      assert (t ≠ LOCAL_ROUTE_TABLE) as Hne.
      { subst t. destruct (rt_table_id r); [simpl; congruence|done]. }
      by rewrite (proj2 (Z.eqb_neq t LOCAL_ROUTE_TABLE) Hne). }
    assert (is_multipath m = false) as ->.
    { subst m. unfold is_multipath, written_message. cbn [rm_attributes].
      by destruct (rt_metric r ≫= try_u32), gateway, source. }
    change (rm_kind m) with RkUnicast. cbn [route_type_from_netlink].
    unfold route_entry_for_unicast. rewrite Ee. cbn [route_back rt_next_hop_iface]. by rewrite Hn. }
  unfold routes_from_messages. cbn [foldl]. unfold add_message. rewrite Em.
  by change (message_protocol m) with PStatic.
Qed.

End Written.

(** ** Examples *)

(** The messages themselves as builders. *)
#[local] Instance ex_builder : RouteBuilder RouteMessage := {|
  rb_new := route_message_of Inet 0 RT_TABLE_MAIN 4 ScUniverse RkUnicast false [];
  rb_destination_prefix a p m :=
    if (if is_ipv6 a then 128 else 32) <? p then None
    else Some (let 'route_message_of _ _ t pr s k o l := m in
               route_message_of (ip_family a) p t pr s k o (l ++ [RtDestination (route_address a)]));
  rb_protocol v m := let 'route_message_of f p t _ s k o l := m in route_message_of f p t v s k o l;
  rb_scope v m := let 'route_message_of f p t pr _ k o l := m in route_message_of f p t pr v k o l;
  rb_kind v m := let 'route_message_of f p t pr s _ o l := m in route_message_of f p t pr s v o l;
  rb_table_id v m := let 'route_message_of f p _ pr s k o l := m in route_message_of f p v pr s k o l;
  rb_priority v := add_attr (RtPriority v);
  rb_output_interface v := add_attr (RtOif v);
  rb_gateway a m :=
    if bool_decide (rm_family m = ip_family a) then Some (add_attr (RtGateway (route_address a)) m) else None;
  rb_pref_source a m :=
    if bool_decide (rm_family m = ip_family a) then Some (add_attr (RtPrefSource (route_address a)) m) else None;
  rb_onlink m := let 'route_message_of f p t pr s k _ l := m in route_message_of f p t pr s k true l;
  rb_build m := m;
|}.

#[local] Instance ex_builder_laws : RouteBuilderLaws RouteMessage.
Proof.
  split; try done.
  - intros a p b b'. simpl. destruct (_ <? p); [done|]. by intros [= <-].
  - intros a b b'. simpl. case_bool_decide; [|done]. by intros [= <-].
  - intros a b b'. simpl. case_bool_decide; [|done]. by intros [= <-].
Qed.

Definition ex_written_route (mtu : option Z) : RouteEntry :=
  route_entry None (Some "198.51.100.0/24") (Some "eth0") (Some "192.0.2.1") (Some 150) None None None None
    (Some "192.0.2.9") None None mtu None None None None None.

Definition ex_index_map : LinkIndexMap := index_map_insert 2 "eth0" index_map_default.

(** An MTU is accepted, not written, and missed by every later apply. *)
Lemma route_message_roundtrip_witness :
  match route_add_message (ex_written_route (Some 1400)) ex_index_map with
  | Ok message =>
      routes_from_messages [message] ex_index_map =
        routes (Some [route_back (ex_written_route (Some 1400))])
          (Some [route_back (ex_written_route (Some 1400))]) ∧
      current_route_matches (routes_from_messages [message] ex_index_map)
        (ex_written_route (Some 1400)) = false
  | Err _ => False
  end.
Proof.
  destruct (route_add_message (ex_written_route (Some 1400)) ex_index_map) as [message|e] eqn:E;
    [|discriminate E].
  destruct (route_message_roundtrip (ex_written_route (Some 1400)) ex_index_map "eth0" 2 message) as [H1 H2].
  - apply (sanitize_sane (ex_written_route (Some 1400))). vm_compute. reflexivity.
  - intros a [[= <-]|[= <-]]; vm_compute; reflexivity.
  - reflexivity.
  - discriminate.
  - discriminate.
  - reflexivity.
  - vm_compute. reflexivity.
  - vm_compute. reflexivity.
  - exact E.
  - split; [exact H1|]. apply not_true_iff_false. intros (_ & _ & Hm & _)%H2. discriminate Hm.
Defined.
